(* ===== verification/_CoqProject ===== *)
-Q . S2P
Prelude.v
DrcBitmap.v
DrcPool.v
DrcResMap.v
DrcList.v
DrcGlobalRes.v
DrcQueue.v
DrcMapTab.v
DrcTable.v
DrcReform.v
DrcPart.v
DrcPartInv.v
DrcPartThm.v
DrcPartIn.v
DrcPartInit.v
DrcPartReform.v
DrcPartProps.v
DrcRemaster.v
DrcRemasterFsm.v
DrcRemasterThm.v
DrcRemasterInv.v
DrcRemasterNet.v
DrcRemasterRun.v
DrcRemasterLive.v
DrcRemasterStop.v
DrcRemasterProps.v
DrcBaseProps.v
DrcPage.v
DrcPageSim.v
DrcPageInv.v
DrcPageThm.v
DrcPageSpec.v
DrcPageRcy.v
DrcPageProps.v
DrcLock.v
DrcLockInv.v
DrcLockThm.v
DrcLockProps.v
DrcMigrate.v
DrcMigrateThm.v
DrcMigrateInv.v
DrcMigrateFree.v
DrcMigrateProps.v
DrcLocal.v
DrcLocalThm.v
DrcLocalProps.v
DrcRecover.v
DrcRecoverThm.v
DrcRecoverProps.v
DrcRecoverLock.v
DrcRecoverLockThm.v
DrcRecoverLockProps.v
DrcTxn.v
DrcTxnThm.v
DrcTxnProps.v
Conc.v
Dls.v
DlsInv.v
DlsThm.v
DlsWp.v
DlsMaster.v
DlsFun.v
DlsOps.v
DlsClient.v
DlsProps.v
RcReform.v
RcTrigger.v
RcLists.v
RcMembers.v
RcCluster.v
RcClusterInv.v
RcProps.v
