(* ===== verification/Prelude.v ===== *)
(** * oGRAC: the distributed resource catalogue, the lock service and reforms

    oGRAC is a multi-master database: every instance of a cluster runs the
    whole engine on shared storage.  What makes it one database is the
    distributed resource catalogue (DRC, src/pkg/src/cluster/dtc_drc.c,
    dtc_drc.h, dtc_drc_util.c, dtc_drc_util.h): every page and every lock
    belongs to one of 1024 partitions, every partition has a master instance,
    and the master records who owns the page or holds the lock, who waits for
    it and in which order.  This library models that catalogue as it is
    written, down to the pools and link words its tables are made of, and
    proves that the tables represent a finite map of resources and that every
    handler keeps the resources consistent.  On top of it stands the
    distributed lock service (DLS, src/pkg/src/cluster/dtc_dls.c), the latches
    and spin locks of the cluster; it is modelled as threads that run at the
    same time on all instances, and proved to exclude each other.  Below it
    stands the coordinator of reforms (src/pkg/src/rc/rc_reform.c), which finds
    out who joined, left or crashed and decides whose partitions move.

    ** How the parts interact

    The cache service and the lock service of an instance (dtc_dcs.c,
    dtc_dls.c) send requests, claims and releases to the master of the
    resource; the master finds the resource in a hash map, takes the bucket
    lock, decides, and answers; a request that cannot be served waits in the
    convert queue of the resource, whose items come from a pool shared by all
    queues.  When an instance dies or joins, the coordinator of the reformer
    sees that the status list of the cluster manager differs from the current
    one, sorts the instances into the lists of a reform by a table of
    transitions, and the remaster makes the partitions change masters: the
    masters clean what the dead instance left and collect what the survivors
    have cached.

    ** Conventions

    Integers are [Z]; a store to an unsigned field is written with its wrap
    ([u8], [u16], [u32], [u64]).  A function that may call [knl_panic] or
    dereference a slot that does not exist returns an [outcome]: [Crash] is a
    value, so "the handler ends normally" is a theorem and not a convention.
    State is passed explicitly.  A spin lock is the critical section itself;
    where a handler gives a lock up and takes it again, an argument [env] is
    what the other threads do in between, and a [view] is what the handler
    reads at that moment of the reform state, which no lock protects.  The
    answers of other instances and of the network are arguments.  The
    functions of the lock service, whose correctness is a matter of their
    interleaving, are programs of atomic actions instead ([Conc.prog]), each
    action a function of the catalogue on one table or an access to a member
    of a local lock, and the theorems speak of every interleaving.  Statistics
    counters, trace output and the code of [DB_DEBUG_VERSION] are left out,
    but for the one assertion that the replay of the log meets
    ([drc_page_need_recover]).

    ** Files

    - [Prelude]: machine integers, outcomes, intrusive chains, shared facts.
    - [DrcBitmap]: [drc_bitmap64_set], [_clear], [_exist], as sets.
    - [DrcPool]: [drc_res_pool_t], the free list threaded through the items;
      [pool_wf] says which slots are used.
    - [DrcResMap]: [drc_res_map_t], bucket chains threaded through a pool;
      [map_wf] says which finite map it is.
    - [DrcList]: [drc_list_t], the doubly linked list of a partition.
    - [DrcGlobalRes]: [drc_global_res_t], the three together.
    - [DrcQueue]: requests and convert queues; the class [QueueOps] is the
      interface the handlers are written against, with the linked queue of
      the code and the sequence of requests as instances, and the [q_*_sim]
      lemmas relate the two.
    - [DrcMapTab]: tables without partitions ([local_lock_map] and the
      transaction maps).
    - [DrcTable]: a resource table with the item pool of its queues;
      [tab_rep] relates it to a [gmap] of resources.
    - [DrcReform]: the tests on the reform and recovery state.
    - [DrcPage], [DrcPageSim], [DrcPageInv], [DrcPageThm], [DrcPageSpec],
      [DrcPageRcy], [DrcPageProps]: ownership of pages: the definitions, the
      refinement of the functions on one page by those on sequences, the
      invariant of a page, the handlers on the table, the rules of a request
      and of a claim in their own terms (who is refused, queued, served, told
      to invalidate, passed on), the cleaning and rebuilding after a crash, and
      the properties.
    - [DrcLock], [DrcLockInv], [DrcLockThm], [DrcLockProps]: the same for the
      locks.
    - [DrcLocal], [DrcLocalThm], [DrcLocalProps]: the locks an instance keeps
      of its own and their recycling, which composes them with the master.
    - [DrcTxn], [DrcTxnThm], [DrcTxnProps]: the waiters for transactions.
    - [DrcPart], [DrcPartInv], [DrcPartThm], [DrcPartIn], [DrcPartInit],
      [DrcPartReform], [DrcPartProps]: the assignment of the partitions to
      instances: the first one ([drc_part_init]), scale-out, scale-in and
      their composition in one reform ([execute_rebalance], the body of
      [drc_execute_remaster] up to the assignment of the tasks).
    - [DrcRemaster], [DrcRemasterThm]: the statuses the instances report to
      the reformer, the assignment of the tasks of a reform and its waits.
    - [DrcRemasterFsm], [DrcRemasterInv]: the thread of the remaster, step by
      step, the handlers of its messages, starting and stopping, and what
      each of them keeps.
    - [DrcRemasterNet], [DrcRemasterRun], [DrcRemasterLive],
      [DrcRemasterStop], [DrcRemasterProps]: the instances of a reform with
      the messages between them as a step relation, its invariant, an
      executable scheduler for it, the run in which nothing fails, and
      stopping.
    - [DrcMigrate], [DrcMigrateThm], [DrcMigrateInv], [DrcMigrateFree],
      [DrcMigrateProps]: the migration of a partition: the messages with its
      pages and locks, their handler, the thread that finds a partition
      complete ([remaster_part_proc]) and the freeing of what was exported.
      Pages and locks have two copies of the code in the source; here the
      common part is written once over the class [MgrtRes].  A message is
      what its buffer holds at each offset, with the sizes of the structures
      on a 64-bit machine.
    - [DrcRecover], [DrcRecoverThm], [DrcRecoverProps]: the recovery of pages
      whose master has crashed: the scan of the buffer pool of a survivor
      ([drc_collect_page_info]), the batches of reports and their handler
      ([drc_process_send_page_info]), and the test by which the replay of the
      log skips a page ([drc_page_need_recover]).
    - [DrcRecoverLock], [DrcRecoverLockThm], [DrcRecoverLockProps]: the same
      for locks: the walk over the local locks ([drc_lock_res_recovery]), the
      batches and their handler ([drc_process_recovery_lock_res]).
    - [DrcBaseProps]: properties of the containers.
    - [Conc]: programs of atomic actions, pools of threads and their
      interleavings, and a logic of ownership for their safety: weakest
      preconditions over a finite map of ghost entries, each owned by one
      thread, with the theorem that takes the safety of every thread to that
      of the pool.
    - [Dls]: the functions of dtc_dls.c as such programs: requests to the
      master and to the holders, the handlers, latches and spin locks.
    - [DlsInv], [DlsThm]: the invariant: the protocol of one lock (what its
      master records, the mode each instance has, where the request of each
      instance is), and what ties it to the tables of all instances.  The
      thread that has locked the local resource of a lock owns the entry of
      that lock at its instance.
    - [DlsWp], [DlsMaster], [DlsFun], [DlsOps]: the rules of the atomic
      actions, of the master's functions, of the requests, and of the latches
      and spin locks.
    - [DlsClient], [DlsProps]: sessions that call them in any order, and the
      theorems about all sessions together.
    - [RcReform]: the status lists of the cluster manager (cms_stat.c: how one
      is built, when an instance is let in), the table of transitions
      [g_reform_sm] and the lists of a reform ([rc_get_reform_info]).
    - [RcTrigger]: the threads of the coordinator: detection, trigger, the
      reform of the reformer and of the others, the end of a reform, the
      messages about the status and the lists the rest of the program reads.
    - [RcLists], [RcMembers]: the lists of a reform instance by instance, and
      the rebalancing computed from them.
    - [RcCluster], [RcClusterInv]: starting, reporting, crashing, admission and
      reforms of a cluster as a step relation, and its invariant.
    - [RcProps]: an executable form of that relation and the properties.

    ** What the theorems show

    - Representation: the pools, maps, lists and queues implement allocators,
      finite maps, and first-in first-out queues ([DrcBaseProps],
      [DrcPageProps.table_lookup_remove]).
    - Safety: no handler panics or follows a bad index from a well-formed
      table, and the table stays well formed ([page_request_safe],
      [page_claim_safe], [page_recycle_items], [lock_request_answer], ..).  In
      its windows the other threads may do what the comment of each theorem
      says: anything to other resources, and to the one in hand what does not
      free its slot for another or crash its owner; the findings of
      dtc_drc.c:626 and 861 are what happens otherwise.
    - Functional behaviour: what each handler answers and how the map of
      resources changes, on every branch, against rules that do not mention
      the code ([page_request_known], [page_claim_next], [page_claim_known],
      [page_recycle_refused], [lock_claim_grants]).
    - Recovery: after a partition has been cleaned nothing is left of the
      crashed instance and every surviving waiter has been told.  A survivor
      reports every page and every lock it has of the crashed master once, to
      its new master, in messages that are accepted ([recover_reports],
      [lock_recover_reports]); a page rebuilt from the reports of all
      survivors says what they said, in whatever order they came
      ([recover_rebuilt]), and so does a lock when the new master has entered
      its own holdings first ([lock_recover_rebuilt]).  Each survivor sends by
      its own target map, which on all but the reformer may be stale
      ([follower_target_stale]): the theorems ask that the maps send what
      concerns the rebuilt partitions to the instance that rebuilds.  A page is
      replayed from the log exactly when no survivor has it ([recover_redo]);
      in a debug build the master asserts that it is the one that has it
      ([redo_asserts_owner]).
    - Recycling and waiting: a local lock is only given back when nobody uses
      it ([local_recycle]), and nobody who waits for a transaction is
      forgotten when it ends ([txn_no_lost_wakeup]).
    - Partitions: every assignment is even and complete, and a reform moves
      each partition that has to move exactly once ([part_init_even],
      [part_reform], [part_abort]).
    - Remaster: whatever is lost, repeated or delayed, instances that are
      done have the assignment that the reformer computed
      ([remaster_agreement], [remaster_even]), statuses only go forward
      ([remaster_forward]), a reform in which nothing fails ends
      ([remaster_completes]), one that is stopped while its thread runs leaves
      the old assignment ([remaster_stop]; without the thread the stop waits for
      ever, [stop_without_thread]), tasks reach those who export ([remaster_assign]),
      and the waits end ([remaster_wait_ends], [remaster_finish_ends]).
    - Migration: the messages of a partition fit the buffer and hold each of
      its resources once ([migrate_messages]); whatever arrives, a partition
      that is found complete is complete ([migrate_complete]); what is sent
      over a network that delivers, with no request under conversion, comes
      out member by member as it went in ([migrate_roundtrip]); exported partitions are freed and no others
      ([migrate_freed]).
    - The lock service: sessions of any number, on up to 64 instances, calling
      the latch and spin lock functions in any order, every interleaving of
      their actions and every failure to send a message allowed: an exclusive
      latch is alone in the cluster ([latch_exclusion]), a spin lock is locked
      at one instance at most ([spin_exclusion]), what an instance notes of a
      lock its master has recorded ([mode_recorded]), and nothing panics or
      touches a bad address but the two panics of an instance whose own pool
      is used up ([lock_service_safe]).
    - Reforms: each list of a reform holds, in ascending order, the instances
      whose states before and after call for it ([reform_lists]).  From
      the start of a cluster on, whatever starts and crashes in whatever
      order, the instances that the current status list has as members are
      those that master partitions ([cluster_members]), and every reform can
      compute its new assignment, which is even over the members of the list
      after it ([cluster_reforms]); so it is with planned departures
      ([reform_planned]).  These theorems are about [calm_step], the steps in
      which no look at the cluster wakes the thread that reforms between its
      taking the mutex and its freezing the cluster; [reform_runs_twice] is a
      run of [cluster_step] with such a look.
    - Divergences: [forced_share_breaks_exclusion], [page_crash_after_invalidation],
      [lock_recycle_keeps_mode], [lock_partition_padding],
      [part_scalein_twice], [remaster_two_runs], [follower_target_stale],
      [migrate_ignores_cleaning], [migrate_waits], [migrate_clash_leaks],
      [migrate_end_refused], [lock_recover_shadowed], [lock_batches_wiped],
      [late_joiner_blocks], [deleted_node_hides], [alive_by_position],
      [failed_remaster_keeps], [join_and_crash], [failed_status_kept],
      [reform_runs_twice], [stop_without_thread] and [redo_asserts_owner]
      exhibit states in which the code does not do what it means to.

    ** Bounds and fuel

    Loops over a queue, a bucket or a partition list run as many rounds as the
    count the code reads, so no fuel is invented for them.  The wait of
    [drc_request_lock_owner] is the one unbounded loop: its fuel [n] is the
    number of wake-ups observed, and the theorem says in which state a request
    is that has not been answered after [n] of them.  The waits of the
    remaster sleep five milliseconds a round: [timeout / 5 + 2] rounds are
    proved to be enough for [drc_remaster_wait_all_node_ready], and
    [1024 + timeout / 5 + 2] for [drc_remaster_wait_migrate_finish].  The
    thread of the remaster runs as long as it is given rounds; five are
    enough for a reform in which nothing fails.  The sender of a partition
    waits for a converting request under the lock that would let it end: that
    wait is the answer [None], and no fuel bounds it.  The loops of the lock
    service wait for other threads; they are cut after [n] rounds, and the
    theorems, which are about every state that is reached, hold for every [n]:
    a finite piece of a run needs finitely many rounds.  Pools have fewer than
    [2^32 - 1] items, instances are numbered below 64.

    ** Not modelled

    The messages that carry requests and claims of pages, and their retries;
    the interleaving of the threads of one instance in a recovery, which run
    one after the other here; the lock service during a reform (its theorems
    are about a steady cluster, in which the masters do not change and the
    tests on the reform state pass) and its table locks, whose other half is
    in the storage kernel (knl_lock.c).  Of the coordinator of reforms its
    start and its end ([init_cms_rc], [free_cms_rc]), sleeps, and the message
    channels; in the step relation of the cluster the reformer is one instance
    that stays, node [i] runs instance [i], no reform fails, and instances do
    not join and crash in the same reform: [failed_remaster_keeps] and
    [join_and_crash] show what happens otherwise.  Of the cluster manager
    everything but its status lists and the admission of an instance.
    The reformer mode (DRC_IN_REFORMER_MODE) is an argument of the partition
    functions; the theorems on the rebalancing and on the cluster are for the
    mode off, since joining goes wrong with it (finding at dtc_drc.c:3539).  A
    broadcast of the remaster counts its acknowledgements in the transport
    (mes_func.c), which does not tell a repeated one apart; [net_step] asks for
    one of each live instance.  Statistics and monitoring; the cache service, the storage kernel, the SQL
    engine, the transport, drivers and tools.  They call the catalogue or are
    called by it through the arguments named above. *)

From Stdlib Require Export ZArith Lia ZifyBool.
From stdpp Require Export base numbers strings gmap sets list.

Open Scope Z_scope.

(** ** Machine integers

    C integers are kept as [Z]; a store into a [uintN] field is written out
    with the wrap-around of its width. *)
Definition u8 (x : Z) : Z := x mod 2 ^ 8.
Definition u16 (x : Z) : Z := x mod 2 ^ 16.
Definition u32 (x : Z) : Z := x mod 2 ^ 32.
Definition u64 (x : Z) : Z := x mod 2 ^ 64.

(** The invalid identifiers and the instance bound of [cm_defs.h]. *)
Definition OG_INVALID_ID8 : Z := 255.
Definition OG_INVALID_ID16 : Z := 65535.
Definition OG_INVALID_ID32 : Z := 4294967295.
Definition OG_MAX_INSTANCES : Z := 64.

(** [status_t]: the two values the code returns. *)
Inductive status := OG_SUCCESS | OG_ERROR.

#[export] Instance status_eq_dec : EqDecision status.
Proof. solve_decision. Defined.

(** ** Outcomes

    [knl_panic] and [knl_panic_log(0, ..)] write through a null pointer: the
    process dies.  An access to a pool slot that does not exist is undefined
    behaviour.  Both are values of the model, so that "no operation crashes"
    is a statement about it. *)
Inductive crash := Panic | BadAddr.

Inductive outcome (A : Type) : Type :=
| Ok (a : A)
| Crash (why : crash).
Arguments Ok {A} a.
Arguments Crash {A} why.

#[export] Instance outcome_ret : MRet outcome := fun A a => Ok a.
#[export] Instance outcome_bind : MBind outcome := fun A B f m =>
  match m with Ok a => f a | Crash w => Crash w end.

Lemma bind_ok {A B} (f : A -> outcome B) (m : outcome A) (a : A) : m = Ok a -> mbind f m = f a.
Proof. by intros ->. Qed.

(** [knl_panic(cond)]. *)
Definition knl_panic (cond : bool) : outcome unit :=
  if cond then Ok () else Crash Panic.

Declare Scope drc_scope.
Delimit Scope drc_scope with drc.
Notation "'panic_unless' c ';;' k" :=
  (mbind (M := outcome) (fun _ => k) (knl_panic c))
  (at level 100, c at next level, k at level 200, right associativity) : drc_scope.
Open Scope drc_scope.

(** ** Fixed-size arrays: an index out of range is a bad address. *)
Definition rd {A} (m : gmap Z A) (i : Z) : outcome A :=
  match m !! i with Some a => Ok a | None => Crash BadAddr end.
Definition wr {A} (m : gmap Z A) (i : Z) (f : A -> A) : outcome (gmap Z A) := a ← rd m i; Ok (<[i := f a]> m).

(** An array passed by pointer, read only. *)
Definition arg {A} (l : list A) (i : Z) : outcome A :=
  match l !! Z.to_nat i with Some a => if i <? 0 then Crash BadAddr else Ok a | None => Crash BadAddr end.

(** [memset(.., 0, ..)] of an array of [n] entries. *)
Definition filled {A} (n : Z) (a : A) : gmap Z A := list_to_map ((fun i => (i, a)) <$> seqZ 0 n).

Lemma filled_lookup {A} n (a : A) i : 0 <= i < n -> filled n a !! i = Some a.
Proof.
  intros Hi. unfold filled. apply elem_of_list_to_map_1'.
  - intros y Hy. apply list_elem_of_fmap in Hy as (j & [= _ ->] & _). done.
  - apply list_elem_of_fmap. exists i. split; [done|]. rewrite elem_of_seqZ. lia.
Qed.

Lemma filled_dom {A} n (a b : A) i : filled n a !! i = Some b -> b = a.
Proof. unfold filled. intros Hk%elem_of_list_to_map_2. by apply list_elem_of_fmap in Hk as (j & [= _ ->] & _). Qed.

(** ** Automation *)
Create HintDb drc.

(** Split an [Ok] equation of a monadic computation into its steps. *)
Ltac inv_ok :=
  repeat match goal with
  | H : Ok _ = Ok _ |- _ => injection H as H
  | H : Crash _ = Ok _ |- _ => discriminate H
  | H : mret _ = Ok _ |- _ => unfold mret, outcome_ret in H
  | H : mbind ?f ?m = Ok _ |- _ =>
      let E := fresh "Eok" in
      destruct m eqn:E; cbn [mbind outcome_bind] in H; [| discriminate H]
  end.

(** Case analysis on every test of the goal. *)
Ltac split_ifs :=
  repeat (match goal with |- context [if ?c then _ else _] => let E := fresh "Etest" in destruct c eqn:E end;
          cbn [mbind outcome_bind knl_panic negb andb orb]).

Definition outcome_map {A B} (g : A -> B) (m : outcome A) : outcome B :=
  match m with Ok a => Ok (g a) | Crash w => Crash w end.

(** ** Chains of intrusive links

    The free list of a pool and the collision chain of a bucket both thread
    pool slots through the word that is the first field of every item. *)
Class HasNext (A : Type) := {
  it_next : A -> Z;
  it_set_next : Z -> A -> A;
  it_next_set : forall n a, it_next (it_set_next n a) = n;
}.

Section Chain.
Context {A : Type} `{HasNext A}.
Implicit Types (m : gmap Z A) (l : list Z).

(** [chain m h l e]: starting at [h] the links visit exactly the slots of
    [l], in order, and the last link is [e]. *)
Fixpoint chain m (h : Z) l (e : Z) : Prop :=
  match l with
  | [] => h = e
  | i :: l' => h = i /\ exists a, m !! i = Some a /\ chain m (it_next a) l' e
  end.

(** A chain only depends on the links of its own slots. *)
Lemma chain_links m m' h l e :
  (forall i a, i ∈ l -> m !! i = Some a ->
     exists a', m' !! i = Some a' /\ it_next a' = it_next a) ->
  chain m h l e -> chain m' h l e.
Proof.
  revert h; induction l as [|i l IH]; intros h Hm; simpl; [done|].
  intros [-> (a & Ha & Hc)]. split; [done|].
  destruct (Hm i a) as (a' & Ha' & Hn); [set_solver | done |].
  exists a'; split; [done|]. rewrite Hn. apply IH; [|done].
  intros j b Hj. apply Hm. set_solver.
Qed.

Lemma chain_frame m m' h l e :
  (forall i, i ∈ l -> m' !! i = m !! i) -> chain m h l e -> chain m' h l e.
Proof.
  intros Hm. apply chain_links. intros i a Hi Ha. exists a. by rewrite Hm.
Qed.

Lemma chain_insert_out m h l e i a :
  i ∉ l -> chain m h l e -> chain (<[i:=a]> m) h l e.
Proof.
  intros Hi. apply chain_frame. intros j Hj.
  rewrite lookup_insert_ne; [done|]. by intros ->.
Qed.

Lemma chain_app m h l1 l2 e :
  chain m h (l1 ++ l2) e <-> exists x, chain m h l1 x /\ chain m x l2 e.
Proof.
  revert h; induction l1 as [|i l1 IH]; intros h; simpl.
  - split; [by eauto|]. by intros (x & -> & ?).
  - split.
    + intros [-> (a & Ha & Hc)]. apply IH in Hc as (x & ? & ?). eauto 8.
    + intros (x & [-> (a & Ha & Hc)] & ?). split; [done|].
      exists a; split; [done|]. apply IH. eauto.
Qed.

Lemma chain_dom m h l e i : chain m h l e -> i ∈ l -> is_Some (m !! i).
Proof.
  revert h; induction l as [|j l IH]; intros h; simpl; [set_solver|].
  intros [-> (a & Ha & Hc)] [->|Hi]%elem_of_cons; eauto.
Qed.

(** The links determine the chain. *)
Lemma chain_head m h i l e : chain m h (i :: l) e -> h = i.
Proof. by intros [-> _]. Qed.
End Chain.

(** ** Small facts on lists and sets the components share *)
Lemma NoDup_app_elim {A} (l k : list A) :
  NoDup (l ++ k) -> NoDup l /\ NoDup k /\ (forall x, x ∈ l -> x ∈ k -> False).
Proof. rewrite NoDup_app. intros (? & Hd & ?). split_and!; eauto. Qed.

(** An injective finite map has as many values as keys. *)
Lemma size_img_inj {K} `{Countable K} (m : gmap K Z) :
  (forall k k' i, m !! k = Some i -> m !! k' = Some i -> k = k') -> size (map_img m : gset Z) = size m.
Proof.
  intros Hinj. unfold map_img.
  transitivity (length (map_to_list m).*2); [|by rewrite length_fmap, length_map_to_list].
  replace (map_to_set (fun _ i => i) m : gset Z) with (list_to_set (map_to_list m).*2 : gset Z).
  2:{ unfold map_to_set. by f_equal. }
  apply size_list_to_set. apply NoDup_fmap_2_strong; [|apply NoDup_map_to_list].
  intros [k i] [k' i'] Hk%elem_of_map_to_list Hk'%elem_of_map_to_list; cbn. intros <-. by rewrite (Hinj _ _ _ Hk Hk').
Qed.
