(* ===== verification/DrcBitmap.v ===== *)
(** The 64-bit instance maps of the resource catalogue
    ([drc_bitmap64_*], src/pkg/src/cluster/dtc_drc_util.h). *)

From S2P Require Import Prelude.

(** [drc_bitmap64_set]: [*bitmap |= (uint64)1 << num]. *)
Definition drc_bitmap64_set (bitmap num : Z) : Z :=
  Z.lor bitmap (u64 (Z.shiftl 1 num)).

(** [drc_bitmap64_clear]: [*bitmap &= ~((uint64)1 << num)]. *)
Definition drc_bitmap64_clear (bitmap num : Z) : Z :=
  Z.land bitmap (u64 (Z.lnot (Z.shiftl 1 num))).

(** [drc_bitmap64_exist]. *)
Definition drc_bitmap64_exist (bitmap num : Z) : bool :=
  negb (Z.land bitmap (u64 (Z.shiftl 1 num)) =? 0).

(** A value of type [uint64]. *)
Definition is_u64 (x : Z) : Prop := 0 <= x < 2 ^ 64.

(** [i] is in the map [b]: the specification of membership. *)
Definition bm_mem (b i : Z) : Prop := 0 <= i < 64 /\ Z.testbit b i = true.

Lemma testbit_u64 x i : 0 <= i -> Z.testbit (u64 x) i = Z.testbit x i && (i <? 64).
Proof.
  intros Hi. unfold u64. destruct (Z.ltb_spec i 64).
  - by rewrite Z.mod_pow2_bits_low, andb_true_r by lia.
  - by rewrite Z.mod_pow2_bits_high, andb_false_r by lia.
Qed.

Lemma testbit_shl1 n i : 0 <= n -> 0 <= i -> Z.testbit (Z.shiftl 1 n) i = (i =? n).
Proof.
  intros Hn Hi. rewrite Z.shiftl_spec by lia. destruct (Z.eqb_spec i n) as [->|].
  - by rewrite Z.sub_diag.
  - destruct (Z.ltb_spec i n); [rewrite Z.testbit_neg_r by lia; done|].
    rewrite Z.bits_above_log2; [done | lia | cbn; lia].
Qed.

Lemma testbit_bm_set b n i :
  0 <= n < 64 -> 0 <= i -> Z.testbit (drc_bitmap64_set b n) i = Z.testbit b i || (i =? n).
Proof.
  intros Hn Hi. unfold drc_bitmap64_set. rewrite Z.lor_spec, testbit_u64, testbit_shl1 by lia.
  destruct (Z.eqb_spec i n); [|done]. by rewrite (proj2 (Z.ltb_lt i 64)) by lia.
Qed.

Lemma testbit_bm_clear b n i :
  0 <= n -> 0 <= i < 64 ->
  Z.testbit (drc_bitmap64_clear b n) i = Z.testbit b i && negb (i =? n).
Proof.
  intros Hn Hi. unfold drc_bitmap64_clear.
  rewrite Z.land_spec, testbit_u64, Z.lnot_spec, testbit_shl1 by lia.
  by rewrite (proj2 (Z.ltb_lt i 64)), andb_true_r by lia.
Qed.

Lemma bm_exist_testbit b n : 0 <= n < 64 -> drc_bitmap64_exist b n = Z.testbit b n.
Proof.
  intros Hn. unfold drc_bitmap64_exist.
  destruct (Z.testbit b n) eqn:Hb.
  - apply negb_true_iff, Z.eqb_neq. intros H0.
    assert (Z.testbit (Z.land b (u64 (Z.shiftl 1 n))) n = true) as H1.
    { rewrite Z.land_spec, testbit_u64, testbit_shl1, Hb, Z.eqb_refl by lia.
      by rewrite (proj2 (Z.ltb_lt n 64)) by lia. }
    rewrite H0, Z.bits_0 in H1. done.
  - apply negb_false_iff, Z.eqb_eq. apply Z.bits_inj'. intros i Hi.
    rewrite Z.land_spec, testbit_u64, testbit_shl1, Z.bits_0 by lia.
    destruct (Z.eqb_spec i n) as [->|]; [by rewrite Hb | by rewrite andb_false_r].
Qed.

Lemma bm_exist_spec b n : 0 <= n < 64 -> drc_bitmap64_exist b n = true <-> bm_mem b n.
Proof. intros Hn. rewrite bm_exist_testbit by done. unfold bm_mem. tauto. Qed.

Lemma bm_set_mem b n i : 0 <= n < 64 -> bm_mem (drc_bitmap64_set b n) i <-> i = n \/ bm_mem b i.
Proof.
  intros Hn. unfold bm_mem. split.
  - intros [Hi Hb]. rewrite testbit_bm_set in Hb by lia.
    apply orb_true_iff in Hb as [?|?%Z.eqb_eq]; auto.
  - intros [->|[Hi Hb]]; split; try lia; rewrite testbit_bm_set by lia.
    + by rewrite Z.eqb_refl, orb_true_r.
    + by rewrite Hb.
Qed.

Lemma bm_clear_mem b n i : 0 <= n -> bm_mem (drc_bitmap64_clear b n) i <-> i <> n /\ bm_mem b i.
Proof.
  intros Hn. unfold bm_mem. split.
  - intros [Hi Hb]. rewrite testbit_bm_clear in Hb by lia.
    apply andb_true_iff in Hb as [? ?%negb_true_iff%Z.eqb_neq]. auto.
  - intros (Hne & Hi & Hb). split; [lia|]. rewrite testbit_bm_clear, Hb by lia.
    by rewrite (proj2 (Z.eqb_neq i n)).
Qed.

Lemma is_u64_testbit b i : is_u64 b -> 64 <= i -> Z.testbit b i = false.
Proof.
  intros Hb Hi. destruct (Z.eq_dec b 0) as [->|]; [apply Z.bits_0|].
  apply Z.bits_above_log2; [unfold is_u64 in *; lia|].
  apply Z.lt_le_trans with 64; [|lia]. apply Z.log2_lt_pow2; unfold is_u64 in *; lia.
Qed.

Lemma is_u64_bits b : (forall i, 64 <= i -> Z.testbit b i = false) -> 0 <= b -> is_u64 b.
Proof.
  intros Hb H0. split; [done|]. destruct (Z.eq_dec b 0) as [->|]; [lia|].
  apply Z.log2_lt_pow2; [lia|]. destruct (Z.ltb_spec (Z.log2 b) 64); [done|].
  pose proof (Z.bit_log2 b ltac:(lia)) as Hl. by rewrite Hb in Hl.
Qed.

(** A map is empty exactly when no instance is in it. *)
Lemma bm_zero b : is_u64 b -> b = 0 <-> forall i, ~ bm_mem b i.
Proof.
  intros Hb. split.
  - intros -> i [_ Hi]. by rewrite Z.bits_0 in Hi.
  - intros Hn. apply Z.bits_inj'. intros i Hi. rewrite Z.bits_0.
    destruct (Z.ltb_spec i 64); [|by apply is_u64_testbit].
    destruct (Z.testbit b i) eqn:E; [|done]. exfalso. apply (Hn i). by split; [lia|].
Qed.

Lemma bm_nonzero b : is_u64 b -> b <> 0 -> exists i, bm_mem b i.
Proof.
  intros Hb Hn. exists (Z.log2 b). split.
  - split; [apply Z.log2_nonneg|]. apply Z.log2_lt_pow2; unfold is_u64 in *; lia.
  - apply Z.bit_log2. unfold is_u64 in *. lia.
Qed.

Lemma is_u64_0 : is_u64 0.
Proof. unfold is_u64. lia. Qed.

Lemma is_u64_set b n : 0 <= n < 64 -> is_u64 b -> is_u64 (drc_bitmap64_set b n).
Proof.
  intros Hn Hb. apply is_u64_bits.
  - intros i Hi. rewrite testbit_bm_set, is_u64_testbit by (done || lia).
    by rewrite (proj2 (Z.eqb_neq i n)) by lia.
  - unfold drc_bitmap64_set. apply Z.lor_nonneg. split; [unfold is_u64 in *; lia|].
    apply Z.mod_pos_bound. lia.
Qed.

Lemma is_u64_clear b n : is_u64 b -> is_u64 (drc_bitmap64_clear b n).
Proof.
  intros Hb. apply is_u64_bits.
  - intros i Hi. unfold drc_bitmap64_clear. by rewrite Z.land_spec, is_u64_testbit.
  - unfold drc_bitmap64_clear. apply Z.land_nonneg. left. unfold is_u64 in *. lia.
Qed.

#[export] Hint Resolve is_u64_0 is_u64_set is_u64_clear : drc.

(** An instance, and an instance or [OG_INVALID_ID8]. *)
Definition is_inst (x : Z) : Prop := 0 <= x < OG_MAX_INSTANCES.
Definition opt_inst (x : Z) : Prop := x = OG_INVALID_ID8 \/ is_inst x.

Lemma is_inst_opt x : is_inst x -> opt_inst x.
Proof. by right. Qed.
Lemma opt_inst_invalid : opt_inst OG_INVALID_ID8.
Proof. by left. Qed.
Lemma opt_inst_is x : opt_inst x -> x <> OG_INVALID_ID8 -> is_inst x.
Proof. by intros [|]. Qed.
Lemma is_inst_ne x : is_inst x -> x <> OG_INVALID_ID8.
Proof. unfold is_inst, OG_MAX_INSTANCES, OG_INVALID_ID8. lia. Qed.
#[export] Hint Resolve is_inst_opt opt_inst_invalid : drc.
