(* ===== verification/DrcPool.v ===== *)
(** Fixed-size item pools of the resource catalogue
    ([drc_res_pool_t], src/pkg/src/cluster/dtc_drc_util.[ch]). *)

From S2P Require Import Prelude.

(** [drc_res_pool_t].  [addr] is the array of [item_num] items, by index; the
    spin lock and [item_size] (which only scales an index to an address) have
    no counterpart. *)
Record drc_res_pool (A : Type) := mk_pool {
  inited : bool;
  free_list : Z;
  item_num : Z;
  used_num : Z;
  recycle_pos : Z;
  addr : gmap Z A;
}.
Arguments mk_pool {A} _ _ _ _ _ _.
Arguments inited {A} _.
Arguments free_list {A} _.
Arguments item_num {A} _.
Arguments used_num {A} _.
Arguments recycle_pos {A} _.
Arguments addr {A} _.

(** An item the pool can hold: its first word is the link, and [memset_s(.., 0,
    ..)] makes it the zero item, whose link is 0. *)
Class PoolItem (A : Type) := {
  pi_next :: HasNext A;
  pi_zero : A;
}.

Section Pool.
Context {A : Type} `{PoolItem A}.
Implicit Types (p : drc_res_pool A) (m : gmap Z A).

(** [DRC_GET_RES_ADDR_BY_ID] and a read through the address it gives. *)
Definition load p (i : Z) : outcome A :=
  match addr p !! i with Some a => Ok a | None => Crash BadAddr end.

Definition set_addr (m : gmap Z A) p : drc_res_pool A :=
  mk_pool (inited p) (free_list p) (item_num p) (used_num p) (recycle_pos p) m.

(** A write through the address of slot [i]. *)
Definition store p (i : Z) (a : A) : outcome (drc_res_pool A) :=
  match addr p !! i with
  | Some _ => Ok (set_addr (<[i := a]> (addr p)) p)
  | None => Crash BadAddr
  end.

Definition store_next p (i n : Z) : outcome (drc_res_pool A) :=
  a ← load p i; store p i (it_set_next n a).

(** The loop of [drc_res_pool_init] that links every slot to its successor:
    [block->next = i + 1; block = addr + block->next * item_size]. *)
Fixpoint init_links (n : nat) (i blk : Z) p : outcome (Z * drc_res_pool A) :=
  match n with
  | O => Ok (blk, p)
  | S n' =>
      p1 ← store_next p blk (u32 (i + 1));
      b ← load p1 blk;
      init_links n' (u32 (i + 1)) (it_next b) p1
  end.

Definition zero_mem (n : Z) : gmap Z A :=
  list_to_map ((fun i => (i, pi_zero)) <$> seqZ 0 n).

(** [drc_res_pool_init].  [malloc_ok] says whether [malloc] returned memory;
    4 is [sizeof(drc_res_block_header_t)]. *)
Definition drc_res_pool_init (malloc_ok : bool) (item_size num : Z) p :
    outcome (status * drc_res_pool A) :=
  if inited p then Ok (OG_ERROR, p)
  else if item_size <? 4 then Ok (OG_ERROR, p)
  else if negb malloc_ok then Ok (OG_ERROR, p)
  else
    let p0 := mk_pool true 0 num 0 0 (zero_mem num) in
    '(blk, p1) ← init_links (Z.to_nat (u32 (num - 1))) 0 0 p0;
    p2 ← store_next p1 blk OG_INVALID_ID32;
    Ok (OG_SUCCESS, p2).

(** [drc_res_pool_destroy]. *)
Definition drc_res_pool_destroy p : drc_res_pool A :=
  if inited p then mk_pool false 0 0 0 (recycle_pos p) ∅ else p.

(** [drc_res_pool_alloc_item]. *)
Definition drc_res_pool_alloc_item p : outcome (Z * drc_res_pool A) :=
  if negb (inited p) then Ok (OG_INVALID_ID32, p)
  else
    let id := free_list p in
    if id =? OG_INVALID_ID32 then Ok (OG_INVALID_ID32, p)
    else
      block ← load p (free_list p);
      Ok (id, mk_pool (inited p) (it_next block) (item_num p)
                      (u32 (used_num p + 1)) (recycle_pos p) (addr p)).

(** The loop of [drc_res_pool_alloc_batch_item]; [acc] is the prefix of the
    output array already written, in reverse. *)
Fixpoint alloc_batch_loop (n : nat) (id : Z) (acc : list Z) p :
    outcome (list Z * drc_res_pool A) :=
  match n with
  | O => Ok (rev acc, p)
  | S n' =>
      block ← load p (free_list p);
      let p' := mk_pool (inited p) (it_next block) (item_num p)
                        (u32 (used_num p + 1)) (recycle_pos p) (addr p) in
      alloc_batch_loop n' (free_list p') (id :: acc) p'
  end.

(** [drc_res_pool_alloc_batch_item]: the array is returned with the status. *)
Definition drc_res_pool_alloc_batch_item p (num : Z) :
    outcome (status * list Z * drc_res_pool A) :=
  if negb (inited p) then Ok (OG_ERROR, [], p)
  else if (item_num p <? num) || (item_num p <? u32 (used_num p + num))
  then Ok (OG_ERROR, [], p)
  else
    let id := free_list p in
    if id =? OG_INVALID_ID32 then Ok (OG_ERROR, [], p)
    else
      '(ids, p') ← alloc_batch_loop (Z.to_nat num) id [] p;
      Ok (OG_SUCCESS, ids, p').

(** [drc_res_pool_free_item]. *)
Definition drc_res_pool_free_item p (id : Z) : outcome (drc_res_pool A) :=
  if negb (inited p) then Ok p
  else
    p' ← store_next p id (free_list p);
    Ok (mk_pool (inited p') id (item_num p') (u32 (used_num p' - 1))
                (recycle_pos p') (addr p')).

(** The loop of [drc_res_pool_free_batch_item]. *)
Fixpoint free_batch_loop (ids : list Z) p : outcome (drc_res_pool A) :=
  match ids with
  | [] => Ok p
  | id :: ids' =>
      if item_num p <? id then Ok p
      else
        p' ← store_next p id (free_list p);
        free_batch_loop ids'
          (mk_pool (inited p') id (item_num p') (u32 (used_num p' - 1))
                   (recycle_pos p') (addr p'))
  end.

(** [drc_res_pool_free_batch_item] on the array [ids] of [num] entries. *)
Definition drc_res_pool_free_batch_item p (ids : list Z) : outcome (drc_res_pool A) :=
  if negb (inited p) then Ok p
  else if used_num p <? Z.of_nat (length ids) then Ok p
  else free_batch_loop ids p.
End Pool.

(** ** The allocator the pool implements

    A pool of [n] slots is a set [U] of used slots within [0, n). *)
Section PoolSpec.
Context {A : Type} `{PoolItem A}.
Implicit Types (p : drc_res_pool A) (m : gmap Z A) (U : gset Z).

Definition slots (n : Z) : gset Z := list_to_set (seqZ 0 n).

Lemma elem_of_slots i n : i ∈ slots n <-> 0 <= i < n.
Proof. unfold slots. rewrite elem_of_list_to_set, elem_of_seqZ. lia. Qed.

Lemma size_slots n : 0 <= n -> Z.of_nat (size (slots n)) = n.
Proof.
  intros Hn. unfold slots. rewrite size_list_to_set by apply NoDup_seqZ.
  rewrite length_seqZ. lia.
Qed.

(** The used set [U] and the free list cover the slots exactly once. *)
Record pool_wf p U : Prop := {
  pw_inited : inited p = true;
  pw_num : 0 < item_num p < OG_INVALID_ID32;
  pw_dom : forall i, is_Some (addr p !! i) <-> 0 <= i < item_num p;
  pw_sub : U ⊆ slots (item_num p);
  pw_used : used_num p = Z.of_nat (size U);
  pw_free : exists fl, chain (addr p) (free_list p) fl OG_INVALID_ID32 /\ NoDup fl /\
              forall i, i ∈ fl <-> i ∈ slots (item_num p) ∖ U;
}.

Lemma pool_wf_size p U : pool_wf p U -> 0 <= Z.of_nat (size U) <= item_num p.
Proof.
  intros W. split; [lia|]. rewrite <- (size_slots (item_num p)) by (destruct W; lia).
  pose proof (subseteq_size _ _ (pw_sub _ _ W)). lia.
Qed.

Lemma pool_wf_range p U i : pool_wf p U -> i ∈ U -> 0 <= i < item_num p.
Proof. intros W Hi. apply elem_of_slots. by apply (pw_sub _ _ W). Qed.

Lemma pool_wf_load p U i : pool_wf p U -> i ∈ U -> exists a, load p i = Ok a /\ addr p !! i = Some a.
Proof.
  intros W Hi. pose proof (pool_wf_range _ _ _ W Hi) as Hr.
  apply (pw_dom _ _ W) in Hr as [a Ha]. exists a. unfold load. by rewrite Ha.
Qed.

(** So does the recycling cursor. *)
Lemma pool_wf_pos p U pos :
  pool_wf p U -> pool_wf (mk_pool (inited p) (free_list p) (item_num p) (used_num p) pos (addr p)) U.
Proof. intros []. by split. Qed.

(** A write to a used slot leaves the allocator alone. *)
Lemma pool_wf_store p U i a :
  pool_wf p U -> i ∈ U ->
  store p i a = Ok (set_addr (<[i:=a]> (addr p)) p) /\
  pool_wf (set_addr (<[i:=a]> (addr p)) p) U.
Proof.
  intros W Hi. destruct (pool_wf_load _ _ _ W Hi) as (a0 & _ & Ha0).
  split; [unfold store; by rewrite Ha0|].
  destruct W as [W1 W2 W3 W4 W5 (fl & Hc & Hnd & Hfl)].
  split; simpl; try done.
  - intros j. rewrite <- W3, lookup_insert_is_Some'. split; [|by right].
    intros [->|?]; [|done]. by eexists.
  - exists fl. split_and!; try done. apply chain_insert_out; [|done].
    rewrite Hfl. set_solver.
Qed.

Lemma chain_free_hd p fl :
  chain (addr p) (free_list p) fl OG_INVALID_ID32 ->
  (forall i, i ∈ fl -> 0 <= i < OG_INVALID_ID32) ->
  free_list p = OG_INVALID_ID32 -> fl = [].
Proof.
  destruct fl as [|i fl]; [done|]. intros [Hh _] Hr Hf.
  assert (0 <= i < OG_INVALID_ID32) by (apply Hr; set_solver). lia.
Qed.

Lemma alloc_item_full p U :
  pool_wf p U -> U = slots (item_num p) ->
  drc_res_pool_alloc_item p = Ok (OG_INVALID_ID32, p).
Proof.
  intros [W1 W2 W3 W4 W5 (fl & Hc & Hnd & Hfl)] HU.
  unfold drc_res_pool_alloc_item. rewrite W1; simpl.
  destruct fl as [|i fl]; [by simpl in Hc; rewrite Hc|].
  assert (i ∈ slots (item_num p) ∖ U) by (apply Hfl; set_solver). set_solver.
Qed.

Lemma alloc_item_some p U :
  pool_wf p U -> U <> slots (item_num p) ->
  exists i p', drc_res_pool_alloc_item p = Ok (i, p') /\ i ∉ U /\
    0 <= i < item_num p /\ pool_wf p' ({[i]} ∪ U) /\ addr p' = addr p /\
    item_num p' = item_num p.
Proof.
  intros W HU. pose proof (pool_wf_size _ _ W) as Hsz.
  destruct W as [W1 W2 W3 W4 W5 (fl & Hc & Hnd & Hfl)].
  destruct fl as [|i fl].
  { exfalso. apply HU. apply set_eq. intros j. split; [set_solver|].
    intros Hj. destruct (decide (j ∈ U)); [done|]. exfalso.
    apply (not_elem_of_nil j). apply Hfl. set_solver. }
  assert (i ∈ slots (item_num p) ∖ U) as Hi by (apply Hfl; set_solver).
  assert (0 <= i < item_num p) as Hr by (apply elem_of_slots; set_solver).
  simpl in Hc. destruct Hc as [Hh (a & Ha & Hc)].
  unfold drc_res_pool_alloc_item. rewrite W1; simpl.
  rewrite Hh. destruct (Z.eqb_spec i OG_INVALID_ID32) as [He|_]; [lia|].
  unfold load. rewrite Ha. simpl. eexists i, _. split; [done|].
  assert (i ∉ U) as HiU by set_solver. split_and!; simpl; try done; try lia.
  assert (size ({[i]} ∪ U) = S (size U)) as HS
    by (rewrite size_union by set_solver; rewrite size_singleton; done).
  assert (S (size U) <= Z.to_nat (item_num p))%nat as Hle.
  { rewrite <- HS. replace (Z.to_nat (item_num p)) with (size (slots (item_num p)))
      by (pose proof (size_slots (item_num p)); lia).
    apply subseteq_size. set_solver. }
  split; simpl; try done.
  - set_solver.
  - unfold u32. rewrite HS, W5, Z.mod_small; unfold OG_INVALID_ID32 in *; lia.
  - exists fl. apply NoDup_cons in Hnd as [Hni Hnd]. split_and!; try done.
    intros j. split.
    + intros Hj. assert (j ∈ slots (item_num p) ∖ U) by (apply Hfl; set_solver). set_solver.
    + intros Hj. assert (j ∈ i :: fl) by (apply Hfl; set_solver). set_solver.
Qed.

Lemma free_item_ok p U i :
  pool_wf p U -> i ∈ U ->
  exists p', drc_res_pool_free_item p i = Ok p' /\ pool_wf p' (U ∖ {[i]}) /\
    item_num p' = item_num p /\ recycle_pos p' = recycle_pos p /\
    (forall j, j <> i -> addr p' !! j = addr p !! j) /\
    exists a n, addr p !! i = Some a /\ addr p' !! i = Some (it_set_next n a).
Proof.
  intros W Hi. pose proof (pool_wf_size _ _ W) as Hsz.
  pose proof (pool_wf_range _ _ _ W Hi) as Hr.
  destruct (pool_wf_load _ _ _ W Hi) as (a & Hl & Ha).
  destruct W as [W1 W2 W3 W4 W5 (fl & Hc & Hnd & Hfl)].
  unfold drc_res_pool_free_item. rewrite W1; simpl. unfold store_next. rewrite Hl; simpl.
  unfold store. rewrite Ha; simpl. eexists; split; [done|].
  assert (i ∉ fl) as Hif by (rewrite Hfl; set_solver).
  assert (size (U ∖ {[i]}) + 1 = size U)%nat as HS.
  { rewrite size_difference by set_solver. rewrite size_singleton.
    assert (size U <> 0)%nat by (rewrite size_non_empty_iff; set_solver). lia. }
  split_and!; simpl; try done.
  - split; simpl; try done.
    + intros j. rewrite <- W3, lookup_insert_is_Some'. split; [|by right].
      intros [->|?]; [|done]. by eexists.
    + set_solver.
    + unfold u32. rewrite Z.mod_small; unfold OG_INVALID_ID32 in *; lia.
    + exists (i :: fl). split_and!.
      * split; [done|]. exists (it_set_next (free_list p) a). rewrite lookup_insert_eq.
        split; [done|]. rewrite it_next_set. by apply chain_insert_out.
      * by apply NoDup_cons.
      * intros j. rewrite elem_of_cons, Hfl.
        assert (i ∈ slots (item_num p)) by (by apply elem_of_slots).
        destruct (decide (j = i)) as [->|]; set_solver.
  - intros j Hj. by rewrite lookup_insert_ne.
  - exists a. eexists. by rewrite lookup_insert_eq.
Qed.
End PoolSpec.

(** ** Initialisation, batches *)
Section PoolOps.
Context {A : Type} `{PoolItem A}.
Implicit Types (p : drc_res_pool A) (m : gmap Z A) (U : gset Z).

Lemma zero_mem_lookup n i :
  is_Some (zero_mem (A := A) n !! i) <-> 0 <= i < n.
Proof.
  unfold zero_mem. split.
  - intros [a Ha]. apply elem_of_list_to_map_2 in Ha.
    apply list_elem_of_fmap in Ha as (j & [= -> ->] & Hj). apply elem_of_seqZ in Hj. lia.
  - intros Hi. exists pi_zero. apply elem_of_list_to_map_1.
    + rewrite <- list_fmap_compose. change (NoDup (id <$> seqZ 0 n)).
      rewrite list_fmap_id. apply NoDup_seqZ.
    + apply list_elem_of_fmap. exists i. rewrite elem_of_seqZ. split; [done | lia].
Qed.

Lemma store_next_ok p i n :
  is_Some (addr p !! i) -> exists a, addr p !! i = Some a /\
  store_next p i n = Ok (set_addr (<[i := it_set_next n a]> (addr p)) p).
Proof.
  intros [a Ha]. exists a. split; [done|].
  unfold store_next, load. rewrite Ha. unfold store. cbn [mbind outcome_bind]. by rewrite Ha.
Qed.

Lemma init_links_ok n : forall i p,
  0 <= i -> i + Z.of_nat n < OG_INVALID_ID32 ->
  (forall j, i <= j < i + Z.of_nat n -> is_Some (addr p !! j)) ->
  exists m', init_links n i i p = Ok (i + Z.of_nat n, set_addr m' p) /\
    (forall j, is_Some (m' !! j) <-> is_Some (addr p !! j)) /\
    (forall j, i <= j < i + Z.of_nat n -> exists a, addr p !! j = Some a /\ m' !! j = Some (it_set_next (j + 1) a)) /\
    (forall j, ~ (i <= j < i + Z.of_nat n) -> m' !! j = addr p !! j).
Proof.
  induction n as [|n IH]; intros i p Hi Hb Hd.
  { exists (addr p). simpl. destruct p; cbn. rewrite Z.add_0_r. split_and!; try done; lia. }
  destruct (store_next_ok p i (u32 (i + 1))) as (a & Ha & Hst); [apply Hd; lia|].
  assert (u32 (i + 1) = i + 1) as Hu.
  { unfold u32. rewrite Z.mod_small; [done|]. unfold OG_INVALID_ID32 in *; lia. }
  cbn [init_links]. rewrite Hst. cbn. unfold load. cbn. rewrite lookup_insert_eq. cbn.
  rewrite it_next_set, Hu.
  set (p1 := set_addr _ p).
  assert (forall j, is_Some (addr p1 !! j) <-> is_Some (addr p !! j)) as Hdom.
  { intros j. cbn. rewrite lookup_insert_is_Some'. split; [|by right]. intros [<-|?]; [by eexists|done]. }
  destruct (IH (i + 1) p1) as (m' & E & H1 & H2 & H3); [lia | lia | intros j Hj; apply Hdom, Hd; lia |].
  exists m'. rewrite E. split_and!.
  - f_equal. f_equal. lia.
  - intros j. by rewrite H1.
  - intros j Hj. destruct (decide (j = i)) as [->|].
    + exists a. rewrite H3 by lia. cbn. by rewrite lookup_insert_eq, ?Hu.
    + destruct (H2 j) as (c & Hc & ?); [lia|]. cbn in Hc. rewrite lookup_insert_ne in Hc by done. eauto.
  - intros j Hj. rewrite H3 by lia. cbn. rewrite lookup_insert_ne; [done|lia].
Qed.

Lemma chain_seqZ m (n : nat) : forall i e,
  (forall j, i <= j < i + Z.of_nat n -> exists a, m !! j = Some a /\
     it_next a = if j + 1 =? i + Z.of_nat n then e else j + 1) ->
  (0 < n)%nat -> chain m i (seqZ i (Z.of_nat n)) e.
Proof.
  induction n as [|n IH]; intros i e Hl Hn; [lia|].
  rewrite seqZ_cons by lia. split; [done|].
  destruct (Hl i) as (a & Ha & Hna); [lia|]. exists a. split; [done|]. rewrite Hna.
  replace (Z.pred (Z.of_nat (S n))) with (Z.of_nat n) by lia.
  destruct n as [|n].
  - rewrite (proj2 (Z.eqb_eq _ _)) by lia. done.
  - rewrite (proj2 (Z.eqb_neq _ _)) by lia. apply IH; [|lia].
    intros j Hj. destruct (Hl j) as (b & Hb & Hnb); [lia|]. exists b. split; [done|].
    rewrite Hnb. repeat case_match; lia.
Qed.

(** A successful initialisation gives a pool of [num] slots, all free. *)
Lemma pool_init_wf p sz num :
  inited p = false -> 4 <= sz -> 0 < num < OG_INVALID_ID32 ->
  exists p', drc_res_pool_init true sz num p = Ok (OG_SUCCESS, p') /\
    pool_wf p' ∅ /\ item_num p' = num /\
    (forall i a, addr p' !! i = Some a -> exists n, a = it_set_next n pi_zero).
Proof.
  intros Hi Hsz Hnum. unfold drc_res_pool_init. rewrite Hi.
  rewrite (proj2 (Z.ltb_ge _ _)) by lia. cbn [negb].
  assert (u32 (num - 1) = num - 1) as ->.
  { unfold u32. rewrite Z.mod_small; [done|]. unfold OG_INVALID_ID32 in *; lia. }
  set (p0 := mk_pool true 0 num 0 0 (zero_mem num)).
  destruct (init_links_ok (Z.to_nat (num - 1)) 0 p0) as (m & E & D & L & O);
    [lia | lia | intros j Hj; apply zero_mem_lookup; lia |].
  rewrite E. cbn [mbind outcome_bind].
  destruct (store_next_ok (set_addr m p0) (0 + Z.of_nat (Z.to_nat (num - 1))) OG_INVALID_ID32)
    as (a & Ha & ->); [cbn; apply D, zero_mem_lookup; lia|].
  cbn. eexists. split; [done|].
  replace (0 + Z.of_nat (Z.to_nat (num - 1))) with (num - 1) in * by lia.
  assert (forall j a, zero_mem num !! j = Some a -> a = pi_zero) as Hzero.
  { intros j c Hc. apply elem_of_list_to_map_2, list_elem_of_fmap in Hc as (? & [= _ ->] & _). done. }
  assert (a = pi_zero) as ->.
  { cbn in Ha. rewrite O in Ha by lia. by eapply Hzero. }
  split_and!; [|done|].
  2:{ intros j c. cbn. intros [[_ <-]|[Hne Hj]]%lookup_insert_Some; [eauto|].
      destruct (decide (0 <= j < num - 1)) as [Hr|Hr].
      - destruct (L j) as (c0 & Hc0 & Hm); [lia|]. cbn in Hc0. rewrite Hm in Hj. injection Hj as <-.
        rewrite (Hzero _ _ Hc0). eauto.
      - assert (is_Some (m !! j)) as Hs by eauto. apply D in Hs. cbn in Hs. apply zero_mem_lookup in Hs. lia. }
  split; cbn; try done.
  - intros j. rewrite lookup_insert_is_Some'. rewrite D. cbn. rewrite zero_mem_lookup. lia.
  - exists (seqZ 0 (Z.of_nat (Z.to_nat num))). split_and!.
    + apply chain_seqZ; [|lia]. intros j Hj.
      destruct (Z.eqb_spec (j + 1) (0 + Z.of_nat (Z.to_nat num))).
      * replace j with (num - 1) by lia. rewrite lookup_insert_eq. eexists; split; [done|].
        by rewrite it_next_set.
      * rewrite lookup_insert_ne by lia. destruct (L j) as (c0 & _ & Hm); [lia|]. eexists. split; [done|].
        apply it_next_set.
    + apply NoDup_seqZ.
    + intros j. rewrite difference_empty_L, elem_of_slots, elem_of_seqZ. lia.
Qed.

(** One round of the batch loop is one allocation. *)
Lemma alloc_step p U :
  pool_wf p U -> U <> slots (item_num p) ->
  exists a, load p (free_list p) = Ok a /\ free_list p ∉ U /\ free_list p <> OG_INVALID_ID32 /\
    pool_wf (mk_pool (inited p) (it_next a) (item_num p) (u32 (used_num p + 1))
                     (recycle_pos p) (addr p)) ({[free_list p]} ∪ U).
Proof.
  intros W HU. destruct (alloc_item_some _ _ W HU) as (i & p' & E & Hi & Hr & W' & _).
  unfold drc_res_pool_alloc_item in E. rewrite (pw_inited _ _ W) in E. cbn in E.
  pose proof (pw_num _ _ W).
  destruct (Z.eqb_spec (free_list p) OG_INVALID_ID32) as [He|He]; [inv_ok; simplify_eq; lia|].
  destruct (load p (free_list p)) as [a|] eqn:El; cbn in E; inv_ok; simplify_eq.
  exists a. rewrite (pw_inited _ _ W). done.
Qed.

Lemma slots_not_full p U :
  pool_wf p U -> Z.of_nat (size U) < item_num p -> U <> slots (item_num p).
Proof. intros W Hl ->. rewrite size_slots in Hl; destruct W; lia. Qed.

Lemma alloc_batch_loop_ok n : forall p U acc,
  pool_wf p U -> Z.of_nat (size U) + Z.of_nat n <= item_num p ->
  exists ids p', alloc_batch_loop n (free_list p) acc p = Ok (rev acc ++ ids, p') /\
    length ids = n /\ NoDup ids /\ (forall i, i ∈ ids -> i ∉ U) /\
    pool_wf p' (list_to_set ids ∪ U) /\ addr p' = addr p /\ item_num p' = item_num p.
Proof.
  induction n as [|n IH]; intros p U acc W Hsz.
  { exists [], p. cbn. rewrite app_nil_r, union_empty_l_L.
    split_and!; try done; [constructor | set_solver]. }
  destruct (alloc_step _ _ W) as (a & El & Hni & _ & W'); [eapply slots_not_full; [done|lia]|].
  cbn [alloc_batch_loop]. rewrite El. cbn [mbind outcome_bind].
  set (p1 := mk_pool _ _ _ _ _ _) in *.
  destruct (IH p1 _ (free_list p :: acc) W') as (ids & p' & E & HL & Hnd & Hd & W'' & Ha & Hn).
  { rewrite size_union, size_singleton by set_solver. cbn. lia. }
  exists (free_list p :: ids), p'. cbn. change (it_next a) with (free_list p1).
  rewrite E. cbn [rev]. rewrite <- app_assoc. split_and!; try done.
  - by rewrite HL.
  - apply NoDup_cons. split; [|done]. intros Hin. apply (Hd _ Hin). set_solver.
  - set_solver.
  - replace ({[free_list p]} ∪ list_to_set ids ∪ U)
      with (list_to_set ids ∪ ({[free_list p]} ∪ U)) by set_solver. done.
Qed.

(** Freeing a batch is freeing its items one by one. *)
Lemma free_batch_loop_ok ids : forall p U,
  pool_wf p U -> NoDup ids -> (forall i, i ∈ ids -> i ∈ U) ->
  exists p', free_batch_loop ids p = Ok p' /\ pool_wf p' (U ∖ list_to_set ids) /\ item_num p' = item_num p /\
    (forall j, j ∉ ids -> addr p' !! j = addr p !! j) /\
    (forall j, j ∈ ids -> exists a n, addr p !! j = Some a /\ addr p' !! j = Some (it_set_next n a)).
Proof.
  induction ids as [|i ids IH]; intros p U W Hnd Hin.
  { exists p. cbn. rewrite difference_empty_L. split_and!; try done. set_solver. }
  apply NoDup_cons in Hnd as [Hi Hnd]. pose proof (pool_wf_range _ _ _ W (Hin i ltac:(set_solver))) as Hr.
  cbn [free_batch_loop]. rewrite (proj2 (Z.ltb_ge _ _)) by lia.
  destruct (free_item_ok p U i W ltac:(set_solver)) as (p1 & E & W1 & Hn1 & _ & Ho & a & n & Ha & Ha').
  unfold drc_res_pool_free_item in E. rewrite (pw_inited _ _ W) in E. cbn [negb] in E.
  destruct (store_next p i (free_list p)) as [p0|]; [|done]. cbn [mbind outcome_bind] in E |- *. injection E as E.
  rewrite E. destruct (IH p1 (U ∖ {[i]})) as (p' & -> & W' & Hn' & Ho' & Hs'); [done|done|set_solver|].
  exists p'. split_and!; try done.
  - replace (U ∖ list_to_set (i :: ids)) with (U ∖ {[i]} ∖ list_to_set ids) by set_solver. done.
  - congruence.
  - intros j Hj. rewrite Ho', Ho; set_solver.
  - intros j [->|Hj]%elem_of_cons.
    + rewrite Ho' by done. eauto.
    + destruct (Hs' j Hj) as (c & m & Hc & Hc'). rewrite Ho in Hc by set_solver. eauto.
Qed.

Lemma free_batch_ok p U ids :
  pool_wf p U -> NoDup ids -> (forall i, i ∈ ids -> i ∈ U) ->
  exists p', drc_res_pool_free_batch_item p ids = Ok p' /\ pool_wf p' (U ∖ list_to_set ids) /\
    item_num p' = item_num p /\
    (forall j, j ∉ ids -> addr p' !! j = addr p !! j) /\
    (forall j, j ∈ ids -> exists a n, addr p !! j = Some a /\ addr p' !! j = Some (it_set_next n a)).
Proof.
  intros W Hnd Hin. unfold drc_res_pool_free_batch_item. rewrite (pw_inited _ _ W). cbn [negb].
  rewrite (proj2 (Z.ltb_ge _ _)); [by apply free_batch_loop_ok|]. rewrite (pw_used _ _ W).
  apply inj_le. rewrite <- (size_list_to_set (C := gset Z) ids) by done. apply subseteq_size. set_solver.
Qed.
End PoolOps.
