(* ===== verification/DrcResMap.v ===== *)
(** Hash maps threaded through a pool
    ([drc_res_map_t], src/pkg/src/cluster/dtc_drc_util.[ch]): every bucket is a
    count and the head of a chain of pool slots linked by their first word. *)

From S2P Require Import Prelude DrcPool.

(** [drc_res_bucket_t]; the spin lock is the critical section itself. *)
Record drc_res_bucket := mk_bucket { bk_count : Z; bk_first : Z }.

(** [drc_res_map_t].  A bucket is named by its index. *)
Record drc_res_map (A : Type) := mk_map {
  rm_inited : bool;
  res_pool : drc_res_pool A;
  bucket_num : Z;
  buckets : gmap Z drc_res_bucket;
}.
Arguments mk_map {A} _ _ _ _.
Arguments rm_inited {A} _.
Arguments res_pool {A} _.
Arguments bucket_num {A} _.
Arguments buckets {A} _.

(** An item of a map: [ri_key] is the identifier that [res_cmp_func]
    ([is_same_page], [is_same_lock], ..) compares; it is not the link word. *)
Class ResItem (A K : Type) `{Countable K} := {
  ri_item :: PoolItem A;
  ri_key : A -> K;
  ri_key_next : forall n a, ri_key (it_set_next n a) = ri_key a;
}.

Section ResMap.
Context {A K : Type} `{ResItem A K}.
Implicit Types (rm : drc_res_map A) (k : K).

(** [res_cmp_func(res_id, res)]. *)
Definition res_cmp_func k (res : A) : bool := bool_decide (ri_key res = k).

Definition set_pool (p : drc_res_pool A) rm : drc_res_map A :=
  mk_map (rm_inited rm) p (bucket_num rm) (buckets rm).

Definition set_bucket (h : Z) (b : drc_res_bucket) rm : drc_res_map A :=
  mk_map (rm_inited rm) (res_pool rm) (bucket_num rm) (<[h := b]> (buckets rm)).

(** [res_map->buckets[hash_id]]. *)
Definition get_bucket rm (h : Z) : outcome drc_res_bucket :=
  match buckets rm !! h with Some b => Ok b | None => Crash BadAddr end.

(** [drc_res_map_init]: [pool_size * 2 + 1] buckets, zeroed by [memset]. *)
Definition drc_res_map_init (bucket_malloc_ok pool_malloc_ok : bool)
    (pool_size item_size : Z) rm : outcome (status * drc_res_map A) :=
  if rm_inited rm then Ok (OG_ERROR, rm)
  else
    let bn := u32 (pool_size * 2 + 1) in
    if negb bucket_malloc_ok
    then Ok (OG_ERROR, mk_map (rm_inited rm) (res_pool rm) bn (buckets rm))
    else
      let bs := list_to_map ((fun i => (i, mk_bucket 0 0)) <$> seqZ 0 bn) in
      '(ret, pool) ← drc_res_pool_init pool_malloc_ok item_size pool_size (res_pool rm);
      match ret with
      | OG_ERROR => Ok (OG_ERROR, mk_map (rm_inited rm) pool bn ∅)
      | OG_SUCCESS => Ok (OG_SUCCESS, mk_map true pool bn bs)
      end.

(** [drc_res_map_destroy]. *)
Definition drc_res_map_destroy rm : drc_res_map A :=
  if negb (rm_inited rm) then rm
  else mk_map false (drc_res_pool_destroy (res_pool rm)) 0 ∅.

(** [drc_res_map_add], with the store through [next], the link word of slot
    [add_idx]. *)
Definition drc_res_map_add rm (h add_idx : Z) : outcome (drc_res_map A) :=
  b ← get_bucket rm h;
  p ← store_next (res_pool rm) add_idx
        (if bk_count b =? 0 then OG_INVALID_ID32 else bk_first b);
  Ok (set_bucket h (mk_bucket (u32 (bk_count b + 1)) add_idx) (set_pool p rm)).

(** The scan of [drc_res_map_lookup]: [n] rounds are left, at slot [idx]. *)
Fixpoint lookup_loop (n : nat) (p : drc_res_pool A) (idx : Z) k : outcome (option Z) :=
  match n with
  | O => Ok None
  | S n' =>
      res ← load p idx;
      if res_cmp_func k res then Ok (Some idx)
      else lookup_loop n' p (it_next res) k
  end.

(** [drc_res_map_lookup]: the slot of the item, [None] for [NULL]. *)
Definition drc_res_map_lookup rm (h : Z) k : outcome (option Z) :=
  b ← get_bucket rm h;
  if bk_count b =? 0 then Ok None
  else lookup_loop (Z.to_nat (bk_count b)) (res_pool rm) (bk_first b) k.

(** The scan of [drc_res_map_remove], with [pre] the slot visited before. *)
Fixpoint remove_loop (n : nat) (h : Z) (b : drc_res_bucket) rm (idx : Z)
    (pre : option Z) k : outcome (drc_res_map A) :=
  match n with
  | O => Ok rm
  | S n' =>
      res ← load (res_pool rm) idx;
      if res_cmp_func k res then
        match pre with
        | None =>
            Ok (set_bucket h (mk_bucket (u32 (bk_count b - 1)) (it_next res)) rm)
        | Some j =>
            p ← store_next (res_pool rm) j (it_next res);
            Ok (set_bucket h (mk_bucket (u32 (bk_count b - 1)) (bk_first b)) (set_pool p rm))
        end
      else remove_loop n' h b rm (it_next res) (Some idx) k
  end.

(** [drc_res_map_remove]. *)
Definition drc_res_map_remove rm (h : Z) k : outcome (drc_res_map A) :=
  b ← get_bucket rm h;
  if bk_count b =? 0 then Ok rm
  else remove_loop (Z.to_nat (bk_count b)) h b rm (bk_first b) None k.
End ResMap.

(** ** The finite map a hash map implements

    [am] sends an identifier to the slot that holds its item. *)
Section ResMapSpec.
Context {A K : Type} `{ResItem A K}.
Implicit Types (rm : drc_res_map A) (k : K) (am : gmap K Z) (m : gmap Z A).

Definition bucket_repr m (b : drc_res_bucket) (l : list Z) : Prop :=
  bk_count b = Z.of_nat (length l) /\ (l = [] \/ chain m (bk_first b) l OG_INVALID_ID32).

Record map_wf rm (hash : K -> Z) am : Prop := {
  mw_hash : forall k, 0 <= hash k < bucket_num rm;
  mw_key : forall k i, am !! k = Some i ->
    exists a, addr (res_pool rm) !! i = Some a /\ ri_key a = k;
  mw_bucket : forall h, 0 <= h < bucket_num rm -> exists b l,
    buckets rm !! h = Some b /\ bucket_repr (addr (res_pool rm)) b l /\ NoDup l /\
    forall i, i ∈ l <-> exists k, am !! k = Some i /\ hash k = h;
}.

Lemma map_wf_inj rm hash am k1 k2 i :
  map_wf rm hash am -> am !! k1 = Some i -> am !! k2 = Some i -> k1 = k2.
Proof.
  intros W H1 H2. destruct (mw_key _ _ _ W _ _ H1) as (a & Ha & <-).
  destruct (mw_key _ _ _ W _ _ H2) as (b & Hb & <-). by simplify_eq.
Qed.

(** The map only depends on the links and identifiers of its own slots. *)
Lemma map_wf_frame rm rm' hash am :
  bucket_num rm' = bucket_num rm -> buckets rm' = buckets rm ->
  (forall k i a, am !! k = Some i -> addr (res_pool rm) !! i = Some a ->
     exists a', addr (res_pool rm') !! i = Some a' /\ it_next a' = it_next a /\ ri_key a' = ri_key a) ->
  map_wf rm hash am -> map_wf rm' hash am.
Proof.
  intros Hn Hb Hf W. split.
  - rewrite Hn. apply W.
  - intros k i Hk. destruct (mw_key _ _ _ W _ _ Hk) as (a & Ha & <-).
    destruct (Hf _ _ _ Hk Ha) as (a' & Ha' & _ & Hk'). eauto.
  - intros h Hh. rewrite Hn in Hh. destruct (mw_bucket _ _ _ W _ Hh) as (b & l & Eb & [Hc Hl] & Hnd & Hin).
    exists b, l. rewrite Hb. split_and!; try done. split; [done|].
    destruct Hl as [->|Hl]; [by left|right]. eapply chain_links; [|done].
    intros i a Hi Ha. apply Hin in Hi as (k & Hk & _).
    destruct (Hf _ _ _ Hk Ha) as (a' & Ha' & Hn' & _). eauto.
Qed.

Lemma lookup_loop_found (p : drc_res_pool A) k i a l : forall h e,
  chain (addr p) h l e -> i ∈ l -> addr p !! i = Some a -> ri_key a = k ->
  (forall j b, j ∈ l -> addr p !! j = Some b -> ri_key b = k -> j = i) ->
  lookup_loop (length l) p h k = Ok (Some i).
Proof.
  induction l as [|j l IH]; intros h e Hc Hi Ha Hk Hu; [set_solver|].
  destruct Hc as [-> (b & Hb & Hc)]. cbn. unfold load. rewrite Hb. cbn.
  unfold res_cmp_func. case_bool_decide as E.
  - f_equal. f_equal. eapply Hu; [set_solver | done..].
  - apply elem_of_cons in Hi as [->|Hi]; [congruence|].
    eapply IH; [done.. |]. intros j' b' ?. apply Hu. set_solver.
Qed.

Lemma lookup_loop_none (p : drc_res_pool A) k l : forall h e,
  chain (addr p) h l e -> (forall j b, j ∈ l -> addr p !! j = Some b -> ri_key b <> k) ->
  lookup_loop (length l) p h k = Ok None.
Proof.
  induction l as [|j l IH]; intros h e Hc Hu; [done|].
  destruct Hc as [-> (b & Hb & Hc)]. cbn. unfold load. rewrite Hb. cbn.
  unfold res_cmp_func. case_bool_decide as E.
  - by destruct (Hu j b ltac:(set_solver) Hb).
  - eapply IH; [done|]. intros j' b' ?. apply Hu. set_solver.
Qed.

(** Lookup computes the finite map. *)
Lemma map_lookup_ok rm hash am k :
  map_wf rm hash am -> drc_res_map_lookup rm (hash k) k = Ok (am !! k).
Proof.
  intros W. destruct (mw_bucket _ _ _ W (hash k)) as (b & l & Eb & [Hc Hl] & Hnd & Hin); [apply W|].
  unfold drc_res_map_lookup, get_bucket. rewrite Eb. cbn. rewrite Hc.
  destruct (Z.eqb_spec (Z.of_nat (length l)) 0) as [E|E].
  { destruct l; [|cbn in E; lia]. destruct (am !! k) as [i|] eqn:Ek; [|done].
    exfalso. eapply (not_elem_of_nil i), Hin. eauto. }
  destruct Hl as [->|Hl]; [cbn in E; lia|]. rewrite Nat2Z.id.
  destruct (am !! k) as [i|] eqn:Ek.
  - destruct (mw_key _ _ _ W _ _ Ek) as (a & Ha & Hk).
    eapply lookup_loop_found; [done | apply Hin; eauto | done | done |].
    intros j c (k' & Hk' & _)%Hin Hj Hkc. destruct (mw_key _ _ _ W _ _ Hk') as (c' & Hc' & ?).
    congruence.
  - eapply lookup_loop_none; [done|]. intros j c (k' & Hk' & _)%Hin Hj Hkc.
    destruct (mw_key _ _ _ W _ _ Hk') as (c' & Hc' & ?). congruence.
Qed.

Lemma bucket_len rm (hash : K -> Z) am U (b : Z) (l : list Z) :
  pool_wf (res_pool rm) U -> (forall k i, am !! k = Some i -> i ∈ U) ->
  NoDup l -> (forall i, i ∈ l -> exists k, am !! k = Some i /\ hash k = b) ->
  Z.of_nat (length l) <= Z.of_nat (size U).
Proof.
  intros W HU Hnd Hl. apply inj_le. rewrite <- (size_list_to_set (C := gset Z) l) by done.
  apply subseteq_size. intros i Hi. apply elem_of_list_to_set, Hl in Hi as (k & Hk & _). eauto.
Qed.

(** Adding the item of slot [i]. *)
Lemma map_add_ok rm hash am U k i a :
  map_wf rm hash am -> pool_wf (res_pool rm) U ->
  (forall k i, am !! k = Some i -> i ∈ U) ->
  am !! k = None -> i ∈ U -> (forall k', am !! k' <> Some i) ->
  addr (res_pool rm) !! i = Some a -> ri_key a = k ->
  exists rm' n, drc_res_map_add rm (hash k) i = Ok rm' /\ map_wf rm' hash (<[k := i]> am) /\
    bucket_num rm' = bucket_num rm /\
    res_pool rm' = set_addr (<[i := it_set_next n a]> (addr (res_pool rm))) (res_pool rm).
Proof.
  intros W P HU Hk Hi Hf Ha Hka.
  destruct (mw_bucket _ _ _ W (hash k)) as (b & l & Eb & [Hc Hl] & Hnd & Hin); [apply W|].
  assert (Z.of_nat (length l) <= Z.of_nat (size U)) as Hlen.
  { eapply bucket_len; [done.. |]. intros j Hj. by apply Hin. }
  pose proof (pool_wf_size _ _ P). pose proof (pw_num _ _ P).
  assert (i ∉ l) as Hil by (intros (k' & Hk' & _)%Hin; by apply (Hf k')).
  unfold drc_res_map_add, get_bucket. rewrite Eb. cbn.
  set (n := if bk_count b =? 0 then _ else _).
  unfold store_next, load. rewrite Ha. cbn. unfold store. rewrite Ha. cbn.
  eexists _, n. split; [done|]. split_and!; try done. split; cbn.
  - apply W.
  - intros k' i' [[<- <-]|[Hne Hk']]%lookup_insert_Some.
    + rewrite lookup_insert_eq. eexists; split; [done|]. by rewrite ri_key_next.
    + destruct (mw_key _ _ _ W _ _ Hk') as (a' & Ha' & <-).
      rewrite lookup_insert_ne by (intros ->; by apply (Hf (ri_key a'))). eauto.
  - intros h Hh. destruct (decide (h = hash k)) as [->|Hne].
    + rewrite lookup_insert_eq. eexists _, (i :: l). split; [done|]. split_and!.
      * split; cbn; [unfold u32; rewrite Z.mod_small; unfold OG_INVALID_ID32 in *; lia|].
        right. split; [done|]. rewrite lookup_insert_eq. eexists; split; [done|].
        rewrite it_next_set. subst n. rewrite Hc. destruct l as [|j l]; [done|].
        destruct (Z.eqb_spec (Z.of_nat (length (j :: l))) 0) as [E|E]; [cbn in E; lia|].
        destruct Hl as [Hl|Hl]; [done|]. by apply chain_insert_out.
      * by apply NoDup_cons.
      * intros j. rewrite elem_of_cons, Hin. split.
        -- intros [->|(k' & Hk' & ?)]; [exists k; by rewrite lookup_insert_eq|].
           exists k'. rewrite lookup_insert_ne; [done|]. intros ->. congruence.
        -- intros (k' & [[<- <-]|[? ?]]%lookup_insert_Some & ?); eauto.
    + rewrite lookup_insert_ne by done.
      destruct (mw_bucket _ _ _ W h Hh) as (b' & l' & Eb' & [Hc' Hl'] & Hnd' & Hin').
      exists b', l'. split_and!; try done.
      * split; [done|]. destruct Hl' as [->|Hl']; [by left|right]. apply chain_insert_out; [|done].
        intros (k' & Hk' & _)%Hin'. by apply (Hf k').
      * intros j. rewrite Hin'. split; intros (k' & Hk' & Hh').
        -- exists k'. rewrite lookup_insert_ne; [done|]. intros ->. congruence.
        -- apply lookup_insert_Some in Hk' as [[<- _]|[_ ?]]; [done|eauto].
Qed.

Lemma remove_loop_ok rm (h : Z) (b : drc_res_bucket) k i a l1 l2 : forall hd pre e,
  chain (addr (res_pool rm)) hd (l1 ++ i :: l2) e ->
  (forall j c, j ∈ l1 -> addr (res_pool rm) !! j = Some c -> ri_key c <> k) ->
  addr (res_pool rm) !! i = Some a -> ri_key a = k ->
  remove_loop (length (l1 ++ i :: l2)) h b rm hd pre k =
    match (match last l1 with Some j => Some j | None => pre end) with
    | None => Ok (set_bucket h (mk_bucket (u32 (bk_count b - 1)) (it_next a)) rm)
    | Some j =>
        p ← store_next (res_pool rm) j (it_next a);
        Ok (set_bucket h (mk_bucket (u32 (bk_count b - 1)) (bk_first b)) (set_pool p rm))
    end.
Proof.
  induction l1 as [|j l1 IH]; intros hd pre e Hc Hno Ha Hk.
  - destruct Hc as [-> (a' & Ha' & _)]. simplify_eq. cbn. unfold load. rewrite Ha'. cbn.
    unfold res_cmp_func. by rewrite bool_decide_eq_true_2.
  - destruct Hc as [-> (c & Hj & Hc)]. cbn [app length remove_loop]. unfold load. rewrite Hj. cbn [mbind outcome_bind].
    unfold res_cmp_func at 1. rewrite bool_decide_eq_false_2 by (apply (Hno j c); [set_solver|done]).
    rewrite (IH _ (Some j) e) by (done || (intros ? ? ?; apply Hno; set_solver)).
    destruct l1 as [|x l1]; [done|]. rewrite last_cons_cons. destruct (last (x :: l1)) eqn:E; [done|]. by apply last_None in E.
Qed.

(** [l1 ++ i :: l2] is the chain of the bucket of [k], with [i] its slot. *)
Definition bucket_split (hash : K -> Z) am k i (l1 l2 : list Z) : Prop :=
  am !! k = Some i /\ NoDup (l1 ++ i :: l2) /\
  forall j, j ∈ l1 ++ i :: l2 <-> exists k', am !! k' = Some j /\ hash k' = hash k.

Lemma bucket_split_rest rm hash am k i l1 l2 j :
  map_wf rm hash am -> bucket_split hash am k i l1 l2 ->
  j ∈ l1 ++ l2 <-> exists k', delete k am !! k' = Some j /\ hash k' = hash k.
Proof.
  intros W (Hk & Hnd & Hin). apply NoDup_app in Hnd as (_ & Hdis & [Hi2 _]%NoDup_cons). split.
  - intros Hj. assert (j <> i).
    { intros ->. apply elem_of_app in Hj as [Hj|Hj]; [|done]. apply (Hdis i Hj). set_solver. }
    destruct (proj1 (Hin j)) as (k' & Hk' & Hh); [set_solver|].
    exists k'. rewrite lookup_delete_ne; [done|]. intros <-. congruence.
  - intros (k' & [Hne Hk']%lookup_delete_Some & Hh).
    assert (j ∈ l1 ++ i :: l2) as Hj by (apply Hin; eauto).
    assert (j <> i) by (intros ->; apply Hne; eauto using map_wf_inj). set_solver.
Qed.

(** Replacing the chain of the bucket of [k] by [l1 ++ l2] removes [k]. *)
Lemma map_wf_unlink rm rm' hash am k i l1 l2 :
  map_wf rm hash am -> bucket_split hash am k i l1 l2 ->
  bucket_num rm' = bucket_num rm ->
  (forall j a, addr (res_pool rm) !! j = Some a ->
     exists a', addr (res_pool rm') !! j = Some a' /\ ri_key a' = ri_key a /\
                (j ∈ l1 \/ it_next a' = it_next a)) ->
  (forall h, h <> hash k -> buckets rm' !! h = buckets rm !! h) ->
  (exists b', buckets rm' !! hash k = Some b' /\ bucket_repr (addr (res_pool rm')) b' (l1 ++ l2)) ->
  map_wf rm' hash (delete k am).
Proof.
  intros W Hsp En Hmem Hb (b' & Eb' & Hb'). pose proof Hsp as (Hk & Hnd & Hin). split.
  - rewrite En. apply W.
  - intros k' i' [Hne Hk']%lookup_delete_Some. destruct (mw_key _ _ _ W _ _ Hk') as (c & Ec & <-).
    destruct (Hmem _ _ Ec) as (c' & ? & ? & _). eauto.
  - intros h Hh. rewrite En in Hh. destruct (decide (h = hash k)) as [->|Hne].
    + exists b', (l1 ++ l2). split_and!; try done.
      * apply NoDup_app in Hnd as (? & Hdis & [? ?]%NoDup_cons).
        apply NoDup_app. split_and!; try done. intros j Hj ?. apply (Hdis j Hj). set_solver.
      * intros j. by eapply bucket_split_rest.
    + destruct (mw_bucket _ _ _ W h Hh) as (c & lc & Ec & [Hc1 Hc2] & Hndc & Hinc).
      exists c, lc. rewrite Hb by done. split_and!; try done.
      * split; [done|]. destruct Hc2 as [->|Hc2]; [by left|right]. eapply chain_links; [|done].
        intros j a Hj Ha. destruct (Hmem _ _ Ha) as (a' & ? & _ & [Hjl|?]); [exfalso|eauto].
        apply Hinc in Hj as (k1 & Hk1 & Hh1). destruct (proj1 (Hin j)) as (k2 & Hk2 & Hh2); [set_solver|].
        assert (k1 = k2) by eauto using map_wf_inj. congruence.
      * intros j. rewrite Hinc. split; intros (k' & Hk' & Hh'); exists k'; (split; [|done]).
        -- rewrite lookup_delete_ne; [done|]. intros <-. done.
        -- by apply lookup_delete_Some in Hk' as [_ ?].
Qed.

Lemma map_wf_split rm hash am k i :
  map_wf rm hash am -> am !! k = Some i ->
  exists b l1 l2, buckets rm !! hash k = Some b /\ bucket_split hash am k i l1 l2 /\
    bk_count b = Z.of_nat (length (l1 ++ i :: l2)) /\
    chain (addr (res_pool rm)) (bk_first b) (l1 ++ i :: l2) OG_INVALID_ID32.
Proof.
  intros W Hk.
  destruct (mw_bucket _ _ _ W (hash k)) as (b & l & Eb & [Hc Hl] & Hnd & Hin); [apply W|].
  assert (i ∈ l) as Hil by (apply Hin; eauto).
  destruct Hl as [->|Hl]; [by apply not_elem_of_nil in Hil|].
  apply list_elem_of_split in Hil as (l1 & l2 & ->). exists b, l1, l2. done.
Qed.

(** What one removal leaves of the memory: at most one other link changes. *)
Definition relinked (m m' : gmap Z A) (i : Z) : Prop :=
  forall j, m' !! j = m !! j \/
    (j <> i /\ exists a n, m !! j = Some a /\ m' !! j = Some (it_set_next n a)).

Lemma map_remove_ok rm hash am U k i :
  map_wf rm hash am -> pool_wf (res_pool rm) U ->
  (forall k i, am !! k = Some i -> i ∈ U) -> am !! k = Some i ->
  exists rm', drc_res_map_remove rm (hash k) k = Ok rm' /\ map_wf rm' hash (delete k am) /\
    bucket_num rm' = bucket_num rm /\ pool_wf (res_pool rm') U /\
    item_num (res_pool rm') = item_num (res_pool rm) /\
    recycle_pos (res_pool rm') = recycle_pos (res_pool rm) /\
    relinked (addr (res_pool rm)) (addr (res_pool rm')) i.
Proof.
  intros W P HU Hk. destruct (map_wf_split _ _ _ _ _ W Hk) as (b & l1 & l2 & Eb & Hsp & Hc & Hl).
  pose proof Hsp as (_ & Hnd & Hin). destruct (mw_key _ _ _ W _ _ Hk) as (a & Ha & Hka).
  assert (Z.of_nat (length (l1 ++ i :: l2)) <= Z.of_nat (size U)) as Hlen.
  { eapply bucket_len; [done.. |]. intros j Hj. by apply Hin. }
  pose proof (pool_wf_size _ _ P). pose proof (pw_num _ _ P).
  assert (u32 (bk_count b - 1) = Z.of_nat (length (l1 ++ l2))) as Hcnt.
  { rewrite Hc, !length_app in *. cbn in *. unfold u32. rewrite Z.mod_small; unfold OG_INVALID_ID32 in *; lia. }
  apply NoDup_app in Hnd as (Hnd1 & Hdis & _).
  unfold drc_res_map_remove, get_bucket. rewrite Eb. cbn [mbind outcome_bind].
  rewrite (proj2 (Z.eqb_neq (bk_count b) 0)) by (rewrite Hc, length_app; cbn; lia).
  rewrite Hc, Nat2Z.id. erewrite remove_loop_ok; [|exact Hl| |exact Ha|exact Hka].
  2:{ intros j c Hj Hcj Hkc. apply (Hdis j Hj). destruct (proj1 (Hin j)) as (k' & Hk' & _); [set_solver|].
      destruct (mw_key _ _ _ W _ _ Hk') as (c' & Hc' & ?). assert (k' = k) by congruence.
      replace j with i by congruence. set_solver. }
  destruct (last l1) as [j|] eqn:Elast.
  - apply last_Some in Elast as (l1' & ->).
    pose proof Hl as Hl0. rewrite <- app_assoc in Hl. apply chain_app in Hl as (x & Hl1 & Hl2). cbn in Hl2.
    destruct Hl2 as [-> (cj & Hcj & [Hn (a' & Ha' & Hl2)])].
    assert (a' = a) as -> by congruence. clear Ha'.
    apply NoDup_app in Hnd1 as (Hnd1' & Hj1 & _).
    assert (j <> i) as Hji by (intros ->; apply (Hdis i); set_solver).
    assert (j ∈ U) as HjU by (destruct (proj1 (Hin j)) as (k' & Hk' & _); [set_solver|]; eauto).
    unfold store_next, load. rewrite Hcj. cbn [mbind outcome_bind].
    destruct (pool_wf_store (res_pool rm) U j (it_set_next (it_next a) cj) P HjU) as [-> P'].
    cbn [mbind outcome_bind]. eexists. split; [done|]. split_and!; try done; cbn.
    + eapply map_wf_unlink; [done..| | |]; cbn.
      * intros j0 a0 Ha0. destruct (decide (j0 = j)) as [->|].
        -- rewrite lookup_insert_eq. simplify_eq. eexists; split_and!; [done | apply ri_key_next | left; set_solver].
        -- rewrite lookup_insert_ne by done. eauto.
      * intros h0 Hne. by rewrite lookup_insert_ne.
      * rewrite lookup_insert_eq. eexists; split; [done|]. split; [done|]. right. cbn.
        rewrite <- app_assoc. apply chain_app. exists j. split.
        -- apply chain_insert_out; [|done]. intros Hj. apply (Hj1 j Hj). set_solver.
        -- split; [done|]. rewrite lookup_insert_eq. eexists; split; [done|]. rewrite it_next_set.
           apply chain_insert_out; [|done]. intros Hj2. apply (Hdis j); set_solver.
    + intros j'. destruct (decide (j' = j)) as [->|].
      * right. split; [done|]. rewrite lookup_insert_eq. eauto.
      * left. by rewrite lookup_insert_ne.
  - apply last_None in Elast as ->. cbn in Hl. destruct Hl as [Hf (a' & Ha' & Hl)]. simplify_eq.
    eexists. split; [done|]. split_and!; try done; cbn; [|by left].
    eapply map_wf_unlink; [done..| by eauto | |]; cbn.
    + intros h0 Hne. by rewrite lookup_insert_ne.
    + rewrite lookup_insert_eq. eexists; split; [done|]. split; [done|]. by right.
Qed.

(** A new map is empty. *)
Lemma map_init_ok rm sz num (hashf : Z -> K -> Z) :
  rm_inited rm = false -> inited (res_pool rm) = false -> 4 <= sz -> 0 < num < 2 ^ 31 ->
  (forall k n, 0 < n -> 0 <= hashf n k < n) ->
  exists rm', drc_res_map_init true true num sz rm = Ok (OG_SUCCESS, rm') /\
    pool_wf (res_pool rm') ∅ /\ item_num (res_pool rm') = num /\ map_wf rm' (hashf (bucket_num rm')) ∅ /\
    (forall i a, addr (res_pool rm') !! i = Some a -> exists n, a = it_set_next n pi_zero).
Proof.
  intros Hr Hp Hsz Hn Hh. unfold drc_res_map_init. rewrite Hr. cbn [negb].
  destruct (pool_init_wf (res_pool rm) sz num Hp Hsz) as (p' & -> & P & Hnum & Hz); [unfold OG_INVALID_ID32; lia|].
  cbn [mbind outcome_bind]. eexists. split; [done|]. cbn. split_and!; try done.
  assert (u32 (num * 2 + 1) = num * 2 + 1) as E by (unfold u32; apply Z.mod_small; lia).
  split; cbn.
  - intros k. apply Hh. rewrite E. lia.
  - done.
  - intros h Hb. exists (mk_bucket 0 0), []. split_and!.
    + apply elem_of_list_to_map_1.
      * rewrite <- list_fmap_compose. change (NoDup (id <$> seqZ 0 (u32 (num * 2 + 1)))).
        rewrite list_fmap_id. apply NoDup_seqZ.
      * apply list_elem_of_fmap. exists h. rewrite elem_of_seqZ. split; [done|lia].
    + split; [done|by left].
    + constructor.
    + intros i. split; [set_solver|]. intros (k & Hk & _). by rewrite lookup_empty in Hk.
Qed.
End ResMapSpec.
