(* ===== verification/DrcList.v ===== *)
(** Doubly linked lists of resources
    ([drc_list_t], src/pkg/src/cluster/dtc_drc_util.[ch]): the resources of one
    partition are linked through the [node] member of their items. *)

From S2P Require Import Prelude DrcPool.

(** [drc_list_t] and [DRC_LIST_INIT]. *)
Record drc_list := mk_list { lst_first : Z; lst_last : Z; lst_count : Z }.
Definition DRC_LIST_INIT : drc_list := mk_list OG_INVALID_ID32 OG_INVALID_ID32 0.

(** [drc_list_node_t]. *)
Record drc_list_node := mk_node { ln_prev : Z; ln_next : Z; ln_idx : Z }.

(** An item that can be on a list. *)
Class HasNode (A : Type) `{PoolItem A} := {
  it_node : A -> drc_list_node;
  it_set_node : drc_list_node -> A -> A;
  it_node_set : forall n a, it_node (it_set_node n a) = n;
  it_set_node2 : forall n n' a, it_set_node n (it_set_node n' a) = it_set_node n a;
  it_node_next : forall n a, it_node (it_set_next n a) = it_node a;
  it_next_node : forall n a, it_next (it_set_node n a) = it_next a;
}.

Section DrcList.
Context {A : Type} `{HasNode A}.
Implicit Types (p : drc_res_pool A) (lst : drc_list).

Definition upd_node p (i : Z) (f : drc_list_node -> drc_list_node) : outcome (drc_res_pool A) :=
  a ← load p i; store p i (it_set_node (f (it_node a)) a).

Definition set_prev (v : Z) (n : drc_list_node) := mk_node v (ln_next n) (ln_idx n).
Definition set_nxt (v : Z) (n : drc_list_node) := mk_node (ln_prev n) v (ln_idx n).

(** [drc_add_list_node]: the pointers [node] and [head] are slots of the pool;
    [None] is [NULL]. *)
Definition drc_add_list_node p lst (node : Z) (head : option Z) :
    outcome (drc_list * drc_res_pool A) :=
  a ← load p node;
  let idx := ln_idx (it_node a) in
  if lst_count lst =? 0 then
    p1 ← upd_node p node (fun n => set_prev OG_INVALID_ID32 (set_nxt OG_INVALID_ID32 n));
    Ok (mk_list idx idx (u32 (lst_count lst + 1)), p1)
  else
    p1 ← upd_node p node (fun n => set_nxt (lst_first lst) (set_prev OG_INVALID_ID32 n));
    match head with
    | None => Crash BadAddr
    | Some h =>
        p2 ← upd_node p1 h (set_prev idx);
        Ok (mk_list idx (lst_last lst) (u32 (lst_count lst + 1)), p2)
    end.

(** [drc_delete_list_node]. *)
Definition drc_delete_list_node p lst (del : Z) (prev next : option Z) :
    outcome (drc_list * drc_res_pool A) :=
  d ← load p del;
  let dn := it_node d in
  let count := u32 (lst_count lst - 1) in
  match prev, next with
  | Some pv, Some nx =>
      p1 ← upd_node p pv (set_nxt (ln_next dn));
      p2 ← upd_node p1 nx (set_prev (ln_prev dn));
      Ok (mk_list (lst_first lst) (lst_last lst) count, p2)
  | Some pv, None =>
      p1 ← upd_node p pv (set_nxt OG_INVALID_ID32);
      pn ← load p1 pv;
      Ok (mk_list (lst_first lst) (ln_idx (it_node pn)) count, p1)
  | None, Some nx =>
      p1 ← upd_node p nx (set_prev OG_INVALID_ID32);
      Ok (mk_list (ln_next dn) (lst_last lst) count, p1)
  | None, None => Ok (mk_list OG_INVALID_ID32 OG_INVALID_ID32 count, p)
  end.

(** The callers' idiom around [drc_add_list_node]: the head is the item of
    [list->first] when the list is not empty. *)
Definition part_list_add p lst (node : Z) : outcome (drc_list * drc_res_pool A) :=
  drc_add_list_node p lst node (if lst_count lst =? 0 then None else Some (lst_first lst)).

(** The callers' idiom around [drc_delete_list_node]
    ([drc_clean_page_from_res_part]): the neighbours are found from the
    item's own node. *)
Definition part_list_del p lst (del : Z) : outcome (drc_list * drc_res_pool A) :=
  d ← load p del;
  let dn := it_node d in
  drc_delete_list_node p lst del
    (if ln_prev dn =? OG_INVALID_ID32 then None else Some (ln_prev dn))
    (if ln_next dn =? OG_INVALID_ID32 then None else Some (ln_next dn)).
End DrcList.

(** ** The sequence a list implements *)
Section DrcListSpec.
Context {A : Type} `{HasNode A}.
Implicit Types (m : gmap Z A) (lst : drc_list) (l : list Z).

Definition lastd (d : Z) l : Z := default d (last l).

(** [dseg m pv l e]: the slots of [l] are linked both ways, [pv] before the
    first and [e] after the last. *)
Fixpoint dseg m (pv : Z) l (e : Z) : Prop :=
  match l with
  | [] => True
  | i :: l' => (exists a, m !! i = Some a /\ it_node a = mk_node pv (hd e l') i) /\ dseg m i l' e
  end.

Lemma rcons_case l : l = [] \/ exists l' x, l = l' ++ [x].
Proof. induction l using rev_ind; eauto. Qed.

Lemma hd_app d l1 l2 : hd d (l1 ++ l2) = hd (hd d l2) l1.
Proof. by destruct l1. Qed.

Lemma lastd_cons d i l : lastd d (i :: l) = lastd i l.
Proof. unfold lastd. rewrite last_cons. by destruct (last l). Qed.

Lemma lastd_snoc d i l : lastd d (l ++ [i]) = i.
Proof. unfold lastd. by rewrite last_snoc. Qed.

Lemma dseg_app m l1 : forall pv l2 e,
  dseg m pv (l1 ++ l2) e <-> dseg m pv l1 (hd e l2) /\ dseg m (lastd pv l1) l2 e.
Proof.
  induction l1 as [|i l1 IH]; intros pv l2 e; cbn [app dseg].
  - unfold lastd; cbn. tauto.
  - rewrite IH, hd_app, lastd_cons. tauto.
Qed.

Lemma dseg_frame m m' pv l e :
  (forall i a, i ∈ l -> m !! i = Some a -> exists a', m' !! i = Some a' /\ it_node a' = it_node a) ->
  dseg m pv l e -> dseg m' pv l e.
Proof.
  revert pv; induction l as [|i l IH]; intros pv Hf; cbn; [done|].
  intros [(a & Ha & Hn) Hd]. split.
  - destruct (Hf i a) as (a' & Ha' & Hn'); [set_solver | done |]. exists a'. by rewrite Hn'.
  - apply IH; [|done]. intros j b Hj. apply Hf. set_solver.
Qed.

Lemma dseg_insert_out m pv l e i a : i ∉ l -> dseg m pv l e -> dseg (<[i:=a]> m) pv l e.
Proof.
  intros Hi. apply dseg_frame. intros j b Hj Hb. exists b.
  rewrite lookup_insert_ne; [done|]. by intros ->.
Qed.

(** [list] represents the sequence [l] of slots. *)
Record list_repr m lst l : Prop := {
  lr_count : lst_count lst = Z.of_nat (length l);
  lr_first : lst_first lst = hd OG_INVALID_ID32 l;
  lr_last : lst_last lst = lastd OG_INVALID_ID32 l;
  lr_seg : dseg m OG_INVALID_ID32 l OG_INVALID_ID32;
}.

Lemma list_repr_frame m m' lst l :
  (forall i a, i ∈ l -> m !! i = Some a -> exists a', m' !! i = Some a' /\ it_node a' = it_node a) ->
  list_repr m lst l -> list_repr m' lst l.
Proof. intros Hf [? ? ? ?]. split; try done. by eapply dseg_frame. Qed.

(** The effect of a list operation: only [node] members of [l] change. *)
Record renoded (p p' : drc_res_pool A) (l : list Z) : Prop := {
  rn_out : forall j, j ∉ l -> addr p' !! j = addr p !! j;
  rn_in : forall j a, addr p !! j = Some a ->
    exists n, addr p' !! j = Some (it_set_node n a) \/ addr p' !! j = Some a;
  rn_num : item_num p' = item_num p;
  rn_pos : recycle_pos p' = recycle_pos p;
}.

Lemma renoded_refl p l : renoded p p l.
Proof. split; try done. intros j a Ha. exists (it_node a). by right. Qed.

Lemma renoded_trans p1 p2 p3 l : renoded p1 p2 l -> renoded p2 p3 l -> renoded p1 p3 l.
Proof.
  intros [O1 I1 N1 P1] [O2 I2 N2 P2]. split; [| |congruence|congruence].
  - intros j Hj. by rewrite O2, O1.
  - intros j a Ha. destruct (I1 j a Ha) as (n & [Hn|Hn]).
    + destruct (I2 j _ Hn) as (n' & [Hn'|Hn']); [exists n'; rewrite it_set_node2 in Hn'; auto | exists n; auto].
    + apply I2, Hn.
Qed.

Lemma upd_node_ok p U i f a l :
  pool_wf p U -> i ∈ U -> addr p !! i = Some a -> i ∈ l ->
  exists p', upd_node p i f = Ok p' /\ pool_wf p' U /\ renoded p p' l /\
    addr p' = <[i := it_set_node (f (it_node a)) a]> (addr p).
Proof.
  intros W Hi Ha Hl. unfold upd_node, load. rewrite Ha. cbn [mbind outcome_bind].
  destruct (pool_wf_store p U i (it_set_node (f (it_node a)) a) W Hi) as [-> W'].
  eexists. split; [done|]. split_and!; try done. split; cbn; try done.
  - intros j Hj. rewrite lookup_insert_ne; [done|]. by intros ->.
  - intros j b Hb. destruct (decide (j = i)) as [->|].
    + rewrite lookup_insert_eq. simplify_eq. eauto.
    + rewrite lookup_insert_ne by done. exists (it_node b). by right.
Qed.

(** Adding at the front. *)
Lemma part_list_add_ok p U lst l i a :
  pool_wf p U -> list_repr (addr p) lst l -> NoDup l -> (forall j, j ∈ l -> j ∈ U) ->
  i ∈ U -> i ∉ l -> addr p !! i = Some a -> ln_idx (it_node a) = i ->
  exists lst' p', part_list_add p lst i = Ok (lst', p') /\ list_repr (addr p') lst' (i :: l) /\
    pool_wf p' U /\ renoded p p' (i :: l).
Proof.
  intros W [Hc Hf Hla Hseg] Hnd Hl Hi Hil Ha Hidx.
  assert (u32 (lst_count lst + 1) = Z.of_nat (S (length l))) as Hcnt.
  { rewrite Hc. unfold u32. rewrite Z.mod_small; [lia|]. split; [lia|].
    assert (Z.of_nat (length l) <= Z.of_nat (size U)).
    { apply inj_le. rewrite <- (size_list_to_set (C := gset Z) l) by done.
      apply subseteq_size. set_solver. }
    pose proof (pool_wf_size _ _ W). pose proof (pw_num _ _ W). unfold OG_INVALID_ID32 in *. lia. }
  unfold part_list_add, drc_add_list_node, load. rewrite Ha. cbn [mbind outcome_bind]. rewrite Hidx.
  destruct l as [|h l].
  - rewrite (proj2 (Z.eqb_eq (lst_count lst) 0)) by (by rewrite Hc).
    destruct (upd_node_ok p U i (fun n => set_prev OG_INVALID_ID32 (set_nxt OG_INVALID_ID32 n)) a [i] W Hi Ha)
      as (p1 & -> & W1 & R1 & E1); [set_solver|]. cbn [mbind outcome_bind].
    eexists _, p1. split; [done|]. split_and!; try done. split; cbn; try done. split; [|done].
    exists (it_set_node (mk_node OG_INVALID_ID32 OG_INVALID_ID32 i) a). rewrite E1, lookup_insert_eq.
    rewrite it_node_set. unfold set_prev, set_nxt. cbn. by rewrite Hidx.
  - rewrite (proj2 (Z.eqb_neq (lst_count lst) 0)) by (rewrite Hc; cbn; lia).
    destruct (upd_node_ok p U i (fun n => set_nxt (lst_first lst) (set_prev OG_INVALID_ID32 n)) a
      (i :: h :: l) W Hi Ha) as (p1 & -> & W1 & R1 & E1); [set_solver|]. cbn [mbind outcome_bind].
    cbn in Hf, Hseg. destruct Hseg as [(ah & Hah & Hnh) Hseg]. rewrite Hf.
    apply not_elem_of_cons in Hil as [Hih Hil]. apply NoDup_cons in Hnd as [Hhl Hnd].
    destruct (upd_node_ok p1 U h (set_prev i) ah (i :: h :: l) W1) as (p2 & -> & W2 & R2 & E2);
      [apply Hl; set_solver | by rewrite E1, lookup_insert_ne | set_solver |]. cbn [mbind outcome_bind].
    eexists _, p2. split; [done|]. split_and!; [|done|by eapply renoded_trans].
    split; cbn [lst_count lst_first lst_last]; [done|done| by rewrite Hla, !lastd_cons |].
    rewrite E2, E1. cbn [dseg hd]. split_and!.
    + eexists. rewrite lookup_insert_ne by done. rewrite lookup_insert_eq. split; [done|].
      rewrite it_node_set. unfold set_nxt, set_prev. cbn. by rewrite Hidx, Hf.
    + eexists. rewrite lookup_insert_eq. split; [done|]. rewrite it_node_set, Hnh. done.
    + by apply dseg_insert_out, dseg_insert_out.
Qed.

(** Deleting anywhere. *)
Lemma part_list_del_ok p U lst l1 l2 i :
  pool_wf p U -> list_repr (addr p) lst (l1 ++ i :: l2) -> NoDup (l1 ++ i :: l2) ->
  (forall j, j ∈ l1 ++ i :: l2 -> j ∈ U) ->
  exists lst' p', part_list_del p lst i = Ok (lst', p') /\ list_repr (addr p') lst' (l1 ++ l2) /\
    pool_wf p' U /\ renoded p p' (l1 ++ l2).
Proof.
  intros W [Hc Hf Hla Hseg] Hnd Hl.
  assert (forall j, j ∈ U -> j <> OG_INVALID_ID32) as Hinv.
  { intros j Hj. pose proof (pool_wf_range _ _ _ W Hj). pose proof (pw_num _ _ W). lia. }
  assert (u32 (lst_count lst - 1) = Z.of_nat (length (l1 ++ l2))) as Hcnt.
  { assert (Z.of_nat (length (l1 ++ i :: l2)) <= Z.of_nat (size U)) as Hle.
    { apply inj_le. rewrite <- (size_list_to_set (C := gset Z) (l1 ++ i :: l2)) by done.
      apply subseteq_size. intros j Hj%elem_of_list_to_set. by apply Hl. }
    pose proof (pool_wf_size _ _ W). pose proof (pw_num _ _ W).
    rewrite Hc, !length_app in *. cbn in *. unfold u32. rewrite Z.mod_small; unfold OG_INVALID_ID32 in *; lia. }
  apply dseg_app in Hseg as [Hs1 [(a & Ha & Hn) Hs2]]. cbn [hd] in Hs1.
  apply NoDup_app in Hnd as (Hnd1 & Hdis & [Hi2 Hnd2]%NoDup_cons).
  unfold part_list_del, drc_delete_list_node, load. rewrite Ha. cbn [mbind outcome_bind].
  rewrite Hn. cbn [ln_prev ln_next].
  destruct (rcons_case l1) as [->|(l1' & pv & ->)]; destruct l2 as [|nx l2'].
  - cbn [lastd last default hd]. rewrite Z.eqb_refl, Hcnt.
    eexists _, p. split; [done|]. split_and!; [by split | done | apply renoded_refl].
  - cbn [lastd last default hd id from_option]. rewrite Z.eqb_refl.
    rewrite (proj2 (Z.eqb_neq nx _)) by (apply Hinv, Hl; set_solver).
    destruct Hs2 as [(an & Han & Hnn) Hs2]. apply NoDup_cons in Hnd2 as [Hnx Hnd2].
    destruct (upd_node_ok p U nx (set_prev OG_INVALID_ID32) an (nx :: l2') W) as (p1 & -> & W1 & R1 & E1);
      [apply Hl; set_solver | done | set_solver |]. cbn [mbind outcome_bind].
    eexists _, p1. split; [done|]. split_and!; try done.
    split; cbn [lst_count lst_first lst_last]; [done|done|by rewrite Hla; cbn [app]; rewrite !lastd_cons|].
    rewrite E1. split; [|by apply dseg_insert_out].
    eexists. rewrite lookup_insert_eq. split; [done|]. by rewrite it_node_set, Hnn.
  - cbn [hd]. rewrite Z.eqb_refl. rewrite app_nil_r in *. rewrite lastd_snoc.
    rewrite (proj2 (Z.eqb_neq pv _)) by (apply Hinv, Hl; set_solver).
    apply dseg_app in Hs1 as [Hs1 [(av & Hav & Hnv) _]]. cbn [hd] in *.
    apply NoDup_app in Hnd1 as (Hnd1' & Hdis1 & _).
    destruct (upd_node_ok p U pv (set_nxt OG_INVALID_ID32) av (l1' ++ [pv]) W) as (p1 & -> & W1 & R1 & E1);
      [apply Hl; set_solver | done | set_solver |]. cbn [mbind outcome_bind].
    rewrite E1, lookup_insert_eq. cbn [mbind outcome_bind]. rewrite it_node_set, Hnv. cbn.
    eexists _, p1. split; [done|]. split_and!; try done.
    split; cbn; [done | rewrite Hf, !hd_app; done | unfold lastd; by rewrite last_snoc |].
    rewrite E1. apply dseg_app. split.
    + apply dseg_insert_out; [|done]. intros Hpv. apply (Hdis1 pv Hpv). set_solver.
    + split; [|done]. eexists. rewrite lookup_insert_eq. split; [done|]. by rewrite it_node_set, Hnv.
  - cbn [hd]. rewrite lastd_snoc.
    rewrite (proj2 (Z.eqb_neq pv _)) by (apply Hinv, Hl; set_solver).
    rewrite (proj2 (Z.eqb_neq nx _)) by (apply Hinv, Hl; set_solver).
    apply dseg_app in Hs1 as [Hs1 [(av & Hav & Hnv) _]]. cbn [hd] in *.
    destruct Hs2 as [(an & Han & Hnn) Hs2]. apply NoDup_cons in Hnd2 as [Hnx Hnd2].
    apply NoDup_app in Hnd1 as (Hnd1' & Hdis1 & _).
    assert (pv <> nx) as Hpn by (intros ->; apply (Hdis nx); set_solver).
    destruct (upd_node_ok p U pv (set_nxt nx) av ((l1' ++ [pv]) ++ nx :: l2') W) as (p1 & -> & W1 & R1 & E1);
      [apply Hl; set_solver | done | set_solver |]. cbn [mbind outcome_bind].
    destruct (upd_node_ok p1 U nx (set_prev pv) an ((l1' ++ [pv]) ++ nx :: l2') W1) as (p2 & -> & W2 & R2 & E2);
      [apply Hl; set_solver | by rewrite E1, lookup_insert_ne | set_solver |]. cbn [mbind outcome_bind].
    eexists _, p2. split; [done|]. split_and!; [|done|by eapply renoded_trans].
    split; cbn; [done | rewrite Hf, !hd_app; done | |].
    { rewrite Hla. unfold lastd. rewrite !last_app, !last_cons. by destruct (last l2'). }
    rewrite E2, E1. apply dseg_app. cbn [hd]. split.
    + apply dseg_insert_out; [intros Hx; apply (Hdis nx Hx); set_solver|].
      apply dseg_app. split.
      * apply dseg_insert_out; [|done]. intros Hpv. apply (Hdis1 pv Hpv). set_solver.
      * split; [|done]. eexists. rewrite lookup_insert_eq. split; [done|]. by rewrite it_node_set, Hnv.
    + rewrite lastd_snoc. split.
      * eexists. rewrite lookup_insert_eq. split; [done|]. by rewrite it_node_set, Hnn.
      * apply dseg_insert_out; [done|]. apply dseg_insert_out; [|done].
        intros Hx. apply (Hdis pv); set_solver.
Qed.

(** The header and the nodes determine the sequence. *)
Lemma dseg_unique m : forall l l' pv,
  length l = length l' -> hd OG_INVALID_ID32 l = hd OG_INVALID_ID32 l' ->
  dseg m pv l OG_INVALID_ID32 -> dseg m pv l' OG_INVALID_ID32 -> l = l'.
Proof.
  induction l as [|i l IH]; intros [|i' l'] pv Hlen Hh; try done.
  cbn in Hh. subst i'. intros [(a & Ha & Hn) Hd] [(a' & Ha' & Hn') Hd'].
  assert (a' = a) as -> by congruence. rewrite Hn in Hn'. injection Hn' as Hn'. f_equal.
  eapply IH; [by injection Hlen|done|done|done].
Qed.

Lemma list_repr_unique m lst l l' : list_repr m lst l -> list_repr m lst l' -> l = l'.
Proof.
  intros [C F _ D] [C' F' _ D']. eapply dseg_unique; [|congruence|done|done]. apply Nat2Z.inj. congruence.
Qed.
End DrcListSpec.
