(* ===== verification/DrcGlobalRes.v ===== *)
(** Partitioned resource tables ([drc_global_res_t],
    src/pkg/src/cluster/dtc_drc_util.[ch]): a pool of items, a hash map over
    them, and one list per partition. *)

From S2P Require Import Prelude DrcPool DrcResMap DrcList.

(** [DRC_MAX_PART_NUM]. *)
Definition DRC_MAX_PART_NUM : Z := 1024.

(** The members [drc_buf_res_t] and [drc_master_res_t] share (link word, slot,
    partition and list node) around the resource proper, their [body]. *)
Record res_item (B : Type) := mk_item {
  item_next : Z;
  item_idx : Z;
  item_part_id : Z;
  item_node : drc_list_node;
  body : B;
}.
Arguments mk_item {B} _ _ _ _ _.
Arguments item_next {B} _.
Arguments item_idx {B} _.
Arguments item_part_id {B} _.
Arguments item_node {B} _.
Arguments body {B} _.

(** A kind of resource: its identifier and its all-zero value. *)
Class Resource (B K : Type) `{Countable K} := {
  res_key : B -> K;
  res_zero : B;
}.

Section Items.
Context {B K : Type} `{Resource B K}.

Definition set_item_next (n : Z) (a : res_item B) : res_item B :=
  mk_item n (item_idx a) (item_part_id a) (item_node a) (body a).
Definition set_item_node (n : drc_list_node) (a : res_item B) : res_item B :=
  mk_item (item_next a) (item_idx a) (item_part_id a) n (body a).
Definition set_body (b : B) (a : res_item B) : res_item B :=
  mk_item (item_next a) (item_idx a) (item_part_id a) (item_node a) b.

#[export, refine] Instance item_has_next : HasNext (res_item B) :=
  {| it_next := item_next; it_set_next := set_item_next |}.
Proof. done. Defined.

#[export] Instance item_pool_item : PoolItem (res_item B) :=
  {| pi_zero := mk_item 0 0 0 (mk_node 0 0 0) res_zero |}.

#[export, refine] Instance item_res_item : ResItem (res_item B) K :=
  {| ri_key := fun a => res_key (body a) |}.
Proof. done. Defined.

#[export, refine] Instance item_has_node : HasNode (res_item B) :=
  {| it_node := item_node; it_set_node := set_item_node |}.
Proof. all: done. Defined.
End Items.

(** [drc_global_res_t]; the locks are the critical sections. *)
Record drc_global_res (B : Type) := mk_gres {
  res_map : drc_res_map (res_item B);
  res_parts : gmap Z drc_list;
}.
Arguments mk_gres {B} _ _.
Arguments res_map {B} _.
Arguments res_parts {B} _.

Section GlobalRes.
Context {B K : Type} `{Resource B K}.
Implicit Types (g : drc_global_res B).

Definition gr_pool g : drc_res_pool (res_item B) := res_pool (res_map g).
Definition gr_set_pool (p : drc_res_pool (res_item B)) g : drc_global_res B :=
  mk_gres (set_pool p (res_map g)) (res_parts g).

(** [drc_global_res_init]. *)
Definition drc_global_res_init (ok1 ok2 : bool) (pool_size item_size : Z) g :
    outcome (status * drc_global_res B) :=
  let parts := list_to_map ((fun i => (i, DRC_LIST_INIT)) <$> seqZ 0 DRC_MAX_PART_NUM) in
  '(ret, rm) ← drc_res_map_init ok1 ok2 pool_size item_size (res_map g);
  Ok (ret, mk_gres rm parts).

(** [drc_global_res_destroy]. *)
Definition drc_global_res_destroy g : drc_global_res B :=
  mk_gres (drc_res_map_destroy (res_map g))
          (list_to_map ((fun i => (i, DRC_LIST_INIT)) <$> seqZ 0 DRC_MAX_PART_NUM)).

(** Access to a resource through the address of its slot. *)
Definition gr_get g (i : Z) : outcome B := a ← load (gr_pool g) i; Ok (body a).
Definition gr_put g (i : Z) (b : B) : outcome (drc_global_res B) :=
  a ← load (gr_pool g) i;
  p ← store (gr_pool g) i (set_body b a);
  Ok (gr_set_pool p g).

(** [memset_s(res, sizeof(..), 0, sizeof(..))]. *)
Definition gr_memset g (i : Z) : outcome (drc_global_res B) :=
  p ← store (gr_pool g) i pi_zero; Ok (gr_set_pool p g).

Definition gr_alloc g : outcome (Z * drc_global_res B) :=
  '(i, p) ← drc_res_pool_alloc_item (gr_pool g); Ok (i, gr_set_pool p g).
Definition gr_free g (i : Z) : outcome (drc_global_res B) :=
  p ← drc_res_pool_free_item (gr_pool g) i; Ok (gr_set_pool p g).

(** The fields a creator writes before [drc_res_map_add]. *)
Definition gr_fill g (i : Z) (b : B) : outcome (drc_global_res B) :=
  a ← load (gr_pool g) i;
  p ← store (gr_pool g) i (mk_item (item_next a) i (item_part_id a) (item_node a) b);
  Ok (gr_set_pool p g).

Definition gr_map_add g (h i : Z) : outcome (drc_global_res B) :=
  rm ← drc_res_map_add (res_map g) h i; Ok (mk_gres rm (res_parts g)).

(** [res->part_id = part; res->node.idx = idx; drc_add_list_node(list, node, head)]. *)
Definition gr_list_add g (i part : Z) : outcome (drc_global_res B) :=
  a ← load (gr_pool g) i;
  p ← store (gr_pool g) i (mk_item (item_next a) (item_idx a) part
        (mk_node (ln_prev (item_node a)) (ln_next (item_node a)) i) (body a));
  match res_parts g !! part with
  | None => Crash BadAddr
  | Some lst =>
      '(lst', p') ← part_list_add p lst i;
      Ok (mk_gres (set_pool p' (res_map g)) (<[part := lst']> (res_parts g)))
  end.

Definition gr_map_remove g (h : Z) (k : K) : outcome (drc_global_res B) :=
  rm ← drc_res_map_remove (res_map g) h k; Ok (mk_gres rm (res_parts g)).

(** [drc_clean_page_from_res_part]: unlink from the list of [res->part_id]. *)
Definition gr_list_del g (i : Z) : outcome (drc_global_res B) :=
  a ← load (gr_pool g) i;
  match res_parts g !! item_part_id a with
  | None => Crash BadAddr
  | Some lst =>
      '(lst', p') ← part_list_del (gr_pool g) lst i;
      Ok (mk_gres (set_pool p' (res_map g)) (<[item_part_id a := lst']> (res_parts g)))
  end.
End GlobalRes.

(** ** The table a global resource implements

    [am] is the finite map of the hash map, [al] the one of the partition
    lists: between two statements of a critical section they may differ by the
    resource being linked or unlinked; [U] is the set of allocated slots. *)
Section GlobalResSpec.
Context {B K : Type} `{Resource B K}.
Context (hashf : Z -> K -> Z) (partf : K -> Z).
Implicit Types (g : drc_global_res B) (am al : gmap K Z) (U : gset Z).

Definition gr_hash g (k : K) : Z := hashf (bucket_num (res_map g)) k.
Definition gr_bodies g : gmap Z B := body <$> addr (gr_pool g).
Definition gr_idx_ok g (i : Z) : Prop :=
  exists a, addr (gr_pool g) !! i = Some a /\ item_idx a = i.

Record gr_inv2 g am al U : Prop := {
  gi_pool : pool_wf (gr_pool g) U;
  gi_map : map_wf (res_map g) (gr_hash g) am;
  gi_am : forall k i, am !! k = Some i -> i ∈ U;
  gi_al : forall k i, al !! k = Some i -> i ∈ U /\ exists a, addr (gr_pool g) !! i = Some a /\
    res_key (body a) = k /\ item_idx a = i /\ item_part_id a = partf k;
  gi_parts : forall q, 0 <= q < DRC_MAX_PART_NUM -> exists lst l,
    res_parts g !! q = Some lst /\ list_repr (addr (gr_pool g)) lst l /\ NoDup l /\
    forall i, i ∈ l <-> exists k, al !! k = Some i /\ partf k = q;
}.

Definition gr_inv g am U : Prop := gr_inv2 g am am U.

Lemma gr_get_ok g i b : gr_bodies g !! i = Some b -> gr_get g i = Ok b.
Proof.
  unfold gr_bodies, gr_get, load. rewrite lookup_fmap, fmap_Some.
  intros (a & -> & ->). done.
Qed.

Lemma gr_bodies_used g am al U i :
  gr_inv2 g am al U -> i ∈ U -> exists a, addr (gr_pool g) !! i = Some a /\ gr_bodies g !! i = Some (body a).
Proof.
  intros I Hi. destruct (pool_wf_load _ _ _ (gi_pool _ _ _ _ I) Hi) as (a & _ & Ha).
  exists a. unfold gr_bodies. by rewrite lookup_fmap, Ha.
Qed.

(** The identifier of a mapped slot is its key. *)
Lemma gr_inv_key g am al U k i b :
  gr_inv2 g am al U -> am !! k = Some i -> gr_bodies g !! i = Some b -> res_key b = k.
Proof.
  intros I Hk Hb. destruct (mw_key _ _ _ (gi_map _ _ _ _ I) _ _ Hk) as (a & Ha & Hka).
  unfold gr_bodies, gr_pool in Hb. rewrite lookup_fmap, Ha in Hb. by simplify_eq/=.
Qed.

Lemma gr_inv_inj g am al U k k' i :
  gr_inv2 g am al U -> am !! k = Some i -> am !! k' = Some i -> k = k'.
Proof. intros I. eapply map_wf_inj, I. Qed.

(** Everything but the pool memory stays, and no link, identifier or list
    node of a linked slot changes. *)
Lemma gr_inv2_mem g am al U U' p' :
  gr_inv2 g am al U -> pool_wf p' U' ->
  (forall k i, am !! k = Some i -> i ∈ U') -> (forall k i, al !! k = Some i -> i ∈ U') ->
  (forall k i a, am !! k = Some i -> addr (gr_pool g) !! i = Some a ->
     exists a', addr p' !! i = Some a' /\ item_next a' = item_next a /\ res_key (body a') = res_key (body a)) ->
  (forall k i a, al !! k = Some i -> addr (gr_pool g) !! i = Some a ->
     exists a', addr p' !! i = Some a' /\ item_node a' = item_node a /\ res_key (body a') = res_key (body a) /\
       item_idx a' = item_idx a /\ item_part_id a' = item_part_id a) ->
  gr_inv2 (gr_set_pool p' g) am al U'.
Proof.
  intros I P Ham Hal Hm Hl. split; cbn; try done.
  - apply (map_wf_frame (res_map g)); [done | done | | apply I]. cbn. intros k i a Hk Ha.
    destruct (Hm _ _ _ Hk Ha) as (a' & ? & ? & ?). eauto.
  - intros k i Hk. split; [by eapply Hal|].
    destruct (gi_al _ _ _ _ I _ _ Hk) as (_ & a & Ha & ? & ? & ?).
    destruct (Hl _ _ _ Hk Ha) as (a' & ? & ? & ? & ? & ?). exists a'. split_and!; congruence.
  - intros q Hq. destruct (gi_parts _ _ _ _ I q Hq) as (lst & l & ? & Hr & ? & Hin).
    exists lst, l. split_and!; try done. eapply list_repr_frame; [|done].
    intros i a (k & Hk & _)%Hin Ha. destruct (Hl _ _ _ Hk Ha) as (a' & ? & ? & _). eauto.
Qed.

Lemma gr_put_ok g am al U i b b0 :
  gr_inv2 g am al U -> i ∈ U -> gr_bodies g !! i = Some b0 -> res_key b = res_key b0 ->
  exists g', gr_put g i b = Ok g' /\ gr_inv2 g' am al U /\ gr_bodies g' = <[i := b]> (gr_bodies g) /\
    bucket_num (res_map g') = bucket_num (res_map g).
Proof.
  intros I Hi Hb Hk. destruct (gr_bodies_used _ _ _ _ _ I Hi) as (a & Ha & Hb').
  assert (b0 = body a) as -> by congruence. unfold gr_put, load. rewrite Ha. cbn [mbind outcome_bind].
  destruct (pool_wf_store _ _ i (set_body b a) (gi_pool _ _ _ _ I) Hi) as [-> P].
  cbn [mbind outcome_bind]. eexists. split; [done|]. split_and!; [| |done].
  - eapply gr_inv2_mem; [done | done | apply I | intros k j Hj; by eapply gi_al | |]; cbn; intros k j c Hj Hc;
      (destruct (decide (j = i)) as [->|]; [rewrite lookup_insert_eq; assert (c = a) as -> by congruence; eauto 10 |
       rewrite lookup_insert_ne by done; eauto 10]).
  - unfold gr_bodies. cbn. by rewrite fmap_insert.
Qed.

(** A write of a whole item to a slot that is allocated but not linked. *)
Lemma gr_store_spare g am al U i a :
  gr_inv2 g am al U -> i ∈ U -> (forall k, am !! k <> Some i) -> (forall k, al !! k <> Some i) ->
  exists p', store (gr_pool g) i a = Ok p' /\ gr_inv2 (gr_set_pool p' g) am al U /\
    addr p' = <[i := a]> (addr (gr_pool g)) /\ gr_bodies (gr_set_pool p' g) = <[i := body a]> (gr_bodies g).
Proof.
  intros I Hi Hm Hl. destruct (pool_wf_store _ _ i a (gi_pool _ _ _ _ I) Hi) as [-> P].
  eexists. split; [done|]. split_and!; [|done|unfold gr_bodies; cbn; by rewrite fmap_insert].
  eapply gr_inv2_mem; [done | done | apply I | intros k j Hj; by eapply gi_al | |]; cbn; intros k j c Hj Hc.
  - rewrite lookup_insert_ne by (intros ->; by apply (Hm k)). eauto.
  - rewrite lookup_insert_ne by (intros ->; by apply (Hl k)). eauto 10.
Qed.

Lemma gr_fill_ok g am al U i b :
  gr_inv2 g am al U -> i ∈ U -> (forall k, am !! k <> Some i) -> (forall k, al !! k <> Some i) ->
  exists g', gr_fill g i b = Ok g' /\ gr_inv2 g' am al U /\ gr_idx_ok g' i /\
    gr_bodies g' = <[i := b]> (gr_bodies g) /\ bucket_num (res_map g') = bucket_num (res_map g).
Proof.
  intros I Hi Hm Hl. destruct (gr_bodies_used _ _ _ _ _ I Hi) as (a & Ha & _).
  unfold gr_fill, load. rewrite Ha. cbn [mbind outcome_bind].
  destruct (gr_store_spare g am al U i (mk_item (item_next a) i (item_part_id a) (item_node a) b) I Hi Hm Hl)
    as (p' & -> & I' & E & Eb). cbn [mbind outcome_bind].
  eexists. split; [done|]. split_and!; try done. eexists. cbn. rewrite E, lookup_insert_eq. done.
Qed.

Lemma gr_memset_ok g am al U i :
  gr_inv2 g am al U -> i ∈ U -> (forall k, am !! k <> Some i) -> (forall k, al !! k <> Some i) ->
  exists g', gr_memset g i = Ok g' /\ gr_inv2 g' am al U /\
    gr_bodies g' = <[i := res_zero]> (gr_bodies g) /\ bucket_num (res_map g') = bucket_num (res_map g).
Proof.
  intros I Hi Hm Hl. unfold gr_memset.
  destruct (gr_store_spare g am al U i pi_zero I Hi Hm Hl) as (p' & -> & I' & E & Eb).
  cbn [mbind outcome_bind]. eauto 10.
Qed.

Lemma gr_alloc_full g am al U :
  gr_inv2 g am al U -> U = slots (item_num (gr_pool g)) -> gr_alloc g = Ok (OG_INVALID_ID32, g).
Proof.
  intros I HU. unfold gr_alloc. rewrite (alloc_item_full _ U) by (done || apply I).
  cbn [mbind outcome_bind]. unfold gr_set_pool, set_pool, gr_pool. by destruct g as [[] ?].
Qed.

Lemma gr_alloc_ok g am al U :
  gr_inv2 g am al U -> U <> slots (item_num (gr_pool g)) ->
  exists i g', gr_alloc g = Ok (i, g') /\ i ∉ U /\ i <> OG_INVALID_ID32 /\
    gr_inv2 g' am al ({[i]} ∪ U) /\ gr_bodies g' = gr_bodies g /\
    bucket_num (res_map g') = bucket_num (res_map g).
Proof.
  intros I HU.
  destruct (alloc_item_some _ _ (gi_pool _ _ _ _ I) HU) as (i & p' & E & Hi & Hr & P & Ea & En).
  unfold gr_alloc. rewrite E. cbn [mbind outcome_bind]. eexists i, _. split; [done|].
  pose proof (pw_num _ _ (gi_pool _ _ _ _ I)).
  split_and!; [done | lia | | unfold gr_bodies; cbn; by rewrite Ea | done].
  eapply gr_inv2_mem; [done | done | | | |]; rewrite ?Ea.
  - intros k j Hj. apply elem_of_union_r. by eapply gi_am.
  - intros k j Hj. apply elem_of_union_r. by eapply gi_al.
  - eauto.
  - eauto 10.
Qed.

Lemma gr_free_ok g am al U i :
  gr_inv2 g am al U -> i ∈ U -> (forall k, am !! k <> Some i) -> (forall k, al !! k <> Some i) ->
  exists g', gr_free g i = Ok g' /\ gr_inv2 g' am al (U ∖ {[i]}) /\
    gr_bodies g' = gr_bodies g /\ bucket_num (res_map g') = bucket_num (res_map g).
Proof.
  intros I Hi Hm Hl.
  destruct (free_item_ok _ _ _ (gi_pool _ _ _ _ I) Hi) as (p' & E & P & _ & _ & Ho & c0 & n & Hc & Hn).
  unfold gr_free. rewrite E. cbn [mbind outcome_bind]. eexists. split; [done|].
  split_and!; [| |done].
  2:{ apply map_eq. intros j. unfold gr_bodies; cbn. rewrite !lookup_fmap. destruct (decide (j = i)) as [->|].
      - by rewrite Hc, Hn.
      - by rewrite Ho. }
  eapply gr_inv2_mem; [done | done | | |  |].
  - intros k j Hj. assert (j <> i) by (intros ->; by apply (Hm k)).
    pose proof (gi_am _ _ _ _ I _ _ Hj). set_solver.
  - intros k j Hj. assert (j <> i) by (intros ->; by apply (Hl k)).
    pose proof (gi_al _ _ _ _ I _ _ Hj) as [? _]. set_solver.
  - intros k j c Hj Hcj. rewrite Ho by (intros ->; by apply (Hm k)). eauto.
  - intros k j c Hj Hcj. rewrite Ho by (intros ->; by apply (Hl k)). eauto 10.
Qed.

(** The same for a batch of slots that are linked nowhere. *)
Lemma gr_free_batch_ok g am al U ids :
  gr_inv2 g am al U -> NoDup ids -> (forall i, i ∈ ids -> i ∈ U) ->
  (forall k i, am !! k = Some i -> i ∉ ids) -> (forall k i, al !! k = Some i -> i ∉ ids) ->
  exists p', drc_res_pool_free_batch_item (gr_pool g) ids = Ok p' /\
    gr_inv2 (gr_set_pool p' g) am al (U ∖ list_to_set ids) /\ gr_bodies (gr_set_pool p' g) = gr_bodies g.
Proof.
  intros I Hnd Hin Hm Hl.
  destruct (free_batch_ok _ _ _ (gi_pool _ _ _ _ I) Hnd Hin) as (p' & E & P & _ & Ho & Hs).
  exists p'. split; [done|]. split.
  2:{ apply map_eq. intros j. unfold gr_bodies; cbn. rewrite !lookup_fmap. destruct (decide (j ∈ ids)) as [Hj|].
      - destruct (Hs _ Hj) as (a & n & -> & ->). done.
      - by rewrite Ho. }
  eapply gr_inv2_mem; [done | done | | |  |].
  - intros k j Hj. apply elem_of_difference. rewrite elem_of_list_to_set. split; [by eapply gi_am|by eapply Hm].
  - intros k j Hj. apply elem_of_difference. rewrite elem_of_list_to_set.
    split; [by eapply (gi_al _ _ _ _ I)|by eapply Hl].
  - intros k j c Hj Hcj. rewrite Ho by (by eapply Hm). eauto.
  - intros k j c Hj Hcj. rewrite Ho by (by eapply Hl). eauto 10.
Qed.

(** The partition lists only depend on the nodes and headers of their slots. *)
Lemma gr_parts_frame g g' am al am' U :
  gr_inv2 g am al U -> res_parts g' = res_parts g ->
  pool_wf (gr_pool g') U -> map_wf (res_map g') (gr_hash g') am' ->
  (forall k i, am' !! k = Some i -> i ∈ U) ->
  (forall i a, addr (gr_pool g) !! i = Some a -> exists n, addr (gr_pool g') !! i = Some (set_item_next n a)) ->
  gr_inv2 g' am' al U.
Proof.
  intros I Ep P M Ham Hf. split; try done.
  - intros k i Hk. destruct (gi_al _ _ _ _ I _ _ Hk) as (Hi & a & Ha & ? & ? & ?).
    split; [done|]. destruct (Hf _ _ Ha) as (n & Hn). eexists. split; [done|]. done.
  - intros q Hq. destruct (gi_parts _ _ _ _ I q Hq) as (lst & l & ? & Hr & ? & Hin).
    exists lst, l. rewrite Ep. split_and!; try done. eapply list_repr_frame; [|done].
    intros i a _ Ha. destruct (Hf _ _ Ha) as (n & Hn). eauto.
Qed.

Lemma gr_bodies_relinked g g' :
  (forall i, addr (gr_pool g) !! i = None -> addr (gr_pool g') !! i = None) ->
  (forall i a, addr (gr_pool g) !! i = Some a -> exists n, addr (gr_pool g') !! i = Some (set_item_next n a)) ->
  gr_bodies g' = gr_bodies g.
Proof.
  intros Hn Hs. apply map_eq. intros i. unfold gr_bodies. rewrite !lookup_fmap.
  destruct (addr (gr_pool g) !! i) as [a|] eqn:E.
  - destruct (Hs _ _ E) as (n & ->). done.
  - by rewrite (Hn i E).
Qed.

Lemma gr_idx_relinked g g' i :
  (forall i a, addr (gr_pool g) !! i = Some a -> exists n, addr (gr_pool g') !! i = Some (set_item_next n a)) ->
  gr_idx_ok g i -> gr_idx_ok g' i.
Proof. intros Hs (a & Ha & Hi). destruct (Hs _ _ Ha) as (n & Hn). by eexists. Qed.

Lemma gr_map_add_ok g am al U k i b :
  gr_inv2 g am al U -> i ∈ U -> (forall k, am !! k <> Some i) -> am !! k = None ->
  gr_bodies g !! i = Some b -> res_key b = k ->
  exists g', gr_map_add g (gr_hash g k) i = Ok g' /\ gr_inv2 g' (<[k := i]> am) al U /\
    gr_bodies g' = gr_bodies g /\ bucket_num (res_map g') = bucket_num (res_map g) /\
    (forall j, gr_idx_ok g j -> gr_idx_ok g' j).
Proof.
  intros I Hi Hm Hk Hb Hkb. destruct (gr_bodies_used _ _ _ _ _ I Hi) as (a & Ha & Hb').
  assert (b = body a) as -> by congruence.
  destruct (map_add_ok (res_map g) (gr_hash g) am U k i a) as (rm' & n & E & M & En & Ep);
    [apply I | apply I | apply I | done..|].
  unfold gr_map_add. rewrite E. cbn [mbind outcome_bind]. eexists. split; [done|].
  set (g' := mk_gres rm' (res_parts g)).
  assert (forall j c, addr (gr_pool g) !! j = Some c ->
    exists n, addr (gr_pool g') !! j = Some (set_item_next n c)) as Hs.
  { intros j c Hc. unfold gr_pool; cbn. rewrite Ep; cbn. destruct (decide (j = i)) as [->|].
    - rewrite lookup_insert_eq. unfold gr_pool in *. exists n. congruence.
    - rewrite lookup_insert_ne by done. exists (item_next c). unfold gr_pool in Hc. rewrite Hc. by destruct c. }
  split_and!.
  - apply (gr_parts_frame g _ am al); try done.
    + unfold gr_pool; cbn. rewrite Ep. by apply pool_wf_store; [apply I|].
    + unfold gr_hash in *. cbn. by rewrite En.
    + intros k' i' [[<- <-]|[_ ?]]%lookup_insert_Some; [done|by eapply gi_am].
  - apply gr_bodies_relinked; [|done]. intros j Hj. unfold gr_pool in *; cbn. rewrite Ep; cbn.
    rewrite lookup_insert_ne; [done|]. intros ->. congruence.
  - done.
  - intros j. by apply gr_idx_relinked.
Qed.

Lemma gr_map_remove_ok g am al U k i :
  gr_inv2 g am al U -> am !! k = Some i ->
  exists g', gr_map_remove g (gr_hash g k) k = Ok g' /\ gr_inv2 g' (delete k am) al U /\
    gr_bodies g' = gr_bodies g /\ bucket_num (res_map g') = bucket_num (res_map g) /\
    (forall j, gr_idx_ok g j -> gr_idx_ok g' j) /\ res_parts g' = res_parts g /\
    (forall j a, addr (gr_pool g) !! j = Some a -> exists n, addr (gr_pool g') !! j = Some (set_item_next n a)).
Proof.
  intros I Hk.
  destruct (map_remove_ok (res_map g) (gr_hash g) am U k i) as (rm' & E & M & En & P & _ & _ & R);
    [apply I | apply I | apply I | done |].
  unfold gr_map_remove. rewrite E. cbn [mbind outcome_bind]. eexists. split; [done|].
  set (g' := mk_gres rm' (res_parts g)).
  assert (forall j c, addr (gr_pool g) !! j = Some c ->
    exists n, addr (gr_pool g') !! j = Some (set_item_next n c)) as Hs.
  { intros j c Hc. unfold gr_pool; cbn. destruct (R j) as [->|(_ & a & n & Ha & ->)].
    - exists (item_next c). unfold gr_pool in Hc. rewrite Hc. by destruct c.
    - exists n. unfold gr_pool in Hc. rewrite Ha in Hc. by injection Hc as <-. }
  split_and!; [| |done|intros j; by apply gr_idx_relinked|done|done].
  - apply (gr_parts_frame g _ am al); try done.
    + unfold gr_hash in *. cbn. by rewrite En.
    + intros k' i' [_ ?]%lookup_delete_Some. by eapply gi_am.
  - apply gr_bodies_relinked; [|done]. intros j Hj. unfold gr_pool in *; cbn.
    destruct (R j) as [->|(_ & a & n & Ha & _)]; [done|]. exfalso. clear -Hj Ha. by rewrite Ha in Hj.
Qed.

(** A list operation on one partition keeps everything else. *)
Lemma gr_renoded_inv g am al al' U q lst' l' L p0 p' :
  gr_inv2 g am al U -> 0 <= q < DRC_MAX_PART_NUM ->
  pool_wf p' U -> renoded p0 p' L -> item_num p0 = item_num (gr_pool g) ->
  (forall j a, addr (gr_pool g) !! j = Some a -> exists a0, addr p0 !! j = Some a0 /\
     item_next a0 = item_next a /\ body a0 = body a /\ item_idx a0 = item_idx a /\
     (forall k, al !! k = Some j -> a0 = a)) ->
  (forall j, j ∈ L -> forall k, al !! k = Some j -> partf k = q) ->
  (forall k j, al' !! k = Some j -> al !! k = Some j \/ (j ∈ U /\ exists a0, addr p0 !! j = Some a0 /\
     res_key (body a0) = k /\ item_idx a0 = j /\ item_part_id a0 = partf k)) ->
  (forall k j, partf k <> q -> al' !! k = Some j <-> al !! k = Some j) ->
  list_repr (addr p') lst' l' -> NoDup l' ->
  (forall i, i ∈ l' <-> exists k, al' !! k = Some i /\ partf k = q) ->
  gr_inv2 (mk_gres (set_pool p' (res_map g)) (<[q := lst']> (res_parts g))) am al' U.
Proof.
  intros I Hq P R Hnum Hp0 HL Hal Hne Hr Hnd Hin.
  assert (forall j a0, addr p0 !! j = Some a0 -> exists a', addr p' !! j = Some a' /\
    item_next a' = item_next a0 /\ body a' = body a0 /\ item_idx a' = item_idx a0 /\
    item_part_id a' = item_part_id a0) as Hs.
  { intros j a0 Ha. destruct (rn_in _ _ _ R j a0 Ha) as (n & [-> | ->]); eauto 10. }
  split; cbn; try done.
  - apply (map_wf_frame (res_map g)); [done | done | | apply I]. cbn. intros k i a _ Ha.
    destruct (Hp0 _ _ Ha) as (a0 & Ha0 & En & Eb & _). destruct (Hs _ _ Ha0) as (a' & -> & En' & Eb' & _).
    exists a'. cbn. split; [done|]. split; congruence.
  - apply I.
  - intros k i Hk. assert (exists a0, i ∈ U /\ addr p0 !! i = Some a0 /\
      res_key (body a0) = k /\ item_idx a0 = i /\ item_part_id a0 = partf k) as (a0 & Hi & Ha0 & E1 & E2 & E3).
    { destruct (Hal _ _ Hk) as [Hk'|(? & a0 & ?)]; [|by exists a0].
      destruct (gi_al _ _ _ _ I _ _ Hk') as (Hi & a & Ha & ?).
      destruct (Hp0 _ _ Ha) as (a0 & Ha0 & _ & _ & _ & Heq). rewrite (Heq k Hk') in Ha0. by exists a. }
    split; [done|]. destruct (Hs _ _ Ha0) as (a' & Ha' & _ & Eb & Ei & Ep).
    exists a'. rewrite Eb, Ei, Ep. done.
  - intros q' Hq'. destruct (decide (q' = q)) as [->|Hqq].
    { exists lst', l'. rewrite lookup_insert_eq. done. }
    destruct (gi_parts _ _ _ _ I q' Hq') as (lst & l & Hp & Hr0 & Hnd0 & Hin0).
    exists lst, l. rewrite lookup_insert_ne by done. split_and!; [done| |done|].
    + eapply list_repr_frame; [|exact Hr0]. intros i a (k & Hk & Hkq)%Hin0 Ha.
      destruct (Hp0 _ _ Ha) as (a0 & Ha0 & _ & _ & _ & Heq). rewrite (Heq k Hk) in Ha0.
      exists a. rewrite (rn_out _ _ _ R); [done|]. intros HiL. pose proof (HL _ HiL _ Hk). congruence.
    + intros i. rewrite Hin0. split; intros (k & Hk & Hkq); exists k; split; try done; apply Hne in Hk; congruence.
Qed.

Context (partf_range : forall k, 0 <= partf k < DRC_MAX_PART_NUM).

Lemma gr_list_add_ok g am al U k i b :
  gr_inv2 g am al U -> i ∈ U -> al !! k = None -> (forall k, al !! k <> Some i) ->
  gr_bodies g !! i = Some b -> res_key b = k -> gr_idx_ok g i ->
  exists g', gr_list_add g i (partf k) = Ok g' /\ gr_inv2 g' am (<[k := i]> al) U /\
    gr_bodies g' = gr_bodies g /\ bucket_num (res_map g') = bucket_num (res_map g).
Proof.
  intros I Hi Hk Hni Hb Hkb (a & Ha & Hidx).
  assert (b = body a) as -> by (unfold gr_bodies in Hb; rewrite lookup_fmap, Ha in Hb; by simplify_eq/=).
  pose proof (partf_range k) as Hq.
  destruct (gi_parts _ _ _ _ I _ Hq) as (lst & l & Hp & Hr & Hnd & Hin).
  unfold gr_list_add, load. rewrite Ha. cbn [mbind outcome_bind].
  set (a1 := mk_item _ _ _ _ _).
  destruct (pool_wf_store _ _ i a1 (gi_pool _ _ _ _ I) Hi) as [-> P]. cbn [mbind outcome_bind]. rewrite Hp.
  set (p0 := set_addr _ _) in *.
  assert (i ∉ l) as Hil by (rewrite Hin; intros (k' & Hk' & _); by apply (Hni k')).
  destruct (part_list_add_ok p0 U lst l i a1) as (lst' & p' & E & Hr' & P' & R); try done.
  - eapply list_repr_frame; [|exact Hr]. intros j c Hj Hc. exists c. cbn.
    rewrite lookup_insert_ne by (by intros ->). done.
  - intros j (k' & Hk' & _)%Hin. by eapply gi_al.
  - cbn. by rewrite lookup_insert_eq.
  - rewrite E. cbn [mbind outcome_bind]. eexists. split; [done|].
    assert (forall j c, addr (gr_pool g) !! j = Some c -> exists a0, addr p0 !! j = Some a0 /\
      item_next a0 = item_next c /\ body a0 = body c /\ item_idx a0 = item_idx c /\
      (forall k', al !! k' = Some j -> a0 = c)) as Hold.
    { intros j c Hc. cbn. destruct (decide (j = i)) as [->|].
      - assert (c = a) as -> by congruence. exists a1. rewrite lookup_insert_eq. split_and!; try done.
        intros k' Hk'. by destruct (Hni k').
      - exists c. by rewrite lookup_insert_ne. }
    split_and!; [| |done].
    + apply (gr_renoded_inv g am al (<[k:=i]> al) U (partf k) lst' (i :: l) (i :: l) p0 p'); try done.
      * intros j [->|Hj]%elem_of_cons k' Hk'; [by destruct (Hni k')|].
        apply Hin in Hj as (k2 & Hk2 & <-). f_equal.
        destruct (gi_al _ _ _ _ I _ _ Hk') as (_ & c & Hc & <- & _).
        destruct (gi_al _ _ _ _ I _ _ Hk2) as (_ & c' & Hc' & <- & _). congruence.
      * intros k' j [[<- <-]|[_ ?]]%lookup_insert_Some; [right|by left].
        split; [done|]. exists a1. cbn. by rewrite lookup_insert_eq.
      * intros k' j Hne. rewrite lookup_insert_ne by (by intros ->). done.
      * by apply NoDup_cons.
      * intros j. rewrite elem_of_cons, Hin. split.
        -- intros [->|(k' & Hk' & ?)]; [exists k; by rewrite lookup_insert_eq|].
           exists k'. rewrite lookup_insert_ne by congruence. done.
        -- intros (k' & [[<- <-]|[_ ?]]%lookup_insert_Some & ?); eauto.
    + apply map_eq. intros j. unfold gr_bodies, gr_pool at 1. cbn. rewrite !lookup_fmap.
      destruct (addr (gr_pool g) !! j) as [c|] eqn:Hc.
      * destruct (Hold _ _ Hc) as (a0 & Ha0 & _ & Eb & _).
        destruct (rn_in _ _ _ R j a0 Ha0) as (n & [-> | ->]); cbn; by rewrite Eb.
      * rewrite (rn_out _ _ _ R); cbn.
        -- rewrite lookup_insert_ne by congruence. by rewrite Hc.
        -- intros [->|Hj]%elem_of_cons; [congruence|]. apply Hin in Hj as (k' & Hk' & _).
           destruct (gi_al _ _ _ _ I _ _ Hk') as (_ & c & Hc' & _). congruence.
Qed.

Lemma gr_list_del_ok g am al U k i :
  gr_inv2 g am al U -> al !! k = Some i ->
  exists g', gr_list_del g i = Ok g' /\ gr_inv2 g' am (delete k al) U /\
    gr_bodies g' = gr_bodies g /\ bucket_num (res_map g') = bucket_num (res_map g) /\
    (forall j, gr_idx_ok g j -> gr_idx_ok g' j).
Proof.
  intros I Hk. pose proof (partf_range k) as Hq.
  destruct (gi_al _ _ _ _ I _ _ Hk) as (Hi & a & Ha & Hka & _ & Hpa).
  destruct (gi_parts _ _ _ _ I _ Hq) as (lst & l & Hp & Hr & Hnd & Hin).
  unfold gr_list_del, load. rewrite Ha. cbn [mbind outcome_bind]. rewrite Hpa, Hp.
  assert (i ∈ l) as (l1 & l2 & ->)%list_elem_of_split by (apply Hin; eauto).
  destruct (part_list_del_ok (gr_pool g) U lst l1 l2 i) as (lst' & p' & E & Hr' & P' & R); try done.
  { apply I. } { intros j (k' & Hk' & _)%Hin. by eapply gi_al. }
  rewrite E. cbn [mbind outcome_bind]. eexists. split; [done|].
  apply NoDup_app in Hnd as (Hnd1 & Hdis & [Hi2 Hnd2]%NoDup_cons).
  assert (forall k' j, al !! k' = Some j -> al !! k = Some j -> k' = k) as Hinj.
  { intros k' j Hk' Hkj. destruct (gi_al _ _ _ _ I _ _ Hk') as (_ & c & Hc & <- & _).
    destruct (gi_al _ _ _ _ I _ _ Hkj) as (_ & c' & Hc' & <- & _). congruence. }
  split_and!; [| |done|].
  3:{ intros j (c & Hc & Hx). destruct (rn_in _ _ _ R j c Hc) as (n & [Hn | Hn]); by eexists. }
  - apply (gr_renoded_inv g am al (delete k al) U (partf k) lst' (l1 ++ l2) (l1 ++ l2) (gr_pool g) p'); try done.
    + intros j c Hc. exists c. done.
    + intros j Hj k' Hk'. assert (j ∈ l1 ++ i :: l2) as Hj' by set_solver.
      apply Hin in Hj' as (k2 & Hk2 & <-). f_equal.
      destruct (gi_al _ _ _ _ I _ _ Hk') as (_ & c & Hc & <- & _).
      destruct (gi_al _ _ _ _ I _ _ Hk2) as (_ & c' & Hc' & <- & _). congruence.
    + intros k' j [_ ?]%lookup_delete_Some. by left.
    + intros k' j Hne. rewrite lookup_delete_ne by (by intros ->). done.
    + apply NoDup_app. split_and!; try done. intros j Hj Hj2. apply (Hdis j Hj). set_solver.
    + intros j. split.
      * intros Hj. assert (j ∈ l1 ++ i :: l2) as Hj' by set_solver.
        apply Hin in Hj' as (k' & Hk' & ?). exists k'. split; [|done].
        apply lookup_delete_Some. split; [|done]. intros <-. assert (j = i) as -> by congruence.
        apply elem_of_app in Hj as [Hj|Hj]; [apply (Hdis i Hj); set_solver|done].
      * intros (k' & [Hne Hk']%lookup_delete_Some & ?).
        assert (j ∈ l1 ++ i :: l2) as Hj' by (apply Hin; eauto).
        assert (j <> i) by (intros ->; by destruct (Hinj k' i Hk' Hk)). set_solver.
  - apply map_eq. intros j. unfold gr_bodies, gr_pool at 1. cbn. rewrite !lookup_fmap.
    destruct (addr (gr_pool g) !! j) as [c|] eqn:Hc.
    + destruct (rn_in _ _ _ R j c Hc) as (n & [-> | ->]); done.
    + rewrite (rn_out _ _ _ R); [by rewrite Hc|]. intros Hj. assert (j ∈ l1 ++ i :: l2) as Hj' by set_solver.
      apply Hin in Hj' as (k' & Hk' & _). destruct (gi_al _ _ _ _ I _ _ Hk') as (_ & c & Hc' & _). congruence.
Qed.

(** ** The list of one partition *)
Definition gr_part g (q : Z) (l : list Z) : Prop :=
  exists lst, res_parts g !! q = Some lst /\ list_repr (addr (gr_pool g)) lst l.

Lemma gr_part_mem g am al U q l i :
  gr_inv2 g am al U -> 0 <= q < DRC_MAX_PART_NUM -> gr_part g q l ->
  NoDup l /\ (i ∈ l <-> exists k, al !! k = Some i /\ partf k = q).
Proof.
  intros I Hq (lst & Hl & Hr). destruct (gi_parts _ _ _ _ I q Hq) as (lst' & l' & Hl' & Hr' & Hnd & Hin).
  assert (lst' = lst) as -> by congruence. rewrite (list_repr_unique _ _ _ _ Hr Hr'). auto.
Qed.

Lemma gr_part_exists g am al U q :
  gr_inv2 g am al U -> 0 <= q < DRC_MAX_PART_NUM -> exists l, gr_part g q l.
Proof. intros I Hq. destruct (gi_parts _ _ _ _ I q Hq) as (lst & l & ? & ? & _). exists l, lst. done. Qed.

Lemma gr_part_frame g g' q l :
  res_parts g' = res_parts g ->
  (forall i a, i ∈ l -> addr (gr_pool g) !! i = Some a ->
     exists a', addr (gr_pool g') !! i = Some a' /\ item_node a' = item_node a) ->
  gr_part g q l -> gr_part g' q l.
Proof. intros Hp Hf (lst & Hl & Hr). exists lst. rewrite Hp. split; [done|]. by eapply list_repr_frame. Qed.

(** Walking the list: each node leads to the next. *)
Lemma gr_part_next g q l1 i l2 :
  gr_part g q (l1 ++ i :: l2) ->
  exists a, load (gr_pool g) i = Ok a /\ ln_next (item_node a) = hd OG_INVALID_ID32 l2.
Proof.
  intros (lst & _ & [_ _ _ Hd]). apply dseg_app in Hd as [_ [(a & Ha & Hn) _]]. exists a. unfold load. rewrite Ha.
  split; [done|]. change (ln_next (it_node a) = hd OG_INVALID_ID32 l2). by rewrite Hn.
Qed.

Lemma gr_part_put g g' i b q l : gr_put g i b = Ok g' -> gr_part g q l -> gr_part g' q l.
Proof.
  unfold gr_put, load, store. destruct (addr (gr_pool g) !! i) as [a|] eqn:Ha; cbn; [|done].
  intros [= <-]. apply gr_part_frame; [done|]. intros j c _ Hc. cbn. destruct (decide (j = i)) as [->|].
  - rewrite lookup_insert_eq. eexists. split; [done|]. cbn. congruence.
  - rewrite lookup_insert_ne by done. eauto.
Qed.

Lemma gr_part_free g g' i q l : gr_free g i = Ok g' -> gr_part g q l -> gr_part g' q l.
Proof.
  unfold gr_free, drc_res_pool_free_item. destruct (inited (gr_pool g)); cbn [negb].
  2:{ intros [= <-]. by apply gr_part_frame; eauto. }
  unfold store_next, load, store. destruct (addr (gr_pool g) !! i) as [a|] eqn:Ha; cbn; [|done].
  intros [= <-]. apply gr_part_frame; [done|].
  intros j c _ Hc. cbn. destruct (decide (j = i)) as [->|].
  - rewrite lookup_insert_eq. eexists. split; [done|]. by simplify_eq.
  - rewrite lookup_insert_ne by done. eauto.
Qed.

Lemma gr_part_memset g g' i q l : gr_memset g i = Ok g' -> i ∉ l -> gr_part g q l -> gr_part g' q l.
Proof.
  unfold gr_memset, store. destruct (addr (gr_pool g) !! i) as [a|] eqn:Ha; cbn; [|done].
  intros [= <-] Hi. apply gr_part_frame; [done|]. intros j c Hj Hc. cbn. exists c.
  rewrite lookup_insert_ne; [done|]. by intros ->.
Qed.

Lemma gr_part_del g g' am al U k i q l1 l2 :
  gr_inv2 g am al U -> al !! k = Some i -> partf k = q -> gr_part g q (l1 ++ i :: l2) ->
  gr_list_del g i = Ok g' -> gr_part g' q (l1 ++ l2).
Proof.
  intros I Hk Hkq HP HE. pose proof (partf_range k) as Hq. rewrite Hkq in Hq.
  destruct (gi_al _ _ _ _ I _ _ Hk) as (Hi & a & Ha & _ & _ & Hpa).
  pose proof (gr_part_mem _ _ _ _ _ _ i I Hq HP) as [Hnd _]. destruct HP as (lst & Hl & Hr).
  destruct (part_list_del_ok (gr_pool g) U lst l1 l2 i) as (lst' & p' & E & Hr' & P' & R); try done.
  { apply I. }
  { intros j Hj. destruct (gr_part_mem g am al U q (l1 ++ i :: l2) j I Hq) as [_ Hm]; [by exists lst|].
    apply Hm in Hj as (k' & Hk' & _). by eapply gi_al. }
  unfold gr_list_del, load in HE. rewrite Ha in HE. cbn [mbind outcome_bind] in HE. rewrite Hpa, Hkq, Hl, E in HE.
  cbn in HE. injection HE as <-. exists lst'. cbn. rewrite lookup_insert_eq. done.
Qed.

Lemma gr_lookup_ok g am al U k :
  gr_inv2 g am al U -> drc_res_map_lookup (res_map g) (gr_hash g k) k = Ok (am !! k).
Proof. intros I. eapply map_lookup_ok; apply I. Qed.

(** A new table is empty. *)
Lemma gr_init_ok g sz num :
  rm_inited (res_map g) = false -> inited (gr_pool g) = false -> 4 <= sz -> 0 < num < 2 ^ 31 ->
  (forall k n, 0 < n -> 0 <= hashf n k < n) ->
  exists g', drc_global_res_init true true num sz g = Ok (OG_SUCCESS, g') /\ gr_inv g' ∅ ∅ /\
    item_num (gr_pool g') = num /\ (forall i b, gr_bodies g' !! i = Some b -> b = res_zero).
Proof.
  intros Hr Hp Hsz Hn Hh. unfold drc_global_res_init.
  destruct (map_init_ok (res_map g) sz num hashf Hr Hp Hsz Hn Hh) as (rm' & -> & P & Hnum & M & Hz).
  cbn [mbind outcome_bind]. eexists. split; [done|]. split_and!; [|done|].
  - split; cbn; try done. intros q Hq. exists DRC_LIST_INIT, []. split_and!.
    + apply elem_of_list_to_map_1.
      * rewrite <- list_fmap_compose. change (NoDup (id <$> seqZ 0 DRC_MAX_PART_NUM)). rewrite list_fmap_id. apply NoDup_seqZ.
      * apply list_elem_of_fmap. exists q. rewrite elem_of_seqZ. split; [done|lia].
    + split; done.
    + constructor.
    + intros i. split; [set_solver|]. intros (k & Hk & _). by rewrite lookup_empty in Hk.
  - intros i b. unfold gr_bodies, gr_pool. cbn. rewrite lookup_fmap, fmap_Some. intros (a & Ha & ->).
    destruct (Hz _ _ Ha) as (n & ->). done.
Qed.
End GlobalResSpec.

(** ** The size of a pool

    No operation on the items changes it. *)
Section PoolNum.
Context {B K : Type} `{Resource B K}.
Implicit Types (g : drc_global_res B).

Definition gr_num g : Z := item_num (gr_pool g).

Lemma store_num {A} `{PoolItem A} (p p' : drc_res_pool A) i a : store p i a = Ok p' -> item_num p' = item_num p.
Proof. unfold store. destruct (addr p !! i); [|done]. by intros [= <-]. Qed.

Lemma store_next_num {A} `{PoolItem A} (p p' : drc_res_pool A) i n : store_next p i n = Ok p' -> item_num p' = item_num p.
Proof. unfold store_next. destruct (load p i); cbn; [apply store_num|done]. Qed.

Lemma upd_node_num {A} `{PoolItem A} `{HasNode A} (p p' : drc_res_pool A) i n : upd_node p i n = Ok p' -> item_num p' = item_num p.
Proof. unfold upd_node. destruct (load p i); cbn; [apply store_num|done]. Qed.

Lemma gr_free_num g g' i : gr_free g i = Ok g' -> gr_num g' = gr_num g.
Proof.
  unfold gr_free, drc_res_pool_free_item. destruct (negb _); [by intros [= <-]|].
  destruct (store_next _ _ _) eqn:E; cbn; [|done]. intros [= <-]. by apply store_next_num in E.
Qed.

Lemma gr_fill_num g g' i b : gr_fill g i b = Ok g' -> gr_num g' = gr_num g.
Proof.
  unfold gr_fill. destruct (load _ _); cbn; [|done]. destruct (store _ _ _) eqn:E; cbn; [|done]. intros [= <-]. by apply store_num in E.
Qed.

Lemma gr_map_add_num g g' h i : gr_map_add g h i = Ok g' -> gr_num g' = gr_num g.
Proof.
  unfold gr_map_add, drc_res_map_add. destruct (get_bucket _ _); cbn; [|done]. destruct (store_next _ _ _) eqn:E; cbn; [|done].
  intros [= <-]. by apply store_next_num in E.
Qed.

Lemma gr_list_add_num g g' i q : gr_list_add g i q = Ok g' -> gr_num g' = gr_num g.
Proof.
  unfold gr_list_add. destruct (load _ _); cbn; [|done]. destruct (store _ _ _) as [p1|] eqn:E; cbn; [|done]. apply store_num in E.
  destruct (res_parts g !! q) as [lst|]; [|done]. unfold part_list_add, drc_add_list_node. destruct (load p1 i); cbn; [|done].
  destruct (lst_count lst =? 0).
  - destruct (upd_node p1 _ _) as [p2|] eqn:E2; cbn; [|done]. intros [= <-]. apply upd_node_num in E2. unfold gr_num. cbn. congruence.
  - destruct (upd_node p1 _ _) as [p2|] eqn:E2; cbn; [|done]. destruct (upd_node p2 _ _) as [p3|] eqn:E3; cbn; [|done].
    intros [= <-]. apply upd_node_num in E2, E3. unfold gr_num. cbn. congruence.
Qed.

Lemma gr_put_num g g' i b : gr_put g i b = Ok g' -> gr_num g' = gr_num g.
Proof.
  unfold gr_put. destruct (load _ _); cbn; [|done]. destruct (store _ _ _) eqn:E; cbn; [|done]. intros [= <-]. by apply store_num in E.
Qed.

Lemma gr_alloc_num g g' i : gr_alloc g = Ok (i, g') -> gr_num g' = gr_num g.
Proof.
  unfold gr_alloc, drc_res_pool_alloc_item. destruct (negb _); [by intros [= <- <-]|]. destruct (_ =? _); [by intros [= <- <-]|].
  destruct (load _ _); cbn; [|done]. by intros [= <- <-].
Qed.
End PoolNum.
