(* ===== verification/DrcQueue.v ===== *)
(** Requests and the queues they wait in: [drc_req_info_t], [drc_lock_item_t]
    and the convert queue of a resource (src/pkg/src/cluster/dtc_drc.h,
    dtc_drc.c).

    The handlers of the page and lock masters use a queue through the
    operations of [QueueOps].  The class has two instances: the linked one of
    the code, whose items live in the shared [lock_item_pool], and the
    sequence of requests it stands for.  [queue_rel] relates the two, and the
    [q_*_sim] lemmas show that each operation of the code implements the
    operation on sequences and leaves every other queue of the pool alone. *)

From S2P Require Import Prelude DrcPool DrcList.

(** [drc_lock_mode_e]. *)
Definition DRC_LOCK_NULL : Z := 0.
Definition DRC_LOCK_SHARE : Z := 1.
Definition DRC_LOCK_EXCLUSIVE : Z := 2.

(** [drc_req_info_t]. *)
Record drc_req_info := mk_req {
  inst_id : Z;
  req_mode : Z;
  curr_mode : Z;
  req_owner_result : Z;
  inst_sid : Z;
  rsn : Z;
  req_time : Z;
  req_version : Z;
  req_lsn : Z;
  release_timeout_ticks : Z;
}.

#[export] Instance drc_req_info_eq_dec : EqDecision drc_req_info.
Proof. solve_decision. Defined.

(** [g_invalid_req_info]. *)
Definition g_invalid_req_info : drc_req_info :=
  mk_req OG_INVALID_ID8 DRC_LOCK_NULL DRC_LOCK_NULL 0 OG_INVALID_ID16 OG_INVALID_ID32 0 0 0 0.

Definition set_inst_id (x : Z) (r : drc_req_info) : drc_req_info :=
  mk_req x (req_mode r) (curr_mode r) (req_owner_result r) (inst_sid r) (rsn r) (req_time r)
         (req_version r) (req_lsn r) (release_timeout_ticks r).
Definition set_req_mode (x : Z) (r : drc_req_info) : drc_req_info :=
  mk_req (inst_id r) x (curr_mode r) (req_owner_result r) (inst_sid r) (rsn r) (req_time r)
         (req_version r) (req_lsn r) (release_timeout_ticks r).
Definition set_owner_result (x : Z) (r : drc_req_info) : drc_req_info :=
  mk_req (inst_id r) (req_mode r) (curr_mode r) x (inst_sid r) (rsn r) (req_time r)
         (req_version r) (req_lsn r) (release_timeout_ticks r).
Definition set_inst_sid (x : Z) (r : drc_req_info) : drc_req_info :=
  mk_req (inst_id r) (req_mode r) (curr_mode r) (req_owner_result r) x (rsn r) (req_time r)
         (req_version r) (req_lsn r) (release_timeout_ticks r).
Definition set_req_time (x : Z) (r : drc_req_info) : drc_req_info :=
  mk_req (inst_id r) (req_mode r) (curr_mode r) (req_owner_result r) (inst_sid r) (rsn r) x
         (req_version r) (req_lsn r) (release_timeout_ticks r).

(** [drc_lock_item_t]. *)
Record drc_lock_item := mk_litem { li_next : Z; li_req : drc_req_info }.

#[export, refine] Instance litem_has_next : HasNext drc_lock_item :=
  {| it_next := li_next; it_set_next := fun n a => mk_litem n (li_req a) |}.
Proof. done. Defined.

#[export] Instance litem_pool_item : PoolItem drc_lock_item :=
  {| pi_zero := mk_litem 0 (mk_req 0 0 0 0 0 0 0 0 0 0) |}.

(** The head of an error message to a waiting requester
    ([mes_send_error_msg]): its instance, session and request number. *)
Record err_msg := mk_err { em_inst : Z; em_sid : Z; em_rsn : Z }.
Definition error_to (r : drc_req_info) : err_msg := mk_err (inst_id r) (inst_sid r) (rsn r).

(** ** The operations on a convert queue

    [S] is the store of items, [Q] a queue, [It] a reference to an item. *)
Class QueueOps (S Q It : Type) := {
  q_init : Q;
  q_count : Q -> Z;
  (** [convert_q.first] and the test against [OG_INVALID_ID32]. *)
  q_head : Q -> It;
  q_valid : It -> bool;
  q_read : S -> It -> outcome drc_req_info;
  (** [convert_q.first = item->next; convert_q.count--]. *)
  q_unlink : S -> Q -> outcome Q;
  q_free : S -> It -> outcome S;
  (** Append a new item; [None] when the pool is exhausted. *)
  q_enqueue : S -> Q -> drc_req_info -> outcome (option (S * Q));
  (** The first item that satisfies the test gets the request computed from
      its own; [None] when no item does, [Some (inl r)] when the item is to
      stay as it is. *)
  q_update : S -> Q -> (drc_req_info -> bool) -> (drc_req_info -> option drc_req_info) ->
             outcome (option (option (S * Q)));
  (** Empty the queue, telling the requesters that are not [inst]. *)
  q_clean : S -> Q -> Z -> outcome (list err_msg * S * Q);
}.

(** *** The linked queue of the code *)
Section Linked.
Implicit Types (p : drc_res_pool drc_lock_item) (q : drc_list).

Definition lq_read p (i : Z) : outcome drc_req_info := a ← load p i; Ok (li_req a).

Definition lq_unlink p q : outcome drc_list :=
  a ← load p (lst_first q);
  Ok (mk_list (li_next a) (lst_last q) (u32 (lst_count q - 1))).

(** [drc_request_lock_owner_add_req_into_cvt_q]; the end of
    [drc_keep_requester_wait] is the same code. *)
Definition lq_enqueue p q (r : drc_req_info) :
    outcome (option (drc_res_pool drc_lock_item * drc_list)) :=
  '(i, p1) ← drc_res_pool_alloc_item p;
  if i =? OG_INVALID_ID32 then Ok None
  else
    p2 ← store p1 i (mk_litem OG_INVALID_ID32 r);
    if lst_count q =? 0 then Ok (Some (p2, mk_list i i (u32 (lst_count q + 1))))
    else
      p3 ← store_next p2 (lst_last q) i;
      Ok (Some (p3, mk_list (lst_first q) i (u32 (lst_count q + 1)))).

(** [drc_search_item_by_reqid]: [n] bounds the walk. *)
Fixpoint lq_search (n : nat) p (item_id : Z) (f : drc_req_info -> bool) : outcome (option Z) :=
  if item_id =? OG_INVALID_ID32 then Ok None
  else match n with
       | O => Crash BadAddr
       | S n' =>
           a ← load p item_id;
           if f (li_req a) then Ok (Some item_id) else lq_search n' p (li_next a) f
       end.

Definition lq_update p q f (g : drc_req_info -> option drc_req_info) :
    outcome (option (option (drc_res_pool drc_lock_item * drc_list))) :=
  o ← lq_search (Z.to_nat (item_num p)) p (lst_first q) f;
  match o with
  | None => Ok None
  | Some i =>
      a ← load p i;
      match g (li_req a) with
      | None => Ok (Some None)
      | Some r => p' ← store p i (mk_litem (li_next a) r); Ok (Some (Some (p', q)))
      end
  end.

(** The loop of [drc_clean_convert_q]. *)
Fixpoint clean_convert_q_loop (n : nat) p (item_id count : Z) (inst : Z) (msgs : list err_msg) :
    outcome (list err_msg * drc_res_pool drc_lock_item * Z) :=
  match n with
  | O => Ok (msgs, p, count)
  | S n' =>
      a ← load p item_id;
      let msgs' := if inst_id (li_req a) =? inst then msgs else msgs ++ [error_to (li_req a)] in
      p' ← drc_res_pool_free_item p item_id;
      clean_convert_q_loop n' p' (li_next a) (u32 (count - 1)) inst msgs'
  end.

(** [drc_clean_convert_q]. *)
Definition drc_clean_convert_q p q (inst : Z) :
    outcome (list err_msg * drc_res_pool drc_lock_item * drc_list) :=
  if lst_count q =? 0 then Ok ([], p, q)
  else
    '(msgs, p', count) ← clean_convert_q_loop (Z.to_nat (lst_count q)) p (lst_first q) (lst_count q) inst [];
    Ok (msgs, p', if count =? 0 then DRC_LIST_INIT else mk_list (lst_first q) (lst_last q) count).

#[export] Instance linked_queue : QueueOps (drc_res_pool drc_lock_item) drc_list Z := {|
  q_init := DRC_LIST_INIT;
  q_count := lst_count;
  q_head := lst_first;
  q_valid := fun i => negb (i =? OG_INVALID_ID32);
  q_read := lq_read;
  q_unlink := lq_unlink;
  q_free := drc_res_pool_free_item;
  q_enqueue := lq_enqueue;
  q_update := lq_update;
  q_clean := drc_clean_convert_q;
|}.
End Linked.

(** *** The sequence it stands for

    The store is the number of items left in the pool. *)
Section Sequence.
Implicit Types (l : list drc_req_info).

Fixpoint sq_update l (f : drc_req_info -> bool) (g : drc_req_info -> option drc_req_info) :
    option (option (list drc_req_info)) :=
  match l with
  | [] => None
  | r :: l' =>
      if f r then Some (r' ← g r; Some (r' :: l'))
      else match sq_update l' f g with
           | Some (Some l'') => Some (Some (r :: l''))
           | o => o
           end
  end.

Definition sq_msgs (inst : Z) l : list err_msg :=
  error_to <$> filter (fun r => inst_id r <> inst) l.

#[export] Instance sequence_queue : QueueOps Z (list drc_req_info) (option drc_req_info) := {|
  q_init := [];
  q_count := fun l => Z.of_nat (length l);
  q_head := head;
  q_valid := fun o => bool_decide (is_Some o);
  q_read := fun _ o => match o with Some r => Ok r | None => Crash BadAddr end;
  q_unlink := fun _ l => match l with _ :: l' => Ok l' | [] => Crash BadAddr end;
  q_free := fun f o => match o with Some _ => Ok (f + 1) | None => Crash BadAddr end;
  q_enqueue := fun f l r => Ok (if f =? 0 then None else Some (f - 1, l ++ [r]));
  q_update := fun f l t g => Ok (o ← sq_update l t g; Some (l' ← o; Some (f, l')));
  q_clean := fun f l inst => Ok (sq_msgs inst l, f + Z.of_nat (length l), []);
|}.
End Sequence.

(** ** The linked queue implements the sequence *)
Section QueueRel.
Implicit Types (p : drc_res_pool drc_lock_item) (q : drc_list) (l : list Z)
               (rs : list drc_req_info) (m : gmap Z drc_lock_item) (E : gset Z).

(** [q] links the slots [l] of the memory [m], which hold the requests [rs]. *)
Record queue_repr m q l rs : Prop := {
  qr_count : lst_count q = Z.of_nat (length l);
  qr_last : forall l' i, l = l' ++ [i] -> lst_last q = i;
  qr_chain : chain m (lst_first q) l OG_INVALID_ID32;
  qr_reqs : Forall2 (fun i r => exists n, m !! i = Some (mk_litem n r)) l rs;
}.

Lemma queue_repr_frame m m' q l rs :
  (forall j, j ∈ l -> m' !! j = m !! j) -> queue_repr m q l rs -> queue_repr m' q l rs.
Proof.
  intros Hf [? ? Hc Hr]. split; [done|done|by eapply chain_frame|]. clear Hc.
  apply Forall2_lookup. intros k. specialize (proj1 (Forall2_lookup _ _ _) Hr k).
  intros Hk. inversion Hk as [i r [n Hn] Hi|]; subst; constructor.
  exists n. rewrite Hf; [done|]. by eapply list_elem_of_lookup_2.
Qed.

Lemma queue_repr_init m : queue_repr m DRC_LIST_INIT [] [].
Proof. split; [done| |done|constructor]. by intros [|? ?] ?. Qed.

(** The slots [E] of the pool belong to others; [f] items are free. *)
Record queue_rel E l p q (f : Z) rs : Prop := {
  ql_nodup : NoDup l;
  ql_disj : forall j, j ∈ l -> j ∉ E;
  ql_pool : pool_wf p (list_to_set l ∪ E);
  ql_repr : queue_repr (addr p) q l rs;
  ql_free : f = item_num p - Z.of_nat (size (list_to_set l ∪ E : gset Z));
}.

Definition kept E p p' : Prop := forall j, j ∈ E -> addr p' !! j = addr p !! j.

Lemma queue_rel_length E l p q f rs : queue_rel E l p q f rs -> length l = length rs.
Proof. intros R. eapply Forall2_length, R. Qed.

Lemma q_count_sim E l p q f rs :
  queue_rel E l p q f rs -> lst_count q = Z.of_nat (length rs).
Proof. intros R. rewrite <- (queue_rel_length _ _ _ _ _ _ R). apply R. Qed.

Lemma queue_rel_slot E l p q f rs j :
  queue_rel E l p q f rs -> j ∈ l -> j <> OG_INVALID_ID32.
Proof.
  intros R Hj. assert (j ∈ (list_to_set l ∪ E : gset Z)) as HU by set_solver.
  pose proof (pool_wf_range _ _ _ (ql_pool _ _ _ _ _ _ R) HU).
  pose proof (pw_num _ _ (ql_pool _ _ _ _ _ _ R)). lia.
Qed.

(** The queue never has more items than the pool. *)
Lemma queue_rel_bound E l p q f rs :
  queue_rel E l p q f rs -> Z.of_nat (length l) <= item_num p < OG_INVALID_ID32.
Proof.
  intros R. pose proof (pool_wf_size _ _ (ql_pool _ _ _ _ _ _ R)).
  pose proof (pw_num _ _ (ql_pool _ _ _ _ _ _ R)).
  assert (length l <= size (list_to_set l ∪ E : gset Z))%nat; [|lia].
  rewrite <- (size_list_to_set (C := gset Z) l) by apply R. apply subseteq_size. set_solver.
Qed.

Lemma q_head_sim E l p q f r rs :
  queue_rel E l p q f (r :: rs) ->
  exists i l' n, l = i :: l' /\ lst_first q = i /\ addr p !! i = Some (mk_litem n r) /\
    chain (addr p) n l' OG_INVALID_ID32.
Proof.
  intros R. pose proof (qr_reqs _ _ _ _ (ql_repr _ _ _ _ _ _ R)) as Hr.
  apply Forall2_cons_inv_r in Hr as (i & l' & [n Hn] & _ & ->).
  destruct (qr_chain _ _ _ _ (ql_repr _ _ _ _ _ _ R)) as (Hf & a & Ha & Hc).
  exists i, l', n. simplify_eq. done.
Qed.

Lemma q_read_sim E l p q f r rs :
  queue_rel E l p q f (r :: rs) ->
  lq_read p (lst_first q) = Ok r /\ negb (lst_first q =? OG_INVALID_ID32) = true.
Proof.
  intros R. destruct (q_head_sim _ _ _ _ _ _ _ R) as (i & l' & n & -> & -> & Hn & _).
  unfold lq_read, load. rewrite Hn. split; [done|]. apply negb_true_iff, Z.eqb_neq.
  eapply queue_rel_slot; [done|]. set_solver.
Qed.

Lemma q_unlink_sim E l p q f r rs :
  queue_rel E l p q f (r :: rs) ->
  exists l' q', lq_unlink p q = Ok q' /\ lst_first q ∉ E /\
    queue_rel ({[lst_first q]} ∪ E) l' p q' f rs /\
    exists n, addr p !! lst_first q = Some (mk_litem n r).
Proof.
  intros R. pose proof (queue_rel_bound _ _ _ _ _ _ R) as Hb.
  destruct (q_head_sim _ _ _ _ _ _ _ R) as (i & l' & n & -> & Hf & Hn & Hc).
  destruct R as [Hnd Hd P [Hcnt Hlast _ Hr] ->]. apply NoDup_cons in Hnd as [Hi Hnd].
  unfold lq_unlink, load. rewrite Hf, Hn. cbn [mbind outcome_bind li_next].
  assert ((list_to_set l' ∪ ({[i]} ∪ E) : gset Z) = list_to_set (i :: l') ∪ E) as HE by set_solver.
  exists l'. eexists. split; [done|]. split_and!; [apply Hd; set_solver| |eauto].
  split; rewrite ?HE; try done.
  - intros j Hj. rewrite not_elem_of_union, not_elem_of_singleton. split; [by intros ->|]. apply Hd. set_solver.
  - split; cbn.
    + rewrite Hcnt. cbn [length] in *. unfold u32. rewrite Z.mod_small; unfold OG_INVALID_ID32 in *; lia.
    + intros l'' j ->. apply (Hlast (i :: l'')). done.
    + done.
    + by apply Forall2_cons_1 in Hr as [_ ?].
Qed.

Lemma q_free_sim E l p q f rs i :
  queue_rel E l p q f rs -> i ∈ E ->
  exists p', drc_res_pool_free_item p i = Ok p' /\ queue_rel (E ∖ {[i]}) l p' q (f + 1) rs /\
    kept (E ∖ {[i]}) p p'.
Proof.
  intros [Hnd Hd P Hr ->] Hi. set (U := list_to_set l ∪ E : gset Z) in *.
  destruct (free_item_ok p U i P ltac:(set_solver)) as (p' & -> & P' & Hn & _ & Ho & _).
  exists p'. split; [done|].
  assert ((list_to_set l ∪ E ∖ {[i]} : gset Z) = U ∖ {[i]}) as HE.
  { apply set_eq. intros j. unfold U. rewrite !elem_of_union, !elem_of_difference, elem_of_union, elem_of_list_to_set,
      elem_of_singleton. specialize (Hd j). split; [|tauto]. intros [Hj|?]; [|tauto]. split; [tauto|].
    intros ->. by apply Hd. }
  split; [split|]; rewrite ?HE; try done.
  - intros j Hj. specialize (Hd j Hj). set_solver.
  - eapply queue_repr_frame; [|done]. intros j Hj. apply Ho. intros ->. by apply (Hd i).
  - assert (size (U ∖ {[i]}) + 1 = size U)%nat; [|lia].
    assert (i ∈ U) by set_solver. rewrite size_difference by set_solver. rewrite size_singleton.
    assert (size U <> 0)%nat by (rewrite size_non_empty_iff; set_solver). lia.
  - intros j Hj. apply Ho. set_solver.
Qed.

(** Unlinking the head and returning it to the pool. *)
Lemma q_pop_sim E l p q f r rs :
  queue_rel E l p q f (r :: rs) ->
  exists l' q' p', lq_unlink p q = Ok q' /\ drc_res_pool_free_item p (lst_first q) = Ok p' /\
    queue_rel E l' p' q' (f + 1) rs /\ kept E p p'.
Proof.
  intros R. destruct (q_unlink_sim _ _ _ _ _ _ _ R) as (l' & q' & -> & Hi & R' & _).
  destruct (q_free_sim _ _ _ _ _ _ (lst_first q) R' ltac:(set_solver)) as (p' & -> & R'' & K).
  replace (({[lst_first q]} ∪ E) ∖ {[lst_first q]}) with E in R'', K by set_solver.
  by exists l', q', p'.
Qed.

Lemma q_enqueue_full E l p q f rs r :
  queue_rel E l p q f rs -> f = 0 -> lq_enqueue p q r = Ok None.
Proof.
  intros [_ _ P _ ->] Hf. unfold lq_enqueue.
  assert (list_to_set l ∪ E = slots (item_num p)) as HU.
  { apply set_subseteq_size_eq; [apply P|]. rewrite <- (Nat2Z.id (size (slots _))), size_slots; [lia|].
    pose proof (pw_num _ _ P). lia. }
  rewrite (alloc_item_full _ _ P HU). cbn [mbind outcome_bind]. by rewrite Z.eqb_refl.
Qed.

Lemma reqs_mono m m' l rs :
  (forall j n r, j ∈ l -> m !! j = Some (mk_litem n r) -> exists n', m' !! j = Some (mk_litem n' r)) ->
  Forall2 (fun i r => exists n, m !! i = Some (mk_litem n r)) l rs ->
  Forall2 (fun i r => exists n, m' !! i = Some (mk_litem n r)) l rs.
Proof.
  intros Hm Hr. apply Forall2_lookup. intros k. specialize (proj1 (Forall2_lookup _ _ _) Hr k).
  intros Hk. inversion Hk as [i r [n Hn] Hi|]; subst; constructor.
  eapply Hm; [|done]. by eapply list_elem_of_lookup_2.
Qed.

(** Linking a fresh slot [i] behind the queue. *)
Lemma queue_link m q l rs i r :
  queue_repr m q l rs -> i ∉ l -> NoDup l -> u32 (lst_count q + 1) = Z.of_nat (S (length l)) ->
  (l = [] /\ queue_repr (<[i := mk_litem OG_INVALID_ID32 r]> m) (mk_list i i (u32 (lst_count q + 1))) [i] [r] /\ rs = []) \/
  (exists a, lst_last q ∈ l /\ m !! lst_last q = Some a /\
    queue_repr (<[lst_last q := mk_litem i (li_req a)]> (<[i := mk_litem OG_INVALID_ID32 r]> m))
      (mk_list (lst_first q) i (u32 (lst_count q + 1))) (l ++ [i]) (rs ++ [r])).
Proof.
  intros [Hcnt Hlast Hc Hr] Hi Hnd Hu. destruct (rcons_case l) as [->|(l' & t & ->)].
  - left. apply Forall2_nil_inv_l in Hr as ->. split_and!; try done. split; cbn.
    + done.
    + intros [|? [|? ?]] j [= ->]; done.
    + split; [done|]. eexists. by rewrite lookup_insert_eq.
    + constructor; [|constructor]. eexists. by rewrite lookup_insert_eq.
  - right. rewrite (Hlast l' t eq_refl). apply chain_app in Hc as (x & Hc1 & -> & a & Ha & He).
    apply NoDup_app in Hnd as (Hnd1 & Hd & _). exists a.
    assert (t ∉ l') as Ht by (intros Ht; apply (Hd t Ht); set_solver).
    assert (i <> t) as Hit by (intros ->; set_solver). assert (i ∉ l') as Hil by set_solver.
    split_and!; [set_solver|done|]. split; cbn.
    + rewrite Hu, !length_app. cbn. lia.
    + intros l'' j [_ [= ->]]%app_inj_tail. done.
    + rewrite <- app_assoc. apply chain_app. exists t. split.
      { by apply chain_insert_out, chain_insert_out. }
      cbn. split; [done|]. eexists. rewrite lookup_insert_eq. split; [done|]. cbn. split; [done|].
      eexists. rewrite lookup_insert_ne, lookup_insert_eq by done. done.
    + apply Forall2_app; [|constructor; [|constructor]].
      * eapply reqs_mono; [|exact Hr]. intros j n r' Hj Hm. destruct (decide (j = t)) as [->|].
        -- rewrite lookup_insert_eq. simplify_eq. by eexists.
        -- rewrite !lookup_insert_ne by set_solver. eauto.
      * eexists. by rewrite lookup_insert_ne, lookup_insert_eq.
Qed.

Lemma q_enqueue_sim E l p q f rs r :
  queue_rel E l p q f rs -> f <> 0 ->
  exists l' p' q', lq_enqueue p q r = Ok (Some (p', q')) /\ queue_rel E l' p' q' (f - 1) (rs ++ [r]) /\
    kept E p p'.
Proof.
  intros R Hf. pose proof (queue_rel_bound _ _ _ _ _ _ R) as Hb. destruct R as [Hnd Hd P Hr ->].
  set (U := list_to_set l ∪ E : gset Z) in *.
  destruct (alloc_item_some p U P) as (i & p1 & Ea & Hi & Hir & P1 & Em & En).
  { intros HU. apply Hf. rewrite HU, size_slots by (pose proof (pw_num _ _ P); lia). lia. }
  unfold lq_enqueue. rewrite Ea. cbn [mbind outcome_bind].
  rewrite (proj2 (Z.eqb_neq i OG_INVALID_ID32)) by lia.
  destruct (pool_wf_store p1 _ i (mk_litem OG_INVALID_ID32 r) P1 ltac:(set_solver)) as [-> P2].
  cbn [mbind outcome_bind]. rewrite Em in *.
  assert (u32 (lst_count q + 1) = Z.of_nat (S (length l))) as Hu.
  { rewrite (qr_count _ _ _ _ Hr). unfold u32. rewrite Z.mod_small; unfold OG_INVALID_ID32 in *; lia. }
  assert (i ∉ l) as Hil by set_solver.
  assert (Z.of_nat (size ({[i]} ∪ U)) = Z.of_nat (size U) + 1) as Hsz.
  { rewrite size_union, size_singleton by set_solver. lia. }
  assert ((list_to_set (l ++ [i]) ∪ E : gset Z) = {[i]} ∪ U) as HU by set_solver.
  destruct (queue_link (addr p) q l rs i r Hr Hil Hnd Hu) as [(-> & Hr' & ->)|(a & Hlast & Ha & Hr')].
  - rewrite (proj2 (Z.eqb_eq (lst_count q) 0)) by (by rewrite (qr_count _ _ _ _ Hr)).
    exists [i]. eexists _, _. split; [done|]. split.
    + split; cbn [addr set_addr item_num]; try done; [apply NoDup_singleton|set_solver| |].
      * by replace (list_to_set [i] ∪ E) with ({[i]} ∪ U) by set_solver.
      * replace (list_to_set [i] ∪ E : gset Z) with ({[i]} ∪ U) by set_solver. lia.
    + intros j Hj. cbn. rewrite lookup_insert_ne; [done|]. set_solver.
  - rewrite (proj2 (Z.eqb_neq (lst_count q) 0)).
    2:{ rewrite (qr_count _ _ _ _ Hr). destruct l; [set_solver|cbn; lia]. }
    set (p2 := set_addr _ p1) in *.
    assert (addr p2 !! lst_last q = Some a) as Ha2 by (cbn; rewrite lookup_insert_ne; [done|set_solver]).
    unfold store_next, load. rewrite Ha2. cbn [mbind outcome_bind].
    change (it_set_next i a) with (mk_litem i (li_req a)).
    destruct (pool_wf_store p2 _ (lst_last q) (mk_litem i (li_req a)) P2 ltac:(set_solver)) as [-> P3].
    cbn [mbind outcome_bind]. exists (l ++ [i]). eexists _, _. split; [done|]. split.
    + split; cbn [addr set_addr item_num]; rewrite ?HU; try done.
      * apply NoDup_app. split_and!; [done|set_solver|apply NoDup_singleton].
      * set_solver.
      * cbn. lia.
    + intros j Hj. cbn. rewrite !lookup_insert_ne; [done|set_solver|]. intros <-. by eapply Hd.
Qed.

(** The walk finds the first request that passes the test. *)
Lemma lq_search_sim p t : forall l rs h (n : nat),
  chain (addr p) h l OG_INVALID_ID32 ->
  Forall2 (fun i r => exists n, addr p !! i = Some (mk_litem n r)) l rs ->
  (forall j, j ∈ l -> j <> OG_INVALID_ID32) -> (length l <= n)%nat ->
  (lq_search n p h t = Ok None /\ forall g, sq_update rs t g = None) \/
  (exists l1 i l2 rs1 r rs2 k, lq_search n p h t = Ok (Some i) /\ l = l1 ++ i :: l2 /\ rs = rs1 ++ r :: rs2 /\
    length l1 = length rs1 /\ addr p !! i = Some (mk_litem k r) /\
    forall g, sq_update rs t g = Some (r' ← g r; Some (rs1 ++ r' :: rs2))).
Proof.
  induction l as [|i l IH]; intros rs h n Hc Hr Hv Hn.
  { apply Forall2_nil_inv_l in Hr as ->. left. cbn in Hc. subst h. split; [|done]. by destruct n. }
  destruct Hc as (-> & a & Ha & Hc). apply Forall2_cons_inv_l in Hr as (r & rs' & [k Hk] & Hr & ->).
  assert (a = mk_litem k r) as -> by congruence. cbn in Hn. destruct n as [|n]; [lia|].
  cbn [lq_search]. rewrite (proj2 (Z.eqb_neq i _)) by (apply Hv; set_solver).
  unfold load. rewrite Ha. cbn [mbind outcome_bind li_req li_next sq_update].
  destruct (t r) eqn:Et.
  { right. exists [], i, l, [], r, rs', k. done. }
  destruct (IH rs' k n Hc Hr ltac:(set_solver) ltac:(lia)) as
    [[E1 E2]|(l1 & i' & l2 & rs1 & r' & rs2 & k' & E1 & -> & -> & Hlen & Hi' & E2)].
  - left. split; [done|]. intros g. by rewrite E2.
  - right. exists (i :: l1), i', l2, (r :: rs1), r', rs2, k'. split_and!; try done; [cbn; lia|].
    intros g. rewrite E2. by destruct (g r').
Qed.

Lemma q_update_sim E l p q f rs t g :
  queue_rel E l p q f rs ->
  match sq_update rs t g with
  | None => lq_update p q t g = Ok None
  | Some None => lq_update p q t g = Ok (Some None)
  | Some (Some rs') => exists p', lq_update p q t g = Ok (Some (Some (p', q))) /\
      queue_rel E l p' q f rs' /\ kept E p p'
  end.
Proof.
  intros R. pose proof (queue_rel_bound _ _ _ _ _ _ R) as Hb.
  assert (forall j, j ∈ l -> j <> OG_INVALID_ID32) as Hv by (intros; by eapply queue_rel_slot).
  destruct R as [Hnd Hd P [Hcnt Hlast Hc Hr] Hf]. unfold lq_update.
  destruct (lq_search_sim p t l rs (lst_first q) (Z.to_nat (item_num p)) Hc Hr Hv ltac:(lia)) as
    [[-> E2]|(l1 & i & l2 & rs1 & r & rs2 & k & -> & -> & -> & Hlen & Hi & E2)]; rewrite E2; [done|].
  cbn [mbind outcome_bind]. unfold load. rewrite Hi. cbn [mbind outcome_bind li_req li_next].
  destruct (g r) as [r'|]; [|done]. cbn [mbind option_bind].
  destruct (pool_wf_store p _ i (mk_litem k r') P) as [-> P']; [set_solver|].
  cbn [mbind outcome_bind]. eexists. split; [done|].
  apply NoDup_app in Hnd as Hnd'. destruct Hnd' as (Hnd1 & Hdis & [Hi2 Hnd2]%NoDup_cons).
  split; [split; try done|].
  - split; cbn [addr set_addr]; try done.
    + eapply chain_links; [|exact Hc]. intros j b _ Hb'. destruct (decide (j = i)) as [->|].
      * rewrite lookup_insert_eq. simplify_eq. eauto.
      * rewrite lookup_insert_ne by done. eauto.
    + apply Forall2_app_inv in Hr as [Hr1 Hr2]; [|done].
      apply Forall2_cons_1 in Hr2 as [_ Hr2]. apply Forall2_app; [|constructor].
      * eapply reqs_mono; [|exact Hr1]. intros j n r0 Hj. rewrite lookup_insert_ne; [eauto|].
        intros <-. apply (Hdis i Hj). set_solver.
      * exists k. by rewrite lookup_insert_eq.
      * eapply reqs_mono; [|exact Hr2]. intros j n r0 Hj. rewrite lookup_insert_ne; [eauto|]. by intros <-.
  - intros j Hj. cbn. rewrite lookup_insert_ne; [done|]. intros <-. apply (Hd i); set_solver.
Qed.

Lemma clean_loop_sim E inst : forall l rs p h cnt msgs,
  chain (addr p) h l OG_INVALID_ID32 ->
  Forall2 (fun i r => exists n, addr p !! i = Some (mk_litem n r)) l rs ->
  NoDup l -> (forall j, j ∈ l -> j ∉ E) -> pool_wf p (list_to_set l ∪ E) -> Z.of_nat (length l) <= cnt < 2 ^ 32 ->
  exists p', clean_convert_q_loop (length l) p h cnt inst msgs =
      Ok (msgs ++ sq_msgs inst rs, p', cnt - Z.of_nat (length l)) /\
    pool_wf p' E /\ item_num p' = item_num p /\ kept E p p'.
Proof.
  induction l as [|i l IH]; intros rs p h cnt msgs Hc Hr Hnd Hd P Hcnt.
  { apply Forall2_nil_inv_l in Hr as ->. exists p. cbn. rewrite app_nil_r, Z.sub_0_r.
    cbn in P. rewrite union_empty_l_L in P. split_and!; try done. }
  destruct Hc as (-> & a & Ha & Hc). apply Forall2_cons_inv_l in Hr as (r & rs' & [k Hk] & Hr & ->).
  assert (a = mk_litem k r) as -> by congruence. apply NoDup_cons in Hnd as [Hi Hnd].
  cbn [length clean_convert_q_loop]. unfold load. rewrite Ha. cbn [mbind outcome_bind li_req li_next].
  destruct (free_item_ok p _ i P ltac:(set_solver)) as (p1 & -> & P1 & Hn1 & _ & Ho & _). cbn [mbind outcome_bind].
  replace ((list_to_set (i :: l) ∪ E) ∖ {[i]}) with (list_to_set l ∪ E : gset Z) in P1.
  2:{ assert (i ∉ E) by (apply Hd; set_solver). cbn. set_solver. }
  assert (u32 (cnt - 1) = cnt - 1) as ->.
  { unfold u32. rewrite Z.mod_small; [done|]. cbn [length] in Hcnt. lia. }
  edestruct (IH rs' p1 k (cnt - 1)) as (p' & -> & P' & Hn' & K'); [| |done|set_solver|done| |].
  - eapply chain_frame; [|exact Hc]. intros j Hj. apply Ho. by intros ->.
  - eapply reqs_mono; [|exact Hr]. intros j n r' Hj. rewrite Ho; [eauto|by intros ->].
  - cbn [length] in Hcnt. lia.
  - exists p'. split_and!; [|done|congruence|].
    + f_equal. f_equal; [f_equal|lia]. unfold sq_msgs. rewrite filter_cons.
      destruct (Z.eqb_spec (inst_id r) inst), (decide (inst_id r <> inst)); try done.
      cbn. by rewrite <- app_assoc.
    + intros j Hj. rewrite (K' j Hj). apply Ho. intros ->. apply (Hd i); [set_solver|done].
Qed.

Lemma q_clean_sim E l p q f rs inst :
  queue_rel E l p q f rs ->
  exists p' q', drc_clean_convert_q p q inst = Ok (sq_msgs inst rs, p', q') /\
    queue_rel E [] p' q' (f + Z.of_nat (length rs)) [] /\ kept E p p'.
Proof.
  intros R. pose proof (queue_rel_bound _ _ _ _ _ _ R) as Hb. pose proof (queue_rel_length _ _ _ _ _ _ R) as Hlen.
  destruct R as [Hnd Hd P Q ->]. pose proof Q as [Hcnt Hlast Hc Hr]. unfold drc_clean_convert_q.
  destruct (Z.eqb_spec (lst_count q) 0) as [E0|E0].
  { rewrite Hcnt in E0. destruct l; [|cbn in E0; lia]. apply Forall2_nil_inv_l in Hr as ->.
    exists p, q. split; [done|]. split; [split; try done; cbn; lia|intros j _; done]. }
  destruct (clean_loop_sim E inst l rs p (lst_first q) (lst_count q) [] Hc Hr Hnd Hd P) as (p' & El & P' & Hn & K).
  { rewrite Hcnt. unfold OG_INVALID_ID32 in *. lia. }
  replace (Z.to_nat (lst_count q)) with (length l) by lia. rewrite El. cbn [mbind outcome_bind app].
  rewrite Hcnt, Z.sub_diag, Z.eqb_refl. eexists _, _. split; [done|]. split; [|done].
  assert (list_to_set l ## E) as Hdis by set_solver.
  split; cbn [list_to_set]; rewrite ?union_empty_l_L; try done; [constructor|set_solver|apply queue_repr_init|].
  rewrite size_union, size_list_to_set by done. lia.
Qed.
End QueueRel.
