(* ===== verification/DrcMapTab.v ===== *)
(** Tables without partitions: the maps [local_lock_map], [txn_res_map] and
    [local_txn_map] of [drc_res_ctx_t] (src/pkg/src/cluster/dtc_drc.h) are a
    [drc_res_map_t] each, over items that begin with the members [next] and
    [idx].

    [flat_rep] states which finite map of resources such a table implements;
    the [flat_*] lemmas give the effect on that map of each access the
    handlers make. *)

From S2P Require Import Prelude DrcPool DrcResMap DrcGlobalRes.

(** The link word and the slot number around a resource. *)
Record flat_item (B : Type) := mk_fitem { fi_next : Z; fi_idx : Z; fi_body : B }.
Arguments mk_fitem {B} _ _ _.
Arguments fi_next {B} _.
Arguments fi_idx {B} _.
Arguments fi_body {B} _.

Section FlatItems.
Context {B K : Type} `{Resource B K}.

#[export, refine] Instance flat_has_next : HasNext (flat_item B) :=
  {| it_next := fi_next; it_set_next := fun n a => mk_fitem n (fi_idx a) (fi_body a) |}.
Proof. done. Defined.

#[export] Instance flat_pool_item : PoolItem (flat_item B) := {| pi_zero := mk_fitem 0 0 res_zero |}.

#[export, refine] Instance flat_res_item : ResItem (flat_item B) K := {| ri_key := fun a => res_key (fi_body a) |}.
Proof. done. Defined.
End FlatItems.

Notation flat_tab B := (drc_res_map (flat_item B)).

Section Flat.
Context {B K : Type} `{Resource B K}.
Implicit Types (rm : flat_tab B).

(** Access to a resource through the address of its slot. *)
Definition fm_get rm (i : Z) : outcome B := a ← load (res_pool rm) i; Ok (fi_body a).
Definition fm_put rm (i : Z) (b : B) : outcome (flat_tab B) :=
  a ← load (res_pool rm) i;
  p ← store (res_pool rm) i (mk_fitem (fi_next a) (fi_idx a) b);
  Ok (set_pool p rm).

(** An item is allocated, filled ([init], from what the memory held) and
    added to bucket [h]; [None] when the pool is exhausted. *)
Definition fm_create rm (h : Z) (init : Z -> flat_item B -> flat_item B) : outcome (option (Z * flat_tab B)) :=
  '(i, p) ← drc_res_pool_alloc_item (res_pool rm);
  if i =? OG_INVALID_ID32 then Ok None
  else
    a ← load p i;
    p ← store p i (init i a);
    rm ← drc_res_map_add (set_pool p rm) h i;
    Ok (Some (i, rm)).

(** The item of slot [i] is overwritten ([wipe]) and the slot its member
    [idx] named goes back to the pool. *)
Definition fm_release rm (i : Z) (wipe : flat_item B -> flat_item B) : outcome (flat_tab B) :=
  a ← load (res_pool rm) i;
  p ← store (res_pool rm) i (wipe a);
  p ← drc_res_pool_free_item p (fi_idx a);
  Ok (set_pool p rm).
End Flat.

(** ** The finite map a table implements *)
Section FlatSpec.
Context {B K : Type} `{Resource B K}.
Context (hashf : Z -> K -> Z).
Implicit Types (rm : flat_tab B) (A : gmap K B) (am : gmap K Z) (Sp : gset Z).

Definition fm_hash rm (k : K) : Z := hashf (bucket_num rm) k.

(** Resource [k] is in slot [am k]; the slots [Sp] are allocated but not
    linked. *)
Record flat_rep rm A am Sp : Prop := {
  fr_pool : pool_wf (res_pool rm) (map_img am ∪ Sp);
  fr_map : map_wf rm (fm_hash rm) am;
  fr_spare : forall k i, am !! k = Some i -> i ∉ Sp;
  fr_body : forall k i, am !! k = Some i -> exists a, addr (res_pool rm) !! i = Some a /\ fi_idx a = i /\
    A !! k = Some (fi_body a);
  fr_dom : forall k, is_Some (A !! k) -> is_Some (am !! k);
}.

Lemma flat_lookup rm A am Sp k : flat_rep rm A am Sp -> drc_res_map_lookup rm (fm_hash rm k) k = Ok (am !! k).
Proof. intros R. eapply map_lookup_ok, R. Qed.

Lemma flat_lookup_none rm A am Sp k :
  flat_rep rm A am Sp -> A !! k = None -> am !! k = None /\ drc_res_map_lookup rm (fm_hash rm k) k = Ok None.
Proof.
  intros R Hk. rewrite (flat_lookup _ _ _ _ _ R). destruct (am !! k) as [i|] eqn:E; [|done].
  destruct (fr_body _ _ _ _ R _ _ E) as (a & _ & _ & ?). congruence.
Qed.

Lemma flat_inj rm A am Sp k k' i : flat_rep rm A am Sp -> am !! k = Some i -> am !! k' = Some i -> k = k'.
Proof. intros R. eapply map_wf_inj, R. Qed.

Lemma flat_slot rm A am Sp k i : flat_rep rm A am Sp -> am !! k = Some i -> i ∈ (map_img am ∪ Sp : gset Z).
Proof. intros _ Hi. apply elem_of_union_l. by eapply elem_of_map_img_2. Qed.

Lemma flat_slot_valid rm A am Sp i : flat_rep rm A am Sp -> i ∈ (map_img am ∪ Sp : gset Z) -> i <> OG_INVALID_ID32.
Proof.
  intros R Hi. pose proof (pool_wf_range _ _ _ (fr_pool _ _ _ _ R) Hi).
  pose proof (pw_num _ _ (fr_pool _ _ _ _ R)). lia.
Qed.

(** Only the memory of the pool changes, and no linked item does. *)
Lemma flat_rep_mem rm A am Sp Sp' p' :
  flat_rep rm A am Sp -> pool_wf p' (map_img am ∪ Sp') -> (forall k i, am !! k = Some i -> i ∉ Sp') ->
  (forall k i, am !! k = Some i -> addr p' !! i = addr (res_pool rm) !! i) ->
  flat_rep (set_pool p' rm) A am Sp'.
Proof.
  intros R P Hsp Hm. split; cbn; try done; [| |apply R].
  - apply (map_wf_frame rm); [done | done | | apply R]. intros k i a Hk Ha. exists a. cbn. by rewrite (Hm _ _ Hk).
  - intros k i Hi. rewrite (Hm _ _ Hi). by apply (fr_body _ _ _ _ R).
Qed.

Lemma flat_open rm A am Sp k b :
  flat_rep rm A am Sp -> A !! k = Some b ->
  exists i, am !! k = Some i /\ drc_res_map_lookup rm (fm_hash rm k) k = Ok (Some i) /\ fm_get rm i = Ok b /\
    (exists n, addr (res_pool rm) !! i = Some (mk_fitem n i b)) /\ res_key b = k.
Proof.
  intros R Hk. assert (is_Some (am !! k)) as [i Hi] by (apply (fr_dom _ _ _ _ R); eauto). exists i.
  rewrite (flat_lookup _ _ _ _ _ R), Hi. destruct (fr_body _ _ _ _ R _ _ Hi) as ([n j b0] & Ha & Hj & Hb).
  cbn in *. assert (b0 = b) as -> by congruence. subst j.
  unfold fm_get, load. rewrite Ha. destruct (mw_key _ _ _ (fr_map _ _ _ _ R) _ _ Hi) as (a & Ha' & Hka).
  assert (a = mk_fitem n i b) as -> by congruence. split_and!; try done. by eexists.
Qed.

Lemma flat_put rm A am Sp k i b :
  flat_rep rm A am Sp -> am !! k = Some i -> res_key b = k ->
  exists rm', fm_put rm i b = Ok rm' /\ flat_rep rm' (<[k := b]> A) am Sp /\ fm_hash rm' = fm_hash rm.
Proof.
  intros R Hi Hb. destruct (fr_body _ _ _ _ R _ _ Hi) as (a & Ha & Hx & Hk).
  unfold fm_put, load. rewrite Ha. cbn [mbind outcome_bind].
  destruct (pool_wf_store _ _ i (mk_fitem (fi_next a) (fi_idx a) b) (fr_pool _ _ _ _ R)) as [-> P];
    [by eapply flat_slot|]. cbn [mbind outcome_bind]. eexists. split; [done|]. split; [|done].
  split; cbn; try done; [|apply R| |].
  - apply (map_wf_frame rm); [done | done | | apply R]. cbn. intros k' j c Hj Hc.
    destruct (decide (j = i)) as [->|]; [|rewrite lookup_insert_ne by done; eauto].
    rewrite lookup_insert_eq. assert (c = a) as -> by congruence. eexists. split_and!; try done. cbn.
    destruct (mw_key _ _ _ (fr_map _ _ _ _ R) _ _ Hi) as (a' & Ha' & Hka). assert (a' = a) as -> by congruence. by subst.
  - intros k' j Hj. destruct (decide (k' = k)) as [->|Hne].
    + assert (j = i) as -> by congruence. rewrite !lookup_insert_eq. eexists. by split_and!.
    + rewrite !lookup_insert_ne; [by apply R|done|]. intros ->. by apply Hne, (flat_inj _ _ _ _ _ _ _ R Hj).
  - intros k' [->|?]%lookup_insert_is_Some'; [eauto|by apply R].
Qed.

(** The map is determined by the table. *)
Lemma flat_rep_fun rm A am Sp A' am' Sp' k : flat_rep rm A am Sp -> flat_rep rm A' am' Sp' -> A !! k = A' !! k.
Proof.
  intros R R'. assert (am !! k = am' !! k) as E.
  { pose proof (flat_lookup _ _ _ _ k R) as E1. rewrite (flat_lookup _ _ _ _ k R') in E1. by injection E1. }
  destruct (am !! k) as [i|] eqn:Hi; symmetry in E.
  - destruct (fr_body _ _ _ _ R _ _ Hi) as (a & Ha & _ & ->), (fr_body _ _ _ _ R' _ _ E) as (a' & Ha' & _ & ->). congruence.
  - destruct (A !! k) eqn:H1; [destruct (fr_dom _ _ _ _ R k) as [? ?]; [by eexists|congruence]|].
    destruct (A' !! k) eqn:H2; [destruct (fr_dom _ _ _ _ R' k) as [? ?]; [by eexists|congruence]|]. done.
Qed.

(** Creation: refused exactly when every slot is allocated. *)
Lemma flat_create rm A am Sp k init :
  flat_rep rm A am Sp -> A !! k = None ->
  (forall i a, fi_idx (init i a) = i /\ res_key (fi_body (init i a)) = k) ->
  (map_img am ∪ Sp = slots (item_num (res_pool rm)) /\ fm_create rm (fm_hash rm k) init = Ok None) \/
  (map_img am ∪ Sp <> slots (item_num (res_pool rm)) /\
   exists i a rm', fm_create rm (fm_hash rm k) init = Ok (Some (i, rm')) /\ fm_hash rm' = fm_hash rm /\
     addr (res_pool rm) !! i = Some a /\
     flat_rep rm' (<[k := fi_body (init i a)]> A) (<[k := i]> am) Sp).
Proof.
  intros R Hk Hin. destruct (flat_lookup_none _ _ _ _ _ R Hk) as [Hna _]. unfold fm_create.
  destruct (decide (map_img am ∪ Sp = slots (item_num (res_pool rm)))) as [HU|HU]; [left|right]; split; try done.
  { by rewrite (alloc_item_full _ _ (fr_pool _ _ _ _ R) HU). }
  destruct (alloc_item_some _ _ (fr_pool _ _ _ _ R) HU) as (i & p' & E & Hi & Hr & P & Ea & En).
  pose proof (pw_num _ _ (fr_pool _ _ _ _ R)). rewrite E. cbn [mbind outcome_bind].
  destruct (Z.eqb_spec i OG_INVALID_ID32); [lia|].
  assert (i ∈ ({[i]} ∪ (map_img am ∪ Sp) : gset Z)) as HiU by set_solver.
  destruct (pool_wf_load _ _ _ P HiU) as (a & -> & Ha). cbn [mbind outcome_bind].
  destruct (pool_wf_store _ _ i (init i a) P HiU) as [-> P']. cbn [mbind outcome_bind].
  set (p2 := set_addr (<[i := init i a]> (addr p')) p') in *.
  assert (forall k' j, am !! k' = Some j -> j <> i) as Hne.
  { intros k' j Hj ->. apply Hi. by eapply flat_slot. }
  assert (flat_rep (set_pool p2 rm) A am ({[i]} ∪ Sp)) as R2.
  { apply flat_rep_mem with Sp; try done.
    - by replace (map_img am ∪ ({[i]} ∪ Sp)) with ({[i]} ∪ (map_img am ∪ Sp)) by set_solver.
    - intros k' j Hj. pose proof (Hne _ _ Hj). pose proof (fr_spare _ _ _ _ R _ _ Hj). set_solver.
    - intros k' j Hj. cbn. rewrite lookup_insert_ne, Ea; [done|]. intros ->. by apply (Hne _ _ Hj). }
  destruct (Hin i a) as [Hidx Hkey].
  destruct (map_add_ok (set_pool p2 rm) (fm_hash rm) am (map_img am ∪ ({[i]} ∪ Sp)) k i (init i a))
    as (rm' & nx & -> & W' & Hbn & Hp'); try done.
  - apply R2.
  - apply R2.
  - intros k' j Hj. by eapply flat_slot.
  - set_solver.
  - intros k' Hj. by apply (Hne _ _ Hj).
  - cbn. by rewrite lookup_insert_eq.
  - cbn [mbind outcome_bind]. exists i, a, rm'. split; [done|].
    assert (fm_hash rm' = fm_hash rm) as Hh by (unfold fm_hash; by rewrite Hbn). split; [done|].
    split; [by rewrite <- Ea|]. split; rewrite ?Hh; try done.
    + assert (i ∈ (map_img am ∪ ({[i]} ∪ Sp) : gset Z)) as Hix by set_solver.
      destruct (pool_wf_store _ _ i (it_set_next nx (init i a)) (fr_pool _ _ _ _ R2) Hix) as [_ P2].
      rewrite Hp', map_img_insert_notin_L by done. unfold set_pool in P2; cbn in P2.
      by replace ({[i]} ∪ map_img am ∪ Sp) with (map_img am ∪ ({[i]} ∪ Sp)) by set_solver.
    + intros k' j. intros [[<- <-]|[_ Hj]]%lookup_insert_Some; [set_solver|by eapply (fr_spare _ _ _ _ R)].
    + intros k' j. rewrite Hp'. cbn. intros [[<- <-]|[Hkk Hj]]%lookup_insert_Some.
      * rewrite !lookup_insert_eq. by exists (it_set_next nx (init i a)).
      * rewrite !lookup_insert_ne by (first [done | intros ->; by apply (Hne _ _ Hj)]).
        rewrite Ea. by apply (fr_body _ _ _ _ R).
    + intros k'. rewrite !lookup_insert_is_Some'. intros [->|?]; [by left|right; by apply R].
Qed.

(** Off the hash map, the slot is spare and still holds the resource. *)
Lemma flat_unlink rm A am Sp k i b :
  flat_rep rm A am Sp -> A !! k = Some b -> am !! k = Some i ->
  exists rm', drc_res_map_remove rm (fm_hash rm k) k = Ok rm' /\ fm_hash rm' = fm_hash rm /\
    flat_rep rm' (delete k A) (delete k am) ({[i]} ∪ Sp) /\
    exists n, addr (res_pool rm') !! i = Some (mk_fitem n i b).
Proof.
  intros R Hk Hi. destruct (map_remove_ok rm (fm_hash rm) am (map_img am ∪ Sp) k i)
    as (rm' & -> & W & Hbn & P & _ & _ & Hrl); [apply R|apply R|intros k' j Hj; by eapply flat_slot|done|].
  assert (fm_hash rm' = fm_hash rm) as Hh by (unfold fm_hash; by rewrite Hbn).
  exists rm'. split; [done|]. split; [done|].
  destruct (flat_open _ _ _ _ _ _ R Hk) as (i' & Hi' & _ & _ & (n & Ha) & _).
  assert (i' = i) as -> by congruence. split.
  2:{ exists n. by destruct (Hrl i) as [->|[? _]]. }
  assert (map_img am ∪ Sp = map_img (delete k am) ∪ ({[i]} ∪ Sp) :> gset Z) as HU.
  { rewrite <- (insert_delete_id am k i Hi) at 1. rewrite map_img_insert_notin_L by apply lookup_delete_eq. set_solver. }
  split; rewrite ?Hh, <-?HU; try done.
  - intros k' j [Hne Hj]%lookup_delete_Some. pose proof (fr_spare _ _ _ _ R _ _ Hj).
    assert (j <> i) by (intros ->; by apply Hne, (flat_inj _ _ _ _ _ _ _ R Hi)). set_solver.
  - intros k' j [Hne Hj]%lookup_delete_Some. destruct (fr_body _ _ _ _ R _ _ Hj) as (a & Haj & Hx & Hb).
    rewrite lookup_delete_ne by done. destruct (Hrl j) as [->|(_ & a' & n' & Ha' & ->)]; [eauto|].
    assert (a' = a) as -> by congruence. eexists. split_and!; try done.
  - intros k' [b' [Hne Hb']%lookup_delete_Some]. rewrite lookup_delete_ne by done. apply R. eauto.
Qed.

(** A spare slot goes back to the pool, whatever is written to it before. *)
Lemma flat_release rm A am Sp i a wipe :
  flat_rep rm A am Sp -> i ∈ Sp -> addr (res_pool rm) !! i = Some a -> fi_idx a = i ->
  exists rm', fm_release rm i wipe = Ok rm' /\ fm_hash rm' = fm_hash rm /\ flat_rep rm' A am (Sp ∖ {[i]}).
Proof.
  intros R Hi Ha Hx. unfold fm_release, load. rewrite Ha. cbn [mbind outcome_bind].
  assert (i ∈ (map_img am ∪ Sp : gset Z)) as HiU by set_solver.
  destruct (pool_wf_store _ _ i (wipe a) (fr_pool _ _ _ _ R) HiU) as [-> P]. cbn [mbind outcome_bind]. rewrite Hx.
  destruct (free_item_ok _ _ _ P HiU) as (p' & -> & P' & _ & _ & Ho & _). cbn [mbind outcome_bind].
  eexists. split; [done|]. split; [done|]. apply flat_rep_mem with Sp; try done.
  - assert (i ∉ (map_img am : gset Z)).
    { intros [k Hk]%elem_of_map_img. by apply (fr_spare _ _ _ _ R _ _ Hk). }
    by replace (map_img am ∪ Sp ∖ {[i]}) with ((map_img am ∪ Sp) ∖ {[i]}) by set_solver.
  - intros k j Hj. pose proof (fr_spare _ _ _ _ R _ _ Hj). set_solver.
  - intros k j Hj. assert (j <> i) by (intros ->; by apply (fr_spare _ _ _ _ R _ _ Hj)).
    rewrite Ho by done. cbn. by rewrite lookup_insert_ne.
Qed.

(** Every slot is allocated exactly when the resources and the spare slots
    are as many as the pool has items. *)
Lemma flat_full_iff rm A am Sp :
  flat_rep rm A am Sp ->
  map_img am ∪ Sp = slots (item_num (res_pool rm)) <->
  Z.of_nat (size A) + Z.of_nat (size Sp) = item_num (res_pool rm).
Proof.
  intros R. pose proof (fr_pool _ _ _ _ R) as P. pose proof (pw_num _ _ P).
  assert (size (map_img am ∪ Sp : gset Z) = size A + size Sp)%nat as Hsz.
  { rewrite size_union by (intros i [k Hk]%elem_of_map_img; by apply (fr_spare _ _ _ _ R _ _ Hk)). f_equal.
    assert (dom A = dom am) as Hd.
    { apply set_eq. intros k. rewrite !elem_of_dom. split; [apply R|].
      intros [i Hi]. destruct (fr_body _ _ _ _ R _ _ Hi) as (a & _ & _ & ->). eauto. }
    rewrite <- (size_dom A), Hd, size_dom. apply size_img_inj. intros k k' i. by apply (flat_inj _ _ _ _ _ _ _ R). }
  rewrite <- Nat2Z.inj_add, <- Hsz. split; [intros ->; apply size_slots; lia|].
  intros E. apply set_subseteq_size_eq; [apply P|]. pose proof (size_slots (item_num (res_pool rm))). lia.
Qed.

(** The table [drc_res_map_init] makes is empty. *)
Lemma flat_init rm sz num :
  rm_inited rm = false -> inited (res_pool rm) = false -> 4 <= sz -> 0 < num < 2 ^ 31 ->
  (forall k n, 0 < n -> 0 <= hashf n k < n) ->
  exists rm', drc_res_map_init true true num sz rm = Ok (OG_SUCCESS, rm') /\ flat_rep rm' ∅ ∅ ∅ /\
    item_num (res_pool rm') = num.
Proof.
  intros Hr Hp Hsz Hn Hh. destruct (map_init_ok rm sz num hashf Hr Hp Hsz Hn Hh) as (rm' & E & P & Hnum & W & _).
  exists rm'. split_and!; try done. split; try done.
  intros k [x Hx]. by rewrite lookup_empty in Hx.
Qed.
End FlatSpec.
