(* ===== verification/DrcTable.v ===== *)
(** Tables of resources with convert queues: a global resource
    ([global_buf_res] or [global_lock_res]) together with the
    [lock_item_pool] its queues take their items from
    (src/pkg/src/cluster/dtc_drc.h, [drc_res_ctx_t]).

    [tab_rep] states which finite map of resources, with their queues read as
    sequences of requests, a table implements; the [tab_*] lemmas give the
    effect on that map of each access the handlers make. *)

From S2P Require Import Prelude DrcPool DrcResMap DrcList DrcGlobalRes DrcQueue.

(** A kind of resource whose convert queue has type [Q]. *)
Class QueuedRes (B : Type -> Type) (K : Type) `{Countable K} := {
  qr_queue : forall {Q}, B Q -> Q;
  qr_with : forall {Q Q'}, Q' -> B Q -> B Q';
  qr_key : forall {Q}, B Q -> K;
  qr_zero : B drc_list;
  qr_with_id : forall Q (b : B Q), qr_with (qr_queue b) b = b;
  qr_queue_with : forall Q Q' (q : Q') (b : B Q), qr_queue (qr_with q b) = q;
  qr_with_with : forall Q Q' Q'' (q : Q'') (q' : Q') (b : B Q), qr_with q (qr_with q' b) = qr_with q b;
  qr_key_with : forall Q Q' (q : Q') (b : B Q), qr_key (qr_with q b) = qr_key b;
}.

#[export] Instance queued_resource {B K} `{QueuedRes B K} : Resource (B drc_list) K :=
  {| res_key := qr_key; res_zero := qr_zero |}.

Record res_tab (B : Type -> Type) := mk_tab {
  tb_items : drc_res_pool drc_lock_item;
  tb_res : drc_global_res (B drc_list);
}.
Arguments mk_tab {B} _ _.
Arguments tb_items {B} _.
Arguments tb_res {B} _.

Section Table.
Context {B : Type -> Type} {K : Type} `{QueuedRes B K}.
Implicit Types (t : res_tab B).

Definition tb_set_res (g : drc_global_res (B drc_list)) t : res_tab B := mk_tab (tb_items t) g.
Definition tb_set_items (p : drc_res_pool drc_lock_item) t : res_tab B := mk_tab p (tb_res t).

Definition tb_lookup t (h : Z) (k : K) : outcome (option Z) := drc_res_map_lookup (res_map (tb_res t)) h k.
Definition tb_get t (i : Z) : outcome (B drc_list) := gr_get (tb_res t) i.
Definition tb_put t (i : Z) (b : B drc_list) : outcome (res_tab B) :=
  g ← gr_put (tb_res t) i b; Ok (tb_set_res g t).
Definition tb_alloc t : outcome (Z * res_tab B) := '(i, g) ← gr_alloc (tb_res t); Ok (i, tb_set_res g t).
Definition tb_free t (i : Z) : outcome (res_tab B) := g ← gr_free (tb_res t) i; Ok (tb_set_res g t).

Lemma tb_set_items_id t : tb_set_items (tb_items t) t = t.
Proof. by destruct t. Qed.
End Table.

Section TableSpec.
Context {B : Type -> Type} {K : Type} `{QueuedRes B K}.
Context (hashf : Z -> K -> Z) (partf : K -> Z).
Implicit Types (t : res_tab B) (A : gmap K (B (list drc_req_info))) (am : gmap K Z) (F Sp : gset Z).

Definition tb_hash t (k : K) : Z := gr_hash hashf (tb_res t) k.

(** The slots the items of the queues occupy: [sl k] for the resource [k],
    [F] for the other table, and nothing else. *)
Record items_rep (p : drc_res_pool drc_lock_item) (f : Z) F (LU : gset Z) (sl : K -> list Z) : Prop := {
  ir_pool : pool_wf p LU;
  ir_free : f = item_num p - Z.of_nat (size LU);
  ir_used : forall j, j ∈ LU <-> j ∈ F \/ exists k, j ∈ sl k;
  ir_other : forall j k, j ∈ F -> j ∉ sl k;
  ir_nodup : forall k, NoDup (sl k);
  ir_disj : forall k k' j, j ∈ sl k -> j ∈ sl k' -> k = k';
}.

(** [t] implements [A]: resource [k] is in slot [am k]; the slots [Sp] are
    allocated but not linked; [f] items are free; the unlinked slots are zero. *)
Record tab_rep t A (f : Z) F Sp am : Prop := {
  tr_gres : gr_inv hashf partf (tb_res t) am (map_img am ∪ Sp);
  tr_spare : forall k i, am !! k = Some i -> i ∉ Sp;
  tr_items : exists LU sl, items_rep (tb_items t) f F LU sl /\
    (forall k, A !! k = None -> sl k = []) /\
    forall k ab, A !! k = Some ab -> exists i b, am !! k = Some i /\ gr_bodies (tb_res t) !! i = Some b /\
      ab = qr_with (qr_queue ab) b /\ queue_repr (addr (tb_items t)) (qr_queue b) (sl k) (qr_queue ab);
  tr_dom : forall k, is_Some (A !! k) <-> is_Some (am !! k);
  tr_blank : forall j b, gr_bodies (tb_res t) !! j = Some b -> (forall k, am !! k <> Some j) -> b = qr_zero;
}.

Lemma map_img_slot am k i : am !! k = Some i -> i ∈ (map_img am : gset Z).
Proof. intros. by eapply elem_of_map_img_2. Qed.

Lemma tab_lookup t A f F Sp am k :
  tab_rep t A f F Sp am -> tb_lookup t (tb_hash t k) k = Ok (am !! k).
Proof. intros R. eapply gr_lookup_ok, R. Qed.

Lemma tab_lookup_none t A f F Sp am k :
  tab_rep t A f F Sp am -> A !! k = None -> tb_lookup t (tb_hash t k) k = Ok None.
Proof.
  intros R Hk. rewrite (tab_lookup _ _ _ _ _ _ _ R). destruct (am !! k) eqn:E; [|done].
  assert (is_Some (A !! k)) as [? ?] by (apply (tr_dom _ _ _ _ _ _ R); eauto). congruence.
Qed.

(** Distinct resources are in distinct slots. *)
Lemma tab_inj t A f F Sp am k k' i :
  tab_rep t A f F Sp am -> am !! k = Some i -> am !! k' = Some i -> k = k'.
Proof. intros R. eapply gr_inv_inj, R. Qed.

(** Working on one resource: its queue and the pool are what the queue
    operations expect, and whatever they leave can be stored back. *)
Lemma tab_open t A f F Sp am k ab :
  tab_rep t A f F Sp am -> A !! k = Some ab ->
  exists i b E l, am !! k = Some i /\ tb_lookup t (tb_hash t k) k = Ok (Some i) /\ tb_get t i = Ok b /\
    ab = qr_with (qr_queue ab) b /\ qr_key b = k /\
    queue_rel E l (tb_items t) (qr_queue b) f (qr_queue ab) /\
    forall p' b' l' f' rs', queue_rel E l' p' (qr_queue b') f' rs' -> kept E (tb_items t) p' -> qr_key b' = k ->
      exists t', tb_put (tb_set_items p' t) i b' = Ok t' /\ tb_items t' = p' /\ tb_hash t' = tb_hash t /\
        tab_rep t' (<[k := qr_with rs' b']> A) f' F Sp am.
Proof.
  intros R Hk. pose proof R as [I Hsp (LU & sl & IR & Hnone & Hres) Hdom Hblank].
  destruct (Hres _ _ Hk) as (i & b & Hi & Hb & Hab & Hq).
  assert (qr_key b = k) as Hkey by exact (gr_inv_key _ _ _ _ _ _ _ _ _ I Hi Hb).
  assert (forall j, j ∈ sl k -> j ∈ LU) as Hsub by (intros j Hj; apply (ir_used _ _ _ _ _ IR); eauto).
  exists i, b, (LU ∖ list_to_set (sl k)), (sl k). split_and!; try done.
  - by rewrite (tab_lookup _ _ _ _ _ _ _ R), Hi.
  - unfold tb_get. by apply gr_get_ok.
  - assert (list_to_set (sl k) ∪ LU ∖ list_to_set (sl k) = LU) as HU.
    { apply set_eq. intros j. rewrite elem_of_union, elem_of_difference, elem_of_list_to_set.
      specialize (Hsub j). destruct (decide (j ∈ sl k)); tauto. }
    split; rewrite ?HU; try done; [apply IR|set_solver|apply IR|apply IR].
  - intros p' b' l' f' rs' [Hnd' Hd' P' Q' Hf'] Kp Hkey'.
    destruct (gr_put_ok hashf partf (tb_res t) am am _ i b' b I) as (g' & Eg & I' & Eb & En);
      [apply elem_of_union_l; by eapply map_img_slot | done | by rewrite <- Hkey in Hkey' |].
    unfold tb_put, tb_set_items. cbn [tb_res]. rewrite Eg. cbn [mbind outcome_bind].
    eexists. split; [done|]. split; [done|].
    split; [unfold tb_hash, gr_hash; cbn; by rewrite En|].
    set (LU' := list_to_set l' ∪ LU ∖ list_to_set (sl k) : gset Z) in *.
    set (sl' := fun k' => if decide (k' = k) then l' else sl k').
    split; cbn [tb_res tb_items tb_set_res]; try done.
    + exists LU', sl'. split_and!.
      * split; try done; unfold sl'.
        -- intros j. unfold LU'. rewrite elem_of_union, elem_of_difference, !elem_of_list_to_set, (ir_used _ _ _ _ _ IR).
           split.
           ++ intros [Hj|[[Hj|[k' Hj]] Hnj]]; [right; exists k; by rewrite decide_True | by left |].
              right. exists k'. rewrite decide_False; [done|]. by intros ->.
           ++ intros [Hj|[k' Hj]]; [right; split; [by left|by eapply ir_other]|].
              destruct (decide (k' = k)) as [->|]; [by left|]. right. split; [eauto|].
              intros Hj'. by pose proof (ir_disj _ _ _ _ _ IR _ _ _ Hj Hj').
        -- intros j k' Hj. destruct (decide (k' = k)) as [->|]; [|by eapply ir_other].
           intros Hj'. apply (Hd' j Hj'). rewrite elem_of_difference, elem_of_list_to_set.
           split; [apply (ir_used _ _ _ _ _ IR); by left|by eapply ir_other].
        -- intros k'. destruct (decide (k' = k)); [done|apply IR].
        -- assert (forall k1 j, k1 <> k -> j ∈ l' -> j ∉ sl k1) as Hx.
           { intros k1 j Hk1 Hj Hj1. apply (Hd' j Hj). rewrite elem_of_difference, elem_of_list_to_set.
             split; [apply (ir_used _ _ _ _ _ IR); eauto|]. intros Hj2. by apply Hk1, (ir_disj _ _ _ _ _ IR _ _ j). }
           intros k1 k2 j. destruct (decide (k1 = k)) as [->|N1], (decide (k2 = k)) as [->|N2]; try done.
           ++ intros J1 J2. by destruct (Hx k2 j N2 J1).
           ++ intros J1 J2. by destruct (Hx k1 j N1 J2).
           ++ apply IR.
      * intros k' Hk'. apply lookup_insert_None in Hk' as [Hk' ?]. unfold sl'. rewrite decide_False by done. auto.
      * intros k' ab' [[<- <-]|[Hne Hk']]%lookup_insert_Some; unfold sl'.
        -- exists i, b'. rewrite Eb, lookup_insert_eq, decide_True by done. rewrite qr_queue_with.
           split_and!; try done.
        -- destruct (Hres _ _ Hk') as (i' & c & Hi' & Hc & Habc & Hqc). exists i', c.
           rewrite Eb, decide_False by done. rewrite lookup_insert_ne.
           2:{ intros ->. apply Hne. by eapply tab_inj. }
           split_and!; try done. eapply queue_repr_frame; [|done]. intros j Hj. apply Kp.
           rewrite elem_of_difference, elem_of_list_to_set. split; [apply (ir_used _ _ _ _ _ IR); eauto|].
           intros Hj'. apply Hne. by eapply ir_disj.
    + intros k'. rewrite <- Hdom, lookup_insert_is_Some'. split; [|by right]. intros [<-|?]; [by eexists|done].
    + intros j c. rewrite Eb. intros [[<- _]|[_ Hj]]%lookup_insert_Some Hu; [by destruct (Hu k)|eauto].
Qed.

(** Linking, unlinking and zeroing a resource, as sequences of accesses. *)
Lemma tab_rep_gres t A f F Sp am g' Sp' :
  tab_rep t A f F Sp am -> gr_inv hashf partf g' am (map_img am ∪ Sp') ->
  (forall k i, am !! k = Some i -> i ∉ Sp') ->
  (forall k i, am !! k = Some i -> gr_bodies g' !! i = gr_bodies (tb_res t) !! i) ->
  (forall j b, gr_bodies g' !! j = Some b -> gr_bodies (tb_res t) !! j = Some b \/ b = qr_zero) ->
  tab_rep (tb_set_res g' t) A f F Sp' am.
Proof.
  intros [I Hsp (LU & sl & IR & Hnone & Hres) Hdom Hblank] I' Hsp' Hb Hb'. split; cbn; try done.
  - exists LU, sl. split_and!; try done. intros k ab Hk. destruct (Hres _ _ Hk) as (i & b & Hi & ? & ?).
    exists i, b. by rewrite (Hb _ _ Hi).
  - intros j b Hj Hu. destruct (Hb' _ _ Hj) as [?|?]; eauto.
Qed.

Lemma tab_slot_used t A f F Sp am k i :
  tab_rep t A f F Sp am -> am !! k = Some i -> i ∈ (map_img am ∪ Sp : gset Z).
Proof. intros _ Hi. apply elem_of_union_l. by eapply map_img_slot. Qed.

Lemma tab_alloc t A f F Sp am :
  tab_rep t A f F Sp am ->
  (map_img am ∪ Sp = slots (item_num (gr_pool (tb_res t))) /\ tb_alloc t = Ok (OG_INVALID_ID32, t)) \/
  (map_img am ∪ Sp <> slots (item_num (gr_pool (tb_res t))) /\
   exists i t', tb_alloc t = Ok (i, t') /\ i <> OG_INVALID_ID32 /\ i ∉ Sp /\ tb_items t' = tb_items t /\
    tb_hash t' = tb_hash t /\ tab_rep t' A f F ({[i]} ∪ Sp) am).
Proof.
  intros R. pose proof (tr_gres _ _ _ _ _ _ R) as I. unfold tb_alloc.
  destruct (decide (map_img am ∪ Sp = slots (item_num (gr_pool (tb_res t))))) as [HU|HU]; [left|right]; split; try done.
  { rewrite (gr_alloc_full _ _ _ _ _ _ I HU). cbn. by destruct t. }
  destruct (gr_alloc_ok _ _ _ _ _ _ I HU) as (i & g' & -> & Hi & Hv & I' & Hb & Hn). cbn [mbind outcome_bind].
  exists i. eexists. split; [done|]. apply not_elem_of_union in Hi as [Him Hisp].
  split_and!; try done; [unfold tb_hash, gr_hash; cbn; by rewrite Hn|].
  apply (tab_rep_gres _ _ _ _ _ _ _ _ R).
  - by replace (map_img am ∪ ({[i]} ∪ Sp)) with ({[i]} ∪ (map_img am ∪ Sp)) by set_solver.
  - intros k j Hj. rewrite not_elem_of_union, not_elem_of_singleton. split; [|by eapply R].
    intros ->. by apply map_img_slot in Hj.
  - intros. by rewrite Hb.
  - intros j b. rewrite Hb. auto.
Qed.

Lemma tab_spare_unlinked t A f F Sp am i :
  tab_rep t A f F Sp am -> i ∈ Sp -> forall k, am !! k <> Some i.
Proof. intros R Hi k Hk. by apply (tr_spare _ _ _ _ _ _ R _ _ Hk). Qed.

Lemma tab_free t A f F Sp am i :
  tab_rep t A f F Sp am -> i ∈ Sp ->
  exists t', tb_free t i = Ok t' /\ tb_items t' = tb_items t /\ tb_hash t' = tb_hash t /\
    tab_rep t' A f F (Sp ∖ {[i]}) am.
Proof.
  intros R Hi. pose proof (tr_gres _ _ _ _ _ _ R) as I.
  pose proof (tab_spare_unlinked _ _ _ _ _ _ _ R Hi) as Hu. unfold tb_free.
  destruct (gr_free_ok _ _ _ _ _ _ i I) as (g' & -> & I' & Hb & Hn); [by apply elem_of_union_r | done | done |].
  cbn [mbind outcome_bind]. eexists. split; [done|]. split_and!; [done|unfold tb_hash, gr_hash; cbn; by rewrite Hn|].
  apply (tab_rep_gres _ _ _ _ _ _ _ _ R).
  - replace (map_img am ∪ Sp ∖ {[i]}) with ((map_img am ∪ Sp) ∖ {[i]} : gset Z); [done|].
    assert (i ∉ (map_img am : gset Z)) by (rewrite elem_of_map_img; intros [k Hk]; by apply (Hu k)). set_solver.
  - intros k j Hj. pose proof (tr_spare _ _ _ _ _ _ R _ _ Hj). set_solver.
  - intros k j Hj. by rewrite Hb.
  - intros j b. rewrite Hb. auto.
Qed.

Lemma tab_free_batch t A f F Sp am ids :
  tab_rep t A f F Sp am -> NoDup ids -> (forall i, i ∈ ids -> i ∈ Sp) ->
  exists p', drc_res_pool_free_batch_item (gr_pool (tb_res t)) ids = Ok p' /\
    tab_rep (tb_set_res (gr_set_pool p' (tb_res t)) t) A f F (Sp ∖ list_to_set ids) am.
Proof.
  intros R Hnd Hin. pose proof (tr_gres _ _ _ _ _ _ R) as I.
  assert (forall k i, am !! k = Some i -> i ∉ ids) as Hm.
  { intros k i Hk Hi%Hin. by apply (tr_spare _ _ _ _ _ _ R _ _ Hk). }
  destruct (gr_free_batch_ok _ _ _ _ _ _ ids I Hnd) as (p' & E & I' & Hb); [|done|done|].
  { intros i Hi. apply elem_of_union_r. auto. }
  exists p'. split; [done|]. apply (tab_rep_gres _ _ _ _ _ _ _ _ R).
  - replace (map_img am ∪ Sp ∖ list_to_set ids) with ((map_img am ∪ Sp) ∖ list_to_set ids : gset Z); [done|].
    apply set_eq. intros j. rewrite !elem_of_difference, !elem_of_union, elem_of_map_img, elem_of_list_to_set.
    rewrite elem_of_difference, elem_of_list_to_set.
    split; [tauto|]. intros [[k Hk]|]; [|tauto]. pose proof (Hm _ _ Hk). split; [left; by exists k|done].
  - intros k j Hj [Hjs _]%elem_of_difference. by apply (tr_spare _ _ _ _ _ _ R _ _ Hj).
  - intros k j Hj. by rewrite Hb.
  - intros j b. rewrite Hb. auto.
Qed.

(** The state between the two halves of a creation: [b] is in the hash map
    but not yet on a partition list. *)
Lemma tab_create_fill t A f F Sp am k i b :
  tab_rep t A f F Sp am -> i ∈ Sp -> A !! k = None -> qr_key b = k ->
  exists g1 g2, gr_fill (tb_res t) i b = Ok g1 /\ gr_hash hashf g1 k = tb_hash t k /\
    gr_map_add g1 (tb_hash t k) i = Ok g2 /\
    gr_inv2 hashf partf g2 (<[k := i]> am) am (map_img am ∪ Sp) /\ gr_idx_ok g2 i /\
    gr_bodies g2 = <[i := b]> (gr_bodies (tb_res t)) /\ tb_hash (tb_set_res g2 t) = tb_hash t.
Proof.
  intros R Hi Hk Hkey. pose proof (tr_gres _ _ _ _ _ _ R) as I.
  pose proof (tab_spare_unlinked _ _ _ _ _ _ _ R Hi) as Hu.
  assert (am !! k = None) as Hak.
  { destruct (am !! k) eqn:E; [|done]. assert (is_Some (A !! k)) as [? ?] by (apply (tr_dom _ _ _ _ _ _ R); eauto).
    congruence. }
  destruct (gr_fill_ok _ _ _ _ _ _ i b I) as (g1 & Eg1 & I1 & Hx & Eb1 & En1); [by apply elem_of_union_r | done | done |].
  destruct (gr_map_add_ok _ _ g1 am am _ k i b I1) as (g2 & Eg2 & I2 & Eb2 & En2 & Hx2);
    [by apply elem_of_union_r | done | done | by rewrite Eb1, lookup_insert_eq | done |].
  assert (gr_hash hashf g1 k = tb_hash t k) as Eh by (unfold tb_hash, gr_hash; by rewrite En1).
  rewrite Eh in Eg2. exists g1, g2. split_and!; try done; [by apply Hx2 | by rewrite Eb2, Eb1 |].
  unfold tb_hash, gr_hash. cbn. by rewrite En2, En1.
Qed.

Lemma img_insert am (k : K) i : am !! k = None -> map_img (<[k := i]> am) = ({[i]} ∪ map_img am : gset Z).
Proof. intros Hk. by apply map_img_insert_notin_L. Qed.

Context (partf_range : forall k, 0 <= partf k < DRC_MAX_PART_NUM).

Lemma tab_create t A f F Sp am k i b :
  tab_rep t A f F Sp am -> i ∈ Sp -> A !! k = None -> qr_key b = k -> qr_queue b = DRC_LIST_INIT ->
  exists g1 g2 g3, gr_fill (tb_res t) i b = Ok g1 /\ gr_map_add g1 (tb_hash t k) i = Ok g2 /\
    gr_list_add g2 i (partf k) = Ok g3 /\ tb_hash (tb_set_res g3 t) = tb_hash t /\
    tab_rep (tb_set_res g3 t) (<[k := qr_with [] b]> A) f F (Sp ∖ {[i]}) (<[k := i]> am).
Proof.
  intros R Hi Hk Hkey Hq. destruct (tab_create_fill t A f F Sp am k i b R Hi Hk Hkey)
    as (g1 & g2 & E1 & _ & E2 & I2 & Hx & Eb & Eh).
  pose proof (tab_spare_unlinked _ _ _ _ _ _ _ R Hi) as Hu.
  pose proof R as [I Hsp (LU & sl & IR & Hnone & Hres) Hdom Hblank].
  assert (am !! k = None) as Hak.
  { destruct (am !! k) eqn:E; [|done]. assert (is_Some (A !! k)) as [? ?] by (apply Hdom; eauto). congruence. }
  destruct (gr_list_add_ok _ _ partf_range g2 _ _ _ k i b I2) as (g3 & E3 & I3 & Eb3 & En3);
    [by apply elem_of_union_r | done | done | by rewrite Eb, lookup_insert_eq | done | done |].
  exists g1, g2, g3. split_and!; try done.
  { rewrite <- Eh. unfold tb_hash, gr_hash. cbn. by rewrite En3. }
  split; cbn.
  - unfold gr_inv. rewrite img_insert by done.
    replace ({[i]} ∪ map_img am ∪ Sp ∖ {[i]}) with (map_img am ∪ Sp : gset Z); [done|].
    apply set_eq. intros j. rewrite !elem_of_union, elem_of_difference, elem_of_singleton.
    destruct (decide (j = i)) as [->|]; tauto.
  - intros k' j [[<- <-]|[_ Hj]]%lookup_insert_Some; [set_solver|]. pose proof (Hsp _ _ Hj). set_solver.
  - exists LU, sl. split_and!; try done.
    + intros k' [Hk' _]%lookup_insert_None. auto.
    + intros k' ab [[<- <-]|[Hne Hk']]%lookup_insert_Some.
      * exists i, b. rewrite lookup_insert_eq, Eb3, Eb, lookup_insert_eq, qr_queue_with, (Hnone _ Hk), Hq.
        split_and!; try done. apply queue_repr_init.
      * destruct (Hres _ _ Hk') as (i' & c & Hi' & Hc & ?). exists i', c.
        rewrite lookup_insert_ne, Eb3, Eb by done. rewrite lookup_insert_ne; [done|]. intros <-. by apply (Hu k').
  - intros k'. rewrite !lookup_insert_is_Some', Hdom. done.
  - intros j c. rewrite Eb3, Eb. intros [[<- _]|[Hne Hj]]%lookup_insert_Some Hu'.
    + destruct (Hu' k). by rewrite lookup_insert_eq.
    + apply (Hblank j c Hj). intros k' Hk'. apply (Hu' k'). rewrite lookup_insert_ne; [done|]. intros <-. congruence.
Qed.

(** A creation that is called off after the hash map knows the resource. *)
Lemma tab_create_undo t A f F Sp am k i b :
  tab_rep t A f F Sp am -> i ∈ Sp -> A !! k = None -> qr_key b = k ->
  exists g1 g2 g3 g4 g5, gr_fill (tb_res t) i b = Ok g1 /\ gr_map_add g1 (tb_hash t k) i = Ok g2 /\
    gr_map_remove g2 (tb_hash t k) k = Ok g3 /\ gr_memset g3 i = Ok g4 /\ gr_free g4 i = Ok g5 /\
    tb_hash (tb_set_res g5 t) = tb_hash t /\
    tab_rep (tb_set_res g5 t) A f F (Sp ∖ {[i]}) am.
Proof.
  intros R Hi Hk Hkey. destruct (tab_create_fill t A f F Sp am k i b R Hi Hk Hkey)
    as (g1 & g2 & E1 & _ & E2 & I2 & Hx & Eb & Eh).
  pose proof (tab_spare_unlinked _ _ _ _ _ _ _ R Hi) as Hu.
  assert (am !! k = None) as Hak.
  { destruct (am !! k) eqn:E; [|done].
    assert (is_Some (A !! k)) as [? ?] by (apply (tr_dom _ _ _ _ _ _ R); eauto). congruence. }
  assert (gr_hash hashf g2 k = tb_hash t k) as Eh2 by (rewrite <- Eh; done).
  destruct (gr_map_remove_ok _ _ g2 _ _ _ k i I2) as (g3 & E3 & I3 & Eb3 & En3 & _ & _ & _); [by rewrite lookup_insert_eq|].
  rewrite Eh2 in E3. rewrite delete_insert_id in I3 by done.
  destruct (gr_memset_ok _ _ g3 _ _ _ i I3) as (g4 & E4 & I4 & Eb4 & En4); [by apply elem_of_union_r | done | done |].
  destruct (gr_free_ok _ _ g4 _ _ _ i I4) as (g5 & E5 & I5 & Eb5 & En5); [by apply elem_of_union_r | done | done |].
  exists g1, g2, g3, g4, g5. split_and!; try done.
  { rewrite <- Eh. unfold tb_hash, gr_hash. cbn. by rewrite En5, En4, En3. }
  apply (tab_rep_gres _ _ _ _ _ _ _ _ R).
  - replace (map_img am ∪ Sp ∖ {[i]}) with ((map_img am ∪ Sp) ∖ {[i]} : gset Z); [done|].
    assert (i ∉ (map_img am : gset Z)) by (rewrite elem_of_map_img; intros [k' Hk']; by apply (Hu k')). set_solver.
  - intros k' j Hj. pose proof (tr_spare _ _ _ _ _ _ R _ _ Hj). set_solver.
  - intros k' j Hj. assert (j <> i) by (intros ->; by apply (Hu k')).
    rewrite Eb5, Eb4, Eb3, Eb. by rewrite !lookup_insert_ne.
  - intros j c. rewrite Eb5, Eb4, Eb3, Eb. intros [[_ <-]|[? Hj]]%lookup_insert_Some; [by right|].
    rewrite lookup_insert_ne in Hj by done. by left.
Qed.

(** Once a resource is off the hash map and the lists its slot is spare; the
    items its queue still has belong to nobody. *)
Lemma tab_unlinked t A f F Sp am k i ab g' :
  tab_rep t A f F Sp am -> A !! k = Some ab -> am !! k = Some i ->
  gr_inv hashf partf g' (delete k am) (map_img am ∪ Sp) ->
  (forall j, j <> i -> gr_bodies g' !! j = gr_bodies (tb_res t) !! j) -> gr_bodies g' !! i = Some qr_zero ->
  exists F', F ⊆ F' /\ size F' = (size F + length (qr_queue ab))%nat /\ (qr_queue ab = [] -> F' = F) /\
    tab_rep (tb_set_res g' t) (delete k A) f F' ({[i]} ∪ Sp) (delete k am).
Proof.
  intros R Hk Hi I' Hb Hz. pose proof R as [I Hsp (LU & sl & IR & Hnone & Hres) Hdom Hblank].
  destruct (Hres _ _ Hk) as (i' & b & Hi' & Hbb & Hab & Hq). assert (i' = i) as -> by congruence.
  pose proof (Forall2_length _ _ _ (qr_reqs _ _ _ _ Hq)) as Hlen.
  assert (forall k' j, am !! k' = Some j -> k' <> k -> j <> i) as Hinj.
  { intros k' j Hj Hne ->. apply Hne. by eapply tab_inj. }
  exists (F ∪ list_to_set (sl k)). split_and!.
  - set_solver.
  - rewrite size_union, size_list_to_set, Hlen; [done|apply IR|].
    intros j Hj Hj'%elem_of_list_to_set. by eapply ir_other.
  - intros E. rewrite E in Hlen. destruct (sl k); [set_solver|done].
  - split; cbn.
    + replace (map_img (delete k am) ∪ ({[i]} ∪ Sp)) with (map_img am ∪ Sp : gset Z); [done|].
      apply set_eq. intros j. rewrite !elem_of_union, elem_of_singleton, !elem_of_map_img. split.
      * intros [[k' Hk']|?]; [|tauto]. destruct (decide (k' = k)) as [->|].
        -- right; left. congruence.
        -- left. exists k'. by rewrite lookup_delete_ne.
      * intros [[k' [_ ?]%lookup_delete_Some]|[->|?]]; eauto.
    + intros k' j [Hne Hj]%lookup_delete_Some. pose proof (Hsp _ _ Hj).
      pose proof (Hinj _ _ Hj (not_eq_sym Hne)). set_solver.
    + exists LU, (fun k' => if decide (k' = k) then [] else sl k'). split_and!.
      * split; try apply IR.
        -- intros j. rewrite (ir_used _ _ _ _ _ IR), elem_of_union, elem_of_list_to_set. split.
           ++ intros [?|[k' ?]]; [tauto|]. destruct (decide (k' = k)) as [->|]; [tauto|].
              right. exists k'. by rewrite decide_False.
           ++ intros [[?|?]|[k' ?]]; [tauto|eauto|]. destruct (decide (k' = k)); [set_solver|eauto].
        -- intros j k'. rewrite elem_of_union, elem_of_list_to_set. destruct (decide (k' = k)); [set_solver|].
           intros [?|?]; [by eapply ir_other|]. intros ?. by apply n, (ir_disj _ _ _ _ _ IR _ _ j).
        -- intros k'. destruct (decide (k' = k)); [constructor|apply IR].
        -- intros k1 k2 j. destruct (decide (k1 = k)), (decide (k2 = k));
             (apply IR || (intros J1 J2; exfalso; (by apply not_elem_of_nil in J1) || (by apply not_elem_of_nil in J2))).
      * intros k' Hk'. destruct (decide (k' = k)); [done|]. apply Hnone. by rewrite lookup_delete_ne in Hk'.
      * intros k' ab' [Hne Hk']%lookup_delete_Some. destruct (Hres _ _ Hk') as (j & c & Hj & Hc & ?).
        exists j, c. rewrite lookup_delete_ne, decide_False, Hb by eauto. done.
    + intros k'. destruct (decide (k' = k)) as [->|].
      * rewrite !lookup_delete_eq. split; intros [? ?]; done.
      * rewrite !lookup_delete_ne by done. apply Hdom.
    + intros j c Hj Hu. destruct (decide (j = i)) as [->|]; [congruence|]. rewrite Hb in Hj by done.
      apply (Hblank j c Hj). intros k' Hk'. apply (Hu k'). rewrite lookup_delete_ne; [done|]. intros <-. congruence.
Qed.

(** [drc_res_map_remove], the removal from the partition list, [memset_s]. *)
Lemma tab_remove_map t A f F Sp am k i ab :
  tab_rep t A f F Sp am -> A !! k = Some ab -> am !! k = Some i ->
  exists g1 g2 g3 F', gr_map_remove (tb_res t) (tb_hash t k) k = Ok g1 /\ gr_list_del g1 i = Ok g2 /\
    gr_memset g2 i = Ok g3 /\ F ⊆ F' /\ size F' = (size F + length (qr_queue ab))%nat /\
    (qr_queue ab = [] -> F' = F) /\ tb_hash (tb_set_res g3 t) = tb_hash t /\
    tab_rep (tb_set_res g3 t) (delete k A) f F' ({[i]} ∪ Sp) (delete k am) /\
    (forall l1 l2, gr_part (tb_res t) (partf k) (l1 ++ i :: l2) -> gr_part g3 (partf k) (l1 ++ l2)).
Proof.
  intros R Hk Hi. pose proof (tr_gres _ _ _ _ _ _ R) as I.
  destruct (gr_map_remove_ok _ _ (tb_res t) _ _ _ k i I Hi) as (g1 & E1 & I1 & Eb1 & En1 & _ & Hrp1 & Hrl1).
  destruct (gr_list_del_ok _ _ partf_range g1 _ _ _ k i I1 Hi) as (g2 & E2 & I2 & Eb2 & En2 & _).
  assert (forall k', delete k am !! k' <> Some i) as Hu.
  { intros k' [Hne Hk']%lookup_delete_Some. apply Hne. by eapply tab_inj. }
  destruct (gr_memset_ok _ _ g2 _ _ _ i I2) as (g3 & E3 & I3 & Eb3 & En3); [by eapply tab_slot_used | done | done |].
  destruct (tab_unlinked t A f F Sp am k i ab g3 R Hk Hi I3) as (F' & ? & ? & ? & ?).
  { intros j Hj. by rewrite Eb3, Eb2, Eb1, lookup_insert_ne. }
  { by rewrite Eb3, lookup_insert_eq. }
  exists g1, g2, g3, F'. split_and!; try done; [unfold tb_hash, gr_hash; cbn; by rewrite En3, En2, En1|].
  intros l1 l2 HP.
  assert (NoDup (l1 ++ i :: l2)) as Hnd.
  { eapply (gr_part_mem _ _ (tb_res t) _ _ _ _ _ i I (partf_range k) HP). }
  eapply gr_part_memset; [done| |].
  - apply NoDup_app in Hnd as (_ & Hd & [Hn _]%NoDup_cons). rewrite elem_of_app. intros [Hi1|Hi2]; [|done].
    apply (Hd i Hi1). set_solver.
  - eapply gr_part_del; [exact partf_range|exact I1|exact Hi|done| |exact E2].
    eapply gr_part_frame; [done| |exact HP]. intros j c _ Hc. destruct (Hrl1 _ _ Hc) as (n & ->). eauto.
Qed.

(** The same with the list first. *)
Lemma tab_remove_list t A f F Sp am k i ab :
  tab_rep t A f F Sp am -> A !! k = Some ab -> am !! k = Some i -> qr_queue ab = [] ->
  exists g1 g2 g3 g4 a, gr_list_del (tb_res t) i = Ok g1 /\ gr_map_remove g1 (tb_hash t k) k = Ok g2 /\
    load (gr_pool g2) i = Ok a /\ item_idx a = i /\ gr_memset g2 i = Ok g3 /\ gr_free g3 i = Ok g4 /\ tb_hash (tb_set_res g4 t) = tb_hash t /\
    tab_rep (tb_set_res g4 t) (delete k A) f F Sp (delete k am).
Proof.
  intros R Hk Hi Hq. pose proof (tr_gres _ _ _ _ _ _ R) as I.
  destruct (gr_list_del_ok _ _ partf_range (tb_res t) _ _ _ k i I Hi) as (g1 & E1 & I1 & Eb1 & En1 & Hx1).
  destruct (gr_map_remove_ok _ _ g1 _ _ _ k i I1 Hi) as (g2 & E2 & I2 & Eb2 & En2 & Hx2 & _).
  assert (gr_hash hashf g1 k = tb_hash t k) as Eh by (unfold tb_hash, gr_hash; by rewrite En1). rewrite Eh in E2.
  assert (forall k', delete k am !! k' <> Some i) as Hu.
  { intros k' [Hne Hk']%lookup_delete_Some. apply Hne. by eapply tab_inj. }
  destruct (gr_memset_ok _ _ g2 _ _ _ i I2) as (g3 & E3 & I3 & Eb3 & En3); [by eapply tab_slot_used | done | done |].
  destruct (tab_unlinked t A f F Sp am k i ab g3 R Hk Hi I3) as (F' & _ & _ & HF & R3).
  { intros j Hj. by rewrite Eb3, Eb2, Eb1, lookup_insert_ne. }
  { by rewrite Eb3, lookup_insert_eq. }
  rewrite (HF Hq) in R3. destruct (tab_free _ _ _ _ _ _ i R3) as (t4 & E4 & _ & Eh4 & R4); [set_solver|].
  unfold tb_free in E4. cbn [tb_res tb_set_res] in E4. destruct (gr_free g3 i) as [g4|] eqn:E4'; [|done].
  cbn in E4. inv_ok. subst t4.
  assert (gr_idx_ok g2 i) as (a & Ha & Hai).
  { apply Hx2, Hx1. destruct (gi_al _ _ _ _ _ _ I _ _ Hi) as (_ & a & Ha & _ & Hai & _). by exists a. }
  exists g1, g2, g3, g4, a. split_and!; try done.
  - unfold load. by rewrite Ha.
  - etransitivity; [exact Eh4|]. unfold tb_hash, gr_hash. cbn. by rewrite En3, En2, En1.
  - replace (({[i]} ∪ Sp) ∖ {[i]}) with Sp in R4; [done|].
    pose proof (tr_spare _ _ _ _ _ _ R _ _ Hi). set_solver.
Qed.

(** The number of slots in use. *)
(** A resource with nobody waiting taken out of the map and of its list,
    zeroed and freed. *)
Lemma tab_retire t A f F Sp am k i ab :
  tab_rep t A f F Sp am -> A !! k = Some ab -> am !! k = Some i -> qr_queue ab = [] ->
  exists g1 a g2 g3 g4, gr_map_remove (tb_res t) (tb_hash t k) k = Ok g1 /\ gr_get g1 i = gr_get (tb_res t) i /\
    load (gr_pool g1) i = Ok a /\ item_idx a = i /\ gr_list_del g1 i = Ok g2 /\ gr_memset g2 i = Ok g3 /\
    gr_free g3 i = Ok g4 /\ tab_rep (tb_set_res g4 t) (delete k A) f F Sp (delete k am) /\
    (forall l1 l2, gr_part (tb_res t) (partf k) (l1 ++ i :: l2) -> gr_part g4 (partf k) (l1 ++ l2)).
Proof.
  intros R Hk Hi Hq. pose proof (tr_gres _ _ _ _ _ _ R) as I.
  destruct (tab_remove_map _ _ _ _ _ _ _ _ _ R Hk Hi) as (g1 & g2 & g3 & F' & E1 & E2 & E3 & _ & _ & HF & _ & R3 & HP).
  rewrite (HF Hq) in R3.
  destruct (gr_map_remove_ok _ _ (tb_res t) _ _ _ k i I Hi) as (g1' & E1' & _ & Hb & _ & _ & _ & Hload).
  assert (g1' = g1) as -> by (unfold tb_hash in E1; congruence).
  destruct (gi_al _ _ _ _ _ _ I _ _ Hi) as (_ & a & Ha & _ & Hx & _). destruct (Hload _ _ Ha) as (n & Ha1).
  destruct (tab_free _ _ _ _ _ _ i R3) as (t4 & E4 & _ & _ & R4); [set_solver|].
  replace (({[i]} ∪ Sp) ∖ {[i]}) with Sp in R4 by (pose proof (tr_spare _ _ _ _ _ _ R _ _ Hi); set_solver).
  unfold tb_free in E4. cbn [tb_set_res tb_res] in E4. destruct (gr_free g3 i) as [g4|] eqn:Eg4; [|done].
  cbn in E4. injection E4 as <-. exists g1, (set_item_next n a), g2, g3, g4. split_and!; try done.
  - unfold gr_get, load. rewrite Ha, Ha1. done.
  - unfold load. by rewrite Ha1.
  - intros l1 l2 HPi. eapply gr_part_free; [done|]. by apply HP.
Qed.

Lemma tab_slots_used t A f F Sp am :
  tab_rep t A f F Sp am -> size (map_img am ∪ Sp : gset Z) = (size A + size Sp)%nat.
Proof.
  intros R. rewrite size_union.
  2:{ intros j [k Hk]%elem_of_map_img Hj. by apply (tr_spare _ _ _ _ _ _ R _ _ Hk). }
  f_equal. assert (dom A = dom am) as Hd.
  { apply set_eq. intros k. rewrite !elem_of_dom. apply R. }
  rewrite <- (size_dom A), Hd, size_dom. apply size_img_inj. intros k k' i. by apply (tab_inj _ _ _ _ _ _ _ _ _ R).
Qed.

Lemma tab_full_iff t A f F Sp am :
  tab_rep t A f F Sp am ->
  map_img am ∪ Sp = slots (item_num (gr_pool (tb_res t))) <->
  Z.of_nat (size A) + Z.of_nat (size Sp) = item_num (gr_pool (tb_res t)).
Proof.
  intros R. pose proof (tab_slots_used _ _ _ _ _ _ R) as Hs.
  pose proof (gi_pool _ _ _ _ _ _ (tr_gres _ _ _ _ _ _ R)) as P. pose proof (pw_num _ _ P) as Hn.
  assert (Z.of_nat (size (slots (item_num (gr_pool (tb_res t))))) = item_num (gr_pool (tb_res t))) as Hz
    by (rewrite size_slots; lia).
  split; [intros E; rewrite E in Hs; lia|]. intros E. apply set_subseteq_size_eq; [apply P|lia].
Qed.

(** Any slot of the pool can be read; an unlinked one is zero. *)
Lemma tab_get_any t A f F Sp am j :
  tab_rep t A f F Sp am -> 0 <= j < item_num (gr_pool (tb_res t)) ->
  exists b, tb_get t j = Ok b /\ (b = qr_zero \/ exists k, am !! k = Some j /\ qr_key b = k).
Proof.
  intros R Hj. apply (pw_dom _ _ (gi_pool _ _ _ _ _ _ (tr_gres _ _ _ _ _ _ R))) in Hj as [a Ha].
  assert (gr_bodies (tb_res t) !! j = Some (body a)) as Hb by (unfold gr_bodies; by rewrite lookup_fmap, Ha).
  exists (body a). split; [by apply gr_get_ok|].
  destruct (decide (j ∈ (map_img am : gset Z))) as [[k Hk]%elem_of_map_img|Hn].
  - right. exists k. split; [done|]. exact (gr_inv_key _ _ _ _ _ _ _ _ _ (tr_gres _ _ _ _ _ _ R) Hk Hb).
  - left. eapply tr_blank; [done|done|]. intros k Hk. apply Hn. by eapply map_img_slot.
Qed.

(** A linked item knows its slot. *)
Lemma tab_idx t A f F Sp am k i :
  tab_rep t A f F Sp am -> am !! k = Some i -> exists a, load (gr_pool (tb_res t)) i = Ok a /\ item_idx a = i.
Proof.
  intros R Hi. destruct (gi_al _ _ _ _ _ _ (tr_gres _ _ _ _ _ _ R) _ _ Hi) as (_ & a & Ha & _ & Hx & _).
  exists a. unfold load. by rewrite Ha.
Qed.

Lemma tab_slot_range t A f F Sp am k i :
  tab_rep t A f F Sp am -> am !! k = Some i -> 0 <= i < item_num (gr_pool (tb_res t)).
Proof.
  intros R Hi. eapply pool_wf_range; [apply (tr_gres _ _ _ _ _ _ R)|]. by eapply tab_slot_used.
Qed.

(** A pool that differs in its counters only. *)
Lemma tab_rep_pool t A f F Sp am p' :
  tab_rep t A f F Sp am -> pool_wf p' (map_img am ∪ Sp) -> addr p' = addr (gr_pool (tb_res t)) ->
  tab_rep (tb_set_res (gr_set_pool p' (tb_res t)) t) A f F Sp am.
Proof.
  intros R P Ea. pose proof (tr_gres _ _ _ _ _ _ R) as I. apply (tab_rep_gres _ _ _ _ _ _ _ _ R).
  - eapply gr_inv2_mem; [exact I|done|apply I|intros k i Hi; by eapply gi_al| |]; rewrite Ea; eauto 10.
  - apply R.
  - intros k i _. unfold gr_bodies. cbn. by rewrite Ea.
  - intros j b. unfold gr_bodies. cbn. rewrite Ea. auto.
Qed.

(** A new table with a new item pool implements the empty map. *)
Lemma tab_init_ok (p0 : drc_res_pool drc_lock_item) (g0 : drc_global_res (B drc_list)) sz num isz inum :
  inited p0 = false -> 4 <= isz -> 0 < inum < OG_INVALID_ID32 ->
  rm_inited (res_map g0) = false -> inited (gr_pool g0) = false -> 4 <= sz -> 0 < num < 2 ^ 31 ->
  (forall k n, 0 < n -> 0 <= hashf n k < n) ->
  exists p g, drc_res_pool_init true isz inum p0 = Ok (OG_SUCCESS, p) /\
    drc_global_res_init true true num sz g0 = Ok (OG_SUCCESS, g) /\
    tab_rep (mk_tab p g) ∅ inum ∅ ∅ ∅ /\ item_num (gr_pool g) = num.
Proof.
  intros Hp Hisz Hinum Hr Hg Hsz Hnum Hh.
  destruct (pool_init_wf p0 isz inum Hp Hisz Hinum) as (p & -> & P & Hpn & _).
  destruct (gr_init_ok hashf partf partf_range g0 sz num Hr Hg Hsz Hnum Hh) as (g & -> & I & Hgn & Hz).
  exists p, g. split_and!; try done. split; cbn.
  - by rewrite union_empty_r_L.
  - done.
  - exists ∅, (fun _ => []). split_and!; try done. split; try done.
    + cbn [tb_items]. rewrite Hpn, size_empty. lia.
    + intros j. split; [set_solver|]. intros [?|[? ?]]; set_solver.
    + constructor.
    + set_solver.
  - intros k. by rewrite !lookup_empty.
  - intros j b Hj _. by apply (Hz j).
Qed.
End TableSpec.

(** ** One resource at a time

    [b] with the items in [s] stands for [ab]; the slots [E], which belong to
    the other queues, are as in [s0]. *)
Section OneResource.
Context {B : Type -> Type} {K : Type} `{QueuedRes B K}.
Implicit Types (s : drc_res_pool drc_lock_item) (b : B drc_list) (ab : B (list drc_req_info)) (E : gset Z) (f : Z).

Definition qres_rel E s0 s b f ab : Prop :=
  exists l, queue_rel E l s (qr_queue b) f (qr_queue ab) /\ ab = qr_with (qr_queue ab) b /\ kept E s0 s.

(** A change of the other members keeps the relation. *)
Lemma qres_rel_map E s0 s b f ab (g : forall Q, B Q -> B Q) :
  (forall Q (x : B Q), qr_queue (g Q x) = qr_queue x) ->
  (forall Q Q' (x : B Q) (q : Q'), g Q' (qr_with q x) = qr_with q (g Q x)) ->
  qres_rel E s0 s b f ab -> qres_rel E s0 s (g _ b) f (g _ ab).
Proof.
  intros Hq Hg (l & R & Hab & Kp). exists l. rewrite !Hq. split_and!; try done. rewrite Hab at 1. by rewrite Hg.
Qed.

(** A change of the queue. *)
Lemma qres_rel_queue E s0 s s' b f f' ab q' rs' l' :
  qres_rel E s0 s b f ab -> queue_rel E l' s' q' f' rs' -> kept E s s' ->
  qres_rel E s0 s' (qr_with q' b) f' (qr_with rs' ab).
Proof.
  intros (l & R & Hab & Kp) R' K'. exists l'. rewrite !qr_queue_with, qr_with_with. split_and!; [done| |].
  - rewrite Hab, !qr_with_with. done.
  - intros j Hj. by rewrite K', Kp.
Qed.

Context (hashf : Z -> K -> Z) (partf : K -> Z).

(** The resource [k] taken out of the table and put back. *)
Lemma tab_step t A f F Sp am k ab :
  tab_rep hashf partf t A f F Sp am -> A !! k = Some ab ->
  exists i b E, am !! k = Some i /\ tb_lookup t (tb_hash hashf t k) k = Ok (Some i) /\ tb_get t i = Ok b /\
    qr_key ab = k /\ qres_rel E (tb_items t) (tb_items t) b f ab /\
    forall s' b' f' ab', qres_rel E (tb_items t) s' b' f' ab' -> qr_key ab' = k ->
      exists t', tb_put (tb_set_items s' t) i b' = Ok t' /\ tab_rep hashf partf t' (<[k := ab']> A) f' F Sp am.
Proof.
  intros R Hk. destruct (tab_open _ _ _ _ _ _ _ _ _ _ R Hk) as (i & b & E & l & Hi & Hl & Hg & Hab & Hkey & Q & Hput).
  exists i, b, E. split_and!; try done; [by rewrite Hab, qr_key_with|by exists l|].
  intros s' b' f' ab' (l' & Q' & Hab' & K') Hpg.
  destruct (Hput s' b' l' f' (qr_queue ab') Q' K') as (t' & E' & _ & _ & R').
  { by rewrite <- Hpg, Hab', qr_key_with. }
  exists t'. split; [done|]. by rewrite <- Hab' in R'.
Qed.
End OneResource.

(** ** A batch of items *)
Section Batch.
Context {B : Type -> Type} {K : Type} `{QueuedRes B K} (hashf : Z -> K -> Z) (partf : K -> Z).

(** A batch of items in one go. *)
Lemma tab_alloc_batch t A f F Sp am num : tab_rep hashf partf t A f F Sp am -> 0 <= num < 2 ^ 31 -> gr_num (tb_res t) < 2 ^ 31 ->
  drc_res_pool_alloc_batch_item (gr_pool (tb_res t)) num = Ok (OG_ERROR, [], gr_pool (tb_res t)) /\
    ~ (Z.of_nat (size A) + Z.of_nat (size Sp) + num <= gr_num (tb_res t) /\ Z.of_nat (size A) + Z.of_nat (size Sp) < gr_num (tb_res t)) \/
  exists ids p', drc_res_pool_alloc_batch_item (gr_pool (tb_res t)) num = Ok (OG_SUCCESS, ids, p') /\ Z.of_nat (length ids) = num /\ NoDup ids /\
    (forall i, i ∈ ids -> i ∉ Sp) /\ tab_rep hashf partf (tb_set_res (gr_set_pool p' (tb_res t)) t) A f F (list_to_set ids ∪ Sp) am /\ item_num p' = gr_num (tb_res t).
Proof.
  intros R Hnum Hitem. pose proof (tr_gres _ _ _ _ _ _ _ _ R) as I. pose proof (gi_pool _ _ _ _ _ _ I) as W.
  pose proof (pool_wf_size _ _ W) as Hs. pose proof (tab_slots_used _ _ _ _ _ _ _ _ R) as Hu. unfold gr_num in *.
  unfold drc_res_pool_alloc_batch_item. rewrite (pw_inited _ _ W), (pw_used _ _ W). cbn [negb].
  assert (u32 (Z.of_nat (size (map_img am ∪ Sp : gset Z)) + num) = Z.of_nat (size (map_img am ∪ Sp : gset Z)) + num) as -> by (unfold u32; apply Z.mod_small; lia).
  destruct (Z.ltb_spec (item_num (gr_pool (tb_res t))) num) as [Hb1|Hb1]; cbn [orb]; [left; split; [done|lia]|].
  destruct (Z.ltb_spec (item_num (gr_pool (tb_res t))) (Z.of_nat (size (map_img am ∪ Sp : gset Z)) + num)) as [Hb3|Hb3]; [left; split; [done|lia]|].
  destruct (Z.eqb_spec (free_list (gr_pool (tb_res t))) OG_INVALID_ID32) as [Hf|Hf].
  { left. split; [done|]. intros [_ Hlt].
    destruct (alloc_item_some _ _ W) as (i & p1 & E1 & _ & Hi & _); [apply slots_not_full; [done|lia]|].
    unfold drc_res_pool_alloc_item in E1. rewrite (pw_inited _ _ W), Hf, Z.eqb_refl in E1. cbn in E1. injection E1 as <- _. pose proof (pw_num _ _ W). lia. }
  right. destruct (alloc_batch_loop_ok (Z.to_nat num) _ _ [] W) as (ids & p' & E & Hl & Hnd & Hin & W' & Ea & En); [lia|].
  cbn [rev app] in E. rewrite E. cbn [mbind outcome_bind]. exists ids, p'. split; [done|]. split; [lia|]. split; [done|].
  split; [intros i Hi Hs'; apply (Hin i Hi); by apply elem_of_union_r|]. split; [|done].
  replace (list_to_set ids ∪ (map_img am ∪ Sp)) with (map_img am ∪ (list_to_set ids ∪ Sp) : gset Z) in W' by set_solver.
  apply (tab_rep_gres _ _ _ _ _ _ _ _ _ _ R).
  - eapply gr_inv2_mem; [exact I|done| | | |]; rewrite ?Ea; [..|eauto 10].
    + intros k i Hk. apply elem_of_union_l. by eapply map_img_slot.
    + intros k i Hk. apply elem_of_union_l. by eapply map_img_slot.
    + eauto.
  - intros k i Hk [Hi|Hi]%elem_of_union; [|by eapply (tr_spare _ _ _ _ _ _ _ _ R)].
    apply elem_of_list_to_set in Hi. apply (Hin i Hi). apply elem_of_union_l. by eapply map_img_slot.
  - intros k i _. unfold gr_bodies. cbn. by rewrite Ea.
  - intros j b. unfold gr_bodies. cbn. rewrite Ea. auto.
Qed.
End Batch.
