(* ===== verification/DrcReform.v ===== *)
(** What a handler reads of the reform and recovery state
    ([g_rc_ctx], [part_mngr.remaster_status], [dtc_rcy_ctx]), and the tests
    that refuse requests while a reform is under way
    (src/pkg/src/cluster/dtc_buffer.c, dtc_drc.c, dtc_drc.h).

    These globals change under the handlers' feet: no lock a handler holds
    protects them.  A handler therefore gets a [view] per read. *)

From S2P Require Import Prelude.

(** [page_id_t]: the members that identify a page. *)
Record page_id := mk_page { pg_page : Z; pg_file : Z }.

#[export] Instance page_id_eq_dec : EqDecision page_id.
Proof. solve_decision. Defined.
#[export, refine] Instance page_id_countable : Countable page_id :=
  inj_countable' (fun p => (pg_page p, pg_file p)) (fun '(a, b) => mk_page a b) _.
Proof. by intros []. Defined.

(** [drid_t]: the keys [is_same_lock] compares. *)
Record drid := mk_drid {
  dr_type : Z; dr_uid : Z; dr_id : Z; dr_idx : Z; dr_part : Z; dr_parentpart : Z; dr_is_shadow : Z;
}.

#[export] Instance drid_eq_dec : EqDecision drid.
Proof. solve_decision. Defined.
#[export, refine] Instance drid_countable : Countable drid :=
  inj_countable' (fun d => (dr_type d, dr_uid d, dr_id d, dr_idx d, dr_part d, dr_parentpart d, dr_is_shadow d))
    (fun '(a, b, c, d, e, f, g) => mk_drid a b c d e f g) _.
Proof. by intros []. Defined.

(** [drc_remaster_status_e]. *)
Definition REMASTER_PREPARE : Z := 0.
Definition REMASTER_ASSIGN_TASK : Z := 1.
Definition REMASTER_MIGRATE : Z := 2.
Definition REMASTER_RECOVERY : Z := 3.
Definition REMASTER_PUBLISH : Z := 4.
Definition REMASTER_DONE : Z := 5.
Definition REMASTER_FAIL : Z := 6.

(** The values of [reform_status_t] the tests mention. *)
Definition REFORM_MOUNTING : Z := 2.
Definition REFORM_RECOVERING : Z := 3.
Definition REFORM_RECOVER_DONE : Z := 4.

(** [RECOVERY_ANALYSIS] of [dtc_recovery_status_e]. *)
Definition RECOVERY_ANALYSIS : Z := 1.

(** [INVALID_FILE_ID] and [IS_INVALID_PAGID]. *)
Definition INVALID_FILE_ID : Z := 1023.
Definition IS_INVALID_PAGID (p : page_id) : bool := INVALID_FILE_ID <=? pg_file p.

(** One reading of the globals by a session. *)
Record view := mk_view {
  v_remaster_status : Z;        (* part_mngr.remaster_status *)
  v_rc_status : Z;              (* g_rc_ctx->status *)
  v_trigger_version : Z;        (* g_rc_ctx->info.trigger_version *)
  v_session_in_recovery : bool; (* OGRAC_SESSION_IN_RECOVERY(session) *)
  v_part_recovery : bool;       (* OGRAC_PART_RECOVERY(session) *)
  v_primary : bool;             (* DB_IS_PRIMARY *)
  v_recovery_status : Z;        (* dtc_rcy->recovery_status *)
  v_page_in_rcyset : page_id -> bool;  (* dtc_page_in_rcyset *)
  v_df_ctrl_lock : drid;        (* db->df_ctrl_lock.drid *)
  v_space_id_set : list Z;      (* rcy_set->space_id_set *)
}.

(** [dtc_is_in_rcy]. *)
Definition dtc_is_in_rcy (v : view) : bool := v_remaster_status v <? REMASTER_DONE.

(** [drc_remaster_in_progress]. *)
Definition drc_remaster_in_progress (v : view) : bool :=
  negb ((v_remaster_status v =? REMASTER_DONE) || (v_remaster_status v =? REMASTER_FAIL)).

(** The condition [dtc_dcs_readable] and [dtc_dls_readable] share. *)
Definition view_open (v : view) : bool :=
  (v_remaster_status v =? REMASTER_DONE) &&
  ((REFORM_RECOVER_DONE <=? v_rc_status v) || v_session_in_recovery v || (v_rc_status v =? REFORM_MOUNTING)).

(** [dtc_dcs_readable]. *)
Definition dtc_dcs_readable (v : view) (p : page_id) : bool :=
  if negb (v_remaster_status v =? REMASTER_DONE) then false
  else if view_open v || negb (v_part_recovery v) || negb (v_primary v) then view_open v
  else if v_recovery_status v <=? RECOVERY_ANALYSIS then false
  else if IS_INVALID_PAGID p then false
  else negb (v_page_in_rcyset v p).

(** [is_df_ctrl_lock]. *)
Definition is_df_ctrl_lock (v : view) (d : drid) : bool :=
  (dr_type (v_df_ctrl_lock v) =? dr_type d) && (dr_id (v_df_ctrl_lock v) =? dr_id d) &&
  (dr_uid (v_df_ctrl_lock v) =? dr_uid d).

(** [dtc_lock_in_rcy_space_set]. *)
Definition dtc_lock_in_rcy_space_set (v : view) (uid : Z) : bool := bool_decide (uid ∈ v_space_id_set v).

(** [dtc_dls_readable]. *)
Definition dtc_dls_readable (v : view) (d : drid) : bool :=
  if negb (v_remaster_status v =? REMASTER_DONE) then false
  else if view_open v || negb (v_part_recovery v) || negb (v_primary v) then view_open v
  else if v_recovery_status v <=? RECOVERY_ANALYSIS then false
  else if is_df_ctrl_lock v d then true
  else if dr_uid d =? OG_INVALID_ID16 then false
  else negb (dtc_lock_in_rcy_space_set v (dr_uid d)).

(** [DRC_STOP_DCS_IO_FOR_REFORMING] and [DRC_STOP_DLS_REQ_FOR_REFORMING]. *)
Definition DRC_STOP_DCS_IO_FOR_REFORMING (req_version : Z) (v : view) (p : page_id) : bool :=
  negb (dtc_dcs_readable v p) || (req_version <? v_trigger_version v).
Definition DRC_STOP_DLS_REQ_FOR_REFORMING (req_version : Z) (v : view) (d : drid) : bool :=
  negb (dtc_dls_readable v d) || (req_version <? v_trigger_version v).

(** ** Requests are served in a settled cluster only

    A page is readable exactly when the catalogue is mastered and either
    recovery is over (or not needed to mount), or partial recovery on the
    primary has finished its analysis and the page is not among those to be
    recovered. *)
Lemma dcs_readable_spec v p :
  dtc_dcs_readable v p = true <->
  v_remaster_status v = REMASTER_DONE /\
  ((REFORM_RECOVER_DONE <= v_rc_status v \/ v_session_in_recovery v = true \/ v_rc_status v = REFORM_MOUNTING) \/
   (v_part_recovery v = true /\ v_primary v = true /\ RECOVERY_ANALYSIS < v_recovery_status v /\
    pg_file p < INVALID_FILE_ID /\ v_page_in_rcyset v p = false)).
Proof.
  unfold dtc_dcs_readable, view_open, IS_INVALID_PAGID.
  destruct (Z.eqb_spec (v_remaster_status v) REMASTER_DONE) as [E|E]; cbn [negb andb]; [|intuition congruence].
  destruct (Z.leb_spec REFORM_RECOVER_DONE (v_rc_status v)), (v_session_in_recovery v),
    (Z.eqb_spec (v_rc_status v) REFORM_MOUNTING), (v_part_recovery v), (v_primary v),
    (Z.leb_spec (v_recovery_status v) RECOVERY_ANALYSIS), (Z.leb_spec INVALID_FILE_ID (pg_file p)),
    (v_page_in_rcyset v p); cbn; intuition (lia || congruence).
Qed.

(** No lock request is served while the catalogue is being remastered. *)
Lemma dls_readable_mastered v d : dtc_dls_readable v d = true -> v_remaster_status v = REMASTER_DONE.
Proof. unfold dtc_dls_readable. destruct (Z.eqb_spec (v_remaster_status v) REMASTER_DONE); [done|discriminate]. Qed.

Lemma dcs_readable_mastered v p : dtc_dcs_readable v p = true -> v_remaster_status v = REMASTER_DONE.
Proof. by intros [? _]%dcs_readable_spec. Qed.
