(* ===== verification/DrcPart.v ===== *)
(** Partitions and their masters: [drc_part_mngr_t]
    (src/pkg/src/cluster/dtc_drc.h) and the functions that assign the 1024
    partitions to the instances when the first one starts, when instances
    join and when they leave (src/pkg/src/cluster/dtc_drc.c).

    The partitions of an instance form a list threaded through the map of
    partitions, [first] and [count] in the table of instances being its head
    and length; [last] is only read while the first list is built.  A reform
    computes a target map and a target table from copies of the current ones,
    with the list of the partitions to be moved. *)

From S2P Require Import Prelude DrcGlobalRes DrcReform.

(** [drc_part_status_e]. *)
Inductive drc_part_status :=
| PART_INIT | PART_NORMAL | PART_WAIT_MIGRATE | PART_MIGRATING | PART_WAIT_RECOVERY | PART_RECOVERING
| PART_MIGRATE_COMPLETE | PART_MIGRATE_FAIL.

#[export] Instance drc_part_status_eq_dec : EqDecision drc_part_status.
Proof. solve_decision. Defined.

(** [drc_part_t], [drc_inst_part_t], [drc_remaster_task_t]. *)
Record drc_part := mk_part { pt_inst : Z; pt_status : drc_part_status; pt_next : Z }.
Record drc_inst_part := mk_ipart { ip_first : Z; ip_last : Z; ip_count : Z; ip_expected : Z; ip_used : bool }.
Record drc_remaster_task := mk_task { tk_export : Z; tk_import : Z; tk_part : Z; tk_status : drc_part_status }.

Definition ip_set_first (x : Z) (e : drc_inst_part) := mk_ipart x (ip_last e) (ip_count e) (ip_expected e) (ip_used e).
Definition ip_set_last (x : Z) (e : drc_inst_part) := mk_ipart (ip_first e) x (ip_count e) (ip_expected e) (ip_used e).
Definition ip_set_count (x : Z) (e : drc_inst_part) := mk_ipart (ip_first e) (ip_last e) (u16 x) (ip_expected e) (ip_used e).
Definition ip_set_expected (x : Z) (e : drc_inst_part) := mk_ipart (ip_first e) (ip_last e) (ip_count e) (u16 x) (ip_used e).
Definition ip_set_used (x : bool) (e : drc_inst_part) := mk_ipart (ip_first e) (ip_last e) (ip_count e) (ip_expected e) x.

(** The members of [drc_part_mngr_t] and of its [remaster_mngr] that the
    assignment reads or writes; [tmp_*] are the copies kept for a reform that
    has to be started again. *)
Record drc_part_mngr := mk_mngr {
  pm_version : Z;
  pm_inited : bool;
  pm_inst_num : Z;
  pm_remaster_status : Z;
  pm_is_reentrant : bool;
  pm_remaster_inst : Z;
  pm_mgrt_fail_list : bool;
  part_map : gmap Z drc_part;
  inst_part_tbl : gmap Z drc_inst_part;
  target_part_map : gmap Z drc_part;
  target_inst_part_tbl : gmap Z drc_inst_part;
  remaster_task_set : gmap Z drc_remaster_task;
  task_num : Z;
  tmp_part_map : gmap Z drc_part;
  tmp_inst_part_tbl : gmap Z drc_inst_part;
}.

(** The manager as it is in zeroed memory. *)
Definition zero_mngr : drc_part_mngr :=
  let pm := filled DRC_MAX_PART_NUM (mk_part 0 PART_INIT 0) in
  let tbl := filled OG_MAX_INSTANCES (mk_ipart 0 0 0 0 false) in
  mk_mngr 0 false 0 0 false 0 false pm tbl pm tbl (filled DRC_MAX_PART_NUM (mk_task 0 0 0 PART_INIT)) 0 pm tbl.

(** ** The first assignment *)

(** One round of the loop of [drc_part_init]: partition [i] goes to [inst],
    at the end of its list. *)
Definition part_init_step (inst i : Z) (pm : gmap Z drc_part) (tbl : gmap Z drc_inst_part) :
    outcome (gmap Z drc_part * gmap Z drc_inst_part) :=
  pm ← wr pm i (fun p => mk_part inst PART_INIT (pt_next p));
  e ← rd tbl inst;
  '(pm, tbl) ← (if ip_count e =? 0 then
                  tbl ← wr tbl inst (fun e => ip_set_used true (ip_set_first i e));
                  Ok (pm, tbl)
                else
                  pm ← wr pm (ip_last e) (fun p => mk_part (pt_inst p) (pt_status p) i);
                  Ok (pm, tbl));
  tbl ← wr tbl inst (fun e => ip_set_count (ip_count e + 1) (ip_set_last i e));
  pm ← wr pm i (fun p => mk_part (pt_inst p) (pt_status p) OG_INVALID_ID8);
  Ok (pm, tbl).

Fixpoint part_init_loop (n : nat) (i : Z) (insts : list Z) (inst_num : Z) (pm : gmap Z drc_part)
    (tbl : gmap Z drc_inst_part) : outcome (gmap Z drc_part * gmap Z drc_inst_part) :=
  match n with
  | O => Ok (pm, tbl)
  | S n' =>
      inst ← arg insts (i mod inst_num);
      '(pm, tbl) ← part_init_step inst i pm tbl;
      part_init_loop n' (i + 1) insts inst_num pm tbl
  end.

(** [drc_part_init]. *)
Definition drc_part_init (insts : list Z) (inst_num : Z) (m : drc_part_mngr) : outcome drc_part_mngr :=
  if (inst_num =? 0) || pm_inited m then Ok m
  else
    '(pm, tbl) ← part_init_loop (Z.to_nat DRC_MAX_PART_NUM) 0 insts inst_num (part_map m) (inst_part_tbl m);
    let tbl := (fun e => if ip_used e then ip_set_expected (ip_count e) e else e) <$> tbl in
    Ok (mk_mngr 1 true inst_num REMASTER_DONE true (pm_remaster_inst m) false pm tbl (target_part_map m)
          (target_inst_part_tbl m) (remaster_task_set m) (task_num m) (tmp_part_map m) (tmp_inst_part_tbl m)).

(** ** Moving partitions

    What the two rebalancing functions work on: the target map and table and
    the list of tasks. *)
Record rebalance := mk_reb {
  rb_map : gmap Z drc_part;
  rb_tbl : gmap Z drc_inst_part;
  rb_tasks : gmap Z drc_remaster_task;
  rb_num : Z;
}.

Definition rb_set_tbl (t : gmap Z drc_inst_part) (s : rebalance) : rebalance := mk_reb (rb_map s) t (rb_tasks s) (rb_num s).

(** [n] tasks are made for the head of the list of instance [inst], found by
    following [pm] from [current]: the partition where the walk ends. *)
Fixpoint export_loop (n : nat) (pm : gmap Z drc_part) (inst current : Z) (s : rebalance) : outcome (Z * rebalance) :=
  match n with
  | O => Ok (current, s)
  | S n' =>
      tasks ← wr (rb_tasks s) (rb_num s) (fun t => mk_task inst (tk_import t) current (tk_status t));
      p ← rd pm current;
      export_loop n' pm inst (pt_next p) (mk_reb (rb_map s) (rb_tbl s) tasks (u32 (rb_num s + 1)))
  end.

(** [drc_set_remaster_taskset_export_inst]. *)
Definition drc_set_remaster_taskset_export_inst (inst : Z) (s : rebalance) : outcome rebalance :=
  e ← rd (rb_tbl s) inst;
  if ip_expected e <? ip_count e then
    '(current, s) ← export_loop (Z.to_nat (ip_count e - ip_expected e)) (rb_map s) inst (ip_first e) s;
    tbl ← wr (rb_tbl s) inst (fun e => ip_set_count (ip_expected e) (ip_set_first current e));
    Ok (rb_set_tbl tbl s)
  else Ok s.

(** The share of the [seq]-th instance out of [inst_num]. *)
Definition quota (inst_num seq : Z) : Z :=
  if seq <? DRC_MAX_PART_NUM mod inst_num then DRC_MAX_PART_NUM / inst_num + 1 else DRC_MAX_PART_NUM / inst_num.

(** The loop of [drc_set_remaster_taskset], from instance [i] on. *)
Fixpoint taskset_loop (n : nat) (i seq inst_num : Z) (s : rebalance) : outcome rebalance :=
  match n with
  | O => Ok s
  | S n' =>
      e ← rd (rb_tbl s) i;
      if ip_used e then
        tbl ← wr (rb_tbl s) i (ip_set_expected (quota inst_num seq));
        s ← drc_set_remaster_taskset_export_inst i (rb_set_tbl tbl s);
        taskset_loop n' (i + 1) (seq + 1) inst_num s
      else taskset_loop n' (i + 1) seq inst_num s
  end.

(** [drc_set_remaster_taskset]. *)
Definition drc_set_remaster_taskset (inst_num : Z) (s : rebalance) : outcome rebalance :=
  taskset_loop (Z.to_nat OG_MAX_INSTANCES) 0 0 inst_num s.

(** The loop of [drc_set_remaster_taskset_drc_in_reformer_mode]. *)
Fixpoint reformer_loop (n : nat) (i remaster_inst : Z) (s : rebalance) : outcome rebalance :=
  match n with
  | O => Ok s
  | S n' =>
      e ← rd (rb_tbl s) i;
      if ip_used e then
        tbl ← wr (rb_tbl s) i (ip_set_expected (if remaster_inst =? i then DRC_MAX_PART_NUM else 0));
        s ← drc_set_remaster_taskset_export_inst i (rb_set_tbl tbl s);
        reformer_loop n' (i + 1) remaster_inst s
      else reformer_loop n' (i + 1) remaster_inst s
  end.
Definition drc_set_remaster_taskset_drc_in_reformer_mode (remaster_inst : Z) (s : rebalance) : outcome rebalance :=
  reformer_loop (Z.to_nat OG_MAX_INSTANCES) 0 remaster_inst s.

(** Task [i] is given to instance [inst], whose list its partition heads from
    now on: the body both import loops end with. *)
Definition import_task (i inst : Z) (st : drc_part_status) (s : rebalance) : outcome rebalance :=
  tasks ← wr (rb_tasks s) i (fun t => mk_task (tk_export t) inst (tk_part t) st);
  t ← rd tasks i;
  let part := tk_part t in
  e ← rd (rb_tbl s) inst;
  pm ← wr (rb_map s) part (fun _ => mk_part inst st (ip_first e));
  tbl ← wr (rb_tbl s) inst (fun e =>
          ip_set_count (ip_count e + 1)
            ((if ip_count e =? 0 then ip_set_last part else id) (ip_set_first part e)));
  Ok (mk_reb pm tbl tasks (rb_num s)).

(** The import loop of [drc_scaleout_remaster]: tasks from [i] on go to the
    new instances in turn. *)
Fixpoint scaleout_loop (n : nat) (i loop : Z) (news : list Z) (s : rebalance) : outcome rebalance :=
  match n with
  | O => Ok s
  | S n' =>
      x ← arg news loop;
      e ← rd (rb_tbl s) x;
      let loop := if ip_expected e <=? ip_count e then loop + 1 else loop in
      x ← arg news loop;
      s ← import_task i x PART_WAIT_MIGRATE s;
      scaleout_loop n' (i + 1) loop news s
  end.

(** [Ok false] when one of the instances is, or is not, in use. *)
Fixpoint all_used (used : bool) (ids : list Z) (tbl : gmap Z drc_inst_part) : outcome bool :=
  match ids with
  | [] => Ok true
  | x :: ids' => e ← rd tbl x; if Bool.eqb (ip_used e) used then all_used used ids' tbl else Ok false
  end.

(** [inst_part_entry[id].is_used = ..] for a list of instances. *)
Fixpoint mark_used (f : drc_inst_part -> drc_inst_part) (ids : list Z) (tbl : gmap Z drc_inst_part) :
    outcome (gmap Z drc_inst_part) :=
  match ids with
  | [] => Ok tbl
  | x :: ids' => tbl ← wr tbl x f; mark_used f ids' tbl
  end.

Definition mngr_rebalance (m : drc_part_mngr) : rebalance :=
  mk_reb (target_part_map m) (target_inst_part_tbl m) (remaster_task_set m) (task_num m).
Definition set_rebalance (inst_num : Z) (s : rebalance) (m : drc_part_mngr) : drc_part_mngr :=
  mk_mngr (pm_version m) (pm_inited m) (u8 inst_num) (pm_remaster_status m) (pm_is_reentrant m) (pm_remaster_inst m)
    (pm_mgrt_fail_list m) (part_map m) (inst_part_tbl m) (rb_map s) (rb_tbl s) (rb_tasks s) (rb_num s)
    (tmp_part_map m) (tmp_inst_part_tbl m).

(** [drc_scaleout_remaster]; [reformer_mode] says that the control version
    and the parameter [drc_in_reformer_mode] put every partition on the
    reformer. *)
Definition drc_scaleout_remaster (reformer_mode : bool) (news : list Z) (m : drc_part_mngr) :
    outcome (status * drc_part_mngr) :=
  if bool_decide (news = []) then Ok (OG_SUCCESS, m)
  else
    ok ← all_used false news (inst_part_tbl m);
    panic_unless ok ;;
    let inst_num := Z.of_nat (length news) + pm_inst_num m in
    tbl ← mark_used (fun e => ip_set_count 0 (ip_set_used true e)) news (target_inst_part_tbl m);
    let s := rb_set_tbl tbl (mngr_rebalance m) in
    s ← (if reformer_mode then drc_set_remaster_taskset_drc_in_reformer_mode (pm_remaster_inst m) s
         else drc_set_remaster_taskset inst_num s);
    s ← scaleout_loop (Z.to_nat (rb_num s)) 0 0 news s;
    Ok (OG_SUCCESS, set_rebalance inst_num s m).

(** The first loop of [drc_scalein_remaster], from instance [i] on: shares
    for those that stay, tasks for the partitions of the others. *)
Fixpoint scalein_export (n : nat) (i seq inst_num : Z) (pm : gmap Z drc_part) (s : rebalance) : outcome rebalance :=
  match n with
  | O => Ok s
  | S n' =>
      e ← rd (rb_tbl s) i;
      if ip_used e then
        tbl ← wr (rb_tbl s) i (ip_set_expected (quota inst_num seq));
        scalein_export n' (i + 1) (seq + 1) inst_num pm (rb_set_tbl tbl s)
      else if 0 <? ip_count e then
        '(_, s) ← export_loop (Z.to_nat (ip_count e)) pm i (ip_first e) s;
        tbl ← wr (rb_tbl s) i (ip_set_count 0);
        scalein_export n' (i + 1) seq inst_num pm (rb_set_tbl tbl s)
      else scalein_export n' (i + 1) seq inst_num pm s
  end.

(** The next instance in use that has less than its share, from [loop] on;
    past the table the read is out of bounds. *)
Fixpoint find_room (n : nat) (loop : Z) (tbl : gmap Z drc_inst_part) : outcome Z :=
  match n with
  | O => Crash BadAddr
  | S n' =>
      e ← rd tbl loop;
      if negb (ip_used e) || (ip_expected e <=? ip_count e) then find_room n' (loop + 1) tbl else Ok loop
  end.

(** The import loop of [drc_scalein_remaster]. *)
Fixpoint scalein_import (n : nat) (i loop : Z) (st : drc_part_status) (s : rebalance) : outcome rebalance :=
  match n with
  | O => Ok s
  | S n' =>
      loop ← find_room (Z.to_nat OG_MAX_INSTANCES + 1) loop (rb_tbl s);
      s ← import_task i loop st s;
      scalein_import n' (i + 1) loop st s
  end.

(** [drc_scalein_remaster]. *)
Definition drc_scalein_remaster (dels : list Z) (is_abort : bool) (m : drc_part_mngr) : outcome (status * drc_part_mngr) :=
  panic_unless negb (bool_decide (dels = []) || (pm_inst_num m <=? Z.of_nat (length dels))) ;;
  ok ← all_used true dels (inst_part_tbl m);
  panic_unless ok ;;
  let inst_num := pm_inst_num m - Z.of_nat (length dels) in
  tbl ← mark_used (fun e => ip_set_expected 0 (ip_set_used false e)) dels (target_inst_part_tbl m);
  let start := task_num m in
  s ← scalein_export (Z.to_nat OG_MAX_INSTANCES) 0 0 inst_num (part_map m) (rb_set_tbl tbl (mngr_rebalance m));
  s ← scalein_import (Z.to_nat (rb_num s - start)) start 0 (if is_abort then PART_WAIT_RECOVERY else PART_WAIT_MIGRATE) s;
  Ok (OG_SUCCESS,
      set_rebalance inst_num (if is_abort then mk_reb (rb_map s) (rb_tbl s) (rb_tasks s) start else s) m).

(** [drc_int_remaster_target]. *)
Definition drc_int_remaster_target (m : drc_part_mngr) : drc_part_mngr :=
  mk_mngr (pm_version m) (pm_inited m) (pm_inst_num m) (pm_remaster_status m) (pm_is_reentrant m) (pm_remaster_inst m)
    (pm_mgrt_fail_list m) (part_map m) (inst_part_tbl m) (part_map m) (inst_part_tbl m) (remaster_task_set m) 0
    (part_map m) (inst_part_tbl m).

(** The lists of a reform that [drc_execute_remaster] reads. *)
Record reform_lists := mk_rlists { rl_join : list Z; rl_leave : list Z; rl_abort : list Z; rl_fail : list Z }.

(** The rebalancing step of [drc_execute_remaster], up to the assignment of
    the tasks to the instances. *)
Definition execute_rebalance (reformer_mode : bool) (r : reform_lists) (m : drc_part_mngr) :
    outcome (status * drc_part_mngr) :=
  let m := drc_int_remaster_target m in
  '(_, m) ← (if bool_decide (rl_join r = []) then Ok (OG_SUCCESS, m) else drc_scaleout_remaster reformer_mode (rl_join r) m);
  '(_, m) ← (if bool_decide (rl_leave r = []) then Ok (OG_SUCCESS, m) else drc_scalein_remaster (rl_leave r) false m);
  '(_, m) ← (if pm_mgrt_fail_list m && negb (bool_decide (rl_abort r = []))
             then drc_scalein_remaster (rl_abort r) true m else Ok (OG_SUCCESS, m));
  '(_, m) ← (if pm_mgrt_fail_list m && negb (bool_decide (rl_fail r = []))
             then drc_scalein_remaster (rl_fail r) true m else Ok (OG_SUCCESS, m));
  Ok (OG_SUCCESS, m).

(** [drc_update_target_part]: the assignment that the reformer broadcasts
    becomes the current one. *)
Definition drc_update_target_part (map : gmap Z drc_part) (tbl : gmap Z drc_inst_part) (m : drc_part_mngr) : drc_part_mngr :=
  mk_mngr (pm_version m) (pm_inited m) (pm_inst_num m) (pm_remaster_status m) (pm_is_reentrant m) (pm_remaster_inst m)
    (pm_mgrt_fail_list m) map tbl (target_part_map m) (target_inst_part_tbl m)
    (remaster_task_set m) (task_num m) (tmp_part_map m) (tmp_inst_part_tbl m).

(** [DRC_PART_MASTER_ID] and [drc_get_page_master_id] by partition. *)
Definition part_master (m : drc_part_mngr) (part : Z) : outcome Z := p ← rd (part_map m) part; Ok (pt_inst p).
Definition drc_get_part_master_id (m : drc_part_mngr) (part : Z) : outcome (option Z) :=
  x ← part_master m part; Ok (if x =? OG_INVALID_ID8 then None else Some x).
