(* ===== verification/DrcPartInv.v ===== *)
(** What the map of partitions and the table of instances stand for: every
    partition is on the list of exactly one instance, and the shares of the
    instances are as even as they can be.  Every step of a rebalancing keeps
    the lists, with the partitions under way apart. *)

From S2P Require Import Prelude DrcBitmap DrcGlobalRes DrcReform DrcPart.

(** ** Sums over the instances *)
Fixpoint zsum (f : Z -> Z) (l : list Z) : Z := match l with [] => 0 | x :: l' => f x + zsum f l' end.
Definition len {A} (l : list A) : Z := Z.of_nat (length l).

Lemma zsum_ext f g l : (forall x, x ∈ l -> f x = g x) -> zsum f l = zsum g l.
Proof.
  induction l as [|x l IH]; cbn; [done|]. intros E.
  rewrite (E x) by set_solver. rewrite IH; [done|]. intros y Hy. apply E. set_solver.
Qed.

Lemma zsum_add f g l : zsum (fun x => f x + g x) l = zsum f l + zsum g l.
Proof. induction l as [|x l IH]; cbn; lia. Qed.

Lemma zsum_nonneg f l : (forall x, x ∈ l -> 0 <= f x) -> 0 <= zsum f l.
Proof.
  induction l as [|x l IH]; cbn; [lia|]. intros H. specialize (H x ltac:(set_solver)) as Hx.
  assert (0 <= zsum f l) by (apply IH; set_solver). lia.
Qed.

(** A sum of non-negative terms that is 0 has no other terms. *)
Lemma zsum_zero f l x : (forall y, y ∈ l -> 0 <= f y) -> zsum f l = 0 -> x ∈ l -> f x = 0.
Proof.
  induction l as [|y l IH]; [set_solver|]. cbn. intros H E Hx.
  pose proof (H y ltac:(set_solver)). assert (0 <= zsum f l) by (apply zsum_nonneg; set_solver).
  apply elem_of_cons in Hx as [->|Hx]; [lia|]. apply IH; [set_solver|lia|done].
Qed.

Lemma zsum_pos f l : 0 < zsum f l -> exists x, x ∈ l /\ 0 < f x.
Proof.
  induction l as [|y l IH]; cbn; [lia|]. intros H. destruct (decide (0 < f y)); [exists y; set_solver|].
  destruct IH as (x & ? & ?); [lia|]. exists x. set_solver.
Qed.

Lemma zsum_upd f l y v :
  NoDup l -> y ∈ l -> zsum (fun x => if decide (x = y) then v else f x) l = zsum f l - f y + v.
Proof.
  induction 1 as [|x l Hx Hl IH]; [set_solver|]. cbn. intros [->|Hy]%elem_of_cons.
  - rewrite decide_True by done. rewrite (zsum_ext _ f); [lia|].
    intros z Hz. rewrite decide_False; [done|]. by intros ->.
  - rewrite decide_False by (by intros ->). rewrite IH by done. lia.
Qed.

Lemma len_concat {A} (f : Z -> list A) l : len (concat (f <$> l)) = zsum (fun x => len (f x)) l.
Proof. induction l as [|x l IH]; cbn; [done|]. unfold len in *. rewrite length_app. lia. Qed.

Lemma elem_of_concat_fmap {A} (f : Z -> list A) l a : a ∈ concat (f <$> l) <-> exists x, x ∈ l /\ a ∈ f x.
Proof.
  induction l as [|y l IH]; cbn; [split; [set_solver|intros (x & ? & _); set_solver]|].
  rewrite elem_of_app, IH. split.
  - intros [?|(x & ? & ?)]; [exists y; set_solver|exists x; set_solver].
  - intros (x & [->|?]%elem_of_cons & ?); [by left|right; eauto].
Qed.

Lemma concat_app_perm {A} (f g : Z -> list A) l :
  concat (f <$> l) ++ concat (g <$> l) ≡ₚ concat ((fun x => f x ++ g x) <$> l).
Proof.
  induction l as [|x l IH]; cbn; [done|]. rewrite <- IH. rewrite <- !app_assoc. apply Permutation_app_head.
  rewrite !app_assoc. apply Permutation_app_tail, Permutation_app_comm.
Qed.

Lemma concat_upd {A} (f : Z -> list A) l y v :
  NoDup l -> y ∈ l -> concat ((fun x => if decide (x = y) then v ++ f x else f x) <$> l) ≡ₚ v ++ concat (f <$> l).
Proof.
  induction 1 as [|x l Hx Hl IH]; [set_solver|]. cbn. intros [->|Hy]%elem_of_cons.
  - rewrite decide_True by done. rewrite <- app_assoc. do 2 apply Permutation_app_head.
    replace ((fun x0 => if decide (x0 = x) then v ++ f x0 else f x0) <$> l) with (f <$> l); [done|].
    apply list_fmap_ext. intros i z Hz%list_elem_of_lookup_2. rewrite decide_False; [done|]. by intros ->.
  - rewrite decide_False by (by intros ->). rewrite IH by done. rewrite !app_assoc.
    apply Permutation_app_tail, Permutation_app_comm.
Qed.

Lemma NoDup_concat_disj {A} (f : Z -> list A) l x y a :
  NoDup (concat (f <$> l)) -> x ∈ l -> y ∈ l -> a ∈ f x -> a ∈ f y -> x = y.
Proof.
  induction l as [|z l IH]; [set_solver|]. cbn. intros (N1 & N2 & D)%NoDup_app_elim Hx Hy Ax Ay.
  apply elem_of_cons in Hx as [->|Hx], Hy as [->|Hy]; [done| | |by apply IH];
    exfalso; eapply D; [done|apply elem_of_concat_fmap; eauto|done|apply elem_of_concat_fmap; eauto].
Qed.

(** ** Ranks and shares *)
Definition ids : list Z := seqZ 0 OG_MAX_INSTANCES.
Definition all_parts : list Z := seqZ 0 DRC_MAX_PART_NUM.

Lemma elem_of_ids x : x ∈ ids <-> is_inst x.
Proof. unfold ids, is_inst. rewrite elem_of_seqZ. lia. Qed.
Lemma NoDup_ids : NoDup ids.
Proof. apply NoDup_seqZ. Qed.

(** The number of instances in use below [x]. *)
Definition rank (used : Z -> bool) (x : Z) : Z := zsum (fun y => if used y then 1 else 0) (seqZ 0 x).

Lemma seqZ_snoc x : 0 <= x -> seqZ 0 (x + 1) = seqZ 0 x ++ [x].
Proof. intros H. rewrite seqZ_app by lia. done. Qed.

Lemma zsum_app f l k : zsum f (l ++ k) = zsum f l + zsum f k.
Proof. induction l as [|x l IH]; cbn; lia. Qed.

Lemma rank_0 used : rank used 0 = 0.
Proof. done. Qed.
Lemma rank_succ used x : 0 <= x -> rank used (x + 1) = rank used x + if used x then 1 else 0.
Proof. intros H. unfold rank. rewrite seqZ_snoc, zsum_app by done. cbn. lia. Qed.
Lemma rank_nonneg used x : 0 <= rank used x.
Proof. apply zsum_nonneg. intros y _. by destruct (used y). Qed.

Lemma rank_mono used used' x : (forall y, used y = true -> used' y = true) -> rank used x <= rank used' x.
Proof.
  intros H. unfold rank. generalize (seqZ 0 x). induction l as [|y l IH]; cbn; [done|].
  specialize (H y). destruct (used y), (used' y); naive_solver lia.
Qed.

Lemma rank_le used x y : 0 <= x <= y -> rank used x <= rank used y.
Proof.
  intros H. unfold rank. replace y with (x + (y - x)) by lia. rewrite seqZ_app by lia. rewrite zsum_app.
  assert (0 <= zsum (fun z => if used z then 1 else 0) (seqZ (0 + x) (y - x))); [|lia].
  apply zsum_nonneg. intros z _. by destruct (used z).
Qed.

Lemma rank_lt used x y : 0 <= x < y -> used x = true -> rank used x < rank used y.
Proof.
  intros H Hx. pose proof (rank_le used (x + 1) y ltac:(lia)). rewrite rank_succ, Hx in H0 by lia. lia.
Qed.

Lemma rank_bound used x : 0 <= x -> rank used x <= x.
Proof.
  intros Hx. unfold rank. assert (zsum (fun y => if used y then 1 else 0) (seqZ 0 x) <= len (seqZ 0 x)) as H.
  { unfold len. induction (seqZ 0 x) as [|y l IH]; cbn [zsum length]; [lia|].
    destruct (used y); lia. }
  unfold len in H. rewrite length_seqZ in H. lia.
Qed.

Lemma quota_range n j : 0 < n -> 0 <= quota n j <= DRC_MAX_PART_NUM + 1.
Proof.
  intros Hn. unfold quota. assert (0 <= DRC_MAX_PART_NUM / n <= DRC_MAX_PART_NUM).
  { split; [by apply Z.div_pos|]. apply Z.div_le_upper_bound; unfold DRC_MAX_PART_NUM in *; lia. }
  case_match; lia.
Qed.

Lemma quota_pos n j : 0 < n <= OG_MAX_INSTANCES -> 0 < quota n j.
Proof.
  intros Hn. unfold quota. assert (1 <= DRC_MAX_PART_NUM / n).
  { apply Z.div_le_lower_bound; unfold DRC_MAX_PART_NUM, OG_MAX_INSTANCES in *; lia. }
  case_match; lia.
Qed.

(** More instances, or a later place among them, never mean a larger share. *)
Lemma quota_mono n1 n2 j1 j2 : 0 < n1 <= n2 -> j1 <= j2 -> quota n2 j2 <= quota n1 j1.
Proof.
  intros Hn Hj. unfold quota.
  pose proof (Z.div_mod DRC_MAX_PART_NUM n1 ltac:(lia)) as D1. pose proof (Z.div_mod DRC_MAX_PART_NUM n2 ltac:(lia)) as D2.
  assert (0 <= DRC_MAX_PART_NUM / n2 <= DRC_MAX_PART_NUM / n1) as Hd.
  { split; [by apply Z.div_pos; [|lia]|]. apply Z.div_le_compat_l; unfold DRC_MAX_PART_NUM; lia. }
  destruct (decide (DRC_MAX_PART_NUM / n2 = DRC_MAX_PART_NUM / n1)) as [E|E].
  - rewrite E in *. pose proof (Z.mul_le_mono_nonneg_r n1 n2 (DRC_MAX_PART_NUM / n1) ltac:(lia) ltac:(lia)).
    repeat case_match; lia.
  - repeat case_match; lia.
Qed.

(** The shares of the instances below [x]. *)
Lemma quota_sum (used : Z -> bool) n x :
  0 <= x -> zsum (fun y => if used y then quota n (rank used y) else 0) (seqZ 0 x) =
  DRC_MAX_PART_NUM / n * rank used x + Z.min (rank used x) (Z.max 0 (DRC_MAX_PART_NUM mod n)).
Proof.
  intros Hx. pattern x. apply natlike_ind; [|clear x Hx|done].
  { rewrite rank_0, Z.mul_0_r. change (seqZ 0 0) with (@nil Z). cbn [zsum]. lia. }
  intros x Hx IH. unfold Z.succ. rewrite seqZ_snoc, zsum_app, IH, rank_succ by done. cbn [zsum].
  pose proof (rank_nonneg used x). destruct (used x); unfold quota; repeat case_match; nia.
Qed.

Lemma quota_total (used : Z -> bool) n :
  rank used OG_MAX_INSTANCES = n -> 0 < n ->
  zsum (fun y => if used y then quota n (rank used y) else 0) ids = DRC_MAX_PART_NUM.
Proof.
  intros Hr Hn. unfold ids. rewrite quota_sum, Hr by (unfold OG_MAX_INSTANCES; lia).
  pose proof (Z.div_mod DRC_MAX_PART_NUM n). pose proof (Z.mod_pos_bound DRC_MAX_PART_NUM n). nia.
Qed.

(** ** Lists of partitions *)

(** Following [pm] from [h] one visits the partitions of [l]. *)
Fixpoint plist (pm : gmap Z drc_part) (h : Z) (l : list Z) : Prop :=
  match l with
  | [] => True
  | i :: l' => h = i /\ exists p, pm !! i = Some p /\ plist pm (pt_next p) l'
  end.

Lemma plist_frame pm pm' h l :
  (forall i p, i ∈ l -> pm !! i = Some p -> exists p', pm' !! i = Some p' /\ pt_next p' = pt_next p) ->
  plist pm h l -> plist pm' h l.
Proof.
  revert h. induction l as [|i l IH]; intros h Hf; cbn; [done|]. intros [-> (p & Hp & Hl)]. split; [done|].
  destruct (Hf i p ltac:(set_solver) Hp) as (p' & Hp' & En). exists p'. split; [done|]. rewrite En.
  apply IH; [|done]. intros j q Hj. apply Hf. set_solver.
Qed.

(** The partitions and the lists of the instances; [lim] are the partitions
    on no list. *)
Record lists_ok (pm : gmap Z drc_part) (tbl : gmap Z drc_inst_part) (ls : Z -> list Z) (lim : list Z) : Prop := {
  lo_entry : forall x, is_inst x -> exists e, tbl !! x = Some e /\ ip_count e = len (ls x) /\ plist pm (ip_first e) (ls x);
  lo_whole : lim ++ concat (ls <$> ids) ≡ₚ all_parts;
  lo_owner : forall x p, is_inst x -> p ∈ ls x -> exists q, pm !! p = Some q /\ pt_inst q = x;
}.

Definition used_of (tbl : gmap Z drc_inst_part) (x : Z) : bool := default false (ip_used <$> tbl !! x).
Definition expected_of (tbl : gmap Z drc_inst_part) (x : Z) : Z := default 0 (ip_expected <$> tbl !! x).

Lemma lists_nodup pm tbl ls lim : lists_ok pm tbl ls lim -> NoDup (lim ++ concat (ls <$> ids)).
Proof. intros L. rewrite (lo_whole _ _ _ _ L). apply NoDup_seqZ. Qed.

Lemma lists_disj pm tbl ls lim x y p :
  lists_ok pm tbl ls lim -> is_inst x -> is_inst y -> p ∈ ls x -> p ∈ ls y -> x = y.
Proof.
  intros L Hx Hy. pose proof (lists_nodup _ _ _ _ L) as (_ & N & _)%NoDup_app_elim.
  apply NoDup_concat_disj with (l := ids); [done|by apply elem_of_ids..].
Qed.

Lemma lists_lim_out pm tbl ls lim x p : lists_ok pm tbl ls lim -> is_inst x -> p ∈ lim -> p ∉ ls x.
Proof.
  intros L Hx Hp Hq. pose proof (lists_nodup _ _ _ _ L) as (_ & _ & D)%NoDup_app_elim. apply (D p Hp).
  apply elem_of_concat_fmap. exists x. split; [by apply elem_of_ids|done].
Qed.

Lemma lists_part pm tbl ls lim p :
  lists_ok pm tbl ls lim -> 0 <= p < DRC_MAX_PART_NUM -> p ∈ lim \/ exists x, is_inst x /\ p ∈ ls x.
Proof.
  intros L Hp. assert (p ∈ lim ++ concat (ls <$> ids)) as H.
  { rewrite (lo_whole _ _ _ _ L). unfold all_parts. rewrite elem_of_seqZ. lia. }
  apply elem_of_app in H as [H|H]; [by left|right]. apply elem_of_concat_fmap in H as (x & Hx & ?).
  exists x. split; [by apply elem_of_ids|done].
Qed.

Lemma lists_range pm tbl ls lim p :
  lists_ok pm tbl ls lim -> (p ∈ lim \/ exists x, is_inst x /\ p ∈ ls x) -> 0 <= p < DRC_MAX_PART_NUM.
Proof.
  intros L Hp. assert (p ∈ all_parts) as H.
  { rewrite <- (lo_whole _ _ _ _ L), elem_of_app, elem_of_concat_fmap. destruct Hp as [?|(x & ? & ?)]; [by left|right].
    exists x. split; [by apply elem_of_ids|done]. }
  unfold all_parts in H. rewrite elem_of_seqZ in H. lia.
Qed.

Lemma lists_total pm tbl ls lim :
  lists_ok pm tbl ls lim -> len lim + zsum (fun x => len (ls x)) ids = DRC_MAX_PART_NUM.
Proof.
  intros L. pose proof (Permutation_length (lo_whole _ _ _ _ L)) as H. rewrite length_app in H.
  rewrite <- len_concat. unfold len in *. unfold all_parts in H. rewrite length_seqZ in H. unfold DRC_MAX_PART_NUM in *. lia.
Qed.

Lemma lists_len pm tbl ls lim x : lists_ok pm tbl ls lim -> is_inst x -> 0 <= len (ls x) <= DRC_MAX_PART_NUM.
Proof.
  intros L Hx. pose proof (lists_total _ _ _ _ L) as H. unfold len. split; [lia|].
  assert (0 <= zsum (fun y => if decide (y = x) then 0 else len (ls y)) ids) as H1.
  { apply zsum_nonneg. intros y _. unfold len. case_decide; lia. }
  rewrite (zsum_upd (fun y => len (ls y)) ids x 0) in H1 by (apply NoDup_ids || by apply elem_of_ids).
  unfold len in *. lia.
Qed.
