(* ===== verification/DrcPartThm.v ===== *)
(** Rebalancing the partitions: the export of partitions to tasks and the
    import of the tasks keep every partition on exactly one list, and the
    functions that join and remove instances end with even shares. *)

From S2P Require Import Prelude DrcBitmap DrcGlobalRes DrcReform DrcPart DrcPartInv.

(** ** The list of tasks *)

(** From [start] on the tasks are those of [tl]: partition and exporter. *)
Record tasks_rep (tasks : gmap Z drc_remaster_task) (start num : Z) (tl : list (Z * Z)) : Prop := {
  tp_num : num = start + len tl;
  tp_start : 0 <= start;
  tp_dom : forall j, 0 <= j < DRC_MAX_PART_NUM -> is_Some (tasks !! j);
  tp_task : forall j p x, tl !! j = Some (p, x) -> exists t, tasks !! (start + Z.of_nat j) = Some t /\
    tk_part t = p /\ tk_export t = x;
}.

Lemma tasks_rep_snoc tasks start num tl p x t :
  tasks_rep tasks start num tl -> num < DRC_MAX_PART_NUM -> tk_part t = p -> tk_export t = x ->
  tasks_rep (<[num := t]> tasks) start (num + 1) (tl ++ [(p, x)]).
Proof.
  intros [Hn Hs Hd Ht] Hb Hp Hx. split; [|done| |].
  - rewrite Hn. unfold len. rewrite length_app. cbn. lia.
  - intros j Hj. rewrite lookup_insert_is_Some'. right. by apply Hd.
  - intros j q y Hj. apply lookup_snoc_Some in Hj as [[Hl Hj]|[-> [= -> ->]]].
    + rewrite lookup_insert_ne by (unfold len in Hn; lia). eauto.
    + exists t. split; [|done]. rewrite Hn. unfold len. by rewrite lookup_insert_eq.
Qed.

Lemma export_loop_ok pm inst start l : forall r tl cur s,
  plist pm cur (l ++ r) -> tasks_rep (rb_tasks s) start (rb_num s) tl ->
  rb_num s + len l <= DRC_MAX_PART_NUM ->
  exists cur' tasks', export_loop (length l) pm inst cur s =
      Ok (cur', mk_reb (rb_map s) (rb_tbl s) tasks' (rb_num s + len l)) /\ plist pm cur' r /\
    tasks_rep tasks' start (rb_num s + len l) (tl ++ ((fun p => (p, inst)) <$> l)) /\
    forall j, j < start -> tasks' !! j = rb_tasks s !! j.
Proof.
  induction l as [|p l IH]; intros r tl cur s Hl T Hb.
  { exists cur, (rb_tasks s). cbn. rewrite app_nil_r, Z.add_0_r. by destruct s. }
  cbn in Hl. destruct Hl as [-> (q & Hq & Hl)]. cbn [length export_loop].
  unfold len in Hb. cbn [length] in Hb. pose proof (tp_num _ _ _ _ T) as Hn. pose proof (tp_start _ _ _ _ T) as Hs.
  destruct (tp_dom _ _ _ _ T (rb_num s)) as [t Ht]; [unfold len in *; lia|].
  unfold wr, rd. rewrite Ht, Hq. cbn [mbind outcome_bind].
  assert (u32 (rb_num s + 1) = rb_num s + 1) as Hu.
  { unfold u32. rewrite Z.mod_small; unfold len, DRC_MAX_PART_NUM in *; lia. }
  rewrite Hu. set (s1 := mk_reb _ _ _ _).
  destruct (IH r (tl ++ [(p, inst)]) (pt_next q) s1 Hl) as (cur' & tasks' & E & Hr & T' & Hbelow).
  - cbn. apply tasks_rep_snoc; try done. unfold len in *. lia.
  - cbn. unfold len. lia.
  - exists cur', tasks'. rewrite E. cbn [rb_num rb_map rb_tbl s1] in *.
    replace (rb_num s + len (p :: l)) with (rb_num s + 1 + len l) by (unfold len; cbn [length]; lia).
    split; [done|]. split; [done|]. split; [by rewrite <- app_assoc in T'|].
    intros j Hj. rewrite Hbelow by done. cbn. rewrite lookup_insert_ne; [done|]. unfold len in *. lia.
Qed.

(** ** Exporting

    The first [k x] partitions of the list of [x] are exported, for every
    instance in turn. *)
Section Exporting.
Context (pm : gmap Z drc_part) (ls0 : Z -> list Z) (used : Z -> bool) (k : Z -> nat) (E : Z -> Z) (start : Z).

Definition kept_list (i x : Z) : list Z := if x <? i then drop (k x) (ls0 x) else ls0 x.
Definition moved (x : Z) : list (Z * Z) := (fun p => (p, x)) <$> take (k x) (ls0 x).
Definition exported (i : Z) : list (Z * Z) := concat (moved <$> seqZ 0 i).

Record export_inv (tasks0 : gmap Z drc_remaster_task) (i : Z) (s : rebalance) : Prop := {
  ei_map : rb_map s = pm;
  ei_entry : forall x, is_inst x -> exists e, rb_tbl s !! x = Some e /\ ip_used e = used x /\
    ip_count e = len (kept_list i x) /\ plist pm (ip_first e) (kept_list i x) /\
    (x < i -> used x = true -> ip_expected e = E x);
  ei_tasks : tasks_rep (rb_tasks s) start (rb_num s) (exported i);
  ei_below : forall j, j < start -> rb_tasks s !! j = tasks0 !! j;
}.

Lemma exported_snoc i : 0 <= i -> exported (i + 1) = exported i ++ moved i.
Proof.
  intros Hi. unfold exported. rewrite seqZ_snoc by done. rewrite fmap_app, concat_app. cbn. by rewrite app_nil_r.
Qed.

Lemma kept_list_succ i x : x <> i -> kept_list (i + 1) x = kept_list i x.
Proof. intros Hx. unfold kept_list. by replace (x <? i + 1) with (x <? i) by lia. Qed.
Lemma kept_list_now i : kept_list (i + 1) i = drop (k i) (ls0 i) /\ kept_list i i = ls0 i.
Proof. unfold kept_list. replace (i <? i + 1) with true by lia. by rewrite Z.ltb_irrefl. Qed.

(** What happens to instance [i] is all that changes. *)
Lemma export_inv_step tasks0 i s s' e :
  is_inst i -> export_inv tasks0 i s -> rb_map s' = pm -> rb_tbl s' = <[i := e]> (rb_tbl s) ->
  ip_used e = used i -> ip_count e = len (drop (k i) (ls0 i)) -> plist pm (ip_first e) (drop (k i) (ls0 i)) ->
  (used i = true -> ip_expected e = E i) ->
  tasks_rep (rb_tasks s') start (rb_num s') (exported i ++ moved i) ->
  (forall j, j < start -> rb_tasks s' !! j = rb_tasks s !! j) ->
  export_inv tasks0 (i + 1) s'.
Proof.
  intros Hi I Hm Ht Hu Hc Hl He T Hb. split; [done| | |].
  - intros x Hx. rewrite Ht. destruct (decide (x = i)) as [->|Hne].
    + rewrite lookup_insert_eq. exists e. rewrite (proj1 (kept_list_now i)). split_and!; done.
    + rewrite lookup_insert_ne, kept_list_succ by done. destruct (ei_entry _ _ _ I x Hx) as (e' & ? & ? & ? & ? & Hex).
      exists e'. split_and!; try done. intros ?. apply Hex. lia.
  - rewrite exported_snoc by apply Hi. done.
  - intros j Hj. rewrite Hb by done. by apply (ei_below _ _ _ I).
Qed.

(** Nothing is exported from [i]. *)
Lemma export_inv_skip tasks0 i s s' e :
  is_inst i -> export_inv tasks0 i s -> k i = O -> rb_map s' = pm -> rb_tbl s' = <[i := e]> (rb_tbl s) ->
  rb_tasks s' = rb_tasks s -> rb_num s' = rb_num s ->
  (exists e0, rb_tbl s !! i = Some e0 /\ ip_used e = ip_used e0 /\ ip_count e = ip_count e0 /\ ip_first e = ip_first e0) ->
  (used i = true -> ip_expected e = E i) -> export_inv tasks0 (i + 1) s'.
Proof.
  intros Hi I Hk Hm Ht Hts Hn (e0 & He0 & Hu & Hc & Hf) He.
  destruct (ei_entry _ _ _ I i Hi) as (e' & He' & Hu' & Hc' & Hl' & _). assert (e' = e0) as -> by congruence.
  rewrite (proj2 (kept_list_now i)) in Hc', Hl'.
  assert (moved i = []) as Hm0 by (unfold moved; by rewrite Hk, take_0).
  eapply (export_inv_step tasks0 i s s' e); try done; rewrite ?Hk, ?drop_0, ?Hm0, ?app_nil_r, ?Hts, ?Hn; try congruence; try done.
  apply I.
Qed.

(** The head of the list of [i] is exported. *)
Lemma export_inv_move tasks0 i s cur e :
  is_inst i -> export_inv tasks0 i s -> rb_tbl s !! i = Some e ->
  (k i <= length (ls0 i))%nat -> rb_num s + Z.of_nat (k i) <= DRC_MAX_PART_NUM -> cur = ip_first e ->
  exists cur' s', export_loop (k i) pm i cur s = Ok (cur', s') /\ rb_map s' = pm /\ rb_tbl s' = rb_tbl s /\
    plist pm cur' (drop (k i) (ls0 i)) /\ tasks_rep (rb_tasks s') start (rb_num s') (exported i ++ moved i) /\
    forall j, j < start -> rb_tasks s' !! j = rb_tasks s !! j.
Proof.
  intros Hi I He Hk Hb ->. destruct (ei_entry _ _ _ I i Hi) as (e' & He' & _ & _ & Hl & _).
  assert (e' = e) as -> by congruence. rewrite (proj2 (kept_list_now i)) in Hl.
  assert (length (take (k i) (ls0 i)) = k i) as Hlen by (rewrite length_take; lia).
  destruct (export_loop_ok pm i start (take (k i) (ls0 i)) (drop (k i) (ls0 i)) (exported i) (ip_first e) s)
    as (cur' & tasks' & Ex & Hr & T & Hbelow).
  - by rewrite take_drop.
  - apply I.
  - unfold len. rewrite Hlen. done.
  - rewrite Hlen in Ex. exists cur'. eexists. split; [done|]. cbn. split; [apply I|]. split_and!; try done.
Qed.

Lemma export_inv_lists tasks0 s tbl0 :
  export_inv tasks0 OG_MAX_INSTANCES s -> lists_ok pm tbl0 ls0 [] ->
  lists_ok pm (rb_tbl s) (fun x => drop (k x) (ls0 x)) (exported OG_MAX_INSTANCES).*1.
Proof.
  intros I L. assert (forall x, is_inst x -> kept_list OG_MAX_INSTANCES x = drop (k x) (ls0 x)) as Hk.
  { intros x Hx. unfold kept_list. destruct Hx. by replace (x <? OG_MAX_INSTANCES) with true by lia. }
  split.
  - intros x Hx. destruct (ei_entry _ _ _ I x Hx) as (e & ? & _ & Hc & Hl & _). rewrite Hk in Hc, Hl by done. eauto.
  - rewrite <- (lo_whole _ _ _ _ L), app_nil_l. unfold exported. fold ids.
    replace (concat (moved <$> ids)).*1 with (concat ((fun x => take (k x) (ls0 x)) <$> ids)).
    + rewrite concat_app_perm. apply reflexive_eq. f_equal. apply list_fmap_ext. intros _ x _. apply take_drop.
    + induction ids as [|x l IH]; cbn; [done|]. rewrite fmap_app, IH. f_equal. unfold moved.
      rewrite <- list_fmap_compose. symmetry. apply list_fmap_id.
  - intros x p Hx Hp. apply (lo_owner _ _ _ _ L); [done|]. rewrite <- (take_drop (k x)). set_solver.
Qed.

Lemma exported_from i p x : (p, x) ∈ exported i -> 0 <= x < i /\ p ∈ take (k x) (ls0 x).
Proof.
  unfold exported. rewrite elem_of_concat_fmap. intros (y & Hy%elem_of_seqZ & Hp). unfold moved in Hp.
  apply list_elem_of_fmap in Hp as (q & [= -> ->] & Hq). split; [lia|done].
Qed.

Lemma exported_len i : len (exported i) = zsum (fun x => Z.of_nat (length (take (k x) (ls0 x)))) (seqZ 0 i).
Proof.
  unfold exported. rewrite len_concat. apply zsum_ext. intros x _. unfold len, moved. by rewrite length_fmap.
Qed.

(** However far the export has gone there is room for the next tasks. *)
Lemma exported_room i :
  is_inst i -> len (exported OG_MAX_INSTANCES) + start <= DRC_MAX_PART_NUM ->
  (k i <= length (ls0 i))%nat -> start + len (exported i) + Z.of_nat (k i) <= DRC_MAX_PART_NUM.
Proof.
  intros [Hi1 Hi2] Hb Hk. rewrite !exported_len in *.
  replace OG_MAX_INSTANCES with (i + 1 + (OG_MAX_INSTANCES - i - 1)) in Hb by lia.
  rewrite seqZ_app, seqZ_snoc, !zsum_app in Hb by lia. cbn [zsum] in Hb. rewrite length_take in Hb.
  assert (0 <= zsum (fun x => Z.of_nat (length (take (k x) (ls0 x)))) (seqZ (0 + (i + 1)) (OG_MAX_INSTANCES - i - 1)))
    by (apply zsum_nonneg; lia).
  lia.
Qed.
End Exporting.

(** ** Importing

    The tasks [tl] are given one by one to instances that have room ([R] are
    those that may receive, [E] their shares). *)
Section Receiving.
Context (R used : Z -> bool) (E : Z -> Z) (tl : list (Z * Z)) (start : Z) (st : drc_part_status).
Context (pm0 : gmap Z drc_part) (ls1 : Z -> list Z) (tasks0 : gmap Z drc_remaster_task).

Definition room (ls : Z -> list Z) (x : Z) : Z := if R x then E x - len (ls x) else 0.

Record import_inv (j : nat) (ls : Z -> list Z) (s : rebalance) : Prop := {
  ii_lists : lists_ok (rb_map s) (rb_tbl s) ls (drop j tl).*1;
  ii_same : forall p, p ∉ (take j tl).*1 -> rb_map s !! p = pm0 !! p;
  ii_dom : forall p, 0 <= p < DRC_MAX_PART_NUM -> is_Some (rb_map s !! p);
  ii_tasks : tasks_rep (rb_tasks s) start (rb_num s) tl;
  ii_done : forall i t, (i < j)%nat -> rb_tasks s !! (start + Z.of_nat i) = Some t ->
    is_inst (tk_import t) /\ R (tk_import t) = true /\ tk_status t = st /\ tk_part t ∈ ls (tk_import t) /\
    exists q, rb_map s !! tk_part t = Some q /\ pt_status q = st;
  ii_fixed : forall x e, is_inst x -> rb_tbl s !! x = Some e -> ip_used e = used x /\ (R x = true -> ip_expected e = E x);
  ii_le : forall x, is_inst x -> 0 <= room ls x;
  ii_other : forall x, R x = false -> ls x = ls1 x;
  ii_sum : zsum (room ls) ids = len (drop j tl);
  ii_below : forall i, i < start -> rb_tasks s !! i = tasks0 !! i;
}.

(** The list of [y] with [p] in front. *)
Definition push (ls : Z -> list Z) (y p : Z) (x : Z) : list Z := if decide (x = y) then [p] ++ ls x else ls x.

Lemma push_eq ls y p : push ls y p y = p :: ls y.
Proof. unfold push. by rewrite decide_True. Qed.
Lemma push_ne ls y p x : x <> y -> push ls y p x = ls x.
Proof. intros. unfold push. by rewrite decide_False. Qed.
Lemma push_sub ls y p x q : q ∈ ls x -> q ∈ push ls y p x.
Proof. unfold push. case_decide; set_solver. Qed.

Lemma room_push ls y p x : R y = true -> room (push ls y p) x = if decide (x = y) then room ls y - 1 else room ls x.
Proof.
  intros Hy. unfold room. case_decide as Hx; [subst; rewrite Hy, push_eq; unfold len; cbn [length]; lia|].
  by rewrite push_ne.
Qed.

(** The lists after one import. *)
Lemma lists_push pm tbl ls lim y p e st' :
  lists_ok pm tbl ls (p :: lim) -> is_inst y -> tbl !! y = Some e -> is_Some (pm !! p) ->
  forall e', ip_first e' = p -> ip_count e' = ip_count e + 1 ->
  lists_ok (<[p := mk_part y st' (ip_first e)]> pm) (<[y := e']> tbl) (push ls y p) lim.
Proof.
  intros L Hy He Hp e' Hf Hc. assert (forall x, is_inst x -> p ∉ ls x) as Hout.
  { intros x Hx. eapply lists_lim_out; [done|done|set_solver]. }
  assert (forall x h, is_inst x -> plist pm h (ls x) -> plist (<[p := mk_part y st' (ip_first e)]> pm) h (ls x)) as Hfr.
  { intros x h Hx. apply plist_frame. intros i q Hi Hq. exists q. rewrite lookup_insert_ne; [done|].
    intros ->. by apply (Hout x). }
  split.
  - intros x Hx. destruct (lo_entry _ _ _ _ L x Hx) as (ex & Hex & Hcx & Hlx).
    destruct (decide (x = y)) as [->|Hne].
    + assert (ex = e) as -> by congruence. exists e'. rewrite lookup_insert_eq, push_eq. split; [done|]. split.
      * rewrite Hc, Hcx. unfold len. cbn [length]. lia.
      * cbn. split; [done|]. eexists. rewrite lookup_insert_eq. split; [done|]. by apply Hfr.
    + exists ex. rewrite lookup_insert_ne, push_ne by done. split_and!; try done. by apply Hfr.
  - rewrite <- (lo_whole _ _ _ _ L).
    etrans; [apply Permutation_app_head, (concat_upd ls ids y [p]); [apply NoDup_ids|by apply elem_of_ids]|].
    cbn. symmetry. apply Permutation_middle.
  - intros x q Hx Hq. unfold push in Hq. destruct (decide (q = p)) as [->|Hqp].
    + destruct (decide (x = y)) as [->|]; [|by destruct (Hout x)]. rewrite lookup_insert_eq. eauto.
    + rewrite lookup_insert_ne by done. apply (lo_owner _ _ _ _ L); [done|].
      destruct (decide (x = y)); [|done]. cbn in Hq. set_solver.
Qed.

(** One import: from [j] tasks to [j + 1]. *)
Lemma import_task_ok j ls s y p x :
  import_inv j ls s -> tl !! j = Some (p, x) -> is_inst y -> R y = true -> 0 < room ls y ->
  exists s', import_task (start + Z.of_nat j) y st s = Ok s' /\ rb_num s' = rb_num s /\
    import_inv (S j) (push ls y p) s'.
Proof.
  intros I Hj Hy HR Hroom. pose proof (ii_lists _ _ _ I) as L.
  destruct (tp_task _ _ _ _ (ii_tasks _ _ _ I) _ _ _ Hj) as (t & Ht & Htp & Htx).
  destruct (lo_entry _ _ _ _ L y Hy) as (e & He & Hce & Hle).
  assert (drop j tl = (p, x) :: drop (S j) tl) as Hdrop by (by apply drop_S).
  assert (0 <= p < DRC_MAX_PART_NUM) as Hpr by (eapply lists_range; [done|left; rewrite Hdrop; set_solver]).
  destruct (ii_dom _ _ _ I p Hpr) as [q Hq]. pose proof (lists_len _ _ _ _ _ L Hy) as Hly.
  unfold import_task, wr, rd. rewrite Ht. cbn [mbind outcome_bind]. rewrite lookup_insert_eq, He.
  cbn [mbind outcome_bind tk_part]. rewrite Htp, Hq. cbn [mbind outcome_bind]. eexists. split; [done|]. split; [done|].
  set (e' := ip_set_count _ _).
  assert (ip_first e' = p) as Hf' by (unfold e'; destruct (ip_count e =? 0); done).
  assert (ip_count e' = ip_count e + 1) as Hc'.
  { unfold e'. cbn. unfold u16. rewrite Z.mod_small; [done|]. rewrite Hce. unfold DRC_MAX_PART_NUM in *. lia. }
  assert (p ∉ (take j tl).*1) as Hnt.
  { pose proof (tp_num _ _ _ _ (ii_tasks _ _ _ I)). intros Hin. apply list_elem_of_fmap in Hin as ([p' x'] & Hp' & Hin). cbn in Hp'. subst p'.
    apply list_elem_of_lookup in Hin as (i & Hi). pose proof (lookup_lt_Some _ _ _ Hi) as Hlt. rewrite length_take in Hlt.
    rewrite lookup_take_lt in Hi by lia.
    destruct (tp_task _ _ _ _ (ii_tasks _ _ _ I) _ _ _ Hi) as (t' & Ht' & Htp' & _).
    destruct (ii_done _ _ _ I i t' ltac:(lia) Ht') as (Hi1 & _ & _ & Hi2 & _). rewrite Htp' in Hi2.
    eapply (lists_lim_out _ _ _ _ _ p L Hi1); [rewrite Hdrop; set_solver|done]. }
  split; cbn [rb_map rb_tbl rb_tasks rb_num].
  - eapply lists_push; [by rewrite Hdrop in L|done|done|by eexists|done|done].
  - intros p' Hp'. rewrite (take_S_r _ _ _ Hj), fmap_app in Hp'. rewrite lookup_insert_ne by set_solver.
    apply (ii_same _ _ _ I). set_solver.
  - intros p' Hp'. rewrite lookup_insert_is_Some'. right. by apply (ii_dom _ _ _ I).
  - destruct (ii_tasks _ _ _ I) as [Hn Hs Hd Htk]. split; try done.
    + intros i Hi. rewrite lookup_insert_is_Some'. right. by apply Hd.
    + intros i p' x' Hi. destruct (decide (i = j)) as [->|Hne].
      * assert (p' = p /\ x' = x) as [-> ->] by (split; congruence). rewrite lookup_insert_eq.
        eexists. split; [done|]. done.
      * rewrite lookup_insert_ne by lia. eauto.
  - intros i t' Hi Ht'. destruct (decide (i = j)) as [->|Hne].
    + rewrite lookup_insert_eq in Ht'. injection Ht' as <-. cbn. split_and!; try done.
      * rewrite push_eq, ?Htp. set_solver.
      * rewrite ?Htp, lookup_insert_eq. by eexists.
    + rewrite lookup_insert_ne in Ht' by lia. destruct (ii_done _ _ _ I i t' ltac:(lia) Ht') as (? & ? & ? & ? & ?).
      split_and!; try done; [by apply push_sub|]. rewrite lookup_insert_ne; [done|]. intros Hpp. apply Hnt. rewrite Hpp.
      destruct (lookup_lt_is_Some_2 tl i) as [[p' x'] Hi']; [apply lookup_lt_Some in Hj; lia|].
      destruct (tp_task _ _ _ _ (ii_tasks _ _ _ I) _ _ _ Hi') as (t2 & Ht2 & <- & _). assert (t2 = t') as -> by congruence.
      apply list_elem_of_fmap. exists (tk_part t', x'). split; [done|]. apply elem_of_take. exists i. split; [done|lia].
  - intros z ez Hz Hez. destruct (decide (z = y)) as [->|Hne].
    + rewrite lookup_insert_eq in Hez. injection Hez as <-. destruct (ii_fixed _ _ _ I y e Hy He).
      unfold e'. by destruct (ip_count e =? 0).
    + rewrite lookup_insert_ne in Hez by done. by apply (ii_fixed _ _ _ I).
  - intros z Hz. rewrite room_push by done. pose proof (ii_le _ _ _ I z Hz). case_decide; [subst|done]. lia.
  - intros z Hz. rewrite push_ne by (intros ->; congruence). by apply (ii_other _ _ _ I).
  - rewrite (zsum_ext _ (fun z => if decide (z = y) then room ls y - 1 else room ls z)) by (intros; by apply room_push).
    rewrite zsum_upd by (apply NoDup_ids || by apply elem_of_ids). rewrite (ii_sum _ _ _ I), Hdrop.
    unfold len. cbn [length]. lia.
  - intros i Hi. rewrite lookup_insert_ne by lia. by apply (ii_below _ _ _ I).
Qed.

(** When tasks are left somebody has room; when none is left nobody has. *)
Lemma import_room j ls s : import_inv j ls s -> (j < length tl)%nat -> exists y, is_inst y /\ R y = true /\ 0 < room ls y.
Proof.
  intros I Hj. destruct (zsum_pos (room ls) ids) as (y & Hy & Hr).
  { rewrite (ii_sum _ _ _ I). unfold len. rewrite length_drop. lia. }
  exists y. split; [by apply elem_of_ids|]. split; [|done]. unfold room in Hr. by destruct (R y).
Qed.

Lemma import_done ls s x :
  import_inv (length tl) ls s -> is_inst x -> R x = true -> len (ls x) = E x.
Proof.
  intros I Hx HR. pose proof (zsum_zero (room ls) ids x) as H. unfold room in H at 3. rewrite HR in H.
  assert (E x - len (ls x) = 0); [|lia]. apply H; [|by rewrite (ii_sum _ _ _ I), drop_all|by apply elem_of_ids].
  intros y Hy. apply (ii_le _ _ _ I). by apply elem_of_ids.
Qed.
End Receiving.

(** ** The assignment as a whole *)

(** Every partition is on the list of one instance, [n] instances are in use
    and have even shares, in the order of their numbers. *)
Record balanced (pm : gmap Z drc_part) (tbl : gmap Z drc_inst_part) (ls : Z -> list Z) (n : Z) : Prop := {
  ba_lists : lists_ok pm tbl ls [];
  ba_num : rank (used_of tbl) OG_MAX_INSTANCES = n;
  ba_pos : 0 < n;
  ba_share : forall x, is_inst x -> len (ls x) = if used_of tbl x then quota n (rank (used_of tbl) x) else 0;
}.

(** The tasks from [start] to [num] say how [pm'] differs from [pm]: every
    task is for another partition and changes its master, and a partition
    without a task stays as it is. *)
Record moves (pm pm' : gmap Z drc_part) (tasks : gmap Z drc_remaster_task) (start num : Z)
    (from to : Z -> Prop) (st : drc_part_status) : Prop := {
  mv_task : forall j, start <= j < num -> exists t q q', tasks !! j = Some t /\ tk_status t = st /\
    pm !! tk_part t = Some q /\ pt_inst q = tk_export t /\ from (tk_export t) /\
    pm' !! tk_part t = Some q' /\ pt_inst q' = tk_import t /\ to (tk_import t) /\ pt_status q' = st;
  mv_differ : forall j t, start <= j < num -> tasks !! j = Some t -> tk_export t <> tk_import t;
  mv_once : forall i j ti tj, start <= i < num -> start <= j < num -> tasks !! i = Some ti -> tasks !! j = Some tj ->
    tk_part ti = tk_part tj -> i = j;
  mv_stay : forall p, (forall j t, start <= j < num -> tasks !! j = Some t -> tk_part t <> p) -> pm' !! p = pm !! p;
}.

Lemma used_of_entry tbl x e : tbl !! x = Some e -> used_of tbl x = ip_used e.
Proof. intros H. unfold used_of. by rewrite H. Qed.

Lemma mark_used_ok f xs : forall tbl,
  NoDup xs -> (forall x, x ∈ xs -> is_Some (tbl !! x)) ->
  exists tbl', mark_used f xs tbl = Ok tbl' /\ forall x, tbl' !! x = if decide (x ∈ xs) then f <$> tbl !! x else tbl !! x.
Proof.
  induction xs as [|x xs IH]; intros tbl Hnd Hs; cbn; [by eexists|].
  apply NoDup_cons in Hnd as [Hx Hnd]. destruct (Hs x ltac:(set_solver)) as [e He]. unfold wr, rd. rewrite He.
  cbn [mbind outcome_bind]. destruct (IH (<[x := f e]> tbl) Hnd) as (tbl' & -> & Hl).
  { intros y Hy. rewrite lookup_insert_is_Some'. right. apply Hs. set_solver. }
  exists tbl'. split; [done|]. intros y. rewrite Hl. destruct (decide (y = x)) as [->|Hne].
  - rewrite (decide_False (P := x ∈ xs)) by done. rewrite decide_True by set_solver. by rewrite lookup_insert_eq, He.
  - rewrite lookup_insert_ne by done. destruct (decide (y ∈ xs)); [rewrite decide_True by set_solver; done|].
    by rewrite decide_False by set_solver.
Qed.

Lemma all_used_ok b xs tbl :
  (forall x, x ∈ xs -> exists e, tbl !! x = Some e /\ ip_used e = b) -> all_used b xs tbl = Ok true.
Proof.
  induction xs as [|x xs IH]; intros H; cbn; [done|]. destruct (H x ltac:(set_solver)) as (e & He & Hu).
  unfold rd. rewrite He. cbn [mbind outcome_bind]. rewrite Hu, Bool.eqb_reflx. apply IH. set_solver.
Qed.

Lemma zsum_indicator xs l :
  NoDup l -> NoDup xs -> (forall x, x ∈ xs -> x ∈ l) -> zsum (fun x => if decide (x ∈ xs) then 1 else 0) l = len xs.
Proof.
  intros Hl. induction xs as [|y xs IH]; intros Hnd Hs.
  { rewrite (zsum_ext _ (fun _ => 0)); [|intros; by rewrite decide_False by set_solver].
    clear. induction l; cbn; [done|]. rewrite IHl. done. }
  apply NoDup_cons in Hnd as [Hy Hnd].
  rewrite (zsum_ext _ (fun x => if decide (x = y) then 1 else if decide (x ∈ xs) then 1 else 0)).
  - rewrite zsum_upd by set_solver. rewrite IH by set_solver. rewrite decide_False by done.
    unfold len. cbn [length]. lia.
  - intros x _. destruct (decide (x = y)) as [->|]; [by rewrite decide_True by set_solver|].
    destruct (decide (x ∈ xs)); [by rewrite decide_True by set_solver|by rewrite decide_False by set_solver].
Qed.

(** Once every task is imported the shares are even again. *)
Lemma import_finish pm tbl0 ls0 used n R k start st tasks0 s0 ls s :
  lists_ok pm tbl0 ls0 [] -> rank used OG_MAX_INSTANCES = n -> 0 < n ->
  let E x := quota n (rank used x) in
  (forall x, R x = true -> used x = true) ->
  (forall x, is_inst x -> R x = false -> len (drop (k x) (ls0 x)) = if used x then E x else 0) ->
  (forall x, is_inst x -> R x = true -> take (k x) (ls0 x) = []) ->
  export_inv pm ls0 used k E start tasks0 OG_MAX_INSTANCES s0 ->
  import_inv R used E (exported ls0 k OG_MAX_INSTANCES) start st pm (fun x => drop (k x) (ls0 x)) tasks0
    (length (exported ls0 k OG_MAX_INSTANCES)) ls s ->
  balanced (rb_map s) (rb_tbl s) ls n /\
  (forall x, is_inst x -> used_of (rb_tbl s) x = used x) /\
  moves pm (rb_map s) (rb_tasks s) start (rb_num s) (fun x => is_inst x /\ k x <> O) (fun x => is_inst x /\ R x = true) st.
Proof.
  intros L Hr Hn E HRu Hkeep Hnone X I.
  assert (forall x, is_inst x -> used_of (rb_tbl s) x = used x) as Hu.
  { intros x Hx. destruct (lo_entry _ _ _ _ (ii_lists _ _ _ _ _ _ _ _ _ _ _ _ I) x Hx) as (e & He & _).
    rewrite (used_of_entry _ _ _ He). by apply (ii_fixed _ _ _ _ _ _ _ _ _ _ _ _ I). }
  assert (forall x, 0 <= x <= OG_MAX_INSTANCES -> rank (used_of (rb_tbl s)) x = rank used x) as Hrk.
  { intros x Hx. apply zsum_ext. intros y Hy%elem_of_seqZ. rewrite Hu; [done|]. unfold is_inst. lia. }
  split_and!; [|done|].
  - pose proof (ii_lists _ _ _ _ _ _ _ _ _ _ _ _ I) as L'. rewrite drop_all in L'. split; try done.
    + rewrite Hrk by (unfold OG_MAX_INSTANCES; lia). done.
    + intros x Hx. rewrite Hu, Hrk by (done || (destruct Hx; lia)).
      destruct (R x) eqn:HR; [rewrite (HRu _ HR); by apply (import_done _ _ _ _ _ _ _ _ _ _ _ _ I)|].
      rewrite (ii_other _ _ _ _ _ _ _ _ _ _ _ _ I x HR). by apply Hkeep.
  - pose proof (ii_tasks _ _ _ _ _ _ _ _ _ _ _ _ I) as T.
    assert (forall j t, start <= j < rb_num s -> rb_tasks s !! j = Some t -> exists p x,
      exported ls0 k OG_MAX_INSTANCES !! Z.to_nat (j - start) = Some (p, x) /\ tk_part t = p /\ tk_export t = x /\
      is_inst (tk_import t) /\ R (tk_import t) = true) as Htask.
    { intros j t Hj Ht. rewrite (tp_num _ _ _ _ T) in Hj.
      destruct (lookup_lt_is_Some_2 (exported ls0 k OG_MAX_INSTANCES) (Z.to_nat (j - start))) as [[p x] Hp]; [unfold len in Hj; lia|].
      destruct (tp_task _ _ _ _ T _ _ _ Hp) as (t' & Ht' & Htp & Htx).
      destruct (ii_done _ _ _ _ _ _ _ _ _ _ _ _ I (Z.to_nat (j - start)) t') as (Hi & HR & _);
        [apply lookup_lt_Some in Hp; lia|done|].
      replace (start + Z.of_nat (Z.to_nat (j - start))) with j in Ht' by lia. assert (t' = t) as -> by congruence. by exists p, x. }
    split.
    + intros j Hj. rewrite (tp_num _ _ _ _ T) in Hj.
      destruct (lookup_lt_is_Some_2 (exported ls0 k OG_MAX_INSTANCES) (Z.to_nat (j - start))) as [[p x] Hp];
        [unfold len in Hj; lia|].
      destruct (tp_task _ _ _ _ T _ _ _ Hp) as (t & Ht & Htp & Htx).
      destruct (ii_done _ _ _ _ _ _ _ _ _ _ _ _ I (Z.to_nat (j - start)) t) as (Hi & HR & Hst & Hin & Hps);
        [apply lookup_lt_Some in Hp; lia|done|].
      replace (start + Z.of_nat (Z.to_nat (j - start))) with j in Ht by lia.
      apply list_elem_of_lookup_2, exported_from in Hp as [Hx Hp].
      assert (p ∈ ls0 x) as Hp0 by (rewrite <- (take_drop (k x)); set_solver).
      destruct (lo_owner _ _ _ _ L x p Hx Hp0) as (q & Hq & Hqx).
      destruct (lo_owner _ _ _ _ (ii_lists _ _ _ _ _ _ _ _ _ _ _ _ I) _ _ Hi Hin) as (q' & Hq' & Hqi).
      destruct Hps as (q1 & Hq1 & Hps). assert (q1 = q') as -> by congruence.
      exists t, q, q'. rewrite Htp, Htx in *. split_and!; try done. intros Hk0. rewrite Hk0, take_0 in Hp. set_solver.
    + intros j t Hj Ht Heq. destruct (Htask j t Hj Ht) as (p & x & Hp & _ & Hx & Hi & HR).
      apply list_elem_of_lookup_2, exported_from in Hp as [_ Hp]. rewrite <- Hx, Heq, Hnone in Hp by done. set_solver.
    + intros i j ti tj Hi Hj Hti Htj Heq. destruct (Htask i ti Hi Hti) as (p & x & Hp & Htp & _), (Htask j tj Hj Htj) as (p' & x' & Hp' & Htp' & _).
      pose proof (lists_nodup _ _ _ _ (export_inv_lists _ _ _ _ _ _ _ _ _ X L)) as [Hnd _]%NoDup_app.
      assert (Z.to_nat (i - start) = Z.to_nat (j - start)) as Hij; [|lia].
      eapply (NoDup_lookup _ _ _ p Hnd); rewrite list_lookup_fmap; [by rewrite Hp|rewrite Hp'; cbn; congruence].
    + intros p Hp. apply (ii_same _ _ _ _ _ _ _ _ _ _ _ _ I). rewrite firstn_all. intros Hin.
      apply list_elem_of_fmap in Hin as ([p' x] & Hpp & (j & Hj)%list_elem_of_lookup). cbn in Hpp. subst p'.
      destruct (tp_task _ _ _ _ T _ _ _ Hj) as (t & Ht & Htp & _).
      apply (Hp (start + Z.of_nat j) t); [|done|done]. rewrite (tp_num _ _ _ _ T). apply lookup_lt_Some in Hj. unfold len. lia.
Qed.

(** The first state of an import. *)
Lemma import_start pm tbl0 ls0 used n R k start st tasks0 s0 :
  lists_ok pm tbl0 ls0 [] ->
  let E x := quota n (rank used x) in
  let tl := exported ls0 k OG_MAX_INSTANCES in
  (forall x, R x = true -> used x = true) ->
  (forall x, is_inst x -> 0 <= room R E (fun x => drop (k x) (ls0 x)) x) ->
  zsum (room R E (fun x => drop (k x) (ls0 x))) ids = len tl ->
  export_inv pm ls0 used k E start tasks0 OG_MAX_INSTANCES s0 ->
  import_inv R used E tl start st pm (fun x => drop (k x) (ls0 x)) tasks0 0 (fun x => drop (k x) (ls0 x)) s0.
Proof.
  intros L E tl HRu Hle Hsum X. split; try done.
  - rewrite drop_0, (ei_map _ _ _ _ _ _ _ _ _ X). eapply export_inv_lists; [exact X|done].
  - intros p _. by rewrite (ei_map _ _ _ _ _ _ _ _ _ X).
  - intros p Hp. rewrite (ei_map _ _ _ _ _ _ _ _ _ X).
    destruct (lists_part _ _ _ _ p L Hp) as [?|(x & Hx & Hin)]; [set_solver|].
    destruct (lo_owner _ _ _ _ L x p Hx Hin) as (q & -> & _). by eexists.
  - apply X.
  - intros i t Hi. lia.
  - intros x e Hx He. destruct (ei_entry _ _ _ _ _ _ _ _ _ X x Hx) as (e' & He' & Hu & _ & _ & Hexp).
    assert (e' = e) as -> by congruence. split; [done|]. intros HR. apply Hexp; [apply Hx|by apply HRu].
  - apply X.
Qed.

(** ** Joining instances *)
Section ScaleOut.
Context (pm : gmap Z drc_part) (ls0 : Z -> list Z) (used : Z -> bool) (n : Z).
Let E (x : Z) : Z := quota n (rank used x).

(** What an instance has above its share. *)
Definition surplus (x : Z) : nat := if used x then Z.to_nat (len (ls0 x) - E x) else O.

Lemma surplus_le x : 0 < n -> (surplus x <= length (ls0 x))%nat.
Proof.
  intros Hn. unfold surplus. destruct (used x); [|lia]. pose proof (quota_range n (rank used x) Hn). unfold E, len. lia.
Qed.

Lemma taskset_loop_ok start tasks0 m : forall i s,
  0 < n -> 0 <= i -> i + Z.of_nat m = OG_MAX_INSTANCES ->
  len (exported ls0 surplus OG_MAX_INSTANCES) + start <= DRC_MAX_PART_NUM ->
  export_inv pm ls0 used surplus E start tasks0 i s ->
  exists s', taskset_loop m i (rank used i) n s = Ok s' /\ export_inv pm ls0 used surplus E start tasks0 OG_MAX_INSTANCES s'.
Proof.
  induction m as [|m IH]; intros i s Hn Hi Him Hb X.
  { cbn. exists s. split; [done|]. by replace OG_MAX_INSTANCES with i by lia. }
  assert (is_inst i) as Hx by (unfold is_inst; lia). cbn [taskset_loop].
  destruct (ei_entry _ _ _ _ _ _ _ _ _ X i Hx) as (e & He & Hu & Hc & Hl & _).
  unfold rd at 1. rewrite He. cbn [mbind outcome_bind]. rewrite Hu. pose proof (surplus_le i Hn) as Hk.
  rewrite (proj2 (kept_list_now ls0 surplus i)) in Hc.
  assert (forall y, rank used (i + 1) = rank used i + y -> y = if used i then 1 else 0) as Hrk.
  { intros y. rewrite rank_succ by done. lia. }
  destruct (used i) eqn:Hui.
  2:{ apply (IH (i + 1) s) in Hb; [|done|lia|lia|].
      - destruct Hb as (s' & Es & X'). exists s'. split; [|done]. rewrite rank_succ, Hui in Es by done.
        by rewrite Z.add_0_r in Es.
      - eapply (export_inv_skip pm ls0 used surplus E start tasks0 i s s e); try done.
        + unfold surplus. by rewrite Hui.
        + apply X.
        + by rewrite insert_id.
        + eauto 10.
        + congruence. }
  unfold wr, rd. rewrite He. cbn [mbind outcome_bind]. pose proof (quota_range n (rank used i) Hn) as Hq.
  set (e1 := ip_set_expected (quota n (rank used i)) e). set (s1 := rb_set_tbl _ s).
  assert (ip_expected e1 = E i) as He1.
  { unfold e1. cbn. unfold u16. rewrite Z.mod_small; [done|]. unfold DRC_MAX_PART_NUM in Hq. lia. }
  unfold drc_set_remaster_taskset_export_inst, rd. cbn [rb_tbl s1 rb_set_tbl]. rewrite lookup_insert_eq.
  cbn [mbind outcome_bind]. rewrite He1. change (ip_count e1) with (ip_count e). rewrite Hc.
  destruct (Z.ltb_spec (E i) (len (ls0 i))) as [Hlt|Hge].
  - assert (Z.to_nat (len (ls0 i) - E i) = surplus i) as Hs by (unfold surplus; by rewrite Hui). rewrite Hs.
    assert (export_inv pm ls0 used surplus E start tasks0 i s1) as X1.
    { destruct X as [X1 X2 X3 X4]. split; try done. intros x Hxx. cbn [rb_tbl s1 rb_set_tbl].
      destruct (decide (x = i)) as [->|Hne]; [|rewrite lookup_insert_ne by done; by apply X2].
      rewrite lookup_insert_eq. exists e1. destruct (X2 i Hxx) as (e' & ? & ? & ? & ? & _).
      assert (e' = e) as -> by congruence. split_and!; try done. }
    assert (rb_num s1 + Z.of_nat (surplus i) <= DRC_MAX_PART_NUM) as Hroom.
    { rewrite (tp_num _ _ _ _ (ei_tasks _ _ _ _ _ _ _ _ _ X1)). by apply exported_room. }
    rewrite (ei_map _ _ _ _ _ _ _ _ _ X1).
    destruct (export_inv_move pm ls0 used surplus E start tasks0 i s1 (ip_first e1) e1 Hx X1) as
      (cur & s2 & -> & Hm2 & Ht2 & Hl2 & T2 & Hb2); [cbn; by rewrite lookup_insert_eq|done|done|done|].
    cbn [mbind outcome_bind]. unfold wr, rd. rewrite Ht2. cbn [rb_tbl s1 rb_set_tbl]. rewrite lookup_insert_eq.
    cbn [mbind outcome_bind]. rewrite insert_insert_eq. set (s3 := rb_set_tbl _ s2).
    destruct (IH (i + 1) s3 Hn ltac:(lia) ltac:(lia) Hb) as (s' & Es & X').
    + eapply (export_inv_step pm ls0 used surplus E start tasks0 i s s3 (ip_set_count (ip_expected e1) (ip_set_first cur e1)));
        try done.
      * cbn. by rewrite Hui.
      * change (u16 (ip_expected e1) = len (drop (surplus i) (ls0 i))). rewrite He1. unfold u16. rewrite Z.mod_small by (unfold E, DRC_MAX_PART_NUM in *; lia).
        unfold len. rewrite length_drop. unfold surplus. rewrite Hui. unfold len in *. lia.
    + exists s'. split; [|done]. rewrite rank_succ, Hui in Es by done. done.
  - cbn [mbind outcome_bind]. destruct (IH (i + 1) s1 Hn ltac:(lia) ltac:(lia) Hb) as (s' & Es & X').
    + eapply (export_inv_skip pm ls0 used surplus E start tasks0 i s s1 e1); try done.
      * unfold surplus. rewrite Hui. lia.
      * apply X.
      * eauto 10.
    + exists s'. split; [|done]. rewrite rank_succ, Hui in Es by done. done.
Qed.
End ScaleOut.

(** The tasks are handed to the new instances in turn: those before [l] are
    full, those after it still empty. *)
Lemma scaleout_loop_ok R used E tl start st pm0 ls1 tasks0 news (Hst : st = PART_WAIT_MIGRATE) (Hs0 : start = 0) :
  NoDup news -> (forall x, is_inst x -> R x = true <-> x ∈ news) -> Forall is_inst news ->
  (forall x, is_inst x -> R x = true -> 0 < E x) ->
  forall m j l ls s,
  import_inv R used E tl start st pm0 ls1 tasks0 j ls s -> (j + m = length tl)%nat -> (l < length news)%nat ->
  (forall i x, news !! i = Some x -> ((i < l)%nat -> len (ls x) = E x) /\ ((l < i)%nat -> ls x = [])) ->
  exists ls' s', scaleout_loop m (Z.of_nat j) (Z.of_nat l) news s = Ok s' /\ rb_num s' = rb_num s /\
    import_inv R used E tl start st pm0 ls1 tasks0 (length tl) ls' s'.
Proof.
  intros Hnd HR Hin HE m. induction m as [|m IH]; intros j l ls s I Hjm Hl Hfull.
  { cbn. exists ls, s. by replace (length tl) with j by lia. }
  cbn [scaleout_loop]. pose proof (ii_lists _ _ _ _ _ _ _ _ _ _ _ _ I) as L.
  assert (forall i x, news !! i = Some x -> arg news (Z.of_nat i) = Ok x /\ is_inst x /\ R x = true) as Harg.
  { intros i x Hi. unfold arg. rewrite Nat2Z.id, Hi. replace (Z.of_nat i <? 0) with false by lia.
    assert (is_inst x) by (rewrite Forall_forall in Hin; apply Hin; by eapply list_elem_of_lookup_2).
    split_and!; try done. apply HR; [done|]. by eapply list_elem_of_lookup_2. }
  destruct (lookup_lt_is_Some_2 news l Hl) as [x Hx]. destruct (Harg _ _ Hx) as (-> & Hix & HRx). cbn [mbind outcome_bind].
  destruct (lo_entry _ _ _ _ L x Hix) as (e & He & Hce & _). unfold rd. rewrite He. cbn [mbind outcome_bind].
  destruct (ii_fixed _ _ _ _ _ _ _ _ _ _ _ _ I x e Hix He) as [_ Hexp]. rewrite (Hexp HRx), Hce.
  destruct (lookup_lt_is_Some_2 tl j ltac:(lia)) as [[p y] Hp].
  set (l' := if E x <=? len (ls x) then S l else l).
  assert (exists z, news !! l' = Some z /\ 0 < room R E ls z /\
    forall i w, news !! i = Some w -> ((i < l')%nat -> len (ls w) = E w) /\ ((l' < i)%nat -> ls w = [])) as (z & Hz & Hroom & Hfull').
  { pose proof (ii_le _ _ _ _ _ _ _ _ _ _ _ _ I x Hix) as Hle. unfold room in Hle. rewrite HRx in Hle.
    unfold l'. destruct (Z.leb_spec (E x) (len (ls x))) as [Hge|Hlt].
    - assert (len (ls x) = E x) as Hxf by lia.
      assert (forall i w, news !! i = Some w -> (i < S l)%nat -> len (ls w) = E w) as Hf.
      { intros i w Hi Hil. destruct (decide (i = l)) as [->|]; [congruence|]. apply (Hfull i w Hi). lia. }
      destruct (import_room _ _ _ _ _ _ _ _ _ _ _ _ I ltac:(lia)) as (w & Hw & HRw & Hrw).
      pose proof (proj1 (HR w Hw) HRw) as Hwn. apply list_elem_of_lookup in Hwn as (iw & Hiw).
      assert (S l <= iw)%nat as Hlw.
      { destruct (decide (iw < S l)%nat) as [Hc|]; [|lia]. specialize (Hf _ _ Hiw Hc). unfold room in Hrw. rewrite HRw in Hrw. lia. }
      destruct (lookup_lt_is_Some_2 news (S l)) as [z Hz]; [apply lookup_lt_Some in Hiw; lia|].
      exists z. split; [done|]. destruct (Harg _ _ Hz) as (_ & Hiz & HRz). split.
      + unfold room. rewrite HRz. rewrite (proj2 (Hfull _ _ Hz)) by lia. specialize (HE z Hiz HRz). unfold len. cbn [length]. lia.
      + intros i w' Hi. split; [by apply Hf|]. intros Hli. apply (Hfull _ _ Hi). lia.
    - exists x. split; [done|]. split; [unfold room; rewrite HRx; lia|done]. }
  replace (if E x <=? len (ls x) then Z.of_nat l + 1 else Z.of_nat l) with (Z.of_nat l') by (unfold l'; destruct (E x <=? len (ls x)); lia).
  destruct (Harg _ _ Hz) as (-> & Hiz & HRz). cbn [mbind outcome_bind].
  destruct (import_task_ok _ _ _ _ _ _ _ _ _ _ _ _ z p y I Hp Hiz HRz Hroom) as (s1 & Es & Hn1 & I1).
  rewrite Hs0, Hst, Z.add_0_l in Es. rewrite Es. cbn [mbind outcome_bind].
  destruct (IH (S j) l' (push ls z p) s1 I1) as (ls' & s' & E' & Hn' & I').
  - lia.
  - by eapply lookup_lt_Some.
  - intros i w Hi. destruct (Hfull' i w Hi) as [H1 H2]. destruct (decide (w = z)) as [->|Hne].
    + assert (i = l') as -> by (eapply NoDup_lookup; done). lia.
    + by rewrite push_ne.
  - exists ls', s'. split_and!; [|by rewrite Hn'|done]. rewrite <- E'. f_equal. lia.
Qed.

(** What is exported is what the others have room for. *)
Lemma room_sum pm tbl0 ls0 used n R k :
  lists_ok pm tbl0 ls0 [] -> rank used OG_MAX_INSTANCES = n -> 0 < n ->
  let E x := quota n (rank used x) in
  (forall x, R x = true -> used x = true) ->
  (forall x, is_inst x -> R x = false -> len (drop (k x) (ls0 x)) = if used x then E x else 0) ->
  zsum (room R E (fun x => drop (k x) (ls0 x))) ids = len (exported ls0 k OG_MAX_INSTANCES).
Proof.
  intros L Hr Hn E HRu Hkeep. rewrite exported_len. fold ids.
  pose proof (lists_total _ _ _ _ L) as Ht. pose proof (quota_total used n Hr Hn) as Hq.
  rewrite (zsum_ext (fun x => len (ls0 x))
    (fun x => Z.of_nat (length (take (k x) (ls0 x))) + len (drop (k x) (ls0 x)))) in Ht.
  2:{ intros x _. unfold len. rewrite length_take, length_drop. lia. }
  rewrite (zsum_ext (fun y => if used y then quota n (rank used y) else 0)
    (fun x => room R E (fun x => drop (k x) (ls0 x)) x + len (drop (k x) (ls0 x)))) in Hq.
  2:{ intros x Hx. unfold room, E. destruct (R x) eqn:HR; [rewrite (HRu _ HR); lia|].
      rewrite Hkeep by (done || by apply elem_of_ids). unfold E. lia. }
  rewrite zsum_add in Ht, Hq. cbn [len length] in Ht. change (len (@nil Z)) with 0 in Ht. lia.
Qed.

Lemma rank_ext used used' x : (forall y, 0 <= y < x -> used y = used' y) -> rank used x = rank used' x.
Proof. intros H. apply zsum_ext. intros y Hy%elem_of_seqZ. by rewrite H by lia. Qed.

(** The instances in use once [xs] joined, or left. *)
Definition joined (used : Z -> bool) (xs : list Z) (x : Z) : bool := used x || bool_decide (x ∈ xs).
Definition without (used : Z -> bool) (xs : list Z) (x : Z) : bool := used x && negb (bool_decide (x ∈ xs)).

Lemma rank_split (used used' : Z -> bool) xs x :
  (forall y, 0 <= y < x -> (if used' y then 1 else 0) = (if used y then 1 else 0) + if decide (y ∈ xs) then 1 else 0) ->
  NoDup xs -> Forall (fun y => 0 <= y < x) xs -> rank used' x = rank used x + len xs.
Proof.
  intros H Hnd Hin. unfold rank. rewrite (zsum_ext _ (fun y => (if used y then 1 else 0) + if decide (y ∈ xs) then 1 else 0)).
  - rewrite zsum_add. f_equal. apply zsum_indicator; [apply NoDup_seqZ|done|].
    intros y Hy. rewrite elem_of_seqZ. rewrite Forall_forall in Hin. specialize (Hin y Hy). lia.
  - intros y Hy%elem_of_seqZ. apply H. lia.
Qed.

Lemma rank_joined used xs :
  NoDup xs -> Forall is_inst xs -> (forall x, x ∈ xs -> used x = false) ->
  rank (joined used xs) OG_MAX_INSTANCES = rank used OG_MAX_INSTANCES + len xs.
Proof.
  intros Hnd Hin Hu. apply rank_split; [|done|done]. intros y _. unfold joined.
  destruct (decide (y ∈ xs)) as [Hy|Hy]; [rewrite bool_decide_true, Hu by done|rewrite bool_decide_false by done];
    destruct (used y); done.
Qed.

Lemma rank_without used xs :
  NoDup xs -> Forall is_inst xs -> (forall x, x ∈ xs -> used x = true) ->
  rank (without used xs) OG_MAX_INSTANCES = rank used OG_MAX_INSTANCES - len xs.
Proof.
  intros Hnd Hin Hu. rewrite (rank_split (without used xs) used xs OG_MAX_INSTANCES); [lia| |done|done].
  intros y _. unfold without.
  destruct (decide (y ∈ xs)) as [Hy|Hy]; [rewrite bool_decide_true, Hu by done|rewrite bool_decide_false by done];
    destruct (used y); done.
Qed.

(** The table after marking: the lists are what they were. *)
Lemma export_start pm tbl ls tbl1 used1 k E start tasks0 :
  lists_ok pm tbl ls [] -> 0 <= start -> (forall j, 0 <= j < DRC_MAX_PART_NUM -> is_Some (tasks0 !! j)) ->
  (forall x e, is_inst x -> tbl !! x = Some e -> exists e1, tbl1 !! x = Some e1 /\ ip_used e1 = used1 x /\
     ip_count e1 = ip_count e /\ ip_first e1 = ip_first e) ->
  export_inv pm ls used1 k E start tasks0 0 (mk_reb pm tbl1 tasks0 start).
Proof.
  intros L Hs Hd Ht. split; cbn; try done.
  - intros x Hx. destruct (lo_entry _ _ _ _ L x Hx) as (e & He & Hc & Hl).
    destruct (Ht x e Hx He) as (e1 & He1 & Hu & Hc1 & Hf). exists e1. unfold kept_list.
    destruct Hx as [Hx0 Hx1]. replace (x <? 0) with false by lia. rewrite Hc1, Hf. split_and!; try done. lia.
  - split; cbn; try done. change (start = start + 0). lia.
Qed.

(** What [drc_scaleout_remaster] needs of the manager. *)
Record can_join (m : drc_part_mngr) (ls : Z -> list Z) (n : Z) (news : list Z) : Prop := {
  cj_bal : balanced (target_part_map m) (target_inst_part_tbl m) ls n;
  cj_num : pm_inst_num m = n;
  cj_tasks : task_num m = 0;
  cj_dom : forall j, 0 <= j < DRC_MAX_PART_NUM -> is_Some (remaster_task_set m !! j);
  cj_some : news <> [];
  cj_nodup : NoDup news;
  cj_inst : Forall is_inst news;
  cj_new : forall x, x ∈ news -> used_of (target_inst_part_tbl m) x = false /\
    exists e, inst_part_tbl m !! x = Some e /\ ip_used e = false;
}.

Lemma moves_mono pm pm' tasks start num (F F' T T' : Z -> Prop) st :
  (forall x, F x -> F' x) -> (forall x, T x -> T' x) -> moves pm pm' tasks start num F T st ->
  moves pm pm' tasks start num F' T' st.
Proof.
  intros HF HT [M1 M2 M3 M4]. split; [|done..]. intros j Hj. destruct (M1 j Hj) as (t & q & q' & ?). exists t, q, q'. naive_solver.
Qed.

Lemma len_nil {A} (l : list A) : len l = 0 -> l = [].
Proof. destruct l; unfold len; cbn [length]; [done|lia]. Qed.

Lemma balanced_unused pm tbl ls n x : balanced pm tbl ls n -> is_inst x -> used_of tbl x = false -> ls x = [].
Proof. intros B Hx Hu. apply len_nil. by rewrite (ba_share _ _ _ _ B x Hx), Hu. Qed.

(** The state of the tables once the export of a join is done. *)
Lemma scaleout_export pm tbl ls n news tbl1 tasks0 :
  balanced pm tbl ls n -> NoDup news -> Forall is_inst news -> (forall x, x ∈ news -> used_of tbl x = false) ->
  (forall x, tbl1 !! x = if decide (x ∈ news) then (fun e => ip_set_count 0 (ip_set_used true e)) <$> tbl !! x else tbl !! x) ->
  (forall j, 0 <= j < DRC_MAX_PART_NUM -> is_Some (tasks0 !! j)) ->
  let used := joined (used_of tbl) news in
  let n' := n + len news in
  let k := surplus ls used n' in
  exists s, drc_set_remaster_taskset n' (mk_reb pm tbl1 tasks0 0) = Ok s /\
    export_inv pm ls used k (fun x => quota n' (rank used x)) 0 tasks0 OG_MAX_INSTANCES s /\
    (forall x, is_inst x -> bool_decide (x ∈ news) = false ->
       len (drop (k x) (ls x)) = if used x then quota n' (rank used x) else 0).
Proof.
  intros B Hnd Hin Hnew Ht1 Hdom used n' k. pose proof (ba_pos _ _ _ _ B) as Hn. pose proof (ba_lists _ _ _ _ B) as L.
  assert (rank used OG_MAX_INSTANCES = n') as Hr'.
  { unfold used, n'. rewrite rank_joined by done. by rewrite (ba_num _ _ _ _ B). }
  assert (n <= n') as Hnn by (unfold n', len; lia).
  assert (forall x, is_inst x -> bool_decide (x ∈ news) = false ->
    len (drop (k x) (ls x)) = if used x then quota n' (rank used x) else 0) as Hkeep.
  { intros x Hx Hb. pose proof (ba_share _ _ _ _ B x Hx) as Hs.
    assert (used x = used_of tbl x) as Hux by (unfold used, joined; by rewrite Hb, orb_false_r).
    unfold k, surplus. rewrite Hux.
    destruct (used_of tbl x) eqn:Hu; [|unfold len in *; rewrite length_drop; lia].
    assert (rank (used_of tbl) x <= rank used x) by (apply rank_mono; intros y Hy; unfold used, joined; by rewrite Hy).
    pose proof (quota_mono n n' (rank (used_of tbl) x) (rank used x) ltac:(lia) ltac:(done)).
    pose proof (quota_range n' (rank used x) ltac:(lia)). unfold len in *. rewrite length_drop. lia. }
  pose proof (room_sum pm tbl ls used n' (fun x => bool_decide (x ∈ news)) k L Hr' ltac:(lia)) as Hsum. cbv zeta in Hsum.
  assert (len (exported ls k OG_MAX_INSTANCES) + 0 <= DRC_MAX_PART_NUM) as Hb.
  { rewrite exported_len. pose proof (lists_total _ _ _ _ L) as Ht. change (len []) with 0 in Ht. fold ids.
    rewrite <- Ht. rewrite !Z.add_0_r, Z.add_0_l. generalize ids. induction l as [|x l IH]; cbn [zsum]; [done|].
    rewrite length_take. unfold len at 1. lia. }
  assert (export_inv pm ls used k (fun x => quota n' (rank used x)) 0 tasks0 0 (mk_reb pm tbl1 tasks0 0)) as X0.
  { eapply export_start; [done|done|done|]. intros x e Hx He. rewrite Ht1, He. unfold used, joined.
    rewrite (used_of_entry _ _ _ He). destruct (decide (x ∈ news)) as [Hxn|Hxn].
    - rewrite bool_decide_true, orb_true_r by done. eexists. split; [done|]. split_and!; try done.
      destruct (lo_entry _ _ _ _ L x Hx) as (e' & He' & Hc & _). assert (e' = e) as -> by congruence.
      rewrite Hc, (balanced_unused _ _ _ _ x B Hx) by (by apply Hnew). done.
    - rewrite bool_decide_false, orb_false_r by done. by eexists. }
  destruct (taskset_loop_ok pm ls used n' 0 tasks0 (Z.to_nat OG_MAX_INSTANCES) 0 _ ltac:(lia) ltac:(lia) ltac:(done) Hb X0)
    as (s & Es & X). exists s. split_and!; done.
Qed.

(** The tasks of a join are imported by the new instances. *)
Lemma scaleout_import pm tbl ls n news tasks0 s :
  balanced pm tbl ls n -> NoDup news -> news <> [] -> Forall is_inst news -> (forall x, x ∈ news -> used_of tbl x = false) ->
  let used := joined (used_of tbl) news in
  let n' := n + len news in
  let k := surplus ls used n' in
  export_inv pm ls used k (fun x => quota n' (rank used x)) 0 tasks0 OG_MAX_INSTANCES s ->
  (forall x, is_inst x -> bool_decide (x ∈ news) = false ->
     len (drop (k x) (ls x)) = if used x then quota n' (rank used x) else 0) ->
  exists ls' s', scaleout_loop (Z.to_nat (rb_num s)) 0 0 news s = Ok s' /\
    balanced (rb_map s') (rb_tbl s') ls' n' /\ (forall x, is_inst x -> used_of (rb_tbl s') x = used x) /\
    moves pm (rb_map s') (rb_tasks s') 0 (rb_num s') (fun x => is_inst x /\ used_of tbl x = true) (fun x => x ∈ news)
      PART_WAIT_MIGRATE /\
    rb_num s' = zsum (fun x => if decide (x ∈ news) then len (ls' x) else 0) ids /\
    (forall j, 0 <= j < DRC_MAX_PART_NUM -> is_Some (rb_tasks s' !! j)).
Proof.
  intros B Hnd Hne Hin Hnew used n' k X Hkeep. pose proof (ba_lists _ _ _ _ B) as L. pose proof (ba_pos _ _ _ _ B) as Hn.
  assert (forall x, x ∈ news -> is_inst x) as Hin' by (by apply Forall_forall).
  pose (E := fun x => quota n' (rank used x)). pose (R := fun x => bool_decide (x ∈ news)).
  assert (rank used OG_MAX_INSTANCES = n') as Hr' by (unfold used, n'; rewrite rank_joined by done; by rewrite (ba_num _ _ _ _ B)).
  assert (0 < n' <= OG_MAX_INSTANCES) as Hn'.
  { split; [unfold n', len; lia|]. rewrite <- Hr'. by apply rank_bound. }
  assert (forall x, R x = true -> used x = true) as HRu by (intros x Hx; unfold used, joined; unfold R in Hx; by rewrite Hx, orb_true_r).
  assert (forall x, x ∈ news -> drop (k x) (ls x) = []) as Hempty.
  { intros x Hx. rewrite (balanced_unused _ _ _ _ x B) by auto. by rewrite drop_nil. }
  assert (forall x, is_inst x -> R x = true <-> x ∈ news) as HR by (intros x _; unfold R; by rewrite bool_decide_eq_true).
  pose proof (room_sum _ _ ls used n' R k L Hr' ltac:(lia) HRu Hkeep) as Hsum. cbv zeta in Hsum.
  assert (import_inv R used E (exported ls k OG_MAX_INSTANCES) 0 PART_WAIT_MIGRATE pm (fun x => drop (k x) (ls x))
    tasks0 0 (fun x => drop (k x) (ls x)) s) as I0.
  { apply (import_start pm tbl ls used n'); [done|done| |done|done]. intros x Hx. unfold room. destruct (R x) eqn:HRx; [|done].
    rewrite Hempty by (by apply HR). pose proof (quota_range n' (rank used x)). unfold len. cbn [length]. lia. }
  pose proof (tp_num _ _ _ _ (ei_tasks _ _ _ _ _ _ _ _ _ X)) as Hnumt. rewrite Z.add_0_l in Hnumt.
  destruct (scaleout_loop_ok R used E (exported ls k OG_MAX_INSTANCES) 0 PART_WAIT_MIGRATE pm
    (fun x => drop (k x) (ls x)) tasks0 news eq_refl eq_refl Hnd HR Hin
    ltac:(intros x _ _; by apply quota_pos) (length (exported ls k OG_MAX_INSTANCES)) 0 0 _ s I0) as (ls' & s' & Es & Hns & I').
  { done. }
  { destruct news; [done|cbn; lia]. }
  { intros i x Hi. split; [lia|]. intros _. apply Hempty. by eapply list_elem_of_lookup_2. }
  assert (forall x, is_inst x -> R x = true -> take (k x) (ls x) = []) as Hnone.
  { intros x Hx Hrx%HR; [|done]. rewrite (balanced_unused _ _ _ _ x B) by auto. by rewrite take_nil. }
  destruct (import_finish pm tbl ls used n' R k 0 _ _ s ls' s' L Hr' ltac:(lia) HRu Hkeep Hnone X I') as (B' & Hu' & M).
  exists ls', s'. rewrite Hns. rewrite Hns in M. rewrite Hnumt at 1. unfold len at 1. rewrite Nat2Z.id. split_and!; [exact Es|exact B'|exact Hu'| | |].
  - eapply moves_mono; [| |exact M].
    + intros x [Hx Hk]. split; [done|]. destruct (used_of tbl x) eqn:Hu; [done|]. destruct Hk.
      unfold k, surplus. rewrite (balanced_unused _ _ _ _ x B Hx Hu). unfold len. cbn [length].
      pose proof (quota_range n' (rank used x)). destruct (used x); [|done]. lia.
    + intros x [Hx Hr]. by apply HR.
  - rewrite Hnumt, <- Hsum. apply zsum_ext. intros x Hx%elem_of_ids. unfold room. destruct (decide (x ∈ news)) as [Hxn|Hxn].
    + assert (R x = true) as HRx by (by apply HR). rewrite HRx, Hempty by done.
      rewrite (import_done _ _ _ _ _ _ _ _ _ _ _ _ I' Hx HRx). unfold len, E. cbn [length]. lia.
    + unfold R. by rewrite bool_decide_false.
  - apply (ii_tasks _ _ _ _ _ _ _ _ _ _ _ _ I').
Qed.

Lemma scaleout_ok m ls n news :
  can_join m ls n news ->
  exists m' ls', drc_scaleout_remaster false news m = Ok (OG_SUCCESS, m') /\
    balanced (target_part_map m') (target_inst_part_tbl m') ls' (n + len news) /\
    (forall x, is_inst x -> used_of (target_inst_part_tbl m') x = joined (used_of (target_inst_part_tbl m)) news x) /\
    moves (target_part_map m) (target_part_map m') (remaster_task_set m') 0 (task_num m')
      (fun x => is_inst x /\ used_of (target_inst_part_tbl m) x = true) (fun x => x ∈ news) PART_WAIT_MIGRATE /\
    task_num m' = zsum (fun x => if decide (x ∈ news) then len (ls' x) else 0) ids /\
    (forall j, 0 <= j < DRC_MAX_PART_NUM -> is_Some (remaster_task_set m' !! j)) /\
    m' = set_rebalance (n + len news) (mngr_rebalance m') m.
Proof.
  intros [B Hnum Ht0 Hdom Hne Hnd Hin Hnew]. pose proof (ba_lists _ _ _ _ B) as L.
  assert (forall x, x ∈ news -> used_of (target_inst_part_tbl m) x = false) as Hnu by (intros; by apply Hnew).
  destruct (mark_used_ok (fun e => ip_set_count 0 (ip_set_used true e)) news (target_inst_part_tbl m) Hnd) as (tbl1 & Em & Ht1).
  { intros x Hx. rewrite Forall_forall in Hin. destruct (lo_entry _ _ _ _ L x (Hin x Hx)) as (e & -> & _). by eexists. }
  destruct (scaleout_export _ _ ls n news tbl1 (remaster_task_set m) B Hnd Hin Hnu Ht1 Hdom) as (s & Es & X & Hkeep).
  destruct (scaleout_import _ _ ls n news _ s B Hnd Hne Hin Hnu X Hkeep) as (ls' & s' & Ei & B' & Hu & M & Hn & Hd).
  exists (set_rebalance (n + len news) s' m), ls'. split; [|split_and!; done].
  assert (Z.of_nat (length news) + pm_inst_num m = n + len news) as Hnn by (unfold len; lia).
  eapply (eq_trans (y := Ok (OG_SUCCESS, set_rebalance (Z.of_nat (length news) + pm_inst_num m) s' m))); [|by rewrite Hnn].
  rewrite <- Hnn in Es. clear -Em Es Ei Hne Hnew Ht0.
  unfold drc_scaleout_remaster. rewrite bool_decide_false by done.
  rewrite (bind_ok _ _ true) by (apply all_used_ok; intros x Hx; by apply Hnew). unfold knl_panic. rewrite (bind_ok _ _ ()) by done.
  rewrite (bind_ok _ _ tbl1 Em). cbv zeta. rewrite (bind_ok _ _ s) by (unfold mngr_rebalance, rb_set_tbl; by rewrite Ht0).
  by rewrite (bind_ok _ _ s' Ei).
Qed.
