(* ===== verification/DrcPartIn.v ===== *)
(** Removing instances: [drc_scalein_remaster]
    (src/pkg/src/cluster/dtc_drc.c) gives the partitions of the instances that
    leave to those that stay, and the shares are even again. *)

From S2P Require Import Prelude DrcBitmap DrcGlobalRes DrcReform DrcPart DrcPartInv DrcPartThm.

(** ** The tasks *)

(** Walking another map that agrees on the partitions walked. *)
Lemma export_loop_agree pm pm2 inst l : forall r cur s,
  plist pm cur (l ++ r) -> (forall p, p ∈ l -> pm2 !! p = pm !! p) ->
  export_loop (length l) pm2 inst cur s = export_loop (length l) pm inst cur s.
Proof.
  induction l as [|p l IH]; intros r cur s Hl Ha; cbn [length export_loop]; [done|].
  destruct Hl as [-> (q & Hq & Hl)]. destruct (wr (rb_tasks s) _ _) as [tasks|]; [|done]. cbn [mbind outcome_bind].
  unfold rd. rewrite (Ha p) by set_solver. rewrite Hq. cbn [mbind outcome_bind]. eapply IH; [done|set_solver].
Qed.

Section ScaleIn.
Context (pm pm2 : gmap Z drc_part) (ls0 : Z -> list Z) (used : Z -> bool) (n : Z).
Let E (x : Z) : Z := quota n (rank used x).

(** All the partitions of an instance that is not in use are exported. *)
Definition leaving (x : Z) : nat := if used x then O else length (ls0 x).
Hypothesis agree : forall x p, is_inst x -> used x = false -> p ∈ ls0 x -> pm2 !! p = pm !! p.

Lemma scalein_export_ok start tasks0 m : forall i s,
  0 < n -> 0 <= i -> i + Z.of_nat m = OG_MAX_INSTANCES ->
  len (exported ls0 leaving OG_MAX_INSTANCES) + start <= DRC_MAX_PART_NUM ->
  export_inv pm ls0 used leaving E start tasks0 i s ->
  exists s', scalein_export m i (rank used i) n pm2 s = Ok s' /\ export_inv pm ls0 used leaving E start tasks0 OG_MAX_INSTANCES s'.
Proof.
  induction m as [|m IH]; intros i s Hn Hi Him Hb X.
  { cbn. exists s. split; [done|]. by replace OG_MAX_INSTANCES with i by lia. }
  assert (is_inst i) as Hx by (unfold is_inst; lia). cbn [scalein_export].
  destruct (ei_entry _ _ _ _ _ _ _ _ _ X i Hx) as (e & He & Hu & Hc & Hl & _).
  unfold rd at 1. rewrite He. cbn [mbind outcome_bind]. rewrite Hu.
  rewrite (proj2 (kept_list_now ls0 leaving i)) in Hc, Hl.
  destruct (used i) eqn:Hui.
  - unfold wr, rd. rewrite He. cbn [mbind outcome_bind]. pose proof (quota_range n (rank used i) Hn) as Hq.
    set (s1 := rb_set_tbl _ s). destruct (IH (i + 1) s1 Hn ltac:(lia) ltac:(lia) Hb) as (s' & Es & X').
    + eapply (export_inv_skip pm ls0 used leaving E start tasks0 i s s1); try done.
      * unfold leaving. by rewrite Hui.
      * apply X.
      * cbn. eauto 10.
      * intros _. cbn. unfold u16, E. rewrite Z.mod_small; [done|]. unfold DRC_MAX_PART_NUM in Hq. lia.
    + exists s'. split; [|done]. by rewrite rank_succ, Hui in Es by done.
  - destruct (Z.ltb_spec 0 (ip_count e)) as [Hpos|Hz].
    + assert (leaving i = length (ls0 i)) as Hk by (unfold leaving; by rewrite Hui).
      replace (Z.to_nat (ip_count e)) with (length (ls0 i)) by (rewrite Hc; unfold len; lia).
      rewrite (export_loop_agree pm pm2 i (ls0 i) [] (ip_first e) s) by (rewrite ?app_nil_r; eauto). rewrite <- Hk.
      destruct (export_inv_move pm ls0 used leaving E start tasks0 i s (ip_first e) e Hx X) as
        (cur & s2 & -> & Hm2 & Ht2 & Hl2 & T2 & Hb2); [done|lia| |done|].
      { rewrite (tp_num _ _ _ _ (ei_tasks _ _ _ _ _ _ _ _ _ X)). apply exported_room; [done|done|lia]. }
      cbn [mbind outcome_bind]. unfold wr, rd. rewrite Ht2, He. cbn [mbind outcome_bind]. set (s3 := rb_set_tbl _ s2).
      destruct (IH (i + 1) s3 Hn ltac:(lia) ltac:(lia) Hb) as (s' & Es & X').
      * eapply (export_inv_step pm ls0 used leaving E start tasks0 i s s3); try done.
        -- cbn. congruence.
        -- cbn. unfold u16, len. rewrite length_drop, Hk. rewrite Z.mod_small by lia. lia.
        -- rewrite Hk, drop_all. done.
        -- congruence.
      * exists s'. split; [|done]. rewrite rank_succ, Hui in Es by done. by rewrite Z.add_0_r in Es.
    + assert (ls0 i = []) as Hnil by (apply len_nil; unfold len in *; lia).
      destruct (IH (i + 1) s Hn ltac:(lia) ltac:(lia) Hb) as (s' & Es & X').
      * eapply (export_inv_skip pm ls0 used leaving E start tasks0 i s s e); try done.
        -- unfold leaving. by rewrite Hui, Hnil.
        -- apply X.
        -- by rewrite insert_id.
        -- eauto 10.
        -- congruence.
      * exists s'. split; [|done]. rewrite rank_succ, Hui in Es by done. by rewrite Z.add_0_r in Es.
Qed.
End ScaleIn.

(** ** Handing them out *)
Section Importing.
Context (R : Z -> bool) (E : Z -> Z) (tl : list (Z * Z)) (start : Z) (st : drc_part_status).
Context (pm0 : gmap Z drc_part) (ls1 : Z -> list Z) (tasks0 : gmap Z drc_remaster_task).
Notation inv := (import_inv R R E tl start st pm0 ls1 tasks0).

(** The search stops at the next instance that has room. *)
Lemma find_room_ok j ls s w : inv j ls s -> is_inst w -> 0 < room R E ls w -> forall m l,
  0 <= l <= w -> w - l < Z.of_nat m ->
  exists z, find_room m l (rb_tbl s) = Ok z /\ l <= z <= w /\ R z = true /\ 0 < room R E ls z /\
    forall y, l <= y < z -> room R E ls y = 0.
Proof.
  intros I Hw Hrw. induction m as [|m IH]; intros l Hl Hm; [lia|]. cbn [find_room].
  assert (is_inst l) as Hil by (unfold is_inst in *; lia).
  destruct (lo_entry _ _ _ _ (ii_lists _ _ _ _ _ _ _ _ _ _ _ _ I) l Hil) as (e & He & Hc & _).
  destruct (ii_fixed _ _ _ _ _ _ _ _ _ _ _ _ I l e Hil He) as [Hu Hexp]. pose proof (ii_le _ _ _ _ _ _ _ _ _ _ _ _ I l Hil) as Hle.
  unfold rd. rewrite He. cbn [mbind outcome_bind]. rewrite Hu.
  destruct (negb (R l) || (ip_expected e <=? ip_count e)) eqn:Hb.
  - assert (room R E ls l = 0) as Hl0.
    { unfold room in *. destruct (R l); [|done]. rewrite Hexp, Hc in Hb by done. cbn in Hb. lia. }
    assert (l <> w) by (intros ->; lia).
    destruct (IH (l + 1) ltac:(lia) ltac:(lia)) as (z & Ez & Hz & HR & Hrz & Hy). exists z. split_and!; try done; try lia.
    intros y Hly. destruct (decide (y = l)) as [->|]; [done|]. apply Hy. lia.
  - apply orb_false_iff in Hb as [HR Hlt]. apply negb_false_iff in HR. rewrite (Hexp HR), Hc in Hlt.
    exists l. split_and!; try done; try lia. unfold room. rewrite HR. lia.
Qed.

Lemma scalein_import_ok : forall m j l ls s,
  inv j ls s -> (j + m = length tl)%nat -> 0 <= l -> (forall y, 0 <= y < l -> room R E ls y = 0) ->
  exists ls' s', scalein_import m (start + Z.of_nat j) l st s = Ok s' /\ rb_num s' = rb_num s /\ inv (length tl) ls' s'.
Proof.
  induction m as [|m IH]; intros j l ls s I Hjm Hl Hfull.
  { cbn. exists ls, s. by replace (length tl) with j by lia. }
  cbn [scalein_import]. destruct (import_room _ _ _ _ _ _ _ _ _ _ _ _ I ltac:(lia)) as (w & Hw & HRw & Hrw).
  assert (l <= w) as Hlw. { destruct (decide (w < l)); [|lia]. destruct Hw. rewrite Hfull in Hrw by lia. lia. }
  destruct (find_room_ok _ _ _ w I Hw Hrw (Z.to_nat OG_MAX_INSTANCES + 1) l) as (z & -> & Hz & HRz & Hrz & Hy).
  { lia. }
  { destruct Hw. lia. }
  cbn [mbind outcome_bind]. destruct (lookup_lt_is_Some_2 tl j ltac:(lia)) as [[p x] Hp].
  assert (is_inst z) as Hiz by (unfold is_inst in *; lia).
  destruct (import_task_ok _ _ _ _ _ _ _ _ _ _ _ _ z p x I Hp Hiz HRz Hrz) as (s1 & -> & Hn1 & I1). cbn [mbind outcome_bind].
  destruct (IH (S j) z (push ls z p) s1 I1 ltac:(lia) ltac:(lia)) as (ls' & s' & Es & Hn' & I').
  { intros y Hyz. rewrite room_push by done. rewrite decide_False by lia.
    destruct (decide (y < l)); [apply Hfull; lia|apply Hy; lia]. }
  exists ls', s'. split_and!; [|by rewrite Hn'|done]. rewrite <- Es. f_equal. lia.
Qed.
End Importing.

(** ** The function *)

(** What [drc_scalein_remaster] needs of the manager: the lists of the
    instances that leave are the same in the current and the target map. *)
Record can_leave (m : drc_part_mngr) (ls : Z -> list Z) (n : Z) (dels : list Z) : Prop := {
  cl_bal : balanced (target_part_map m) (target_inst_part_tbl m) ls n;
  cl_num : pm_inst_num m = n;
  cl_start : 0 <= task_num m;
  cl_room : task_num m + zsum (fun x => if decide (x ∈ dels) then len (ls x) else 0) ids <= DRC_MAX_PART_NUM;
  cl_dom : forall j, 0 <= j < DRC_MAX_PART_NUM -> is_Some (remaster_task_set m !! j);
  cl_some : dels <> [];
  cl_rest : len dels < n;
  cl_nodup : NoDup dels;
  cl_inst : Forall is_inst dels;
  cl_old : forall x, x ∈ dels -> used_of (target_inst_part_tbl m) x = true /\
    exists e, inst_part_tbl m !! x = Some e /\ ip_used e = true;
  cl_agree : forall x p, x ∈ dels -> p ∈ ls x -> part_map m !! p = target_part_map m !! p;
}.

Lemma leaving_sum pm tbl ls n dels :
  balanced pm tbl ls n -> (forall x, x ∈ dels -> used_of tbl x = true) ->
  len (exported ls (leaving ls (without (used_of tbl) dels)) OG_MAX_INSTANCES) =
  zsum (fun x => if decide (x ∈ dels) then len (ls x) else 0) ids.
Proof.
  intros B Hd. rewrite exported_len. apply zsum_ext. intros x Hx%elem_of_ids. unfold leaving, without.
  destruct (decide (x ∈ dels)) as [Hxd|Hxd].
  - rewrite bool_decide_true, andb_false_r by done. by rewrite firstn_all.
  - rewrite bool_decide_false, andb_true_r by done. destruct (used_of tbl x) eqn:Hu; [done|].
    by rewrite (balanced_unused _ _ _ _ x B Hx Hu).
Qed.

(** From the marked table to the end of the import. *)
Lemma scalein_steps m ls n dels tbl1 st :
  can_leave m ls n dels ->
  (forall x, tbl1 !! x = if decide (x ∈ dels) then (fun e => ip_set_expected 0 (ip_set_used false e)) <$> target_inst_part_tbl m !! x
                         else target_inst_part_tbl m !! x) ->
  let used := without (used_of (target_inst_part_tbl m)) dels in
  let n' := n - len dels in
  let moved := zsum (fun x => if decide (x ∈ dels) then len (ls x) else 0) ids in
  exists s ls' s', scalein_export (Z.to_nat OG_MAX_INSTANCES) 0 0 n' (part_map m)
      (mk_reb (target_part_map m) tbl1 (remaster_task_set m) (task_num m)) = Ok s /\
    scalein_import (Z.to_nat (rb_num s - task_num m)) (task_num m) 0 st s = Ok s' /\
    balanced (rb_map s') (rb_tbl s') ls' n' /\ (forall x, is_inst x -> used_of (rb_tbl s') x = used x) /\
    moves (target_part_map m) (rb_map s') (rb_tasks s') (task_num m) (rb_num s') (fun x => x ∈ dels) (fun x => is_inst x /\ used x = true) st /\
    rb_num s' = task_num m + moved /\ (forall j, j < task_num m -> rb_tasks s' !! j = remaster_task_set m !! j).
Proof.
  intros [B Hnum Hs0 Hroom Hdom Hne Hrest Hnd Hin Hold Hag] Ht1 used n' mv. pose proof (ba_lists _ _ _ _ B) as L.
  assert (forall x, x ∈ dels -> used_of (target_inst_part_tbl m) x = true) as Hdu by (intros; by apply Hold).
  set (k := leaving ls used). pose (E := fun x => quota n' (rank used x)).
  assert (rank used OG_MAX_INSTANCES = n') as Hr'.
  { unfold used, n'. rewrite rank_without by done. by rewrite (ba_num _ _ _ _ B). }
  assert (0 < n' <= n) as Hn' by (unfold n', len in *; lia).
  assert (forall x, is_inst x -> used x = false -> x ∉ dels -> ls x = []) as Hnone.
  { intros x Hx Hu Hxd. apply (balanced_unused _ _ _ _ x B Hx). unfold used, without in Hu.
    by rewrite bool_decide_false, andb_true_r in Hu. }
  assert (forall x, is_inst x -> used x = false -> len (drop (k x) (ls x)) = if used x then E x else 0) as Hkeep.
  { intros x Hx Hu. unfold k, leaving. by rewrite Hu, drop_all. }
  pose proof (leaving_sum _ _ ls n dels B Hdu) as Hls. fold used k mv in Hls.
  pose proof (room_sum _ _ ls used n' used k L Hr' ltac:(lia) ltac:(done) Hkeep) as Hsum. cbv zeta in Hsum.
  destruct (scalein_export_ok (target_part_map m) (part_map m) ls used n') with
    (start := task_num m) (tasks0 := remaster_task_set m) (m := Z.to_nat OG_MAX_INSTANCES) (i := 0)
    (s := mk_reb (target_part_map m) tbl1 (remaster_task_set m) (task_num m)) as (s & Es & X); try done; try lia.
  { intros x p Hx Hu Hp. destruct (decide (x ∈ dels)) as [Hxd|Hxd]; [by eapply Hag|]. rewrite Hnone in Hp by done. set_solver. }
  { fold k. lia. }
  { eapply export_start; [done|done|done|]. intros x e Hx He. rewrite Ht1, He. unfold used, without.
    rewrite (used_of_entry _ _ _ He). destruct (decide (x ∈ dels)) as [Hxn|Hxn].
    - rewrite bool_decide_true, andb_false_r by done. by eexists.
    - rewrite bool_decide_false, andb_true_r by done. by eexists. }
  fold k in X. pose proof (tp_num _ _ _ _ (ei_tasks _ _ _ _ _ _ _ _ _ X)) as Hnumt.
  assert (import_inv used used E (exported ls k OG_MAX_INSTANCES) (task_num m) st (target_part_map m) (fun x => drop (k x) (ls x))
    (remaster_task_set m) 0 (fun x => drop (k x) (ls x)) s) as I0.
  { apply (import_start _ (target_inst_part_tbl m) ls used n'); [done|done| |done|done]. intros x Hx. unfold room.
    destruct (used x) eqn:Hux; [|done]. unfold k, leaving. rewrite Hux, drop_0, (ba_share _ _ _ _ B x Hx).
    assert (used_of (target_inst_part_tbl m) x = true) as -> by (unfold used, without in Hux; by apply andb_true_iff in Hux as [? _]).
    assert (rank used x <= rank (used_of (target_inst_part_tbl m)) x) by
      (apply rank_mono; intros y Hy; unfold used, without in Hy; by apply andb_true_iff in Hy as [? _]).
    pose proof (quota_mono n' n (rank used x) (rank (used_of (target_inst_part_tbl m)) x) ltac:(lia) ltac:(done)). lia. }
  destruct (scalein_import_ok used E (exported ls k OG_MAX_INSTANCES) (task_num m) st (target_part_map m)
    (fun x => drop (k x) (ls x)) (remaster_task_set m) (length (exported ls k OG_MAX_INSTANCES)) 0 0 _ s I0) as (ls' & s' & Ei & Hns & I');
    [done|done|lia|].
  assert (forall x, is_inst x -> used x = true -> take (k x) (ls x) = []) as Hstay by (intros x _ Hx; unfold k, leaving; by rewrite Hx, take_0).
  destruct (import_finish _ _ ls used n' used k _ _ _ s ls' s' L Hr' ltac:(lia) ltac:(done) Hkeep Hstay X I') as (B' & Hu' & M).
  exists s, ls', s'. rewrite Z.add_0_r in Ei. split_and!; [exact Es| |exact B'|exact Hu'| | |].
  - replace (Z.to_nat (rb_num s - task_num m)) with (length (exported ls k OG_MAX_INSTANCES)) by (rewrite Hnumt; unfold len; lia).
    exact Ei.
  - eapply moves_mono; [|intros x Hx; exact Hx|exact M]. intros x [Hx Hk]. destruct (decide (x ∈ dels)); [done|]. destruct Hk.
    unfold k, leaving. destruct (used x) eqn:Hu; [done|]. by rewrite Hnone.
  - rewrite Hns, Hnumt. lia.
  - intros j Hj. apply (ii_below _ _ _ _ _ _ _ _ _ _ _ _ I' j Hj).
Qed.

Lemma scalein_ok m ls n dels is_abort :
  can_leave m ls n dels ->
  let used := without (used_of (target_inst_part_tbl m)) dels in
  let num := task_num m + zsum (fun x => if decide (x ∈ dels) then len (ls x) else 0) ids in
  exists m' ls', drc_scalein_remaster dels is_abort m = Ok (OG_SUCCESS, m') /\
    balanced (target_part_map m') (target_inst_part_tbl m') ls' (n - len dels) /\
    (forall x, is_inst x -> used_of (target_inst_part_tbl m') x = used x) /\
    moves (target_part_map m) (target_part_map m') (remaster_task_set m') (task_num m) num
      (fun x => x ∈ dels) (fun x => is_inst x /\ used x = true) (if is_abort then PART_WAIT_RECOVERY else PART_WAIT_MIGRATE) /\
    task_num m' = (if is_abort then task_num m else num) /\
    (forall j, j < task_num m -> remaster_task_set m' !! j = remaster_task_set m !! j) /\
    m' = set_rebalance (n - len dels) (mngr_rebalance m') m.
Proof.
  intros C used num. pose proof C as [B Hnum Hs0 Hroom Hdom Hne Hrest Hnd Hin Hold Hag].
  destruct (mark_used_ok (fun e => ip_set_expected 0 (ip_set_used false e)) dels (target_inst_part_tbl m) Hnd) as (tbl1 & Em & Ht1).
  { intros x Hx. rewrite Forall_forall in Hin. destruct (lo_entry _ _ _ _ (ba_lists _ _ _ _ B) x (Hin x Hx)) as (e & -> & _). by eexists. }
  set (st := if is_abort then PART_WAIT_RECOVERY else PART_WAIT_MIGRATE).
  destruct (scalein_steps m ls n dels tbl1 st C Ht1) as (s & ls' & s' & Es & Ei & B' & Hu & M & Hn & Hb).
  exists (set_rebalance (n - len dels) (if is_abort then mk_reb (rb_map s') (rb_tbl s') (rb_tasks s') (task_num m) else s') m), ls'.
  rewrite Hn in M. split; [|destruct is_abort; split_and!; done].
  assert (pm_inst_num m - Z.of_nat (length dels) = n - len dels) as Hnn by (unfold len; lia).
  eapply eq_trans; [|by rewrite <- Hnn]. rewrite <- Hnn in Es. clear -Em Es Ei Hne Hold Hrest Hnum.
  unfold drc_scalein_remaster. rewrite bool_decide_false by done.
  replace (pm_inst_num m <=? Z.of_nat (length dels)) with false by (unfold len in Hrest; lia).
  rewrite (bind_ok _ _ ()) by done. rewrite (bind_ok _ _ true) by (apply all_used_ok; intros x Hx; by apply Hold).
  rewrite (bind_ok _ _ ()) by done. rewrite (bind_ok _ _ tbl1 Em). cbv zeta. rewrite (bind_ok _ _ s Es). by rewrite (bind_ok _ _ s' Ei).
Qed.
