(* ===== verification/DrcPartInit.v ===== *)
(** The first assignment: [drc_part_init] (src/pkg/src/cluster/dtc_drc.c)
    deals the partitions to the instances in turn, and the shares are even. *)

From S2P Require Import Prelude DrcBitmap DrcGlobalRes DrcReform DrcPart DrcPartInv DrcPartThm.

(** ** Dealing in turn *)

(** Partitions below [i] whose turn is the instance in place [j] of [n]. *)
Definition dealt (n j i : Z) : list Z := filter (fun p => p mod n = j) (seqZ 0 i).

Lemma dealt_snoc n j i : 0 <= i -> dealt n j (i + 1) = dealt n j i ++ if decide (i mod n = j) then [i] else [].
Proof. intros Hi. unfold dealt. by rewrite seqZ_snoc, filter_app by done. Qed.

Lemma elem_of_dealt n j i p : p ∈ dealt n j i <-> 0 <= p < i /\ p mod n = j.
Proof. unfold dealt. rewrite list_elem_of_filter, elem_of_seqZ. split; lia. Qed.

Lemma NoDup_dealt n j i : NoDup (dealt n j i).
Proof. apply NoDup_filter, NoDup_seqZ. Qed.

Lemma dealt_len n j i :
  0 < n -> 0 <= j < n -> 0 <= i -> len (dealt n j i) = i / n + if j <? i mod n then 1 else 0.
Proof.
  intros Hn Hj Hi. pattern i. apply natlike_ind; [|clear i Hi|done].
  { rewrite Z.div_0_l, Z.mod_0_l by lia. replace (j <? 0) with false by lia. done. }
  intros i Hi IH. unfold Z.succ. rewrite dealt_snoc by done. unfold len in *. rewrite length_app, Nat2Z.inj_add, IH.
  pose proof (Z.div_mod i n ltac:(lia)) as D. pose proof (Z.mod_pos_bound i n Hn) as R.
  destruct (decide (i mod n + 1 = n)) as [E|E].
  - rewrite <- (Z.div_unique (i + 1) n (i / n + 1) 0), <- (Z.mod_unique (i + 1) n (i / n + 1) 0) by lia.
    replace (j <? 0) with false by lia. case_decide; cbn [length]; case_match; lia.
  - rewrite <- (Z.div_unique (i + 1) n (i / n) (i mod n + 1)), <- (Z.mod_unique (i + 1) n (i / n) (i mod n + 1)) by lia.
    case_decide; cbn [length]; repeat case_match; lia.
Qed.

Lemma dealt_quota n j : 0 < n -> 0 <= j < n -> len (dealt n j DRC_MAX_PART_NUM) = quota n j.
Proof. intros Hn Hj. rewrite dealt_len by (done || unfold DRC_MAX_PART_NUM; lia). unfold quota. case_match; lia. Qed.

(** A list gets one more partition at its end. *)
Lemma plist_snoc pm pm' l i q : forall h z,
  plist pm h l -> last l = Some z -> NoDup l -> i ∉ l -> pm' !! i = Some q ->
  (exists p, pm' !! z = Some p /\ pt_next p = i) -> (forall y, y ∈ l -> y <> z -> pm' !! y = pm !! y) ->
  plist pm' h (l ++ [i]).
Proof.
  induction l as [|a l IH]; intros h z Hl Hz Hnd Hi Hq Hp Hs; [done|]. destruct Hl as [-> (p & Hpa & Hl)].
  destruct Hp as (pz & Hpz & Hnz). cbn [app plist]. split; [done|]. apply NoDup_cons in Hnd as [Ha Hnd]. destruct l as [|b l].
  - injection Hz as <-. exists pz. split; [done|]. cbn. split; [done|]. eauto.
  - assert (z ∈ b :: l) as Hzin by (by apply last_Some_elem_of). exists p. split.
    + rewrite Hs by (set_solver || (intros ->; set_solver)). done.
    + apply (IH (pt_next p) z); try done; [set_solver|eauto|]. intros y Hy. apply Hs. set_solver.
Qed.

Definition ascending (l : list Z) : Prop := forall a b x y, l !! a = Some x -> l !! b = Some y -> (a < b)%nat -> x < y.

(** ** The loop *)
Section Init.
Context (insts : list Z) (n : Z).
Context (Hlen : len insts = n) (Hpos : 0 < n) (Hnd : NoDup insts) (Hin : Forall is_inst insts).

(** The partitions that [x] has when [i] of them are dealt. *)
Definition init_list (i x : Z) : list Z :=
  match list_find (x =.) insts with Some (j, _) => dealt n (Z.of_nat j) i | None => [] end.

Lemma init_list_at i j x : insts !! j = Some x -> init_list i x = dealt n (Z.of_nat j) i.
Proof.
  intros Hj. unfold init_list. destruct (list_find (x =.) insts) as [[j' y]|] eqn:E.
  - apply list_find_Some in E as (Hj' & -> & _). by rewrite (NoDup_lookup _ _ _ _ Hnd Hj Hj').
  - apply list_find_None in E. rewrite Forall_forall in E. exfalso. eapply E; [by eapply list_elem_of_lookup_2|done].
Qed.

Lemma init_list_none i x : x ∉ insts -> init_list i x = [].
Proof.
  intros Hx. unfold init_list. destruct (list_find (x =.) insts) as [[j' y]|] eqn:E; [|done].
  apply list_find_Some in E as (Hj' & -> & _). destruct Hx. by eapply list_elem_of_lookup_2.
Qed.

Lemma init_list_out i x p : p ∈ init_list i x -> 0 <= p < i /\ insts !! Z.to_nat (p mod n) = Some x.
Proof.
  unfold init_list. destruct (list_find (x =.) insts) as [[j y]|] eqn:E; [|set_solver].
  apply list_find_Some in E as (Hj & -> & _). rewrite elem_of_dealt. intros [Hp ->]. by rewrite Nat2Z.id.
Qed.

Record init_inv (i : Z) (pm : gmap Z drc_part) (tbl : gmap Z drc_inst_part) : Prop := {
  in_dom : forall p, 0 <= p < DRC_MAX_PART_NUM -> is_Some (pm !! p);
  in_entry : forall x, is_inst x -> exists e, tbl !! x = Some e /\ ip_count e = len (init_list i x) /\
    ip_used e = bool_decide (init_list i x <> []) /\ plist pm (ip_first e) (init_list i x) /\
    (init_list i x <> [] -> last (init_list i x) = Some (ip_last e));
  in_owner : forall x p, is_inst x -> p ∈ init_list i x -> exists q, pm !! p = Some q /\ pt_inst q = x;
}.

Lemma init_list_succ i y x :
  0 <= i -> insts !! Z.to_nat (i mod n) = Some y ->
  init_list (i + 1) x = if decide (x = y) then init_list i x ++ [i] else init_list i x.
Proof.
  intros Hi Hy. pose proof (Z.mod_pos_bound i n Hpos) as Hm. destruct (decide (x = y)) as [->|Hne].
  - rewrite !(init_list_at _ _ _ Hy), dealt_snoc by done. by rewrite decide_True by lia.
  - unfold init_list. destruct (list_find (x =.) insts) as [[j z]|] eqn:E; [|done].
    apply list_find_Some in E as (Hj & -> & _). rewrite dealt_snoc by done. rewrite decide_False; [by rewrite app_nil_r|].
    intros Hjm. rewrite Hjm, Nat2Z.id in Hy. congruence.
Qed.

(** What one round has to do. *)
Lemma init_inv_step i y pm tbl pm' tbl' e e' :
  0 <= i -> insts !! Z.to_nat (i mod n) = Some y -> init_inv i pm tbl -> tbl !! y = Some e ->
  (forall p, 0 <= p < DRC_MAX_PART_NUM -> is_Some (pm' !! p)) ->
  (forall x, x <> y -> tbl' !! x = tbl !! x) -> tbl' !! y = Some e' ->
  ip_count e' = ip_count e + 1 -> ip_used e' = true -> plist pm' (ip_first e') (init_list i y ++ [i]) -> ip_last e' = i ->
  (exists q, pm' !! i = Some q /\ pt_inst q = y) ->
  (forall p q, p <> i -> pm !! p = Some q -> exists q', pm' !! p = Some q' /\ pt_inst q' = pt_inst q) ->
  (forall x p, is_inst x -> x <> y -> p ∈ init_list i x -> pm' !! p = pm !! p) -> init_inv (i + 1) pm' tbl'.
Proof.
  intros Hi Hy [Hd He Ho] Hte D1 T1 T2 C1 U1 L1 La1 O1 O2 O3. pose proof (fun x => init_list_succ i y x Hi Hy) as Hsucc. split; [done| |].
  - intros x Hx. rewrite Hsucc. destruct (decide (x = y)) as [->|Hne].
    + destruct (He y Hx) as (e0 & He0 & Hce & _). assert (e0 = e) as -> by congruence. exists e'. split_and!; try done.
      * rewrite C1, Hce. unfold len. rewrite length_app. cbn. lia.
      * rewrite U1. symmetry. apply bool_decide_true. by destruct (init_list i y).
      * intros _. rewrite last_snoc. congruence.
    + rewrite T1 by done. destruct (He x Hx) as (ex & ? & ? & ? & ? & ?). exists ex. split_and!; try done.
      eapply plist_frame; [|done]. intros p q Hp Hq. exists q. by rewrite (O3 x p Hx Hne Hp).
  - intros x p Hx. rewrite Hsucc. destruct (decide (x = y)) as [->|Hne]; [rewrite elem_of_app, list_elem_of_singleton|].
    + intros [Hp| ->]; [|done]. destruct (Ho y p Hx Hp) as (q & Hq & <-).
      destruct (O2 p q) as (q' & ? & ?); [intros ->; apply init_list_out in Hp; lia|done|]. by exists q'.
    + intros Hp. rewrite (O3 x p Hx Hne Hp). by apply Ho.
Qed.

(** One partition is dealt. *)
Lemma part_init_step_ok i y pm tbl :
  0 <= i < DRC_MAX_PART_NUM -> insts !! Z.to_nat (i mod n) = Some y -> init_inv i pm tbl ->
  exists pm' tbl', part_init_step y i pm tbl = Ok (pm', tbl') /\ init_inv (i + 1) pm' tbl'.
Proof.
  intros Hi Hy I. pose proof I as [Hd He Ho].
  assert (is_inst y) as Hiy by (rewrite Forall_forall in Hin; apply Hin; by eapply list_elem_of_lookup_2).
  destruct (He y Hiy) as (e & Hte & Hce & Hue & Hle & Hla). destruct (Hd i Hi) as [q0 Hq0].
  assert (forall x, i ∉ init_list i x) as Hout by (intros x Hx; apply init_list_out in Hx; lia).
  assert (len (init_list i y) <= i) as Hbound.
  { rewrite (init_list_at _ _ _ Hy). unfold len, dealt. etrans; [apply inj_le, length_filter|]. rewrite length_seqZ. lia. }
  unfold part_init_step, wr, rd. rewrite Hq0, Hte. cbn [mbind outcome_bind].
  destruct (Z.eqb_spec (ip_count e) 0) as [Hz|Hz].
  - cbn [mbind outcome_bind]. rewrite lookup_insert_eq. cbn [mbind outcome_bind]. rewrite lookup_insert_eq.
    cbn [mbind outcome_bind]. eexists _, _. split; [done|]. rewrite !insert_insert_eq.
    assert (init_list i y = []) as Hnil by (apply len_nil; lia).
    eapply (init_inv_step i y pm tbl); [lia|done|done|done| | |by rewrite lookup_insert_eq| | | | | | |].
    + intros p Hp. rewrite lookup_insert_is_Some'. right. by apply Hd.
    + intros x Hx. by rewrite lookup_insert_ne.
    + cbn. unfold u16. rewrite Hz. done.
    + done.
    + rewrite Hnil. cbn. split; [done|]. eexists. by rewrite lookup_insert_eq.
    + done.
    + rewrite lookup_insert_eq. by eexists.
    + intros p q Hp Hq. rewrite lookup_insert_ne by done. eauto.
    + intros x p Hx _ Hp. rewrite lookup_insert_ne; [done|]. intros ->. by apply (Hout x).
  - assert (init_list i y <> []) as Hnn by (intros E; rewrite E in Hce; done). specialize (Hla Hnn).
    assert (ip_last e ∈ init_list i y) as Hlin by (by apply last_Some_elem_of).
    destruct (Ho y _ Hiy Hlin) as (ql & Hql & Hqly). assert (ip_last e <> i) as Hli by (intros E; rewrite E in Hlin; by apply (Hout y)).
    rewrite lookup_insert_ne, Hql by done. cbn [mbind outcome_bind]. rewrite Hte. cbn [mbind outcome_bind].
    rewrite lookup_insert_ne, lookup_insert_eq by done. cbn [mbind outcome_bind]. eexists _, _. split; [done|].
    rewrite insert_insert_ne, insert_insert_eq by done.
    eapply (init_inv_step i y pm tbl); [lia|done|done|done| | |by rewrite lookup_insert_eq| | | | | | |].
    + intros p Hp. rewrite !lookup_insert_is_Some'. right. right. by apply Hd.
    + intros x Hx. by rewrite lookup_insert_ne.
    + cbn. unfold u16. rewrite Z.mod_small; [done|]. rewrite Hce. unfold DRC_MAX_PART_NUM, len in *. lia.
    + cbn. rewrite Hue. by apply bool_decide_true.
    + eapply (plist_snoc pm); try done.
      * rewrite (init_list_at _ _ _ Hy). apply NoDup_dealt.
      * rewrite lookup_insert_ne, lookup_insert_eq by done. done.
      * rewrite lookup_insert_eq. by eexists.
      * intros z Hz1 Hz2. rewrite !lookup_insert_ne; [done| |done]. intros ->. by apply (Hout y).
    + done.
    + rewrite lookup_insert_ne, lookup_insert_eq by done. by eexists.
    + intros p q Hp Hq. destruct (decide (p = ip_last e)) as [->|]; [|rewrite !lookup_insert_ne by done; eauto].
      rewrite lookup_insert_eq. eexists. split; [done|]. cbn. congruence.
    + intros x p Hx Hxy Hp. assert (p <> i) by (intros ->; by apply (Hout x)).
      assert (p <> ip_last e). { intros ->. apply Hxy. destruct (Ho x _ Hx Hp) as (? & ? & <-). congruence. }
      by rewrite !lookup_insert_ne.
Qed.

Lemma part_init_loop_ok m : forall i pm tbl,
  0 <= i -> i + Z.of_nat m = DRC_MAX_PART_NUM -> init_inv i pm tbl ->
  exists pm' tbl', part_init_loop m i insts n pm tbl = Ok (pm', tbl') /\ init_inv DRC_MAX_PART_NUM pm' tbl'.
Proof.
  induction m as [|m IH]; intros i pm tbl Hi Him I.
  { cbn. exists pm, tbl. split; [done|]. by replace DRC_MAX_PART_NUM with i by lia. }
  cbn [part_init_loop]. pose proof (Z.mod_pos_bound i n Hpos) as Hm.
  destruct (lookup_lt_is_Some_2 insts (Z.to_nat (i mod n))) as [y Hy]; [unfold len in Hlen; lia|].
  unfold arg. rewrite Hy. replace (i mod n <? 0) with false by lia. cbn [mbind outcome_bind].
  destruct (part_init_step_ok i y pm tbl ltac:(lia) Hy I) as (pm1 & tbl1 & -> & I1). cbn [mbind outcome_bind].
  apply (IH (i + 1)); [lia|lia|done].
Qed.

(** Every partition is dealt. *)
Lemma init_whole : concat (init_list DRC_MAX_PART_NUM <$> ids) ≡ₚ all_parts.
Proof.
  apply NoDup_Permutation.
  - assert (forall l, NoDup l -> NoDup (concat (init_list DRC_MAX_PART_NUM <$> l))) as H; [|apply H, NoDup_ids].
    induction 1 as [|x l Hx Hl IH]; cbn; [constructor|]. apply NoDup_app. split_and!; [| |done].
    + unfold init_list. case_match; [|constructor]. case_match. apply NoDup_dealt.
    + intros p Hp (x' & Hx' & Hp')%elem_of_concat_fmap. apply init_list_out in Hp as [_ Hp], Hp' as [_ Hp'].
      assert (x' = x) as -> by congruence. done.
  - apply NoDup_seqZ.
  - intros p. rewrite elem_of_concat_fmap. unfold all_parts. rewrite elem_of_seqZ. split.
    + intros (x & _ & Hp%init_list_out). lia.
    + intros Hp. pose proof (Z.mod_pos_bound p n Hpos) as Hm.
      destruct (lookup_lt_is_Some_2 insts (Z.to_nat (p mod n))) as [y Hy]; [unfold len in Hlen; lia|].
      exists y. split; [|rewrite (init_list_at _ _ _ Hy), elem_of_dealt; lia].
      apply elem_of_ids. rewrite Forall_forall in Hin. apply Hin. by eapply list_elem_of_lookup_2.
Qed.

(** In an ascending list the place of an instance is the number of smaller
    ones. *)
Lemma rank_sorted (used : Z -> bool) j x :
  ascending insts -> (forall y, is_inst y -> used y = bool_decide (y ∈ insts)) -> insts !! j = Some x ->
  rank used x = Z.of_nat j.
Proof.
  intros Hs Hu Hj. rewrite Forall_forall in Hin. assert (is_inst x) as Hx by (eapply Hin, list_elem_of_lookup_2, Hj).
  assert (forall y, is_inst y -> y ∈ take j insts <-> y ∈ insts /\ y < x) as Htk.
  { intros y Hy. rewrite !list_elem_of_lookup. split.
    - intros (a & Ha). pose proof (lookup_lt_Some _ _ _ Ha) as Hl. rewrite length_take in Hl.
      rewrite lookup_take_lt in Ha by lia. split; [eauto|]. eapply (Hs a j); [done..|lia].
    - intros [(a & Ha) Hyx]. exists a. rewrite lookup_take_lt; [done|]. destruct (decide (a = j)) as [->|]; [simplify_eq; lia|].
      destruct (decide (j < a)%nat); [|lia]. pose proof (Hs j a x y Hj Ha ltac:(done)). lia. }
  unfold rank. rewrite (zsum_ext _ (fun y => if decide (y ∈ take j insts) then 1 else 0)).
  - rewrite zsum_indicator.
    + unfold len. rewrite length_take. apply lookup_lt_Some in Hj. lia.
    + apply NoDup_seqZ.
    + eapply sublist_NoDup; [exact Hnd|]. apply sublist_take.
    + intros y Hy. assert (is_inst y) as Hiy by (apply Hin; eapply elem_of_take in Hy as (? & ? & _); by eapply list_elem_of_lookup_2).
      apply Htk in Hy as [_ Hyx]; [|done]. rewrite elem_of_seqZ. destruct Hiy. lia.
  - intros y Hy%elem_of_seqZ. assert (is_inst y) as Hiy by (unfold is_inst in *; lia). rewrite Hu by done.
    destruct (decide (y ∈ take j insts)) as [Ht|Ht]; rewrite Htk in Ht by done.
    + by rewrite bool_decide_true by apply Ht.
    + rewrite bool_decide_false; [done|]. intros H. apply Ht. split; [done|lia].
Qed.
End Init.

(** ** The function *)

(** The tables of a manager that is not initialised. *)
Record fresh_mngr (m : drc_part_mngr) : Prop := {
  fr_inited : pm_inited m = false;
  fr_map : forall p, 0 <= p < DRC_MAX_PART_NUM -> is_Some (part_map m !! p);
  fr_tbl : forall x, is_inst x -> exists e, inst_part_tbl m !! x = Some e /\ ip_count e = 0 /\ ip_used e = false;
}.

Lemma ascending_nodup insts : ascending insts -> NoDup insts.
Proof.
  intros Hasc. apply NoDup_alt. intros i j x Hi Hj. destruct (lt_eq_lt_dec i j) as [[?|?]|?]; [|done|].
  - pose proof (Hasc i j x x Hi Hj ltac:(done)). lia.
  - pose proof (Hasc j i x x Hj Hi ltac:(done)). lia.
Qed.

Lemma len_insts insts : NoDup insts -> Forall is_inst insts ->
  rank (joined (fun _ => false) insts) OG_MAX_INSTANCES = len insts /\ len insts <= OG_MAX_INSTANCES.
Proof.
  intros Hnd Hin. pose proof (rank_joined (fun _ => false) insts Hnd Hin ltac:(done)) as Hr.
  change (rank (fun _ => false) OG_MAX_INSTANCES) with 0 in Hr. split; [lia|].
  pose proof (rank_bound (joined (fun _ => false) insts) OG_MAX_INSTANCES ltac:(done)). lia.
Qed.

(** The end of the loop is an even assignment. *)
Lemma init_balanced insts pm tbl (f : drc_inst_part -> drc_inst_part) :
  insts <> [] -> ascending insts -> Forall is_inst insts -> init_inv insts (len insts) DRC_MAX_PART_NUM pm tbl ->
  (forall e, ip_first (f e) = ip_first e /\ ip_count (f e) = ip_count e /\ ip_used (f e) = ip_used e) ->
  balanced pm (f <$> tbl) (init_list insts (len insts) DRC_MAX_PART_NUM) (len insts) /\
  (forall x, is_inst x -> used_of (f <$> tbl) x = bool_decide (x ∈ insts)).
Proof.
  intros Hne Hasc Hin [Hd He Ho] Hf. set (n := len insts) in *. pose proof (ascending_nodup _ Hasc) as Hnd.
  destruct (len_insts insts Hnd Hin) as [Hr Hn]. fold n in Hr, Hn.
  assert (0 < n) as Hpos by (unfold n, len; destruct insts; [done|cbn; lia]).
  assert (forall x j, insts !! j = Some x -> len (init_list insts n DRC_MAX_PART_NUM x) = quota n (Z.of_nat j)) as Hq.
  { intros x j Hj. rewrite (init_list_at _ _ Hnd _ _ _ Hj). apply dealt_quota; [done|]. apply lookup_lt_Some in Hj. unfold n, len. lia. }
  assert (forall x, is_inst x -> used_of (f <$> tbl) x = bool_decide (x ∈ insts)) as Hu.
  { intros x Hx. destruct (He x Hx) as (e & Ht & _ & Hue & _). unfold used_of. rewrite lookup_fmap, Ht. cbn.
    rewrite (proj2 (proj2 (Hf e))), Hue. apply bool_decide_ext. split.
    - intros Hl. destruct (decide (x ∈ insts)); [done|]. by rewrite init_list_none in Hl.
    - intros (j & Hj)%list_elem_of_lookup Hnil. specialize (Hq x j Hj). rewrite Hnil in Hq.
      pose proof (quota_pos n (Z.of_nat j) ltac:(done)). unfold len in Hq. cbn [length] in Hq. lia. }
  split; [|done]. split; [split| |done|].
  - intros x Hx. destruct (He x Hx) as (e & Ht & Hc & _ & Hl & _). exists (f e). rewrite lookup_fmap, Ht.
    destruct (Hf e) as (-> & -> & _). done.
  - rewrite app_nil_l. by apply init_whole.
  - done.
  - rewrite (rank_ext _ (joined (fun _ => false) insts)); [done|]. intros y Hy. by rewrite Hu.
  - intros x Hx. rewrite Hu by done. destruct (bool_decide_reflect (x ∈ insts)) as [Hxi|Hxi]; [|by rewrite init_list_none].
    apply list_elem_of_lookup in Hxi as (j & Hj). rewrite (Hq x j Hj). f_equal. symmetry. by apply (rank_sorted insts n).
Qed.

Lemma part_init_ok insts m :
  fresh_mngr m -> insts <> [] -> ascending insts -> Forall is_inst insts ->
  exists m', drc_part_init insts (len insts) m = Ok m' /\
    balanced (part_map m') (inst_part_tbl m') (init_list insts (len insts) DRC_MAX_PART_NUM) (len insts) /\
    (forall x, is_inst x -> used_of (inst_part_tbl m') x = bool_decide (x ∈ insts)) /\
    (forall p, 0 <= p < DRC_MAX_PART_NUM -> exists q, part_map m' !! p = Some q /\ insts !! Z.to_nat (p mod len insts) = Some (pt_inst q)) /\
    pm_inited m' = true /\ pm_inst_num m' = len insts /\ pm_remaster_status m' = REMASTER_DONE.
Proof.
  intros [Hfi Hfm Hft] Hne Hasc Hin. set (n := len insts). pose proof (ascending_nodup _ Hasc) as Hnd.
  assert (0 < n) as Hn by (unfold n, len; destruct insts; [done|cbn; lia]).
  assert (init_inv insts n 0 (part_map m) (inst_part_tbl m)) as I0.
  { assert (forall x, init_list insts n 0 x = []) as H0 by (intros x; unfold init_list; case_match; [by case_match|done]).
    split; [done| |]; intros x; rewrite H0; [|set_solver].
    intros Hx. destruct (Hft x Hx) as (e & ? & ? & ?). exists e. split_and!; done. }
  destruct (part_init_loop_ok insts n ltac:(done) Hn Hnd Hin (Z.to_nat DRC_MAX_PART_NUM) 0 _ _ ltac:(lia) ltac:(done) I0)
    as (pm' & tbl' & El & I).
  destruct (init_balanced insts pm' tbl' (fun e => if ip_used e then ip_set_expected (ip_count e) e else e) Hne Hasc Hin I) as [B Hu].
  { intros e. by destruct (ip_used e) eqn:?. }
  unfold drc_part_init. rewrite Hfi. replace (n =? 0) with false by lia. cbn [orb]. rewrite El. cbn [mbind outcome_bind].
  eexists. split; [reflexivity|]. cbn [part_map inst_part_tbl pm_inited pm_inst_num pm_remaster_status]. split_and!; try done.
  intros p Hp. pose proof (Z.mod_pos_bound p n Hn) as Hm.
  destruct (lookup_lt_is_Some_2 insts (Z.to_nat (p mod n))) as [y Hy]; [unfold n, len in *; lia|].
  assert (is_inst y) as Hiy by (rewrite Forall_forall in Hin; apply Hin; by eapply list_elem_of_lookup_2).
  destruct (in_owner _ _ _ _ _ I y p Hiy) as (q & Hq1 & <-); [rewrite (init_list_at _ _ Hnd _ _ _ Hy), elem_of_dealt; lia|].
  by exists q.
Qed.

(** What the first assignment does to the rest of the manager. *)
Lemma part_init_rest insts num m m' :
  drc_part_init insts num m = Ok m' -> num <> 0 -> pm_inited m = false ->
  remaster_task_set m' = remaster_task_set m /\ pm_mgrt_fail_list m' = false.
Proof.
  unfold drc_part_init. intros E Hn Hi. rewrite Hi in E. replace (num =? 0) with false in E by lia. cbn [orb] in E.
  destruct (part_init_loop _ _ _ _ _ _) as [[pm tbl]|]; [|done]. injection E as <-. done.
Qed.
