(* ===== verification/DrcPartReform.v ===== *)
(** The rebalancing of one reform: instances join, then others leave
    ([drc_execute_remaster], src/pkg/src/cluster/dtc_drc.c), and the tasks say
    exactly which partitions change their master. *)

From S2P Require Import Prelude DrcBitmap DrcGlobalRes DrcReform DrcPart DrcPartInv DrcPartThm DrcPartIn.

Lemma moves_none pm tasks a F T st : moves pm pm tasks a a F T st.
Proof. split; [lia..|done]. Qed.

(** A partition has a task or stays as it is. *)
Lemma moves_part pm pm' tasks a b F T st p : moves pm pm' tasks a b F T st ->
  (exists q q', pm !! p = Some q /\ F (pt_inst q) /\ pm' !! p = Some q' /\ T (pt_inst q') /\ pt_status q' = st) \/
  pm' !! p = pm !! p.
Proof.
  intros M. destruct (decide (Exists (fun j => tk_part <$> tasks !! j = Some p) (seqZ a (b - a)))) as [He|He].
  - left. apply Exists_exists in He as (j & Hj%elem_of_seqZ & Ht). apply fmap_Some in Ht as (t & Ht & ->).
    destruct (mv_task _ _ _ _ _ _ _ _ M j ltac:(lia)) as (t' & q & q' & Ht' & _ & Hq & Hx & Hf & Hq' & Hi & Hto & Hs).
    assert (t' = t) as -> by congruence. exists q, q'. rewrite Hx, Hi. done.
  - right. apply (mv_stay _ _ _ _ _ _ _ _ M). intros j t Hj Ht <-. apply He, Exists_exists. exists j.
    rewrite elem_of_seqZ, Ht. split; [lia|done].
Qed.

(** Two groups of tasks, the second of which takes nothing from those the
    first gave to. *)
Lemma moves_trans pm pm1 pm2 tasks1 tasks2 a b (F1 F2 T1 T2 F T : Z -> Prop) st :
  moves pm pm1 tasks1 0 a F1 T1 st -> moves pm1 pm2 tasks2 a b F2 T2 st -> 0 <= a <= b ->
  (forall j, j < a -> tasks2 !! j = tasks1 !! j) -> (forall x, T1 x -> F2 x -> False) ->
  (forall x, F1 x -> F x) -> (forall x, F2 x -> F x) -> (forall x, T1 x -> T x) -> (forall x, T2 x -> T x) ->
  moves pm pm2 tasks2 0 b F T st.
Proof.
  intros [M1 D1 O1 S1] [M2 D2 O2 S2] Hab Ht Hdis HF1 HF2 HT1 HT2.
  assert (forall i j ti tj, 0 <= i < a -> a <= j < b -> tasks1 !! i = Some ti -> tasks2 !! j = Some tj -> tk_part ti <> tk_part tj) as Hap.
  { intros i j ti tj Hi Hj Hti Htj Heq. destruct (M1 i Hi) as (t1 & _ & q1 & Ht1 & _ & _ & _ & _ & Hq1 & Hi1 & Hto & _).
    destruct (M2 j Hj) as (t2 & q2 & _ & Ht2 & _ & Hq2 & Hx2 & Hf2 & _). simplify_eq. apply (Hdis (tk_import ti)); [done|]. congruence. }
  split.
  - intros j Hj. destruct (decide (j < a)) as [Hja|Hja].
    + destruct (M1 j ltac:(lia)) as (t & q & q' & Htj & Hst & Hq & Hqx & Hf & Hq' & Hqi & Hto & Hps).
      exists t, q, q'. rewrite Ht by done. split_and!; eauto. rewrite S2; [done|].
      intros i t2 Hi Hti Hp. destruct (M2 i Hi) as (t3 & q3 & _ & Ht3 & _ & Hq3 & Hx3 & Hf3 & _).
      assert (t3 = t2) as -> by congruence. rewrite Hp in Hq3. assert (q3 = q') as -> by congruence.
      apply (Hdis (tk_import t)); [done|]. congruence.
    + destruct (M2 j ltac:(lia)) as (t & q & q' & Htj & Hst & Hq & Hqx & Hf & Hq' & Hqi & Hto & Hps).
      exists t, q, q'. split_and!; eauto. rewrite <- S1; [done|].
      intros i t1 Hi Hti Hp. destruct (M1 i Hi) as (t3 & _ & q3 & Ht3 & _ & _ & _ & _ & Hq3 & Hi3 & Hto3 & _).
      assert (t3 = t1) as -> by congruence. rewrite Hp in Hq3. assert (q3 = q) as -> by congruence.
      apply (Hdis (tk_export t)); [|done]. congruence.
  - intros j t Hj Htj. destruct (decide (j < a)); [apply (D1 j); [lia|by rewrite <- Ht]|apply (D2 j); [lia|done]].
  - intros i j ti tj Hi Hj Hti Htj Heq. destruct (decide (i < a)), (decide (j < a)).
    + rewrite Ht in Hti by done. rewrite Ht in Htj by done. by apply (O1 i j ti tj ltac:(lia) ltac:(lia)).
    + rewrite Ht in Hti by done. by destruct (Hap i j ti tj ltac:(lia) ltac:(lia)).
    + rewrite Ht in Htj by done. by destruct (Hap j i tj ti ltac:(lia) ltac:(lia)).
    + by apply (O2 i j ti tj ltac:(lia) ltac:(lia)).
  - intros p Hp. rewrite S2; [apply S1|]; intros j t Hj Htj; apply (Hp j); try lia; try done. by rewrite Ht by lia.
Qed.

Lemma balanced_num pm tbl ls n : balanced pm tbl ls n -> 0 < n <= OG_MAX_INSTANCES.
Proof. intros B. split; [apply B|]. rewrite <- (ba_num _ _ _ _ B). by apply rank_bound. Qed.

(** Every partition belongs to an instance in use. *)
Lemma balanced_master pm tbl ls n p :
  balanced pm tbl ls n -> 0 <= p < DRC_MAX_PART_NUM ->
  exists q, pm !! p = Some q /\ is_inst (pt_inst q) /\ used_of tbl (pt_inst q) = true.
Proof.
  intros B Hp. destruct (lists_part _ _ _ _ p (ba_lists _ _ _ _ B) Hp) as [?|(x & Hx & Hin)]; [set_solver|].
  destruct (lo_owner _ _ _ _ (ba_lists _ _ _ _ B) x p Hx Hin) as (q & Hq & <-). exists q. split_and!; try done.
  destruct (used_of tbl (pt_inst q)) eqn:Hu; [done|]. rewrite (balanced_unused _ _ _ _ _ B Hx Hu) in Hin. set_solver.
Qed.

(** No instance is removed because it crashed: the lists of such instances
    are empty, or the manager is told to pass over them. *)
Definition none_removed (m : drc_part_mngr) (abort fail : list Z) : Prop :=
  pm_mgrt_fail_list m = false \/ (abort = [] /\ fail = []).

Lemma none_removed_steps m m' abort fail : none_removed m abort fail -> pm_mgrt_fail_list m' = pm_mgrt_fail_list m ->
  pm_mgrt_fail_list m' && negb (bool_decide (abort = [])) = false /\ pm_mgrt_fail_list m' && negb (bool_decide (fail = [])) = false.
Proof. intros [Hf|[-> ->]] ->; [by rewrite Hf|]. rewrite !bool_decide_true by done. by rewrite andb_false_r. Qed.

(** ** One reform *)
Section Reform.
Context (m : drc_part_mngr) (ls : Z -> list Z) (n : Z) (join leave : list Z).
Let used := used_of (inst_part_tbl m).

(** The lists of a reform and the manager of the reformer fit together. *)
Record can_reform : Prop := {
  cr_bal : balanced (part_map m) (inst_part_tbl m) ls n;
  cr_num : pm_inst_num m = n;
  cr_dom : forall j, 0 <= j < DRC_MAX_PART_NUM -> is_Some (remaster_task_set m !! j);
  cr_nodup : NoDup (join ++ leave);
  cr_inst : Forall is_inst (join ++ leave);
  cr_join : forall x, x ∈ join -> used x = false;
  cr_leave : forall x, x ∈ leave -> used x = true;
  cr_rest : len leave < n + len join;
}.

Definition used_after (x : Z) : bool := without (joined used join) leave x.

(** The state between the two steps. *)
Record half (m1 : drc_part_mngr) (ls1 : Z -> list Z) : Prop := {
  hf_bal : balanced (target_part_map m1) (target_inst_part_tbl m1) ls1 (n + len join);
  hf_used : forall x, is_inst x -> used_of (target_inst_part_tbl m1) x = joined used join x;
  hf_moves : moves (part_map m) (target_part_map m1) (remaster_task_set m1) 0 (task_num m1)
    (fun x => is_inst x /\ used x = true) (fun x => x ∈ join) PART_WAIT_MIGRATE;
  hf_tasks : task_num m1 = zsum (fun x => if decide (x ∈ join) then len (ls1 x) else 0) ids;
  hf_dom : forall j, 0 <= j < DRC_MAX_PART_NUM -> is_Some (remaster_task_set m1 !! j);
  hf_num : pm_inst_num m1 = n + len join;
  hf_map : part_map m1 = part_map m;
  hf_tbl : inst_part_tbl m1 = inst_part_tbl m;
  hf_fail : pm_mgrt_fail_list m1 = pm_mgrt_fail_list m;
}.

Lemma join_step : can_reform -> exists m1 ls1,
  (if bool_decide (join = []) then Ok (OG_SUCCESS, drc_int_remaster_target m)
   else drc_scaleout_remaster false join (drc_int_remaster_target m)) = Ok (OG_SUCCESS, m1) /\ half m1 ls1.
Proof.
  intros [B Hnum Hdom Hnd Hin Hj Hl Hr]. apply NoDup_app in Hnd as (Hnj & Hdis & Hnl). apply Forall_app in Hin as [Hinj Hinl].
  destruct (decide (join = [])) as [Hnil|Hne].
  - rewrite bool_decide_true by done. exists (drc_int_remaster_target m), ls. split; [done|].
    split; rewrite ?Hnil; cbn [drc_int_remaster_target target_part_map target_inst_part_tbl task_num remaster_task_set pm_inst_num len length];
      unfold len; cbn [length]; rewrite ?Z.add_0_r; try done.
    + intros x Hx. unfold joined. rewrite bool_decide_false, orb_false_r by set_solver. done.
    + apply moves_none.
  - rewrite bool_decide_false by done.
    destruct (scaleout_ok (drc_int_remaster_target m) ls n join) as (m1 & ls1 & E & B1 & Hu & M & Ht & Hd & Hm).
    { split; try done. intros x Hx. split; [by apply Hj|]. rewrite Forall_forall in Hinj.
      destruct (lo_entry _ _ _ _ (ba_lists _ _ _ _ B) x (Hinj x Hx)) as (e & He & _). exists e. split; [done|].
      rewrite <- (used_of_entry _ _ _ He). by apply Hj. }
    exists m1, ls1. split; [done|]. split; try done.
    + rewrite Hm. cbn. unfold u8. pose proof (balanced_num _ _ _ _ B1). rewrite Z.mod_small; [done|]. unfold OG_MAX_INSTANCES in *. lia.
    + by rewrite Hm.
    + by rewrite Hm.
    + by rewrite Hm.
Qed.

(** The moves of the first step leave the second its lists and its room. *)
Lemma half_can_leave m1 ls1 : can_reform -> half m1 ls1 -> leave <> [] -> can_leave m1 ls1 (n + len join) leave.
Proof.
  intros [B Hnum Hdom Hnd Hin Hj Hl Hr] [B1 Hu1 M1 Ht1 Hd1 Hn1 Hm1 Htb1 _] Hne.
  apply NoDup_app in Hnd as (Hnj & Hdis & Hnl). apply Forall_app in Hin as [Hinj Hinl]. rewrite Forall_forall in Hinl.
  split; try done.
  - rewrite Ht1. apply zsum_nonneg. intros x _. unfold len. case_decide; lia.
  - rewrite Ht1, <- zsum_add. pose proof (lists_total _ _ _ _ (ba_lists _ _ _ _ B1)) as Htot. change (len []) with 0 in Htot.
    rewrite <- Htot, Z.add_0_l. generalize ids. induction l as [|x l IH]; cbn [zsum]; [done|].
    assert (0 <= len (ls1 x)) by (unfold len; lia).
    destruct (decide (x ∈ join)), (decide (x ∈ leave)); [by destruct (Hdis x)|lia..].
  - by apply Forall_forall.
  - intros x Hx. specialize (Hl x Hx) as Hux. split.
    + rewrite Hu1 by auto. unfold joined. by rewrite Hux.
    + rewrite Htb1. destruct (lo_entry _ _ _ _ (ba_lists _ _ _ _ B) x (Hinl x Hx)) as (e & He & _). exists e. split; [done|].
      by rewrite <- (used_of_entry _ _ _ He).
  - intros x p Hx Hp. rewrite Hm1. symmetry. apply (mv_stay _ _ _ _ _ _ _ _ M1). intros j t Hjt Ht Htp.
    destruct (mv_task _ _ _ _ _ _ _ _ M1 j Hjt) as (t' & _ & q & Ht' & _ & _ & _ & _ & Hq & Hqi & Hto & _).
    assert (t' = t) as -> by congruence. rewrite Htp in Hq.
    destruct (lo_owner _ _ _ _ (ba_lists _ _ _ _ B1) x p (Hinl x Hx) Hp) as (q' & Hq' & Hqx).
    assert (q' = q) as -> by congruence. apply (Hdis x); [|done]. rewrite Hqx in Hqi. by rewrite Hqi.
Qed.

(** The tasks of a part of the instances fit into the array. *)
Lemma some_tasks pm tbl lsx k (sel : list Z) : balanced pm tbl lsx k ->
  0 <= zsum (fun x => if decide (x ∈ sel) then len (lsx x) else 0) ids <= DRC_MAX_PART_NUM.
Proof.
  intros B. pose proof (lists_total _ _ _ _ (ba_lists _ _ _ _ B)) as Htot. change (len []) with 0 in Htot. rewrite <- Htot. rewrite Z.add_0_l.
  split; [apply zsum_nonneg; intros x _; unfold len; case_decide; lia|]. clear Htot.
  generalize ids. induction l as [|x l IH]; cbn [zsum]; [done|]. unfold len in *. case_decide; lia.
Qed.

Lemma reform_ok : can_reform -> forall abort fail, none_removed m abort fail ->
  exists m' ls', execute_rebalance false (mk_rlists join leave abort fail) m = Ok (OG_SUCCESS, m') /\
    balanced (target_part_map m') (target_inst_part_tbl m') ls' (n + len join - len leave) /\
    (forall x, is_inst x -> used_of (target_inst_part_tbl m') x = used_after x) /\
    moves (part_map m) (target_part_map m') (remaster_task_set m') 0 (task_num m')
      (fun x => is_inst x /\ used x = true) (fun x => is_inst x /\ used_after x = true) PART_WAIT_MIGRATE /\
    0 <= task_num m' <= DRC_MAX_PART_NUM /\
    pm_inst_num m' = n + len join - len leave /\ part_map m' = part_map m /\ inst_part_tbl m' = inst_part_tbl m.
Proof.
  intros C abort fail Hf. destruct (join_step C) as (m1 & ls1 & E1 & H1). pose proof H1 as [B1 Hu1 M1 Ht1 Hd1 Hn1 Hm1 Htb1 Hf1].
  unfold execute_rebalance. cbn [rl_join rl_leave rl_abort rl_fail]. rewrite (bind_ok _ _ _ E1). cbn beta iota.
  assert (forall x, x ∈ join -> is_inst x /\ used_after x = true) as Hjoin.
  { intros x Hx. pose proof (cr_inst C) as Hin. rewrite Forall_forall in Hin. split; [apply Hin; set_solver|].
    pose proof (cr_nodup C) as (_ & Hdis & _)%NoDup_app.
    unfold used_after, without, joined. rewrite (bool_decide_true (x ∈ join)), orb_true_r by done.
    rewrite bool_decide_false; [done|]. by apply Hdis. }
  destruct (decide (leave = [])) as [Hnil|Hne].
  - rewrite (bool_decide_true (leave = [])) by done. rewrite (bind_ok _ _ (OG_SUCCESS, m1)) by done. cbn beta iota. destruct (none_removed_steps _ _ _ _ Hf Hf1) as [Ha Hl]. do 2 (rewrite (bind_ok _ _ (OG_SUCCESS, m1)) by (by rewrite ?Ha, ?Hl); cbn beta iota).
    pose proof (some_tasks _ _ _ _ join B1) as [Hlo Hhi]. rewrite <- Ht1 in Hlo, Hhi.
    exists m1, ls1. replace (n + len join - len leave) with (n + len join) by (rewrite Hnil; unfold len; cbn [length]; lia).
    split_and!; try done.
    + intros x Hx. rewrite Hu1 by done. unfold used_after, without. by rewrite bool_decide_false, andb_true_r by (rewrite Hnil; set_solver).
    + eapply moves_mono; [intros x Hx; exact Hx|exact Hjoin|exact M1].
  - rewrite (bool_decide_false (leave = [])) by done.
    destruct (scalein_ok m1 ls1 (n + len join) leave false (half_can_leave m1 ls1 C H1 Hne)) as (m2 & ls2 & E2 & B2 & Hu2 & M2 & Ht2 & Hb2 & Hm2).
    rewrite (bind_ok _ _ _ E2). cbn beta iota.
    assert (pm_mgrt_fail_list m2 = pm_mgrt_fail_list m) as Hf2 by (rewrite Hm2; cbn; by rewrite Hf1).
    destruct (none_removed_steps _ _ _ _ Hf Hf2) as [Ha Hl]. do 2 (rewrite (bind_ok _ _ (OG_SUCCESS, m2)) by (by rewrite ?Ha, ?Hl); cbn beta iota).
    pose proof (half_can_leave m1 ls1 C H1 Hne) as CL. pose proof (cl_start _ _ _ _ CL) as Hlo0. pose proof (cl_room _ _ _ _ CL) as Hhi.
    pose proof (some_tasks _ _ _ _ leave B1) as [Hlo1 _]. cbn beta iota in Ht2. rewrite <- Ht2 in Hhi. assert (0 <= task_num m2) as Hlo by lia.
    exists m2, ls2. assert (forall x, is_inst x -> without (used_of (target_inst_part_tbl m1)) leave x = used_after x) as Huse.
    { intros x Hx. unfold without, used_after, without. by rewrite Hu1. }
    split_and!; try done.
    + intros x Hx. rewrite Hu2 by done. by apply Huse.
    + rewrite Ht2. eapply (moves_trans _ _ _ _ _ _ _ _ _ _ _ _ _ _ M1 M2); try done.
      * split; [rewrite Ht1|]; [|assert (0 <= zsum (fun x => if decide (x ∈ leave) then len (ls1 x) else 0) ids); [|lia]];
          apply zsum_nonneg; intros x _; unfold len; case_decide; lia.
      * intros x Hxj Hxl. pose proof (cr_nodup C) as (_ & Hdis & _)%NoDup_app. by apply (Hdis x).
      * intros x Hx. pose proof (cr_inst C) as Hin. rewrite Forall_forall in Hin. split; [apply Hin; set_solver|]. by apply (cr_leave C).
      * intros x [Hx Hux]. split; [done|]. by rewrite <- Huse.
    + rewrite Hm2. cbn. unfold u8. pose proof (balanced_num _ _ _ _ B2). rewrite Z.mod_small; [done|]. unfold OG_MAX_INSTANCES in *. lia.
    + by rewrite Hm2.
    + by rewrite Hm2.
Qed.

(** Instances that crashed: nothing is migrated from them. *)
Lemma abort_ok : can_reform -> join = [] -> leave <> [] -> pm_mgrt_fail_list m = true ->
  exists m' ls', execute_rebalance false (mk_rlists [] [] leave []) m = Ok (OG_SUCCESS, m') /\
    balanced (target_part_map m') (target_inst_part_tbl m') ls' (n - len leave) /\
    (forall x, is_inst x -> used_of (target_inst_part_tbl m') x = without used leave x) /\ task_num m' = 0 /\
    exists num, moves (part_map m) (target_part_map m') (remaster_task_set m') 0 num (fun x => x ∈ leave)
      (fun x => is_inst x /\ without used leave x = true) PART_WAIT_RECOVERY.
Proof.
  intros C Hj Hne Hf. destruct (join_step C) as (m1 & ls1 & E1 & H1). rewrite Hj in E1.
  rewrite bool_decide_true in E1 by done. injection E1 as <-.
  pose proof (half_can_leave _ ls1 C H1 Hne) as L. destruct (scalein_ok _ ls1 _ leave true L) as (m2 & ls2 & E2 & B2 & Hu2 & M2 & Ht2 & _ & Hm2).
  exists m2, ls2. unfold execute_rebalance. cbn [rl_join rl_leave rl_abort rl_fail]. rewrite !(bool_decide_true ([] = [])) by done.
  rewrite (bind_ok _ _ (OG_SUCCESS, drc_int_remaster_target m)) by done. cbn beta iota.
  rewrite (bind_ok _ _ (OG_SUCCESS, drc_int_remaster_target m)) by done. cbn beta iota.
  change (pm_mgrt_fail_list (drc_int_remaster_target m)) with (pm_mgrt_fail_list m). rewrite Hf, (bool_decide_false (leave = [])) by done.
  cbn [andb negb]. rewrite (bind_ok _ _ _ E2). cbn beta iota. rewrite (bind_ok _ _ (OG_SUCCESS, m2)) by (by rewrite andb_false_r).
  replace (n + len join) with n in B2 by (rewrite Hj; unfold len; cbn [length]; lia).
  split_and!; [done|done|done|done|]. eexists. exact M2.
Qed.
End Reform.
