(* ===== verification/DrcPartProps.v ===== *)
(** The properties of the assignment of partitions: the first assignment, a
    reform in which instances join and leave, the removal of instances that
    crashed, and what two removals in one reform do. *)

From S2P Require Import Prelude DrcBitmap DrcGlobalRes DrcReform DrcPart DrcPartInv DrcPartThm DrcPartIn DrcPartInit DrcPartReform.

(** C36: [drc_part_init] on a manager that is not initialised deals the 1024
    partitions to the instances of its (ascending) array in turn: it returns,
    partition [p] gets the master in place [p mod n] of the array, every
    partition is on the list of exactly that instance, the instances of the
    array are the ones in use, and each has [1024 / n] partitions or one more,
    the first ones of the array having more. *)
Theorem part_init_even : forall insts m,
  fresh_mngr m -> insts <> [] -> ascending insts -> Forall is_inst insts ->
  exists m', drc_part_init insts (len insts) m = Ok m' /\
    balanced (part_map m') (inst_part_tbl m') (init_list insts (len insts) DRC_MAX_PART_NUM) (len insts) /\
    (forall x, is_inst x -> used_of (inst_part_tbl m') x = bool_decide (x ∈ insts)) /\
    (forall p, 0 <= p < DRC_MAX_PART_NUM ->
       exists q, part_map m' !! p = Some q /\ insts !! Z.to_nat (p mod len insts) = Some (pt_inst q)) /\
    pm_inited m' = true /\ pm_inst_num m' = len insts /\ pm_remaster_status m' = REMASTER_DONE.
Proof. exact part_init_ok. Qed.

Lemma fresh_zero : fresh_mngr zero_mngr.
Proof.
  split; [done| |].
  - intros p Hp. cbn. rewrite filled_lookup by done. by eexists.
  - intros x Hx. cbn. rewrite filled_lookup by done. by eexists.
Qed.

(** Three instances that start together. *)
Definition demo_mngr : drc_part_mngr := match drc_part_init [0; 1; 2] 3 zero_mngr with Ok m => m | Crash _ => zero_mngr end.

Lemma demo_ascending : ascending [0; 1; 2].
Proof.
  intros a b x y Ha Hb Hab. assert (a < 3)%nat by (by apply lookup_lt_Some in Ha). assert (b < 3)%nat by (by apply lookup_lt_Some in Hb).
  destruct a as [|[|[|]]], b as [|[|[|]]]; simplify_eq/=; lia.
Qed.

Lemma demo_insts : Forall is_inst [0; 1; 2].
Proof. repeat constructor; unfold is_inst, OG_MAX_INSTANCES; lia. Qed.

Lemma part_init_even_witness :
  exists m', drc_part_init [0; 1; 2] 3 zero_mngr = Ok m' /\ pm_inst_num m' = 3 /\
    balanced (part_map m') (inst_part_tbl m') (init_list [0; 1; 2] 3 DRC_MAX_PART_NUM) 3.
Proof.
  destruct (part_init_even [0; 1; 2] zero_mngr fresh_zero ltac:(discriminate) demo_ascending demo_insts)
    as (m' & E & B & _ & _ & _ & Hn & _).
  exists m'. split; [exact E|]. split; [exact Hn|exact B].
Defined.

Lemma demo_init : exists m', drc_part_init [0; 1; 2] 3 zero_mngr = Ok m' /\
  balanced (part_map m') (inst_part_tbl m') (init_list [0; 1; 2] 3 DRC_MAX_PART_NUM) 3 /\
  (forall x, is_inst x -> used_of (inst_part_tbl m') x = bool_decide (x ∈ [0; 1; 2])) /\ pm_inst_num m' = 3 /\
  remaster_task_set m' = remaster_task_set zero_mngr /\ pm_mgrt_fail_list m' = false.
Proof.
  destruct (part_init_ok [0; 1; 2] zero_mngr fresh_zero ltac:(discriminate) demo_ascending demo_insts) as (m' & E & B & U & _ & _ & Hn & _).
  exists m'. split; [exact E|]. split; [exact B|]. split; [exact U|]. split; [exact Hn|].
  destruct (part_init_rest _ _ _ _ E) as [Ht Hf]; [discriminate|reflexivity|]. split; [exact Ht|exact Hf].
Qed.

Lemma demo_balanced : pm_inst_num demo_mngr = 3 /\
  balanced (part_map demo_mngr) (inst_part_tbl demo_mngr) (init_list [0; 1; 2] 3 DRC_MAX_PART_NUM) 3 /\
  (forall x, is_inst x -> used_of (inst_part_tbl demo_mngr) x = bool_decide (x ∈ [0; 1; 2])).
Proof.
  destruct demo_init as (m' & E & B & U & Hn & _). unfold demo_mngr. rewrite E. split; [exact Hn|]. split; [exact B|exact U].
Qed.

Lemma demo_rest : (forall j, 0 <= j < DRC_MAX_PART_NUM -> is_Some (remaster_task_set demo_mngr !! j)) /\ pm_mgrt_fail_list demo_mngr = false.
Proof.
  destruct demo_init as (m' & E & _ & _ & _ & Ht & Hf). unfold demo_mngr. rewrite E. split; [|exact Hf].
  intros j Hj. rewrite Ht. unfold zero_mngr. cbn [remaster_task_set]. rewrite filled_lookup by exact Hj. by eexists.
Qed.

(** C37: a reform in which instances join and others leave (in any number),
    with the reformer mode off and without instances to be removed because
    they crashed or failed (the lists of them are empty, or [mgrt_fail_list]
    is off), computes, from an even assignment of the partitions, the target
    assignment of the instances in use afterwards: it returns, every partition
    is again on the list of exactly one instance, the shares are even, and the
    tasks are exactly the partitions whose master changes: each of these has
    one task, with its old and its new master, which are different and the
    latter in use afterwards, and a partition without a task stays as it
    is. *)
Theorem part_reform : forall m ls n join leave abort fail,
  can_reform m ls n join leave -> none_removed m abort fail ->
  exists m' ls', execute_rebalance false (mk_rlists join leave abort fail) m = Ok (OG_SUCCESS, m') /\
    balanced (target_part_map m') (target_inst_part_tbl m') ls' (n + len join - len leave) /\
    (forall x, is_inst x ->
       used_of (target_inst_part_tbl m') x = without (joined (used_of (inst_part_tbl m)) join) leave x) /\
    moves (part_map m) (target_part_map m') (remaster_task_set m') 0 (task_num m')
      (fun x => is_inst x /\ used_of (inst_part_tbl m) x = true)
      (fun x => is_inst x /\ used_of (target_inst_part_tbl m') x = true) PART_WAIT_MIGRATE /\
    pm_inst_num m' = n + len join - len leave /\ part_map m' = part_map m /\ inst_part_tbl m' = inst_part_tbl m.
Proof.
  intros m ls n join leave abort fail C Hf.
  destruct (reform_ok m ls n join leave C abort fail Hf) as (m' & ls' & E & B & Hu & M & _ & ? & ? & ?).
  exists m', ls'. split_and!; try done. eapply moves_mono; [intros x Hx; exact Hx| |exact M].
  intros x [Hx Hux]. split; [done|]. by rewrite Hu.
Qed.

Lemma demo_moving : NoDup [5; 3; 1] /\ Forall is_inst [5; 3; 1].
Proof. split; [by apply (bool_decide_unpack _)|]. repeat constructor; unfold is_inst, OG_MAX_INSTANCES; lia. Qed.

Lemma part_reform_witness :
  exists m' ls', execute_rebalance false (mk_rlists [5; 3] [1] [] []) demo_mngr = Ok (OG_SUCCESS, m') /\
    balanced (target_part_map m') (target_inst_part_tbl m') ls' 4.
Proof.
  destruct demo_balanced as (Hn & B & U), demo_rest as [D F].
  destruct (part_reform demo_mngr (init_list [0; 1; 2] 3 DRC_MAX_PART_NUM) 3 [5; 3] [1] [] []) as (m' & ls' & E & B' & _).
  - split; [exact B|exact Hn|exact D|apply demo_moving|apply demo_moving| | |vm_compute; reflexivity].
    + apply Forall_forall. apply Forall_cons_2; [|apply Forall_singleton]; rewrite U by (unfold is_inst, OG_MAX_INSTANCES; lia); reflexivity.
    + apply Forall_forall, Forall_singleton. rewrite U by (unfold is_inst, OG_MAX_INSTANCES; lia). reflexivity.
  - left. exact F.
  - exists m', ls'. split; [exact E|exact B'].
Defined.

(** C38: when instances crash (and no others join or leave) and the manager of
    the reformer is told to move their partitions ([mgrt_fail_list] is on),
    with the reformer mode off and from an even assignment, the reform moves
    exactly their partitions to the instances that stay, evenly: these
    partitions wait for recovery, every other partition keeps its master and
    its state, and no task is left for a migration, as nothing can be sent by
    an instance that is gone.  (With the flag off, as after a remaster that
    had to be stopped, the partitions stay where they are.) *)
Theorem part_abort : forall m ls n gone,
  can_reform m ls n [] gone -> gone <> [] -> pm_mgrt_fail_list m = true ->
  exists m' ls', execute_rebalance false (mk_rlists [] [] gone []) m = Ok (OG_SUCCESS, m') /\
    balanced (target_part_map m') (target_inst_part_tbl m') ls' (n - len gone) /\
    (forall x, is_inst x -> used_of (target_inst_part_tbl m') x = without (used_of (inst_part_tbl m)) gone x) /\
    task_num m' = 0 /\
    (forall p q, part_map m !! p = Some q -> 0 <= p < DRC_MAX_PART_NUM ->
       if decide (pt_inst q ∈ gone)
       then exists q', target_part_map m' !! p = Some q' /\ pt_status q' = PART_WAIT_RECOVERY /\
              used_of (inst_part_tbl m) (pt_inst q') = true /\ pt_inst q' ∉ gone
       else target_part_map m' !! p = Some q).
Proof.
  intros m ls n gone C Hne Hf. destruct (abort_ok m ls n [] gone C eq_refl Hne Hf) as (m' & ls' & E & B & Hu & Ht & num & M).
  exists m', ls'. split_and!; try done. intros p q Hq Hp.
  destruct (moves_part _ _ _ _ _ _ _ _ p M) as [(q0 & q' & Hq0 & Hin & Hq' & [Hi Hw] & Hs)|Hsame].
  - assert (q0 = q) as -> by congruence. rewrite decide_True by done. exists q'.
    unfold without in Hw. apply andb_true_iff in Hw as [? ?%negb_true_iff%bool_decide_eq_false]. done.
  - rewrite Hq in Hsame. destruct (decide (pt_inst q ∈ gone)) as [Hg|]; [|done]. exfalso.
    destruct (balanced_master _ _ _ _ p B Hp) as (q1 & Hq1 & Hx & Hux). assert (q1 = q) as -> by congruence.
    rewrite Hu in Hux by done. unfold without in Hux. by rewrite bool_decide_true, andb_false_r in Hux.
Qed.

(** The same manager once a crash was reported. *)
Definition report_failure (m : drc_part_mngr) : drc_part_mngr :=
  mk_mngr (pm_version m) (pm_inited m) (pm_inst_num m) (pm_remaster_status m) (pm_is_reentrant m) (pm_remaster_inst m) true
    (part_map m) (inst_part_tbl m) (target_part_map m) (target_inst_part_tbl m) (remaster_task_set m) (task_num m)
    (tmp_part_map m) (tmp_inst_part_tbl m).

Lemma can_reform_failure m ls n join leave : can_reform m ls n join leave -> can_reform (report_failure m) ls n join leave.
Proof. intros [? ? ? ? ? ? ? ?]. by split. Qed.

Lemma part_abort_witness :
  exists m' ls', execute_rebalance false (mk_rlists [] [] [1] []) (report_failure demo_mngr) = Ok (OG_SUCCESS, m') /\
    balanced (target_part_map m') (target_inst_part_tbl m') ls' 2.
Proof.
  destruct demo_balanced as (Hn & B & U), demo_rest as [D F].
  destruct (part_abort (report_failure demo_mngr) (init_list [0; 1; 2] 3 DRC_MAX_PART_NUM) 3 [1]) as (m' & ls' & E & B' & _).
  - apply can_reform_failure. split; [exact B|exact Hn|exact D|apply NoDup_singleton| | | |vm_compute; reflexivity].
    + repeat constructor; unfold OG_MAX_INSTANCES; lia.
    + intros x Hx. apply elem_of_nil in Hx. destruct Hx.
    + apply Forall_forall, Forall_singleton. rewrite U by (unfold is_inst, OG_MAX_INSTANCES; lia). reflexivity.
  - discriminate.
  - reflexivity.
  - exists m', ls'. split; [exact E|exact B'].
Defined.

(** The master of a partition and the state of an instance in the target of
    a reform. *)
Definition masters_of (r : outcome (status * drc_part_mngr)) (p x : Z) : option (option Z * bool) :=
  match r with
  | Ok (OG_SUCCESS, m) => Some (pt_inst <$> target_part_map m !! p, used_of (target_inst_part_tbl m) x)
  | _ => None
  end.

Lemma masters_of_ok r p x o b : masters_of r p x = Some (o, b) ->
  exists m, r = Ok (OG_SUCCESS, m) /\ (pt_inst <$> target_part_map m !! p) = o /\ used_of (target_inst_part_tbl m) x = b.
Proof. destruct r as [[[] m]|]; cbn; [intros [= <- <-]; by exists m|done..]. Qed.

(** When an instance leaves and another one crashes in the same reform
    the second removal follows the links of the current map
    (dtc_drc.c:3614), which the first one changed only in the target map:
    of three instances with even shares, 0 leaving and 1 crashed, the target
    assignment still has the crashed instance as the master of partition 1,
    although the table says that it is not in use. *)
Theorem part_scalein_twice :
  exists m', execute_rebalance false (mk_rlists [] [0] [1] []) (report_failure demo_mngr) = Ok (OG_SUCCESS, m') /\
    (pt_inst <$> target_part_map m' !! 1) = Some 1 /\ used_of (target_inst_part_tbl m') 1 = false.
Proof. apply masters_of_ok. vm_compute. reflexivity. Qed.
