(* ===== verification/DrcRemaster.v ===== *)
(** The remaster state machine: the status every instance reports to the
    reformer, the assignment of the tasks of a reform to the instances that
    export partitions, and the waits that end a step
    (src/pkg/src/cluster/dtc_drc.c).

    What a loop reads in its rounds (other threads write it) and whether a
    message is sent are arguments, indexed by the round. *)

From S2P Require Import Prelude DrcBitmap DrcGlobalRes DrcReform DrcPart.

Definition REFORM_FROZEN : Z := 1.
Definition REMASTER_SLEEP_INTERVAL : Z := 5.
Definition REMASTER_SEND_MSG_RETRY_TIMES : Z := 3.
Definition DRC_REMASTER_MIGRATE_RES_MAX_THREAD_NUM : Z := 8.

(** The members of [drc_remaster_mngr_t] that the tasks and the statuses use:
    [inst_drm_info] (two arrays), [local_task_set], [local_task_num],
    [complete_num] and the trigger version of [reform_info]. *)
Record drc_remaster_mngr := mk_rmngr {
  rg_status : gmap Z Z;
  rg_task_num : gmap Z Z;
  local_task_set : gmap Z drc_remaster_task;
  local_task_num : Z;
  complete_num : Z;
  rg_trigger_version : Z;
}.
Definition rg_set_status x g := mk_rmngr x (rg_task_num g) (local_task_set g) (local_task_num g) (complete_num g) (rg_trigger_version g).
Definition rg_set_task_num x g := mk_rmngr (rg_status g) x (local_task_set g) (local_task_num g) (complete_num g) (rg_trigger_version g).
Definition rg_set_local s n g := mk_rmngr (rg_status g) (rg_task_num g) s n (complete_num g) (rg_trigger_version g).
Definition rg_set_complete x g := mk_rmngr (rg_status g) (rg_task_num g) (local_task_set g) (local_task_num g) x (rg_trigger_version g).

(** ** Statuses *)

(** [drc_update_remaster_local_status]. *)
Definition drc_update_remaster_local_status (st : Z) (m : drc_part_mngr) : drc_part_mngr :=
  if pm_remaster_status m =? REMASTER_FAIL then m
  else
    mk_mngr (pm_version m) (pm_inited m) (pm_inst_num m) st
      (if REMASTER_PREPARE <? st then false else pm_is_reentrant m) (pm_remaster_inst m)
      (if st =? REMASTER_DONE then true else pm_mgrt_fail_list m)
      (part_map m) (inst_part_tbl m) (target_part_map m) (target_inst_part_tbl m) (remaster_task_set m) (task_num m)
      (tmp_part_map m) (tmp_inst_part_tbl m).

(** [drc_master_update_inst_remaster_status]. *)
Definition drc_master_update_inst_remaster_status (inst st : Z) (g : drc_remaster_mngr) : outcome drc_remaster_mngr :=
  s ← rd (rg_status g) inst;
  if s <? st then t ← wr (rg_status g) inst (fun _ => st); Ok (rg_set_status t g) else Ok g.

(** [drc_notify_remaster_status] of the reformer to itself, and the handler of
    the message of the others, [drc_process_remaster_status_notify]. *)
Definition notify_self (self st : Z) (g : drc_remaster_mngr) : outcome drc_remaster_mngr :=
  t ← wr (rg_status g) self (fun _ => st); Ok (rg_set_status t g).
Definition drc_process_remaster_status_notify (size_ok : bool) (rc_status version src st : Z) (m : drc_part_mngr) (g : drc_remaster_mngr) :
    outcome (drc_part_mngr * drc_remaster_mngr) :=
  if negb size_ok then Ok (m, g)
  else if (REFORM_RECOVER_DONE <=? rc_status) || (rc_status <? REFORM_FROZEN) || negb (version =? rg_trigger_version g) then Ok (m, g)
  else if OG_MAX_INSTANCES <=? src then Ok (m, g)
  else
    s ← rd (rg_status g) src;
    g ← (if negb (s =? st) then t ← wr (rg_status g) src (fun _ => st); Ok (rg_set_status t g) else Ok g);
    Ok (if st =? REMASTER_FAIL then drc_update_remaster_local_status REMASTER_FAIL m else m, g).

(** [drc_remaster_is_ready]: the loop over one list of instances, and over
    the instances that stay and those that leave. *)
Fixpoint all_in_status (insts : list Z) (st : Z) (info : gmap Z Z) : outcome bool :=
  match insts with
  | [] => Ok true
  | x :: insts' => s ← rd info x; if negb (s =? st) then Ok false else all_in_status insts' st info
  end.
Definition drc_remaster_is_ready (after leave : list Z) (st : Z) (info : gmap Z Z) : outcome bool :=
  a ← all_in_status after st info;
  if negb a then Ok false else all_in_status leave st info.

(** [drc_remaster_wait_all_node_ready], cut after [n] rounds ([None]): round
    [r] reads [info r] and the local status [local r]. *)
Fixpoint wait_ready_loop (n : nat) (round : nat) (elapsed timeout : Z) (after leave : list Z) (st : Z)
    (info : nat -> gmap Z Z) (local : nat -> Z) : outcome (option status) :=
  match n with
  | O => Ok None
  | S n' =>
      ready ← drc_remaster_is_ready after leave st (info round);
      if ready : bool then Ok (Some OG_SUCCESS)
      else if local round =? REMASTER_FAIL then Ok (Some OG_ERROR)
      else if timeout <=? elapsed then Ok (Some OG_ERROR)
      else wait_ready_loop n' (S round) (elapsed + REMASTER_SLEEP_INTERVAL) timeout after leave st info local
  end.
Definition drc_remaster_wait_all_node_ready (n : nat) (timeout : Z) (after leave : list Z) (st : Z)
    (info : nat -> gmap Z Z) (local : nat -> Z) : outcome (option status) :=
  wait_ready_loop n 0 0 timeout after leave st info local.

(** [drc_remaster_wait_migrate_finish] from task [i] on, cut after [n] rounds
    ([None]): round [r] reads the tasks [tasks r] and the local status
    [local r]. *)
Fixpoint finish_loop (n : nat) (round : nat) (i elapsed timeout self : Z) (tasks : nat -> gmap Z drc_remaster_task)
    (local : nat -> Z) : outcome (option status) :=
  match n with
  | O => Ok None
  | S n' =>
      if DRC_MAX_PART_NUM <=? i then Ok (Some OG_SUCCESS)
      else
        t ← rd (tasks round) i;
        if (tk_import t =? self) && negb (tk_export t =? self) then
          if local round =? REMASTER_FAIL then Ok (Some OG_ERROR)
          else if bool_decide (tk_status t = PART_MIGRATE_COMPLETE) then finish_loop n' (S round) (i + 1) elapsed timeout self tasks local
          else if timeout <=? elapsed then Ok (Some OG_ERROR)
          else finish_loop n' (S round) i (elapsed + REMASTER_SLEEP_INTERVAL) timeout self tasks local
        else finish_loop n' (S round) (i + 1) elapsed timeout self tasks local
  end.
Definition drc_remaster_wait_migrate_finish (n : nat) (timeout self : Z) (tasks : nat -> gmap Z drc_remaster_task)
    (local : nat -> Z) : outcome (option status) :=
  finish_loop n 0 0 0 timeout self tasks local.

(** ** Messages *)

(** [drc_mes_send_data_with_retry]: attempt [r] is successful or not, and the
    view that is read when it is not. *)
Fixpoint retry_loop (n : nat) (r : nat) (dst : Z) (ok : nat -> bool) (alive : nat -> Z) : status :=
  match n with
  | O => OG_ERROR
  | S n' =>
      if ok r then OG_SUCCESS
      else if negb (drc_bitmap64_exist (alive r) dst) then OG_ERROR
      else retry_loop n' (S r) dst ok alive
  end.
Definition drc_mes_send_data_with_retry (retry_time dst : Z) (ok : nat -> bool) (alive : nat -> Z) : status :=
  if OG_MAX_INSTANCES <=? dst then OG_ERROR else retry_loop (Z.to_nat retry_time) 0 dst ok alive.

(** The message of [drc_send_remaster_task_msg]: the destination and the
    tasks it is to export. *)
Record task_msg := mk_tmsg { tm_dst : Z; tm_tasks : list drc_remaster_task }.

(** [num] tasks from position [pos] on, as they are copied to the message. *)
Fixpoint task_slice (num : nat) (pos : Z) (tasks : gmap Z drc_remaster_task) : outcome (list drc_remaster_task) :=
  match num with
  | O => Ok []
  | S n => t ← rd tasks pos; l ← task_slice n (pos + 1) tasks; Ok (t :: l)
  end.

(** [drc_send_remaster_task_msg]; [send k] is what comes of message [k], its
    attempts and the wait for its acknowledgement; [sent] collects the
    messages that are acknowledged. *)
Definition drc_send_remaster_task_msg (send : nat -> status) (tasks : gmap Z drc_remaster_task) (pos num self dst : Z)
    (sent : list task_msg) : outcome (status * list task_msg) :=
  if self =? dst then Ok (OG_SUCCESS, sent)
  else
    body ← task_slice (Z.to_nat num) pos tasks;
    let ret := send (length sent) in
    Ok (ret, if bool_decide (ret = OG_SUCCESS) then sent ++ [mk_tmsg dst body] else sent).

(** ** Assigning the tasks *)

(** One group of tasks [cur_pos .. cur_pos + inst_part_num) of [cur_inst] is
    sent, or its first task becomes a local one. *)
Definition assign_group (send : nat -> status) (tasks : gmap Z drc_remaster_task) (self cur_inst cur_pos inst_part_num : Z)
    (sent : list task_msg) (g : drc_remaster_mngr) : outcome (status * list task_msg * drc_remaster_mngr) :=
  if negb (cur_inst =? self) then
    '(ret, sent) ← drc_send_remaster_task_msg send tasks cur_pos inst_part_num self cur_inst sent;
    if bool_decide (ret = OG_SUCCESS) then
      t ← wr (rg_task_num g) cur_inst (fun _ => u16 inst_part_num);
      Ok (OG_SUCCESS, sent, rg_set_task_num t g)
    else Ok (ret, sent, g)
  else
    t ← rd tasks cur_pos;
    s ← wr (local_task_set g) (local_task_num g) (fun _ => t);
    Ok (OG_SUCCESS, sent, rg_set_local s (u32 (local_task_num g + 1)) g).

(** The loop of [drc_assign_remaster_task] over task [i] and the following. *)
Fixpoint assign_loop (n : nat) (i : Z) (send : nat -> status) (tasks : gmap Z drc_remaster_task)
    (self cur_inst cur_pos inst_part_num : Z) (sent : list task_msg) (g : drc_remaster_mngr) :
    outcome (status * list task_msg * drc_remaster_mngr) :=
  match n with
  | O => assign_group send tasks self cur_inst cur_pos inst_part_num sent g
  | S n' =>
      t ← rd tasks i;
      if negb (cur_inst =? tk_export t) || (cur_inst =? self) then
        '(ret, sent, g) ← assign_group send tasks self cur_inst cur_pos inst_part_num sent g;
        if bool_decide (ret = OG_SUCCESS)
        then assign_loop n' (i + 1) send tasks self (tk_export t) (cur_pos + inst_part_num) 1 sent g
        else Ok (ret, sent, g)
      else assign_loop n' (i + 1) send tasks self cur_inst cur_pos (inst_part_num + 1) sent g
  end.

(** The instances without tasks get an empty message. *)
Fixpoint empty_msgs (insts : list Z) (send : nat -> status) (self : Z) (sent : list task_msg) (g : drc_remaster_mngr) :
    outcome (status * list task_msg) :=
  match insts with
  | [] => Ok (OG_SUCCESS, sent)
  | x :: insts' =>
      k ← rd (rg_task_num g) x;
      '(ret, sent) ← (if k =? 0 then drc_send_remaster_task_msg send ∅ 0 0 self x sent else Ok (OG_SUCCESS, sent));
      if bool_decide (ret = OG_SUCCESS) then empty_msgs insts' send self sent g else Ok (ret, sent)
  end.

(** [drc_assign_remaster_task]. *)
Definition drc_assign_remaster_task (send : nat -> status) (self : Z) (after leave : list Z) (tasks : gmap Z drc_remaster_task)
    (num : Z) (g : drc_remaster_mngr) : outcome (status * list task_msg * drc_remaster_mngr) :=
  '(ret, sent, g) ← (if 0 <? num then
                       t ← rd tasks 0;
                       assign_loop (Z.to_nat (num - 1)) 1 send tasks self (tk_export t) 0 1 [] g
                     else Ok (OG_SUCCESS, [], g));
  if bool_decide (ret = OG_SUCCESS) then
    t ← wr (rg_task_num g) self (fun _ => u16 (local_task_num g));
    let g := rg_set_task_num t g in
    '(ret, sent) ← empty_msgs after send self sent g;
    if bool_decide (ret = OG_SUCCESS) then
      '(ret, sent) ← empty_msgs leave send self sent g;
      Ok (ret, sent, g)
    else Ok (ret, sent, g)
  else Ok (ret, sent, g).

(** ** Accepting them *)

(** [drc_accept_remaster_task_parameter_check]; [len_ok] is its test that the
    length of the buffer fits the number of tasks. *)
Definition drc_accept_remaster_task_parameter_check (len_ok : bool) (rc_status version num : Z) (m : drc_part_mngr)
    (g : drc_remaster_mngr) : status :=
  if (pm_remaster_status m =? REMASTER_DONE) || (REFORM_RECOVER_DONE <=? rc_status) || (rc_status <? REFORM_FROZEN) ||
     negb len_ok || negb (version =? rg_trigger_version g) || (DRC_MAX_PART_NUM <? num)
  then OG_ERROR else OG_SUCCESS.

(** The tasks of a message are copied to the front of [local_task_set]. *)
Fixpoint copy_tasks (i : Z) (l : list drc_remaster_task) (s : gmap Z drc_remaster_task) : outcome (gmap Z drc_remaster_task) :=
  match l with
  | [] => Ok s
  | t :: l' => s ← wr s i (fun _ => t); copy_tasks (i + 1) l' s
  end.

(** [drc_accept_remaster_task]: whether the message is acknowledged; [size_ok]
    are the tests of its sizes and [all] the copy of [remaster_task_set] in
    it. *)
Definition drc_accept_remaster_task (size_ok : bool) (rc_status version : Z) (all : gmap Z drc_remaster_task) (msg : task_msg)
    (m : drc_part_mngr) (g : drc_remaster_mngr) : outcome (bool * drc_part_mngr * drc_remaster_mngr) :=
  let num := Z.of_nat (length (tm_tasks msg)) in
  if negb size_ok then Ok (false, m, g)
  else if bool_decide (drc_accept_remaster_task_parameter_check size_ok rc_status version num m g = OG_ERROR) then Ok (false, m, g)
  else
    let g := rg_set_local (local_task_set g) num g in
    if negb (pm_remaster_status m =? REMASTER_ASSIGN_TASK) then Ok (true, m, g)
    else
      let m := drc_update_remaster_local_status REMASTER_MIGRATE m in
      let m := mk_mngr (pm_version m) (pm_inited m) (pm_inst_num m) (pm_remaster_status m) (pm_is_reentrant m) (pm_remaster_inst m)
        (pm_mgrt_fail_list m) (part_map m) (inst_part_tbl m) (target_part_map m) (target_inst_part_tbl m) all (task_num m)
        (tmp_part_map m) (tmp_inst_part_tbl m) in
      s ← copy_tasks 0 (tm_tasks msg) (local_task_set g);
      Ok (true, m, rg_set_local s num g).

(** ** The end of the tasks *)

(** [drc_remaster_task_ack] of the reformer itself. *)
Definition task_ack_self (self : Z) (g : drc_remaster_mngr) : outcome drc_remaster_mngr :=
  drc_master_update_inst_remaster_status self REMASTER_PUBLISH (rg_set_complete (complete_num g + 1) g).

(** [drc_process_remaster_task_ack]. *)
Definition drc_process_remaster_task_ack (size_ok : bool) (rc_status version src node_count : Z) (task_status : status)
    (m : drc_part_mngr) (g : drc_remaster_mngr) : outcome drc_remaster_mngr :=
  if negb size_ok then Ok g
  else if (pm_remaster_status m =? REMASTER_DONE) || (rc_status <? REFORM_FROZEN) || (REFORM_RECOVER_DONE <=? rc_status) ||
       (node_count <? src) || negb (version =? rg_trigger_version g) then Ok g
  else
    s ← rd (rg_status g) src;
    if bool_decide (task_status = OG_SUCCESS) && negb (s =? REMASTER_PUBLISH)
    then drc_master_update_inst_remaster_status src REMASTER_PUBLISH (rg_set_complete (complete_num g + 1) g)
    else Ok g.

(** [drc_update_remaster_task_status]: the first task that fits. *)
Fixpoint task_status_loop (n : nat) (i part export self : Z) (st : drc_part_status) (tasks : gmap Z drc_remaster_task) :
    outcome (gmap Z drc_remaster_task) :=
  match n with
  | O => Ok tasks
  | S n' =>
      t ← rd tasks i;
      if (tk_part t =? part) && (tk_export t =? export) && (tk_import t =? self)
      then wr tasks i (fun t => mk_task (tk_export t) (tk_import t) (tk_part t) st)
      else task_status_loop n' (i + 1) part export self st tasks
  end.
Definition drc_update_remaster_task_status (self part export : Z) (st : drc_part_status) (tasks : gmap Z drc_remaster_task) :
    outcome (gmap Z drc_remaster_task) :=
  task_status_loop (Z.to_nat DRC_MAX_PART_NUM) 0 part export self st tasks.

(** The ranges of local tasks that the threads of [drc_remaster_migrate] take. *)
Definition migrate_job (num i : Z) : Z * Z :=
  let per := num / DRC_REMASTER_MIGRATE_RES_MAX_THREAD_NUM in
  (i * per, if i =? DRC_REMASTER_MIGRATE_RES_MAX_THREAD_NUM - 1 then per + num mod DRC_REMASTER_MIGRATE_RES_MAX_THREAD_NUM else per).
Definition migrate_jobs (num : Z) : list (Z * Z) := migrate_job num <$> seqZ 0 DRC_REMASTER_MIGRATE_RES_MAX_THREAD_NUM.
