(* ===== verification/DrcRemasterFsm.v ===== *)
(** The thread of the remaster: the steps of [drc_remaster_proc], the
    messages they send and the handlers of the messages that end a remaster
    (src/pkg/src/cluster/dtc_drc.c).

    A step that waits is entered with what the wait returned ([waited] ..),
    and a step that sends with what became of the messages; the messages
    themselves are a result.  The threads of the migration run one after the
    other, [seen] telling which task is found with the remaster failed. *)

From S2P Require Import Prelude DrcBitmap DrcGlobalRes DrcReform DrcPart DrcRemaster.

(** An instance in a remaster: [drc_part_mngr_t], [drc_remaster_mngr_t], its
    [is_master], [local_task_complete_num] and [stopped], the member
    [remaster_finish_step] of the former, and [drc_deposit_map]. *)
Record node := mk_node {
  nd_part : drc_part_mngr;
  nd_rem : drc_remaster_mngr;
  nd_is_master : bool;
  nd_complete : Z;
  nd_finish : Z;
  nd_stopped : bool;
  nd_deposit : gmap Z Z;
}.
Definition nd_map_part (f : drc_part_mngr -> drc_part_mngr) n := mk_node (f (nd_part n)) (nd_rem n) (nd_is_master n) (nd_complete n) (nd_finish n) (nd_stopped n) (nd_deposit n).
Definition nd_set_rem x n := mk_node (nd_part n) x (nd_is_master n) (nd_complete n) (nd_finish n) (nd_stopped n) (nd_deposit n).
Definition nd_set_complete x n := mk_node (nd_part n) (nd_rem n) (nd_is_master n) x (nd_finish n) (nd_stopped n) (nd_deposit n).
Definition nd_set_finish x n := mk_node (nd_part n) (nd_rem n) (nd_is_master n) (nd_complete n) x (nd_stopped n) (nd_deposit n).
Definition nd_set_deposit x n := mk_node (nd_part n) (nd_rem n) (nd_is_master n) (nd_complete n) (nd_finish n) (nd_stopped n) x.
Definition nd_status (n : node) : Z := pm_remaster_status (nd_part n).
Definition nd_version (n : node) : Z := rg_trigger_version (nd_rem n).

(** [drc_update_remaster_local_status] of a node. *)
Definition nd_to (st : Z) : node -> node := nd_map_part (drc_update_remaster_local_status st).

(** The messages of a remaster. *)
Inductive rmsg :=
| NotifyMsg (src st version : Z)
| TaskMsg (version : Z) (all : gmap Z drc_remaster_task) (msg : task_msg)
| TaskAckMsg (src : Z) (task_status : status) (version : Z)
| TargetPartMsg (st : status) (version : Z) (map : gmap Z drc_part) (tbl : gmap Z drc_inst_part)
| RemasterDoneMsg (st version : Z)
| PartAckMsg (src : Z) (st : status) (version : Z)
| DoneAckMsg (src : Z) (st : status) (version : Z).

(** The lists of a reform and its reformer. *)
Record reform_info := mk_rinfo { ri_lists : reform_lists; ri_after : list Z; ri_master : Z }.
Definition ri_leave (r : reform_info) : list Z := rl_leave (ri_lists r).

(** ** Deposits *)

(** [drc_deposit_map_init], [drc_get_deposit_id], [drc_set_deposit_id]. *)
Definition drc_deposit_map_init : gmap Z Z := list_to_map ((fun i => (i, i)) <$> seqZ 0 OG_MAX_INSTANCES).
Definition drc_get_deposit_id (d : gmap Z Z) (inst : Z) : outcome Z :=
  if OG_MAX_INSTANCES <? inst then Ok OG_INVALID_ID8 else x ← rd d inst; Ok (u8 x).
Definition drc_set_deposit_id (inst id : Z) (d : gmap Z Z) : outcome (gmap Z Z) := wr d inst (fun _ => id).

(** [drc_remaster_inst_list]. *)
Fixpoint deposit_all (insts : list Z) (id : Z -> Z) (d : gmap Z Z) : outcome (gmap Z Z) :=
  match insts with
  | [] => Ok d
  | x :: insts' => d ← drc_set_deposit_id x (id x) d; deposit_all insts' id d
  end.
Definition drc_remaster_inst_list (r : reform_info) (d : gmap Z Z) : outcome (gmap Z Z) :=
  d ← deposit_all (rl_leave (ri_lists r)) (fun _ => ri_master r) d;
  d ← deposit_all (rl_abort (ri_lists r)) (fun _ => ri_master r) d;
  d ← deposit_all (rl_join (ri_lists r)) (fun x => x) d;
  deposit_all (rl_fail (ri_lists r)) (fun _ => ri_master r) d.

(** ** Telling the reformer *)

(** [drc_notify_remaster_status]. *)
Definition drc_notify_remaster_status (self st : Z) (sent : status) (n : node) : outcome (status * list rmsg * node) :=
  if pm_remaster_inst (nd_part n) =? self then g ← notify_self self st (nd_rem n); Ok (OG_SUCCESS, [], nd_set_rem g n)
  else Ok (sent, if bool_decide (sent = OG_SUCCESS) then [NotifyMsg self st (nd_version n)] else [], n).

(** [drc_remaster_task_ack]. *)
Definition drc_remaster_task_ack (self : Z) (task_status : status) (sent : status) (n : node) : outcome (status * list rmsg * node) :=
  if self =? pm_remaster_inst (nd_part n) then g ← task_ack_self self (nd_rem n); Ok (OG_SUCCESS, [], nd_set_rem g n)
  else Ok (sent, if bool_decide (sent = OG_SUCCESS) then [TaskAckMsg self task_status (nd_version n)] else [], n).

(** ** Preparing and assigning *)

(** [drc_prepare_remaster]; [verify] is what the broadcast of the parameter
    returned, if the control version asks for it. *)
Definition drc_prepare_remaster (self : Z) (verify : option status) (sent : status) (n : node) : outcome (list rmsg * node) :=
  if (pm_remaster_inst (nd_part n) =? self) && bool_decide (verify = Some OG_ERROR) then Ok ([], nd_to REMASTER_FAIL n)
  else
    '(ret, ms, n) ← drc_notify_remaster_status self REMASTER_ASSIGN_TASK sent n;
    Ok (ms, nd_to (if bool_decide (ret = OG_SUCCESS) then REMASTER_ASSIGN_TASK else REMASTER_FAIL) n).

(** [drc_execute_remaster]. *)
Definition drc_execute_remaster (reformer_mode : bool) (r : reform_info) (self : Z) (send : nat -> status) (n : node) :
    outcome (status * list rmsg * node) :=
  '(_, m) ← execute_rebalance reformer_mode (ri_lists r) (nd_part n);
  '(ret, sent, g) ← drc_assign_remaster_task send self (ri_after r) (ri_leave r) (remaster_task_set m) (task_num m) (nd_rem n);
  let n := nd_set_rem g (nd_map_part (fun _ => m) n) in
  let ms := TaskMsg (nd_version n) (remaster_task_set m) <$> (sent : list task_msg) in
  if bool_decide (ret = OG_SUCCESS) then Ok (OG_SUCCESS, ms, nd_set_finish REMASTER_ASSIGN_TASK (nd_to REMASTER_MIGRATE n))
  else Ok (ret, ms, n).

(** [drc_remaster_step_assign_task]. *)
Definition drc_remaster_step_assign_task (reformer_mode : bool) (r : reform_info) (self : Z) (waited : status)
    (send : nat -> status) (n : node) : outcome (status * list rmsg * node) :=
  if negb (nd_is_master n) then Ok (OG_SUCCESS, [], n)
  else if bool_decide (waited = OG_ERROR) then Ok (OG_ERROR, [], n)
  else drc_execute_remaster reformer_mode r self send (nd_set_finish REMASTER_PREPARE n).

(** ** Migrating *)

(** [drc_migrate_master_blk] of local task [j]: [blk j] is what became of the
    resources and the end message it sends. *)
Definition drc_migrate_master_blk (blk : Z -> status) (j : Z) (n : node) : outcome status :=
  t ← rd (local_task_set (nd_rem n)) j;
  panic_unless bool_decide (tk_status t = PART_WAIT_MIGRATE) ;;
  Ok (blk j).

(** [drc_remaster_migrate_res]: tasks [j ..] of one thread. *)
Fixpoint drc_remaster_migrate_res (count : nat) (j : Z) (seen : Z -> bool) (blk : Z -> status) (n : node) : outcome node :=
  match count with
  | O => Ok n
  | S count' =>
      if seen j then Ok (nd_to REMASTER_FAIL n)
      else if nd_status n =? REMASTER_FAIL then Ok n
      else
        ret ← drc_migrate_master_blk blk j n;
        if bool_decide (ret = OG_ERROR) then Ok (nd_to REMASTER_FAIL n)
        else drc_remaster_migrate_res count' (j + 1) seen blk (nd_set_complete (nd_complete n + 1) n)
  end.

(** The loop of [drc_remaster_migrate] that creates the threads. *)
Fixpoint migrate_threads (i : nat) (jobs : list (Z * Z)) (created : nat -> status) (seen : Z -> bool) (blk : Z -> status) (n : node) :
    outcome (status * node) :=
  match jobs with
  | [] => Ok (OG_SUCCESS, n)
  | (start, count) :: jobs' =>
      if bool_decide (created i = OG_ERROR) then Ok (OG_ERROR, nd_to REMASTER_FAIL n)
      else
        n ← drc_remaster_migrate_res (Z.to_nat count) start seen blk n;
        migrate_threads (S i) jobs' created seen blk n
  end.
Definition drc_remaster_migrate (created : nat -> status) (seen : Z -> bool) (blk : Z -> status) (n : node) : outcome (status * node) :=
  if local_task_num (nd_rem n) =? 0 then Ok (OG_SUCCESS, n)
  else
    '(ret, n) ← migrate_threads 0 (migrate_jobs (local_task_num (nd_rem n))) created seen blk n;
    Ok (if nd_status n =? REMASTER_FAIL then OG_ERROR else ret, n).

(** [drc_remaster_migrate_clean_res_owner]: [clean x] is whether all threads
    of [drc_clean_res_owner_by_inst] could be created; if not, the remaster
    has failed. *)
Fixpoint clean_all (insts : list Z) (clean : Z -> status) (n : node) : status * node :=
  match insts with
  | [] => (OG_SUCCESS, n)
  | x :: insts' => if bool_decide (clean x = OG_ERROR) then (OG_ERROR, nd_to REMASTER_FAIL n) else clean_all insts' clean n
  end.
Definition drc_remaster_migrate_clean_res_owner (r : reform_info) (clean : Z -> status) (n : node) : status * node :=
  let '(ret, n) := clean_all (rl_leave (ri_lists r)) clean n in
  if bool_decide (ret = OG_ERROR) then (OG_ERROR, n) else clean_all (rl_abort (ri_lists r)) clean n.

(** The end of a step of an instance that joins or leaves: the reformer is
    told, and the instance is to publish. *)
Definition ack_and_publish (self : Z) (sent : status) (n : node) : outcome (status * list rmsg * node) :=
  '(ret, ms, n) ← drc_remaster_task_ack self OG_SUCCESS sent n;
  if bool_decide (ret = OG_SUCCESS) then Ok (OG_SUCCESS, ms, nd_to REMASTER_PUBLISH n) else Ok (OG_ERROR, ms, nd_to REMASTER_FAIL n).

(** [drc_remaster_step_migrate]; [finished] is what
    [drc_remaster_wait_migrate_finish] returned.  The result of the cleaning
    is not used. *)
Definition drc_remaster_step_migrate (r : reform_info) (self : Z) (finished : status) (clean : Z -> status) (created : nat -> status)
    (seen : Z -> bool) (blk : Z -> status) (sent : status) (n : node) : outcome (status * list rmsg * node) :=
  if bool_decide (self ∈ rl_join (ri_lists r)) then
    panic_unless (local_task_num (nd_rem n) =? 0) ;;
    if bool_decide (finished = OG_ERROR) then Ok (OG_ERROR, [], nd_to REMASTER_FAIL n) else ack_and_publish self sent n
  else
    let '(_, n) := drc_remaster_migrate_clean_res_owner r clean n in
    '(ret, n) ← drc_remaster_migrate created seen blk n;
    if bool_decide (ret = OG_ERROR) || negb (local_task_num (nd_rem n) =? nd_complete n) then Ok (OG_ERROR, [], n)
    else
      let n := nd_to REMASTER_RECOVERY n in
      if bool_decide (self ∈ rl_leave (ri_lists r)) then ack_and_publish self sent n else Ok (OG_SUCCESS, [], n).

(** ** Recovering *)

(** [drc_remaster_recovery]: [lock_rcy x] and [buf_rcy x] are what became of
    the resources of instance [x] that crashed; the latter fails when a
    thread cannot be created, and then the remaster has failed. *)
Fixpoint recovery_loop (insts : list Z) (ret : status) (lock_rcy buf_rcy : Z -> status) (n : node) : status * node :=
  match insts with
  | [] => (ret, n)
  | x :: insts' =>
      if nd_status n =? REMASTER_FAIL then (OG_ERROR, n)
      else if bool_decide (lock_rcy x = OG_ERROR) then (OG_ERROR, n)
      else recovery_loop insts' (buf_rcy x) lock_rcy buf_rcy (if bool_decide (buf_rcy x = OG_ERROR) then nd_to REMASTER_FAIL n else n)
  end.
Definition drc_remaster_recovery (r : reform_info) (lock_rcy buf_rcy : Z -> status) (n : node) : status * node :=
  recovery_loop (rl_abort (ri_lists r)) OG_SUCCESS lock_rcy buf_rcy n.

(** [drc_remaster_step_recover]; [recovered] says whether the tasks of the
    recovery were complete before the time was over or the remaster failed. *)
Definition drc_remaster_step_recover (r : reform_info) (self : Z) (lock_rcy buf_rcy : Z -> status) (recovered sent : status) (n : node) :
    outcome (status * list rmsg * node) :=
  let '(ret, n) := drc_remaster_recovery r lock_rcy buf_rcy n in
  if bool_decide (ret = OG_ERROR) then Ok (OG_ERROR, [], nd_to REMASTER_FAIL n)
  else if bool_decide (recovered = OG_ERROR) then
    '(_, ms, n) ← drc_remaster_task_ack self OG_ERROR sent (nd_to REMASTER_FAIL n);
    Ok (OG_ERROR, ms, n)
  else ack_and_publish self sent n.

(** ** Publishing *)

(** The three parts of [drc_remaster_step_publish] of the reformer: after the
    wait the target is broadcast, after the first broadcast it becomes the
    assignment and the end is broadcast, after the second the remaster is
    done. *)
Definition publish_begin (n : node) : list rmsg * node :=
  ([TargetPartMsg OG_SUCCESS (nd_version n) (target_part_map (nd_part n)) (target_inst_part_tbl (nd_part n))],
   nd_set_finish REMASTER_RECOVERY n).
Definition publish_parts (n : node) : list rmsg * node :=
  let n := nd_map_part (fun m => drc_update_target_part (target_part_map m) (target_inst_part_tbl m) m) n in
  ([RemasterDoneMsg (nd_status n) (nd_version n)], n).
Definition publish_end (r : reform_info) (n : node) : outcome node :=
  d ← drc_remaster_inst_list r (nd_deposit n);
  Ok (nd_set_finish REMASTER_PUBLISH (nd_to REMASTER_DONE (nd_set_deposit d n))).

(** [drc_remaster_step_publish]; [parted] and [told] are what the broadcasts
    returned. *)
Definition drc_remaster_step_publish (r : reform_info) (waited parted told : status) (n : node) : outcome (status * list rmsg * node) :=
  if negb (nd_is_master n) then Ok (OG_SUCCESS, [], n)
  else if bool_decide (waited = OG_ERROR) then Ok (OG_ERROR, [], n)
  else
    let '(ms1, n) := publish_begin n in
    if bool_decide (parted = OG_ERROR) then Ok (OG_ERROR, ms1, n)
    else
      let '(ms2, n) := publish_parts n in
      if bool_decide (told = OG_ERROR) then Ok (OG_ERROR, ms1 ++ ms2, n)
      else n ← publish_end r n; Ok (OG_SUCCESS, ms1 ++ ms2, n).

(** ** The thread *)

(** What the calls of a round come to. *)
Record calls := mk_calls {
  c_mode : bool; c_verify : option status; c_sent : status; c_waited : status; c_send : nat -> status;
  c_finished : status; c_clean : Z -> status; c_created : nat -> status; c_seen : Z -> bool; c_blk : Z -> status;
  c_lock_rcy : Z -> status; c_buf_rcy : Z -> status; c_recovered : status; c_parted : status; c_told : status;
}.

(** The body of the switch of [drc_remaster_proc]: the new [ret], the
    messages, the node. *)
Definition proc_switch (r : reform_info) (self : Z) (c : calls) (first_fail : bool) (ret : status) (n : node) :
    outcome (status * list rmsg * node) :=
  let st := nd_status n in
  if st =? REMASTER_PREPARE then '(ms, n) ← drc_prepare_remaster self (c_verify c) (c_sent c) n; Ok (ret, ms, n)
  else if st =? REMASTER_ASSIGN_TASK then drc_remaster_step_assign_task (c_mode c) r self (c_waited c) (c_send c) n
  else if st =? REMASTER_MIGRATE then
    '(ret, ms, n) ← drc_remaster_step_migrate r self (c_finished c) (c_clean c) (c_created c) (c_seen c) (c_blk c) (c_sent c) n;
    Ok (ret, ms, if bool_decide (ret = OG_SUCCESS) then nd_set_finish REMASTER_MIGRATE n else n)
  else if st =? REMASTER_RECOVERY then drc_remaster_step_recover r self (c_lock_rcy c) (c_buf_rcy c) (c_recovered c) (c_sent c) n
  else if st =? REMASTER_PUBLISH then drc_remaster_step_publish r (c_waited c) (c_parted c) (c_told c) n
  else if (st =? REMASTER_FAIL) && first_fail && negb (nd_is_master n) then
    '(_, ms, n) ← drc_notify_remaster_status self (nd_status n) (c_sent c) n; Ok (ret, ms, n)
  else Ok (ret, [], n).

(** One round of the loop: the switch, and the failure of a step. *)
Definition proc_round (r : reform_info) (self : Z) (c : calls) (first_fail : bool) (ret : status) (n : node) :
    outcome (status * list rmsg * node) :=
  '(ret, ms, n) ← proc_switch r self c first_fail ret n;
  Ok (ret, ms, if bool_decide (ret = OG_ERROR) && negb (nd_status n =? REMASTER_FAIL) then nd_to REMASTER_FAIL n else n).

(** [drc_remaster_proc] until the remaster is done or the thread is closed,
    which is after [length cs] rounds. *)
Fixpoint proc_loop (r : reform_info) (self : Z) (cs : list calls) (first_fail : bool) (ret : status) (n : node) :
    outcome (list rmsg * node) :=
  match cs with
  | [] => Ok ([], n)
  | c :: cs' =>
      let failed := nd_status n =? REMASTER_FAIL in
      '(ret, ms, n) ← proc_round r self c first_fail ret n;
      if nd_status n =? REMASTER_DONE then Ok (ms, nd_set_finish REMASTER_DONE n)
      else '(ms', n) ← proc_loop r self cs' (first_fail && negb failed) ret n; Ok (ms ++ ms', n)
  end.
Definition nd_set_run (is_master stopped : bool) (n : node) : node :=
  mk_node (nd_part n) (rg_set_complete 0 (nd_rem n)) is_master (nd_complete n) (nd_finish n) stopped (nd_deposit n).
Definition nd_set_inst_num (k : Z) : node -> node := nd_map_part (fun m =>
  mk_mngr (pm_version m) (pm_inited m) (u8 k) (pm_remaster_status m) (pm_is_reentrant m) (pm_remaster_inst m)
    (pm_mgrt_fail_list m) (part_map m) (inst_part_tbl m) (target_part_map m) (target_inst_part_tbl m) (remaster_task_set m) (task_num m)
    (tmp_part_map m) (tmp_inst_part_tbl m)).
Definition drc_remaster_proc (r : reform_info) (self : Z) (cs : list calls) (n : node) : outcome (list rmsg * node) :=
  '(ms, n) ← proc_loop r self cs true OG_SUCCESS (nd_set_run (self =? ri_master r) false n);
  Ok (ms, if nd_status n =? REMASTER_FAIL
          then mk_node (nd_part n) (nd_rem n) (nd_is_master n) (nd_complete n) (nd_finish n) true (nd_deposit n)
          else nd_set_inst_num (Z.of_nat (length (ri_after r))) n).

(** ** Starting and stopping *)

(** [dtc_remaster_init]: the version of the reform comes with its lists. *)
Definition dtc_remaster_init (version : Z) (n : node) : node :=
  let g := nd_rem n in
  nd_set_rem (mk_rmngr (rg_status g) (rg_task_num g) (local_task_set g) (local_task_num g) (complete_num g) version)
    (nd_map_part (fun m =>
      mk_mngr (pm_version m) (pm_inited m) (pm_inst_num m) (pm_remaster_status m) (pm_is_reentrant m) (pm_remaster_inst m)
        (pm_mgrt_fail_list m) (part_map m) (inst_part_tbl m) (target_part_map m) (target_inst_part_tbl m)
        (filled DRC_MAX_PART_NUM (mk_task 0 0 0 PART_INIT)) (task_num m) (tmp_part_map m) (tmp_inst_part_tbl m)) n).

Definition nd_set_remaster_inst (x : Z) : node -> node := nd_map_part (fun m =>
  mk_mngr (pm_version m) (pm_inited m) (pm_inst_num m) (pm_remaster_status m) (pm_is_reentrant m) x
    (pm_mgrt_fail_list m) (part_map m) (inst_part_tbl m) (target_part_map m) (target_inst_part_tbl m) (remaster_task_set m) (task_num m)
    (tmp_part_map m) (tmp_inst_part_tbl m)).

(** [drc_start_remaster]; [before] is the number of instances before the
    reform, [created] whether the thread could be created. *)
Definition drc_start_remaster (before : Z) (r : reform_info) (created : status) (n : node) : node :=
  if before =? 0 then n
  else if (before =? 1) && (Z.of_nat (length (ri_leave r)) =? 1) then n
  else
    let n := nd_to REMASTER_PREPARE (nd_set_remaster_inst (ri_master r) n) in
    if bool_decide (created = OG_ERROR) then nd_to REMASTER_FAIL (nd_set_remaster_inst OG_INVALID_ID8 n) else n.

(** [drc_reset_remaster_info]. *)
Definition drc_reset_remaster_info (n : node) : node :=
  let m := nd_part n in
  mk_node
    (mk_mngr (pm_version m) (pm_inited m) (pm_inst_num m) REMASTER_DONE true OG_INVALID_ID8
      (pm_mgrt_fail_list m) (part_map m) (inst_part_tbl m) (target_part_map m) (target_inst_part_tbl m)
      (filled DRC_MAX_PART_NUM (mk_task 0 0 0 PART_INIT)) 0 (part_map m) (inst_part_tbl m))
    (mk_rmngr (filled OG_MAX_INSTANCES 0) (filled OG_MAX_INSTANCES 0) (local_task_set (nd_rem n)) 0 0 (rg_trigger_version (nd_rem n)))
    false 0 (nd_finish n) true (nd_deposit n).

(** [drc_free_immigrated_res]: the partitions whose resources are freed. *)
Fixpoint immigrated (parts : list Z) (self : Z) (m : drc_part_mngr) : outcome (list Z) :=
  match parts with
  | [] => Ok []
  | p :: parts' =>
      t ← rd (target_part_map m) p;
      o ← rd (tmp_part_map m) p;
      l ← immigrated parts' self m;
      Ok (if (pt_inst t =? self) && negb (pt_inst o =? self) then p :: l else l)
  end.
Definition drc_free_immigrated_res (self : Z) (n : node) : outcome (list Z) := immigrated (seqZ 0 DRC_MAX_PART_NUM) self (nd_part n).

(** [drc_reset_target_part]. *)
Definition drc_reset_target_part (n : node) : node :=
  nd_map_part (fun m => drc_update_target_part (tmp_part_map m) (tmp_inst_part_tbl m) m) n.

(** [drc_stop_remaster]: the partitions whose resources are freed, and the
    node.  [running] says whether the thread of the remaster is still in its
    loop.  [cm_close_thread] waits for its end: as the status is
    [REMASTER_FAIL] by then, it sets [stopped].  A thread that has ended
    before, with [REMASTER_DONE], or that was never created has not, and then
    the loop that waits for [stopped] never ends ([None]). *)
Definition drc_stop_remaster (self before : Z) (running : bool) (n : node) : outcome (option (list Z * node)) :=
  let ended := nd_finish n in
  let n := nd_to REMASTER_FAIL n in
  let stopped := running || nd_stopped n in
  if negb stopped then Ok None
  else
    '(freed, n) ← (if (REMASTER_ASSIGN_TASK <=? ended) && (ended <=? REMASTER_DONE)
                   then l ← drc_free_immigrated_res self n; Ok (l, drc_reset_target_part n)
                   else Ok ([], n));
    Ok (Some (freed, nd_set_inst_num before (drc_reset_remaster_info n))).

(** [drc_remaster_need_stop]; [failed_status] is the status in which the last
    reform failed. *)
Definition drc_remaster_need_stop (failed_status : Z) (n : node) : bool * node :=
  let no_list := nd_map_part (fun m =>
    mk_mngr (pm_version m) (pm_inited m) (pm_inst_num m) (pm_remaster_status m) (pm_is_reentrant m) (pm_remaster_inst m)
      false (part_map m) (inst_part_tbl m) (target_part_map m) (target_inst_part_tbl m) (remaster_task_set m) (task_num m)
      (tmp_part_map m) (tmp_inst_part_tbl m)) n in
  if negb (nd_status n =? REMASTER_DONE) then (true, no_list)
  else (false, if failed_status <=? REFORM_RECOVERING then no_list else n).

(** ** The handlers of the messages that end a remaster *)

(** [drc_accept_target_part_parameter_check]; [len_ok] is its test of the
    length of the buffer. *)
Definition drc_accept_target_part_parameter_check (len_ok : bool) (rc_status version : Z) (n : node) : status :=
  if (nd_status n =? REMASTER_DONE) || (REFORM_RECOVER_DONE <=? rc_status) || (rc_status <? REFORM_FROZEN) || negb len_ok ||
     negb (version =? nd_version n)
  then OG_ERROR else OG_SUCCESS.

(** [drc_accept_target_part]; [sent] is what becomes of the answer. *)
Definition drc_accept_target_part (r : reform_info) (self : Z) (size_ok len_ok : bool) (rc_status : Z) (msg_status : status) (version : Z)
    (map : gmap Z drc_part) (tbl : gmap Z drc_inst_part) (sent : status) (n : node) : outcome (list rmsg * node) :=
  let ack st := if bool_decide (sent = OG_SUCCESS) then [PartAckMsg self st version] else [] in
  if nd_status n =? REMASTER_FAIL then Ok ([], n)
  else if negb size_ok then Ok ([], n)
  else if bool_decide (msg_status = OG_ERROR) then Ok ([], nd_to REMASTER_FAIL n)
  else if bool_decide (drc_accept_target_part_parameter_check len_ok rc_status version n = OG_ERROR) then Ok (ack OG_ERROR, n)
  else
    let n := nd_map_part (drc_update_target_part map tbl) n in
    d ← drc_remaster_inst_list r (nd_deposit n);
    Ok (ack OG_SUCCESS, nd_set_deposit d n).

(** [drc_accept_remaster_done]. *)
Definition drc_accept_remaster_done (self : Z) (size_ok : bool) (rc_status version : Z) (sent : status) (n : node) : list rmsg * node :=
  if negb size_ok then ([], n)
  else if (nd_status n =? REMASTER_DONE) || (REFORM_RECOVER_DONE <=? rc_status) || (rc_status <? REFORM_FROZEN) ||
       negb (version =? nd_version n) then ([], n)
  else if nd_status n =? REMASTER_FAIL then ([], n)
  else if negb (nd_status n =? REMASTER_PUBLISH) then ([], n)
  else (if bool_decide (sent = OG_SUCCESS) then [DoneAckMsg self OG_SUCCESS version] else [], nd_to REMASTER_DONE n).

(** The handlers of DrcRemaster on a node. *)
Definition handle_notify (size_ok : bool) (rc_status version src st : Z) (n : node) : outcome node :=
  '(m, g) ← drc_process_remaster_status_notify size_ok rc_status version src st (nd_part n) (nd_rem n);
  Ok (nd_set_rem g (nd_map_part (fun _ => m) n)).
Definition handle_task (size_ok : bool) (rc_status version : Z) (all : gmap Z drc_remaster_task) (msg : task_msg) (n : node) : outcome (bool * node) :=
  '(acked, m, g) ← drc_accept_remaster_task size_ok rc_status version all msg (nd_part n) (nd_rem n);
  Ok (acked, nd_set_rem g (nd_map_part (fun _ => m) n)).
Definition handle_ack (size_ok : bool) (rc_status version src node_count : Z) (task_status : status) (n : node) : outcome node :=
  g ← drc_process_remaster_task_ack size_ok rc_status version src node_count task_status (nd_part n) (nd_rem n);
  Ok (nd_set_rem g n).
