(* ===== verification/DrcRemasterThm.v ===== *)
(** The tasks of a reform reach the instances that export the partitions, and
    the waits of the reformer end. *)

From S2P Require Import Prelude DrcBitmap DrcGlobalRes DrcReform DrcPart DrcPartInv DrcRemaster.

(** ** Runs of tasks *)

(** The maximal runs of tasks of one exporter. *)
Fixpoint runs (l : list drc_remaster_task) : list (Z * list drc_remaster_task) :=
  match l with
  | [] => []
  | t :: l' =>
      match runs l' with
      | (e, r) :: rest => if tk_export t =? e then (e, t :: r) :: rest else (tk_export t, [t]) :: (e, r) :: rest
      | [] => [(tk_export t, [t])]
      end
  end.

(** The tasks of one exporter. *)
Definition tasks_of (e : Z) (l : list drc_remaster_task) : list drc_remaster_task := filter (fun t => tk_export t = e) l.

Lemma runs_head t l : exists r rest, runs (t :: l) = (tk_export t, r) :: rest.
Proof. cbn. destruct (runs l) as [|[e r] rest]; [eauto|]. destruct (Z.eqb_spec (tk_export t) e) as [->|]; eauto. Qed.

Lemma runs_concat l : concat (runs l).*2 = l.
Proof.
  induction l as [|t l IH]; [done|]. cbn. destruct (runs l) as [|[e r] rest]; cbn in *; [by rewrite <- IH|].
  destruct (tk_export t =? e); cbn; by rewrite IH.
Qed.

Lemma runs_same l e r : (e, r) ∈ runs l -> Forall (fun t => tk_export t = e) r /\ r <> [].
Proof.
  revert e r. induction l as [|t l IH]; intros e r; [set_solver|]. cbn. destruct (runs l) as [|[e' r'] rest].
  - intros [= -> ->]%list_elem_of_singleton. split; [by repeat constructor|done].
  - destruct (Z.eqb_spec (tk_export t) e') as [He|He].
    + intros [[= -> ->]|Hin]%elem_of_cons; [|apply IH; set_solver].
      destruct (IH e' r' ltac:(set_solver)) as [Hf _]. split; [by constructor|done].
    + intros [[= -> ->]|Hin]%elem_of_cons; [split; [by repeat constructor|done]|by apply IH].
Qed.

(** A run that is followed by another exporter, and one that is not. *)
Lemma runs_app e c : Forall (fun t => tk_export t = e) c -> c <> [] -> forall t l, tk_export t <> e ->
  runs (c ++ t :: l) = (e, c) :: runs (t :: l).
Proof.
  induction c as [|x c IH]; [done|]. intros [Hx Hc]%Forall_cons _ t l Ht. destruct c as [|y c].
  - cbn [app]. destruct (runs_head t l) as (r & rest & E). change (runs ([x] ++ t :: l)) with (runs (x :: t :: l)).
    cbn [runs] in *. rewrite E. rewrite Hx. destruct (Z.eqb_spec e (tk_export t)); congruence.
  - specialize (IH Hc ltac:(done) t l Ht). cbn [app] in *. cbn [runs] in *. rewrite IH. rewrite Hx, Z.eqb_refl. done.
Qed.

Lemma runs_alone e c : Forall (fun t => tk_export t = e) c -> c <> [] -> runs c = [(e, c)].
Proof.
  induction c as [|x c IH]; [done|]. intros [Hx Hc]%Forall_cons _. destruct c as [|y c]; [cbn; by rewrite Hx|].
  cbn [runs] in *. rewrite IH by done. by rewrite Hx, Z.eqb_refl.
Qed.

Lemma tasks_of_all e r : Forall (fun t => tk_export t = e) r -> tasks_of e r = r.
Proof. unfold tasks_of. induction 1 as [|t r Ht Hr IH]; [done|]. by rewrite filter_cons_True, IH. Qed.

Lemma tasks_of_none e r : Forall (fun t => tk_export t <> e) r -> tasks_of e r = [].
Proof. unfold tasks_of. induction 1 as [|t r Ht Hr IH]; [done|]. by rewrite filter_cons_False. Qed.

Lemma tasks_of_app e l k : tasks_of e (l ++ k) = tasks_of e l ++ tasks_of e k.
Proof. apply filter_app. Qed.

(** When every exporter has one run, it is all its tasks. *)
Lemma runs_tasks_of l e r : NoDup (runs l).*1 -> (e, r) ∈ runs l -> r = tasks_of e l.
Proof.
  rewrite <- (runs_concat l) at 3. pose proof (fun e r => runs_same l e r) as Hs. revert Hs.
  generalize (runs l). intros L. induction L as [|[e' r'] L IH]; intros Hs Hnd Hin; [set_solver|].
  change (r = tasks_of e (r' ++ concat L.*2)). rewrite tasks_of_app. destruct (Hs e' r' ltac:(set_solver)) as [Hf _].
  apply NoDup_cons in Hnd as [He' Hnd]. apply elem_of_cons in Hin as [[= -> ->]|Hin].
  - rewrite (tasks_of_all _ _ Hf), tasks_of_none; [by rewrite app_nil_r|]. apply Forall_forall. intros t Ht Hte.
    assert (exists r, (e', r) ∈ L) as (r & Hr); [|apply He'; apply list_elem_of_fmap; by exists (e', r)].
    clear -Ht Hte Hs. induction L as [|[e2 r2] L IH]; [set_solver|]. cbn in Ht. apply elem_of_app in Ht as [Ht|Ht].
    + destruct (Hs e2 r2 ltac:(set_solver)) as [Hf2 _]. rewrite Forall_forall in Hf2. rewrite (Hf2 t Ht) in Hte. subst. exists r2. set_solver.
    + destruct IH as (r & Hr); [|done|exists r; set_solver]. intros e r Hin. apply Hs. set_solver.
  - rewrite (tasks_of_none e r'); [apply IH; [intros ? ? ?; apply Hs; set_solver|done|done]|].
    eapply Forall_impl; [exact Hf|]. cbn. intros t Ht Hte. apply He'. apply list_elem_of_fmap. exists (e, r). split; [cbn; congruence|done].
Qed.

(** An instance without a run has no tasks. *)
Lemma runs_none l e : e ∉ (runs l).*1 <-> tasks_of e l = [].
Proof.
  split.
  - intros He. apply tasks_of_none, Forall_forall. intros t Ht <-. apply He. clear He. induction l as [|x l IH]; [set_solver|].
    apply elem_of_cons in Ht as [->|Ht].
    + destruct (runs_head x l) as (r & rest & ->). set_solver.
    + specialize (IH Ht). cbn. destruct (runs l) as [|[e r] rest]; [set_solver|]. destruct (Z.eqb_spec (tk_export x) e); set_solver.
  - intros Hn ([e' r] & -> & Hin)%list_elem_of_fmap. cbn in Hn. destruct (runs_same _ _ _ Hin) as [Hf Hne].
    pose proof (runs_concat l) as Hc. apply list_elem_of_split in Hin as (L1 & L2 & E). rewrite E, fmap_app, concat_app, fmap_cons in Hc.
    cbn [concat snd] in Hc. rewrite <- Hc, !tasks_of_app, (tasks_of_all _ _ Hf) in Hn. destruct r; [done|].
    by destruct (tasks_of e' (concat L1.*2)).
Qed.

(** ** Assignment *)

(** The first [len l] tasks of [tasks] are those of [l]. *)
Definition tasks_are (tasks : gmap Z drc_remaster_task) (pos : Z) (l : list drc_remaster_task) : Prop :=
  forall j t, l !! j = Some t -> tasks !! (pos + Z.of_nat j) = Some t.

Lemma tasks_are_cons tasks pos t l : tasks_are tasks pos (t :: l) <-> tasks !! pos = Some t /\ tasks_are tasks (pos + 1) l.
Proof.
  split.
  - intros H. split; [specialize (H 0%nat t eq_refl); by rewrite Z.add_0_r in H|].
    intros j x Hj. specialize (H (S j) x Hj). replace (pos + 1 + Z.of_nat j) with (pos + Z.of_nat (S j)) by lia. done.
  - intros [H0 H] [|j] x Hj; cbn in Hj; [injection Hj as <-; by rewrite Z.add_0_r|].
    replace (pos + Z.of_nat (S j)) with (pos + 1 + Z.of_nat j) by lia. by apply H.
Qed.

Lemma tasks_are_app tasks pos l k : tasks_are tasks pos (l ++ k) <-> tasks_are tasks pos l /\ tasks_are tasks (pos + len l) k.
Proof.
  revert pos. induction l as [|t l IH]; intros pos; cbn [app].
  - unfold len. cbn [length]. rewrite Z.add_0_r. split; [|tauto]. intros H. split; [|done]. intros j x. by rewrite lookup_nil.
  - rewrite !tasks_are_cons, IH. replace (pos + len (t :: l)) with (pos + 1 + len l) by (unfold len; cbn [length]; lia). tauto.
Qed.

Lemma task_slice_ok tasks l : forall pos, tasks_are tasks pos l -> task_slice (length l) pos tasks = Ok l.
Proof.
  induction l as [|t l IH]; intros pos H; cbn; [done|]. apply tasks_are_cons in H as [H0 H]. unfold rd. rewrite H0.
  cbn [mbind outcome_bind]. by rewrite IH.
Qed.

(** The local tasks of the reformer, with room for more. *)
Record locals (g : drc_remaster_mngr) (l : list drc_remaster_task) : Prop := {
  lc_num : local_task_num g = len l;
  lc_tasks : tasks_are (local_task_set g) 0 l;
  lc_dom : forall j, 0 <= j < DRC_MAX_PART_NUM -> is_Some (local_task_set g !! j);
}.

Lemma locals_snoc g l t :
  locals g l -> len l < DRC_MAX_PART_NUM ->
  exists s, wr (local_task_set g) (local_task_num g) (fun _ => t) = Ok s /\ locals (rg_set_local s (u32 (local_task_num g + 1)) g) (l ++ [t]).
Proof.
  intros [Hn Ht Hd] Hl. unfold wr, rd. destruct (Hd (local_task_num g)) as [t0 ->]; [unfold len in *; lia|]. cbn [mbind outcome_bind].
  eexists. split; [done|]. split; cbn.
  - rewrite Hn. unfold u32, len in *. rewrite Z.mod_small by (unfold DRC_MAX_PART_NUM in *; lia). rewrite length_app. cbn. lia.
  - intros j x [[Hlt Hj]|[-> <-]]%lookup_snoc_Some.
    + rewrite lookup_insert_ne by (rewrite Hn; unfold len; lia). by apply Ht.
    + rewrite Hn. unfold len. by rewrite Z.add_0_l, lookup_insert_eq.
  - intros j Hj. rewrite lookup_insert_is_Some'. right. by apply Hd.
Qed.

Section Assign.
Context (self : Z) (tasks : gmap Z drc_remaster_task).
#[local] Notation send := (fun _ : nat => OG_SUCCESS).

(** The messages for the runs of other instances. *)
Definition msgs (l : list drc_remaster_task) : list task_msg :=
  (fun x => mk_tmsg x.1 x.2) <$> filter (fun x => x.1 <> self) (runs l).

(** The number of tasks of an instance is counted, for those that have some. *)
Definition counted (c0 c : gmap Z Z) (l : list drc_remaster_task) : Prop :=
  forall x, is_inst x -> exists k, c !! x = Some k /\
    if decide (x <> self /\ tasks_of x l <> []) then 0 < k else c0 !! x = Some k.

Lemma msgs_self t l : tk_export t = self -> msgs (t :: l) = msgs l.
Proof.
  intros Ht. unfold msgs. destruct l as [|y l]; [cbn [runs]; rewrite filter_cons_False; [done|cbn; rewrite Ht; tauto]|].
  destruct (runs_head y l) as (r & rest & E). cbn [runs] in *. rewrite E. destruct (Z.eqb_spec (tk_export t) (tk_export y)) as [He|He].
  - rewrite !filter_cons_False by (cbn; rewrite <- He; tauto). done.
  - rewrite filter_cons_False by (cbn; tauto). done.
Qed.

Lemma assign_group_ok cur pos c sent g l0 :
  Forall (fun t => tk_export t = cur) c -> c <> [] -> (cur = self -> length c = 1%nat) -> tasks_are tasks pos c ->
  is_inst cur -> (forall x, is_inst x -> is_Some (rg_task_num g !! x)) -> locals g l0 -> len l0 + len c <= DRC_MAX_PART_NUM ->
  exists g', assign_group send tasks self cur pos (len c) sent g = Ok (OG_SUCCESS, sent ++ msgs c, g') /\
    locals g' (l0 ++ tasks_of self c) /\
    rg_task_num g' = (if decide (cur = self) then rg_task_num g else <[cur := len c]> (rg_task_num g)).
Proof.
  intros Hc Hne H1 Ht Hi Hd L Hb. unfold assign_group, msgs. rewrite (runs_alone _ _ Hc Hne).
  destruct (Z.eqb_spec cur self) as [->|Hcs]; cbn [negb].
  - specialize (H1 eq_refl). destruct c as [|t [|? ?]]; cbn in H1; try lia. apply tasks_are_cons in Ht as [Ht _]. unfold rd at 1. rewrite Ht.
    cbn [mbind outcome_bind]. destruct (locals_snoc g l0 t L) as (s & -> & L'); [unfold len in *; cbn in Hb; lia|]. cbn [mbind outcome_bind].
    eexists. rewrite filter_cons_False by (cbn; tauto). rewrite app_nil_r. split; [done|]. rewrite decide_True by done.
    rewrite (tasks_of_all _ _ Hc). done.
  - unfold drc_send_remaster_task_msg. replace (self =? cur) with false by lia.
    unfold len. rewrite Nat2Z.id, (task_slice_ok _ _ _ Ht). cbn [mbind outcome_bind]. rewrite !bool_decide_true by done.
    unfold wr, rd. destruct (Hd cur Hi) as [k0 ->]. cbn [mbind outcome_bind]. eexists. split; [|rewrite decide_False by done].
    + rewrite filter_cons_True by done. done.
    + split.
      * rewrite tasks_of_none, app_nil_r; [by destruct L|]. eapply Forall_impl; [exact Hc|]. cbn. congruence.
      * cbn. f_equal. unfold u16. rewrite Z.mod_small; [done|]. unfold len, DRC_MAX_PART_NUM in Hb. lia.
Qed.

Lemma counted_app c0 c1 c2 l k : counted c0 c1 l -> counted c1 c2 k -> counted c0 c2 (l ++ k).
Proof.
  intros H1 H2 x Hx. destruct (H1 x Hx) as (k1 & E1 & P1), (H2 x Hx) as (k2 & E2 & P2). exists k2. split; [done|].
  rewrite tasks_of_app. destruct (decide (x <> self /\ tasks_of x k <> [])) as [[Hs Hk]|Hk].
  - rewrite decide_True; [done|]. split; [done|]. destruct (tasks_of x l); [done|cbn; done].
  - assert (k2 = k1) as -> by congruence. destruct (decide (x <> self /\ tasks_of x l <> [])) as [[Hs Hl]|Hl].
    + rewrite decide_True; [done|]. split; [done|]. by destruct (tasks_of x l).
    + rewrite decide_False; [done|]. intros [Hs Ha]. destruct (tasks_of x l); [|by apply Hl]. by apply Hk.
Qed.

Lemma counted_group cur c g : Forall (fun t => tk_export t = cur) c -> c <> [] -> is_inst cur ->
  (forall x, is_inst x -> is_Some (rg_task_num g !! x)) ->
  counted (rg_task_num g) (if decide (cur = self) then rg_task_num g else <[cur := len c]> (rg_task_num g)) c.
Proof.
  intros Hc Hne Hi Hd x Hx. destruct (Hd x Hx) as [k Hk]. destruct (decide (x = cur)) as [->|Hxc].
  - destruct (decide (cur = self)) as [->|Hcs]; [exists k; split; [done|]; rewrite decide_False; [done|by intros [? _]]|].
    rewrite lookup_insert_eq. exists (len c). split; [done|]. rewrite (tasks_of_all _ _ Hc), decide_True by done.
    destruct c; [done|]. unfold len. cbn [length]. lia.
  - assert (tasks_of x c = []) as Hn by (apply tasks_of_none; eapply Forall_impl; [exact Hc|cbn; congruence]).
    exists k. split; [destruct (decide (cur = self)); [done|]; by rewrite lookup_insert_ne|].
    rewrite Hn, decide_False; [done|by intros [_ ?]].
Qed.

Lemma msgs_app cur c t l : Forall (fun t => tk_export t = cur) c -> c <> [] -> (cur = self -> length c = 1%nat) ->
  tk_export t <> cur \/ cur = self -> msgs (c ++ t :: l) = msgs c ++ msgs (t :: l).
Proof.
  intros Hc Hne H1 Ho. destruct (decide (cur = self)) as [Hs|Hs].
  - specialize (H1 Hs). destruct c as [|x [|? ?]]; cbn in H1; try lia. apply Forall_cons in Hc as [Hx _]. cbn [app].
    rewrite msgs_self by congruence. rewrite (msgs_self x []) by congruence. done.
  - destruct Ho as [Ho|]; [|done]. unfold msgs. rewrite (runs_app _ _ Hc Hne t l Ho), (runs_alone _ _ Hc Hne).
    rewrite !filter_cons_True by done. done.
Qed.

Lemma assign_loop_ok l : forall c cur i pos sent g l0,
  Forall (fun t => tk_export t = cur) c -> c <> [] -> (cur = self -> length c = 1%nat) -> tasks_are tasks pos (c ++ l) ->
  i = pos + len c -> Forall (fun t => is_inst (tk_export t)) (c ++ l) -> (forall x, is_inst x -> is_Some (rg_task_num g !! x)) ->
  locals g l0 -> len l0 + len (c ++ l) <= DRC_MAX_PART_NUM ->
  exists g', assign_loop (length l) i send tasks self cur pos (len c) sent g = Ok (OG_SUCCESS, sent ++ msgs (c ++ l), g') /\
    locals g' (l0 ++ tasks_of self (c ++ l)) /\ counted (rg_task_num g) (rg_task_num g') (c ++ l).
Proof.
  induction l as [|t l IH]; intros c cur i pos sent g l0 Hc Hne H1 Ht -> Hin Hd L Hb; cbn [length assign_loop].
  - rewrite app_nil_r in *. assert (is_inst cur) as Hi by (destruct c; [done|]; apply Forall_cons in Hin as [Hi _], Hc as [<- _]; done).
    destruct (assign_group_ok cur pos c sent g l0 Hc Hne H1 Ht Hi Hd L Hb) as (g' & E & L' & En). exists g'. split; [exact E|].
    split; [done|]. rewrite En. by apply counted_group.
  - apply tasks_are_app in Ht as [Htc [Ht0 Htl]%tasks_are_cons]. unfold rd. rewrite Ht0. cbn [mbind outcome_bind].
    apply Forall_app in Hin as [Hinc Hinl]. assert (is_inst cur) as Hi by (destruct c; [done|]; apply Forall_cons in Hinc as [Hi _], Hc as [<- _]; done).
    unfold len in Hb. rewrite length_app in Hb. cbn [length] in Hb.
    destruct (decide (tk_export t <> cur \/ cur = self)) as [Ho|Ho].
    + replace (negb (cur =? tk_export t) || (cur =? self)) with true by (symmetry; apply orb_true_iff; rewrite negb_true_iff, Z.eqb_neq, Z.eqb_eq; destruct Ho; [left; congruence|by right]).
      destruct (assign_group_ok cur pos c sent g l0 Hc Hne H1 Htc Hi Hd L) as (g1 & E1 & L1 & En1); [unfold len; lia|].
      rewrite E1. cbn [mbind outcome_bind]. rewrite bool_decide_true by done.
      pose proof (counted_group cur c g Hc Hne Hi Hd) as C1. rewrite <- En1 in C1.
      destruct (IH [t] (tk_export t) (pos + len c + 1) (pos + len c) (sent ++ msgs c) g1 (l0 ++ tasks_of self c)) as (g2 & E2 & L2 & C2); try done.
      * by repeat constructor.
      * by apply tasks_are_cons.
      * intros x Hx. destruct (C1 x Hx) as (k & -> & _). by eexists.
      * unfold len. rewrite length_app. cbn [app length]. assert (length (tasks_of self c) <= length c)%nat by apply length_filter. lia.
      * exists g2. split; [|split].
        -- change (len [t]) with 1 in E2. rewrite E2. rewrite (msgs_app cur) by done. by rewrite app_assoc.
        -- rewrite tasks_of_app, app_assoc. done.
        -- eapply counted_app; [exact C1|exact C2].
    + assert (tk_export t = cur) as Hte by (destruct (decide (tk_export t = cur)); [done|exfalso; apply Ho; by left]).
      assert (cur <> self) as Hcs by tauto.
      replace (negb (cur =? tk_export t) || (cur =? self)) with false by (symmetry; apply orb_false_iff; rewrite negb_false_iff, Z.eqb_eq, Z.eqb_neq; done).
      destruct (IH (c ++ [t]) cur (pos + len c + 1) pos sent g l0) as (g2 & E2 & L2 & C2); try done.
      * apply Forall_app. split; [done|by repeat constructor].
      * by destruct c.
      * rewrite <- app_assoc. apply tasks_are_app. split; [done|]. by apply tasks_are_cons.
      * unfold len. rewrite length_app. cbn. lia.
      * rewrite <- app_assoc. by apply Forall_app.
      * unfold len. rewrite !length_app. cbn [length]. lia.
      * rewrite <- app_assoc in E2, L2, C2. cbn [app] in E2, L2, C2. exists g2. split; [|done]. rewrite <- E2. f_equal.
        unfold len. rewrite length_app. cbn. lia.
Qed.

Lemma empty_msgs_ok (P : Z -> Prop) {HP : forall x, Decision (P x)} insts : forall sent g,
  (forall x, x ∈ insts -> exists k, rg_task_num g !! x = Some k /\ (x <> self -> k = 0 <-> P x)) ->
  empty_msgs insts send self sent g = Ok (OG_SUCCESS, sent ++ ((fun x => mk_tmsg x []) <$> filter (fun x => x <> self /\ P x) insts)).
Proof.
  induction insts as [|x insts IH]; intros sent g Hin; cbn [empty_msgs]; [cbn; by rewrite app_nil_r|].
  destruct (Hin x ltac:(set_solver)) as (k & Hk & Hp). unfold rd. rewrite Hk. cbn [mbind outcome_bind].
  assert (forall y, y ∈ insts -> exists k, rg_task_num g !! y = Some k /\ (y <> self -> k = 0 <-> P y)) as Hin' by (intros y Hy; apply Hin; set_solver).
  unfold drc_send_remaster_task_msg. destruct (Z.eqb_spec k 0) as [Hz|Hz].
  - destruct (Z.eqb_spec self x) as [<-|Hs]; cbn [mbind outcome_bind task_slice Z.to_nat].
    + rewrite bool_decide_true by done. rewrite filter_cons_False by (by intros [? _]). by apply IH.
    + change (task_slice (Z.to_nat 0) 0 ∅) with (@Ok (list drc_remaster_task) []). cbn [mbind outcome_bind]. rewrite !bool_decide_true by done. rewrite filter_cons_True by (split; [done|apply Hp; [done|exact Hz]]).
      rewrite IH by done. by rewrite <- app_assoc.
  - cbn [mbind outcome_bind]. rewrite bool_decide_true by done. rewrite filter_cons_False; [by apply IH|]. intros [Hs Hx]. by apply Hz, Hp.
Qed.

Lemma assign_ok tl after leave g :
  tasks_are tasks 0 tl -> len tl <= DRC_MAX_PART_NUM -> Forall (fun t => is_inst (tk_export t)) tl ->
  Forall is_inst (after ++ leave) -> is_inst self -> (forall x, is_inst x -> rg_task_num g !! x = Some 0) -> locals g [] ->
  exists g', drc_assign_remaster_task send self after leave tasks (len tl) g =
      Ok (OG_SUCCESS, msgs tl ++ ((fun x => mk_tmsg x []) <$> filter (fun x => x <> self /\ tasks_of x tl = []) (after ++ leave)), g') /\
    locals g' (tasks_of self tl).
Proof.
  intros Ht Hb He Hal Hself Hz L. unfold drc_assign_remaster_task.
  assert (exists g1, (if 0 <? len tl then t ← rd tasks 0; assign_loop (Z.to_nat (len tl - 1)) 1 send tasks self (tk_export t) 0 1 [] g
                      else Ok (OG_SUCCESS, [], g)) = Ok (OG_SUCCESS, msgs tl, g1) /\ locals g1 (tasks_of self tl) /\
                     counted (rg_task_num g) (rg_task_num g1) tl) as (g1 & -> & L1 & C1).
  { destruct tl as [|t tl].
    - exists g. split; [done|]. split; [done|]. intros x Hx. exists 0. rewrite Hz, decide_False by (done || by intros [_ ?]). done.
    - replace (0 <? len (t :: tl)) with true by (unfold len; cbn [length]; lia). pose proof Ht as [Ht0 _]%tasks_are_cons. unfold rd. rewrite Ht0.
      cbn [mbind outcome_bind]. replace (Z.to_nat (len (t :: tl) - 1)) with (length tl) by (unfold len; cbn [length]; lia).
      destruct (assign_loop_ok tl [t] (tk_export t) 1 0 [] g []) as (g1 & E & L1 & C1); try done.
      + by repeat constructor.
      + intros x Hx. rewrite Hz by done. by eexists.
      + eauto. }
  cbn [mbind outcome_bind]. rewrite bool_decide_true by done. unfold wr, rd. destruct (C1 self Hself) as (k & -> & _). cbn [mbind outcome_bind].
  set (g2 := rg_set_task_num _ g1).
  assert (forall x, x ∈ after ++ leave -> exists k, rg_task_num g2 !! x = Some k /\ (x <> self -> k = 0 <-> tasks_of x tl = [])) as Hk.
  { intros x Hx. rewrite Forall_forall in Hal. specialize (Hal x Hx). cbn [rg_task_num g2 rg_set_task_num].
    destruct (decide (x = self)) as [->|Hne]; [rewrite lookup_insert_eq; eexists; split; [done|tauto]|]. rewrite lookup_insert_ne by done.
    destruct (C1 x Hal) as (kx & Hkx & HP). exists kx. split; [done|]. intros _. destruct (decide _) as [[_ Hn]|Hn].
    - split; [lia|done].
    - assert (kx = 0) by (rewrite Hz in HP by done; congruence). split; [|done]. intros _. destruct (tasks_of x tl) eqn:E; [done|].
      exfalso. apply Hn. split; [done|]. done. }
  rewrite (empty_msgs_ok (fun x => tasks_of x tl = []) after) by (intros x Hx; apply Hk; set_solver). cbn [mbind outcome_bind]. rewrite bool_decide_true by done.
  rewrite (empty_msgs_ok (fun x => tasks_of x tl = []) leave) by (intros x Hx; apply Hk; set_solver). cbn [mbind outcome_bind].
  exists g2. split; [|by destruct L1]. by rewrite filter_app, fmap_app, app_assoc.
Qed.
End Assign.

(** ** Accepting a message *)

Lemma copy_tasks_ok l : forall i s,
  0 <= i -> i + len l <= DRC_MAX_PART_NUM -> (forall j, 0 <= j < DRC_MAX_PART_NUM -> is_Some (s !! j)) ->
  exists s', copy_tasks i l s = Ok s' /\ tasks_are s' i l /\ (forall j, j < i -> s' !! j = s !! j) /\
    (forall j, 0 <= j < DRC_MAX_PART_NUM -> is_Some (s' !! j)).
Proof.
  induction l as [|t l IH]; intros i s Hi Hl Hd; cbn [copy_tasks].
  - exists s. split; [done|]. split; [|done]. intros j x. by rewrite lookup_nil.
  - unfold len in Hl. cbn [length] in Hl. unfold wr, rd. destruct (Hd i) as [t0 ->]; [lia|]. cbn [mbind outcome_bind].
    destruct (IH (i + 1) (<[i := t]> s)) as (s' & E & Ha & Hb & Hd'); [lia|unfold len; lia| |].
    + intros j Hj. rewrite lookup_insert_is_Some'. right. by apply Hd.
    + exists s'. split; [done|]. split; [|split].
      * apply tasks_are_cons. split; [rewrite Hb by lia; by rewrite lookup_insert_eq|done].
      * intros j Hj. rewrite Hb by lia. by rewrite lookup_insert_ne by lia.
      * done.
Qed.

Lemma accept_ok rc all msg m g :
  pm_remaster_status m = REMASTER_ASSIGN_TASK -> REFORM_FROZEN <= rc < REFORM_RECOVER_DONE ->
  len (tm_tasks msg) <= DRC_MAX_PART_NUM -> (forall j, 0 <= j < DRC_MAX_PART_NUM -> is_Some (local_task_set g !! j)) ->
  exists m' g', drc_accept_remaster_task true rc (rg_trigger_version g) all msg m g = Ok (true, m', g') /\
    pm_remaster_status m' = REMASTER_MIGRATE /\ remaster_task_set m' = all /\ locals g' (tm_tasks msg).
Proof.
  intros Hs Hr Hl Hd. unfold drc_accept_remaster_task, drc_accept_remaster_task_parameter_check. rewrite Hs. cbn [negb].
  replace (REMASTER_ASSIGN_TASK =? REMASTER_DONE) with false by done. replace (REFORM_RECOVER_DONE <=? rc) with false by lia.
  replace (rc <? REFORM_FROZEN) with false by lia. rewrite Z.eqb_refl. unfold len in Hl.
  replace (DRC_MAX_PART_NUM <? Z.of_nat (length (tm_tasks msg))) with false by lia. cbn [orb negb].
  rewrite bool_decide_false by done. rewrite Z.eqb_refl. cbn [negb].
  destruct (copy_tasks_ok (tm_tasks msg) 0 (local_task_set g)) as (s & E & Ha & _ & Hd'); [lia|unfold len; lia|done|].
  cbn [local_task_set rg_set_local]. rewrite E. cbn [mbind outcome_bind]. do 2 eexists. split; [done|].
  unfold drc_update_remaster_local_status. rewrite Hs. split; [done|]. split; [done|]. by split.
Qed.

(** ** The waits end *)

Lemma all_in_status_ok insts st info : (forall x, x ∈ insts -> is_Some (info !! x)) ->
  all_in_status insts st info = Ok (bool_decide (Forall (fun x => info !! x = Some st) insts)).
Proof.
  induction insts as [|x insts IH]; intros Hd; cbn; [done|]. unfold rd. destruct (Hd x ltac:(set_solver)) as [s Hs]. rewrite Hs.
  cbn [mbind outcome_bind]. destruct (Z.eqb_spec s st) as [->|Hne]; cbn [negb].
  - rewrite IH by set_solver. f_equal. apply bool_decide_ext. rewrite Forall_cons. tauto.
  - rewrite bool_decide_false; [done|]. rewrite Forall_cons. intros [? _]. congruence.
Qed.

(** Everybody is in the status the reformer waits for. *)
Definition ready (insts : list Z) (st : Z) (info : gmap Z Z) : Prop := Forall (fun x => info !! x = Some st) insts.

#[export] Instance ready_dec insts st info : Decision (ready insts st info).
Proof. unfold ready. apply _. Defined.

Lemma is_ready_ok after leave st info : (forall x, x ∈ after ++ leave -> is_Some (info !! x)) ->
  drc_remaster_is_ready after leave st info = Ok (bool_decide (ready (after ++ leave) st info)).
Proof.
  intros Hd. unfold drc_remaster_is_ready, ready. rewrite !all_in_status_ok by set_solver. cbn [mbind outcome_bind].
  destruct (bool_decide (Forall _ after)) eqn:Ha; cbn [negb]; [apply bool_decide_eq_true in Ha|apply bool_decide_eq_false in Ha].
  - f_equal. apply bool_decide_ext. rewrite Forall_app. tauto.
  - rewrite bool_decide_false; [done|]. rewrite Forall_app. tauto.
Qed.

Section Wait.
Context (after leave : list Z) (st timeout : Z) (info : nat -> gmap Z Z) (local : nat -> Z).
Hypothesis Hdom : forall r x, x ∈ after ++ leave -> is_Some (info r !! x).

(** Round [r] decides: everybody is ready, or the remaster has failed, or the
    time is over. *)
Definition decides (e : Z) (r : nat) : Prop :=
  ready (after ++ leave) st (info r) \/ local r = REMASTER_FAIL \/ timeout <= e.

Lemma wait_ready_S n round e : wait_ready_loop (S n) round e timeout after leave st info local =
  if decide (ready (after ++ leave) st (info round)) then Ok (Some OG_SUCCESS)
  else if local round =? REMASTER_FAIL then Ok (Some OG_ERROR)
  else if timeout <=? e then Ok (Some OG_ERROR)
  else wait_ready_loop n (S round) (e + REMASTER_SLEEP_INTERVAL) timeout after leave st info local.
Proof.
  cbn [wait_ready_loop]. rewrite is_ready_ok by apply Hdom. cbn [mbind outcome_bind].
  destruct (decide (ready (after ++ leave) st (info round))) as [Hr|Hr]; [by rewrite bool_decide_true|by rewrite bool_decide_false].
Qed.

Lemma wait_ready_ends n : forall round e,
  timeout < e + REMASTER_SLEEP_INTERVAL * Z.of_nat n ->
  exists k, wait_ready_loop (S n) round e timeout after leave st info local =
      Ok (Some (if decide (ready (after ++ leave) st (info (round + k)%nat)) then OG_SUCCESS else OG_ERROR)) /\
    decides (e + REMASTER_SLEEP_INTERVAL * Z.of_nat k) (round + k) /\
    forall j, (j < k)%nat -> ~ decides (e + REMASTER_SLEEP_INTERVAL * Z.of_nat j) (round + j).
Proof.
  induction n as [|n IH]; intros round e Ht; rewrite wait_ready_S; unfold REMASTER_SLEEP_INTERVAL in *.
  all: destruct (decide (ready (after ++ leave) st (info round))) as [Hr|Hr];
    [exists 0%nat; rewrite Nat.add_0_r, decide_True by exact Hr; split; [done|]; split; [by left|lia]|].
  all: destruct (Z.eqb_spec (local round) REMASTER_FAIL) as [Hf|Hf];
    [exists 0%nat; rewrite Nat.add_0_r, decide_False by exact Hr; split; [done|]; split; [by right; left|lia]|].
  all: destruct (Z.leb_spec timeout e) as [He|He];
    [exists 0%nat; rewrite Nat.add_0_r, decide_False by exact Hr; split; [done|]; split; [right; right; lia|lia]|].
  - lia.
  - destruct (IH (S round) (e + 5)) as (k & E & Hd & Hb); [lia|]. exists (S k). replace (round + S k)%nat with (S round + k)%nat by lia.
    split; [exact E|]. replace (e + 5 * Z.of_nat (S k)) with (e + 5 + 5 * Z.of_nat k) by lia. split; [done|].
    intros [|j] Hj; [rewrite Nat.add_0_r; intros [?|[?|?]]; [done|done|lia]|].
    replace (e + 5 * Z.of_nat (S j)) with (e + 5 + 5 * Z.of_nat j) by lia. replace (round + S j)%nat with (S round + j)%nat by lia. apply Hb. lia.
Qed.
End Wait.

Section Finish.
Context (timeout self : Z) (tasks : nat -> gmap Z drc_remaster_task) (local : nat -> Z).
Hypothesis Hdom : forall r j, 0 <= j < DRC_MAX_PART_NUM -> is_Some (tasks r !! j).

(** A task is not for this instance, or it is complete. *)
Definition arrived (t : drc_remaster_task) : Prop :=
  tk_import t = self -> tk_export t = self \/ tk_status t = PART_MIGRATE_COMPLETE.

(** What the wait from task [i] on says of the rounds. *)
Definition finish_says (i : Z) (b : status) : Prop :=
  match b with
  | OG_SUCCESS => forall j, i <= j < DRC_MAX_PART_NUM -> exists r t, tasks r !! j = Some t /\ arrived t
  | OG_ERROR => exists r j t, tasks r !! j = Some t /\ i <= j /\ tk_import t = self /\ (local r = REMASTER_FAIL \/ ~ arrived t)
  end.

Lemma finish_says_skip i r t b : tasks r !! i = Some t -> arrived t -> finish_says (i + 1) b -> finish_says i b.
Proof.
  intros Ht Ha. destruct b; cbn.
  - intros H j Hj. destruct (decide (j = i)) as [->|]; [eauto|apply H; lia].
  - intros (r' & j & t' & Hj & Hi & H). exists r', j, t'. split; [done|]. split; [lia|done].
Qed.

Lemma finish_loop_ends n : forall round i e,
  0 <= i <= DRC_MAX_PART_NUM -> DRC_MAX_PART_NUM - i <= Z.of_nat n ->
  timeout - e < REMASTER_SLEEP_INTERVAL * (Z.of_nat n - (DRC_MAX_PART_NUM - i)) ->
  exists b, finish_loop (S n) round i e timeout self tasks local = Ok (Some b) /\ finish_says i b.
Proof.
  unfold REMASTER_SLEEP_INTERVAL. induction n as [|n IH]; intros round i e Hi Hn Ht.
  - exists OG_SUCCESS. cbn. replace (DRC_MAX_PART_NUM <=? i) with true by lia. split; [done|]. intros j Hj. lia.
  - destruct (Z.leb_spec DRC_MAX_PART_NUM i) as [Hle|Hlt].
    { exists OG_SUCCESS. cbn. replace (DRC_MAX_PART_NUM <=? i) with true by lia. split; [done|]. intros j Hj. lia. }
    destruct (Hdom round i ltac:(lia)) as [t Et].
    assert (arrived t -> exists b, finish_loop (S n) (S round) (i + 1) e timeout self tasks local = Ok (Some b) /\ finish_says i b) as Hskip.
    { intros Ha. destruct (IH (S round) (i + 1) e) as (b & E & Hb); [lia|lia|lia|]. exists b. split; [exact E|]. by eapply finish_says_skip. }
    assert (e < timeout -> exists b, finish_loop (S n) (S round) i (e + 5) timeout self tasks local = Ok (Some b) /\ finish_says i b) as Hmore.
    { intros He. apply IH; lia. }
    remember (S n) as k. cbn [finish_loop]. replace (DRC_MAX_PART_NUM <=? i) with false by lia. unfold rd. rewrite Et. cbn [mbind outcome_bind].
    destruct (Z.eqb_spec (tk_import t) self) as [Him|Him]; cbn [andb]; [|apply Hskip; by intros ?].
    destruct (Z.eqb_spec (tk_export t) self) as [Hex|Hex]; cbn [negb]; [apply Hskip; by left|].
    destruct (Z.eqb_spec (local round) REMASTER_FAIL) as [Hf|Hf];
      [exists OG_ERROR; split; [done|]; exists round, i, t; split; [done|]; split; [lia|]; by auto|].
    case_bool_decide as Hc; [apply Hskip; by right|].
    destruct (Z.leb_spec timeout e) as [He|He]; [|by apply Hmore].
    exists OG_ERROR. split; [done|]. exists round, i, t. split; [done|]. split; [lia|]. split; [done|]. right. intros Ha. by destruct (Ha Him).
Qed.
End Finish.

(** ** The threads of the migration take every task once *)

Lemma migrate_jobs_cover num : 0 <= num ->
  concat ((fun j => seqZ j.1 j.2) <$> migrate_jobs num) = seqZ 0 num.
Proof.
  intros Hn. assert (0 <= num / 8) by (apply Z.div_pos; lia). pose proof (Z.mod_pos_bound num 8 ltac:(lia)).
  assert (num = 8 * (num / 8) + num mod 8) as E by (apply Z.div_mod; lia).
  unfold migrate_jobs, migrate_job, DRC_REMASTER_MIGRATE_RES_MAX_THREAD_NUM.
  change (seqZ 0 8) with [0; 1; 2; 3; 4; 5; 6; 7]. change (8 - 1) with 7. cbn -[Z.div Z.modulo Z.mul seqZ].
  rewrite app_nil_r. set (p := num / 8) in *. set (q := num mod 8) in *.
  replace (seqZ 0 num) with (seqZ 0 (p + (p + (p + (p + (p + (p + (p + (p + q)))))))))  by (f_equal; lia).
  rewrite !seqZ_app by lia. repeat f_equal; lia.
Qed.

(** ** What one instance is sent *)

Definition msgs_to (x : Z) (sent : list task_msg) : list task_msg := filter (fun k => tm_dst k = x) sent.

Lemma msgs_to_empty x (P : Z -> Prop) `{!forall y, Decision (P y)} insts : NoDup insts ->
  msgs_to x ((fun y => mk_tmsg y []) <$> filter P insts) = if decide (x ∈ insts /\ P x) then [mk_tmsg x []] else [].
Proof.
  unfold msgs_to. induction 1 as [|y insts Hy Hn IH]; [cbn; rewrite decide_False; [done|set_solver]|].
  rewrite filter_cons. destruct (decide (P y)) as [Hp|Hp].
  - rewrite fmap_cons, filter_cons. cbn [tm_dst]. rewrite IH. destruct (decide (y = x)) as [->|Hne].
    + rewrite decide_False by tauto. by rewrite decide_True by set_solver.
    + apply decide_ext. set_solver.
  - rewrite IH. apply decide_ext. set_solver.
Qed.

Lemma msgs_to_runs self x (L : list (Z * list drc_remaster_task)) :
  msgs_to x ((fun y => mk_tmsg y.1 y.2) <$> filter (fun y => y.1 <> self) L) =
    (fun y => mk_tmsg y.1 y.2) <$> filter (fun y => y.1 = x /\ y.1 <> self) L.
Proof.
  unfold msgs_to. induction L as [|[e r] L IH]; [done|]. rewrite !filter_cons. cbn [fst].
  destruct (decide (e <> self)) as [Hs|Hs], (decide (e = x /\ e <> self)) as [He|He]; try tauto.
  - rewrite !fmap_cons, filter_cons. cbn [tm_dst fst]. rewrite decide_True by tauto. by rewrite IH.
  - rewrite fmap_cons, filter_cons. cbn [tm_dst fst]. rewrite decide_False by tauto. done.
Qed.

Lemma one_run x self (L : list (Z * list drc_remaster_task)) r : NoDup L.*1 -> (x, r) ∈ L -> x <> self ->
  filter (fun y => y.1 = x /\ y.1 <> self) L = [(x, r)].
Proof.
  intros Hn Hin Hs. induction L as [|[e k] L IH]; [set_solver|]. apply NoDup_cons in Hn as [He Hn]. rewrite filter_cons. cbn [fst].
  apply elem_of_cons in Hin as [[= <- <-]|Hin].
  - rewrite decide_True by done. f_equal. clear IH Hn. induction L as [|[e k'] L IH]; [done|]. rewrite filter_cons. cbn [fst].
    rewrite decide_False by (cbn in He; set_solver). apply IH. cbn in He. set_solver.
  - assert (e <> x). { intros ->. apply He. apply list_elem_of_fmap. by exists (x, r). }
    rewrite decide_False by tauto. by apply IH.
Qed.

Lemma no_run x self (L : list (Z * list drc_remaster_task)) : x ∉ L.*1 -> filter (fun y => y.1 = x /\ y.1 <> self) L = [].
Proof.
  intros Hx. induction L as [|[e k] L IH]; [done|]. rewrite filter_cons. cbn [fst]. cbn in Hx. rewrite decide_False by set_solver. apply IH. set_solver.
Qed.

(** When every exporter has one run of tasks, every other instance of the
    reform is sent one message, with its tasks. *)
Lemma sent_one self x tl insts : NoDup (runs tl).*1 -> NoDup insts -> x ∈ insts -> x <> self ->
  msgs_to x (msgs self tl ++ ((fun y => mk_tmsg y []) <$> filter (fun y => y <> self /\ tasks_of y tl = []) insts)) =
    [mk_tmsg x (tasks_of x tl)].
Proof.
  intros Hr Hi Hx Hs. unfold msgs_to at 1. rewrite filter_app. fold (msgs_to x (msgs self tl)).
  fold (msgs_to x ((fun y => mk_tmsg y []) <$> filter (fun y => y <> self /\ tasks_of y tl = []) insts)).
  rewrite msgs_to_empty by done. unfold msgs. rewrite msgs_to_runs.
  destruct (decide (tasks_of x tl = [])) as [He|He].
  - rewrite no_run by (by apply runs_none). rewrite decide_True by done. by rewrite He.
  - rewrite decide_False by tauto. destruct (decide (x ∈ (runs tl).*1)) as [Hin|Hin]; [|exfalso; by apply He, runs_none].
    apply list_elem_of_fmap in Hin as ([x' r] & -> & Hin). cbn [fst] in *. rewrite (one_run _ _ _ r) by done.
    cbn. by rewrite <- (runs_tasks_of tl x' r).
Qed.
