(* ===== verification/DrcRemasterInv.v ===== *)
(** What the steps of the remaster thread and the handlers of its messages
    keep of an instance, and what they send. *)

From S2P Require Import Prelude DrcBitmap DrcGlobalRes DrcReform DrcPart DrcRemaster DrcRemasterFsm.

(** The part of the manager that only assigning tasks, publishing and the end
    of a remaster change. *)
Definition core (m : drc_part_mngr) :=
  (pm_inst_num m, pm_remaster_inst m, pm_mgrt_fail_list m, (part_map m, inst_part_tbl m),
   (target_part_map m, target_inst_part_tbl m), (tmp_part_map m, tmp_inst_part_tbl m), remaster_task_set m).

(** The instance goes on with the same assignment: it is the same instance
    in the same reform, no status moves back, nothing is done that was not,
    and of the statuses that are reported only its own may change. *)
Record keeps (self : Z) (n n' : node) : Prop := {
  k_core : core (nd_part n') = core (nd_part n);
  k_version : nd_version n' = nd_version n;
  k_master : nd_is_master n' = nd_is_master n;
  k_reports : forall x, x <> self -> rg_status (nd_rem n') !! x = rg_status (nd_rem n) !! x;
  k_le : nd_status n <= nd_status n';
  k_hi : nd_status n <= REMASTER_FAIL -> nd_status n' <= REMASTER_FAIL;
  k_done : nd_status n' = REMASTER_DONE -> nd_status n = REMASTER_DONE;
  k_finish : nd_finish n' = nd_finish n \/ nd_finish n' = REMASTER_MIGRATE;
}.

#[export] Instance keeps_preorder self : PreOrder (keeps self).
Proof.
  split.
  - intros n. split; try done. by left.
  - intros a b c [] []. split; try congruence; try lia.
    intros x Hx. rewrite k_reports1 by done. auto.
Qed.

(** The messages that a step before the publication sends. *)
Definition plain (self version : Z) (k : rmsg) : Prop :=
  match k with
  | NotifyMsg src st v => src = self /\ v = version /\ (st = REMASTER_ASSIGN_TASK \/ st = REMASTER_FAIL)
  | TaskMsg v _ _ => v = version
  | TaskAckMsg src _ v => src = self /\ v = version
  | _ => False
  end.

(** A status that a step before the end sets. *)
Definition open_status (st : Z) : bool := (st <? REMASTER_DONE) || (st =? REMASTER_FAIL).

Lemma open_not_done st : open_status st = true -> st <> REMASTER_DONE /\ st <= REMASTER_FAIL.
Proof. unfold open_status, REMASTER_DONE, REMASTER_FAIL. lia. Qed.

Lemma nd_to_status st n : nd_status (nd_to st n) = if nd_status n =? REMASTER_FAIL then REMASTER_FAIL else st.
Proof.
  unfold nd_status, nd_to, nd_map_part, drc_update_remaster_local_status. cbn [nd_part].
  destruct (Z.eqb_spec (pm_remaster_status (nd_part n)) REMASTER_FAIL) as [E|]; [exact E|done].
Qed.

Lemma nd_to_core st n : st <> REMASTER_DONE -> core (nd_part (nd_to st n)) = core (nd_part n).
Proof.
  intros Hst. unfold nd_to, nd_map_part, drc_update_remaster_local_status, core. cbn [nd_part].
  destruct (pm_remaster_status (nd_part n) =? REMASTER_FAIL); [done|]. cbn. replace (st =? REMASTER_DONE) with false by lia. done.
Qed.

Lemma nd_to_keeps self st n : nd_status n <= st \/ nd_status n = REMASTER_FAIL -> open_status st = true -> keeps self n (nd_to st n).
Proof.
  intros Hle [Hst Hf]%open_not_done. split; [by apply nd_to_core|done|done|done| | | |by left]; rewrite nd_to_status;
    destruct (Z.eqb_spec (nd_status n) REMASTER_FAIL); lia.
Qed.

(** Writing members that [keeps] does not mention. *)
Lemma keeps_complete self x n : keeps self n (nd_set_complete x n).
Proof. split; try done. by left. Qed.
Lemma keeps_finish self n : keeps self n (nd_set_finish REMASTER_MIGRATE n).
Proof. split; try done. by right. Qed.
#[export] Hint Resolve keeps_complete keeps_finish : drc.

Lemma keeps_rem self g n :
  rg_trigger_version g = nd_version n -> (forall x, x <> self -> rg_status g !! x = rg_status (nd_rem n) !! x) ->
  keeps self n (nd_set_rem g n).
Proof. intros Hv Hs. split; try done. by left. Qed.

Lemma update_inst_status_ok x st g g' :
  drc_master_update_inst_remaster_status x st g = Ok g' ->
  rg_trigger_version g' = rg_trigger_version g /\ (forall y, y <> x -> rg_status g' !! y = rg_status g !! y) /\
  (rg_status g' !! x = rg_status g !! x \/ rg_status g' !! x = Some st).
Proof.
  unfold drc_master_update_inst_remaster_status. intros H. inv_ok. destruct (_ <? st); inv_ok; subst; [|auto].
  unfold wr in *. inv_ok. subst. cbn. split; [done|]. split; [intros y Hy; by rewrite lookup_insert_ne|].
  right. by rewrite lookup_insert_eq.
Qed.

Lemma notify_keeps self st sent n ret ms n' :
  drc_notify_remaster_status self st sent n = Ok (ret, ms, n') -> st = REMASTER_ASSIGN_TASK \/ st = REMASTER_FAIL ->
  keeps self n n' /\ Forall (plain self (nd_version n)) ms /\ nd_part n' = nd_part n.
Proof.
  unfold drc_notify_remaster_status. intros H Hst. destruct (_ =? self); inv_ok; simplify_eq/=.
  - unfold notify_self in *. inv_ok. subst. unfold wr in *. inv_ok. subst. split; [|done]. apply keeps_rem; [done|].
    intros x Hx. cbn. by rewrite lookup_insert_ne.
  - split; [done|]. split; [|done]. case_bool_decide; [by apply Forall_singleton|constructor].
Qed.

Lemma task_ack_keeps self ts sent n ret ms n' :
  drc_remaster_task_ack self ts sent n = Ok (ret, ms, n') ->
  keeps self n n' /\ Forall (plain self (nd_version n)) ms /\ nd_part n' = nd_part n.
Proof.
  unfold drc_remaster_task_ack. intros H. destruct (self =? _); inv_ok; simplify_eq/=.
  - unfold task_ack_self in *. apply update_inst_status_ok in Eok as (Hv & Hs & _). split; [|done]. by apply keeps_rem.
  - split; [done|]. split; [|done]. case_bool_decide; [by apply Forall_singleton|constructor].
Qed.

(** A status that a step before the publication leaves. *)
Definition below (n : node) : Prop := nd_status n <= REMASTER_PUBLISH \/ nd_status n = REMASTER_FAIL.

Lemma below_to self st n : below n -> REMASTER_PUBLISH <= st -> open_status st = true -> keeps self n (nd_to st n).
Proof. intros [H|H] Hst Hd; apply nd_to_keeps; auto; left; lia. Qed.

Lemma below_fail self n : below n -> keeps self n (nd_to REMASTER_FAIL n).
Proof. intros H. by apply below_to. Qed.

Lemma below_keeps n n' : nd_status n' = nd_status n -> below n -> below n'.
Proof. unfold below. by intros ->. Qed.

Lemma ack_and_publish_keeps self sent n ret ms n' :
  ack_and_publish self sent n = Ok (ret, ms, n') -> below n -> keeps self n n' /\ Forall (plain self (nd_version n)) ms.
Proof.
  unfold ack_and_publish. intros H Hb. inv_ok. destruct a as [[ret1 ms1] n1]. apply task_ack_keeps in Eok as (K & P & En).
  assert (below n1) by (apply (below_keeps n); [unfold nd_status; by rewrite En|done]).
  case_bool_decide; inv_ok; simplify_eq/=; (split; [|done]); (etransitivity; [exact K|by apply below_to]).
Qed.

(** ** The steps *)

(** Before the tasks are assigned nothing is migrated. *)
Definition early (n n' : node) : Prop :=
  nd_status n < REMASTER_MIGRATE -> nd_status n' < REMASTER_MIGRATE \/ nd_status n' = REMASTER_FAIL.

Lemma prepare_keeps self verify sent n ms n' :
  drc_prepare_remaster self verify sent n = Ok (ms, n') -> nd_status n = REMASTER_PREPARE ->
  (keeps self n n' /\ early n n') /\ Forall (plain self (nd_version n)) ms.
Proof.
  unfold drc_prepare_remaster. intros H Hs. assert (below n) as Hb by (left; by rewrite Hs).
  destruct (_ && _); inv_ok; simplify_eq/=.
  { split; [|done]. split; [by apply below_fail|]. intros _. rewrite nd_to_status. destruct (_ =? _); by right. }
  destruct a as [[ret ms1] n1]. apply notify_keeps in Eok as (K & P & En); [|by left]. simplify_eq/=.
  assert (nd_status n1 = nd_status n) as Es by (unfold nd_status; by rewrite En).
  split; [|done]. split.
  - etransitivity; [exact K|]. case_bool_decide; apply nd_to_keeps; rewrite ?Es, ?Hs; try done; by left.
  - intros _. rewrite nd_to_status, Es, Hs. cbn. case_bool_decide; [by left|by right].
Qed.

(** A part of a step that leaves the status as it is, unless the remaster
    fails. *)
Definition calm (self : Z) (n n' : node) : Prop :=
  keeps self n n' /\ nd_rem n' = nd_rem n /\ (nd_status n' = nd_status n \/ nd_status n' = REMASTER_FAIL).

#[export] Instance calm_preorder self : PreOrder (calm self).
Proof.
  split; [intros n; split; [reflexivity|auto]|].
  intros a b c (K1 & R1 & S1) (K2 & R2 & S2). split; [by etransitivity|]. split; [congruence|]. destruct S2 as [->|]; auto.
Qed.

Lemma calm_below self n n' : calm self n n' -> below n -> below n'.
Proof. intros (_ & _ & [E|E]) Hb; [by eapply below_keeps|by right]. Qed.

Lemma calm_fail self n : below n -> calm self n (nd_to REMASTER_FAIL n).
Proof. intros Hb. split; [by apply below_fail|]. split; [done|]. rewrite nd_to_status. by destruct (_ =? _); right. Qed.
#[export] Hint Resolve calm_fail : drc.

Lemma calm_complete self x n : calm self n (nd_set_complete x n).
Proof. split; [apply keeps_complete|auto]. Qed.

Lemma migrate_res_calm self count : forall j seen blk n n',
  drc_remaster_migrate_res count j seen blk n = Ok n' -> below n -> calm self n n'.
Proof.
  induction count as [|count IH]; intros j seen blk n n' H Hb; cbn in H; inv_ok; simplify_eq/=; [done|].
  destruct (seen j); [simplify_eq/=; auto with drc|]. destruct (nd_status n =? REMASTER_FAIL); [by simplify_eq/=|]. inv_ok.
  case_bool_decide; [simplify_eq/=; auto with drc|]. apply IH in H; [|done]. by etransitivity; [apply calm_complete|exact H].
Qed.

Lemma migrate_threads_calm self jobs : forall i created seen blk n ret n',
  migrate_threads i jobs created seen blk n = Ok (ret, n') -> below n -> calm self n n'.
Proof.
  induction jobs as [|[start count] jobs IH]; intros i created seen blk n ret n' H Hb; cbn in H; inv_ok; simplify_eq/=; [done|].
  case_bool_decide; inv_ok; simplify_eq/=; [auto with drc|].
  apply (migrate_res_calm self) in Eok; [|done]. etransitivity; [exact Eok|]. eapply IH; [exact H|]. by eapply calm_below.
Qed.

Lemma migrate_calm self created seen blk n ret n' :
  drc_remaster_migrate created seen blk n = Ok (ret, n') -> below n -> calm self n n'.
Proof.
  unfold drc_remaster_migrate. intros H Hb. destruct (_ =? 0); inv_ok; [by simplify_eq/=|]. destruct a as [ret1 n1].
  apply (migrate_threads_calm self) in Eok; [|done]. by simplify_eq/=.
Qed.

Lemma clean_all_calm self insts clean : forall n ret n', clean_all insts clean n = (ret, n') -> below n -> calm self n n'.
Proof.
  induction insts as [|x insts IH]; intros n ret n' H Hb; cbn in H; simplify_eq/=; [done|].
  case_bool_decide; simplify_eq/=; [auto with drc|by eapply IH].
Qed.

Lemma clean_owner_calm self r clean n ret n' :
  drc_remaster_migrate_clean_res_owner r clean n = (ret, n') -> below n -> calm self n n'.
Proof.
  unfold drc_remaster_migrate_clean_res_owner. intros H Hb. destruct (clean_all _ clean n) as [ret1 n1] eqn:E.
  apply (clean_all_calm self) in E; [|done]. case_bool_decide; simplify_eq/=; [done|].
  etransitivity; [exact E|]. eapply clean_all_calm; [exact H|]. by eapply calm_below.
Qed.

Lemma step_migrate_keeps r self finished clean created seen blk sent n ret ms n' :
  drc_remaster_step_migrate r self finished clean created seen blk sent n = Ok (ret, ms, n') -> nd_status n = REMASTER_MIGRATE ->
  keeps self n n' /\ Forall (plain self (nd_version n)) ms.
Proof.
  unfold drc_remaster_step_migrate. intros H Hs. assert (below n) as Hb by (left; by rewrite Hs). case_bool_decide as Hj.
  - destruct (knl_panic _); cbn [mbind outcome_bind] in H; [|done]. case_bool_decide; [inv_ok; simplify_eq/=; split; [by apply below_fail|done]|].
    by eapply ack_and_publish_keeps.
  - destruct (drc_remaster_migrate_clean_res_owner r clean n) as [ret0 n0] eqn:E0. apply (clean_owner_calm self) in E0; [|done].
    inv_ok. destruct a as [ret1 n1]. apply (migrate_calm self) in Eok; [|by eapply calm_below].
    assert (calm self n n1) as (K & _ & S) by (by etransitivity).
    destruct (_ || _); [inv_ok; simplify_eq/=; split; [done|done]|].
    assert (keeps self n (nd_to REMASTER_RECOVERY n1)) as K2.
    { etransitivity; [exact K|]. apply nd_to_keeps; [|done]. rewrite Hs in S. destruct S as [->|]; [by left|by right]. }
    case_bool_decide; [|inv_ok; simplify_eq/=; done]. apply ack_and_publish_keeps in H as [K3 P3].
    + rewrite (k_version _ _ _ K2) in P3. split; [by etransitivity|done].
    + unfold below. rewrite nd_to_status. destruct (_ =? _); [by right|by left].
Qed.

Lemma recovery_calm self insts lock_rcy buf_rcy : forall ret0 n ret n',
  recovery_loop insts ret0 lock_rcy buf_rcy n = (ret, n') -> below n -> calm self n n'.
Proof.
  induction insts as [|x insts IH]; intros ret0 n ret n' H Hb; cbn in H; simplify_eq/=; [done|].
  destruct (_ =? _); simplify_eq/=; [done|]. case_bool_decide; simplify_eq/=; [done|]. case_bool_decide; [|by eapply IH].
  pose proof (calm_fail self n Hb) as C. etransitivity; [exact C|]. eapply IH; [exact H|]. by eapply calm_below.
Qed.

Lemma step_recover_keeps r self lock_rcy buf_rcy recovered sent n ret ms n' :
  drc_remaster_step_recover r self lock_rcy buf_rcy recovered sent n = Ok (ret, ms, n') -> nd_status n = REMASTER_RECOVERY ->
  keeps self n n' /\ Forall (plain self (nd_version n)) ms.
Proof.
  unfold drc_remaster_step_recover. intros H Hs. assert (below n) as Hb by (left; by rewrite Hs).
  destruct (drc_remaster_recovery r lock_rcy buf_rcy n) as [ret0 n0] eqn:E0. unfold drc_remaster_recovery in E0.
  apply (recovery_calm self) in E0; [|done]. pose proof (calm_below _ _ _ E0 Hb) as B0. pose proof (calm_fail self n0 B0) as F0.
  case_bool_decide; [inv_ok; simplify_eq/=; split; [by etransitivity; [apply E0|apply F0]|done]|].
  destruct E0 as [K0 _]. case_bool_decide.
  - inv_ok. destruct a as [[ret1 ms1] n1]. simplify_eq/=. apply task_ack_keeps in Eok as (K & P & _). destruct F0 as [F0 _].
    rewrite (k_version _ _ _ F0), (k_version _ _ _ K0) in P. split; [|done]. by do 2 (etransitivity; [eassumption|]).
  - apply ack_and_publish_keeps in H as [K P]; [|done]. rewrite (k_version _ _ _ K0) in P. split; [by etransitivity|done].
Qed.

(** ** Assigning *)

(** What a rebalancing leaves of the manager. *)
Definition rebalance_keeps (m m' : drc_part_mngr) : Prop :=
  pm_remaster_inst m' = pm_remaster_inst m /\ pm_mgrt_fail_list m' = pm_mgrt_fail_list m /\
  pm_remaster_status m' = pm_remaster_status m /\ part_map m' = part_map m /\ inst_part_tbl m' = inst_part_tbl m.

#[export] Instance rebalance_keeps_preorder : PreOrder rebalance_keeps.
Proof. split; [by intros m|]. intros a b c (? & ? & ? & ? & ?) (? & ? & ? & ? & ?). unfold rebalance_keeps. split_and!; congruence. Qed.

Lemma set_rebalance_keeps k s m : rebalance_keeps m (set_rebalance k s m).
Proof. done. Qed.

(** The last step of a computation. *)
Lemma bind_inv {A B} (f : A -> outcome B) (c : outcome A) (b : B) : mbind f c = Ok b -> exists a, c = Ok a /\ f a = Ok b.
Proof. destruct c as [a|w]; [eauto|done]. Qed.

Lemma scaleout_keeps mode news m st m' : drc_scaleout_remaster mode news m = Ok (st, m') -> rebalance_keeps m m' /\ st = OG_SUCCESS.
Proof.
  unfold drc_scaleout_remaster. case_bool_decide as Hn; [by intros [= <- <-]|].
  intros (? & _ & H)%bind_inv. apply bind_inv in H as (? & _ & H). apply bind_inv in H as (? & _ & H).
  apply bind_inv in H as (? & _ & H). apply bind_inv in H as (? & _ & H). injection H as <- <-. split; [apply set_rebalance_keeps|done].
Qed.

Lemma scalein_keeps dels ab m st m' : drc_scalein_remaster dels ab m = Ok (st, m') -> rebalance_keeps m m' /\ st = OG_SUCCESS.
Proof.
  unfold drc_scalein_remaster. intros (? & _ & H)%bind_inv. apply bind_inv in H as (? & _ & H). apply bind_inv in H as (? & _ & H).
  apply bind_inv in H as (? & _ & H). apply bind_inv in H as (? & _ & H). apply bind_inv in H as (? & _ & H).
  injection H as <- <-. split; [apply set_rebalance_keeps|done].
Qed.

(** A rebalancing that may be skipped. *)
Lemma maybe_keeps (b : bool) (c : outcome (status * drc_part_mngr)) m st m' :
  (forall st m', c = Ok (st, m') -> rebalance_keeps m m' /\ st = OG_SUCCESS) ->
  (if b then Ok (OG_SUCCESS, m) else c) = Ok (st, m') \/ (if b then c else Ok (OG_SUCCESS, m)) = Ok (st, m') -> rebalance_keeps m m'.
Proof. intros Hc. destruct b; intros [H|H]; try (by injection H as <- <-); by apply Hc in H as [? _]. Qed.

Lemma execute_rebalance_keeps mode l m st m' : execute_rebalance mode l m = Ok (st, m') -> rebalance_keeps m m' /\ st = OG_SUCCESS.
Proof.
  unfold execute_rebalance. intros ([s1 m1] & E1 & H)%bind_inv. apply bind_inv in H as ([s2 m2] & E2 & H).
  apply bind_inv in H as ([s3 m3] & E3 & H). apply bind_inv in H as ([s4 m4] & E4 & H). injection H as <- <-. split; [|done].
  transitivity (drc_int_remaster_target m); [done|].
  etransitivity; [eapply maybe_keeps; [intros ? ?; apply scaleout_keeps|left; exact E1]|].
  etransitivity; [eapply maybe_keeps; [intros ? ?; apply scalein_keeps|left; exact E2]|].
  etransitivity; [eapply maybe_keeps; [intros ? ?; apply scalein_keeps|right; exact E3]|].
  eapply maybe_keeps; [intros ? ?; apply scalein_keeps|right; exact E4].
Qed.

(** The assignment as it was is kept for a remaster that has to be stopped. *)
Definition tmp_same (m m' : drc_part_mngr) : Prop := tmp_part_map m' = tmp_part_map m /\ tmp_inst_part_tbl m' = tmp_inst_part_tbl m.

Lemma scaleout_tmp mode news m st m' : drc_scaleout_remaster mode news m = Ok (st, m') -> tmp_same m m'.
Proof.
  unfold drc_scaleout_remaster. case_bool_decide as Hn; [by intros [= <- <-]|].
  intros (? & _ & H)%bind_inv. apply bind_inv in H as (? & _ & H). apply bind_inv in H as (? & _ & H).
  apply bind_inv in H as (? & _ & H). apply bind_inv in H as (? & _ & H). by injection H as <- <-.
Qed.

Lemma scalein_tmp dels ab m st m' : drc_scalein_remaster dels ab m = Ok (st, m') -> tmp_same m m'.
Proof.
  unfold drc_scalein_remaster. intros (? & _ & H)%bind_inv. apply bind_inv in H as (? & _ & H). apply bind_inv in H as (? & _ & H).
  apply bind_inv in H as (? & _ & H). apply bind_inv in H as (? & _ & H). apply bind_inv in H as (? & _ & H). by injection H as <- <-.
Qed.

Lemma execute_rebalance_tmp mode l m st m' : execute_rebalance mode l m = Ok (st, m') ->
  tmp_part_map m' = part_map m /\ tmp_inst_part_tbl m' = inst_part_tbl m.
Proof.
  assert (forall (b : bool) c (a : drc_part_mngr) s a', (forall s a', c = Ok (s, a') -> tmp_same a a') ->
    (if b then Ok (OG_SUCCESS, a) else c) = Ok (s, a') \/ (if b then c else Ok (OG_SUCCESS, a)) = Ok (s, a') -> tmp_same a a') as Hm.
  { intros b c a s a' Hc. destruct b; intros [H|H]; try (by injection H as <- <-); by apply Hc in H. }
  unfold execute_rebalance. intros ([s1 m1] & E1 & H)%bind_inv. apply bind_inv in H as ([s2 m2] & E2 & H).
  apply bind_inv in H as ([s3 m3] & E3 & H). apply bind_inv in H as ([s4 m4] & E4 & H). injection H as <- <-.
  destruct (Hm _ _ _ _ _ (scaleout_tmp mode (rl_join l) (drc_int_remaster_target m)) (or_introl E1)) as [P1 T1].
  destruct (Hm _ _ _ _ _ (scalein_tmp (rl_leave l) false m1) (or_introl E2)) as [P2 T2].
  destruct (Hm _ _ _ _ _ (scalein_tmp (rl_abort l) true m2) (or_intror E3)) as [P3 T3].
  destruct (Hm _ _ _ _ _ (scalein_tmp (rl_fail l) true m3) (or_intror E4)) as [P4 T4].
  rewrite P4, P3, P2, P1, T4, T3, T2, T1. done.
Qed.

(** The assignment of the tasks does not touch the reports. *)
Definition rem_keeps (g g' : drc_remaster_mngr) : Prop :=
  rg_status g' = rg_status g /\ rg_trigger_version g' = rg_trigger_version g.

Lemma assign_group_rem send tasks self cur pos k sent g ret sent' g' :
  assign_group send tasks self cur pos k sent g = Ok (ret, sent', g') -> rem_keeps g g'.
Proof.
  unfold assign_group. intros H. destruct (negb _); inv_ok.
  - destruct a as [r1 s1]. case_bool_decide; inv_ok; by simplify_eq/=.
  - by simplify_eq/=.
Qed.

Lemma assign_loop_rem n : forall i send tasks self cur pos k sent g ret sent' g',
  assign_loop n i send tasks self cur pos k sent g = Ok (ret, sent', g') -> rem_keeps g g'.
Proof.
  induction n as [|n IH]; intros i send tasks self cur pos k sent g ret sent' g' H; cbn in H; [by eapply assign_group_rem|].
  inv_ok. destruct (_ || _); [|by eapply IH]. inv_ok. destruct a0 as [[r1 s1] g1]. apply assign_group_rem in Eok0 as [E1 E2].
  case_bool_decide; [|by simplify_eq/=]. apply IH in H as [E3 E4]. split; congruence.
Qed.

Lemma assign_rem send self after leave tasks num g ret sent g' :
  drc_assign_remaster_task send self after leave tasks num g = Ok (ret, sent, g') -> rem_keeps g g'.
Proof.
  unfold drc_assign_remaster_task. intros H. inv_ok. destruct a as [[r1 s1] g1].
  assert (rem_keeps g g1) as K1.
  { destruct (0 <? num); inv_ok; [by eapply assign_loop_rem|by simplify_eq/=]. }
  case_bool_decide; inv_ok; [|by simplify_eq/=]. destruct a0 as [r2 s2]. case_bool_decide; inv_ok; [|by simplify_eq/=].
  destruct a0 as [r3 s3]. by simplify_eq/=.
Qed.

(** The reformer has assigned the tasks of a rebalancing. *)
Record assigned (mode : bool) (r : reform_info) (n n' : node) : Prop := {
  as_rebalance : exists m', execute_rebalance mode (ri_lists r) (nd_part n) = Ok (OG_SUCCESS, m') /\
    target_part_map (nd_part n') = target_part_map m' /\ target_inst_part_tbl (nd_part n') = target_inst_part_tbl m';
  as_map : part_map (nd_part n') = part_map (nd_part n);
  as_tbl : inst_part_tbl (nd_part n') = inst_part_tbl (nd_part n);
  as_inst : pm_remaster_inst (nd_part n') = pm_remaster_inst (nd_part n);
  as_version : nd_version n' = nd_version n;
  as_master : nd_is_master n' = nd_is_master n;
  as_tmp : tmp_part_map (nd_part n') = part_map (nd_part n) /\ tmp_inst_part_tbl (nd_part n') = inst_part_tbl (nd_part n);
  as_reports : rg_status (nd_rem n') = rg_status (nd_rem n);
  as_status : nd_status n' = REMASTER_MIGRATE \/ nd_status n' = REMASTER_FAIL;
}.

Lemma nd_to_fields st n : st <> REMASTER_DONE ->
  part_map (nd_part (nd_to st n)) = part_map (nd_part n) /\ inst_part_tbl (nd_part (nd_to st n)) = inst_part_tbl (nd_part n) /\
  target_part_map (nd_part (nd_to st n)) = target_part_map (nd_part n) /\
  target_inst_part_tbl (nd_part (nd_to st n)) = target_inst_part_tbl (nd_part n) /\
  pm_remaster_inst (nd_part (nd_to st n)) = pm_remaster_inst (nd_part n) /\
  tmp_part_map (nd_part (nd_to st n)) = tmp_part_map (nd_part n) /\ tmp_inst_part_tbl (nd_part (nd_to st n)) = tmp_inst_part_tbl (nd_part n).
Proof. intros Hst. pose proof (nd_to_core st n Hst) as E. unfold core in E. simplify_eq/=. done. Qed.

(** The two ends of the assignment, and the failure of a round. *)
Definition fail_round (ret : status) (n : node) : node :=
  if bool_decide (ret = OG_ERROR) && negb (nd_status n =? REMASTER_FAIL) then nd_to REMASTER_FAIL n else n.

Lemma execute_assigned mode r self send n ret ms n' :
  drc_execute_remaster mode r self send n = Ok (ret, ms, n') -> nd_status n = REMASTER_ASSIGN_TASK ->
  Forall (plain self (nd_version n)) ms /\ assigned mode r n (fail_round ret n').
Proof.
  unfold drc_execute_remaster. intros H Hs. inv_ok. destruct a as [st m]. pose proof Eok as Erb.
  apply execute_rebalance_keeps in Eok as [(Ki & Km & Kst & Kp & Kt) ->]. inv_ok. destruct a as [[ret1 sent] g].
  apply assign_rem in Eok as [Es Ev]. set (n1 := nd_set_rem g (nd_map_part (fun _ => m) n)) in *.
  assert (nd_status n1 = REMASTER_ASSIGN_TASK) as Hs1 by (unfold nd_status, n1; cbn; by rewrite Kst).
  assert (Forall (plain self (nd_version n)) (TaskMsg (nd_version n1) (remaster_task_set m) <$> sent)) as P.
  { apply Forall_fmap, Forall_true. intros k. cbn. unfold nd_version, n1. cbn. by rewrite Ev. }
  assert (forall st, st = REMASTER_MIGRATE \/ st = REMASTER_FAIL -> assigned mode r n (nd_to st n1)) as A.
  { intros st Hst. assert (st <> REMASTER_DONE) as Hd by (by destruct Hst as [->| ->]).
    destruct (nd_to_fields st n1 Hd) as (F1 & F2 & F3 & F4 & F5 & F6 & F7). split.
    - exists m. by rewrite F3, F4.
    - by rewrite F1.
    - by rewrite F2.
    - by rewrite F5.
    - done.
    - done.
    - rewrite F6, F7. apply (execute_rebalance_tmp _ _ _ _ _ Erb).
    - done.
    - rewrite nd_to_status, Hs1. cbn. destruct Hst; auto. }
  case_bool_decide as Hr; inv_ok; simplify_eq/=.
  - split; [done|]. unfold fail_round. rewrite bool_decide_false by done. cbn [andb]. destruct (A REMASTER_MIGRATE) as [B1 B2 B3 B4 B5 B6 B7 B8 B9]; [by left|].
    by split.
  - destruct ret; [done|]. split; [done|]. unfold fail_round. rewrite bool_decide_true by done. rewrite Hs1. cbn. apply A. by right.
Qed.

(** ** A round of the thread *)

Lemma fail_round_keeps self ret n : nd_status n <= REMASTER_FAIL -> keeps self n (fail_round ret n).
Proof. intros Hn. unfold fail_round. destruct (_ && _); [|done]. apply nd_to_keeps; [by left|done]. Qed.

(** A round other than the publication of the reformer keeps the instance,
    or assigns the tasks. *)
Lemma round_ok r self c ff ret n ret' ms n' :
  proc_round r self c ff ret n = Ok (ret', ms, n') -> nd_status n <= REMASTER_FAIL ->
  (nd_status n = REMASTER_PUBLISH -> nd_is_master n = false) ->
  Forall (plain self (nd_version n)) ms /\
  ((keeps self n n' /\ early n n') \/
   (nd_status n = REMASTER_ASSIGN_TASK /\ nd_is_master n = true /\ c_waited c = OG_SUCCESS /\ assigned (c_mode c) r n n')).
Proof.
  unfold proc_round. intros ([[ret1 ms1] n1] & E & H)%bind_inv Hn Hp. fold (fail_round ret1 n1) in H. injection H as -> -> <-.
  assert ((keeps self n n1 /\ early n n1) /\ Forall (plain self (nd_version n)) ms ->
    Forall (plain self (nd_version n)) ms /\ ((keeps self n (fail_round ret' n1) /\ early n (fail_round ret' n1)) \/
      (nd_status n = REMASTER_ASSIGN_TASK /\ nd_is_master n = true /\ c_waited c = OG_SUCCESS /\ assigned (c_mode c) r n (fail_round ret' n1)))) as Hk.
  { intros [[K Ea] P]. split; [done|]. left. split; [etransitivity; [exact K|]; apply fail_round_keeps; by apply (k_hi _ _ _ K)|].
    intros Hlt. unfold fail_round. destruct (_ && _); [|by apply Ea]. rewrite nd_to_status. destruct (_ =? _); by right. }
  assert (early n n) as Hee by (intros ?; by left).
  unfold proc_switch in E. destruct (Z.eqb_spec (nd_status n) REMASTER_PREPARE) as [H0|H0].
  { apply bind_inv in E as ([ms2 n2] & E & [= <- <- <-]). apply Hk. by eapply prepare_keeps. }
  destruct (Z.eqb_spec (nd_status n) REMASTER_ASSIGN_TASK) as [H1|H1].
  { unfold drc_remaster_step_assign_task in E. destruct (nd_is_master n) eqn:Em; cbn [negb] in E; [|injection E as <- <- <-; by apply Hk].
    case_bool_decide as Hw; [injection E as <- <- <-; by apply Hk|].
    apply execute_assigned in E as [P [A1 A2 A3 A4 A5 A6 A7 A8 A9]]; [|done]. split; [done|]. right.
    split; [done|]. split; [done|]. split; [by destruct (c_waited c)|]. by split. }
  destruct (Z.eqb_spec (nd_status n) REMASTER_MIGRATE) as [H2|H2].
  { apply bind_inv in E as ([[ret2 ms2] n2] & E & [= <- <- <-]). apply step_migrate_keeps in E as [K P]; [|done].
    apply Hk. split; [|done]. split; [|unfold early; rewrite H2; done]. etransitivity; [exact K|]. case_bool_decide; [apply keeps_finish|done]. }
  destruct (Z.eqb_spec (nd_status n) REMASTER_RECOVERY) as [H3|H3].
  { apply Hk. apply step_recover_keeps in E as [K P]; [|done]. split; [|done]. split; [done|]. unfold early; by rewrite H3. }
  destruct (Z.eqb_spec (nd_status n) REMASTER_PUBLISH) as [H4|H4].
  { unfold drc_remaster_step_publish in E. rewrite (Hp H4) in E. injection E as <- <- <-. by apply Hk. }
  destruct (Z.eqb_spec (nd_status n) REMASTER_FAIL) as [H5|H5]; cbn [andb] in E; [|injection E as <- <- <-; by apply Hk].
  destruct (ff && _); [|injection E as <- <- <-; by apply Hk]. apply bind_inv in E as ([[ret2 ms2] n2] & E & [= <- <- <-]).
  apply notify_keeps in E as (K & P & _); [|by right]. apply Hk. split; [|done]. split; [done|]. unfold early; by rewrite H5.
Qed.

(** ** The handlers *)

Lemma keeps_eq self n n' : nd_part n' = nd_part n -> nd_rem n' = nd_rem n -> nd_is_master n' = nd_is_master n -> nd_finish n' = nd_finish n ->
  keeps self n n'.
Proof. intros Hp Hr Hm Hf. unfold nd_status, nd_version in *. split; unfold nd_status, nd_version; rewrite ?Hp, ?Hr; try done. by left. Qed.

(** What a handler leaves of an instance that is not the reformer. *)
Record same_parts (n n' : node) : Prop := {
  sp_map : part_map (nd_part n') = part_map (nd_part n);
  sp_tbl : inst_part_tbl (nd_part n') = inst_part_tbl (nd_part n);
  sp_inst : pm_remaster_inst (nd_part n') = pm_remaster_inst (nd_part n);
  sp_version : nd_version n' = nd_version n;
  sp_master : nd_is_master n' = nd_is_master n;
  sp_le : nd_status n <= nd_status n';
  sp_hi : nd_status n <= REMASTER_FAIL -> nd_status n' <= REMASTER_FAIL;
  sp_done : nd_status n' = REMASTER_DONE -> nd_status n = REMASTER_DONE;
}.

Lemma keeps_same self n n' : keeps self n n' -> same_parts n n'.
Proof. intros [C ? ? ? ? ? ? ?]. unfold core in C. injection C. intros. by split. Qed.

(** A manager whose status is set, and the reports of one instance. *)
Lemma notify_ok size_ok rc version src st n n' :
  handle_notify size_ok rc version src st n = Ok n' -> nd_status n <= REMASTER_FAIL ->
  (keeps src n n' /\ early n n') /\
  (rg_status (nd_rem n') !! src = rg_status (nd_rem n) !! src \/ (version = nd_version n /\ rg_status (nd_rem n') !! src = Some st)).
Proof.
  unfold handle_notify. intros ([m g] & E & [= <-])%bind_inv Hn. unfold drc_process_remaster_status_notify in E.
  assert (m = nd_part n -> g = nd_rem n -> (keeps src n (nd_set_rem g (nd_map_part (fun _ => m) n)) /\ early n (nd_set_rem g (nd_map_part (fun _ => m) n))) /\
    (rg_status g !! src = rg_status (nd_rem n) !! src \/ (version = nd_version n /\ rg_status g !! src = Some st))) as Hsame.
  { intros -> ->. split; [split; [by apply keeps_eq|by left]|by left]. }
  destruct size_ok; cbn [negb] in E; [|injection E as <- <-; by apply Hsame].
  destruct (_ || _) eqn:Ev; [injection E as <- <-; by apply Hsame|].
  destruct (OG_MAX_INSTANCES <=? src); [injection E as <- <-; by apply Hsame|].
  apply bind_inv in E as (s & Hs & E). apply bind_inv in E as (g1 & Eg & [= <- <-]).
  assert (version = nd_version n) as Hv.
  { apply orb_false_iff in Ev as [_ Ev]. rewrite negb_false_iff, Z.eqb_eq in Ev. exact Ev. }
  assert (rg_trigger_version g1 = nd_version n /\ (forall y, y <> src -> rg_status g1 !! y = rg_status (nd_rem n) !! y) /\
    (rg_status g1 !! src = rg_status (nd_rem n) !! src \/ rg_status g1 !! src = Some st)) as (Gv & Gy & Gs).
  { destruct (negb (s =? st)); [|injection Eg as <-; auto]. apply bind_inv in Eg as (t & Et & [= <-]). unfold wr in Et.
    apply bind_inv in Et as (? & _ & [= <-]). cbn. split; [done|]. split; [intros y Hy; by rewrite lookup_insert_ne|].
    right. by rewrite lookup_insert_eq. }
  cbn. split; [|destruct Gs; auto]. destruct (st =? REMASTER_FAIL).
  - pose proof (nd_to_keeps src REMASTER_FAIL n ltac:(by left) eq_refl) as [K1 K2 K3 K4 K5 K6 K7 K8]. split; [split; try done; by left|].
    intros _. right. unfold nd_status. cbn. unfold drc_update_remaster_local_status.
    by destruct (Z.eqb_spec (pm_remaster_status (nd_part n)) REMASTER_FAIL).
  - split; [split; try done; by left|by left].
Qed.

Lemma ack_ok size_ok rc version src count ts n n' :
  handle_ack size_ok rc version src count ts n = Ok n' ->
  (keeps src n n' /\ early n n') /\
  (rg_status (nd_rem n') !! src = rg_status (nd_rem n) !! src \/ (version = nd_version n /\ ts = OG_SUCCESS)).
Proof.
  unfold handle_ack. intros (g & E & [= <-])%bind_inv. unfold drc_process_remaster_task_ack in E.
  destruct size_ok; cbn [negb] in E; [|injection E as <-; split; [split; [by apply keeps_eq|by left]|by left]].
  destruct (_ || _) eqn:Ev; [injection E as <-; split; [split; [by apply keeps_eq|by left]|by left]|].
  assert (version = nd_version n) as Hv.
  { apply orb_false_iff in Ev as [_ Ev]. rewrite negb_false_iff, Z.eqb_eq in Ev. exact Ev. }
  apply bind_inv in E as (s & Hs & E). destruct (_ && _) eqn:Et; [|injection E as <-; split; [split; [by apply keeps_eq|by left]|by left]].
  apply andb_true_iff in Et as [Et%bool_decide_eq_true _]. apply update_inst_status_ok in E as (Gv & Gy & _).
  split; [split; [by apply keeps_rem|by left]|by right].
Qed.

Lemma task_ok size_ok rc version all msg n b n' : handle_task size_ok rc version all msg n = Ok (b, n') -> same_parts n n'.
Proof.
  unfold handle_task. intros ([[b1 m] g] & E & [= -> <-])%bind_inv. unfold drc_accept_remaster_task in E.
  destruct (negb size_ok); [injection E as <- <- <-; by split|]. case_bool_decide; [injection E as <- <- <-; by split|].
  destruct (negb _) eqn:Es; [injection E as <- <- <-; by split|]. rewrite negb_false_iff, Z.eqb_eq in Es.
  apply bind_inv in E as (s & _ & [= <- <- <-]). unfold drc_update_remaster_local_status. cbn [pm_remaster_status rg_set_local] in Es.
  rewrite Es. split; try done. unfold nd_status. by rewrite Es.
Qed.

(** The target is taken, and acknowledged, only in its own reform. *)
Lemma target_part_ok r self size_ok len_ok rc ms version map tbl sent n out n' :
  drc_accept_target_part r self size_ok len_ok rc ms version map tbl sent n = Ok (out, n') ->
  nd_status n <= REMASTER_FAIL ->
  (forall k, k ∈ out -> exists st, k = PartAckMsg self st version) /\
  ((same_parts n n' /\ PartAckMsg self OG_SUCCESS version ∉ out) \/
   (version = nd_version n /\ ms = OG_SUCCESS /\ nd_status n' = nd_status n /\ part_map (nd_part n') = map /\ inst_part_tbl (nd_part n') = tbl /\
    pm_remaster_inst (nd_part n') = pm_remaster_inst (nd_part n) /\ nd_version n' = nd_version n /\ nd_is_master n' = nd_is_master n)).
Proof.
  unfold drc_accept_target_part. intros E Hn.
  assert (forall st, (forall k, k ∈ (if bool_decide (sent = OG_SUCCESS) then [PartAckMsg self st version] else []) -> exists st, k = PartAckMsg self st version)) as Ho.
  { intros st k. destruct (bool_decide (sent = OG_SUCCESS)); [intros ->%list_elem_of_singleton; eauto|by intros ?%not_elem_of_nil]. }
  destruct (_ =? REMASTER_FAIL); [injection E as <- <-; split; [by intros ? ?%not_elem_of_nil|left; split; [by split|apply not_elem_of_nil]]|].
  destruct (negb size_ok); [injection E as <- <-; split; [by intros ? ?%not_elem_of_nil|left; split; [by split|apply not_elem_of_nil]]|].
  destruct (bool_decide (ms = OG_ERROR)) eqn:Hm.
  { injection E as <- <-. split; [by intros ? ?%not_elem_of_nil|]. left. split; [|apply not_elem_of_nil]. apply (keeps_same self), nd_to_keeps; [by left|done]. }
  destruct (bool_decide (drc_accept_target_part_parameter_check _ _ _ _ = _)) eqn:Hc.
  { injection E as <- <-. split; [apply Ho|]. left. split; [by split|].
    destruct (bool_decide (sent = OG_SUCCESS)); [by intros ?%list_elem_of_singleton|apply not_elem_of_nil]. }
  apply bool_decide_eq_false in Hm, Hc. apply bind_inv in E as (d & _ & [= <- <-]). split; [apply Ho|]. right. unfold drc_accept_target_part_parameter_check in Hc.
  destruct (_ || _) eqn:Ev; [done|]. apply orb_false_iff in Ev as [_ Ev]. rewrite negb_false_iff, Z.eqb_eq in Ev.
  split; [done|]. split; [by destruct ms|]. done.
Qed.

(** The end is accepted only in its own reform, by an instance that waits for
    it. *)
Lemma remaster_done_ok self size_ok rc version sent n out n' :
  drc_accept_remaster_done self size_ok rc version sent n = (out, n') ->
  (forall k, k ∈ out -> exists st, k = DoneAckMsg self st version) /\
  (n' = n \/
   (version = nd_version n /\ nd_status n = REMASTER_PUBLISH /\ nd_status n' = REMASTER_DONE /\
    part_map (nd_part n') = part_map (nd_part n) /\ inst_part_tbl (nd_part n') = inst_part_tbl (nd_part n) /\
    pm_remaster_inst (nd_part n') = pm_remaster_inst (nd_part n) /\ nd_version n' = nd_version n /\ nd_is_master n' = nd_is_master n)).
Proof.
  unfold drc_accept_remaster_done. intros E.
  assert ((out, n') = ([], n) -> (forall k, k ∈ out -> exists st, k = DoneAckMsg self st version) /\ n' = n) as Hnone.
  { intros [= -> ->]. split; [by intros ? ?%not_elem_of_nil|done]. }
  destruct (negb size_ok); [destruct (Hnone (eq_sym E)); auto|].
  destruct ((nd_status n =? REMASTER_DONE) || _ || _ || negb (version =? nd_version n)) eqn:Ev; [destruct (Hnone (eq_sym E)); auto|].
  destruct (nd_status n =? REMASTER_FAIL); [destruct (Hnone (eq_sym E)); auto|].
  destruct (Z.eqb_spec (nd_status n) REMASTER_PUBLISH) as [Es|]; cbn [negb] in E; [|destruct (Hnone (eq_sym E)); auto].
  apply orb_false_iff in Ev as [_ Ev]. rewrite negb_false_iff, Z.eqb_eq in Ev. injection E as <- <-. split.
  - intros k. destruct (bool_decide (sent = OG_SUCCESS)); [intros ->%list_elem_of_singleton; eauto|by intros ?%not_elem_of_nil].
  - right. split; [done|]. split; [done|]. split; [by rewrite nd_to_status, Es|].
    unfold nd_status in Es. unfold nd_to, nd_map_part, drc_update_remaster_local_status. cbn. by rewrite Es.
Qed.
