(* ===== verification/DrcRemasterNet.v ===== *)
(** A reform of the cluster: the remaster threads of the instances, the
    messages between them and their handlers, as a transition system, and
    what holds of every state it can reach.

    A message that was sent may arrive at any time, more than once or never,
    so the messages of earlier reforms are there too; a thread may be stopped
    by a failure at any point and an instance may crash, for good.  The
    reformer publishes in three transitions, at whose ends the broadcasts of
    [drc_remaster_step_publish] return. *)

From S2P Require Import Prelude DrcBitmap DrcGlobalRes DrcReform DrcPart DrcRemaster DrcRemasterFsm DrcRemasterThm DrcRemasterInv.

(** Where the reformer is in [drc_remaster_step_publish]. *)
Inductive pub_pc := PubIdle | PubPart | PubDone.

(** The instances, the messages sent, the instances that crashed and the
    place of the reformer. *)
Record net := mk_net { nodes : Z -> node; pool : list rmsg; down : gset Z; pub : pub_pc }.

Definition set_node (x : Z) (n : node) (f : Z -> node) : Z -> node := fun y => if decide (y = x) then n else f y.

Lemma set_node_same x n f : set_node x n f x = n.
Proof. unfold set_node. by rewrite decide_True. Qed.
Lemma set_node_other x y n f : y <> x -> set_node x n f y = f y.
Proof. intros H. unfold set_node. by rewrite decide_False. Qed.

Definition msg_version (k : rmsg) : Z :=
  match k with
  | NotifyMsg _ _ v | TaskMsg v _ _ | TaskAckMsg _ _ v | TargetPartMsg _ v _ _ | RemasterDoneMsg _ v | PartAckMsg _ _ v | DoneAckMsg _ _ v => v
  end.

Section Net.
Context (mode : bool) (r : reform_info) (version : Z).

(** The reformer, and the instances of the reform. *)
Definition master : Z := ri_master r.
Definition members : list Z := ri_after r ++ ri_leave r.

(** [x] may take a step. *)
Definition live (s : net) (x : Z) : Prop := x ∈ members /\ x ∉ down s.

(** Every other instance has answered a broadcast, or is found dead.  The
    code waits until it has counted as many answers as it sent messages
    ([mes_process_broadcast_ack]); that no instance answers one broadcast
    twice is what the message layer owes to the remaster. *)
Definition answered (ack : Z -> rmsg) (s : net) : Prop := forall x, x ∈ members -> x <> master -> ack x ∈ pool s \/ x ∈ down s.

(** Instance [x] goes to [n] and sends [ms]. *)
Definition goes (s : net) (x : Z) (n : node) (ms : list rmsg) : net := mk_net (set_node x n (nodes s)) (pool s ++ ms) (down s) (pub s).
Definition at_pub (p : pub_pc) (s : net) : net := mk_net (nodes s) (pool s) (down s) p.

Inductive net_step (s : net) : net -> Prop :=
| NetRound x c first_fail ret ret' ms n' :
    live s x -> c_mode c = mode ->
    (x = master -> nd_status (nodes s x) <> REMASTER_PUBLISH /\ pub s = PubIdle) ->
    (x = master -> nd_status (nodes s x) = REMASTER_ASSIGN_TASK -> c_waited c = OG_SUCCESS ->
       ready members REMASTER_ASSIGN_TASK (rg_status (nd_rem (nodes s x)))) ->
    proc_round r x c first_fail ret (nodes s x) = Ok (ret', ms, n') -> net_step s (goes s x n' ms)
| NetPublish ms n' :
    live s master -> pub s = PubIdle -> nd_status (nodes s master) = REMASTER_PUBLISH ->
    ready members REMASTER_PUBLISH (rg_status (nd_rem (nodes s master))) ->
    publish_begin (nodes s master) = (ms, n') -> net_step s (at_pub PubPart (goes s master n' ms))
| NetParts ms n' :
    live s master -> pub s = PubPart -> answered (fun x => PartAckMsg x OG_SUCCESS version) s ->
    publish_parts (nodes s master) = (ms, n') -> net_step s (at_pub PubDone (goes s master n' ms))
| NetEnd n' :
    live s master -> pub s = PubDone -> answered (fun x => DoneAckMsg x OG_SUCCESS version) s ->
    publish_end r (nodes s master) = Ok n' -> net_step s (at_pub PubIdle (goes s master n' []))
| NetPubFail :
    live s master -> nd_status (nodes s master) = REMASTER_PUBLISH \/ pub s <> PubIdle ->
    net_step s (at_pub PubIdle (goes s master (nd_to REMASTER_FAIL (nodes s master)) []))
| NetNotify size_ok rc src st v n' :
    live s master -> NotifyMsg src st v ∈ pool s -> handle_notify size_ok rc v src st (nodes s master) = Ok n' ->
    net_step s (goes s master n' [])
| NetTask x size_ok rc v all msg b n' :
    live s x -> x <> master -> handle_task size_ok rc v all msg (nodes s x) = Ok (b, n') -> net_step s (goes s x n' [])
| NetAck size_ok rc src st v count n' :
    live s master -> TaskAckMsg src st v ∈ pool s -> handle_ack size_ok rc v src count st (nodes s master) = Ok n' ->
    net_step s (goes s master n' [])
| NetTarget x size_ok len_ok rc st v map tbl sent ms n' :
    live s x -> x <> master -> TargetPartMsg st v map tbl ∈ pool s ->
    drc_accept_target_part r x size_ok len_ok rc st v map tbl sent (nodes s x) = Ok (ms, n') -> net_step s (goes s x n' ms)
| NetDone x size_ok rc st v sent ms n' :
    live s x -> x <> master -> RemasterDoneMsg st v ∈ pool s ->
    drc_accept_remaster_done x size_ok rc v sent (nodes s x) = (ms, n') -> net_step s (goes s x n' ms)
| NetCancel x : live s x -> net_step s (goes s x (nd_to REMASTER_FAIL (nodes s x)) [])
| NetCrash x : x ∈ members -> net_step s (mk_net (nodes s) (pool s) ({[x]} ∪ down s) (pub s)).

(** The instances have started the remaster of this reform; no message of it
    has been sent. *)
Record net_init (s : net) : Prop := {
  ni_status : forall x, x ∈ members -> nd_status (nodes s x) = REMASTER_PREPARE;
  ni_version : forall x, x ∈ members -> nd_version (nodes s x) = version;
  ni_master : forall x, x ∈ members -> nd_is_master (nodes s x) = bool_decide (x = master);
  ni_inst : forall x, x ∈ members -> pm_remaster_inst (nd_part (nodes s x)) = master;
  ni_reports : forall x, rg_status (nd_rem (nodes s master)) !! x <> Some REMASTER_PUBLISH;
  ni_member : master ∈ members;
  ni_pool : forall k, k ∈ pool s -> msg_version k <> version;
  ni_pub : pub s = PubIdle;
}.

Context (m0 : drc_part_mngr) (good : gmap Z drc_part -> gmap Z drc_inst_part -> Prop).

(** The manager of the reformer before it assigns. *)
Definition starts (m : drc_part_mngr) : Prop :=
  pm_inst_num m = pm_inst_num m0 /\ pm_mgrt_fail_list m = pm_mgrt_fail_list m0 /\ part_map m = part_map m0 /\
  inst_part_tbl m = inst_part_tbl m0 /\ remaster_task_set m = remaster_task_set m0.

Hypothesis rebalance_good : forall m m', starts m -> execute_rebalance mode (ri_lists r) m = Ok (OG_SUCCESS, m') ->
  good (target_part_map m') (target_inst_part_tbl m').

(** The target of the reformer is on its way. *)
Definition published (s : net) : Prop := exists st map tbl, TargetPartMsg st version map tbl ∈ pool s.
Definition ended (s : net) : Prop := exists st, RemasterDoneMsg st version ∈ pool s.
Definition has_target (s : net) (m : drc_part_mngr) : Prop :=
  part_map m = target_part_map (nd_part (nodes s master)) /\ inst_part_tbl m = target_inst_part_tbl (nd_part (nodes s master)).

Record inv (s : net) : Prop := {
  i_version : forall x, x ∈ members -> nd_version (nodes s x) = version;
  i_master : forall x, x ∈ members -> nd_is_master (nodes s x) = bool_decide (x = master);
  i_hi : forall x, x ∈ members -> nd_status (nodes s x) <= REMASTER_FAIL;
  i_member : master ∈ members;
  i_notify : forall src st, NotifyMsg src st version ∈ pool s -> st <> REMASTER_PUBLISH;
  i_reports : forall x, x <> master -> rg_status (nd_rem (nodes s master)) !! x = Some REMASTER_PUBLISH ->
    TaskAckMsg x OG_SUCCESS version ∈ pool s;
  i_start : nd_status (nodes s master) < REMASTER_MIGRATE -> starts (nd_part (nodes s master));
  i_good : REMASTER_MIGRATE <= nd_status (nodes s master) < REMASTER_FAIL \/ published s ->
    good (target_part_map (nd_part (nodes s master))) (target_inst_part_tbl (nd_part (nodes s master)));
  i_target : forall st map tbl, TargetPartMsg st version map tbl ∈ pool s ->
    map = target_part_map (nd_part (nodes s master)) /\ tbl = target_inst_part_tbl (nd_part (nodes s master));
  i_late : published s -> REMASTER_PUBLISH <= nd_status (nodes s master);
  i_acked : published s -> forall x, x ∈ members -> x <> master -> TaskAckMsg x OG_SUCCESS version ∈ pool s;
  i_part : forall x, PartAckMsg x OG_SUCCESS version ∈ pool s -> x <> master /\ has_target s (nd_part (nodes s x)) /\ published s;
  i_ended : ended s -> published s /\ has_target s (nd_part (nodes s master)) /\
    forall x, x ∈ members -> x <> master -> PartAckMsg x OG_SUCCESS version ∈ pool s \/ x ∈ down s;
  i_done : forall x, x ∈ members -> nd_status (nodes s x) = REMASTER_DONE ->
    ended s /\ (x <> master -> PartAckMsg x OG_SUCCESS version ∈ pool s);
  i_pub : match pub s with PubIdle => True | PubPart => published s | PubDone => ended s end;
}.

(** ** Messages *)

(** Messages other than those of the publication. *)
Definition unpub (k : rmsg) : Prop := match k with TargetPartMsg _ _ _ _ | RemasterDoneMsg _ _ => False | _ => True end.

Lemma plain_unpub x v k : plain x v k -> unpub k.
Proof. by destruct k. Qed.

Lemma goes_published s x n ms : Forall unpub ms -> published (goes s x n ms) <-> published s.
Proof.
  rewrite Forall_forall. intros Hms. unfold published. cbn. split; intros (st & map & tbl & H); exists st, map, tbl; [|apply elem_of_app; by left].
  apply elem_of_app in H as [H|H]; [done|]. by apply Hms in H.
Qed.

Lemma goes_ended s x n ms : Forall unpub ms -> ended (goes s x n ms) <-> ended s.
Proof.
  rewrite Forall_forall. intros Hms. unfold ended. cbn. split; intros (st & H); exists st; [|apply elem_of_app; by left].
  apply elem_of_app in H as [H|H]; [done|]. by apply Hms in H.
Qed.

(** ** Steps of the other instances *)

Lemma follower_step s x n' ms :
  inv s -> live s x -> x <> master ->
  nd_version n' = nd_version (nodes s x) -> nd_is_master n' = nd_is_master (nodes s x) -> nd_status n' <= REMASTER_FAIL ->
  Forall unpub ms ->
  (forall src st, NotifyMsg src st version ∈ ms -> st <> REMASTER_PUBLISH) ->
  (forall y, PartAckMsg y OG_SUCCESS version ∈ ms -> y = x /\ has_target s (nd_part n') /\ published s) ->
  (has_target s (nd_part (nodes s x)) -> published s -> has_target s (nd_part n')) ->
  (nd_status n' = REMASTER_DONE -> nd_status (nodes s x) = REMASTER_DONE \/ ended s) ->
  inv (goes s x n' ms).
Proof.
  intros I [Hx Hup] Hxm Hv Hm Hhi Hun Hnot Hpart Hmap Hdone.
  assert (nodes (goes s x n' ms) master = nodes s master) as EM by (cbn; by apply set_node_other).
  assert (forall k, k ∈ pool s -> k ∈ pool (goes s x n' ms)) as Hin by (intros k Hk; cbn; apply elem_of_app; by left).
  assert (forall m, has_target (goes s x n' ms) m <-> has_target s m) as HT by (intros m; unfold has_target; by rewrite EM).
  split; rewrite ?EM.
  - intros y Hy. cbn. unfold set_node. case_decide; [subst; rewrite Hv|]; by apply I.
  - intros y Hy. cbn. unfold set_node. case_decide; [subst; rewrite Hm|]; by apply I.
  - intros y Hy. cbn. unfold set_node. case_decide; [done|]; by apply I.
  - apply I.
  - intros src st [H|H]%elem_of_app; [by eapply I|by eapply Hnot].
  - intros y Hy H. by apply Hin, I.
  - apply I.
  - rewrite goes_published by done. apply I.
  - intros st map tbl [H|H]%elem_of_app; [by eapply I|]. rewrite Forall_forall in Hun. by apply Hun in H.
  - rewrite goes_published by done. apply I.
  - rewrite goes_published by done. intros H y Hy Hym. apply Hin. by apply (i_acked s I).
  - intros y H. rewrite HT, goes_published by done. cbn. apply elem_of_app in H as [H|H].
    + destruct (i_part s I y H) as (Hy & Ht & Hp). split; [done|]. split; [|done]. unfold set_node. case_decide; [subst; auto|done].
    + destruct (Hpart y H) as (-> & Ht & Hp). split; [done|]. split; [|done]. by rewrite set_node_same.
  - rewrite goes_ended by done. intros H. destruct (i_ended s I H) as (Hp & Ht & Ha). rewrite HT, goes_published by done. split; [done|]. split; [done|].
    intros y Hy Hym. destruct (Ha y Hy Hym); auto.
  - intros y Hy. cbn. unfold set_node. case_decide as Hd; rewrite goes_ended by done.
    + subst y. intros Hs. destruct (Hdone Hs) as [Ho|He]; [destruct (i_done s I x Hx Ho); auto|]. split; [done|]. intros _.
      destruct (i_ended s I He) as (_ & _ & Ha). destruct (Ha x Hx Hxm); [auto|done].
    + intros Hs. destruct (i_done s I y Hy Hs); auto.
  - pose proof (i_pub s I) as Hp. cbn. destruct (pub s); [done|by apply goes_published|by apply goes_ended].
Qed.

(** ** Steps of the reformer *)

(** What of an instance other than the reformer the invariant mentions is as
    before. *)
Lemma at_pub_idle s : inv s -> inv (at_pub PubIdle s).
Proof. intros I. by destruct I; split. Qed.

Lemma core_fields n n' : core (nd_part n') = core (nd_part n) ->
  part_map (nd_part n') = part_map (nd_part n) /\ inst_part_tbl (nd_part n') = inst_part_tbl (nd_part n) /\
  target_part_map (nd_part n') = target_part_map (nd_part n) /\ target_inst_part_tbl (nd_part n') = target_inst_part_tbl (nd_part n) /\
  (starts (nd_part n) -> starts (nd_part n')).
Proof. unfold core, starts. intros [= -> _ -> -> -> -> -> _ _ ->]. done. Qed.

Lemma master_step s y n' ms :
  inv s -> live s master -> keeps y (nodes s master) n' -> early (nodes s master) n' -> Forall (plain master version) ms ->
  (y <> master -> rg_status (nd_rem n') !! y = Some REMASTER_PUBLISH ->
     rg_status (nd_rem (nodes s master)) !! y = Some REMASTER_PUBLISH \/ TaskAckMsg y OG_SUCCESS version ∈ pool s) ->
  inv (goes s master n' ms).
Proof.
  intros I [Hm Hup] K Ea Hms Hy. assert (Forall unpub ms) as Hun by (eapply Forall_impl; [exact Hms|intros k; apply plain_unpub]).
  destruct (core_fields _ _ (k_core _ _ _ K)) as (C1 & C2 & C3 & C4 & C5).
  assert (nodes (goes s master n' ms) master = n') as EM by (cbn; apply set_node_same).
  assert (forall k, k ∈ pool s -> k ∈ pool (goes s master n' ms)) as Hin by (intros k Hk; cbn; apply elem_of_app; by left).
  assert (forall m, has_target (goes s master n' ms) m <-> has_target s m) as HT by (intros m; unfold has_target; by rewrite EM, C3, C4).
  rewrite Forall_forall in Hms. split; rewrite ?EM, ?C3, ?C4.
  - intros x Hx. cbn. unfold set_node. case_decide; [subst; rewrite (k_version _ _ _ K)|]; by apply I.
  - intros x Hx. cbn. unfold set_node. case_decide; [subst; rewrite (k_master _ _ _ K)|]; by apply I.
  - intros x Hx. cbn. unfold set_node. case_decide; [apply (k_hi _ _ _ K)|]; by apply I.
  - apply I.
  - intros src st [H|H]%elem_of_app; [by eapply I|]. apply Hms in H as (_ & _ & [->| ->]); done.
  - intros x Hx H. apply Hin. destruct (decide (x = y)) as [->|Hne].
    + destruct (Hy Hx H) as [Ho|Ho]; [by apply I|done].
    + rewrite (k_reports _ _ _ K) in H by done. by apply I.
  - intros Hlt. apply C5, I. pose proof (k_le _ _ _ K). lia.
  - rewrite goes_published by done. intros [Hr|Hp]; [|apply I; by right]. apply I. left. split; [|].
    + destruct (Z.lt_ge_cases (nd_status (nodes s master)) REMASTER_MIGRATE) as [Hlt|]; [|lia]. destruct (Ea Hlt); lia.
    + pose proof (k_le _ _ _ K). lia.
  - intros st map tbl [H|H]%elem_of_app; [by eapply I|]. by apply Hms in H.
  - rewrite goes_published by done. intros Hp. pose proof (i_late s I Hp). pose proof (k_le _ _ _ K). lia.
  - rewrite goes_published by done. intros H x Hx Hxm. apply Hin. by apply (i_acked s I).
  - intros x [H|H]%elem_of_app; [|by apply Hms in H]. rewrite HT, goes_published by done. destruct (i_part s I x H) as (Hx & Ht & Hp).
    split; [done|]. split; [|done]. cbn. by rewrite set_node_other.
  - rewrite goes_ended by done. intros H. destruct (i_ended s I H) as (Hp & [Ht1 Ht2] & Ha). rewrite HT, goes_published by done. split; [done|].
    split; [split; by rewrite ?C1, ?C2|]. intros x Hx Hxm. destruct (Ha x Hx Hxm); auto.
  - intros x Hx. cbn. unfold set_node. rewrite goes_ended by done. case_decide as Hd; intros Hs.
    + subst x. apply (k_done _ _ _ K) in Hs. destruct (i_done s I master Hx Hs); auto.
    + destruct (i_done s I x Hx Hs); auto.
  - pose proof (i_pub s I) as Hp. cbn. destruct (pub s); [done|by apply goes_published|by apply goes_ended].
Qed.

(** The reformer assigns the tasks. *)
Lemma assign_step s n' ms :
  inv s -> live s master -> pub s = PubIdle -> nd_status (nodes s master) = REMASTER_ASSIGN_TASK ->
  assigned mode r (nodes s master) n' -> Forall (plain master version) ms -> inv (goes s master n' ms).
Proof.
  intros I [Hm Hup] Hpub Hst A Hms. assert (Forall unpub ms) as Hun by (eapply Forall_impl; [exact Hms|intros k; apply plain_unpub]).
  assert (~ published s) as Hnp. { intros Hp%(i_late s I). rewrite Hst in Hp. by apply Hp. }
  assert (~ ended s) as Hne. { intros He. destruct (i_ended s I He) as [? _]. done. }
  assert (nodes (goes s master n' ms) master = n') as EM by (cbn; apply set_node_same).
  assert (forall k, k ∈ pool s -> k ∈ pool (goes s master n' ms)) as Hin by (intros k Hk; cbn; apply elem_of_app; by left).
  destruct (as_rebalance _ _ _ _ A) as (m' & Er & T1 & T2). pose proof (as_status _ _ _ _ A) as As.
  rewrite Forall_forall in Hms. split; rewrite ?EM.
  - intros x Hx. cbn. unfold set_node. case_decide; [subst; rewrite (as_version _ _ _ _ A)|]; by apply I.
  - intros x Hx. cbn. unfold set_node. case_decide; [subst; rewrite (as_master _ _ _ _ A)|]; by apply I.
  - intros x Hx. cbn. unfold set_node. case_decide; [by destruct As as [->| ->]|]; by apply I.
  - apply I.
  - intros src st [H|H]%elem_of_app; [by eapply I|]. apply Hms in H as (_ & _ & [->| ->]); done.
  - intros x Hx H. rewrite (as_reports _ _ _ _ A) in H. by apply Hin, I.
  - intros Hlt. by destruct As as [E|E]; rewrite E in Hlt.
  - rewrite goes_published by done. intros _. rewrite T1, T2. eapply rebalance_good; [|exact Er]. apply I. by rewrite Hst.
  - intros st map tbl [H|H]%elem_of_app; [exfalso; apply Hnp; by exists st, map, tbl|by apply Hms in H].
  - rewrite goes_published by done. done.
  - rewrite goes_published by done. done.
  - intros x [H|H]%elem_of_app; [|by apply Hms in H]. by destruct (i_part s I x H) as (_ & _ & ?).
  - rewrite goes_ended by done. done.
  - intros x Hx Hs. exfalso. destruct (decide (x = master)) as [->|Hxm]; [rewrite EM in Hs; by destruct As as [E|E]; rewrite E in Hs|].
    cbn in Hs. rewrite set_node_other in Hs by done. by destruct (i_done s I x Hx Hs).
  - cbn. by rewrite Hpub.
Qed.

(** The target is broadcast, once everybody has told that it is ready. *)
Lemma publish_step s ms n' :
  inv s -> live s master -> nd_status (nodes s master) = REMASTER_PUBLISH ->
  ready members REMASTER_PUBLISH (rg_status (nd_rem (nodes s master))) ->
  publish_begin (nodes s master) = (ms, n') -> inv (at_pub PubPart (goes s master n' ms)).
Proof.
  intros I [Hm Hup] Hst Hr [= <- <-]. rewrite (i_version s I master Hm). set (t := TargetPartMsg _ _ _ _). set (n' := nd_set_finish _ _).
  assert (nodes (at_pub PubPart (goes s master n' [t])) master = n') as EM by (cbn; apply set_node_same).
  assert (forall k, k ∈ pool s -> k ∈ pool (at_pub PubPart (goes s master n' [t]))) as Hin by (intros k Hk; cbn; apply elem_of_app; by left).
  assert (forall k, k ∈ pool (at_pub PubPart (goes s master n' [t])) -> k ∈ pool s \/ k = t) as Hout.
  { intros k [H|H]%elem_of_app; [by left|right; by apply list_elem_of_singleton in H]. }
  assert (published (at_pub PubPart (goes s master n' [t]))) as Hp.
  { do 3 eexists. cbn. apply elem_of_app. right. by apply list_elem_of_singleton. }
  assert (forall m, has_target (at_pub PubPart (goes s master n' [t])) m <-> has_target s m) as HT by (intros m; unfold has_target; by rewrite EM).
  assert (forall x, x <> master -> nodes (at_pub PubPart (goes s master n' [t])) x = nodes s x) as EX by (intros x Hx; cbn; by apply set_node_other).
  split; rewrite ?EM.
  - intros x Hx. destruct (decide (x = master)) as [->|]; [rewrite EM|rewrite EX by done]; by apply (i_version s I).
  - intros x Hx. destruct (decide (x = master)) as [->|]; [rewrite EM|rewrite EX by done]; by apply (i_master s I).
  - intros x Hx. destruct (decide (x = master)) as [->|]; [rewrite EM|rewrite EX by done]; by apply (i_hi s I).
  - apply I.
  - intros src st [H|H]%Hout; [by eapply I|done].
  - intros x Hx H. by apply Hin, I.
  - intros Hlt. change (nd_status n') with (nd_status (nodes s master)) in Hlt. by rewrite Hst in Hlt.
  - intros _. apply (i_good s I). left. by rewrite Hst.
  - intros st map tbl [H|H]%Hout; [by eapply (i_target s I)|]. unfold t in H. by injection H as -> -> ->.
  - intros _. change (nd_status n') with (nd_status (nodes s master)). by rewrite Hst.
  - intros _ x Hx Hxm. apply Hin, (i_reports s I); [done|]. unfold ready in Hr. rewrite Forall_forall in Hr. by apply Hr.
  - intros x [H|H]%Hout; [|done]. destruct (i_part s I x H) as (Hx & Ht & _). rewrite HT, EX by done. done.
  - intros [st [H|H]%Hout]; [|done]. destruct (i_ended s I ltac:(by exists st)) as (_ & Ht & Ha). split; [done|]. rewrite HT. split; [done|].
    intros x Hx Hxm. destruct (Ha x Hx Hxm); auto.
  - intros x Hx. destruct (decide (x = master)) as [->|Hxm].
    + rewrite EM. change (nd_status n') with (nd_status (nodes s master)). by rewrite Hst.
    + rewrite EX by done. intros Hs. destruct (i_done s I x Hx Hs) as [[st He] Hd]. split; [exists st; auto|auto].
  - done.
Qed.

(** The reformer takes the target itself and broadcasts the end. *)
Lemma parts_step s ms n' :
  inv s -> live s master -> pub s = PubPart -> answered (fun x => PartAckMsg x OG_SUCCESS version) s ->
  publish_parts (nodes s master) = (ms, n') -> inv (at_pub PubDone (goes s master n' ms)).
Proof.
  intros I [Hm Hup] Hpc Ha [= <- <-]. pose proof (i_pub s I) as Hp. rewrite Hpc in Hp. set (n' := nd_map_part _ _).
  assert (nd_version n' = version) as Hv by (by apply (i_version s I)). rewrite Hv. set (t := RemasterDoneMsg _ _).
  assert (nodes (at_pub PubDone (goes s master n' [t])) master = n') as EM by (cbn; apply set_node_same).
  assert (forall k, k ∈ pool s -> k ∈ pool (at_pub PubDone (goes s master n' [t]))) as Hin by (intros k Hk; cbn; apply elem_of_app; by left).
  assert (forall k, k ∈ pool (at_pub PubDone (goes s master n' [t])) -> k ∈ pool s \/ k = t) as Hout.
  { intros k [H|H]%elem_of_app; [by left|right; by apply list_elem_of_singleton in H]. }
  assert (published (at_pub PubDone (goes s master n' [t]))) as Hp' by (destruct Hp as (st & map & tbl & Hk); exists st, map, tbl; auto).
  assert (ended (at_pub PubDone (goes s master n' [t]))) as He.
  { eexists. cbn. apply elem_of_app. right. by apply list_elem_of_singleton. }
  assert (forall m, has_target (at_pub PubDone (goes s master n' [t])) m <-> has_target s m) as HT by (intros m; unfold has_target; by rewrite EM).
  assert (forall x, x <> master -> nodes (at_pub PubDone (goes s master n' [t])) x = nodes s x) as EX by (intros x Hx; cbn; by apply set_node_other).
  split; rewrite ?EM.
  - intros x Hx. destruct (decide (x = master)) as [->|]; [by rewrite EM|rewrite EX by done; by apply (i_version s I)].
  - intros x Hx. destruct (decide (x = master)) as [->|]; [rewrite EM|rewrite EX by done]; by apply (i_master s I).
  - intros x Hx. destruct (decide (x = master)) as [->|]; [rewrite EM|rewrite EX by done]; by apply (i_hi s I).
  - apply I.
  - intros src st [H|H]%Hout; [by eapply I|done].
  - intros x Hx H. by apply Hin, I.
  - intros Hlt. change (nd_status n') with (nd_status (nodes s master)) in Hlt. pose proof (i_late s I Hp). by unfold REMASTER_MIGRATE, REMASTER_PUBLISH in *; lia.
  - intros _. apply (i_good s I). by right.
  - intros st map tbl [H|H]%Hout; [by eapply (i_target s I)|done].
  - intros _. by apply (i_late s I).
  - intros _ x Hx Hxm. apply Hin. by apply (i_acked s I).
  - intros x [H|H]%Hout; [|done]. destruct (i_part s I x H) as (Hx & Ht & _). rewrite HT, EX by done. done.
  - intros _. split; [done|]. split; [unfold has_target; rewrite EM; by split|]. intros x Hx Hxm. destruct (Ha x Hx Hxm); auto.
  - intros x Hx. destruct (decide (x = master)) as [->|Hxm]; [by rewrite EM|].
    rewrite EX by done. intros Hs. destruct (i_done s I x Hx Hs) as [_ Hd]. split; [done|auto].
  - done.
Qed.

(** The reformer is done. *)
Lemma end_step s n' :
  inv s -> live s master -> pub s = PubDone -> publish_end r (nodes s master) = Ok n' -> inv (at_pub PubIdle (goes s master n' [])).
Proof.
  intros I [Hm Hup] Hpc E. pose proof (i_pub s I) as He. rewrite Hpc in He. unfold publish_end in E. apply bind_inv in E as (d & _ & [= <-]).
  set (n' := nd_set_finish _ _). destruct (i_ended s I He) as (Hp & Ht & Ha). pose proof (i_late s I Hp) as Hl.
  assert (nd_status n' = REMASTER_DONE \/ nd_status n' = REMASTER_FAIL) as Hs'.
  { change (nd_status n') with (nd_status (nd_to REMASTER_DONE (nd_set_deposit d (nodes s master)))). rewrite nd_to_status. destruct (_ =? _); auto. }
  assert (part_map (nd_part n') = part_map (nd_part (nodes s master)) /\ inst_part_tbl (nd_part n') = inst_part_tbl (nd_part (nodes s master)) /\
    target_part_map (nd_part n') = target_part_map (nd_part (nodes s master)) /\
    target_inst_part_tbl (nd_part n') = target_inst_part_tbl (nd_part (nodes s master))) as (C1 & C2 & C3 & C4).
  { cbn. unfold drc_update_remaster_local_status. by destruct (_ =? _). }
  assert (nodes (at_pub PubIdle (goes s master n' [])) master = n') as EM by (cbn; apply set_node_same).
  assert (pool (at_pub PubIdle (goes s master n' [])) = pool s) as EP by (cbn; apply app_nil_r).
  assert (published (at_pub PubIdle (goes s master n' [])) <-> published s) as EPu by (unfold published; by rewrite EP).
  assert (ended (at_pub PubIdle (goes s master n' [])) <-> ended s) as EEn by (unfold ended; by rewrite EP).
  assert (forall m, has_target (at_pub PubIdle (goes s master n' [])) m <-> has_target s m) as HT by (intros m; unfold has_target; by rewrite EM, C3, C4).
  assert (forall x, x <> master -> nodes (at_pub PubIdle (goes s master n' [])) x = nodes s x) as EX by (intros x Hx; cbn; by apply set_node_other).
  assert (REMASTER_PUBLISH < nd_status n' <= REMASTER_FAIL) as Hb by (by destruct Hs' as [->| ->]).
  split; rewrite ?EM, ?EP, ?EPu, ?EEn, ?C3, ?C4.
  - intros x Hx. destruct (decide (x = master)) as [->|]; [rewrite EM|rewrite EX by done]; by apply (i_version s I).
  - intros x Hx. destruct (decide (x = master)) as [->|]; [rewrite EM|rewrite EX by done]; by apply (i_master s I).
  - intros x Hx. destruct (decide (x = master)) as [->|]; [rewrite EM; lia|rewrite EX by done; by apply (i_hi s I)].
  - apply I.
  - apply I.
  - intros x Hx H. by apply I.
  - unfold REMASTER_MIGRATE, REMASTER_PUBLISH in *. lia.
  - intros _. apply (i_good s I). by right.
  - apply I.
  - lia.
  - apply I.
  - intros x H. destruct (i_part s I x H) as (Hx & Hxt & _). rewrite HT, EX, EPu by done. done.
  - intros _. rewrite HT. split; [done|]. split; [unfold has_target in *; by rewrite C1, C2|]. intros x Hx Hxm. by apply Ha.
  - intros x Hx. rewrite EEn. destruct (decide (x = master)) as [->|Hxm]; [done|]. rewrite EX by done. apply (i_done s I x Hx).
  - done.
Qed.
(** ** Every step *)

Lemma same_parts_step s x n' ms :
  inv s -> live s x -> x <> master -> same_parts (nodes s x) n' -> Forall unpub ms ->
  (forall src st, NotifyMsg src st version ∈ ms -> st <> REMASTER_PUBLISH) ->
  (forall y, PartAckMsg y OG_SUCCESS version ∉ ms) -> inv (goes s x n' ms).
Proof.
  intros I L Hx S Hun Hn Hp. destruct L as [Hxm Hup]. apply follower_step; try done.
  - apply (sp_version _ _ S).
  - apply (sp_master _ _ S).
  - by apply (sp_hi _ _ S), I.
  - intros y Hy. by apply Hp in Hy.
  - intros [T1 T2] _. unfold has_target. by rewrite (sp_map _ _ S), (sp_tbl _ _ S).
  - intros Hs. left. by apply (sp_done _ _ S).
Qed.

Lemma plain_notify x ms : Forall (plain x version) ms -> forall src st, NotifyMsg src st version ∈ ms -> st <> REMASTER_PUBLISH.
Proof. rewrite Forall_forall. intros H src st (_ & _ & [->| ->])%H; done. Qed.

Lemma plain_part x ms : Forall (plain x version) ms -> forall y, PartAckMsg y OG_SUCCESS version ∉ ms.
Proof. rewrite Forall_forall. by intros H y ?%H. Qed.

Lemma round_step s x c ff ret ret' ms n' :
  inv s -> live s x -> c_mode c = mode -> (x = master -> nd_status (nodes s x) <> REMASTER_PUBLISH /\ pub s = PubIdle) ->
  proc_round r x c ff ret (nodes s x) = Ok (ret', ms, n') -> inv (goes s x n' ms).
Proof.
  intros I L Hc Hpc E. pose proof L as [Hx Hup]. apply round_ok in E as [P K].
  - rewrite (i_version s I x Hx) in P. destruct (decide (x = master)) as [->|Hxm].
    + destruct K as [[K Ea]|(Hs & _ & _ & A)]; [by eapply master_step|]. rewrite Hc in A. apply assign_step; try done. by apply Hpc.
    + assert (same_parts (nodes s x) n') as S.
      { destruct K as [[K _]|(_ & Hm & _)]; [by eapply keeps_same|]. rewrite (i_master s I x Hx), bool_decide_false in Hm by done. done. }
      apply same_parts_step; try done; [|by eapply plain_notify|by eapply plain_part].
      eapply Forall_impl; [exact P|intros k; apply plain_unpub].
  - by apply I.
  - intros Hs. rewrite (i_master s I x Hx). apply bool_decide_false. intros ->. by destruct (Hpc eq_refl).
Qed.

Lemma fail_step s x : inv s -> live s x -> inv (goes s x (nd_to REMASTER_FAIL (nodes s x)) []).
Proof.
  intros I L. pose proof L as [Hx _]. pose proof (i_hi s I x Hx) as Hh.
  assert (keeps x (nodes s x) (nd_to REMASTER_FAIL (nodes s x))) as K by (apply nd_to_keeps; [by left|done]).
  destruct (decide (x = master)) as [->|Hxm].
  - eapply master_step; try done. intros _. rewrite nd_to_status. destruct (_ =? _); by right.
  - apply same_parts_step; try done; [by eapply keeps_same| |]; by intros ? ?%not_elem_of_nil || by intros ? ? ?%not_elem_of_nil.
Qed.

Lemma target_step s x size_ok len_ok rc st v map tbl sent ms n' :
  inv s -> live s x -> x <> master -> TargetPartMsg st v map tbl ∈ pool s ->
  drc_accept_target_part r x size_ok len_ok rc st v map tbl sent (nodes s x) = Ok (ms, n') -> inv (goes s x n' ms).
Proof.
  intros I L Hxm Hin E. pose proof L as [Hx _]. apply target_part_ok in E as [Hout E]; [|by apply I].
  assert (Forall unpub ms) as Hun by (apply Forall_forall; by intros k (? & ->)%Hout).
  assert (forall src st, NotifyMsg src st version ∈ ms -> st <> REMASTER_PUBLISH) as Hn by (by intros ? ? (? & ?)%Hout).
  destruct E as [[S Hno]|(Hv & Hst & Es & Em & Et & Ei & Ev & Ema)].
  - apply same_parts_step; try done. intros y Hy. destruct (Hout _ Hy) as (st' & [= -> <- <-]). done.
  - rewrite (i_version s I x Hx) in Hv. subst v. destruct (i_target s I _ _ _ Hin) as [-> ->].
    assert (published s) as Hp by (by do 3 eexists). assert (has_target s (nd_part n')) as Ht by (by split).
    apply follower_step; try done.
    + rewrite Es. by apply I.
    + intros y Hy. by destruct (Hout _ Hy) as (st' & [= -> <-]).
    + rewrite Es. auto.
Qed.

Lemma done_step s x size_ok rc st v sent ms n' :
  inv s -> live s x -> x <> master -> RemasterDoneMsg st v ∈ pool s ->
  drc_accept_remaster_done x size_ok rc v sent (nodes s x) = (ms, n') -> inv (goes s x n' ms).
Proof.
  intros I L Hxm Hin E. pose proof L as [Hx _]. apply remaster_done_ok in E as [Hout E].
  assert (Forall unpub ms) as Hun by (apply Forall_forall; by intros k (? & ->)%Hout).
  assert (forall src st, NotifyMsg src st version ∈ ms -> st <> REMASTER_PUBLISH) as Hn by (by intros ? ? (? & ?)%Hout).
  assert (forall y, PartAckMsg y OG_SUCCESS version ∉ ms) as Hp by (by intros ? (? & ?)%Hout).
  destruct E as [->|(Hv & Hst & Es & Em & Et & Ei & Ev & Ema)].
  - by apply same_parts_step.
  - rewrite (i_version s I x Hx) in Hv. subst v. apply follower_step; try done.
    + by rewrite Es.
    + intros y Hy. by apply Hp in Hy.
    + intros [T1 T2] _. unfold has_target. by rewrite Em, Et.
    + intros _. right. by exists st.
Qed.

Lemma crash_step s x : inv s -> inv (mk_net (nodes s) (pool s) ({[x]} ∪ down s) (pub s)).
Proof.
  intros I. destruct I. split; try done. intros He. destruct (i_ended0 He) as (? & ? & Ha). split; [done|]. split; [done|].
  intros y Hy Hym. destruct (Ha y Hy Hym); [by left|right; cbn; set_solver].
Qed.

Lemma inv_step s s' : inv s -> net_step s s' -> inv s'.
Proof.
  intros I H. destruct H as [x c ff ret ret' ms n' L Hc Hpc _ E|ms n' L _ Hs Hr E|ms n' L Hp Ha E|n' L Hp _ E|L Hs|
    size_ok rc src st v n' L Hin E|x size_ok rc v all msg b n' L Hx E|size_ok rc src st v count n' L Hin E|
    x size_ok len_ok rc st v map tbl sent ms n' L Hx Hin E|x size_ok rc st v sent ms n' L Hx Hin E|x L|x Hx].
  - by eapply round_step.
  - by eapply publish_step.
  - by eapply parts_step.
  - by eapply end_step.
  - by apply at_pub_idle, fail_step.
  - pose proof L as [Hm _]. apply notify_ok in E as [[K Ea] Hr]; [|by apply I].
    eapply master_step; [done|done|exact K|exact Ea|done|]. intros Hsrc Hr'. destruct Hr as [<-|[Hv Hr]]; [by left|]. rewrite Hr in Hr'. injection Hr' as ->.
      rewrite (i_version s I master Hm) in Hv. subst v. exfalso. by eapply (i_notify s I).
  - apply task_ok in E. apply same_parts_step; try done; by intros ? ?%not_elem_of_nil || by intros ? ? ?%not_elem_of_nil.
  - pose proof L as [Hm _]. apply ack_ok in E as [[K Ea] Hr]. eapply master_step; [done|done|exact K|exact Ea|done|].
    intros Hsrc Hr'. destruct Hr as [<-|[Hv ->]]; [by left|]. right. rewrite (i_version s I master Hm) in Hv. by subst v.
  - by eapply target_step.
  - by eapply done_step.
  - by apply fail_step.
  - by apply crash_step.
Qed.
(** ** Every state *)

Lemma inv_init s : net_init s -> starts (nd_part (nodes s master)) -> inv s.
Proof.
  intros H Hm. assert (forall k, k ∈ pool s -> msg_version k = version -> False) as Hp by (intros k Hk; by apply H).
  assert (~ published s) as Hnp by (by intros (st & map & tbl & ?%Hp)). assert (~ ended s) as Hne by (by intros (st & ?%Hp)).
  pose proof (ni_status s H _ (ni_member s H)) as Hs. split.
  - apply H.
  - apply H.
  - intros x Hx. by rewrite (ni_status s H x Hx).
  - apply H.
  - by intros src st ?%Hp.
  - intros x _ Hr. by apply H in Hr.
  - done.
  - intros [[Hl _]|?]; [by rewrite Hs in Hl|done].
  - by intros st map tbl ?%Hp.
  - done.
  - done.
  - by intros x ?%Hp.
  - done.
  - intros x Hx Hd. by rewrite (ni_status s H x Hx) in Hd.
  - by rewrite (ni_pub s H).
Qed.

Lemma inv_reach s0 s : net_init s0 -> starts (nd_part (nodes s0 master)) -> rtc net_step s0 s -> inv s.
Proof. intros H Hm R. pattern s. eapply rtc_ind_r; [by apply inv_init| |exact R]. intros a b _ S I. by eapply inv_step. Qed.

(** An instance that is done has the target, and nobody is left behind. *)
Lemma done_target s x : inv s -> x ∈ members -> nd_status (nodes s x) = REMASTER_DONE ->
  has_target s (nd_part (nodes s x)) /\ good (part_map (nd_part (nodes s x))) (inst_part_tbl (nd_part (nodes s x))) /\
  forall y, y ∈ members -> y <> master -> TaskAckMsg y OG_SUCCESS version ∈ pool s.
Proof.
  intros I Hx Hs. destruct (i_done s I x Hx Hs) as [He Hp]. destruct (i_ended s I He) as (Hpub & Hm & _).
  assert (has_target s (nd_part (nodes s x))) as Ht.
  { destruct (decide (x = master)) as [->|Hxm]; [done|]. by destruct (i_part s I x (Hp Hxm)) as (_ & ? & _). }
  split; [done|]. destruct Ht as [-> ->]. split; [apply (i_good s I); by right|by apply (i_acked s I)].
Qed.
(** No instance goes back to an earlier status, so a failure is final. *)
Lemma step_forward s s' x : inv s -> net_step s s' -> x ∈ members -> nd_status (nodes s x) <= nd_status (nodes s' x).
Proof.
  intros I H Hx. assert (forall y n, (y ∈ members -> nd_status (nodes s y) <= nd_status n) -> y ∈ members -> nd_status (nodes s x) <= nd_status (set_node y n (nodes s) x)) as G.
  { intros y n Hn Hy. unfold set_node. case_decide; [subst; auto|lia]. }
  assert (forall y, y ∈ members -> nd_status (nodes s y) <= nd_status (nd_to REMASTER_FAIL (nodes s y))) as F.
  { intros y Hy. rewrite nd_to_status. pose proof (i_hi s I y Hy). destruct (_ =? _); lia. }
  destruct H as [y c ff ret ret' ms n' [Hy Hu] Hc Hpc _ E|ms n' [Hm Hu] _ Hs Hr E|ms n' [Hm Hu] Hp Ha E|n' [Hm Hu] Hp _ E|[Hm Hu] Hs|
    size_ok rc src st v n' [Hm Hu] Hin E|y size_ok rc v all msg b n' [Hy Hu] Hym E|size_ok rc src st v count n' [Hm Hu] Hin E|
    y size_ok len_ok rc st v map tbl sent ms n' [Hy Hu] Hym Hin E|y size_ok rc st v sent ms n' [Hy Hu] Hym Hin E|y [Hy Hu]|y Hy]; cbn.
  - apply G; [|done]. intros _. apply round_ok in E as [_ [[K _]|(Hs & _ & _ & A)]]; [apply (k_le _ _ _ K)| |by apply I|].
    + rewrite Hs. by destruct (as_status _ _ _ _ A) as [->| ->].
    + intros Hs. rewrite (i_master s I y Hy). apply bool_decide_false. intros ->. by destruct (Hpc eq_refl).
  - injection E as <- <-. apply G; [|done]. done.
  - injection E as <- <-. apply G; [|done]. done.
  - unfold publish_end in E. apply bind_inv in E as (d & _ & [= <-]). apply G; [|done]. intros _.
    change (nd_status (nodes s master) <= nd_status (nd_to REMASTER_DONE (nd_set_deposit d (nodes s master)))). rewrite nd_to_status.
    change (nd_status (nd_set_deposit d (nodes s master))) with (nd_status (nodes s master)).
    pose proof (i_hi s I master Hm). destruct (Z.eqb_spec (nd_status (nodes s master)) REMASTER_FAIL) as [->|]; [done|].
    unfold REMASTER_FAIL, REMASTER_DONE in *. lia.
  - apply G; [|done]. auto.
  - apply G; [|done]. intros _. apply notify_ok in E as [[K _] _]; [apply (k_le _ _ _ K)|by apply I].
  - apply G; [|done]. intros _. apply task_ok in E. apply (sp_le _ _ E).
  - apply G; [|done]. intros _. apply ack_ok in E as [[K _] _]. apply (k_le _ _ _ K).
  - apply G; [|done]. intros _. apply target_part_ok in E as [_ [[S _]|(_ & _ & -> & _)]]; [apply (sp_le _ _ S)|lia|by apply I].
  - apply G; [|done]. intros _. apply remaster_done_ok in E as [_ [->|(_ & -> & -> & _)]]; [lia|done].
  - apply G; [|done]. auto.
  - lia.
Qed.

Lemma reach_forward s s' x : inv s -> rtc net_step s s' -> x ∈ members -> nd_status (nodes s x) <= nd_status (nodes s' x).
Proof.
  intros I R Hx. revert I. induction R as [|a b c S R IH]; intros I; [lia|]. transitivity (nd_status (nodes b x)); [by apply step_forward|].
  apply IH. by eapply inv_step.
Qed.
End Net.
