(* ===== verification/DrcRemasterRun.v ===== *)
(** Runs of a reform: the transitions of DrcRemasterNet as a function of a
    schedule, which makes the reachability of a state a computation. *)

From S2P Require Import Prelude DrcBitmap DrcGlobalRes DrcReform DrcPart DrcRemaster DrcRemasterFsm DrcRemasterThm DrcRemasterInv DrcRemasterNet.

(** One transition; a message is named by its place among those sent. *)
Inductive action :=
| ARound (x : Z) (c : calls)
| APublish
| AParts
| AEnd
| AReport (i : nat) (rc : Z)
| ATask (x : Z) (rc version : Z) (msg : task_msg)
| ATarget (x : Z) (i : nat) (rc : Z)
| ADone (x : Z) (i : nat) (rc : Z)
| ACancel (x : Z)
| ACrash (x : Z).

Section Run.
Context (mode : bool) (r : reform_info) (version : Z).
#[local] Notation step := (net_step mode r version).
#[local] Notation master := (master r).
#[local] Notation members := (members r).

Definition liveb (s : net) (x : Z) : bool := bool_decide (x ∈ members) && bool_decide (x ∉ down s).

(** Every other instance is found by [p] in a message, or is down. *)
Definition answeredb (p : Z -> rmsg -> bool) (s : net) : bool :=
  forallb (fun x => (x =? master) || existsb (p x) (pool s) || bool_decide (x ∈ down s)) members.
Definition is_part_ack (x : Z) (k : rmsg) : bool :=
  match k with PartAckMsg y OG_SUCCESS v => (y =? x) && (v =? version) | _ => false end.
Definition is_done_ack (x : Z) (k : rmsg) : bool :=
  match k with DoneAckMsg y OG_SUCCESS v => (y =? x) && (v =? version) | _ => false end.

Definition check (b : bool) (s : option net) : option net := if b then s else None.

Definition act (a : action) (s : net) : option net :=
  match a with
  | ARound x c =>
      let n := nodes s x in
      check (liveb s x && Bool.eqb (c_mode c) mode &&
             (negb (x =? master) || (negb (nd_status n =? REMASTER_PUBLISH) && match pub s with PubIdle => true | _ => false end)) &&
             (negb (x =? master) || negb (nd_status n =? REMASTER_ASSIGN_TASK) ||
              bool_decide (ready members REMASTER_ASSIGN_TASK (rg_status (nd_rem n)))))
        (match proc_round r x c true OG_SUCCESS n with Ok (_, ms, n') => Some (goes s x n' ms) | Crash _ => None end)
  | APublish =>
      let n := nodes s master in
      check (liveb s master && match pub s with PubIdle => true | _ => false end && (nd_status n =? REMASTER_PUBLISH) &&
             bool_decide (ready members REMASTER_PUBLISH (rg_status (nd_rem n))))
        (let '(ms, n') := publish_begin n in Some (at_pub PubPart (goes s master n' ms)))
  | AParts =>
      check (liveb s master && match pub s with PubPart => true | _ => false end && answeredb is_part_ack s)
        (let '(ms, n') := publish_parts (nodes s master) in Some (at_pub PubDone (goes s master n' ms)))
  | AEnd =>
      check (liveb s master && match pub s with PubDone => true | _ => false end && answeredb is_done_ack s)
        (match publish_end r (nodes s master) with Ok n' => Some (at_pub PubIdle (goes s master n' [])) | Crash _ => None end)
  | AReport i rc =>
      check (liveb s master)
        (match pool s !! i with
         | Some (NotifyMsg src st v) =>
             match handle_notify true rc v src st (nodes s master) with Ok n' => Some (goes s master n' []) | Crash _ => None end
         | Some (TaskAckMsg src st v) =>
             match handle_ack true rc v src OG_MAX_INSTANCES st (nodes s master) with Ok n' => Some (goes s master n' []) | Crash _ => None end
         | _ => None
         end)
  | ATask x rc v msg =>
      check (liveb s x && negb (x =? master))
        (match handle_task true rc v (remaster_task_set (nd_part (nodes s master))) msg (nodes s x) with
         | Ok (_, n') => Some (goes s x n' []) | Crash _ => None end)
  | ATarget x i rc =>
      check (liveb s x && negb (x =? master))
        (match pool s !! i with
         | Some (TargetPartMsg st v map tbl) =>
             match drc_accept_target_part r x true true rc st v map tbl OG_SUCCESS (nodes s x) with Ok (ms, n') => Some (goes s x n' ms) | Crash _ => None end
         | _ => None
         end)
  | ADone x i rc =>
      check (liveb s x && negb (x =? master))
        (match pool s !! i with
         | Some (RemasterDoneMsg st v) => let '(ms, n') := drc_accept_remaster_done x true rc v OG_SUCCESS (nodes s x) in Some (goes s x n' ms)
         | _ => None
         end)
  | ACancel x => check (liveb s x) (Some (goes s x (nd_to REMASTER_FAIL (nodes s x)) []))
  | ACrash x => check (bool_decide (x ∈ members)) (Some (mk_net (nodes s) (pool s) ({[x]} ∪ down s) (pub s)))
  end.

(** A schedule. *)
Fixpoint acts (l : list action) (s : net) : option net :=
  match l with
  | [] => Some s
  | a :: l' => match act a s with Some s' => acts l' s' | None => None end
  end.

Lemma check_some b s s' : check b s = Some s' -> b = true /\ s = Some s'.
Proof. by destruct b. Qed.

Lemma liveb_ok s x : liveb s x = true -> live r s x.
Proof. unfold liveb. intros [H1%bool_decide_eq_true H2%bool_decide_eq_true]%andb_true_iff. done. Qed.

Lemma answeredb_ok p ack s : (forall x k, p x k = true -> k = ack x) -> answeredb p s = true -> answered r ack s.
Proof.
  intros Hp H x Hx Hm. unfold answeredb in H. rewrite forallb_forall in H. specialize (H x). rewrite <- list_elem_of_In in H.
  apply H in Hx. apply orb_true_iff in Hx as [Hx|Hx%bool_decide_eq_true]; [|by right]. apply orb_true_iff in Hx as [Hx|Hx]; [lia|].
  apply existsb_exists in Hx as (k & Hk & Hpk). rewrite <- list_elem_of_In in Hk. left. by rewrite <- (Hp x k Hpk).
Qed.

Lemma act_round x c s s' : act (ARound x c) s = Some s' -> step s s'.
Proof.
  cbn [act]. intros [Hb E]%check_some. rewrite !andb_true_iff in Hb. destruct Hb as (((Hl & Hc) & Hp) & Hr).
  destruct (proc_round r x c true OG_SUCCESS (nodes s x)) as [[[ret ms] n']|] eqn:Er; [|done]. injection E as <-.
  eapply NetRound; [by apply liveb_ok|by apply Bool.eqb_prop| | |exact Er].
  - intros ->. rewrite Z.eqb_refl in Hp. cbn in Hp. apply andb_true_iff in Hp as [Hs Hi]. split; [lia|by destruct (pub s)].
  - intros -> Hs _. rewrite Z.eqb_refl, Hs in Hr. cbn in Hr. by apply bool_decide_eq_true in Hr.
Qed.

Lemma act_ok a s s' : act a s = Some s' -> step s s'.
Proof.
  destruct a as [x c| | | |i rc|x rc v msg|x i rc|x i rc|x|x]; [apply act_round|..]; cbn [act]; intros [Hb E]%check_some; rewrite ?andb_true_iff in Hb.
  - destruct Hb as [[[Hl Hp] Hs] Hr]. injection E as <-. apply NetPublish; [by apply liveb_ok|by destruct (pub s)|lia|by apply bool_decide_eq_true in Hr|done].
  - destruct Hb as [[Hl Hp] Ha]. injection E as <-. apply NetParts; [by apply liveb_ok|by destruct (pub s)| |done].
    eapply answeredb_ok; [|exact Ha]. intros x [] H; try done. cbn in H. destruct st; [|done]. f_equal; lia.
  - destruct Hb as [[Hl Hp] Ha]. destruct (publish_end r (nodes s master)) eqn:Ee; [|done]. injection E as <-.
    apply NetEnd; [by apply liveb_ok|by destruct (pub s)| |done].
    eapply answeredb_ok; [|exact Ha]. intros x [] H; try done. cbn in H. destruct st; [|done]. f_equal; lia.
  - destruct (pool s !! i) as [k|] eqn:Ek; [|done]. apply list_elem_of_lookup_2 in Ek. destruct k; try done.
    + destruct (handle_notify _ _ _ _ _ _) eqn:Eh; [|done]. injection E as <-. by eapply NetNotify; [apply liveb_ok| |].
    + destruct (handle_ack _ _ _ _ _ _ _) eqn:Eh; [|done]. injection E as <-. by eapply NetAck; [apply liveb_ok| |].
  - destruct Hb as [Hl Hx]. destruct (handle_task _ _ _ _ _ _) as [[b n']|] eqn:Eh; [|done]. injection E as <-.
    eapply NetTask; [by apply liveb_ok|lia|exact Eh].
  - destruct Hb as [Hl Hx]. destruct (pool s !! i) as [k|] eqn:Ek; [|done]. apply list_elem_of_lookup_2 in Ek. destruct k; try done.
    destruct (drc_accept_target_part _ _ _ _ _ _ _ _ _ _ _) as [[ms n']|] eqn:Eh; [|done]. injection E as <-.
    eapply NetTarget; [by apply liveb_ok|lia|exact Ek|exact Eh].
  - destruct Hb as [Hl Hx]. destruct (pool s !! i) as [k|] eqn:Ek; [|done]. apply list_elem_of_lookup_2 in Ek. destruct k; try done.
    destruct (drc_accept_remaster_done _ _ _ _ _ _) as [ms n'] eqn:Eh. injection E as <-.
    eapply NetDone; [by apply liveb_ok|lia|exact Ek|exact Eh].
  - injection E as <-. apply NetCancel. by apply liveb_ok.
  - injection E as <-. apply NetCrash. by apply bool_decide_eq_true in Hb.
Qed.

Lemma acts_ok l : forall s s', acts l s = Some s' -> rtc step s s'.
Proof.
  induction l as [|a l IH]; intros s s' E; cbn in E; [injection E as <-; done|].
  destruct (act a s) as [s1|] eqn:Ea; [|done]. eapply rtc_l; [by eapply act_ok|by apply IH].
Qed.
End Run.
