(* ===== verification/DrcRemasterLive.v ===== *)
(** A reform in which nothing fails ends: the thread of the reformer goes
    through its five steps and is done, with the even assignment. *)

From S2P Require Import Prelude DrcBitmap DrcGlobalRes DrcReform DrcPart DrcPartInv DrcPartThm DrcPartReform.
From S2P Require Import DrcRemaster DrcRemasterFsm DrcRemasterThm DrcRemasterInv.

(** Every call succeeds. *)
Definition fine_calls : calls :=
  mk_calls false (Some OG_SUCCESS) OG_SUCCESS OG_SUCCESS (fun _ => OG_SUCCESS) OG_SUCCESS (fun _ => OG_SUCCESS) (fun _ => OG_SUCCESS)
    (fun _ => false) (fun _ => OG_SUCCESS) (fun _ => OG_SUCCESS) (fun _ => OG_SUCCESS) OG_SUCCESS OG_SUCCESS OG_SUCCESS.

(** ** The migration *)

(** Local task [j] waits for its migration. *)
Definition waiting (n : node) (j : Z) : Prop := exists t, local_task_set (nd_rem n) !! j = Some t /\ tk_status t = PART_WAIT_MIGRATE.

Lemma migrate_res_fine count : forall j n,
  nd_status n <> REMASTER_FAIL -> (forall i, j <= i < j + Z.of_nat count -> waiting n i) ->
  drc_remaster_migrate_res count j (fun _ => false) (fun _ => OG_SUCCESS) n = Ok (nd_set_complete (nd_complete n + Z.of_nat count) n).
Proof.
  induction count as [|count IH]; intros j n Hs Hw.
  - cbn. f_equal. rewrite Z.add_0_r. by destruct n.
  - cbn [drc_remaster_migrate_res]. replace (nd_status n =? REMASTER_FAIL) with false by lia.
    destruct (Hw j ltac:(lia)) as (t & Ht & Hst). unfold drc_migrate_master_blk, rd. rewrite Ht. cbn [mbind outcome_bind].
    rewrite bool_decide_true by done. cbn [knl_panic mbind outcome_bind]. rewrite bool_decide_false by done.
    rewrite IH; [|done|intros i Hi; apply Hw; lia]. unfold nd_set_complete. cbn. by replace (nd_complete n + 1 + Z.of_nat count) with (nd_complete n + Z.of_nat (S count)) by lia.
Qed.

(** The tasks that some threads take. *)
Definition job_tasks (jobs : list (Z * Z)) : list Z := concat ((fun j => seqZ j.1 j.2) <$> jobs).

Lemma migrate_threads_fine jobs : forall i n,
  nd_status n <> REMASTER_FAIL -> Forall (fun j => 0 <= j.2) jobs -> Forall (waiting n) (job_tasks jobs) ->
  migrate_threads i jobs (fun _ => OG_SUCCESS) (fun _ => false) (fun _ => OG_SUCCESS) n =
    Ok (OG_SUCCESS, nd_set_complete (nd_complete n + len (job_tasks jobs)) n).
Proof.
  induction jobs as [|[start count] jobs IH]; intros i n Hs Hj Hw.
  - cbn. change (len (job_tasks [])) with 0. rewrite Z.add_0_r. by destruct n.
  - apply Forall_cons in Hj as [Hc Hj]. change (job_tasks ((start, count) :: jobs)) with (seqZ start count ++ job_tasks jobs) in *.
    apply Forall_app in Hw as [Hw1 Hw]. cbn [fst snd] in *. cbn [migrate_threads]. rewrite bool_decide_false by done.
    rewrite migrate_res_fine; [|done|intros k Hk; rewrite Forall_forall in Hw1; apply Hw1, elem_of_seqZ; lia].
    cbn [mbind outcome_bind]. rewrite IH by done. unfold nd_set_complete, len. cbn. rewrite length_app, length_seqZ.
    by replace (nd_complete n + Z.of_nat (Z.to_nat count) + Z.of_nat (length (job_tasks jobs))) with
      (nd_complete n + Z.of_nat (Z.to_nat count + length (job_tasks jobs))) by lia.
Qed.

Lemma migrate_fine n num :
  nd_status n <> REMASTER_FAIL -> local_task_num (nd_rem n) = num -> 0 <= num -> (forall j, 0 <= j < num -> waiting n j) ->
  drc_remaster_migrate (fun _ => OG_SUCCESS) (fun _ => false) (fun _ => OG_SUCCESS) n = Ok (OG_SUCCESS, nd_set_complete (nd_complete n + num) n).
Proof.
  intros Hs <- Hn Hw. unfold drc_remaster_migrate. destruct (Z.eqb_spec (local_task_num (nd_rem n)) 0) as [->|Hne].
  - rewrite Z.add_0_r. by destruct n.
  - pose proof (migrate_jobs_cover _ Hn) as Hc. fold (job_tasks (migrate_jobs (local_task_num (nd_rem n)))) in Hc.
    rewrite migrate_threads_fine; [|done| |].
    + cbn [mbind outcome_bind]. rewrite Hc. unfold len. rewrite length_seqZ, Z2Nat.id by done.
      replace (nd_status (nd_set_complete _ _) =? REMASTER_FAIL) with false by (symmetry; by apply Z.eqb_neq). done.
    + apply Forall_fmap, Forall_forall. intros i _. cbn. unfold DRC_REMASTER_MIGRATE_RES_MAX_THREAD_NUM.
      pose proof (Z.div_pos _ 8 Hn ltac:(lia)). pose proof (Z.mod_pos_bound (local_task_num (nd_rem n)) 8 ltac:(lia)). case_match; lia.
    + rewrite Hc. apply Forall_forall. intros j [Hj1 Hj2]%elem_of_seqZ. apply Hw. lia.
Qed.

Lemma clean_fine r n : drc_remaster_migrate_clean_res_owner r (fun _ => OG_SUCCESS) n = (OG_SUCCESS, n).
Proof.
  assert (forall l, clean_all l (fun _ => OG_SUCCESS) n = (OG_SUCCESS, n)) as H by (induction l as [|x l IH]; [done|exact IH]).
  unfold drc_remaster_migrate_clean_res_owner. by rewrite !H.
Qed.

Lemma recovery_fine r n : nd_status n <> REMASTER_FAIL ->
  drc_remaster_recovery r (fun _ => OG_SUCCESS) (fun _ => OG_SUCCESS) n = (OG_SUCCESS, n).
Proof.
  intros Hs. unfold drc_remaster_recovery. induction (rl_abort (ri_lists r)) as [|x l IH]; [done|]. cbn. by replace (nd_status n =? REMASTER_FAIL) with false by lia.
Qed.

(** ** The deposits *)

Lemma deposit_fine l id : forall d, Forall is_inst l -> (forall x, is_inst x -> is_Some (d !! x)) ->
  exists d', deposit_all l id d = Ok d' /\ forall x, is_inst x -> is_Some (d' !! x).
Proof.
  induction l as [|x l IH]; intros d Hl Hd; [eauto|]. apply Forall_cons in Hl as [Hx Hl]. cbn [deposit_all].
  unfold drc_set_deposit_id, wr, rd. destruct (Hd x Hx) as [y ->]. cbn [mbind outcome_bind]. apply IH; [done|].
  intros z Hz. apply lookup_insert_is_Some'. right. by apply Hd.
Qed.

Lemma inst_list_fine r d :
  Forall is_inst (rl_leave (ri_lists r) ++ rl_abort (ri_lists r) ++ rl_join (ri_lists r) ++ rl_fail (ri_lists r)) ->
  (forall x, is_inst x -> is_Some (d !! x)) -> exists d', drc_remaster_inst_list r d = Ok d'.
Proof.
  intros (H1 & (H2 & [H3 H4]%Forall_app)%Forall_app)%Forall_app Hd. unfold drc_remaster_inst_list.
  destruct (deposit_fine _ (fun _ => ri_master r) d H1 Hd) as (d1 & -> & Hd1). cbn [mbind outcome_bind].
  destruct (deposit_fine _ (fun _ => ri_master r) d1 H2 Hd1) as (d2 & -> & Hd2). cbn [mbind outcome_bind].
  destruct (deposit_fine _ (fun x => x) d2 H3 Hd2) as (d3 & -> & Hd3). cbn [mbind outcome_bind].
  destruct (deposit_fine _ (fun _ => ri_master r) d3 H4 Hd3) as (d4 & -> & _). eauto.
Qed.

(** ** The rounds *)

Section Run.
Context (r : reform_info) (self : Z) (ls : Z -> list Z) (num : Z).

(** What the thread needs of the reform and of the reformer. *)
Record ready_info : Prop := {
  rn_self : is_inst self;
  rn_stays : self ∉ rl_join (ri_lists r) ++ rl_leave (ri_lists r);
  rn_lists : Forall is_inst (rl_leave (ri_lists r) ++ rl_abort (ri_lists r) ++ rl_join (ri_lists r) ++ rl_fail (ri_lists r));
  rn_after : Forall is_inst (ri_after r ++ ri_leave r);
}.
Record can_run (n : node) : Prop := {
  cn_inst : pm_remaster_inst (nd_part n) = self;
  cn_reform : can_reform (nd_part n) ls num (rl_join (ri_lists r)) (rl_leave (ri_lists r));
  cn_nolist : none_removed (nd_part n) (rl_abort (ri_lists r)) (rl_fail (ri_lists r));
  cn_master : nd_is_master n = true;
  cn_report : is_Some (rg_status (nd_rem n) !! self);
  cn_counts : forall x, is_inst x -> rg_task_num (nd_rem n) !! x = Some 0;
  cn_local : locals (nd_rem n) [];
  cn_complete : nd_complete n = 0;
  cn_deposit : forall x, is_inst x -> is_Some (nd_deposit n !! x);
}.
Hypothesis R : ready_info.

#[local] Notation round n := (proc_round r self fine_calls true OG_SUCCESS n).

Lemma can_reform_core m m' : core m' = core m ->
  can_reform m ls num (rl_join (ri_lists r)) (rl_leave (ri_lists r)) -> can_reform m' ls num (rl_join (ri_lists r)) (rl_leave (ri_lists r)).
Proof. unfold core. intros [= E1 _ _ E2 E3 _ _ _ _ E4] []. split; rewrite ?E1, ?E2, ?E3, ?E4; done. Qed.

Lemma round_ends n ret ms n' : proc_switch r self fine_calls true OG_SUCCESS n = Ok (OG_SUCCESS, ms, n') ->
  ret = OG_SUCCESS -> round n = Ok (ret, ms, n').
Proof. intros E ->. unfold proc_round. rewrite E. done. Qed.

Lemma round_prepare n : can_run n -> nd_status n = REMASTER_PREPARE ->
  exists n', round n = Ok (OG_SUCCESS, [], n') /\ can_run n' /\ nd_status n' = REMASTER_ASSIGN_TASK.
Proof.
  intros C Hs. destruct (cn_report n C) as [s0 Hr]. set (g := rg_set_status (<[self := REMASTER_ASSIGN_TASK]> (rg_status (nd_rem n))) (nd_rem n)).
  exists (nd_to REMASTER_ASSIGN_TASK (nd_set_rem g n)). split.
  - apply round_ends; [|done]. unfold proc_switch. rewrite Hs, Z.eqb_refl. unfold drc_prepare_remaster. cbn [c_verify fine_calls].
    rewrite bool_decide_false by done. rewrite andb_false_r. unfold drc_notify_remaster_status, notify_self, wr, rd.
    rewrite (cn_inst n C), Z.eqb_refl, Hr. cbn [mbind outcome_bind]. rewrite bool_decide_true by done. done.
  - assert (core (nd_part (nd_to REMASTER_ASSIGN_TASK (nd_set_rem g n))) = core (nd_part n)) as Ec by (by rewrite nd_to_core).
    split; [|rewrite nd_to_status; change (nd_status (nd_set_rem g n)) with (nd_status n); by rewrite Hs].
    destruct C as [C1 C2 C3 C4 C5 C6 C7 C8 C9].
    assert (pm_remaster_inst (nd_part (nd_to REMASTER_ASSIGN_TASK (nd_set_rem g n))) = pm_remaster_inst (nd_part n)) as E1 by (unfold core in Ec; congruence).
    assert (pm_mgrt_fail_list (nd_part (nd_to REMASTER_ASSIGN_TASK (nd_set_rem g n))) = pm_mgrt_fail_list (nd_part n)) as E2 by (unfold core in Ec; congruence).
    split; try done.
    + by rewrite E1.
    + by eapply can_reform_core.
    + unfold none_removed. by rewrite E2.
    + cbn. rewrite lookup_insert_eq. by eexists.
    + by destruct C7.
Qed.

(** The reformer has tasks to migrate, and the target is even. *)
Record can_migrate (n : node) (ls' : Z -> list Z) (k : Z) : Prop := {
  cm_inst : pm_remaster_inst (nd_part n) = self;
  cm_master : nd_is_master n = true;
  cm_report : is_Some (rg_status (nd_rem n) !! self);
  cm_num : local_task_num (nd_rem n) = k;
  cm_pos : 0 <= k;
  cm_wait : forall j, 0 <= j < k -> waiting n j;
  cm_target : balanced (target_part_map (nd_part n)) (target_inst_part_tbl (nd_part n)) ls'
    (num + len (rl_join (ri_lists r)) - len (rl_leave (ri_lists r)));
  cm_deposit : forall x, is_inst x -> is_Some (nd_deposit n !! x);
}.

(** The tasks of a rebalancing as a list. *)
Lemma tasks_list (tasks : gmap Z drc_remaster_task) k P : 0 <= k ->
  (forall j, 0 <= j < k -> exists t, tasks !! j = Some t /\ P t) -> exists tl, tasks_are tasks 0 tl /\ len tl = k /\ Forall P tl.
Proof.
  intros Hk. pattern k. apply natlike_ind; [|clear k Hk|done].
  - exists []. split; [|by split]. intros j t. by rewrite lookup_nil.
  - intros k Hk IH H. destruct IH as (tl & Ht & Hl & HP); [intros j Hj; apply H; lia|]. destruct (H k ltac:(lia)) as (t & Etk & Ptk).
    exists (tl ++ [t]). split; [|split].
    + apply tasks_are_app. split; [done|]. rewrite Hl, Z.add_0_l. apply tasks_are_cons. split; [done|]. intros j x. by rewrite lookup_nil.
    + unfold len in *. rewrite length_app. cbn. lia.
    + apply Forall_app. split; [done|by apply Forall_singleton].
Qed.

Lemma round_assign n : can_run n -> nd_status n = REMASTER_ASSIGN_TASK ->
  exists ms n' ls' k, round n = Ok (OG_SUCCESS, ms, n') /\ can_migrate n' ls' k /\ nd_complete n' = 0 /\ nd_status n' = REMASTER_MIGRATE.
Proof.
  intros C Hs. destruct (reform_ok (nd_part n) ls num _ _ (cn_reform n C) (rl_abort (ri_lists r)) (rl_fail (ri_lists r)) (cn_nolist n C))
    as (m' & ls' & E & B & _ & M & Hk & _).
  replace (mk_rlists _ _ _ _) with (ri_lists r) in E by (by destruct (ri_lists r)).
  pose proof (execute_rebalance_keeps _ _ _ _ _ E) as [(Ki & _ & Kst & _ & _) _].
  destruct (tasks_list (remaster_task_set m') (task_num m') (fun t => is_inst (tk_export t) /\ tk_status t = PART_WAIT_MIGRATE)) as (tl & Ht & Hl & HP); [lia| |].
  { intros j Hj. destruct (mv_task _ _ _ _ _ _ _ _ M j Hj) as (t & _ & _ & Htj & Hst & _ & _ & [Hx _] & _). eauto. }
  rewrite <- Hl in Hk. destruct (assign_ok self (remaster_task_set m') tl (ri_after r) (ri_leave r) (nd_rem n)) as (g & Ea & L).
  { done. } { lia. } { eapply Forall_impl; [exact HP|]. by intros t [? _]. } { apply R. } { apply R. } { apply C. } { apply C. }
  pose proof (assign_rem _ _ _ _ _ _ _ _ _ _ Ea) as [Es Ev]. rewrite Hl in Ea.
  do 2 eexists. exists ls', (len (tasks_of self tl)). split; [|split; [|split]].
  - apply round_ends; [|done]. unfold proc_switch. rewrite Hs. cbn [Z.eqb REMASTER_ASSIGN_TASK REMASTER_PREPARE Pos.eqb].
    unfold drc_remaster_step_assign_task. rewrite (cn_master n C). cbn [negb c_waited c_mode c_send fine_calls]. rewrite bool_decide_false by done.
    unfold drc_execute_remaster. change (nd_part (nd_set_finish REMASTER_PREPARE n)) with (nd_part n). rewrite (bind_ok _ _ _ E). cbn beta iota.
    change (nd_rem (nd_set_finish REMASTER_PREPARE n)) with (nd_rem n). rewrite (bind_ok _ _ _ Ea). cbn beta iota.
    rewrite bool_decide_true by done. reflexivity.
  - set (n1 := nd_set_rem g _). destruct (nd_to_fields REMASTER_MIGRATE n1 ltac:(done)) as (F1 & F2 & F3 & F4 & F5 & _). split.
    + cbn. etransitivity; [exact F5|]. cbn. rewrite Ki. apply C.
    + apply C.
    + cbn. rewrite Es. apply C.
    + apply (lc_num _ _ L).
    + unfold len. lia.
    + intros j Hj. unfold len in Hj. destruct (lookup_lt_is_Some_2 (tasks_of self tl) (Z.to_nat j)) as [t Htj]; [lia|].
      exists t. split; [pose proof (lc_tasks _ _ L _ _ Htj) as X; by replace (0 + Z.of_nat (Z.to_nat j)) with j in X by lia|].
      apply list_elem_of_lookup_2 in Htj. unfold tasks_of in Htj. apply list_elem_of_filter in Htj as [_ Htj].
      rewrite Forall_forall in HP. by apply HP.
    + change (balanced (target_part_map (nd_part (nd_to REMASTER_MIGRATE n1))) (target_inst_part_tbl (nd_part (nd_to REMASTER_MIGRATE n1))) ls'
        (num + len (rl_join (ri_lists r)) - len (rl_leave (ri_lists r)))). rewrite F3, F4. exact B.
    + apply C.
  - cbn. apply C.
  - set (n1 := nd_set_rem g _). change (nd_status (nd_to REMASTER_MIGRATE n1) = REMASTER_MIGRATE). rewrite nd_to_status.
    assert (nd_status n1 = nd_status n) as -> by (unfold nd_status, n1; cbn; by rewrite Kst). by rewrite Hs.
Qed.

Lemma round_migrate n ls' k : can_migrate n ls' k -> nd_complete n = 0 -> nd_status n = REMASTER_MIGRATE ->
  exists n', round n = Ok (OG_SUCCESS, [], n') /\ can_migrate n' ls' k /\ nd_status n' = REMASTER_RECOVERY.
Proof.
  intros C Hc Hs. pose proof (rn_stays R) as Hst. rewrite not_elem_of_app in Hst. destruct Hst as [Hj Hl].
  exists (nd_set_finish REMASTER_MIGRATE (nd_to REMASTER_RECOVERY (nd_set_complete k n))). split; [|split].
  - apply round_ends; [|done]. unfold proc_switch. rewrite Hs. cbn [Z.eqb REMASTER_MIGRATE REMASTER_ASSIGN_TASK REMASTER_PREPARE Pos.eqb].
    unfold drc_remaster_step_migrate. rewrite (bool_decide_false (self ∈ rl_join _)) by done. cbn [c_clean c_created c_seen c_blk c_sent c_finished fine_calls].
    rewrite clean_fine, (migrate_fine n k) by (try apply C; rewrite Hs; done). cbn [mbind outcome_bind].
    rewrite Hc, Z.add_0_l. rewrite (bool_decide_false (OG_SUCCESS = OG_ERROR)) by done. cbn [nd_rem nd_set_complete nd_complete orb].
    rewrite (cm_num _ _ _ C), Z.eqb_refl. cbn [negb]. rewrite (bool_decide_false (self ∈ rl_leave _)) by done. done.
  - destruct (nd_to_fields REMASTER_RECOVERY (nd_set_complete k n) ltac:(done)) as (F1 & F2 & F3 & F4 & F5 & _). destruct C. split; try done.
    + etransitivity; [exact F5|done].
    + change (balanced (target_part_map (nd_part (nd_to REMASTER_RECOVERY (nd_set_complete k n))))
        (target_inst_part_tbl (nd_part (nd_to REMASTER_RECOVERY (nd_set_complete k n)))) ls' (num + len (rl_join (ri_lists r)) - len (rl_leave (ri_lists r)))).
      by rewrite F3, F4.
  - change (nd_status (nd_to REMASTER_RECOVERY (nd_set_complete k n)) = REMASTER_RECOVERY). rewrite nd_to_status.
    change (nd_status (nd_set_complete k n)) with (nd_status n). by rewrite Hs.
Qed.

Lemma round_recover n ls' k : can_migrate n ls' k -> nd_status n = REMASTER_RECOVERY ->
  exists n', round n = Ok (OG_SUCCESS, [], n') /\ can_migrate n' ls' k /\ nd_status n' = REMASTER_PUBLISH.
Proof.
  intros C Hs. destruct (cm_report _ _ _ C) as [s0 Hr].
  assert (exists g, task_ack_self self (nd_rem n) = Ok g /\ is_Some (rg_status g !! self) /\ local_task_num g = local_task_num (nd_rem n) /\
    local_task_set g = local_task_set (nd_rem n)) as (g & Eg & Hg1 & Hg2 & Hg3).
  { unfold task_ack_self, drc_master_update_inst_remaster_status, wr, rd. cbn [rg_status rg_set_complete]. rewrite Hr. cbn [mbind outcome_bind].
    destruct (s0 <? REMASTER_PUBLISH); eexists; (split; [done|]); cbn; [rewrite lookup_insert_eq|rewrite Hr]; eauto. }
  exists (nd_to REMASTER_PUBLISH (nd_set_rem g n)). split; [|split].
  - apply round_ends; [|done]. unfold proc_switch. rewrite Hs. cbn [Z.eqb REMASTER_RECOVERY REMASTER_MIGRATE REMASTER_ASSIGN_TASK REMASTER_PREPARE Pos.eqb].
    unfold drc_remaster_step_recover. cbn [c_lock_rcy c_buf_rcy c_recovered c_sent fine_calls]. rewrite recovery_fine by (rewrite Hs; done).
    rewrite (bool_decide_false (OG_SUCCESS = OG_ERROR)) by done. unfold ack_and_publish, drc_remaster_task_ack.
    rewrite (cm_inst _ _ _ C), Z.eqb_refl, Eg. cbn [mbind outcome_bind]. rewrite bool_decide_true by done. done.
  - destruct (nd_to_fields REMASTER_PUBLISH (nd_set_rem g n) ltac:(done)) as (F1 & F2 & F3 & F4 & F5 & _). destruct C. split; try done.
    + etransitivity; [exact F5|done].
    + cbn. by rewrite Hg2.
    + intros j Hj. unfold waiting. cbn. rewrite Hg3. by apply cm_wait0.
    + by rewrite F3, F4.
  - rewrite nd_to_status. change (nd_status (nd_set_rem g n)) with (nd_status n). by rewrite Hs.
Qed.

Lemma round_publish n ls' k : can_migrate n ls' k -> nd_status n = REMASTER_PUBLISH ->
  exists ms n', round n = Ok (OG_SUCCESS, ms, n') /\ nd_status n' = REMASTER_DONE /\
    balanced (part_map (nd_part n')) (inst_part_tbl (nd_part n')) ls' (num + len (rl_join (ri_lists r)) - len (rl_leave (ri_lists r))).
Proof.
  intros C Hs. destruct (inst_list_fine r (nd_deposit n) (rn_lists R) (cm_deposit _ _ _ C)) as [d Hd].
  do 2 eexists. split; [|split].
  - apply round_ends; [|done]. unfold proc_switch. rewrite Hs.
    cbn [Z.eqb REMASTER_PUBLISH REMASTER_RECOVERY REMASTER_MIGRATE REMASTER_ASSIGN_TASK REMASTER_PREPARE Pos.eqb].
    unfold drc_remaster_step_publish. rewrite (cm_master _ _ _ C). cbn [negb c_waited c_parted c_told fine_calls].
    rewrite !(bool_decide_false (OG_SUCCESS = OG_ERROR)) by done. cbn [publish_begin publish_parts]. unfold publish_end.
    change (nd_deposit (nd_map_part _ (nd_set_finish REMASTER_RECOVERY n))) with (nd_deposit n). rewrite Hd. cbn [mbind outcome_bind]. reflexivity.
  - set (n1 := nd_set_deposit d _). change (nd_status (nd_to REMASTER_DONE n1) = REMASTER_DONE). rewrite nd_to_status.
    change (nd_status n1) with (nd_status n). by rewrite Hs.
  - cbn. unfold drc_update_remaster_local_status. unfold nd_status in Hs. cbn. rewrite Hs. cbn. apply C.
Qed.

(** Five rounds. *)
Lemma proc_fine n : can_run (nd_set_run (self =? ri_master r) false n) -> nd_status n = REMASTER_PREPARE ->
  exists ms n' ls', drc_remaster_proc r self (replicate 5 fine_calls) n = Ok (ms, n') /\ nd_status n' = REMASTER_DONE /\ nd_finish n' = REMASTER_DONE /\
    balanced (part_map (nd_part n')) (inst_part_tbl (nd_part n')) ls' (num + len (rl_join (ri_lists r)) - len (rl_leave (ri_lists r))).
Proof.
  intros C Hs. set (n0 := nd_set_run _ _ _) in *.
  destruct (round_prepare n0 C Hs) as (n1 & E1 & C1 & S1). destruct (round_assign n1 C1 S1) as (ms2 & n2 & ls' & k & E2 & C2 & Hc2 & S2).
  destruct (round_migrate n2 ls' k C2 Hc2 S2) as (n3 & E3 & C3 & S3). destruct (round_recover n3 ls' k C3 S3) as (n4 & E4 & C4 & S4).
  destruct (round_publish n4 ls' k C4 S4) as (ms5 & n5 & E5 & S5 & B5).
  unfold drc_remaster_proc. fold n0. cbn [replicate proc_loop].
  change (nd_status n0) with (nd_status n). rewrite Hs, E1. cbn [mbind outcome_bind]. rewrite S1.
  cbn [Z.eqb REMASTER_PREPARE REMASTER_ASSIGN_TASK REMASTER_FAIL REMASTER_DONE Pos.eqb negb andb]. rewrite E2. cbn [mbind outcome_bind]. rewrite S2.
  cbn [Z.eqb REMASTER_MIGRATE REMASTER_FAIL REMASTER_DONE Pos.eqb negb andb]. rewrite E3. cbn [mbind outcome_bind]. rewrite S3.
  cbn [Z.eqb REMASTER_RECOVERY REMASTER_FAIL REMASTER_DONE Pos.eqb negb andb]. rewrite E4. cbn [mbind outcome_bind]. rewrite S4.
  cbn [Z.eqb REMASTER_PUBLISH REMASTER_FAIL REMASTER_DONE Pos.eqb negb andb]. rewrite E5. cbn [mbind outcome_bind]. rewrite S5.
  cbn [Z.eqb REMASTER_DONE Pos.eqb mbind outcome_bind].
  change (nd_status (nd_set_finish REMASTER_DONE n5)) with (nd_status n5). rewrite S5. cbn [Z.eqb REMASTER_DONE REMASTER_FAIL Pos.eqb].
  do 2 eexists. exists ls'. split; [reflexivity|]. split; [exact S5|]. split; [done|exact B5].
Qed.
End Run.
