(* ===== verification/DrcRemasterStop.v ===== *)
(** Stopping a remaster: in every state that a reform can reach, the reformer
    that stops gets back the assignment it had when the reform started. *)

From S2P Require Import Prelude DrcBitmap DrcGlobalRes DrcReform DrcPart DrcRemaster DrcRemasterFsm DrcRemasterThm DrcRemasterInv DrcRemasterNet.

(** [drc_stop_remaster] takes the kept assignment back. *)
Definition fin (n : node) : Prop := REMASTER_ASSIGN_TASK <= nd_finish n <= REMASTER_DONE.

(** The partitions whose resources came in the remaster that is stopped. *)
Definition came_in (self : Z) (m : drc_part_mngr) (p : Z) : Prop :=
  exists t o, target_part_map m !! p = Some t /\ tmp_part_map m !! p = Some o /\ pt_inst t = self /\ pt_inst o <> self.

Lemma immigrated_ok self m parts :
  (forall p, p ∈ parts -> is_Some (target_part_map m !! p) /\ is_Some (tmp_part_map m !! p)) ->
  exists l, immigrated parts self m = Ok l /\ forall p, p ∈ l <-> p ∈ parts /\ came_in self m p.
Proof.
  induction parts as [|p parts IH]; intros Hd; cbn [immigrated]; [exists []; split; [done|]; set_solver|].
  destruct (Hd p ltac:(set_solver)) as [[t Ht] [o Ho]]. unfold rd. rewrite Ht, Ho. cbn [mbind outcome_bind].
  destruct IH as (l & -> & Hl); [set_solver|]. cbn [mbind outcome_bind]. eexists. split; [done|]. intros q.
  assert (came_in self m p <-> pt_inst t = self /\ pt_inst o <> self) as Hp.
  { split; [intros (t' & o' & Ht' & Ho' & ? & ?); by simplify_eq|intros [? ?]; by exists t, o]. }
  destruct (Z.eqb_spec (pt_inst t) self), (Z.eqb_spec (pt_inst o) self); cbn [andb negb]; rewrite ?elem_of_cons, Hl;
    (split; [intuition congruence|]); (intros [[->|Hq] Hc]; [apply Hp in Hc; tauto|tauto]).
Qed.

Lemma stop_ok self before running n : running || nd_stopped n = true ->
  (forall p, 0 <= p < DRC_MAX_PART_NUM -> is_Some (target_part_map (nd_part n) !! p) /\ is_Some (tmp_part_map (nd_part n) !! p)) ->
  exists freed n', drc_stop_remaster self before running n = Ok (Some (freed, n')) /\ nd_status n' = REMASTER_DONE /\
    (fin n -> part_map (nd_part n') = tmp_part_map (nd_part n) /\ inst_part_tbl (nd_part n') = tmp_inst_part_tbl (nd_part n) /\
       forall p, p ∈ freed <-> 0 <= p < DRC_MAX_PART_NUM /\ came_in self (nd_part n) p) /\
    (~ fin n -> part_map (nd_part n') = part_map (nd_part n) /\ inst_part_tbl (nd_part n') = inst_part_tbl (nd_part n) /\ freed = []).
Proof.
  intros Hst Hd. unfold drc_stop_remaster. set (n1 := nd_to REMASTER_FAIL n).
  change (nd_stopped n1) with (nd_stopped n). rewrite Hst. cbn [negb].
  destruct (nd_to_fields REMASTER_FAIL n ltac:(done)) as (F1 & F2 & F3 & _ & _ & F6 & F7). fold n1 in F1, F2, F3, F6, F7.
  destruct ((REMASTER_ASSIGN_TASK <=? nd_finish n) && (nd_finish n <=? REMASTER_DONE)) eqn:Ef.
  - assert (fin n) as Hf by (unfold fin; lia). unfold drc_free_immigrated_res.
    destruct (immigrated_ok self (nd_part n1) (seqZ 0 DRC_MAX_PART_NUM)) as (l & -> & Hl).
    { intros p Hp%elem_of_seqZ. rewrite F3, F6. apply Hd. lia. }
    cbn [mbind outcome_bind]. do 2 eexists. split; [done|]. split; [done|]. split; [|by intros ?]. intros _. cbn. split; [exact F6|]. split; [exact F7|].
    intros p. rewrite Hl, elem_of_seqZ. unfold came_in. rewrite F3, F6. by rewrite Z.add_0_l.
  - assert (~ fin n) as Hf by (unfold fin; lia). cbn [mbind outcome_bind]. do 2 eexists. split; [done|]. split; [done|]. split; [done|].
    intros _. cbn. by rewrite <- F1, <- F2.
Qed.

Section Stop.
Context (mode : bool) (r : reform_info) (version : Z) (m0 : drc_part_mngr).
#[local] Notation step := (net_step mode r version).
#[local] Notation inv := (inv r version m0 (fun _ _ => True)).
#[local] Notation master := (master r).
#[local] Notation members := (members r).

(** Every partition has an entry in the target of a rebalancing. *)
Definition whole (pm : gmap Z drc_part) : Prop := forall p, 0 <= p < DRC_MAX_PART_NUM -> is_Some (pm !! p).
Hypothesis rebalance_whole : forall m m', starts m0 m -> execute_rebalance mode (ri_lists r) m = Ok (OG_SUCCESS, m') -> whole (target_part_map m').

(** What the reformer keeps for the case that it has to stop. *)
Record undo (s : net) : Prop := {
  u_map : tmp_part_map (nd_part (nodes s master)) = part_map m0;
  u_tbl : tmp_inst_part_tbl (nd_part (nodes s master)) = inst_part_tbl m0;
  u_fin : (part_map (nd_part (nodes s master)) = part_map m0 /\ inst_part_tbl (nd_part (nodes s master)) = inst_part_tbl m0) \/ fin (nodes s master);
  u_pub : pub s <> PubIdle -> fin (nodes s master);
  u_whole : whole (target_part_map (nd_part (nodes s master)));
}.

Lemma keeps_fin y n n' : keeps y n n' -> fin n -> fin n'.
Proof. intros K Hf. unfold fin in *. destruct (k_finish _ _ _ K) as [->| ->]; [done|]. unfold REMASTER_ASSIGN_TASK, REMASTER_MIGRATE, REMASTER_DONE. lia. Qed.

Lemma undo_keeps s y n' ms : undo s -> keeps y (nodes s master) n' -> undo (goes s master n' ms).
Proof.
  intros [U1 U2 U3 U4 U5] K. pose proof (k_core _ _ _ K) as C. unfold core in C.
  assert (part_map (nd_part n') = part_map (nd_part (nodes s master)) /\ inst_part_tbl (nd_part n') = inst_part_tbl (nd_part (nodes s master)) /\
    tmp_part_map (nd_part n') = tmp_part_map (nd_part (nodes s master)) /\ tmp_inst_part_tbl (nd_part n') = tmp_inst_part_tbl (nd_part (nodes s master)) /\
    target_part_map (nd_part n') = target_part_map (nd_part (nodes s master)))
    as (C1 & C2 & C3 & C4 & C5) by (split_and!; congruence).
  split; cbn; rewrite set_node_same, ?C1, ?C2, ?C3, ?C4, ?C5; try done.
  - destruct U3 as [?|?]; [by left|right; exact (keeps_fin _ _ _ K ltac:(assumption))].
  - intros Hp. eapply keeps_fin; [exact K|]. by apply U4.
Qed.

Lemma undo_other s x n' ms : undo s -> x <> master -> undo (goes s x n' ms).
Proof. intros [U1 U2 U3 U4 U5] Hx. split; cbn; rewrite set_node_other by done; done. Qed.

Lemma undo_idle s : undo s -> undo (at_pub PubIdle s).
Proof. intros [U1 U2 U3 U4 U5]. split; try done. Qed.

Lemma undo_round s c ff ret ret' ms n' :
  c_mode c = mode -> inv s -> undo s -> live r s master -> nd_status (nodes s master) <> REMASTER_PUBLISH -> pub s = PubIdle ->
  proc_round r master c ff ret (nodes s master) = Ok (ret', ms, n') -> undo (goes s master n' ms).
Proof.
  intros Hc I U [Hm _] Hp Hpub E. apply round_ok in E as [_ [[K _]|(Hs & _ & _ & A)]]; [by eapply undo_keeps| |by apply I|done].
  assert (starts m0 (nd_part (nodes s master))) as S by (apply I; by rewrite Hs). pose proof S as (_ & _ & S1 & S2 & _).
  destruct (as_tmp _ _ _ _ A) as [T1 T2]. split; cbn; rewrite set_node_same.
  - congruence.
  - congruence.
  - left. by rewrite (as_map _ _ _ _ A), (as_tbl _ _ _ _ A).
  - by rewrite Hpub.
  - destruct (as_rebalance _ _ _ _ A) as (m' & E & T & _). rewrite T. rewrite Hc in E. by eapply rebalance_whole.
Qed.

Lemma undo_step s s' : inv s -> undo s -> step s s' -> undo s'.
Proof.
  intros I U H. destruct H as [x c ff ret ret' ms n' L Hc Hpc _ E|ms n' L _ Hs Hr E|ms n' L Hp Ha E|n' L Hp _ E|L Hs|
    size_ok rc src st v n' L Hin E|x size_ok rc v all msg b n' L Hx E|size_ok rc src st v count n' L Hin E|
    x size_ok len_ok rc st v map tbl sent ms n' L Hx Hin E|x size_ok rc st v sent ms n' L Hx Hin E|x L|x Hx].
  - destruct (decide (x = master)) as [->|Hx]; [|by apply undo_other]. destruct (Hpc eq_refl). by eapply undo_round.
  - injection E as <- <-. destruct U as [U1 U2 U3 U4 U5]. split; cbn; rewrite set_node_same; try done; by right || by intros _.
  - injection E as <- <-. destruct U as [U1 U2 U3 U4 U5]. assert (fin (nodes s master)) as Hf by (apply U4; by rewrite Hp).
    split; cbn; rewrite set_node_same; try done. by right.
  - unfold publish_end in E. apply bind_inv in E as (d & _ & [= <-]). destruct U as [U1 U2 U3 U4 U5]. split; cbn; rewrite ?set_node_same; try done.
    + cbn. unfold drc_update_remaster_local_status. by destruct (_ =? _).
    + cbn. unfold drc_update_remaster_local_status. by destruct (_ =? _).
    + by right.
    + cbn. unfold drc_update_remaster_local_status. by destruct (_ =? _).
  - apply undo_idle. eapply (undo_keeps _ master); [done|]. apply nd_to_keeps; [|done]. left. apply I, L.
  - apply notify_ok in E as [[K _] _]; [by eapply undo_keeps|apply I, L].
  - by apply undo_other.
  - apply ack_ok in E as [[K _] _]. by eapply undo_keeps.
  - by apply undo_other.
  - by apply undo_other.
  - destruct (decide (x = master)) as [->|Hx]; [|by apply undo_other]. eapply (undo_keeps _ master); [done|]. apply nd_to_keeps; [|done]. left. apply I, L.
  - by destruct U.
Qed.

Lemma undo_reach s0 s :
  net_init r version s0 -> starts m0 (nd_part (nodes s0 master)) -> undo s0 -> rtc step s0 s -> inv s /\ undo s.
Proof.
  intros H Hm U R. pattern s. eapply rtc_ind_r; [split; [by apply inv_init|done]| |exact R]. intros a b _ S [I U'].
  split; [by eapply inv_step|by eapply undo_step].
Qed.
End Stop.
