(* ===== verification/DrcRemasterProps.v ===== *)
(** The properties of the remaster: agreement of the instances that are done,
    the end of a reform in which nothing fails, stopping, the assignment of
    the tasks and the waits; and what goes wrong with tasks in two runs, with
    the target on the other instances and with the result of the cleaning. *)

From S2P Require Import Prelude DrcBitmap DrcGlobalRes DrcReform DrcPart DrcPartInv DrcPartThm DrcPartInit DrcPartReform DrcPartProps.
From S2P Require Import DrcRemaster DrcRemasterFsm DrcRemasterThm DrcRemasterInv DrcRemasterNet DrcRemasterRun DrcRemasterLive DrcRemasterStop.

(** ** Agreement *)

(** C19: instances that are done agree.  In every state that a reform can
    reach, however its messages are delayed, repeated or lost (with those of
    earlier reforms among them; only an answer to a broadcast is counted once
    for each instance) and whichever instances fail or crash, two
    instances whose remaster is done have the same map of partitions and the
    same table, and every instance of the reform has told the reformer that
    its own part is complete. *)
Theorem remaster_agreement : forall mode r version s0 s x y,
  net_init r version s0 -> rtc (net_step mode r version) s0 s -> x ∈ members r -> y ∈ members r ->
  nd_status (nodes s x) = REMASTER_DONE -> nd_status (nodes s y) = REMASTER_DONE ->
  part_map (nd_part (nodes s x)) = part_map (nd_part (nodes s y)) /\
  inst_part_tbl (nd_part (nodes s x)) = inst_part_tbl (nd_part (nodes s y)) /\
  forall z, z ∈ members r -> z <> master r -> TaskAckMsg z OG_SUCCESS version ∈ pool s.
Proof.
  intros mode r version s0 s x y H R Hx Hy Dx Dy.
  assert (inv r version (nd_part (nodes s0 (master r))) (fun _ _ => True) s) as I by (by eapply inv_reach).
  destruct (done_target _ _ _ _ s x I Hx Dx) as ([Mx Tx] & _ & Ha), (done_target _ _ _ _ s y I Hy Dy) as ([My Ty] & _ & _).
  split; [congruence|]. split; [congruence|done].
Qed.

(** The target of a reform without crashed instances. *)
Definition even_target (m : drc_part_mngr) (n : Z) (r : reform_info) (pm : gmap Z drc_part) (tbl : gmap Z drc_inst_part) : Prop :=
  exists ls', balanced pm tbl ls' (n + len (rl_join (ri_lists r)) - len (rl_leave (ri_lists r))) /\
    forall x, is_inst x -> used_of tbl x = without (joined (used_of (inst_part_tbl m)) (rl_join (ri_lists r))) (rl_leave (ri_lists r)) x.

Lemma rebalance_even m ls n r : can_reform m ls n (rl_join (ri_lists r)) (rl_leave (ri_lists r)) ->
  none_removed m (rl_abort (ri_lists r)) (rl_fail (ri_lists r)) -> forall m1 m', starts m m1 -> execute_rebalance false (ri_lists r) m1 = Ok (OG_SUCCESS, m') ->
  even_target m n r (target_part_map m') (target_inst_part_tbl m').
Proof.
  intros C Hf m1 m' (S1 & S2 & S3 & S4 & S5) E.
  assert (can_reform m1 ls n (rl_join (ri_lists r)) (rl_leave (ri_lists r))) as C1 by (destruct C; split; rewrite ?S1, ?S3, ?S4, ?S5; done).
  destruct (reform_ok m1 ls n _ _ C1 (rl_abort (ri_lists r)) (rl_fail (ri_lists r)) ltac:(by unfold none_removed; rewrite S2)) as (m2 & ls' & E2 & B & U & _).
  replace (mk_rlists _ _ _ _) with (ri_lists r) in E2 by (by destruct (ri_lists r)). rewrite E2 in E. injection E as <-.
  exists ls'. split; [exact B|]. intros x Hx. rewrite U by done. unfold used_after. by rewrite S4.
Qed.

(** C20: a reform that ends is the one that was computed.  The reformer mode
    is off, the reformer starts from an even assignment, and no crashed or
    failed instance is to be removed (the lists of them are empty, or
    [mgrt_fail_list], without which they are passed over, is off); instances
    join and leave.  Then every instance that gets done, in whatever state the reform
    can reach, has an even assignment of all partitions to the instances in
    use before, with those that join and without those that leave. *)
Theorem remaster_even : forall r version s0 s x ls n,
  net_init r version s0 -> can_reform (nd_part (nodes s0 (master r))) ls n (rl_join (ri_lists r)) (rl_leave (ri_lists r)) ->
  none_removed (nd_part (nodes s0 (master r))) (rl_abort (ri_lists r)) (rl_fail (ri_lists r)) ->
  rtc (net_step false r version) s0 s -> x ∈ members r -> nd_status (nodes s x) = REMASTER_DONE ->
  even_target (nd_part (nodes s0 (master r))) n r (part_map (nd_part (nodes s x))) (inst_part_tbl (nd_part (nodes s x))).
Proof.
  intros r version s0 s x ls n H C Hf R Hx Dx.
  assert (inv r version (nd_part (nodes s0 (master r))) (even_target (nd_part (nodes s0 (master r))) n r) s) as I.
  { eapply inv_reach; [by eapply rebalance_even|done|done|exact R]. }
  by destruct (done_target _ _ _ _ s x I Hx Dx) as (_ & ? & _).
Qed.

(** C21: no instance goes back.  In a reform the status of an instance only
    grows, from preparing over assigning, migrating, recovering and
    publishing to done or failed, so that a failure is final until the
    remaster is stopped. *)
Theorem remaster_forward : forall mode r version s0 s s' x,
  net_init r version s0 -> rtc (net_step mode r version) s0 s -> rtc (net_step mode r version) s s' -> x ∈ members r ->
  nd_status (nodes s x) <= nd_status (nodes s' x) <= REMASTER_FAIL.
Proof.
  intros mode r version s0 s s' x H R R' Hx.
  assert (forall s, rtc (net_step mode r version) s0 s -> inv r version (nd_part (nodes s0 (master r))) (fun _ _ => True) s) as I by (intros; by eapply inv_reach).
  split; [eapply (reach_forward mode r version _ (fun _ _ => True)); [done|by apply I|exact R'|done]|]. eapply i_hi; [|done]. apply I. by etransitivity.
Qed.

(** C22: a reform in which nothing fails ends.  The reformer mode is off, the
    reformer starts from an even assignment in the state in which
    [drc_start_remaster] leaves it, without tasks of an earlier remaster, no crashed or failed instance is to be removed,
    and instances join and leave.  When every call succeeds, the thread of the
    reformer is done after five rounds, and the assignment is even on the
    instances that the reform leaves. *)
Theorem remaster_completes : forall r self ls num n,
  ready_info r self -> can_run r self ls num (nd_set_run (self =? ri_master r) false n) -> nd_status n = REMASTER_PREPARE ->
  exists ms n' ls', drc_remaster_proc r self (replicate 5 fine_calls) n = Ok (ms, n') /\
    nd_status n' = REMASTER_DONE /\ nd_finish n' = REMASTER_DONE /\
    balanced (part_map (nd_part n')) (inst_part_tbl (nd_part n')) ls' (num + len (rl_join (ri_lists r)) - len (rl_leave (ri_lists r))).
Proof. intros r self ls num n R C Hs. exact (proc_fine r self ls num R n C Hs). Qed.

(** C23: stopping undoes.  The reformer starts from an even assignment, which
    it has kept, instances join and leave, no crashed or failed instance is to
    be removed (the lists of them are empty, or [mgrt_fail_list], without
    which they are passed over, is off), and the reformer mode is off.  In every state that such a
    reform can reach, [drc_stop_remaster] of the reformer, called while the
    thread of its remaster is still in its loop (as it is until the status is
    [REMASTER_DONE], and the caller stops in no other status), returns, with
    the assignment that it had when the reform started, and frees the
    resources of exactly the partitions that were to come in, or none when
    nothing was assigned.  For a thread that has ended or was never created
    see [stop_without_thread]. *)
Theorem remaster_stop : forall r version s0 s ls n before,
  net_init r version s0 -> can_reform (nd_part (nodes s0 (master r))) ls n (rl_join (ri_lists r)) (rl_leave (ri_lists r)) ->
  none_removed (nd_part (nodes s0 (master r))) (rl_abort (ri_lists r)) (rl_fail (ri_lists r)) ->
  whole (target_part_map (nd_part (nodes s0 (master r)))) ->
  tmp_part_map (nd_part (nodes s0 (master r))) = part_map (nd_part (nodes s0 (master r))) ->
  tmp_inst_part_tbl (nd_part (nodes s0 (master r))) = inst_part_tbl (nd_part (nodes s0 (master r))) ->
  rtc (net_step false r version) s0 s ->
  exists freed n', drc_stop_remaster (master r) before true (nodes s (master r)) = Ok (Some (freed, n')) /\ nd_status n' = REMASTER_DONE /\
    part_map (nd_part n') = part_map (nd_part (nodes s0 (master r))) /\
    inst_part_tbl (nd_part n') = inst_part_tbl (nd_part (nodes s0 (master r))) /\
    (forall p, p ∈ freed -> 0 <= p < DRC_MAX_PART_NUM /\ came_in (master r) (nd_part (nodes s (master r))) p) /\
    (fin (nodes s (master r)) -> forall p, 0 <= p < DRC_MAX_PART_NUM -> came_in (master r) (nd_part (nodes s (master r))) p -> p ∈ freed).
Proof.
  intros r version s0 s ls n before H C Hf Hw Ht1 Ht2 R. set (m0 := nd_part (nodes s0 (master r))) in *.
  assert (undo r m0 s) as [U1 U2 U3 U4 U5].
  { eapply (undo_reach false r version m0); [|exact H|done| |exact R].
    - intros m m' S E. destruct (rebalance_even m0 ls n r C Hf m m' S E) as (ls' & B & _). intros p Hp.
      destruct (balanced_master _ _ _ _ p B Hp) as (q & Hq & _). rewrite Hq. by eexists.
    - split; try done; [by left|]. intros Hp. by rewrite (ni_pub _ _ _ H) in Hp. }
  destruct (stop_ok (master r) before true (nodes s (master r)) eq_refl) as (freed & n' & E & Es & Hfin & Hno).
  { intros p Hp. split; [by apply U5|]. rewrite U1. destruct (balanced_master _ _ _ _ p (cr_bal _ _ _ _ _ C) Hp) as (q & Hq & _). rewrite Hq. by eexists. }
  exists freed, n'. split; [exact E|]. split; [exact Es|].
  destruct (decide (REMASTER_ASSIGN_TASK <= nd_finish (nodes s (master r)) <= REMASTER_DONE)) as [Hd|Hd].
  - destruct (Hfin Hd) as (P1 & P2 & P3). split; [congruence|]. split; [congruence|]. split; [intros p; apply P3|]. intros _ p Hp Hc. by apply P3.
  - destruct (Hno Hd) as (P1 & P2 & ->). destruct U3 as [[Q1 Q2]|]; [|done]. split; [congruence|]. split; [congruence|].
    split; [by intros p ?%not_elem_of_nil|]. by intros ?.
Qed.

(** When the thread of the remaster could not be created, after a remaster
    that was done ([stopped] is not set again by it), the remaster has failed
    and is to be stopped, and stopping waits for ever. *)
Theorem stop_without_thread : forall self before before' r failed_status n,
  nd_stopped n = false -> 1 < before ->
  let n1 := drc_start_remaster before r OG_ERROR n in
  fst (drc_remaster_need_stop failed_status n1) = true /\ drc_stop_remaster self before' false n1 = Ok None.
Proof.
  intros self before before' r failed_status n Hs Hb. cbv zeta. unfold drc_start_remaster.
  rewrite !(proj2 (Z.eqb_neq before _)) by lia. cbn [andb]. rewrite bool_decide_true by done. set (n1 := nd_to REMASTER_FAIL _).
  assert (nd_status n1 = REMASTER_FAIL) as Hn.
  { unfold n1, nd_status, nd_to, nd_map_part. cbn [nd_part]. unfold drc_update_remaster_local_status at 1. by case_match eqn:E; [apply Z.eqb_eq in E|]. }
  split; [unfold drc_remaster_need_stop; by rewrite Hn|]. unfold drc_stop_remaster.
  change (nd_stopped (nd_to REMASTER_FAIL n1)) with (nd_stopped n). by rewrite Hs.
Qed.

(** ** Tasks and waits *)

(** C24: the tasks reach the instances that have to export.  When the tasks
    of every exporter follow each other, [drc_assign_remaster_task] sends
    every other instance of the reform exactly one message, which
    [drc_accept_remaster_task] takes in an instance that is ready for it, and
    which makes its local tasks exactly those it has to export; the reformer
    keeps its own. *)
Theorem remaster_assign : forall self tasks tl after leave g,
  tasks_are tasks 0 tl -> len tl <= DRC_MAX_PART_NUM -> Forall (fun t => is_inst (tk_export t)) tl -> NoDup (runs tl).*1 ->
  Forall is_inst (after ++ leave) -> NoDup (after ++ leave) -> is_inst self ->
  (forall x, is_inst x -> rg_task_num g !! x = Some 0) -> locals g [] ->
  exists sent g', drc_assign_remaster_task (fun _ => OG_SUCCESS) self after leave tasks (len tl) g = Ok (OG_SUCCESS, sent, g') /\
    locals g' (tasks_of self tl) /\
    forall x rc m gx, x ∈ after ++ leave -> x <> self -> pm_remaster_status m = REMASTER_ASSIGN_TASK ->
      REFORM_FROZEN <= rc < REFORM_RECOVER_DONE -> (forall j, 0 <= j < DRC_MAX_PART_NUM -> is_Some (local_task_set gx !! j)) ->
      exists msg m' gx', msgs_to x sent = [msg] /\
        drc_accept_remaster_task true rc (rg_trigger_version gx) tasks msg m gx = Ok (true, m', gx') /\
        pm_remaster_status m' = REMASTER_MIGRATE /\ remaster_task_set m' = tasks /\ locals gx' (tasks_of x tl).
Proof.
  intros self tasks tl after leave g Ht Hl He Hr Hi Hn Hs Hc L.
  destruct (assign_ok self tasks tl after leave g Ht Hl He Hi Hs Hc L) as (g' & E & L'). do 2 eexists. split; [exact E|]. split; [exact L'|].
  intros x rc m gx Hx Hxs Hst Hrc Hd. exists (mk_tmsg x (tasks_of x tl)).
  destruct (accept_ok rc tasks (mk_tmsg x (tasks_of x tl)) m gx Hst Hrc) as (m' & gx' & Ea & Sm & Tm & Lx); [|done|].
  - cbn. unfold len, tasks_of in *. pose proof (length_filter (fun t => tk_export t = x) tl). lia.
  - exists m', gx'. split; [by apply sent_one|]. split; [exact Ea|]. split; [exact Sm|]. split; [exact Tm|exact Lx].
Qed.

(** C25: [drc_remaster_wait_all_node_ready] ends.  It returns in the first
    round in which every instance is in the status, or the remaster has
    failed, or the time is over, after no more than one round for every five
    milliseconds of its time and two; it is successful exactly when every
    instance is in the status in that round. *)
Theorem remaster_wait_ends : forall after leave st timeout info local,
  0 <= timeout -> (forall r x, x ∈ after ++ leave -> is_Some (info r !! x)) ->
  exists k, drc_remaster_wait_all_node_ready (Z.to_nat (timeout / REMASTER_SLEEP_INTERVAL) + 2) timeout after leave st info local =
      Ok (Some (if decide (ready (after ++ leave) st (info k)) then OG_SUCCESS else OG_ERROR)) /\
    decides after leave st timeout info local (REMASTER_SLEEP_INTERVAL * Z.of_nat k) k /\
    forall j, (j < k)%nat -> ~ decides after leave st timeout info local (REMASTER_SLEEP_INTERVAL * Z.of_nat j) j.
Proof.
  intros after leave st timeout info local Ht Hd.
  destruct (wait_ready_ends after leave st timeout info local Hd (S (Z.to_nat (timeout / REMASTER_SLEEP_INTERVAL))) 0 0) as (k & E & Hk & Hj).
  { unfold REMASTER_SLEEP_INTERVAL. pose proof (Z.div_pos timeout 5 Ht ltac:(lia)). pose proof (Z.mod_pos_bound timeout 5 ltac:(lia)).
    pose proof (Z.div_mod timeout 5 ltac:(lia)). lia. }
  exists k. unfold drc_remaster_wait_all_node_ready. rewrite Nat.add_comm. split; [exact E|]. split; [exact Hk|exact Hj].
Qed.

(** [drc_remaster_wait_migrate_finish] ends, after no more rounds than
    there are tasks and five-millisecond steps in its time and two.  It is
    successful only when every task for this instance was found complete,
    and fails only with a task for it that was found incomplete, or with the
    remaster failed. *)
Theorem remaster_finish_ends : forall timeout self tasks local,
  0 <= timeout -> (forall r j, 0 <= j < DRC_MAX_PART_NUM -> is_Some (tasks r !! j)) ->
  exists b, drc_remaster_wait_migrate_finish (Z.to_nat (DRC_MAX_PART_NUM + timeout / REMASTER_SLEEP_INTERVAL) + 2) timeout self tasks local = Ok (Some b) /\
    finish_says self tasks local 0 b.
Proof.
  intros timeout self tasks local Ht Hd. unfold drc_remaster_wait_migrate_finish. rewrite Nat.add_comm.
  unfold REMASTER_SLEEP_INTERVAL. pose proof (Z.div_pos timeout 5 Ht ltac:(lia)). pose proof (Z.mod_pos_bound timeout 5 ltac:(lia)).
  pose proof (Z.div_mod timeout 5 ltac:(lia)). apply finish_loop_ends; [done|unfold DRC_MAX_PART_NUM; lia| |]; unfold REMASTER_SLEEP_INTERVAL, DRC_MAX_PART_NUM in *; lia.
Qed.

(** ** Examples *)

(** An instance after its last reform, and one whose thread starts. *)
Definition idle_node (m : drc_part_mngr) : node :=
  drc_reset_remaster_info
    (mk_node m (mk_rmngr (filled OG_MAX_INSTANCES 0) (filled OG_MAX_INSTANCES 0) (filled DRC_MAX_PART_NUM (mk_task 0 0 0 PART_INIT)) 0 0 0)
       false 0 REMASTER_DONE true drc_deposit_map_init).
Definition start_node (before version : Z) (r : reform_info) (x : Z) (m : drc_part_mngr) : node :=
  nd_set_run (x =? ri_master r) false (drc_start_remaster before r OG_SUCCESS (dtc_remaster_init version (idle_node m))).

(** The manager of an instance whose thread starts. *)
Lemma start_part before version r x m : before <> 0 -> before <> 1 ->
  nd_part (start_node before version r x m) =
    mk_mngr (pm_version m) (pm_inited m) (pm_inst_num m) REMASTER_PREPARE true (ri_master r) (pm_mgrt_fail_list m) (part_map m) (inst_part_tbl m)
      (target_part_map m) (target_inst_part_tbl m) (filled DRC_MAX_PART_NUM (mk_task 0 0 0 PART_INIT)) 0 (part_map m) (inst_part_tbl m).
Proof.
  intros H0 H1. unfold start_node, drc_start_remaster. replace (before =? 0) with false by lia. replace (before =? 1) with false by lia. reflexivity.
Qed.

Lemma start_tmp before version r x m : before <> 0 -> before <> 1 ->
  tmp_part_map (nd_part (start_node before version r x m)) = part_map (nd_part (start_node before version r x m)) /\
  tmp_inst_part_tbl (nd_part (start_node before version r x m)) = inst_part_tbl (nd_part (start_node before version r x m)).
Proof. intros H0 H1. by rewrite start_part. Qed.

(** A reform that may start from the manager may start from the instance. *)
Lemma start_reform before version r x m ls n join leave : before <> 0 -> before <> 1 ->
  balanced (part_map m) (inst_part_tbl m) ls n -> pm_inst_num m = n -> NoDup (join ++ leave) -> Forall is_inst (join ++ leave) ->
  (forall y, y ∈ join -> used_of (inst_part_tbl m) y = false) -> (forall y, y ∈ leave -> used_of (inst_part_tbl m) y = true) ->
  len leave < n + len join -> can_reform (nd_part (start_node before version r x m)) ls n join leave.
Proof.
  intros H0 H1 B Hn Hd Hi Hj Hl Hr. rewrite start_part by done. split; cbn; try done.
  intros j Hjr. rewrite filled_lookup by done. by eexists.
Qed.

(** Two instances: a reform in which nobody joins or leaves. *)
Definition pair_mngr : drc_part_mngr := match drc_part_init [0; 1] 2 zero_mngr with Ok m => m | Crash _ => zero_mngr end.
Definition pair_info : reform_info := mk_rinfo (mk_rlists [] [] [] []) [0; 1] 0.
Definition pair_start : net :=
  mk_net (fun x => start_node 2 7 pair_info x pair_mngr) [] ∅ PubIdle.
Definition pair_schedule : list action :=
  [ARound 0 fine_calls; ARound 1 fine_calls; AReport 0 1; ARound 0 fine_calls; ATask 1 1 7 (mk_tmsg 1 []); ARound 1 fine_calls;
   ARound 1 fine_calls; ARound 0 fine_calls; ARound 0 fine_calls; AReport 2 1; APublish; ATarget 1 3 1; AParts; ADone 1 5 1; AEnd].

Lemma pair_ascending : ascending [0; 1].
Proof.
  intros a b x y Ha Hb Hab. assert (a < 2)%nat by (by apply lookup_lt_Some in Ha). assert (b < 2)%nat by (by apply lookup_lt_Some in Hb).
  destruct a as [|[|]], b as [|[|]]; simplify_eq/=; lia.
Qed.

Lemma pair_init : net_init pair_info 7 pair_start.
Proof.
  split; try done.
  - intros x _. change ((x =? 0) = bool_decide (x = 0)). by destruct (Z.eqb_spec x 0); [rewrite bool_decide_true|rewrite bool_decide_false].
  - intros x Hk. by apply (filled_dom OG_MAX_INSTANCES) in Hk.
  - apply list_elem_of_here.
  - by intros k ?%not_elem_of_nil.
Qed.

Lemma pair_run : exists s, rtc (net_step false pair_info 7) pair_start s /\
  nd_status (nodes s 0) = REMASTER_DONE /\ nd_status (nodes s 1) = REMASTER_DONE.
Proof.
  assert (match acts false pair_info 7 pair_schedule pair_start with
          | Some s => (nd_status (nodes s 0) =? REMASTER_DONE) && (nd_status (nodes s 1) =? REMASTER_DONE) | None => false end = true) as H
    by (vm_compute; reflexivity).
  destruct (acts false pair_info 7 pair_schedule pair_start) as [s|] eqn:E; [|discriminate]. exists s. split; [by eapply acts_ok|]. lia.
Qed.

Lemma pair_member : 0 ∈ members pair_info /\ 1 ∈ members pair_info.
Proof. split; by apply (bool_decide_unpack _). Qed.

Lemma remaster_agreement_witness : exists s, rtc (net_step false pair_info 7) pair_start s /\
  part_map (nd_part (nodes s 0)) = part_map (nd_part (nodes s 1)) /\ TaskAckMsg 1 OG_SUCCESS 7 ∈ pool s.
Proof.
  destruct pair_run as (s & R & D0 & D1), pair_member as [M0 M1].
  destruct (remaster_agreement false pair_info 7 pair_start s 0 1 pair_init R M0 M1 D0 D1) as (E & _ & A).
  exists s. split; [exact R|]. split; [exact E|]. apply A; [exact M1|discriminate].
Defined.

Lemma remaster_forward_witness : exists s, rtc (net_step false pair_info 7) pair_start s /\
  nd_status (nodes pair_start 1) <= nd_status (nodes s 1) <= REMASTER_FAIL.
Proof.
  destruct pair_run as (s & R & _), pair_member as [_ M1]. exists s. split; [exact R|].
  exact (remaster_forward false pair_info 7 pair_start pair_start s 1 pair_init (rtc_refl _ _) R M1).
Defined.

Lemma pair_reform : exists ls, can_reform (nd_part (nodes pair_start 0)) ls 2 [] [] /\ pm_mgrt_fail_list (nd_part (nodes pair_start 0)) = false.
Proof.
  assert (Forall is_inst [0; 1]) as FI by (repeat constructor; unfold is_inst, OG_MAX_INSTANCES; lia).
  destruct (part_init_ok [0; 1] zero_mngr fresh_zero ltac:(discriminate) pair_ascending FI) as (m' & E & B & U & _ & _ & Hn & Hs).
  destruct (part_init_rest _ _ _ _ E) as [Ht Hf]; [discriminate|reflexivity|].
  assert (pair_mngr = m') as Em by (unfold pair_mngr; change 2 with (len [0; 1]); by rewrite E).
  change (len [0; 1]) with 2 in B, Hn. exists (init_list [0; 1] 2 DRC_MAX_PART_NUM).
  change (nodes pair_start 0) with (start_node 2 7 pair_info 0 pair_mngr). rewrite Em.
  split; [|rewrite start_part by lia; exact Hf].
  assert (forall b y, y ∈ [] -> used_of (inst_part_tbl m') y = b) as Hno by (intros b y Hy; exfalso; exact (not_elem_of_nil y Hy)).
  refine (start_reform 2 7 pair_info 0 m' _ 2 [] [] ltac:(lia) ltac:(lia) B Hn _ _ (Hno _) (Hno _) ltac:(lia)); constructor.
Qed.

Lemma remaster_even_witness : exists s, rtc (net_step false pair_info 7) pair_start s /\
  even_target (nd_part (nodes pair_start 0)) 2 pair_info (part_map (nd_part (nodes s 1))) (inst_part_tbl (nd_part (nodes s 1))).
Proof.
  destruct pair_run as (s & R & _ & D1), pair_member as [_ M1], pair_reform as (ls & C & F). exists s. split; [exact R|].
  exact (remaster_even pair_info 7 pair_start s 1 ls 2 pair_init C (or_introl F) R M1 D1).
Defined.

Definition wholeb (pm : gmap Z drc_part) : bool := forallb (fun p => bool_decide (is_Some (pm !! p))) (seqZ 0 DRC_MAX_PART_NUM).

Lemma wholeb_ok pm : wholeb pm = true -> whole pm.
Proof.
  unfold wholeb. rewrite forallb_forall. intros H p Hp. specialize (H p). rewrite <- list_elem_of_In, elem_of_seqZ in H.
  specialize (H ltac:(lia)). by apply bool_decide_eq_true in H.
Qed.

Lemma pair_tmp : whole (target_part_map (nd_part (nodes pair_start 0))) /\
  tmp_part_map (nd_part (nodes pair_start 0)) = part_map (nd_part (nodes pair_start 0)) /\
  tmp_inst_part_tbl (nd_part (nodes pair_start 0)) = inst_part_tbl (nd_part (nodes pair_start 0)).
Proof.
  split; [apply wholeb_ok; vm_compute; reflexivity|]. exact (start_tmp 2 7 pair_info 0 pair_mngr ltac:(lia) ltac:(lia)).
Qed.

(** The same reform up to the point where the reformer publishes. *)
Lemma pair_half : exists s, rtc (net_step false pair_info 7) pair_start s /\ nd_status (nodes s 0) = REMASTER_PUBLISH /\ fin (nodes s 0).
Proof.
  assert (match acts false pair_info 7 (take 11 pair_schedule) pair_start with
          | Some s => (nd_status (nodes s 0) =? REMASTER_PUBLISH) && ((REMASTER_ASSIGN_TASK <=? nd_finish (nodes s 0)) && (nd_finish (nodes s 0) <=? REMASTER_DONE))
          | None => false end = true) as H by (vm_compute; reflexivity).
  destruct (acts false pair_info 7 (take 11 pair_schedule) pair_start) as [s|] eqn:E; [|discriminate]. exists s. split; [by eapply acts_ok|].
  unfold fin. lia.
Qed.

Lemma remaster_stop_witness : exists s freed n', rtc (net_step false pair_info 7) pair_start s /\ nd_status (nodes s 0) = REMASTER_PUBLISH /\
  drc_stop_remaster 0 2 true (nodes s 0) = Ok (Some (freed, n')) /\ part_map (nd_part n') = part_map (nd_part (nodes pair_start 0)).
Proof.
  destruct pair_half as (s & R & D & _), pair_reform as (ls & C & F), pair_tmp as (W & T1 & T2).
  destruct (remaster_stop pair_info 7 pair_start s ls 2 2 pair_init C (or_introl F) W T1 T2 R) as (freed & n' & E & _ & P & _).
  exists s, freed, n'. split; [exact R|]. split; [exact D|]. split; [exact E|exact P].
Defined.

(** Three instances, a fourth joins: the thread of the reformer. *)
Definition join_info : reform_info := mk_rinfo (mk_rlists [3] [] [] []) [0; 1; 2; 3] 0.

Definition fresh_rmngr (version : Z) : drc_remaster_mngr :=
  mk_rmngr (filled OG_MAX_INSTANCES 0) (filled OG_MAX_INSTANCES 0) (filled DRC_MAX_PART_NUM (mk_task 0 0 0 PART_INIT)) 0 0 version.

Lemma fresh_locals version : locals (fresh_rmngr version) [].
Proof.
  split; [reflexivity|by intros i t ?|]. intros j Hj. cbn [fresh_rmngr local_task_set]. rewrite filled_lookup by exact Hj. by eexists.
Qed.

Lemma start_can_run before version r m ls n : before <> 0 -> before <> 1 -> is_inst (ri_master r) -> none_removed m (rl_abort (ri_lists r)) (rl_fail (ri_lists r)) ->
  can_reform (nd_part (start_node before version r (ri_master r) m)) ls n (rl_join (ri_lists r)) (rl_leave (ri_lists r)) ->
  can_run r (ri_master r) ls n
    (nd_set_run (ri_master r =? ri_master r) false (start_node before version r (ri_master r) m)).
Proof.
  intros H0 H1 Hi Hf C. set (s := start_node before version r (ri_master r) m) in *.
  assert (nd_rem s = fresh_rmngr version /\ nd_complete s = 0 /\ nd_deposit s = drc_deposit_map_init) as (Er & Ec & Ed).
  { unfold s, start_node, drc_start_remaster. replace (before =? 0) with false by lia. replace (before =? 1) with false by lia. split; [reflexivity|split; reflexivity]. }
  split; cbn [nd_set_run nd_part nd_rem nd_is_master nd_complete nd_deposit].
  - unfold s. by rewrite start_part.
  - exact C.
  - unfold s, none_removed. by rewrite start_part.
  - apply Z.eqb_refl.
  - rewrite Er. cbn [fresh_rmngr rg_set_complete rg_status]. rewrite filled_lookup by exact Hi. by eexists.
  - intros x Hx. rewrite Er. cbn [fresh_rmngr rg_set_complete rg_task_num]. by rewrite filled_lookup.
  - rewrite Er. apply fresh_locals.
  - exact Ec.
  - intros x Hx. rewrite Ed. unfold drc_deposit_map_init. exists x. apply elem_of_list_to_map_1.
    + rewrite <- list_fmap_compose. change (fst ∘ (fun i : Z => (i, i))) with (fun i : Z => i). rewrite list_fmap_id. apply NoDup_seqZ.
    + apply list_elem_of_fmap. exists x. split; [done|]. apply elem_of_seqZ. unfold is_inst in Hx. lia.
Qed.

Lemma three_joins m : (forall x, is_inst x -> used_of (inst_part_tbl m) x = bool_decide (x ∈ [0; 1; 2])) ->
  forall y, y ∈ [3] -> used_of (inst_part_tbl m) y = false.
Proof. intros U y ->%list_elem_of_singleton. rewrite U by (unfold is_inst, OG_MAX_INSTANCES; lia). reflexivity. Qed.

Lemma remaster_completes_witness : exists ms n' ls',
  drc_remaster_proc join_info 0 (replicate 5 fine_calls) (start_node 3 7 join_info 0 demo_mngr) = Ok (ms, n') /\
  nd_status n' = REMASTER_DONE /\ nd_finish n' = REMASTER_DONE /\ balanced (part_map (nd_part n')) (inst_part_tbl (nd_part n')) ls' 4.
Proof.
  destruct demo_balanced as (Hn & B & U), demo_rest as [D F].
  refine (remaster_completes join_info 0 (init_list [0; 1; 2] 3 DRC_MAX_PART_NUM) 3 (start_node 3 7 join_info 0 demo_mngr) _ _ _).
  - split; [unfold is_inst, OG_MAX_INSTANCES; lia|by apply (bool_decide_unpack _)| |]; repeat constructor; unfold is_inst, OG_MAX_INSTANCES; lia.
  - apply (start_can_run 3 7 join_info demo_mngr); [lia|lia|unfold is_inst, OG_MAX_INSTANCES; cbn; lia|left; exact F|].
    apply start_reform; [lia|lia|exact B|exact Hn|repeat constructor; apply not_elem_of_nil|repeat constructor; unfold is_inst, OG_MAX_INSTANCES; lia| | |vm_compute; reflexivity].
    + exact (three_joins demo_mngr U).
    + intros y Hy. exfalso. exact (not_elem_of_nil y Hy).
  - unfold nd_status. rewrite start_part by lia. reflexivity.
Defined.

(** Two instances have to export; a third has no tasks. *)
Definition demo_task (export part : Z) : drc_remaster_task := mk_task export 3 part PART_WAIT_MIGRATE.
Definition demo_tasks : list drc_remaster_task := [demo_task 1 4; demo_task 1 6; demo_task 0 8].

Lemma demo_tasks_are : tasks_are (list_to_map (zip (seqZ 0 3) demo_tasks)) 0 demo_tasks.
Proof. unfold demo_tasks. rewrite !tasks_are_cons. split; [reflexivity|]. split; [reflexivity|]. split; [reflexivity|]. by intros i t ?. Qed.

Lemma remaster_assign_witness : exists sent g' msg,
  drc_assign_remaster_task (fun _ => OG_SUCCESS) 0 [0; 1; 2; 3] [] (list_to_map (zip (seqZ 0 3) demo_tasks)) 3 (fresh_rmngr 7) = Ok (OG_SUCCESS, sent, g') /\
  locals g' [demo_task 0 8] /\ msgs_to 1 sent = [msg] /\ exists m' gx',
    drc_accept_remaster_task true REFORM_FROZEN 7 (list_to_map (zip (seqZ 0 3) demo_tasks)) msg
      (drc_update_remaster_local_status REMASTER_ASSIGN_TASK zero_mngr) (fresh_rmngr 7) = Ok (true, m', gx') /\
    locals gx' [demo_task 1 4; demo_task 1 6].
Proof.
  destruct (remaster_assign 0 (list_to_map (zip (seqZ 0 3) demo_tasks)) demo_tasks [0; 1; 2; 3] [] (fresh_rmngr 7)) as (sent & g' & E & L & A).
  - exact demo_tasks_are.
  - vm_compute. discriminate.
  - repeat constructor; unfold is_inst, OG_MAX_INSTANCES; cbn; lia.
  - by apply (bool_decide_unpack _).
  - repeat constructor; unfold is_inst, OG_MAX_INSTANCES; lia.
  - by apply (bool_decide_unpack _).
  - unfold is_inst, OG_MAX_INSTANCES. lia.
  - intros x Hx. unfold fresh_rmngr. cbn [rg_task_num]. by apply filled_lookup.
  - apply fresh_locals.
  - destruct (A 1 REFORM_FROZEN (drc_update_remaster_local_status REMASTER_ASSIGN_TASK zero_mngr) (fresh_rmngr 7)) as (msg & m' & gx' & M & Ea & _ & _ & Lx).
    + by apply (bool_decide_unpack _).
    + discriminate.
    + reflexivity.
    + unfold REFORM_FROZEN, REFORM_RECOVER_DONE. lia.
    + apply (fresh_locals 7).
    + exists sent, g', msg. split; [exact E|]. split; [exact L|]. split; [exact M|]. exists m', gx'. split; [exact Ea|exact Lx].
Defined.

(** The second of two instances gets ready in the third round. *)
Definition late_info (r : nat) : gmap Z Z := {[0 := REMASTER_PUBLISH; 1 := if decide (r < 2)%nat then REMASTER_RECOVERY else REMASTER_PUBLISH]}.

Lemma remaster_wait_ends_witness : exists k,
  drc_remaster_wait_all_node_ready 22 100 [0; 1] [] REMASTER_PUBLISH late_info (fun _ => REMASTER_PUBLISH) =
    Ok (Some (if decide (ready ([0; 1] ++ []) REMASTER_PUBLISH (late_info k)) then OG_SUCCESS else OG_ERROR)) /\
  decides [0; 1] [] REMASTER_PUBLISH 100 late_info (fun _ => REMASTER_PUBLISH) (REMASTER_SLEEP_INTERVAL * Z.of_nat k) k.
Proof.
  destruct (remaster_wait_ends [0; 1] [] REMASTER_PUBLISH 100 late_info (fun _ => REMASTER_PUBLISH)) as (k & E & D & _).
  - lia.
  - intros r x Hx. cbn in Hx. apply elem_of_cons in Hx as [-> | ->%list_elem_of_singleton]; by eexists.
  - exists k. split; [exact E|exact D].
Defined.

Lemma remaster_finish_ends_witness : exists b,
  drc_remaster_wait_migrate_finish 1046 100 3 (fun _ => filled DRC_MAX_PART_NUM (demo_task 1 4)) (fun _ => REMASTER_MIGRATE) = Ok (Some b) /\
  finish_says 3 (fun _ => filled DRC_MAX_PART_NUM (demo_task 1 4)) (fun _ => REMASTER_MIGRATE) 0 b.
Proof.
  destruct (remaster_finish_ends 100 3 (fun _ => filled DRC_MAX_PART_NUM (demo_task 1 4)) (fun _ => REMASTER_MIGRATE)) as (b & E & D).
  - lia.
  - intros r j Hj. rewrite filled_lookup by exact Hj. by eexists.
  - exists b. split; [exact E|exact D].
Defined.

(** ** Where the tasks, the target and the cleaning go wrong *)

(** Instance 3 joins and instance 1 leaves in one reform: the messages that
    instance 1 gets, the number of local tasks that it counts and how many of
    them wait for their migration, and what its migration comes to. *)
Definition two_runs : outcome (list Z * Z * Z * bool) :=
  '(_, m) ← execute_rebalance false (mk_rlists [3] [1] [] []) demo_mngr;
  '(_, sent, _) ← drc_assign_remaster_task (fun _ => OG_SUCCESS) 0 [0; 2; 3] [1] (remaster_task_set m) (task_num m) (fresh_rmngr 7);
  match msgs_to 1 sent with
  | [a; b] =>
      '(_, m1, g1) ← drc_accept_remaster_task true REFORM_FROZEN 7 (remaster_task_set m) a (drc_update_remaster_local_status REMASTER_ASSIGN_TASK demo_mngr) (fresh_rmngr 7);
      '(_, m2, g2) ← drc_accept_remaster_task true REFORM_FROZEN 7 (remaster_task_set m) b m1 g1;
      Ok ((fun t => len (tm_tasks t)) <$> [a; b], local_task_num g2,
          len (filter (fun j => tk_status <$> (local_task_set g2 !! j) = Some PART_WAIT_MIGRATE) (seqZ 0 DRC_MAX_PART_NUM)),
          match drc_remaster_migrate (fun _ => OG_SUCCESS) (fun _ => false) (fun _ => OG_SUCCESS)
                  (mk_node m2 g2 false 0 REMASTER_DONE false drc_deposit_map_init) with Ok _ => true | Crash _ => false end)
  | _ => Crash Panic
  end.

(** An instance whose tasks are in two runs gets two messages, and the second
    only sets the number of its tasks: the tasks of the first are counted as
    the second's, and the migration runs into the check of a task that was
    never assigned. *)
Theorem remaster_two_runs : two_runs = Ok ([85; 256], 256, 85, false).
Proof. vm_compute. reflexivity. Qed.

(** The message with the tasks carries the target, but an instance that takes
    it keeps its own target, which [drc_get_page_remaster_id] and the freeing
    of the resources that came in read. *)
Theorem follower_target_stale : forall size_ok rc_status version all msg n acked n',
  handle_task size_ok rc_status version all msg n = Ok (acked, n') ->
  target_part_map (nd_part n') = target_part_map (nd_part n) /\ target_inst_part_tbl (nd_part n') = target_inst_part_tbl (nd_part n).
Proof.
  intros size_ok rc_status version all msg n acked n' E. unfold handle_task in E. apply bind_inv in E as ([[a m] g] & E & [= <- <-]).
  cbn [nd_part nd_set_rem nd_map_part]. unfold drc_accept_remaster_task in E. destruct size_ok; cbn [negb] in E; [|by injection E as _ <- _].
  case_bool_decide; [by injection E as _ <- _|]. destruct (negb _); [by injection E as _ <- _|].
  apply bind_inv in E as (k & _ & [= _ <- _]). cbn. unfold drc_update_remaster_local_status. by destruct (_ =? REMASTER_FAIL).
Qed.

Lemma clean_all_rem insts clean : forall n ret n', clean_all insts clean n = (ret, n') -> nd_rem n' = nd_rem n /\ nd_complete n' = nd_complete n.
Proof.
  induction insts as [|x insts IH]; intros n ret n' E; cbn in E; [by injection E as _ <-|]. case_bool_decide; [by injection E as _ <-|by eapply IH].
Qed.

(** An instance without tasks goes on when the threads that clean the
    resources of the instances that are gone could not be created: the step
    is successful. *)
Theorem migrate_ignores_cleaning : forall r self finished clean created seen blk sent n,
  self ∉ rl_join (ri_lists r) -> self ∉ rl_leave (ri_lists r) -> local_task_num (nd_rem n) = 0 -> nd_complete n = 0 ->
  exists n', drc_remaster_step_migrate r self finished clean created seen blk sent n = Ok (OG_SUCCESS, [], n').
Proof.
  intros r self finished clean created seen blk sent n Hj Hl H0 Hc. unfold drc_remaster_step_migrate.
  rewrite !bool_decide_false by done. destruct (drc_remaster_migrate_clean_res_owner r clean n) as [s n1] eqn:E.
  assert (nd_rem n1 = nd_rem n /\ nd_complete n1 = nd_complete n) as [Er Ec].
  { unfold drc_remaster_migrate_clean_res_owner in E. destruct (clean_all _ clean n) as [s0 n0] eqn:E0. apply clean_all_rem in E0 as [R0 C0].
    case_bool_decide; [by injection E as _ <-|]. apply clean_all_rem in E as [R1 C1]. split; congruence. }
  unfold drc_remaster_migrate. rewrite Er, H0. cbn [Z.eqb mbind outcome_bind]. rewrite Er, Ec, H0, Hc. rewrite bool_decide_false by done.
  by eexists.
Qed.
