(* ===== verification/DrcBaseProps.v ===== *)
(** The containers of the catalogue are correct: item pools, hash maps,
    partition lists and convert queues, each run on a small pool. *)

From S2P Require Import Prelude DrcBitmap DrcPool DrcResMap DrcList DrcGlobalRes DrcQueue DrcTable DrcReform.

(** A pool of four request items. *)
Definition demo_pool : drc_res_pool drc_lock_item :=
  match drc_res_pool_init true 64 4 (mk_pool false 0 0 0 0 ∅) with Ok (_, p) => p | Crash _ => mk_pool false 0 0 0 0 ∅ end.

Lemma demo_pool_wf : pool_wf demo_pool ∅ /\ item_num demo_pool = 4.
Proof.
  destruct (pool_init_wf (A := drc_lock_item) (mk_pool false 0 0 0 0 ∅) 64 4) as (p & E & W & Hn & _); try done.
  unfold demo_pool. by rewrite E.
Qed.

(** ** Item pools *)

(** Allocating from a well-formed pool fails exactly when every slot is
    used, and then changes nothing; otherwise it returns a slot that was
    free, marks it used, and does not touch the items. *)
Theorem pool_alloc {A} `{PoolItem A} (p : drc_res_pool A) U :
  pool_wf p U ->
  (Z.of_nat (size U) = item_num p /\ drc_res_pool_alloc_item p = Ok (OG_INVALID_ID32, p)) \/
  (Z.of_nat (size U) < item_num p /\
   exists i p', drc_res_pool_alloc_item p = Ok (i, p') /\ i ∉ U /\ 0 <= i < item_num p /\ pool_wf p' ({[i]} ∪ U) /\
     addr p' = addr p).
Proof.
  intros W. pose proof (pool_wf_size _ _ W) as Hs. destruct (decide (Z.of_nat (size U) < item_num p)) as [Hlt|Hge].
  - right. split; [done|]. destruct (alloc_item_some p U W (slots_not_full _ _ W Hlt)) as (i & p' & ? & ? & ? & ? & ? & _).
    by exists i, p'.
  - left. split; [lia|]. apply (alloc_item_full _ U W). apply set_subseteq_size_eq; [apply W|].
    apply Nat2Z.inj_le. rewrite size_slots; [lia|]. pose proof (pw_num _ _ W). lia.
Qed.

Lemma pool_alloc_witness : exists i p', drc_res_pool_alloc_item demo_pool = Ok (i, p') /\ i ∉ (∅ : gset Z) /\ pool_wf p' ({[i]} ∪ ∅).
Proof.
  destruct demo_pool_wf as [W Hn]. destruct (pool_alloc demo_pool ∅ W) as [[Hf _]|(_ & i & p' & E & Hi & _ & W' & _)].
  - exfalso. rewrite Hn, size_empty in Hf. discriminate Hf.
  - exists i, p'. split; [exact E|]. split; [exact Hi|exact W'].
Defined.

(** Freeing a used slot makes it the next one to be allocated, and
    leaves the other items alone. *)
Theorem pool_free_alloc {A} `{PoolItem A} (p : drc_res_pool A) U i :
  pool_wf p U -> i ∈ U ->
  exists p', drc_res_pool_free_item p i = Ok p' /\ pool_wf p' (U ∖ {[i]}) /\
    (forall j, j <> i -> addr p' !! j = addr p !! j) /\
    exists p'', drc_res_pool_alloc_item p' = Ok (i, p'') /\ pool_wf p'' ({[i]} ∪ (U ∖ {[i]})).
Proof.
  intros W Hi. destruct (free_item_ok p U i W Hi) as (p' & E & W' & Hn & _ & Ho & _). exists p'. split_and!; try done.
  assert (U ∖ {[i]} <> slots (item_num p')) as Hne.
  { intros Heq. assert (i ∈ slots (item_num p')) as Hs by (rewrite Hn; by apply (pw_sub _ _ W)). rewrite <- Heq in Hs. set_solver. }
  destruct (alloc_item_some p' _ W' Hne) as (j & p'' & Ea & _ & _ & W'' & _). assert (j = i) as ->; [|by eauto].
  unfold drc_res_pool_free_item in E. rewrite (pw_inited _ _ W) in E. cbn [negb] in E.
  destruct (store_next p i (free_list p)) as [q|]; [|done]. cbn in E. injection E as <-.
  pose proof (pool_wf_range _ _ _ W Hi) as Hr. pose proof (pw_num _ _ W) as Hnum.
  pose proof (pw_inited _ _ W') as Hq. cbn in Hq. unfold drc_res_pool_alloc_item in Ea. cbn in Ea. rewrite Hq in Ea. cbn in Ea.
  destruct (Z.eqb_spec i OG_INVALID_ID32); [lia|]. destruct (load _ i); [|done]. cbn in Ea. by injection Ea as <- _.
Qed.

Lemma pool_free_alloc_witness : exists i p1 p' p'', drc_res_pool_alloc_item demo_pool = Ok (i, p1) /\
  drc_res_pool_free_item p1 i = Ok p' /\ drc_res_pool_alloc_item p' = Ok (i, p'').
Proof.
  destruct demo_pool_wf as [W Hn]. destruct (alloc_item_some demo_pool ∅ W) as (i & p1 & E & _ & _ & W1 & _).
  - apply slots_not_full; [exact W|]. rewrite Hn, size_empty. lia.
  - destruct (pool_free_alloc p1 _ i W1) as (p' & E' & _ & _ & p'' & E'' & _); [set_solver|].
    exists i, p1, p', p''. split; [exact E|]. split; [exact E'|exact E''].
Defined.

(** A batch of [num] slots is allocated exactly when [num] slots are
    left; the slots are distinct and were free.  A batch that is too large
    takes nothing. *)
Theorem pool_alloc_batch {A} `{PoolItem A} (p : drc_res_pool A) U num :
  pool_wf p U -> 0 < num < 2 ^ 31 -> item_num p < 2 ^ 31 ->
  if Z.of_nat (size U) + num <=? item_num p then
    exists ids p', drc_res_pool_alloc_batch_item p num = Ok (OG_SUCCESS, ids, p') /\ Z.of_nat (length ids) = num /\
      NoDup ids /\ (forall i, i ∈ ids -> i ∉ U) /\ pool_wf p' (list_to_set ids ∪ U)
  else drc_res_pool_alloc_batch_item p num = Ok (OG_ERROR, [], p).
Proof.
  intros W Hnum Hitem. pose proof (pool_wf_size _ _ W) as Hs. unfold drc_res_pool_alloc_batch_item.
  rewrite (pw_inited _ _ W), (pw_used _ _ W). cbn [negb].
  assert (u32 (Z.of_nat (size U) + num) = Z.of_nat (size U) + num) as -> by (unfold u32; apply Z.mod_small; lia).
  destruct (Z.leb_spec (Z.of_nat (size U) + num) (item_num p)) as [Hle|Hgt].
  - rewrite (proj2 (Z.ltb_ge _ _)), (proj2 (Z.ltb_ge _ _)) by lia. cbn [orb].
    destruct (alloc_item_some p U W) as (i & p1 & E1 & _ & Hi & _); [apply slots_not_full; [done|lia]|].
    assert (free_list p <> OG_INVALID_ID32) as Hfl.
    { intros Hz. unfold drc_res_pool_alloc_item in E1. rewrite (pw_inited _ _ W), Hz, Z.eqb_refl in E1. cbn in E1.
      injection E1 as <- _. pose proof (pw_num _ _ W). lia. }
    rewrite (proj2 (Z.eqb_neq _ _) Hfl).
    destruct (alloc_batch_loop_ok (Z.to_nat num) p U [] W) as (ids & p' & E & Hl & Hnd & Hin & W' & _); [lia|].
    cbn [rev app] in E. rewrite E. cbn [mbind outcome_bind]. exists ids, p'. split_and!; try done. lia.
  - destruct (Z.ltb_spec (item_num p) num); cbn [orb]; [done|]. by rewrite (proj2 (Z.ltb_lt _ _)) by lia.
Qed.

Lemma pool_alloc_batch_witness : exists ids p', drc_res_pool_alloc_batch_item demo_pool 3 = Ok (OG_SUCCESS, ids, p') /\
  Z.of_nat (length ids) = 3 /\ NoDup ids.
Proof.
  destruct demo_pool_wf as [W Hn]. pose proof (pool_alloc_batch demo_pool ∅ 3 W) as H.
  rewrite Hn, size_empty in H. destruct H as (ids & p' & E & Hl & Hnd & _); [lia|lia|].
  exists ids, p'. split; [exact E|]. split; [exact Hl|exact Hnd].
Defined.

(** ** Convert queues *)

(** A request put in a queue waits behind those already there and is
    refused, with nothing changed, only when the pool has no item left; taken
    in their turn the requests come out in the order they came in, each item
    going back to the pool; the items of the other queues are not touched. *)
Theorem queue_fifo E l p q f rs r :
  queue_rel E l p q f rs ->
  (f = 0 -> lq_enqueue p q r = Ok None) /\
  (f <> 0 -> exists l' p' q', lq_enqueue p q r = Ok (Some (p', q')) /\ queue_rel E l' p' q' (f - 1) (rs ++ [r]) /\ kept E p p') /\
  match rs with
  | [] => lst_count q = 0
  | x :: rs' => lq_read p (lst_first q) = Ok x /\
      exists l' q' p', lq_unlink p q = Ok q' /\ drc_res_pool_free_item p (lst_first q) = Ok p' /\
        queue_rel E l' p' q' (f + 1) rs' /\ kept E p p'
  end.
Proof.
  intros R. split; [by eapply q_enqueue_full|]. split; [intros Hf; by eapply q_enqueue_sim|].
  destruct rs as [|x rs']; [by apply (q_count_sim _ _ _ _ _ _ R)|]. split; [by apply (q_read_sim _ _ _ _ _ _ _ R)|].
  by eapply q_pop_sim.
Qed.

Definition demo_r (inst : Z) : drc_req_info := mk_req inst DRC_LOCK_SHARE DRC_LOCK_NULL 0 10 1 100 5 0 0.

Lemma demo_queue_rel : queue_rel ∅ [] demo_pool DRC_LIST_INIT 4 [].
Proof.
  destruct demo_pool_wf as [W Hn]. split.
  - apply NoDup_nil_2.
  - intros j Hj. by apply not_elem_of_nil in Hj.
  - cbn. by rewrite union_empty_r_L.
  - apply queue_repr_init.
  - cbn. by rewrite union_empty_r_L, Hn, size_empty.
Qed.

Lemma queue_fifo_witness : exists l1 p1 q1 l2 p2 q2 p3 q3, lq_enqueue demo_pool DRC_LIST_INIT (demo_r 1) = Ok (Some (p1, q1)) /\
  lq_enqueue p1 q1 (demo_r 2) = Ok (Some (p2, q2)) /\ queue_rel ∅ l1 p1 q1 3 [demo_r 1] /\
  queue_rel ∅ l2 p2 q2 2 [demo_r 1; demo_r 2] /\ lq_read p2 (lst_first q2) = Ok (demo_r 1) /\
  lq_unlink p2 q2 = Ok q3 /\ drc_res_pool_free_item p2 (lst_first q2) = Ok p3 /\ lq_read p3 (lst_first q3) = Ok (demo_r 2).
Proof.
  destruct (queue_fifo ∅ [] demo_pool DRC_LIST_INIT 4 [] (demo_r 1) demo_queue_rel) as (_ & H1 & _).
  destruct H1 as (l1 & p1 & q1 & E1 & R1 & _); [discriminate|].
  destruct (queue_fifo _ _ _ _ _ _ (demo_r 2) R1) as (_ & H2 & _). destruct H2 as (l2 & p2 & q2 & E2 & R2 & _); [discriminate|].
  destruct (queue_fifo _ _ _ _ _ _ (demo_r 2) R2) as (_ & _ & Hr & l3 & q3 & p3 & Eu & Ef & R3 & _).
  destruct (queue_fifo _ _ _ _ _ _ (demo_r 2) R3) as (_ & _ & Hr3 & _).
  exists l1, p1, q1, l2, p2, q2, p3, q3. split_and!; assumption.
Defined.

(** ** Requests are served in a settled cluster only *)

(** A page is readable exactly when the catalogue is mastered and either
    recovery is over (or is not needed: the session is a recovery session, or
    the database is only being mounted), or partial recovery on the primary
    has finished its analysis and the page, of a real file, is not to be
    recovered. *)
Theorem page_readable v p :
  dtc_dcs_readable v p = true <->
  v_remaster_status v = REMASTER_DONE /\
  ((REFORM_RECOVER_DONE <= v_rc_status v \/ v_session_in_recovery v = true \/ v_rc_status v = REFORM_MOUNTING) \/
   (v_part_recovery v = true /\ v_primary v = true /\ RECOVERY_ANALYSIS < v_recovery_status v /\
    pg_file p < INVALID_FILE_ID /\ v_page_in_rcyset v p = false)).
Proof. apply dcs_readable_spec. Qed.
