(* ===== verification/DrcPage.v ===== *)
(** The page master: ownership of buffer pages
    ([drc_buf_res_t] and the page handlers of src/pkg/src/cluster/dtc_drc.c).

    The functions that work on one resource are written over any convert
    queue ([QueueOps]); the handlers look the resource up in the table, run
    them and store the result.  A lock that a handler gives up and takes again
    is a window: the argument [env] is what the other threads do to the table
    in it.  Answers of other instances ([dcs_invalidate_*]) are arguments. *)

From S2P Require Import Prelude DrcBitmap DrcPool DrcResMap DrcList DrcGlobalRes DrcQueue DrcTable DrcReform.

(** [drc_res_action_e]. *)
Inductive drc_res_action :=
| DRC_RES_INVALID_ACTION
| DRC_RES_PENDING_ACTION
| DRC_RES_SHARE_ACTION
| DRC_RES_EXCLUSIVE_ACTION
| DRC_RES_CLEAN_EDP_ACTION.

#[export] Instance drc_res_action_eq_dec : EqDecision drc_res_action.
Proof. solve_decision. Defined.

(** [drc_buf_res_t] less the members of [res_item] and the unused [lock];
    [converting.next] is written but never read, so [converting] is its
    request. *)
Record buf_res (Q : Type) := mk_buf {
  claimed_owner : Z;
  latest_edp : Z;
  pending : drc_res_action;
  latest_edp_lsn : Z;
  mode : Z;
  buf_page_id : page_id;
  converting : drc_req_info;
  convert_q : Q;
  is_used : bool;
  edp_map : Z;
  buf_lsn : Z;
  readonly_copies : Z;
}.
Arguments mk_buf {Q} _ _ _ _ _ _ _ _ _ _ _ _.
Arguments claimed_owner {Q} _.
Arguments latest_edp {Q} _.
Arguments pending {Q} _.
Arguments latest_edp_lsn {Q} _.
Arguments mode {Q} _.
Arguments buf_page_id {Q} _.
Arguments converting {Q} _.
Arguments convert_q {Q} _.
Arguments is_used {Q} _.
Arguments edp_map {Q} _.
Arguments buf_lsn {Q} _.
Arguments readonly_copies {Q} _.

(** Stores into one member. *)
Section Fields.
Context {Q : Type}.
Implicit Types (b : buf_res Q).

Definition set_claimed_owner (x : Z) b := mk_buf x (latest_edp b) (pending b) (latest_edp_lsn b) (mode b)
  (buf_page_id b) (converting b) (convert_q b) (is_used b) (edp_map b) (buf_lsn b) (readonly_copies b).
Definition set_latest_edp (x lsn : Z) b := mk_buf (claimed_owner b) x (pending b) lsn (mode b)
  (buf_page_id b) (converting b) (convert_q b) (is_used b) (edp_map b) (buf_lsn b) (readonly_copies b).
Definition set_pending (x : drc_res_action) b := mk_buf (claimed_owner b) (latest_edp b) x (latest_edp_lsn b) (mode b)
  (buf_page_id b) (converting b) (convert_q b) (is_used b) (edp_map b) (buf_lsn b) (readonly_copies b).
Definition set_mode (x : Z) b := mk_buf (claimed_owner b) (latest_edp b) (pending b) (latest_edp_lsn b) x
  (buf_page_id b) (converting b) (convert_q b) (is_used b) (edp_map b) (buf_lsn b) (readonly_copies b).
Definition set_converting (x : drc_req_info) b := mk_buf (claimed_owner b) (latest_edp b) (pending b)
  (latest_edp_lsn b) (mode b) (buf_page_id b) x (convert_q b) (is_used b) (edp_map b) (buf_lsn b) (readonly_copies b).
Definition set_convert_q {Q'} (x : Q') b : buf_res Q' := mk_buf (claimed_owner b) (latest_edp b) (pending b)
  (latest_edp_lsn b) (mode b) (buf_page_id b) (converting b) x (is_used b) (edp_map b) (buf_lsn b) (readonly_copies b).
Definition set_edp_map (x : Z) b := mk_buf (claimed_owner b) (latest_edp b) (pending b) (latest_edp_lsn b) (mode b)
  (buf_page_id b) (converting b) (convert_q b) (is_used b) x (buf_lsn b) (readonly_copies b).
Definition set_buf_lsn (x : Z) b := mk_buf (claimed_owner b) (latest_edp b) (pending b) (latest_edp_lsn b) (mode b)
  (buf_page_id b) (converting b) (convert_q b) (is_used b) (edp_map b) x (readonly_copies b).
Definition set_readonly_copies (x : Z) b := mk_buf (claimed_owner b) (latest_edp b) (pending b) (latest_edp_lsn b)
  (mode b) (buf_page_id b) (converting b) (convert_q b) (is_used b) (edp_map b) (buf_lsn b) x.
End Fields.

#[export, refine] Instance buf_queued : QueuedRes buf_res page_id := {|
  qr_queue := fun Q => convert_q;
  qr_with := fun Q Q' => set_convert_q;
  qr_key := fun Q => buf_page_id;
  qr_zero := mk_buf 0 0 DRC_RES_INVALID_ACTION 0 0 (mk_page 0 0) (mk_req 0 0 0 0 0 0 0 0 0 0) (mk_list 0 0 0)
               false 0 0 0;
|}.
Proof. all: try done. by intros Q []. Defined.

(** [claim_info_t]. *)
Record claim_info := mk_claim {
  new_id : Z; ci_sid : Z; ci_page_id : page_id; ci_lsn : Z; has_edp : bool; ci_mode : Z;
}.

(** [cvt_info_t]. *)
Record cvt_info := mk_cvt {
  cvt_owner_id : Z; cvt_req_id : Z; cvt_req_sid : Z; cvt_req_rsn : Z; cvt_pageid : page_id;
  cvt_req_mode : Z; cvt_curr_mode : Z; cvt_readonly_copies : Z; cvt_req_version : Z; cvt_lsn : Z;
}.

(** [drc_req_owner_result_type]. *)
Inductive drc_req_owner_result_type :=
| DRC_REQ_OWNER_INVALID
| DRC_REQ_OWNER_GRANTED
| DRC_REQ_OWNER_ALREADY_OWNER
| DRC_REQ_OWNER_CONVERTING
| DRC_REQ_OWNER_WAITING
| DRC_REQ_OWNER_TRANSFERRED.

#[export] Instance drc_req_owner_result_type_eq_dec : EqDecision drc_req_owner_result_type.
Proof. solve_decision. Defined.

Definition result_code (r : drc_req_owner_result_type) : Z :=
  match r with
  | DRC_REQ_OWNER_INVALID => 0
  | DRC_REQ_OWNER_GRANTED => 1
  | DRC_REQ_OWNER_ALREADY_OWNER => 2
  | DRC_REQ_OWNER_CONVERTING => 3
  | DRC_REQ_OWNER_WAITING => 4
  | DRC_REQ_OWNER_TRANSFERRED => 5
  end.

(** [drc_req_owner_result_t]. *)
Record req_owner_result := mk_result {
  ro_type : drc_req_owner_result_type; ro_action : drc_res_action; ro_curr_owner_id : Z;
  ro_is_retry : bool; ro_req_mode : Z; ro_readonly_copies : Z;
}.

(** ** Operations on one resource *)
Section OneResource.
Context {S Q It : Type} `{QueueOps S Q It}.
Implicit Types (b : buf_res Q) (r : drc_req_info) (c : claim_info).

(** The scan of [drc_select_one_instance_from_readonly_copy]. *)
Fixpoint select_loop (n : nat) (index copies : Z) : Z :=
  match n with
  | O => OG_INVALID_ID8
  | Datatypes.S n' => if drc_bitmap64_exist copies index then index else select_loop n' (index + 1) copies
  end.

(** [drc_select_one_instance_from_readonly_copy]. *)
Definition drc_select_one_instance_from_readonly_copy (copies : Z) : Z :=
  select_loop (Z.to_nat OG_MAX_INSTANCES) 0 copies.

(** [drc_clean_buf_res]. *)
Definition drc_clean_buf_res b : outcome (buf_res Q) :=
  panic_unless claimed_owner b =? OG_INVALID_ID8 ;;
  if negb (readonly_copies b =? 0) then
    let o := drc_select_one_instance_from_readonly_copy (readonly_copies b) in
    panic_unless mode b =? DRC_LOCK_SHARE ;;
    Ok (set_readonly_copies (drc_bitmap64_clear (readonly_copies b) o)
          (set_pending DRC_RES_SHARE_ACTION (set_claimed_owner o b)))
  else if negb (edp_map b =? 0) then
    panic_unless negb (latest_edp b =? OG_INVALID_ID8) ;;
    panic_unless negb (mode b =? DRC_LOCK_SHARE) ;;
    Ok (set_pending DRC_RES_EXCLUSIVE_ACTION (set_claimed_owner (latest_edp b) b))
  else Ok b.

(** [buf_res_is_recyclable]. *)
Definition buf_res_is_recyclable b : bool :=
  (inst_id (converting b) =? OG_INVALID_ID8) && negb (claimed_owner b =? OG_INVALID_ID8).

(** [BUF_RES_IS_OLD]. *)
Definition BUF_RES_RECYCLE_WINDOW : Z := 60000000.
Definition BUF_RES_IS_OLD b (now : Z) : bool := BUF_RES_RECYCLE_WINDOW <? now - req_time (converting b).

(** [drc_check_new_req]. *)
Definition drc_check_new_req r b : status :=
  if (inst_id (converting b) =? claimed_owner b) &&
     ((mode b =? DRC_LOCK_SHARE) && (req_mode (converting b) =? DRC_LOCK_EXCLUSIVE)) &&
     negb (inst_id r =? claimed_owner b) && drc_bitmap64_exist (readonly_copies b) (inst_id r)
  then OG_ERROR
  else if (inst_id r =? claimed_owner b) && negb (inst_id r =? inst_id (converting b))
  then OG_ERROR
  else OG_SUCCESS.

(** The two branches of [drc_claim_new_page_owner]: one more shared copy, or
    a new exclusive owner (owner, mode, no copies, no past image of its
    own), whose predecessor may keep a past image. *)
Definition claim_grant c b : outcome (buf_res Q) :=
  if ci_mode c =? DRC_LOCK_SHARE then
    panic_unless negb (claimed_owner b =? OG_INVALID_ID8) ;;
    Ok (set_readonly_copies (drc_bitmap64_set (readonly_copies b) (new_id c)) (set_mode DRC_LOCK_SHARE b))
  else
    let cur_owner := claimed_owner b in
    let edps := drc_bitmap64_clear (edp_map b) (new_id c) in
    if has_edp c then
      panic_unless ci_mode c =? DRC_LOCK_EXCLUSIVE ;;
      panic_unless negb (ci_lsn c =? 0) ;;
      Ok (mk_buf (new_id c) cur_owner (pending b) (ci_lsn c) (ci_mode c) (buf_page_id b) (converting b) (convert_q b)
            (is_used b) (drc_bitmap64_set edps cur_owner) (buf_lsn b) 0)
    else
      Ok (mk_buf (new_id c) (latest_edp b) (pending b) (latest_edp_lsn b) (ci_mode c) (buf_page_id b) (converting b)
            (convert_q b) (is_used b) edps (buf_lsn b) 0).

(** The end of [drc_claim_new_page_owner]. *)
Definition claim_lsn c b : outcome (buf_res Q) :=
  if 0 <? ci_lsn c then
    panic_unless buf_lsn b <=? ci_lsn c ;;
    Ok (set_buf_lsn (ci_lsn c) b)
  else Ok b.

(** [drc_claim_new_page_owner]. *)
Definition drc_claim_new_page_owner c b : outcome (buf_res Q) :=
  panic_unless req_mode (converting b) =? ci_mode c ;;
  panic_unless bool_decide (pending b = DRC_RES_INVALID_ACTION) || bool_decide (pending b = DRC_RES_SHARE_ACTION) ||
               bool_decide (pending b = DRC_RES_EXCLUSIVE_ACTION) ;;
  let b := set_pending DRC_RES_INVALID_ACTION b in
  if (ci_mode c <=? mode b) && (claimed_owner b =? new_id c) then Ok b
  else b ← claim_grant c b; claim_lsn c b.

(** [drc_check_first_req_in_convert_queue]: the item it takes off the queue,
    if any. *)
Definition drc_check_first_req_in_convert_queue (s : S) b : outcome (option It * buf_res Q) :=
  if q_count (convert_q b) =? 0 then Ok (None, b)
  else
    let item := q_head (convert_q b) in
    r ← q_read s item;
    match drc_check_new_req r b with
    | OG_SUCCESS => Ok (None, b)
    | OG_ERROR =>
        q ← q_unlink s (convert_q b);
        Ok (Some item, set_convert_q q b)
    end.

(** The members of [cvt_info] set once a request is chosen. *)
Definition cvt_of b : cvt_info :=
  let r := converting b in
  mk_cvt (claimed_owner b) (inst_id r) (inst_sid r) (rsn r) (buf_page_id b) (req_mode r) (curr_mode r)
    (drc_bitmap64_clear (drc_bitmap64_clear (readonly_copies b) (inst_id r)) (claimed_owner b))
    (req_version r) (req_lsn r).

(** [DCS_WAIT_MSG_TIMEOUT * MICROSECS_PER_MILLISEC]. *)
Definition DCS_WAIT_TIMEOUT_US : Z := 3600000 * 1000.

(** The loop of [drc_convert_next_request]: [None] when the queue runs
    empty and [converting] is invalidated; with it the error messages to
    requests that timed out. *)
Fixpoint convert_next_loop (n : nat) (now : Z) (s : S) b (msgs : list err_msg) :
    outcome (bool * list err_msg * S * buf_res Q) :=
  if q_count (convert_q b) =? 0 then
    Ok (false, msgs, s,
        set_converting (set_inst_sid OG_INVALID_ID16 (set_req_mode DRC_LOCK_NULL
                          (set_inst_id OG_INVALID_ID8 (converting b)))) b)
  else match n with
       | O => Crash BadAddr
       | Datatypes.S n' =>
           let item := q_head (convert_q b) in
           panic_unless q_valid item ;;
           r ← q_read s item;
           q ← q_unlink s (convert_q b);
           let b := set_converting r (set_convert_q q b) in
           s ← q_free s item;
           if req_time r + DCS_WAIT_TIMEOUT_US <=? now
           then convert_next_loop n' now s b (msgs ++ [error_to r])
           else Ok (true, msgs, s, b)
       end.

(** [drc_convert_next_request]; [cvt_req_id] is as the caller left it when
    no request is chosen. *)
Definition drc_convert_next_request (now : Z) (s : S) b (cvt : cvt_info) :
    outcome (option It * list err_msg * cvt_info * S * buf_res Q) :=
  let cvt := mk_cvt (claimed_owner b) (cvt_req_id cvt) (cvt_req_sid cvt) (cvt_req_rsn cvt) (buf_page_id b)
               (cvt_req_mode cvt) (cvt_curr_mode cvt) 0 (cvt_req_version cvt) (cvt_lsn cvt) in
  '(found, msgs, s, b) ← convert_next_loop (Z.to_nat (q_count (convert_q b))) now s b [];
  if found : bool then
    let cvt := cvt_of b in
    '(o, b) ← drc_check_first_req_in_convert_queue s b;
    Ok (o, msgs, cvt, s, b)
  else Ok (None, msgs, cvt, s, b).

(** [drc_is_retry_request]. *)
Definition drc_is_retry_request (l r : drc_req_info) : bool :=
  (inst_id l =? inst_id r) && negb (req_mode l =? curr_mode r).

(** [drc_is_same_claim_request]. *)
Definition drc_is_same_claim_request (cv : drc_req_info) c : bool :=
  (inst_id cv =? new_id c) && (inst_sid cv =? ci_sid c) && (req_mode cv =? ci_mode c).

(** [drc_claim_info_is_invalid]. *)
Definition drc_claim_info_is_invalid c b : bool :=
  (if ci_mode c =? DRC_LOCK_SHARE then claimed_owner b =? OG_INVALID_ID8
   else has_edp c && negb ((ci_mode c =? DRC_LOCK_EXCLUSIVE) && negb (ci_lsn c =? 0))) ||
  ((0 <? ci_lsn c) && (ci_lsn c <? buf_lsn b)).

(** [drc_keep_requester_wait]: the status, the flags [converting] and
    [is_retry], and the request as it leaves it. *)
Definition drc_keep_requester_wait (s : S) r b (is_try : bool) :
    outcome (status * bool * bool * drc_req_info * S * buf_res Q) :=
  if inst_id (converting b) =? OG_INVALID_ID8 then
    if is_try && (negb (claimed_owner b =? inst_id r) || negb (readonly_copies b =? 0))
    then Ok (OG_SUCCESS, false, false, r, s, b)
    else
      panic_unless q_count (convert_q b) =? 0 ;;
      Ok (OG_SUCCESS, true, false, r, s, set_converting r b)
  else if is_try then Ok (OG_SUCCESS, false, false, r, s, b)
  else match drc_check_new_req r b with
  | OG_ERROR => Ok (OG_ERROR, false, false, r, s, b)
  | OG_SUCCESS =>
      if drc_is_retry_request (converting b) r then
        if req_time (converting b) <=? req_time r then
          let r := set_req_mode (Z.max (req_mode (converting b)) (req_mode r)) r in
          Ok (OG_SUCCESS, true, true, r, s, set_converting r b)
        else Ok (OG_ERROR, false, false, r, s, b)
      else
        o ← (if 0 <? q_count (convert_q b)
             then q_update s (convert_q b) (fun i => drc_is_retry_request i r)
                    (fun i => if req_lsn i =? req_lsn r then Some r else None)
             else Ok None);
        match o with
        | Some None => Ok (OG_ERROR, false, false, r, s, b)
        | Some (Some (s, q)) => Ok (OG_SUCCESS, false, false, r, s, set_convert_q q b)
        | None =>
            e ← q_enqueue s (convert_q b) r;
            match e with
            | None => Ok (OG_ERROR, false, false, r, s, b)
            | Some (s, q) => Ok (OG_SUCCESS, false, false, r, s, set_convert_q q b)
            end
        end
  end.

(** [drc_init_page_converting]. *)
Definition drc_init_page_converting b : buf_res Q := set_converting g_invalid_req_info b.
End OneResource.

(** ** Hash functions and partitions *)

(** [HASH_SEED]. *)
Definition HASH_SEED : Z := 0x811c9dc5.

(** [drc_page_id_hash]. *)
Definition drc_page_id_hash (range : Z) (p : page_id) : Z :=
  u32 (u32 (HASH_SEED * pg_file p) + u32 (HASH_SEED * pg_page p)) mod range.

(** [cm_hash_uint32]. *)
Definition cm_hash_uint32 (i32_input range : Z) : Z :=
  let i32 := u32 (i32_input * HASH_SEED) in
  if 0 <? range then i32 mod range else i32.

(** [DRC_FILE_EXTENT_PAGE_NUM]. *)
Definition DRC_FILE_EXTENT_PAGE_NUM (page_size : Z) : Z := (8 * 1024 * 1024) / page_size.

(** [drc_page_partid]. *)
Definition drc_page_partid (page_size : Z) (p : page_id) : Z :=
  cm_hash_uint32 (pg_page p / DRC_FILE_EXTENT_PAGE_NUM page_size) DRC_MAX_PART_NUM.

(** The table of page resources and its shared item pool. *)
Notation ptab := (res_tab buf_res).

(** A buffer control block of the local pool, as [drc_revert_converting_*]
    reads it. *)
Record buf_ctrl := mk_ctrl { ctrl_lock_mode : Z; ctrl_is_edp : bool; ctrl_page_lsn : Z }.

(** [page_info_t]: what an instance reports of a page it has cached. *)
Record page_info := mk_pinfo { pi_page_id : page_id; pi_lock_mode : Z; pi_is_edp : bool; pi_lsn : Z }.

(** [drc_edp_info_t]. *)
Record edp_info := mk_edp { ei_edp_map : Z; ei_lsn : Z; ei_readonly_copies : Z; ei_latest_edp : Z }.

(** What the other threads and instances do while [drc_recycle_items] runs:
    the readings of the reform state, the answers to the invalidations, and
    the effect of others in the two windows of each round. *)
Record recycle_env := mk_renv {
  re_now : Z;
  re_view : nat -> nat -> view;
  re_inv : nat -> status;
  re_env0 : nat -> ptab -> ptab;
  re_env1 : nat -> ptab -> ptab;
}.

Section Handlers.
Context (page_size : Z).
Implicit Types (t : ptab) (pagid : page_id) (r : drc_req_info).

(** [drc_get_buf_map_bucket]. *)
Definition buf_bucket t pagid : Z := drc_page_id_hash (bucket_num (res_map (tb_res t))) pagid.

Definition page_lookup t pagid : outcome (option Z) := tb_lookup t (buf_bucket t pagid) pagid.

(** [buf_res->idx]. *)
Definition slot_idx t (i : Z) : outcome Z := a ← load (gr_pool (tb_res t)) i; Ok (item_idx a).

(** [drc_get_page_owner_id]. *)
Definition drc_get_page_owner_id (v : view) (partial_session : bool) pagid t :
    outcome (status * Z * drc_res_action * ptab) :=
  o ← page_lookup t pagid;
  match o with
  | None => Ok (OG_ERROR, OG_INVALID_ID8, DRC_RES_INVALID_ACTION, t)
  | Some i =>
      b ← tb_get t i;
      b ← (if (claimed_owner b =? OG_INVALID_ID8) && (REFORM_RECOVER_DONE <=? v_rc_status v)
           then panic_unless negb partial_session ;; drc_clean_buf_res b
           else Ok b);
      t ← tb_put t i b;
      Ok (OG_SUCCESS, claimed_owner b, pending b, t)
  end.

(** [drc_clean_page_owner_internal]: the item goes off the bucket and the
    partition list and is zeroed; its slot stays allocated. *)
Definition drc_clean_page_owner_internal t (h i : Z) : outcome ptab :=
  b ← tb_get t i;
  g ← gr_map_remove (tb_res t) h (buf_page_id b);
  g ← gr_list_del g i;
  g ← gr_memset g i;
  Ok (tb_set_res g t).

(** [drc_buf_res_recycle], [ret] being the outcome of the invalidations. *)
Definition drc_buf_res_recycle (node_count : Z) (v : view) (ret : status) (env : ptab -> ptab)
    (inst time : Z) pagid t : outcome ptab :=
  if OG_MAX_INSTANCES <=? inst then Ok t
  else if IS_INVALID_PAGID pagid || (node_count <=? inst) then Ok t
  else if drc_remaster_in_progress v then Ok t
  else
    o ← page_lookup t pagid;
    match o with
    | None => Ok t
    | Some i =>
        b ← tb_get t i;
        if negb (claimed_owner b =? inst) then Ok t
        else if negb (bool_decide (pending b = DRC_RES_INVALID_ACTION)) || negb (is_used b) then Ok t
        else if time <=? req_time (converting b) then Ok t
        else if negb (buf_res_is_recyclable b) then Ok t
        else
          t ← tb_put t i (set_pending DRC_RES_PENDING_ACTION b);
          let t := env t in
          o' ← page_lookup t pagid;
          match o' with
          | None => Ok t
          | Some _ =>
              b ← tb_get t i;
              match ret with
              | OG_ERROR => tb_put t i (set_pending DRC_RES_INVALID_ACTION b)
              | OG_SUCCESS =>
                  idx ← slot_idx t i;
                  t ← tb_put t i (set_pending DRC_RES_INVALID_ACTION (set_readonly_copies 0 b));
                  t ← drc_clean_page_owner_internal t (buf_bucket t pagid) i;
                  if idx =? OG_INVALID_ID32 then Ok t else tb_free t idx
              end
          end
    end.

(** [pool->recycle_pos = (pool->recycle_pos + 1) % pool->item_num]. *)
Definition bump_recycle_pos t : Z * ptab :=
  let p := gr_pool (tb_res t) in
  let pos := (recycle_pos p + 1) mod item_num p in
  (pos, tb_set_res (gr_set_pool (mk_pool (inited p) (free_list p) (item_num p) (used_num p) pos (addr p)) (tb_res t)) t).

(** How a round of [drc_recycle_items] ends. *)
Inductive round := Continue (t : ptab) (idx : Z) | Break (t : ptab) (idx : Z) | Return (t : ptab) (idx : Z).

(** The last critical section of a round of [drc_recycle_items]: the
    resource is found again and recycled. *)
Definition recycle_commit (v : view) (ret : status) (is_batch : bool) (pos idx : Z) pagid (copies owner : Z) t :
    outcome round :=
  o ← page_lookup t pagid;
  match o with
  | None => Ok (Continue t idx)
  | Some _ =>
      b ← tb_get t pos;
      if drc_remaster_in_progress v then
        t ← tb_put t pos (set_pending DRC_RES_INVALID_ACTION b); Ok (Break t idx)
      else if negb (is_used b) || negb (bool_decide (buf_page_id b = pagid)) then Ok (Continue t idx)
      else
        panic_unless bool_decide (pending b = DRC_RES_PENDING_ACTION) && buf_res_is_recyclable b &&
                     (copies =? readonly_copies b) && (owner =? claimed_owner b) ;;
        t ← tb_put t pos (set_pending DRC_RES_INVALID_ACTION b);
        match ret with
        | OG_ERROR => Ok (Continue t idx)
        | OG_SUCCESS =>
            b ← tb_get t pos;
            t ← tb_put t pos (set_readonly_copies 0 b);
            idx ← slot_idx t pos;
            t ← drc_clean_page_owner_internal t (buf_bucket t pagid) pos;
            if is_batch then t ← tb_free t idx; Ok (Continue t idx)
            else Ok (Return t idx)
        end
  end.

(** One round of [drc_recycle_items] on the slot [pos], from the test of its
    age on. *)
Definition recycle_round (e : recycle_env) (k : nat) (is_batch : bool) (pos idx : Z) t : outcome round :=
  b ← tb_get t pos;
  if negb (BUF_RES_IS_OLD b (re_now e)) || negb (buf_res_is_recyclable b) then Ok (Continue t idx)
  else
    let pagid := buf_page_id b in
    let t := re_env0 e k t in
    b ← tb_get t pos;
    if negb (bool_decide (pending b = DRC_RES_INVALID_ACTION)) || negb (is_used b) then Ok (Continue t idx)
    else if negb (buf_res_is_recyclable b) then Ok (Continue t idx)
    else if drc_remaster_in_progress (re_view e k 0) then Ok (Break t idx)
    else
      t ← tb_put t pos (set_pending DRC_RES_PENDING_ACTION b);
      recycle_commit (re_view e k 1) (re_inv e k) is_batch pos idx pagid (readonly_copies b) (claimed_owner b)
        (re_env1 e k t).

(** The loop of [drc_recycle_items]: [n] rounds are left, [k] is the number
    of the round. *)
Fixpoint recycle_loop (n : nat) (e : recycle_env) (k : nat) (is_batch : bool) (idx : Z) t : outcome (Z * ptab) :=
  match n with
  | O => if is_batch then Ok (idx, t) else tb_alloc t
  | Datatypes.S n' =>
      let '(pos, t) := bump_recycle_pos t in
      let attempt := negb is_batch && negb (free_list (gr_pool (tb_res t)) =? OG_INVALID_ID32) in
      '(idx, t) ← (if attempt then tb_alloc t else Ok (idx, t));
      if attempt && negb (idx =? OG_INVALID_ID32) then Ok (idx, t)
      else
        rd ← recycle_round e k is_batch pos idx t;
        match rd with
        | Continue t idx => recycle_loop n' e (Datatypes.S k) is_batch idx t
        | Break t idx => if is_batch then Ok (idx, t) else tb_alloc t
        | Return t idx => Ok (idx, t)
        end
  end.

(** [drc_recycle_items]. *)
Definition drc_recycle_items (e : recycle_env) (is_batch : bool) t : outcome (Z * ptab) :=
  recycle_loop (if is_batch then 1024%nat else Z.to_nat (item_num (gr_pool (tb_res t)))) e 0 is_batch OG_INVALID_ID32 t.

(** The fields of a resource created for the first request of a page. *)
Definition new_buf_res {Q} (q0 : Q) r pagid : buf_res Q :=
  mk_buf (inst_id r) OG_INVALID_ID8 DRC_RES_INVALID_ACTION 0 (req_mode r) pagid
         (set_req_time (req_time r) g_invalid_req_info) q0 true 0 0 0.

(** The second half of [drc_request_page_owner], from the label
    [allocated] to the release of the locks, on the resource found: the
    status, the result, whether the requester is now converting, and the
    request. *)
Definition request_on_resource {S Q It} `{QueueOps S Q It} (v : view) (s : S) (b : buf_res Q) r pagid (is_try : bool)
    (res : req_owner_result) : outcome (status * req_owner_result * bool * drc_req_info * S * buf_res Q) :=
  if bool_decide (pending b = DRC_RES_PENDING_ACTION) then Ok (OG_ERROR, res, false, r, s, b)
  else if (claimed_owner b =? OG_INVALID_ID8) &&
          negb (v_session_in_recovery v || (REFORM_RECOVER_DONE <=? v_rc_status v) || dtc_dcs_readable v pagid)
  then Ok (OG_ERROR, res, false, r, s, b)
  else
    b ← (if claimed_owner b =? OG_INVALID_ID8 then drc_clean_buf_res b else Ok b);
    if claimed_owner b =? OG_INVALID_ID8 then
      let res := mk_result DRC_REQ_OWNER_GRANTED (ro_action res) (inst_id r) (ro_is_retry res) (ro_req_mode res)
                   (ro_readonly_copies res) in
      let b := set_mode (req_mode r) (set_claimed_owner (inst_id r) b) in
      Ok (OG_SUCCESS, res, false, r, s,
          set_converting (set_owner_result (result_code DRC_REQ_OWNER_GRANTED) (converting b)) b)
    else
      '(ret, can_cvt, is_retry, r, s, b) ← drc_keep_requester_wait s r b is_try;
      match ret with
      | OG_ERROR => Ok (OG_ERROR, res, false, r, s, b)
      | OG_SUCCESS =>
          let ty := if can_cvt : bool
                    then if claimed_owner b =? inst_id r then DRC_REQ_OWNER_ALREADY_OWNER else DRC_REQ_OWNER_CONVERTING
                    else DRC_REQ_OWNER_WAITING in
          let res :=
            if can_cvt
            then mk_result ty (pending b) (claimed_owner b) is_retry (req_mode r)
                   (drc_bitmap64_clear (drc_bitmap64_clear (readonly_copies b) (inst_id r)) (claimed_owner b))
            else mk_result ty (ro_action res) (claimed_owner b) (ro_is_retry res) (ro_req_mode res)
                   (ro_readonly_copies res) in
          let b := if can_cvt then set_converting (set_owner_result (result_code ty) (converting b)) b else b in
          panic_unless negb is_try || negb (bool_decide (ty = DRC_REQ_OWNER_CONVERTING)) ;;
          Ok (OG_SUCCESS, res, can_cvt, r, s, b)
      end.

(** The same on slot [i] of the table, then the invalidation of the copies
    ([inv] is its outcome) and, in a new critical section, the store of the
    empty map. *)
Definition request_allocated (v : view) (inv : status) (env : ptab -> ptab) r pagid (is_try : bool)
    (res : req_owner_result) (i : Z) t : outcome (status * req_owner_result * ptab) :=
  b ← tb_get t i;
  '(ret, res, can_cvt, r, s, b) ← request_on_resource v (tb_items t) b r pagid is_try res;
  t ← tb_put (tb_set_items s t) i b;
  if can_cvt && negb (ro_readonly_copies res =? 0) && (req_mode r =? DRC_LOCK_EXCLUSIVE) then
    match inv with
    | OG_ERROR => Ok (OG_ERROR, res, t)
    | OG_SUCCESS =>
        let t := env t in
        b ← tb_get t i;
        t ← tb_put t i (set_readonly_copies 0 b);
        Ok (OG_SUCCESS, res, t)
    end
  else Ok (ret, res, t).

(** [free_slot]: the item allocated for nothing goes back. *)
Definition free_unused (free_slot : bool) (idx : Z) (x : status * req_owner_result * ptab) :
    outcome (status * req_owner_result * ptab) :=
  let '(ret, res, t) := x in
  if free_slot then t ← tb_free t idx; Ok (ret, res, t) else Ok (ret, res, t).

(** An item for a new resource, recycled when the pool is exhausted. *)
Definition request_item (e : recycle_env) t : outcome (Z * ptab) :=
  '(idx, t) ← tb_alloc t;
  if idx =? OG_INVALID_ID32 then drc_recycle_items e false t else Ok (idx, t).

(** The creation of the resource in slot [idx], with the two tests that call
    it off when a reform has begun ([v2] and [v3] are what they read). *)
Definition request_create (v2 v3 : view) pagid r (res : req_owner_result) (idx : Z) t :
    outcome (status * req_owner_result * ptab) :=
  if DRC_STOP_DCS_IO_FOR_REFORMING (req_version r) v2 pagid then
    t ← tb_free t idx; Ok (OG_ERROR, res, t)
  else
    let h := buf_bucket t pagid in
    g ← gr_fill (tb_res t) idx (new_buf_res DRC_LIST_INIT r pagid);
    g ← gr_map_add g h idx;
    if DRC_STOP_DCS_IO_FOR_REFORMING (req_version r) v3 pagid then
      g ← gr_map_remove g h pagid;
      g ← gr_memset g idx;
      g ← gr_free g idx;
      Ok (OG_ERROR, res, tb_set_res g t)
    else
      g ← gr_list_add g idx (drc_page_partid page_size pagid);
      Ok (OG_SUCCESS,
          mk_result DRC_REQ_OWNER_GRANTED (ro_action res) (inst_id r) (ro_is_retry res) (ro_req_mode res) 0,
          tb_set_res g t).

(** [drc_request_page_owner].  The reform state is read up to five times;
    [env1] runs while the locks are given up to allocate an item, [env2]
    during the invalidation; [e] is the surroundings of
    [drc_recycle_items]. *)
Definition drc_request_page_owner (views : nat -> view) (e : recycle_env) (inv : status) (env1 env2 : ptab -> ptab)
    pagid r (is_try : bool) (res0 : req_owner_result) t : outcome (status * req_owner_result * ptab) :=
  let res := mk_result DRC_REQ_OWNER_INVALID DRC_RES_INVALID_ACTION (ro_curr_owner_id res0) false (req_mode r)
               (ro_readonly_copies res0) in
  let r := set_owner_result (result_code DRC_REQ_OWNER_WAITING) r in
  if (OG_MAX_INSTANCES <=? inst_id r) || IS_INVALID_PAGID pagid then Ok (OG_ERROR, res, t)
  else if negb (dtc_dcs_readable (views 0%nat) pagid) then Ok (OG_ERROR, res, t)
  else if DRC_STOP_DCS_IO_FOR_REFORMING (req_version r) (views 1%nat) pagid then Ok (OG_ERROR, res, t)
  else
    o ← page_lookup t pagid;
    match o with
    | Some i => request_allocated (views 4%nat) inv env2 r pagid is_try res i t
    | None =>
        '(idx, t) ← request_item e t;
        if idx =? OG_INVALID_ID32 then Ok (OG_ERROR, res, t)
        else
          let t := env1 t in
          o ← page_lookup t pagid;
          match o with
          | Some i =>
              x ← request_allocated (views 4%nat) inv env2 r pagid is_try res i t;
              free_unused true idx x
          | None => request_create (views 2%nat) (views 3%nat) pagid r res idx t
          end
    end.

(** [drc_get_edp_info]. *)
Definition drc_get_edp_info pagid t : outcome (option edp_info) :=
  o ← page_lookup t pagid;
  match o with
  | None => Ok None
  | Some i =>
      b ← tb_get t i;
      Ok (Some (mk_edp (edp_map b) (buf_lsn b) (readonly_copies b) (latest_edp b)))
  end.

(** [drc_clean_edp_info] for a page flushed at [lsn]. *)
Definition drc_clean_edp_info pagid (lsn : Z) t : outcome (status * ptab) :=
  o ← page_lookup t pagid;
  match o with
  | None => Ok (OG_ERROR, t)
  | Some i =>
      b ← tb_get t i;
      if buf_lsn b <=? lsn then
        t ← tb_put t i (set_latest_edp OG_INVALID_ID8 0 (set_edp_map 0 b));
        Ok (OG_SUCCESS, t)
      else Ok (OG_SUCCESS, t)
  end.

(** The part of [drc_claim_page_owner] that runs on the resource. *)
Definition claim_on_resource {S Q It} `{QueueOps S Q It} (now : Z) (s : S) (b : buf_res Q) (c : claim_info)
    (cvt : cvt_info) : outcome (option It * list err_msg * cvt_info * S * buf_res Q) :=
  if inst_id (converting b) =? OG_INVALID_ID8 then Ok (None, [], cvt, s, b)
  else if negb (drc_is_same_claim_request (converting b) c) then Ok (None, [], cvt, s, b)
  else if drc_claim_info_is_invalid c b then Ok (None, [], cvt, s, b)
  else
    b ← drc_claim_new_page_owner c b;
    drc_convert_next_request now s b cvt.

(** [drc_claim_page_owner]: the error messages it sends and [cvt_info]. *)
Definition drc_claim_page_owner (now : Z) (inv : status) (env : ptab -> ptab) (c : claim_info) (cvt : cvt_info) t :
    outcome (list err_msg * cvt_info * ptab) :=
  let pagid := ci_page_id c in
  let cvt := mk_cvt (cvt_owner_id cvt) OG_INVALID_ID8 (cvt_req_sid cvt) (cvt_req_rsn cvt) (cvt_pageid cvt)
               (cvt_req_mode cvt) (cvt_curr_mode cvt) (cvt_readonly_copies cvt) (cvt_req_version cvt) (cvt_lsn cvt) in
  o ← page_lookup t pagid;
  match o with
  | None => Ok ([], cvt, t)
  | Some i =>
      b ← tb_get t i;
      '(conflict, msgs, cvt, s, b) ← claim_on_resource now (tb_items t) b c cvt;
      t ← tb_put (tb_set_items s t) i b;
      '(msgs, t) ← match conflict with
                   | None => Ok (msgs, t)
                   | Some item =>
                       r ← q_read (tb_items t) item;
                       s ← q_free (tb_items t) item;
                       Ok (msgs ++ [error_to r], tb_set_items s t)
                   end;
      if negb (cvt_req_id cvt =? OG_INVALID_ID8) && negb (cvt_readonly_copies cvt =? 0) &&
         (cvt_req_mode cvt =? DRC_LOCK_EXCLUSIVE)
      then match inv with
           | OG_ERROR => Ok (msgs, cvt, t)
           | OG_SUCCESS =>
               let t := env t in
               b ← tb_get t i;
               t ← tb_put t i (set_readonly_copies 0 b);
               Ok (msgs, cvt, t)
           end
      else Ok (msgs, cvt, t)
  end.

(** [drc_release_page_owner]: the flag [released]. *)
Definition drc_release_page_owner (old_id : Z) pagid t : outcome (bool * ptab) :=
  o ← page_lookup t pagid;
  match o with
  | None => Crash Panic
  | Some i =>
      b ← tb_get t i;
      if negb (old_id =? claimed_owner b) then
        Ok (negb (old_id =? inst_id (converting b)), t)
      else if negb (inst_id (converting b) =? OG_INVALID_ID8) || negb (edp_map b =? 0) then Ok (false, t)
      else
        let h := buf_bucket t pagid in
        g ← gr_list_del (tb_res t) i;
        g ← gr_map_remove g h pagid;
        idx ← (a ← load (gr_pool g) i; Ok (item_idx a));
        g ← gr_memset g i;
        g ← gr_free g idx;
        Ok (true, tb_set_res g t)
  end.
End Handlers.
