(* ===== verification/DrcPageSim.v ===== *)
(** The page functions on linked queues implement the same functions on
    sequences: for every operation on one resource, running it on the item
    pool and running it on the sequence of waiting requests give the same
    answer, the same messages and corresponding resources. *)

From S2P Require Import Prelude DrcBitmap DrcPool DrcResMap DrcList DrcGlobalRes DrcQueue DrcTable DrcReform DrcPage.

(** The abstract page resource: its queue is the sequence of requests. *)
Notation apage := (buf_res (list drc_req_info)).

Section Sim.
Implicit Types (s : drc_res_pool drc_lock_item) (b : buf_res drc_list) (ab : apage) (E : gset Z) (f : Z).

(** [b] with the items in [s] stands for [ab]; the slots [E] are those of [s0]. *)
Definition res_rel E s0 s b f ab : Prop :=
  exists l, queue_rel E l s (convert_q b) f (convert_q ab) /\ ab = set_convert_q (convert_q ab) b /\ kept E s0 s.

Lemma res_rel_init E l s b f ab :
  queue_rel E l s (convert_q b) f (convert_q ab) -> ab = set_convert_q (convert_q ab) b -> res_rel E s s b f ab.
Proof. intros. exists l. done. Qed.

Lemma kept_trans E s1 s2 s3 : kept E s1 s2 -> kept E s2 s3 -> kept E s1 s3.
Proof. intros H1 H2 j Hj. by rewrite H2, H1. Qed.

(** A change of the other members keeps the relation. *)
Lemma res_rel_map E s0 s b f ab (g : forall Q, buf_res Q -> buf_res Q) :
  (forall Q (x : buf_res Q), convert_q (g Q x) = convert_q x) ->
  (forall Q Q' (x : buf_res Q) (q : Q'), g Q' (set_convert_q q x) = set_convert_q q (g Q x)) ->
  res_rel E s0 s b f ab -> res_rel E s0 s (g _ b) f (g _ ab).
Proof.
  intros Hq Hg (l & R & Hab & K). exists l. rewrite !Hq. split_and!; try done. rewrite Hab at 1. by rewrite Hg.
Qed.

Lemma res_rel_count E s0 s b f ab :
  res_rel E s0 s b f ab -> lst_count (convert_q b) = Z.of_nat (length (convert_q ab)).
Proof. intros (l & R & _). by eapply q_count_sim. Qed.

Lemma check_new_req_sim r b (q : list drc_req_info) :
  drc_check_new_req r (set_convert_q q b) = drc_check_new_req r b.
Proof. done. Qed.

Lemma keep_requester_wait_sim E s0 s r b is_try f ab :
  res_rel E s0 s b f ab ->
  match drc_keep_requester_wait f r ab is_try with
  | Crash w => drc_keep_requester_wait s r b is_try = Crash w
  | Ok (ret, cc, ir, r', f', ab') => exists s' b',
      drc_keep_requester_wait s r b is_try = Ok (ret, cc, ir, r', s', b') /\ res_rel E s0 s' b' f' ab'
  end.
Proof.
  intros (l & R & Hab & K). remember (convert_q ab) as rs eqn:Hrs. clear Hrs. subst ab.
  pose proof (q_count_sim _ _ _ _ _ _ R) as Hc.
  unfold drc_keep_requester_wait. cbn [set_convert_q converting claimed_owner readonly_copies convert_q mode].
  rewrite check_new_req_sim. cbn [q_count linked_queue sequence_queue]. rewrite Hc.
  assert (res_rel E s0 s b f (set_convert_q rs b)) as RR by (exists l; done).
  destruct (inst_id (converting b) =? OG_INVALID_ID8).
  { destruct (is_try && _); [by eauto 10|]. unfold knl_panic. destruct (Z.of_nat (length rs) =? 0); [|done].
    cbn [mbind outcome_bind]. eexists _, _. split; [done|]. by apply (res_rel_map _ _ _ _ _ _ (fun Q => set_converting r)). }
  destruct is_try; [by eauto 10|]. destruct (drc_check_new_req r b); [|by eauto 10].
  destruct (drc_is_retry_request (converting b) r).
  { destruct (req_time (converting b) <=? req_time r); [|by eauto 10].
    eexists _, _. split; [done|]. by apply (res_rel_map _ _ _ _ _ _ (fun Q => set_converting _)). }
  set (tst := fun i => drc_is_retry_request i r). set (g := fun i => if req_lsn i =? req_lsn r then Some r else None).
  assert (match q_enqueue f rs r with
    | Crash w => q_enqueue s (convert_q b) r = Crash w
    | Ok None => q_enqueue s (convert_q b) r = Ok None
    | Ok (Some (f', rs')) => exists s' q', q_enqueue s (convert_q b) r = Ok (Some (s', q')) /\
        res_rel E s0 s' (set_convert_q q' b) f' (set_convert_q rs' b) end) as HE.
  { cbn [q_enqueue linked_queue sequence_queue]. destruct (Z.eqb_spec f 0) as [Hf|Hf].
    - by eapply q_enqueue_full.
    - destruct (q_enqueue_sim _ _ _ _ _ _ r R Hf) as (l' & s' & q' & -> & R' & K').
      eexists _, _. split; [done|]. exists l'. split_and!; [done|done|by eapply kept_trans]. }
  destruct (Z.ltb_spec 0 (Z.of_nat (length rs))) as [Hpos|Hz].
  - cbn [q_update linked_queue sequence_queue]. pose proof (q_update_sim _ _ _ _ _ _ tst g R) as HU.
    destruct (sq_update rs tst g) as [[rs'|]|] eqn:EU; cbn [mbind outcome_bind option_bind].
    + destruct HU as (s' & -> & R' & K'). cbn [mbind outcome_bind]. eexists _, _. split; [done|].
      exists l. split_and!; [done|done|by eapply kept_trans].
    + rewrite HU. cbn [mbind outcome_bind]. by eauto 10.
    + rewrite HU. cbn [mbind outcome_bind]. destruct (q_enqueue f rs r) as [[[f' rs']|]|]; cbn [mbind outcome_bind].
      * destruct HE as (s' & q' & -> & ?). cbn [mbind outcome_bind]. eauto.
      * rewrite HE. cbn [mbind outcome_bind]. by eauto 10.
      * by rewrite HE.
  - cbn [mbind outcome_bind]. destruct (q_enqueue f rs r) as [[[f' rs']|]|]; cbn [mbind outcome_bind].
    + destruct HE as (s' & q' & -> & ?). cbn [mbind outcome_bind]. eauto.
    + rewrite HE. cbn [mbind outcome_bind]. by eauto 10.
    + by rewrite HE.
Qed.

(** The same while an item taken off the queue is still allocated. *)
Definition conflict_rel E s0 s b f ab (o : option Z) (ao : option (option drc_req_info)) : Prop :=
  match o, ao with
  | None, None => res_rel E s0 s b f ab
  | Some i, Some (Some r) => i ∉ E /\ (exists n, addr s !! i = Some (mk_litem n r)) /\
      exists l, queue_rel ({[i]} ∪ E) l s (convert_q b) f (convert_q ab) /\ ab = set_convert_q (convert_q ab) b /\
        kept E s0 s
  | _, _ => False
  end.

(** Reading and freeing that item. *)
Lemma conflict_free E s0 s b f ab i r :
  conflict_rel E s0 s b f ab (Some i) (Some (Some r)) ->
  lq_read s i = Ok r /\ exists s', drc_res_pool_free_item s i = Ok s' /\ res_rel E s0 s' b (f + 1) ab.
Proof.
  intros (Hi & (n & Hn) & l & R & Hab & K). split; [unfold lq_read, load; by rewrite Hn|].
  destruct (q_free_sim _ _ _ _ _ _ i R ltac:(set_solver)) as (s' & -> & R' & K').
  replace (({[i]} ∪ E) ∖ {[i]}) with E in R', K' by set_solver.
  exists s'. split; [done|]. exists l. split_and!; [done|done|by eapply kept_trans].
Qed.

Lemma check_first_req_sim E s0 s b f ab :
  res_rel E s0 s b f ab ->
  match drc_check_first_req_in_convert_queue f ab with
  | Crash w => False
  | Ok (ao, ab') => exists o b', drc_check_first_req_in_convert_queue s b = Ok (o, b') /\
      conflict_rel E s0 s b' f ab' o ao
  end.
Proof.
  intros (l & R & Hab & K). remember (convert_q ab) as rs eqn:Hrs. clear Hrs. subst ab.
  pose proof (q_count_sim _ _ _ _ _ _ R) as Hc. unfold drc_check_first_req_in_convert_queue.
  cbn [set_convert_q convert_q q_count linked_queue sequence_queue q_head q_read q_unlink]. rewrite Hc.
  assert (res_rel E s0 s b f (set_convert_q rs b)) as RR by (exists l; done).
  destruct rs as [|r rs]; [by eexists _, _|]. cbn [length Z.of_nat Z.eqb head].
  destruct (q_read_sim _ _ _ _ _ _ _ R) as [-> _]. cbn [mbind outcome_bind].
  rewrite check_new_req_sim. destruct (drc_check_new_req r b); [by eexists _, _|].
  destruct (q_unlink_sim _ _ _ _ _ _ _ R) as (l' & q' & -> & Hi & R' & n & Hn). cbn [mbind outcome_bind].
  eexists _, _. split; [done|]. split; [done|]. split; [by exists n|]. by exists l'.
Qed.

Lemma convert_next_loop_sim now n : forall E s0 s b f ab msgs,
  res_rel E s0 s b f ab ->
  match convert_next_loop n now f ab msgs with
  | Crash w => convert_next_loop n now s b msgs = Crash w
  | Ok (found, msgs', f', ab') => exists s' b', convert_next_loop n now s b msgs = Ok (found, msgs', s', b') /\
      res_rel E s0 s' b' f' ab'
  end.
Proof.
  induction n as [|n IH]; intros E s0 s b f ab msgs (l & R & Hab & K);
    remember (convert_q ab) as rs eqn:Hrs; clear Hrs; subst ab; pose proof (q_count_sim _ _ _ _ _ _ R) as Hc;
    (assert (res_rel E s0 s b f (set_convert_q rs b)) as RR by (exists l; done));
    cbn [convert_next_loop set_convert_q convert_q q_count linked_queue sequence_queue q_head q_read q_unlink q_valid q_free];
    rewrite Hc; destruct rs as [|r rs]; cbn [length Z.of_nat Z.eqb head].
  - eexists _, _. split; [done|]. by apply (res_rel_map _ _ _ _ _ _ (fun Q x => set_converting _ x)).
  - done.
  - eexists _, _. split; [done|]. by apply (res_rel_map _ _ _ _ _ _ (fun Q x => set_converting _ x)).
  - destruct (q_read_sim _ _ _ _ _ _ _ R) as [-> ->]. unfold knl_panic at 2. cbn [mbind outcome_bind].
    destruct (q_pop_sim _ _ _ _ _ _ _ R) as (l' & q' & s' & -> & -> & R' & K'). cbn [mbind outcome_bind].
    rewrite bool_decide_eq_true_2 by (by eexists). cbn [knl_panic mbind outcome_bind].
    assert (res_rel E s0 s' (set_converting r (set_convert_q q' b)) (f + 1) (set_converting r (set_convert_q rs b))) as RR'.
    { exists l'. split_and!; [done|done|by eapply kept_trans]. }
    destruct (req_time r + DCS_WAIT_TIMEOUT_US <=? now); [exact (IH _ _ _ _ _ _ _ RR')|]. by eexists _, _.
Qed.

Lemma convert_next_request_sim now E s0 s b f ab cvt :
  res_rel E s0 s b f ab ->
  match drc_convert_next_request now f ab cvt with
  | Crash w => drc_convert_next_request now s b cvt = Crash w
  | Ok (ao, msgs, cvt', f', ab') => exists o s' b',
      drc_convert_next_request now s b cvt = Ok (o, msgs, cvt', s', b') /\ conflict_rel E s0 s' b' f' ab' o ao
  end.
Proof.
  intros RR. unfold drc_convert_next_request. cbn [q_count linked_queue sequence_queue].
  rewrite <- (res_rel_count _ _ _ _ _ _ RR).
  assert (buf_page_id ab = buf_page_id b /\ claimed_owner ab = claimed_owner b) as [-> ->].
  { destruct RR as (l & _ & -> & _). done. }
  pose proof (convert_next_loop_sim now (Z.to_nat (lst_count (convert_q b))) _ _ _ _ _ _ [] RR) as HL.
  destruct (convert_next_loop _ now f ab []) as [[[[found msgs] f1] ab1]|w]; [|by rewrite HL].
  destruct HL as (s1 & b1 & -> & RR1). cbn [mbind outcome_bind]. destruct found; [|by eauto 10].
  pose proof (check_first_req_sim _ _ _ _ _ _ RR1) as HC.
  destruct (drc_check_first_req_in_convert_queue f1 ab1) as [[ao ab2]|w]; [|done].
  destruct HC as (o & b2 & -> & CR). cbn [mbind outcome_bind].
  eexists _, _, _. split; [|exact CR]. destruct RR1 as (l & _ & -> & _). done.
Qed.

(** An operation that does not look at the queue. *)
Definition queue_blind (g : forall Q, buf_res Q -> outcome (buf_res Q)) : Prop :=
  forall b (q : list drc_req_info), g _ (set_convert_q q b) = outcome_map (set_convert_q q) (g _ b) /\
    forall b', g _ b = Ok b' -> convert_q b' = convert_q b.

Lemma queue_blind_sim g E s0 s b f ab :
  queue_blind g -> res_rel E s0 s b f ab ->
  match g _ ab with
  | Crash w => g _ b = Crash w
  | Ok ab' => exists b', g _ b = Ok b' /\ res_rel E s0 s b' f ab'
  end.
Proof.
  intros Hg (l & R & Hab & K). remember (convert_q ab) as rs eqn:Hrs. clear Hrs. subst ab.
  destruct (Hg b rs) as [-> Hq]. destruct (g _ b) as [b'|w]; cbn; [|done].
  eexists. split; [done|]. exists l. by rewrite (Hq b' eq_refl).
Qed.

Lemma queue_blind_bind g h :
  queue_blind g -> queue_blind h -> queue_blind (fun Q (x : buf_res Q) => y ← g Q x; h Q y).
Proof.
  intros Hg Hh b q. destruct (Hg b q) as [-> Hgq]. destruct (g _ b) as [b1|]; cbn; [|done].
  destruct (Hh b1 q) as [-> Hhq]. split; [done|]. intros b' Hb'. by rewrite (Hhq _ Hb'), (Hgq _ eq_refl).
Qed.

Ltac tests := repeat (match goal with |- context [if ?c then _ else _] => destruct c end; cbn).
Ltac blind := intros b q; split;
  [destruct b; unfold claim_grant, claim_lsn, drc_clean_buf_res, knl_panic; cbn; tests; reflexivity
  |intros b'; unfold claim_grant, claim_lsn, drc_clean_buf_res, knl_panic; tests; try discriminate;
   injection 1 as <-; reflexivity].

Lemma claim_grant_blind c : queue_blind (fun Q => claim_grant c).
Proof. blind. Qed.

Lemma claim_lsn_blind c : queue_blind (fun Q => claim_lsn c).
Proof. blind. Qed.

Lemma clean_buf_res_blind : queue_blind (fun Q => drc_clean_buf_res).
Proof. blind. Qed.

Lemma claim_new_owner_blind c : queue_blind (fun Q => drc_claim_new_page_owner c).
Proof.
  intros b q. pose proof (queue_blind_bind _ _ (claim_grant_blind c) (claim_lsn_blind c)
    (set_pending DRC_RES_INVALID_ACTION b) q) as [E Eq]. unfold drc_claim_new_page_owner.
  change (set_pending DRC_RES_INVALID_ACTION (set_convert_q q b))
    with (set_convert_q q (set_pending DRC_RES_INVALID_ACTION b)).
  cbn [set_convert_q converting pending mode claimed_owner set_pending].
  destruct (knl_panic (_ =? _)); [|done]. cbn [mbind outcome_bind]. destruct (knl_panic _); [|done]. cbn [mbind outcome_bind].
  destruct ((ci_mode c <=? mode b) && (claimed_owner b =? new_id c)); [|by split].
  split; [done|]. by intros b' [= <-].
Qed.

Lemma claim_on_resource_sim now E s0 s b f ab c cvt :
  res_rel E s0 s b f ab ->
  match claim_on_resource now f ab c cvt with
  | Crash w => claim_on_resource now s b c cvt = Crash w
  | Ok (ao, msgs, cvt', f', ab') => exists o s' b',
      claim_on_resource now s b c cvt = Ok (o, msgs, cvt', s', b') /\ conflict_rel E s0 s' b' f' ab' o ao
  end.
Proof.
  intros RR. assert (converting ab = converting b /\ drc_claim_info_is_invalid c ab = drc_claim_info_is_invalid c b)
    as [Ec Ei] by (destruct RR as (l & _ & -> & _); done).
  unfold claim_on_resource. rewrite Ec, Ei.
  destruct (inst_id (converting b) =? OG_INVALID_ID8); [by exists None, s, b|].
  destruct (negb _); [by exists None, s, b|]. destruct (drc_claim_info_is_invalid c b); [by exists None, s, b|].
  pose proof (queue_blind_sim _ _ _ _ _ _ _ (claim_new_owner_blind c) RR) as HC. cbn beta in HC.
  destruct (drc_claim_new_page_owner c ab) as [ab'|w]; [|by rewrite HC].
  destruct HC as (b' & -> & RR'). cbn [mbind outcome_bind]. by apply convert_next_request_sim.
Qed.

Lemma request_on_resource_sim v E s0 s b f ab r pagid is_try res :
  res_rel E s0 s b f ab ->
  match request_on_resource v f ab r pagid is_try res with
  | Crash w => request_on_resource v s b r pagid is_try res = Crash w
  | Ok (ret, res', cc, r', f', ab') => exists s' b',
      request_on_resource v s b r pagid is_try res = Ok (ret, res', cc, r', s', b') /\ res_rel E s0 s' b' f' ab'
  end.
Proof.
  intros RR. assert (pending ab = pending b /\ claimed_owner ab = claimed_owner b) as [Ep Eo]
    by (destruct RR as (l & _ & -> & _); done).
  unfold request_on_resource. rewrite Ep, Eo. destruct (bool_decide _); [by eauto 10|].
  destruct ((claimed_owner b =? OG_INVALID_ID8) && _); [by eauto 10|].
  assert (match (if claimed_owner b =? OG_INVALID_ID8 then drc_clean_buf_res ab else Ok ab) with
    | Crash w => (if claimed_owner b =? OG_INVALID_ID8 then drc_clean_buf_res b else Ok b) = Crash w
    | Ok ab' => exists b', (if claimed_owner b =? OG_INVALID_ID8 then drc_clean_buf_res b else Ok b) = Ok b' /\
        res_rel E s0 s b' f ab' end) as HC.
  { destruct (claimed_owner b =? OG_INVALID_ID8); [exact (queue_blind_sim _ _ _ _ _ _ _ clean_buf_res_blind RR)|by exists b]. }
  destruct (if claimed_owner b =? OG_INVALID_ID8 then drc_clean_buf_res ab else Ok ab) as [ab1|w];
    [|by rewrite HC]. destruct HC as (b1 & -> & RR1). cbn [mbind outcome_bind].
  assert (claimed_owner ab1 = claimed_owner b1 /\ converting ab1 = converting b1) as [-> Ecv]
    by (destruct RR1 as (l & _ & -> & _); done).
  destruct (claimed_owner b1 =? OG_INVALID_ID8).
  { eexists _, _. split; [done|]. cbn [converting set_mode set_claimed_owner]. rewrite Ecv.
    apply (res_rel_map _ _ _ _ _ _ (fun Q x => set_converting _ (set_mode _ (set_claimed_owner _ x)))); done. }
  pose proof (keep_requester_wait_sim _ _ _ r _ is_try _ _ RR1) as HK.
  destruct (drc_keep_requester_wait f r ab1 is_try) as [[[[[[ret cc] ir] r'] f'] ab2]|w]; [|by rewrite HK].
  destruct HK as (s2 & b2 & -> & RR2). cbn [mbind outcome_bind]. destruct ret; [|by eauto 10].
  assert (claimed_owner ab2 = claimed_owner b2 /\ converting ab2 = converting b2 /\ pending ab2 = pending b2 /\
    readonly_copies ab2 = readonly_copies b2) as (-> & -> & -> & ->) by (destruct RR2 as (l & _ & -> & _); done).
  destruct (knl_panic _); [|done]. cbn [mbind outcome_bind]. eexists _, _. split; [done|].
  destruct cc; [|done]. by apply (res_rel_map _ _ _ _ _ _ (fun Q x => set_converting _ x)).
Qed.
End Sim.
