(* ===== verification/DrcPageInv.v ===== *)
(** What holds of every page resource, and that no operation breaks it or
    panics: the functions of [DrcPage] on sequences of requests. *)

From S2P Require Import Prelude DrcBitmap DrcPool DrcList DrcQueue DrcTable DrcReform DrcPage DrcPageSim.

(** A page whose owner is gone can be given a new one: a copy if there is
    one, the latest past image otherwise. *)
Definition orphan_ok (b : apage) : Prop :=
  readonly_copies b = 0 -> edp_map b <> 0 -> latest_edp b <> OG_INVALID_ID8 /\ mode b <> DRC_LOCK_SHARE.

(** The invariant of a page resource. *)
Record page_ok (b : apage) : Prop := {
  po_copies : is_u64 (readonly_copies b);
  po_edp : is_u64 (edp_map b);
  po_owner : opt_inst (claimed_owner b);
  po_latest : opt_inst (latest_edp b);
  po_conv : opt_inst (inst_id (converting b));
  po_queue : Forall (fun r => is_inst (inst_id r)) (convert_q b);
  (** Copies exist in shared mode only. *)
  po_share : readonly_copies b <> 0 -> mode b = DRC_LOCK_SHARE;
  (** Nobody waits when nobody is converting. *)
  po_idle : inst_id (converting b) = OG_INVALID_ID8 -> convert_q b = [];
  (** A resource being recycled has no converting request. *)
  po_pending : pending b = DRC_RES_PENDING_ACTION -> inst_id (converting b) = OG_INVALID_ID8;
  po_action : pending b <> DRC_RES_CLEAN_EDP_ACTION;
  (** Requests are converted on an owned page only. *)
  po_owned : inst_id (converting b) <> OG_INVALID_ID8 -> claimed_owner b <> OG_INVALID_ID8;
  po_orphan : claimed_owner b = OG_INVALID_ID8 -> orphan_ok b;
  po_used : is_used b = true;
}.

Lemma page_ok_new r pagid : is_inst (inst_id r) -> page_ok (new_buf_res [] r pagid).
Proof.
  intros Hr. pose proof (is_inst_ne _ Hr). split; cbn; auto with drc; try done.
Qed.

(** ** Choosing a new owner *)
Lemma select_loop_mem n : forall index copies,
  0 <= index -> index + Z.of_nat n = 64 -> (exists i, index <= i /\ bm_mem copies i) ->
  bm_mem copies (select_loop n index copies) /\
  forall i, index <= i < select_loop n index copies -> ~ bm_mem copies i.
Proof.
  induction n as [|n IH]; intros index copies Hi Hn (i & Hle & Hm); cbn [select_loop].
  { destruct Hm. lia. }
  destruct (drc_bitmap64_exist copies index) eqn:E.
  { split; [apply bm_exist_spec; [lia|done]|]. lia. }
  assert (~ bm_mem copies index) as Hx by (intros Hx%bm_exist_spec; [congruence|lia]).
  destruct (IH (index + 1) copies) as [H1 H2]; [lia | lia | |].
  - exists i. split; [|done]. assert (i <> index) by (intros ->; done). lia.
  - split; [done|]. intros j Hj. destruct (decide (j = index)) as [->|]; [done|]. apply H2. lia.
Qed.

(** The selected instance is the smallest one that has a copy. *)
Lemma select_one_ok copies :
  is_u64 copies -> copies <> 0 ->
  bm_mem copies (drc_select_one_instance_from_readonly_copy copies) /\
  forall i, bm_mem copies i -> drc_select_one_instance_from_readonly_copy copies <= i.
Proof.
  intros Hu Hn. destruct (bm_nonzero _ Hu Hn) as (i & Hi).
  destruct (select_loop_mem 64 0 copies) as [H1 H2]; [lia | lia | exists i; split; [apply Hi|done] |].
  unfold drc_select_one_instance_from_readonly_copy. change (Z.to_nat OG_MAX_INSTANCES) with 64%nat.
  split; [done|]. intros j Hj. destruct (Z.le_gt_cases (select_loop 64 0 copies) j); [done|].
  exfalso. apply (H2 j); [|done]. destruct Hj. lia.
Qed.

Lemma bm_mem_inst b i : bm_mem b i -> is_inst i.
Proof. by intros [? _]. Qed.

(** [drc_clean_buf_res] finds an owner for an orphan that has a copy or a
    past image, and leaves one that has neither alone. *)
Lemma clean_buf_res_ok b :
  page_ok b -> claimed_owner b = OG_INVALID_ID8 ->
  exists b', drc_clean_buf_res b = Ok b' /\ page_ok b' /\ buf_page_id b' = buf_page_id b /\ convert_q b' = convert_q b /\
    converting b' = converting b /\ (pending b <> DRC_RES_PENDING_ACTION -> pending b' <> DRC_RES_PENDING_ACTION) /\
    (claimed_owner b' = OG_INVALID_ID8 -> readonly_copies b = 0 /\ edp_map b = 0 /\ b' = b).
Proof.
  intros I Ho. pose proof (po_owned _ I) as Hcv. unfold drc_clean_buf_res. rewrite Ho. cbn [knl_panic Z.eqb].
  destruct (Z.eqb_spec (readonly_copies b) 0) as [Hc|Hc]; cbn [negb mbind outcome_bind].
  - destruct (Z.eqb_spec (edp_map b) 0) as [He|He]; cbn [negb].
    { exists b. split_and!; auto. }
    destruct (po_orphan _ I Ho Hc He) as [Hl Hm].
    rewrite (proj2 (Z.eqb_neq _ _) Hl), (proj2 (Z.eqb_neq _ _) Hm). cbn [negb knl_panic mbind outcome_bind].
    eexists. split; [done|]. cbn. split_and!; try done.
    destruct I. split; cbn; auto; try done; intros ?; congruence.
  - destruct (select_one_ok _ (po_copies _ I) Hc) as [Hs _]. pose proof (bm_mem_inst _ _ Hs) as Hi.
    rewrite (po_share _ I Hc). cbn [knl_panic mbind outcome_bind Z.eqb]. eexists. split; [done|].
    pose proof (is_inst_ne _ Hi). cbn. split_and!; try done.
    pose proof (po_share _ I Hc). destruct I. split; cbn; auto with drc; try done; intros ?; congruence.
Qed.

(** ** A request *)
Lemma sq_update_Forall (P : drc_req_info -> Prop) l t g l' :
  Forall P l -> (forall r r', P r -> t r = true -> g r = Some r' -> P r') -> sq_update l t g = Some (Some l') -> Forall P l'.
Proof.
  intros Hl Hg. revert l'. induction Hl as [|r l Hr Hl IH]; intros l'; cbn; [done|].
  destruct (t r) eqn:Et.
  - destruct (g r) as [r'|] eqn:Eg; cbn; [|done]. intros [= <-]. constructor; [|done]. by eapply Hg.
  - destruct (sq_update l t g) as [[l''|]|]; try done. intros [= <-]. constructor; [done|]. by apply IH.
Qed.

(** [drc_keep_requester_wait] keeps the invariant; the requester is the
    converting one exactly when it says so. *)
Lemma keep_requester_wait_ok f r b is_try :
  page_ok b -> is_inst (inst_id r) -> claimed_owner b <> OG_INVALID_ID8 -> pending b <> DRC_RES_PENDING_ACTION ->
  exists ret cc ir r' f' b', drc_keep_requester_wait f r b is_try = Ok (ret, cc, ir, r', f', b') /\ page_ok b' /\
    inst_id r' = inst_id r /\ claimed_owner b' = claimed_owner b /\ readonly_copies b' = readonly_copies b /\
    pending b' = pending b /\ mode b' = mode b /\ buf_page_id b' = buf_page_id b /\
    (cc = true -> ret = OG_SUCCESS /\ converting b' = r') /\
    (is_try = true -> cc = true -> claimed_owner b = inst_id r).
Proof.
  intros I Hr Ho Hp. pose proof (is_inst_ne _ Hr) as Hrn. unfold drc_keep_requester_wait.
  assert (forall r', is_inst (inst_id r') -> (inst_id (converting b) = OG_INVALID_ID8 -> convert_q b = []) ->
    page_ok (set_converting r' b)) as Hset.
  { intros r' Hr' Hq. pose proof (is_inst_ne _ Hr'). destruct I. split; cbn; auto with drc; done. }
  assert (forall q, Forall (fun r => is_inst (inst_id r)) q -> inst_id (converting b) <> OG_INVALID_ID8 ->
    page_ok (set_convert_q q b)) as Hq.
  { intros q Hq Hc. destruct I. split; cbn; auto; done. }
  destruct (Z.eqb_spec (inst_id (converting b)) OG_INVALID_ID8) as [Hc|Hc].
  { destruct is_try; cbn [andb]; [destruct (Z.eqb_spec (claimed_owner b) (inst_id r)); cbn [negb orb];
      [destruct (negb _)|]|]; rewrite ?(po_idle _ I Hc); cbn [q_count sequence_queue length Z.of_nat Z.eqb knl_panic mbind outcome_bind];
      eexists _, _, _, _, _, _; (split; [done|]); (split; [first [done | apply Hset; [done|apply I]]|]); split_and!; done. }
  destruct is_try; [eexists _, _, _, _, _, _; (split; [done|]); split_and!; done|].
  destruct (drc_check_new_req r b); [|eexists _, _, _, _, _, _; (split; [done|]); split_and!; done].
  destruct (drc_is_retry_request (converting b) r).
  { destruct (_ <=? _); eexists _, _, _, _, _, _; (split; [done|]); split_and!; try done. apply Hset; [done|apply I]. }
  cbn [q_count sequence_queue q_update q_enqueue].
  set (o := if 0 <? _ then _ else _).
  assert (o = Ok None \/ o = Ok (Some None) \/ exists q, o = Ok (Some (Some (f, q))) /\ Forall (fun r => is_inst (inst_id r)) q)
    as [->|[->|(q & -> & HFq)]]; cbn [mbind outcome_bind].
  { unfold o. destruct (0 <? _); [|by left].
    destruct (sq_update _ _ _) as [[q|]|] eqn:EU; cbn; [|by right; left|by left]. right; right. exists q. split; [done|].
    eapply sq_update_Forall; [apply I| |exact EU]. intros x x' _ _. cbn. destruct (_ =? _); [|done]. by intros [= <-]. }
  - destruct (f =? 0); eexists _, _, _, _, _, _; (split; [done|]); split_and!; try done.
    apply Hq; [|done]. apply Forall_app. split; [apply I|by constructor].
  - eexists _, _, _, _, _, _; (split; [done|]); split_and!; done.
  - eexists _, _, _, _, _, _; (split; [done|]); split_and!; try done. by apply Hq.
Qed.

Lemma page_ok_owner_result x b : page_ok b -> page_ok (set_converting (set_owner_result x (converting b)) b).
Proof. intros []. split; done. Qed.

(** [drc_request_page_owner] on a known page: no panic, and the invariant. *)
Lemma request_on_resource_ok v f b r pagid is_try res :
  page_ok b -> is_inst (inst_id r) ->
  exists ret res' cc r' f' b', request_on_resource v f b r pagid is_try res = Ok (ret, res', cc, r', f', b') /\
    page_ok b' /\ buf_page_id b' = buf_page_id b /\ inst_id r' = inst_id r /\
    (cc = true -> ret = OG_SUCCESS /\ inst_id (converting b') = inst_id r /\ req_mode (converting b') = req_mode r').
Proof.
  intros I Hr. unfold request_on_resource.
  case_bool_decide as Hp; [eexists _, _, _, _, _, _; (split; [done|]); split_and!; done|].
  destruct ((claimed_owner b =? _) && _); [eexists _, _, _, _, _, _; (split; [done|]); split_and!; done|].
  assert (exists b1, (if claimed_owner b =? OG_INVALID_ID8 then drc_clean_buf_res b else Ok b) = Ok b1 /\ page_ok b1 /\
    buf_page_id b1 = buf_page_id b /\ pending b1 <> DRC_RES_PENDING_ACTION /\
    (claimed_owner b1 = OG_INVALID_ID8 -> readonly_copies b1 = 0)) as (b1 & -> & I1 & Hpg & Hp1 & Hg).
  { destruct (Z.eqb_spec (claimed_owner b) OG_INVALID_ID8) as [Ho|Ho]; [|by exists b].
    destruct (clean_buf_res_ok b I Ho) as (b1 & -> & I1 & ? & _ & _ & Hp1 & Hg). exists b1. split_and!; auto.
    intros Ho1. destruct (Hg Ho1) as (? & _ & ->). done. }
  cbn [mbind outcome_bind]. destruct (Z.eqb_spec (claimed_owner b1) OG_INVALID_ID8) as [Ho|Ho].
  { eexists _, _, _, _, _, _. split; [done|]. split_and!; try done. pose proof (po_owned _ I1) as Hcv.
    specialize (Hg Ho). pose proof (is_inst_ne _ Hr). destruct I1. split; cbn; auto with drc; congruence. }
  destruct (keep_requester_wait_ok f r b1 is_try I1 Hr Ho Hp1) as
    (ret & cc & ir & r' & f' & b' & -> & I' & Hri & Eo & Ec & Ep & Em & Eg & Hcc & Htry). cbn [mbind outcome_bind].
  rewrite Hpg in Eg. destruct ret; [|eexists _, _, _, _, _, _; (split; [done|]); split_and!; done].
  set (ty := if cc then (if claimed_owner b' =? inst_id r' then DRC_REQ_OWNER_ALREADY_OWNER else _) else _).
  assert (knl_panic (negb is_try || negb (bool_decide (ty = DRC_REQ_OWNER_CONVERTING))) = Ok ()) as ->.
  { destruct is_try; [|done]. cbn. unfold ty. destruct cc; [|done].
    rewrite Eo, Hri, (proj2 (Z.eqb_eq _ _) (Htry eq_refl eq_refl)). done. }
  cbn [mbind outcome_bind]. eexists _, _, _, _, _, _. split; [done|]. split_and!; [| |done|].
  - destruct cc; [by apply page_ok_owner_result|done].
  - by destruct cc.
  - intros ->. destruct (Hcc eq_refl) as [_ ->]. by rewrite <- Hri.
Qed.

(** ** A claim *)

(** The request [r] and the one under conversion would wait for each other:
    the owner of the page wants it for itself while the instance of [r] holds
    a copy that has to go, or [r] comes from the owner while another instance
    waits for the owner. *)
Definition conflict (r : drc_req_info) (b : apage) : Prop :=
  (inst_id (converting b) = claimed_owner b /\ mode b = DRC_LOCK_SHARE /\ req_mode (converting b) = DRC_LOCK_EXCLUSIVE /\
   inst_id r <> claimed_owner b /\ bm_mem (readonly_copies b) (inst_id r)) \/
  (inst_id r = claimed_owner b /\ inst_id (converting b) <> claimed_owner b).

Lemma check_new_req_conflict r b :
  is_inst (inst_id r) ->
  match drc_check_new_req r b with OG_ERROR => conflict r b | OG_SUCCESS => ~ conflict r b end.
Proof.
  intros Hr. unfold drc_check_new_req, conflict.
  pose proof (bm_exist_spec (readonly_copies b) (inst_id r) Hr) as Hx.
  destruct (drc_bitmap64_exist (readonly_copies b) (inst_id r));
    destruct (Z.eqb_spec (inst_id (converting b)) (claimed_owner b)), (Z.eqb_spec (mode b) DRC_LOCK_SHARE),
      (Z.eqb_spec (req_mode (converting b)) DRC_LOCK_EXCLUSIVE), (Z.eqb_spec (inst_id r) (claimed_owner b));
    cbn [andb negb]; try (destruct (Z.eqb_spec (inst_id r) (inst_id (converting b))); cbn [negb]);
    try (intuition congruence).
Qed.

(** A request that waited too long, and the part of a queue from the first
    request that did not. *)
Definition timed_out (now : Z) (r : drc_req_info) : bool := req_time r + DCS_WAIT_TIMEOUT_US <=? now.

Fixpoint skip_dead (now : Z) (q : list drc_req_info) : list drc_req_info :=
  match q with
  | [] => []
  | r :: q' => if timed_out now r then skip_dead now q' else q
  end.

Fixpoint dead (now : Z) (q : list drc_req_info) : list drc_req_info :=
  match q with
  | [] => []
  | r :: q' => if timed_out now r then r :: dead now q' else []
  end.

Lemma dead_skip now q : q = dead now q ++ skip_dead now q.
Proof. induction q as [|r q IH]; cbn; [done|]. destruct (timed_out now r); cbn; congruence. Qed.

Lemma dead_timed_out now q : Forall (fun r => timed_out now r = true) (dead now q).
Proof. induction q as [|r q IH]; cbn; [constructor|]. destruct (timed_out now r) eqn:E; by constructor. Qed.

Lemma skip_dead_alive now q r q' : skip_dead now q = r :: q' -> timed_out now r = false.
Proof.
  induction q as [|x q IH]; cbn; [done|]. destruct (timed_out now x) eqn:E; [done|]. by intros [= <- <-].
Qed.

(** The loop of [drc_convert_next_request] takes the requests in order, and
    stops at the first that has not timed out. *)
Lemma convert_next_loop_spec now : forall q f b msgs,
  convert_q b = q ->
  match skip_dead now q with
  | r :: q' => convert_next_loop (length q) now f b msgs =
      Ok (true, msgs ++ (error_to <$> dead now q), f + Z.of_nat (length (dead now q)) + 1,
          set_converting r (set_convert_q q' b))
  | [] => exists cv, inst_id cv = OG_INVALID_ID8 /\ req_mode cv = DRC_LOCK_NULL /\
      convert_next_loop (length q) now f b msgs =
      Ok (false, msgs ++ (error_to <$> dead now q), f + Z.of_nat (length (dead now q)),
          set_converting cv (set_convert_q [] b))
  end.
Proof.
  induction q as [|r q IH]; intros f b msgs Hq; cbn [skip_dead dead].
  - exists (set_inst_sid OG_INVALID_ID16 (set_req_mode DRC_LOCK_NULL (set_inst_id OG_INVALID_ID8 (converting b)))).
    cbn [length convert_next_loop q_count sequence_queue]. rewrite Hq. cbn [length Z.of_nat Z.eqb fmap list_fmap].
    rewrite app_nil_r, Z.add_0_r. split_and!; [done..|]. destruct b; cbn in Hq; by subst.
  - cbn [length convert_next_loop q_count sequence_queue q_head q_valid q_read q_unlink q_free]. rewrite Hq.
    cbn [length Z.of_nat Z.eqb head]. rewrite bool_decide_eq_true_2 by (by eexists).
    cbn [knl_panic mbind outcome_bind]. fold (timed_out now r). destruct (timed_out now r) eqn:Et.
    + specialize (IH (f + 1) (set_converting r (set_convert_q q b)) (msgs ++ [error_to r]) eq_refl).
      cbn [length fmap list_fmap]. destruct (skip_dead now q) as [|r' q'].
      * destruct IH as (cv & H1 & H2 & ->). exists cv. split_and!; try done.
        rewrite <- app_assoc. do 3 f_equal. lia.
      * rewrite IH, <- app_assoc. do 3 f_equal. lia.
    + cbn [length fmap list_fmap Z.of_nat]. rewrite app_nil_r, Z.add_0_r. done.
Qed.

Lemma skip_dead_Forall P now q : Forall P q -> Forall P (skip_dead now q).
Proof. intros Hq. rewrite (dead_skip now q) in Hq. by apply Forall_app in Hq as [_ ?]. Qed.

(** What [drc_convert_next_request] leaves of the resource, and the requester
    it turns away. *)
Lemma convert_next_request_ok now f b cvt :
  page_ok b -> claimed_owner b <> OG_INVALID_ID8 -> pending b <> DRC_RES_PENDING_ACTION ->
  match skip_dead now (convert_q b) with
  | [] => exists cvt' f' b', drc_convert_next_request now f b cvt =
      Ok (None, error_to <$> dead now (convert_q b), cvt', f', b') /\ page_ok b' /\
      buf_page_id b' = buf_page_id b /\ cvt_req_id cvt' = cvt_req_id cvt /\ inst_id (converting b') = OG_INVALID_ID8 /\
      b' = set_converting (converting b') (set_convert_q [] b) /\ f' = f + Z.of_nat (length (dead now (convert_q b)))
  | r :: q => exists o f' b', drc_convert_next_request now f b cvt =
      Ok (o, error_to <$> dead now (convert_q b), cvt_of b', f', b') /\ page_ok b' /\
      buf_page_id b' = buf_page_id b /\ claimed_owner b' = claimed_owner b /\ mode b' = mode b /\
      readonly_copies b' = readonly_copies b /\ converting b' = r /\
      ((o = None /\ convert_q b' = q /\ forall r', head q = Some r' -> ~ conflict r' b') \/
       (exists r', o = Some (Some r') /\ q = r' :: convert_q b' /\ conflict r' b')) /\
      b' = set_converting r (set_convert_q (convert_q b') b) /\ f' = f + Z.of_nat (length (dead now (convert_q b))) + 1
  end.
Proof.
  intros I Ho Hp. unfold drc_convert_next_request. cbn [q_count sequence_queue]. rewrite Nat2Z.id.
  pose proof (convert_next_loop_spec now (convert_q b) f b [] eq_refl) as HL.
  pose proof (skip_dead_Forall _ now _ (po_queue _ I)) as HF.
  destruct (skip_dead now (convert_q b)) as [|r q].
  - destruct HL as (cv & Hcv & _ & ->). cbn [mbind outcome_bind app]. eexists _, _, _. split; [done|].
    split_and!; try done. destruct I. split; cbn; rewrite ?Hcv; auto with drc; done.
  - rewrite HL. cbn [mbind outcome_bind app]. apply Forall_cons in HF as [Hr HF].
    pose proof (is_inst_ne _ Hr). set (b1 := set_converting r (set_convert_q q b)).
    assert (forall q', Forall (fun r => is_inst (inst_id r)) q' -> page_ok (set_convert_q q' b1)) as Hok.
    { intros q' Hq'. destruct I. split; cbn; auto with drc; done. }
    unfold drc_check_first_req_in_convert_queue.
    cbn [q_count sequence_queue convert_q set_converting set_convert_q b1 q_head q_read q_unlink].
    destruct q as [|r' q]; cbn [length Z.of_nat Z.eqb head mbind outcome_bind].
    { eexists None, _, b1. split; [done|]. split_and!; try done; [by apply (Hok [])|by left]. }
    apply Forall_cons in HF as HF'. destruct HF' as [Hr' HF'].
    pose proof (check_new_req_conflict r' b1 Hr') as Hcf.
    destruct (drc_check_new_req r' b1); cbn [mbind outcome_bind];
      [eexists None, _, b1|eexists (Some (Some r')), _, (set_convert_q q b1)]; (split; [done|]).
    + split_and!; try done; [by apply (Hok (r' :: q))|left]. split_and!; try done. by intros ? [= <-].
    + split_and!; try done; [by apply (Hok q)|]. right. by exists r'.
Qed.

(** The grant itself. *)
Lemma claim_grant_ok b c :
  page_ok b -> is_inst (claimed_owner b) -> is_inst (new_id c) -> pending b = DRC_RES_INVALID_ACTION ->
  (ci_mode c <> DRC_LOCK_SHARE -> has_edp c = true -> ci_mode c = DRC_LOCK_EXCLUSIVE /\ ci_lsn c <> 0) ->
  exists b', claim_grant c b = Ok b' /\ page_ok b' /\ is_inst (claimed_owner b') /\ pending b' = DRC_RES_INVALID_ACTION /\
    buf_page_id b' = buf_page_id b /\
    convert_q b' = convert_q b /\ converting b' = converting b /\ buf_lsn b' = buf_lsn b /\ mode b' = ci_mode c /\
    (ci_mode c <> DRC_LOCK_SHARE -> claimed_owner b' = new_id c /\ readonly_copies b' = 0 /\
       (forall i, bm_mem (edp_map b') i <->
          (bm_mem (edp_map b) i /\ i <> new_id c) \/ (has_edp c = true /\ i = claimed_owner b))) /\
    (ci_mode c = DRC_LOCK_SHARE -> claimed_owner b' = claimed_owner b /\
       (forall i, bm_mem (readonly_copies b') i <-> bm_mem (readonly_copies b) i \/ i = new_id c)).
Proof.
  intros I Hoi Hni Hp Hedp. pose proof (is_inst_ne _ Hoi) as Hon. pose proof (is_inst_ne _ Hni) as Hnn.
  unfold claim_grant. destruct (Z.eqb_spec (ci_mode c) DRC_LOCK_SHARE) as [Hs|Hs].
  - rewrite (proj2 (Z.eqb_neq _ _) Hon). cbn [negb knl_panic mbind outcome_bind]. eexists. split; [done|].
    split; [destruct I; split; cbn; auto with drc; congruence|]. cbn. split_and!; try done. intros _. split; [done|].
    intros i. rewrite bm_set_mem by done. tauto.
  - destruct (has_edp c) eqn:Ee.
    + destruct (Hedp Hs eq_refl) as [Hx Hl]. rewrite (proj2 (Z.eqb_eq _ _) Hx), (proj2 (Z.eqb_neq _ _) Hl).
      cbn [negb knl_panic mbind outcome_bind]. eexists. split; [done|].
      split; [destruct I; split; cbn; auto with drc; congruence|]. cbn. split_and!; try done. intros _. split_and!; try done.
      intros i. rewrite bm_set_mem, bm_clear_mem by (done || apply Hni). tauto.
    + eexists. split; [done|]. split; [destruct I; split; cbn; auto with drc; congruence|].
      cbn. split_and!; try done. intros _. split_and!; try done.
      intros i. rewrite bm_clear_mem by apply Hni. split; [intuition congruence|]. intros [|[? _]]; [tauto|done].
Qed.

(** [drc_claim_new_page_owner] never panics on a claim that matches the
    converting request and that [drc_claim_info_is_invalid] accepts; a claim
    in exclusive mode makes the claimer the owner and removes every copy, a
    claim in shared mode adds a copy and keeps the owner. *)
Lemma claim_new_owner_ok b c :
  page_ok b -> inst_id (converting b) <> OG_INVALID_ID8 -> drc_is_same_claim_request (converting b) c = true ->
  drc_claim_info_is_invalid c b = false ->
  exists b', drc_claim_new_page_owner c b = Ok b' /\ page_ok b' /\ claimed_owner b' <> OG_INVALID_ID8 /\
    pending b' = DRC_RES_INVALID_ACTION /\ buf_page_id b' = buf_page_id b /\
    convert_q b' = convert_q b /\ converting b' = converting b /\
    ((ci_mode c <= mode b /\ claimed_owner b = new_id c /\ b' = set_pending DRC_RES_INVALID_ACTION b) \/
     (mode b' = ci_mode c /\ buf_lsn b <= buf_lsn b' /\
      (ci_mode c <> DRC_LOCK_SHARE -> claimed_owner b' = new_id c /\ readonly_copies b' = 0 /\
        (forall i, bm_mem (edp_map b') i <->
          (bm_mem (edp_map b) i /\ i <> new_id c) \/ (has_edp c = true /\ i = claimed_owner b))) /\
      (ci_mode c = DRC_LOCK_SHARE -> claimed_owner b' = claimed_owner b /\
       (forall i, bm_mem (readonly_copies b') i <-> bm_mem (readonly_copies b) i \/ i = new_id c)))).
Proof.
  intros I Hc Hsame Hinv. apply andb_true_iff in Hsame as [[Hid _]%andb_true_iff Hm].
  apply Z.eqb_eq in Hid, Hm. apply orb_false_iff in Hinv as [Hinv Hlsn].
  pose proof (po_owned _ I Hc) as Ho. pose proof (opt_inst_is _ (po_owner _ I) Ho) as Hoi.
  pose proof (opt_inst_is _ (po_conv _ I) Hc) as Hni. rewrite Hid in Hni.
  assert (pending b = DRC_RES_INVALID_ACTION \/ pending b = DRC_RES_SHARE_ACTION \/ pending b = DRC_RES_EXCLUSIVE_ACTION)
    as Hpd. { pose proof (po_pending _ I). pose proof (po_action _ I). destruct (pending b); auto; tauto. }
  unfold drc_claim_new_page_owner. rewrite (proj2 (Z.eqb_eq _ _) Hm). cbn [knl_panic mbind outcome_bind].
  assert (bool_decide (pending b = DRC_RES_INVALID_ACTION) || bool_decide (pending b = DRC_RES_SHARE_ACTION) ||
          bool_decide (pending b = DRC_RES_EXCLUSIVE_ACTION) = true) as ->.
  { destruct Hpd as [->|[->| ->]]; done. }
  cbn [knl_panic mbind outcome_bind].
  assert (page_ok (set_pending DRC_RES_INVALID_ACTION b)) as I1 by (destruct I; split; cbn; auto; done).
  set (b1 := set_pending DRC_RES_INVALID_ACTION b) in *.
  destruct ((ci_mode c <=? mode b1) && (claimed_owner b1 =? new_id c)) eqn:Ea.
  { apply andb_true_iff in Ea as [Ea%Z.leb_le Eb%Z.eqb_eq]. eexists. split; [done|]. split_and!; try done. by left. }
  destruct (claim_grant_ok b1 c I1 Hoi Hni eq_refl) as (b2 & -> & I2 & Ho2 & Hp2 & Hg2 & Hq2 & Hc2 & Hl2 & Hm2 & Hx & Hs).
  { intros Hns He. rewrite (proj2 (Z.eqb_neq _ _) Hns), He in Hinv. cbn in Hinv.
    destruct (Z.eqb_spec (ci_mode c) DRC_LOCK_EXCLUSIVE), (Z.eqb_spec (ci_lsn c) 0); done. }
  cbn [mbind outcome_bind]. unfold claim_lsn. pose proof (is_inst_ne _ Ho2).
  destruct (Z.ltb_spec 0 (ci_lsn c)) as [Hpos|Hpos]; cbn [andb] in Hlsn.
  - apply Z.ltb_ge in Hlsn. rewrite (proj2 (Z.leb_le (buf_lsn b2) (ci_lsn c))) by (rewrite Hl2; exact Hlsn).
    cbn [knl_panic mbind outcome_bind]. eexists. split; [done|]. split; [destruct I2; split; cbn; auto|].
    cbn. split_and!; try done. right. split_and!; try done.
  - eexists. split; [done|]. split_and!; try done. right. split_and!; try done. rewrite Hl2. done.
Qed.
