(* ===== verification/DrcPageThm.v ===== *)
(** The page master implements a catalogue of pages: every handler of
    [DrcPage], run on a well-formed table, ends normally, keeps the table
    well-formed, and has on the catalogue the effect of the same function on
    sequences of requests. *)

From S2P Require Import Prelude DrcBitmap DrcPool DrcResMap DrcList DrcGlobalRes DrcQueue DrcTable DrcReform DrcPage.
From S2P Require Import DrcPageSim DrcPageInv.

(** The catalogue: the resource of each page known to this master. *)
Notation catalogue := (gmap page_id apage).

Section PageThm.
Context (page_size : Z).
Implicit Types (t : ptab) (A : catalogue) (f : Z) (F Sp : gset Z) (am : gmap page_id Z) (k : page_id).

Lemma page_partid_range k : 0 <= drc_page_partid page_size k < DRC_MAX_PART_NUM.
Proof. unfold drc_page_partid, cm_hash_uint32, DRC_MAX_PART_NUM. cbn [Z.ltb Z.compare]. apply Z.mod_pos_bound. lia. Qed.

Notation page_rep := (tab_rep drc_page_id_hash (drc_page_partid page_size)).

(** [t] implements the catalogue [A], and every page of it is well-formed. *)
Record page_inv t A f F Sp am : Prop := {
  pv_rep : page_rep t A f F Sp am;
  pv_ok : forall k ab, A !! k = Some ab -> page_ok ab;
}.

Lemma page_lookup_none t A f F Sp am k :
  page_inv t A f F Sp am -> A !! k = None -> page_lookup t k = Ok None.
Proof. intros [R _] Hk. exact (tab_lookup_none _ _ _ _ _ _ _ _ _ R Hk). Qed.

(** One resource taken out of the table and put back. *)
Lemma rep_open t A f F Sp am k ab :
  page_rep t A f F Sp am -> A !! k = Some ab ->
  exists i b E, am !! k = Some i /\ page_lookup t k = Ok (Some i) /\ tb_get t i = Ok b /\
    buf_page_id ab = k /\ res_rel E (tb_items t) (tb_items t) b f ab /\
    forall s' b' f' ab', res_rel E (tb_items t) s' b' f' ab' -> buf_page_id ab' = k ->
      exists t', tb_put (tb_set_items s' t) i b' = Ok t' /\ tb_items t' = s' /\ page_rep t' (<[k := ab']> A) f' F Sp am.
Proof.
  intros R Hk. destruct (tab_open _ _ _ _ _ _ _ _ _ _ R Hk) as (i & b & E & l & Hi & Hl & Hg & Hab & Hkey & Q & Hput).
  exists i, b, E. split_and!; try done; [by rewrite Hab|by eapply res_rel_init|].
  intros s' b' f' ab' (l' & Q' & Hab' & K') Hpg.
  destruct (Hput s' b' l' f' (convert_q ab') Q' K') as (t' & E' & Es & _ & R'); [by rewrite <- Hpg, Hab'|].
  exists t'. split_and!; try done. cbn [qr_with buf_queued] in R'. by rewrite <- Hab' in R'.
Qed.

Lemma page_open t A f F Sp am k ab :
  page_inv t A f F Sp am -> A !! k = Some ab ->
  exists i b E, am !! k = Some i /\ page_lookup t k = Ok (Some i) /\ tb_get t i = Ok b /\
    buf_page_id ab = k /\ res_rel E (tb_items t) (tb_items t) b f ab /\
    forall s' b' f' ab', res_rel E (tb_items t) s' b' f' ab' -> buf_page_id ab' = k -> page_ok ab' ->
      exists t', tb_put (tb_set_items s' t) i b' = Ok t' /\ tb_items t' = s' /\ page_inv t' (<[k := ab']> A) f' F Sp am.
Proof.
  intros [R Hok] Hk. destruct (rep_open _ _ _ _ _ _ _ _ R Hk) as (i & b & E & Hi & Hl & Hg & Hpk & RR & Hput).
  exists i, b, E. split_and!; try done. intros s' b' f' ab' RR' Hpg Hok'.
  destruct (Hput s' b' f' ab' RR' Hpg) as (t' & E' & Es & R'). exists t'. split_and!; try done. split; [done|].
  intros k' ab'' [[<- <-]|[_ Hk']]%lookup_insert_Some; [done|by eapply Hok].
Qed.

(** A change of one resource's members other than the queue. *)
Lemma page_store t A f F Sp am k ab (g : forall Q, buf_res Q -> buf_res Q) :
  page_inv t A f F Sp am -> A !! k = Some ab ->
  (forall Q (x : buf_res Q), convert_q (g Q x) = convert_q x) ->
  (forall Q Q' (x : buf_res Q) (q : Q'), g Q' (set_convert_q q x) = set_convert_q q (g Q x)) ->
  buf_page_id (g _ ab) = buf_page_id ab -> page_ok (g _ ab) ->
  exists i b t', am !! k = Some i /\ page_lookup t k = Ok (Some i) /\ tb_get t i = Ok b /\
    ab = set_convert_q (convert_q ab) b /\ tb_put t i (g _ b) = Ok t' /\
    page_inv t' (<[k := g _ ab]> A) f F Sp am.
Proof.
  intros I Hk Hq Hg Hpg Hok. destruct (page_open _ _ _ _ _ _ _ _ I Hk) as (i & b & E & Hi & Hl & Hb & Hpk & RR & Hput).
  destruct (Hput (tb_items t) (g _ b) f (g _ ab)) as (t' & Et & _ & I'); [by apply res_rel_map|congruence|done|].
  exists i, b, t'. destruct RR as (l & _ & Hab & _). split_and!; done.
Qed.

(** ** What other threads may do in a window

    They keep the table well-formed and leave alone the slots [own] this
    thread has allocated; the page it is converting stays in its slot and
    keeps an owner (no instance crashes in the window). *)
Definition env_any (own : gset Z) (env : ptab -> ptab) : Prop :=
  forall t A f F Sp am, page_inv t A f F Sp am -> own ⊆ Sp ->
    exists A' f' F' Sp' am', page_inv (env t) A' f' F' Sp' am' /\ own ⊆ Sp'.

Definition env_busy (own : gset Z) k (i : Z) (env : ptab -> ptab) : Prop :=
  forall t A f F Sp am ab, page_inv t A f F Sp am -> own ⊆ Sp -> am !! k = Some i -> A !! k = Some ab ->
    inst_id (converting ab) <> OG_INVALID_ID8 ->
    exists A' f' F' Sp' am' ab', page_inv (env t) A' f' F' Sp' am' /\ own ⊆ Sp' /\ am' !! k = Some i /\
      A' !! k = Some ab' /\ claimed_owner ab' <> OG_INVALID_ID8.

Lemma page_ok_no_copies ab :
  page_ok ab -> claimed_owner ab <> OG_INVALID_ID8 -> page_ok (set_readonly_copies 0 ab).
Proof. intros [] Ho. split; cbn; auto with drc; done. Qed.

(** Emptying the map of copies in a new critical section. *)
Lemma drop_copies_ok t A f F Sp am k i ab :
  page_inv t A f F Sp am -> am !! k = Some i -> A !! k = Some ab -> claimed_owner ab <> OG_INVALID_ID8 ->
  exists b t', tb_get t i = Ok b /\ tb_put t i (set_readonly_copies 0 b) = Ok t' /\
    page_inv t' (<[k := set_readonly_copies 0 ab]> A) f F Sp am.
Proof.
  intros I Hi Hk Ho. destruct (page_store _ _ _ _ _ _ _ _ (fun Q => set_readonly_copies 0) I Hk)
    as (i' & b & t' & Hi' & _ & Hb & _ & Hp & I'); try done.
  { apply page_ok_no_copies; [|done]. by eapply pv_ok. }
  assert (i' = i) as -> by congruence. eauto.
Qed.

(** The request handler on a known page, up to the window. *)
Lemma request_critical t A f F Sp am k i ab v r is_try res :
  page_inv t A f F Sp am -> am !! k = Some i -> A !! k = Some ab -> is_inst (inst_id r) ->
  exists ret res' cc r' f' ab' t1, request_on_resource v f ab r k is_try res = Ok (ret, res', cc, r', f', ab') /\
    page_inv t1 (<[k := ab']> A) f' F Sp am /\ page_ok ab' /\
    (cc = true -> ret = OG_SUCCESS /\ inst_id (converting ab') = inst_id r) /\
    forall inv env, request_allocated v inv env r k is_try res i t =
      if cc && negb (ro_readonly_copies res' =? 0) && (req_mode r' =? DRC_LOCK_EXCLUSIVE) then
        match inv with
        | OG_ERROR => Ok (OG_ERROR, res', t1)
        | OG_SUCCESS =>
            b ← tb_get (env t1) i;
            t2 ← tb_put (env t1) i (set_readonly_copies 0 b);
            Ok (OG_SUCCESS, res', t2)
        end
      else Ok (ret, res', t1).
Proof.
  intros I Hi Hk Hr. destruct (page_open _ _ _ _ _ _ _ _ I Hk) as (i' & b & E & Hi' & _ & Hb & Hpk & RR & Hput).
  assert (i' = i) as -> by congruence.
  destruct (request_on_resource_ok v f ab r k is_try res (pv_ok _ _ _ _ _ _ I _ _ Hk) Hr) as
    (ret & res' & cc & r' & f' & ab' & Er & Hok & Hpg & Hri & Hcc).
  pose proof (request_on_resource_sim v _ _ _ _ _ _ r k is_try res RR) as HS. rewrite Er in HS.
  destruct HS as (s' & b' & Es & RR').
  destruct (Hput s' b' f' ab' RR') as (t1 & Et & _ & I1); [congruence|done|].
  exists ret, res', cc, r', f', ab', t1. split_and!; try done.
  - intros H. destruct (Hcc H) as (? & ? & _). done.
  - intros inv env. unfold request_allocated. rewrite Hb. cbn [mbind outcome_bind]. rewrite Es.
    cbn [mbind outcome_bind]. rewrite Et. done.
Qed.

Lemma request_allocated_ok own t A f F Sp am k i ab v inv env r is_try res :
  page_inv t A f F Sp am -> own ⊆ Sp -> am !! k = Some i -> A !! k = Some ab -> is_inst (inst_id r) ->
  env_busy own k i env ->
  exists ret res' t' A' f' F' Sp' am', request_allocated v inv env r k is_try res i t = Ok (ret, res', t') /\
    page_inv t' A' f' F' Sp' am' /\ own ⊆ Sp'.
Proof.
  intros I Hown Hi Hk Hr Henv.
  destruct (request_critical t A f F Sp am k i ab v r is_try res I Hi Hk Hr) as
    (ret & res' & cc & r' & f' & ab' & t1 & _ & I1 & Hok & Hcc & ->).
  destruct (cc && _ && _) eqn:Ec; [|by eauto 12]. destruct inv; [|by eauto 12].
  apply andb_true_iff in Ec as [[-> _]%andb_true_iff _]. destruct (Hcc eq_refl) as [_ Hcv].
  destruct (Henv t1 _ _ _ _ _ ab' I1 Hown Hi) as (A2 & f2 & F2 & Sp2 & am2 & ab2 & I2 & Ho2 & Hi2 & Hk2 & Hw2);
    [by rewrite lookup_insert_eq | rewrite Hcv; by apply is_inst_ne |].
  destruct (drop_copies_ok _ _ _ _ _ _ _ _ _ I2 Hi2 Hk2 Hw2) as (b & t3 & -> & Ep & I3).
  cbn [mbind outcome_bind]. rewrite Ep. cbn [mbind outcome_bind]. by eauto 12.
Qed.

(** ** Recycling *)

(** [drc_clean_page_owner_internal] takes the page out of the catalogue; its
    slot stays allocated and the items of its queue, if any, are lost. *)
Lemma rep_clean_internal t A f F Sp am k i ab :
  page_rep t A f F Sp am -> am !! k = Some i -> A !! k = Some ab ->
  exists t' F', drc_clean_page_owner_internal t (buf_bucket t k) i = Ok t' /\
    F ⊆ F' /\ size F' = (size F + length (convert_q ab))%nat /\ (convert_q ab = [] -> F' = F) /\
    page_rep t' (delete k A) f F' ({[i]} ∪ Sp) (delete k am) /\
    (forall l1 l2, gr_part (tb_res t) (drc_page_partid page_size k) (l1 ++ i :: l2) ->
       gr_part (tb_res t') (drc_page_partid page_size k) (l1 ++ l2)).
Proof.
  intros R Hi Hk. destruct (rep_open _ _ _ _ _ _ _ _ R Hk) as (i' & b & E & Hi' & _ & Hb & Hpk & (l & _ & Hab & _) & _).
  assert (i' = i) as -> by congruence. unfold drc_clean_page_owner_internal. rewrite Hb. cbn [mbind outcome_bind].
  assert (buf_page_id b = k) as -> by (rewrite <- Hpk, Hab; done).
  destruct (tab_remove_map _ _ page_partid_range t A f F Sp am k i ab R Hk Hi)
    as (g1 & g2 & g3 & F' & E1 & E2 & E3 & ? & ? & ? & _ & R' & HP).
  change (buf_bucket t k) with (tb_hash drc_page_id_hash t k). rewrite E1. cbn [mbind outcome_bind].
  rewrite E2. cbn [mbind outcome_bind]. rewrite E3. cbn [mbind outcome_bind]. eexists _, F'. split_and!; done.
Qed.

Lemma clean_internal_ok t A f F Sp am k i ab :
  page_inv t A f F Sp am -> am !! k = Some i -> A !! k = Some ab ->
  exists t' F', drc_clean_page_owner_internal t (buf_bucket t k) i = Ok t' /\ (convert_q ab = [] -> F' = F) /\
    page_inv t' (delete k A) f F' ({[i]} ∪ Sp) (delete k am).
Proof.
  intros [R Hok] Hi Hk. destruct (rep_clean_internal _ _ _ _ _ _ _ _ _ R Hi Hk) as (t' & F' & E & _ & _ & ? & R' & _).
  exists t', F'. split_and!; try done. split; [done|]. intros k' ab' [_ ?]%lookup_delete_Some. by eapply Hok.
Qed.

Definition tb_cap t : Z := item_num (gr_pool (tb_res t)).

(** In the first window of a round the slot is not given to another page. *)
Definition env_slot (pos : Z) k (env : ptab -> ptab) : Prop :=
  forall t A f F Sp am, page_inv t A f F Sp am -> am !! k = Some pos ->
    exists A' f' F' Sp' am', page_inv (env t) A' f' F' Sp' am' /\ pos < tb_cap (env t) /\
      forall k', am' !! k' = Some pos -> k' = k.

(** In the second one a resource marked [DRC_RES_PENDING_ACTION] does not
    change, unless a reform removes it. *)
Definition env_frozen (pos : Z) k (env : ptab -> ptab) : Prop :=
  forall t A f F Sp am ab, page_inv t A f F Sp am -> am !! k = Some pos -> A !! k = Some ab ->
    pending ab = DRC_RES_PENDING_ACTION ->
    exists A' f' F' Sp' am', page_inv (env t) A' f' F' Sp' am' /\
      (A' !! k = None \/ (A' !! k = Some ab /\ am' !! k = Some pos)).

Definition renv_ok (e : recycle_env) : Prop :=
  forall n pos k, env_slot pos k (re_env0 e n) /\ env_frozen pos k (re_env1 e n).

Lemma page_ok_pending x ab :
  page_ok ab -> x <> DRC_RES_CLEAN_EDP_ACTION -> (x = DRC_RES_PENDING_ACTION -> inst_id (converting ab) = OG_INVALID_ID8) ->
  page_ok (set_pending x ab).
Proof. intros [] H1 H2. split; cbn; auto; done. Qed.

Lemma set_pending_ok t A f F Sp am k i ab x :
  page_inv t A f F Sp am -> am !! k = Some i -> A !! k = Some ab -> x <> DRC_RES_CLEAN_EDP_ACTION ->
  (x = DRC_RES_PENDING_ACTION -> inst_id (converting ab) = OG_INVALID_ID8) ->
  exists b t', tb_get t i = Ok b /\ ab = set_convert_q (convert_q ab) b /\ tb_put t i (set_pending x b) = Ok t' /\
    page_inv t' (<[k := set_pending x ab]> A) f F Sp am.
Proof.
  intros I Hi Hk Hx Hp. destruct (page_store _ _ _ _ _ _ _ _ (fun Q => set_pending x) I Hk)
    as (i' & b & t' & Hi' & _ & Hb & Hab & Ep & I'); try done.
  { apply page_ok_pending; [|done..]. by eapply pv_ok. }
  assert (i' = i) as -> by congruence. eauto 10.
Qed.

Lemma zero_not_recyclable : buf_res_is_recyclable (qr_zero : buf_res drc_list) = false.
Proof. done. Qed.

(** How a round may end. *)
Definition round_ok (is_batch : bool) (idx : Z) (rd : round) : Prop :=
  match rd with
  | Continue t' idx' | Break t' idx' =>
      (is_batch = false -> idx' = idx) /\ exists A f F Sp am, page_inv t' A f F Sp am
  | Return t' idx' => is_batch = false /\ exists A f F Sp am, page_inv t' A f F Sp am /\ idx' ∈ Sp
  end.

Lemma page_slot_idx t A f F Sp am k i :
  page_inv t A f F Sp am -> am !! k = Some i -> slot_idx t i = Ok i.
Proof.
  intros I Hi. destruct (tab_idx _ _ _ _ _ _ _ _ _ _ (pv_rep _ _ _ _ _ _ I) Hi) as (a & E & Hx).
  unfold slot_idx. rewrite E. cbn. by rewrite Hx.
Qed.

Lemma page_free t A f F Sp am i :
  page_inv t A f F Sp am -> i ∈ Sp -> exists t', tb_free t i = Ok t' /\ page_inv t' A f F (Sp ∖ {[i]}) am.
Proof.
  intros [R Hok] Hi. destruct (tab_free _ _ _ _ _ _ _ _ i R Hi) as (t' & -> & _ & _ & R'). by exists t'.
Qed.

Lemma recycle_commit_ok v ret is_batch pos idx k ab t A f F Sp am :
  page_inv t A f F Sp am -> A !! k = Some ab -> am !! k = Some pos -> pending ab = DRC_RES_PENDING_ACTION ->
  buf_res_is_recyclable ab = true ->
  exists rd, recycle_commit v ret is_batch pos idx k (readonly_copies ab) (claimed_owner ab) t = Ok rd /\
    round_ok is_batch idx rd /\
    (drc_remaster_in_progress v = false -> ret = OG_SUCCESS -> exists t', (rd = Return t' pos \/ rd = Continue t' pos) /\
       exists Sp', page_inv t' (delete k A) f F Sp' (delete k am)).
Proof.
  intros I Hk Hi Hp Hrec. unfold recycle_commit.
  destruct (page_open _ _ _ _ _ _ _ _ I Hk) as (i' & b & E & Hi' & -> & Hb & Hpk & (l & _ & Hab & _) & _).
  assert (i' = pos) as -> by congruence. cbn [mbind outcome_bind].
  destruct (set_pending_ok _ _ _ _ _ _ _ _ _ DRC_RES_INVALID_ACTION I Hi Hk) as (b' & t1 & Eb' & _ & Ep & I1); try done.
  rewrite Hb. cbn [mbind outcome_bind]. assert (b' = b) as -> by congruence.
  assert (is_used b = true /\ buf_page_id b = k /\ pending b = pending ab /\ buf_res_is_recyclable b = true /\
    readonly_copies b = readonly_copies ab /\ claimed_owner b = claimed_owner ab) as (-> & -> & -> & -> & -> & ->).
  { pose proof (po_used _ (pv_ok _ _ _ _ _ _ I _ _ Hk)) as Hu. rewrite Hab in Hrec, Hpk, Hu. rewrite Hab. done. }
  destruct (drc_remaster_in_progress v).
  { rewrite Ep. cbn [mbind outcome_bind]. eexists; split; [done|]; split; [|done]. split; [done|]. by eauto 10. }
  rewrite !bool_decide_eq_true_2 by done. rewrite !Z.eqb_refl. cbn [negb orb andb knl_panic mbind outcome_bind].
  rewrite Ep. cbn [mbind outcome_bind].
  destruct ret; [|eexists; split; [done|]; split; [|done]; split; [done|]; by eauto 10].
  apply andb_true_iff in Hrec as [Hcv%Z.eqb_eq Ho%negb_true_iff%Z.eqb_neq].
  pose proof (po_idle _ (pv_ok _ _ _ _ _ _ I _ _ Hk) Hcv) as Hq.
  destruct (drop_copies_ok t1 _ _ _ _ _ k pos _ I1 Hi (lookup_insert_eq _ _ _) Ho) as (b2 & t2 & -> & Ep2 & I2).
  cbn [mbind outcome_bind]. rewrite Ep2. cbn [mbind outcome_bind].
  rewrite (page_slot_idx _ _ _ _ _ _ _ _ I2 Hi). cbn [mbind outcome_bind].
  destruct (clean_internal_ok t2 _ _ _ _ _ k pos _ I2 Hi (lookup_insert_eq _ _ _)) as (t3 & F' & -> & HF & I3).
  cbn [convert_q set_readonly_copies set_pending] in HF. rewrite (HF Hq), !insert_insert_eq, delete_insert_eq in I3.
  cbn [mbind outcome_bind]. destruct is_batch.
  - destruct (page_free _ _ _ _ _ _ pos I3) as (t4 & -> & I4); [set_solver|]. cbn [mbind outcome_bind].
    eexists; split; [done|]; split; [split; [done|]; by eauto 10|]. intros _ _. eexists. split; [by right|]. by eauto.
  - eexists; split; [done|]; split; [split; [done|]; eexists _, _, _, _, _; split; [done|]; set_solver|].
    intros _ _. eexists. split; [by left|]. by eauto.
Qed.

Ltac ends := eexists; split; [done|]; split; [done|]; by eauto 10.

Lemma recycle_round_ok e n is_batch pos idx t A f F Sp am :
  page_inv t A f F Sp am -> renv_ok e -> 0 <= pos < tb_cap t ->
  exists rd, recycle_round e n is_batch pos idx t = Ok rd /\ round_ok is_batch idx rd.
Proof.
  intros I He Hpos. unfold recycle_round.
  destruct (tab_get_any _ _ _ _ _ _ _ _ pos (pv_rep _ _ _ _ _ _ I) Hpos) as (b & -> & Hb). cbn [mbind outcome_bind].
  destruct (negb (BUF_RES_IS_OLD b (re_now e)) || negb (buf_res_is_recyclable b)) eqn:Eold; [ends|].
  apply orb_false_iff in Eold as [_ Erec%negb_false_iff].
  destruct Hb as [->|(k & Hk & Hkey)]; [by rewrite zero_not_recyclable in Erec|].
  change (buf_page_id b = k) in Hkey. rewrite Hkey. destruct (He n pos k) as [He0 He1].
  destruct (He0 _ _ _ _ _ _ I Hk) as (A1 & f1 & F1 & Sp1 & am1 & I1 & Hlt & Huniq). set (t1 := re_env0 e n t) in *.
  destruct (tab_get_any _ _ _ _ _ _ _ _ pos (pv_rep _ _ _ _ _ _ I1) (conj (proj1 Hpos) Hlt)) as (b1 & Eb1 & Hb1).
  rewrite Eb1. cbn [mbind outcome_bind].
  destruct (negb (bool_decide (pending b1 = _)) || negb (is_used b1)) eqn:Eu; [ends|].
  destruct (buf_res_is_recyclable b1) eqn:Erec1; cbn [negb]; [|ends].
  destruct Hb1 as [->|(k1 & Hk1 & _)]; [by rewrite zero_not_recyclable in Erec1|].
  destruct (drc_remaster_in_progress (re_view e n 0)); [ends|]. assert (k1 = k) as -> by auto.
  assert (is_Some (A1 !! k)) as [ab1 Hab1] by (apply (tr_dom _ _ _ _ _ _ _ _ (pv_rep _ _ _ _ _ _ I1)); eauto).
  destruct (page_open _ _ _ _ _ _ _ _ I1 Hab1) as (i' & b1' & E & Hi' & _ & Hb1' & _ & (l & _ & Hab & _) & _).
  assert (i' = pos) as -> by congruence. assert (b1' = b1) as -> by congruence.
  assert (buf_res_is_recyclable ab1 = true) as Hrec1 by (rewrite Hab; exact Erec1).
  destruct (set_pending_ok _ _ _ _ _ _ _ _ _ DRC_RES_PENDING_ACTION I1 Hk1 Hab1) as (b1' & t2 & Eg2 & _ & Ep2 & I2); try done.
  { intros _. by apply andb_true_iff in Hrec1 as [?%Z.eqb_eq _]. }
  assert (b1' = b1) as -> by congruence. rewrite Ep2. cbn [mbind outcome_bind].
  destruct (He1 t2 _ _ _ _ _ _ I2 Hk1 (lookup_insert_eq _ _ _) eq_refl) as (A3 & f3 & F3 & Sp3 & am3 & I3 & [Hg|[Hk3 Hi3]]).
  { unfold recycle_commit. rewrite (page_lookup_none _ _ _ _ _ _ _ I3 Hg). cbn [mbind outcome_bind]. ends. }
  destruct (recycle_commit_ok (re_view e n 1) (re_inv e n) is_batch pos idx k _ _ _ _ _ _ _ I3 Hk3 Hi3 eq_refl Hrec1)
    as (rd & Er & Hrd & _). exists rd. split; [|done]. rewrite <- Er. by rewrite Hab.
Qed.

Lemma page_alloc t A f F Sp am :
  page_inv t A f F Sp am ->
  (Z.of_nat (size A) + Z.of_nat (size Sp) = tb_cap t /\ tb_alloc t = Ok (OG_INVALID_ID32, t)) \/
  (Z.of_nat (size A) + Z.of_nat (size Sp) < tb_cap t /\
   exists i t', tb_alloc t = Ok (i, t') /\ i <> OG_INVALID_ID32 /\ i ∉ Sp /\ page_inv t' A f F ({[i]} ∪ Sp) am).
Proof.
  intros [R Hok]. pose proof (tab_full_iff _ _ _ _ _ _ _ _ R) as Hfull.
  destruct (tab_alloc _ _ _ _ _ _ _ _ R) as [[HU E]|(HU & i & t' & E & ? & ? & _ & _ & R')].
  - left. split; [by apply Hfull|done].
  - right. split; [|by exists i, t'].
    pose proof (tab_slots_used _ _ _ _ _ _ _ _ R) as Hs. pose proof (gi_pool _ _ _ _ _ _ (tr_gres _ _ _ _ _ _ _ _ R)) as P.
    pose proof (pool_wf_size _ _ P). unfold tb_cap.
    destruct (decide (Z.of_nat (size A) + Z.of_nat (size Sp) = item_num (gr_pool (tb_res t)))) as [Hc|]; [|lia].
    destruct HU. by apply Hfull.
Qed.

(** Whatever it does, [drc_recycle_items] leaves a well-formed table; the
    item it returns to a requester is allocated and linked nowhere. *)
Definition recycled_ok (is_batch : bool) (idx : Z) t : Prop :=
  exists A f F Sp am, page_inv t A f F Sp am /\ (is_batch = false -> idx <> OG_INVALID_ID32 -> idx ∈ Sp).

Lemma recycle_end_ok (is_batch : bool) idx t A f F Sp am :
  page_inv t A f F Sp am ->
  exists idx' t', (if is_batch then Ok (idx, t) else tb_alloc t) = Ok (idx', t') /\ recycled_ok is_batch idx' t'.
Proof.
  intros I. destruct is_batch.
  - eexists _, _. split; [done|]. eexists _, _, _, _, _. by split.
  - destruct (page_alloc _ _ _ _ _ _ I) as [[_ ->]|(_ & i & t' & -> & ? & ? & I')]; eexists _, _; (split; [done|]);
      eexists _, _, _, _, _; (split; [done|]); [done|set_solver].
Qed.

Lemma recycle_loop_ok e : renv_ok e -> forall n (k : nat) is_batch idx t A f F Sp am,
  page_inv t A f F Sp am -> (is_batch = false -> idx = OG_INVALID_ID32) ->
  exists idx' t', recycle_loop n e k is_batch idx t = Ok (idx', t') /\ recycled_ok is_batch idx' t'.
Proof.
  intros He. induction n as [|n IH]; intros k is_batch idx t A f F Sp am I Hidx; cbn [recycle_loop].
  { by eapply recycle_end_ok. }
  unfold bump_recycle_pos. set (p := gr_pool (tb_res t)). set (pos := (recycle_pos p + 1) mod item_num p).
  set (t1 := tb_set_res _ t). pose proof (gi_pool _ _ _ _ _ _ (tr_gres _ _ _ _ _ _ _ _ (pv_rep _ _ _ _ _ _ I))) as P.
  assert (page_inv t1 A f F Sp am) as I1.
  { split; [|apply I]. apply tab_rep_pool; [apply I|by apply pool_wf_pos|done]. }
  assert (0 <= pos < tb_cap t1) as Hpos by (apply Z.mod_pos_bound; apply (pw_num _ _ P)).
  destruct (negb is_batch && negb (free_list (gr_pool (tb_res t1)) =? OG_INVALID_ID32)) eqn:Ea; cbn [andb].
  - apply andb_true_iff in Ea as [Ha%negb_true_iff _]. subst is_batch.
    destruct (page_alloc _ _ _ _ _ _ I1) as [[_ ->]|(_ & i & t2 & -> & Hi & Hni & I2)]; cbn [mbind outcome_bind].
    + rewrite Z.eqb_refl. cbn [negb].
      destruct (recycle_round_ok e k false pos OG_INVALID_ID32 t1 _ _ _ _ _ I1 He Hpos) as (rd & -> & Hrd).
      cbn [mbind outcome_bind]. destruct rd as [t' idx'|t' idx'|t' idx'].
      * destruct Hrd as [Hx (A' & f' & F' & Sp' & am' & I')]. by eapply IH.
      * destruct Hrd as [Hx (A' & f' & F' & Sp' & am' & I')]. by apply (recycle_end_ok false idx' t' A' f' F' Sp' am').
      * destruct Hrd as [_ (A' & f' & F' & Sp' & am' & I' & Hin)]. eexists _, _. split; [done|]. by eexists _, _, _, _, _.
    + rewrite (proj2 (Z.eqb_neq i _) Hi). cbn [negb]. eexists _, _. split; [done|]. eexists _, _, _, _, _. split; [done|]. set_solver.
  - cbn [mbind outcome_bind].
    destruct (recycle_round_ok e k is_batch pos idx t1 _ _ _ _ _ I1 He Hpos) as (rd & -> & Hrd).
    cbn [mbind outcome_bind]. destruct rd as [t' idx'|t' idx'|t' idx'].
    + destruct Hrd as [Hx (A' & f' & F' & Sp' & am' & I')]. eapply IH; [done|]. intros Hb. rewrite (Hx Hb). auto.
    + destruct Hrd as [Hx (A' & f' & F' & Sp' & am' & I')]. by eapply recycle_end_ok.
    + destruct Hrd as [_ (A' & f' & F' & Sp' & am' & I' & Hin)]. eexists _, _. split; [done|]. by eexists _, _, _, _, _.
Qed.

Lemma recycle_items_ok e is_batch t A f F Sp am :
  page_inv t A f F Sp am -> renv_ok e ->
  exists idx t', drc_recycle_items e is_batch t = Ok (idx, t') /\ recycled_ok is_batch idx t'.
Proof. intros I He. by eapply recycle_loop_ok. Qed.

(** ** The request handler *)

(** A new page in a slot this thread has allocated. *)
Lemma page_create t A f F Sp am k i r :
  page_inv t A f F Sp am -> i ∈ Sp -> A !! k = None -> is_inst (inst_id r) ->
  exists g1 g2 g3, gr_fill (tb_res t) i (new_buf_res DRC_LIST_INIT r k) = Ok g1 /\
    gr_map_add g1 (buf_bucket t k) i = Ok g2 /\ gr_list_add g2 i (drc_page_partid page_size k) = Ok g3 /\
    page_inv (tb_set_res g3 t) (<[k := new_buf_res [] r k]> A) f F (Sp ∖ {[i]}) (<[k := i]> am).
Proof.
  intros [R Hok] Hi Hk Hr.
  destruct (tab_create _ _ page_partid_range t A f F Sp am k i (new_buf_res DRC_LIST_INIT r k) R Hi Hk)
    as (g1 & g2 & g3 & E1 & E2 & E3 & _ & R'); [done|done|].
  exists g1, g2, g3. split_and!; try done. split; [done|].
  intros k' ab [[<- <-]|[_ ?]]%lookup_insert_Some; [by apply page_ok_new|by eapply Hok].
Qed.

(** The second half of the handler for a page not in the catalogue: the
    slot is linked, or given back when a reform has begun. *)
Lemma page_create_undo t A f F Sp am k i r :
  page_inv t A f F Sp am -> i ∈ Sp -> A !! k = None ->
  exists g1 g2 g3 g4 g5, gr_fill (tb_res t) i (new_buf_res DRC_LIST_INIT r k) = Ok g1 /\
    gr_map_add g1 (buf_bucket t k) i = Ok g2 /\ gr_map_remove g2 (buf_bucket t k) k = Ok g3 /\
    gr_memset g3 i = Ok g4 /\ gr_free g4 i = Ok g5 /\
    page_inv (tb_set_res g5 t) A f F (Sp ∖ {[i]}) am.
Proof.
  intros [R Hok] Hi Hk.
  destruct (tab_create_undo _ _ page_partid_range t A f F Sp am k i (new_buf_res DRC_LIST_INIT r k) R Hi Hk)
    as (g1 & g2 & g3 & g4 & g5 & E1 & E2 & E3 & E4 & E5 & _ & R'); [done|].
  exists g1, g2, g3, g4, g5. split_and!; done.
Qed.

(** The windows of one call: an item is in hand in the first, the page is
    converting in the second. *)
Record request_env_ok k (e : recycle_env) (env1 env2 : ptab -> ptab) : Prop := {
  qe_recycle : renv_ok e;
  qe_first : forall idx, env_any {[idx]} env1;
  qe_second : forall own i, env_busy own k i env2;
}.

Lemma request_item_ok e t A f F Sp am :
  page_inv t A f F Sp am -> renv_ok e ->
  exists idx t1 A1 f1 F1 Sp1 am1, request_item e t = Ok (idx, t1) /\ page_inv t1 A1 f1 F1 Sp1 am1 /\
    (idx <> OG_INVALID_ID32 -> idx ∈ Sp1).
Proof.
  intros I He. unfold request_item.
  destruct (page_alloc _ _ _ _ _ _ I) as [[_ ->]|(_ & i & t1 & -> & Hi & _ & I1)]; cbn [mbind outcome_bind].
  - rewrite Z.eqb_refl.
    destruct (recycle_items_ok e false t A f F Sp am I He) as (idx & t1 & -> & A1 & f1 & F1 & Sp1 & am1 & I1 & Hin).
    eexists _, _, _, _, _, _, _. split; [done|]. split; [done|]. by apply Hin.
  - rewrite (proj2 (Z.eqb_neq i _) Hi). eexists _, _, _, _, _, _, _. split; [done|]. split; [done|]. set_solver.
Qed.

Lemma request_create_ok v2 v3 k r res idx t A f F Sp am :
  page_inv t A f F Sp am -> idx ∈ Sp -> A !! k = None -> is_inst (inst_id r) ->
  exists ret res' t' A' am', request_create page_size v2 v3 k r res idx t = Ok (ret, res', t') /\
    page_inv t' A' f F (Sp ∖ {[idx]}) am' /\
    (ret = OG_ERROR -> A' = A) /\
    (DRC_STOP_DCS_IO_FOR_REFORMING (req_version r) v2 k = false ->
     DRC_STOP_DCS_IO_FOR_REFORMING (req_version r) v3 k = false ->
     ret = OG_SUCCESS /\ ro_type res' = DRC_REQ_OWNER_GRANTED /\ ro_curr_owner_id res' = inst_id r /\
     A' = <[k := new_buf_res [] r k]> A).
Proof.
  intros I Hin Hk Hr. unfold request_create. destruct (DRC_STOP_DCS_IO_FOR_REFORMING _ v2 k).
  { destruct (page_free _ _ _ _ _ _ idx I Hin) as (t' & -> & I'). cbn [mbind outcome_bind].
    eexists _, _, _, _, _. split; [done|]. by split. }
  destruct (page_create_undo t A f F Sp am k idx r I Hin Hk) as (g1 & g2 & g3 & g4 & g5 & E1 & E2 & E3 & E4 & E5 & I5).
  destruct (page_create t A f F Sp am k idx r I Hin Hk Hr) as (g1' & g2' & g3' & E1' & E2' & E3' & I3).
  rewrite E1 in E1'. injection E1' as <-. rewrite E2 in E2'. injection E2' as <-.
  rewrite E1. cbn [mbind outcome_bind]. rewrite E2. cbn [mbind outcome_bind].
  destruct (DRC_STOP_DCS_IO_FOR_REFORMING _ v3 k).
  - rewrite E3. cbn [mbind outcome_bind]. rewrite E4. cbn [mbind outcome_bind]. rewrite E5. cbn [mbind outcome_bind].
    eexists _, _, _, _, _. split; [done|]. by split.
  - rewrite E3'. cbn [mbind outcome_bind]. eexists _, _, _, _, _. split; [done|]. by split.
Qed.

(** Every request ends normally and keeps the table well-formed. *)
Lemma request_safe views e inv env1 env2 k r is_try res t A f F Sp am :
  page_inv t A f F Sp am -> 0 <= inst_id r -> request_env_ok k e env1 env2 ->
  exists ret res' t' A' f' F' Sp' am',
    drc_request_page_owner page_size views e inv env1 env2 k r is_try res t = Ok (ret, res', t') /\
    page_inv t' A' f' F' Sp' am'.
Proof.
  intros I Hr0 [He1 He2 He3]. unfold drc_request_page_owner.
  set (r1 := set_owner_result _ r). change (inst_id r1) with (inst_id r).
  destruct (Z.leb_spec OG_MAX_INSTANCES (inst_id r)) as [Hr|Hr]; cbn [orb]; [by eauto 12|].
  assert (is_inst (inst_id r1)) as Hri by (split; [exact Hr0|exact Hr]).
  destruct (IS_INVALID_PAGID k); [by eauto 12|]. destruct (negb (dtc_dcs_readable _ k)); [by eauto 12|].
  destruct (DRC_STOP_DCS_IO_FOR_REFORMING _ (views 1%nat) k); [by eauto 12|].
  set (res1 := mk_result _ _ _ _ _ _). destruct (A !! k) as [ab|] eqn:Hk.
  { destruct (page_open _ _ _ _ _ _ _ _ I Hk) as (i & _ & _ & Hi & -> & _). cbn [mbind outcome_bind].
    destruct (request_allocated_ok ∅ t A f F Sp am k i ab (views 4%nat) inv env2 r1 is_try res1 I ltac:(set_solver) Hi Hk Hri (He3 _ _))
      as (ret & res' & t' & A' & f' & F' & Sp' & am' & E & I' & _). by eauto 12. }
  rewrite (page_lookup_none _ _ _ _ _ _ _ I Hk). cbn [mbind outcome_bind].
  destruct (request_item_ok e t A f F Sp am I He1) as (idx & t1 & A1 & f1 & F1 & Sp1 & am1 & -> & I1 & Hin).
  cbn [mbind outcome_bind]. destruct (Z.eqb_spec idx OG_INVALID_ID32) as [_|Hv]; [by eauto 12|]. specialize (Hin Hv).
  destruct (He2 idx t1 A1 f1 F1 Sp1 am1 I1) as (A2 & f2 & F2 & Sp2 & am2 & I2 & Hin2); [set_solver|].
  set (t2 := env1 t1) in *. destruct (A2 !! k) as [ab|] eqn:Hk2.
  - destruct (page_open _ _ _ _ _ _ _ _ I2 Hk2) as (i & _ & _ & Hi & -> & _). cbn [mbind outcome_bind].
    destruct (request_allocated_ok {[idx]} t2 A2 f2 F2 Sp2 am2 k i ab (views 4%nat) inv env2 r1 is_try res1 I2 Hin2 Hi Hk2 Hri (He3 _ _))
      as (ret & res' & t' & A' & f' & F' & Sp' & am' & -> & I' & Hin'). cbn [mbind outcome_bind free_unused].
    destruct (page_free _ _ _ _ _ _ idx I') as (t3 & -> & I3); [set_solver|]. cbn [mbind outcome_bind]. by eauto 12.
  - rewrite (page_lookup_none _ _ _ _ _ _ _ I2 Hk2). cbn [mbind outcome_bind].
    destruct (request_create_ok (views 2%nat) (views 3%nat) k r1 res1 idx t2 A2 f2 F2 Sp2 am2 I2 ltac:(set_solver) Hk2 Hri)
      as (ret & res' & t' & A' & am' & -> & I' & _). by eauto 12.
Qed.

(** The request is let in: the instance and the page exist, and every
    reading of the reform state finds a settled cluster. *)
Record admitted (views : nat -> view) k (r : drc_req_info) : Prop := {
  ad_inst : is_inst (inst_id r);
  ad_page : IS_INVALID_PAGID k = false;
  ad_read : dtc_dcs_readable (views 0%nat) k = true;
  ad_go : forall n, DRC_STOP_DCS_IO_FOR_REFORMING (req_version r) (views n) k = false;
}.

Lemma request_admitted views e inv env1 env2 k r is_try res t :
  admitted views k r ->
  drc_request_page_owner page_size views e inv env1 env2 k r is_try res t =
    let res := mk_result DRC_REQ_OWNER_INVALID DRC_RES_INVALID_ACTION (ro_curr_owner_id res) false (req_mode r)
                 (ro_readonly_copies res) in
    let r := set_owner_result (result_code DRC_REQ_OWNER_WAITING) r in
    o ← page_lookup t k;
    match o with
    | Some i => request_allocated (views 4%nat) inv env2 r k is_try res i t
    | None =>
        '(idx, t) ← request_item e t;
        if idx =? OG_INVALID_ID32 then Ok (OG_ERROR, res, t)
        else
          let t := env1 t in
          o ← page_lookup t k;
          match o with
          | Some i =>
              x ← request_allocated (views 4%nat) inv env2 r k is_try res i t;
              free_unused true idx x
          | None => request_create page_size (views 2%nat) (views 3%nat) k r res idx t
          end
    end.
Proof.
  intros [Hi Hp Hr Hg]. unfold drc_request_page_owner. cbn [set_owner_result inst_id req_version].
  rewrite Hp, Hr, Hg, (proj2 (Z.leb_gt _ _)) by apply Hi. done.
Qed.

(** The first request for a page: it is entered in the catalogue, owned by
    the requester, when an item is left for it. *)
Lemma request_first_ok views e inv env2 k r is_try res t A f F Sp am :
  page_inv t A f F Sp am -> admitted views k r -> A !! k = None ->
  Z.of_nat (size A) + Z.of_nat (size Sp) < tb_cap t ->
  exists res' t' am', drc_request_page_owner page_size views e inv (fun t => t) env2 k r is_try res t =
      Ok (OG_SUCCESS, res', t') /\
    ro_type res' = DRC_REQ_OWNER_GRANTED /\ ro_curr_owner_id res' = inst_id r /\
    page_inv t' (<[k := new_buf_res [] r k]> A) f F Sp am'.
Proof.
  intros I Had Hk Hroom. rewrite request_admitted by done. cbv zeta.
  rewrite (page_lookup_none _ _ _ _ _ _ _ I Hk). cbn [mbind outcome_bind]. unfold request_item.
  destruct (page_alloc _ _ _ _ _ _ I) as [[Hf _]|(_ & i & t1 & -> & Hi & Hsp & I1)]; [lia|]. cbn [mbind outcome_bind].
  rewrite (proj2 (Z.eqb_neq i _) Hi). cbn [mbind outcome_bind]. rewrite (proj2 (Z.eqb_neq i _) Hi).
  rewrite (page_lookup_none _ _ _ _ _ _ _ I1 Hk). cbn [mbind outcome_bind].
  set (r1 := set_owner_result _ r). set (res1 := mk_result _ _ _ _ _ _).
  destruct (request_create_ok (views 2%nat) (views 3%nat) k r1 res1 i t1 A f F _ am I1 ltac:(set_solver) Hk (ad_inst _ _ _ Had))
    as (ret & res' & t' & A' & am' & E & I' & _ & Hgo).
  destruct (Hgo (ad_go _ _ _ Had 2%nat) (ad_go _ _ _ Had 3%nat)) as (-> & ? & ? & ->).
  replace (({[i]} ∪ Sp) ∖ {[i]}) with Sp in I' by set_solver. exists res', t', am'. done.
Qed.

(** A request for a known page is the request on the sequence of waiters,
    followed, when the copies were to be invalidated and were, by the store
    of the empty map. *)
Lemma request_known_ok views e inv env1 k r is_try res t A f F Sp am ab :
  page_inv t A f F Sp am -> admitted views k r -> A !! k = Some ab ->
  exists ret res' cc r' f' ab' t',
    request_on_resource (views 4%nat) f ab (set_owner_result (result_code DRC_REQ_OWNER_WAITING) r) k is_try
      (mk_result DRC_REQ_OWNER_INVALID DRC_RES_INVALID_ACTION (ro_curr_owner_id res) false (req_mode r)
         (ro_readonly_copies res)) = Ok (ret, res', cc, r', f', ab') /\
    let inval := cc && negb (ro_readonly_copies res' =? 0) && (req_mode r' =? DRC_LOCK_EXCLUSIVE) in
    drc_request_page_owner page_size views e inv env1 (fun t => t) k r is_try res t =
      Ok (if inval then inv else ret, res', t') /\
    page_inv t' (<[k := if inval && bool_decide (inv = OG_SUCCESS) then set_readonly_copies 0 ab' else ab']> A) f' F Sp am.
Proof.
  intros I Had Hk. rewrite request_admitted by done. cbv zeta.
  destruct (page_open _ _ _ _ _ _ _ _ I Hk) as (i & _ & _ & Hi & -> & _). cbn [mbind outcome_bind].
  set (r1 := set_owner_result _ r). set (res1 := mk_result _ _ _ _ _ _).
  destruct (request_critical t A f F Sp am k i ab (views 4%nat) r1 is_try res1 I Hi Hk (ad_inst _ _ _ Had)) as
    (ret & res' & cc & r' & f' & ab' & t1 & Er & I1 & Hok & Hcc & Ea).
  rewrite Ea, Er. destruct (cc && _ && _) eqn:Einv.
  - destruct inv.
    + assert (cc = true) as Hc by (by apply andb_true_iff in Einv as [[? _]%andb_true_iff _]).
      destruct (Hcc Hc) as [_ Hcv].
      assert (claimed_owner ab' <> OG_INVALID_ID8) as Ho.
      { apply (po_owned _ Hok). rewrite Hcv. apply is_inst_ne, (ad_inst _ _ _ Had). }
      destruct (drop_copies_ok _ _ _ _ _ _ _ _ _ I1 Hi (lookup_insert_eq _ _ _) Ho) as (b & t2 & -> & Ep & I2).
      cbn [mbind outcome_bind]. rewrite Ep. cbn [mbind outcome_bind]. rewrite insert_insert_eq in I2.
      exists OG_SUCCESS, res', cc, r', f', ab', t2. destruct (Hcc Hc) as [-> _]. split; [done|]. by rewrite Einv.
    + exists ret, res', cc, r', f', ab', t1. split; [done|]. by rewrite Einv.
  - exists ret, res', cc, r', f', ab', t1. split; [done|]. by rewrite Einv.
Qed.

(** ** The claim handler *)

(** [claim_on_resource] on sequences: no panic, and the invariant. *)
Lemma claim_on_resource_ok now f ab c cvt :
  page_ok ab ->
  exists o msgs cvt' f' ab', claim_on_resource now f ab c cvt = Ok (o, msgs, cvt', f', ab') /\ page_ok ab' /\
    buf_page_id ab' = buf_page_id ab /\ (o = None \/ exists r, o = Some (Some r)) /\
    (cvt_req_id cvt = OG_INVALID_ID8 -> cvt_req_id cvt' <> OG_INVALID_ID8 ->
       inst_id (converting ab') <> OG_INVALID_ID8).
Proof.
  intros I. unfold claim_on_resource.
  destruct (Z.eqb_spec (inst_id (converting ab)) OG_INVALID_ID8) as [Hc|Hc];
    [eexists _, _, _, _, _; split; [done|]; split_and!; try done; by left|].
  destruct (drc_is_same_claim_request (converting ab) c) eqn:Es; cbn [negb];
    [|eexists _, _, _, _, _; split; [done|]; split_and!; try done; by left].
  destruct (drc_claim_info_is_invalid c ab) eqn:Ei;
    [eexists _, _, _, _, _; split; [done|]; split_and!; try done; by left|].
  destruct (claim_new_owner_ok ab c I Hc Es Ei) as (b1 & -> & I1 & Ho1 & Hp1 & Hg1 & _). cbn [mbind outcome_bind].
  pose proof (convert_next_request_ok now f b1 cvt I1 Ho1) as HN.
  destruct (skip_dead now (convert_q b1)) as [|r q].
  - destruct HN as (cvt' & f' & b' & -> & I' & Hg' & Hid & _); [by rewrite Hp1|].
    eexists _, _, _, _, _. split; [done|]. split_and!; try done; [congruence|by left|]. intros H1 H2. congruence.
  - destruct HN as (o & f' & b' & -> & I' & Hg' & _ & _ & _ & Hcv & Ho & _); [by rewrite Hp1|].
    eexists _, _, _, _, _. split; [done|]. split_and!; try done; [congruence|].
    destruct Ho as [[-> _]|(r' & -> & _)]; eauto.
Qed.

(** The claim handler up to its window. *)
Lemma claim_critical t A f F Sp am now k ab c cvt :
  page_inv t A f F Sp am -> A !! k = Some ab -> ci_page_id c = k ->
  let cvt0 := mk_cvt (cvt_owner_id cvt) OG_INVALID_ID8 (cvt_req_sid cvt) (cvt_req_rsn cvt) (cvt_pageid cvt)
                (cvt_req_mode cvt) (cvt_curr_mode cvt) (cvt_readonly_copies cvt) (cvt_req_version cvt) (cvt_lsn cvt) in
  exists i o msgs cvt' f' ab' t1, am !! k = Some i /\
    claim_on_resource now f ab c cvt0 = Ok (o, msgs, cvt', f', ab') /\ page_ok ab' /\
    (cvt_req_id cvt' <> OG_INVALID_ID8 -> inst_id (converting ab') <> OG_INVALID_ID8) /\
    page_inv t1 (<[k := ab']> A) (f' + match o with Some _ => 1 | None => 0 end) F Sp am /\
    let msgs' := msgs ++ match o with Some (Some r) => [error_to r] | _ => [] end in
    forall inv env, drc_claim_page_owner now inv env c cvt t =
      if negb (cvt_req_id cvt' =? OG_INVALID_ID8) && negb (cvt_readonly_copies cvt' =? 0) &&
         (cvt_req_mode cvt' =? DRC_LOCK_EXCLUSIVE)
      then match inv with
           | OG_ERROR => Ok (msgs', cvt', t1)
           | OG_SUCCESS =>
               b ← tb_get (env t1) i;
               t2 ← tb_put (env t1) i (set_readonly_copies 0 b);
               Ok (msgs', cvt', t2)
           end
      else Ok (msgs', cvt', t1).
Proof.
  intros I Hk Hck cvt0. destruct (page_open _ _ _ _ _ _ _ _ I Hk) as (i & b & E & Hi & Hl & Hb & Hpk & RR & Hput).
  destruct (claim_on_resource_ok now f ab c cvt0 (pv_ok _ _ _ _ _ _ I _ _ Hk)) as
    (o & msgs & cvt' & f' & ab' & Ec & Hok & Hpg & Ho & Hid). specialize (Hid eq_refl).
  pose proof (claim_on_resource_sim now _ _ _ _ _ _ c cvt0 RR) as HS. rewrite Ec in HS.
  destruct HS as (o' & s' & b' & Es & CR).
  assert (forall s2 f2, res_rel E (tb_items t) s2 b' f2 ab' -> exists g, gr_put (tb_res t) i b' = Ok g /\
    page_inv (mk_tab s2 g) (<[k := ab']> A) f2 F Sp am) as Hput'.
  { intros s2 f2 R2. destruct (Hput s2 b' f2 ab' R2) as (t2 & Et & Ei & I2); [congruence|done|].
    unfold tb_put in Et. cbn [tb_res tb_set_items] in Et. destruct (gr_put (tb_res t) i b') as [g|]; [|done].
    cbn in Et. injection Et as <-. by exists g. }
  assert (exists t1, page_inv t1 (<[k := ab']> A) (f' + match o with Some _ => 1 | None => 0 end) F Sp am /\
    (t1' ← tb_put (tb_set_items s' t) i b'; match o' with
       | None => Ok (msgs, t1')
       | Some item => r ← q_read (tb_items t1') item; s ← q_free (tb_items t1') item;
           Ok (msgs ++ [error_to r], tb_set_items s t1') end) =
    Ok (msgs ++ match o with Some (Some r) => [error_to r] | _ => [] end, t1)) as (t1 & I1 & Et1).
  { unfold tb_put. cbn [tb_res tb_set_items]. destruct Ho as [->|(r & ->)], o' as [item|]; try done.
    - cbn in CR. destruct (Hput' _ _ CR) as (g & -> & I1). exists (mk_tab s' g). rewrite Z.add_0_r, app_nil_r. done.
    - destruct (conflict_free _ _ _ _ _ _ _ _ CR) as (Er & s2 & Ef & R2). destruct (Hput' _ _ R2) as (g & -> & I1).
      exists (mk_tab s2 g). split; [done|]. cbn [mbind outcome_bind tb_items tb_set_res tb_set_items q_read q_free linked_queue].
      rewrite Er. cbn [mbind outcome_bind]. by rewrite Ef. }
  exists i, o, msgs, cvt', f', ab', t1. split_and!; try done.
  intros msgs' inv env. unfold drc_claim_page_owner. rewrite Hck, Hl. cbn [mbind outcome_bind]. rewrite Hb.
  cbn [mbind outcome_bind]. fold cvt0. rewrite Es. cbn [mbind outcome_bind].
  destruct (tb_put (tb_set_items s' t) i b') as [t1'|]; [|done]. cbn [mbind outcome_bind] in Et1 |- *.
  rewrite Et1. done.
Qed.

(** Every claim ends normally and keeps the table well-formed. *)
Lemma claim_safe now inv env c cvt t A f F Sp am :
  page_inv t A f F Sp am -> (forall i, env_busy ∅ (ci_page_id c) i env) ->
  exists msgs cvt' t' A' f' F' Sp' am', drc_claim_page_owner now inv env c cvt t = Ok (msgs, cvt', t') /\
    page_inv t' A' f' F' Sp' am'.
Proof.
  intros I He. destruct (A !! ci_page_id c) as [ab|] eqn:Hk.
  - destruct (claim_critical t A f F Sp am now _ ab c cvt I Hk eq_refl) as
      (i & o & msgs & cvt' & f' & ab' & t1 & Hi & _ & Hok & Hcv & I1 & ->).
    destruct (negb _ && _ && _) eqn:Ec; [|by eauto 12]. destruct inv; [|by eauto 12].
    apply andb_true_iff in Ec as [[Ec%negb_true_iff%Z.eqb_neq _]%andb_true_iff _].
    destruct (He i t1 _ _ _ _ _ ab' I1 ltac:(set_solver) Hi) as (A2 & f2 & F2 & Sp2 & am2 & ab2 & I2 & _ & Hi2 & Hk2 & Hw2);
      [by rewrite lookup_insert_eq | auto |].
    destruct (drop_copies_ok _ _ _ _ _ _ _ _ _ I2 Hi2 Hk2 Hw2) as (b & t3 & -> & Ep & I3).
    cbn [mbind outcome_bind]. rewrite Ep. cbn [mbind outcome_bind]. by eauto 12.
  - unfold drc_claim_page_owner. rewrite (page_lookup_none _ _ _ _ _ _ _ I Hk). cbn [mbind outcome_bind]. by eauto 12.
Qed.

(** A claim for a known page is the claim on the sequence of waiters; the
    request it turns away, if any, is told. *)
Lemma claim_known_ok now inv c cvt t A f F Sp am ab :
  page_inv t A f F Sp am -> A !! ci_page_id c = Some ab ->
  let cvt0 := mk_cvt (cvt_owner_id cvt) OG_INVALID_ID8 (cvt_req_sid cvt) (cvt_req_rsn cvt) (cvt_pageid cvt)
                (cvt_req_mode cvt) (cvt_curr_mode cvt) (cvt_readonly_copies cvt) (cvt_req_version cvt) (cvt_lsn cvt) in
  exists o msgs cvt' f' ab' t', claim_on_resource now f ab c cvt0 = Ok (o, msgs, cvt', f', ab') /\
    let inval := negb (cvt_req_id cvt' =? OG_INVALID_ID8) && negb (cvt_readonly_copies cvt' =? 0) &&
                 (cvt_req_mode cvt' =? DRC_LOCK_EXCLUSIVE) in
    drc_claim_page_owner now inv (fun t => t) c cvt t =
      Ok (msgs ++ match o with Some (Some r) => [error_to r] | _ => [] end, cvt', t') /\
    page_inv t' (<[ci_page_id c := if inval && bool_decide (inv = OG_SUCCESS) then set_readonly_copies 0 ab' else ab']> A)
      (f' + match o with Some _ => 1 | None => 0 end) F Sp am.
Proof.
  intros I Hk cvt0. destruct (claim_critical t A f F Sp am now _ ab c cvt I Hk eq_refl) as
    (i & o & msgs & cvt' & f' & ab' & t1 & Hi & Ec & Hok & Hcv & I1 & Ed). rewrite Ed.
  destruct (negb _ && _ && _) eqn:Einv.
  - destruct inv.
    + assert (cvt_req_id cvt' <> OG_INVALID_ID8) as Hid
        by (apply andb_true_iff in Einv as [[?%negb_true_iff%Z.eqb_neq _]%andb_true_iff _]; done).
      destruct (drop_copies_ok t1 _ _ _ _ _ _ _ _ I1 Hi (lookup_insert_eq _ _ _) (po_owned _ Hok (Hcv Hid)))
        as (b & t2 & -> & Ep & I2).
      cbn [mbind outcome_bind]. rewrite Ep. cbn [mbind outcome_bind]. rewrite insert_insert_eq in I2.
      exists o, msgs, cvt', f', ab', t2. split; [done|]. by rewrite Einv.
    + exists o, msgs, cvt', f', ab', t1. split; [done|]. by rewrite Einv.
  - exists o, msgs, cvt', f', ab', t1. split; [done|]. by rewrite Einv.
Qed.

(** ** The other handlers *)

(** What a release does to the catalogue. *)
Definition release_spec (old_id : Z) (ab : apage) : bool * bool :=
  if negb (old_id =? claimed_owner ab) then (negb (old_id =? inst_id (converting ab)), false)
  else if negb (inst_id (converting ab) =? OG_INVALID_ID8) || negb (edp_map ab =? 0) then (false, false)
  else (true, true).

Lemma release_ok old_id t A f F Sp am k ab :
  page_inv t A f F Sp am -> A !! k = Some ab ->
  exists t' am', drc_release_page_owner old_id k t = Ok (fst (release_spec old_id ab), t') /\
    page_inv t' (if snd (release_spec old_id ab) then delete k A else A) f F Sp am' /\
    (snd (release_spec old_id ab) = false -> t' = t).
Proof.
  intros I Hk. destruct (page_open _ _ _ _ _ _ _ _ I Hk) as (i & b & E & Hi & Hl & Hb & Hpk & (l & _ & Hab & _) & _).
  unfold drc_release_page_owner, release_spec. rewrite Hl. cbn [mbind outcome_bind]. rewrite Hb. cbn [mbind outcome_bind].
  assert (claimed_owner b = claimed_owner ab /\ converting b = converting ab /\ edp_map b = edp_map ab) as (-> & -> & ->)
    by (rewrite Hab; done).
  destruct (negb (old_id =? claimed_owner ab)); [by exists t, am|].
  destruct (Z.eqb_spec (inst_id (converting ab)) OG_INVALID_ID8) as [Hc|Hc]; cbn [negb orb]; [|by exists t, am].
  destruct (negb (edp_map ab =? 0)); [by exists t, am|]. pose proof (po_idle _ (pv_ok _ _ _ _ _ _ I _ _ Hk) Hc) as Hq.
  destruct (tab_remove_list _ _ page_partid_range t A f F Sp am k i ab (pv_rep _ _ _ _ _ _ I) Hk Hi Hq)
    as (g1 & g2 & g3 & g4 & a & E1 & E2 & Ea & Hax & E3 & E4 & _ & R').
  change (buf_bucket t k) with (tb_hash drc_page_id_hash t k). rewrite E1. cbn [mbind outcome_bind].
  rewrite E2. cbn [mbind outcome_bind]. rewrite Ea. cbn [mbind outcome_bind]. rewrite E3. cbn [mbind outcome_bind].
  rewrite Hax, E4. cbn [mbind outcome_bind]. eexists _, _. split; [done|]. split; [|done]. split; [done|].
  intros k' ab' [_ ?]%lookup_delete_Some. by eapply pv_ok.
Qed.

Lemma clean_edp_ok lsn t A f F Sp am k ab :
  page_inv t A f F Sp am -> A !! k = Some ab ->
  exists t', drc_clean_edp_info k lsn t = Ok (OG_SUCCESS, t') /\
    page_inv t' (if buf_lsn ab <=? lsn then <[k := set_latest_edp OG_INVALID_ID8 0 (set_edp_map 0 ab)]> A else A) f F Sp am.
Proof.
  intros I Hk. pose proof (pv_ok _ _ _ _ _ _ I _ _ Hk) as Hok.
  destruct (page_store _ _ _ _ _ _ _ _ (fun Q x => set_latest_edp OG_INVALID_ID8 0 (set_edp_map 0 x)) I Hk)
    as (i & b & t' & Hi & Hl & Hb & Hab & Ep & I'); try done.
  { destruct Hok. split; cbn; auto with drc; try done. }
  unfold drc_clean_edp_info. rewrite Hl. cbn [mbind outcome_bind]. rewrite Hb. cbn [mbind outcome_bind].
  assert (buf_lsn b = buf_lsn ab) as -> by (rewrite Hab; done). destruct (buf_lsn ab <=? lsn); [|by exists t].
  rewrite Ep. cbn [mbind outcome_bind]. by exists t'.
Qed.

Lemma get_edp_ok t A f F Sp am k :
  page_inv t A f F Sp am ->
  drc_get_edp_info k t =
    Ok ((fun ab => mk_edp (edp_map ab) (buf_lsn ab) (readonly_copies ab) (latest_edp ab)) <$> A !! k).
Proof.
  intros I. unfold drc_get_edp_info. destruct (A !! k) as [ab|] eqn:Hk.
  - destruct (page_open _ _ _ _ _ _ _ _ I Hk) as (i & b & E & Hi & -> & Hb & Hpk & (l & _ & Hab & _) & _).
    cbn [mbind outcome_bind]. rewrite Hb. cbn. rewrite Hab. done.
  - by rewrite (page_lookup_none _ _ _ _ _ _ _ I Hk).
Qed.

(** Asking for the owner: an orphan gets one once recovery is done. *)
Definition owner_spec (v : view) (ab : apage) : apage :=
  if (claimed_owner ab =? OG_INVALID_ID8) && (REFORM_RECOVER_DONE <=? v_rc_status v)
  then match drc_clean_buf_res ab with Ok ab' => ab' | Crash _ => ab end else ab.

Lemma get_owner_ok v t A f F Sp am k ab :
  page_inv t A f F Sp am -> A !! k = Some ab ->
  exists t', drc_get_page_owner_id v false k t =
      Ok (OG_SUCCESS, claimed_owner (owner_spec v ab), pending (owner_spec v ab), t') /\
    page_inv t' (<[k := owner_spec v ab]> A) f F Sp am.
Proof.
  intros I Hk. destruct (page_open _ _ _ _ _ _ _ _ I Hk) as (i & b & E & Hi & Hl & Hb & Hpk & RR & Hput).
  pose proof (pv_ok _ _ _ _ _ _ I _ _ Hk) as Hok. unfold drc_get_page_owner_id, owner_spec. rewrite Hl. cbn [mbind outcome_bind].
  rewrite Hb. cbn [mbind outcome_bind].
  assert (claimed_owner b = claimed_owner ab) as -> by (destruct RR as (l & _ & -> & _); done).
  destruct (Z.eqb_spec (claimed_owner ab) OG_INVALID_ID8) as [Ho|Ho]; cbn [andb].
  1: destruct (REFORM_RECOVER_DONE <=? v_rc_status v).
  - destruct (clean_buf_res_ok ab Hok Ho) as (ab' & Ec & Hok' & Hpg & _). rewrite Ec. cbn [negb knl_panic mbind outcome_bind].
    pose proof (queue_blind_sim _ _ _ _ _ _ _ clean_buf_res_blind RR) as HS. cbn beta in HS. rewrite Ec in HS.
    destruct HS as (b' & -> & RR'). cbn [mbind outcome_bind].
    destruct (Hput _ _ _ _ RR') as (t' & Et & _ & I'); [congruence|done|]. rewrite tb_set_items_id in Et. rewrite Et.
    cbn [mbind outcome_bind]. exists t'. split; [|done]. destruct RR' as (l & _ & -> & _). done.
  - cbn [mbind outcome_bind]. destruct (Hput _ _ _ _ RR Hpk Hok) as (t' & Et & _ & I'). rewrite tb_set_items_id in Et. rewrite Et.
    cbn [mbind outcome_bind]. exists t'. split; [|done]. destruct RR as (l & _ & -> & _). done.
  - cbn [mbind outcome_bind]. destruct (Hput _ _ _ _ RR Hpk Hok) as (t' & Et & _ & I'). rewrite tb_set_items_id in Et. rewrite Et.
    cbn [mbind outcome_bind]. exists t'. split; [|done]. destruct RR as (l & _ & -> & _). done.
Qed.

(** Recycling on the owner's demand. *)
Definition demand_ok (inst time : Z) (ab : apage) : bool :=
  (claimed_owner ab =? inst) && bool_decide (pending ab = DRC_RES_INVALID_ACTION) && (req_time (converting ab) <? time) &&
  buf_res_is_recyclable ab.

Lemma demand_refused inst time (ab : apage) :
  claimed_owner ab <> inst \/ claimed_owner ab = OG_INVALID_ID8 \/ pending ab <> DRC_RES_INVALID_ACTION \/
    time <= req_time (converting ab) \/ inst_id (converting ab) <> OG_INVALID_ID8 ->
  demand_ok inst time ab = false.
Proof.
  unfold demand_ok, buf_res_is_recyclable. intros H.
  destruct (Z.eqb_spec (claimed_owner ab) inst); [|done]. destruct (bool_decide_reflect (pending ab = DRC_RES_INVALID_ACTION)); [|done].
  destruct (Z.ltb_spec (req_time (converting ab)) time); [|done].
  destruct (Z.eqb_spec (inst_id (converting ab)) OG_INVALID_ID8); [|done].
  destruct (Z.eqb_spec (claimed_owner ab) OG_INVALID_ID8); [done|]. cbn. exfalso. destruct H as [|[|[|[]]]]; done || lia.
Qed.

(** A demand that is out of date or meets a converting page changes nothing. *)
Lemma recycle_refused node_count v ret env inst time k t A f F Sp am ab :
  page_inv t A f F Sp am -> A !! k = Some ab -> demand_ok inst time ab = false ->
  drc_buf_res_recycle node_count v ret env inst time k t = Ok t.
Proof.
  intros I Hk Hd. destruct (page_open _ _ _ _ _ _ _ _ I Hk) as (i & b & E & Hi & Hl & Hb & Hpk & (l & _ & Hab & _) & _).
  unfold drc_buf_res_recycle. repeat (case_match; [done|]). rewrite Hl. cbn [mbind outcome_bind]. rewrite Hb.
  cbn [mbind outcome_bind]. pose proof (po_used _ (pv_ok _ _ _ _ _ _ I _ _ Hk)) as Hu. unfold demand_ok in Hd.
  rewrite Hab in Hd, Hu.
  change (is_used b = true) in Hu. rewrite Hu. change (buf_res_is_recyclable (set_convert_q (convert_q ab) b)) with
    (buf_res_is_recyclable b) in Hd. cbn [set_convert_q claimed_owner pending converting] in Hd.
  destruct (claimed_owner b =? inst); [|done]. destruct (bool_decide _); [|done]. cbn [negb orb andb] in *.
  rewrite Z.ltb_antisym in Hd. destruct (time <=? _); [done|]. cbn [negb andb] in Hd. by rewrite Hd.
Qed.

(** A current one takes the page out of the catalogue when the invalidations
    succeed, and leaves it usable when they fail. *)
Lemma recycle_demanded node_count v ret env inst time k t A f F Sp am ab :
  page_inv t A f F Sp am -> A !! k = Some ab -> demand_ok inst time ab = true -> (forall i, env_frozen i k env) ->
  is_inst inst -> inst < node_count -> IS_INVALID_PAGID k = false -> drc_remaster_in_progress v = false ->
  exists t1 A1 f1 F1 Sp1 am1 t' A' Sp' am', drc_buf_res_recycle node_count v ret env inst time k t = Ok t' /\
    page_inv (env t1) A1 f1 F1 Sp1 am1 /\ page_inv t' A' f1 F1 Sp' am' /\
    ((A1 !! k = None /\ A' = A1) \/
     (A1 !! k = Some (set_pending DRC_RES_PENDING_ACTION ab) /\
      A' = match ret with OG_SUCCESS => delete k A1 | OG_ERROR => <[k := ab]> A1 end)).
Proof.
  intros I Hk Hd He Hin Hnc Hpg Hv.
  apply andb_true_iff in Hd as [[[Ho%Z.eqb_eq Hp%bool_decide_eq_true]%andb_true_iff Htm%Z.ltb_lt]%andb_true_iff Hrec].
  destruct (page_open _ _ _ _ _ _ _ _ I Hk) as (i & b & E & Hi & Hl & Hb & Hpk & (l & _ & Hab & _) & _).
  pose proof (po_used _ (pv_ok _ _ _ _ _ _ I _ _ Hk)) as Hu.
  apply andb_true_iff in Hrec as Hrec'. destruct Hrec' as [Hcv%Z.eqb_eq Hown%negb_true_iff%Z.eqb_neq].
  pose proof (po_idle _ (pv_ok _ _ _ _ _ _ I _ _ Hk) Hcv) as Hq.
  destruct (set_pending_ok _ _ _ _ _ _ _ _ _ DRC_RES_PENDING_ACTION I Hi Hk) as (b' & t1 & Eb' & _ & Ep & I1); try done.
  assert (b' = b) as -> by congruence.
  destruct (He i t1 _ _ _ _ _ _ I1 Hi (lookup_insert_eq _ _ _) eq_refl) as (A1 & f1 & F1 & Sp1 & am1 & I2 & Hend).
  unfold drc_buf_res_recycle. rewrite (proj2 (Z.leb_gt OG_MAX_INSTANCES inst)) by apply Hin. rewrite Hpg.
  rewrite (proj2 (Z.leb_gt node_count inst)) by lia. cbn [orb]. rewrite Hv, Hl. cbn [mbind outcome_bind]. rewrite Hb.
  cbn [mbind outcome_bind].
  assert (claimed_owner b = inst /\ pending b = DRC_RES_INVALID_ACTION /\ is_used b = true /\
    req_time (converting b) < time /\ buf_res_is_recyclable b = true) as (-> & -> & -> & Htm' & ->).
  { rewrite Hab in Ho, Hp, Hu, Htm, Hrec. done. }
  rewrite Z.eqb_refl, (proj2 (Z.leb_gt _ _) Htm'). cbn [negb orb bool_decide decide_rel]. rewrite bool_decide_eq_true_2 by done.
  cbn [negb orb]. rewrite Ep. cbn [mbind outcome_bind]. destruct Hend as [Hg|[Hk2 Hi2]].
  { rewrite (page_lookup_none _ _ _ _ _ _ _ I2 Hg). cbn [mbind outcome_bind].
    eexists _, _, _, _, _, _, _, _, _, _. split; [done|]. split_and!; [done|done|by left]. }
  destruct (page_open _ _ _ _ _ _ _ _ I2 Hk2) as (i2 & b2 & E2 & Hi2' & -> & Hb2 & _).
  assert (i2 = i) as -> by congruence. cbn [mbind outcome_bind]. rewrite Hb2. cbn [mbind outcome_bind].
  assert (set_pending DRC_RES_INVALID_ACTION (set_pending DRC_RES_PENDING_ACTION ab) = ab) as Hid
    by (clear -Hp; destruct ab; cbn in Hp; by subst).
  destruct ret.
  - rewrite (page_slot_idx _ _ _ _ _ _ _ _ I2 Hi2). cbn [mbind outcome_bind].
    destruct (page_store _ _ _ _ _ _ _ _ (fun Q x => set_pending DRC_RES_INVALID_ACTION (set_readonly_copies 0 x)) I2 Hk2)
      as (i3 & b3 & t3 & Hi3 & _ & Hb3 & _ & Ep3 & I3); try done.
    { apply page_ok_pending; [|done..]. apply page_ok_no_copies; [by eapply pv_ok|done]. }
    assert (i3 = i) as -> by congruence. assert (b3 = b2) as -> by congruence. rewrite Ep3. cbn [mbind outcome_bind].
    destruct (clean_internal_ok t3 _ _ _ _ _ k i _ I3 Hi2 (lookup_insert_eq _ _ _)) as (t4 & F' & -> & HF & I4).
    rewrite (HF Hq), delete_insert_eq in I4. cbn [mbind outcome_bind].
    assert (i <> OG_INVALID_ID32) as Hiv.
    { pose proof (tab_slot_range _ _ _ _ _ _ _ _ _ _ (pv_rep _ _ _ _ _ _ I2) Hi2) as Hr.
      pose proof (pw_num _ _ (gi_pool _ _ _ _ _ _ (tr_gres _ _ _ _ _ _ _ _ (pv_rep _ _ _ _ _ _ I2)))). lia. }
    rewrite (proj2 (Z.eqb_neq _ _) Hiv). destruct (page_free _ _ _ _ _ _ i I4) as (t5 & -> & I5); [set_solver|].
    eexists _, _, _, _, _, _, _, _, _, _. split; [done|]. split_and!; [done|done|]. right. by split.
  - destruct (set_pending_ok _ _ _ _ _ _ _ _ _ DRC_RES_INVALID_ACTION I2 Hi2 Hk2) as (b3 & t3 & Eb3 & _ & Ep3 & I3); try done.
    assert (b3 = b2) as -> by congruence. rewrite Ep3. rewrite Hid in I3.
    eexists _, _, _, _, _, _, _, _, _, _. split; [done|]. split_and!; [done|done|]. right. by split.
Qed.
End PageThm.
