(* ===== verification/DrcPageSpec.v ===== *)
(** What the page master promises for a page it knows, written as rules over
    the resource of the page and the sequence of its waiters, without the
    functions of [DrcPage]: which requests are refused, granted, converted or
    queued, and what a claim leaves behind.  The lemmas show that the handlers
    follow the rules. *)

From S2P Require Import Prelude DrcBitmap DrcPool DrcResMap DrcList DrcGlobalRes DrcQueue DrcTable DrcReform DrcPage.
From S2P Require Import DrcPageSim DrcPageInv DrcPageThm.

(** ** Requests *)

(** [x] is an earlier request of the instance of [r], which has not been
    served since. *)
Definition retries (x r : drc_req_info) : Prop := inst_id x = inst_id r /\ req_mode x <> curr_mode r.

Definition busy (b : apage) : Prop := inst_id (converting b) <> OG_INVALID_ID8.

(** How a request is answered. *)
Inductive verdict :=
| Refused
| Granted
| Converting (retry : bool)
| Waiting.

(** A page without owner gets one: the lowest instance with a copy, or the
    one with the latest past image; without either it stays as it is. *)
Inductive adopted (b : apage) : apage -> Prop :=
| adopted_owned : claimed_owner b <> OG_INVALID_ID8 -> adopted b b
| adopted_copy o : claimed_owner b = OG_INVALID_ID8 -> bm_mem (readonly_copies b) o ->
    (forall i, bm_mem (readonly_copies b) i -> o <= i) ->
    adopted b (set_readonly_copies (drc_bitmap64_clear (readonly_copies b) o)
                 (set_pending DRC_RES_SHARE_ACTION (set_claimed_owner o b)))
| adopted_edp : claimed_owner b = OG_INVALID_ID8 -> readonly_copies b = 0 -> edp_map b <> 0 ->
    adopted b (set_pending DRC_RES_EXCLUSIVE_ACTION (set_claimed_owner (latest_edp b) b))
| adopted_none : claimed_owner b = OG_INVALID_ID8 -> readonly_copies b = 0 -> edp_map b = 0 -> adopted b b.

(** A request on a page with an owner: the verdict, the items left for
    waiters and the page.  [f] items are left before. *)
Inductive served (f : Z) (r : drc_req_info) (is_try : bool) (b : apage) : verdict -> Z -> apage -> Prop :=
| served_idle : ~ busy b -> is_try = false \/ (claimed_owner b = inst_id r /\ readonly_copies b = 0) ->
    served f r is_try b (Converting false) f (set_converting r b)
| served_idle_try : ~ busy b -> is_try = true -> claimed_owner b <> inst_id r \/ readonly_copies b <> 0 ->
    served f r is_try b Waiting f b
| served_busy_try : busy b -> is_try = true -> served f r is_try b Waiting f b
| served_conflict : busy b -> is_try = false -> conflict r b -> served f r is_try b Refused f b
| served_retry : busy b -> is_try = false -> ~ conflict r b -> retries (converting b) r ->
    req_time (converting b) <= req_time r ->
    served f r is_try b (Converting true) f
      (set_converting (set_req_mode (Z.max (req_mode (converting b)) (req_mode r)) r) b)
| served_stale : busy b -> is_try = false -> ~ conflict r b -> retries (converting b) r ->
    req_time r < req_time (converting b) -> served f r is_try b Refused f b
| served_replace q1 x q2 : busy b -> is_try = false -> ~ conflict r b -> ~ retries (converting b) r ->
    convert_q b = q1 ++ x :: q2 -> Forall (fun y => ~ retries y r) q1 -> retries x r -> req_lsn x = req_lsn r ->
    served f r is_try b Waiting f (set_convert_q (q1 ++ r :: q2) b)
| served_other_lsn q1 x q2 : busy b -> is_try = false -> ~ conflict r b -> ~ retries (converting b) r ->
    convert_q b = q1 ++ x :: q2 -> Forall (fun y => ~ retries y r) q1 -> retries x r -> req_lsn x <> req_lsn r ->
    served f r is_try b Refused f b
| served_queued : busy b -> is_try = false -> ~ conflict r b -> ~ retries (converting b) r ->
    Forall (fun y => ~ retries y r) (convert_q b) -> f <> 0 ->
    served f r is_try b Waiting (f - 1) (set_convert_q (convert_q b ++ [r]) b)
| served_full : busy b -> is_try = false -> ~ conflict r b -> ~ retries (converting b) r ->
    Forall (fun y => ~ retries y r) (convert_q b) -> f = 0 -> served f r is_try b Refused f b.

(** Ownerless pages are given out only when recovery is over, during
    recovery itself, or for a page that is readable. *)
Definition orphans_served (v : view) (k : page_id) : Prop :=
  v_session_in_recovery v = true \/ REFORM_RECOVER_DONE <= v_rc_status v \/ dtc_dcs_readable v k = true.

Definition answer_type (vd : verdict) (r : drc_req_info) (b : apage) : drc_req_owner_result_type :=
  match vd with
  | Refused => DRC_REQ_OWNER_INVALID
  | Granted => DRC_REQ_OWNER_GRANTED
  | Converting _ => if decide (claimed_owner b = inst_id r) then DRC_REQ_OWNER_ALREADY_OWNER else DRC_REQ_OWNER_CONVERTING
  | Waiting => DRC_REQ_OWNER_WAITING
  end.

(** The answer is recorded in the request under conversion. *)
Definition recorded (vd : verdict) (r : drc_req_info) (b : apage) : apage :=
  match vd with
  | Granted | Converting _ => set_converting (set_owner_result (result_code (answer_type vd r b)) (converting b)) b
  | _ => b
  end.

(** A request for a page the master knows. *)
Inductive ruled (v : view) (k : page_id) (f : Z) (r : drc_req_info) (is_try : bool) (b : apage) :
    verdict -> Z -> apage -> Prop :=
| ruled_recycled : pending b = DRC_RES_PENDING_ACTION -> ruled v k f r is_try b Refused f b
| ruled_unsettled : pending b <> DRC_RES_PENDING_ACTION -> claimed_owner b = OG_INVALID_ID8 -> ~ orphans_served v k ->
    ruled v k f r is_try b Refused f b
| ruled_granted b1 : pending b <> DRC_RES_PENDING_ACTION -> claimed_owner b = OG_INVALID_ID8 -> orphans_served v k ->
    adopted b b1 -> claimed_owner b1 = OG_INVALID_ID8 ->
    ruled v k f r is_try b Granted f (recorded Granted r (set_mode (req_mode r) (set_claimed_owner (inst_id r) b1)))
| ruled_served b1 vd f' b2 : pending b <> DRC_RES_PENDING_ACTION ->
    (claimed_owner b = OG_INVALID_ID8 -> orphans_served v k) -> adopted b b1 -> claimed_owner b1 <> OG_INVALID_ID8 ->
    served f r is_try b1 vd f' b2 -> ruled v k f r is_try b vd f' (recorded vd r b2).

(** The copies that have to go before [r] can have the page for itself. *)
Definition others_copy (r : drc_req_info) (b : apage) (i : Z) : Prop :=
  bm_mem (readonly_copies b) i /\ i <> inst_id r /\ i <> claimed_owner b.

Definition must_invalidate (vd : verdict) (b : apage) : Prop :=
  (exists retry, vd = Converting retry) /\ req_mode (converting b) = DRC_LOCK_EXCLUSIVE /\
  exists i, others_copy (converting b) b i.

(** What the requester is told. *)
Definition answered (vd : verdict) (r : drc_req_info) (b : apage) (ret : status) (res : req_owner_result) : Prop :=
  ro_type res = answer_type vd r b /\ (ret = OG_ERROR <-> vd = Refused) /\
  match vd with
  | Refused => True
  | Granted => ro_curr_owner_id res = inst_id r
  | Waiting => ro_curr_owner_id res = claimed_owner b
  | Converting retry => ro_curr_owner_id res = claimed_owner b /\ ro_action res = pending b /\ ro_is_retry res = retry /\
      ro_req_mode res = req_mode (converting b) /\ forall i, bm_mem (ro_readonly_copies res) i <-> others_copy r b i
  end.

Lemma retry_retries x r : drc_is_retry_request x r = true <-> retries x r.
Proof.
  unfold drc_is_retry_request, retries.
  destruct (Z.eqb_spec (inst_id x) (inst_id r)), (Z.eqb_spec (req_mode x) (curr_mode r)); cbn; intuition congruence.
Qed.
Lemma not_retry_retries x r : drc_is_retry_request x r = false <-> ~ retries x r.
Proof. rewrite <- retry_retries. by destruct (drc_is_retry_request x r). Qed.

(** The search of the queue finds the first waiter that [r] repeats. *)
Lemma sq_update_first t g l :
  match sq_update l t g with
  | None => Forall (fun y => t y = false) l
  | Some o => exists q1 x q2, l = q1 ++ x :: q2 /\ Forall (fun y => t y = false) q1 /\ t x = true /\
      o = (x' ← g x; Some (q1 ++ x' :: q2))
  end.
Proof.
  induction l as [|x l IH]; cbn [sq_update]; [constructor|]. destruct (t x) eqn:Et.
  { exists [], x, l. split_and!; try done. }
  destruct (sq_update l t g) as [[l'|]|]; [| |by constructor].
  - destruct IH as (q1 & y & q2 & -> & H1 & H2 & H3). exists (x :: q1), y, q2. split_and!; [done|by constructor|done|].
    destruct (g y); [|done]. cbn in H3 |- *. congruence.
  - destruct IH as (q1 & y & q2 & -> & H1 & H2 & H3). exists (x :: q1), y, q2. split_and!; [done|by constructor|done|].
    by destruct (g y).
Qed.

(** [drc_keep_requester_wait] follows the rules. *)
Lemma keep_wait_served f r b is_try ret cc ir r' f' b' :
  is_inst (inst_id r) -> page_ok b -> drc_keep_requester_wait f r b is_try = Ok (ret, cc, ir, r', f', b') ->
  exists vd, served f r is_try b vd f' b' /\ (ret = OG_ERROR <-> vd = Refused) /\ inst_id r' = inst_id r /\
    vd <> Granted /\ cc = match vd with Converting _ => true | _ => false end /\
    (forall retry, vd = Converting retry -> ir = retry /\ r' = converting b').
Proof.
  intros Hr I. unfold drc_keep_requester_wait.
  destruct (Z.eqb_spec (inst_id (converting b)) OG_INVALID_ID8) as [Hc|Hc].
  - assert (~ busy b) as Hb by (by intros H). destruct is_try; cbn [andb].
    + destruct (Z.eqb_spec (claimed_owner b) (inst_id r)) as [Ho|Ho]; cbn [negb orb];
        [destruct (Z.eqb_spec (readonly_copies b) 0) as [Hz|Hz]; cbn [negb]|].
      * rewrite (po_idle _ I Hc). cbn. intros [= <- <- <- <- <- <-]. exists (Converting false).
        split_and!; try done; [apply served_idle; auto|]. by intros ? [= <-].
      * intros [= <- <- <- <- <- <-]. exists Waiting. split_and!; try done. by apply served_idle_try; [..|right].
      * intros [= <- <- <- <- <- <-]. exists Waiting. split_and!; try done. by apply served_idle_try; [..|left].
    + rewrite (po_idle _ I Hc). cbn. intros [= <- <- <- <- <- <-]. exists (Converting false).
      split_and!; try done; [apply served_idle; auto|]. by intros ? [= <-].
  - assert (busy b) as Hb by done. destruct is_try.
    { intros [= <- <- <- <- <- <-]. exists Waiting. split_and!; try done. by apply served_busy_try. }
    pose proof (check_new_req_conflict r b Hr) as Hcf. destruct (drc_check_new_req r b).
    2: { intros [= <- <- <- <- <- <-]. exists Refused. split_and!; try done. by apply served_conflict. }
    destruct (drc_is_retry_request (converting b) r) eqn:Ert.
    { apply retry_retries in Ert. destruct (Z.leb_spec (req_time (converting b)) (req_time r)); intros [= <- <- <- <- <- <-].
      - exists (Converting true). split_and!; try done; [by apply served_retry|]. by intros ? [= <-].
      - exists Refused. split_and!; try done. by apply served_stale. }
    apply not_retry_retries in Ert. cbn [q_count sequence_queue q_update q_enqueue].
    pose proof (sq_update_first (fun i => drc_is_retry_request i r)
      (fun i => if req_lsn i =? req_lsn r then Some r else None) (convert_q b)) as HU.
    set (u := sq_update _ _ _) in *.
    assert ((if 0 <? Z.of_nat (length (convert_q b)) then Ok (o ← u; Some (l' ← o; Some (f, l'))) else Ok None) =
      Ok (o ← u; Some (l' ← o; Some (f, l')))) as ->.
    { unfold u. destruct (convert_q b); [done|]. by destruct (Z.ltb_spec 0 (Z.of_nat (length (d :: l)))); [|cbn in *; lia]. }
    cbn [mbind outcome_bind]. destruct u as [o|]; cbn.
    + destruct HU as (q1 & x & q2 & Hq & H1 & H2%retry_retries & ->).
      assert (Forall (fun y => ~ retries y r) q1) as H1' by (eapply Forall_impl; [exact H1|]; by intros ? ?%not_retry_retries).
      destruct (Z.eqb_spec (req_lsn x) (req_lsn r)) as [Hl|Hl]; cbn; intros [= <- <- <- <- <- <-].
      * exists Waiting. split_and!; try done. by eapply served_replace.
      * exists Refused. split_and!; try done. by eapply served_other_lsn.
    + assert (Forall (fun y => ~ retries y r) (convert_q b)) as HU'
        by (eapply Forall_impl; [exact HU|]; by intros ? ?%not_retry_retries).
      destruct (Z.eqb_spec f 0) as [Hf|Hf]; cbn; intros [= <- <- <- <- <- <-].
      * exists Refused. split_and!; try done. by apply served_full.
      * exists Waiting. split_and!; try done. by apply served_queued.
Qed.

Lemma clean_adopted b b' :
  page_ok b -> claimed_owner b = OG_INVALID_ID8 -> drc_clean_buf_res b = Ok b' -> adopted b b'.
Proof.
  intros I Ho. unfold drc_clean_buf_res. rewrite Ho. cbn [knl_panic Z.eqb].
  destruct (Z.eqb_spec (readonly_copies b) 0) as [Hc|Hc]; cbn [negb mbind outcome_bind].
  - destruct (Z.eqb_spec (edp_map b) 0) as [He|He]; cbn [negb]; [intros [= <-]; by apply adopted_none|].
    destruct (po_orphan _ I Ho Hc He) as [Hl Hm].
    rewrite (proj2 (Z.eqb_neq _ _) Hl), (proj2 (Z.eqb_neq _ _) Hm). cbn. intros [= <-]. by apply adopted_edp.
  - rewrite (po_share _ I Hc). cbn. intros [= <-].
    destruct (select_one_ok _ (po_copies _ I) Hc). by apply adopted_copy.
Qed.

Lemma served_keeps f r is_try b vd f' b' :
  served f r is_try b vd f' b' -> claimed_owner b' = claimed_owner b /\ readonly_copies b' = readonly_copies b /\
    pending b' = pending b /\ (forall retry, vd = Converting retry -> inst_id (converting b') = inst_id r).
Proof. by intros []; split_and!. Qed.

(** [drc_request_page_owner] on a known page follows the rules, up to the
    invalidation of the copies. *)
Lemma request_ruled v f b r k is_try res ret res' cc r' f' b' :
  page_ok b -> is_inst (inst_id r) -> ro_type res = DRC_REQ_OWNER_INVALID ->
  request_on_resource v f b r k is_try res = Ok (ret, res', cc, r', f', b') ->
  exists vd, ruled v k f r is_try b vd f' b' /\ answered vd r b' ret res' /\
    (cc = true <-> exists retry, vd = Converting retry) /\
    (cc = true -> req_mode r' = req_mode (converting b') /\ inst_id (converting b') = inst_id r /\
       is_u64 (ro_readonly_copies res')).
Proof.
  intros I Hr Hres. unfold request_on_resource.
  case_bool_decide as Hp.
  { intros [= <- <- <- <- <- <-]. exists Refused.
    unfold answered; split_and!; try done; try (by split; [|intros []]). by apply ruled_recycled. }
  set (ready := v_session_in_recovery v || _ || _).
  assert (ready = true <-> orphans_served v k) as Hrd.
  { unfold ready, orphans_served. rewrite !orb_true_iff, Z.leb_le. tauto. }
  destruct ((claimed_owner b =? OG_INVALID_ID8) && negb ready) eqn:Eo.
  { apply andb_true_iff in Eo as [Eo%Z.eqb_eq Er%negb_true_iff]. intros [= <- <- <- <- <- <-]. exists Refused.
    unfold answered; split_and!; try done; try (by split; [|intros []]). apply ruled_unsettled; [done..|]. rewrite <- Hrd. by rewrite Er. }
  assert (claimed_owner b = OG_INVALID_ID8 -> orphans_served v k) as Hos.
  { intros Ho. rewrite <- Hrd. apply andb_false_iff in Eo as [Eo%Z.eqb_neq|Eo%negb_false_iff]; done. }
  assert (exists b1, (if claimed_owner b =? OG_INVALID_ID8 then drc_clean_buf_res b else Ok b) = Ok b1 /\ page_ok b1 /\
    adopted b b1) as (b1 & -> & I1 & Had).
  { destruct (Z.eqb_spec (claimed_owner b) OG_INVALID_ID8) as [Ho|Ho]; [|exists b; split_and!; try done; by apply adopted_owned].
    destruct (clean_buf_res_ok b I Ho) as (b1 & E & I1 & _). exists b1. split_and!; try done. by apply clean_adopted. }
  cbn [mbind outcome_bind]. destruct (Z.eqb_spec (claimed_owner b1) OG_INVALID_ID8) as [Ho|Ho].
  { intros [= <- <- <- <- <- <-]. exists Granted.
    assert (claimed_owner b = OG_INVALID_ID8) as Hb0 by (destruct Had; done).
    unfold answered; split_and!; try done; try (by split; [|intros []]). apply ruled_granted; auto. }
  destruct (drc_keep_requester_wait f r b1 is_try) as [[[[[[ret0 cc0] ir] r0] f0] b0]|] eqn:Ek; [|done].
  destruct (keep_wait_served _ _ _ _ _ _ _ _ _ _ Hr I1 Ek) as (vd & Hs & Hret & Hri & Hng & -> & Hcv).
  cbn [mbind outcome_bind]. destruct ret0.
  2: { intros [= <- <- <- <- <- <-]. pose proof (proj1 Hret eq_refl) as ->. exists Refused.
       unfold answered; split_and!; try done; try (by split; [|intros []]). exact (ruled_served v k f r is_try b b1 Refused _ _ Hp Hos Had Ho Hs). }
  destruct (served_keeps _ _ _ _ _ _ _ Hs) as (Hko & Hkc & Hkp & Hki).
  assert (is_inst (claimed_owner b1)) as Hoi by (apply opt_inst_is; [apply I1|done]).
  destruct vd as [| |retry|]; [by pose proof (proj2 Hret eq_refl)|done| |].
  - destruct (Hcv retry eq_refl) as [-> ->].
    set (ty := if _ =? _ then DRC_REQ_OWNER_ALREADY_OWNER else DRC_REQ_OWNER_CONVERTING).
    assert (ty = answer_type (Converting retry) r b0) as Ht.
    { unfold ty. cbn [answer_type]. rewrite Hri. destruct (Z.eqb_spec (claimed_owner b0) (inst_id r)); by case_decide. }
    destruct (knl_panic _) as [[]|] eqn:Epn; cbn [mbind outcome_bind]; [|done]. intros [= <- <- <- <- <- <-]. exists (Converting retry).
    rewrite Ht. split_and!.
    + exact (ruled_served v k f r is_try b b1 (Converting retry) _ _ Hp Hos Had Ho Hs).
    + unfold answered. split_and!; try done. intros i. cbn [ro_readonly_copies]. rewrite !bm_clear_mem by (rewrite ?Hri, ?Hko; apply Hr || apply Hoi).
      unfold others_copy. cbn. rewrite Hri. tauto.
    + split; [by exists retry|done].
    + intros _. cbn. rewrite (Hki retry eq_refl), Hkc. pose proof (po_copies _ I1). split_and!; auto with drc.
  - destruct (knl_panic _) as [[]|] eqn:Epn; cbn [mbind outcome_bind]; [|done]. intros [= <- <- <- <- <- <-]. exists Waiting.
    unfold answered; split_and!; try done; try (by split; [|intros []]). exact (ruled_served v k f r is_try b b1 Waiting _ _ Hp Hos Had Ho Hs).
Qed.

(** ** Claims *)

(** The claim is the one the master waits for and can be entered: it names
    the request under conversion, a past image comes only with an exclusive
    claim and its lsn, and the lsn does not go back. *)
Definition claim_due (c : claim_info) (b : apage) : Prop :=
  busy b /\ inst_id (converting b) = new_id c /\ inst_sid (converting b) = ci_sid c /\ req_mode (converting b) = ci_mode c /\
  (ci_mode c <> DRC_LOCK_SHARE -> has_edp c = true -> ci_mode c = DRC_LOCK_EXCLUSIVE /\ ci_lsn c <> 0) /\
  (0 < ci_lsn c -> buf_lsn b <= ci_lsn c).

(** What a claim makes of the page. *)
Definition claim_effect (c : claim_info) (b b1 : apage) : Prop :=
  (ci_mode c <= mode b /\ claimed_owner b = new_id c /\ b1 = set_pending DRC_RES_INVALID_ACTION b) \/
  (mode b1 = ci_mode c /\ buf_lsn b <= buf_lsn b1 /\
   (ci_mode c <> DRC_LOCK_SHARE -> claimed_owner b1 = new_id c /\ readonly_copies b1 = 0 /\
     (forall i, bm_mem (edp_map b1) i <->
       (bm_mem (edp_map b) i /\ i <> new_id c) \/ (has_edp c = true /\ i = claimed_owner b))) /\
   (ci_mode c = DRC_LOCK_SHARE -> claimed_owner b1 = claimed_owner b /\
    (forall i, bm_mem (readonly_copies b1) i <-> bm_mem (readonly_copies b) i \/ i = new_id c))).

(** The turn of the next waiter, once the claim is entered: who is told that
    it waited in vain, the items that become free, and the page.  A waiter
    that has waited too long is told; the first that has not is converted;
    the one behind it is told if the two would wait for each other. *)
Inductive next_turn (now : Z) (b : apage) : list err_msg -> Z -> apage -> Prop :=
| turn_nobody cv : Forall (fun r => timed_out now r = true) (convert_q b) -> inst_id cv = OG_INVALID_ID8 ->
    next_turn now b (error_to <$> convert_q b) (Z.of_nat (length (convert_q b))) (set_converting cv (set_convert_q [] b))
| turn_next d r q : convert_q b = d ++ r :: q -> Forall (fun r => timed_out now r = true) d -> timed_out now r = false ->
    (forall r', head q = Some r' -> ~ conflict r' (set_converting r b)) ->
    next_turn now b (error_to <$> d) (Z.of_nat (length d) + 1) (set_converting r (set_convert_q q b))
| turn_conflict d r r' q : convert_q b = d ++ r :: r' :: q -> Forall (fun r => timed_out now r = true) d ->
    timed_out now r = false -> conflict r' (set_converting r b) ->
    next_turn now b ((error_to <$> d) ++ [error_to r']) (Z.of_nat (length d) + 2) (set_converting r (set_convert_q q b)).

(** What the master passes on to the owner of the page. *)
Definition passed_on (cvt : cvt_info) (b : apage) : Prop :=
  (busy b -> cvt_req_id cvt = inst_id (converting b) /\ cvt_req_sid cvt = inst_sid (converting b) /\
     cvt_req_rsn cvt = rsn (converting b) /\ cvt_req_mode cvt = req_mode (converting b) /\
     cvt_curr_mode cvt = curr_mode (converting b) /\ cvt_owner_id cvt = claimed_owner b /\
     forall i, bm_mem (cvt_readonly_copies cvt) i <-> others_copy (converting b) b i) /\
  (~ busy b -> cvt_req_id cvt = OG_INVALID_ID8).

Lemma claim_due_iff c b :
  page_ok b -> claim_due c b <->
  inst_id (converting b) <> OG_INVALID_ID8 /\ drc_is_same_claim_request (converting b) c = true /\
  drc_claim_info_is_invalid c b = false.
Proof.
  intros I. unfold claim_due, busy, drc_is_same_claim_request, drc_claim_info_is_invalid.
  rewrite !andb_true_iff, !Z.eqb_eq, orb_false_iff, andb_false_iff, Z.ltb_ge.
  pose proof (po_owned _ I) as Ho.
  assert (forall P Q : Prop, (inst_id (converting b) <> OG_INVALID_ID8 -> P <-> Q) ->
    (inst_id (converting b) <> OG_INVALID_ID8 /\ P) <-> (inst_id (converting b) <> OG_INVALID_ID8 /\ Q)) as Hstep by tauto.
  apply Hstep. intros Hc. specialize (Ho Hc). rewrite Z.ltb_ge.
  destruct (Z.eqb_spec (ci_mode c) DRC_LOCK_SHARE) as [Hs|Hs].
  - rewrite Z.eqb_neq. intuition lia.
  - destruct (has_edp c); cbn [andb]; [|intuition (congruence || lia)].
    destruct (Z.eqb_spec (ci_mode c) DRC_LOCK_EXCLUSIVE), (Z.eqb_spec (ci_lsn c) 0); cbn; intuition (congruence || lia).
Qed.

Lemma skip_dead_nil now q : skip_dead now q = [] -> Forall (fun r => timed_out now r = true) q.
Proof. intros H. rewrite (dead_skip now q), H, app_nil_r. apply dead_timed_out. Qed.

(** [claim_on_resource] follows the rules. *)
Lemma claim_ruled now f b c cvt o msgs cvt' f' b' :
  page_ok b -> cvt_req_id cvt = OG_INVALID_ID8 -> claim_on_resource now f b c cvt = Ok (o, msgs, cvt', f', b') ->
  let told := msgs ++ match o with Some (Some r) => [error_to r] | _ => [] end in
  let left := f' + match o with Some _ => 1 | None => 0 end in
  (~ claim_due c b /\ told = [] /\ left = f /\ b' = b /\ cvt_req_id cvt' = OG_INVALID_ID8) \/
  (claim_due c b /\ exists b1 n, claim_effect c b b1 /\ convert_q b1 = convert_q b /\ next_turn now b1 told n b' /\
     left = f + n /\ passed_on cvt' b' /\ (busy b' -> is_u64 (cvt_readonly_copies cvt'))).
Proof.
  intros I Hcvt. unfold claim_on_resource. pose proof (claim_due_iff c b I) as Hdue.
  destruct (Z.eqb_spec (inst_id (converting b)) OG_INVALID_ID8) as [Hc|Hc];
    [intros [= <- <- <- <- <-]; left; split_and!; try done; [tauto|lia]|].
  destruct (drc_is_same_claim_request (converting b) c) eqn:Es; cbn [negb];
    [|intros [= <- <- <- <- <-]; left; split_and!; try done; [intuition congruence|lia]].
  destruct (drc_claim_info_is_invalid c b) eqn:Ei;
    [intros [= <- <- <- <- <-]; left; split_and!; try done; [intuition congruence|lia]|].
  destruct (claim_new_owner_ok b c I Hc Es Ei) as (b1 & -> & I1 & Ho1 & Hp1 & _ & Hq1 & _ & Heff). cbn [mbind outcome_bind].
  intros E. right. split; [tauto|]. exists b1.
  pose proof (convert_next_request_ok now f b1 cvt I1 Ho1 ltac:(by rewrite Hp1)) as HN.
  destruct (skip_dead now (convert_q b1)) as [|r q] eqn:Esk.
  - destruct HN as (cvt2 & f2 & b2 & E2 & _ & _ & Hid & Hcv & Hb2 & Hf2). rewrite E in E2. injection E2 as -> -> -> -> ->.
    pose proof (skip_dead_nil _ _ Esk) as Hall. pose proof (dead_skip now (convert_q b1)) as Hd. rewrite Esk, app_nil_r in Hd.
    eexists. split_and!; [exact Heff|exact Hq1| | | |].
    + rewrite app_nil_r, <- Hd, Hb2. by apply turn_nobody.
    + rewrite Hf2, <- Hd. lia.
    + split; [by intros []|]. intros _. congruence.
    + by intros [].
  - destruct HN as (o2 & f2 & b2 & E2 & I2 & _ & Ho2 & Hm2 & Hr2 & Hcv & Hcase & Hb2 & Hf2).
    rewrite E in E2. injection E2 as -> -> -> -> ->.
    pose proof (dead_skip now (convert_q b1)) as Hd. rewrite Esk in Hd.
    pose proof (dead_timed_out now (convert_q b1)) as Hto. pose proof (skip_dead_alive _ _ _ _ Esk) as Hal.
    assert (forall r', conflict r' b2 <-> conflict r' (set_converting r b1)) as Hcf
      by (intros r'; unfold conflict; cbn; by rewrite Hcv, Ho2, Hm2, Hr2).
    assert (passed_on (cvt_of b2) b2) as Hpass.
    { split; [|intros Hn; cbn; by destruct (decide (inst_id (converting b2) = OG_INVALID_ID8)) as [?|?]; [|destruct Hn]].
      intros Hb. cbn. split_and!; try done. intros i.
      rewrite !bm_clear_mem by (apply (opt_inst_is _ (po_conv _ I2) Hb) ||
        apply (opt_inst_is _ (po_owner _ I2)); rewrite Ho2; done).
      unfold others_copy. tauto. }
    assert (is_u64 (cvt_readonly_copies (cvt_of b2))) as Hu by (pose proof (po_copies _ I2); cbn; auto with drc).
    destruct Hcase as [(-> & Hq & Hnc)|(r' & -> & Hq & Hyc)]; eexists; (split; [exact Heff|]); (split; [exact Hq1|]).
    + rewrite app_nil_r. rewrite Hb2, Hq at 1. split; [eapply turn_next; try done|split_and!; [lia|done..]].
      intros r' Hr'. rewrite <- Hcf. by apply Hnc.
    + rewrite Hb2 at 1. split; [eapply turn_conflict; [by rewrite Hd, Hq at 1|done..|by apply Hcf]|].
      split_and!; [lia|done..].
Qed.

(** ** The handlers *)
Section Handlers.
Context (page_size : Z).

(** The request handler on a known page: the rules, then the invalidation of
    the copies when they call for it. *)
Lemma request_known_ruled views e inv env1 k r is_try res t A f F Sp am ab :
  page_inv page_size t A f F Sp am -> admitted views k r -> A !! k = Some ab ->
  let r1 := set_owner_result (result_code DRC_REQ_OWNER_WAITING) r in
  exists vd f' ab' ret res' t', ruled (views 4%nat) k f r1 is_try ab vd f' ab' /\
    drc_request_page_owner page_size views e inv env1 (fun t => t) k r is_try res t = Ok (ret, res', t') /\
    ((~ must_invalidate vd ab' /\ answered vd r1 ab' ret res' /\ page_inv page_size t' (<[k := ab']> A) f' F Sp am) \/
     (must_invalidate vd ab' /\ answered vd r1 ab' OG_SUCCESS res' /\ ret = inv /\
      page_inv page_size t'
        (<[k := match inv with OG_SUCCESS => set_readonly_copies 0 ab' | OG_ERROR => ab' end]> A) f' F Sp am)).
Proof.
  intros I Had Hk r1.
  destruct (request_known_ok page_size views e inv env1 k r is_try res t A f F Sp am ab I Had Hk)
    as (ret & res' & cc & r' & f' & ab' & t' & Er & E & I'). fold r1 in Er.
  apply request_ruled in Er as (vd & HR & HA & Hcc & Hmd); [|exact (pv_ok _ _ _ _ _ _ _ I _ _ Hk)|apply Had|done].
  exists vd, f', ab', (if cc && negb (ro_readonly_copies res' =? 0) && (req_mode r' =? DRC_LOCK_EXCLUSIVE) then inv else ret), res', t'.
  split; [exact HR|]. split; [exact E|].
  destruct cc; cbn [andb] in *.
  2: { left. split_and!; try done. intros [Hx%Hcc _]. done. }
  destruct (Hmd eq_refl) as (Hm & Hid & Hu). destruct (proj1 Hcc eq_refl) as [retry ->].
  destruct HA as (Hty & Hret & Hcr & Hac & Hir & Hrm & Hcp).
  assert (ret = OG_SUCCESS) as -> by (destruct ret; [done|]; by pose proof (proj1 Hret eq_refl)).
  assert (must_invalidate (Converting retry) ab' <->
    negb (ro_readonly_copies res' =? 0) && (req_mode r' =? DRC_LOCK_EXCLUSIVE) = true) as Hmi.
  { rewrite andb_true_iff, negb_true_iff, Z.eqb_neq, Z.eqb_eq, Hm. unfold must_invalidate, others_copy. rewrite Hid. split.
    - intros (_ & ? & i & Hi). split; [|done]. intros Hz. apply (proj1 (bm_zero _ Hu) Hz i), Hcp. exact Hi.
    - intros [Hz ?]. split_and!; [by eexists|done|]. destruct (bm_nonzero _ Hu Hz) as [i Hi%Hcp]. by exists i. }
  destruct (negb _ && _); cbn [andb] in I'; [right|left].
  - split; [by apply Hmi|]. split_and!; try done. by destruct inv.
  - split; [by rewrite Hmi|]. by split_and!.
Qed.

(** The claim handler on a known page. *)
Lemma claim_known_ruled now inv c cvt t A f F Sp am ab :
  page_inv page_size t A f F Sp am -> A !! ci_page_id c = Some ab ->
  exists msgs cvt' t' f' ab', drc_claim_page_owner now inv (fun t => t) c cvt t = Ok (msgs, cvt', t') /\
    page_inv page_size t' (<[ci_page_id c := ab']> A) f' F Sp am /\
    ((~ claim_due c ab /\ msgs = [] /\ f' = f /\ ab' = ab /\ cvt_req_id cvt' = OG_INVALID_ID8) \/
     (claim_due c ab /\ exists ab1 n ab2, claim_effect c ab ab1 /\ convert_q ab1 = convert_q ab /\
        next_turn now ab1 msgs n ab2 /\ f' = f + n /\ passed_on cvt' ab2 /\
        ((~ (busy ab2 /\ must_invalidate (Converting false) ab2) /\ ab' = ab2) \/
         (busy ab2 /\ must_invalidate (Converting false) ab2 /\
          ab' = match inv with OG_SUCCESS => set_readonly_copies 0 ab2 | OG_ERROR => ab2 end)))).
Proof.
  intros I Hk. destruct (claim_known_ok page_size now inv c cvt t A f F Sp am ab I Hk) as
    (o & msgs & cvt' & f' & ab' & t' & Ec & E & I').
  apply claim_ruled in Ec as [(Hd & Hm & Hf & -> & Hid)|(Hd & b1 & n & He & Hq & Ht & Hf & Hp & Hu)];
    [| |exact (pv_ok _ _ _ _ _ _ _ I _ _ Hk)|done].
  - rewrite Hid in I'. cbn [Z.eqb negb andb] in I'. rewrite Hm in E. rewrite Hf in I'.
    eexists _, _, _, _, _. split; [exact E|]. split; [exact I'|]. left. by split_and!.
  - rewrite Hf in I'. eexists _, _, _, _, _. split; [exact E|]. split; [exact I'|]. right. split; [done|].
    exists b1, n, ab'. split_and!; try done. destruct Hp as [Hb Hn].
    assert (busy ab' /\ must_invalidate (Converting false) ab' <->
      negb (cvt_req_id cvt' =? OG_INVALID_ID8) && negb (cvt_readonly_copies cvt' =? 0) &&
      (cvt_req_mode cvt' =? DRC_LOCK_EXCLUSIVE) = true) as Hmi.
    { destruct (decide (inst_id (converting ab') = OG_INVALID_ID8)) as [Hbz|Hbz].
      { rewrite Hn by (by intros H). cbn. split; [by intros []|done]. }
      specialize (Hu Hbz).
      destruct (Hb Hbz) as (Hi & _ & _ & Hrm & _ & _ & Hcp). rewrite Hi, Hrm, (proj2 (Z.eqb_neq _ _) Hbz). cbn [negb andb].
      rewrite andb_true_iff, negb_true_iff, Z.eqb_neq, Z.eqb_eq. unfold must_invalidate.
      split.
      - intros (_ & _ & ? & i & Hx). split; [|done]. intros Hz. by apply (proj1 (bm_zero _ Hu) Hz i), Hcp.
      - intros [Hz ?]. split_and!; try done; [by eexists|]. destruct (bm_nonzero _ Hu Hz) as [i Hx%Hcp]. by exists i. }
    destruct (negb (cvt_req_id cvt' =? _) && _ && (cvt_req_mode cvt' =? _)); cbn [andb] in *; [right|left].
    + destruct (proj2 Hmi eq_refl). split_and!; try done. by destruct inv.
    + split; [by rewrite Hmi|done].
Qed.
End Handlers.
