(* ===== verification/DrcPageRcy.v ===== *)
(** Pages of a crashed instance: the cleaning of a partition and the
    collection of what the surviving instances have cached
    (src/pkg/src/cluster/dtc_drc.c, [drc_clean_page_owner_by_part],
    [drc_rcy_page_info]). *)

From S2P Require Import Prelude DrcBitmap DrcPool DrcResMap DrcList DrcGlobalRes DrcQueue DrcTable DrcReform DrcPage.
From S2P Require Import DrcPageSim DrcPageInv DrcPageThm.

Section Clean.
Context {S Q It : Type} `{QueueOps S Q It}.
Implicit Types (b : buf_res Q).

(** [drc_revert_converting_page_abort_owner]: [ctrl] is the block of the
    page in the local buffer pool, if it is there; [self] this instance. *)
Definition drc_revert_converting_page_abort_owner (self : Z) (ctrl : option buf_ctrl) b : buf_res Q :=
  match ctrl with
  | None => b
  | Some c =>
      let b := set_mode (ctrl_lock_mode c) b in
      let b := if ctrl_lock_mode c =? DRC_LOCK_NULL
               then set_claimed_owner OG_INVALID_ID8 (set_readonly_copies (drc_bitmap64_clear (readonly_copies b) self) b)
               else b in
      if ctrl_is_edp c
      then set_latest_edp self (ctrl_page_lsn c) (set_edp_map (drc_bitmap64_set (edp_map b) self) b)
      else b
  end.

(** [drc_revert_converting_page_non_abort_owner]. *)
Definition drc_revert_converting_page_non_abort_owner (ctrl : option buf_ctrl) b : list err_msg * buf_res Q :=
  let '(msgs, b') :=
    match ctrl with
    | None => ([], b)
    | Some c =>
        if ctrl_lock_mode c =? DRC_LOCK_NULL then ([error_to (converting b)], b)
        else if ctrl_lock_mode c =? DRC_LOCK_EXCLUSIVE then ([], set_claimed_owner (inst_id (converting b)) b)
        else ([], b)
    end in
  (msgs, drc_init_page_converting b').

(** [drc_clean_page_converting]. *)
Definition drc_clean_page_converting (self inst : Z) (ctrl : option buf_ctrl) (s : S) b :
    outcome (list err_msg * S * buf_res Q) :=
  if inst_id (converting b) =? inst then
    '(s, b) ← (if q_count (convert_q b) =? 0 then Ok (s, drc_init_page_converting b)
               else
                 let item := q_head (convert_q b) in
                 r ← q_read s item;
                 q ← q_unlink s (convert_q b);
                 s ← q_free s item;
                 Ok (s, set_converting r (set_convert_q (if q_count q =? 0 then q_init else q) b)));
    Ok ([], s, drc_revert_converting_page_abort_owner self ctrl b)
  else if negb (inst_id (converting b) =? OG_INVALID_ID8) then
    let '(msgs, b) := drc_revert_converting_page_non_abort_owner ctrl b in Ok (msgs, s, b)
  else Ok ([], s, b).

(** The crashed instance is taken out of the maps of a resource. *)
Definition scrub_inst (inst : Z) b : buf_res Q :=
  let b := set_readonly_copies (drc_bitmap64_clear (readonly_copies b) inst)
             (set_edp_map (drc_bitmap64_clear (edp_map b) inst) b) in
  if latest_edp b =? inst then set_latest_edp OG_INVALID_ID8 0 b else b.

(** The body of the loop of [drc_clean_page_owner_by_part] on one resource;
    the flag says that nothing is left of it. *)
Definition clean_page_resource (self inst : Z) (ctrl : option buf_ctrl) (s : S) b :
    outcome (list err_msg * bool * S * buf_res Q) :=
  '(m1, s, q) ← q_clean s (convert_q b) inst;
  '(m2, s, b) ← drc_clean_page_converting self inst ctrl s (set_convert_q q b);
  let b := scrub_inst inst b in
  if negb (claimed_owner b =? OG_INVALID_ID8) && negb (claimed_owner b =? inst) then Ok (m1 ++ m2, false, s, b)
  else
    let b := set_pending DRC_RES_INVALID_ACTION (set_claimed_owner OG_INVALID_ID8 b) in
    Ok (m1 ++ m2, (readonly_copies b =? 0) && (edp_map b =? 0), s, b).
End Clean.

Section CleanPart.
Context (page_size : Z).
Implicit Types (t : ptab).

(** The loop of [drc_clean_page_owner_by_part]: [failed n] is the test of
    [remaster_status] before round [n]; [ids] are the slots cleaned so far.
    The first flag of the result says that the loop went to its end. *)
Fixpoint clean_part_loop (n : nat) (failed : nat -> bool) (round : nat) (self inst : Z) (lbuf : page_id -> option buf_ctrl)
    (buf_idx : Z) (ids : list Z) (msgs : list err_msg) t : outcome (bool * list Z * list err_msg * ptab) :=
  match n with
  | O => Ok (true, ids, msgs, t)
  | Datatypes.S n' =>
      if failed round then Ok (false, ids, msgs, t)
      else
        a ← load (gr_pool (tb_res t)) buf_idx;
        let next := ln_next (item_node a) in
        let pagid := buf_page_id (body a) in
        '(m, gone, s, b) ← clean_page_resource self inst (lbuf pagid) (tb_items t) (body a);
        t ← tb_put (tb_set_items s t) buf_idx b;
        if gone : bool then
          t ← drc_clean_page_owner_internal t (buf_bucket t pagid) buf_idx;
          clean_part_loop n' failed (Datatypes.S round) self inst lbuf next (ids ++ [item_idx a]) (msgs ++ m) t
        else clean_part_loop n' failed (Datatypes.S round) self inst lbuf next ids (msgs ++ m) t
  end.

(** [drc_clean_page_owner_by_part] on partition [part]; [None] when
    [cm_malloc] fails, which makes the remaster fail. *)
Definition drc_clean_page_owner_by_part (malloc_ok : bool) (failed : nat -> bool) (self inst : Z)
    (lbuf : page_id -> option buf_ctrl) (part : Z) t : outcome (option (bool * list err_msg * ptab)) :=
  if negb malloc_ok then Ok None
  else match res_parts (tb_res t) !! part with
       | None => Crash BadAddr
       | Some lst =>
           '(ended, ids, msgs, t) ← clean_part_loop (Z.to_nat (lst_count lst)) failed 0 self inst lbuf (lst_first lst) [] [] t;
           p ← drc_res_pool_free_batch_item (gr_pool (tb_res t)) ids;
           Ok (Some (ended, msgs, tb_set_res (gr_set_pool p (tb_res t)) t))
       end.

(** [drc_update_page_info]. *)
Definition drc_update_page_info {Q} (pi : page_info) (inst : Z) (b : buf_res Q) : buf_res Q :=
  let b := if pi_is_edp pi then
             let b := if latest_edp_lsn b <? pi_lsn pi then set_latest_edp inst (pi_lsn pi) b else b in
             set_edp_map (drc_bitmap64_set (edp_map b) inst) b
           else b in
  if pi_lock_mode pi =? DRC_LOCK_NULL then b
  else
    let b := set_mode (pi_lock_mode pi) b in
    if pi_lock_mode pi =? DRC_LOCK_EXCLUSIVE then
      if negb (claimed_owner b =? OG_INVALID_ID8) then b else set_claimed_owner inst b
    else if pi_lock_mode pi =? DRC_LOCK_SHARE
    then set_readonly_copies (drc_bitmap64_set (readonly_copies b) inst) b
    else b.

(** The resource [drc_rcy_page_info] makes of a page it did not know. *)
Definition rcy_buf_res {Q} (q0 : Q) (pi : page_info) (inst : Z) : buf_res Q :=
  mk_buf (if pi_lock_mode pi =? DRC_LOCK_EXCLUSIVE then inst else OG_INVALID_ID8)
         (if pi_is_edp pi then inst else OG_INVALID_ID8)
         DRC_RES_INVALID_ACTION
         (if pi_is_edp pi then pi_lsn pi else 0)
         (pi_lock_mode pi) (pi_page_id pi) g_invalid_req_info q0 true
         (if pi_is_edp pi then drc_bitmap64_set 0 inst else 0)
         0
         (if pi_lock_mode pi =? DRC_LOCK_EXCLUSIVE then 0
          else if pi_lock_mode pi =? DRC_LOCK_SHARE then drc_bitmap64_set 0 inst else 0).

(** [drc_rcy_page_info]: the flag says that the item [item_idx] was used. *)
Definition drc_rcy_page_info (pi : page_info) (inst item_idx : Z) t : outcome (bool * ptab) :=
  let pagid := pi_page_id pi in
  o ← page_lookup t pagid;
  match o with
  | Some i =>
      b ← tb_get t i;
      t ← tb_put t i (drc_update_page_info pi inst b);
      Ok (false, t)
  | None =>
      let h := buf_bucket t pagid in
      g ← gr_fill (tb_res t) item_idx (rcy_buf_res DRC_LIST_INIT pi inst);
      g ← gr_map_add g h item_idx;
      g ← gr_list_add g item_idx (drc_page_partid page_size pagid);
      Ok (true, tb_set_res g t)
  end.
End CleanPart.

(** ** One resource *)

(** The invariant without its two clauses on the mode, which a crash may
    break until the surviving instances have reported their pages. *)
Record page_wf (b : apage) : Prop := {
  pw_copies : is_u64 (readonly_copies b);
  pw_edp : is_u64 (edp_map b);
  pw_owner : opt_inst (claimed_owner b);
  pw_latest : opt_inst (latest_edp b);
  pw_conv : opt_inst (inst_id (converting b));
  pw_queue : Forall (fun r => is_inst (inst_id r)) (convert_q b);
  pw_idle : inst_id (converting b) = OG_INVALID_ID8 -> convert_q b = [];
  pw_pending : pending b = DRC_RES_PENDING_ACTION -> inst_id (converting b) = OG_INVALID_ID8;
  pw_action : pending b <> DRC_RES_CLEAN_EDP_ACTION;
  pw_owned : inst_id (converting b) <> OG_INVALID_ID8 -> claimed_owner b <> OG_INVALID_ID8;
  pw_isused : is_used b = true;
}.

Lemma page_ok_wf b :
  page_ok b <-> page_wf b /\ (readonly_copies b <> 0 -> mode b = DRC_LOCK_SHARE) /\
                (claimed_owner b = OG_INVALID_ID8 -> orphan_ok b).
Proof. split; [intros []; split_and!; [by split|done|done]|]. intros ([] & ? & ?). by split. Qed.

(** Instance [i] has no part in the resource. *)
Definition inst_gone (i : Z) (b : apage) : Prop :=
  claimed_owner b <> i /\ latest_edp b <> i /\ ~ bm_mem (readonly_copies b) i /\ ~ bm_mem (edp_map b) i /\
  inst_id (converting b) <> i /\ convert_q b = [].

Lemma sq_msgs_told inst l r : r ∈ l -> inst_id r <> inst -> error_to r ∈ sq_msgs inst l.
Proof. intros Hr Hi. unfold sq_msgs. apply list_elem_of_fmap. exists r. split; [done|]. by apply list_elem_of_filter. Qed.

(** The resource after [drc_clean_page_converting], its queue being empty. *)
Lemma clean_converting_ok self inst ctrl f b :
  page_wf b -> is_inst self -> convert_q b = [] ->
  exists m b', drc_clean_page_converting self inst ctrl f b = Ok (m, f, b') /\ page_wf b' /\
    inst_id (converting b') = OG_INVALID_ID8 /\ convert_q b' = [] /\ buf_page_id b' = buf_page_id b /\
    (latest_edp b' = latest_edp b \/ latest_edp b' = self).
Proof.
  intros W Hself Hq. pose proof (is_inst_ne _ Hself). unfold drc_clean_page_converting.
  assert (page_wf (drc_init_page_converting b)) as W1 by (destruct W; split; cbn; auto with drc; done).
  destruct (Z.eqb_spec (inst_id (converting b)) inst) as [Hi|Hi].
  - rewrite Hq. cbn [q_count sequence_queue length Z.of_nat Z.eqb mbind outcome_bind]. eexists _, _. split; [done|].
    unfold drc_revert_converting_page_abort_owner. destruct ctrl as [c|]; [|by split_and!; auto].
    destruct (ctrl_lock_mode c =? DRC_LOCK_NULL), (ctrl_is_edp c);
      (split; [destruct W1; split; cbn in *; auto with drc; done|]); split_and!; cbn; auto.
  - destruct (Z.eqb_spec (inst_id (converting b)) OG_INVALID_ID8) as [Hn|Hn]; cbn [negb].
    { eexists _, _. split; [done|]. split_and!; auto. }
    unfold drc_revert_converting_page_non_abort_owner.
    assert (page_wf (drc_init_page_converting (set_claimed_owner (inst_id (converting b)) b))) as W2.
    { destruct W; split; cbn; auto with drc; done. }
    destruct ctrl as [c|]; [|eexists _, _; split; [done|]; split_and!; auto].
    destruct (ctrl_lock_mode c =? DRC_LOCK_NULL); [eexists _, _; split; [done|]; split_and!; auto|].
    destruct (ctrl_lock_mode c =? DRC_LOCK_EXCLUSIVE); eexists _, _; split; [done| |done|]; split_and!; auto.
Qed.

(** Cleaning a resource removes the crashed instance from it, empties its
    queue, and tells every other waiter. *)
Lemma clean_page_resource_ok self inst ctrl f b :
  page_wf b -> is_inst self -> is_inst inst -> self <> inst ->
  exists m gone f' b', clean_page_resource self inst ctrl f b = Ok (m, gone, f', b') /\ page_wf b' /\
    inst_gone inst b' /\ inst_id (converting b') = OG_INVALID_ID8 /\ buf_page_id b' = buf_page_id b /\
    f' = f + Z.of_nat (length (convert_q b)) /\
    (gone = true <-> claimed_owner b' = OG_INVALID_ID8 /\ readonly_copies b' = 0 /\ edp_map b' = 0) /\
    (forall r, r ∈ convert_q b -> inst_id r <> inst -> error_to r ∈ m).
Proof.
  intros W Hs Hi Hsi. pose proof (is_inst_ne _ Hi) as Hin. unfold clean_page_resource.
  cbn [q_clean sequence_queue mbind outcome_bind].
  assert (page_wf (set_convert_q [] b)) as W0 by (destruct W; split; cbn; auto; done).
  destruct (clean_converting_ok self inst ctrl (f + Z.of_nat (length (convert_q b))) (set_convert_q [] b) W0 Hs eq_refl)
    as (m & b1 & -> & W1 & Hcv & Hq & Hpg & Hl). cbn [mbind outcome_bind].
  set (b3 := scrub_inst inst b1).
  assert (page_wf b3 /\ latest_edp b3 <> inst /\ claimed_owner b3 = claimed_owner b1 /\ converting b3 = converting b1 /\
    convert_q b3 = [] /\ buf_page_id b3 = buf_page_id b1 /\ ~ bm_mem (readonly_copies b3) inst /\ ~ bm_mem (edp_map b3) inst)
    as (W3 & Hl3 & Ho3 & Hc3 & Hq3 & Hp3 & Hr3 & He3).
  { assert (~ bm_mem (drc_bitmap64_clear (readonly_copies b1) inst) inst /\ ~ bm_mem (drc_bitmap64_clear (edp_map b1) inst) inst)
      as [? ?] by (rewrite !bm_clear_mem by apply Hi; tauto).
    unfold b3, scrub_inst. cbn [set_readonly_copies set_edp_map latest_edp].
    destruct (Z.eqb_spec (latest_edp b1) inst); cbn; split_and!; try done;
      (destruct W1; split; cbn; auto with drc; done) || (intros Hx; by rewrite <- Hx in Hin). }
  clearbody b3. rewrite Ho3.
  assert (forall r, r ∈ convert_q b -> inst_id r <> inst -> error_to r ∈ sq_msgs inst (convert_q b) ++ m) as Htold.
  { intros r Hr Hne. apply elem_of_app. left. by apply sq_msgs_told. }
  assert (buf_page_id b3 = buf_page_id b) as Hpb by (rewrite Hp3, Hpg; done).
  destruct (negb (claimed_owner b1 =? OG_INVALID_ID8) && negb (claimed_owner b1 =? inst)) eqn:Eo.
  - apply andb_true_iff in Eo as [Hn%negb_true_iff%Z.eqb_neq Hx%negb_true_iff%Z.eqb_neq].
    eexists _, _, _, _. split; [done|]. split; [done|]. split_and!; try done.
    + split_and!; try done; congruence.
    + congruence.
    + split; [done|]. intros [? _]. congruence.
  - eexists _, _, _, _. split; [done|]. cbn [set_pending set_claimed_owner readonly_copies edp_map].
    split; [destruct W3; split; cbn; auto with drc; congruence|]. split_and!; try done.
    + split_and!; cbn; try done; congruence.
    + cbn. congruence.
    + cbn. rewrite andb_true_iff, !Z.eqb_eq. tauto.
Qed.

Lemma clean_page_resource_sim self inst ctrl E s0 s b f ab :
  res_rel E s0 s b f ab ->
  match clean_page_resource self inst ctrl f ab with
  | Crash w => clean_page_resource self inst ctrl s b = Crash w
  | Ok (m, gone, f', ab') => exists s' b', clean_page_resource self inst ctrl s b = Ok (m, gone, s', b') /\
      res_rel E s0 s' b' f' ab'
  end.
Proof.
  intros (l & R & Hab & K). remember (convert_q ab) as rs eqn:Hrs. clear Hrs. subst ab.
  unfold clean_page_resource. cbn [set_convert_q convert_q q_clean linked_queue sequence_queue].
  destruct (q_clean_sim _ _ _ _ _ _ inst R) as (s' & q' & -> & R' & K'). cbn [mbind outcome_bind].
  set (f1 := f + Z.of_nat (length rs)) in *. set (m1 := sq_msgs inst rs). clearbody f1 m1.
  assert (res_rel E s0 s' (set_convert_q q' b) f1 (set_convert_q [] b)) as RR.
  { exists []. split_and!; [done|done|by eapply kept_trans]. }
  change (set_convert_q [] (set_convert_q rs b)) with (set_convert_q ([] : list drc_req_info) b).
  clear R R' K K' l.
  pose proof (res_rel_count _ _ _ _ _ _ RR) as Hcnt. cbn [set_convert_q convert_q length Z.of_nat] in Hcnt.
  assert (match drc_clean_page_converting self inst ctrl f1 (set_convert_q [] b) with
    | Crash w => drc_clean_page_converting self inst ctrl s' (set_convert_q q' b) = Crash w
    | Ok (m, f', ab') => exists s2 b', drc_clean_page_converting self inst ctrl s' (set_convert_q q' b) = Ok (m, s2, b') /\
        res_rel E s0 s2 b' f' ab' end) as HC.
  { unfold drc_clean_page_converting. cbn [set_convert_q convert_q converting q_count linked_queue sequence_queue length Z.of_nat Z.eqb].
    rewrite Hcnt. cbn [Z.eqb mbind outcome_bind]. destruct (inst_id (converting b) =? inst).
    - eexists _, _. split; [done|].
      apply (res_rel_map _ _ _ _ _ _ (fun Q x => drc_revert_converting_page_abort_owner self ctrl (drc_init_page_converting x)));
        [| |exact RR]; unfold drc_revert_converting_page_abort_owner; intros; destruct ctrl as [c|]; try done;
        destruct (ctrl_lock_mode c =? DRC_LOCK_NULL), (ctrl_is_edp c); done.
    - destruct (negb _); [|eexists _, _; by split].
      unfold drc_revert_converting_page_non_abort_owner.
      cbn [set_convert_q converting].
      destruct ctrl as [c|]; [destruct (_ =? DRC_LOCK_NULL); [|destruct (_ =? DRC_LOCK_EXCLUSIVE)]|]; eexists _, _; (split; [done|]).
      + apply (res_rel_map _ _ _ _ _ _ (fun Q x => drc_init_page_converting x)); done.
      + apply (res_rel_map _ _ _ _ _ _ (fun Q x => drc_init_page_converting (set_claimed_owner _ x))); done.
      + apply (res_rel_map _ _ _ _ _ _ (fun Q x => drc_init_page_converting x)); done.
      + apply (res_rel_map _ _ _ _ _ _ (fun Q x => drc_init_page_converting x)); done. }
  destruct (drc_clean_page_converting self inst ctrl f1 (set_convert_q [] b)) as [[[m f'] ab1]|w]; [|by rewrite HC].
  destruct HC as (s2 & b1 & -> & RR1). cbn [mbind outcome_bind].
  assert (res_rel E s0 s2 (scrub_inst inst b1) f' (scrub_inst inst ab1)) as RR2.
  { apply (res_rel_map _ _ _ _ _ _ (fun Q x => scrub_inst inst x)); [| |done]; unfold scrub_inst; intros; cbn;
      by destruct (_ =? _). }
  set (b2 := scrub_inst inst b1) in *. set (ab2 := scrub_inst inst ab1) in *. clearbody b2 ab2.
  assert (claimed_owner ab2 = claimed_owner b2 /\ readonly_copies ab2 = readonly_copies b2 /\ edp_map ab2 = edp_map b2)
    as (-> & Er & Ee) by (destruct RR2 as (l & _ & -> & _); done).
  cbn [set_pending set_claimed_owner readonly_copies edp_map]. rewrite Er, Ee.
  destruct (negb _ && _); eexists _, _; (split; [done|]); [done|].
  by apply (res_rel_map _ _ _ _ _ _ (fun Q x => set_pending DRC_RES_INVALID_ACTION (set_claimed_owner OG_INVALID_ID8 x))).
Qed.

(** ** A partition *)
Section CleanPartThm.
Context (page_size : Z).
Implicit Types (t : ptab) (A : catalogue) (f : Z) (F Sp : gset Z) (am : gmap page_id Z) (k : page_id).

Notation page_rep := (tab_rep drc_page_id_hash (drc_page_partid page_size)).
Notation partid := (drc_page_partid page_size).

(** The invariant between the crash and the end of the recovery. *)
Record rcy_inv t A f F Sp am : Prop := {
  rv_rep : page_rep t A f F Sp am;
  rv_wf : forall k ab, A !! k = Some ab -> page_wf ab;
}.

Lemma page_inv_rcy t A f F Sp am : page_inv page_size t A f F Sp am -> rcy_inv t A f F Sp am.
Proof. intros [R Hok]. split; [done|]. intros k ab Hk. by apply page_ok_wf, (Hok k). Qed.

(** What cleaning makes of a resource. *)
Definition cleaned (self inst : Z) (lbuf : page_id -> option buf_ctrl) k (ab : apage) (o : option apage) : Prop :=
  exists f m gone f' ab', clean_page_resource self inst (lbuf k) f ab = Ok (m, gone, f', ab') /\
    o = if gone : bool then None else Some ab'.

(** One round: the resource of slot [i], the head of the rest of the list. *)
Lemma clean_round_ok self inst lbuf t A f F Sp am q l1 i l2 :
  rcy_inv t A f F Sp am -> is_inst self -> is_inst inst -> self <> inst -> 0 <= q < DRC_MAX_PART_NUM ->
  gr_part (tb_res t) q (l1 ++ i :: l2) ->
  exists k ab a m gone s b t1 f1 ab', am !! k = Some i /\ A !! k = Some ab /\ partid k = q /\
    load (gr_pool (tb_res t)) i = Ok a /\ ln_next (item_node a) = hd OG_INVALID_ID32 l2 /\ item_idx a = i /\
    buf_page_id (body a) = k /\
    clean_page_resource self inst (lbuf k) (tb_items t) (body a) = Ok (m, gone, s, b) /\
    clean_page_resource self inst (lbuf k) f ab = Ok (m, gone, f1, ab') /\ page_wf ab' /\ inst_gone inst ab' /\
    (forall r, r ∈ convert_q ab -> inst_id r <> inst -> error_to r ∈ m) /\
    tb_put (tb_set_items s t) i b = Ok t1 /\ rcy_inv t1 (<[k := ab']> A) f1 F Sp am /\
    gr_part (tb_res t1) q (l1 ++ i :: l2) /\ buf_bucket t1 k = buf_bucket t k.
Proof.
  intros [R Hwf] Hs Hi Hsi Hq HP.
  destruct (gr_part_mem _ _ (tb_res t) _ _ _ _ _ i (tr_gres _ _ _ _ _ _ _ _ R) Hq HP) as [_ Hm].
  assert (i ∈ l1 ++ i :: l2) as (k & Hk & Hkq)%Hm by (apply elem_of_app; right; by left).
  assert (is_Some (A !! k)) as [ab Hab] by (apply (tr_dom _ _ _ _ _ _ _ _ R); eauto).
  destruct (rep_open page_size _ _ _ _ _ _ _ _ R Hab) as (i' & b0 & E & Hi' & _ & Hb & Hpk & RR & Hput).
  assert (i' = i) as -> by congruence. destruct (gr_part_next _ _ _ _ _ HP) as (a & Ha & Hn).
  assert (body a = b0) as Hab0.
  { unfold tb_get, gr_get in Hb. rewrite Ha in Hb. cbn in Hb. by injection Hb. }
  destruct (tab_idx _ _ _ _ _ _ _ _ _ _ R Hk) as (a' & Ha' & Hidx). assert (a' = a) as -> by congruence.
  destruct (clean_page_resource_ok self inst (lbuf k) f ab (Hwf _ _ Hab) Hs Hi Hsi) as
    (m & gone & f1 & ab' & Ec & W' & Hgone & _ & Hpg & _ & _ & Htold).
  pose proof (clean_page_resource_sim self inst (lbuf k) _ _ _ _ _ _ RR) as HS. rewrite Ec in HS.
  destruct HS as (s & b & Es & RR'). destruct (Hput s b f1 ab' RR' ltac:(congruence)) as (t1 & Et & _ & R1).
  exists k, ab, a, m, gone, s, b, t1, f1, ab'. rewrite Hab0. split_and!; try done.
  - destruct RR as (l & _ & Hx & _). rewrite Hx in Hpk. done.
  - split; [done|]. intros k' ab'' [[<- <-]|[_ ?]]%lookup_insert_Some; [done|by eapply Hwf].
  - unfold tb_put in Et. cbn [tb_res tb_set_items] in Et. destruct (gr_put (tb_res t) i b) as [g|] eqn:Eg; [|done].
    cbn in Et. injection Et as <-. cbn. by eapply gr_part_put.
  - unfold tb_put in Et. cbn [tb_res tb_set_items] in Et.
    unfold gr_put in Et. destruct (load (gr_pool (tb_res t)) i); [|done]. cbn in Et.
    destruct (store _ _ _); [|done]. cbn in Et. by injection Et as <-.
Qed.

(** The resource [k] has been through the loop. *)
Definition key_done (self inst : Z) lbuf k (ab : apage) (o : option apage) (msgs : list err_msg) : Prop :=
  cleaned self inst lbuf k ab o /\ (forall ab', o = Some ab' -> inst_gone inst ab') /\
  forall r, r ∈ convert_q ab -> inst_id r <> inst -> error_to r ∈ msgs.

Lemma key_done_more self inst lbuf k ab o msgs m :
  key_done self inst lbuf k ab o msgs -> key_done self inst lbuf k ab o (msgs ++ m).
Proof. intros (? & ? & Hm). split_and!; try done. intros r ? ?. apply elem_of_app. left. auto. Qed.

Lemma clean_part_loop_ok self inst lbuf failed q : is_inst self -> is_inst inst -> self <> inst ->
  0 <= q < DRC_MAX_PART_NUM -> forall rest l1 rnd ids msgs t A f F Sp am,
  rcy_inv t A f F Sp am -> gr_part (tb_res t) q (l1 ++ rest) -> NoDup ids -> (forall i, i ∈ ids -> i ∈ Sp) ->
  exists ended ids' msgs' t' A' f' Sp' am',
    clean_part_loop (length rest) failed rnd self inst lbuf (hd OG_INVALID_ID32 rest) ids msgs t =
      Ok (ended, ids', msgs', t') /\ rcy_inv t' A' f' F Sp' am' /\ NoDup ids' /\
    (forall i, i ∈ ids' -> i ∈ Sp') /\ Sp' ∖ list_to_set ids' = Sp ∖ list_to_set ids /\ (exists m, msgs' = msgs ++ m) /\
    (forall k, (forall i, am !! k = Some i -> i ∉ rest) -> A' !! k = A !! k) /\
    ((forall n, failed n = false) -> ended = true /\
     forall k i ab, am !! k = Some i -> i ∈ rest -> A !! k = Some ab -> key_done self inst lbuf k ab (A' !! k) msgs').
Proof.
  intros Hs Hi Hsi Hq. induction rest as [|i rest IH]; intros l1 rnd ids msgs t A f F Sp am I HP Hnd Hids.
  { eexists _, _, _, _, _, _, _, _. split; [done|]. split_and!; try done; [exists []; by rewrite app_nil_r|].
    intros _. split; [done|]. intros ? ? ? _ Hx. by apply not_elem_of_nil in Hx. }
  cbn [length clean_part_loop hd]. destruct (failed rnd) eqn:Ef.
  { eexists _, _, _, _, _, _, _, _. split; [done|]. split_and!; try done; [exists []; by rewrite app_nil_r|].
    intros Hf. by rewrite Hf in Ef. }
  destruct (clean_round_ok self inst lbuf t A f F Sp am q l1 i rest I Hs Hi Hsi Hq HP) as
    (k & ab & a & m & gone & s & b & t1 & f1 & ab' & Hk & Hab & Hkq & Ha & Hnx & Hidx & Hpg & Es & Ec & W' & Hg & Htold & Et & I1 & HP1 & Hbk).
  rewrite Ha. cbn [mbind outcome_bind]. rewrite Hpg, Es. cbn [mbind outcome_bind]. rewrite Et. cbn [mbind outcome_bind].
  rewrite Hnx, Hidx.
  assert (NoDup (l1 ++ i :: rest)) as HND.
  { eapply (gr_part_mem _ _ (tb_res t) _ _ _ _ _ i (tr_gres _ _ _ _ _ _ _ _ (rv_rep _ _ _ _ _ _ I)) Hq HP). }
  apply NoDup_app in HND as (_ & _ & [Hir _]%NoDup_cons).
  assert (forall k', am !! k' = Some i -> k' = k) as Hinj.
  { intros k' Hk'. eapply tab_inj; [apply I|done|done]. }
  assert (key_done self inst lbuf k ab (if gone then None else Some ab') (msgs ++ m)) as HD.
  { split_and!; [by eexists _, _, _, _, _|destruct gone; [done|by intros ? [= <-]]|].
    intros r Hr Hne. apply elem_of_app. right. auto. }
  destruct gone.
  - destruct (rep_clean_internal page_size t1 _ _ _ _ _ k i ab' (rv_rep _ _ _ _ _ _ I1) Hk (lookup_insert_eq _ _ _)) as
      (t2 & F' & E2 & _ & _ & HF & R2 & HP2).
    rewrite E2. cbn [mbind outcome_bind]. destruct Hg as (_ & _ & _ & _ & _ & Hq0). rewrite (HF Hq0), delete_insert_eq in R2.
    rewrite Hkq in HP2. specialize (HP2 l1 rest HP1).
    assert (rcy_inv t2 (delete k A) f1 F ({[i]} ∪ Sp) (delete k am)) as I2.
    { split; [done|]. intros k' ab'' [_ ?]%lookup_delete_Some. by eapply (rv_wf _ _ _ _ _ _ I). }
    assert (i ∉ Sp) as Hisp by (eapply tr_spare; [apply I|done]).
    destruct (IH l1 (S rnd) (ids ++ [i]) (msgs ++ m) t2 _ _ _ _ _ I2 HP2) as
      (ended & ids' & msgs' & t' & A' & f' & Sp' & am' & -> & I' & Hnd' & Hin' & Hsp' & (m' & ->) & Hkeep & Hend).
    { apply NoDup_app. split_and!; [done| |apply NoDup_singleton]. intros j Hj ->%list_elem_of_singleton. auto. }
    { intros j [Hj|Hj]%elem_of_app; [apply elem_of_union_r; auto|].
      apply list_elem_of_singleton in Hj as ->. by apply elem_of_union_l, elem_of_singleton. }
    eexists _, _, _, _, _, _, _, _. split; [done|]. split_and!; try done.
    + rewrite Hsp', list_to_set_app_L. cbn. rewrite union_empty_r_L.
      apply set_eq. intros j. rewrite !elem_of_difference, !elem_of_union, elem_of_singleton, elem_of_list_to_set.
      destruct (decide (j = i)) as [->|]; tauto.
    + exists (m ++ m'). by rewrite app_assoc.
    + intros k' Hk'. rewrite Hkeep.
      * rewrite lookup_delete_ne; [done|]. intros ->. apply (Hk' i Hk). by left.
      * intros j [_ Hj]%lookup_delete_Some. specialize (Hk' j Hj). intros ?. apply Hk'. by right.
    + intros Hf. destruct (Hend Hf) as [-> Hdone]. split; [done|]. intros k' j ab'' Hj Hjr Hab''.
      destruct (decide (k' = k)) as [->|Hne].
      * assert (ab'' = ab) as -> by congruence. rewrite Hkeep.
        -- rewrite lookup_delete_eq. by apply key_done_more.
        -- intros i' Hi'. by rewrite lookup_delete_eq in Hi'.
      * apply (Hdone k' j); rewrite ?lookup_delete_ne by done; try done.
        apply elem_of_cons in Hjr as [->|]; [|done]. by destruct Hne; apply Hinj.
  - destruct (IH (l1 ++ [i]) (S rnd) ids (msgs ++ m) t1 _ _ _ _ _ I1) as
      (ended & ids' & msgs' & t' & A' & f' & Sp' & am' & -> & I' & Hnd' & Hin' & Hsp' & (m' & ->) & Hkeep & Hend);
      [by rewrite <- app_assoc|done|done|].
    eexists _, _, _, _, _, _, _, _. split; [done|]. split_and!; try done.
    + exists (m ++ m'). by rewrite app_assoc.
    + intros k' Hk'. rewrite Hkeep.
      * rewrite lookup_insert_ne; [done|]. intros ->. apply (Hk' i Hk). by left.
      * intros j Hj. specialize (Hk' j Hj). intros ?. apply Hk'. by right.
    + intros Hf. destruct (Hend Hf) as [-> Hdone]. split; [done|]. intros k' j ab'' Hj Hjr Hab''.
      destruct (decide (k' = k)) as [->|Hne].
      * assert (ab'' = ab) as -> by congruence. rewrite Hkeep.
        -- rewrite lookup_insert_eq. by apply key_done_more.
        -- intros i' Hi'. assert (i' = i) as -> by congruence. done.
      * apply (Hdone k' j); rewrite ?lookup_insert_ne by done; try done.
        apply elem_of_cons in Hjr as [->|]; [|done]. by destruct Hne; apply Hinj.
Qed.

(** The whole handler. *)
Lemma clean_by_part_ok self inst lbuf failed q t A f F Sp am :
  is_inst self -> is_inst inst -> self <> inst -> 0 <= q < DRC_MAX_PART_NUM -> rcy_inv t A f F Sp am ->
  exists ended msgs t' A' f' am',
    drc_clean_page_owner_by_part true failed self inst lbuf q t = Ok (Some (ended, msgs, t')) /\
    rcy_inv t' A' f' F Sp am' /\ (forall k, partid k <> q -> A' !! k = A !! k) /\
    ((forall n, failed n = false) -> ended = true /\
     forall k ab, A !! k = Some ab -> partid k = q -> key_done self inst lbuf k ab (A' !! k) msgs).
Proof.
  intros Hs Hi Hsi Hq I. pose proof (tr_gres _ _ _ _ _ _ _ _ (rv_rep _ _ _ _ _ _ I)) as G.
  destruct (gr_part_exists _ _ _ _ _ _ q G Hq) as (l & HP).
  assert (forall j, j ∈ l <-> exists k, am !! k = Some j /\ partid k = q) as Hm.
  { intros j. by destruct (gr_part_mem _ _ (tb_res t) _ _ _ _ _ j G Hq HP). }
  destruct (clean_part_loop_ok self inst lbuf failed q Hs Hi Hsi Hq l [] 0%nat [] [] t A f F Sp am I HP) as
    (ended & ids & msgs & t1 & A' & f' & Sp' & am' & EL & I' & Hnd & Hin & Hsp & _ & Hkeep & Hend);
    [apply NoDup_nil_2|intros j Hj; by apply not_elem_of_nil in Hj|].
  unfold drc_clean_page_owner_by_part. destruct HP as (lst & Hl & Hr). rewrite Hl. cbn [negb].
  rewrite (lr_count _ _ _ Hr), (lr_first _ _ _ Hr), Nat2Z.id, EL. cbn [mbind outcome_bind].
  destruct (tab_free_batch _ _ _ _ _ _ _ _ ids (rv_rep _ _ _ _ _ _ I') Hnd Hin) as (p' & -> & R').
  cbn [mbind outcome_bind]. rewrite Hsp in R'. cbn [list_to_set] in R'. rewrite difference_empty_L in R'.
  exists ended, msgs, (tb_set_res (gr_set_pool p' (tb_res t1)) t1), A', f', am'. split; [done|]. split_and!.
  - split; [done|apply I'].
  - intros k Hk. apply Hkeep. intros j Hj (k' & Hk' & Hp)%Hm.
    assert (k' = k) as -> by (eapply tab_inj; [apply I|done|done]). done.
  - intros Hf. destruct (Hend Hf) as [-> Hd]. split; [done|]. intros k ab Hk Hp.
    assert (is_Some (am !! k)) as [j Hj] by (apply (tr_dom _ _ _ _ _ _ _ _ (rv_rep _ _ _ _ _ _ I)); eauto).
    apply (Hd k j); [done| |done]. apply Hm. eauto.
Qed.

(** ** The reports of the surviving instances *)
Ltac update_cases pi :=
  destruct (pi_is_edp pi); [destruct (_ <? _) eqn:?|]; cbn in *;
  destruct (pi_lock_mode pi =? DRC_LOCK_NULL), (pi_lock_mode pi =? DRC_LOCK_EXCLUSIVE), (pi_lock_mode pi =? DRC_LOCK_SHARE);
  cbn in *; try done; by destruct (_ =? OG_INVALID_ID8).

Lemma update_page_info_wf pi inst b : is_inst inst -> page_wf b -> page_wf (drc_update_page_info pi inst b).
Proof.
  intros Hi W. pose proof (is_inst_ne _ Hi) as Hne. unfold drc_update_page_info.
  set (b1 := if pi_is_edp pi then _ else b).
  assert (page_wf b1) as W1.
  { unfold b1. destruct (pi_is_edp pi); [|done]. destruct (_ <? _); destruct W; split; cbn; auto with drc; done. }
  clearbody b1. destruct (pi_lock_mode pi =? DRC_LOCK_NULL); [done|].
  destruct (pi_lock_mode pi =? DRC_LOCK_EXCLUSIVE).
  - cbn [set_mode claimed_owner]. destruct (Z.eqb_spec (claimed_owner b1) OG_INVALID_ID8); cbn [negb];
      destruct W1; split; cbn; auto with drc; done.
  - destruct (pi_lock_mode pi =? DRC_LOCK_SHARE); destruct W1; split; cbn; auto with drc; done.
Qed.

Lemma rcy_buf_res_wf pi inst : is_inst inst -> page_wf (rcy_buf_res [] pi inst).
Proof.
  intros Hi. pose proof (is_inst_ne _ Hi) as Hne. unfold rcy_buf_res.
  destruct (pi_lock_mode pi =? DRC_LOCK_EXCLUSIVE), (pi_is_edp pi), (pi_lock_mode pi =? DRC_LOCK_SHARE);
    split; cbn; auto with drc; done.
Qed.

(** What one report makes of a page of the catalogue. *)
Definition collect_page (o : option apage) (rep : Z * page_info) : option apage :=
  Some (match o with
        | Some b => drc_update_page_info rep.2 rep.1 b
        | None => rcy_buf_res [] rep.2 rep.1
        end).

Lemma rcy_page_info_ok pi inst idx t A f F Sp am :
  rcy_inv t A f F Sp am -> is_inst inst -> idx ∈ Sp ->
  let k := pi_page_id pi in
  exists used t' A' am', drc_rcy_page_info page_size pi inst idx t = Ok (used, t') /\
    (used = true <-> A !! k = None) /\ A' !! k = collect_page (A !! k) (inst, pi) /\
    (forall k', k' <> k -> A' !! k' = A !! k') /\
    rcy_inv t' A' f F (if used then Sp ∖ {[idx]} else Sp) am'.
Proof.
  intros [R W] Hi Hx k. unfold drc_rcy_page_info. fold k. destruct (A !! k) as [ab|] eqn:Hk.
  - destruct (rep_open page_size _ _ _ _ _ _ _ _ R Hk) as (i & b & E & _ & -> & Hb & Hpk & RR & Hput).
    cbn [mbind outcome_bind]. rewrite Hb. cbn [mbind outcome_bind].
    destruct (Hput (tb_items t) (drc_update_page_info pi inst b) f (drc_update_page_info pi inst ab))
      as (t' & Et & _ & R').
    { apply (res_rel_map _ _ _ _ _ _ (fun Q x => drc_update_page_info pi inst x)); [..|done];
        intros; unfold drc_update_page_info; update_cases pi. }
    { rewrite <- Hpk. unfold drc_update_page_info. update_cases pi. }
    assert (tb_set_items (tb_items t) t = t) as Ht by (by destruct t). rewrite Ht in Et.
    rewrite Et. cbn [mbind outcome_bind].
    eexists false, t', _, am. split; [done|]. split; [by split|]. split; [apply lookup_insert_eq|].
    split; [intros; by apply lookup_insert_ne|]. split; [done|].
    intros k' ab'' [[<- <-]|[_ ?]]%lookup_insert_Some; [|by eapply W]. apply update_page_info_wf; eauto.
  - rewrite (tab_lookup_none _ _ _ _ _ _ _ _ _ R Hk : page_lookup t k = _). cbn [mbind outcome_bind].
    destruct (tab_create _ _ (page_partid_range page_size) t A f F Sp am k idx (rcy_buf_res DRC_LIST_INIT pi inst) R Hx Hk)
      as (g1 & g2 & g3 & E1 & E2 & E3 & _ & R'); [done|done|].
    rewrite E1. cbn [mbind outcome_bind]. change (buf_bucket t k) with (tb_hash drc_page_id_hash t k).
    rewrite E2. cbn [mbind outcome_bind]. rewrite E3. cbn [mbind outcome_bind].
    eexists true, _, _, _. split; [done|]. split; [done|]. split; [apply lookup_insert_eq|].
    split; [intros; by apply lookup_insert_ne|]. split; [done|].
    intros k' ab'' [[<- <-]|[_ ?]]%lookup_insert_Some; [by apply rcy_buf_res_wf|by eapply W].
Qed.
End CleanPartThm.

(** ** A page rebuilt from the reports

    Each surviving instance reports a page at most once, in one of the three
    modes; the holder in exclusive mode is the only holder; a past image has
    been changed, so its lsn is not 0. *)
Record reports_ok (rs : list (Z * page_info)) : Prop := {
  rp_inst : forall i pi, (i, pi) ∈ rs -> is_inst i;
  rp_once : forall i pi pi', (i, pi) ∈ rs -> (i, pi') ∈ rs -> pi = pi';
  rp_mode : forall i pi, (i, pi) ∈ rs -> pi_lock_mode pi ∈ [DRC_LOCK_NULL; DRC_LOCK_SHARE; DRC_LOCK_EXCLUSIVE];
  rp_sole : forall i pi j pj, (i, pi) ∈ rs -> (j, pj) ∈ rs -> pi_lock_mode pi = DRC_LOCK_EXCLUSIVE ->
    pi_lock_mode pj <> DRC_LOCK_NULL -> j = i;
  rp_lsn : forall i pi, (i, pi) ∈ rs -> pi_is_edp pi = true -> 0 < pi_lsn pi;
}.

(** What the resource [b] must say after the reports [rs]. *)
Record rebuilt (rs : list (Z * page_info)) (b : apage) : Prop := {
  rb_wf : page_wf b;
  rb_copies : forall i, bm_mem (readonly_copies b) i <-> exists pi, (i, pi) ∈ rs /\ pi_lock_mode pi = DRC_LOCK_SHARE;
  rb_edp : forall i, bm_mem (edp_map b) i <-> exists pi, (i, pi) ∈ rs /\ pi_is_edp pi = true;
  rb_owner : forall i, is_inst i -> claimed_owner b = i <-> exists pi, (i, pi) ∈ rs /\ pi_lock_mode pi = DRC_LOCK_EXCLUSIVE;
  rb_mode : (mode b = DRC_LOCK_NULL /\ forall i pi, (i, pi) ∈ rs -> pi_lock_mode pi = DRC_LOCK_NULL) \/
    (exists i pi, (i, pi) ∈ rs /\ pi_lock_mode pi = mode b /\ mode b <> DRC_LOCK_NULL);
  rb_latest : (latest_edp_lsn b = 0 /\ forall i pi, (i, pi) ∈ rs -> pi_is_edp pi = false) \/
    (exists pi, (latest_edp b, pi) ∈ rs /\ pi_is_edp pi = true /\ pi_lsn pi = latest_edp_lsn b);
  rb_newest : forall i pi, (i, pi) ∈ rs -> pi_is_edp pi = true -> pi_lsn pi <= latest_edp_lsn b;
  rb_pending : pending b = DRC_RES_INVALID_ACTION;
}.

(** Taken together, these make the resource one the request handler accepts. *)
Lemma rebuilt_ok rs b : reports_ok rs -> rebuilt rs b -> page_ok b.
Proof.
  intros RO RB. apply page_ok_wf. split; [apply RB|].
  assert (forall i, bm_mem (readonly_copies b) i -> mode b = DRC_LOCK_SHARE) as Hsh.
  { intros i (pi & Hi & Hm)%(rb_copies _ _ RB).
    destruct (rb_mode _ _ RB) as [[_ Hall]|(j & pj & Hj & Hmj & Hn)]; [by rewrite (Hall _ _ Hi) in Hm|].
    pose proof (rp_mode _ RO _ _ Hj) as Hc. rewrite Hmj in Hc. destruct (decide (mode b = DRC_LOCK_EXCLUSIVE)) as [Hx|].
    - assert (i = j) as -> by (eapply (rp_sole _ RO j pj); [done|done|congruence|by rewrite Hm]).
      assert (pj = pi) as -> by (by eapply (rp_once _ RO j)). congruence.
    - rewrite !elem_of_cons, elem_of_nil in Hc. tauto. }
  split.
  - intros [i Hi]%bm_nonzero; [eauto|apply RB].
  - intros Ho Hr He. destruct (bm_nonzero (edp_map b)) as [e (pe & Hpe & Hedp)%(rb_edp _ _ RB)]; [apply RB|done|].
    split.
    + destruct (rb_latest _ _ RB) as [[_ Hn]|(pi & Hi & _)]; [by rewrite (Hn _ _ Hpe) in Hedp|].
      apply is_inst_ne. by apply (rp_inst _ RO) in Hi.
    + intros Hm. destruct (rb_mode _ _ RB) as [[Hn _]|(j & pj & Hj & Hmj & _)]; [by rewrite Hm in Hn|].
      apply (proj1 (bm_zero _ (pw_copies _ (rb_wf _ _ RB))) Hr j). apply (rb_copies _ _ RB). exists pj.
      split; [done|congruence].
Qed.

(** [drc_update_page_info], member by member. *)
Lemma update_members {Q} pi i (b : buf_res Q) :
  let b' := drc_update_page_info pi i b in
  let m := pi_lock_mode pi in
  readonly_copies b' = (if m =? DRC_LOCK_SHARE then drc_bitmap64_set (readonly_copies b) i else readonly_copies b) /\
  edp_map b' = (if pi_is_edp pi then drc_bitmap64_set (edp_map b) i else edp_map b) /\
  claimed_owner b' = (if (m =? DRC_LOCK_EXCLUSIVE) && (claimed_owner b =? OG_INVALID_ID8) then i else claimed_owner b) /\
  mode b' = (if m =? DRC_LOCK_NULL then mode b else m) /\
  (latest_edp b', latest_edp_lsn b') =
    (if pi_is_edp pi && (latest_edp_lsn b <? pi_lsn pi) then (i, pi_lsn pi) else (latest_edp b, latest_edp_lsn b)).
Proof.
  cbv zeta. unfold drc_update_page_info.
  destruct (Z.eqb_spec (pi_lock_mode pi) DRC_LOCK_NULL) as [->|];
    [|destruct (Z.eqb_spec (pi_lock_mode pi) DRC_LOCK_EXCLUSIVE) as [->|];
      [|destruct (Z.eqb_spec (pi_lock_mode pi) DRC_LOCK_SHARE) as [->|]]];
    destruct (pi_is_edp pi); try destruct (latest_edp_lsn b <? pi_lsn pi); cbn;
    try destruct (claimed_owner b =? OG_INVALID_ID8); cbn; by split_and!.
Qed.

Lemma rebuilt_first pi i : reports_ok [(i, pi)] -> rebuilt [(i, pi)] (rcy_buf_res [] pi i).
Proof.
  intros RO. assert (is_inst i) as Hi by (eapply (rp_inst _ RO); by left). pose proof (is_inst_ne _ Hi) as Hne.
  assert (forall j pj, (j, pj) ∈ [(i, pi)] <-> j = i /\ pj = pi) as Hin.
  { intros. rewrite list_elem_of_singleton. split; [by intros [= -> ->]|by intros [-> ->]]. }
  assert (forall j, ~ bm_mem 0 j) as Hz by (apply bm_zero; auto with drc).
  split; try (setoid_rewrite Hin); cbn [rcy_buf_res readonly_copies edp_map claimed_owner mode latest_edp latest_edp_lsn].
  - by apply rcy_buf_res_wf.
  - intros j. destruct (Z.eqb_spec (pi_lock_mode pi) DRC_LOCK_EXCLUSIVE) as [Ex|].
    { split; [by intros ?%Hz|intros (? & [_ ->] & Hs); by rewrite Hs in Ex]. }
    destruct (Z.eqb_spec (pi_lock_mode pi) DRC_LOCK_SHARE).
    + rewrite bm_set_mem by apply Hi. split; [intros [->|?%Hz]; [by exists pi|done]|intros (? & [-> _] & _); by left].
    + split; [by intros ?%Hz|by intros (? & [_ ->] & ?)].
  - intros j. destruct (pi_is_edp pi) eqn:Ee.
    + rewrite bm_set_mem by apply Hi. split; [intros [->|?%Hz]; [by exists pi|done]|intros (? & [-> _] & _); by left].
    + split; [by intros ?%Hz|intros (? & [_ ->] & ?); congruence].
  - intros j Hj. pose proof (is_inst_ne _ Hj). destruct (Z.eqb_spec (pi_lock_mode pi) DRC_LOCK_EXCLUSIVE).
    + split; [intros <-; by exists pi|by intros (? & [-> _] & _)].
    + split; [congruence|intros (? & [_ ->] & ?); done].
  - destruct (decide (pi_lock_mode pi = DRC_LOCK_NULL)) as [Hm|]; [left|right; by exists i, pi].
    split; [done|by intros ? ? [_ ->]].
  - destruct (pi_is_edp pi) eqn:Ee; [right; by exists pi|left]. split; [done|by intros ? ? [_ ->]].
  - intros ? ? [_ ->] ->. lia.
  - done.
Qed.

Lemma update_pending {Q} pi i (b : buf_res Q) : pending (drc_update_page_info pi i b) = pending b.
Proof. unfold drc_update_page_info. repeat case_match; done. Qed.

Lemma reports_ok_sub rs rs' : rs ⊆ rs' -> reports_ok rs' -> reports_ok rs.
Proof. intros Hs []. split; intros; naive_solver. Qed.

Lemma ex_report (P : page_info -> Prop) (rs : list (Z * page_info)) i pi j :
  (exists pj, ((j, pj) ∈ rs \/ (j = i /\ pj = pi)) /\ P pj) <-> (exists pj, (j, pj) ∈ rs /\ P pj) \/ (j = i /\ P pi).
Proof. naive_solver. Qed.

Lemma rebuilt_next rs pi i b :
  rebuilt rs b -> reports_ok (rs ++ [(i, pi)]) -> rebuilt (rs ++ [(i, pi)]) (drc_update_page_info pi i b).
Proof.
  intros RB RO.
  assert (forall j pj, (j, pj) ∈ rs ++ [(i, pi)] <-> (j, pj) ∈ rs \/ (j = i /\ pj = pi)) as Hin.
  { intros. rewrite elem_of_app, list_elem_of_singleton. split; (intros [?|H]; [by left|right]); [by injection H|by destruct H as [-> ->]]. }
  assert (is_inst i) as Hi by (eapply (rp_inst _ RO), Hin; by right). pose proof (is_inst_ne _ Hi) as Hne.
  destruct (update_members pi i b) as (Ec & Ee & Eo & Em & El).
  pose proof (f_equal fst El) as El1. pose proof (f_equal snd El) as El2. cbn [fst snd] in El1, El2.
  destruct RB as [W Hc He Ho Hm Hl Hn Hp].
  split; try setoid_rewrite Hin.
  - by apply update_page_info_wf.
  - intros j. rewrite Ec. destruct (Z.eqb_spec (pi_lock_mode pi) DRC_LOCK_SHARE);
      [rewrite bm_set_mem by apply Hi|]; rewrite Hc, ex_report; tauto.
  - intros j. rewrite Ee. destruct (pi_is_edp pi) eqn:?; [rewrite bm_set_mem by apply Hi|]; rewrite He, ex_report; intuition congruence.
  - intros j Hj. rewrite Eo. pose proof (is_inst_ne _ Hj).
    destruct (Z.eqb_spec (pi_lock_mode pi) DRC_LOCK_EXCLUSIVE) as [Ex|]; cbn [andb]; [|rewrite Ho, ex_report by done; tauto].
    assert (forall j' pj, (j', pj) ∈ rs -> pi_lock_mode pj = DRC_LOCK_EXCLUSIVE -> j' = i) as Hsole.
    { intros j' pj Hj' Hx. eapply (rp_sole _ RO i pi j' pj); [apply Hin; by right|apply Hin; by left|done|by rewrite Hx]. }
    destruct (Z.eqb_spec (claimed_owner b) OG_INVALID_ID8) as [Hinv|Hinv].
    + split; [intros <-; exists pi; auto|]. intros (pj & [?|[-> _]] & ?); [symmetry; eauto|done].
    + destruct (pw_owner _ W) as [?|Hoi]; [done|].
      destruct (proj1 (Ho _ Hoi) eq_refl) as (po & Hpo & Hpx). rewrite (Hsole _ _ Hpo Hpx).
      split; [intros <-; exists pi; auto|]. intros (pj & [?|[-> _]] & ?); [symmetry; eauto|done].
  - rewrite Em. destruct (Z.eqb_spec (pi_lock_mode pi) DRC_LOCK_NULL) as [Hz|Hz].
    + destruct Hm as [[? ?]|(j & pj & ? & ? & ?)]; [left|right; exists j, pj; auto]. split; [done|].
      intros j pj [?|[_ ->]]; eauto.
    + right. exists i, pi. auto.
  - rewrite El1, El2. destruct (pi_is_edp pi) eqn:Hedp; cbn [andb].
    + destruct (Z.ltb_spec (latest_edp_lsn b) (pi_lsn pi)); cbn; [right; exists pi; auto|].
      destruct Hl as [[Hz _]|(pj & ? & ? & ?)]; [|right; exists pj; auto].
      assert (0 < pi_lsn pi) by (eapply (rp_lsn _ RO i); [apply Hin; by right|done]). lia.
    + cbn. destruct Hl as [[? ?]|(pj & ? & ? & ?)]; [left|right; exists pj; auto]. split; [done|].
      intros j pj [?|[_ ->]]; eauto.
  - rewrite El2. intros j pj Hj Hje. destruct (pi_is_edp pi) eqn:Hedp; cbn [andb].
    + destruct (Z.ltb_spec (latest_edp_lsn b) (pi_lsn pi)); cbn; destruct Hj as [Hj|[-> ->]]; try lia;
        specialize (Hn _ _ Hj Hje); lia.
    + cbn. destruct Hj as [Hj|[-> ->]]; [eauto|congruence].
  - by rewrite update_pending.
Qed.

Lemma collect_rebuilt rs : reports_ok rs -> rs <> [] -> exists b, foldl collect_page None rs = Some b /\ rebuilt rs b.
Proof.
  induction rs as [|[i pi] rs IH] using rev_ind; [done|]. intros RO _. rewrite foldl_snoc.
  destruct (decide (rs = [])) as [->|Hne].
  - eexists. split; [done|]. by apply rebuilt_first.
  - destruct IH as (b & -> & RB); [by eapply reports_ok_sub, RO; set_solver|done|].
    eexists. split; [done|]. by apply rebuilt_next.
Qed.
