(* ===== verification/DrcPageProps.v ===== *)
(** The page master is correct: the theorems about the handlers of pages, and
    a run on a small table that each of them applies to. *)

From S2P Require Import Prelude DrcBitmap DrcPool DrcResMap DrcList DrcGlobalRes DrcQueue DrcTable DrcReform DrcPage.
From S2P Require Import DrcPageSim DrcPageInv DrcPageThm DrcPageSpec DrcPageRcy.

(** ** A small table

    Four slots for pages, four for waiting requests, made by the
    initialisation functions. *)
Definition demo_items : drc_res_pool drc_lock_item :=
  match drc_res_pool_init true 64 4 (mk_pool false 0 0 0 0 ∅) with Ok (_, p) => p | Crash _ => mk_pool false 0 0 0 0 ∅ end.
Definition demo_gres {B K} `{Resource B K} (num : Z) : drc_global_res B :=
  let g0 := mk_gres (mk_map false (mk_pool false 0 0 0 0 ∅) 0 ∅) ∅ in
  match drc_global_res_init true true num 200 g0 with Ok (_, g) => g | Crash _ => g0 end.
Definition demo_tab : ptab := mk_tab demo_items (demo_gres 4).

Definition demo_page : page_id := mk_page 7 3.
Definition demo_req (inst mode : Z) : drc_req_info := mk_req inst mode DRC_LOCK_NULL 0 10 1 100 5 0 0.
Definition demo_view : view :=
  mk_view REMASTER_DONE REFORM_RECOVER_DONE 5 false false true 0 (fun _ => false) (mk_drid 0 0 0 0 0 0 0) [].
Definition demo_renv : recycle_env :=
  mk_renv 0 (fun _ _ => demo_view) (fun _ => OG_SUCCESS) (fun _ t => t) (fun _ t => t).
Definition demo_res : req_owner_result := mk_result DRC_REQ_OWNER_INVALID DRC_RES_INVALID_ACTION 0 false 0 0.

(** The page requested by instance 1 in exclusive mode, then by instance 2. *)
Definition demo_request (inst : Z) (t : ptab) : outcome (status * req_owner_result * ptab) :=
  drc_request_page_owner 8192 (fun _ => demo_view) demo_renv OG_SUCCESS (fun t => t) (fun t => t) demo_page
    (demo_req inst DRC_LOCK_EXCLUSIVE) false demo_res t.
Definition demo_run (o : outcome (status * req_owner_result * ptab)) : ptab :=
  match o with Ok (_, _, t) => t | Crash _ => demo_tab end.
Definition demo_owned : ptab := demo_run (demo_request 1 demo_tab).
Definition demo_apage : apage := new_buf_res [] (demo_req 1 DRC_LOCK_EXCLUSIVE) demo_page.

Lemma page_id_hash_range k n : 0 < n -> 0 <= drc_page_id_hash n k < n.
Proof. intros. by apply Z.mod_pos_bound. Qed.

Lemma demo_tab_inv : page_inv 8192 demo_tab ∅ 4 ∅ ∅ ∅.
Proof.
  destruct (tab_init_ok (B := buf_res) drc_page_id_hash (drc_page_partid 8192) (page_partid_range 8192)
    (mk_pool false 0 0 0 0 ∅) (mk_gres (mk_map false (mk_pool false 0 0 0 0 ∅) 0 ∅) ∅) 200 4 64 4)
    as (p & g & Ep & Eg & R & _); try done; [intros; by apply page_id_hash_range|].
  unfold demo_tab, demo_items, demo_gres. rewrite Ep, Eg. split; [done|]. intros k ab Hk. by rewrite lookup_empty in Hk.
Qed.

Lemma demo_admitted inst mode : is_inst inst -> admitted (fun _ => demo_view) demo_page (demo_req inst mode).
Proof. by split. Qed.

Lemma demo_owned_inv : exists am, page_inv 8192 demo_owned {[demo_page := demo_apage]} 4 ∅ ∅ am.
Proof.
  destruct (request_first_ok 8192 (fun _ => demo_view) demo_renv OG_SUCCESS (fun t => t) demo_page
    (demo_req 1 DRC_LOCK_EXCLUSIVE) false demo_res demo_tab ∅ 4 ∅ ∅ ∅ demo_tab_inv) as (res & t & am & E & _ & _ & I).
  - by apply demo_admitted.
  - done.
  - vm_compute. done.
  - exists am. unfold demo_owned, demo_request. rewrite E. done.
Qed.

Lemma env_any_id page_size own : env_any page_size own (fun t => t).
Proof. intros t A f F Sp am I Ho. by exists A, f, F, Sp, am. Qed.
Lemma env_busy_id page_size own k i : env_busy page_size own k i (fun t => t).
Proof.
  intros t A f F Sp am ab I Ho Hi Hk Hc. exists A, f, F, Sp, am, ab. split_and!; try done.
  by apply (po_owned _ (pv_ok _ _ _ _ _ _ _ I _ _ Hk)).
Qed.
Lemma env_frozen_id page_size i k : env_frozen page_size i k (fun t => t).
Proof. intros t A f F Sp am ab I Hi Hk Hp. exists A, f, F, Sp, am. split; [done|]. by right. Qed.
Lemma demo_renv_ok page_size : renv_ok page_size demo_renv.
Proof.
  intros n pos k. split; [|apply env_frozen_id]. intros t A f F Sp am I Hi. exists A, f, F, Sp, am. split_and!; [done| |].
  - by apply (tab_slot_range _ _ _ _ _ _ _ _ _ _ (pv_rep _ _ _ _ _ _ _ I) Hi).
  - intros k' Hk'. by apply (tab_inj _ _ _ _ _ _ _ _ _ _ _ (pv_rep _ _ _ _ _ _ _ I) Hk' Hi).
Qed.
Lemma demo_env_ok page_size k : request_env_ok page_size k demo_renv (fun t => t) (fun t => t).
Proof. split; [apply demo_renv_ok|intros; apply env_any_id|intros; apply env_busy_id]. Qed.

(** ** Requests *)

(** C9: on a well-formed table every request for a page, whatever the page,
    the requester and the reform states it reads, ends without a panic or a
    bad address and leaves a well-formed table: the hash map, the partition
    lists and the queues of waiters are intact and every page of the
    catalogue satisfies its invariant.  Assumed of the windows in which the
    locks are given up ([request_env_ok]): the other threads keep the table
    well-formed and leave alone the item this call has allocated; while
    copies are invalidated the page stays in its slot and keeps an owner (its
    owner does not crash there); while a page is recycled its slot is not
    given to another page, and the page marked as being recycled is changed
    by nobody but a reform that removes it.  The table is one that no cleaning
    after a crash has left in the state of [page_crash_after_invalidation]. *)
Theorem page_request_safe page_size views e inv env1 env2 k r is_try res t A f F Sp am :
  page_inv page_size t A f F Sp am -> 0 <= inst_id r -> request_env_ok page_size k e env1 env2 ->
  exists ret res' t' A' f' F' Sp' am',
    drc_request_page_owner page_size views e inv env1 env2 k r is_try res t = Ok (ret, res', t') /\
    page_inv page_size t' A' f' F' Sp' am'.
Proof. apply request_safe. Qed.

Lemma page_request_safe_witness : exists ret res' t' A' f' F' Sp' am',
  demo_request 2 demo_owned = Ok (ret, res', t') /\ page_inv 8192 t' A' f' F' Sp' am'.
Proof.
  destruct demo_owned_inv as [am I].
  apply (page_request_safe 8192 _ _ _ _ _ _ (demo_req 2 DRC_LOCK_EXCLUSIVE) _ _ _ _ _ _ _ _ I); [cbn; lia|apply demo_env_ok].
Defined.

(** C10: a request admitted for a page the master knows is answered by the
    rules of [DrcPageSpec]: refused while the page is recycled, while it has
    no owner and recovery is not done, when it and the request under
    conversion would wait for each other, when it is older than the one it
    repeats or repeats a waiter with another lsn, and when no item is left to
    queue it; granted when nobody has the page; converted when nobody else is
    or when it repeats the request under conversion; queued behind the others
    or in the place of the waiter it repeats otherwise; a try is never queued.
    The catalogue changes at this page only, as the rule says.  The copies of
    the others are invalidated exactly when the request is converted in
    exclusive mode and there are some, and forgotten exactly when that
    succeeds.  No other thread acts while they are invalidated. *)
Theorem page_request_known page_size views e inv env1 k r is_try res t A f F Sp am ab :
  page_inv page_size t A f F Sp am -> admitted views k r -> A !! k = Some ab ->
  let r1 := set_owner_result (result_code DRC_REQ_OWNER_WAITING) r in
  exists vd f' ab' ret res' t', ruled (views 4%nat) k f r1 is_try ab vd f' ab' /\
    drc_request_page_owner page_size views e inv env1 (fun t => t) k r is_try res t = Ok (ret, res', t') /\
    ((~ must_invalidate vd ab' /\ answered vd r1 ab' ret res' /\ page_inv page_size t' (<[k := ab']> A) f' F Sp am) \/
     (must_invalidate vd ab' /\ answered vd r1 ab' OG_SUCCESS res' /\ ret = inv /\
      page_inv page_size t'
        (<[k := match inv with OG_SUCCESS => set_readonly_copies 0 ab' | OG_ERROR => ab' end]> A) f' F Sp am)).
Proof. apply request_known_ruled. Qed.

Lemma demo_ruled vd f' ab' :
  ruled demo_view demo_page 4 (set_owner_result 4 (demo_req 2 DRC_LOCK_EXCLUSIVE)) false demo_apage vd f' ab' ->
  vd = Converting false /\ claimed_owner ab' = 1 /\ inst_id (converting ab') = 2.
Proof.
  intros [H|H1 H2|b1 H1 H2|b1 vd0 f0 b2 H1 H2 Ha H3 Hs]; [discriminate..|].
  destruct Ha as [_|o H|H|H]; [|discriminate..].
  destruct Hs as [Hb Ht|Hb Ht|Hb|Hb|Hb|Hb|? ? ? Hb|? ? ? Hb|Hb|Hb];
    [|discriminate|exfalso; apply Hb; reflexivity..]. split; [reflexivity|split; reflexivity].
Qed.

Lemma page_request_known_witness : exists f' ab' ret res' t',
  ruled demo_view demo_page 4 (set_owner_result 4 (demo_req 2 DRC_LOCK_EXCLUSIVE)) false demo_apage (Converting false) f' ab' /\
  demo_request 2 demo_owned = Ok (ret, res', t') /\ claimed_owner ab' = 1 /\ inst_id (converting ab') = 2.
Proof.
  destruct demo_owned_inv as [am I].
  destruct (page_request_known 8192 (fun _ => demo_view) demo_renv OG_SUCCESS (fun t => t) demo_page
    (demo_req 2 DRC_LOCK_EXCLUSIVE) false demo_res _ _ _ _ _ _ demo_apage I) as (vd & f' & ab' & ret & res' & t' & HR & E & _).
  - by apply demo_admitted.
  - apply lookup_singleton_eq.
  - assert (vd = Converting false /\ claimed_owner ab' = 1 /\ inst_id (converting ab') = 2) as (-> & Ho & Hc).
    { exact (demo_ruled _ _ _ HR). }
    exists f', ab', ret, res', t'. split; [exact HR|]. split; [exact E|]. split; [exact Ho|exact Hc].
Defined.

(** The first request for a page makes the requester its owner, in the
    mode it asked for, when an item is left for the page. *)
Theorem page_request_first page_size views e inv env2 k r is_try res t A f F Sp am :
  page_inv page_size t A f F Sp am -> admitted views k r -> A !! k = None ->
  Z.of_nat (size A) + Z.of_nat (size Sp) < tb_cap t ->
  exists res' t' am', drc_request_page_owner page_size views e inv (fun t => t) env2 k r is_try res t =
      Ok (OG_SUCCESS, res', t') /\
    ro_type res' = DRC_REQ_OWNER_GRANTED /\ ro_curr_owner_id res' = inst_id r /\
    page_inv page_size t' (<[k := new_buf_res [] r k]> A) f F Sp am'.
Proof. apply request_first_ok. Qed.

Lemma page_request_first_witness : exists res' t' am', demo_request 1 demo_tab = Ok (OG_SUCCESS, res', t') /\
  ro_type res' = DRC_REQ_OWNER_GRANTED /\ ro_curr_owner_id res' = 1 /\
  page_inv 8192 t' (<[demo_page := demo_apage]> ∅) 4 ∅ ∅ am'.
Proof.
  apply (page_request_first 8192 (fun _ => demo_view) demo_renv OG_SUCCESS (fun t => t) demo_page
    (demo_req 1 DRC_LOCK_EXCLUSIVE) false demo_res demo_tab ∅ 4 ∅ ∅ ∅ demo_tab_inv).
  - by apply demo_admitted.
  - done.
  - vm_compute. done.
Defined.

(** ** Claims *)

(** The run goes on: instance 2 is converting, instance 3 waits. *)
Definition demo_conv : ptab := demo_run (demo_request 2 demo_owned).
Definition demo_wait : ptab := demo_run (demo_request 3 demo_conv).
Definition demo_on (inst f : Z) (ab : apage) : outcome (status * req_owner_result * bool * drc_req_info * Z * apage) :=
  request_on_resource demo_view f ab
    (set_owner_result (result_code DRC_REQ_OWNER_WAITING) (demo_req inst DRC_LOCK_EXCLUSIVE)) demo_page false
    (mk_result DRC_REQ_OWNER_INVALID DRC_RES_INVALID_ACTION 0 false DRC_LOCK_EXCLUSIVE 0).
Definition demo_cpage : apage :=
  mk_buf 1 OG_INVALID_ID8 DRC_RES_INVALID_ACTION 0 DRC_LOCK_EXCLUSIVE demo_page
    (set_owner_result 3 (demo_req 2 DRC_LOCK_EXCLUSIVE)) [] true 0 0 0.
Definition demo_wpage : apage := set_convert_q [set_owner_result 4 (demo_req 3 DRC_LOCK_EXCLUSIVE)] demo_cpage.

Lemma demo_request_inv inst t f ab am ret res cc r' f' ab' :
  is_inst inst -> page_inv 8192 t {[demo_page := ab]} f ∅ ∅ am ->
  demo_on inst f ab = Ok (ret, res, cc, r', f', ab') -> ro_readonly_copies res = 0 ->
  page_inv 8192 (demo_run (demo_request inst t)) {[demo_page := ab']} f' ∅ ∅ am.
Proof.
  intros Hi I E0 Hz.
  destruct (request_known_ok 8192 (fun _ => demo_view) demo_renv OG_SUCCESS (fun t => t) demo_page
    (demo_req inst DRC_LOCK_EXCLUSIVE) false demo_res _ _ _ _ _ _ ab I (demo_admitted _ _ Hi) (lookup_singleton_eq _ _))
    as (ret1 & res1 & cc1 & r1 & f1 & ab1 & t' & Er & E & I').
  change (demo_on inst f ab = Ok (ret1, res1, cc1, r1, f1, ab1)) in Er. rewrite E0 in Er. simplify_eq.
  unfold demo_request. rewrite E. cbn [demo_run]. rewrite Hz in I'. cbn [Z.eqb negb] in I'.
  rewrite andb_false_r in I'. cbn [andb] in I'. by rewrite insert_singleton_eq in I'.
Qed.

Lemma demo_conv_inv : exists am, page_inv 8192 demo_conv {[demo_page := demo_cpage]} 4 ∅ ∅ am.
Proof. destruct demo_owned_inv as [am I]. exists am. eapply demo_request_inv; [done|exact I|vm_compute; reflexivity|done]. Qed.
Lemma demo_wait_inv : exists am, page_inv 8192 demo_wait {[demo_page := demo_wpage]} 3 ∅ ∅ am.
Proof. destruct demo_conv_inv as [am I]. exists am. eapply demo_request_inv; [done|exact I|vm_compute; reflexivity|done]. Qed.

Definition demo_claim : claim_info := mk_claim 2 10 demo_page 7 true DRC_LOCK_EXCLUSIVE.
Definition demo_cvt : cvt_info := mk_cvt 0 0 0 0 demo_page 0 0 0 0 0.

Lemma demo_wpage_ok : page_ok demo_wpage.
Proof. destruct demo_wait_inv as [am I]. eapply (pv_ok _ _ _ _ _ _ _ I demo_page). apply lookup_singleton_eq. Qed.

(** C11: a claim that matches the request under conversion makes its author
    the owner: an exclusive claim leaves one owner, no copy, and keeps the
    past images of the others with that of the old owner; a shared claim
    leaves the owner where it is and adds a copy.  The mode is the claimed
    one and the lsn does not go back.  A claim for no more than the author
    already holds changes nothing but the pending action. *)
Theorem page_claim_owner b c :
  page_ok b -> inst_id (converting b) <> OG_INVALID_ID8 -> drc_is_same_claim_request (converting b) c = true ->
  drc_claim_info_is_invalid c b = false ->
  exists b', drc_claim_new_page_owner c b = Ok b' /\ page_ok b' /\
    ((ci_mode c <= mode b /\ claimed_owner b = new_id c /\ b' = set_pending DRC_RES_INVALID_ACTION b) \/
     (mode b' = ci_mode c /\ buf_lsn b <= buf_lsn b' /\
      (ci_mode c <> DRC_LOCK_SHARE -> claimed_owner b' = new_id c /\ readonly_copies b' = 0 /\
        (forall i, bm_mem (edp_map b') i <->
          (bm_mem (edp_map b) i /\ i <> new_id c) \/ (has_edp c = true /\ i = claimed_owner b))) /\
      (ci_mode c = DRC_LOCK_SHARE -> claimed_owner b' = claimed_owner b /\
       (forall i, bm_mem (readonly_copies b') i <-> bm_mem (readonly_copies b) i \/ i = new_id c)))).
Proof.
  intros H1 H2 H3 H4. destruct (claim_new_owner_ok b c H1 H2 H3 H4) as (b' & E & Hok & _ & _ & _ & _ & _ & Hc).
  exists b'. split_and!; done.
Qed.

Lemma page_claim_owner_witness : exists b', drc_claim_new_page_owner demo_claim demo_wpage = Ok b' /\ page_ok b' /\
  claimed_owner b' = 2 /\ mode b' = DRC_LOCK_EXCLUSIVE.
Proof.
  destruct (page_claim_owner demo_wpage demo_claim demo_wpage_ok) as (b' & E & Hok & _).
  - vm_compute. discriminate.
  - reflexivity.
  - reflexivity.
  - exists b'. split; [exact E|]. split; [exact Hok|]. vm_compute in E. injection E as <-. split; reflexivity.
Defined.



(** C13: a claim for a page the master knows, when it is the one the master
    waits for ([claim_due]: it names the request under conversion, a past
    image comes with an exclusive claim and its lsn, the lsn does not go
    back), has the effect of [page_claim_owner] on the page and gives the turn to the next
    waiter by the rules of [page_claim_next]: the waiters it turns away are told and their
    items go back to the pool, the new request is passed on to the owner, and
    the copies of the others are invalidated exactly when it is exclusive and
    there are some, and forgotten exactly when that succeeds.  Any other claim
    changes nothing.  The catalogue changes at this page only.  No other
    thread acts while the copies are invalidated. *)
Theorem page_claim_known page_size now inv c cvt t A f F Sp am ab :
  page_inv page_size t A f F Sp am -> A !! ci_page_id c = Some ab ->
  exists msgs cvt' t' f' ab', drc_claim_page_owner now inv (fun t => t) c cvt t = Ok (msgs, cvt', t') /\
    page_inv page_size t' (<[ci_page_id c := ab']> A) f' F Sp am /\
    ((~ claim_due c ab /\ msgs = [] /\ f' = f /\ ab' = ab /\ cvt_req_id cvt' = OG_INVALID_ID8) \/
     (claim_due c ab /\ exists ab1 n ab2, claim_effect c ab ab1 /\ convert_q ab1 = convert_q ab /\
        next_turn now ab1 msgs n ab2 /\ f' = f + n /\ passed_on cvt' ab2 /\
        ((~ (busy ab2 /\ must_invalidate (Converting false) ab2) /\ ab' = ab2) \/
         (busy ab2 /\ must_invalidate (Converting false) ab2 /\
          ab' = match inv with OG_SUCCESS => set_readonly_copies 0 ab2 | OG_ERROR => ab2 end)))).
Proof. apply claim_known_ruled. Qed.

Lemma demo_claim_due : claim_due demo_claim demo_wpage.
Proof.
  split; [discriminate|]. split; [reflexivity|]. split; [reflexivity|]. split; [reflexivity|].
  split; [intros _ _; split; [reflexivity|discriminate]|]. intros _. discriminate.
Qed.

Lemma page_claim_known_witness : exists msgs cvt' t' ab1 n ab2,
  drc_claim_page_owner 200 OG_SUCCESS (fun t => t) demo_claim demo_cvt demo_wait = Ok (msgs, cvt', t') /\
  claim_effect demo_claim demo_wpage ab1 /\ next_turn 200 ab1 msgs n ab2 /\ passed_on cvt' ab2.
Proof.
  destruct demo_wait_inv as [am I].
  destruct (page_claim_known 8192 200 OG_SUCCESS demo_claim demo_cvt demo_wait _ _ _ _ _ demo_wpage I) as
    (msgs & cvt' & t' & f' & ab' & E & _ & [(Hn & _)|(_ & ab1 & n & ab2 & He & _ & Ht & _ & Hp & _)]).
  - apply lookup_singleton_eq.
  - exfalso. exact (Hn demo_claim_due).
  - exists msgs, cvt', t', ab1, n, ab2. split; [exact E|]. split; [exact He|]. split; [exact Ht|exact Hp].
Defined.

(** C14: on a well-formed table every claim, whatever it says, ends without a
    panic or a bad address and leaves a well-formed table.  Assumed of the
    window in which the copies are invalidated ([env_busy]): the other threads
    keep the table well-formed, and the page under conversion stays in its
    slot and keeps an owner (its owner does not crash there). *)
Theorem page_claim_safe page_size now inv env c cvt t A f F Sp am :
  page_inv page_size t A f F Sp am -> (forall i, env_busy page_size ∅ (ci_page_id c) i env) ->
  exists msgs cvt' t' A' f' F' Sp' am', drc_claim_page_owner now inv env c cvt t = Ok (msgs, cvt', t') /\
    page_inv page_size t' A' f' F' Sp' am'.
Proof. apply claim_safe. Qed.

Lemma page_claim_safe_witness : exists msgs cvt' t' A' f' F' Sp' am',
  drc_claim_page_owner 200 OG_SUCCESS (fun t => t) demo_claim demo_cvt demo_wait = Ok (msgs, cvt', t') /\
  page_inv 8192 t' A' f' F' Sp' am'.
Proof.
  destruct demo_wait_inv as [am I]. apply (page_claim_safe 8192 200 OG_SUCCESS (fun t => t) demo_claim demo_cvt _ _ _ _ _ _ I).
  intros. apply env_busy_id.
Defined.

(** ** Releases, past images, owners *)

(** A release takes the page out of the catalogue exactly when it comes
    from the owner, nobody is converting and no past image is left; its slot
    goes back to the pool.  In every other case the table is untouched, and
    the answer tells whether the releaser may forget the page. *)
Theorem page_release page_size old_id t A f F Sp am k ab :
  page_inv page_size t A f F Sp am -> A !! k = Some ab ->
  exists t' am', drc_release_page_owner old_id k t = Ok (fst (release_spec old_id ab), t') /\
    page_inv page_size t' (if snd (release_spec old_id ab) then delete k A else A) f F Sp am' /\
    (snd (release_spec old_id ab) = false -> t' = t).
Proof. apply release_ok. Qed.

Lemma page_release_witness : exists t' am', drc_release_page_owner 1 demo_page demo_owned = Ok (true, t') /\
  page_inv 8192 t' (delete demo_page {[demo_page := demo_apage]}) 4 ∅ ∅ am'.
Proof.
  destruct demo_owned_inv as [am I].
  destruct (page_release 8192 1 demo_owned _ _ _ _ _ demo_page demo_apage I) as (t' & am' & E & I' & _).
  - apply lookup_singleton_eq.
  - exists t', am'. split; [exact E|exact I'].
Defined.

(** The past images of a page are forgotten once a version at least as
    recent as the last claimed one is on disk, and only then. *)
Theorem page_clean_edp page_size lsn t A f F Sp am k ab :
  page_inv page_size t A f F Sp am -> A !! k = Some ab ->
  exists t', drc_clean_edp_info k lsn t = Ok (OG_SUCCESS, t') /\
    page_inv page_size t'
      (if buf_lsn ab <=? lsn then <[k := set_latest_edp OG_INVALID_ID8 0 (set_edp_map 0 ab)]> A else A) f F Sp am.
Proof. apply clean_edp_ok. Qed.

Lemma page_clean_edp_witness : exists t' am, drc_clean_edp_info demo_page 9 demo_owned = Ok (OG_SUCCESS, t') /\
  page_inv 8192 t' (<[demo_page := set_latest_edp OG_INVALID_ID8 0 (set_edp_map 0 demo_apage)]> {[demo_page := demo_apage]})
    4 ∅ ∅ am.
Proof.
  destruct demo_owned_inv as [am I].
  destruct (page_clean_edp 8192 9 demo_owned _ _ _ _ _ demo_page demo_apage I) as (t' & E & I').
  - apply lookup_singleton_eq.
  - exists t', am. split; [exact E|exact I'].
Defined.

(** What the master reports of the past images of a page is what the
    catalogue holds, and nothing for a page it does not know. *)
Theorem page_get_edp page_size t A f F Sp am k :
  page_inv page_size t A f F Sp am ->
  drc_get_edp_info k t = Ok ((fun ab => mk_edp (edp_map ab) (buf_lsn ab) (readonly_copies ab) (latest_edp ab)) <$> A !! k).
Proof. apply get_edp_ok. Qed.

Lemma page_get_edp_witness : drc_get_edp_info demo_page demo_owned = Ok (Some (mk_edp 0 0 0 OG_INVALID_ID8)).
Proof. destruct demo_owned_inv as [am I]. exact (page_get_edp 8192 demo_owned _ _ _ _ _ demo_page I). Defined.

(** Asked for the owner of a page, the master answers with the owner of
    the catalogue; when there is none and recovery is done it first makes one
    of a copy or of the latest past image, without a panic. *)
Theorem page_get_owner page_size v t A f F Sp am k ab :
  page_inv page_size t A f F Sp am -> A !! k = Some ab ->
  exists t', drc_get_page_owner_id v false k t =
      Ok (OG_SUCCESS, claimed_owner (owner_spec v ab), pending (owner_spec v ab), t') /\
    page_inv page_size t' (<[k := owner_spec v ab]> A) f F Sp am.
Proof. apply get_owner_ok. Qed.

Lemma page_get_owner_witness : exists t' am, drc_get_page_owner_id demo_view false demo_page demo_owned =
    Ok (OG_SUCCESS, 1, DRC_RES_INVALID_ACTION, t') /\
  page_inv 8192 t' (<[demo_page := demo_apage]> {[demo_page := demo_apage]}) 4 ∅ ∅ am.
Proof.
  destruct demo_owned_inv as [am I].
  destruct (page_get_owner 8192 demo_view demo_owned _ _ _ _ _ demo_page demo_apage I) as (t' & E & I').
  - apply lookup_singleton_eq.
  - exists t', am. split; [exact E|exact I'].
Defined.

(** ** Recycling *)

(** C34: on a well-formed table [drc_recycle_items], in batch or for one
    requester, ends without a panic, leaves a well-formed table, and the slot
    it hands to the requester is allocated and linked nowhere.  Assumed of its
    windows ([renv_ok]): the other threads keep the table well-formed; between
    the look at a slot and the lock of its page the slot is not given to
    another page (the code does not look again, as the finding on line 861
    says); and a page marked as being recycled is changed by nobody but a
    reform that removes it, as every handler refuses such a page. *)
Theorem page_recycle_items page_size e is_batch t A f F Sp am :
  page_inv page_size t A f F Sp am -> renv_ok page_size e ->
  exists idx t', drc_recycle_items e is_batch t = Ok (idx, t') /\ recycled_ok page_size is_batch idx t'.
Proof. apply recycle_items_ok. Qed.

Lemma page_recycle_items_witness : exists idx t', drc_recycle_items demo_renv true demo_owned = Ok (idx, t') /\
  recycled_ok 8192 true idx t'.
Proof.
  destruct demo_owned_inv as [am I].
  apply (page_recycle_items 8192 demo_renv true demo_owned _ _ _ _ _ I). apply demo_renv_ok.
Defined.

(** An owner's demand to recycle its page, when it is current and the
    page is idle, takes the page out of the catalogue if every copy could be
    invalidated, and otherwise leaves the page as it was, usable again. *)
Theorem page_recycle_demanded page_size node_count v ret env inst time k t A f F Sp am ab :
  page_inv page_size t A f F Sp am -> A !! k = Some ab -> demand_ok inst time ab = true ->
  (forall i, env_frozen page_size i k env) -> is_inst inst -> inst < node_count -> IS_INVALID_PAGID k = false ->
  drc_remaster_in_progress v = false ->
  exists t1 A1 f1 F1 Sp1 am1 t' A' Sp' am', drc_buf_res_recycle node_count v ret env inst time k t = Ok t' /\
    page_inv page_size (env t1) A1 f1 F1 Sp1 am1 /\ page_inv page_size t' A' f1 F1 Sp' am' /\
    ((A1 !! k = None /\ A' = A1) \/
     (A1 !! k = Some (set_pending DRC_RES_PENDING_ACTION ab) /\
      A' = match ret with OG_SUCCESS => delete k A1 | OG_ERROR => <[k := ab]> A1 end)).
Proof. apply recycle_demanded. Qed.

Lemma page_recycle_demanded_witness : exists t' A' f' F' Sp' am',
  drc_buf_res_recycle 4 demo_view OG_SUCCESS (fun t => t) 1 500 demo_page demo_owned = Ok t' /\
  page_inv 8192 t' A' f' F' Sp' am' /\ A' !! demo_page = None.
Proof.
  destruct demo_owned_inv as [am I].
  destruct (page_recycle_demanded 8192 4 demo_view OG_SUCCESS (fun t => t) 1 500 demo_page demo_owned _ _ _ _ _ demo_apage I)
    as (t1 & A1 & f1 & F1 & Sp1 & am1 & t' & A' & Sp' & am' & E & _ & I' & HA).
  - apply lookup_singleton_eq.
  - reflexivity.
  - intros. apply env_frozen_id.
  - vm_compute; split; [discriminate|reflexivity].
  - reflexivity.
  - reflexivity.
  - reflexivity.
  - exists t', A', f1, F1, Sp', am'. split; [exact E|]. split; [exact I'|].
    destruct HA as [[? ->]|[_ ->]]; [done|]. apply lookup_delete_eq.
Defined.

(** C35: a demand to recycle a page that does not come from its owner, that
    is not newer than the last request for the page, or that meets a page
    without owner, being recycled or with a request under conversion, changes
    nothing. *)
Theorem page_recycle_refused page_size node_count v ret env inst time k t A f F Sp am ab :
  page_inv page_size t A f F Sp am -> A !! k = Some ab ->
  claimed_owner ab <> inst \/ claimed_owner ab = OG_INVALID_ID8 \/ pending ab <> DRC_RES_INVALID_ACTION \/
    time <= req_time (converting ab) \/ inst_id (converting ab) <> OG_INVALID_ID8 ->
  drc_buf_res_recycle node_count v ret env inst time k t = Ok t.
Proof.
  intros I Hk Hd. apply (recycle_refused page_size node_count v ret env inst time k t A f F Sp am ab I Hk).
  by apply demand_refused.
Qed.

(** The owner's own demand, while another request is under conversion. *)
Lemma page_recycle_refused_witness :
  drc_buf_res_recycle 4 demo_view OG_SUCCESS (fun t => t) 1 500 demo_page demo_conv = Ok demo_conv.
Proof.
  destruct demo_conv_inv as [am I].
  apply (page_recycle_refused 8192 4 demo_view OG_SUCCESS (fun t => t) 1 500 demo_page demo_conv _ _ _ _ _ demo_cpage I).
  - apply lookup_singleton_eq.
  - do 4 right. discriminate.
Defined.

(** ** A crashed instance *)

(** C17: cleaning a partition after the crash of an instance ends without a
    panic and keeps the table well-formed; if the remaster does not fail on
    the way, every page of the partition is either gone, its slot free again,
    or has nothing left of the crashed instance and nobody waiting; every
    waiter of a surviving instance has been told, and no page of another
    partition has changed. *)
Theorem page_crash_cleaned page_size self inst lbuf failed q t A f F Sp am :
  rcy_inv page_size t A f F Sp am -> is_inst self -> is_inst inst -> self <> inst -> 0 <= q < DRC_MAX_PART_NUM ->
  exists ended msgs t' A' f' am',
    drc_clean_page_owner_by_part true failed self inst lbuf q t = Ok (Some (ended, msgs, t')) /\
    rcy_inv page_size t' A' f' F Sp am' /\ (forall k, drc_page_partid page_size k <> q -> A' !! k = A !! k) /\
    ((forall n, failed n = false) -> ended = true /\
     forall k ab, A !! k = Some ab -> drc_page_partid page_size k = q -> key_done self inst lbuf k ab (A' !! k) msgs).
Proof. intros I Hs Hi Hne Hq. exact (clean_by_part_ok _ _ _ _ _ _ _ _ _ _ _ _ Hs Hi Hne Hq I). Qed.

Lemma page_crash_cleaned_witness : exists msgs t' A' f' am',
  drc_clean_page_owner_by_part true (fun _ => false) 0 1 (fun _ => None) (drc_page_partid 8192 demo_page) demo_wait =
    Ok (Some (true, msgs, t')) /\ rcy_inv 8192 t' A' f' ∅ ∅ am' /\
  error_to (set_owner_result 4 (demo_req 3 DRC_LOCK_EXCLUSIVE)) ∈ msgs.
Proof.
  destruct demo_wait_inv as [am I].
  destruct (page_crash_cleaned 8192 0 1 (fun _ => None) (fun _ => false) (drc_page_partid 8192 demo_page) demo_wait
    _ _ _ _ _ (page_inv_rcy _ _ _ _ _ _ _ I)) as (ended & msgs & t' & A' & f' & am' & E & I' & _ & Hend).
  - vm_compute; split; [discriminate|reflexivity].
  - vm_compute; split; [discriminate|reflexivity].
  - discriminate.
  - apply page_partid_range.
  - destruct (Hend (fun _ => eq_refl)) as [-> Hd]. exists msgs, t', A', f', am'. split; [exact E|]. split; [exact I'|].
    destruct (Hd demo_page demo_wpage (lookup_singleton_eq _ _) eq_refl) as (_ & _ & Hm). apply Hm; [by left|discriminate].
Defined.

(** The report of a surviving instance about a page it has cached is
    entered in the catalogue: in the resource of the page, or in a new one
    made of the slot provided; no other page changes. *)
Theorem page_rcy_report page_size pi inst idx t A f F Sp am :
  rcy_inv page_size t A f F Sp am -> is_inst inst -> idx ∈ Sp ->
  let k := pi_page_id pi in
  exists used t' A' am', drc_rcy_page_info page_size pi inst idx t = Ok (used, t') /\
    (used = true <-> A !! k = None) /\ A' !! k = collect_page (A !! k) (inst, pi) /\
    (forall k', k' <> k -> A' !! k' = A !! k') /\
    rcy_inv page_size t' A' f F (if used then Sp ∖ {[idx]} else Sp) am'.
Proof. apply rcy_page_info_ok. Qed.

Lemma page_rcy_report_witness : exists t0 idx used t' A' am', drc_rcy_page_info 8192
    (mk_pinfo demo_page DRC_LOCK_SHARE false 0) 2 idx t0 = Ok (used, t') /\
  A' !! demo_page = collect_page None (2, mk_pinfo demo_page DRC_LOCK_SHARE false 0) /\
  rcy_inv 8192 t' A' 4 ∅ (if used then ({[idx]} ∪ ∅) ∖ {[idx]} else {[idx]} ∪ ∅) am'.
Proof.
  destruct (page_alloc 8192 demo_tab _ _ _ _ _ demo_tab_inv) as [[Hf _]|(_ & i & t1 & _ & _ & _ & I1)]; [by vm_compute in Hf|].
  destruct (page_rcy_report 8192 (mk_pinfo demo_page DRC_LOCK_SHARE false 0) 2 i t1 _ _ _ _ _ (page_inv_rcy _ _ _ _ _ _ _ I1))
    as (used & t' & A' & am' & E & _ & HA & _ & I').
  - vm_compute; split; [discriminate|reflexivity].
  - apply elem_of_union_l, elem_of_singleton. reflexivity.
  - exists t1, i, used, t', A', am'. split; [exact E|]. split; [exact HA|exact I'].
Defined.

(** A page rebuilt from the reports of the survivors, in whatever order
    they come, is one the request handler accepts, and says what they said:
    the owner is the holder in exclusive mode, the copies are the holders in
    shared mode, the past images are those reported, and the latest is the
    one with the greatest lsn. *)
Theorem page_rebuilt rs :
  reports_ok rs -> rs <> [] -> exists b, foldl collect_page None rs = Some b /\ page_ok b /\ rebuilt rs b.
Proof. intros RO Hne. destruct (collect_rebuilt rs RO Hne) as (b & E & RB). exists b. eauto using rebuilt_ok. Qed.

Lemma page_rebuilt_witness :
  let rs := [(2, mk_pinfo demo_page DRC_LOCK_NULL true 5); (3, mk_pinfo demo_page DRC_LOCK_EXCLUSIVE false 9);
             (4, mk_pinfo demo_page DRC_LOCK_NULL true 8)] in
  exists b, foldl collect_page None rs = Some b /\ page_ok b /\ claimed_owner b = 3 /\ latest_edp b = 4.
Proof.
  intros rs. destruct (page_rebuilt rs) as (b & E & Hok & _).
  - assert (forall x, x ∈ rs -> x = (2, mk_pinfo demo_page DRC_LOCK_NULL true 5) \/
      x = (3, mk_pinfo demo_page DRC_LOCK_EXCLUSIVE false 9) \/ x = (4, mk_pinfo demo_page DRC_LOCK_NULL true 8)) as Hin.
    { intros x. unfold rs. rewrite !elem_of_cons, elem_of_nil. tauto. }
    split.
    + intros i pi [[= -> ->]|[[= -> ->]|[= -> ->]]]%Hin; vm_compute; split; (discriminate || reflexivity).
    + intros i pi pi' [[= -> ->]|[[= -> ->]|[= -> ->]]]%Hin [[= ->]|[[= ->]|[= ->]]]%Hin; reflexivity.
    + intros i pi [[= -> ->]|[[= -> ->]|[= -> ->]]]%Hin; cbn; rewrite !elem_of_cons; tauto.
    + intros i pi j pj [[= -> ->]|[[= -> ->]|[= -> ->]]]%Hin [[= -> ->]|[[= -> ->]|[= -> ->]]]%Hin H1 H2;
        try reflexivity; discriminate H1 || (exfalso; apply H2; reflexivity).
    + intros i pi [[= -> ->]|[[= -> ->]|[= -> ->]]]%Hin H1; cbn; lia || discriminate H1.
  - discriminate.
  - exists b. split; [exact E|]. split; [exact Hok|]. injection E as <-. split; reflexivity.
Defined.

(** A page shared by its owner, whose copies have just been invalidated
    for a converting request, and of which another instance keeps a past
    image, is left by the crash of its owner in a state the request handler
    does not accept: the choice of a new owner panics, before and after the
    instance with the past image has reported it. *)
Theorem page_crash_after_invalidation :
  let ab := mk_buf 1 3 DRC_RES_INVALID_ACTION 6 DRC_LOCK_SHARE demo_page
              (set_owner_result 3 (demo_req 2 DRC_LOCK_EXCLUSIVE)) [] true (drc_bitmap64_set 0 3) 6 0 in
  page_ok ab /\
  exists m ab', clean_page_resource 0 1 None 4 ab = Ok (m, false, 4, ab') /\
    drc_clean_buf_res ab' = Crash Panic /\
    drc_clean_buf_res (drc_update_page_info (mk_pinfo demo_page DRC_LOCK_NULL true 6) 3 ab') = Crash Panic.
Proof.
  split.
  - split; cbn; auto with drc; try done; try (by right); try (by intros H; exfalso; apply H).
  - eexists _, _. split; [vm_compute; reflexivity|]. split; vm_compute; reflexivity.
Qed.

(** ** Hash maps and partition lists *)

(** In a table of resources (its hash map and its partition lists), the
    lookup of an identifier finds the slot of its resource and nothing else;
    after a resource has been taken out, it is found no more, and every other
    one still is. *)
Theorem table_lookup_remove {B K} `{QueuedRes B K} hashf partf (partf_range : forall k, 0 <= partf k < DRC_MAX_PART_NUM)
    (t : res_tab B) A f F Sp am k i ab :
  tab_rep hashf partf t A f F Sp am -> A !! k = Some ab -> am !! k = Some i -> qr_queue ab = [] ->
  tb_lookup t (tb_hash hashf t k) k = Ok (Some i) /\
  exists g1 g2 g3 g4, gr_map_remove (tb_res t) (tb_hash hashf t k) k = Ok g1 /\ gr_list_del g1 i = Ok g2 /\
    gr_memset g2 i = Ok g3 /\ gr_free g3 i = Ok g4 /\
    let t' := tb_set_res g4 t in
    tab_rep hashf partf t' (delete k A) f F Sp (delete k am) /\
    tb_lookup t' (tb_hash hashf t' k) k = Ok None /\
    forall k', k' <> k -> tb_lookup t' (tb_hash hashf t' k') k' = Ok (am !! k').
Proof.
  intros R Hk Hi Hq. split; [by rewrite (tab_lookup _ _ _ _ _ _ _ _ _ R), Hi|].
  destruct (tab_retire _ _ partf_range t A f F Sp am k i ab R Hk Hi Hq) as (g1 & a & g2 & g3 & g4 & E1 & _ & _ & _ & E2 & E3 & E4 & R' & _).
  exists g1, g2, g3, g4. cbv zeta. split_and!; try done.
  - by rewrite (tab_lookup _ _ _ _ _ _ _ _ _ R'), lookup_delete_eq.
  - intros k' Hk'. by rewrite (tab_lookup _ _ _ _ _ _ _ _ _ R'), lookup_delete_ne.
Qed.

Lemma table_lookup_remove_witness : exists i g1 g2 g3 g4,
  tb_lookup demo_owned (buf_bucket demo_owned demo_page) demo_page = Ok (Some i) /\
  gr_map_remove (tb_res demo_owned) (buf_bucket demo_owned demo_page) demo_page = Ok g1 /\ gr_list_del g1 i = Ok g2 /\
  gr_memset g2 i = Ok g3 /\ gr_free g3 i = Ok g4 /\
  tb_lookup (tb_set_res g4 demo_owned) (buf_bucket (tb_set_res g4 demo_owned) demo_page) demo_page = Ok None.
Proof.
  destruct demo_owned_inv as [am I]. pose proof (pv_rep _ _ _ _ _ _ _ I) as R.
  assert (is_Some (am !! demo_page)) as [i Hi] by (apply (tr_dom _ _ _ _ _ _ _ _ R); rewrite lookup_singleton_eq; eauto).
  destruct (table_lookup_remove drc_page_id_hash (drc_page_partid 8192) (page_partid_range 8192) demo_owned _ _ _ _ _
    demo_page i demo_apage R (lookup_singleton_eq _ _) Hi eq_refl) as (E & g1 & g2 & g3 & g4 & E1 & E2 & E3 & E4 & _ & E5 & _).
  exists i, g1, g2, g3, g4. split_and!; assumption.
Defined.
