(* ===== verification/DrcLock.v ===== *)
(** The lock master: the distributed locks this instance is the master of
    ([drc_master_res_t], src/pkg/src/cluster/dtc_drc.h) and the handlers of
    the requests, claims and releases it serves
    (src/pkg/src/cluster/dtc_drc.c).

    As for the pages, a function on one lock is written over the operations
    of [QueueOps] on its convert queue, and a handler over the table of locks
    and the pool of waiting requests.  A handler that gives up the bucket lock
    and takes it again gets the state the other threads leave it
    ([env : ltab -> ltab]) and a new [view] of the reform. *)

From S2P Require Import Prelude DrcBitmap DrcPool DrcResMap DrcList DrcGlobalRes DrcQueue DrcTable DrcReform.

(** [DRC_LOCK_MODE_MAX] and [DR_TYPE_TABLE]. *)
Definition DRC_LOCK_MODE_MAX : Z := 3.
Definition DR_TYPE_TABLE : Z := 3.
Definition OG_INVALID_ID64 : Z := 2 ^ 64 - 1.

(** [g_mode_compatible_matrix]. *)
Definition g_mode_compatible_matrix : list (list Z) := [[1; 1; 1]; [1; 1; 0]; [1; 0; 0]].

Definition mode_compatible (req held : Z) : outcome bool :=
  match g_mode_compatible_matrix !! Z.to_nat req with
  | Some row => match row !! Z.to_nat held with Some x => Ok (1 =? x) | None => Crash BadAddr end
  | None => Crash BadAddr
  end.

(** ** Lock ids and their hash *)

(** The bytes of a [width]-byte little-endian integer. *)
Fixpoint le_bytes (width : nat) (x : Z) : list Z :=
  match width with O => [] | S w => x mod 256 :: le_bytes w (x / 256) end.

(** The 24 bytes of a [drid_t]; [pad] are those of its last member
    ([reserve]), which [DLS_INIT_DR_RES] does not write. *)
Definition drid_bytes (pad : list Z) (d : drid) : list Z :=
  le_bytes 2 (dr_type d) ++ le_bytes 2 (dr_uid d) ++ le_bytes 4 (dr_id d) ++ le_bytes 4 (dr_idx d) ++
  le_bytes 4 (dr_part d) ++ le_bytes 4 (dr_parentpart d) ++ le_bytes 1 (dr_is_shadow d) ++ pad.

(** The value of a [char]: signed or not, as the platform has it. *)
Definition char_value (signed : bool) (x : Z) : Z := if signed && (128 <=? x) then x - 256 else x.

(** [drc_resource_id_hash]. *)
Definition drc_resource_id_hash (signed : bool) (id : list Z) (range : Z) : Z :=
  foldl (fun hash c => u32 (u32 (hash * 131) + char_value signed c)) 0 id mod range.

(** ** The lock resource *)

(** [drc_master_res_t]: the members other than the links, which [DrcGlobalRes]
    models. *)
Record master_res (Q : Type) := mk_master {
  lk_res_id : drid;
  lk_mode : Z;
  lk_granted_map : Z;
  lk_converting : drc_req_info;
  lk_convert_q : Q;
}.
Arguments mk_master {Q} _ _ _ _ _.
Arguments lk_res_id {Q} _.
Arguments lk_mode {Q} _.
Arguments lk_granted_map {Q} _.
Arguments lk_converting {Q} _.
Arguments lk_convert_q {Q} _.

Section LkFields.
Context {Q : Type}.
Implicit Types (b : master_res Q).
Definition lk_set_mode x b : master_res Q :=
  mk_master (lk_res_id b) x (lk_granted_map b) (lk_converting b) (lk_convert_q b).
Definition lk_set_granted x b : master_res Q :=
  mk_master (lk_res_id b) (lk_mode b) x (lk_converting b) (lk_convert_q b).
Definition lk_set_converting x b : master_res Q :=
  mk_master (lk_res_id b) (lk_mode b) (lk_granted_map b) x (lk_convert_q b).
Definition lk_set_q {Q'} (x : Q') b : master_res Q' :=
  mk_master (lk_res_id b) (lk_mode b) (lk_granted_map b) (lk_converting b) x.
End LkFields.

#[export, refine] Instance master_queued : QueuedRes master_res drid := {|
  qr_queue := fun Q => lk_convert_q;
  qr_with := fun Q Q' => lk_set_q;
  qr_key := fun Q => lk_res_id;
  qr_zero := mk_master (mk_drid 0 0 0 0 0 0 0) 0 0 (mk_req 0 0 0 0 0 0 0 0 0 0) (mk_list 0 0 0);
|}.
Proof. all: try done. by intros Q []. Defined.

(** [lock_claim_info_t] and [drc_recovery_lock_res_t]. *)
Record lock_claim := mk_lclaim { lc_new_id : Z; lc_mode : Z; lc_sid : Z }.
Record rcy_lock := mk_rlock { rl_res_id : drid; rl_lock_mode : Z }.

(** What a request handler leaves in its result and its two out parameters. *)
Record lock_reply := mk_reply { lr_status : status; lr_granted : bool; lr_old_map : Z }.

Section LockOne.
Context {S Q It : Type} `{QueueOps S Q It}.
Implicit Types (b : master_res Q).

(** [drc_convert_lock_owner]. *)
Definition drc_convert_lock_owner (s : S) b : outcome (S * master_res Q) :=
  if q_count (lk_convert_q b) =? 0
  then Ok (s, lk_set_converting (set_inst_id OG_INVALID_ID8 (lk_converting b)) b)
  else
    let item := q_head (lk_convert_q b) in
    panic_unless q_valid item ;;
    r ← q_read s item;
    q ← q_unlink s (lk_convert_q b);
    s ← q_free s item;
    panic_unless negb (inst_id r =? OG_INVALID_ID8) ;;
    Ok (s, lk_set_converting r (lk_set_q q b)).

(** The answer to a request that may be converted now. *)
Definition lock_answer (req : Z) (compat_map : Z) b : outcome lock_reply :=
  c ← mode_compatible req (lk_mode b);
  Ok (if c : bool then mk_reply OG_SUCCESS true compat_map
      else mk_reply OG_SUCCESS false (lk_granted_map b)).

(** [drc_request_lock_owner] on a known lock, up to the wait; [None] when
    the requester is to wait. *)
Definition request_on_lock (s : S) b (r : drc_req_info) (out0 : lock_reply) :
    outcome (option lock_reply * S * master_res Q) :=
  if DRC_LOCK_EXCLUSIVE <? lk_mode b then Ok (Some (mk_reply OG_ERROR (lr_granted out0) (lr_old_map out0)), s, b)
  else if inst_id (lk_converting b) =? OG_INVALID_ID8 then
    a ← lock_answer (req_mode r) 0 b;
    panic_unless q_count (lk_convert_q b) =? 0 ;;
    Ok (Some a, s, lk_set_converting r b)
  else if drc_bitmap64_exist (lk_granted_map b) (inst_id r)
  then Ok (Some (mk_reply OG_ERROR false (lr_old_map out0)), s, b)
  else
    o ← q_enqueue s (lk_convert_q b) r;
    match o with
    | None => Ok (Some (mk_reply OG_ERROR (lr_granted out0) (lr_old_map out0)), s, b)
    | Some (s, q) => Ok (None, s, lk_set_q q b)
    end.

(** [drc_try_request_lock_owner] on a known lock. *)
Definition try_on_lock b (r : drc_req_info) (out0 : lock_reply) : outcome (lock_reply * master_res Q) :=
  let fail := mk_reply OG_ERROR (lr_granted out0) (lr_old_map out0) in
  if DRC_LOCK_EXCLUSIVE <? lk_mode b then Ok (fail, b)
  else if inst_id (lk_converting b) =? OG_INVALID_ID8 then
    a ← lock_answer (req_mode r) (lk_granted_map b) b;
    panic_unless q_count (lk_convert_q b) =? 0 ;;
    Ok (a, lk_set_converting r b)
  else Ok (fail, b).

(** [drc_claim_lock_owner] on the lock. *)
Definition claim_on_lock (s : S) b (c : lock_claim) : outcome (S * master_res Q) :=
  panic_unless (lc_new_id c =? inst_id (lk_converting b)) && (lc_mode c =? req_mode (lk_converting b)) ;;
  let b := if lc_mode c =? DRC_LOCK_EXCLUSIVE then lk_set_granted 0 b else b in
  panic_unless negb (drc_bitmap64_exist (lk_granted_map b) (lc_new_id c)) || (dr_type (lk_res_id b) =? DR_TYPE_TABLE) ;;
  let b := lk_set_mode (req_mode (lk_converting b))
             (lk_set_granted (drc_bitmap64_set (lk_granted_map b) (lc_new_id c)) b) in
  drc_convert_lock_owner s b.

(** One instance taken out of the map of holders. *)
Definition drop_holder (inst : Z) b : master_res Q :=
  let b := lk_set_granted (drc_bitmap64_clear (lk_granted_map b) inst) b in
  if lk_granted_map b =? 0 then lk_set_mode DRC_LOCK_NULL b else b.

(** The lock [drc_create_lock_res] makes. *)
Definition new_master_res (q0 : Q) (d : drid) : master_res Q := mk_master d DRC_LOCK_NULL 0 g_invalid_req_info q0.

(** The request [drc_rcy_lock_res_info] makes on behalf of a holder. *)
Definition rcy_request (version inst mode : Z) (r : drc_req_info) : drc_req_info :=
  mk_req inst mode DRC_LOCK_MODE_MAX (req_owner_result r) OG_INVALID_ID16 0 0 version OG_INVALID_ID64
         (release_timeout_ticks r).
End LockOne.

(** The table of locks and its shared item pool. *)
Notation ltab := (res_tab master_res).

Section LockHandlers.
Context (signed : bool) (pad : list Z).
Implicit Types (t : ltab) (d : drid).

(** [drc_resource_id_hash] of a lock id. *)
Definition lock_hash (range : Z) d : Z := drc_resource_id_hash signed (drid_bytes pad d) range.
Definition lock_partid d : Z := lock_hash DRC_MAX_PART_NUM d.

(** [drc_get_res_map_bucket] and [drc_res_map_lookup]. *)
Definition lock_bucket t d : Z := lock_hash (bucket_num (res_map (tb_res t))) d.
Definition lock_lookup t d : outcome (option Z) := tb_lookup t (lock_bucket t d) d.

(** [drc_create_lock_res]: [None] when the pool is exhausted. *)
Definition drc_create_lock_res d t : outcome (option ltab) :=
  '(i, t) ← tb_alloc t;
  if i =? OG_INVALID_ID32 then Ok None
  else
    g ← gr_fill (tb_res t) i (new_master_res DRC_LIST_INIT d);
    g ← gr_map_add g (lock_bucket t d) i;
    g ← gr_list_add g i (lock_partid d);
    Ok (Some (tb_set_res g t)).

(** [drc_release_lock_res], the lock being out of the hash map. *)
Definition drc_release_lock_res (i : Z) t : outcome (status * ltab) :=
  b ← tb_get t i;
  if negb (inst_id (lk_converting b) =? OG_INVALID_ID8) || (0 <? lk_granted_map b) then Ok (OG_ERROR, t)
  else
    a ← load (gr_pool (tb_res t)) i;
    g ← gr_list_del (tb_res t) i;
    g ← gr_memset g i;
    g ← gr_free g (item_idx a);
    Ok (OG_SUCCESS, tb_set_res g t).

(** [dls_clear_granted_map_for_inst]. *)
Definition dls_clear_granted_map_for_inst d (inst : Z) t : outcome ltab :=
  o ← lock_lookup t d;
  match o with
  | None => Ok t
  | Some i => b ← tb_get t i; tb_put t i (drop_holder inst b)
  end.

(** The creation of a lock for a first request. *)
Definition request_new_lock d (r : drc_req_info) t : outcome (option ltab) :=
  o ← drc_create_lock_res d t;
  match o with
  | None => Ok None
  | Some t =>
      o ← lock_lookup t d;
      match o with
      | None => Crash BadAddr
      | Some i =>
          b ← tb_get t i;
          t ← tb_put t i (lk_set_converting r b);
          Ok (Some t)
      end
  end.

(** The wait of [drc_request_lock_owner], cut after [n] rounds ([None]):
    [views] and [env] are what the rounds see. *)
Fixpoint lock_wait_loop (n : nat) (views : nat -> view) (env : nat -> ltab -> ltab) (round : nat) (version : Z) d
    (r : drc_req_info) (out0 : lock_reply) (i : Z) t : outcome (option lock_reply * ltab) :=
  match n with
  | O => Ok (None, t)
  | S n' =>
      let t := env round t in
      if DRC_STOP_DLS_REQ_FOR_REFORMING version (views round) d
      then Ok (Some (mk_reply OG_ERROR (lr_granted out0) (lr_old_map out0)), t)
      else
        b ← tb_get t i;
        panic_unless negb (inst_id (lk_converting b) =? OG_INVALID_ID8) ;;
        if inst_id r =? inst_id (lk_converting b) then
          a ← lock_answer (req_mode r) 0 b; Ok (Some a, t)
        else lock_wait_loop n' views env (S round) version d r out0 i t
  end.

(** [drc_request_lock_owner]. *)
Definition drc_request_lock_owner (n : nat) (v : view) (views : nat -> view) (env : nat -> ltab -> ltab) d
    (r : drc_req_info) (version : Z) (out0 : lock_reply) t : outcome (option lock_reply * ltab) :=
  if DRC_STOP_DLS_REQ_FOR_REFORMING version v d
  then Ok (Some (mk_reply OG_ERROR (lr_granted out0) (lr_old_map out0)), t)
  else
    o ← lock_lookup t d;
    match o with
    | None =>
        o ← request_new_lock d r t;
        match o with
        | None => Crash Panic
        | Some t => Ok (Some (mk_reply OG_SUCCESS true 0), t)
        end
    | Some i =>
        b ← tb_get t i;
        '(a, s, b) ← request_on_lock (tb_items t) b r out0;
        t ← tb_put (tb_set_items s t) i b;
        match a with
        | Some a => Ok (Some a, t)
        | None => lock_wait_loop n views env 0 version d r out0 i t
        end
    end.

(** [drc_try_request_lock_owner]. *)
Definition drc_try_request_lock_owner (v0 v : view) d (r : drc_req_info) (version : Z) (out0 : lock_reply) t :
    outcome (lock_reply * ltab) :=
  let fail := mk_reply OG_ERROR (lr_granted out0) (lr_old_map out0) in
  if v_remaster_status v0 <? REMASTER_DONE then Ok (fail, t)
  else if DRC_STOP_DLS_REQ_FOR_REFORMING version v d then Ok (fail, t)
  else
    o ← lock_lookup t d;
    match o with
    | None =>
        o ← request_new_lock d r t;
        match o with
        | None => Ok (fail, t)
        | Some t => Ok (mk_reply OG_SUCCESS true 0, t)
        end
    | Some i =>
        b ← tb_get t i;
        '(a, b) ← try_on_lock b r out0;
        t ← tb_put t i b;
        Ok (a, t)
    end.

(** [drc_cancel_lock_owner_request] ([_nolock], [_nolock_part]). *)
Definition drc_cancel_lock_owner_request (inst : Z) d t : outcome (status * ltab) :=
  o ← lock_lookup t d;
  match o with
  | None => Ok (OG_ERROR, t)
  | Some i =>
      b ← tb_get t i;
      if negb (inst_id (lk_converting b) =? inst) then Ok (OG_SUCCESS, t)
      else
        '(s, b) ← drc_convert_lock_owner (tb_items t) b;
        t ← tb_put (tb_set_items s t) i b;
        Ok (OG_SUCCESS, t)
  end.

(** [drc_claim_lock_owner]. *)
Definition drc_claim_lock_owner (v : view) d (c : lock_claim) (version : Z) (is_remaster : bool) t :
    outcome (status * ltab) :=
  if DRC_STOP_DLS_REQ_FOR_REFORMING version v d && negb is_remaster then Ok (OG_ERROR, t)
  else
    o ← lock_lookup t d;
    match o with
    | None => Crash Panic
    | Some i =>
        b ← tb_get t i;
        '(s, b) ← claim_on_lock (tb_items t) b c;
        t ← tb_put (tb_set_items s t) i b;
        Ok (OG_SUCCESS, t)
    end.

(** [drc_release_lock_owner]. *)
Definition drc_release_lock_owner (old_id : Z) d t : outcome (status * ltab) :=
  o ← lock_lookup t d;
  match o with
  | None => Ok (OG_ERROR, t)
  | Some i =>
      b ← tb_get t i;
      if negb (drc_bitmap64_exist (lk_granted_map b) old_id) then Ok (OG_ERROR, t)
      else
        let b := drop_holder old_id b in
        t ← tb_put t i b;
        if (0 <? lk_granted_map b) || negb (inst_id (lk_converting b) =? OG_INVALID_ID8) then Ok (OG_SUCCESS, t)
        else
          g ← gr_map_remove (tb_res t) (lock_bucket t d) d;
          '(_, t) ← drc_release_lock_res i (tb_set_res g t);
          Ok (OG_SUCCESS, t)
  end.

(** [drc_recycle_dls_master]. *)
Definition drc_recycle_dls_master (v : view) d (version inst : Z) t : outcome (status * ltab) :=
  if DRC_STOP_DLS_REQ_FOR_REFORMING version v d then Ok (OG_ERROR, t)
  else
    o ← lock_lookup t d;
    match o with
    | None => Ok (OG_SUCCESS, t)
    | Some i =>
        b ← tb_get t i;
        let b := lk_set_granted (drc_bitmap64_clear (lk_granted_map b) inst) b in
        t ← tb_put t i b;
        if (inst_id (lk_converting b) =? OG_INVALID_ID8) && (lk_granted_map b =? 0) then
          g ← gr_map_remove (tb_res t) (lock_bucket t d) d;
          '(_, t) ← drc_release_lock_res i (tb_set_res g t);
          Ok (OG_SUCCESS, t)
        else Ok (OG_SUCCESS, t)
    end.

(** The loop of [drc_clean_lock_owner_by_part]; [failed n] is the test of
    [remaster_status] before round [n]. *)
Fixpoint clean_lock_loop (n : nat) (failed : nat -> bool) (round : nat) (inst lock_idx : Z) (msgs : list err_msg) t :
    outcome (bool * list err_msg * ltab) :=
  match n with
  | O => Ok (true, msgs, t)
  | S n' =>
      if failed round then Ok (false, msgs, t)
      else
        a ← load (gr_pool (tb_res t)) lock_idx;
        let d := lk_res_id (body a) in
        '(m, s, q) ← q_clean (tb_items t) (lk_convert_q (body a)) inst;
        t ← tb_put (tb_set_items s t) lock_idx (lk_set_q q (body a));
        '(_, t) ← (if inst_id (lk_converting (body a)) =? inst
                   then drc_cancel_lock_owner_request inst d t else Ok (OG_SUCCESS, t));
        '(_, t) ← (if drc_bitmap64_exist (lk_granted_map (body a)) inst
                   then drc_release_lock_owner inst d t else Ok (OG_SUCCESS, t));
        clean_lock_loop n' failed (S round) inst (ln_next (item_node a)) (msgs ++ m) t
  end.

(** [drc_clean_lock_owner_by_part] on partition [part]. *)
Definition drc_clean_lock_owner_by_part (failed : nat -> bool) (inst part : Z) t : outcome (bool * list err_msg * ltab) :=
  match res_parts (tb_res t) !! part with
  | None => Crash BadAddr
  | Some lst => clean_lock_loop (Z.to_nat (lst_count lst)) failed 0 inst (lst_first lst) [] t
  end.

(** [drc_rcy_lock_res_info]; [vc] is the state the claim reads. *)
Definition drc_rcy_lock_res_info (vc : view) (rl : rcy_lock) (inst : Z) t : outcome (status * ltab) :=
  let d := rl_res_id rl in
  o ← lock_lookup t d;
  o ← match o with
      | None => drc_create_lock_res d t
      | Some i =>
          b ← tb_get t i;
          c ← mode_compatible (rl_lock_mode rl) (lk_mode b);
          Ok (if drc_bitmap64_exist (lk_granted_map b) inst || negb c then None else Some t)
      end;
  match o with
  | None => Ok (OG_ERROR, t)
  | Some t =>
      o ← lock_lookup t d;
      match o with
      | None => Ok (OG_ERROR, t)
      | Some i =>
          b ← tb_get t i;
          t ← tb_put t i (lk_set_converting (rcy_request (v_trigger_version vc) inst (rl_lock_mode rl) (lk_converting b)) b);
          '(_, t) ← drc_claim_lock_owner vc d (mk_lclaim inst (rl_lock_mode rl) OG_INVALID_ID16) (v_trigger_version vc) true t;
          Ok (OG_SUCCESS, t)
      end
  end.
End LockHandlers.
