(* ===== verification/DrcLockInv.v ===== *)
(** What holds of every lock resource, that no operation breaks it, and that
    the operations on linked queues implement those on sequences. *)

From S2P Require Import Prelude DrcBitmap DrcPool DrcList DrcGlobalRes DrcQueue DrcTable DrcReform DrcLock.

(** The abstract lock: its queue is the sequence of requests. *)
Notation alock := (master_res (list drc_req_info)).

(** A mode a lock is requested in. *)
Definition real_mode (m : Z) : Prop := m = DRC_LOCK_SHARE \/ m = DRC_LOCK_EXCLUSIVE.
Definition lock_req (r : drc_req_info) : Prop := is_inst (inst_id r) /\ real_mode (req_mode r).

(** The invariant of a lock. *)
Record lock_ok (b : alock) : Prop := {
  lo_granted : is_u64 (lk_granted_map b);
  lo_mode : lk_mode b = DRC_LOCK_NULL \/ real_mode (lk_mode b);
  (** A free lock has no holder; an exclusive one has at most one. *)
  lo_null : lk_mode b = DRC_LOCK_NULL -> lk_granted_map b = 0;
  lo_excl : lk_mode b = DRC_LOCK_EXCLUSIVE -> forall i j,
    bm_mem (lk_granted_map b) i -> bm_mem (lk_granted_map b) j -> i = j;
  lo_conv : inst_id (lk_converting b) = OG_INVALID_ID8 \/ lock_req (lk_converting b);
  lo_queue : Forall lock_req (lk_convert_q b);
  (** Nobody waits when nobody is converting. *)
  lo_idle : inst_id (lk_converting b) = OG_INVALID_ID8 -> lk_convert_q b = [];
}.

Lemma lock_ok_new d : lock_ok (new_master_res [] d).
Proof. split; cbn; auto with drc; done. Qed.

Lemma lock_req_ne r : lock_req r -> inst_id r <> OG_INVALID_ID8.
Proof. intros [? _]. by apply is_inst_ne. Qed.

(** ** Compatibility *)
Lemma mode_compatible_spec r m :
  real_mode r -> m = DRC_LOCK_NULL \/ real_mode m ->
  mode_compatible r m = Ok (bool_decide (m = DRC_LOCK_NULL \/ (r = DRC_LOCK_SHARE /\ m = DRC_LOCK_SHARE))).
Proof. intros [->| ->] [->|[->| ->]]; reflexivity. Qed.

(** The answer given to a request: it is granted exactly when no holder has a
    conflicting mode, and the holders to be asked are all of them. *)
Definition answer_ok (r : drc_req_info) (compat_map : Z) (b : alock) (a : lock_reply) : Prop :=
  lr_status a = OG_SUCCESS /\
  (lr_granted a = true <-> lk_mode b = DRC_LOCK_NULL \/ (req_mode r = DRC_LOCK_SHARE /\ lk_mode b = DRC_LOCK_SHARE)) /\
  lr_old_map a = (if lr_granted a then compat_map else lk_granted_map b) /\
  (lr_granted a = true -> req_mode r = DRC_LOCK_EXCLUSIVE -> lk_granted_map b = 0).

Lemma lock_answer_ok r m b :
  lock_ok b -> real_mode (req_mode r) -> exists a, lock_answer (req_mode r) m b = Ok a /\ answer_ok r m b a.
Proof.
  intros L Hr. unfold lock_answer. rewrite (mode_compatible_spec _ _ Hr (lo_mode _ L)). cbn [mbind outcome_bind].
  eexists. split; [done|]. case_bool_decide as Hc; split_and!; try done; cbn.
  intros _ Hx. destruct Hc as [?%(lo_null _ L)|[Hs _]]; [done|]. by rewrite Hs in Hx.
Qed.

(** The lock has a mode but no holder, as [drc_recycle_dls_master] leaves it
    when it takes the last one out. *)
Definition left_behind (b : alock) : Prop := lk_granted_map b = 0 /\ lk_mode b <> DRC_LOCK_NULL.

(** The answer in terms of the holders, who all have the lock in its mode. *)
Record holders_answer (r : drc_req_info) (b : alock) (a : lock_reply) : Prop := {
  ha_status : lr_status a = OG_SUCCESS;
  ha_granted : lr_granted a = true ->
    forall i, bm_mem (lk_granted_map b) i -> req_mode r = DRC_LOCK_SHARE /\ lk_mode b = DRC_LOCK_SHARE;
  ha_refused : lr_granted a = false -> lr_old_map a = lk_granted_map b /\
    (req_mode r = DRC_LOCK_EXCLUSIVE \/ lk_mode b = DRC_LOCK_EXCLUSIVE) /\
    ((exists i, bm_mem (lk_granted_map b) i) \/ left_behind b);
}.

Lemma answer_holders r m b a : lock_ok b -> real_mode (req_mode r) -> answer_ok r m b a -> holders_answer r b a.
Proof.
  intros L Hr (Hs & Hg & Hm & _). split; [done| |].
  - intros Ht i Hi. apply Hg in Ht as [Hn|?]; [|done]. apply (lo_null _ L) in Hn. rewrite Hn in Hi.
    by apply (proj1 (bm_zero 0 is_u64_0) eq_refl) in Hi.
  - intros Hf. rewrite Hf in Hm. split; [done|].
    assert (~ (lk_mode b = DRC_LOCK_NULL \/ (req_mode r = DRC_LOCK_SHARE /\ lk_mode b = DRC_LOCK_SHARE))) as Hc
      by (rewrite <- Hg; by rewrite Hf).
    destruct (lo_mode _ L) as [?|Hl]; [tauto|]. split; [destruct Hr, Hl; tauto|].
    destruct (decide (lk_granted_map b = 0)) as [Hz|Hz]; [right; split; tauto|left].
    apply bm_nonzero; [apply L|done].
Qed.

(** ** The next waiter *)
Lemma convert_lock_ok f b :
  lock_ok b -> exists f' b', drc_convert_lock_owner f b = Ok (f', b') /\ lock_ok b' /\
    lk_res_id b' = lk_res_id b /\ lk_mode b' = lk_mode b /\ lk_granted_map b' = lk_granted_map b /\
    match lk_convert_q b with
    | [] => inst_id (lk_converting b') = OG_INVALID_ID8 /\ lk_convert_q b' = [] /\ f' = f
    | r :: rs => lk_converting b' = r /\ lk_convert_q b' = rs /\ f' = f + 1
    end.
Proof.
  intros L. unfold drc_convert_lock_owner. cbn [q_count sequence_queue].
  destruct (lk_convert_q b) as [|r rs] eqn:Hq.
  - cbn [length Z.of_nat Z.eqb]. eexists _, _. split; [done|]. split_and!; try done.
    destruct L. split; cbn; auto.
  - replace (Z.of_nat (length (r :: rs)) =? 0) with false by (symmetry; apply Z.eqb_neq; cbn; lia).
    cbn [q_head q_valid q_read q_unlink q_free sequence_queue head mbind outcome_bind knl_panic].
    pose proof (lo_queue _ L) as HF. rewrite Hq in HF. apply Forall_cons in HF as [Hr Hrs].
    rewrite bool_decide_eq_true_2 by eauto. cbn [knl_panic mbind outcome_bind].
    rewrite (proj2 (Z.eqb_neq _ _) (lock_req_ne _ Hr)). cbn [negb knl_panic mbind outcome_bind].
    eexists _, _. split; [done|]. split_and!; try done.
    destruct L. split; cbn; auto. intros Hn. by apply lock_req_ne in Hr.
Qed.

(** ** The operations on one lock *)
Lemma lock_ok_converting r b :
  lock_ok b -> lk_convert_q b = [] -> lock_req r -> lock_ok (lk_set_converting r b).
Proof. intros [] Hq Hr. split; cbn; auto. Qed.

Lemma request_on_lock_ok f b r out0 :
  lock_ok b -> lock_req r ->
  exists a f' b', request_on_lock f b r out0 = Ok (a, f', b') /\ lock_ok b' /\ lk_res_id b' = lk_res_id b /\
    lk_mode b' = lk_mode b /\ lk_granted_map b' = lk_granted_map b /\
    (inst_id (lk_converting b) = OG_INVALID_ID8 -> lk_converting b' = r /\ exists a', a = Some a' /\ answer_ok r 0 b a') /\
    (inst_id (lk_converting b) <> OG_INVALID_ID8 -> lk_converting b' = lk_converting b /\
      if decide (bm_mem (lk_granted_map b) (inst_id r) \/ f = 0)
      then (exists a', a = Some a' /\ lr_status a' = OG_ERROR) /\ lk_convert_q b' = lk_convert_q b
      else a = None /\ lk_convert_q b' = lk_convert_q b ++ [r] /\ f' = f - 1).
Proof.
  intros L Hr. unfold request_on_lock.
  rewrite (proj2 (Z.ltb_ge _ _)) by (destruct (lo_mode _ L) as [->|[->| ->]]; done).
  destruct (Z.eqb_spec (inst_id (lk_converting b)) OG_INVALID_ID8) as [Hc|Hc].
  - destruct (lock_answer_ok r 0 b L (proj2 Hr)) as (a & -> & Ha). cbn [mbind outcome_bind q_count sequence_queue].
    rewrite (lo_idle _ L Hc). cbn [length Z.of_nat Z.eqb knl_panic mbind outcome_bind].
    eexists _, _, _. split; [done|]. split_and!; try done; [|eauto].
    apply lock_ok_converting; [done|by apply lo_idle|done].
  - destruct (drc_bitmap64_exist (lk_granted_map b) (inst_id r)) eqn:Ex.
    + apply bm_exist_spec in Ex; [|apply Hr]. eexists _, _, _. split; [done|]. split_and!; try done. intros _. split; [done|].
      rewrite decide_True by auto. split; [|done]. by eexists.
    + assert (~ bm_mem (lk_granted_map b) (inst_id r)) as Hn.
      { intros ?. rewrite (proj2 (bm_exist_spec _ _ (proj1 Hr))) in Ex; done. }
      cbn [q_enqueue sequence_queue mbind outcome_bind]. destruct (Z.eqb_spec f 0) as [Hf|Hf].
      * eexists _, _, _. split; [done|]. split_and!; try done. intros _. split; [done|].
        rewrite decide_True by auto. split; [|done]. by eexists.
      * eexists _, _, _. split; [done|]. split_and!; try done; [|intros _; split; [done|]; by rewrite decide_False by tauto].
        destruct L. split; cbn; auto; [|by intros ?]. apply Forall_app. split; [done|]. by apply Forall_singleton.
Qed.

Lemma try_on_lock_ok b r out0 :
  lock_ok b -> lock_req r ->
  exists a b', try_on_lock b r out0 = Ok (a, b') /\ lock_ok b' /\ lk_res_id b' = lk_res_id b /\
    if decide (inst_id (lk_converting b) = OG_INVALID_ID8)
    then b' = lk_set_converting r b /\ answer_ok r (lk_granted_map b) b a
    else b' = b /\ lr_status a = OG_ERROR.
Proof.
  intros L Hr. unfold try_on_lock.
  rewrite (proj2 (Z.ltb_ge _ _)) by (destruct (lo_mode _ L) as [->|[->| ->]]; done).
  destruct (Z.eqb_spec (inst_id (lk_converting b)) OG_INVALID_ID8) as [Hc|Hc].
  - destruct (lock_answer_ok r (lk_granted_map b) b L (proj2 Hr)) as (a & -> & Ha).
    cbn [mbind outcome_bind q_count sequence_queue]. rewrite (lo_idle _ L Hc).
    cbn [length Z.of_nat Z.eqb knl_panic mbind outcome_bind]. eexists _, _. split; [done|].
    split_and!; try done; [|by rewrite decide_True]. apply lock_ok_converting; [done|by apply lo_idle|done].
  - eexists _, _. split; [done|]. split_and!; try done. by rewrite decide_False.
Qed.

(** A claim matches the request under conversion, and its author does not
    hold the lock in shared mode yet. *)
Definition claim_ok (c : lock_claim) (b : alock) : Prop :=
  inst_id (lk_converting b) <> OG_INVALID_ID8 /\
  lc_new_id c = inst_id (lk_converting b) /\ lc_mode c = req_mode (lk_converting b) /\
  (lc_mode c = DRC_LOCK_EXCLUSIVE \/ ~ bm_mem (lk_granted_map b) (lc_new_id c) \/ dr_type (lk_res_id b) = DR_TYPE_TABLE).

(** The lock after the claim: its author holds it in the mode it asked for,
    alone if that is exclusive, and the next waiter is converting. *)
Definition claimed (c : lock_claim) (b b' : alock) : Prop :=
  lk_res_id b' = lk_res_id b /\ lk_mode b' = lc_mode c /\
  (forall i, bm_mem (lk_granted_map b') i <->
     i = lc_new_id c \/ (lc_mode c <> DRC_LOCK_EXCLUSIVE /\ bm_mem (lk_granted_map b) i)) /\
  match lk_convert_q b with
  | [] => inst_id (lk_converting b') = OG_INVALID_ID8 /\ lk_convert_q b' = []
  | r :: rs => lk_converting b' = r /\ lk_convert_q b' = rs
  end.

Lemma claim_on_lock_ok f b c :
  lock_ok b -> claim_ok c b -> exists f' b', claim_on_lock f b c = Ok (f', b') /\ lock_ok b' /\ claimed c b b'.
Proof.
  intros L (Hv & Hi & Hm & Hnew). unfold claim_on_lock.
  destruct (lo_conv _ L) as [?|[Hinst Hreal]]; [done|]. rewrite <- Hi in Hinst. rewrite <- Hm in Hreal.
  rewrite <- Hi, <- Hm, !Z.eqb_refl. cbn [andb knl_panic mbind outcome_bind].
  set (b1 := if lc_mode c =? DRC_LOCK_EXCLUSIVE then lk_set_granted 0 b else b).
  assert (is_u64 (lk_granted_map b1) /\ (forall i, bm_mem (lk_granted_map b1) i <->
    lc_mode c <> DRC_LOCK_EXCLUSIVE /\ bm_mem (lk_granted_map b) i) /\ lk_res_id b1 = lk_res_id b /\
    lk_converting b1 = lk_converting b /\ lk_convert_q b1 = lk_convert_q b) as (Hu & Hg & Hid & Hcv & Hq).
  { unfold b1. destruct (Z.eqb_spec (lc_mode c) DRC_LOCK_EXCLUSIVE); cbn; split_and!; try done; auto with drc; try apply L.
    - intros i. split; [|tauto]. intros H0. by apply (proj1 (bm_zero 0 is_u64_0) eq_refl) in H0.
    - intros i. tauto. }
  clearbody b1.
  assert (negb (drc_bitmap64_exist (lk_granted_map b1) (lc_new_id c)) || (dr_type (lk_res_id b1) =? DR_TYPE_TABLE) = true) as ->.
  { rewrite Hid. destruct (drc_bitmap64_exist _ _) eqn:Ex; [|done]. apply bm_exist_spec in Ex; [|apply Hinst].
    apply Hg in Ex as [? ?]. destruct Hnew as [?|[?| ->]]; done. }
  cbn [knl_panic mbind outcome_bind]. rewrite Hcv, <- Hm.
  set (b2 := lk_set_mode (lc_mode c) _).
  assert (forall i, bm_mem (lk_granted_map b2) i <-> i = lc_new_id c \/ bm_mem (lk_granted_map b1) i) as Hg2.
  { intros i. cbn. by rewrite bm_set_mem. }
  assert (lock_ok b2) as L2.
  { destruct L. split; cbn [b2 lk_set_mode lk_set_granted lk_mode lk_granted_map lk_converting lk_convert_q].
    - by apply is_u64_set.
    - by right.
    - intros Hz. by destruct Hreal as [Hx|Hx]; rewrite Hx in Hz.
    - intros Hx i j. rewrite !bm_set_mem, !Hg by done. intros [->|[? _]]; [|done]. intros [->|[? _]]; done.
    - by rewrite Hcv.
    - by rewrite Hq.
    - by rewrite Hcv, Hq. }
  destruct (convert_lock_ok f b2 L2) as (f' & b' & E & L' & Hid' & Hm' & Hgr & Hnext). exists f', b'.
  split; [exact E|]. split; [done|]. split_and!.
  - by rewrite Hid', <- Hid.
  - done.
  - intros i. by rewrite Hgr, Hg2, Hg.
  - change (lk_convert_q b2) with (lk_convert_q b1) in Hnext. rewrite Hq in Hnext.
    destruct (lk_convert_q b); tauto.
Qed.

Lemma drop_holder_ok inst b :
  lock_ok b -> is_inst inst -> lock_ok (drop_holder inst b) /\ lk_res_id (drop_holder inst b) = lk_res_id b /\
    lk_converting (drop_holder inst b) = lk_converting b /\ lk_convert_q (drop_holder inst b) = lk_convert_q b /\
    (forall i, bm_mem (lk_granted_map (drop_holder inst b)) i <-> i <> inst /\ bm_mem (lk_granted_map b) i) /\
    (lk_granted_map (drop_holder inst b) = 0 -> lk_mode (drop_holder inst b) = DRC_LOCK_NULL).
Proof.
  intros L Hi. unfold drop_holder. cbn [lk_set_granted lk_granted_map].
  assert (forall i, bm_mem (drc_bitmap64_clear (lk_granted_map b) inst) i <-> i <> inst /\ bm_mem (lk_granted_map b) i) as Hg.
  { intros i. apply bm_clear_mem. apply Hi. }
  pose proof (is_u64_clear _ inst (lo_granted _ L)) as Hu.
  destruct (Z.eqb_spec (drc_bitmap64_clear (lk_granted_map b) inst) 0) as [Hz|Hz]; cbn; split_and!; try done;
    destruct L; split; cbn; auto; try done.
  - intros Hn. by rewrite (lo_null0 Hn).
  - intros Hx i j [_ ?]%Hg [_ ?]%Hg. eauto.
Qed.

Lemma lock_clear_ok inst b : lock_ok b -> is_inst inst ->
  lock_ok (lk_set_granted (drc_bitmap64_clear (lk_granted_map b) inst) b).
Proof.
  intros L Hi. pose proof (is_u64_clear _ inst (lo_granted _ L)) as Hu. destruct L. split; cbn; auto.
  - intros Hn. by rewrite (lo_null0 Hn).
  - intros Hx i j. rewrite !bm_clear_mem by apply Hi. intros [_ ?] [_ ?]. eauto.
Qed.

(** ** Linked queues and sequences *)
Section LockSim.
Implicit Types (s : drc_res_pool drc_lock_item) (b : master_res drc_list) (ab : alock) (E : gset Z) (f : Z).

(** A lock is related to the same lock with a sequence for its queue. *)
Lemma lres_queue E s0 s b f ab :
  qres_rel E s0 s b f ab -> exists l rs, ab = lk_set_q rs b /\ queue_rel E l s (lk_convert_q b) f rs /\ kept E s0 s.
Proof. intros (l & R & Hab & K). exists l, (lk_convert_q ab). done. Qed.

Lemma convert_lock_sim E s0 s b f ab :
  qres_rel E s0 s b f ab ->
  match drc_convert_lock_owner f ab with
  | Crash w => drc_convert_lock_owner s b = Crash w
  | Ok (f', ab') => exists s' b', drc_convert_lock_owner s b = Ok (s', b') /\ qres_rel E s0 s' b' f' ab'
  end.
Proof.
  intros RR. destruct (lres_queue _ _ _ _ _ _ RR) as (l & rs & -> & R & K).
  pose proof (q_count_sim _ _ _ _ _ _ R) as Hc. unfold drc_convert_lock_owner.
  cbn [lk_set_q lk_convert_q lk_converting q_count linked_queue sequence_queue]. rewrite Hc.
  destruct rs as [|r rs].
  - cbn [length Z.of_nat Z.eqb]. eexists _, _. split; [done|].
    by apply (qres_rel_map _ _ _ _ _ _ (fun Q (x : master_res Q) => lk_set_converting (set_inst_id OG_INVALID_ID8 (lk_converting b)) x)).
  - replace (Z.of_nat (length (r :: rs)) =? 0) with false by (symmetry; apply Z.eqb_neq; cbn; lia).
    destruct (q_read_sim _ _ _ _ _ _ _ R) as [Hr Hv]. destruct (q_pop_sim _ _ _ _ _ _ _ R) as (l' & q' & s' & Eu & Ef & R' & K').
    cbn [q_head q_valid q_read q_unlink q_free linked_queue sequence_queue head mbind outcome_bind].
    rewrite Hv, bool_decide_eq_true_2 by eauto. cbn [knl_panic mbind outcome_bind]. rewrite Hr. cbn [mbind outcome_bind].
    rewrite Eu. cbn [mbind outcome_bind]. rewrite Ef. cbn [mbind outcome_bind].
    destruct (inst_id r =? OG_INVALID_ID8); cbn [negb knl_panic mbind outcome_bind]; [done|]. eexists _, _. split; [done|].
    apply (qres_rel_map _ _ _ (lk_set_q q' b) _ (lk_set_q rs b) (fun Q (x : master_res Q) => lk_set_converting r x)); [done|done|].
    exact (qres_rel_queue _ _ _ _ _ _ _ _ _ _ _ RR R' K').
Qed.

Lemma request_on_lock_sim E s0 s b f ab r out0 :
  qres_rel E s0 s b f ab ->
  match request_on_lock f ab r out0 with
  | Crash w => request_on_lock s b r out0 = Crash w
  | Ok (a, f', ab') => exists s' b', request_on_lock s b r out0 = Ok (a, s', b') /\ qres_rel E s0 s' b' f' ab'
  end.
Proof.
  intros RR. destruct (lres_queue _ _ _ _ _ _ RR) as (l & rs & -> & R & K).
  pose proof (q_count_sim _ _ _ _ _ _ R) as Hc. unfold request_on_lock, lock_answer.
  cbn [lk_set_q lk_convert_q lk_converting lk_mode lk_granted_map q_count linked_queue sequence_queue]. rewrite Hc.
  destruct (_ <? _); [by eauto|]. destruct (_ =? OG_INVALID_ID8).
  - destruct (mode_compatible _ _); cbn [mbind outcome_bind]; [|done]. destruct (Z.of_nat (length rs) =? 0); cbn; [|done].
    eexists _, _. split; [done|]. by apply (qres_rel_map _ _ _ _ _ _ (fun Q (x : master_res Q) => lk_set_converting r x)).
  - destruct (drc_bitmap64_exist _ _); [by eauto|]. cbn [q_enqueue linked_queue sequence_queue mbind outcome_bind].
    destruct (Z.eqb_spec f 0) as [Hf|Hf].
    + rewrite (q_enqueue_full _ _ _ _ _ _ r R Hf). cbn. by eauto.
    + destruct (q_enqueue_sim _ _ _ _ _ _ r R Hf) as (l' & s' & q' & -> & R' & K'). cbn. eexists _, _. split; [done|].
      exact (qres_rel_queue _ _ _ _ _ _ _ _ _ _ _ RR R' K').
Qed.

Lemma try_on_lock_sim E s0 s b f ab r out0 :
  qres_rel E s0 s b f ab ->
  match try_on_lock ab r out0 with
  | Crash w => try_on_lock b r out0 = Crash w
  | Ok (a, ab') => exists b', try_on_lock b r out0 = Ok (a, b') /\ qres_rel E s0 s b' f ab'
  end.
Proof.
  intros RR. destruct (lres_queue _ _ _ _ _ _ RR) as (l & rs & -> & R & K).
  pose proof (q_count_sim _ _ _ _ _ _ R) as Hc. unfold try_on_lock, lock_answer.
  cbn [lk_set_q lk_convert_q lk_converting lk_mode lk_granted_map q_count linked_queue sequence_queue]. rewrite Hc.
  destruct (_ <? _); [by eauto|]. destruct (_ =? OG_INVALID_ID8); [|by eauto].
  destruct (mode_compatible _ _); cbn [mbind outcome_bind]; [|done]. destruct (Z.of_nat (length rs) =? 0); cbn; [|done].
  eexists. split; [done|]. by apply (qres_rel_map _ _ _ _ _ _ (fun Q (x : master_res Q) => lk_set_converting r x)).
Qed.

Lemma claim_on_lock_sim E s0 s b f ab c :
  qres_rel E s0 s b f ab ->
  match claim_on_lock f ab c with
  | Crash w => claim_on_lock s b c = Crash w
  | Ok (f', ab') => exists s' b', claim_on_lock s b c = Ok (s', b') /\ qres_rel E s0 s' b' f' ab'
  end.
Proof.
  intros RR. destruct (lres_queue _ _ _ _ _ _ RR) as (l & rs & Hab & R & K). unfold claim_on_lock.
  assert (lk_converting ab = lk_converting b /\ lk_granted_map ab = lk_granted_map b /\ lk_res_id ab = lk_res_id b)
    as (Ec & Eg & Ei) by (subst; done). clear Hab R.
  rewrite Ec. destruct (_ && _); cbn [knl_panic mbind outcome_bind]; [|done].
  set (g := fun Q (x : master_res Q) => if lc_mode c =? DRC_LOCK_EXCLUSIVE then lk_set_granted 0 x else x).
  change (if lc_mode c =? DRC_LOCK_EXCLUSIVE then lk_set_granted 0 ab else ab) with (g _ ab).
  change (if lc_mode c =? DRC_LOCK_EXCLUSIVE then lk_set_granted 0 b else b) with (g _ b).
  assert (qres_rel E s0 s (g _ b) f (g _ ab)) as R1.
  { apply qres_rel_map; [..|done]; intros; unfold g; by destruct (_ =? _). }
  assert (lk_converting (g _ ab) = lk_converting (g _ b) /\ lk_granted_map (g _ ab) = lk_granted_map (g _ b) /\
    lk_res_id (g _ ab) = lk_res_id (g _ b)) as (Ec1 & Eg1 & Ei1) by (unfold g; destruct (_ =? _); done).
  rewrite Ec1, Eg1, Ei1. destruct (_ || _); cbn [knl_panic mbind outcome_bind]; [|done].
  apply convert_lock_sim.
  by apply (qres_rel_map _ _ _ _ _ _ (fun Q (x : master_res Q) => lk_set_mode (req_mode (lk_converting (g _ b)))
    (lk_set_granted (drc_bitmap64_set (lk_granted_map (g _ b)) (lc_new_id c)) x))).
Qed.

Lemma drop_holder_sim E s0 s b f ab inst :
  qres_rel E s0 s b f ab -> qres_rel E s0 s (drop_holder inst b) f (drop_holder inst ab).
Proof.
  apply (qres_rel_map _ _ _ _ _ _ (fun Q (x : master_res Q) => drop_holder inst x)); intros; unfold drop_holder; cbn; by destruct (_ =? _).
Qed.
End LockSim.
