(* ===== verification/DrcLockThm.v ===== *)
(** The lock master implements a catalogue of locks: every handler of
    [DrcLock], run on a well-formed table, ends normally, keeps the table
    well-formed, and grants conflicting locks to nobody. *)

From S2P Require Import Prelude DrcBitmap DrcPool DrcResMap DrcList DrcGlobalRes DrcQueue DrcTable DrcReform DrcLock DrcLockInv.

(** The catalogue: every lock known to this master. *)
Notation lock_catalogue := (gmap drid alock).

Section LockThm.
Context (signed : bool) (pad : list Z).
Implicit Types (t : ltab) (A : lock_catalogue) (f : Z) (F Sp : gset Z) (am : gmap drid Z) (d : drid).

Notation lhash := (lock_hash signed pad).
Notation lpart := (lock_partid signed pad).
Notation lock_rep := (tab_rep lhash lpart).

Lemma lock_hash_range d n : 0 < n -> 0 <= lhash n d < n.
Proof. intros. apply Z.mod_pos_bound. done. Qed.
Lemma lock_partid_range d : 0 <= lpart d < DRC_MAX_PART_NUM.
Proof. by apply lock_hash_range. Qed.

Record lock_inv t A f F Sp am : Prop := {
  lv_rep : lock_rep t A f F Sp am;
  lv_ok : forall d ab, A !! d = Some ab -> lock_ok ab;
}.

Lemma lock_lookup_none t A f F Sp am d :
  lock_inv t A f F Sp am -> A !! d = None -> lock_lookup signed pad t d = Ok None.
Proof. intros [R _] Hd. exact (tab_lookup_none _ _ _ _ _ _ _ _ _ R Hd). Qed.

(** One lock taken out of the table and put back. *)
Lemma lock_step t A f F Sp am d ab :
  lock_inv t A f F Sp am -> A !! d = Some ab ->
  exists i b E, am !! d = Some i /\ lock_lookup signed pad t d = Ok (Some i) /\ tb_get t i = Ok b /\
    lk_res_id ab = d /\ qres_rel E (tb_items t) (tb_items t) b f ab /\ ab = lk_set_q (lk_convert_q ab) b /\
    forall s' b' f' ab', qres_rel E (tb_items t) s' b' f' ab' -> lk_res_id ab' = d -> lock_ok ab' ->
      exists t', tb_put (tb_set_items s' t) i b' = Ok t' /\ lock_inv t' (<[d := ab']> A) f' F Sp am.
Proof.
  intros [R Hok] Hd. destruct (tab_step _ _ _ _ _ _ _ _ _ _ R Hd) as (i & b & E & Hi & Hl & Hb & Hk & RR & Hput).
  exists i, b, E. split_and!; try done; [by destruct RR as (? & _ & ? & _)|].
  intros s' b' f' ab' RR' Hk' Hok'. destruct (Hput _ _ _ _ RR' Hk') as (t' & -> & R'). exists t'. split; [done|].
  split; [done|]. intros d' ab'' [[<- <-]|[_ ?]]%lookup_insert_Some; [done|by eapply Hok].
Qed.

(** A change of a lock's members other than the queue. *)
Lemma lock_store t A f F Sp am d ab (g : forall Q, master_res Q -> master_res Q) :
  lock_inv t A f F Sp am -> A !! d = Some ab ->
  (forall Q (x : master_res Q), lk_convert_q (g Q x) = lk_convert_q x) ->
  (forall Q Q' (x : master_res Q) (q : Q'), g Q' (lk_set_q q x) = lk_set_q q (g Q x)) ->
  lk_res_id (g _ ab) = lk_res_id ab -> lock_ok (g _ ab) ->
  exists i b t', am !! d = Some i /\ lock_lookup signed pad t d = Ok (Some i) /\ tb_get t i = Ok b /\
    ab = lk_set_q (lk_convert_q ab) b /\ tb_put t i (g _ b) = Ok t' /\ lock_inv t' (<[d := g _ ab]> A) f F Sp am.
Proof.
  intros I Hd Hq Hg Hid Hok. destruct (lock_step _ _ _ _ _ _ _ _ I Hd) as (i & b & E & Hi & Hl & Hb & Hk & RR & Hab & Hput).
  destruct (Hput (tb_items t) (g _ b) f (g _ ab)) as (t' & Et & I'); [by apply qres_rel_map|congruence|done|].
  rewrite tb_set_items_id in Et. exists i, b, t'. split_and!; done.
Qed.

(** ** Creation *)
Definition lcap t : Z := item_num (gr_pool (tb_res t)).

Lemma create_lock_ok t A f F Sp am d :
  lock_inv t A f F Sp am -> A !! d = None ->
  (Z.of_nat (size A) + Z.of_nat (size Sp) = lcap t /\ drc_create_lock_res signed pad d t = Ok None) \/
  (exists i t', drc_create_lock_res signed pad d t = Ok (Some t') /\
     lock_inv t' (<[d := new_master_res [] d]> A) f F Sp (<[d := i]> am)).
Proof.
  intros [R Hok] Hd. unfold drc_create_lock_res.
  destruct (tab_alloc _ _ _ _ _ _ _ _ R) as [[HU ->]|(_ & i & t1 & -> & Hi & Hsp & _ & Hh & R1)]; cbn [mbind outcome_bind].
  { left. split; [by apply (tab_full_iff _ _ _ _ _ _ _ _ R)|]. by rewrite Z.eqb_refl. }
  right. rewrite (proj2 (Z.eqb_neq _ _) Hi).
  destruct (tab_create _ _ lock_partid_range t1 A f F _ am d i (new_master_res DRC_LIST_INIT d) R1)
    as (g1 & g2 & g3 & E1 & E2 & E3 & _ & R3); [set_solver|done|done|done|].
  rewrite E1. cbn [mbind outcome_bind]. change (lock_bucket signed pad t1 d) with (tb_hash lhash t1 d).
  rewrite E2. cbn [mbind outcome_bind]. rewrite E3. cbn [mbind outcome_bind].
  exists i. eexists. split; [done|]. replace (({[i]} ∪ Sp) ∖ {[i]}) with Sp in R3 by set_solver.
  split; [done|]. intros d' ab [[<- <-]|[_ ?]]%lookup_insert_Some; [apply lock_ok_new|by eapply Hok].
Qed.

(** The lock a first request creates. *)
Definition first_lock d (r : drc_req_info) : alock := lk_set_converting r (new_master_res [] d).

Lemma request_new_lock_ok t A f F Sp am d r :
  lock_inv t A f F Sp am -> A !! d = None -> lock_req r ->
  (Z.of_nat (size A) + Z.of_nat (size Sp) = lcap t /\ request_new_lock signed pad d r t = Ok None) \/
  (exists i t', request_new_lock signed pad d r t = Ok (Some t') /\
     lock_inv t' (<[d := first_lock d r]> A) f F Sp (<[d := i]> am)).
Proof.
  intros I Hd Hr. unfold request_new_lock.
  destruct (create_lock_ok _ _ _ _ _ _ _ I Hd) as [[Hc ->]|(i & t1 & -> & I1)]; cbn [mbind outcome_bind]; [by left|].
  right. destruct (lock_store _ _ _ _ _ _ d _ (fun Q (x : master_res Q) => lk_set_converting r x) I1 (lookup_insert_eq _ _ _))
    as (i' & b & t2 & _ & -> & Hb & _ & Ep & I2); try done.
  { apply lock_ok_converting; [apply lock_ok_new|done|done]. }
  cbn [mbind outcome_bind]. rewrite Hb. cbn [mbind outcome_bind]. rewrite Ep. cbn [mbind outcome_bind].
  exists i, t2. split; [done|]. by rewrite insert_insert_eq in I2.
Qed.

(** ** Requests *)

(** The request has not been answered. *)
Definition waiting (r : drc_req_info) (ab : alock) : Prop := r ∈ lk_convert_q ab \/ lk_converting ab = r.

Lemma waiting_busy r ab : lock_ok ab -> lock_req r -> waiting r ab -> inst_id (lk_converting ab) <> OG_INVALID_ID8.
Proof.
  intros L Hr [Hq|Hc] Hi; [|by subst; apply lock_req_ne in Hr]. rewrite (lo_idle _ L Hi) in Hq. by apply not_elem_of_nil in Hq.
Qed.

(** The other threads keep the table well-formed; they drop a waiting
    request only when a reform has begun, which the waiter then sees. *)
Definition lock_env (version : Z) d (r : drc_req_info) (views : nat -> view) (env : nat -> ltab -> ltab) : Prop :=
  forall n t A f F Sp am i ab, lock_inv t A f F Sp am -> am !! d = Some i -> A !! d = Some ab -> waiting r ab ->
    exists A' f' F' Sp' am', lock_inv (env n t) A' f' F' Sp' am' /\
      (DRC_STOP_DLS_REQ_FOR_REFORMING version (views n) d = true \/
       exists ab', am' !! d = Some i /\ A' !! d = Some ab' /\ waiting r ab').

(** How a request may end. *)
Definition request_end (version : Z) d (r : drc_req_info) (stop : Prop) A (o : option lock_reply) : Prop :=
  match o with
  | None => ~ stop /\ exists ab, A !! d = Some ab /\ waiting r ab
  | Some a => lr_status a = OG_ERROR \/
      exists ab, A !! d = Some ab /\ inst_id (lk_converting ab) = inst_id r /\ answer_ok r 0 ab a
  end.

Lemma wait_loop_ok version d r views env out0 i : lock_req r -> lock_env version d r views env ->
  forall n rnd t A f F Sp am ab, lock_inv t A f F Sp am -> am !! d = Some i -> A !! d = Some ab -> waiting r ab ->
  exists o t' A' f' F' Sp' am', lock_wait_loop n views env rnd version d r out0 i t = Ok (o, t') /\
    lock_inv t' A' f' F' Sp' am' /\
    request_end version d r
      (exists m, (rnd <= m < rnd + n)%nat /\ DRC_STOP_DLS_REQ_FOR_REFORMING version (views m) d = true) A' o.
Proof.
  intros Hr Henv. induction n as [|n IH]; intros rnd t A f F Sp am ab I Hi Hd Hw.
  { eexists _, _, A, f, F, Sp, am. split; [done|]. split; [done|]. split; [|eauto]. intros (m & ? & _). lia. }
  cbn [lock_wait_loop]. destruct (Henv rnd _ _ _ _ _ _ _ _ I Hi Hd Hw) as (A1 & f1 & F1 & Sp1 & am1 & I1 & Hst).
  destruct (DRC_STOP_DLS_REQ_FOR_REFORMING version (views rnd) d) eqn:Estop.
  { eexists _, _, _, _, _, _, _. split; [done|]. split; [done|]. by left. }
  destruct Hst as [?|(ab1 & Hi1 & Hd1 & Hw1)]; [done|].
  destruct (lock_step _ _ _ _ _ _ _ _ I1 Hd1) as (i' & b & E & Hi' & _ & Hb & _ & _ & Hab & _).
  assert (i' = i) as -> by congruence. rewrite Hb. cbn [mbind outcome_bind].
  pose proof (lv_ok _ _ _ _ _ _ I1 _ _ Hd1) as L1.
  assert (lk_converting b = lk_converting ab1 /\ lk_mode b = lk_mode ab1 /\ lk_granted_map b = lk_granted_map ab1)
    as (Ec & Em & Eg) by (rewrite Hab; done).
  rewrite Ec, (proj2 (Z.eqb_neq _ _) (waiting_busy _ _ L1 Hr Hw1)). cbn [negb knl_panic mbind outcome_bind].
  destruct (Z.eqb_spec (inst_id r) (inst_id (lk_converting ab1))) as [He|He].
  - destruct (lock_answer_ok r 0 ab1 L1 (proj2 Hr)) as (a & Ea & Ha).
    assert (lock_answer (req_mode r) 0 b = Ok a) as -> by (rewrite <- Ea; unfold lock_answer; by rewrite Em, Eg).
    cbn [mbind outcome_bind]. eexists _, _, _, _, _, _, _. split; [done|]. split; [done|]. right. eauto.
  - destruct (IH (S rnd) _ _ _ _ _ _ _ I1 Hi1 Hd1 Hw1) as (o & t' & A' & f' & F' & Sp' & am' & -> & I' & HE).
    eexists _, _, _, _, _, _, _. split; [done|]. split; [done|]. destruct o as [a|]; [done|].
    destruct HE as [Hn Hwt]. split; [|done]. intros (m & Hm & Hs). destruct (decide (m = rnd)) as [->|]; [congruence|].
    apply Hn. exists m. split; [lia|done].
Qed.

(** A request for a known lock is the request on the sequence of waiters,
    followed by the wait. *)
Lemma request_known_lock_ok n v views env d r version out0 t A f F Sp am ab :
  lock_inv t A f F Sp am -> lock_req r -> A !! d = Some ab -> DRC_STOP_DLS_REQ_FOR_REFORMING version v d = false ->
  exists i a f1 ab1 t1, am !! d = Some i /\ request_on_lock f ab r out0 = Ok (a, f1, ab1) /\
    lock_inv t1 (<[d := ab1]> A) f1 F Sp am /\
    drc_request_lock_owner signed pad n v views env d r version out0 t =
      match a with
      | Some a => Ok (Some a, t1)
      | None => lock_wait_loop n views env 0 version d r out0 i t1
      end.
Proof.
  intros I Hr Hd Hs. unfold drc_request_lock_owner. rewrite Hs.
  destruct (lock_step _ _ _ _ _ _ _ _ I Hd) as (i & b & E & Hi & -> & Hb & Hk & RR & _ & Hput).
  cbn [mbind outcome_bind]. rewrite Hb. cbn [mbind outcome_bind].
  destruct (request_on_lock_ok f ab r out0 (lv_ok _ _ _ _ _ _ I _ _ Hd) Hr) as (a & f1 & ab1 & Ea & L1 & Hk1 & _).
  pose proof (request_on_lock_sim _ _ _ _ _ _ r out0 RR) as HS. rewrite Ea in HS. destruct HS as (s1 & b1 & -> & RR1).
  destruct (Hput _ _ _ _ RR1) as (t1 & Et & I1); [congruence|done|]. cbn [mbind outcome_bind]. rewrite Et.
  cbn [mbind outcome_bind]. exists i, a, f1, ab1, t1. split_and!; done.
Qed.

(** [drc_request_lock_owner] ends unless it waits for ever: with the pool
    not exhausted it never panics, and what it answers is right. *)
Lemma request_lock_ok n v views env d r version out0 t A f F Sp am :
  lock_inv t A f F Sp am -> lock_req r -> lock_env version d r views env ->
  (A !! d = None -> Z.of_nat (size A) + Z.of_nat (size Sp) < lcap t) ->
  exists o t' A' f' F' Sp' am', drc_request_lock_owner signed pad n v views env d r version out0 t = Ok (o, t') /\
    lock_inv t' A' f' F' Sp' am' /\
    match o with
    | None => DRC_STOP_DLS_REQ_FOR_REFORMING version v d = false /\ is_Some (A !! d) /\
        (forall m, (m < n)%nat -> DRC_STOP_DLS_REQ_FOR_REFORMING version (views m) d = false) /\
        exists ab, A' !! d = Some ab /\ waiting r ab
    | Some a => lr_status a = OG_ERROR \/
        exists ab, A' !! d = Some ab /\ inst_id (lk_converting ab) = inst_id r /\ answer_ok r 0 ab a
    end.
Proof.
  intros I Hr Henv Hroom. destruct (DRC_STOP_DLS_REQ_FOR_REFORMING version v d) eqn:Estop.
  { unfold drc_request_lock_owner. rewrite Estop. eexists _, _, _, _, _, _, _. split; [done|]. split; [done|]. by left. }
  destruct (A !! d) as [ab|] eqn:Hd.
  - destruct (request_known_lock_ok n v views env d r version out0 t A f F Sp am ab I Hr Hd Estop) as
      (i & a0 & f0 & ab0 & t1 & Hi & Ea0 & I1 & ->).
    destruct (request_on_lock_ok f ab r out0 (lv_ok _ _ _ _ _ _ I _ _ Hd) Hr) as
      (a & f1 & ab1 & Ea & L1 & Hk1 & Hm1 & Hg1 & Hidle & Hbusy).
    rewrite Ea in Ea0. injection Ea0 as <- <- <-.
    destruct (decide (inst_id (lk_converting ab) = OG_INVALID_ID8)) as [Hc|Hc].
    + destruct (Hidle Hc) as (Hcv & a' & -> & Ha'). eexists _, _, _, _, _, _, _. split; [done|]. split; [done|]. right.
      exists ab1. rewrite lookup_insert_eq, Hcv. split_and!; try done.
      destruct Ha' as (? & ? & ? & ?). split_and!; rewrite ?Hm1, ?Hg1; done.
    + destruct (Hbusy Hc) as [_ Hres]. destruct (decide _).
      * destruct Hres as ((a' & -> & Ha') & _). eexists _, _, _, _, _, _, _. split; [done|]. split; [done|]. by left.
      * destruct Hres as (-> & Hq1 & _).
        destruct (wait_loop_ok version d r views env out0 i Hr Henv n 0%nat t1 _ _ _ _ _ ab1 I1 Hi (lookup_insert_eq _ _ _))
          as (o & t' & A' & f' & F' & Sp' & am' & -> & I' & HE).
        { left. rewrite Hq1. apply elem_of_app. right. by left. }
        eexists _, _, _, _, _, _, _. split; [done|]. split; [done|]. destruct o as [a'|]; [done|].
        destruct HE as [Hn Hw]. split_and!; eauto. intros m Hm.
        destruct (DRC_STOP_DLS_REQ_FOR_REFORMING version (views m) d) eqn:?; [|done]. destruct Hn. exists m. split; [lia|done].
  - unfold drc_request_lock_owner. rewrite Estop, (lock_lookup_none _ _ _ _ _ _ _ I Hd). cbn [mbind outcome_bind].
    destruct (request_new_lock_ok _ _ _ _ _ _ _ _ I Hd Hr) as [[Hc _]|(i & t1 & -> & I1)]; cbn [mbind outcome_bind].
    { specialize (Hroom eq_refl). lia. }
    eexists _, _, _, _, _, _, _. split; [done|]. split; [done|]. right. exists (first_lock d r).
    rewrite lookup_insert_eq. split_and!; try done. cbn. split_and!; try done. split; [|done]. by left.
Qed.

(** A request for a lock nobody knows creates it, granted to nobody yet. *)
Lemma request_first_lock_ok n v views env d r version out0 t A f F Sp am :
  lock_inv t A f F Sp am -> lock_req r -> A !! d = None -> Z.of_nat (size A) + Z.of_nat (size Sp) < lcap t ->
  DRC_STOP_DLS_REQ_FOR_REFORMING version v d = false ->
  exists t' i, drc_request_lock_owner signed pad n v views env d r version out0 t =
      Ok (Some (mk_reply OG_SUCCESS true 0), t') /\
    lock_inv t' (<[d := first_lock d r]> A) f F Sp (<[d := i]> am).
Proof.
  intros I Hr Hd Hroom Hs. unfold drc_request_lock_owner. rewrite Hs, (lock_lookup_none _ _ _ _ _ _ _ I Hd).
  cbn [mbind outcome_bind].
  destruct (request_new_lock_ok _ _ _ _ _ _ _ _ I Hd Hr) as [[Hc _]|(i & t1 & -> & I1)]; [lia|]. cbn. eauto.
Qed.

Lemma try_lock_ok v0 v d r version out0 t A f F Sp am :
  lock_inv t A f F Sp am -> lock_req r ->
  exists a t' A' am', drc_try_request_lock_owner signed pad v0 v d r version out0 t = Ok (a, t') /\
    lock_inv t' A' f F Sp am' /\
    (lr_status a = OG_ERROR -> A' = A) /\
    (lr_status a = OG_SUCCESS -> exists ab, lk_converting ab = r /\ A' = <[d := ab]> A /\
       answer_ok r (lk_granted_map ab) ab a).
Proof.
  intros I Hr. unfold drc_try_request_lock_owner. destruct (_ <? _); [by eexists _, _, A, am|].
  destruct (DRC_STOP_DLS_REQ_FOR_REFORMING version v d); [by eexists _, _, A, am|].
  destruct (A !! d) as [ab|] eqn:Hd.
  - destruct (lock_step _ _ _ _ _ _ _ _ I Hd) as (i & b & E & Hi & -> & Hb & Hk & RR & _ & Hput).
    cbn [mbind outcome_bind]. rewrite Hb. cbn [mbind outcome_bind].
    destruct (try_on_lock_ok ab r out0 (lv_ok _ _ _ _ _ _ I _ _ Hd) Hr) as (a & ab1 & Ea & L1 & Hk1 & Hres).
    pose proof (try_on_lock_sim _ _ _ _ _ _ r out0 RR) as HS. rewrite Ea in HS. destruct HS as (b1 & -> & RR1).
    destruct (Hput _ _ _ _ RR1) as (t1 & Et & I1); [congruence|done|]. rewrite tb_set_items_id in Et.
    cbn [mbind outcome_bind]. rewrite Et. cbn [mbind outcome_bind]. eexists _, _, _, _. split; [done|]. split; [done|].
    destruct (decide _).
    + destruct Hres as [-> (Hs & Ha)]. rewrite Hs. split; [done|]. intros _. exists (lk_set_converting r ab). by split_and!.
    + destruct Hres as [-> ->]. split; [|done]. intros _. by apply insert_id.
  - rewrite (lock_lookup_none _ _ _ _ _ _ _ I Hd). cbn [mbind outcome_bind].
    destruct (request_new_lock_ok _ _ _ _ _ _ _ _ I Hd Hr) as [[Hc ->]|(i & t1 & -> & I1)]; cbn [mbind outcome_bind].
    { by eexists _, _, A, am. }
    eexists _, _, _, _. split; [done|]. split; [done|]. split; [done|]. intros _. exists (first_lock d r).
    split_and!; try done. cbn. split_and!; try done. split; [|done]. by left.
Qed.

(** ** Claims, cancellations, releases *)
Lemma claim_lock_ok v d c version is_remaster t A f F Sp am ab :
  lock_inv t A f F Sp am -> A !! d = Some ab -> claim_ok c ab ->
  DRC_STOP_DLS_REQ_FOR_REFORMING version v d = false \/ is_remaster = true ->
  exists t' f' ab', drc_claim_lock_owner signed pad v d c version is_remaster t = Ok (OG_SUCCESS, t') /\
    lock_inv t' (<[d := ab']> A) f' F Sp am /\ claim_on_lock f ab c = Ok (f', ab') /\ claimed c ab ab'.
Proof.
  intros I Hd Hc Hgo. unfold drc_claim_lock_owner.
  replace (_ && _) with false by (destruct Hgo as [-> | ->]; [done|by rewrite andb_false_r]).
  destruct (lock_step _ _ _ _ _ _ _ _ I Hd) as (i & b & E & Hi & -> & Hb & Hk & RR & _ & Hput).
  cbn [mbind outcome_bind]. rewrite Hb. cbn [mbind outcome_bind].
  destruct (claim_on_lock_ok f ab c (lv_ok _ _ _ _ _ _ I _ _ Hd) Hc) as (f1 & ab1 & Ea & L1 & Hcl).
  pose proof (claim_on_lock_sim _ _ _ _ _ _ c RR) as HS. rewrite Ea in HS. destruct HS as (s1 & b1 & -> & RR1).
  destruct (Hput _ _ _ _ RR1) as (t1 & Et & I1); [destruct Hcl; congruence|done|].
  cbn [mbind outcome_bind]. rewrite Et. cbn [mbind outcome_bind]. eauto 10.
Qed.

Lemma cancel_lock_ok inst d t A f F Sp am :
  lock_inv t A f F Sp am ->
  exists ret t' A' f', drc_cancel_lock_owner_request signed pad inst d t = Ok (ret, t') /\ lock_inv t' A' f' F Sp am /\
    match A !! d with
    | None => ret = OG_ERROR /\ t' = t /\ A' = A
    | Some ab => ret = OG_SUCCESS /\
        if decide (inst_id (lk_converting ab) = inst) then
          exists ab', drc_convert_lock_owner f ab = Ok (f', ab') /\ A' = <[d := ab']> A
        else t' = t /\ A' = A
    end.
Proof.
  intros I. unfold drc_cancel_lock_owner_request. destruct (A !! d) as [ab|] eqn:Hd.
  - destruct (lock_step _ _ _ _ _ _ _ _ I Hd) as (i & b & E & Hi & -> & Hb & Hk & RR & Hab & Hput).
    cbn [mbind outcome_bind]. rewrite Hb. cbn [mbind outcome_bind].
    assert (lk_converting b = lk_converting ab) as -> by (rewrite Hab; done).
    destruct (Z.eqb_spec (inst_id (lk_converting ab)) inst) as [Hi'|Hi']; cbn [negb].
    + destruct (convert_lock_ok f ab (lv_ok _ _ _ _ _ _ I _ _ Hd)) as (f1 & ab1 & Ea & L1 & Hk1 & _).
      pose proof (convert_lock_sim _ _ _ _ _ _ RR) as HS. rewrite Ea in HS. destruct HS as (s1 & b1 & -> & RR1).
      destruct (Hput _ _ _ _ RR1) as (t1 & Et & I1); [congruence|done|]. cbn [mbind outcome_bind]. rewrite Et.
      cbn [mbind outcome_bind]. eexists _, _, _, _. split; [done|]. split; [done|]. split; [done|].
      rewrite decide_True by done. eauto.
    + eexists _, _, _, _. split; [done|]. split; [done|]. split; [done|]. by rewrite decide_False.
  - rewrite (lock_lookup_none _ _ _ _ _ _ _ I Hd). cbn. by eauto 12.
Qed.

(** What is left of a lock when one of its holders goes. *)
Definition lock_left (ab : alock) : option alock :=
  if bool_decide (lk_granted_map ab = 0 /\ inst_id (lk_converting ab) = OG_INVALID_ID8) then None else Some ab.

(** The end of [drc_release_lock_owner] and [drc_recycle_dls_master]. *)
Lemma retire_lock_ok t A f F Sp am d i ab :
  lock_inv t A f F Sp am -> A !! d = Some ab -> am !! d = Some i -> lk_granted_map ab = 0 ->
  inst_id (lk_converting ab) = OG_INVALID_ID8 ->
  exists g1 t', gr_map_remove (tb_res t) (lock_bucket signed pad t d) d = Ok g1 /\
    drc_release_lock_res i (tb_set_res g1 t) = Ok (OG_SUCCESS, t') /\
    lock_inv t' (delete d A) f F Sp (delete d am) /\
    (forall l1 l2, gr_part (tb_res t) (lpart d) (l1 ++ i :: l2) -> gr_part (tb_res t') (lpart d) (l1 ++ l2)).
Proof.
  intros [R Hok] Hd Hi Hg Hc. pose proof (lo_idle _ (Hok _ _ Hd) Hc) as Hq.
  destruct (lock_step t A f F Sp am d ab (Build_lock_inv _ _ _ _ _ _ R Hok) Hd) as (i' & b & E & Hi' & _ & Hb & _ & _ & Hab & _).
  assert (i' = i) as -> by congruence.
  destruct (tab_retire _ _ lock_partid_range _ _ _ _ _ _ _ _ _ R Hd Hi Hq) as
    (g1 & a & g2 & g3 & g4 & E1 & Eget & Ea & Hx & E2 & E3 & E4 & R4 & HP).
  exists g1. eexists. split; [exact E1|]. unfold drc_release_lock_res, tb_get. cbn [tb_res tb_set_res].
  unfold tb_get in Hb. rewrite Eget, Hb. cbn [mbind outcome_bind].
  assert (lk_converting b = lk_converting ab /\ lk_granted_map b = lk_granted_map ab) as (-> & ->) by (rewrite Hab; done).
  rewrite Hc, Hg, Z.eqb_refl. cbn [negb orb Z.ltb Z.compare]. rewrite Ea. cbn [mbind outcome_bind].
  rewrite E2. cbn [mbind outcome_bind]. rewrite E3. cbn [mbind outcome_bind]. rewrite Hx, E4. cbn [mbind outcome_bind].
  split; [done|]. split; [|done]. split; [done|]. intros d' ab' [_ ?]%lookup_delete_Some. by eapply Hok.
Qed.

Lemma tb_put_part t t' i b q l : tb_put t i b = Ok t' -> gr_part (tb_res t) q l -> gr_part (tb_res t') q l.
Proof.
  unfold tb_put. destruct (gr_put (tb_res t) i b) as [g|] eqn:Eg; [|done]. cbn. intros [= <-]. by eapply gr_part_put.
Qed.

Lemma lock_left_spec ab : match lock_left ab with
  | None => lk_granted_map ab = 0 /\ inst_id (lk_converting ab) = OG_INVALID_ID8
  | Some ab' => ab' = ab /\ (lk_granted_map ab <> 0 \/ inst_id (lk_converting ab) <> OG_INVALID_ID8) end.
Proof. unfold lock_left. case_bool_decide as H; [done|]. split; [done|]. destruct (decide (lk_granted_map ab = 0)); tauto. Qed.

(** The slot of the lock [d] stays on its list exactly when the lock stays. *)
Definition part_left (t t' : ltab) d (i : Z) (o : option alock) : Prop :=
  forall l1 l2, gr_part (tb_res t) (lpart d) (l1 ++ i :: l2) ->
    gr_part (tb_res t') (lpart d) (l1 ++ (if o then [i] else []) ++ l2).

(** A holder taken out of a lock, which is retired when nothing is left of it. *)
Lemma drop_lock_ok (g : forall Q, master_res Q -> master_res Q) t A f F Sp am d ab :
  lock_inv t A f F Sp am -> A !! d = Some ab ->
  (forall Q (x : master_res Q), lk_convert_q (g Q x) = lk_convert_q x) ->
  (forall Q Q' (x : master_res Q) (q : Q'), g Q' (lk_set_q q x) = lk_set_q q (g Q x)) ->
  lk_res_id (g _ ab) = lk_res_id ab -> lock_ok (g _ ab) ->
  exists i b t1 t' am', am !! d = Some i /\ lock_lookup signed pad t d = Ok (Some i) /\ tb_get t i = Ok b /\
    ab = lk_set_q (lk_convert_q ab) b /\ tb_put t i (g _ b) = Ok t1 /\
    lock_inv t' (partial_alter (fun _ => lock_left (g _ ab)) d A) f F Sp am' /\
    (forall d', d' <> d -> am' !! d' = am !! d') /\ part_left t t' d i (lock_left (g _ ab)) /\
    match lock_left (g _ ab) with
    | Some _ => t' = t1
    | None => exists g1, gr_map_remove (tb_res t1) (lock_bucket signed pad t1 d) d = Ok g1 /\
        drc_release_lock_res i (tb_set_res g1 t1) = Ok (OG_SUCCESS, t')
    end.
Proof.
  intros I Hd Hq Hg Hid Hok.
  destruct (lock_store _ _ _ _ _ _ _ _ g I Hd Hq Hg Hid Hok) as (i & b & t1 & Hi & Hl & Hb & Hab & Et & I1).
  pose proof (lock_left_spec (g _ ab)) as HL. destruct (lock_left (g _ ab)) as [ab'|].
  - destruct HL as [-> _]. exists i, b, t1, t1, am. split_and!; try done. intros l1 l2. by eapply tb_put_part.
  - destruct HL as [Hg0 Hc0].
    destruct (retire_lock_ok _ _ _ _ _ _ d i _ I1 (lookup_insert_eq _ _ _) Hi Hg0 Hc0) as (g1 & t' & E1 & E2 & I2 & HP).
    rewrite delete_insert_eq in I2. exists i, b, t1, t', (delete d am). split_and!; try done; [| |eauto].
    + intros. by apply lookup_delete_ne.
    + intros l1 l2 HP0. apply HP. by eapply tb_put_part.
Qed.

Lemma u64_pos x : is_u64 x -> (0 <? x) = negb (x =? 0).
Proof. intros [? _]. destruct (Z.ltb_spec 0 x), (Z.eqb_spec x 0); cbn; try done; lia. Qed.

(** [drc_release_lock_owner]. *)
Lemma release_lock_ok old d t A f F Sp am :
  lock_inv t A f F Sp am -> is_inst old ->
  exists ret t' A' am', drc_release_lock_owner signed pad old d t = Ok (ret, t') /\ lock_inv t' A' f F Sp am' /\
    (forall d', d' <> d -> am' !! d' = am !! d') /\
    match A !! d with
    | None => ret = OG_ERROR /\ A' = A
    | Some ab =>
        if decide (bm_mem (lk_granted_map ab) old) then
          ret = OG_SUCCESS /\ A' = partial_alter (fun _ => lock_left (drop_holder old ab)) d A /\
          forall i, am !! d = Some i -> part_left t t' d i (lock_left (drop_holder old ab))
        else ret = OG_ERROR /\ A' = A
    end.
Proof.
  intros I Ho. unfold drc_release_lock_owner. destruct (A !! d) as [ab|] eqn:Hd.
  2:{ rewrite (lock_lookup_none _ _ _ _ _ _ _ I Hd). cbn. by eauto 12. }
  pose proof (lv_ok _ _ _ _ _ _ I _ _ Hd) as L. destruct (drop_holder_ok old ab L Ho) as (L1 & Hid & Hcv & Hq & _).
  destruct (drop_lock_ok (fun Q (x : master_res Q) => drop_holder old x) t A f F Sp am d ab I Hd) as
    (i & b & t1 & t' & am' & Hi & -> & Hb & Hab & Et & I' & Ham & HP & Hend); try done.
  { intros; unfold drop_holder; cbn; by destruct (_ =? _). }
  { intros; unfold drop_holder; cbn; by destruct (_ =? _). }
  cbn [mbind outcome_bind]. rewrite Hb. cbn [mbind outcome_bind].
  assert (lk_granted_map b = lk_granted_map ab) as -> by (rewrite Hab; done).
  destruct (drc_bitmap64_exist (lk_granted_map ab) old) eqn:Ex; cbn [negb].
  2:{ eexists _, t, A, am. split; [done|]. split; [done|]. split; [done|]. rewrite decide_False; [done|].
      intros Hm. by rewrite (proj2 (bm_exist_spec _ _ Ho) Hm) in Ex. }
  apply bm_exist_spec in Ex; [|done]. rewrite Et. cbn [mbind outcome_bind].
  assert (lk_granted_map (drop_holder old b) = lk_granted_map (drop_holder old ab) /\
    lk_converting (drop_holder old b) = lk_converting (drop_holder old ab)) as (-> & ->).
  { rewrite Hab. unfold drop_holder. cbn. by destruct (_ =? _). }
  rewrite (u64_pos _ (lo_granted _ L1)), <- negb_andb.
  eexists OG_SUCCESS, t', _, am'. split; [|split; [exact I'|]; split; [done|]; rewrite decide_True by done; split_and!; try done;
    intros i0 Hi0; by assert (i0 = i) as -> by congruence].
  unfold lock_left in Hend. case_bool_decide as Hz.
  - destruct Hz as [-> ->]. cbn [Z.eqb andb negb]. destruct Hend as (g1 & -> & E2). cbn [mbind outcome_bind]. by rewrite E2.
  - replace (_ && _) with false; [by rewrite Hend|]. symmetry. apply andb_false_iff. rewrite !Z.eqb_neq.
    destruct (decide (lk_granted_map (drop_holder old ab) = 0)); tauto.
Qed.

(** [drc_recycle_dls_master]. *)
Lemma recycle_lock_ok v d version inst t A f F Sp am :
  lock_inv t A f F Sp am -> is_inst inst ->
  exists ret t' A' am', drc_recycle_dls_master signed pad v d version inst t = Ok (ret, t') /\ lock_inv t' A' f F Sp am' /\
    match A !! d with
    | Some ab => if DRC_STOP_DLS_REQ_FOR_REFORMING version v d then ret = OG_ERROR /\ A' = A else
        ret = OG_SUCCESS /\
        A' = partial_alter (fun _ => lock_left (lk_set_granted (drc_bitmap64_clear (lk_granted_map ab) inst) ab)) d A
    | None => ret = (if DRC_STOP_DLS_REQ_FOR_REFORMING version v d then OG_ERROR else OG_SUCCESS) /\ A' = A
    end.
Proof.
  intros I Hi. unfold drc_recycle_dls_master. destruct (DRC_STOP_DLS_REQ_FOR_REFORMING version v d).
  { eexists _, t, A, am. split; [done|]. split; [done|]. by destruct (A !! d). }
  destruct (A !! d) as [ab|] eqn:Hd.
  2:{ rewrite (lock_lookup_none _ _ _ _ _ _ _ I Hd). cbn. by eauto 12. }
  pose proof (lv_ok _ _ _ _ _ _ I _ _ Hd) as L. pose proof (lock_clear_ok inst ab L Hi) as L1.
  destruct (drop_lock_ok (fun Q (x : master_res Q) => lk_set_granted (drc_bitmap64_clear (lk_granted_map x) inst) x)
    t A f F Sp am d ab I Hd) as (i & b & t1 & t' & am' & _ & -> & Hb & Hab & Et & I' & _ & _ & Hend); try done.
  cbn [mbind outcome_bind]. rewrite Hb. cbn [mbind outcome_bind]. rewrite Et. cbn [mbind outcome_bind].
  cbn [lk_set_granted lk_converting lk_granted_map].
  assert (lk_granted_map b = lk_granted_map ab /\ lk_converting b = lk_converting ab) as (-> & ->) by (rewrite Hab; done).
  eexists OG_SUCCESS, t', _, am'. split; [|split; [exact I'|done]].
  unfold lock_left in Hend. cbn [lk_set_granted lk_granted_map lk_converting] in Hend. case_bool_decide as Hz.
  - destruct Hz as [-> ->]. cbn [Z.eqb andb]. rewrite Z.eqb_refl. destruct Hend as (g1 & -> & E2).
    cbn [mbind outcome_bind]. by rewrite E2.
  - replace (_ && _) with false; [by rewrite Hend|]. symmetry. apply andb_false_iff. rewrite !Z.eqb_neq.
    destruct (decide (inst_id (lk_converting ab) = OG_INVALID_ID8)); tauto.
Qed.

(** [dls_clear_granted_map_for_inst]. *)
Lemma clear_granted_ok d inst t A f F Sp am :
  lock_inv t A f F Sp am -> is_inst inst ->
  exists t', dls_clear_granted_map_for_inst signed pad d inst t = Ok t' /\
    lock_inv t' (alter (drop_holder inst) d A) f F Sp am.
Proof.
  intros I Hi. unfold dls_clear_granted_map_for_inst. destruct (A !! d) as [ab|] eqn:Hd.
  - destruct (drop_holder_ok inst ab (lv_ok _ _ _ _ _ _ I _ _ Hd) Hi) as (L1 & Hid & _).
    destruct (lock_store _ _ _ _ _ _ _ _ (fun Q (x : master_res Q) => drop_holder inst x) I Hd) as
      (i & b & t1 & _ & -> & Hb & _ & Et & I1); try done.
    { intros; unfold drop_holder; cbn; by destruct (_ =? _). }
    { intros; unfold drop_holder; cbn; by destruct (_ =? _). }
    cbn [mbind outcome_bind]. rewrite Hb. cbn [mbind outcome_bind]. rewrite Et. exists t1. split; [done|].
    replace (alter (drop_holder inst) d A) with (<[d := drop_holder inst ab]> A); [done|].
    apply map_eq. intros d'. destruct (decide (d' = d)) as [->|].
    + by rewrite lookup_alter_eq, Hd, lookup_insert_eq.
    + by rewrite lookup_alter_ne, lookup_insert_ne.
  - rewrite (lock_lookup_none _ _ _ _ _ _ _ I Hd). cbn. exists t. split; [done|].
    replace (alter (drop_holder inst) d A) with A; [done|]. apply map_eq. intros d'. destruct (decide (d' = d)) as [->|].
    + by rewrite lookup_alter_eq, Hd.
    + by rewrite lookup_alter_ne.
Qed.

(** ** A crashed instance *)

(** Instance [i] has no part in the lock. *)
Definition lock_gone (i : Z) (ab : alock) : Prop :=
  ~ bm_mem (lk_granted_map ab) i /\ inst_id (lk_converting ab) <> i /\ lk_convert_q ab = [].

(** What cleaning makes of a lock. *)
Definition drop_converting (inst : Z) (ab : alock) : alock :=
  let ab := lk_set_q [] ab in
  if inst_id (lk_converting ab) =? inst
  then lk_set_converting (set_inst_id OG_INVALID_ID8 (lk_converting ab)) ab else ab.
Definition clean_lock (inst : Z) (ab : alock) : option alock :=
  if decide (bm_mem (lk_granted_map ab) inst) then lock_left (drop_holder inst (drop_converting inst ab))
  else Some (drop_converting inst ab).

Lemma drop_converting_ok inst ab :
  lock_ok ab -> is_inst inst -> lock_ok (drop_converting inst ab) /\ lk_granted_map (drop_converting inst ab) = lk_granted_map ab /\
    lk_res_id (drop_converting inst ab) = lk_res_id ab /\ lk_convert_q (drop_converting inst ab) = [] /\
    inst_id (lk_converting (drop_converting inst ab)) <> inst.
Proof.
  intros L Hi. pose proof (is_inst_ne _ Hi). unfold drop_converting. cbn [lk_set_q lk_converting].
  destruct (Z.eqb_spec (inst_id (lk_converting ab)) inst); cbn; split_and!; try done; destruct L; split; cbn; auto; done.
Qed.

Lemma clean_lock_gone inst ab ab' :
  lock_ok ab -> is_inst inst -> clean_lock inst ab = Some ab' -> lock_gone inst ab'.
Proof.
  intros L Hi. destruct (drop_converting_ok inst ab L Hi) as (L1 & Hg & _ & Hq & Hc). unfold clean_lock.
  destruct (decide _) as [Hm|Hm].
  - destruct (drop_holder_ok inst _ L1 Hi) as (_ & _ & Hcv & Hq' & Hgr & _).
    intros E. pose proof (lock_left_spec (drop_holder inst (drop_converting inst ab))) as HL. rewrite E in HL.
    destruct HL as [-> _]. split_and!; [rewrite Hgr; tauto|by rewrite Hcv|by rewrite Hq'].
  - intros [= <-]. split_and!; [by rewrite Hg|done|done].
Qed.

Lemma cancel_part inst d t ret t' q l :
  drc_cancel_lock_owner_request signed pad inst d t = Ok (ret, t') -> gr_part (tb_res t) q l -> gr_part (tb_res t') q l.
Proof.
  unfold drc_cancel_lock_owner_request. destruct (lock_lookup signed pad t d) as [[i|]|]; cbn; [|by intros [= _ <-]|done].
  destruct (tb_get t i) as [b|]; cbn; [|done]. destruct (negb _); [by intros [= _ <-]|].
  destruct (drc_convert_lock_owner _ b) as [[s b']|]; cbn; [|done].
  destruct (tb_put _ i b') as [t1|] eqn:Et; cbn; [|done]. intros [= _ <-]. by apply (tb_put_part (tb_set_items s t) _ _ _ _ _ Et).
Qed.

Lemma set_over_insert d (x : alock) (o : option alock) A :
  partial_alter (fun _ => o) d (<[d := x]> A) = partial_alter (fun _ => o) d A.
Proof.
  apply map_eq. intros d'. destruct (decide (d' = d)) as [->|].
  - by rewrite !lookup_partial_alter_eq.
  - by rewrite !lookup_partial_alter_ne, lookup_insert_ne.
Qed.

(** The queue of one lock emptied. *)
Lemma clean_queue_ok inst t A f F Sp am d ab :
  lock_inv t A f F Sp am -> A !! d = Some ab ->
  exists i b s q t1 f1, am !! d = Some i /\ tb_get t i = Ok b /\ ab = lk_set_q (lk_convert_q ab) b /\
    drc_clean_convert_q (tb_items t) (lk_convert_q b) inst = Ok (sq_msgs inst (lk_convert_q ab), s, q) /\
    tb_put (tb_set_items s t) i (lk_set_q q b) = Ok t1 /\ lock_inv t1 (<[d := lk_set_q [] ab]> A) f1 F Sp am.
Proof.
  intros I Hd. destruct (lock_step _ _ _ _ _ _ _ _ I Hd) as (i & b & E & Hi & _ & Hb & Hk & RR & Hab & Hput).
  pose proof RR as (l & R & _ & K). destruct (q_clean_sim _ _ _ _ _ _ inst R) as (s & q & Ec & R' & K').
  pose proof (qres_rel_queue _ _ _ _ _ _ _ _ _ _ _ RR R' K') as RR'.
  destruct (Hput _ _ _ _ RR') as (t1 & Et & I1); [done| |exists i, b, s, q, t1; eexists; by split_and!].
  destruct (lv_ok _ _ _ _ _ _ I _ _ Hd). split; cbn; auto; done.
Qed.

(** One round of the loop: the lock of slot [i], the head of the rest of the list. *)
Lemma clean_lock_round inst t A f F Sp am q l1 i l2 :
  lock_inv t A f F Sp am -> is_inst inst -> 0 <= q < DRC_MAX_PART_NUM -> gr_part (tb_res t) q (l1 ++ i :: l2) ->
  exists d ab a s qq t1 r2 t2 r3 t3 f' am', am !! d = Some i /\ A !! d = Some ab /\ lpart d = q /\
    load (gr_pool (tb_res t)) i = Ok a /\ ln_next (item_node a) = hd OG_INVALID_ID32 l2 /\ lk_res_id (body a) = d /\
    drc_clean_convert_q (tb_items t) (lk_convert_q (body a)) inst = Ok (sq_msgs inst (lk_convert_q ab), s, qq) /\
    tb_put (tb_set_items s t) i (lk_set_q qq (body a)) = Ok t1 /\
    (if inst_id (lk_converting (body a)) =? inst then drc_cancel_lock_owner_request signed pad inst d t1
     else Ok (OG_SUCCESS, t1)) = Ok (r2, t2) /\
    (if drc_bitmap64_exist (lk_granted_map (body a)) inst then drc_release_lock_owner signed pad inst d t2
     else Ok (OG_SUCCESS, t2)) = Ok (r3, t3) /\
    lock_inv t3 (partial_alter (fun _ => clean_lock inst ab) d A) f' F Sp am' /\
    (forall d', d' <> d -> am' !! d' = am !! d') /\
    gr_part (tb_res t3) q (l1 ++ (if clean_lock inst ab then [i] else []) ++ l2).
Proof.
  intros I Hi Hq HP. pose proof (lv_rep _ _ _ _ _ _ I) as R.
  destruct (gr_part_mem _ _ (tb_res t) _ _ _ _ _ i (tr_gres _ _ _ _ _ _ _ _ R) Hq HP) as [_ Hm].
  assert (i ∈ l1 ++ i :: l2) as (d & Hd & Hdq)%Hm by (apply elem_of_app; right; by left).
  assert (is_Some (A !! d)) as [ab Hab] by (apply (tr_dom _ _ _ _ _ _ _ _ R); eauto).
  pose proof (lv_ok _ _ _ _ _ _ I _ _ Hab) as L.
  destruct (clean_queue_ok inst _ _ _ _ _ _ _ _ I Hab) as (i' & b & s & qq & t1 & f1 & Hi' & Hb & Hbb & Ec & Et & I1).
  assert (i' = i) as -> by congruence. destruct (gr_part_next _ _ _ _ _ HP) as (a & Ha & Hn).
  assert (body a = b) as Hab0.
  { unfold tb_get, gr_get in Hb. rewrite Ha in Hb. cbn in Hb. by injection Hb. }
  destruct (lock_step _ _ _ _ _ _ _ _ I Hab) as (_ & _ & _ & _ & _ & _ & Hid & _).
  assert (lk_converting b = lk_converting ab /\ lk_granted_map b = lk_granted_map ab /\ lk_res_id b = d) as (Eb1 & Eb2 & Eb3).
  { rewrite <- Hid, Hbb. done. }
  pose proof (tb_put_part (tb_set_items s t) _ _ _ _ _ Et HP : gr_part (tb_res t1) q _) as HP1.
  assert (exists r2 t2 f2, (if inst_id (lk_converting ab) =? inst then drc_cancel_lock_owner_request signed pad inst d t1
     else Ok (OG_SUCCESS, t1)) = Ok (r2, t2) /\ lock_inv t2 (<[d := drop_converting inst ab]> A) f2 F Sp am /\
     gr_part (tb_res t2) q (l1 ++ i :: l2)) as (r2 & t2 & f2 & E2 & I2 & HP2).
  { unfold drop_converting. cbn [lk_set_q lk_converting]. destruct (Z.eqb_spec (inst_id (lk_converting ab)) inst) as [Hc|Hc].
    - destruct (cancel_lock_ok inst d _ _ _ _ _ _ I1) as (r2 & t2 & A2 & f2 & E2 & I2 & HA).
      rewrite lookup_insert_eq in HA. cbn [lk_set_q lk_converting] in HA. rewrite decide_True in HA by done.
      destruct HA as (_ & ab' & [= <- <-] & ->). rewrite insert_insert_eq in I2.
      exists r2, t2, f1. split_and!; try done. by eapply cancel_part.
    - by exists OG_SUCCESS, t1, f1. }
  destruct (drop_converting_ok inst ab L Hi) as (L2 & Hg2 & Hid2 & _).
  assert (exists r3 t3 am', (if drc_bitmap64_exist (lk_granted_map ab) inst then drc_release_lock_owner signed pad inst d t2
     else Ok (OG_SUCCESS, t2)) = Ok (r3, t3) /\ lock_inv t3 (partial_alter (fun _ => clean_lock inst ab) d A) f2 F Sp am' /\
     (forall d', d' <> d -> am' !! d' = am !! d') /\ gr_part (tb_res t3) q (l1 ++ (if clean_lock inst ab then [i] else []) ++ l2))
     as (r3 & t3 & am' & E3 & I3 & Ham & HP3).
  { unfold clean_lock. destruct (decide _) as [Hmem|Hmem].
    - rewrite (proj2 (bm_exist_spec _ _ Hi) Hmem).
      destruct (release_lock_ok inst d _ _ _ _ _ _ I2 Hi) as (r3 & t3 & A3 & am' & E3 & I3 & Ham & HA).
      rewrite lookup_insert_eq, Hg2, decide_True in HA by done. destruct HA as (_ & -> & HP3).
      exists r3, t3, am'. split_and!; try done.
      + by rewrite set_over_insert in I3.
      + rewrite <- Hdq. apply (HP3 i Hd). by rewrite Hdq.
    - replace (drc_bitmap64_exist (lk_granted_map ab) inst) with false.
      2:{ symmetry. destruct (drc_bitmap64_exist _ _) eqn:Ex; [|done]. apply bm_exist_spec in Ex; [done|done]. }
      by exists OG_SUCCESS, t2, am. }
  exists d, ab, a, s, qq, t1, r2, t2, r3, t3, f2, am'. rewrite Hab0, Eb1, Eb2. split_and!; done.
Qed.

(** The lock [d] has been through the loop. *)
Definition lock_done inst d (ab : alock) A' (msgs : list err_msg) : Prop :=
  A' !! d = clean_lock inst ab /\ forall r, r ∈ lk_convert_q ab -> inst_id r <> inst -> error_to r ∈ msgs.

Lemma clean_lock_loop_ok inst failed q : is_inst inst -> 0 <= q < DRC_MAX_PART_NUM ->
  forall rest l1 rnd msgs t A f F Sp am, lock_inv t A f F Sp am -> gr_part (tb_res t) q (l1 ++ rest) ->
  exists ended msgs' t' A' f' am',
    clean_lock_loop signed pad (length rest) failed rnd inst (hd OG_INVALID_ID32 rest) msgs t = Ok (ended, msgs', t') /\
    lock_inv t' A' f' F Sp am' /\ (exists m, msgs' = msgs ++ m) /\
    (forall d, (forall i, am !! d = Some i -> i ∉ rest) -> A' !! d = A !! d) /\
    ((forall n, failed n = false) -> ended = true /\
     forall d i ab, am !! d = Some i -> i ∈ rest -> A !! d = Some ab -> lock_done inst d ab A' msgs').
Proof.
  intros Hi Hq. induction rest as [|i rest IH]; intros l1 rnd msgs t A f F Sp am I HP.
  { eexists _, _, _, _, _, _. split; [done|]. split_and!; try done; [exists []; by rewrite app_nil_r|].
    intros _. split; [done|]. intros ? ? ? _ Hx. by apply not_elem_of_nil in Hx. }
  cbn [length clean_lock_loop hd]. destruct (failed rnd) eqn:Ef.
  { eexists _, _, _, _, _, _. split; [done|]. split_and!; try done; [exists []; by rewrite app_nil_r|].
    intros Hf. by rewrite Hf in Ef. }
  destruct (clean_lock_round inst t A f F Sp am q l1 i rest I Hi Hq HP) as
    (d & ab & a & s & qq & t1 & r2 & t2 & r3 & t3 & f' & am1 & Hd & Hab & Hdq & -> & Hn & Hid & Ec & Et & E2 & E3 & I3 & Ham & HP3).
  cbn [mbind outcome_bind]. rewrite Hid. cbn [q_clean linked_queue]. rewrite Ec. cbn [mbind outcome_bind].
  rewrite Et. cbn [mbind outcome_bind]. rewrite E2. cbn [mbind outcome_bind]. rewrite E3. cbn [mbind outcome_bind]. rewrite Hn.
  assert (NoDup (l1 ++ i :: rest)) as HND.
  { eapply (gr_part_mem _ _ (tb_res t) _ _ _ _ _ i (tr_gres _ _ _ _ _ _ _ _ (lv_rep _ _ _ _ _ _ I)) Hq HP). }
  apply NoDup_app in HND as (_ & _ & [Hir _]%NoDup_cons).
  assert (forall d', am !! d' = Some i -> d' = d) as Hinj by (intros d' Hd'; eapply tab_inj; [apply I|done|done]).
  assert (exists l1', gr_part (tb_res t3) q (l1' ++ rest)) as (l1' & HP').
  { destruct (clean_lock inst ab); [exists (l1 ++ [i]); by rewrite <- app_assoc|by exists l1]. }
  destruct (IH l1' (S rnd) (msgs ++ sq_msgs inst (lk_convert_q ab)) t3 _ _ _ _ _ I3 HP') as
    (ended & msgs' & t' & A' & f2 & am2 & -> & I' & (m' & ->) & Hkeep & Hend).
  assert (A' !! d = clean_lock inst ab) as HdA.
  { rewrite Hkeep; [by rewrite lookup_partial_alter_eq|]. intros j Hj Hjr.
    destruct (gr_part_mem _ _ (tb_res t3) _ _ _ _ _ j (tr_gres _ _ _ _ _ _ _ _ (lv_rep _ _ _ _ _ _ I3)) Hq HP') as [_ Hm].
    destruct (gr_part_mem _ _ (tb_res t) _ _ _ _ _ j (tr_gres _ _ _ _ _ _ _ _ (lv_rep _ _ _ _ _ _ I)) Hq HP) as [_ Hm0].
    assert (j ∈ l1 ++ i :: rest) as (d0 & Hd0 & _)%Hm0 by (apply elem_of_app; right; by right).
    destruct (decide (d0 = d)) as [->|Hne]; [congruence|]. rewrite <- Ham in Hd0 by done.
    apply Hne. eapply tab_inj; [apply I3|done|done]. }
  eexists _, _, _, _, _, _. split; [done|]. split_and!; try done.
  - eexists. by rewrite <- app_assoc.
  - intros d' Hd'. assert (d' <> d) as Hne by (intros ->; apply (Hd' i Hd); by left).
    rewrite Hkeep; [by rewrite lookup_partial_alter_ne|]. intros j Hj Hjr. rewrite Ham in Hj by done.
    apply (Hd' j Hj). by right.
  - intros Hf. destruct (Hend Hf) as [-> Hdone]. split; [done|]. intros d' j ab' Hj Hjr Hab'.
    destruct (decide (d' = d)) as [->|Hne].
    + assert (ab' = ab) as -> by congruence. split; [done|]. intros r Hr Hri. apply elem_of_app. left. apply elem_of_app. right.
      apply list_elem_of_fmap. exists r. split; [done|]. by apply list_elem_of_filter.
    + apply (Hdone d' j ab'); rewrite ?Ham, ?lookup_partial_alter_ne by done; try done.
      apply elem_of_cons in Hjr as [->|]; [|done]. by destruct Hne; apply Hinj.
Qed.

(** [drc_clean_lock_owner_by_part]. *)
Lemma clean_lock_part_ok inst failed q t A f F Sp am :
  lock_inv t A f F Sp am -> is_inst inst -> 0 <= q < DRC_MAX_PART_NUM ->
  exists ended msgs t' A' f' am',
    drc_clean_lock_owner_by_part signed pad failed inst q t = Ok (ended, msgs, t') /\
    lock_inv t' A' f' F Sp am' /\ (forall d, lpart d <> q -> A' !! d = A !! d) /\
    ((forall n, failed n = false) -> ended = true /\
     forall d ab, A !! d = Some ab -> lpart d = q -> lock_done inst d ab A' msgs).
Proof.
  intros I Hi Hq. pose proof (tr_gres _ _ _ _ _ _ _ _ (lv_rep _ _ _ _ _ _ I)) as G.
  destruct (gr_part_exists _ _ _ _ _ _ q G Hq) as (l & HP).
  assert (forall j, j ∈ l <-> exists d, am !! d = Some j /\ lpart d = q) as Hm.
  { intros j. by destruct (gr_part_mem _ _ (tb_res t) _ _ _ _ _ j G Hq HP). }
  destruct (clean_lock_loop_ok inst failed q Hi Hq l [] 0%nat [] t A f F Sp am I HP) as
    (ended & msgs & t' & A' & f' & am' & EL & I' & _ & Hkeep & Hend).
  unfold drc_clean_lock_owner_by_part. destruct HP as (lst & Hl & Hr). rewrite Hl.
  rewrite (lr_count _ _ _ Hr), (lr_first _ _ _ Hr), Nat2Z.id, EL.
  exists ended, msgs, t', A', f', am'. split_and!; try done.
  - intros d Hd. apply Hkeep. intros j Hj (d' & Hd' & Hp)%Hm.
    assert (d' = d) as -> by (eapply tab_inj; [apply I|done|done]). done.
  - intros Hf. destruct (Hend Hf) as [-> Hdn]. split; [done|]. intros d ab Hd Hp.
    assert (is_Some (am !! d)) as [j Hj] by (apply (tr_dom _ _ _ _ _ _ _ _ (lv_rep _ _ _ _ _ _ I)); eauto).
    apply (Hdn d j); [done| |done]. apply Hm. eauto.
Qed.

(** Instance [inst] may not be entered as a holder in mode [m]. *)
Definition holder_conflict (inst m : Z) (ab : alock) : Prop :=
  bm_mem (lk_granted_map ab) inst \/
  (lk_mode ab <> DRC_LOCK_NULL /\ (m = DRC_LOCK_EXCLUSIVE \/ lk_mode ab = DRC_LOCK_EXCLUSIVE)).

#[local] Instance holder_conflict_dec inst m ab : Decision (holder_conflict inst m ab).
Proof. unfold holder_conflict, bm_mem. apply _. Defined.

(** Instance [inst] has been entered as a holder. *)
Definition holder_entered (inst m : Z) (ab ab' : alock) : Prop :=
  lk_mode ab' = m /\ (forall i, bm_mem (lk_granted_map ab') i <-> i = inst \/ bm_mem (lk_granted_map ab) i) /\
  inst_id (lk_converting ab') = OG_INVALID_ID8.

(** The second half of [drc_rcy_lock_res_info] and of [drc_recovery_lockinfo]:
    a holder is made to ask for what it holds and then claims it. *)
Lemma rcy_enter_ok vc (req : drc_req_info -> drc_req_info) sid m inst t A f F Sp am d ab :
  (forall r, inst_id (req r) = inst /\ req_mode (req r) = m) ->
  lock_inv t A f F Sp am -> A !! d = Some ab -> lk_convert_q ab = [] -> is_inst inst -> real_mode m ->
  ~ holder_conflict inst m ab ->
  exists i b t2 t3 f3 ab', lock_lookup signed pad t d = Ok (Some i) /\ tb_get t i = Ok b /\
    tb_put t i (lk_set_converting (req (lk_converting b)) b) = Ok t2 /\
    drc_claim_lock_owner signed pad vc d (mk_lclaim inst m sid) (v_trigger_version vc) true t2 = Ok (OG_SUCCESS, t3) /\
    lock_inv t3 (<[d := ab']> A) f3 F Sp am /\ holder_entered inst m ab ab'.
Proof.
  intros Hreq I Hd Hq Hi Hm Hno. pose proof (lv_ok _ _ _ _ _ _ I _ _ Hd) as L. destruct (Hreq (lk_converting ab)) as [Hri Hrm].
  assert (lock_req (req (lk_converting ab))) as Hr by (split; congruence).
  destruct (lock_store _ _ _ _ _ _ _ _ (fun Q (x : master_res Q) => lk_set_converting (req (lk_converting x)) x) I Hd) as
    (i & b & t2 & Hi2 & Hl2 & Hb2 & Hab2 & Et2 & I2); try done; [by apply lock_ok_converting|].
  destruct (claim_lock_ok vc d (mk_lclaim inst m sid) (v_trigger_version vc) true
    t2 _ _ _ _ _ _ I2 (lookup_insert_eq _ _ _)) as (t3 & f3 & ab3 & E3 & I3 & _ & (_ & Hcm & Hg & Hcq)).
  { split_and!; cbn; try congruence; [rewrite Hri; by apply is_inst_ne|]. right. left. intros ?. apply Hno. by left. }
  { by right. }
  rewrite insert_insert_eq in I3. exists i, b, t2, t3, f3, ab3. split_and!; try done. unfold holder_entered. split_and!; [done| |].
  - intros j. rewrite Hg. cbn. split; [tauto|]. intros [?|Hj]; [by left|right].
    split; [|done]. intros Hx. apply Hno. right. split; [|by left]. intros Hz. rewrite (lo_null _ L Hz) in Hj.
    by apply (proj1 (bm_zero 0 is_u64_0) eq_refl) in Hj.
  - cbn [lk_set_converting lk_convert_q] in Hcq. rewrite Hq in Hcq. tauto.
Qed.

(** The test of [drc_rcy_lock_res_info] refuses exactly the conflicts. *)
Lemma rcy_test_ok inst m ab : lock_ok ab -> is_inst inst -> real_mode m ->
  mode_compatible m (lk_mode ab) ≫= (fun c => Ok (drc_bitmap64_exist (lk_granted_map ab) inst || negb c)) =
    Ok (bool_decide (holder_conflict inst m ab)).
Proof.
  intros L Hi Hm. rewrite (mode_compatible_spec _ _ Hm (lo_mode _ L)). cbn [mbind outcome_bind]. f_equal.
  apply eq_true_iff_eq. rewrite orb_true_iff, negb_true_iff, bm_exist_spec, bool_decide_eq_false, bool_decide_eq_true by done.
  unfold holder_conflict. destruct Hm as [->| ->], (lo_mode _ L) as [->|[->| ->]]; intuition discriminate.
Qed.

(** [drc_rcy_lock_res_info]: a surviving holder is entered in a lock no
    other holder conflicts with. *)
Lemma rcy_lock_ok vc rl inst t A f F Sp am :
  lock_inv t A f F Sp am -> is_inst inst -> real_mode (rl_lock_mode rl) ->
  (A !! rl_res_id rl = None -> Z.of_nat (size A) + Z.of_nat (size Sp) < lcap t) ->
  (forall ab, A !! rl_res_id rl = Some ab -> lk_convert_q ab = []) ->
  exists ret t' A' f' am', drc_rcy_lock_res_info signed pad vc rl inst t = Ok (ret, t') /\
    lock_inv t' A' f' F Sp am' /\ (forall d, d <> rl_res_id rl -> A' !! d = A !! d) /\
    let ab := default (new_master_res [] (rl_res_id rl)) (A !! rl_res_id rl) in
    if bool_decide (holder_conflict inst (rl_lock_mode rl) ab) then ret = OG_ERROR /\ A' = A
    else ret = OG_SUCCESS /\ exists ab', A' !! rl_res_id rl = Some ab' /\ holder_entered inst (rl_lock_mode rl) ab ab'.
Proof.
  intros I Hi Hm Hroom Hidle. set (d := rl_res_id rl) in *. unfold drc_rcy_lock_res_info. fold d. cbv zeta.
  destruct (A !! d) as [ab|] eqn:Hd; cbn [default from_option id].
  - destruct (lock_step _ _ _ _ _ _ _ _ I Hd) as (i & b & E & _ & Hl & Hb & _ & _ & Hab & _).
    pose proof (lv_ok _ _ _ _ _ _ I _ _ Hd) as L. rewrite Hl. cbn [mbind outcome_bind]. rewrite Hb. cbn [mbind outcome_bind].
    assert (lk_mode b = lk_mode ab /\ lk_granted_map b = lk_granted_map ab) as (-> & ->) by (rewrite Hab; done).
    pose proof (rcy_test_ok inst _ ab L Hi Hm) as HT.
    destruct (mode_compatible (rl_lock_mode rl) (lk_mode ab)) as [c|]; [|done]. cbn [mbind outcome_bind] in HT |- *.
    injection HT as ->. case_bool_decide as Hx; cbn [mbind outcome_bind]; [by eexists _, _, A, f, am|].
    destruct (rcy_enter_ok vc (rcy_request (v_trigger_version vc) inst (rl_lock_mode rl)) OG_INVALID_ID16 _ inst _ _ _ _ _ _ _ _ (fun _ => conj eq_refl eq_refl) I Hd (Hidle _ eq_refl) Hi Hm Hx) as
      (i' & b' & t2 & t3 & f3 & ab' & -> & Hb' & E2 & E3 & I3 & HE).
    cbn [mbind outcome_bind]. rewrite Hb'. cbn [mbind outcome_bind]. rewrite E2. cbn [mbind outcome_bind]. rewrite E3.
    cbn [mbind outcome_bind]. eexists _, _, _, _, _. split; [done|]. split; [done|].
    split; [intros; by apply lookup_insert_ne|]. split; [done|]. exists ab'. by rewrite lookup_insert_eq.
  - rewrite (lock_lookup_none _ _ _ _ _ _ _ I Hd). cbn [mbind outcome_bind].
    destruct (create_lock_ok _ _ _ _ _ _ _ I Hd) as [[Hc _]|(i & t1 & -> & I1)]; [specialize (Hroom eq_refl); lia|].
    cbn [mbind outcome_bind].
    assert (~ holder_conflict inst (rl_lock_mode rl) (new_master_res [] d)) as Hx.
    { intros [Hb|[Hn _]]; [|done]. by apply (proj1 (bm_zero 0 is_u64_0) eq_refl) in Hb. }
    rewrite bool_decide_eq_false_2 by done.
    destruct (rcy_enter_ok vc (rcy_request (v_trigger_version vc) inst (rl_lock_mode rl)) OG_INVALID_ID16 _ inst _ _ _ _ _ _ _ _ (fun _ => conj eq_refl eq_refl) I1 (lookup_insert_eq _ _ _) eq_refl Hi Hm Hx) as
      (i' & b' & t2 & t3 & f3 & ab' & -> & Hb' & E2 & E3 & I3 & HE).
    cbn [mbind outcome_bind]. rewrite Hb'. cbn [mbind outcome_bind]. rewrite E2. cbn [mbind outcome_bind]. rewrite E3.
    cbn [mbind outcome_bind]. rewrite insert_insert_eq in I3. eexists _, _, _, _, _. split; [done|]. split; [done|].
    split; [intros; by apply lookup_insert_ne|]. split; [done|]. exists ab'. by rewrite lookup_insert_eq.
Qed.
End LockThm.
