(* ===== verification/DrcLockProps.v ===== *)
(** The lock master is correct: the theorems about the handlers of locks, and
    a run on a small table that each of them applies to. *)

From S2P Require Import Prelude DrcBitmap DrcPool DrcResMap DrcList DrcGlobalRes DrcQueue DrcTable DrcReform DrcLock.
From S2P Require Import DrcLockInv DrcLockThm.

(** ** A small table *)
Definition demo_lpool {A} : drc_res_pool A := mk_pool false 0 0 0 0 ∅.
Definition demo_lgres : drc_global_res (master_res drc_list) := mk_gres (mk_map false demo_lpool 0 ∅) ∅.
Definition demo_ltab : ltab :=
  match drc_res_pool_init true 64 4 demo_lpool, drc_global_res_init true true 4 200 demo_lgres with
  | Ok (_, p), Ok (_, g) => mk_tab p g
  | _, _ => mk_tab demo_lpool demo_lgres
  end.

Definition demo_lock : drid := mk_drid 7 1 42 OG_INVALID_ID32 OG_INVALID_ID32 OG_INVALID_ID32 0.
Definition demo_lreq (inst mode : Z) : drc_req_info := mk_req inst mode DRC_LOCK_NULL 0 10 1 100 5 0 0.
Definition demo_lview : view :=
  mk_view REMASTER_DONE REFORM_RECOVER_DONE 5 false false true 0 (fun _ => false) (mk_drid 0 0 0 0 0 0 0) [].
Definition demo_out : lock_reply := mk_reply OG_ERROR false 0.
Notation demo_pad := [0; 0; 0].
Notation demo_inv := (lock_inv true demo_pad).

Lemma demo_lreq_ok inst : is_inst inst -> lock_req (demo_lreq inst DRC_LOCK_EXCLUSIVE).
Proof. intros H. split; [exact H|by right]. Qed.

Lemma demo_ltab_inv : demo_inv demo_ltab ∅ 4 ∅ ∅ ∅.
Proof.
  destruct (tab_init_ok (B := master_res) (lock_hash true demo_pad) (lock_partid true demo_pad) (lock_partid_range true demo_pad)
    demo_lpool demo_lgres 200 4 64 4) as (p & g & Ep & Eg & R & _); try done; [intros; by apply lock_hash_range|].
  unfold demo_ltab. rewrite Ep, Eg. split; [done|]. intros k ab Hk. by rewrite lookup_empty in Hk.
Qed.

Lemma lock_env_id version d r views : lock_env true demo_pad version d r views (fun _ t => t).
Proof. intros n t A f F Sp am i ab I Hi Hd Hw. exists A, f, F, Sp, am. split; [done|]. right. by exists ab. Qed.

(** Instance 1 requests the lock in exclusive mode and claims it; then
    instance 2 requests it, and instance 3. *)
Definition demo_lrequest (n : nat) (inst : Z) (t : ltab) : outcome (option lock_reply * ltab) :=
  drc_request_lock_owner true demo_pad n demo_lview (fun _ => demo_lview) (fun _ t => t) demo_lock
    (demo_lreq inst DRC_LOCK_EXCLUSIVE) 5 demo_out t.
Definition demo_lrun {X} (o : outcome (X * ltab)) : ltab := match o with Ok (_, t) => t | Crash _ => demo_ltab end.
Definition demo_reply {X} (o : outcome (X * ltab)) : option X := match o with Ok (x, _) => Some x | Crash _ => None end.
Definition demo_lclaim (inst : Z) (t : ltab) : outcome (status * ltab) :=
  drc_claim_lock_owner true demo_pad demo_lview demo_lock (mk_lclaim inst DRC_LOCK_EXCLUSIVE 10) 5 false t.

Definition demo_asked : ltab := demo_lrun (demo_lrequest 0 1 demo_ltab).
Definition demo_held : ltab := demo_lrun (demo_lclaim 1 demo_asked).
Definition demo_ask (n : nat) (inst : Z) (t : ltab) : ltab := demo_lrun (demo_lrequest n inst t).
Definition demo_hlock : alock :=
  mk_master demo_lock DRC_LOCK_EXCLUSIVE (drc_bitmap64_set 0 1)
    (set_inst_id OG_INVALID_ID8 (demo_lreq 1 DRC_LOCK_EXCLUSIVE)) [].

Lemma demo_asked_inv : exists am, demo_inv demo_asked {[demo_lock := first_lock demo_lock (demo_lreq 1 DRC_LOCK_EXCLUSIVE)]} 4 ∅ ∅ am.
Proof.
  destruct (request_first_lock_ok true demo_pad 0 demo_lview (fun _ => demo_lview) (fun _ t => t) demo_lock
    (demo_lreq 1 DRC_LOCK_EXCLUSIVE) 5 demo_out demo_ltab ∅ 4 ∅ ∅ ∅ demo_ltab_inv) as (t' & i & E & I).
  - by apply demo_lreq_ok.
  - done.
  - vm_compute. done.
  - done.
  - exists (<[demo_lock := i]> ∅). unfold demo_asked, demo_lrequest. rewrite E. done.
Qed.

Lemma demo_held_inv : exists am, demo_inv demo_held {[demo_lock := demo_hlock]} 4 ∅ ∅ am.
Proof.
  destruct demo_asked_inv as [am I]. exists am.
  destruct (claim_lock_ok true demo_pad demo_lview demo_lock (mk_lclaim 1 DRC_LOCK_EXCLUSIVE 10) 5 false demo_asked
    _ _ _ _ _ _ I (lookup_singleton_eq _ _)) as (t' & f' & ab' & E & I' & Ec & _).
  - split_and!; [done|done|done|by left].
  - by left.
  - vm_compute in Ec. injection Ec as <- <-. unfold demo_held, demo_lclaim. rewrite E. by rewrite insert_singleton_eq in I'.
Qed.

Definition demo_lconv : ltab := demo_ask 0 2 demo_held.
Definition demo_lwait : ltab := demo_ask 0 3 demo_lconv.
Definition demo_clock : alock := lk_set_converting (demo_lreq 2 DRC_LOCK_EXCLUSIVE) demo_hlock.
Definition demo_wlock : alock := lk_set_q [demo_lreq 3 DRC_LOCK_EXCLUSIVE] demo_clock.

Lemma demo_ask_inv inst t f ab am a f' ab' :
  is_inst inst -> demo_inv t {[demo_lock := ab]} f ∅ ∅ am ->
  request_on_lock f ab (demo_lreq inst DRC_LOCK_EXCLUSIVE) demo_out = Ok (a, f', ab') ->
  demo_inv (demo_ask 0 inst t) {[demo_lock := ab']} f' ∅ ∅ am.
Proof.
  intros Hi I E. destruct (request_known_lock_ok true demo_pad 0 demo_lview (fun _ => demo_lview) (fun _ t => t) demo_lock
    (demo_lreq inst DRC_LOCK_EXCLUSIVE) 5 demo_out t _ _ _ _ _ _ I (demo_lreq_ok _ Hi) (lookup_singleton_eq _ _) eq_refl)
    as (i & a1 & f1 & ab1 & t1 & _ & E1 & I1 & E2).
  rewrite E in E1. injection E1 as <- <- <-. unfold demo_ask, demo_lrequest. rewrite E2.
  rewrite insert_singleton_eq in I1. by destruct a.
Qed.

Lemma demo_lconv_inv : exists am, demo_inv demo_lconv {[demo_lock := demo_clock]} 4 ∅ ∅ am.
Proof. destruct demo_held_inv as [am I]. exists am. eapply demo_ask_inv; [done|exact I|vm_compute; reflexivity]. Qed.
Lemma demo_lwait_inv : exists am, demo_inv demo_lwait {[demo_lock := demo_wlock]} 3 ∅ ∅ am.
Proof. destruct demo_lconv_inv as [am I]. exists am. eapply demo_ask_inv; [done|exact I|vm_compute; reflexivity]. Qed.

(** ** Requests *)

(** C15: a request for a lock, in shared or exclusive mode, with an item left
    for a new lock, never panics and keeps the table well-formed.  An answer
    without error comes only when the requester is the one converting, and
    then it agrees with the map of holders: the lock is granted only when
    every holder has it in shared mode and so does the requester (an exclusive
    lock only when nobody holds it); it is refused only when the modes
    conflict and somebody holds the lock, with the map of all the holders, or
    when the lock was left with a mode but no holder, which happens when the
    last holder is recycled while a request is converting.  A request cut
    while it waits has met no reform, and is still in the queue or
    converting.  Assumed of the other threads ([lock_env]): between two rounds
    of the wait they keep the table well-formed and take the waiting request
    away only when a reform has begun, which the next round sees. *)
Theorem lock_request_answer signed pad n v views env d r version out0 t A f F Sp am :
  lock_inv signed pad t A f F Sp am -> lock_req r -> lock_env signed pad version d r views env ->
  (A !! d = None -> Z.of_nat (size A) + Z.of_nat (size Sp) < lcap t) ->
  exists o t' A' f' F' Sp' am', drc_request_lock_owner signed pad n v views env d r version out0 t = Ok (o, t') /\
    lock_inv signed pad t' A' f' F' Sp' am' /\
    match o with
    | None => DRC_STOP_DLS_REQ_FOR_REFORMING version v d = false /\ is_Some (A !! d) /\
        (forall m, (m < n)%nat -> DRC_STOP_DLS_REQ_FOR_REFORMING version (views m) d = false) /\
        exists ab, A' !! d = Some ab /\ waiting r ab
    | Some a => lr_status a = OG_ERROR \/
        exists ab, A' !! d = Some ab /\ inst_id (lk_converting ab) = inst_id r /\ holders_answer r ab a
    end.
Proof.
  intros I Hr He Hroom.
  destruct (request_lock_ok signed pad n v views env d r version out0 t A f F Sp am I Hr He Hroom)
    as (o & t' & A' & f' & F' & Sp' & am' & E & I' & H).
  exists o, t', A', f', F', Sp', am'. split; [done|]. split; [done|]. destruct o as [a|]; [|done].
  destruct H as [?|(ab & Hd & Hc & Ha)]; [by left|]. right. exists ab. split_and!; try done.
  apply (answer_holders r 0); [exact (lv_ok _ _ _ _ _ _ _ _ I' _ _ Hd)|apply Hr|done].
Qed.

Lemma lock_request_answer_witness : exists o t' A' f' F' Sp' am',
  demo_lrequest 3 3 demo_lconv = Ok (o, t') /\ demo_inv t' A' f' F' Sp' am' /\ o = None /\
  exists ab, A' !! demo_lock = Some ab /\ waiting (demo_lreq 3 DRC_LOCK_EXCLUSIVE) ab.
Proof.
  destruct demo_lconv_inv as [am I].
  destruct (lock_request_answer true demo_pad 3 demo_lview (fun _ => demo_lview) (fun _ t => t) demo_lock
    (demo_lreq 3 DRC_LOCK_EXCLUSIVE) 5 demo_out demo_lconv _ _ _ _ _ I) as (o & t' & A' & f' & F' & Sp' & am' & E & I' & H).
  - apply demo_lreq_ok. vm_compute. split; [discriminate|reflexivity].
  - apply lock_env_id.
  - intros H. by rewrite lookup_singleton_eq in H.
  - exists o, t', A', f', F', Sp', am'. split; [exact E|]. split; [exact I'|].
    assert (demo_reply (demo_lrequest 3 3 demo_lconv) = Some None) as Hr by (vm_compute; reflexivity).
    unfold demo_lrequest in Hr. rewrite E in Hr. injection Hr as ->.
    split; [reflexivity|]. apply H.
Defined.

(** A request that does not wait is granted, refused or turned away
    exactly as a waiting one would be answered, and one turned away changes
    nothing. *)
Theorem lock_try signed pad v0 v d r version out0 t A f F Sp am :
  lock_inv signed pad t A f F Sp am -> lock_req r ->
  exists a t' A' am', drc_try_request_lock_owner signed pad v0 v d r version out0 t = Ok (a, t') /\
    lock_inv signed pad t' A' f F Sp am' /\
    (lr_status a = OG_ERROR -> A' = A) /\
    (lr_status a = OG_SUCCESS -> exists ab, lk_converting ab = r /\ A' = <[d := ab]> A /\
       answer_ok r (lk_granted_map ab) ab a).
Proof. apply try_lock_ok. Qed.

Lemma lock_try_witness : exists a t' A' am',
  drc_try_request_lock_owner true demo_pad demo_lview demo_lview demo_lock (demo_lreq 2 DRC_LOCK_EXCLUSIVE) 5 demo_out demo_held =
    Ok (a, t') /\ demo_inv t' A' 4 ∅ ∅ am' /\ lr_granted a = false /\ lr_old_map a = 2.
Proof.
  destruct demo_held_inv as [am I].
  destruct (lock_try true demo_pad demo_lview demo_lview demo_lock (demo_lreq 2 DRC_LOCK_EXCLUSIVE) 5 demo_out demo_held
    _ _ _ _ _ I) as (a & t' & A' & am' & E & I' & _).
  - apply demo_lreq_ok. vm_compute. split; [discriminate|reflexivity].
  - exists a, t', A', am'. split; [exact E|]. split; [exact I'|].
    assert (demo_reply (drc_try_request_lock_owner true demo_pad demo_lview demo_lview demo_lock
      (demo_lreq 2 DRC_LOCK_EXCLUSIVE) 5 demo_out demo_held) = Some (mk_reply OG_SUCCESS false 2)) as Hr by (vm_compute; reflexivity).
    rewrite E in Hr. injection Hr as ->. split; reflexivity.
Defined.

(** ** Claims, cancellations and releases *)

(** C16: a claim that names the converting request (instance and mode), from
    an instance that does not hold the lock yet unless the claim is exclusive
    or the lock is a table lock (the code panics otherwise), and that no
    reform stops (or that comes from the remaster itself), makes its author a
    holder, the only one if the mode is exclusive, sets the mode of the lock
    to the claimed one and makes the first waiter the converting request. *)
Theorem lock_claim_grants signed pad v d c version is_remaster t A f F Sp am ab :
  lock_inv signed pad t A f F Sp am -> A !! d = Some ab -> claim_ok c ab ->
  DRC_STOP_DLS_REQ_FOR_REFORMING version v d = false \/ is_remaster = true ->
  exists t' f' ab', drc_claim_lock_owner signed pad v d c version is_remaster t = Ok (OG_SUCCESS, t') /\
    lock_inv signed pad t' (<[d := ab']> A) f' F Sp am /\ claim_on_lock f ab c = Ok (f', ab') /\ claimed c ab ab'.
Proof. apply claim_lock_ok. Qed.

Lemma lock_claim_grants_witness : exists t' f' ab' am, demo_lclaim 2 demo_lwait = Ok (OG_SUCCESS, t') /\
  demo_inv t' (<[demo_lock := ab']> {[demo_lock := demo_wlock]}) f' ∅ ∅ am /\ lk_granted_map ab' = 4 /\
  inst_id (lk_converting ab') = 3.
Proof.
  destruct demo_lwait_inv as [am I].
  destruct (lock_claim_grants true demo_pad demo_lview demo_lock (mk_lclaim 2 DRC_LOCK_EXCLUSIVE 10) 5 false demo_lwait
    _ _ _ _ _ demo_wlock I) as (t' & f' & ab' & E & I' & Ec & _).
  - apply lookup_singleton_eq.
  - split_and!; [discriminate|reflexivity|reflexivity|by left].
  - left. reflexivity.
  - exists t', f', ab', am. split; [exact E|]. split; [exact I'|]. vm_compute in Ec. injection Ec as _ <-. split; reflexivity.
Defined.

(** A release by a holder takes it out of the holders, frees the mode
    when it was the last, and retires the lock, its slot going back to the
    pool, exactly when no holder and no request is left; a release by anybody
    else is refused and changes nothing. *)
Theorem lock_release signed pad old d t A f F Sp am :
  lock_inv signed pad t A f F Sp am -> is_inst old ->
  exists ret t' A' am', drc_release_lock_owner signed pad old d t = Ok (ret, t') /\ lock_inv signed pad t' A' f F Sp am' /\
    match A !! d with
    | None => ret = OG_ERROR /\ A' = A
    | Some ab =>
        if decide (bm_mem (lk_granted_map ab) old) then
          ret = OG_SUCCESS /\ A' = partial_alter (fun _ => lock_left (drop_holder old ab)) d A
        else ret = OG_ERROR /\ A' = A
    end.
Proof.
  intros I Ho. destruct (release_lock_ok signed pad old d t A f F Sp am I Ho) as (ret & t' & A' & am' & E & I' & _ & H).
  exists ret, t', A', am'. split; [done|]. split; [done|]. destruct (A !! d) as [ab|]; [|done].
  destruct (decide _); [|done]. by destruct H as (? & ? & _).
Qed.

Lemma lock_release_witness : exists t' am', drc_release_lock_owner true demo_pad 1 demo_lock demo_held = Ok (OG_SUCCESS, t') /\
  demo_inv t' ∅ 4 ∅ ∅ am'.
Proof.
  destruct demo_held_inv as [am I].
  destruct (lock_release true demo_pad 1 demo_lock demo_held _ _ _ _ _ I) as (ret & t' & A' & am' & E & I' & H).
  - vm_compute. split; [discriminate|reflexivity].
  - rewrite lookup_singleton_eq in H. destruct (decide _) as [Hm|Hm].
    + destruct H as [-> ->]. exists t', am'. split; [exact E|].
      replace (partial_alter _ demo_lock _) with (∅ : lock_catalogue) in I'; [exact I'|].
      apply map_eq. intros d. destruct (decide (d = demo_lock)) as [->|].
      * rewrite lookup_partial_alter_eq. reflexivity.
      * by rewrite lookup_partial_alter_ne, lookup_singleton_ne.
    + exfalso. apply Hm, bm_exist_spec; [lia|reflexivity].
Defined.

(** A cancellation by the converting instance converts the first waiter,
    or leaves the lock idle when nobody waits; one that comes after the
    conversion has moved on changes nothing. *)
Theorem lock_cancel signed pad inst d t A f F Sp am :
  lock_inv signed pad t A f F Sp am ->
  exists ret t' A' f', drc_cancel_lock_owner_request signed pad inst d t = Ok (ret, t') /\ lock_inv signed pad t' A' f' F Sp am /\
    match A !! d with
    | None => ret = OG_ERROR /\ t' = t /\ A' = A
    | Some ab => ret = OG_SUCCESS /\
        if decide (inst_id (lk_converting ab) = inst) then
          exists ab', A' = <[d := ab']> A /\ lk_mode ab' = lk_mode ab /\ lk_granted_map ab' = lk_granted_map ab /\
            match lk_convert_q ab with
            | [] => inst_id (lk_converting ab') = OG_INVALID_ID8 /\ lk_convert_q ab' = []
            | r :: rs => lk_converting ab' = r /\ lk_convert_q ab' = rs
            end
        else t' = t /\ A' = A
    end.
Proof.
  intros I. destruct (cancel_lock_ok signed pad inst d t A f F Sp am I) as (ret & t' & A' & f' & E & I' & H).
  exists ret, t', A', f'. split; [done|]. split; [done|]. destruct (A !! d) as [ab|] eqn:Hd; [|done].
  destruct H as [-> H]. split; [done|]. destruct (decide _); [|done]. destruct H as (ab' & Ec & ->).
  destruct (convert_lock_ok f ab (lv_ok _ _ _ _ _ _ _ _ I _ _ Hd)) as (f1 & ab1 & Ec' & _ & _ & Hm & Hg & Hq).
  rewrite Ec in Ec'. injection Ec' as <- <-. exists ab'. split_and!; try done. destruct (lk_convert_q ab); tauto.
Qed.

Lemma lock_cancel_witness : exists t' ab' f' am,
  drc_cancel_lock_owner_request true demo_pad 2 demo_lock demo_lwait = Ok (OG_SUCCESS, t') /\
  demo_inv t' (<[demo_lock := ab']> {[demo_lock := demo_wlock]}) f' ∅ ∅ am /\
  lk_converting ab' = demo_lreq 3 DRC_LOCK_EXCLUSIVE.
Proof.
  destruct demo_lwait_inv as [am I].
  destruct (lock_cancel true demo_pad 2 demo_lock demo_lwait _ _ _ _ _ I) as (ret & t' & A' & f' & E & I' & H).
  rewrite lookup_singleton_eq in H. destruct H as [-> H]. destruct (decide _) as [_|Hn]; [|by destruct Hn].
  destruct H as (ab' & -> & _ & _ & Hc & _). exists t', ab', f', am. split; [exact E|]. split; [exact I'|exact Hc].
Defined.

(** Recycling a lock on behalf of an instance takes that instance out of
    its holders, and retires the lock when no holder and no request is left. *)
Theorem lock_recycle signed pad v d version inst t A f F Sp am :
  lock_inv signed pad t A f F Sp am -> is_inst inst ->
  exists ret t' A' am', drc_recycle_dls_master signed pad v d version inst t = Ok (ret, t') /\
    lock_inv signed pad t' A' f F Sp am' /\
    match A !! d with
    | Some ab => if DRC_STOP_DLS_REQ_FOR_REFORMING version v d then ret = OG_ERROR /\ A' = A else
        ret = OG_SUCCESS /\
        A' = partial_alter (fun _ => lock_left (lk_set_granted (drc_bitmap64_clear (lk_granted_map ab) inst) ab)) d A
    | None => ret = (if DRC_STOP_DLS_REQ_FOR_REFORMING version v d then OG_ERROR else OG_SUCCESS) /\ A' = A
    end.
Proof. apply recycle_lock_ok. Qed.

Lemma lock_recycle_witness : exists ret t' A' am',
  drc_recycle_dls_master true demo_pad demo_lview demo_lock 5 1 demo_held = Ok (ret, t') /\ demo_inv t' A' 4 ∅ ∅ am' /\
  A' !! demo_lock = None.
Proof.
  destruct demo_held_inv as [am I].
  destruct (lock_recycle true demo_pad demo_lview demo_lock 5 1 demo_held _ _ _ _ _ I) as (ret & t' & A' & am' & E & I' & H).
  - vm_compute. split; [discriminate|reflexivity].
  - exists ret, t', A', am'. split; [exact E|]. split; [exact I'|]. rewrite lookup_singleton_eq in H.
    destruct H as [_ ->]. rewrite lookup_partial_alter_eq. reflexivity.
Defined.

(** When a request is converting, recycling the last holder leaves the
    lock with no holder in the mode it had: an exclusive lock nobody holds is
    then refused to the next exclusive request, although a release by the
    same holder would have freed it. *)
Theorem lock_recycle_keeps_mode :
  let recycled := lk_set_granted (drc_bitmap64_clear (lk_granted_map demo_clock) 1) demo_clock in
  lock_left recycled = Some recycled /\ lk_granted_map recycled = 0 /\ lk_mode recycled = DRC_LOCK_EXCLUSIVE /\
  lock_answer DRC_LOCK_EXCLUSIVE 0 recycled = Ok (mk_reply OG_SUCCESS false 0) /\
  lock_answer DRC_LOCK_EXCLUSIVE 0 (drop_holder 1 demo_clock) = Ok (mk_reply OG_SUCCESS true 0).
Proof. cbv zeta. split_and!; vm_compute; reflexivity. Qed.

(** The partition of a lock, and with it the instance that masters it,
    depends on bytes of its id that the comparison of ids does not look at:
    two ids the hash map takes for the same lock can belong to different
    partitions. *)
Theorem lock_partition_padding :
  exists pad1 pad2, length pad1 = 3%nat /\ length pad2 = 3%nat /\
    lock_partid true pad1 demo_lock <> lock_partid true pad2 demo_lock.
Proof. exists [0; 0; 0], [0; 0; 1]. split_and!; [done|done|]. vm_compute. discriminate. Qed.

(** ** A crashed instance *)

(** C33: cleaning a partition of locks after the crash of an instance ends
    without a panic and keeps the table well-formed; if the remaster does not
    fail on the way, every lock of the partition is either retired or has
    nothing left of the crashed instance and nobody waiting, every waiter of
    a surviving instance has been told, and the locks of the other partitions
    are untouched. *)
Theorem lock_crash_cleaned signed pad inst failed q t A f F Sp am :
  lock_inv signed pad t A f F Sp am -> is_inst inst -> 0 <= q < DRC_MAX_PART_NUM ->
  exists ended msgs t' A' f' am',
    drc_clean_lock_owner_by_part signed pad failed inst q t = Ok (ended, msgs, t') /\
    lock_inv signed pad t' A' f' F Sp am' /\ (forall d, lock_partid signed pad d <> q -> A' !! d = A !! d) /\
    ((forall n, failed n = false) -> ended = true /\
     forall d ab, A !! d = Some ab -> lock_partid signed pad d = q ->
       (A' !! d = None \/ exists ab', A' !! d = Some ab' /\ lock_gone inst ab') /\
       forall r, r ∈ lk_convert_q ab -> inst_id r <> inst -> error_to r ∈ msgs).
Proof.
  intros I Hi Hq. destruct (clean_lock_part_ok signed pad inst failed q t A f F Sp am I Hi Hq) as
    (ended & msgs & t' & A' & f' & am' & E & I' & Hk & Hend).
  exists ended, msgs, t', A', f', am'. split_and!; try done. intros Hf. destruct (Hend Hf) as [-> Hd]. split; [done|].
  intros d ab Hd' Hp. destruct (Hd d ab Hd' Hp) as [HA Hm]. split; [|done]. rewrite HA.
  destruct (clean_lock inst ab) as [ab'|] eqn:Ec; [right; exists ab'|by left]. split; [done|].
  eapply clean_lock_gone; [by eapply (lv_ok _ _ _ _ _ _ _ _ I)|done|done].
Qed.

Lemma lock_crash_cleaned_witness : exists msgs t' A' f' am',
  drc_clean_lock_owner_by_part true demo_pad (fun _ => false) 2 (lock_partid true demo_pad demo_lock) demo_lwait =
    Ok (true, msgs, t') /\ demo_inv t' A' f' ∅ ∅ am' /\ error_to (demo_lreq 3 DRC_LOCK_EXCLUSIVE) ∈ msgs.
Proof.
  destruct demo_lwait_inv as [am I].
  destruct (lock_crash_cleaned true demo_pad 2 (fun _ => false) (lock_partid true demo_pad demo_lock) demo_lwait _ _ _ _ _ I)
    as (ended & msgs & t' & A' & f' & am' & E & I' & _ & Hend).
  - vm_compute. split; [discriminate|reflexivity].
  - apply lock_partid_range.
  - destruct (Hend (fun _ => eq_refl)) as [-> Hd]. exists msgs, t', A', f', am'. split; [exact E|]. split; [exact I'|].
    destruct (Hd demo_lock demo_wlock (lookup_singleton_eq _ _) eq_refl) as [_ Hm]. apply Hm; [by left|discriminate].
Defined.

(** The report of a surviving holder is entered in the lock, made anew
    if the master does not know it, unless the survivor is already a holder
    or its mode conflicts with that of the others; then the report is refused
    and nothing changes. *)
Theorem lock_rcy_report signed pad vc rl inst t A f F Sp am :
  lock_inv signed pad t A f F Sp am -> is_inst inst -> real_mode (rl_lock_mode rl) ->
  (A !! rl_res_id rl = None -> Z.of_nat (size A) + Z.of_nat (size Sp) < lcap t) ->
  (forall ab, A !! rl_res_id rl = Some ab -> lk_convert_q ab = []) ->
  exists ret t' A' f' am', drc_rcy_lock_res_info signed pad vc rl inst t = Ok (ret, t') /\
    lock_inv signed pad t' A' f' F Sp am' /\ (forall d, d <> rl_res_id rl -> A' !! d = A !! d) /\
    let ab := default (new_master_res [] (rl_res_id rl)) (A !! rl_res_id rl) in
    (holder_conflict inst (rl_lock_mode rl) ab /\ ret = OG_ERROR /\ A' = A) \/
    (~ holder_conflict inst (rl_lock_mode rl) ab /\ ret = OG_SUCCESS /\
     exists ab', A' !! rl_res_id rl = Some ab' /\ holder_entered inst (rl_lock_mode rl) ab ab').
Proof.
  intros I Hi Hm Hr Hq. destruct (rcy_lock_ok signed pad vc rl inst t A f F Sp am I Hi Hm Hr Hq) as
    (ret & t' & A' & f' & am' & E & I' & Hk & H).
  exists ret, t', A', f', am'. split_and!; try done. cbv zeta in H |- *. case_bool_decide; [by left|by right].
Qed.

Lemma lock_rcy_report_witness : exists t' A' f' am',
  drc_rcy_lock_res_info true demo_pad demo_lview (mk_rlock demo_lock DRC_LOCK_SHARE) 3 demo_ltab = Ok (OG_SUCCESS, t') /\
  demo_inv t' A' f' ∅ ∅ am' /\ exists ab', A' !! demo_lock = Some ab' /\ bm_mem (lk_granted_map ab') 3.
Proof.
  destruct (lock_rcy_report true demo_pad demo_lview (mk_rlock demo_lock DRC_LOCK_SHARE) 3 demo_ltab _ _ _ _ _ demo_ltab_inv)
    as (ret & t' & A' & f' & am' & E & I' & _ & H).
  - vm_compute. split; [discriminate|reflexivity].
  - left. reflexivity.
  - intros _. vm_compute. reflexivity.
  - intros ab Hab. by rewrite lookup_empty in Hab.
  - cbv zeta in H. destruct H as [[Hc _]|(_ & -> & ab' & Hab & _ & Hg & _)].
    + exfalso. destruct Hc as [[_ Hc]|[Hc _]]; [vm_compute in Hc; discriminate Hc|apply Hc; reflexivity].
    + exists t', A', f', am'. split; [exact E|]. split; [exact I'|]. exists ab'. split; [exact Hab|]. apply Hg. by left.
Defined.
