(* ===== verification/DrcMigrate.v ===== *)
(** The migration of resources: the messages in which an instance sends the
    resources of a partition to the new master, their handler, the thread
    that finds a partition complete, and the freeing of a partition
    (src/pkg/src/cluster/dtc_drc.c).

    Pages and locks are migrated by two copies of the same code: what is
    common is written once over the class [MgrtRes], whose two instances are
    the parts in which the copies differ. *)

From S2P Require Import Prelude DrcBitmap DrcPool DrcResMap DrcList DrcGlobalRes DrcQueue DrcTable DrcReform DrcPart DrcPage DrcLock DrcRemaster.

(** ** Messages

    [sizeof] of the structures of a message on a 64-bit machine. *)
Definition MES_MESSAGE_BUFFER_SIZE : Z := 32 * 1024 + 64.
Definition sizeof_res_master_msg : Z := 80.
Definition sizeof_buf_res_msg : Z := 56.
Definition sizeof_lock_res_msg : Z := 40.
Definition sizeof_le_msg : Z := 4.
Definition REMASTER_MIG_MAX_BUF_RES_NUM : Z := (MES_MESSAGE_BUFFER_SIZE - sizeof_res_master_msg) / sizeof_buf_res_msg.
Definition REMASTER_MIG_MAX_LOCK_RES_NUM : Z := (MES_MESSAGE_BUFFER_SIZE - sizeof_res_master_msg) / sizeof_lock_res_msg.

(** [drc_res_type_e]. *)
Definition DRC_RES_PAGE_TYPE : Z := 1.
Definition DRC_RES_LOCK_TYPE : Z := 2.

(** [drc_le_msg_t], [drc_buf_res_msg_t], [drc_lock_res_msg_t]. *)
Record drc_le_msg := mk_le { lm_inst : Z; lm_mode : Z; lm_sid : Z }.
Record drc_buf_res_msg := mk_bmsg {
  bm_mode : Z; bm_owner : Z; bm_latest_edp : Z; bm_latest_edp_lsn : Z; bm_le_num : Z;
  bm_page_id : page_id; bm_lsn : Z; bm_edp_map : Z; bm_copies : Z;
}.
Record drc_lock_res_msg := mk_lmsg { lm_res_id : drid; lm_lock_mode : Z; lm_le_num : Z; lm_granted : Z }.

(** What the buffer of a message holds at an offset. *)
Inductive cell := CPage (m : drc_buf_res_msg) | CLock (m : drc_lock_res_msg) | CLe (m : drc_le_msg) | CNum (n : Z).

(** [drc_res_master_msg_t] with its head and its buffer. *)
Record drc_res_master_msg := mk_gmsg {
  gm_src : Z; gm_size : Z; gm_part : Z; gm_num : Z; gm_end : bool; gm_type : Z; gm_version : Z; gm_cells : gmap Z cell;
}.

(** A read of the buffer at an offset where there is no such structure. *)
Definition rd_cell {M} (sel : cell -> option M) (c : gmap Z cell) (off : Z) : outcome M :=
  match c !! off ≫= sel with Some m => Ok m | None => Crash BadAddr end.
Definition sel_le (c : cell) : option drc_le_msg := if c is CLe m then Some m else None.
Definition sel_num (c : cell) : option Z := if c is CNum n then Some n else None.

(** [DRC_LE_SET] on the request of an item. *)
Definition DRC_LE_SET (inst md sid : Z) (r : drc_req_info) : drc_req_info := set_inst_sid sid (set_req_mode md (set_inst_id inst r)).

(** [drc_set_le_msg]: [item] is the one the next entry is copied from. *)
Fixpoint set_le_loop (n : nat) (off : Z) (item : drc_lock_item) (first : Z) (p : drc_res_pool drc_lock_item) (c : gmap Z cell) :
    outcome (gmap Z cell) :=
  match n with
  | O => Ok c
  | S n' =>
      let r := li_req item in
      let c := <[off := CLe (mk_le (inst_id r) (req_mode r) (inst_sid r))]> c in
      match n' with
      | O => Ok c
      | S _ => a ← load p first; set_le_loop n' (off + sizeof_le_msg) a (li_next a) p c
      end
  end.
Definition drc_set_le_msg (off le_num : Z) (converting : drc_req_info) (q : drc_list) (p : drc_res_pool drc_lock_item) (c : gmap Z cell) :
    outcome (gmap Z cell) :=
  set_le_loop (Z.to_nat le_num) off (mk_litem 0 converting) (lst_first q) p c.

(** [drc_get_le_msg]. *)
Fixpoint drc_get_le_msg (n : nat) (off : Z) (c : gmap Z cell) (p : drc_res_pool drc_lock_item) (q : drc_list) :
    outcome (drc_res_pool drc_lock_item * drc_list) :=
  match n with
  | O => Ok (p, q)
  | S n' =>
      m ← rd_cell sel_le c off;
      '(i, p) ← drc_res_pool_alloc_item p;
      if i =? OG_INVALID_ID32 then Ok (p, q)
      else
        a ← load p i;
        p ← store p i (mk_litem OG_INVALID_ID32 (DRC_LE_SET (lm_inst m) (lm_mode m) (lm_sid m) (li_req a)));
        '(p, q) ← (if lst_count q =? 0 then Ok (p, mk_list i i (u32 (lst_count q + 1)))
                   else p ← store_next p (lst_last q) i; Ok (p, mk_list (lst_first q) i (u32 (lst_count q + 1))));
        drc_get_le_msg n' (off + sizeof_le_msg) c p q
  end.

(** ** What differs between pages and locks *)
Class MgrtRes (B : Type -> Type) (K M : Type) `{QueuedRes B K} := {
  mg_type : Z;
  mg_size : Z;
  mg_max : Z;
  mg_converting : forall {Q}, B Q -> drc_req_info;
  (** The members that are sent. *)
  mg_pack : forall {Q}, Z -> B Q -> M;
  mg_cell : M -> cell;
  mg_sel : cell -> option M;
  mg_key : M -> K;
  (** The entries a receiver skips after the structure. *)
  mg_skip : M -> Z;
  (** The test of a resource that is already there. *)
  mg_same : forall {Q}, B Q -> M -> bool;
  (** The members set in a new resource, from a structure at an offset. *)
  mg_init : gmap Z cell -> Z -> M -> drc_res_pool drc_lock_item -> B drc_list -> outcome (drc_res_pool drc_lock_item * B drc_list);
  mg_sel_cell : forall m, mg_sel (mg_cell m) = Some m;
  mg_key_pack : forall Q n (b : B Q), mg_key (mg_pack n b) = qr_key b;
}.

(** [drc_init_buf_res]. *)
Definition buf_of_msg {Q} (m : drc_buf_res_msg) (conv : drc_req_info) (q : Q) : buf_res Q :=
  mk_buf (bm_owner m) (bm_latest_edp m) DRC_RES_INVALID_ACTION (bm_latest_edp_lsn m) (bm_mode m) (bm_page_id m) conv q true
    (bm_edp_map m) (bm_lsn m) (bm_copies m).
Definition drc_init_buf_res (c : gmap Z cell) (off : Z) (m : drc_buf_res_msg) (p : drc_res_pool drc_lock_item) (b : buf_res drc_list) :
    outcome (drc_res_pool drc_lock_item * buf_res drc_list) :=
  if bm_le_num m =? 0 then
    Ok (p, buf_of_msg m (DRC_LE_SET OG_INVALID_ID8 DRC_LOCK_NULL OG_INVALID_ID16 (converting b)) DRC_LIST_INIT)
  else
    le ← rd_cell sel_le c (off + sizeof_buf_res_msg);
    let conv := DRC_LE_SET (lm_inst le) (lm_mode le) (lm_sid le) (converting b) in
    '(p, q) ← (if 1 <? bm_le_num m
               then drc_get_le_msg (Z.to_nat (bm_le_num m - 1)) (off + sizeof_buf_res_msg + sizeof_le_msg) c p (convert_q b)
               else Ok (p, convert_q b));
    Ok (p, buf_of_msg m conv q).

(** [drc_check_migrate_buf_res_info]. *)
Definition drc_check_migrate_buf_res_info {Q} (b : buf_res Q) (m : drc_buf_res_msg) : bool :=
  (claimed_owner b =? bm_owner m) && (mode b =? bm_mode m) && (latest_edp b =? bm_latest_edp m) &&
  (latest_edp_lsn b =? bm_latest_edp_lsn m) && (buf_lsn b =? bm_lsn m) && (edp_map b =? bm_edp_map m) &&
  (readonly_copies b =? bm_copies m).

(** The members of a page that [drc_send_buf_master_blk] copies. *)
Definition pack_buf {Q} (le_num : Z) (b : buf_res Q) : drc_buf_res_msg :=
  mk_bmsg (mode b) (claimed_owner b) (latest_edp b) (latest_edp_lsn b) (u8 le_num) (buf_page_id b) (buf_lsn b) (edp_map b) (readonly_copies b).

#[export, refine] Instance buf_mgrt : MgrtRes buf_res page_id drc_buf_res_msg := {|
  mg_type := DRC_RES_PAGE_TYPE;
  mg_size := sizeof_buf_res_msg;
  mg_max := REMASTER_MIG_MAX_BUF_RES_NUM;
  mg_converting := fun Q (b : buf_res Q) => converting b;
  mg_pack := fun Q n (b : buf_res Q) => pack_buf n b;
  mg_cell := CPage;
  mg_sel := fun c => if c is CPage m then Some m else None;
  mg_key := bm_page_id;
  mg_skip := bm_le_num;
  mg_same := fun Q (b : buf_res Q) m => drc_check_migrate_buf_res_info b m;
  mg_init := drc_init_buf_res;
|}.
Proof. all: done. Defined.

(** [dtc_init_lock_res]. *)
Definition lock_of_msg {Q} (m : drc_lock_res_msg) (conv : drc_req_info) (q : Q) : master_res Q :=
  mk_master (lm_res_id m) (lm_lock_mode m) (lm_granted m) conv q.
Definition dtc_init_lock_res (c : gmap Z cell) (off : Z) (m : drc_lock_res_msg) (p : drc_res_pool drc_lock_item) (b : master_res drc_list) :
    outcome (drc_res_pool drc_lock_item * master_res drc_list) :=
  if lm_le_num m =? 0 then Ok (p, lock_of_msg m (set_inst_id OG_INVALID_ID8 (lk_converting b)) DRC_LIST_INIT)
  else
    le ← rd_cell sel_le c (off + sizeof_lock_res_msg);
    let conv := DRC_LE_SET (lm_inst le) (lm_mode le) (lm_sid le) (lk_converting b) in
    '(p, q) ← (if 1 <? lm_le_num m
               then drc_get_le_msg (Z.to_nat (lm_le_num m - 1)) (off + sizeof_lock_res_msg + sizeof_le_msg) c p DRC_LIST_INIT
               else Ok (p, DRC_LIST_INIT));
    Ok (p, lock_of_msg m conv q).

(** The members of a lock that [drc_send_lock_master_blk] copies. *)
Definition pack_lock {Q} (le_num : Z) (b : master_res Q) : drc_lock_res_msg :=
  mk_lmsg (lk_res_id b) (lk_mode b) (u32 le_num) (lk_granted_map b).

(** A receiver of locks neither compares a lock that is there nor skips the
    entries of the queue. *)
#[export, refine] Instance lock_mgrt : MgrtRes master_res drid drc_lock_res_msg := {|
  mg_type := DRC_RES_LOCK_TYPE;
  mg_size := sizeof_lock_res_msg;
  mg_max := REMASTER_MIG_MAX_LOCK_RES_NUM;
  mg_converting := fun Q (b : master_res Q) => lk_converting b;
  mg_pack := fun Q n (b : master_res Q) => pack_lock n b;
  mg_cell := CLock;
  mg_sel := fun c => if c is CLock m then Some m else None;
  mg_key := lm_res_id;
  mg_skip := fun _ => 0;
  mg_same := fun Q (_ : master_res Q) _ => true;
  mg_init := dtc_init_lock_res;
|}.
Proof. all: done. Defined.

(** ** Sending a partition *)

(** The buffer that is being filled: the offset, [res_num] and the cells. *)
Record sbuf := mk_sbuf { sb_off : Z; sb_num : Z; sb_cells : gmap Z cell }.
Definition sb_start (c : gmap Z cell) : sbuf := mk_sbuf sizeof_res_master_msg 0 c.
Definition msg_of (self type part version : Z) (ended : bool) (sb : sbuf) : drc_res_master_msg :=
  mk_gmsg self (sb_off sb) part (sb_num sb) ended type version (sb_cells sb).

Section Send.
Context {B : Type -> Type} {K M : Type} `{MgrtRes B K M}.
Context (send : nat -> status) (self part version : Z).

(** A resource is put in the buffer: the members of its structure and the
    requests that wait for it. *)
Definition put_res (le_num : Z) (b : B drc_list) (p : drc_res_pool drc_lock_item) (sb : sbuf) : outcome sbuf :=
  let c := <[sb_off sb := mg_cell (mg_pack le_num b)]> (sb_cells sb) in
  c ← (if 0 <? le_num then drc_set_le_msg (sb_off sb + mg_size) le_num (mg_converting b) (qr_queue b) p c else Ok c);
  Ok (mk_sbuf (sb_off sb + mg_size + sizeof_le_msg * le_num) (sb_num sb + 1) c).

(** The loop of [drc_send_buf_master_blk] and of [drc_send_lock_master_blk]
    over the list of the partition from slot [idx] on.  Message [k] that is
    sent comes to [send k].  The thread holds the lock under which every
    other thread changes the resource while it waits for the request that is
    converting: with such a request it waits for ever ([None]). *)
Fixpoint send_loop (n : nat) (idx : Z) (sb : sbuf) (sent : list drc_res_master_msg) (t : res_tab B) :
    outcome (option (status * sbuf * list drc_res_master_msg)) :=
  match n with
  | O => Ok (Some (OG_SUCCESS, sb, sent))
  | S n' =>
      a ← load (gr_pool (tb_res t)) idx;
      let b := body a in
      if negb (inst_id (mg_converting b) =? OG_INVALID_ID8) then Ok None
      else
        let le_num := if inst_id (mg_converting b) =? OG_INVALID_ID8 then 0 else 1 + lst_count (qr_queue b) in
        if MES_MESSAGE_BUFFER_SIZE <? sb_off sb + mg_size + sizeof_le_msg * le_num then
          if bool_decide (send (length sent) = OG_ERROR) then Ok (Some (OG_ERROR, sb, sent))
          else
            sb' ← put_res le_num b (tb_items t) (sb_start (sb_cells sb));
            send_loop n' (ln_next (item_node a)) sb' (sent ++ [msg_of self mg_type part version false sb]) t
        else
          sb' ← put_res le_num b (tb_items t) sb;
          send_loop n' (ln_next (item_node a)) sb' sent t
  end.
End Send.

(** [drc_send_buf_master_blk]: the status, [res_count] and the messages. *)
Definition drc_send_buf_master_blk (malloc_ok : bool) (send : nat -> status) (self part version : Z) (t : res_tab buf_res) :
    outcome (option (status * Z * list drc_res_master_msg)) :=
  lst ← rd (res_parts (tb_res t)) part;
  if lst_count lst =? 0 then Ok (Some (OG_SUCCESS, 0, []))
  else if negb malloc_ok then Ok (Some (OG_ERROR, 0, []))
  else
    o ← send_loop send self part version (Z.to_nat (lst_count lst)) (lst_first lst) (sb_start ∅) [] t;
    match o with
    | None => Ok None
    | Some (OG_ERROR, _, sent) => Ok (Some (OG_ERROR, lst_count lst, sent))
    | Some (OG_SUCCESS, sb, sent) =>
        if bool_decide (send (length sent) = OG_ERROR) then Ok (Some (OG_ERROR, lst_count lst, sent))
        else Ok (Some (OG_SUCCESS, lst_count lst, sent ++ [msg_of self DRC_RES_PAGE_TYPE part version false sb]))
    end.

(** [DRC_MGRT_MSG_SET_RES_CNT]. *)
Definition set_res_cnt (buf_cnt lock_cnt : Z) (sb : sbuf) : sbuf :=
  mk_sbuf (sb_off sb + 4 + 4) (sb_num sb) (<[sb_off sb + 4 := CNum lock_cnt]> (<[sb_off sb := CNum buf_cnt]> (sb_cells sb))).

(** [drc_send_mgrt_part_end]. *)
Definition mgrt_part_end (self part version buf_cnt lock_cnt : Z) (c : gmap Z cell) : drc_res_master_msg :=
  msg_of self DRC_RES_LOCK_TYPE part version true (set_res_cnt buf_cnt lock_cnt (sb_start c)).

(** [drc_send_lock_master_blk]: the status and the messages. *)
Definition drc_send_lock_master_blk (malloc_ok : bool) (send : nat -> status) (self part version buf_cnt : Z) (t : res_tab master_res) :
    outcome (option (status * list drc_res_master_msg)) :=
  if negb malloc_ok then Ok (Some (OG_ERROR, []))
  else
    lst ← rd (res_parts (tb_res t)) part;
    o ← send_loop send self part version (Z.to_nat (lst_count lst)) (lst_first lst) (sb_start ∅) [] t;
    match o with
    | None => Ok None
    | Some (OG_ERROR, _, sent) => Ok (Some (OG_ERROR, sent))
    | Some (OG_SUCCESS, sb, sent) =>
        if sb_off sb + 4 + 4 <=? MES_MESSAGE_BUFFER_SIZE then
          if bool_decide (send (length sent) = OG_ERROR) then Ok (Some (OG_ERROR, sent))
          else Ok (Some (OG_SUCCESS, sent ++ [msg_of self DRC_RES_LOCK_TYPE part version true (set_res_cnt buf_cnt (lst_count lst) sb)]))
        else if bool_decide (send (length sent) = OG_ERROR) then Ok (Some (OG_ERROR, sent))
        else
          let sent := sent ++ [msg_of self DRC_RES_LOCK_TYPE part version false sb] in
          if bool_decide (send (length sent) = OG_ERROR) then Ok (Some (OG_ERROR, sent))
          else Ok (Some (OG_SUCCESS, sent ++ [mgrt_part_end self part version buf_cnt (lst_count lst) (sb_cells sb)]))
    end.

(** [drc_migrate_master_blk] after the check of the task: the pages of the
    partition, then its locks. *)
Definition drc_migrate_part (malloc_ok : bool) (send_buf send_lock : nat -> status) (self part version : Z)
    (pages : res_tab buf_res) (locks : res_tab master_res) : outcome (option (status * list drc_res_master_msg)) :=
  o ← drc_send_buf_master_blk malloc_ok send_buf self part version pages;
  match o with
  | None => Ok None
  | Some (OG_ERROR, _, sent) => Ok (Some (OG_ERROR, sent))
  | Some (OG_SUCCESS, cnt, sent) =>
      o ← drc_send_lock_master_blk malloc_ok send_lock self part version cnt locks;
      match o with
      | None => Ok None
      | Some (ret, sent') => Ok (Some (ret, sent ++ sent'))
      end
  end.

(** ** Receiving *)
Section Receive.
Context {B : Type -> Type} {K M : Type} `{MgrtRes B K M}.
Context (hashf : Z -> K -> Z) (partf : K -> Z).

(** The loop of [drc_migrate_buf_res_l] and of [drc_migrate_lock_res_l]: the
    status, the offset at its end and the number of resources added. *)
Fixpoint migrate_loop (ids : list Z) (off added : Z) (c : gmap Z cell) (t : res_tab B) : outcome (status * Z * Z * res_tab B) :=
  match ids with
  | [] => Ok (OG_SUCCESS, off, added, t)
  | i :: ids' =>
      m ← rd_cell (mg_sel (B := B) (M := M)) c off;
      let h := tb_hash hashf t (mg_key (B := B) m) in
      let off' := off + mg_size (B := B) + mg_skip (B := B) m * sizeof_le_msg in
      o ← tb_lookup t h (mg_key m);
      match o with
      | Some j =>
          b ← tb_get t j;
          if negb (mg_same b m) then Ok (OG_ERROR, off, added, t)
          else t ← tb_free t i; migrate_loop ids' off' added c t
      | None =>
          b ← tb_get t i;
          '(p, b) ← mg_init c off m (tb_items t) b;
          g ← gr_fill (tb_res t) i b;
          g ← gr_map_add (K := K) g h i;
          g ← gr_list_add (K := K) g i (partf (mg_key (B := B) m));
          migrate_loop ids' off' (added + 1) c (mk_tab p g)
      end
  end.

(** The body that [drc_process_buf_master_blk] and
    [drc_process_lock_master_blk] share: the allocation of as many items as
    the message has resources, and the loop. *)
Definition migrate_alloc (malloc_ok : bool) (num : Z) (c : gmap Z cell) (t : res_tab B) : outcome (status * Z * Z * res_tab B) :=
  if negb malloc_ok then Ok (OG_ERROR, 0, 0, t)
  else
    '(ret, ids, p) ← drc_res_pool_alloc_batch_item (gr_pool (tb_res t)) num;
    if bool_decide (ret = OG_ERROR) then Ok (OG_ERROR, 0, 0, t)
    else migrate_loop ids sizeof_res_master_msg 0 c (tb_set_res (gr_set_pool p (tb_res t)) t).
End Receive.

(** The resources of an instance and what it knows of the partitions that
    come in: [mgrt_part_res_cnt], [mgrt_part_info] (the counts of pages and
    locks, and the instance that sent them), [remaster_task_set]. *)
Record rc_part_info := mk_pinfo { pi_pages : Z; pi_locks : Z; pi_src : Z }.
Record importer := mk_imp {
  im_items : drc_res_pool drc_lock_item;
  im_pages : drc_global_res (buf_res drc_list);
  im_locks : drc_global_res (master_res drc_list);
  im_cnt : gmap Z (Z * Z);
  im_info : gmap Z rc_part_info;
  im_tasks : gmap Z drc_remaster_task;
}.
Definition im_page_tab (s : importer) : res_tab buf_res := mk_tab (im_items s) (im_pages s).
Definition im_lock_tab (s : importer) : res_tab master_res := mk_tab (im_items s) (im_locks s).
Definition im_set_pages (t : res_tab buf_res) (s : importer) : importer :=
  mk_imp (tb_items t) (tb_res t) (im_locks s) (im_cnt s) (im_info s) (im_tasks s).
Definition im_set_locks (t : res_tab master_res) (s : importer) : importer :=
  mk_imp (tb_items t) (im_pages s) (tb_res t) (im_cnt s) (im_info s) (im_tasks s).
Definition im_set_cnt x (s : importer) : importer := mk_imp (im_items s) (im_pages s) (im_locks s) x (im_info s) (im_tasks s).
Definition im_set_part i k (s : importer) : importer := mk_imp (im_items s) (im_pages s) (im_locks s) (im_cnt s) i k.

Section Incoming.
Context (page_size : Z) (signed : bool) (pad : list Z) (self : Z).

(** The test of [drc_process_buf_master_blk] and its copy. *)
Definition mgrt_refused (max version : Z) (m : drc_res_master_msg) : bool :=
  (max <? gm_num m) || (DRC_MAX_PART_NUM <=? gm_part m) || negb (gm_version m =? version).

(** [drc_process_buf_master_blk]. *)
Definition drc_process_buf_master_blk (malloc_ok : bool) (version : Z) (m : drc_res_master_msg) (s : importer) : outcome (status * importer) :=
  if mgrt_refused REMASTER_MIG_MAX_BUF_RES_NUM version m then Ok (OG_ERROR, s)
  else if gm_num m =? 0 then Ok (OG_SUCCESS, s)
  else
    '(ret, _, added, t) ← migrate_alloc drc_page_id_hash (drc_page_partid page_size) malloc_ok (gm_num m) (gm_cells m) (im_page_tab s);
    let s := im_set_pages t s in
    if bool_decide (ret = OG_ERROR) then Ok (OG_ERROR, s)
    else
      cnt ← wr (im_cnt s) (gm_part m) (fun '(a, b) => (a + added, b));
      Ok (OG_SUCCESS, im_set_cnt cnt s).

(** [drc_process_mgrt_part_end]. *)
Definition drc_process_mgrt_part_end (off : Z) (m : drc_res_master_msg) (s : importer) : outcome importer :=
  a ← rd_cell sel_num (gm_cells m) off;
  b ← rd_cell sel_num (gm_cells m) (off + 4);
  info ← wr (im_info s) (gm_part m) (fun _ => mk_pinfo a b (gm_src m));
  tasks ← drc_update_remaster_task_status self (gm_part m) (gm_src m) PART_MIGRATING (im_tasks s);
  Ok (im_set_part info tasks s).

(** [drc_process_lock_master_blk]. *)
Definition drc_process_lock_master_blk (malloc_ok : bool) (version : Z) (m : drc_res_master_msg) (s : importer) : outcome (status * importer) :=
  if mgrt_refused REMASTER_MIG_MAX_LOCK_RES_NUM version m then Ok (OG_ERROR, s)
  else
    '(ret, off, added, t) ← migrate_alloc (lock_hash signed pad) (lock_partid signed pad) malloc_ok (gm_num m) (gm_cells m) (im_lock_tab s);
    let s := im_set_locks t s in
    if bool_decide (ret = OG_ERROR) then Ok (OG_ERROR, s)
    else
      cnt ← wr (im_cnt s) (gm_part m) (fun '(a, b) => (a, b + added));
      let s := im_set_cnt cnt s in
      if gm_end m then s ← drc_process_mgrt_part_end off m s; Ok (OG_SUCCESS, s) else Ok (OG_SUCCESS, s).

(** [drc_check_mgrt_data_msg]. *)
Definition drc_check_mgrt_data_msg (m : drc_res_master_msg) : bool :=
  (sizeof_res_master_msg <=? gm_size m) &&
  negb ((gm_type m =? DRC_RES_PAGE_TYPE) && (gm_size m <? sizeof_res_master_msg + gm_num m * sizeof_buf_res_msg)) &&
  negb ((gm_type m =? DRC_RES_LOCK_TYPE) && (gm_size m <? sizeof_res_master_msg + gm_num m * sizeof_lock_res_msg)).

(** [drc_process_mgrt_data]. *)
Definition drc_process_mgrt_data (malloc_ok : bool) (remaster_status rc_status version : Z) (m : drc_res_master_msg) (s : importer) :
    outcome importer :=
  if negb (drc_check_mgrt_data_msg m) then Ok s
  else if (remaster_status =? REMASTER_DONE) || (REFORM_RECOVER_DONE <=? rc_status) || (rc_status <? REFORM_FROZEN) then Ok s
  else if gm_type m =? DRC_RES_PAGE_TYPE then '(_, s) ← drc_process_buf_master_blk malloc_ok version m s; Ok s
  else if gm_type m =? DRC_RES_LOCK_TYPE then '(_, s) ← drc_process_lock_master_blk malloc_ok version m s; Ok s
  else Ok s.

(** One pass of [remaster_part_proc] over the tasks from [i] on. *)
Fixpoint part_pass (n : nat) (i : Z) (s : importer) : outcome importer :=
  match n with
  | O => Ok s
  | S n' =>
      t ← rd (im_tasks s) i;
      if negb ((tk_import t =? self) && negb (tk_export t =? self)) || negb (bool_decide (tk_status t = PART_MIGRATING))
      then part_pass n' (i + 1) s
      else
        info ← rd (im_info s) (tk_part t);
        bl ← rd (res_parts (im_pages s)) (tk_part t);
        ll ← rd (res_parts (im_locks s)) (tk_part t);
        if negb (pi_pages info =? lst_count bl) || negb (pi_locks info =? lst_count ll) then part_pass n' (i + 1) s
        else
          tasks ← drc_update_remaster_task_status self (tk_part t) (pi_src info) PART_MIGRATE_COMPLETE (im_tasks s);
          part_pass n' (i + 1) (im_set_part (im_info s) tasks s)
  end.
Definition remaster_part_proc (s : importer) : outcome importer := part_pass (Z.to_nat DRC_MAX_PART_NUM) 0 s.
End Incoming.

(** ** Freeing a partition *)
Section Free.
Context {B : Type -> Type} {K : Type} `{QueuedRes B K} (hashf : Z -> K -> Z).

(** The loop of [drc_free_buf_res_by_part] and [drc_free_lock_res_by_part]. *)
Fixpoint free_part_loop (n : nat) (idx : Z) (ids : list Z) (g : drc_global_res (B drc_list)) : outcome (list Z * drc_global_res (B drc_list)) :=
  match n with
  | O => Ok (ids, g)
  | S n' =>
      a ← load (gr_pool g) idx;
      let k := qr_key (body a) in
      g ← gr_map_remove (K := K) g (gr_hash hashf g k) k;
      g ← gr_memset (K := K) g idx;
      free_part_loop n' (ln_next (item_node a)) (ids ++ [idx]) g
  end.
Definition free_res_by_part (malloc_ok : bool) (part : Z) (t : res_tab B) : outcome (res_tab B) :=
  lst ← rd (res_parts (tb_res t)) part;
  if lst_count lst =? 0 then Ok t
  else if negb malloc_ok then Ok t
  else
    '(ids, g) ← free_part_loop (Z.to_nat (lst_count lst)) (lst_first lst) [] (tb_res t);
    p ← drc_res_pool_free_batch_item (gr_pool g) ids;
    let g := gr_set_pool p g in
    Ok (tb_set_res (mk_gres (res_map g) (<[part := DRC_LIST_INIT]> (res_parts g))) t).
End Free.

(** [drc_free_buf_res_by_part], [drc_free_lock_res_by_part]. *)
Definition drc_free_buf_res_by_part : bool -> Z -> res_tab buf_res -> outcome (res_tab buf_res) := free_res_by_part drc_page_id_hash.
Definition drc_free_lock_res_by_part (signed : bool) (pad : list Z) : bool -> Z -> res_tab master_res -> outcome (res_tab master_res) :=
  free_res_by_part (lock_hash signed pad).

(** The page table and the lock table.  [mem] says of which partitions the
    memory for the numbers of the pages, and of the locks, can be had. *)
Section FreeParts.
Context (signed : bool) (pad : list Z) (mem : Z -> bool * bool).

(** Both lists of a partition, as in [drc_free_migrated_res_proc] and
    [drc_free_immigrated_res]. *)
Definition free_both (part : Z) (c : res_tab buf_res * res_tab master_res) : outcome (res_tab buf_res * res_tab master_res) :=
  pages ← drc_free_buf_res_by_part (mem part).1 part c.1;
  locks ← drc_free_lock_res_by_part signed pad (mem part).2 part c.2;
  Ok (pages, locks).
Fixpoint free_parts (parts : list Z) (c : res_tab buf_res * res_tab master_res) : outcome (res_tab buf_res * res_tab master_res) :=
  match parts with
  | [] => Ok c
  | q :: parts' => c ← free_both q c; free_parts parts' c
  end.

(** [drc_free_migrated_res_proc]: the tasks [start .. start + count - 1]. *)
Fixpoint drc_free_migrated_res_proc (self : Z) (count : nat) (start : Z) (tasks : gmap Z drc_remaster_task) (c : res_tab buf_res * res_tab master_res) :
    outcome (res_tab buf_res * res_tab master_res) :=
  match count with
  | O => Ok c
  | S count' =>
      t ← rd tasks start;
      c ← (if negb (tk_export t =? self) then Ok c else free_both (tk_part t) c);
      drc_free_migrated_res_proc self count' (start + 1) tasks c
  end.

(** [drc_free_migrated_res]: the ranges of the threads, and the threads up to
    the first that cannot be created. *)
Definition DRC_FREE_MIG_RES_MAX_THREAD_NUM : Z := 8.
Definition free_job (num i : Z) : Z * Z :=
  let per := num / DRC_FREE_MIG_RES_MAX_THREAD_NUM in
  (i * per, if i =? DRC_FREE_MIG_RES_MAX_THREAD_NUM - 1 then per + num mod DRC_FREE_MIG_RES_MAX_THREAD_NUM else per).
Definition free_jobs (num : Z) : list (Z * Z) := free_job num <$> seqZ 0 DRC_FREE_MIG_RES_MAX_THREAD_NUM.
Fixpoint free_threads (self : Z) (i : nat) (jobs : list (Z * Z)) (created : nat -> status) (tasks : gmap Z drc_remaster_task)
    (c : res_tab buf_res * res_tab master_res) : outcome (status * (res_tab buf_res * res_tab master_res)) :=
  match jobs with
  | [] => Ok (OG_SUCCESS, c)
  | (start, count) :: jobs' =>
      if bool_decide (created i = OG_ERROR) then Ok (OG_ERROR, c)
      else
        c ← drc_free_migrated_res_proc self (Z.to_nat count) start tasks c;
        free_threads self (S i) jobs' created tasks c
  end.
Definition drc_free_migrated_res (self : Z) (created : nat -> status) (g : drc_remaster_mngr) (c : res_tab buf_res * res_tab master_res) :
    outcome (status * (res_tab buf_res * res_tab master_res)) :=
  free_threads self 0 (free_jobs (local_task_num g)) created (local_task_set g) c.
End FreeParts.
