(* ===== verification/DrcMigrateThm.v ===== *)
(** The migration of resources: what the messages of a partition hold, and
    what handling one does to the table of the receiver. *)

From S2P Require Import Prelude DrcBitmap DrcPool DrcResMap DrcList DrcGlobalRes DrcQueue DrcTable DrcReform DrcPart DrcPage DrcLock DrcRemaster DrcMigrate.

#[local] Notation len l := (Z.of_nat (length l)).

(** ** A kind of resource that is migrated

    [mg_plain] is a structure without waiting requests, [mg_new] the resource
    that is made of it. *)
Class MgrtLaws (B : Type -> Type) (K M : Type) `{MgrtRes B K M} := {
  mg_plain : M -> Prop;
  mg_new : forall {Q}, Q -> M -> B Q;
  ml_size : 8 <= mg_size (B := B) <= MES_MESSAGE_BUFFER_SIZE - sizeof_res_master_msg;
  ml_max : mg_max (B := B) = (MES_MESSAGE_BUFFER_SIZE - sizeof_res_master_msg) / mg_size (B := B);
  ml_pack : forall Q (b : B Q), mg_plain (mg_pack 0 b);
  ml_skip : forall m, mg_plain m -> mg_skip (B := B) m = 0;
  ml_init : forall c off m p, mg_plain m -> mg_init (B := B) c off m p qr_zero = Ok (p, mg_new DRC_LIST_INIT m);
  ml_key : forall Q (q : Q) m, qr_key (mg_new q m) = mg_key (B := B) m;
  ml_queue : forall Q (q : Q) m, qr_queue (mg_new q m) = q;
  ml_with : forall Q Q' (q : Q) (q' : Q') m, qr_with q' (mg_new q m) = mg_new q' m;
  ml_same : forall Q (q : Q) m, mg_same (B := B) (mg_new q m) m = true;
  (** Nobody waits for it. *)
  ml_idle : forall Q (q : Q) m, mg_plain m -> inst_id (mg_converting (mg_new q m)) = OG_INVALID_ID8;
  ml_conv : forall Q Q' (q : Q') (b : B Q), mg_converting (qr_with q b) = mg_converting b;
  ml_pack_with : forall Q Q' (q : Q') n (b : B Q), mg_pack n (qr_with q b) = mg_pack n b;
}.

(** The request of a resource that was just made: nobody's. *)
Definition idle_req : drc_req_info := DRC_LE_SET OG_INVALID_ID8 DRC_LOCK_NULL OG_INVALID_ID16 (mk_req 0 0 0 0 0 0 0 0 0 0).

#[export, refine] Instance buf_laws : MgrtLaws buf_res page_id drc_buf_res_msg := {|
  mg_plain := fun m => bm_le_num m = 0;
  mg_new := fun Q (q : Q) m => buf_of_msg m idle_req q;
|}.
Proof.
  all: try done.
  - intros c off m p Hm. cbn. unfold drc_init_buf_res. by rewrite Hm.
  - intros Q q m. cbn. unfold drc_check_migrate_buf_res_info. cbn. by rewrite !Z.eqb_refl.
Defined.

#[export, refine] Instance lock_laws : MgrtLaws master_res drid drc_lock_res_msg := {|
  mg_plain := fun m => lm_le_num m = 0;
  mg_new := fun Q (q : Q) m => lock_of_msg m (set_inst_id OG_INVALID_ID8 (mk_req 0 0 0 0 0 0 0 0 0 0)) q;
|}.
Proof.
  all: try done.
  - intros c off m p Hm. cbn. unfold dtc_init_lock_res. by rewrite Hm.
Defined.

(** ** What a buffer holds *)
Section Buffer.
Context {B : Type -> Type} {K M : Type} `{MgrtLaws B K M}.
Implicit Types (c : gmap Z cell) (ms : list M) (sb : sbuf).

#[local] Notation size := (mg_size (B := B)).
#[local] Notation at_ i := (sizeof_res_master_msg + size * Z.of_nat i).

Definition holds c ms : Prop := forall i m, ms !! i = Some m -> c !! at_ i = Some (mg_cell (B := B) m).
Record sb_is sb ms : Prop := {
  si_off : sb_off sb = at_ (length ms);
  si_num : sb_num sb = len ms;
  si_holds : holds (sb_cells sb) ms;
  si_fits : sb_off sb <= MES_MESSAGE_BUFFER_SIZE;
}.

(** A message with these structures. *)
Record carries (self part version : Z) (m : drc_res_master_msg) ms : Prop := {
  ca_src : gm_src m = self;
  ca_part : gm_part m = part;
  ca_type : gm_type m = mg_type (B := B);
  ca_version : gm_version m = version;
  ca_num : gm_num m = len ms;
  ca_holds : holds (gm_cells m) ms;
  ca_size : at_ (length ms) <= gm_size m <= MES_MESSAGE_BUFFER_SIZE;
}.

Lemma sb_start_is c : sb_is (sb_start c) [].
Proof. split; cbn; [lia|done|by intros i m ?|]. unfold sizeof_res_master_msg, MES_MESSAGE_BUFFER_SIZE. lia. Qed.

Lemma sb_carries self part version sb ms : sb_is sb ms -> carries self part version (msg_of self (mg_type (B := B)) part version false sb) ms.
Proof. intros [Ho Hn Hh Hf]. split; cbn; try done. lia. Qed.

Lemma put_res_ok (b : B drc_list) p sb ms : sb_is sb ms -> sb_off sb + size <= MES_MESSAGE_BUFFER_SIZE ->
  exists sb', put_res 0 b p sb = Ok sb' /\ sb_is sb' (ms ++ [mg_pack 0 b]).
Proof.
  intros [Ho Hn Hh Hf] Hs. unfold put_res. cbn [Z.ltb Z.compare mbind outcome_bind]. eexists. split; [done|].
  pose proof (ml_size (B := B) (M := M)). split; cbn [sb_off sb_num sb_cells].
  - rewrite length_app. cbn [length]. lia.
  - rewrite length_app. cbn [length]. lia.
  - intros i m Hi. apply lookup_app_Some in Hi as [Hi|[Hi Hm]].
    + rewrite lookup_insert_ne; [by apply Hh|]. apply lookup_lt_Some in Hi. rewrite Ho. nia.
    + apply list_lookup_singleton_Some in Hm as [Hm <-]. replace i with (length ms) by lia. by rewrite <- Ho, lookup_insert_eq.
  - lia.
Qed.

Lemma carries_unique self part version m ms ms' : carries self part version m ms -> carries self part version m ms' -> ms = ms'.
Proof.
  intros C C'. assert (length ms = length ms') as Hl by (apply Nat2Z.inj; rewrite <- (ca_num _ _ _ _ _ C); apply (ca_num _ _ _ _ _ C')).
  apply list_eq_same_length with (length ms); [done|done|]. intros i x y _ Hx Hy.
  pose proof (ca_holds _ _ _ _ _ C i x Hx) as E. rewrite (ca_holds _ _ _ _ _ C' i y Hy) in E. injection E as E.
  apply (f_equal (mg_sel (B := B) (M := M))) in E. rewrite !mg_sel_cell in E. by injection E.
Qed.

Lemma holds_num self part version m ms : carries self part version m ms -> gm_num m <= mg_max (B := B).
Proof.
  intros [_ _ _ _ -> _ Hs]. rewrite ml_max. pose proof (ml_size (B := B) (M := M)). apply Z.div_le_lower_bound; lia.
Qed.
End Buffer.

(** ** Sending *)
Section SendThm.
Context {B : Type -> Type} {K M : Type} `{MgrtLaws B K M}.
Context (hashf : Z -> K -> Z) (partf : K -> Z) (partf_range : forall k, 0 <= partf k < DRC_MAX_PART_NUM).
Context (send : nat -> status) (self part version : Z).
Implicit Types (t : res_tab B) (A : gmap K (B (list drc_req_info))) (am : gmap K Z) (ms : list M).

(** Nobody waits for a resource of the partition. *)
Definition calm_part A : Prop := forall k b, A !! k = Some b -> partf k = part -> inst_id (mg_converting b) = OG_INVALID_ID8.

(** The structures of the slots of a list. *)
Definition slot_msg t (i : Z) (m : M) : Prop := exists b, tb_get t i = Ok b /\ m = mg_pack 0 b.

(** A slot of the list of the partition. *)
Lemma part_slot t A f F Sp am l1 i l2 : 0 <= part < DRC_MAX_PART_NUM ->
  tab_rep hashf partf t A f F Sp am -> gr_part (tb_res t) part (l1 ++ i :: l2) ->
  exists k ab a, am !! k = Some i /\ A !! k = Some ab /\ partf k = part /\ load (gr_pool (tb_res t)) i = Ok a /\
    ln_next (item_node a) = hd OG_INVALID_ID32 l2 /\ ab = qr_with (qr_queue ab) (body a) /\ qr_key (body a) = k /\ tb_get t i = Ok (body a).
Proof.
  intros Hp R HP. destruct (gr_part_mem _ _ (tb_res t) _ _ _ _ _ i (tr_gres _ _ _ _ _ _ _ _ R) Hp HP) as [_ Hm].
  assert (i ∈ l1 ++ i :: l2) as (k & Hk & Hkq)%Hm by (apply elem_of_app; right; by left).
  assert (is_Some (A !! k)) as [ab Hab] by (apply (tr_dom _ _ _ _ _ _ _ _ R); eauto).
  destruct (tab_open _ _ t A f F Sp am k ab R Hab) as (i' & b & E & l & Hi' & _ & Hb & Hq & Hkey & _ & _).
  assert (i' = i) as -> by congruence. destruct (gr_part_next _ _ _ _ _ HP) as (a & Ha & Hn).
  assert (body a = b) as Hab0. { unfold tb_get, gr_get in Hb. rewrite Ha in Hb. cbn in Hb. by injection Hb. }
  exists k, ab, a. rewrite Hab0. split_and!; try done.
Qed.

Lemma calm_slot t A f F Sp am l1 i l2 : 0 <= part < DRC_MAX_PART_NUM -> calm_part A ->
  tab_rep hashf partf t A f F Sp am -> gr_part (tb_res t) part (l1 ++ i :: l2) ->
  exists a, load (gr_pool (tb_res t)) i = Ok a /\ ln_next (item_node a) = hd OG_INVALID_ID32 l2 /\
    inst_id (mg_converting (body a)) = OG_INVALID_ID8 /\ slot_msg t i (mg_pack 0 (body a)).
Proof.
  intros Hp Hc R HP. destruct (part_slot t A f F Sp am l1 i l2 Hp R HP) as (k & ab & a & Hk & Hab & Hkq & Ha & Hn & Hq & _ & Hg).
  exists a. split; [done|]. split; [done|]. split; [|by eexists].
  pose proof (Hc k ab Hab Hkq) as Hi. rewrite Hq, ml_conv in Hi. exact Hi.
Qed.

(** The loop: the messages that were sent and the buffer hold the structures
    in the order of the list, and when a message cannot be sent the rest is
    left. *)
Lemma send_loop_ok t A f F Sp am : 0 <= part < DRC_MAX_PART_NUM -> calm_part A -> tab_rep hashf partf t A f F Sp am ->
  forall rest l1 sb cur sent, gr_part (tb_res t) part (l1 ++ rest) -> sb_is (B := B) sb cur ->
  exists ret sb' new mss cur' packs left,
    send_loop send self part version (length rest) (hd OG_INVALID_ID32 rest) sb sent t = Ok (Some (ret, sb', sent ++ new)) /\
    Forall2 (slot_msg t) rest packs /\ Forall2 (fun m ms => carries (B := B) self part version m ms /\ gm_end m = false) new mss /\
    sb_is (B := B) sb' cur' /\ cur ++ packs = concat mss ++ cur' ++ left /\ (ret = OG_SUCCESS -> left = []) /\
    ((forall k, send k = OG_SUCCESS) -> ret = OG_SUCCESS).
Proof.
  intros Hp Hc R. induction rest as [|i rest IH]; intros l1 sb cur sent HP Hsb.
  { exists OG_SUCCESS, sb, [], [], cur, [], []. cbn. rewrite !app_nil_r. split_and!; try done; constructor. }
  destruct (calm_slot t A f F Sp am l1 i rest Hp Hc R HP) as (a & Ha & Hn & Hi & Hm).
  assert (gr_part (tb_res t) part ((l1 ++ [i]) ++ rest)) as HP' by (by rewrite <- app_assoc).
  cbn [length send_loop hd]. rewrite Ha. cbn [mbind outcome_bind]. rewrite Hi, Z.eqb_refl. cbn [negb]. rewrite Hn.
  replace (sb_off sb + mg_size (B := B) + sizeof_le_msg * 0) with (sb_off sb + mg_size (B := B)) by lia.
  destruct (Z.ltb_spec MES_MESSAGE_BUFFER_SIZE (sb_off sb + mg_size (B := B))) as [Hlt|Hge].
  - case_bool_decide as Hs.
    { assert (exists packs, Forall2 (slot_msg t) (i :: rest) packs) as [packs Hpk].
      { destruct (IH (l1 ++ [i]) sb cur sent HP' Hsb) as (_ & _ & _ & _ & _ & packs & _ & _ & Hpk & _). exists (mg_pack 0 (body a) :: packs). by constructor. }
      exists OG_ERROR, sb, [], [], cur, packs, packs. cbn. rewrite app_nil_r. split_and!; try done; try constructor. intros Hall. by rewrite Hall in Hs. }
    destruct (put_res_ok (body a) (tb_items t) (sb_start (sb_cells sb)) [] (sb_start_is _)) as (sb1 & -> & Hsb1).
    { cbn. pose proof (ml_size (B := B) (M := M)). lia. }
    cbn [mbind outcome_bind app] in *.
    destruct (IH (l1 ++ [i]) sb1 _ (sent ++ [msg_of self (mg_type (B := B)) part version false sb]) HP' Hsb1)
      as (ret & sb' & new & mss & cur' & packs & left & -> & Hpk & Hnew & Hsb' & Heq & Hl & Hall).
    exists ret, sb', (msg_of self (mg_type (B := B)) part version false sb :: new), (cur :: mss), cur', (mg_pack 0 (body a) :: packs), left.
    split; [by rewrite <- app_assoc|]. split; [by constructor|]. split; [constructor; [split; [by apply sb_carries|done]|done]|].
    split; [done|]. split; [cbn; rewrite <- app_assoc; f_equal; exact Heq|]. split; [done|done].
  - destruct (put_res_ok (body a) (tb_items t) sb cur Hsb ltac:(lia)) as (sb1 & -> & Hsb1). cbn [mbind outcome_bind].
    destruct (IH (l1 ++ [i]) sb1 _ sent HP' Hsb1) as (ret & sb' & new & mss & cur' & packs & left & -> & Hpk & Hnew & Hsb' & Heq & Hl & Hall).
    exists ret, sb', new, mss, cur', (mg_pack 0 (body a) :: packs), left. split; [done|]. split; [by constructor|].
    split; [done|]. split; [done|]. split; [by rewrite <- Heq, <- app_assoc|]. split; [done|done].
Qed.

(** The structures of the resources of the partition, each once. *)
Record part_packs A (packs : list M) : Prop := {
  pk_keys : NoDup (mg_key (B := B) <$> packs);
  pk_in : forall m, m ∈ packs <-> exists k b, A !! k = Some b /\ partf k = part /\ m = mg_pack 0 b;
}.

Lemma part_packs_key A packs : (forall k b, A !! k = Some b -> qr_key b = k) -> part_packs A packs ->
  forall m, m ∈ packs -> exists b, A !! mg_key (B := B) m = Some b /\ partf (mg_key (B := B) m) = part /\ m = mg_pack 0 b.
Proof. intros HA [_ P] m (k & b & Hk & Hp & ->)%P. rewrite mg_key_pack, (HA k b Hk). eauto. Qed.

Lemma list_packs t A f F Sp am l packs : 0 <= part < DRC_MAX_PART_NUM -> tab_rep hashf partf t A f F Sp am ->
  gr_part (tb_res t) part l -> Forall2 (slot_msg t) l packs -> part_packs A packs.
Proof.
  intros Hp R HP F2.
  destruct (gr_part_mem _ _ (tb_res t) _ _ _ _ _ 0 (tr_gres _ _ _ _ _ _ _ _ R) Hp HP) as [Hnd _].
  assert (forall i m, slot_msg t i m -> i ∈ l -> exists k b, am !! k = Some i /\ A !! k = Some b /\ partf k = part /\ m = mg_pack 0 b /\ mg_key (B := B) m = k) as Hs.
  { intros i m (b & Hb & ->) Hi. apply list_elem_of_split in Hi as (l1 & l2 & ->).
    destruct (part_slot t A f F Sp am l1 i l2 Hp R HP) as (k & ab & a & Hk & Hab & Hkq & _ & _ & Hq & Hkey & Hg).
    assert (b = body a) as -> by congruence. exists k, ab. split_and!; try done; [|by rewrite mg_key_pack].
    rewrite Hq at 1. by rewrite ml_pack_with. }
  split.
  - apply NoDup_alt. intros x y k Hx Hy. rewrite list_lookup_fmap in Hx, Hy. apply fmap_Some in Hx as (m1 & Hx & E1), Hy as (m2 & Hy & E2).
    destruct (Forall2_lookup_r _ _ _ _ _ F2 Hx) as (i1 & Hi1 & S1), (Forall2_lookup_r _ _ _ _ _ F2 Hy) as (i2 & Hi2 & S2).
    destruct (Hs i1 m1 S1 (list_elem_of_lookup_2 _ _ _ Hi1)) as (k1 & b1 & A1 & _ & _ & _ & K1).
    destruct (Hs i2 m2 S2 (list_elem_of_lookup_2 _ _ _ Hi2)) as (k2 & b2 & A2 & _ & _ & _ & K2).
    assert (i1 = i2) as -> by congruence. by eapply NoDup_lookup.
  - intros m. split.
    + intros (x & Hx)%list_elem_of_lookup. destruct (Forall2_lookup_r _ _ _ _ _ F2 Hx) as (i & Hi & S).
      destruct (Hs i m S (list_elem_of_lookup_2 _ _ _ Hi)) as (k & b & _ & Hk & Hkq & Hm & _). eauto.
    + intros (k & b & Hk & Hkq & ->). assert (is_Some (am !! k)) as [i Hi] by (apply (tr_dom _ _ _ _ _ _ _ _ R); eauto).
      assert (i ∈ l) as (x & Hx)%list_elem_of_lookup.
      { apply (gr_part_mem _ _ (tb_res t) _ _ _ _ _ i (tr_gres _ _ _ _ _ _ _ _ R) Hp HP). eauto. }
      destruct (Forall2_lookup_l _ _ _ _ _ F2 Hx) as (m & Hm & S).
      destruct (Hs i m S (list_elem_of_lookup_2 _ _ _ Hx)) as (k' & b' & Hi' & Hk' & _ & -> & _).
      assert (k' = k) as -> by (by eapply tab_inj). assert (b' = b) as -> by congruence. by eapply list_elem_of_lookup_2.
Qed.

(** The list of the partition, as the code reads it. *)
Lemma part_list t A f F Sp am : 0 <= part < DRC_MAX_PART_NUM -> tab_rep hashf partf t A f F Sp am ->
  exists lst l, rd (res_parts (tb_res t)) part = Ok lst /\ gr_part (tb_res t) part l /\ Z.to_nat (lst_count lst) = length l /\
    lst_count lst = len l /\ lst_first lst = hd OG_INVALID_ID32 l.
Proof.
  intros Hp R. destruct (gr_part_exists _ _ (tb_res t) _ _ _ part (tr_gres _ _ _ _ _ _ _ _ R) Hp) as (l & lst & Hl & Hr).
  exists lst, l. unfold rd. rewrite Hl. split; [done|]. split; [by exists lst|]. rewrite (lr_count _ _ _ Hr), (lr_first _ _ _ Hr).
  split_and!; try done. lia.
Qed.

(** A partition is sent. *)
Lemma send_part_ok t A f F Sp am : 0 <= part < DRC_MAX_PART_NUM -> calm_part A -> tab_rep hashf partf t A f F Sp am ->
  exists lst ret sb new mss cur packs left, rd (res_parts (tb_res t)) part = Ok lst /\ lst_count lst = len packs /\
    send_loop send self part version (Z.to_nat (lst_count lst)) (lst_first lst) (sb_start ∅) [] t = Ok (Some (ret, sb, new)) /\
    part_packs A packs /\ Forall2 (fun m ms => carries (B := B) self part version m ms /\ gm_end m = false) new mss /\
    sb_is (B := B) sb cur /\ packs = concat mss ++ cur ++ left /\ (ret = OG_SUCCESS -> left = []) /\
    ((forall k, send k = OG_SUCCESS) -> ret = OG_SUCCESS).
Proof.
  intros Hp Hc R. destruct (part_list t A f F Sp am Hp R) as (lst & l & Hl & HP & Hn & Hcnt & Hf).
  destruct (send_loop_ok t A f F Sp am Hp Hc R l [] (sb_start ∅) [] [] HP (sb_start_is _))
    as (ret & sb & new & mss & cur & packs & left & E & Hpk & Hnew & Hsb & Heq & Hl' & Hall). cbn [app] in *.
  exists lst, ret, sb, new, mss, cur, packs, left. rewrite Hn, Hf. split_and!; try done; [|by eapply list_packs].
  rewrite Hcnt. by rewrite (Forall2_length _ _ _ Hpk).
Qed.
End SendThm.

(** The counts at the end of a message. *)
Section Counts.
Context {B : Type -> Type} {K M : Type} `{MgrtLaws B K M}.

Definition counted (m : drc_res_master_msg) (ms : list M) (pages locks : Z) : Prop :=
  gm_end m = true /\ gm_cells m !! (sizeof_res_master_msg + mg_size (B := B) * len ms) = Some (CNum pages) /\
  gm_cells m !! (sizeof_res_master_msg + mg_size (B := B) * len ms + 4) = Some (CNum locks).

Lemma counted_carries self part version sb (ms : list M) pages locks : sb_is (B := B) sb ms -> sb_off sb + 4 + 4 <= MES_MESSAGE_BUFFER_SIZE ->
  carries (B := B) self part version (msg_of self (mg_type (B := B)) part version true (set_res_cnt pages locks sb)) ms /\
  counted (msg_of self (mg_type (B := B)) part version true (set_res_cnt pages locks sb)) ms pages locks.
Proof.
  intros [Ho Hn Hh Hf] Hs. pose proof (ml_size (B := B) (M := M)) as Hsz. split.
  - split; cbn [msg_of set_res_cnt sb_off sb_num sb_cells gm_src gm_part gm_type gm_version gm_num gm_cells gm_size]; try done; [|lia].
    intros i m Hi. pose proof (lookup_lt_Some _ _ _ Hi) as Hlt.
    rewrite !lookup_insert_ne; [by apply Hh| |]; rewrite Ho; nia.
  - unfold counted. cbn [msg_of set_res_cnt sb_cells gm_end gm_cells]. rewrite Ho. split; [done|]. split; [|by rewrite lookup_insert_eq].
    rewrite lookup_insert_ne by lia. by rewrite lookup_insert_eq.
Qed.
End Counts.

(** ** The messages of a partition *)
Section MigratePart.
Context (page_size : Z) (signed : bool) (pad : list Z).
Context (page_part_range : forall k, 0 <= drc_page_partid page_size k < DRC_MAX_PART_NUM)
        (lock_part_range : forall k, 0 <= lock_partid signed pad k < DRC_MAX_PART_NUM).
Context (self part version : Z) (part_range : 0 <= part < DRC_MAX_PART_NUM).

#[local] Notation page_rep := (tab_rep drc_page_id_hash (drc_page_partid page_size)).
#[local] Notation lock_rep := (tab_rep (lock_hash signed pad) (lock_partid signed pad)).
#[local] Notation page_packs := (part_packs (drc_page_partid page_size) part).
#[local] Notation lock_packs := (part_packs (lock_partid signed pad) part).

Lemma concat_snoc {A} (mss : list (list A)) ms : concat (mss ++ [ms]) = concat mss ++ ms.
Proof. by rewrite concat_app, concat_cons, app_nil_r. Qed.

Lemma send_buf_ok send (t : res_tab buf_res) A f F Sp am : calm_part (drc_page_partid page_size) part A -> page_rep t A f F Sp am ->
  exists ret cnt sent mss packs left, drc_send_buf_master_blk true send self part version t = Ok (Some (ret, cnt, sent)) /\ page_packs A packs /\
    Forall2 (fun m ms => carries (B := buf_res) self part version m ms /\ gm_end m = false) sent mss /\ packs = concat mss ++ left /\
    (ret = OG_SUCCESS -> left = [] /\ cnt = len packs) /\ ((forall k, send k = OG_SUCCESS) -> ret = OG_SUCCESS).
Proof.
  intros Hc R. destruct (send_part_ok drc_page_id_hash (drc_page_partid page_size) send self part version t A f F Sp am part_range Hc R)
    as (lst & ret & sb & new & mss & cur & packs & left & Hl & Hn & E & Hpk & Hnew & Hsb & Heq & Hl' & Hall).
  unfold drc_send_buf_master_blk. rewrite Hl. cbn [mbind outcome_bind negb].
  destruct (Z.eqb_spec (lst_count lst) 0) as [H0|H0].
  { exists OG_SUCCESS, 0, [], [], packs, []. destruct packs; [|cbn [length] in Hn; lia]. split_and!; try done; constructor. }
  rewrite E. cbn [mbind outcome_bind]. destruct ret.
  - specialize (Hl' eq_refl) as ->. rewrite app_nil_r in Heq. case_bool_decide as Hs.
    + exists OG_ERROR, (lst_count lst), new, mss, packs, cur. split_and!; try done. intros Ha. by rewrite Ha in Hs.
    + exists OG_SUCCESS, (lst_count lst), (new ++ [msg_of self DRC_RES_PAGE_TYPE part version false sb]), (mss ++ [cur]), packs, [].
      split_and!; try done.
      * apply Forall2_app; [done|]. constructor; [|constructor]. split; [|done]. exact (sb_carries (B := buf_res) self part version sb cur Hsb).
      * by rewrite concat_snoc, app_nil_r.
  - exists OG_ERROR, (lst_count lst), new, mss, packs, (cur ++ left). split_and!; try done.
Qed.

Lemma send_lock_ok send buf_cnt (t : res_tab master_res) A f F Sp am : calm_part (lock_partid signed pad) part A -> lock_rep t A f F Sp am ->
  exists ret sent mss packs left, drc_send_lock_master_blk true send self part version buf_cnt t = Ok (Some (ret, sent)) /\ lock_packs A packs /\
    Forall2 (fun m ms => carries (B := master_res) self part version m ms /\ (gm_end m = false \/ counted (B := master_res) m ms buf_cnt (len packs))) sent mss /\
    packs = concat mss ++ left /\ (ret = OG_SUCCESS -> left = [] /\ exists m ms, (m, ms) ∈ zip sent mss /\ counted (B := master_res) m ms buf_cnt (len packs)) /\
    ((forall k, send k = OG_SUCCESS) -> ret = OG_SUCCESS).
Proof.
  intros Hc R. destruct (send_part_ok (lock_hash signed pad) (lock_partid signed pad) send self part version t A f F Sp am part_range Hc R)
    as (lst & ret & sb & new & mss & cur & packs & left & Hl & Hn & E & Hpk & Hnew & Hsb & Heq & Hl' & Hall).
  assert (Forall2 (fun m ms => carries (B := master_res) self part version m ms /\ (gm_end m = false \/ counted (B := master_res) m ms buf_cnt (len packs))) new mss) as Hnew'.
  { eapply Forall2_impl; [exact Hnew|]. intros m ms [? ?]. auto. }
  pose proof (Forall2_length _ _ _ Hnew) as Hlen.
  unfold drc_send_lock_master_blk. cbn [negb]. rewrite Hl. cbn [mbind outcome_bind]. rewrite E. cbn [mbind outcome_bind].
  destruct ret; [specialize (Hl' eq_refl) as ->; rewrite app_nil_r in Heq|
    exists OG_ERROR, new, mss, packs, (cur ++ left); split_and!; try done].
  destruct (Z.leb_spec (sb_off sb + 4 + 4) MES_MESSAGE_BUFFER_SIZE) as [Hle|Hgt]; case_bool_decide as Hs.
  - exists OG_ERROR, new, mss, packs, cur. split_and!; try done. intros Ha. by rewrite Ha in Hs.
  - destruct (counted_carries (B := master_res) self part version sb cur buf_cnt (lst_count lst) Hsb Hle) as [Hca Hco].
    rewrite Hn in Hca, Hco |- *. do 2 eexists. exists (mss ++ [cur]), packs, []. split; [done|]. split; [done|]. split; [|split; [|split; [|done]]].
    + apply Forall2_app; [done|]. constructor; [by auto|constructor].
    + by rewrite concat_snoc, app_nil_r.
    + intros _. split; [done|]. do 2 eexists. split; [|exact Hco]. rewrite zip_with_app by done. apply elem_of_app. right. by left.
  - exists OG_ERROR, new, mss, packs, cur. split_and!; try done. intros Ha. by rewrite Ha in Hs.
  - assert (carries (B := master_res) self part version (msg_of self DRC_RES_LOCK_TYPE part version false sb) cur) as Hcur by exact (sb_carries (B := master_res) self part version sb cur Hsb).
    case_bool_decide as Hs2.
    { eexists OG_ERROR, _, (mss ++ [cur]), packs, []. split; [done|]. split; [done|]. split; [|split; [|split; [done|]]].
      - apply Forall2_app; [done|]. constructor; [by auto|constructor].
      - by rewrite concat_snoc, app_nil_r.
      - intros Ha. by rewrite Ha in Hs2. }
    destruct (counted_carries (B := master_res) self part version (sb_start (sb_cells sb)) [] buf_cnt (lst_count lst) (sb_start_is _)) as [Hca Hco].
    { cbn. unfold sizeof_res_master_msg, MES_MESSAGE_BUFFER_SIZE. lia. }
    rewrite Hn in Hca, Hco |- *. do 2 eexists. exists ((mss ++ [cur]) ++ [[]]), packs, []. split; [done|]. split; [done|]. split; [|split; [|split; [|done]]].
    + apply Forall2_app; [apply Forall2_app; [done|]; constructor; [by auto|constructor]|]. constructor; [by auto|constructor].
    + by rewrite !concat_snoc, !app_nil_r.
    + intros _. split; [done|]. do 2 eexists. split; [|exact Hco]. rewrite zip_with_app; [apply elem_of_app; right; by left|]. rewrite !length_app. cbn. lia.
Qed.
End MigratePart.

(** ** Receiving *)
Section ReceiveThm.
Context {B : Type -> Type} {K M : Type} `{MgrtLaws B K M}.
Implicit Types (t : res_tab B) (A : gmap K (B (list drc_req_info))) (am : gmap K Z) (ms : list M) (R : gset K).

#[local] Notation size_ := (mg_size (B := B)).
#[local] Notation key := (mg_key (B := B)).

(** The resources that are on their way, by their keys. *)
Context (src : gmap K M).

(** The resource that is made of a structure. *)
Definition come (m : M) : B (list drc_req_info) := mg_new [] m.

(** A resource on its way that is there is the one that was sent. *)
Definition agrees A : Prop := forall k m x, src !! k = Some m -> A !! k = Some x -> x = come m.

(** The resources with keys in [R] have been added. *)
Definition got R A : gmap K (B (list drc_req_info)) := A ∪ (come <$> (filter (fun p => p.1 ∈ R) src : gmap K M)).

Lemma got_lookup R A k : got R A !! k = match A !! k with Some x => Some x | None => if decide (k ∈ R) then come <$> src !! k else None end.
Proof.
  unfold got. destruct (A !! k) as [x|] eqn:E; [by apply lookup_union_Some_l|]. rewrite lookup_union_r by done. rewrite lookup_fmap.
  destruct (src !! k) as [m|] eqn:Em; [|destruct (decide _); by rewrite map_lookup_filter_None_2; auto].
  case_decide; [by rewrite (map_lookup_filter_Some_2 _ _ _ m)|rewrite map_lookup_filter_None_2; [done|]; right; intros x Hx; done].
Qed.

Lemma got_empty A : got ∅ A = A.
Proof. apply map_eq. intros k. rewrite got_lookup. destruct (A !! k); [done|]. by rewrite decide_False by set_solver. Qed.

Lemma got_new R A m : src !! key m = Some m -> A !! key m = None -> got R (<[key m := come m]> A) = got ({[key m]} ∪ R) A.
Proof.
  intros Hm HA. apply map_eq. intros k. rewrite !got_lookup. destruct (decide (k = key m)) as [->|Hk].
  - rewrite lookup_insert_eq, HA, decide_True by set_solver. by rewrite Hm.
  - rewrite lookup_insert_ne by done. destruct (A !! k); [done|]. destruct (decide (k ∈ R)) as [Hr|Hr].
    + by rewrite decide_True by set_solver.
    + by rewrite decide_False by set_solver.
Qed.

Lemma got_old R A m x : A !! key m = Some x -> got ({[key m]} ∪ R) A = got R A.
Proof.
  intros HA. apply map_eq. intros k. rewrite !got_lookup. destruct (A !! k) eqn:E; [done|].
  assert (k <> key m) by (intros ->; congruence). destruct (decide (k ∈ R)); [by rewrite decide_True by set_solver|by rewrite decide_False by set_solver].
Qed.

Lemma got_got R R' A : got R' (got R A) = got (R' ∪ R) A.
Proof.
  apply map_eq. intros k. rewrite !got_lookup. destruct (A !! k) eqn:E; [done|].
  assert (k ∈ R' ∪ R <-> k ∈ R' \/ k ∈ R) as Hu by apply elem_of_union.
  destruct (decide (k ∈ R)), (decide (k ∈ R')), (decide (k ∈ R' ∪ R)), (src !! k); tauto.
Qed.

Lemma got_agrees R A : agrees A -> agrees (got R A).
Proof.
  intros Ha k m x Hm. rewrite got_lookup. destruct (A !! k) as [y|] eqn:E; [intros [= <-]; by eapply Ha|].
  rewrite Hm. case_decide; [by intros [= <-]|done].
Qed.

Context (src_ok : forall k m, src !! k = Some m -> key m = k /\ mg_plain (B := B) m).
Context (hashf : Z -> K -> Z) (partf : K -> Z) (partf_range : forall k, 0 <= partf k < DRC_MAX_PART_NUM).
#[local] Notation rep := (tab_rep hashf partf).

(** One structure, with an item for it: the resource is added, or was there
    and the item is given back. *)
Lemma migrate_one_ok t A f F Sp am i m : rep t A f F Sp am -> agrees A -> i ∈ Sp -> src !! key m = Some m ->
  forall c off added ids, c !! off = Some (mg_cell (B := B) m) ->
  exists t' am' added', migrate_loop hashf partf (i :: ids) off added c t = migrate_loop hashf partf ids (off + size_) added' c t' /\
    rep t' (got {[key m]} A) f F (Sp ∖ {[i]}) am' /\ tb_items t' = tb_items t /\ gr_num (tb_res t') = gr_num (tb_res t).
Proof.
  intros R Ha Hi Hm c off added ids Hc. destruct (src_ok _ _ Hm) as [_ Hpl].
  cbn [migrate_loop]. unfold rd_cell. rewrite Hc. cbn [mbind option_bind]. rewrite mg_sel_cell. cbn [mbind outcome_bind].
  rewrite (tab_lookup _ _ _ _ _ _ _ _ _ R). cbn [mbind outcome_bind]. rewrite (ml_skip _ Hpl).
  replace (off + size_ + 0 * sizeof_le_msg) with (off + size_) by lia.
  destruct (A !! key m) as [x|] eqn:Ex.
  - destruct (tab_open _ _ t A f F Sp am (key m) x R Ex) as (j & b & E & l & Hj & _ & Hb & Hq & _ & _ & _).
    rewrite Hj, Hb. cbn [mbind outcome_bind].
    assert (mg_same (B := B) b m = true) as ->.
    { assert (b = mg_new (qr_queue b) m) as Hbm; [|rewrite Hbm; apply ml_same].
      transitivity (qr_with (qr_queue b) x); [rewrite Hq, qr_with_with; symmetry; apply qr_with_id|].
      rewrite (Ha _ _ _ Hm Ex). apply ml_with. }
    cbn [negb]. destruct (tab_free _ _ t A f F Sp am i R Hi) as (t' & Ef & Eit & _ & R'). rewrite Ef. cbn [mbind outcome_bind].
    exists t', am, added. split; [done|]. split; [|split; [done|]].
    2:{ unfold tb_free in Ef. destruct (gr_free (tb_res t) i) as [g|] eqn:Eg; [|done]. injection Ef as <-. by apply gr_free_num in Eg. }
    rewrite <- (union_empty_r_L {[key m]}), (got_old ∅ A m x Ex), got_empty. exact R'.
  - assert (am !! key m = None) as ->.
    { destruct (am !! key m) eqn:E; [|done]. assert (is_Some (A !! key m)) as [? ?] by (apply (tr_dom _ _ _ _ _ _ _ _ R); eauto). congruence. }
    assert (tb_get t i = Ok qr_zero) as ->.
    { destruct (gr_bodies_used _ _ (tb_res t) _ _ _ i (tr_gres _ _ _ _ _ _ _ _ R)) as (a & _ & Hb); [by apply elem_of_union_r|].
      rewrite (tr_blank _ _ _ _ _ _ _ _ R i (body a) Hb (tab_spare_unlinked _ _ _ _ _ _ _ _ _ R Hi)) in Hb. unfold tb_get. by apply gr_get_ok. }
    cbn [mbind outcome_bind]. rewrite ml_init by done. cbn [mbind outcome_bind].
    destruct (tab_create hashf partf partf_range t A f F Sp am (key m) i (mg_new DRC_LIST_INIT m) R Hi Ex) as (g1 & g2 & g3 & E1 & E2 & E3 & _ & R');
      [by rewrite ml_key|by rewrite ml_queue|].
    rewrite E1. cbn [mbind outcome_bind]. rewrite E2. cbn [mbind outcome_bind]. rewrite E3. cbn [mbind outcome_bind].
    exists (mk_tab (tb_items t) g3), (<[key m := i]> am), (added + 1). split; [done|]. split; [|split; [done|]].
    2:{ apply gr_fill_num in E1. apply gr_map_add_num in E2. apply gr_list_add_num in E3. cbn [tb_res]. congruence. }
    rewrite <- (union_empty_r_L {[key m]}), <- (got_new ∅ A m Hm Ex), got_empty. rewrite ml_with in R'. exact R'.
Qed.

(** The structures of a message. *)
Lemma migrate_loop_ok c : forall ms ids off added t A f F Sp am, rep t A f F Sp am -> agrees A -> length ids = length ms ->
  NoDup ids -> (forall i, i ∈ ids -> i ∈ Sp) -> (forall m, m ∈ ms -> src !! key m = Some m) ->
  (forall i m, ms !! i = Some m -> c !! (off + size_ * Z.of_nat i) = Some (mg_cell (B := B) m)) ->
  exists t' am' added', migrate_loop hashf partf ids off added c t = Ok (OG_SUCCESS, off + size_ * len ms, added', t') /\
    rep t' (got (list_to_set (key <$> ms)) A) f F (Sp ∖ list_to_set ids) am' /\ tb_items t' = tb_items t /\ gr_num (tb_res t') = gr_num (tb_res t).
Proof.
  induction ms as [|m ms IH]; intros [|i ids] off added t A f F Sp am R Ha Hlen Hnd Hin Hs Hc; try done.
  { exists t, am, added. cbn. rewrite got_empty, difference_empty_L. replace (off + size_ * 0) with off by lia. done. }
  apply NoDup_cons in Hnd as [Hni Hnd]. cbn in Hlen. injection Hlen as Hlen.
  destruct (migrate_one_ok t A f F Sp am i m R Ha (Hin i ltac:(by left)) (Hs m ltac:(by left)) c off added ids) as (t1 & am1 & added1 & E & R1 & I1 & N1).
  { rewrite <- (Hc 0%nat m eq_refl). f_equal. lia. }
  destruct (IH ids (off + size_) added1 t1 _ _ _ _ _ R1 (got_agrees _ _ Ha) Hlen Hnd) as (t2 & am2 & added2 & E2 & R2 & I2 & N2).
  - intros j Hj. apply elem_of_difference. split; [apply Hin; by right|]. intros ->%elem_of_singleton. done.
  - intros m' Hm'. apply Hs. by right.
  - intros j m' Hj. rewrite <- (Hc (S j) m' Hj). f_equal. lia.
  - exists t2, am2, added2. split; [rewrite E, E2; do 4 f_equal; cbn [length]; lia|]. split; [|split; congruence].
    rewrite got_got in R2. cbn [list_to_set fmap list_fmap]. replace ({[key m]} ∪ list_to_set (key <$> ms)) with (list_to_set (key <$> ms) ∪ {[key m]} : gset K) by set_solver.
    replace (Sp ∖ ({[i]} ∪ list_to_set ids)) with (Sp ∖ {[i]} ∖ list_to_set ids : gset Z) by set_solver. exact R2.
Qed.

(** A message is handled: nothing happens when there are no items for it,
    otherwise its resources are there and every item left is given back. *)
Lemma migrate_alloc_ok t A f F Sp am c ms malloc_ok : rep t A f F Sp am -> agrees A -> gr_num (tb_res t) < 2 ^ 31 -> len ms < 2 ^ 31 ->
  (forall m, m ∈ ms -> src !! key m = Some m) -> holds (B := B) c ms ->
  exists ret off added t' am' R, migrate_alloc hashf partf malloc_ok (len ms) c t = Ok (ret, off, added, t') /\
    rep t' (got R A) f F Sp am' /\ tb_items t' = tb_items t /\ gr_num (tb_res t') = gr_num (tb_res t) /\ R ⊆ dom src /\
    (ret = OG_ERROR -> R = ∅) /\ (ret = OG_SUCCESS -> R = list_to_set (key <$> ms) /\ off = sizeof_res_master_msg + size_ * len ms) /\
    (malloc_ok = true -> Z.of_nat (size A) + Z.of_nat (size Sp) + len ms <= gr_num (tb_res t) ->
     Z.of_nat (size A) + Z.of_nat (size Sp) < gr_num (tb_res t) -> ret = OG_SUCCESS).
Proof.
  intros R Ha Hitem Hn Hs Hc. unfold migrate_alloc.
  destruct malloc_ok; cbn [negb]; [|exists OG_ERROR, 0, 0, t, am, ∅; rewrite got_empty; split_and!; try done; set_solver].
  destruct (tab_alloc_batch hashf partf t A f F Sp am (len ms) R ltac:(lia) Hitem) as [[-> Hno]|(ids & p' & -> & Hlen & Hnd & Hin & R' & Hnum)]; cbn [mbind outcome_bind].
  { exists OG_ERROR, 0, 0, t, am, ∅. rewrite got_empty. split_and!; try done. intros _ Hr1 Hr2. by destruct Hno. }
  rewrite bool_decide_false by done.
  destruct (migrate_loop_ok c ms ids sizeof_res_master_msg 0 _ A f F _ am R' Ha ltac:(lia) Hnd) as (t' & am' & added & E & R2 & I2 & N2);
    [intros i Hi; apply elem_of_union_l, elem_of_list_to_set, Hi|done|done|].
  exists OG_SUCCESS, (sizeof_res_master_msg + size_ * len ms), added, t', am', (list_to_set (key <$> ms)).
  split; [exact E|]. split_and!; try done.
  - replace ((list_to_set ids ∪ Sp) ∖ list_to_set ids) with Sp in R2; [exact R2|].
    apply set_eq. intros i. rewrite elem_of_difference, elem_of_union, elem_of_list_to_set. specialize (Hin i). tauto.
  - rewrite N2. exact Hnum.
  - intros k. rewrite elem_of_list_to_set, list_elem_of_fmap. intros (m & -> & Hm). apply elem_of_dom. rewrite (Hs m Hm). by eexists.
Qed.
End ReceiveThm.
