(* ===== verification/DrcMigrateInv.v ===== *)
(** An instance that takes in partitions: the invariant of its tables and of
    the tasks of the reform, kept by every message and by every pass over the
    tasks, in any order. *)

From S2P Require Import Prelude DrcBitmap DrcPool DrcResMap DrcList DrcGlobalRes DrcQueue DrcTable DrcReform DrcPart DrcPage DrcLock DrcRemaster DrcMigrate DrcMigrateThm.

#[local] Notation len l := (Z.of_nat (length l)).

(** ** Counting the resources of a partition *)
Section Count.
Context {K : Type} `{Countable K} (partf : K -> Z).

Definition in_part {V} (q : Z) (X : gmap K V) : gmap K V := filter (fun p => partf p.1 = q) X.
Definition part_count {V} (q : Z) (X : gmap K V) : Z := Z.of_nat (size (in_part q X)).

Lemma in_part_dom {V} q (X : gmap K V) k : k ∈ dom (in_part q X) <-> k ∈ dom X /\ partf k = q.
Proof.
  unfold in_part. rewrite !elem_of_dom. split.
  - intros [x [Hx Hq]%map_lookup_filter_Some]. split; [by eexists|done].
  - intros [[x Hx] Hq]. exists x. by apply map_lookup_filter_Some_2.
Qed.

Lemma part_count_dom {V W} q (X : gmap K V) (Y : gmap K W) :
  (forall k, partf k = q -> is_Some (X !! k) <-> is_Some (Y !! k)) -> part_count q X = part_count q Y.
Proof.
  intros Hd. unfold part_count. f_equal. rewrite <- !size_dom. f_equal. apply set_eq. intros k. rewrite !in_part_dom, !elem_of_dom.
  split; intros [Hx Hq]; split; try done; by apply (Hd k Hq).
Qed.
End Count.

Section TableCount.
Context {B : Type -> Type} {K M : Type} `{MgrtLaws B K M}.
Context (hashf : Z -> K -> Z) (partf : K -> Z).

(** The count of the list of a partition is the number of its resources. *)
Lemma tab_part_count t (A : gmap K (B (list drc_req_info))) f F Sp am q : tab_rep hashf partf t A f F Sp am -> 0 <= q < DRC_MAX_PART_NUM ->
  exists lst, res_parts (tb_res t) !! q = Some lst /\ lst_count lst = part_count partf q A.
Proof.
  intros R Hq. pose proof (tr_gres _ _ _ _ _ _ _ _ R) as I. destruct (gi_parts _ _ _ _ _ _ I q Hq) as (lst & l & Hl & Hr & Hnd & Hin).
  exists lst. split; [done|]. rewrite (lr_count _ _ _ Hr).
  transitivity (part_count partf q am).
  2:{ apply part_count_dom. intros k _. symmetry. apply (tr_dom _ _ _ _ _ _ _ _ R). }
  unfold part_count. f_equal. transitivity (length ((map_to_list (in_part partf q am)).*2)); [|rewrite length_fmap; apply length_map_to_list].
  apply Permutation_length, NoDup_Permutation; [done| |].
  - apply NoDup_fmap_2_strong; [|apply NoDup_map_to_list].
    intros [k i] [k' i'] [Hk _]%elem_of_map_to_list%map_lookup_filter_Some [Hk' _]%elem_of_map_to_list%map_lookup_filter_Some. cbn. intros <-.
    f_equal. by eapply tab_inj.
  - intros i. rewrite Hin, list_elem_of_fmap. split.
    + intros (k & Hk & Hkq). exists (k, i). split; [done|]. apply elem_of_map_to_list. by apply map_lookup_filter_Some_2.
    + intros ([k j] & -> & [Hk Hkq]%elem_of_map_to_list%map_lookup_filter_Some). eauto.
Qed.

(** As many resources as were sent: all of them have come. *)
Lemma all_come (src : gmap K M) (A : gmap K (B (list drc_req_info))) R q :
  (forall k, k ∈ dom A -> partf k <> q) -> part_count partf q (got src R A) = part_count partf q src ->
  forall k, k ∈ dom src -> partf k = q -> k ∈ R.
Proof.
  intros HA Hc k [m Em]%elem_of_dom Hk.
  assert (dom (in_part partf q (got src R A)) ⊆ dom (in_part partf q src)) as Hsub.
  { intros k'. rewrite !in_part_dom, !elem_of_dom. intros [[x Hx] Hq]. split; [|done]. rewrite got_lookup in Hx.
    destruct (A !! k') eqn:E; [exfalso; by apply (HA k' (elem_of_dom_2 _ _ _ E))|]. case_decide; [|done]. destruct (src !! k'); [by eexists|done]. }
  assert (dom (in_part partf q (got src R A)) = dom (in_part partf q src)) as Hd.
  { apply set_subseteq_size_eq; [done|]. rewrite !size_dom. unfold part_count in Hc. lia. }
  assert (k ∈ dom (in_part partf q (got src R A))) as Hin.
  { rewrite Hd. apply in_part_dom. split; [by eapply elem_of_dom_2|done]. }
  apply in_part_dom in Hin as [[x Hx]%elem_of_dom _]. rewrite got_lookup in Hx.
  destruct (A !! k) eqn:E; [exfalso; by apply (HA k (elem_of_dom_2 _ _ _ E))|]. by case_decide.
Qed.

(** What a partition holds whose resources have all come. *)
Lemma come_part (src : gmap K M) (A : gmap K (B (list drc_req_info))) R q :
  (forall k, k ∈ dom A -> partf k <> q) -> (forall k, k ∈ dom src -> partf k = q -> k ∈ R) ->
  forall k, partf k = q -> got src R A !! k = come <$> src !! k.
Proof.
  intros HA HR k Hk. rewrite got_lookup. destruct (A !! k) eqn:E; [exfalso; by apply (HA k (elem_of_dom_2 _ _ _ E))|].
  destruct (src !! k) as [m|] eqn:Em; [|by destruct (decide _)]. rewrite decide_True; [done|]. apply HR; [by eapply elem_of_dom_2|done].
Qed.
End TableCount.

Section GotSize.
Context {B : Type -> Type} {K M : Type} `{MgrtLaws B K M}.

Lemma got_size (src : gmap K M) (A : gmap K (B (list drc_req_info))) (R : gset K) :
  R ⊆ dom src -> (forall k, k ∈ dom src -> A !! k = None) -> size (got src R A) = (size A + size R)%nat.
Proof.
  intros HR HA. unfold got. rewrite map_size_disj_union.
  - f_equal. rewrite map_size_fmap, <- size_dom. f_equal. apply set_eq. intros k. rewrite elem_of_dom. split.
    + by intros [m [_ Hm]%map_lookup_filter_Some].
    + intros Hk. specialize (HR k Hk). apply elem_of_dom in HR as [m Hm]. exists m. by apply map_lookup_filter_Some_2.
  - apply map_disjoint_spec. intros k x y Hx. rewrite lookup_fmap. destruct (filter _ src !! k) as [m|] eqn:E; [|done]. intros _.
    apply map_lookup_filter_Some in E as [E _]. rewrite (HA k (elem_of_dom_2 _ _ _ E)) in Hx. done.
Qed.

(** Room for a message when there is room for all that is on its way. *)
Lemma got_room (src : gmap K M) (A : gmap K (B (list drc_req_info))) (R : gset K) (l : list K) :
  R ⊆ dom src -> (forall k, k ∈ dom src -> A !! k = None) -> NoDup l -> (forall k, k ∈ l -> k ∈ dom src /\ k ∉ R) ->
  (size (got src R A) + length l <= size A + size src)%nat.
Proof.
  intros HR HA Hnd Hl. rewrite got_size by done.
  assert (size (list_to_set l ∪ R : gset K) = (length l + size R)%nat) as Hs.
  { rewrite size_union; [by rewrite size_list_to_set|]. intros k Hk%elem_of_list_to_set Hk2. by destruct (Hl k Hk). }
  assert (size (list_to_set l ∪ R : gset K) <= size (dom src))%nat as Hle.
  { apply subseteq_size. intros k [Hk%elem_of_list_to_set|Hk]%elem_of_union; [by apply Hl|by apply HR]. }
  rewrite size_dom in Hle. lia.
Qed.
End GotSize.

(** ** The status of a task *)
Definition set_tk_status (st : drc_part_status) (t : drc_remaster_task) : drc_remaster_task := mk_task (tk_export t) (tk_import t) (tk_part t) st.
Definition fits (self part export : Z) (t : drc_remaster_task) : Prop := tk_part t = part /\ tk_export t = export /\ tk_import t = self.

Lemma task_status_loop_ok self part export st tasks : forall n i, (forall j, i <= j < i + Z.of_nat n -> is_Some (tasks !! j)) ->
  exists tasks', task_status_loop n i part export self st tasks = Ok tasks' /\
    ((exists j t, i <= j < i + Z.of_nat n /\ tasks !! j = Some t /\ fits self part export t /\ tasks' = <[j := set_tk_status st t]> tasks) \/
     tasks' = tasks /\ forall j t, i <= j < i + Z.of_nat n -> tasks !! j = Some t -> ~ fits self part export t).
Proof.
  induction n as [|n IH]; intros i Hd; cbn [task_status_loop].
  { exists tasks. split; [done|]. right. split; [done|]. intros j t Hj. lia. }
  destruct (Hd i ltac:(lia)) as [t Ht]. unfold rd. rewrite Ht. cbn [mbind outcome_bind].
  destruct ((tk_part t =? part) && (tk_export t =? export) && (tk_import t =? self)) eqn:E.
  - unfold wr, rd. rewrite Ht. cbn [mbind outcome_bind]. eexists. split; [done|]. left. exists i, t. split; [lia|]. split; [done|]. split; [|done].
    unfold fits. lia.
  - destruct (IH (i + 1)) as (tasks' & -> & Hor); [intros j Hj; apply Hd; lia|]. exists tasks'. split; [done|].
    destruct Hor as [(j & t' & Hj & Hr)|[-> Hno]]; [left; exists j, t'; split; [lia|done]|right]. split; [done|].
    intros j t' Hj Ht'. destruct (decide (j = i)) as [->|]; [|apply (Hno j); [lia|done]]. assert (t' = t) as -> by congruence. unfold fits. lia.
Qed.

(** ** The importer *)
Section Importing.
Context (page_size : Z) (signed : bool) (pad : list Z).
Context (page_range : forall k, 0 <= drc_page_partid page_size k < DRC_MAX_PART_NUM)
        (lock_range : forall k, 0 <= lock_partid signed pad k < DRC_MAX_PART_NUM).
Context (self version : Z).

#[local] Notation page_part := (drc_page_partid page_size).
#[local] Notation lock_part := (lock_partid signed pad).
#[local] Notation page_rep := (tab_rep drc_page_id_hash page_part).
#[local] Notation lock_rep := (tab_rep (lock_hash signed pad) lock_part).

(** What is on its way, from all instances that export to this one. *)
Record cargo := mk_cargo { cg_pages : gmap page_id drc_buf_res_msg; cg_locks : gmap drid drc_lock_res_msg }.
Record cargo_ok (g : cargo) : Prop := {
  co_pages : forall k m, cg_pages g !! k = Some m -> mg_key (B := buf_res) m = k /\ mg_plain (B := buf_res) m;
  co_locks : forall k m, cg_locks g !! k = Some m -> mg_key (B := master_res) m = k /\ mg_plain (B := master_res) m;
}.
Context (g : cargo) (g_ok : cargo_ok g).

(** The instance a partition comes from. *)
Context (exporter : Z -> Z).

(** A message of this reform holds resources that are on their way, and the
    last one of a partition their numbers. *)
Record good_msg (m : drc_res_master_msg) : Prop := {
  gd_part : 0 <= gm_part m;
  gd_page : gm_version m = version -> gm_type m = DRC_RES_PAGE_TYPE -> exists ms, carries (B := buf_res) (gm_src m) (gm_part m) version m ms /\
    forall x, x ∈ ms -> cg_pages g !! mg_key (B := buf_res) x = Some x;
  gd_lock : gm_version m = version -> gm_type m = DRC_RES_LOCK_TYPE -> exists ms, carries (B := master_res) (gm_src m) (gm_part m) version m ms /\
    (forall x, x ∈ ms -> cg_locks g !! mg_key (B := master_res) x = Some x) /\
    (gm_end m = true -> gm_src m = exporter (gm_part m) /\
      counted (B := master_res) m ms (part_count page_part (gm_part m) (cg_pages g)) (part_count lock_part (gm_part m) (cg_locks g)));
}.

(** The catalogue before, which has nothing of the partitions that come in. *)
Context (Ap : gmap page_id (buf_res (list drc_req_info))) (Al : gmap drid (master_res (list drc_req_info))).
Context (new_part : Z -> Prop).
Record apart : Prop := {
  ap_pages : forall k, k ∈ dom Ap -> ~ new_part (page_part k);
  ap_locks : forall k, k ∈ dom Al -> ~ new_part (lock_part k);
  ap_cargo_pages : forall k, k ∈ dom (cg_pages g) -> new_part (page_part k);
  ap_cargo_locks : forall k, k ∈ dom (cg_locks g) -> new_part (lock_part k);
}.
Context (apart_ok : apart).
Context (f : Z) (Fp Fl Spp Spl : gset Z).

Definition incoming (t : drc_remaster_task) : Prop := tk_import t = self /\ tk_export t <> self.

(** All resources of the partition have come. *)
Definition all_here (Rp : gset page_id) (Rl : gset drid) (q : Z) : Prop :=
  (forall k, k ∈ dom (cg_pages g) -> page_part k = q -> k ∈ Rp) /\ (forall k, k ∈ dom (cg_locks g) -> lock_part k = q -> k ∈ Rl).

Record imports (s : importer) (Rp : gset page_id) (Rl : gset drid) : Prop := {
  ip_pages : exists am, page_rep (im_page_tab s) (got (cg_pages g) Rp Ap) f Fp Spp am;
  ip_locks : exists am, lock_rep (im_lock_tab s) (got (cg_locks g) Rl Al) f Fl Spl am;
  ip_pnum : gr_num (im_pages s) < 2 ^ 31;
  ip_lnum : gr_num (im_locks s) < 2 ^ 31;
  ip_cnt : forall q, 0 <= q < DRC_MAX_PART_NUM -> is_Some (im_cnt s !! q);
  ip_info : forall q, 0 <= q < DRC_MAX_PART_NUM -> is_Some (im_info s !! q);
  ip_tasks : forall j, 0 <= j < DRC_MAX_PART_NUM -> is_Some (im_tasks s !! j);
  ip_new : forall j t, im_tasks s !! j = Some t -> incoming t ->
    new_part (tk_part t) /\ 0 <= tk_part t < DRC_MAX_PART_NUM /\ tk_export t = exporter (tk_part t);
  ip_migrating : forall j t, im_tasks s !! j = Some t -> incoming t -> tk_status t = PART_MIGRATING ->
    exists i, im_info s !! tk_part t = Some i /\ pi_pages i = part_count page_part (tk_part t) (cg_pages g) /\
      pi_locks i = part_count lock_part (tk_part t) (cg_locks g) /\ pi_src i = exporter (tk_part t);
  ip_complete : forall j t, im_tasks s !! j = Some t -> incoming t -> tk_status t = PART_MIGRATE_COMPLETE -> all_here Rp Rl (tk_part t);
}.

Lemma agrees_pages : agrees (cg_pages g) Ap.
Proof.
  intros k m x Hm Hx. destruct (ap_pages apart_ok k); [by eapply elem_of_dom_2|]. apply (ap_cargo_pages apart_ok). by eapply elem_of_dom_2.
Qed.
Lemma agrees_locks : agrees (cg_locks g) Al.
Proof.
  intros k m x Hm Hx. destruct (ap_locks apart_ok k); [by eapply elem_of_dom_2|]. apply (ap_cargo_locks apart_ok). by eapply elem_of_dom_2.
Qed.

Lemma all_here_more Rp Rl Rp' Rl' q : all_here Rp Rl q -> all_here (Rp' ∪ Rp) (Rl' ∪ Rl) q.
Proof. intros [H1 H2]. split; intros k Hk Hq; apply elem_of_union_r; auto. Qed.

(** The tables change, the rest stays. *)
Lemma imports_tables s Rp Rl pages locks cnt Rp' Rl' : imports s Rp Rl ->
  (exists am, page_rep (mk_tab (im_items s) pages) (got (cg_pages g) (Rp' ∪ Rp) Ap) f Fp Spp am) ->
  (exists am, lock_rep (mk_tab (im_items s) locks) (got (cg_locks g) (Rl' ∪ Rl) Al) f Fl Spl am) ->
  gr_num pages < 2 ^ 31 -> gr_num locks < 2 ^ 31 -> (forall q, 0 <= q < DRC_MAX_PART_NUM -> is_Some (cnt !! q)) ->
  imports (mk_imp (im_items s) pages locks cnt (im_info s) (im_tasks s)) (Rp' ∪ Rp) (Rl' ∪ Rl).
Proof.
  intros [I1 I2 I3 I4 I5 I6 I7 I8 I9 I10] Hp Hl Hn1 Hn2 Hc. split; try done. intros j t Ht Hi Hs. by apply all_here_more, (I10 j).
Qed.

Lemma imports_pages s Rp Rl : imports s Rp Rl -> exists am, lock_rep (mk_tab (im_items s) (im_locks s)) (got (cg_locks g) (∅ ∪ Rl) Al) f Fl Spl am.
Proof. intros I. rewrite union_empty_l_L. apply I. Qed.
Lemma imports_locks s Rp Rl : imports s Rp Rl -> exists am, page_rep (mk_tab (im_items s) (im_pages s)) (got (cg_pages g) (∅ ∪ Rp) Ap) f Fp Spp am.
Proof. intros I. rewrite union_empty_l_L. apply I. Qed.

Lemma wr_total {A} (m : gmap Z A) i h : is_Some (m !! i) -> (exists a, m !! i = Some a /\ wr m i h = Ok (<[i := h a]> m)).
Proof. intros [a Ha]. exists a. split; [done|]. unfold wr, rd. by rewrite Ha. Qed.

Lemma insert_total {A} (m : gmap Z A) i a n : (forall q, 0 <= q < n -> is_Some (m !! q)) -> forall q, 0 <= q < n -> is_Some (<[i := a]> m !! q).
Proof. intros Hm q Hq. apply lookup_insert_is_Some'. right. by apply Hm. Qed.

Lemma not_refused max m : gm_version m = version -> gm_num m <= max -> mgrt_refused max version m = (DRC_MAX_PART_NUM <=? gm_part m).
Proof. intros Hv Hn. unfold mgrt_refused. rewrite Hv, Z.eqb_refl, orb_false_r. by rewrite (proj2 (Z.ltb_ge _ _) Hn). Qed.

(** A message with pages. *)
Lemma process_buf_ok malloc_ok m s Rp Rl : imports s Rp Rl -> good_msg m -> gm_type m = DRC_RES_PAGE_TYPE ->
  exists ret s' R, drc_process_buf_master_blk page_size malloc_ok version m s = Ok (ret, s') /\ imports s' (R ∪ Rp) Rl /\
    im_tasks s' = im_tasks s /\ im_info s' = im_info s /\ im_locks s' = im_locks s /\ gr_num (im_pages s') = gr_num (im_pages s) /\
    (gm_version m = version -> gm_part m < DRC_MAX_PART_NUM -> malloc_ok = true ->
     Z.of_nat (size (got (cg_pages g) Rp Ap)) + Z.of_nat (size Spp) + gm_num m <= gr_num (im_pages s) ->
     ret = OG_SUCCESS /\ forall ms, carries (B := buf_res) (gm_src m) (gm_part m) version m ms -> R = list_to_set (mg_key (B := buf_res) <$> ms)).
Proof.
  intros I [Hp Hg _] Ht. unfold drc_process_buf_master_blk.
  destruct (decide (gm_version m = version)) as [Hv|Hv].
  2:{ exists OG_ERROR, s, ∅. rewrite union_empty_l_L. split_and!; try done. unfold mgrt_refused.
      rewrite (proj2 (Z.eqb_neq _ _) Hv), orb_true_r. done. }
  destruct (Hg Hv Ht) as (ms & Hca & Hin). pose proof (holds_num _ _ _ _ _ Hca) as Hmax. rewrite (not_refused REMASTER_MIG_MAX_BUF_RES_NUM m Hv Hmax).
  destruct (Z.leb_spec DRC_MAX_PART_NUM (gm_part m)) as [Hq|Hq].
  { exists OG_ERROR, s, ∅. rewrite union_empty_l_L. split_and!; try done. intros _ Hq'. lia. }
  destruct (Z.eqb_spec (gm_num m) 0) as [H0|H0].
  { exists OG_SUCCESS, s, ∅. rewrite union_empty_l_L. split_and!; try done. intros _ _ _ _. split; [done|]. intros ms' Hca'.
    rewrite (ca_num _ _ _ _ _ Hca') in H0. by destruct ms'. }
  assert (len ms <= 584) as Hms by (rewrite <- (ca_num _ _ _ _ _ Hca); exact Hmax).
  destruct (ip_pages _ _ _ I) as [am R]. rewrite (ca_num _ _ _ _ _ Hca).
  destruct (migrate_alloc_ok (cg_pages g) (co_pages g g_ok) drc_page_id_hash page_part page_range (im_page_tab s) _ f Fp Spp am (gm_cells m) ms malloc_ok R
    (got_agrees _ _ _ agrees_pages) (ip_pnum _ _ _ I) ltac:(lia) Hin (ca_holds _ _ _ _ _ Hca))
    as (ret & off & added & t' & am' & R' & -> & Rt & It & Nt & HR & Herr & Hok & Hroom). cbn [mbind outcome_bind].
  rewrite got_got in Rt. destruct t' as [items' pages']. cbn [tb_items im_page_tab] in It. subst items'. cbn [tb_res im_page_tab] in Nt.
  assert (forall cnt, (forall q, 0 <= q < DRC_MAX_PART_NUM -> is_Some (cnt !! q)) ->
    imports (mk_imp (im_items s) pages' (im_locks s) cnt (im_info s) (im_tasks s)) (R' ∪ Rp) Rl) as Himp.
  { intros cnt Hcnt. rewrite <- (union_empty_l_L Rl).
    apply imports_tables; [done|by exists am'|by eapply imports_pages|rewrite Nt; apply I|apply I|done]. }
  destruct ret.
  - rewrite bool_decide_false by done. destruct (wr_total (im_cnt s) (gm_part m) (fun '(a, b) => (a + added, b)) (ip_cnt _ _ _ I (gm_part m) ltac:(lia))) as (ab & _ & Ew).
    cbn [im_cnt im_set_pages]. rewrite Ew. cbn [mbind outcome_bind]. exists OG_SUCCESS. do 2 eexists. split; [done|]. split; [|split_and!; try done].
    + apply Himp. apply insert_total. apply I.
    + intros _ _ _ _. split; [done|]. intros ms' Hca'. destruct (Hok eq_refl) as [-> _]. by rewrite (carries_unique _ _ _ _ _ _ Hca' Hca).
  - rewrite bool_decide_true by done. exists OG_ERROR. do 2 eexists. split; [done|]. split; [|split_and!; try done].
    + apply (Himp (im_cnt s)). apply I.
    + intros _ _ Hm Hr. rewrite (ca_num _ _ _ _ _ Hca) in H0. specialize (Hroom Hm Hr ltac:(change (tb_res (im_page_tab s)) with (im_pages s); lia)). done.
Qed.

(** The numbers at the end of a partition. *)
Lemma part_end_ok off m ms s Rp Rl : imports s Rp Rl -> 0 <= gm_part m < DRC_MAX_PART_NUM -> gm_src m = exporter (gm_part m) ->
  counted (B := master_res) m ms (part_count page_part (gm_part m) (cg_pages g)) (part_count lock_part (gm_part m) (cg_locks g)) ->
  off = sizeof_res_master_msg + mg_size (B := master_res) * len ms ->
  exists s', drc_process_mgrt_part_end self off m s = Ok s' /\ imports s' Rp Rl /\ im_pages s' = im_pages s /\ im_locks s' = im_locks s /\
    (forall j t, im_tasks s !! j = Some t -> 0 <= j < DRC_MAX_PART_NUM -> fits self (gm_part m) (gm_src m) t ->
     exists j' t', im_tasks s' = <[j' := set_tk_status PART_MIGRATING t']> (im_tasks s) /\ im_tasks s !! j' = Some t' /\ fits self (gm_part m) (gm_src m) t').
Proof.
  intros I Hq Hsrc (_ & Hc1 & Hc2) ->. unfold drc_process_mgrt_part_end, rd_cell. rewrite Hc1, Hc2. cbn [mbind option_bind sel_num outcome_bind].
  set (i := mk_pinfo _ _ _). destruct (wr_total (im_info s) (gm_part m) (fun _ => i) (ip_info _ _ _ I _ Hq)) as (i0 & _ & ->). cbn [mbind outcome_bind].
  unfold drc_update_remaster_task_status.
  destruct (task_status_loop_ok self (gm_part m) (gm_src m) PART_MIGRATING (im_tasks s) (Z.to_nat DRC_MAX_PART_NUM) 0) as (tasks' & -> & Hor);
    [intros j Hj; apply I; unfold DRC_MAX_PART_NUM in *; lia|]. cbn [mbind outcome_bind].
  eexists. split; [done|]. split; [|split; [done|split; [done|]]].
  - destruct I as [I1 I2 I3 I4 I5 I6 I7 I8 I9 I10]. destruct Hor as [(j & t & Hj & Ht & (Hf1 & Hf2 & Hf3) & ->)|[-> _]].
    + split; cbn [im_set_part im_pages im_locks im_cnt im_info im_tasks]; try done.
      * by apply insert_total.
      * by apply insert_total.
      * intros j' t' [[<- <-]|[_ Ht']]%lookup_insert_Some Hi; [apply (I8 j t Ht); exact Hi|by eapply I8].
      * intros j' t' [[<- <-]|[_ Ht']]%lookup_insert_Some Hi Hs.
        -- exists i. cbn [set_tk_status tk_part]. rewrite Hf1, lookup_insert_eq. done.
        -- destruct (decide (tk_part t' = gm_part m)) as [He|He]; [exists i; rewrite He, lookup_insert_eq; done|].
           rewrite lookup_insert_ne by done. by eapply I9.
      * intros j' t' [[<- <-]|[_ Ht']]%lookup_insert_Some Hi Hs; [done|by eapply I10].
    + split; cbn [im_set_part im_pages im_locks im_cnt im_info im_tasks]; try done.
      * by apply insert_total.
      * intros j' t' Ht' Hi Hs. destruct (decide (tk_part t' = gm_part m)) as [He|He]; [exists i; rewrite He, lookup_insert_eq; done|].
        rewrite lookup_insert_ne by done. by eapply I9.
  - cbn [im_set_part im_tasks]. intros j t Ht Hj Hf. destruct Hor as [(j' & t' & Hj' & Ht' & Hf' & ->)|[-> Hno]].
    + by exists j', t'.
    + exfalso. apply (Hno j t); [unfold DRC_MAX_PART_NUM in *; lia|done|done].
Qed.

(** A message with locks, and perhaps with the numbers. *)
Lemma process_lock_ok malloc_ok m s Rp Rl : imports s Rp Rl -> good_msg m -> gm_type m = DRC_RES_LOCK_TYPE ->
  exists ret s' R, drc_process_lock_master_blk signed pad self malloc_ok version m s = Ok (ret, s') /\ imports s' Rp (R ∪ Rl) /\
    im_pages s' = im_pages s /\ gr_num (im_locks s') = gr_num (im_locks s) /\
    (gm_version m = version -> gm_part m < DRC_MAX_PART_NUM -> malloc_ok = true ->
     Z.of_nat (size (got (cg_locks g) Rl Al)) + Z.of_nat (size Spl) + gm_num m <= gr_num (im_locks s) ->
     Z.of_nat (size (got (cg_locks g) Rl Al)) + Z.of_nat (size Spl) < gr_num (im_locks s) ->
     ret = OG_SUCCESS /\ (forall ms, carries (B := master_res) (gm_src m) (gm_part m) version m ms -> R = list_to_set (mg_key (B := master_res) <$> ms)) /\
     (gm_end m = true -> forall j t, im_tasks s !! j = Some t -> 0 <= j < DRC_MAX_PART_NUM -> fits self (gm_part m) (gm_src m) t ->
      exists j' t', im_tasks s' = <[j' := set_tk_status PART_MIGRATING t']> (im_tasks s) /\ im_tasks s !! j' = Some t' /\ fits self (gm_part m) (gm_src m) t') /\
     (gm_end m = false -> im_tasks s' = im_tasks s)).
Proof.
  intros I [Hp _ Hg] Ht. unfold drc_process_lock_master_blk.
  destruct (decide (gm_version m = version)) as [Hv|Hv].
  2:{ exists OG_ERROR, s, ∅. rewrite union_empty_l_L. split_and!; try done. unfold mgrt_refused.
      rewrite (proj2 (Z.eqb_neq _ _) Hv), orb_true_r. done. }
  destruct (Hg Hv Ht) as (ms & Hca & Hin & Hend). pose proof (holds_num _ _ _ _ _ Hca) as Hmax.
  rewrite (not_refused REMASTER_MIG_MAX_LOCK_RES_NUM m Hv Hmax).
  destruct (Z.leb_spec DRC_MAX_PART_NUM (gm_part m)) as [Hq|Hq].
  { exists OG_ERROR, s, ∅. rewrite union_empty_l_L. split_and!; try done. intros _ Hq'. lia. }
  assert (len ms <= 818) as Hms by (rewrite <- (ca_num _ _ _ _ _ Hca); exact Hmax).
  destruct (ip_locks _ _ _ I) as [am R]. rewrite (ca_num _ _ _ _ _ Hca).
  destruct (migrate_alloc_ok (cg_locks g) (co_locks g g_ok) (lock_hash signed pad) lock_part lock_range (im_lock_tab s) _ f Fl Spl am (gm_cells m) ms malloc_ok R
    (got_agrees _ _ _ agrees_locks) (ip_lnum _ _ _ I) ltac:(lia) Hin (ca_holds _ _ _ _ _ Hca))
    as (ret & off & added & t' & am' & R' & -> & Rt & It & Nt & HR & Herr & Hok & Hroom). cbn [mbind outcome_bind].
  rewrite got_got in Rt. destruct t' as [items' locks']. cbn [tb_items im_lock_tab] in It. subst items'. cbn [tb_res im_lock_tab] in Nt.
  assert (forall cnt, (forall q, 0 <= q < DRC_MAX_PART_NUM -> is_Some (cnt !! q)) ->
    imports (mk_imp (im_items s) (im_pages s) locks' cnt (im_info s) (im_tasks s)) Rp (R' ∪ Rl)) as Himp.
  { intros cnt Hcnt. rewrite <- (union_empty_l_L Rp).
    apply imports_tables; [done|by eapply imports_locks|by exists am'|apply I|rewrite Nt; apply I|done]. }
  destruct ret.
  2:{ rewrite bool_decide_true by done. exists OG_ERROR. do 2 eexists. split; [done|]. split; [apply (Himp (im_cnt s)); apply I|]. split_and!; try done.
      intros _ _ Hm Hr Hr2. specialize (Hroom Hm Hr Hr2). done. }
  rewrite bool_decide_false by done.
  destruct (wr_total (im_cnt s) (gm_part m) (fun '(a, b) => (a, b + added)) (ip_cnt _ _ _ I (gm_part m) ltac:(lia))) as (ab & _ & Ew).
  cbn [im_cnt im_set_locks]. rewrite Ew. cbn [mbind outcome_bind]. destruct (Hok eq_refl) as [HR' Hoff].
  specialize (Himp _ (insert_total _ (gm_part m) ((fun '(a, b) => (a, b + added)) ab) _ (ip_cnt _ _ _ I))).
  assert (forall ms', carries (B := master_res) (gm_src m) (gm_part m) version m ms' -> R' = list_to_set (mg_key (B := master_res) <$> ms')) as Hkeys.
  { intros ms' Hca'. rewrite HR'. by rewrite (carries_unique _ _ _ _ _ _ Hca' Hca). }
  destruct (gm_end m) eqn:Ee.
  - destruct (part_end_ok off m ms _ Rp (R' ∪ Rl) Himp ltac:(lia) (proj1 (Hend eq_refl)) (proj2 (Hend eq_refl)) Hoff) as (s' & E & I' & Hp' & Hl' & Hts).
    exists OG_SUCCESS, s', R'. split; [exact (bind_ok _ _ _ E)|]. split; [done|]. split; [done|]. split; [rewrite Hl'; exact Nt|]. intros _ _ _ _ _. split_and!; try done.
  - cbn [im_set_cnt im_set_locks tb_items tb_res im_items im_pages im_locks im_info im_tasks]. exists OG_SUCCESS. do 2 eexists. split; [done|].
    split; [exact Himp|]. split_and!; try done.
Qed.

(** Any message. *)
Lemma process_data_ok malloc_ok rst rc m s Rp Rl : imports s Rp Rl -> good_msg m ->
  exists s' Rp' Rl', drc_process_mgrt_data page_size signed pad self malloc_ok rst rc version m s = Ok s' /\ imports s' (Rp' ∪ Rp) (Rl' ∪ Rl).
Proof.
  intros I G. unfold drc_process_mgrt_data.
  assert (exists s' Rp' Rl', Ok s = Ok s' /\ imports s' (Rp' ∪ Rp) (Rl' ∪ Rl)) as Hno by (exists s, ∅, ∅; by rewrite !union_empty_l_L).
  destruct (negb (drc_check_mgrt_data_msg m)); [done|]. destruct (_ || _ || _); [done|].
  destruct (Z.eqb_spec (gm_type m) DRC_RES_PAGE_TYPE) as [Ht|_].
  { destruct (process_buf_ok malloc_ok m s Rp Rl I G Ht) as (ret & s' & R & -> & I' & _). exists s', R, ∅. by rewrite union_empty_l_L. }
  destruct (Z.eqb_spec (gm_type m) DRC_RES_LOCK_TYPE) as [Ht|_]; [|done].
  destruct (process_lock_ok malloc_ok m s Rp Rl I G Ht) as (ret & s' & R & -> & I' & _). exists s', ∅, R. by rewrite union_empty_l_L.
Qed.

(** The lists that a pass compares. *)
Lemma imports_counts s Rp Rl q : imports s Rp Rl -> 0 <= q < DRC_MAX_PART_NUM ->
  exists bl ll, res_parts (im_pages s) !! q = Some bl /\ res_parts (im_locks s) !! q = Some ll /\
    lst_count bl = part_count page_part q (got (cg_pages g) Rp Ap) /\ lst_count ll = part_count lock_part q (got (cg_locks g) Rl Al).
Proof.
  intros I Hq. destruct (ip_pages _ _ _ I) as [am R], (ip_locks _ _ _ I) as [am' R'].
  destruct (tab_part_count drc_page_id_hash page_part _ _ _ _ _ _ q R Hq) as (bl & Hb & Cb).
  destruct (tab_part_count (lock_hash signed pad) lock_part _ _ _ _ _ _ q R' Hq) as (ll & Hl & Cl). by exists bl, ll.
Qed.

(** The partition of a task is found complete. *)
Lemma complete_ok s Rp Rl j t : imports s Rp Rl -> im_tasks s !! j = Some t -> incoming t -> all_here Rp Rl (tk_part t) ->
  forall st src, exists tasks', drc_update_remaster_task_status self (tk_part t) src st (im_tasks s) = Ok tasks' /\
    (st = PART_MIGRATE_COMPLETE -> imports (im_set_part (im_info s) tasks' s) Rp Rl).
Proof.
  intros I Ht Hi Ha st src. unfold drc_update_remaster_task_status.
  destruct (task_status_loop_ok self (tk_part t) src st (im_tasks s) (Z.to_nat DRC_MAX_PART_NUM) 0) as (tasks' & -> & Hor);
    [intros j' Hj; apply I; unfold DRC_MAX_PART_NUM in *; lia|].
  exists tasks'. split; [done|]. intros ->. destruct Hor as [(j' & t' & Hj' & Ht' & (Hf1 & Hf2 & Hf3) & ->)|[-> _]]; [|by destruct s].
  destruct I as [I1 I2 I3 I4 I5 I6 I7 I8 I9 I10]. split; cbn [im_set_part im_pages im_locks im_cnt im_info im_tasks]; try done.
  - by apply insert_total.
  - intros x u [[<- <-]|[_ Hu]]%lookup_insert_Some Hx; [apply (I8 j' t' Ht'); exact Hx|by eapply I8].
  - intros x u [[<- <-]|[_ Hu]]%lookup_insert_Some Hx Hs; [done|by eapply I9].
  - intros x u [[<- <-]|[_ Hu]]%lookup_insert_Some Hx Hs; [cbn; by rewrite Hf1|by eapply I10].
Qed.

Lemma part_pass_ok : forall n i s Rp Rl, imports s Rp Rl -> 0 <= i -> i + Z.of_nat n <= DRC_MAX_PART_NUM ->
  exists s', part_pass self n i s = Ok s' /\ imports s' Rp Rl.
Proof.
  induction n as [|n IH]; intros i s Rp Rl I H0 Hn; cbn [part_pass]; [by exists s|].
  destruct (ip_tasks _ _ _ I i ltac:(lia)) as [t Ht]. assert (rd (im_tasks s) i = Ok t) as -> by (unfold rd; by rewrite Ht). cbn [mbind outcome_bind].
  destruct (negb _ || _) eqn:E; [apply IH; [done|lia|lia]|].
  apply orb_false_iff in E as [[Hi He]%negb_false_iff%andb_true_iff Hs%negb_false_iff%bool_decide_eq_true].
  assert (incoming t) as Hinc by (unfold incoming; lia). destruct (ip_new _ _ _ I i t Ht Hinc) as (Hnew & Hr & _).
  destruct (ip_migrating _ _ _ I i t Ht Hinc Hs) as (info & Hinfo & Ci & Cl & _). destruct (imports_counts s Rp Rl _ I Hr) as (bl & ll & Hb & Hl & Cb & Cll).
  unfold rd. rewrite Hinfo, Hb, Hl. cbn [mbind outcome_bind].
  destruct (negb (pi_pages info =? lst_count bl) || negb (pi_locks info =? lst_count ll)) eqn:Ec; [apply IH; [done|lia|lia]|].
  assert (all_here Rp Rl (tk_part t)) as Ha.
  { split.
    - apply (all_come page_part (cg_pages g) Ap); [|lia]. intros k Hk Hq. apply (ap_pages apart_ok k Hk). by rewrite Hq.
    - apply (all_come lock_part (cg_locks g) Al); [|lia]. intros k Hk Hq. apply (ap_locks apart_ok k Hk). by rewrite Hq. }
  destruct (complete_ok s Rp Rl i t I Ht Hinc Ha PART_MIGRATE_COMPLETE (pi_src info)) as (tasks' & -> & I'). cbn [mbind outcome_bind].
  apply IH; [by apply I'|lia|lia].
Qed.

Lemma part_proc_ok s Rp Rl : imports s Rp Rl -> exists s', remaster_part_proc self s = Ok s' /\ imports s' Rp Rl.
Proof. intros I. unfold remaster_part_proc. apply part_pass_ok; [done|lia|]. rewrite Z2Nat.id; unfold DRC_MAX_PART_NUM; lia. Qed.

(** *** A partition that has come is found complete *)

(** No partition comes in twice. *)
Definition once (tasks : gmap Z drc_remaster_task) : Prop :=
  forall j j' t t', tasks !! j = Some t -> tasks !! j' = Some t' -> incoming t -> incoming t' -> tk_part t = tk_part t' -> j = j'.

Lemma once_status tasks j t st : once tasks -> tasks !! j = Some t -> once (<[j := set_tk_status st t]> tasks).
Proof.
  intros Ho Ht x y u v [[<- <-]|[_ Hu]]%lookup_insert_Some [[<- <-]|[_ Hv]]%lookup_insert_Some Hx Hy Hp; [done| | |by eapply Ho].
  - by apply (Ho j y t v).
  - by apply (Ho x j u t).
Qed.

Lemma here_count s Rp Rl q : imports s Rp Rl -> new_part q -> all_here Rp Rl q ->
  part_count page_part q (got (cg_pages g) Rp Ap) = part_count page_part q (cg_pages g) /\
  part_count lock_part q (got (cg_locks g) Rl Al) = part_count lock_part q (cg_locks g).
Proof.
  intros I Hn [Hp Hl]. split; apply part_count_dom; intros k Hk.
  - rewrite (come_part page_part (cg_pages g) Ap Rp q); [|intros k' Hk' Hq; apply (ap_pages apart_ok k' Hk'); by rewrite Hq|done|done]. by rewrite fmap_is_Some.
  - rewrite (come_part lock_part (cg_locks g) Al Rl q); [|intros k' Hk' Hq; apply (ap_locks apart_ok k' Hk'); by rewrite Hq|done|done]. by rewrite fmap_is_Some.
Qed.

Lemma part_pass_completes j q Rp Rl : 0 <= j < DRC_MAX_PART_NUM -> all_here Rp Rl q -> forall n i s, imports s Rp Rl -> once (im_tasks s) -> 0 <= i -> i + Z.of_nat n <= DRC_MAX_PART_NUM ->
  (exists t, im_tasks s !! j = Some t /\ incoming t /\ tk_part t = q /\
    (tk_status t = PART_MIGRATE_COMPLETE \/ tk_status t = PART_MIGRATING /\ i <= j < i + Z.of_nat n)) ->
  exists s' t', part_pass self n i s = Ok s' /\ imports s' Rp Rl /\ im_tasks s' !! j = Some t' /\ incoming t' /\ tk_part t' = q /\
    tk_status t' = PART_MIGRATE_COMPLETE.
Proof.
  intros Hjr Ha. induction n as [|n IH]; intros i s I Ho H0 Hn (t & Ht & Hinc & Hq & Hst); cbn [part_pass].
  { exists s, t. split_and!; try done. destruct Hst as [|[_ ?]]; [done|lia]. }
  destruct (ip_tasks _ _ _ I i ltac:(lia)) as [u Hu]. assert (rd (im_tasks s) i = Ok u) as -> by (unfold rd; by rewrite Hu). cbn [mbind outcome_bind].
  destruct (negb _ || _) eqn:E.
  { apply IH; try done; [lia|lia|]. exists t. split_and!; try done. destruct Hst as [|[Hm ?]]; [by left|]. right. split; [done|].
    destruct (decide (i = j)) as [->|]; [|lia]. assert (u = t) as -> by congruence. destruct Hinc as [Hi1 Hi2].
    rewrite Hi1, Z.eqb_refl, (proj2 (Z.eqb_neq _ _) Hi2), bool_decide_true in E by done. done. }
  apply orb_false_iff in E as [[Hi He]%negb_false_iff%andb_true_iff Hs%negb_false_iff%bool_decide_eq_true].
  assert (incoming u) as Huc by (unfold incoming; lia). destruct (ip_new _ _ _ I i u Hu Huc) as (Hnew & Hr & Hex).
  destruct (ip_migrating _ _ _ I i u Hu Huc Hs) as (info & Hinfo & Ci & Cl & Csrc). destruct (imports_counts s Rp Rl _ I Hr) as (bl & ll & Hb & Hl & Cb & Cll).
  unfold rd. rewrite Hinfo, Hb, Hl. cbn [mbind outcome_bind].
  destruct (negb (pi_pages info =? lst_count bl) || negb (pi_locks info =? lst_count ll)) eqn:Ec.
  { apply IH; try done; [lia|lia|]. exists t. split_and!; try done. destruct Hst as [|[Hm ?]]; [by left|]. right. split; [done|].
    destruct (decide (i = j)) as [->|]; [|lia]. assert (u = t) as -> by congruence. rewrite Hq in *.
    destruct (here_count s Rp Rl q I Hnew Ha) as [E1 E2]. exfalso. lia. }
  assert (all_here Rp Rl (tk_part u)) as Hau.
  { split.
    - apply (all_come page_part (cg_pages g) Ap); [|lia]. intros k Hk Hkq. apply (ap_pages apart_ok k Hk). by rewrite Hkq.
    - apply (all_come lock_part (cg_locks g) Al); [|lia]. intros k Hk Hkq. apply (ap_locks apart_ok k Hk). by rewrite Hkq. }
  destruct (complete_ok s Rp Rl i u I Hu Huc Hau PART_MIGRATE_COMPLETE (pi_src info)) as (tasks' & Eu & I'). specialize (I' eq_refl).
  rewrite Eu. cbn [mbind outcome_bind]. unfold drc_update_remaster_task_status in Eu.
  destruct (task_status_loop_ok self (tk_part u) (pi_src info) PART_MIGRATE_COMPLETE (im_tasks s) (Z.to_nat DRC_MAX_PART_NUM) 0) as (tasks'' & E2 & Hor);
    [intros j' Hj'; apply I; unfold DRC_MAX_PART_NUM in *; lia|]. rewrite Eu in E2. injection E2 as <-.
  apply IH; [exact I'| |lia|lia|].
  - cbn. destruct Hor as [(j' & t' & _ & Ht' & _ & ->)|[-> _]]; [by apply once_status|done].
  - cbn. destruct Hor as [(j' & t' & Hj' & Ht' & (Hf1 & Hf2 & Hf3) & ->)|[-> Hno]].
    + destruct (decide (j' = j)) as [->|Hne].
      * assert (t' = t) as -> by congruence. exists (set_tk_status PART_MIGRATE_COMPLETE t). rewrite lookup_insert_eq. split_and!; try done. by left.
      * rewrite lookup_insert_ne by done. exists t. split_and!; try done. destruct Hst as [|[Hm ?]]; [by left|]. right. split; [done|].
        destruct (decide (i = j)) as [->|]; [|lia]. assert (u = t) as -> by congruence. destruct Hne. apply (Ho j' j t' t); try done.
        unfold incoming. rewrite Hf2, Hf3, Csrc, <- Hex. split; [done|]. apply Hinc.
    + exists t. split_and!; try done. destruct Hst as [|[Hm ?]]; [by left|]. exfalso. apply (Hno i u); [unfold DRC_MAX_PART_NUM in *; lia|done|].
      unfold fits. rewrite Csrc, Hex. split_and!; try done. apply Huc.
Qed.

Lemma part_proc_completes j q s Rp Rl : 0 <= j < DRC_MAX_PART_NUM -> all_here Rp Rl q -> imports s Rp Rl -> once (im_tasks s) ->
  (exists t, im_tasks s !! j = Some t /\ incoming t /\ tk_part t = q /\ tk_status t = PART_MIGRATING) ->
  exists s' t', remaster_part_proc self s = Ok s' /\ imports s' Rp Rl /\ im_tasks s' !! j = Some t' /\ incoming t' /\ tk_part t' = q /\
    tk_status t' = PART_MIGRATE_COMPLETE.
Proof.
  intros Hj Ha I Ho (t & Ht & Hi & Hq & Hs). unfold remaster_part_proc.
  assert (Z.of_nat (Z.to_nat DRC_MAX_PART_NUM) = DRC_MAX_PART_NUM) as En by (apply Z2Nat.id; unfold DRC_MAX_PART_NUM; lia).
  apply (part_pass_completes j q Rp Rl Hj Ha); [done|done|lia|lia|]. exists t. split_and!; try done. right. split; [done|]. rewrite En. lia.
Qed.

(** *** The messages of a partition in their order *)

Lemma fresh_pages k : k ∈ dom (cg_pages g) -> Ap !! k = None.
Proof. intros Hk. destruct (Ap !! k) eqn:E; [|done]. destruct (ap_pages apart_ok k); [by eapply elem_of_dom_2|by apply (ap_cargo_pages apart_ok)]. Qed.
Lemma fresh_locks k : k ∈ dom (cg_locks g) -> Al !! k = None.
Proof. intros Hk. destruct (Al !! k) eqn:E; [|done]. destruct (ap_locks apart_ok k); [by eapply elem_of_dom_2|by apply (ap_cargo_locks apart_ok)]. Qed.

Context (rst rc : Z) (rst_ok : rst <> REMASTER_DONE) (rc_ok : REFORM_FROZEN <= rc < REFORM_RECOVER_DONE).

Fixpoint deliver (ms : list drc_res_master_msg) (s : importer) : outcome importer :=
  match ms with
  | [] => Ok s
  | m :: ms' => s ← drc_process_mgrt_data page_size signed pad self true rst rc version m s; deliver ms' s
  end.

Lemma open_gate : (rst =? REMASTER_DONE) || (REFORM_RECOVER_DONE <=? rc) || (rc <? REFORM_FROZEN) = false.
Proof. lia. Qed.

(** The messages [sent] with the structures [mss], which are on their way and
    have not come. *)
Record pending_pages (Rp : gset page_id) (sent : list drc_res_master_msg) (mss : list (list drc_buf_res_msg)) : Prop := {
  pp_msgs : Forall2 (fun m ms => good_msg m /\ gm_part m < DRC_MAX_PART_NUM /\ carries (B := buf_res) (gm_src m) (gm_part m) version m ms) sent mss;
  pp_keys : NoDup (mg_key (B := buf_res) <$> concat mss);
  pp_src : forall x, x ∈ concat mss -> cg_pages g !! mg_key (B := buf_res) x = Some x /\ mg_key (B := buf_res) x ∉ Rp;
}.

Lemma deliver_pages rest : forall sent mss s Rp Rl, imports s Rp Rl -> Rp ⊆ dom (cg_pages g) -> pending_pages Rp sent mss ->
  Z.of_nat (size Ap) + Z.of_nat (size Spp) + Z.of_nat (size (cg_pages g)) <= gr_num (im_pages s) ->
  exists s', deliver (sent ++ rest) s = deliver rest s' /\ imports s' (list_to_set (mg_key (B := buf_res) <$> concat mss) ∪ Rp) Rl /\
    im_tasks s' = im_tasks s /\ im_locks s' = im_locks s.
Proof.
  induction sent as [|m sent IH]; intros mss s Rp Rl I HR [P1 P2 P3] Hroom; inversion P1 as [|? ms ? mss' (Hg & Hq & Hca) P1']; subst.
  { exists s. cbn. by rewrite union_empty_l_L. }
  cbn [app deliver concat] in *. rewrite fmap_app in P2. apply NoDup_app in P2 as (Pn & Pd & P2').
  destruct (process_buf_ok true m s Rp Rl I Hg (ca_type _ _ _ _ _ Hca)) as (ret & s1 & R & E & I1 & T1 & _ & L1 & N1 & Hok).
  pose proof (got_room (cg_pages g) Ap Rp (mg_key (B := buf_res) <$> ms) HR fresh_pages Pn) as Hr. rewrite length_fmap in Hr.
  assert (forall k, k ∈ mg_key (B := buf_res) <$> ms -> k ∈ dom (cg_pages g) /\ k ∉ Rp) as Hks.
  { intros k (x & -> & Hx)%list_elem_of_fmap. destruct (P3 x) as [H1 H2]; [apply elem_of_app; by left|]. split; [by eapply elem_of_dom_2|done]. }
  specialize (Hr Hks). destruct (Hok (ca_version _ _ _ _ _ Hca) Hq eq_refl) as [-> HRk]; [rewrite (ca_num _ _ _ _ _ Hca); lia|].
  rewrite (HRk ms Hca) in I1. clear R Hok HRk.
  destruct (IH mss' s1 _ Rl I1) as (s2 & E2 & I2 & T2 & L2).
  - intros k [Hk%elem_of_list_to_set|Hk]%elem_of_union; [by apply Hks|by apply HR].
  - split; [done|done|]. intros x Hx. destruct (P3 x) as [H1 H2]; [apply elem_of_app; by right|]. split; [done|].
    intros [Hk%elem_of_list_to_set|Hk]%elem_of_union; [|done]. apply (Pd _ Hk). apply list_elem_of_fmap. by exists x.
  - lia.
  - exists s2. split; [|split; [|split; congruence]].
    + unfold drc_process_mgrt_data. rewrite open_gate. pose proof (ca_size _ _ _ _ _ Hca) as Hsz. change (mg_size (B := buf_res)) with sizeof_buf_res_msg in Hsz.
      assert (drc_check_mgrt_data_msg m = true) as ->.
      { unfold drc_check_mgrt_data_msg. rewrite (ca_type _ _ _ _ _ Hca), (ca_num _ _ _ _ _ Hca). cbn [mg_type buf_mgrt]. unfold DRC_RES_PAGE_TYPE, DRC_RES_LOCK_TYPE. cbn [Z.eqb Pos.eqb andb negb].
        rewrite andb_true_r. apply andb_true_iff. split; [unfold sizeof_res_master_msg, sizeof_buf_res_msg in *; lia|]. apply negb_true_iff, Z.ltb_ge. lia. }
      cbn [negb]. rewrite (ca_type _ _ _ _ _ Hca). cbn [mg_type buf_mgrt]. rewrite Z.eqb_refl, E. cbn [mbind outcome_bind]. exact E2.
    + rewrite fmap_app, list_to_set_app_L, (union_comm_L (list_to_set (mg_key (B := buf_res) <$> ms))), <- union_assoc_L. exact I2.
Qed.

Record pending_locks (q : Z) (Rl : gset drid) (sent : list drc_res_master_msg) (mss : list (list drc_lock_res_msg)) : Prop := {
  pl_msgs : Forall2 (fun m ms => good_msg m /\ gm_part m = q /\ gm_src m = exporter q /\ carries (B := master_res) (gm_src m) (gm_part m) version m ms) sent mss;
  pl_keys : NoDup (mg_key (B := master_res) <$> concat mss);
  pl_src : forall x, x ∈ concat mss -> cg_locks g !! mg_key (B := master_res) x = Some x /\ mg_key (B := master_res) x ∉ Rl;
}.

(** A task of the partition, [begun] when its numbers have come. *)
Definition task_at (j q : Z) (begun : Prop) (s : importer) : Prop :=
  once (im_tasks s) /\ exists t, im_tasks s !! j = Some t /\ incoming t /\ tk_part t = q /\ (begun -> tk_status t = PART_MIGRATING).

Lemma process_lock_task m s Rp Rl j q (begun : Prop) : imports s Rp Rl -> good_msg m -> 0 <= q < DRC_MAX_PART_NUM -> 0 <= j < DRC_MAX_PART_NUM ->
  task_at j q begun s -> gm_part m = q -> gm_src m = exporter q ->
  forall ms, carries (B := master_res) (gm_src m) (gm_part m) version m ms ->
  Z.of_nat (size (got (cg_locks g) Rl Al)) + Z.of_nat (size Spl) + len ms <= gr_num (im_locks s) ->
  Z.of_nat (size (got (cg_locks g) Rl Al)) + Z.of_nat (size Spl) < gr_num (im_locks s) ->
  exists s', drc_process_mgrt_data page_size signed pad self true rst rc version m s = Ok s' /\
    imports s' Rp (list_to_set (mg_key (B := master_res) <$> ms) ∪ Rl) /\ gr_num (im_locks s') = gr_num (im_locks s) /\ task_at j q (begun \/ gm_end m = true) s'.
Proof.
  intros I Hg Hq Hj (Ho & t & Ht & Hinc & Htq & Hst) Hmq Hms ms Hca Hr1 Hr2.
  destruct (process_lock_ok true m s Rp Rl I Hg (ca_type _ _ _ _ _ Hca)) as (ret & s1 & R & E & I1 & _ & N1 & Hok).
  destruct (Hok (ca_version _ _ _ _ _ Hca) ltac:(lia) eq_refl) as (-> & HRk & Hend & Hnot); [rewrite (ca_num _ _ _ _ _ Hca); lia|done|].
  rewrite (HRk ms Hca) in I1. exists s1. split; [|split; [done|split; [done|]]].
  - unfold drc_process_mgrt_data. rewrite open_gate. pose proof (ca_size _ _ _ _ _ Hca) as Hsz. change (mg_size (B := master_res)) with sizeof_lock_res_msg in Hsz.
    assert (drc_check_mgrt_data_msg m = true) as ->.
    { unfold drc_check_mgrt_data_msg. rewrite (ca_type _ _ _ _ _ Hca), (ca_num _ _ _ _ _ Hca). cbn [mg_type lock_mgrt]. unfold DRC_RES_PAGE_TYPE, DRC_RES_LOCK_TYPE. cbn [Z.eqb Pos.eqb andb negb].
      rewrite andb_true_r. apply andb_true_iff. split; [unfold sizeof_res_master_msg, sizeof_lock_res_msg in *; lia|]. apply negb_true_iff, Z.ltb_ge. lia. }
    cbn [negb]. rewrite (ca_type _ _ _ _ _ Hca). change (mg_type (B := master_res)) with DRC_RES_LOCK_TYPE. rewrite Z.eqb_refl.
    change (DRC_RES_LOCK_TYPE =? DRC_RES_PAGE_TYPE) with false. cbn [negb]. rewrite E. done.
  - unfold task_at. destruct (gm_end m) eqn:Ee.
    + destruct (ip_new _ _ _ I j t Ht Hinc) as (_ & _ & Hex).
      destruct (Hend eq_refl j t Ht Hj) as (j' & t' & Ets & Ht' & (Hf1 & Hf2 & Hf3)).
      { unfold fits. rewrite Hmq, Hms, Hex, Htq. split_and!; try done. apply Hinc. }
      assert (j' = j) as ->.
      { apply (Ho j' j t' t Ht' Ht); [|done|congruence]. unfold incoming. rewrite Hf2, Hf3, Hms, <- Htq, <- Hex. split; [done|apply Hinc]. }
      rewrite Ets. split; [by apply once_status|]. assert (t' = t) as -> by congruence. exists (set_tk_status PART_MIGRATING t).
      rewrite lookup_insert_eq. split_and!; try done.
    + rewrite (Hnot eq_refl). split; [done|]. exists t. split_and!; try done. intros [Hb|?]; [by apply Hst|done].
Qed.

Lemma deliver_locks j q : 0 <= q < DRC_MAX_PART_NUM -> 0 <= j < DRC_MAX_PART_NUM -> forall sent mss s Rp Rl (begun : Prop), imports s Rp Rl ->
  Rl ⊆ dom (cg_locks g) -> pending_locks q Rl sent mss -> task_at j q begun s ->
  Z.of_nat (size Al) + Z.of_nat (size Spl) + Z.of_nat (size (cg_locks g)) < gr_num (im_locks s) ->
  exists s', deliver sent s = Ok s' /\ imports s' Rp (list_to_set (mg_key (B := master_res) <$> concat mss) ∪ Rl) /\
    task_at j q (begun \/ exists m, m ∈ sent /\ gm_end m = true) s'.
Proof.
  intros Hq Hj. induction sent as [|m sent IH]; intros mss s Rp Rl begun I HR [P1 P2 P3] Ht Hroom; inversion P1 as [|? ms ? mss' (Hg & Hmq & Hsrc & Hca) P1']; subst.
  { exists s. cbn. rewrite union_empty_l_L. split; [done|]. split; [done|]. destruct Ht as (Ho & t & ? & ? & ? & Hs). split; [done|]. exists t.
    split_and!; try done. intros [Hb|(m & Hm & _)]; [by apply Hs|by apply not_elem_of_nil in Hm]. }
  cbn [deliver concat] in *. rewrite fmap_app in P2. apply NoDup_app in P2 as (Pn & Pd & P2').
  assert (forall k, k ∈ mg_key (B := master_res) <$> ms -> k ∈ dom (cg_locks g) /\ k ∉ Rl) as Hks.
  { intros k (x & -> & Hx)%list_elem_of_fmap. destruct (P3 x) as [H1 H2]; [apply elem_of_app; by left|]. split; [by eapply elem_of_dom_2|done]. }
  pose proof (got_room (cg_locks g) Al Rl (mg_key (B := master_res) <$> ms) HR fresh_locks Pn Hks) as Hr. rewrite length_fmap in Hr.
  destruct (process_lock_task m s Rp Rl j _ begun I Hg Hq Hj Ht eq_refl Hsrc ms Hca ltac:(lia) ltac:(lia)) as (s1 & -> & I1 & N1 & T1). cbn [mbind outcome_bind].
  destruct (IH mss' s1 Rp _ (begun \/ gm_end m = true) I1) as (s2 & E2 & I2 & T2).
  - intros k [Hk%elem_of_list_to_set|Hk]%elem_of_union; [by apply Hks|by apply HR].
  - split; [done|done|]. intros x Hx. destruct (P3 x) as [H1 H2]; [apply elem_of_app; by right|]. split; [done|].
    intros [Hk%elem_of_list_to_set|Hk]%elem_of_union; [|done]. apply (Pd _ Hk). apply list_elem_of_fmap. by exists x.
  - exact T1.
  - lia.
  - exists s2. split; [done|]. split.
    + rewrite fmap_app, list_to_set_app_L, (union_comm_L (list_to_set (mg_key (B := master_res) <$> ms))), <- union_assoc_L. exact I2.
    + destruct T2 as (Ho & t & ? & ? & ? & Hs). split; [done|]. exists t. split_and!; try done.
      intros [Hb|(m' & [->|Hm']%elem_of_cons & He)]; apply Hs; [by left; left|by left; right|right; by exists m'].
Qed.
End Importing.
