(* ===== verification/DrcMigrateFree.v ===== *)
(** The freeing of the resources of a partition: the loop over its list, and
    what it leaves of the table. *)

From S2P Require Import Prelude DrcBitmap DrcPool DrcResMap DrcList DrcGlobalRes DrcQueue DrcTable DrcReform DrcPart DrcPage DrcLock.
From S2P Require Import DrcRemaster DrcMigrate DrcMigrateThm DrcMigrateInv.

#[local] Notation len l := (Z.of_nat (length l)).

Section FreePart.
Context {B : Type -> Type} {K : Type} `{QueuedRes B K} (hashf : Z -> K -> Z) (partf : K -> Z).
Implicit Types (t : res_tab B) (A : gmap K (B (list drc_req_info))) (am al : gmap K Z) (g : drc_global_res (B drc_list)).

(** The other partitions. *)
Definition off_part {V} (q : Z) (X : gmap K V) : gmap K V := filter (fun p => partf p.1 <> q) X.

Lemma off_part_Some {V} q (X : gmap K V) k x : off_part q X !! k = Some x <-> X !! k = Some x /\ partf k <> q.
Proof. unfold off_part. by rewrite map_lookup_filter_Some. Qed.

Lemma off_part_id {V} q (X : gmap K V) : (forall k, is_Some (X !! k) -> partf k <> q) -> off_part q X = X.
Proof. intros HX. apply map_filter_id. intros k x Hx. apply HX. by eexists. Qed.

(** The slots [l] in the order in which the nodes lead from one to the next. *)
Fixpoint walk (m : gmap Z (res_item (B drc_list))) (l : list Z) : Prop :=
  match l with
  | [] => True
  | i :: l' => (exists a, m !! i = Some a /\ ln_next (item_node a) = hd OG_INVALID_ID32 l') /\ walk m l'
  end.

Lemma walk_frame m m' l : (forall i a, i ∈ l -> m !! i = Some a -> exists a', m' !! i = Some a' /\ item_node a' = item_node a) -> walk m l -> walk m' l.
Proof.
  induction l as [|i l IH]; intros Hf; [done|]. intros [(a & Ha & Hn) Hw]. split.
  - destruct (Hf i a) as (a' & ? & Hn'); [by left|done|]. exists a'. by rewrite Hn'.
  - apply IH; [|done]. intros j b Hj. apply Hf. by right.
Qed.

Lemma dseg_walk m l : forall pv, dseg m pv l OG_INVALID_ID32 -> walk m l.
Proof.
  induction l as [|i l IH]; intros pv; [done|]. intros [(a & Ha & Hn) Hd]. split; [|by eapply IH]. exists a. split; [done|].
  change (ln_next (it_node a) = hd OG_INVALID_ID32 l). by rewrite Hn.
Qed.

(** The table as if its list of partition [q] was empty already. *)
Definition as_empty (q : Z) g : drc_global_res (B drc_list) := mk_gres (res_map g) (<[q := DRC_LIST_INIT]> (res_parts g)).

Lemma as_empty_inv q g am U : 0 <= q < DRC_MAX_PART_NUM -> gr_inv hashf partf g am U -> gr_inv2 hashf partf (as_empty q g) am (off_part q am) U.
Proof.
  intros Hq I. split; [apply I|apply I|apply I| |].
  - intros k i [Hk _]%off_part_Some. by apply (gi_al _ _ _ _ _ _ I).
  - intros q' Hq'. destruct (decide (q' = q)) as [->|Hne].
    + exists DRC_LIST_INIT, []. cbn. rewrite lookup_insert_eq. split_and!; [done|by split|constructor|].
      intros i. split; [by intros ?%not_elem_of_nil|]. by intros (k & [_ Hk]%off_part_Some & ?).
    + destruct (gi_parts _ _ _ _ _ _ I q' Hq') as (lst & l & Hl & Hr & Hnd & Hin). exists lst, l. cbn. rewrite lookup_insert_ne by done.
      split_and!; try done. intros i. rewrite Hin. split; intros (k & Hk & Hkq); exists k; (split; [|done]).
      * apply off_part_Some. split; [done|congruence].
      * by apply off_part_Some in Hk as [? _].
Qed.

(** The keys [ks] of partition [q] are in the slots [l]. *)
Definition kept_in (q : Z) am (ks : list K) (l : list Z) : Prop := Forall2 (fun k i => am !! k = Some i /\ partf k = q) ks l.

Lemma kept_slot q am ks l i : kept_in q am ks l -> i ∈ l -> exists k, k ∈ ks /\ am !! k = Some i.
Proof.
  intros F2 [n Hn]%list_elem_of_lookup. destruct (Forall2_lookup_r _ _ _ _ _ F2 Hn) as (k & Hk & ? & _). exists k. split; [by eapply list_elem_of_lookup_2|done].
Qed.

Lemma off_part_delete q am k : partf k = q -> off_part q (delete k am) = off_part q am.
Proof.
  intros Hk. apply map_eq. intros k'. apply option_eq. intros i. rewrite !off_part_Some, lookup_delete_Some. split; [tauto|].
  intros [? Hne]. split_and!; try done. by intros ->.
Qed.

(** One resource: off the hash map, its slot zeroed. *)
Lemma free_part_one q g am U k i : gr_inv2 hashf partf (as_empty q g) am (off_part q am) U -> am !! k = Some i -> partf k = q ->
  exists g1 g2, gr_map_remove g (gr_hash hashf g k) k = Ok g1 /\ gr_memset g1 i = Ok g2 /\ res_parts g2 = res_parts g /\
    gr_inv2 hashf partf (as_empty q g2) (delete k am) (off_part q (delete k am)) U /\ gr_bodies g2 = <[i := qr_zero]> (gr_bodies g) /\
    bucket_num (res_map g2) = bucket_num (res_map g) /\
    forall j a, j <> i -> addr (gr_pool g) !! j = Some a -> exists a', addr (gr_pool g2) !! j = Some a' /\ item_node a' = item_node a.
Proof.
  intros I Hk Hq. destruct (gr_map_remove_ok _ _ _ _ _ _ k i I Hk) as (g1' & E1 & I1 & Eb1 & En1 & _ & Ep1 & Hn1).
  unfold gr_map_remove in E1. cbn [res_map as_empty] in E1. change (gr_hash hashf (as_empty q g) k) with (gr_hash hashf g k) in E1.
  destruct (drc_res_map_remove (res_map g) (gr_hash hashf g k) k) as [rm|] eqn:Er; [|done]. cbn [mbind outcome_bind] in E1. injection E1 as <-.
  assert (forall k', delete k am !! k' <> Some i) as Hd.
  { intros k' [Hne Hk']%lookup_delete_Some. destruct Hne. symmetry. by eapply (gr_inv_inj _ _ _ _ _ _ k' k i I). }
  destruct (gr_memset_ok _ _ _ _ _ _ i I1) as (g2' & E2 & I2 & Eb2 & En2); [by eapply (gi_am _ _ _ _ _ _ I)|done| |].
  { intros k' [Hk' Hne]%off_part_Some. assert (k' = k) as -> by (by eapply (gr_inv_inj _ _ _ _ _ _ k' k i I)). done. }
  unfold gr_memset in E2. destruct (store _ i pi_zero) as [p|] eqn:Es; [|done]. cbn [mbind outcome_bind] in E2. injection E2 as <-.
  exists (mk_gres rm (res_parts g)), (gr_set_pool p (mk_gres rm (res_parts g))). unfold gr_map_remove, gr_memset. rewrite Er.
  change (gr_pool (mk_gres rm (res_parts g))) with (gr_pool (mk_gres rm (<[q := DRC_LIST_INIT]> (res_parts g)))). cbn [mbind outcome_bind]. rewrite Es. split_and!; try done.
  - rewrite off_part_delete by done. exact I2.
  - transitivity (<[i := qr_zero]> (gr_bodies (mk_gres rm (res_parts g)))); [exact Eb2|f_equal; exact Eb1].
  - intros j a Hj Ha. destruct (Hn1 j a Ha) as (n & Ha1). exists (set_item_next n a). split; [|done]. cbn.
    unfold store in Es. destruct (addr _ !! i); [|done]. injection Es as <-. cbn. by rewrite lookup_insert_ne by done.
Qed.

Lemma free_part_loop_ok q : forall ks l ids g am U, gr_inv2 hashf partf (as_empty q g) am (off_part q am) U ->
  kept_in q am ks l -> NoDup ks -> walk (addr (gr_pool g)) l ->
  exists g' am', free_part_loop (K := K) hashf (length l) (hd OG_INVALID_ID32 l) ids g = Ok (ids ++ l, g') /\ res_parts g' = res_parts g /\
    gr_inv2 hashf partf (as_empty q g') am' (off_part q am) U /\ (forall k, am' !! k = if decide (k ∈ ks) then None else am !! k) /\
    (forall j, j ∉ l -> gr_bodies g' !! j = gr_bodies g !! j) /\ (forall j, j ∈ l -> gr_bodies g' !! j = Some qr_zero) /\
    bucket_num (res_map g') = bucket_num (res_map g).
Proof.
  induction ks as [|k ks IH]; intros l ids g am U I F2 Hnd Hw; inversion F2 as [|? i ? l' [Hk Hkq] F2']; subst.
  { exists g, am. cbn. rewrite app_nil_r. split_and!; try done. intros j Hj. by apply not_elem_of_nil in Hj. }
  apply NoDup_cons in Hnd as [Hkn Hnd]. destruct Hw as [(a & Ha & Hn) Hw]. cbn [length hd free_part_loop]. unfold load at 1. rewrite Ha. cbn [mbind outcome_bind].
  assert (qr_key (body a) = k) as Hkey.
  { refine (gr_inv_key _ _ _ _ _ _ k i (body a) I Hk _). unfold gr_bodies. rewrite lookup_fmap. change (gr_pool (as_empty (partf k) g)) with (gr_pool g). by rewrite Ha. }
  destruct (free_part_one (partf k) g am U k i I Hk eq_refl) as (g1 & g2 & E1 & E2 & Ep & I2 & Eb & En & Hno). rewrite Hkey, E1. cbn [mbind outcome_bind]. rewrite E2, Hn. cbn [mbind outcome_bind].
  assert (i ∉ l') as Hil. { intros (k' & Hk' & Hi)%(kept_slot _ _ _ _ _ F2'). assert (k' = k) as -> by (by eapply (gr_inv_inj _ _ _ _ _ _ k' k i I)). done. }
  destruct (IH l' (ids ++ [i]) g2 (delete k am) U I2) as (g' & am' & E & Ep' & I' & Ham & Ho & Hz & En').
  - clear -F2' Hkn. induction F2' as [|k' j ks l' [Hj Hq] _ IH2]; constructor.
    + split; [|done]. rewrite lookup_delete_ne; [done|]. intros ->. apply Hkn. by left.
    + apply IH2. intros Hin. apply Hkn. by right.
  - done.
  - eapply walk_frame; [|exact Hw]. intros j c Hj Hc. apply Hno; [by intros ->|done].
  - exists g', am'. rewrite E, <- app_assoc. rewrite off_part_delete in I' by done. split_and!; try done; try congruence.
    + intros k'. rewrite Ham. destruct (decide (k' = k)) as [->|Hne].
      * rewrite lookup_delete_eq. rewrite (decide_True (P := k ∈ k :: ks)) by (by left). by destruct (decide _).
      * rewrite lookup_delete_ne by done. destruct (decide (k' ∈ ks)); [rewrite decide_True; [done|by right]|]. rewrite decide_False; [done|]. by intros [?|?]%elem_of_cons.
    + intros j [Hj1 Hj2]%not_elem_of_cons. rewrite Ho, Eb by done. by rewrite lookup_insert_ne.
    + intros j Hj. destruct (decide (j ∈ l')); [by apply Hz|]. apply elem_of_cons in Hj as [->|]; [|done]. rewrite Ho, Eb by done. by rewrite lookup_insert_eq.
Qed.

(** The keys of the slots on the list. *)
Lemma part_keys q am l : (forall i, i ∈ l -> exists k, am !! k = Some i /\ partf k = q) -> exists ks, kept_in q am ks l.
Proof.
  induction l as [|i l IH]; intros Hl; [exists []; constructor|]. destruct IH as [ks F2]; [intros j Hj; apply Hl; by right|].
  destruct (Hl i) as (k & Hk & Hq); [by left|]. exists (k :: ks). by constructor.
Qed.

Lemma kept_nodup q am ks l : kept_in q am ks l -> NoDup l -> NoDup ks.
Proof.
  induction 1 as [|k i ks l [Hk Hq] F2 IH]; intros Hnd; [constructor|]. apply NoDup_cons in Hnd as [Hi Hnd]. constructor; [|by apply IH].
  intros [n Hn]%list_elem_of_lookup. destruct (Forall2_lookup_l _ _ _ _ _ F2 Hn) as (j & Hj & Hk' & _). assert (j = i) as -> by congruence.
  apply Hi. by eapply list_elem_of_lookup_2.
Qed.

(** The items of the queues of partition [q]. *)
Definition part_items (q : Z) A (sl : K -> list Z) : gset Z := list_to_set (concat (sl <$> (map_to_list (in_part partf q A)).*1)).

Lemma elem_of_part_items q A sl j : (forall k, A !! k = None -> sl k = []) -> j ∈ part_items q A sl <-> exists k, partf k = q /\ j ∈ sl k.
Proof.
  intros Hno. unfold part_items. rewrite elem_of_list_to_set, list_elem_of_In, in_concat. split.
  - intros (x & Hx & Hj). apply list_elem_of_In, list_elem_of_fmap in Hx as (k & -> & ([k' b] & -> & [_ Hq]%elem_of_map_to_list%map_lookup_filter_Some)%list_elem_of_fmap).
    exists k'. split; [done|by apply list_elem_of_In].
  - intros (k & Hq & Hj). exists (sl k). split; [|by apply list_elem_of_In]. apply list_elem_of_In, list_elem_of_fmap. exists k. split; [done|].
    destruct (A !! k) as [b|] eqn:E; [|rewrite (Hno k E) in Hj; by apply not_elem_of_nil in Hj].
    apply list_elem_of_fmap. exists (k, b). split; [done|]. apply elem_of_map_to_list. by apply map_lookup_filter_Some_2.
Qed.

(** The table without the resources of partition [q]: their slots [l] are
    spare, the items their queues still have belong to nobody. *)
Lemma tab_off_part q t A f F Sp am g' l : tab_rep hashf partf t A f F Sp am ->
  (forall i, i ∈ l <-> exists k, am !! k = Some i /\ partf k = q) ->
  gr_inv hashf partf g' (off_part q am) (map_img am ∪ Sp) ->
  (forall j, j ∉ l -> gr_bodies g' !! j = gr_bodies (tb_res t) !! j) -> (forall j, j ∈ l -> gr_bodies g' !! j = Some qr_zero) ->
  exists F', F ⊆ F' /\ ((forall k b, A !! k = Some b -> partf k = q -> qr_queue b = []) -> F' = F) /\
    tab_rep hashf partf (tb_set_res g' t) (off_part q A) f F' (list_to_set l ∪ Sp) (off_part q am).
Proof.
  intros R Hl I' Hb Hz. pose proof R as [I Hsp (LU & sl & IR & Hnone & Hres) Hdom Hblank].
  assert (forall k i, am !! k = Some i -> partf k <> q -> i ∉ l) as Hkeep.
  { intros k i Hi Hne (k' & Hk' & Hq)%Hl. assert (k' = k) as -> by (by eapply tab_inj). done. }
  exists (F ∪ part_items q A sl). split_and!; [set_solver| |].
  { intros He. apply set_eq. intros j. rewrite elem_of_union, (elem_of_part_items q A sl j Hnone). split; [|tauto]. intros [?|(k & Hq & Hj)]; [done|].
    destruct (A !! k) as [b|] eqn:E; [|rewrite (Hnone k E) in Hj; by apply not_elem_of_nil in Hj]. destruct (Hres k b E) as (i & c & _ & _ & _ & Hqr).
    pose proof (Forall2_length _ _ _ (qr_reqs _ _ _ _ Hqr)) as Hlen. rewrite (He k b E Hq) in Hlen. destruct (sl k); [by apply not_elem_of_nil in Hj|done]. }
  split; cbn [tb_res tb_items tb_set_res].
  - replace (map_img (off_part q am) ∪ (list_to_set l ∪ Sp)) with (map_img am ∪ Sp : gset Z); [done|]. apply set_eq. intros j.
    rewrite !elem_of_union, elem_of_list_to_set, !elem_of_map_img, Hl. split.
    + intros [[k Hk]|?]; [|tauto]. destruct (decide (partf k = q)); [right; left; eauto|]. left. exists k. by apply off_part_Some.
    + intros [[k [Hk _]%off_part_Some]|[(k & Hk & _)|?]]; eauto.
  - intros k i [Hk Hne]%off_part_Some. rewrite elem_of_union, elem_of_list_to_set. intros [Hi|Hi]; [by eapply Hkeep|by eapply Hsp].
  - exists LU, (fun k => if decide (partf k = q) then [] else sl k). split_and!.
    + split; try apply IR.
      * intros j. rewrite (ir_used _ _ _ _ _ IR), elem_of_union, (elem_of_part_items q A sl j Hnone). split.
        -- intros [?|[k Hk]]; [tauto|]. destruct (decide (partf k = q)); [left; right; eauto|]. right. exists k. by rewrite decide_False.
        -- intros [[?|(k & _ & ?)]|[k Hk]]; [tauto|eauto|]. case_decide; [by apply not_elem_of_nil in Hk|eauto].
      * intros j k. rewrite elem_of_union, (elem_of_part_items q A sl j Hnone). case_decide; [intros _; apply not_elem_of_nil|].
        intros [Hj|(k' & Hq & Hj)]; [by eapply (ir_other _ _ _ _ _ IR)|]. intros Hj'. assert (k' = k) as -> by (by eapply (ir_disj _ _ _ _ _ IR)). done.
      * intros k. case_decide; [constructor|apply IR].
      * intros k k' j. case_decide; [by intros ?%not_elem_of_nil|]. case_decide; [by intros _ ?%not_elem_of_nil|]. apply IR.
    + intros k Hk. case_decide; [done|]. apply Hnone. destruct (A !! k) as [b|] eqn:E; [|done]. by rewrite (proj2 (off_part_Some q A k b)) in Hk.
    + intros k ab [Hk Hne]%off_part_Some. destruct (Hres k ab Hk) as (i & b & Hi & Hbb & ?). exists i, b. rewrite decide_False by done.
      split; [by apply off_part_Some|]. rewrite Hb by (by eapply Hkeep). done.
  - intros k. specialize (Hdom k). unfold is_Some in *. setoid_rewrite off_part_Some. split; intros [x [Hx Hne]]; [destruct (proj1 Hdom (ex_intro _ x Hx)) as [y ?]|destruct (proj2 Hdom (ex_intro _ x Hx)) as [y ?]]; by exists y.
  - intros j b Hj Hu. destruct (decide (j ∈ l)) as [Hjl|Hjl]; [rewrite (Hz j Hjl) in Hj; congruence|]. rewrite (Hb j Hjl) in Hj. apply (Hblank j b Hj).
    intros k Hk. destruct (decide (partf k = q)) as [Hq|Hq]; [apply Hjl, Hl; eauto|]. apply (Hu k). by apply off_part_Some.
Qed.

(** [drc_free_buf_res_by_part] and its copy. *)
Lemma free_res_by_part_ok q t A f F Sp am : tab_rep hashf partf t A f F Sp am -> 0 <= q < DRC_MAX_PART_NUM ->
  exists t' F', free_res_by_part hashf true q t = Ok t' /\ tb_items t' = tb_items t /\ F ⊆ F' /\
    ((forall k b, A !! k = Some b -> partf k = q -> qr_queue b = []) -> F' = F) /\
    tab_rep hashf partf t' (off_part q A) f F' Sp (off_part q am).
Proof.
  intros R Hq. pose proof (tr_gres _ _ _ _ _ _ _ _ R) as I. destruct (gi_parts _ _ _ _ _ _ I q Hq) as (lst & l & Hlst & Hr & Hnd & Hin).
  destruct (part_keys q am l) as [ks F2]; [intros i Hi; by apply Hin|].
  destruct (free_part_loop_ok q ks l [] (tb_res t) am _ (as_empty_inv q _ am _ Hq I) F2 (kept_nodup _ _ _ _ F2 Hnd) (dseg_walk _ _ _ (lr_seg _ _ _ Hr)))
    as (g' & am' & E & Ep & I' & Ham & Ho & Hz & En).
  assert (am' = off_part q am) as ->.
  { apply map_eq. intros k. rewrite Ham. apply option_eq. intros i. rewrite off_part_Some. case_decide as Hk.
    - split; [done|]. intros [_ Hne]. apply list_elem_of_lookup in Hk as [n Hn]. by destruct (Forall2_lookup_l _ _ _ _ _ F2 Hn) as (j & _ & _ & ?).
    - split; [|tauto]. intros Hi. split; [done|]. intros Hkq. apply Hk. assert (i ∈ l) as Hil by (apply Hin; eauto).
      destruct (kept_slot _ _ _ _ _ F2 Hil) as (k' & Hk' & Hi'). assert (k' = k) as -> by (by eapply tab_inj). done. }
  destruct (tab_off_part q t A f F Sp am (as_empty q g') l R Hin I' Ho Hz) as (F' & HF & HFe & R').
  unfold free_res_by_part, rd. rewrite Hlst. cbn [mbind outcome_bind negb]. rewrite (lr_count _ _ _ Hr), (lr_first _ _ _ Hr).
  destruct (Z.eqb_spec (len l) 0) as [H0'|_].
  { destruct l; [|cbn in H0'; lia]. assert (forall k, is_Some (am !! k) -> partf k <> q) as Hno.
    { intros k [i Hi] Hk. apply (not_elem_of_nil (A := Z) i), Hin. by exists k. }
    exists t, F. rewrite !off_part_id; [done|done|]. intros k Hk. apply Hno. by apply (tr_dom _ _ _ _ _ _ _ _ R). }
  replace (Z.to_nat (len l)) with (length l) by lia. rewrite E. cbn [mbind outcome_bind].
  destruct (tab_free_batch hashf partf _ _ _ _ _ _ l R' Hnd) as (p' & Ef & R2); [intros i Hi; apply elem_of_union_l; by apply elem_of_list_to_set|].
  change (gr_pool (tb_res (tb_set_res (as_empty q g') t))) with (gr_pool g') in Ef. cbn [app]. rewrite Ef. cbn [mbind outcome_bind].
  eexists _, F'. split; [done|]. split; [done|]. split; [done|]. split; [done|].
  replace ((list_to_set l ∪ Sp) ∖ list_to_set l) with Sp in R2; [exact R2|].
  apply set_eq. intros j. rewrite elem_of_difference, elem_of_union, elem_of_list_to_set. split; [|tauto]. intros Hj. split; [by right|].
  intros (k & Hk & _)%Hin. by apply (tr_spare _ _ _ _ _ _ _ _ R k j Hk).
Qed.
End FreePart.

(** ** Several partitions *)
Section Without.
Context {K : Type} `{Countable K} (partf : K -> Z).

(** What is left without the partitions [parts]. *)
Definition without {V} (parts : list Z) (X : gmap K V) : gmap K V := filter (fun p => partf p.1 ∉ parts) X.

Lemma without_nil {V} (X : gmap K V) : without [] X = X.
Proof. apply map_filter_id. intros k x _. apply not_elem_of_nil. Qed.

Lemma without_cons {V} q parts (X : gmap K V) : without parts (off_part partf q X) = without (q :: parts) X.
Proof.
  unfold without, off_part. rewrite map_filter_filter. apply map_filter_ext. intros k x _. cbn. rewrite not_elem_of_cons. tauto.
Qed.

Lemma without_ext {V} parts parts' (X : gmap K V) : (forall q, q ∈ parts <-> q ∈ parts') -> without parts X = without parts' X.
Proof. intros He. apply map_filter_ext. intros k x _. cbn. by rewrite He. Qed.
End Without.

Section FreeAll.
Context (page_size : Z) (signed : bool) (pad : list Z) (mem : Z -> bool * bool) (mem_ok : forall q, mem q = (true, true)).
#[local] Notation page_part := (drc_page_partid page_size).
#[local] Notation lock_part := (lock_partid signed pad).
#[local] Notation page_rep := (tab_rep drc_page_id_hash page_part).
#[local] Notation lock_rep := (tab_rep (lock_hash signed pad) lock_part).

(** Nobody waits for a resource of the partitions. *)
Definition quiet {B : Type -> Type} {K} `{QueuedRes B K} (partf : K -> Z) (parts : list Z) (A : gmap K (B (list drc_req_info))) : Prop :=
  forall k b, A !! k = Some b -> partf k ∈ parts -> qr_queue b = [].

Lemma quiet_cons {B : Type -> Type} {K} `{QueuedRes B K} (partf : K -> Z) q parts (A : gmap K (B (list drc_req_info))) :
  quiet partf (q :: parts) A -> (forall k b, A !! k = Some b -> partf k = q -> qr_queue b = []) /\ quiet partf parts (off_part partf q A).
Proof.
  intros HA. split; [intros k b Hk Hq; apply (HA k b Hk); rewrite Hq; by left|]. intros k b [Hk _]%off_part_Some Hq. apply (HA k b Hk). by right.
Qed.

Lemma free_parts_ok f Spp Spl : forall parts c Bp Bl Fp Fl amp aml, (forall q, q ∈ parts -> 0 <= q < DRC_MAX_PART_NUM) ->
  page_rep c.1 Bp f Fp Spp amp -> lock_rep c.2 Bl f Fl Spl aml ->
  exists c' Fp' Fl' amp' aml', free_parts signed pad mem parts c = Ok c' /\
    page_rep c'.1 (without page_part parts Bp) f Fp' Spp amp' /\ lock_rep c'.2 (without lock_part parts Bl) f Fl' Spl aml' /\
    (quiet page_part parts Bp -> Fp' = Fp) /\ (quiet lock_part parts Bl -> Fl' = Fl) /\
    tb_items c'.1 = tb_items c.1 /\ tb_items c'.2 = tb_items c.2.
Proof.
  induction parts as [|q parts IH]; intros c Bp Bl Fp Fl amp aml Hr Rp Rl.
  { exists c, Fp, Fl, amp, aml. by rewrite !without_nil. }
  cbn [free_parts]. unfold free_both. rewrite mem_ok. assert (0 <= q < DRC_MAX_PART_NUM) as Hq by (apply Hr; by left).
  destruct (free_res_by_part_ok _ _ q c.1 Bp f Fp Spp amp Rp Hq) as (tp & F1 & E1 & I1 & _ & H1 & R1).
  destruct (free_res_by_part_ok _ _ q c.2 Bl f Fl Spl aml Rl Hq) as (tl & F2 & E2 & I2 & _ & H2 & R2).
  unfold drc_free_buf_res_by_part, drc_free_lock_res_by_part. cbn [fst snd]. rewrite E1. cbn [mbind outcome_bind]. rewrite E2. cbn [mbind outcome_bind].
  destruct (IH (tp, tl) _ _ _ _ _ _ (fun q' Hq' => Hr q' (list_elem_of_further _ _ _ Hq')) R1 R2) as (c' & Fp' & Fl' & amp' & aml' & E & Rp' & Rl' & Qp & Ql & J1 & J2).
  rewrite (without_cons page_part) in Rp'. rewrite (without_cons lock_part) in Rl'. exists c', Fp', Fl', amp', aml'. split_and!; try done.
  - intros [Ha Hb]%quiet_cons. by rewrite (Qp Hb), (H1 Ha).
  - intros [Ha Hb]%quiet_cons. by rewrite (Ql Hb), (H2 Ha).
  - by rewrite J1.
  - by rewrite J2.
Qed.

Lemma free_parts_app parts parts' c : free_parts signed pad mem (parts ++ parts') c = (c' ← free_parts signed pad mem parts c; free_parts signed pad mem parts' c').
Proof.
  revert c. induction parts as [|q parts IH]; intros c; [done|]. cbn [app free_parts]. destruct (free_both signed pad mem q c); [|done]. apply IH.
Qed.

(** The partitions of the tasks [js] that this instance exports. *)
Definition export_of (self : Z) (tasks : gmap Z drc_remaster_task) (j : Z) : list Z :=
  match tasks !! j with Some t => if tk_export t =? self then [tk_part t] else [] | None => [] end.
Definition exports_of (self : Z) (tasks : gmap Z drc_remaster_task) (js : list Z) : list Z := concat (export_of self tasks <$> js).

Lemma elem_of_exports self tasks js q :
  q ∈ exports_of self tasks js <-> exists j t, j ∈ js /\ tasks !! j = Some t /\ tk_export t = self /\ tk_part t = q.
Proof.
  unfold exports_of. rewrite list_elem_of_In, in_concat. split.
  - intros (l & Hl & Hq%list_elem_of_In). apply list_elem_of_In, list_elem_of_fmap in Hl as (j & -> & Hj). unfold export_of in Hq.
    destruct (tasks !! j) as [t|] eqn:E; [|by apply not_elem_of_nil in Hq]. destruct (Z.eqb_spec (tk_export t) self); [|by apply not_elem_of_nil in Hq].
    apply list_elem_of_singleton in Hq. by exists j, t.
  - intros (j & t & Hj & Ht & He & <-). exists (export_of self tasks j). split; [apply list_elem_of_In, list_elem_of_fmap; by exists j|].
    apply list_elem_of_In. unfold export_of. rewrite Ht, He, Z.eqb_refl. by left.
Qed.

Lemma free_proc_parts self tasks : forall n start c, (forall j, start <= j < start + Z.of_nat n -> is_Some (tasks !! j)) ->
  drc_free_migrated_res_proc signed pad mem self n start tasks c = free_parts signed pad mem (exports_of self tasks (seqZ start (Z.of_nat n))) c.
Proof.
  induction n as [|n IH]; intros start c Hd; [done|]. rewrite (seqZ_cons start) by lia. cbn [drc_free_migrated_res_proc].
  destruct (Hd start ltac:(lia)) as [t Ht]. unfold rd. rewrite Ht. cbn [mbind outcome_bind].
  replace (Z.pred (Z.of_nat (S n))) with (Z.of_nat n) by lia. unfold exports_of. rewrite fmap_cons. cbn [concat].
  assert (forall c, drc_free_migrated_res_proc signed pad mem self n (start + 1) tasks c =
    free_parts signed pad mem (exports_of self tasks (seqZ (Z.succ start) (Z.of_nat n))) c) as IH' by (intros c'; apply IH; intros j Hj; apply Hd; lia).
  unfold export_of at 1. rewrite Ht. destruct (tk_export t =? self) eqn:E; cbn [negb mbind outcome_bind app free_parts].
  - destruct (free_both signed pad mem (tk_part t) c); [|done]. cbn [mbind outcome_bind]. apply IH'.
  - apply IH'.
Qed.

Lemma free_threads_parts self created tasks : (forall i, created i = OG_SUCCESS) -> forall jobs i c,
  (forall a n j, (a, n) ∈ jobs -> j ∈ seqZ a n -> is_Some (tasks !! j)) -> (forall a n, (a, n) ∈ jobs -> 0 <= n) ->
  free_threads signed pad mem self i jobs created tasks c =
    (c' ← free_parts signed pad mem (exports_of self tasks (concat ((fun j => seqZ j.1 j.2) <$> jobs))) c; Ok (OG_SUCCESS, c')).
Proof.
  intros Hc. induction jobs as [|[a n] jobs IH]; intros i c Hd Hn; [done|]. cbn [free_threads fmap list_fmap concat fst snd]. rewrite Hc. rewrite bool_decide_false by done.
  assert (0 <= n) as Hn0 by (apply (Hn a); by left).
  rewrite free_proc_parts by (intros j Hj; apply (Hd a n); [by left|apply elem_of_seqZ; lia]). rewrite Z2Nat.id by done.
  unfold exports_of. rewrite fmap_app, concat_app. rewrite free_parts_app. fold (exports_of self tasks (seqZ a n)).
  destruct (free_parts signed pad mem (exports_of self tasks (seqZ a n)) c) as [c1|]; [|done]. cbn [mbind outcome_bind].
  apply IH; [intros a' n' j Ha; apply (Hd a' n'); by right|intros a' n' Ha; apply (Hn a'); by right].
Qed.
End FreeAll.
