(* ===== verification/DrcMigrateProps.v ===== *)
(** The properties of the migration of resources: the messages of a
    partition, the partition that is found complete, the round trip from one
    master to the other, and the freeing of a partition. *)

From S2P Require Import Prelude DrcBitmap DrcPool DrcResMap DrcList DrcGlobalRes DrcQueue DrcTable DrcReform DrcPart DrcPage DrcPageThm DrcLock DrcLockThm.
From S2P Require Import DrcPageProps DrcLockProps DrcRemaster DrcRemasterThm DrcMigrate DrcMigrateThm DrcMigrateInv DrcMigrateFree.

#[local] Notation len l := (Z.of_nat (length l)).
#[local] Notation page_rep ps := (tab_rep drc_page_id_hash (drc_page_partid ps)).
#[local] Notation lock_rep sg pad := (tab_rep (lock_hash sg pad) (lock_partid sg pad)).

(** The structures of the resources of a partition. *)
Section Packs.
Context {B : Type -> Type} {K M : Type} `{MgrtLaws B K M} (partf : K -> Z) (part : Z).
Implicit Types (A : gmap K (B (list drc_req_info))).

Definition pack_of (b : B (list drc_req_info)) : M := mg_pack 0 b.
Definition packed A : gmap K M := pack_of <$> in_part partf part A.

Lemma packed_dom A k : k ∈ dom (packed A) <-> k ∈ dom A /\ partf k = part.
Proof. unfold packed. rewrite dom_fmap. apply in_part_dom. Qed.

Lemma packed_ok A : (forall k b, A !! k = Some b -> qr_key b = k) -> forall k m, packed A !! k = Some m -> mg_key (B := B) m = k /\ mg_plain (B := B) m.
Proof.
  intros HA k m. unfold packed. rewrite lookup_fmap. intros (b & [Hb _]%map_lookup_filter_Some & ->)%fmap_Some. unfold pack_of.
  rewrite mg_key_pack. split; [by apply HA|apply ml_pack].
Qed.

(** They are the structures that are sent, and as many. *)
Lemma packs_src A (packs : list M) : (forall k b, A !! k = Some b -> qr_key b = k) -> part_packs partf part A packs ->
  (forall m, m ∈ packs -> packed A !! mg_key (B := B) m = Some m) /\ len packs = part_count partf part (packed A) /\
  list_to_set (mg_key (B := B) <$> packs) = dom (packed A).
Proof.
  intros HA P. assert (list_to_set (mg_key (B := B) <$> packs) = dom (packed A)) as Hd.
  { apply set_eq. intros k. rewrite packed_dom, elem_of_list_to_set, list_elem_of_fmap, elem_of_dom. split.
    - intros (m & -> & Hm). destruct (part_packs_key partf part A packs HA P m Hm) as (b & Hb & Hp & _). split; [by eexists|done].
    - intros [[b Hb] Hp]. exists (mg_pack 0 b). rewrite mg_key_pack, (HA k b Hb). split; [done|]. apply (pk_in _ _ _ _ P). eauto. }
  split; [|split; [|done]].
  - intros m Hm. destruct (part_packs_key partf part A packs HA P m Hm) as (b & Hb & Hp & ->). unfold packed. rewrite lookup_fmap.
    unfold in_part. by rewrite (map_lookup_filter_Some_2 _ _ _ b).
  - unfold part_count. f_equal. rewrite <- (length_fmap (mg_key (B := B)) packs), <- (size_list_to_set (C := gset K) _ (pk_keys _ _ _ _ P)), Hd, <- size_dom.
    f_equal. apply set_eq. intros k. rewrite in_part_dom, packed_dom. tauto.
Qed.

(** A resource as the new master has it. *)
Definition moved (b : B (list drc_req_info)) : B (list drc_req_info) := come (pack_of b).

Lemma got_all A A' : (forall k, k ∈ dom (packed A) -> A' !! k = None) -> got (packed A) (dom (packed A)) A' = A' ∪ (moved <$> in_part partf part A).
Proof.
  intros HA. apply map_eq. intros k. rewrite got_lookup. destruct (A' !! k) as [x|] eqn:E; [by rewrite (lookup_union_Some_l _ _ _ x)|].
  rewrite lookup_union_r, lookup_fmap by done. unfold packed, moved. rewrite lookup_fmap.
  destruct (in_part partf part A !! k) as [b|] eqn:Eb; [|by destruct (decide _)]. rewrite decide_True; [done|].
  apply elem_of_dom. rewrite lookup_fmap, Eb. by eexists.
Qed.
End Packs.

(** What is sent of a partition. *)
Definition cargo_of (page_size : Z) (signed : bool) (pad : list Z) (part : Z) (Bp : gmap page_id (buf_res (list drc_req_info)))
    (Bl : gmap drid (master_res (list drc_req_info))) : cargo :=
  mk_cargo (packed (drc_page_partid page_size) part Bp) (packed (lock_partid signed pad) part Bl).

(** ** The messages *)

(** A message that the handler takes: it fits the buffer, has no more
    resources than the handler allows and passes its test of the size. *)
Definition message_fits (m : drc_res_master_msg) : Prop :=
  gm_size m <= MES_MESSAGE_BUFFER_SIZE /\ drc_check_mgrt_data_msg m = true /\
  (gm_type m = DRC_RES_PAGE_TYPE -> gm_num m <= REMASTER_MIG_MAX_BUF_RES_NUM) /\
  (gm_type m = DRC_RES_LOCK_TYPE -> gm_num m <= REMASTER_MIG_MAX_LOCK_RES_NUM).

Lemma carries_fits_page src part version m ms : carries (B := buf_res) src part version m ms -> message_fits m.
Proof.
  intros C. pose proof (holds_num _ _ _ _ _ C) as Hm. pose proof (ca_size _ _ _ _ _ C) as Hs. change (mg_size (B := buf_res)) with sizeof_buf_res_msg in Hs.
  pose proof (ca_type _ _ _ _ _ C) as Ht. cbn in Ht. split_and!; [lia| |done|rewrite Ht; done].
  unfold drc_check_mgrt_data_msg. rewrite Ht, (ca_num _ _ _ _ _ C). unfold DRC_RES_PAGE_TYPE, DRC_RES_LOCK_TYPE, sizeof_res_master_msg, sizeof_buf_res_msg in *. lia.
Qed.

Lemma carries_fits_lock src part version m ms : carries (B := master_res) src part version m ms -> message_fits m.
Proof.
  intros C. pose proof (holds_num _ _ _ _ _ C) as Hm. pose proof (ca_size _ _ _ _ _ C) as Hs. change (mg_size (B := master_res)) with sizeof_lock_res_msg in Hs.
  pose proof (ca_type _ _ _ _ _ C) as Ht. cbn in Ht. split_and!; [lia| |rewrite Ht; done|done].
  unfold drc_check_mgrt_data_msg. rewrite Ht, (ca_num _ _ _ _ _ C). unfold DRC_RES_PAGE_TYPE, DRC_RES_LOCK_TYPE, sizeof_res_master_msg, sizeof_lock_res_msg in *. lia.
Qed.

Lemma tab_key {B K} `{QueuedRes B K} hashf partf t (A : gmap K (B (list drc_req_info))) f F Sp am : tab_rep hashf partf t A f F Sp am ->
  forall k b, A !! k = Some b -> qr_key b = k.
Proof. intros R k b Hk. by destruct (tab_step _ _ t A f F Sp am k b R Hk) as (? & ? & ? & _ & _ & _ & ? & _). Qed.

(** C28: the messages of a partition.  When nobody waits for a resource of
    the partition, [drc_migrate_master_blk] ends; every message it sends fits
    the buffer and is one the handler takes, and when all could be sent they
    hold every page and every lock of the partition exactly once, with the
    numbers of both in one of them. *)
Theorem migrate_messages : forall page_size signed pad self part version send_buf send_lock tp tl Bp Bl fp fl Fp Fl Spp Spl amp aml,
  page_rep page_size tp Bp fp Fp Spp amp -> lock_rep signed pad tl Bl fl Fl Spl aml -> 0 <= part < DRC_MAX_PART_NUM ->
  calm_part (drc_page_partid page_size) part Bp -> calm_part (lock_partid signed pad) part Bl ->
  exists ret sp sl pss lss, drc_migrate_part true send_buf send_lock self part version tp tl = Ok (Some (ret, sp ++ sl)) /\
    Forall message_fits (sp ++ sl) /\
    Forall2 (carries (B := buf_res) self part version) sp pss /\ Forall2 (carries (B := master_res) self part version) sl lss /\
    ((forall k, send_buf k = OG_SUCCESS) -> (forall k, send_lock k = OG_SUCCESS) -> ret = OG_SUCCESS) /\
    (ret = OG_SUCCESS -> part_packs (drc_page_partid page_size) part Bp (concat pss) /\ part_packs (lock_partid signed pad) part Bl (concat lss) /\
      exists m ms, (m, ms) ∈ zip sl lss /\ counted (B := master_res) m ms (len (concat pss)) (len (concat lss))).
Proof.
  intros page_size signed pad self part version send_buf send_lock tp tl Bp Bl fp fl Fp Fl Spp Spl amp aml Rp Rl Hq Hcp Hcl.
  destruct (send_buf_ok page_size self part version Hq send_buf tp Bp fp Fp Spp amp Hcp Rp) as (ret & cnt & sp & pss & packs & left & E & Hpk & Hsp & Heq & Hok & Hall).
  assert (Forall2 (carries (B := buf_res) self part version) sp pss) as Hsp' by (eapply Forall2_impl; [exact Hsp|]; by intros m ms [? _]).
  assert (Forall message_fits sp) as Hfp.
  { eapply Forall2_Forall_l; [exact Hsp'|]. apply Forall_true. intros ms m. apply carries_fits_page. }
  unfold drc_migrate_part. rewrite E. cbn [mbind outcome_bind]. destruct ret.
  2:{ exists OG_ERROR, sp, [], pss, []. rewrite app_nil_r. split_and!; try done. intros Ha _. by specialize (Hall Ha). }
  destruct (Hok eq_refl) as [-> ->]. rewrite app_nil_r in Heq. subst packs.
  destruct (send_lock_ok signed pad self part version Hq send_lock (len (concat pss)) tl Bl fl Fl Spl aml Hcl Rl) as (ret & sl & lss & packs & left & El & Hpl & Hsl & Heql & Hokl & Halll).
  rewrite El. cbn [mbind outcome_bind]. exists ret, sp, sl, pss, lss. split; [done|].
  assert (Forall2 (carries (B := master_res) self part version) sl lss) as Hsl' by (eapply Forall2_impl; [exact Hsl|]; by intros m ms [? _]).
  split; [apply Forall_app; split; [done|]; eapply Forall2_Forall_l; [exact Hsl'|]; apply Forall_true; intros ms m; apply carries_fits_lock|].
  split; [done|]. split; [done|]. split; [by intros _|]. intros ->. destruct (Hokl eq_refl) as (-> & m & ms & Hm & Hc). rewrite app_nil_r in Heql. subst packs.
  split; [done|]. split; [done|]. by exists m, ms.
Qed.

(** ** The partition that is found complete *)

(** An instance whose incoming partitions wait for their migration: the
    catalogues [Ap] and [Al] have nothing of them. *)
Record ready_importer (page_size : Z) (signed : bool) (pad : list Z) (self : Z) (exporter : Z -> Z) (s : importer)
    (Ap : gmap page_id (buf_res (list drc_req_info))) (Al : gmap drid (master_res (list drc_req_info))) (f : Z) (Fp Fl Spp Spl : gset Z) : Prop := {
  rd_pages : exists am, page_rep page_size (im_page_tab s) Ap f Fp Spp am;
  rd_locks : exists am, lock_rep signed pad (im_lock_tab s) Al f Fl Spl am;
  rd_pnum : gr_num (im_pages s) < 2 ^ 31;
  rd_lnum : gr_num (im_locks s) < 2 ^ 31;
  rd_arrays : forall q, 0 <= q < DRC_MAX_PART_NUM -> is_Some (im_cnt s !! q) /\ is_Some (im_info s !! q) /\ is_Some (im_tasks s !! q);
  rd_task : forall j t, im_tasks s !! j = Some t -> incoming self t ->
    0 <= tk_part t < DRC_MAX_PART_NUM /\ tk_export t = exporter (tk_part t) /\ tk_status t = PART_WAIT_MIGRATE;
}.

(** The partitions that come in. *)
Definition comes_in (self : Z) (s : importer) (q : Z) : Prop := exists j t, im_tasks s !! j = Some t /\ incoming self t /\ tk_part t = q.

Lemma ready_imports page_size signed pad self exporter g s Ap Al f Fp Fl Spp Spl :
  ready_importer page_size signed pad self exporter s Ap Al f Fp Fl Spp Spl ->
  imports page_size signed pad self g exporter Ap Al (comes_in self s) f Fp Fl Spp Spl s ∅ ∅.
Proof.
  intros [R1 R2 R3 R4 R5 R6]. split; [destruct R1 as [am R1]; exists am; by rewrite got_empty|destruct R2 as [am R2]; exists am; by rewrite got_empty|exact R3|exact R4|intros q Hq; apply R5, Hq..| | |].
  - intros j t Ht Hi. destruct (R6 j t Ht Hi) as (? & ? & _). split; [by exists j, t|done].
  - intros j t Ht Hi Hs. destruct (R6 j t Ht Hi) as (_ & _ & E). by rewrite E in Hs.
  - intros j t Ht Hi Hs. destruct (R6 j t Ht Hi) as (_ & _ & E). by rewrite E in Hs.
Qed.

(** What happens to it: a message is handled, in whatever state of the
    reform and of the memory, or the thread passes over the tasks. *)
Inductive import_step (page_size : Z) (signed : bool) (pad : list Z) (self version : Z) (g : cargo) (exporter : Z -> Z) : importer -> importer -> Prop :=
| import_msg malloc_ok rst rc m s s' : good_msg page_size signed pad version g exporter m ->
    drc_process_mgrt_data page_size signed pad self malloc_ok rst rc version m s = Ok s' ->
    import_step page_size signed pad self version g exporter s s'
| import_pass s s' : remaster_part_proc self s = Ok s' -> import_step page_size signed pad self version g exporter s s'.

Lemma import_reach page_size signed pad self version g exporter Ap Al P f Fp Fl Spp Spl s0 s :
  cargo_ok g -> apart page_size signed pad g Ap Al P -> rtc (import_step page_size signed pad self version g exporter) s0 s ->
  forall Rp Rl, imports page_size signed pad self g exporter Ap Al P f Fp Fl Spp Spl s0 Rp Rl ->
  exists Rp' Rl', imports page_size signed pad self g exporter Ap Al P f Fp Fl Spp Spl s Rp' Rl'.
Proof.
  intros Hg Ha R. induction R as [s|s1 s2 s3 S R IH]; intros Rp Rl I; [by exists Rp, Rl|]. destruct S as [malloc_ok rst rc m s s' G E|s s' E].
  - destruct (process_data_ok page_size signed pad (page_partid_range page_size) (lock_partid_range signed pad) self version g Hg exporter Ap Al P Ha f Fp Fl Spp Spl
      malloc_ok rst rc m s Rp Rl I G) as (s1 & Rp' & Rl' & E' & I'). rewrite E in E'. injection E' as <-. by eapply IH.
  - destruct (part_proc_ok page_size signed pad self g exporter Ap Al P Ha f Fp Fl Spp Spl s Rp Rl I) as (s1 & E' & I').
    rewrite E in E'. injection E' as <-. by eapply IH.
Qed.

(** C26: a partition that is found complete is complete.  Whatever messages of
    the reform arrive, in any order, repeated or lost, with or without memory
    and items for them, no handler crashes, no item is lost, the resources
    from before stay, and when the thread marks a partition complete the
    catalogue has exactly the pages and locks that were sent of it. *)
Theorem migrate_complete : forall page_size signed pad self version g exporter s0 s Ap Al f Fp Fl Spp Spl,
  ready_importer page_size signed pad self exporter s0 Ap Al f Fp Fl Spp Spl ->
  cargo_ok g -> apart page_size signed pad g Ap Al (comes_in self s0) ->
  rtc (import_step page_size signed pad self version g exporter) s0 s ->
  (exists s', remaster_part_proc self s = Ok s') /\
  (forall malloc_ok rst rc m, good_msg page_size signed pad version g exporter m ->
    exists s', drc_process_mgrt_data page_size signed pad self malloc_ok rst rc version m s = Ok s') /\
  exists Cp Cl amp aml, page_rep page_size (im_page_tab s) Cp f Fp Spp amp /\ lock_rep signed pad (im_lock_tab s) Cl f Fl Spl aml /\
    Ap ⊆ Cp /\ Al ⊆ Cl /\
    forall j t, im_tasks s !! j = Some t -> incoming self t -> tk_status t = PART_MIGRATE_COMPLETE ->
      (forall k, drc_page_partid page_size k = tk_part t -> Cp !! k = come <$> cg_pages g !! k) /\
      (forall k, lock_partid signed pad k = tk_part t -> Cl !! k = come <$> cg_locks g !! k).
Proof.
  intros page_size signed pad self version g exporter s0 s Ap Al f Fp Fl Spp Spl Hr Hg Ha R.
  destruct (import_reach _ _ _ _ _ _ _ _ _ _ f Fp Fl Spp Spl _ _ Hg Ha R ∅ ∅ (ready_imports _ _ _ _ _ g _ _ _ _ _ _ _ _ Hr)) as (Rp & Rl & I).
  split; [|split].
  - destruct (part_proc_ok page_size signed pad self g exporter Ap Al _ Ha f Fp Fl Spp Spl s Rp Rl I) as (s' & E & _). by exists s'.
  - intros malloc_ok rst rc m G.
    destruct (process_data_ok page_size signed pad (page_partid_range page_size) (lock_partid_range signed pad) self version g Hg exporter Ap Al _ Ha f Fp Fl Spp Spl
      malloc_ok rst rc m s Rp Rl I G) as (s' & _ & _ & E & _). by exists s'.
  - destruct (ip_pages _ _ _ _ _ _ _ _ _ _ _ _ _ _ _ _ _ I) as [amp Tp], (ip_locks _ _ _ _ _ _ _ _ _ _ _ _ _ _ _ _ _ I) as [aml Tl].
    do 4 eexists. split; [exact Tp|]. split; [exact Tl|]. split; [unfold got; apply map_union_subseteq_l|]. split; [unfold got; apply map_union_subseteq_l|].
    intros j t Ht Hi Hs. destruct (ip_complete _ _ _ _ _ _ _ _ _ _ _ _ _ _ _ _ _ I j t Ht Hi Hs) as [H1 H2].
    destruct (ip_new _ _ _ _ _ _ _ _ _ _ _ _ _ _ _ _ _ I j t Ht Hi) as (Hn & _ & _). split.
    + apply (come_part (drc_page_partid page_size)); [|exact H1]. intros k Hk Hq. apply (ap_pages _ _ _ _ _ _ _ Ha k Hk). by rewrite Hq.
    + apply (come_part (lock_partid signed pad)); [|exact H2]. intros k Hk Hq. apply (ap_locks _ _ _ _ _ _ _ Ha k Hk). by rewrite Hq.
Qed.

(** ** From one master to the other *)
Section Journey.
Context (page_size : Z) (signed : bool) (pad : list Z) (exporter : Z -> Z) (part version : Z) (part_range : 0 <= part < DRC_MAX_PART_NUM).
Context (Bp : gmap page_id (buf_res (list drc_req_info))) (Bl : gmap drid (master_res (list drc_req_info))).
Context (Bp_key : forall k b, Bp !! k = Some b -> qr_key b = k) (Bl_key : forall k b, Bl !! k = Some b -> qr_key b = k).
#[local] Notation g := (cargo_of page_size signed pad part Bp Bl).
#[local] Notation self := (exporter part).
#[local] Notation good := (good_msg page_size signed pad version g exporter).

Lemma cargo_of_ok : cargo_ok g.
Proof. split; intros k m Hm; [by apply (packed_ok (drc_page_partid page_size) part Bp)|by apply (packed_ok (lock_partid signed pad) part Bl)]. Qed.

Lemma cargo_of_apart Ap Al new_part : new_part part -> (forall k, k ∈ dom Ap -> ~ new_part (drc_page_partid page_size k)) ->
  (forall k, k ∈ dom Al -> ~ new_part (lock_partid signed pad k)) -> apart page_size signed pad g Ap Al new_part.
Proof.
  intros Hn Hp Hl. split; [exact Hp|exact Hl| |]; intros k Hk.
  - by destruct (proj1 (packed_dom (drc_page_partid page_size) part Bp k) Hk) as [_ ->].
  - by destruct (proj1 (packed_dom (lock_partid signed pad) part Bl k) Hk) as [_ ->].
Qed.

Lemma pages_pending sent mss packs : part_packs (drc_page_partid page_size) part Bp packs -> packs = concat mss ->
  Forall2 (fun m ms => carries (B := buf_res) self part version m ms /\ gm_end m = false) sent mss ->
  pending_pages page_size signed pad version g exporter ∅ sent mss /\ list_to_set (mg_key (B := buf_res) <$> concat mss) = dom (cg_pages g).
Proof.
  intros P -> F2. destruct (packs_src _ part Bp _ Bp_key P) as (Hsrc & _ & Hd). split; [|exact Hd]. split; [|apply P|].
  - apply Forall2_same_length_lookup_2; [by apply Forall2_length in F2|]. intros i m ms Hm Hms. destruct (Forall2_lookup_lr _ _ _ _ _ _ F2 Hm Hms) as [C _].
    rewrite (ca_src _ _ _ _ _ C), (ca_part _ _ _ _ _ C). split; [|split; [lia|done]].
    assert (forall x, x ∈ ms -> cg_pages g !! mg_key (B := buf_res) x = Some x) as Hin.
    { intros x Hx. apply Hsrc. apply list_elem_of_In, in_concat. exists ms. split; apply list_elem_of_In; [by eapply list_elem_of_lookup_2|done]. }
    split; [rewrite (ca_part _ _ _ _ _ C); lia| |].
    + intros _ _. exists ms. by rewrite (ca_src _ _ _ _ _ C), (ca_part _ _ _ _ _ C).
    + intros _ Ht. by rewrite (ca_type _ _ _ _ _ C) in Ht.
  - intros x Hx. split; [by apply Hsrc|by apply not_elem_of_empty].
Qed.

Lemma locks_pending buf_cnt sent mss packs : part_packs (lock_partid signed pad) part Bl packs -> packs = concat mss ->
  buf_cnt = part_count (drc_page_partid page_size) part (cg_pages g) ->
  Forall2 (fun m ms => carries (B := master_res) self part version m ms /\ (gm_end m = false \/ counted (B := master_res) m ms buf_cnt (len packs))) sent mss ->
  pending_locks page_size signed pad version g exporter part ∅ sent mss /\ list_to_set (mg_key (B := master_res) <$> concat mss) = dom (cg_locks g).
Proof.
  intros P -> -> F2. destruct (packs_src _ part Bl _ Bl_key P) as (Hsrc & Hlen & Hd). split; [|exact Hd]. split; [|apply P|].
  - apply Forall2_same_length_lookup_2; [by apply Forall2_length in F2|]. intros i m ms Hm Hms. destruct (Forall2_lookup_lr _ _ _ _ _ _ F2 Hm Hms) as [C Hc].
    rewrite (ca_src _ _ _ _ _ C), (ca_part _ _ _ _ _ C). split; [|done].
    assert (forall x, x ∈ ms -> cg_locks g !! mg_key (B := master_res) x = Some x) as Hin.
    { intros x Hx. apply Hsrc. apply list_elem_of_In, in_concat. exists ms. split; apply list_elem_of_In; [by eapply list_elem_of_lookup_2|done]. }
    split; [rewrite (ca_part _ _ _ _ _ C); lia| |].
    + intros _ Ht. by rewrite (ca_type _ _ _ _ _ C) in Ht.
    + intros _ _. exists ms. rewrite (ca_src _ _ _ _ _ C), (ca_part _ _ _ _ _ C). split; [done|]. split; [done|]. intros He. split; [done|].
      destruct Hc as [Hc|Hc]; [by rewrite He in Hc|]. cbn [cg_locks cargo_of]. by rewrite <- Hlen.
  - intros x Hx. split; [by apply Hsrc|by apply not_elem_of_empty].
Qed.
End Journey.

(** The messages are sent, handled in their order, and the tasks passed over. *)
Section Trip.
Context (page_size : Z) (signed : bool) (pad : list Z) (self : Z) (exporter : Z -> Z) (part version : Z).
Context (tp : res_tab buf_res) (tl : res_tab master_res).
Context (Bp : gmap page_id (buf_res (list drc_req_info))) (Bl : gmap drid (master_res (list drc_req_info))).
Context (fp fl : Z) (Fp Fl Spp Spl : gset Z) (amp : gmap page_id Z) (aml : gmap drid Z).
Context (Rp : page_rep page_size tp Bp fp Fp Spp amp) (Rl : lock_rep signed pad tl Bl fl Fl Spl aml).
Context (Cp : calm_part (drc_page_partid page_size) part Bp) (Cl : calm_part (lock_partid signed pad) part Bl).
Context (send_buf send_lock : nat -> status) (Sb : forall k, send_buf k = OG_SUCCESS) (Sl : forall k, send_lock k = OG_SUCCESS).
Context (s : importer) (Ap : gmap page_id (buf_res (list drc_req_info))) (Al : gmap drid (master_res (list drc_req_info))).
Context (f : Z) (Gp Gl Tp Tl : gset Z).
Context (Hr : ready_importer page_size signed pad self exporter s Ap Al f Gp Gl Tp Tl) (Ho : once self (im_tasks s)).
Context (HAp : forall k, k ∈ dom Ap -> ~ comes_in self s (drc_page_partid page_size k)).
Context (HAl : forall k, k ∈ dom Al -> ~ comes_in self s (lock_partid signed pad k)).
Context (j : Z) (t : drc_remaster_task) (Ht : im_tasks s !! j = Some t) (Hj : 0 <= j < DRC_MAX_PART_NUM) (Hi : incoming self t) (Hq : tk_part t = part).
Context (Mp : Z.of_nat (size Ap) + Z.of_nat (size Tp) + part_count (drc_page_partid page_size) part Bp <= gr_num (im_pages s)).
Context (Ml : Z.of_nat (size Al) + Z.of_nat (size Tl) + part_count (lock_partid signed pad) part Bl < gr_num (im_locks s)).
Context (rst rc : Z) (Hrst : rst <> REMASTER_DONE) (Hrc : REFORM_FROZEN <= rc < REFORM_RECOVER_DONE).

Lemma journey : exists msgs s1 s2 t' amp' aml',
  drc_migrate_part true send_buf send_lock (exporter part) part version tp tl = Ok (Some (OG_SUCCESS, msgs)) /\
  Forall (good_msg page_size signed pad version (cargo_of page_size signed pad part Bp Bl) exporter) msgs /\
  deliver page_size signed pad self version rst rc msgs s = Ok s1 /\ remaster_part_proc self s1 = Ok s2 /\
  im_tasks s2 !! j = Some t' /\ incoming self t' /\ tk_part t' = part /\ tk_status t' = PART_MIGRATE_COMPLETE /\
  page_rep page_size (im_page_tab s2) (Ap ∪ (moved (B := buf_res) <$> in_part (drc_page_partid page_size) part Bp)) f Gp Tp amp' /\
  lock_rep signed pad (im_lock_tab s2) (Al ∪ (moved (B := master_res) <$> in_part (lock_partid signed pad) part Bl)) f Gl Tl aml'.
Proof.
  destruct (rd_task _ _ _ _ _ _ _ _ _ _ _ _ _ Hr j t Ht Hi) as (Hpr & _ & _). rewrite Hq in Hpr.
  pose proof (tab_key _ _ _ _ _ _ _ _ Rp) as Kp. pose proof (tab_key _ _ _ _ _ _ _ _ Rl) as Kl.
  destruct (send_buf_ok page_size (exporter part) part version Hpr send_buf tp Bp fp Fp Spp amp Cp Rp) as (ret & cnt & sp & pss & packs & left & E & Hpk & Hsp & Heq & Hok & Hall).
  rewrite (Hall Sb) in *. destruct (Hok eq_refl) as [-> ->]. rewrite app_nil_r in Heq. clear Hok Hall.
  destruct (send_lock_ok signed pad (exporter part) part version Hpr send_lock (len packs) tl Bl fl Fl Spl aml Cl Rl) as (ret' & sl & lss & lpacks & left & El & Hpl & Hsl & Heql & Hokl & Halll).
  rewrite (Halll Sl) in *. destruct (Hokl eq_refl) as (-> & me & mes & Hme & Hce). rewrite app_nil_r in Heql. clear Hokl Halll.
  destruct (pages_pending page_size signed pad exporter part version Hpr Bp Bl Kp sp pss packs Hpk Heq Hsp) as [Pp Dp].
  destruct (packs_src _ part Bp packs Kp Hpk) as (_ & Np & _).
  destruct (locks_pending page_size signed pad exporter part version Hpr Bp Bl Kl (len packs) sl lss lpacks Hpl Heql Np Hsl) as [Pl Dl].
  set (g := cargo_of page_size signed pad part Bp Bl) in *.
  assert (apart page_size signed pad g Ap Al (comes_in self s)) as Ha by (apply cargo_of_apart; [by exists j, t|done|done]).
  pose proof (cargo_of_ok page_size signed pad part Bp Bl Kp Kl) as Hg.
  pose proof (ready_imports _ _ _ _ _ g _ _ _ _ _ _ _ _ Hr) as I0.
  destruct (deliver_pages page_size signed pad (page_partid_range page_size) self version g Hg exporter Ap Al _ Ha f Gp Gl Tp Tl rst rc Hrst Hrc
    sl sp pss s ∅ ∅ I0) as (s1 & E1 & I1 & T1 & L1); [set_solver|done| |].
  { cbn [cg_pages g cargo_of]. unfold packed. rewrite map_size_fmap. exact Mp. }
  destruct (deliver_locks page_size signed pad (lock_partid_range signed pad) self version g Hg exporter Ap Al _ Ha f Gp Gl Tp Tl rst rc Hrst Hrc
    j part Hpr Hj sl lss s1 _ ∅ False I1) as (s2 & E2 & I2 & Ho2 & t2 & Ht2 & Hi2 & Hq2 & Hs2); [set_solver|done| | |].
  { split; [by rewrite T1|]. exists t. rewrite T1. split_and!; try done. }
  { rewrite L1. cbn [cg_locks g cargo_of]. unfold packed. rewrite map_size_fmap. exact Ml. }
  rewrite Dp, Dl, !union_empty_r_L in I2.
  destruct (part_proc_completes page_size signed pad self g exporter Ap Al _ Ha f Gp Gl Tp Tl j part s2 (dom (cg_pages g)) (dom (cg_locks g)) Hj) as (s3 & t3 & E3 & I3 & Ht3 & Hi3 & Hq3 & Hs3);
    [by split|exact I2|exact Ho2| |].
  { exists t2. split_and!; try done. apply Hs2. right. exists me. split; [|apply Hce]. by eapply elem_of_zip_l. }
  destruct (ip_pages _ _ _ _ _ _ _ _ _ _ _ _ _ _ _ _ _ I3) as [am3 R3], (ip_locks _ _ _ _ _ _ _ _ _ _ _ _ _ _ _ _ _ I3) as [al3 R3'].
  unfold g in R3, R3'. cbn [cg_pages cg_locks cargo_of] in R3, R3'.
  rewrite (got_all (B := buf_res)) in R3; [|exact (fresh_pages page_size signed pad g Ap Al _ Ha)].
  rewrite (got_all (B := master_res)) in R3'; [|exact (fresh_locks page_size signed pad g Ap Al _ Ha)].
  exists (sp ++ sl), s2, s3, t3, am3, al3. split; [|split; [|by rewrite E1, E2]].
  - unfold drc_migrate_part. rewrite E. cbn [mbind outcome_bind]. rewrite El. done.
  - apply Forall_app. split; (eapply Forall2_Forall_l; [by (apply Pp || apply Pl)|]; apply Forall_true; by intros ms m [? _]).
Qed.
End Trip.

(** A page and a lock at the new master, member by member: the owner, the
    mode, the copies, the past images and their sequence numbers of the page,
    and the mode and the holders of the lock, are those the old master had;
    nobody is converting, nobody waits, and no action is pending. *)
Definition migrated_page (b : buf_res (list drc_req_info)) : buf_res (list drc_req_info) := {|
  claimed_owner := claimed_owner b; latest_edp := latest_edp b; pending := DRC_RES_INVALID_ACTION; latest_edp_lsn := latest_edp_lsn b;
  mode := mode b; buf_page_id := buf_page_id b; converting := idle_req; convert_q := []; is_used := true;
  edp_map := edp_map b; buf_lsn := buf_lsn b; readonly_copies := readonly_copies b;
|}.
Definition migrated_lock (b : master_res (list drc_req_info)) : master_res (list drc_req_info) := {|
  lk_res_id := lk_res_id b; lk_mode := lk_mode b; lk_granted_map := lk_granted_map b;
  lk_converting := mk_req OG_INVALID_ID8 0 0 0 0 0 0 0 0 0; lk_convert_q := [];
|}.

Lemma moved_page b : moved b = migrated_page b.
Proof. reflexivity. Qed.
Lemma moved_lock b : moved b = migrated_lock b.
Proof. reflexivity. Qed.

(** C27: the round trip of a partition.  The conditions: no request is
    converting for a page or a lock of the partition at the old master (it
    waits for ever otherwise, [migrate_waits]); every message is sent and gets
    through, in its order; the new master has the task to import the
    partition, one task per partition, still has nothing of the partitions
    that come in, has free structures for what comes, and its remaster and its
    reform go on.  Then the old master sends the whole partition, the new
    master handles every message, and the pass of its thread over the tasks
    finds the partition complete.  The catalogue of the new master is its own
    and, for each page and lock of the partition, the resource member by
    member: owner, mode, readonly copies, past images and sequence numbers of
    a page, mode and holders of a lock as the old master had them, with
    nobody waiting and the pending action reset. *)
Theorem migrate_roundtrip : forall page_size signed pad self exporter part version send_buf send_lock tp tl Bp Bl fp fl Fp Fl Spp Spl amp aml
    s Ap Al f Gp Gl Tp Tl rst rc j t,
  page_rep page_size tp Bp fp Fp Spp amp -> lock_rep signed pad tl Bl fl Fl Spl aml ->
  calm_part (drc_page_partid page_size) part Bp -> calm_part (lock_partid signed pad) part Bl ->
  (forall k, send_buf k = OG_SUCCESS) -> (forall k, send_lock k = OG_SUCCESS) ->
  ready_importer page_size signed pad self exporter s Ap Al f Gp Gl Tp Tl -> once self (im_tasks s) ->
  (forall k, k ∈ dom Ap -> ~ comes_in self s (drc_page_partid page_size k)) -> (forall k, k ∈ dom Al -> ~ comes_in self s (lock_partid signed pad k)) ->
  im_tasks s !! j = Some t -> 0 <= j < DRC_MAX_PART_NUM -> incoming self t -> tk_part t = part ->
  Z.of_nat (size Ap) + Z.of_nat (size Tp) + part_count (drc_page_partid page_size) part Bp <= gr_num (im_pages s) ->
  Z.of_nat (size Al) + Z.of_nat (size Tl) + part_count (lock_partid signed pad) part Bl < gr_num (im_locks s) ->
  rst <> REMASTER_DONE -> REFORM_FROZEN <= rc < REFORM_RECOVER_DONE ->
  exists msgs s1 s2 t' amp' aml',
    drc_migrate_part true send_buf send_lock (exporter part) part version tp tl = Ok (Some (OG_SUCCESS, msgs)) /\
    deliver page_size signed pad self version rst rc msgs s = Ok s1 /\ remaster_part_proc self s1 = Ok s2 /\
    im_tasks s2 !! j = Some t' /\ incoming self t' /\ tk_part t' = part /\ tk_status t' = PART_MIGRATE_COMPLETE /\
    page_rep page_size (im_page_tab s2) (Ap ∪ (migrated_page <$> in_part (drc_page_partid page_size) part Bp)) f Gp Tp amp' /\
    lock_rep signed pad (im_lock_tab s2) (Al ∪ (migrated_lock <$> in_part (lock_partid signed pad) part Bl)) f Gl Tl aml'.
Proof.
  intros page_size signed pad self exporter part version send_buf send_lock tp tl Bp Bl fp fl Fp Fl Spp Spl amp aml s Ap Al f Gp Gl Tp Tl rst rc j t
    Rp Rl Cp Cl Sb Sl Hr Ho HAp HAl Ht Hj Hi Hq Mp Ml Hrst Hrc.
  destruct (journey page_size signed pad self exporter part version tp tl Bp Bl fp fl Fp Fl Spp Spl amp aml Rp Rl Cp Cl send_buf send_lock Sb Sl
    s Ap Al f Gp Gl Tp Tl Hr Ho HAp HAl j t Ht Hj Hi Hq Mp Ml rst rc Hrst Hrc) as (msgs & s1 & s2 & t' & amp' & aml' & E & _ & Hrest).
  rewrite (map_fmap_ext (moved (B := buf_res)) migrated_page) in Hrest by (intros; apply moved_page).
  rewrite (map_fmap_ext (moved (B := master_res)) migrated_lock) in Hrest by (intros; apply moved_lock).
  by exists msgs, s1, s2, t', amp', aml'.
Qed.

(** ** The partitions that were exported *)

Lemma free_jobs_in num a n j : 0 <= num -> (a, n) ∈ free_jobs num -> j ∈ seqZ a n -> 0 <= j < num.
Proof.
  intros Hn Hin Hj. assert (j ∈ seqZ 0 num) as Hs; [|apply elem_of_seqZ in Hs; lia].
  rewrite <- (migrate_jobs_cover num Hn). change (migrate_jobs num) with (free_jobs num). apply list_elem_of_In, in_concat.
  exists (seqZ a n). split; apply list_elem_of_In; [|done]. apply list_elem_of_fmap. by exists (a, n).
Qed.

Lemma free_jobs_pos num a n : 0 <= num -> (a, n) ∈ free_jobs num -> 0 <= n.
Proof.
  intros Hn (i & E & _)%list_elem_of_fmap. unfold free_job, DRC_FREE_MIG_RES_MAX_THREAD_NUM in E. injection E as -> ->.
  assert (0 <= num / 8) by (apply Z.div_pos; lia). pose proof (Z.mod_pos_bound num 8 ltac:(lia)). destruct (i =? 8 - 1); lia.
Qed.

(** The resources of the partitions that this instance exported are
    freed.  When the threads can be created and have their memory,
    [drc_free_migrated_res] takes every task once; the pages and locks of the
    exported partitions leave the catalogue and their slots are free again,
    the others stay, in whatever order the threads get to the partitions; no
    item of a queue is lost when nobody waited for a resource. *)
Theorem migrate_freed : forall page_size signed pad mem self created r c Bp Bl f Fp Fl Spp Spl amp aml,
  page_rep page_size c.1 Bp f Fp Spp amp -> lock_rep signed pad c.2 Bl f Fl Spl aml ->
  (forall q, mem q = (true, true)) -> (forall i, created i = OG_SUCCESS) -> 0 <= local_task_num r ->
  (forall j, 0 <= j < local_task_num r -> exists t, local_task_set r !! j = Some t /\ 0 <= tk_part t < DRC_MAX_PART_NUM) ->
  exists parts, (forall q, q ∈ parts <-> exists j t, 0 <= j < local_task_num r /\ local_task_set r !! j = Some t /\ tk_export t = self /\ tk_part t = q) /\
    (exists c', drc_free_migrated_res signed pad mem self created r c = Ok (OG_SUCCESS, c') /\ free_parts signed pad mem parts c = Ok c') /\
    forall order, order ≡ₚ parts -> exists c' Fp' Fl' amp' aml', free_parts signed pad mem order c = Ok c' /\
      page_rep page_size c'.1 (without (drc_page_partid page_size) parts Bp) f Fp' Spp amp' /\
      lock_rep signed pad c'.2 (without (lock_partid signed pad) parts Bl) f Fl' Spl aml' /\
      (quiet (drc_page_partid page_size) parts Bp -> Fp' = Fp) /\ (quiet (lock_partid signed pad) parts Bl -> Fl' = Fl).
Proof.
  intros page_size signed pad mem self created r c Bp Bl f Fp Fl Spp Spl amp aml Rp Rl Hm Hc Hn Ht.
  exists (exports_of self (local_task_set r) (seqZ 0 (local_task_num r))). set (parts := exports_of _ _ _).
  assert (forall q, q ∈ parts <-> exists j t, 0 <= j < local_task_num r /\ local_task_set r !! j = Some t /\ tk_export t = self /\ tk_part t = q) as Hp.
  { intros q. unfold parts. rewrite elem_of_exports. split; intros (j & t & Hj & Hr); exists j, t; (split; [|done]); [apply elem_of_seqZ in Hj; lia|apply elem_of_seqZ; lia]. }
  assert (forall q, q ∈ parts -> 0 <= q < DRC_MAX_PART_NUM) as Hr.
  { intros q (j & t & Hj & Hjt & _ & <-)%Hp. destruct (Ht j Hj) as (t' & Ht' & ?). congruence. }
  split; [exact Hp|]. split.
  - destruct (free_parts_ok page_size signed pad mem Hm f Spp Spl parts c Bp Bl Fp Fl amp aml Hr Rp Rl) as (c' & _ & _ & _ & _ & E & _). exists c'. split; [|done].
    unfold drc_free_migrated_res. rewrite (free_threads_parts signed pad mem self created _ Hc).
    + change (free_jobs (local_task_num r)) with (migrate_jobs (local_task_num r)). rewrite (migrate_jobs_cover _ Hn). fold parts. by rewrite E.
    + intros a n j Ha Hj. destruct (Ht j (free_jobs_in _ _ _ _ Hn Ha Hj)) as (t & ? & _). by exists t.
    + intros a n Ha. by eapply free_jobs_pos.
  - intros order Ho. destruct (free_parts_ok page_size signed pad mem Hm f Spp Spl order c Bp Bl Fp Fl amp aml) as (c' & Fp' & Fl' & amp' & aml' & E & R1 & R2 & Q1 & Q2 & _).
    + intros q Hq. apply Hr. by rewrite <- Ho.
    + done.
    + done.
    + exists c', Fp', Fl', amp', aml'. assert (forall q, q ∈ order <-> q ∈ parts) as He by (intros q; by rewrite Ho).
      rewrite (without_ext _ order parts Bp He) in R1. rewrite (without_ext _ order parts Bl He) in R2. split_and!; try done.
      * intros Hqt. apply Q1. intros k b Hk Hin. apply (Hqt k b Hk). by rewrite <- Ho.
      * intros Hqt. apply Q2. intros k b Hk Hin. apply (Hqt k b Hk). by rewrite <- Ho.
Qed.

(** ** A page on its way from instance 1 to instance 3 *)
Definition demo_part : Z := drc_page_partid 8192 demo_page.
Definition demo_import : importer :=
  mk_imp demo_items (demo_gres 4) (tb_res demo_ltab) (filled DRC_MAX_PART_NUM (0, 0)) (filled DRC_MAX_PART_NUM (mk_pinfo 0 0 0))
    (<[0 := mk_task 1 3 demo_part PART_WAIT_MIGRATE]> (filled DRC_MAX_PART_NUM (mk_task 0 0 0 PART_INIT))).

Lemma demo_import_task j t : im_tasks demo_import !! j = Some t -> incoming 3 t -> j = 0 /\ t = mk_task 1 3 demo_part PART_WAIT_MIGRATE.
Proof.
  unfold demo_import. cbn [im_tasks]. intros [[<- <-]|[_ ->%filled_dom]]%lookup_insert_Some; [done|]. by intros [? _].
Qed.

Lemma demo_import_ready : ready_importer 8192 true demo_pad 3 (fun _ => 1) demo_import ∅ ∅ 4 ∅ ∅ ∅ ∅.
Proof.
  split.
  - exists ∅. apply demo_tab_inv.
  - exists ∅. change (im_lock_tab demo_import) with (mk_tab (tb_items demo_tab) (tb_res demo_ltab)).
    replace (tb_items demo_tab) with (tb_items demo_ltab) by (vm_compute; reflexivity). apply (lv_rep _ _ _ _ _ _ _ _ demo_ltab_inv).
  - vm_compute. reflexivity.
  - vm_compute. reflexivity.
  - intros q Hq. unfold demo_import. cbn [im_cnt im_info im_tasks]. rewrite !filled_lookup by done.
    split; [by eexists|]. split; [by eexists|]. apply lookup_insert_is_Some'. right. rewrite filled_lookup by done. by eexists.
  - intros j t Ht Hi. destruct (demo_import_task j t Ht Hi) as [_ ->]. split_and!; try done; vm_compute; done.
Qed.

Lemma demo_calm_pages : calm_part (drc_page_partid 8192) demo_part {[demo_page := demo_apage]}.
Proof. intros k b [<- <-]%lookup_singleton_Some _. reflexivity. Qed.
Lemma demo_calm_locks : calm_part (lock_partid true demo_pad) demo_part {[demo_lock := demo_hlock]}.
Proof. intros k b [<- <-]%lookup_singleton_Some _. reflexivity. Qed.

Lemma migrate_messages_witness : exists sp sl,
  drc_migrate_part true (fun _ => OG_SUCCESS) (fun _ => OG_SUCCESS) 1 demo_part 7 demo_owned demo_held = Ok (Some (OG_SUCCESS, sp ++ sl)) /\
  Forall message_fits (sp ++ sl).
Proof.
  destruct demo_owned_inv as [amp Ip], demo_held_inv as [aml Il].
  destruct (migrate_messages 8192 true demo_pad 1 demo_part 7 (fun _ => OG_SUCCESS) (fun _ => OG_SUCCESS) _ _ _ _ _ _ _ _ _ _ _ _
    (pv_rep _ _ _ _ _ _ _ Ip) (lv_rep _ _ _ _ _ _ _ _ Il)) as (ret & sp & sl & _ & _ & E & Hf & _ & _ & Hr & _).
  - vm_compute. split; [discriminate|reflexivity].
  - exact demo_calm_pages.
  - exact demo_calm_locks.
  - exists sp, sl. rewrite (Hr (fun _ => eq_refl) (fun _ => eq_refl)) in E. split; [exact E|exact Hf].
Defined.


Lemma demo_once : once 3 (im_tasks demo_import).
Proof. intros j j' t t' Ht Ht' Hi Hi' _. destruct (demo_import_task j t Ht Hi) as [-> _], (demo_import_task j' t' Ht' Hi') as [-> _]. done. Qed.

Lemma migrate_roundtrip_witness : exists msgs s1 s2 t' am,
  drc_migrate_part true (fun _ => OG_SUCCESS) (fun _ => OG_SUCCESS) 1 demo_part 7 demo_owned demo_held = Ok (Some (OG_SUCCESS, msgs)) /\
  deliver 8192 true demo_pad 3 7 REMASTER_MIGRATE REFORM_FROZEN msgs demo_import = Ok s1 /\ remaster_part_proc 3 s1 = Ok s2 /\
  im_tasks s2 !! 0 = Some t' /\ tk_status t' = PART_MIGRATE_COMPLETE /\
  page_rep 8192 (im_page_tab s2) (∅ ∪ (migrated_page <$> in_part (drc_page_partid 8192) demo_part {[demo_page := demo_apage]})) 4 ∅ ∅ am.
Proof.
  destruct demo_owned_inv as [amp Ip], demo_held_inv as [aml Il].
  destruct (migrate_roundtrip 8192 true demo_pad 3 (fun _ => 1) demo_part 7 (fun _ => OG_SUCCESS) (fun _ => OG_SUCCESS) _ _ _ _ _ _ _ _ _ _ _ _
    demo_import ∅ ∅ 4 ∅ ∅ ∅ ∅ REMASTER_MIGRATE REFORM_FROZEN 0 (mk_task 1 3 demo_part PART_WAIT_MIGRATE)
    (pv_rep _ _ _ _ _ _ _ Ip) (lv_rep _ _ _ _ _ _ _ _ Il)) as (msgs & s1 & s2 & t' & am & _ & E & Ed & Ep & Ht & _ & _ & Hs & R & _).
  - exact demo_calm_pages.
  - exact demo_calm_locks.
  - done.
  - done.
  - exact demo_import_ready.
  - exact demo_once.
  - intros k Hk. by rewrite dom_empty in Hk.
  - intros k Hk. by rewrite dom_empty in Hk.
  - unfold demo_import. cbn [im_tasks]. by rewrite lookup_insert_eq.
  - done.
  - done.
  - done.
  - vm_compute. discriminate.
  - vm_compute. reflexivity.
  - discriminate.
  - done.
  - exists msgs, s1, s2, t', am. split_and!; assumption.
Defined.

(** The messages that are delivered are steps of the importer. *)
Lemma deliver_steps page_size signed pad self version g exporter rst rc : forall msgs s s', Forall (good_msg page_size signed pad version g exporter) msgs ->
  deliver page_size signed pad self version rst rc msgs s = Ok s' -> rtc (import_step page_size signed pad self version g exporter) s s'.
Proof.
  induction msgs as [|m msgs IH]; intros s s' Hg E; [injection E as <-; constructor|]. inversion Hg as [|? ? Hm Hg']; subst. cbn [deliver] in E.
  destruct (drc_process_mgrt_data page_size signed pad self true rst rc version m s) as [s1|] eqn:E1; [|done]. cbn [mbind outcome_bind] in E.
  apply rtc_l with s1; [by eapply import_msg|by apply IH].
Qed.

(** The page has come and its partition is complete. *)
Definition demo_cargo : cargo := cargo_of 8192 true demo_pad demo_part {[demo_page := demo_apage]} {[demo_lock := demo_hlock]}.

Lemma demo_journey : exists s t, rtc (import_step 8192 true demo_pad 3 7 demo_cargo (fun _ => 1)) demo_import s /\
  im_tasks s !! 0 = Some t /\ incoming 3 t /\ tk_part t = demo_part /\ tk_status t = PART_MIGRATE_COMPLETE.
Proof.
  destruct demo_owned_inv as [amp Ip], demo_held_inv as [aml Il].
  destruct (journey 8192 true demo_pad 3 (fun _ => 1) demo_part 7 _ _ _ _ _ _ _ _ _ _ _ _ (pv_rep _ _ _ _ _ _ _ Ip) (lv_rep _ _ _ _ _ _ _ _ Il)
    demo_calm_pages demo_calm_locks (fun _ => OG_SUCCESS) (fun _ => OG_SUCCESS) (fun _ => eq_refl) (fun _ => eq_refl) demo_import ∅ ∅ 4 ∅ ∅ ∅ ∅
    demo_import_ready demo_once) with (j := 0) (t := mk_task 1 3 demo_part PART_WAIT_MIGRATE) (rst := REMASTER_MIGRATE) (rc := REFORM_FROZEN)
    as (msgs & s1 & s2 & t' & am & _ & _ & Hg & Ed & Ep & Ht & Hi & Hq & Hs & _).
  - intros k Hk. by rewrite dom_empty in Hk.
  - intros k Hk. by rewrite dom_empty in Hk.
  - unfold demo_import. cbn [im_tasks]. by rewrite lookup_insert_eq.
  - done.
  - done.
  - done.
  - vm_compute. discriminate.
  - vm_compute. reflexivity.
  - discriminate.
  - done.
  - exists s2, t'. split; [|done]. eapply rtc_r; [by eapply deliver_steps|by apply import_pass].
Qed.

Lemma migrate_complete_witness : exists s Cp am, rtc (import_step 8192 true demo_pad 3 7 demo_cargo (fun _ => 1)) demo_import s /\
  page_rep 8192 (im_page_tab s) Cp 4 ∅ ∅ am /\ Cp !! demo_page = Some (migrated_page demo_apage).
Proof.
  destruct demo_journey as (s & t & R & Ht & Hi & Hq & Hs). destruct demo_owned_inv as [amp Ip], demo_held_inv as [aml Il].
  destruct (migrate_complete 8192 true demo_pad 3 7 demo_cargo (fun _ => 1) demo_import s ∅ ∅ 4 ∅ ∅ ∅ ∅ demo_import_ready) as (_ & _ & Cp & Cl & am & _ & Rp & _ & _ & _ & Hc).
  - apply cargo_of_ok; [exact (tab_key _ _ _ _ _ _ _ _ (pv_rep _ _ _ _ _ _ _ Ip))|exact (tab_key _ _ _ _ _ _ _ _ (lv_rep _ _ _ _ _ _ _ _ Il))].
  - apply cargo_of_apart; [|intros k Hk; by rewrite dom_empty in Hk..].
    exists 0, (mk_task 1 3 demo_part PART_WAIT_MIGRATE). split; [|done]. unfold demo_import. cbn [im_tasks]. by rewrite lookup_insert_eq.
  - exact R.
  - exists s, Cp, am. split; [exact R|]. split; [exact Rp|]. destruct (Hc 0 t Ht Hi Hs) as [Hp _]. rewrite (Hp demo_page); [|by rewrite Hq].
    vm_compute. reflexivity.
Defined.

(** Instance 1 frees the page that went to instance 3. *)
Definition demo_exporter : drc_remaster_mngr := mk_rmngr ∅ ∅ {[0 := mk_task 1 3 demo_part PART_WAIT_MIGRATE]} 1 0 7.

Lemma migrate_freed_witness : exists c' am,
  drc_free_migrated_res true demo_pad (fun _ => (true, true)) 1 (fun _ => OG_SUCCESS) demo_exporter (demo_owned, demo_held) = Ok (OG_SUCCESS, c') /\
  exists X, page_rep 8192 c'.1 X 4 ∅ ∅ am /\ X !! demo_page = None.
Proof.
  destruct demo_owned_inv as [amp Ip], demo_held_inv as [aml Il].
  destruct (migrate_freed 8192 true demo_pad (fun _ => (true, true)) 1 (fun _ => OG_SUCCESS) demo_exporter (demo_owned, demo_held) _ _ _ _ _ _ _ _ _
    (pv_rep _ _ _ _ _ _ _ Ip) (lv_rep _ _ _ _ _ _ _ _ Il)) as (parts & Hp & (c' & E & Ef) & Ho).
  - done.
  - done.
  - vm_compute. discriminate.
  - intros j Hj. cbn in Hj. assert (j = 0) as -> by lia. eexists. split; [reflexivity|]. vm_compute. split; [discriminate|reflexivity].
  - destruct (Ho parts (reflexivity _)) as (c2 & Fp' & Fl' & am & _ & E2 & R & _ & Q & _). rewrite Ef in E2. injection E2 as <-.
    exists c', am. split; [exact E|]. rewrite Q in R by (intros k b [<- <-]%lookup_singleton_Some _; reflexivity).
    eexists. split; [exact R|]. unfold without. apply map_lookup_filter_None. right. intros x _ Hn. apply Hn. apply Hp.
    exists 0. eexists. split; [cbn; lia|]. split; [reflexivity|]. split; reflexivity.
Defined.

(** ** Three cases in which a migration does not get on *)

(** A page for which a request is converting: the sender waits for ever, since
    it holds the lock of the partition that the claim of the page needs. *)
Lemma migrate_waits : drc_migrate_part true (fun _ => OG_SUCCESS) (fun _ => OG_SUCCESS) 1 demo_part 7 demo_conv demo_held = Ok None.
Proof. vm_compute. reflexivity. Qed.

(** A page that the receiver has with another owner: the message is refused
    and the item that was allocated for it is not given back. *)
Definition demo_clash : drc_res_master_msg :=
  msg_of 1 DRC_RES_PAGE_TYPE demo_part 7 false (mk_sbuf 136 1 {[80 := CPage (mk_bmsg DRC_LOCK_EXCLUSIVE 2 OG_INVALID_ID8 0 0 demo_page 0 0 0)]}).
Lemma migrate_clash_leaks :
  (fun o => match o with Ok (ret, s) => Some (ret, used_num (gr_pool (im_pages s))) | Crash _ => None end)
    (drc_process_buf_master_blk 8192 true 7 demo_clash (im_set_pages demo_owned demo_import)) = Some (OG_ERROR, 2) /\
  used_num (gr_pool (tb_res demo_owned)) = 1.
Proof. vm_compute. done. Qed.

(** The numbers of a partition without locks, at a receiver whose lock pool is
    full: the message is refused and the task does not begin. *)
Definition demo_full : importer :=
  match drc_res_pool_alloc_batch_item (gr_pool (im_locks demo_import)) 4 with
  | Ok (_, _, p) => im_set_locks (tb_set_res (gr_set_pool p (im_locks demo_import)) (im_lock_tab demo_import)) demo_import
  | Crash _ => demo_import
  end.
Lemma migrate_end_refused :
  (fun o => match o with Ok (ret, s) => Some (ret, tk_status <$> im_tasks s !! 0) | Crash _ => None end)
    (drc_process_lock_master_blk true demo_pad 3 true 7 (mgrt_part_end 1 demo_part 7 1 0 ∅) demo_full) = Some (OG_ERROR, Some PART_WAIT_MIGRATE).
Proof. vm_compute. reflexivity. Qed.
