(* ===== verification/DrcLocal.v ===== *)
(** Local lock resources: what this instance knows of the distributed locks
    it uses itself ([drc_local_lock_res_t], src/pkg/src/cluster/dtc_drc.h) and
    the functions on them, up to the recycling of a lock, which ends in its
    master (src/pkg/src/cluster/dtc_drc.c).

    An operation that takes a spin lock it does not get at once waits: it is
    modelled as [None].  Between two critical sections the table is the one
    the other threads leave ([env]). *)

From S2P Require Import Prelude DrcBitmap DrcPool DrcResMap DrcGlobalRes DrcQueue DrcTable DrcReform DrcMapTab DrcLock.

(** [latch_stat_e]. *)
Definition LATCH_STATUS_IDLE : Z := 0.
Definition LATCH_STATUS_S : Z := 1.
Definition LATCH_STATUS_IX : Z := 2.
Definition LATCH_STATUS_X : Z := 3.

(** [drc_local_latch] and [drc_local_lock_res_t], the links apart; a spin lock
    is its state. *)
Record drc_local_latch := mk_latch { la_shared_count : Z; la_stat : Z; la_sid : Z; la_lock_mode : Z }.
Record local_lock := mk_local {
  ll_res_id : drid; ll_is_owner : bool; ll_is_locked : bool; ll_count : Z;
  ll_lock : bool; ll_lockc : bool; ll_latch : drc_local_latch;
}.

Definition ll_set_lock x b := mk_local (ll_res_id b) (ll_is_owner b) (ll_is_locked b) (ll_count b) x (ll_lockc b) (ll_latch b).
Definition ll_set_lockc x b := mk_local (ll_res_id b) (ll_is_owner b) (ll_is_locked b) (ll_count b) (ll_lock b) x (ll_latch b).
Definition ll_set_stat (locked owner : bool) b :=
  mk_local (ll_res_id b) owner locked (ll_count b) (ll_lock b) (ll_lockc b) (ll_latch b).
Definition ll_set_latch x b := mk_local (ll_res_id b) (ll_is_owner b) (ll_is_locked b) (ll_count b) (ll_lock b) (ll_lockc b) x.
Definition la_set_stat x l := mk_latch (la_shared_count l) x (la_sid l) (la_lock_mode l).

#[export] Instance local_resource : Resource local_lock drid := {|
  res_key := ll_res_id;
  res_zero := mk_local (mk_drid 0 0 0 0 0 0 0) false false 0 false false (mk_latch 0 0 0 0);
|}.

Notation loctab := (flat_tab local_lock).

Section Local.
Context (signed : bool) (pad : list Z).
Implicit Types (t : loctab) (d : drid).

Definition loc_bucket t d : Z := fm_hash (lock_hash signed pad) t d.
Definition loc_lookup t d : outcome (option Z) := drc_res_map_lookup t (loc_bucket t d) d.

(** The resource [drc_create_local_lock_res] makes. *)
Definition new_local_lock d : local_lock := mk_local d false false 0 false false (mk_latch 0 LATCH_STATUS_IDLE 0 DRC_LOCK_NULL).

(** [drc_create_local_lock_res]: [None] when the pool is exhausted. *)
Definition drc_create_local_lock_res d t : outcome (option (Z * loctab)) :=
  fm_create t (loc_bucket t d) (fun i _ => mk_fitem OG_INVALID_ID32 i (new_local_lock d)).

(** [drc_release_local_lock_res], the resource being out of the hash map. *)
Definition drc_release_local_lock_res (i : Z) t : outcome loctab := fm_release t i (fun _ => pi_zero).

(** [drc_get_local_resx_without_create] and [drc_get_local_resx]. *)
Definition drc_get_local_resx_without_create d t : outcome (option Z) := loc_lookup t d.
Definition drc_get_local_resx d t : outcome (Z * loctab) :=
  o ← loc_lookup t d;
  match o with
  | Some i => Ok (i, t)
  | None =>
      o ← drc_create_local_lock_res d t;
      match o with Some (i, t) => Ok (i, t) | None => Crash Panic end
  end.

(** ** Through the resource itself *)

(** [drc_try_lock_local_resx], [drc_lock_local_resx], [drc_unlock_local_resx]. *)
Definition drc_try_lock_local_resx (i : Z) t : outcome (bool * loctab) :=
  b ← fm_get t i;
  if ll_lock b then Ok (false, t) else t ← fm_put t i (ll_set_lock true b); Ok (true, t).
Definition drc_lock_local_resx (i : Z) t : outcome (option loctab) :=
  b ← fm_get t i;
  if ll_lock b then Ok None else t ← fm_put t i (ll_set_lock true b); Ok (Some t).
Definition drc_unlock_local_resx (i : Z) t : outcome loctab := b ← fm_get t i; fm_put t i (ll_set_lock false b).

(** [drc_lock_local_res_count], [drc_unlock_local_res_count]. *)
Definition drc_lock_local_res_count (i : Z) t : outcome (option loctab) :=
  b ← fm_get t i;
  if ll_lockc b then Ok None else t ← fm_put t i (ll_set_lockc true b); Ok (Some t).
Definition drc_unlock_local_res_count (i : Z) t : outcome loctab := b ← fm_get t i; fm_put t i (ll_set_lockc false b).

(** [drc_get_local_lock_statx], [drc_set_local_lock_statx]. *)
Definition drc_get_local_lock_statx (i : Z) t : outcome (bool * bool) := b ← fm_get t i; Ok (ll_is_locked b, ll_is_owner b).
Definition drc_set_local_lock_statx (i : Z) (locked owner : bool) t : outcome loctab :=
  b ← fm_get t i; fm_put t i (ll_set_stat locked owner b).

(** [drc_clean_local_lock_res]. *)
Definition clean_local (b : local_lock) : local_lock :=
  ll_set_latch (mk_latch 0 LATCH_STATUS_IDLE 0 DRC_LOCK_NULL) (ll_set_stat false false b).
Definition drc_clean_local_lock_res (i : Z) t : outcome (option loctab) :=
  o ← drc_lock_local_resx i t;
  match o with
  | None => Ok None
  | Some t =>
      b ← fm_get t i;
      t ← fm_put t i (clean_local b);
      t ← drc_unlock_local_resx i t;
      Ok (Some t)
  end.

(** ** Through the id *)

(** [drc_lock_local_res], [drc_try_lock_local_res], [drc_unlock_local_res];
    the bucket is unlocked before the resource is locked. *)
Definition drc_lock_local_res (env : loctab -> loctab) d t : outcome (option loctab) :=
  '(i, t) ← drc_get_local_resx d t;
  drc_lock_local_resx i (env t).
Definition drc_try_lock_local_res (env : loctab -> loctab) d t : outcome (bool * loctab) :=
  '(i, t) ← drc_get_local_resx d t;
  drc_try_lock_local_resx i (env t).
Definition drc_unlock_local_res (env : loctab -> loctab) d t : outcome loctab :=
  o ← loc_lookup t d;
  match o with
  | None => Crash Panic
  | Some i => drc_unlock_local_resx i (env t)
  end.

(** [drc_get_local_lock_stat], [drc_set_local_lock_stat]. *)
Definition drc_get_local_lock_stat d t : outcome (bool * bool * loctab) :=
  '(i, t) ← drc_get_local_resx d t;
  '(locked, owner) ← drc_get_local_lock_statx i t;
  Ok (locked, owner, t).
Definition drc_set_local_lock_stat d (locked owner : bool) t : outcome loctab :=
  '(i, t) ← drc_get_local_resx d t;
  drc_set_local_lock_statx i locked owner t.

(** ** Recycling *)

(** The resource is reserved for its recycler, and given up. *)
Definition reserve (b : local_lock) : local_lock :=
  ll_set_latch (la_set_stat LATCH_STATUS_X (ll_latch b)) (ll_set_stat true (ll_is_owner b) b).
Definition unreserve (b : local_lock) : local_lock :=
  ll_set_latch (la_set_stat LATCH_STATUS_IDLE (ll_latch b)) (ll_set_stat false (ll_is_owner b) b).

(** [drc_lock_local_lock_res_by_id_for_recycle]: status, [is_found]. *)
Definition drc_lock_local_lock_res_by_id_for_recycle (env : loctab -> loctab) (v : view) d (version : Z) t :
    outcome (status * bool * loctab) :=
  if DRC_STOP_DLS_REQ_FOR_REFORMING version v d then Ok (OG_ERROR, true, t)
  else
    o ← drc_get_local_resx_without_create d t;
    match o with
    | None => Ok (OG_SUCCESS, false, t)
    | Some i =>
        '(got, t) ← drc_try_lock_local_resx i (env t);
        if negb got then Ok (OG_ERROR, true, t)
        else
          b ← fm_get t i;
          if ll_is_locked b || negb (la_stat (ll_latch b) =? LATCH_STATUS_IDLE) then
            t ← drc_unlock_local_resx i t;
            Ok (OG_ERROR, true, t)
          else
            t ← fm_put t i (reserve b);
            t ← drc_unlock_local_resx i t;
            Ok (OG_SUCCESS, true, t)
    end.

(** [drc_unlock_local_lock_res_by_id_for_recycle]. *)
Definition drc_unlock_local_lock_res_by_id_for_recycle (env : loctab -> loctab) d t : outcome (option loctab) :=
  o ← drc_get_local_resx_without_create d t;
  match o with
  | None => Ok (Some t)
  | Some i =>
      o ← drc_lock_local_resx i (env t);
      match o with
      | None => Ok None
      | Some t =>
          b ← fm_get t i;
          t ← fm_put t i (unreserve b);
          t ← drc_unlock_local_resx i t;
          Ok (Some t)
      end
  end.

(** [drc_release_local_lock_res_by_id]; the bucket is unlocked between the
    lookup and the removal, and before the release. *)
Definition drc_release_local_lock_res_by_id (env1 env2 : loctab -> loctab) d t : outcome loctab :=
  o ← drc_get_local_resx_without_create d t;
  match o with
  | None => Ok t
  | Some i =>
      let t := env1 t in
      t ← drc_res_map_remove t (loc_bucket t d) d;
      drc_release_local_lock_res i (env2 t)
  end.

(** [drc_process_recycle_lock_master]: the status sent back to [src], [None]
    when the message is refused. *)
Definition drc_process_recycle_lock_master (size_ok : bool) (v : view) (version : Z) d (src : Z) (g : ltab) :
    outcome (option status * ltab) :=
  if negb size_ok then Ok (None, g)
  else '(ret, g) ← drc_recycle_dls_master signed pad v d version src g; Ok (Some ret, g).

(** [drc_recycle_lock_res]: the local table, the table of the locks this
    instance is the master of, and, when the master is another instance, what
    comes back from it ([answer]: [None] when the message could not be sent or
    nothing was received).  [env 0 .. env 4] are the windows. *)
Definition drc_recycle_lock_res (env : nat -> loctab -> loctab) (v1 v2 : view) (answer : option status)
    (master_id self_id : Z) d (version : Z) t (g : ltab) : outcome (option (status * loctab * ltab)) :=
  '(ret, is_found, t) ← drc_lock_local_lock_res_by_id_for_recycle (env 0%nat) v1 d version t;
  if bool_decide (ret = OG_ERROR) then Ok (Some (OG_ERROR, t, g))
  else if negb is_found then Ok (Some (OG_SUCCESS, t, g))
  else
    '(ret, g) ← (if master_id =? self_id then drc_recycle_dls_master signed pad v2 d version self_id g
                 else Ok (default OG_ERROR answer, g));
    let t := env 1%nat t in
    if bool_decide (ret = OG_SUCCESS) then
      t ← drc_release_local_lock_res_by_id (env 2%nat) (env 3%nat) d t;
      Ok (Some (OG_SUCCESS, t, g))
    else
      o ← drc_unlock_local_lock_res_by_id_for_recycle (env 4%nat) d t;
      match o with
      | None => Ok None
      | Some t => Ok (Some (OG_ERROR, t, g))
      end.
End Local.
