(* ===== verification/DrcLocalThm.v ===== *)
(** Local lock resources implement a catalogue of this instance's locks, and
    recycling one takes it out of the local table and its instance out of the
    holders the master knows, or leaves both as they are. *)

From S2P Require Import Prelude DrcBitmap DrcPool DrcResMap DrcGlobalRes DrcQueue DrcTable DrcReform DrcMapTab.
From S2P Require Import DrcLock DrcLockInv DrcLockThm DrcLocal.

Section LocalThm.
Context (signed : bool) (pad : list Z).
Implicit Types (t : loctab) (A : gmap drid local_lock) (am : gmap drid Z) (Sp : gset Z) (d : drid) (b : local_lock).

Notation lrep := (flat_rep (lock_hash signed pad)).

(** The resource is reserved by a recycler. *)
Definition reserved b : bool := ll_is_locked b && (la_stat (ll_latch b) =? LATCH_STATUS_X).

(** What the other threads leave alone in a window: resource [d] stays in its
    slot, and reserved when it is; slots out of the hash map are not theirs. *)
Definition calm d (env : loctab -> loctab) : Prop := forall t A am Sp, lrep t A am Sp ->
  exists A' am' Sp', lrep (env t) A' am' Sp' /\
    (forall i, am !! d = Some i -> am' !! d = Some i) /\
    (forall b, A !! d = Some b -> reserved b = true -> exists b', A' !! d = Some b' /\ reserved b' = true) /\
    (forall i a, i ∈ Sp -> addr (res_pool t) !! i = Some a -> i ∈ Sp' /\ addr (res_pool (env t)) !! i = Some a).

Lemma rep_entry t A am Sp d i : lrep t A am Sp -> am !! d = Some i -> exists b, A !! d = Some b /\ fm_get t i = Ok b /\ ll_res_id b = d.
Proof.
  intros R Hi. destruct (fr_body _ _ _ _ _ R _ _ Hi) as (a & Ha & _ & Hb). exists (fi_body a). split; [done|].
  destruct (flat_open _ _ _ _ _ _ _ R Hb) as (j & Hj & _ & Hg & _ & Hk). assert (j = i) as -> by congruence. done.
Qed.

(** A change of resource [d] that keeps its id. *)
Lemma local_update t A am Sp d i b (f : local_lock -> local_lock) :
  lrep t A am Sp -> am !! d = Some i -> A !! d = Some b -> ll_res_id (f b) = ll_res_id b ->
  exists t', (b ← fm_get t i; fm_put t i (f b)) = Ok t' /\ lrep t' (<[d := f b]> A) am Sp.
Proof.
  intros R Hi Hb Hf. destruct (rep_entry _ _ _ _ _ _ R Hi) as (b' & Hb' & Hg & Hk). assert (b' = b) as -> by congruence.
  rewrite Hg. cbn [mbind outcome_bind]. destruct (flat_put _ _ _ _ _ d i (f b) R Hi) as (t' & -> & R' & _); [change (ll_res_id (f b) = d); by rewrite Hf|]. eauto.
Qed.

(** [drc_get_local_resx] finds the resource or makes it; it panics exactly
    when there is none and the pool is exhausted. *)
Lemma get_local_ok t A am Sp d :
  lrep t A am Sp ->
  (A !! d = None /\ Z.of_nat (size A) + Z.of_nat (size Sp) = item_num (res_pool t) /\ drc_get_local_resx signed pad d t = Crash Panic) \/
  (exists i t' am', drc_get_local_resx signed pad d t = Ok (i, t') /\ am' !! d = Some i /\
     lrep t' (<[d := default (new_local_lock d) (A !! d)]> A) am' Sp).
Proof.
  intros R. unfold drc_get_local_resx, loc_lookup, loc_bucket. destruct (A !! d) as [b|] eqn:Hd.
  - right. destruct (flat_open _ _ _ _ _ _ _ R Hd) as (i & Hi & -> & _). exists i, t, am. split; [done|]. split; [done|]. cbn. by rewrite insert_id.
  - destruct (flat_lookup_none _ _ _ _ _ _ R Hd) as [_ ->]. cbn [mbind outcome_bind]. unfold drc_create_local_lock_res, loc_bucket.
    destruct (flat_create _ _ _ _ _ d (fun i _ => mk_fitem OG_INVALID_ID32 i (new_local_lock d)) R Hd) as
      [[Hfull ->]|(_ & i & a & t' & -> & _ & _ & R')]; [done| |].
    + left. cbn [mbind outcome_bind]. by apply (flat_full_iff _ _ _ _ _ R) in Hfull.
    + right. cbn [mbind outcome_bind]. exists i, t', (<[d := i]> am). rewrite lookup_insert_eq. split_and!; done.
Qed.

(** [drc_try_lock_local_resx]. *)
Lemma local_trylock_ok t A am Sp d i b :
  lrep t A am Sp -> am !! d = Some i -> A !! d = Some b ->
  exists t', drc_try_lock_local_resx i t = Ok (negb (ll_lock b), t') /\ lrep t' (<[d := ll_set_lock true b]> A) am Sp.
Proof.
  intros R Hi Hb. unfold drc_try_lock_local_resx. destruct (rep_entry _ _ _ _ _ _ R Hi) as (b' & Hb' & Hg & Hk).
  assert (b' = b) as -> by congruence. destruct (local_update t A am Sp d i b (ll_set_lock true) R Hi Hb eq_refl) as (t' & Hp & R').
  rewrite Hg in *. cbn [mbind outcome_bind] in *. destruct (ll_lock b) eqn:Hl.
  - exists t. split; [done|]. rewrite insert_id; [done|]. rewrite Hb. f_equal. destruct b; cbn in *. by rewrite Hl.
  - rewrite Hp. cbn [mbind outcome_bind]. by exists t'.
Qed.

(** [drc_try_lock_local_res]: the resource is made when there is none, and the
    attempt succeeds exactly when its spin lock is free at that moment. *)
Lemma local_try_ok env d t A am Sp :
  lrep t A am Sp -> calm d env ->
  (A !! d = None /\ Z.of_nat (size A) + Z.of_nat (size Sp) = item_num (res_pool t) /\
   drc_try_lock_local_res signed pad env d t = Crash Panic) \/
  (exists t' A1 am' Sp' b, drc_try_lock_local_res signed pad env d t = Ok (negb (ll_lock b), t') /\ A1 !! d = Some b /\
     lrep t' (<[d := ll_set_lock true b]> A1) am' Sp').
Proof.
  intros R C. unfold drc_try_lock_local_res. destruct (get_local_ok t A am Sp d R) as [(Hd & Hf & ->)|(i & t1 & am1 & -> & Hi & R1)]; [by left|].
  right. cbn [mbind outcome_bind]. destruct (C _ _ _ _ R1) as (A2 & am2 & Sp2 & R2 & Hk & _ & _). specialize (Hk _ Hi).
  destruct (rep_entry _ _ _ _ _ _ R2 Hk) as (b & Hb & _). destruct (local_trylock_ok _ _ _ _ _ _ _ R2 Hk Hb) as (t3 & -> & R3). eauto 10.
Qed.

(** ** Recycling *)

(** The resource is in use: its spin lock is taken, or it is locked, or its
    latch is. *)
Definition in_use b : bool := ll_lock b || (ll_is_locked b || negb (la_stat (ll_latch b) =? LATCH_STATUS_IDLE)).

(** The reform gate, a resource that is not there, and a resource that is:
    refused when it is in use, reserved when it is not. *)
Lemma lock_for_recycle_ok env v d version t A am Sp :
  lrep t A am Sp -> calm d env ->
  exists ret found t', drc_lock_local_lock_res_by_id_for_recycle signed pad env v d version t = Ok (ret, found, t') /\
    if DRC_STOP_DLS_REQ_FOR_REFORMING version v d then ret = OG_ERROR /\ t' = t
    else match A !! d with
    | None => ret = OG_SUCCESS /\ found = false /\ t' = t
    | Some _ => found = true /\ exists i A0 am0 Sp0 b0, am !! d = Some i /\ lrep (env t) A0 am0 Sp0 /\ am0 !! d = Some i /\ A0 !! d = Some b0 /\
        if in_use b0 then ret = OG_ERROR /\ lrep t' A0 am0 Sp0
        else ret = OG_SUCCESS /\ lrep t' (<[d := reserve b0]> A0) am0 Sp0
    end.
Proof.
  intros R Hc. unfold drc_lock_local_lock_res_by_id_for_recycle. destruct (DRC_STOP_DLS_REQ_FOR_REFORMING version v d).
  { by exists OG_ERROR, true, t. }
  unfold drc_get_local_resx_without_create, loc_lookup, loc_bucket. destruct (A !! d) as [b|] eqn:Hd.
  2:{ destruct (flat_lookup_none _ _ _ _ _ _ R Hd) as [_ ->]. by exists OG_SUCCESS, false, t. }
  destruct (flat_open _ _ _ _ _ _ _ R Hd) as (i & Hi & -> & _). cbn [mbind outcome_bind].
  destruct (Hc _ _ _ _ R) as (A1 & am1 & Sp1 & R1 & Hk1 & _ & _). specialize (Hk1 _ Hi).
  destruct (rep_entry _ _ _ _ _ _ R1 Hk1) as (b1 & Hb1 & _).
  destruct (local_trylock_ok _ _ _ _ _ _ _ R1 Hk1 Hb1) as (t2 & -> & R2). cbn [mbind outcome_bind].
  destruct (ll_lock b1) eqn:Hl; cbn [negb].
  { exists OG_ERROR, true, t2. split; [done|]. split; [done|]. exists i, A1, am1, Sp1, b1. split_and!; try done. unfold in_use. rewrite Hl. split; [done|].
    rewrite insert_id in R2; [done|]. rewrite Hb1. f_equal. destruct b1; cbn in *. by rewrite Hl. }
  set (b2 := ll_set_lock true b1) in *. pose proof (lookup_insert_eq A1 d b2) as Hb2.
  destruct (rep_entry _ _ _ _ _ _ R2 Hk1) as (b2' & Hb2' & Hg2 & _). assert (b2' = b2) as -> by congruence.
  rewrite Hg2. cbn [mbind outcome_bind]. change (ll_is_locked b2) with (ll_is_locked b1). change (ll_latch b2) with (ll_latch b1).
  unfold drc_unlock_local_resx. destruct (ll_is_locked b1 || _) eqn:Hbusy.
  - destruct (local_update _ _ _ _ d i b2 (ll_set_lock false) R2 Hk1 Hb2 eq_refl) as (t3 & -> & R3). cbn [mbind outcome_bind].
    exists OG_ERROR, true, t3. split; [done|]. split; [done|]. exists i, A1, am1, Sp1, b1. split_and!; try done. unfold in_use. rewrite Hl, Hbusy. split; [done|].
    rewrite insert_insert_eq, insert_id in R3; [done|]. rewrite Hb1. f_equal. destruct b1; cbn in *. by rewrite Hl.
  - destruct (local_update _ _ _ _ d i b2 reserve R2 Hk1 Hb2 eq_refl) as (t3 & Hp3 & R3). rewrite Hg2 in Hp3.
    cbn [mbind outcome_bind] in Hp3. rewrite Hp3. cbn [mbind outcome_bind].
    destruct (local_update _ _ _ _ d i (reserve b2) (ll_set_lock false) R3 Hk1 (lookup_insert_eq _ _ _) eq_refl) as (t4 & -> & R4).
    cbn [mbind outcome_bind]. exists OG_SUCCESS, true, t4. split; [done|]. split; [done|]. exists i, A1, am1, Sp1, b1. split_and!; try done.
    unfold in_use. rewrite Hl, Hbusy. split; [done|]. rewrite !insert_insert_eq in R4.
    replace (reserve b1) with (ll_set_lock false (reserve b2)); [done|]. unfold b2. destruct b1; cbn in *. by rewrite Hl.
Qed.

(** The resource goes: off the hash map, still reserved, then back to the
    pool. *)
Definition still_reserved d t : Prop := exists A am Sp b, lrep t A am Sp /\ A !! d = Some b /\ reserved b = true.

Lemma release_by_id_ok env1 env2 d t A am Sp i b :
  lrep t A am Sp -> am !! d = Some i -> A !! d = Some b -> reserved b = true -> calm d env1 -> calm d env2 ->
  still_reserved d (env1 t) /\
  exists t' A' am' Sp', drc_release_local_lock_res_by_id signed pad env1 env2 d t = Ok t' /\ lrep t' A' am' Sp' /\
    i ∉ (map_img am' ∪ Sp' : gset Z).
Proof.
  intros R Hi Hb Hr C1 C2. split.
  { destruct (C1 _ _ _ _ R) as (A1 & am1 & Sp1 & R1 & _ & Hk & _). destruct (Hk _ Hb Hr) as (b1 & ? & ?). by exists A1, am1, Sp1, b1. } unfold drc_release_local_lock_res_by_id, drc_get_local_resx_without_create, loc_lookup, loc_bucket.
  rewrite (flat_lookup _ _ _ _ _ _ R), Hi. cbn [mbind outcome_bind].
  destruct (C1 _ _ _ _ R) as (A1 & am1 & Sp1 & R1 & Hk1 & _ & _). specialize (Hk1 _ Hi).
  destruct (rep_entry _ _ _ _ _ _ R1 Hk1) as (b1 & Hb1 & _).
  destruct (flat_unlink _ _ _ _ _ _ _ _ R1 Hb1 Hk1) as (t2 & -> & _ & R2 & n & Ha2). cbn [mbind outcome_bind].
  destruct (C2 _ _ _ _ R2) as (A3 & am3 & Sp3 & R3 & _ & _ & Hs). destruct (Hs i _ ltac:(set_solver) Ha2) as [Hi3 Ha3].
  unfold drc_release_local_lock_res.
  destruct (flat_release _ _ _ _ _ i _ (fun _ => pi_zero) R3 Hi3 Ha3 eq_refl) as (t4 & -> & _ & R4).
  exists t4, A3, am3, (Sp3 ∖ {[i]}). split_and!; try done. intros [Hm|Hm]%elem_of_union; [|set_solver].
  apply elem_of_map_img in Hm as (k & Hk). by apply (fr_spare _ _ _ _ _ R3 _ _ Hk).
Qed.

(** The resource is given back, once its spin lock is free. *)
Lemma unlock_for_recycle_ok env d t A am Sp i :
  lrep t A am Sp -> am !! d = Some i -> calm d env ->
  exists o, drc_unlock_local_lock_res_by_id_for_recycle signed pad env d t = Ok o /\
    match o with
    | None => exists A1 am1 Sp1 b, lrep (env t) A1 am1 Sp1 /\ A1 !! d = Some b /\ ll_lock b = true
    | Some t' => exists A' am' Sp' b, lrep t' A' am' Sp' /\ am' !! d = Some i /\ A' !! d = Some b /\ in_use b = false
    end.
Proof.
  intros R Hi C. unfold drc_unlock_local_lock_res_by_id_for_recycle, drc_get_local_resx_without_create, loc_lookup, loc_bucket.
  rewrite (flat_lookup _ _ _ _ _ _ R), Hi. cbn [mbind outcome_bind].
  destruct (C _ _ _ _ R) as (A1 & am1 & Sp1 & R1 & Hk1 & _ & _). specialize (Hk1 _ Hi).
  destruct (rep_entry _ _ _ _ _ _ R1 Hk1) as (b1 & Hb1 & Hg1 & _). unfold drc_lock_local_resx. rewrite Hg1. cbn [mbind outcome_bind].
  destruct (ll_lock b1) eqn:Hl; cbn [mbind outcome_bind]; [exists None; eauto 10|].
  destruct (local_update _ _ _ _ d i b1 (ll_set_lock true) R1 Hk1 Hb1 eq_refl) as (t2 & Hp2 & R2). rewrite Hg1 in Hp2.
  cbn [mbind outcome_bind] in Hp2. rewrite Hp2. cbn [mbind outcome_bind].
  set (b2 := ll_set_lock true b1) in *. pose proof (lookup_insert_eq A1 d b2) as Hb2.
  destruct (rep_entry _ _ _ _ _ _ R2 Hk1) as (b2' & Hb2' & Hg2 & _). assert (b2' = b2) as -> by congruence.
  rewrite Hg2. cbn [mbind outcome_bind].
  destruct (local_update _ _ _ _ d i b2 unreserve R2 Hk1 Hb2 eq_refl) as (t3 & Hp3 & R3). rewrite Hg2 in Hp3.
  cbn [mbind outcome_bind] in Hp3. rewrite Hp3. cbn [mbind outcome_bind]. unfold drc_unlock_local_resx.
  destruct (local_update _ _ _ _ d i (unreserve b2) (ll_set_lock false) R3 Hk1 (lookup_insert_eq _ _ _) eq_refl) as (t4 & -> & R4).
  cbn [mbind outcome_bind]. eexists (Some t4). split; [done|]. eexists _, am1, Sp1, _. split; [exact R4|]. split; [done|].
  by rewrite lookup_insert_eq.
Qed.

(** [self] is not among the holders of [d] that the master knows. *)
Definition not_holder (self : Z) d (G : lock_catalogue) : Prop :=
  forall ab, G !! d = Some ab -> drc_bitmap64_exist (lk_granted_map ab) self = false.

Lemma lock_left_granted ab ab' : lock_left ab = Some ab' -> ab' = ab.
Proof. unfold lock_left. case_bool_decide; congruence. Qed.

(** The master takes the instance out of the holders, unless a reform stops
    it. *)
Lemma recycle_not_holder v d version self g G f F Sg gm :
  lock_inv signed pad g G f F Sg gm -> is_inst self ->
  if DRC_STOP_DLS_REQ_FOR_REFORMING version v d then drc_recycle_dls_master signed pad v d version self g = Ok (OG_ERROR, g)
  else exists g' G' gm', drc_recycle_dls_master signed pad v d version self g = Ok (OG_SUCCESS, g') /\ lock_inv signed pad g' G' f F Sg gm' /\
    not_holder self d G' /\ (forall d', d' <> d -> G' !! d' = G !! d').
Proof.
  intros I Hs. destruct (recycle_lock_ok signed pad v d version self g G f F Sg gm I Hs) as (ret & g' & G' & gm' & E & I' & H).
  destruct (DRC_STOP_DLS_REQ_FOR_REFORMING version v d) eqn:Hst; [unfold drc_recycle_dls_master; by rewrite Hst|].
  exists g', G', gm'. unfold not_holder. destruct (G !! d) as [ab|] eqn:Hd; destruct H as [-> ->]; split_and!; try done.
  - intros ab'. rewrite lookup_partial_alter_eq. intros ->%lock_left_granted. cbn.
    destruct (drc_bitmap64_exist _ self) eqn:He; [|done]. apply bm_exist_spec, bm_clear_mem in He; [|destruct Hs; lia|done]. by destruct He.
  - intros d' Hne. by rewrite lookup_partial_alter_ne.
  - congruence.
Qed.

(** The master agrees. *)
Definition accepted (v2 : view) (answer : option status) (master self version : Z) d : bool :=
  if master =? self then negb (DRC_STOP_DLS_REQ_FOR_REFORMING version v2 d) else bool_decide (answer = Some OG_SUCCESS).

(** What a recycling that found the resource [d] in slot [i], not in use, and
    reserved it in the table [t1], ends with. *)
Definition recycled env (v2 : view) answer master self version d i t1 (g : ltab) (G : lock_catalogue) f F Sg (r : option (status * loctab * ltab)) : Prop :=
  if accepted v2 answer master self version d then exists t' g' A' am' Sp' G' gm',
    r = Some (OG_SUCCESS, t', g') /\ still_reserved d (env 2%nat (env 1%nat t1)) /\ lrep t' A' am' Sp' /\ i ∉ (map_img am' ∪ Sp' : gset Z) /\
    lock_inv signed pad g' G' f F Sg gm' /\
    (if master =? self then not_holder self d G' /\ (forall d', d' <> d -> G' !! d' = G !! d') else g' = g)
  else match r with
  | None => exists A4 am4 Sp4 b, lrep (env 4%nat (env 1%nat t1)) A4 am4 Sp4 /\ A4 !! d = Some b /\ ll_lock b = true
  | Some (ret, t', g') => ret = OG_ERROR /\ g' = g /\
      exists A' am' Sp' b, lrep t' A' am' Sp' /\ am' !! d = Some i /\ A' !! d = Some b /\ in_use b = false
  end.

Lemma master_recycles v2 answer master self d version g G f F Sg gm :
  lock_inv signed pad g G f F Sg gm -> is_inst self ->
  exists ret g' G' gm', (if master =? self then drc_recycle_dls_master signed pad v2 d version self g else Ok (default OG_ERROR answer, g)) = Ok (ret, g') /\
    lock_inv signed pad g' G' f F Sg gm' /\
    if accepted v2 answer master self version d
    then ret = OG_SUCCESS /\ (if master =? self then not_holder self d G' /\ (forall d', d' <> d -> G' !! d' = G !! d') else g' = g)
    else ret <> OG_SUCCESS /\ g' = g.
Proof.
  intros I Hs. unfold accepted. destruct (master =? self).
  - pose proof (recycle_not_holder v2 d version self g G f F Sg gm I Hs) as H.
    destruct (DRC_STOP_DLS_REQ_FOR_REFORMING version v2 d); cbn [negb]; [by exists OG_ERROR, g, G, gm|].
    destruct H as (g' & G' & gm' & E & I' & H). by exists OG_SUCCESS, g', G', gm'.
  - exists (default OG_ERROR answer), g, G, gm. split; [done|]. split; [done|]. by destruct answer as [[]|].
Qed.

Lemma recycle_ok env v1 v2 answer master self d version t g A am Sp G f F Sg gm :
  lrep t A am Sp -> lock_inv signed pad g G f F Sg gm -> is_inst self -> (forall n, calm d (env n)) ->
  exists r, drc_recycle_lock_res signed pad env v1 v2 answer master self d version t g = Ok r /\
    if DRC_STOP_DLS_REQ_FOR_REFORMING version v1 d then r = Some (OG_ERROR, t, g)
    else match A !! d with
    | None => r = Some (OG_SUCCESS, t, g)
    | Some _ => exists i A0 am0 Sp0 b0, am !! d = Some i /\ lrep (env 0%nat t) A0 am0 Sp0 /\ A0 !! d = Some b0 /\
        if in_use b0 then exists t', r = Some (OG_ERROR, t', g) /\ lrep t' A0 am0 Sp0
        else exists t1, lrep t1 (<[d := reserve b0]> A0) am0 Sp0 /\ recycled env v2 answer master self version d i t1 g G f F Sg r
    end.
Proof.
  intros R I Hs C. unfold drc_recycle_lock_res.
  destruct (lock_for_recycle_ok (env 0%nat) v1 d version t A am Sp R (C _)) as (ret & found & t1 & -> & H). cbn [mbind outcome_bind].
  destruct (DRC_STOP_DLS_REQ_FOR_REFORMING version v1 d); [destruct H as [-> ->]; rewrite bool_decide_true by done; by eexists|].
  destruct (A !! d) as [b|]; [|destruct H as (-> & -> & ->); rewrite bool_decide_false by done; by eexists].
  destruct H as (-> & i & A0 & am0 & Sp0 & b0 & Hi & R0 & Hi0 & Hb0 & H).
  destruct (in_use b0) eqn:Hu; destruct H as [-> R1].
  { rewrite bool_decide_true by done. eexists. split; [done|]. exists i, A0, am0, Sp0, b0. rewrite Hu. by eauto 10. }
  rewrite bool_decide_false by done. cbn [negb].
  destruct (master_recycles v2 answer master self d version g G f F Sg gm I Hs) as (ret & g' & G' & gm' & -> & I' & HG). cbn [mbind outcome_bind].
  destruct (C 1%nat _ _ _ _ R1) as (A2 & am2 & Sp2 & R2 & Hk2 & Hr2 & _). specialize (Hk2 _ Hi0).
  destruct (Hr2 _ (lookup_insert_eq _ _ _) eq_refl) as (b2 & Hb2 & Hres).
  enough (exists r, (if bool_decide (ret = OG_SUCCESS) then t0 ← drc_release_local_lock_res_by_id signed pad (env 2%nat) (env 3%nat) d (env 1%nat t1); Ok (Some (OG_SUCCESS, t0, g'))
      else o ← drc_unlock_local_lock_res_by_id_for_recycle signed pad (env 4%nat) d (env 1%nat t1); match o with Some t0 => Ok (Some (OG_ERROR, t0, g')) | None => Ok None end) = Ok r /\
      recycled env v2 answer master self version d i t1 g G f F Sg r) as (r & E & Hr).
  { exists r. split; [exact E|]. exists i, A0, am0, Sp0, b0. rewrite Hu. by eauto 10. }
  unfold recycled. destruct (accepted v2 answer master self version d); destruct HG as [HG Hrest].
  - rewrite bool_decide_true by done.
    destruct (release_by_id_ok (env 2%nat) (env 3%nat) d _ _ _ _ i b2 R2 Hk2 Hb2 Hres (C _) (C _)) as (Hst & t3 & A3 & am3 & Sp3 & -> & R3 & Hout).
    cbn [mbind outcome_bind]. eexists. split; [done|]. exists t3, g', A3, am3, Sp3, G', gm'. split_and!; done.
  - rewrite bool_decide_false by done. subst g'.
    destruct (unlock_for_recycle_ok (env 4%nat) d _ _ _ _ i R2 Hk2 (C _)) as (o & -> & Ho). cbn [mbind outcome_bind].
    destruct o as [t3|]; eexists; (split; [done|]); [by split_and!|exact Ho].
Qed.
End LocalThm.
