(* ===== verification/DrcLocalProps.v ===== *)
(** The properties of the local lock resources. *)

From S2P Require Import Prelude DrcBitmap DrcPool DrcResMap DrcGlobalRes DrcQueue DrcTable DrcReform DrcMapTab.
From S2P Require Import DrcLock DrcLockInv DrcLockThm DrcLockProps DrcLocal DrcLocalThm.

(** C39: recycling a lock of this instance.  It always ends without a panic or
    a bad address.  A reform stops it, and a lock that is not in the table is
    done with, without a change.  Otherwise let [b0] be the resource as the
    other threads left it when the recycler tries its spin lock.  In use (the
    spin lock taken, the lock or its latch held), it is refused: the table is
    as the others left it and the master is not asked.  Not in use, it is
    reserved.  When the master agrees (this instance, unless a reform stops it,
    or another one that answers with success), the recycling succeeds: the
    resource is still reserved when it leaves the hash map, its slot goes back
    to the pool, and a master that is this instance no longer has it among the
    holders.  When the master does not agree, the recycling fails, the resource
    is in its slot and no longer in use, and the master's table is unchanged;
    the one case without an end is that another thread keeps the spin lock of
    the resource.  Assumed of the other threads ([calm]): between two steps
    they leave the resource in its slot (no second recycler of the same lock
    frees it), do not take a reserved one, and do not touch a slot that is out
    of the hash map. *)
Theorem local_recycle signed pad env v1 v2 answer master self d version t g A am Sp G f F Sg gm :
  flat_rep (lock_hash signed pad) t A am Sp -> lock_inv signed pad g G f F Sg gm -> is_inst self ->
  (forall n, calm signed pad d (env n)) ->
  exists r, drc_recycle_lock_res signed pad env v1 v2 answer master self d version t g = Ok r /\
    if DRC_STOP_DLS_REQ_FOR_REFORMING version v1 d then r = Some (OG_ERROR, t, g)
    else match A !! d with
    | None => r = Some (OG_SUCCESS, t, g)
    | Some _ => exists i A0 am0 Sp0 b0, am !! d = Some i /\ flat_rep (lock_hash signed pad) (env 0%nat t) A0 am0 Sp0 /\ A0 !! d = Some b0 /\
        if in_use b0 then exists t', r = Some (OG_ERROR, t', g) /\ flat_rep (lock_hash signed pad) t' A0 am0 Sp0
        else exists t1, flat_rep (lock_hash signed pad) t1 (<[d := reserve b0]> A0) am0 Sp0 /\
          recycled signed pad env v2 answer master self version d i t1 g G f F Sg r
    end.
Proof. apply recycle_ok. Qed.

(** A table of four local resources, with one for the lock of the examples. *)
Definition no_table : loctab := mk_map false (mk_pool false 0 0 0 0 ∅) 0 ∅.
Definition demo_local0 : loctab := match drc_res_map_init true true 4 56 no_table with Ok (_, m) => m | Crash _ => no_table end.
Definition demo_local : loctab := match drc_get_local_resx true demo_pad demo_lock demo_local0 with Ok (_, m) => m | Crash _ => no_table end.

Lemma demo_local_rep : exists am, flat_rep (lock_hash true demo_pad) demo_local {[demo_lock := new_local_lock demo_lock]} am ∅ /\ is_Some (am !! demo_lock).
Proof.
  destruct (flat_init (lock_hash true demo_pad) no_table 56 4) as (m & E & R & Hn); try done.
  { intros k n Hk. by apply lock_hash_range. }
  assert (demo_local0 = m) as E0 by (unfold demo_local0; by rewrite E).
  destruct (get_local_ok true demo_pad m ∅ ∅ ∅ demo_lock R) as [(_ & Hf & _)|(i & t' & am' & E' & Hi & R')].
  { rewrite Hn in Hf. done. }
  exists am'. unfold demo_local. rewrite E0, E'. split; [exact R'|by eexists].
Qed.

Lemma calm_id d : calm true demo_pad d (fun t => t).
Proof. intros t A am Sp R. exists A, am, Sp. split_and!; eauto. Qed.

(** The representation of a table determines its catalogue. *)
Lemma demo_local_unique A am Sp : flat_rep (lock_hash true demo_pad) demo_local A am Sp -> A !! demo_lock = Some (new_local_lock demo_lock).
Proof.
  intros R. destruct demo_local_rep as (am' & R' & i & Hi). pose proof (flat_lookup _ _ _ _ _ demo_lock R) as E. rewrite (flat_lookup _ _ _ _ _ _ R'), Hi in E.
  injection E as E. destruct (rep_entry _ _ _ _ _ _ _ _ R (eq_sym E)) as (b & Hb & Hg & _). destruct (rep_entry _ _ _ _ _ _ _ _ R' Hi) as (b' & Hb' & Hg' & _).
  rewrite lookup_singleton_eq in Hb'. congruence.
Qed.

Lemma demo_not_stopped : DRC_STOP_DLS_REQ_FOR_REFORMING 5 demo_lview demo_lock = false.
Proof. vm_compute. reflexivity. Qed.

(** Nobody uses the lock and instance 1 is its own master: the lock goes. *)
Lemma local_recycle_witness : exists t' g' G' gm,
  drc_recycle_lock_res true demo_pad (fun _ t => t) demo_lview demo_lview None 1 1 demo_lock 5 demo_local demo_held = Ok (Some (OG_SUCCESS, t', g')) /\
  demo_inv g' G' 4 ∅ ∅ gm /\ not_holder 1 demo_lock G' /\
  exists i A am Sp, drc_get_local_resx_without_create true demo_pad demo_lock demo_local = Ok (Some i) /\
    flat_rep (lock_hash true demo_pad) t' A am Sp /\ i ∉ (map_img am ∪ Sp : gset Z).
Proof.
  destruct demo_local_rep as (am & R & _). destruct demo_held_inv as [gm I].
  destruct (local_recycle true demo_pad (fun _ t => t) demo_lview demo_lview None 1 1 demo_lock 5 demo_local demo_held
    _ am ∅ _ _ _ _ gm R I) as (r & E & H).
  - vm_compute. split; [discriminate|reflexivity].
  - intros _. apply calm_id.
  - rewrite demo_not_stopped, lookup_singleton_eq in H. destruct H as (i & A0 & am0 & Sp0 & b0 & Hi & R0 & Hb0 & H).
    assert (in_use b0 = false) as Hu by (rewrite (demo_local_unique _ _ _ R0) in Hb0; injection Hb0 as <-; reflexivity).
    rewrite Hu in H. destruct H as (t1 & _ & H). unfold recycled, accepted in H. rewrite Z.eqb_refl, demo_not_stopped in H. cbn [negb] in H.
    destruct H as (t' & g' & A' & am' & Sp' & G' & gm' & -> & _ & R' & Hout & I' & Hn & _). exists t', g', G', gm'. split; [exact E|]. split; [exact I'|]. split; [exact Hn|].
    exists i, A', am', Sp'. split; [|by split]. unfold drc_get_local_resx_without_create, loc_lookup, loc_bucket. rewrite (flat_lookup _ _ _ _ _ _ R), Hi. reflexivity.
Defined.
