(* ===== verification/DrcRecover.v ===== *)
(** The recovery of page resources whose master has crashed: every surviving
    instance scans its buffer pool and reports the pages it has cached to
    their new masters, in batches (src/pkg/src/cluster/dtc_drc.c,
    [drc_collect_page_info], [drc_send_page_info2master],
    [drc_rcy_page_info_l], [drc_process_send_page_info]). *)

From S2P Require Import Prelude DrcBitmap DrcPool DrcResMap DrcList DrcGlobalRes DrcQueue DrcTable DrcReform DrcPart DrcPage.
From S2P Require Import DrcPageSim DrcPageInv DrcPageThm DrcPageRcy DrcRemaster.

#[local] Notation len l := (Z.of_nat (length l)).

(** [sizeof] of [page_info_t] and [msg_page_info_t] on a 64-bit machine. *)
Definition sizeof_page_info : Z := 24.
Definition sizeof_msg_page_info : Z := 56.
Definition DRC_PAGE_BATCH_BUF_SIZE : Z := 30000.
Definition DRC_PAGE_CACHE_INFO_BATCH_CNT : Z := DRC_PAGE_BATCH_BUF_SIZE / sizeof_page_info.

(** What is read of a [buf_ctrl_t]: whether it is in a bucket, the page, the
    mode, whether it is a past image, the lsn of the page, and whether the
    page is being requested from another instance. *)
Record pool_ctrl := mk_pctrl { pc_used : bool; pc_page : page_id; pc_mode : Z; pc_edp : bool; pc_lsn : Z; pc_asking : bool }.

(** The message with a batch ([msg_page_info_t] and what follows it). *)
Record info_msg := mk_imsg { im_src : Z; im_dst : Z; im_size : Z; im_count : Z; im_len : Z; im_infos : list page_info }.

(** The loop of [drc_rcy_page_info_l]: [n] is [alloc_index]. *)
Fixpoint rcy_list (page_size : Z) (pis : list page_info) (inst : Z) (ids : list Z) (n : nat) (t : ptab) : outcome (nat * ptab) :=
  match pis with
  | [] => Ok (n, t)
  | pi :: pis' =>
      i ← arg ids (Z.of_nat n);
      '(used, t) ← drc_rcy_page_info page_size pi inst i t;
      rcy_list page_size pis' inst ids (n + Nat.b2n used)%nat t
  end.

(** [drc_rcy_page_info_l]: [OG_ERROR] when the remaster has failed for want
    of items. *)
Definition drc_rcy_page_info_l (page_size inst : Z) (pis : list page_info) (t : ptab) : outcome (status * ptab) :=
  '(ret, ids, p) ← drc_res_pool_alloc_batch_item (gr_pool (tb_res t)) (len pis);
  if bool_decide (ret = OG_ERROR) then Ok (OG_ERROR, t)
  else
    '(n, t) ← rcy_list page_size pis inst ids 0 (tb_set_res (gr_set_pool p (tb_res t)) t);
    if (n <? length pis)%nat then
      p ← drc_res_pool_free_batch_item (gr_pool (tb_res t)) (drop n ids);
      Ok (OG_SUCCESS, tb_set_res (gr_set_pool p (tb_res t)) t)
    else Ok (OG_SUCCESS, t).

(** ** The scan

    The buffers and counts of [drc_page_batch_buf_t], the catalogue of the
    instance, the messages that were sent, how often sending was tried,
    [recovery_task_num], whether the remaster has failed, and [page_reqs]. *)
Record collector := mk_coll {
  co_batch : gmap Z (list page_info);
  co_tab : ptab;
  co_sent : list info_msg;
  co_tries : nat;
  co_tasks : Z;
  co_failed : bool;
  co_reqs : list page_id;
}.
Definition co_set_batch x c := mk_coll x (co_tab c) (co_sent c) (co_tries c) (co_tasks c) (co_failed c) (co_reqs c).
Definition co_set_reqs x c := mk_coll (co_batch c) (co_tab c) (co_sent c) (co_tries c) (co_tasks c) (co_failed c) x.
Definition co_fail c := mk_coll (co_batch c) (co_tab c) (co_sent c) (co_tries c) (co_tasks c) true (co_reqs c).

Section Collect.
Context (page_size self : Z) (m : drc_part_mngr) (send : nat -> status).

Definition info_msg_of (dst : Z) (pis : list page_info) : info_msg :=
  mk_imsg self dst (u16 (sizeof_msg_page_info + sizeof_page_info * len pis)) (len pis) (len pis * sizeof_page_info) pis.

(** [drc_send_page_info2master]; try number [k] to send comes to [send k]. *)
Definition drc_send_page_info2master (dst : Z) (pis : list page_info) (c : collector) : outcome (status * collector) :=
  if self =? dst then
    '(ret, t) ← drc_rcy_page_info_l page_size self pis (co_tab c);
    Ok (OG_SUCCESS, mk_coll (co_batch c) t (co_sent c) (co_tries c) (co_tasks c) (co_failed c || bool_decide (ret = OG_ERROR)) (co_reqs c))
  else if bool_decide (send (co_tries c) = OG_ERROR) then
    Ok (OG_ERROR, mk_coll (co_batch c) (co_tab c) (co_sent c) (S (co_tries c)) (co_tasks c) true (co_reqs c))
  else
    Ok (OG_SUCCESS, mk_coll (co_batch c) (co_tab c) (co_sent c ++ [info_msg_of dst pis]) (S (co_tries c)) (co_tasks c + 1) (co_failed c) (co_reqs c)).

(** [drc_cache_page_info]. *)
Definition info_of (x : pool_ctrl) : page_info := mk_pinfo (pc_page x) (pc_mode x) (pc_edp x) (pc_lsn x).
Definition drc_cache_page_info (dst : Z) (x : pool_ctrl) (c : collector) : outcome collector :=
  b ← rd (co_batch c) dst;
  let b := b ++ [info_of x] in
  let c := co_set_batch (<[dst := b]> (co_batch c)) c in
  if len b =? DRC_PAGE_CACHE_INFO_BATCH_CNT then
    '(ret, c) ← drc_send_page_info2master dst b c;
    panic_unless (bool_decide (ret = OG_SUCCESS)) ;;
    Ok (co_set_batch (<[dst := []]> (co_batch c)) c)
  else Ok c.

(** [drc_send_rest_page_info]. *)
Fixpoint send_rest (insts : list Z) (c : collector) : outcome collector :=
  match insts with
  | [] => Ok c
  | x :: insts' =>
      b ← rd (co_batch c) x;
      if (length b =? 0)%nat then send_rest insts' c
      else
        '(_, c) ← drc_send_page_info2master x b c;
        send_rest insts' (co_set_batch (<[x := []]> (co_batch c)) c)
  end.
Definition drc_send_rest_page_info : collector -> outcome collector := send_rest (seqZ 0 OG_MAX_INSTANCES).

(** [drc_get_page_master_id] and [drc_get_page_remaster_id].  A partition
    without a master leaves the variable of the caller as it was: undefined. *)
Definition drc_get_page_master_id (k : page_id) : outcome Z :=
  x ← part_master m (drc_page_partid page_size k);
  if x =? OG_INVALID_ID8 then Crash BadAddr else Ok x.
Definition drc_get_page_remaster_id (k : page_id) : outcome Z :=
  p ← rd (target_part_map m) (drc_page_partid page_size k); Ok (pt_inst p).

(** One control block in [drc_collect_page_info]. *)
Definition collect_ctrl (abort : Z) (x : pool_ctrl) (c : collector) : outcome collector :=
  if negb (pc_used x) then Ok c
  else
    let c := if pc_asking x then co_set_reqs (co_reqs c ++ [pc_page x]) c else c in
    if (pc_mode x =? DRC_LOCK_NULL) && negb (pc_edp x) then Ok c
    else
      old ← drc_get_page_master_id (pc_page x);
      if negb (old =? abort) then Ok c
      else
        dst ← drc_get_page_remaster_id (pc_page x);
        drc_cache_page_info dst x c.

(** The loop over the control blocks; [failed k] is whether another thread
    has failed the remaster when block number [k] is read.  The flag says
    that the end was reached. *)
Fixpoint collect_loop (abort : Z) (failed : nat -> bool) (k : nat) (ctrls : list pool_ctrl) (c : collector) : outcome (bool * collector) :=
  match ctrls with
  | [] => Ok (true, c)
  | x :: ctrls' =>
      if co_failed c || failed k then Ok (false, co_fail c)
      else c ← collect_ctrl abort x c; collect_loop abort failed (S k) ctrls' c
  end.

(** [drc_collect_page_info] on the control blocks of its buffer sets, each up
    to its high-water mark. *)
Definition drc_collect_page_info (malloc_ok : bool) (abort : Z) (failed : nat -> bool) (sets : list (list pool_ctrl)) (c : collector) :
    outcome collector :=
  if negb malloc_ok then Ok (co_fail c)
  else
    '(ended, c) ← collect_loop abort failed 0 (concat sets) (co_set_batch (filled OG_MAX_INSTANCES []) c);
    if negb ended then Ok c else drc_send_rest_page_info c.

(** [drc_handle_buf_res_recovery]: the ranges of buffer sets of its threads,
    whose number depends on the machine, and the threads up to the first that
    cannot be created. *)
Definition rcy_job (threads num i : Z) : Z * Z :=
  let per := num / threads in (i * per, if i =? threads - 1 then per + num mod threads else per).
Fixpoint rcy_threads (i : nat) (jobs : list (Z * Z)) (created : nat -> status) (malloc_ok : nat -> bool) (abort : Z)
    (failed : nat -> nat -> bool) (sets : list (list pool_ctrl)) (c : collector) : outcome (status * collector) :=
  match jobs with
  | [] => Ok (OG_SUCCESS, c)
  | (start, count) :: jobs' =>
      if bool_decide (created i = OG_ERROR) then Ok (OG_ERROR, co_fail c)
      else
        c ← drc_collect_page_info (malloc_ok i) abort (failed i) (take (Z.to_nat count) (drop (Z.to_nat start) sets)) c;
        rcy_threads (S i) jobs' created malloc_ok abort failed sets c
  end.
Definition drc_handle_buf_res_recovery (threads : Z) (created : nat -> status) (malloc_ok : nat -> bool) (abort : Z)
    (failed : nat -> nat -> bool) (sets : list (list pool_ctrl)) (c : collector) : outcome (status * collector) :=
  rcy_threads 0 (rcy_job threads (len sets) <$> seqZ 0 threads) created malloc_ok abort failed sets c.
End Collect.

(** ** The new master *)

(** [dtc_check_send_page_info_msg]. *)
Definition dtc_check_send_page_info_msg (x : info_msg) : bool :=
  (sizeof_msg_page_info <=? im_size x) && (sizeof_msg_page_info + im_count x * sizeof_page_info =? im_size x).

(** [drc_process_send_page_info]: the answer is whether the sender is told,
    and whether the remaster has failed. *)
Definition drc_process_send_page_info (page_size node_count rst rc : Z) (malloc_ok : bool) (x : info_msg) (t : ptab) :
    outcome (bool * bool * ptab) :=
  if negb (dtc_check_send_page_info_msg x) then Ok (false, false, t)
  else if node_count <=? 2 then Ok (false, false, t)
  else if (rst =? REMASTER_DONE) || (rc <? REFORM_FROZEN) || (REFORM_RECOVER_DONE <=? rc) || (DRC_PAGE_CACHE_INFO_BATCH_CNT <? im_count x) ||
          (node_count <=? im_src x) || negb (im_len x =? im_count x * sizeof_page_info) ||
          negb (im_size x =? sizeof_msg_page_info + sizeof_page_info * im_count x)
  then Ok (false, false, t)
  else if negb malloc_ok then Ok (false, false, t)
  else
    '(ret, t) ← drc_rcy_page_info_l page_size (im_src x) (take (Z.to_nat (im_count x)) (im_infos x)) t;
    Ok (true, bool_decide (ret = OG_ERROR), t).

(** [drc_process_remaster_recovery_task_ack] on [recovery_complete_task_num]
    and [drc_remaster_recovery_is_complete]. *)
Definition drc_process_remaster_recovery_task_ack (node_count rst rc complete : Z) : Z :=
  if node_count <=? 2 then complete
  else if (rst =? REMASTER_DONE) || (rc <? REFORM_FROZEN) || (REFORM_RECOVER_DONE <=? rc) then complete
  else complete + 1.
Definition drc_remaster_recovery_is_complete (tasks complete : Z) : bool := tasks <=? complete.

(** ** Redo

    [drc_get_page_owner_id_for_rcy] and [drc_page_need_recover], by which the
    master tells the instance that replays the log which pages it may skip.
    [CM_ASSERT] writes to the null pointer in a build with
    [DB_DEBUG_VERSION] ([debug]) and does nothing in any other. *)
Definition drc_get_page_owner_id_for_rcy (k : page_id) (t : ptab) : outcome (Z * ptab) :=
  o ← page_lookup t k;
  match o with
  | None => Ok (OG_INVALID_ID8, t)
  | Some i =>
      b ← tb_get t i;
      b ← (if claimed_owner b =? OG_INVALID_ID8 then drc_clean_buf_res b else Ok b);
      t ← tb_put t i b;
      Ok (if bool_decide (pending b = DRC_RES_EXCLUSIVE_ACTION) then OG_INVALID_ID8 else claimed_owner b, t)
  end.
Definition CM_ASSERT (debug cond : bool) : outcome unit := if debug && negb cond then Crash BadAddr else Ok tt.
Definition drc_page_need_recover (debug : bool) (self : Z) (k : page_id) (t : ptab) : outcome (bool * ptab) :=
  '(id, t) ← drc_get_page_owner_id_for_rcy k t;
  if negb (id =? OG_INVALID_ID8) then
    _ ← CM_ASSERT debug (id =? self);
    Ok (false, t)
  else Ok (true, t).
