(* ===== verification/DrcRecoverThm.v ===== *)
(** What the reports of pages make of the catalogue: a batch is entered, the
    scan of a buffer pool sends every page once, the new master handles the
    batches in any order. *)

From S2P Require Import Prelude DrcBitmap DrcPool DrcResMap DrcList DrcGlobalRes DrcQueue DrcTable DrcReform DrcPart DrcPage.
From S2P Require Import DrcPageSim DrcPageInv DrcPageThm DrcPageRcy DrcRemaster DrcRecover.

#[local] Notation len l := (Z.of_nat (length l)).

(** ** The pool keeps its size *)
Lemma free_batch_loop_num {A} `{PoolItem A} ids : forall (p p' : drc_res_pool A), free_batch_loop ids p = Ok p' -> item_num p' = item_num p.
Proof.
  induction ids as [|i ids IH]; intros p p'; cbn [free_batch_loop]; [by intros [= <-]|].
  destruct (item_num p <? i); [by intros [= <-]|]. destruct (store_next p i (free_list p)) as [p1|] eqn:E; [|done]. cbn [mbind outcome_bind].
  intros ->%IH. cbn. by eapply store_next_num.
Qed.

Lemma free_batch_num {A} `{PoolItem A} ids (p p' : drc_res_pool A) : drc_res_pool_free_batch_item p ids = Ok p' -> item_num p' = item_num p.
Proof.
  unfold drc_res_pool_free_batch_item. destruct (negb _); [by intros [= <-]|]. destruct (_ <? _); [by intros [= <-]|]. apply free_batch_loop_num.
Qed.

Lemma rcy_page_info_num page_size pi inst i t used t' : drc_rcy_page_info page_size pi inst i t = Ok (used, t') -> gr_num (tb_res t') = gr_num (tb_res t).
Proof.
  unfold drc_rcy_page_info. destruct (page_lookup t (pi_page_id pi)) as [[j|]|]; cbn [mbind outcome_bind]; [| |done].
  - destruct (tb_get t j) as [b|]; [|done]. cbn [mbind outcome_bind]. unfold tb_put. destruct (gr_put _ _ _) as [g|] eqn:E; [|done].
    cbn [mbind outcome_bind]. intros [= <- <-]. cbn. by eapply gr_put_num.
  - destruct (gr_fill _ _ _) as [g1|] eqn:E1; [|done]. cbn [mbind outcome_bind]. destruct (gr_map_add _ _ _) as [g2|] eqn:E2; [|done].
    cbn [mbind outcome_bind]. destruct (gr_list_add _ _ _) as [g3|] eqn:E3; [|done]. cbn [mbind outcome_bind]. intros [= <- <-]. cbn.
    apply gr_fill_num in E1. apply gr_map_add_num in E2. apply gr_list_add_num in E3. congruence.
Qed.

(** ** A batch of reports *)
Section Enter.
Context (page_size : Z).
#[local] Notation rcy_inv := (rcy_inv page_size).

Definition enter1 (inst : Z) (A : catalogue) (pi : page_info) : catalogue :=
  <[pi_page_id pi := match A !! pi_page_id pi with Some b => drc_update_page_info pi inst b | None => rcy_buf_res [] pi inst end]> A.
Definition enter (inst : Z) (pis : list page_info) (A : catalogue) : catalogue := foldl (enter1 inst) A pis.

Lemma enter1_lookup inst A pi k : enter1 inst A pi !! k = if decide (pi_page_id pi = k) then collect_page (A !! k) (inst, pi) else A !! k.
Proof.
  unfold enter1, collect_page. case_decide as E; [subst k; by rewrite lookup_insert_eq|by rewrite lookup_insert_ne].
Qed.

(** The reports of a batch about one page. *)
Definition about (k : page_id) (inst : Z) (pis : list page_info) : list (Z * page_info) := (fun pi => (inst, pi)) <$> filter (fun pi => pi_page_id pi = k) pis.

Lemma about_app k inst pis pis' : about k inst (pis ++ pis') = about k inst pis ++ about k inst pis'.
Proof. unfold about. by rewrite filter_app, fmap_app. Qed.

Lemma elem_of_about k inst pis i pi : (i, pi) ∈ about k inst pis <-> i = inst /\ pi ∈ pis /\ pi_page_id pi = k.
Proof.
  unfold about. rewrite list_elem_of_fmap. split.
  - intros (x & [= -> ->] & [? ?]%list_elem_of_filter). done.
  - intros (-> & ? & ?). exists pi. split; [done|]. by apply list_elem_of_filter.
Qed.

Lemma enter_lookup inst pis k : forall A, enter inst pis A !! k = foldl collect_page (A !! k) (about k inst pis).
Proof.
  induction pis as [|pi pis IH]; intros A; [done|]. cbn [enter foldl]. change (foldl (enter1 inst) (enter1 inst A pi) pis) with (enter inst pis (enter1 inst A pi)).
  rewrite IH, enter1_lookup. unfold about. rewrite filter_cons. by case_decide.
Qed.

Lemma enter_app inst pis pis' A : enter inst (pis ++ pis') A = enter inst pis' (enter inst pis A).
Proof. unfold enter. by rewrite foldl_app. Qed.

Lemma enter_size inst pis : forall A, (size (enter inst pis A) <= size A + length pis)%nat.
Proof.
  induction pis as [|pi pis IH]; intros A; [cbn; lia|]. specialize (IH (enter1 inst A pi)). cbn [enter foldl length] in *.
  change (foldl (enter1 inst) (enter1 inst A pi) pis) with (enter inst pis (enter1 inst A pi)) in *.
  assert (size (enter1 inst A pi) <= S (size A))%nat; [|lia]. unfold enter1. destruct (A !! pi_page_id pi) eqn:E.
  - rewrite map_size_insert_Some by (by eexists). lia.
  - rewrite map_size_insert_None by done. lia.
Qed.

Lemma rcy_list_ok inst f F Sp : is_inst inst -> forall pis ids n t A am, NoDup ids -> (forall i, i ∈ ids -> i ∉ Sp) -> (n + length pis <= length ids)%nat ->
  rcy_inv t A f F (list_to_set (drop n ids) ∪ Sp) am ->
  exists n' t' am', rcy_list page_size pis inst ids n t = Ok (n', t') /\ (n <= n' <= n + length pis)%nat /\ gr_num (tb_res t') = gr_num (tb_res t) /\
    rcy_inv t' (enter inst pis A) f F (list_to_set (drop n' ids) ∪ Sp) am'.
Proof.
  intros Hi. induction pis as [|pi pis IH]; intros ids n t A am Hnd Hd Hn I; cbn [rcy_list length] in *.
  { exists n, t, am. split_and!; try done; lia. }
  destruct (lookup_lt_is_Some_2 ids n ltac:(lia)) as [i Hid]. unfold arg. rewrite Nat2Z.id, Hid, (proj2 (Z.ltb_ge _ _)) by lia. cbn [mbind outcome_bind].
  pose proof (drop_S _ _ _ Hid) as Hdr.
  destruct (rcy_page_info_ok page_size pi inst i t A f F _ am I Hi) as (used & t1 & A1 & am1 & E & Hu & Hk & Hne & I1).
  { rewrite Hdr. set_solver. }
  rewrite E. cbn [mbind outcome_bind].
  assert (A1 = enter1 inst A pi) as ->.
  { apply map_eq. intros k. rewrite enter1_lookup. case_decide as Ek; [subst k; by rewrite Hk|by apply Hne]. }
  destruct (IH ids (n + Nat.b2n used)%nat t1 (enter1 inst A pi) am1 Hnd Hd) as (n' & t' & am' & E' & Hn' & N' & I'); [destruct used; cbn; lia| |].
  - destruct used; cbn [Nat.b2n].
    + rewrite Nat.add_1_r. replace (list_to_set (drop (S n) ids) ∪ Sp) with ((list_to_set (drop n ids) ∪ Sp) ∖ {[i]} : gset Z); [done|].
      rewrite Hdr. cbn [list_to_set]. assert (i ∉ Sp) by (apply Hd; by eapply list_elem_of_lookup_2).
      assert (i ∉ drop (S n) ids) as Hni. { rewrite <- (take_drop n ids), Hdr in Hnd. apply NoDup_app in Hnd as (_ & _ & [? _]%NoDup_cons). done. }
      apply set_eq. intros j. rewrite elem_of_difference, !elem_of_union, elem_of_singleton, elem_of_list_to_set.
      destruct (decide (j = i)) as [->|]; tauto.
    + by rewrite Nat.add_0_r.
  - exists n', t', am'. split; [done|]. split; [destruct used; cbn in *; lia|]. split; [|done]. rewrite N'. by eapply rcy_page_info_num.
Qed.

(** [drc_rcy_page_info_l]: the reports are entered and the items that were
    not needed given back, or there were not enough of them. *)
Lemma rcy_page_info_l_ok inst pis t A f F Sp am : rcy_inv t A f F Sp am -> is_inst inst -> len pis < 2 ^ 31 -> gr_num (tb_res t) < 2 ^ 31 ->
  exists ret t' am', drc_rcy_page_info_l page_size inst pis t = Ok (ret, t') /\ gr_num (tb_res t') = gr_num (tb_res t) /\
    rcy_inv t' (if bool_decide (ret = OG_SUCCESS) then enter inst pis A else A) f F Sp am' /\
    (pis <> [] -> Z.of_nat (size A) + Z.of_nat (size Sp) + len pis <= gr_num (tb_res t) -> ret = OG_SUCCESS).
Proof.
  intros I Hi Hl Hnum. unfold drc_rcy_page_info_l.
  destruct (tab_alloc_batch _ _ t A f F Sp am (len pis) (rv_rep _ _ _ _ _ _ _ I) ltac:(lia) Hnum) as [[-> Hno]|(ids & p' & -> & Hlen & Hnd & Hin & R' & Hn')]; cbn [mbind outcome_bind].
  { exists OG_ERROR, t, am. split_and!; try done. intros Hne Hr. destruct Hno. destruct pis; [done|]. cbn [length] in *. lia. }
  rewrite bool_decide_false by done.
  assert (rcy_inv (tb_set_res (gr_set_pool p' (tb_res t)) t) A f F (list_to_set (drop 0 ids) ∪ Sp) am) as I1 by (split; [done|apply I]).
  destruct (rcy_list_ok inst f F Sp Hi pis ids 0 _ A am Hnd Hin ltac:(lia) I1) as (n & t1 & am1 & -> & Hn & N1 & I2). cbn [mbind outcome_bind].
  assert (gr_num (tb_res t1) = gr_num (tb_res t)) as N2 by (rewrite N1; exact Hn'). destruct (Nat.ltb_spec n (length pis)) as [Hlt|Hge].
  - destruct (tab_free_batch _ _ t1 _ f F _ am1 (drop n ids) (rv_rep _ _ _ _ _ _ _ I2)) as (p2 & E2 & R2).
    { eapply sublist_NoDup; [exact Hnd|apply sublist_drop]. }
    { intros i Hx. apply elem_of_union_l. by apply elem_of_list_to_set. }
    rewrite E2. cbn [mbind outcome_bind]. eexists OG_SUCCESS, _, am1. split; [done|]. split; [rewrite <- N2; by eapply free_batch_num|].
    split; [|done]. split; [|apply I2]. replace ((list_to_set (drop n ids) ∪ Sp) ∖ list_to_set (drop n ids)) with Sp in R2; [exact R2|].
    apply set_eq. intros i. rewrite elem_of_difference, elem_of_union, elem_of_list_to_set. split; [|tauto]. intros Hx. split; [by right|].
    intros Hx2. apply (Hin i); [|done]. eapply elem_of_sublist; [done|apply sublist_drop].
  - exists OG_SUCCESS, t1, am1. split_and!; try done. rewrite drop_ge in I2 by lia. cbn in I2. by rewrite union_empty_l_L in I2.
Qed.
End Enter.

(** ** The scan of a buffer pool *)
Section Scan.
Context (page_size self : Z) (m : drc_part_mngr) (abort : Z).

(** Every partition has a master, before and after the reform. *)
Record masters_ok : Prop := {
  mo_old : forall q, 0 <= q < DRC_MAX_PART_NUM -> exists p, part_map m !! q = Some p /\ is_inst (pt_inst p);
  mo_new : forall q, 0 <= q < DRC_MAX_PART_NUM -> exists p, target_part_map m !! q = Some p /\ is_inst (pt_inst p);
}.
Definition inst_at (pm : gmap Z drc_part) (q : Z) : Z := match pm !! q with Some p => pt_inst p | None => OG_INVALID_ID8 end.
Definition old_master (k : page_id) : Z := inst_at (part_map m) (drc_page_partid page_size k).
Definition new_master (k : page_id) : Z := inst_at (target_part_map m) (drc_page_partid page_size k).

(** The pages to report: cached in a mode or as a past image, and mastered by
    the instance that crashed. *)
Definition lost (x : pool_ctrl) : bool :=
  pc_used x && (negb (pc_mode x =? DRC_LOCK_NULL) || pc_edp x) && (old_master (pc_page x) =? abort).
Definition reports (dst : Z) (ctrls : list pool_ctrl) : list page_info :=
  info_of <$> filter (fun x => lost x = true /\ new_master (pc_page x) = dst) ctrls.

Lemma reports_app dst l l' : reports dst (l ++ l') = reports dst l ++ reports dst l'.
Proof. unfold reports. by rewrite filter_app, fmap_app. Qed.

Lemma elem_of_reports dst l pi : pi ∈ reports dst l <-> exists x, x ∈ l /\ lost x = true /\ new_master (pc_page x) = dst /\ pi = info_of x.
Proof.
  unfold reports. rewrite list_elem_of_fmap. split.
  - intros (x & -> & [[? ?] ?]%list_elem_of_filter). by exists x.
  - intros (x & Hx & Hl & Hn & ->). exists x. split; [done|]. by apply list_elem_of_filter.
Qed.

(** What messages say to one instance. *)
Definition sent_to (d : Z) (msgs : list info_msg) : list page_info := concat (im_infos <$> filter (fun x => im_dst x = d) msgs).

Lemma sent_to_app d l l' : sent_to d (l ++ l') = sent_to d l ++ sent_to d l'.
Proof. unfold sent_to. by rewrite filter_app, fmap_app, concat_app. Qed.

Definition msg_ok (x : info_msg) : Prop :=
  exists dst pis, x = info_msg_of self dst pis /\ is_inst dst /\ dst <> self /\ 0 < len pis <= DRC_PAGE_CACHE_INFO_BATCH_CNT.

Context (M : masters_ok) (self_ok : is_inst self) (send : nat -> status) (send_ok : forall k, send k = OG_SUCCESS).
Context (f : Z) (F Sp : gset Z) (N : Z) (N_ok : N < 2 ^ 31).
#[local] Notation rcy_inv := (rcy_inv page_size).

(** Since [A0] and [c0] the messages [new] were sent and the reports [done]
    entered in the own catalogue. *)
Record traced (A0 : catalogue) (c0 c : collector) (new : list info_msg) (done : list page_info) : Prop := {
  tc_sent : co_sent c = co_sent c0 ++ new;
  tc_msgs : Forall msg_ok new;
  tc_tasks : co_tasks c = co_tasks c0 + len new;
  tc_tab : exists am, rcy_inv (co_tab c) (enter self done A0) f F Sp am;
  tc_num : gr_num (tb_res (co_tab c)) = N;
  tc_failed : co_failed c = false;
}.
Definition given (d : Z) (new : list info_msg) (done : list page_info) : list page_info := if decide (d = self) then done else sent_to d new.

Lemma traced_batch A0 c0 c new done x : traced A0 c0 c new done -> traced A0 c0 (co_set_batch x c) new done.
Proof. by intros []. Qed.
Lemma traced_reqs A0 c0 c new done x : traced A0 c0 c new done -> traced A0 c0 (co_set_reqs x c) new done.
Proof. by intros []. Qed.

Lemma batch_cnt : DRC_PAGE_CACHE_INFO_BATCH_CNT = 1250.
Proof. reflexivity. Qed.

Lemma send_to_master_ok A0 c0 c new done dst pis : traced A0 c0 c new done -> is_inst dst -> 0 < len pis <= DRC_PAGE_CACHE_INFO_BATCH_CNT ->
  (dst = self -> Z.of_nat (size A0) + Z.of_nat (size Sp) + len done + len pis <= N) ->
  exists c' new' done', drc_send_page_info2master page_size self send dst pis c = Ok (OG_SUCCESS, c') /\ traced A0 c0 c' new' done' /\
    co_batch c' = co_batch c /\ forall d, given d new' done' = given d new done ++ (if decide (d = dst) then pis else []).
Proof.
  intros T Hd Hl Hroom. rewrite batch_cnt in Hl. unfold drc_send_page_info2master. destruct (Z.eqb_spec self dst) as [<-|Hne].
  - destruct T as [T1 T2 T3 [am T4] T5 T6]. pose proof (enter_size self done A0) as Hsz.
    destruct (rcy_page_info_l_ok page_size self pis (co_tab c) _ f F Sp am T4 self_ok ltac:(lia) ltac:(lia)) as (ret & t' & am' & -> & Hn & I' & Hok).
    assert (ret = OG_SUCCESS) as -> by (apply Hok; [destruct pis; [cbn in Hl; lia|done]|specialize (Hroom eq_refl); lia]).
    cbn [mbind outcome_bind]. rewrite (bool_decide_true (OG_SUCCESS = OG_SUCCESS)) in I' by done.
    eexists _, new, (done ++ pis). split; [done|]. split; [|split; [done|]].
    + split; cbn; try done; [exists am'; by rewrite enter_app|congruence|by rewrite T6].
    + intros d. unfold given. case_decide; [done|]. by rewrite app_nil_r.
  - rewrite send_ok. rewrite bool_decide_false by done. destruct T as [T1 T2 T3 T4 T5 T6].
    eexists _, (new ++ [info_msg_of self dst pis]), done. split; [done|]. split; [|split; [done|]].
    + split; cbn; try done; [by rewrite T1, <- app_assoc| |rewrite T3, length_app; cbn; lia].
      apply Forall_app. split; [done|]. constructor; [|constructor]. exists dst, pis. split_and!; try done; rewrite ?batch_cnt; lia.
    + intros d. unfold given. case_decide as Ed; [subst d; rewrite decide_False by done; by rewrite app_nil_r|]. rewrite sent_to_app. f_equal.
      unfold sent_to. rewrite filter_cons. cbn [im_dst info_msg_of]. case_decide as E1; case_decide as E2; try congruence; cbn; by rewrite ?app_nil_r.
Qed.

(** The control blocks [L] have been seen, what is not sent is in a batch. *)
Record scanned (A0 : catalogue) (c0 c : collector) (L : list pool_ctrl) (new : list info_msg) (done : list page_info) : Prop := {
  sc_traced : traced A0 c0 c new done;
  sc_batch : forall d, is_inst d -> exists b, co_batch c !! d = Some b /\ len b < DRC_PAGE_CACHE_INFO_BATCH_CNT /\ given d new done ++ b = reports d L;
}.

Lemma reports_skip d L x : (lost x = true -> new_master (pc_page x) <> d) -> reports d (L ++ [x]) = reports d L.
Proof. intros Hx. rewrite reports_app. unfold reports at 2. rewrite filter_cons, decide_False; [apply app_nil_r|]. intros [? ?]. by apply Hx. Qed.

Lemma reports_take L x : lost x = true -> reports (new_master (pc_page x)) (L ++ [x]) = reports (new_master (pc_page x)) L ++ [info_of x].
Proof. intros Hx. rewrite reports_app. unfold reports at 2. by rewrite filter_cons, decide_True. Qed.

Lemma cache_page_ok A0 c0 c L new done x : scanned A0 c0 c L new done -> lost x = true -> is_inst (new_master (pc_page x)) ->
  Z.of_nat (size A0) + Z.of_nat (size Sp) + len (reports self (L ++ [x])) <= N ->
  exists c' new' done', drc_cache_page_info page_size self send (new_master (pc_page x)) x c = Ok c' /\ scanned A0 c0 c' (L ++ [x]) new' done'.
Proof.
  intros [T B] Hx Hd Hroom. set (dst := new_master (pc_page x)) in *. destruct (B dst Hd) as (b & Hb & Hl & Hg).
  assert (reports dst (L ++ [x]) = given dst new done ++ (b ++ [info_of x])) as Hr by (unfold dst; rewrite reports_take by done; fold dst; by rewrite <- Hg, app_assoc).
  unfold drc_cache_page_info. unfold rd. rewrite Hb. cbn [mbind outcome_bind]. set (c1 := co_set_batch _ c).
  assert (forall d, d <> dst -> reports d (L ++ [x]) = reports d L) as Hother by (intros d Hne; apply reports_skip; intros _; done).
  destruct (Z.eqb_spec (len (b ++ [info_of x])) DRC_PAGE_CACHE_INFO_BATCH_CNT) as [Hfull|Hnot].
  - destruct (send_to_master_ok A0 c0 c1 new done dst (b ++ [info_of x]) (traced_batch _ _ _ _ _ _ T) Hd) as (c' & new' & done' & -> & T' & Hcb & Hg').
    + rewrite Hfull, batch_cnt. lia.
    + intros ->. unfold given in Hr. rewrite decide_True in Hr by done. rewrite Hr, length_app, Nat2Z.inj_add in Hroom. lia.
    + cbn [mbind outcome_bind]. rewrite bool_decide_true by done. cbn [knl_panic mbind outcome_bind]. eexists _, new', done'. split; [done|].
      split; [by apply traced_batch|]. intros d Hid. cbn [co_batch co_set_batch]. rewrite Hg', Hcb. case_decide as Ed.
      * subst d. exists []. rewrite lookup_insert_eq, app_nil_r. split_and!; [done|rewrite batch_cnt; cbn; lia|by rewrite Hr].
      * destruct (B d Hid) as (b' & Hb' & Hl' & Hg2). exists b'. rewrite lookup_insert_ne by done. cbn. rewrite lookup_insert_ne by done.
        split_and!; try done. rewrite app_nil_r, Hg2. by rewrite Hother.
  - exists c1, new, done. split; [done|]. split; [by apply traced_batch|]. intros d Hid. unfold c1. cbn [co_batch co_set_batch].
    destruct (decide (d = dst)) as [->|Ed].
    + eexists. rewrite lookup_insert_eq. split_and!; [done|rewrite length_app in *; cbn [length] in *; lia|by rewrite Hr].
    + destruct (B d Hid) as (b' & Hb' & Hl' & Hg2). exists b'. rewrite lookup_insert_ne by done. split_and!; try done. rewrite Hg2. by rewrite Hother.
Qed.
Lemma master_ok k : drc_get_page_master_id page_size m k = Ok (old_master k) /\ is_inst (old_master k).
Proof.
  destruct (mo_old M _ (page_partid_range page_size k)) as (p & Hp & Hi). unfold drc_get_page_master_id, part_master, rd, old_master, inst_at. rewrite Hp.
  cbn [mbind outcome_bind]. split; [|done]. by rewrite (proj2 (Z.eqb_neq _ _) (is_inst_ne _ Hi)).
Qed.
Lemma remaster_ok k : drc_get_page_remaster_id page_size m k = Ok (new_master k) /\ is_inst (new_master k).
Proof.
  destruct (mo_new M _ (page_partid_range page_size k)) as (p & Hp & Hi). unfold drc_get_page_remaster_id, rd, new_master, inst_at. by rewrite Hp.
Qed.

Lemma scanned_skip A0 c0 c L new done x : scanned A0 c0 c L new done -> lost x = false -> scanned A0 c0 c (L ++ [x]) new done.
Proof.
  intros [T B] Hx. split; [done|]. intros d Hd. destruct (B d Hd) as (b & ? & ? & ?). exists b. rewrite reports_skip; [done|]. by rewrite Hx.
Qed.

Lemma collect_ctrl_ok A0 c0 c L new done x : scanned A0 c0 c L new done -> Z.of_nat (size A0) + Z.of_nat (size Sp) + len (reports self (L ++ [x])) <= N ->
  exists c' new' done', collect_ctrl page_size self m send abort x c = Ok c' /\ scanned A0 c0 c' (L ++ [x]) new' done'.
Proof.
  intros S Hroom. unfold collect_ctrl. destruct (pc_used x) eqn:Eu; cbn [negb].
  2:{ exists c, new, done. split; [done|]. apply scanned_skip; [done|]. unfold lost. by rewrite Eu. }
  set (c1 := if pc_asking x then _ else c). assert (scanned A0 c0 c1 L new done) as S1.
  { unfold c1. destruct (pc_asking x); [|done]. destruct S as [T B]. split; [by apply traced_reqs|done]. }
  clearbody c1. destruct ((pc_mode x =? DRC_LOCK_NULL) && negb (pc_edp x)) eqn:Em.
  { exists c1, new, done. split; [done|]. apply scanned_skip; [done|]. unfold lost. rewrite Eu. lia. }
  destruct (master_ok (pc_page x)) as [-> _]. cbn [mbind outcome_bind]. destruct (Z.eqb_spec (old_master (pc_page x)) abort) as [Ea|Ea]; cbn [negb].
  - destruct (remaster_ok (pc_page x)) as [-> Hd]. cbn [mbind outcome_bind]. apply (cache_page_ok A0 c0 c1 L new done x S1); [|done|done].
    unfold lost. rewrite Eu, Ea, Z.eqb_refl. lia.
  - exists c1, new, done. split; [done|]. apply scanned_skip; [done|]. unfold lost. lia.
Qed.

Lemma collect_loop_ok A0 c0 failed : (forall k, failed k = false) -> forall ctrls k L c new done, scanned A0 c0 c L new done ->
  Z.of_nat (size A0) + Z.of_nat (size Sp) + len (reports self (L ++ ctrls)) <= N ->
  exists c' new' done', collect_loop page_size self m send abort failed k ctrls c = Ok (true, c') /\ scanned A0 c0 c' (L ++ ctrls) new' done'.
Proof.
  intros Hf. induction ctrls as [|x ctrls IH]; intros k L c new done S Hroom; cbn [collect_loop].
  { exists c, new, done. by rewrite app_nil_r. }
  rewrite (tc_failed _ _ _ _ _ (sc_traced _ _ _ _ _ _ S)), Hf. cbn [orb].
  replace (L ++ x :: ctrls) with ((L ++ [x]) ++ ctrls) in * by (by rewrite <- app_assoc).
  destruct (collect_ctrl_ok A0 c0 c L new done x S) as (c1 & new1 & done1 & -> & S1); [rewrite reports_app, length_app in Hroom; lia|].
  cbn [mbind outcome_bind]. by apply (IH _ (L ++ [x]) c1 new1 done1).
Qed.

(** The batches of the instances [insts] are still to be sent, the others are
    empty. *)
Lemma send_rest_ok A0 c0 L : Z.of_nat (size A0) + Z.of_nat (size Sp) + len (reports self L) <= N ->
  forall insts c new done, NoDup insts -> (forall d, d ∈ insts -> is_inst d) -> scanned A0 c0 c L new done ->
  (forall d, is_inst d -> d ∉ insts -> co_batch c !! d = Some []) ->
  exists c' new' done', send_rest page_size self send insts c = Ok c' /\ traced A0 c0 c' new' done' /\ forall d, is_inst d -> given d new' done' = reports d L.
Proof.
  intros Hroom. induction insts as [|x insts IH]; intros c new done Hnd Hin [T B] He; cbn [send_rest].
  { exists c, new, done. split; [done|]. split; [done|]. intros d Hd. destruct (B d Hd) as (b & Hb & _ & Hg). rewrite He in Hb by (done || apply not_elem_of_nil).
    injection Hb as <-. by rewrite app_nil_r in Hg. }
  apply NoDup_cons in Hnd as [Hx Hnd]. assert (is_inst x) as Hix by (apply Hin; by left). destruct (B x Hix) as (b & Hb & Hl & Hg).
  unfold rd. rewrite Hb. cbn [mbind outcome_bind]. destruct (Nat.eqb_spec (length b) 0) as [Hz|Hz].
  { apply (IH c new done); [done|intros d Hd; apply Hin; by right|by split|]. intros d Hd Hn. destruct (decide (d = x)) as [->|].
    - destruct b; [done|cbn in Hz; lia].
    - apply He; [done|]. by intros [?|?]%elem_of_cons. }
  destruct (send_to_master_ok A0 c0 c new done x b T Hix ltac:(lia)) as (c1 & new1 & done1 & -> & T1 & Hcb & Hg1).
  { intros ->. unfold given in Hg. rewrite decide_True in Hg by done. rewrite <- Hg, length_app, Nat2Z.inj_add in Hroom. lia. }
  cbn [mbind outcome_bind]. apply (IH _ new1 done1); [done|intros d Hd; apply Hin; by right| |].
  - split; [by apply traced_batch|]. intros d Hd. cbn [co_batch co_set_batch]. rewrite Hg1, Hcb. case_decide as Ed.
    + subst d. exists []. rewrite lookup_insert_eq, app_nil_r. split_and!; [done|rewrite batch_cnt; cbn; lia|done].
    + destruct (B d Hd) as (b' & ? & ? & ?). exists b'. rewrite lookup_insert_ne by done. by rewrite app_nil_r.
  - intros d Hd Hn. cbn [co_batch co_set_batch]. rewrite Hcb. destruct (decide (d = x)) as [->|]; [by rewrite lookup_insert_eq|].
    rewrite lookup_insert_ne by done. apply He; [done|]. by intros [?|?]%elem_of_cons.
Qed.

(** [drc_collect_page_info]. *)
Lemma collect_page_info_ok failed sets c A am : (forall k, failed k = false) -> rcy_inv (co_tab c) A f F Sp am -> gr_num (tb_res (co_tab c)) = N ->
  co_failed c = false -> Z.of_nat (size A) + Z.of_nat (size Sp) + len (reports self (concat sets)) <= N ->
  exists c' new, drc_collect_page_info page_size self m send true abort failed sets c = Ok c' /\
    traced A c c' new (reports self (concat sets)) /\ forall d, is_inst d -> d <> self -> sent_to d new = reports d (concat sets).
Proof.
  intros Hf I Hn Hfl Hroom. unfold drc_collect_page_info. cbn [negb]. set (c1 := co_set_batch _ c).
  assert (forall d, is_inst d -> co_batch c1 !! d = Some []) as Hb by (intros d Hd; apply filled_lookup, Hd).
  destruct (collect_loop_ok A c failed Hf (concat sets) 0 [] c1 [] []) as (c2 & new2 & done2 & -> & S2).
  - split.
    + split; cbn; try done; [by rewrite app_nil_r|lia|by exists am].
    + intros d Hd. exists []. split_and!; [by apply Hb|rewrite batch_cnt; cbn; lia|]. unfold given. by case_decide.
  - exact Hroom.
  - cbn [mbind outcome_bind negb]. cbn [app] in S2.
    destruct (send_rest_ok A c (concat sets) Hroom (seqZ 0 OG_MAX_INSTANCES) c2 new2 done2) as (c' & new & done & E & T & Hg).
    + apply NoDup_seqZ.
    + intros d Hd%elem_of_seqZ. unfold is_inst. lia.
    + done.
    + intros d Hd Hx. destruct Hx. apply elem_of_seqZ. unfold is_inst in Hd. lia.
    + exists c', new. split; [exact E|]. pose proof (Hg self self_ok) as Hs. unfold given in Hs. rewrite decide_True in Hs by done. subst done. split; [done|].
      intros d Hd Hne. specialize (Hg d Hd). unfold given in Hg. by rewrite decide_False in Hg.
Qed.
(** The threads, one after the other. *)
Definition slice {X} (l : list X) (j : Z * Z) : list X := take (Z.to_nat j.2) (drop (Z.to_nat j.1) l).

Lemma rcy_threads_ok created malloc_ok failed sets : (forall i, created i = OG_SUCCESS) -> (forall i, malloc_ok i = true) -> (forall i k, failed i k = false) ->
  forall jobs i c A am, rcy_inv (co_tab c) A f F Sp am -> gr_num (tb_res (co_tab c)) = N -> co_failed c = false ->
  let all := concat (concat (slice sets <$> jobs)) in
  Z.of_nat (size A) + Z.of_nat (size Sp) + len (reports self all) <= N ->
  exists c' new, rcy_threads page_size self m send i jobs created malloc_ok abort failed sets c = Ok (OG_SUCCESS, c') /\
    traced A c c' new (reports self all) /\ forall d, is_inst d -> d <> self -> sent_to d new = reports d all.
Proof.
  intros Hc Hm Hf. induction jobs as [|[a n] jobs IH]; intros i c A am I Hn Hfl all Hroom; cbn [rcy_threads].
  { exists c, []. split; [done|]. split; [|done]. split; cbn; try done; [by rewrite app_nil_r|lia|by exists am]. }
  rewrite Hc. rewrite bool_decide_false by done. rewrite Hm. fold (slice sets (a, n)).
  assert (all = concat (slice sets (a, n)) ++ concat (concat (slice sets <$> jobs))) as Eall by (unfold all; by rewrite fmap_cons; cbn [concat]; rewrite concat_app).
  rewrite Eall in *. clear all Eall. rewrite reports_app, length_app in Hroom.
  destruct (collect_page_info_ok (failed i) (slice sets (a, n)) c A am (Hf i) I Hn Hfl ltac:(lia)) as (c1 & new1 & E1 & [S1 M1 K1 [am1 T1] N1 F1] & G1).
  change (take (Z.to_nat n) (drop (Z.to_nat a) sets)) with (slice sets (a, n)). rewrite E1. cbn [mbind outcome_bind].
  pose proof (enter_size self (reports self (concat (slice sets (a, n)))) A) as Hsz.
  destruct (IH (S i) c1 _ am1 T1 N1 F1 ltac:(lia)) as (c2 & new2 & E2 & [S2 M2 K2 [am2 T2] N2 F2] & G2).
  exists c2, (new1 ++ new2). split; [done|]. split.
  - split; try done; [by rewrite S2, S1, app_assoc|by apply Forall_app|rewrite K2, K1, length_app; lia|]. exists am2. by rewrite reports_app, enter_app.
  - intros d Hd Hne. by rewrite sent_to_app, G1, G2, reports_app.
Qed.

Lemma slices_take {X} (l : list X) per : 0 <= per -> forall n : nat,
  concat (slice l <$> ((fun i => (i * per, per)) <$> seqZ 0 (Z.of_nat n))) = take (Z.to_nat (Z.of_nat n * per)) l.
Proof.
  intros Hp. induction n as [|n IH]; [done|]. replace (Z.of_nat (S n)) with (Z.of_nat n + 1) by lia. rewrite seqZ_app by lia.
  replace (seqZ (0 + Z.of_nat n) 1) with [Z.of_nat n] by (rewrite seqZ_cons by lia; f_equal; lia).
  rewrite !fmap_app, concat_app, IH. cbn [fmap list_fmap concat]. rewrite app_nil_r. unfold slice. cbn [fst snd]. rewrite take_take_drop. f_equal. lia.
Qed.

Lemma slices_cover {X} (l : list X) threads : 0 < threads -> concat (slice l <$> (rcy_job threads (len l) <$> seqZ 0 threads)) = l.
Proof.
  intros Ht. set (per := len l / threads). assert (0 <= per) as Hp by (apply Z.div_pos; lia).
  pose proof (Z.mod_pos_bound (len l) threads ltac:(lia)) as Hmod. pose proof (Z.div_mod (len l) threads ltac:(lia)) as Hdm. fold per in Hdm.
  replace (seqZ 0 threads) with (seqZ 0 (threads - 1) ++ [threads - 1]).
  2:{ replace threads with (threads - 1 + 1) at 3 by lia. by rewrite seqZ_app by lia. }
  rewrite !fmap_app, concat_app. cbn [fmap list_fmap concat]. rewrite app_nil_r.
  replace (rcy_job threads (len l) <$> seqZ 0 (threads - 1)) with ((fun i => (i * per, per)) <$> seqZ 0 (Z.of_nat (Z.to_nat (threads - 1)))).
  2:{ rewrite Z2Nat.id by lia. apply list_fmap_ext. intros _ i Hi%list_elem_of_lookup_2%elem_of_seqZ. unfold rcy_job. rewrite (proj2 (Z.eqb_neq _ _)) by lia. done. }
  rewrite slices_take by done. unfold slice, rcy_job. rewrite Z.eqb_refl. cbn [fst snd]. fold per. rewrite Z2Nat.id by lia.
  rewrite take_take_drop. apply take_ge. lia.
Qed.
End Scan.

(** ** The new master *)

(** Reports up to order and repetition. *)
Definition same_reports (rs rs' : list (Z * page_info)) : Prop := forall x, x ∈ rs <-> x ∈ rs'.
#[export] Instance same_reports_equiv : Equivalence same_reports.
Proof. split; [done|by intros rs rs' H x|by intros rs1 rs2 rs3 H1 H2 x; rewrite (H1 x), (H2 x)]. Qed.
#[export] Instance reports_ok_proper : Proper (same_reports ==> iff) reports_ok.
Proof. intros rs rs' H. split; apply reports_ok_sub; intros x; by apply H. Qed.
#[export] Instance rebuilt_proper : Proper (same_reports ==> eq ==> iff) rebuilt.
Proof.
  assert (forall rs rs' b, same_reports rs rs' -> rebuilt rs b -> rebuilt rs' b) as Hone.
  { intros rs rs' b H []. unfold same_reports in H. split; try done; setoid_rewrite <- H; done. }
  intros rs rs' H b ? <-. split; apply Hone; done.
Qed.

Section Master.
Context (page_size node_count rst rc : Z).
Context (nodes : 2 < node_count) (rst_ok : rst <> REMASTER_DONE) (rc_ok : REFORM_FROZEN <= rc < REFORM_RECOVER_DONE).
#[local] Notation rcy_inv := (rcy_inv page_size).

(** The messages that are handled, and how many of them are answered. *)
Fixpoint receive (ms : list info_msg) (t : ptab) : outcome (Z * ptab) :=
  match ms with
  | [] => Ok (0, t)
  | x :: ms' =>
      '(acked, _, t) ← drc_process_send_page_info page_size node_count rst rc true x t;
      '(n, t) ← receive ms' t;
      Ok (n + Z.b2z acked, t)
  end.

(** The batches [es], with the instances they come from, entered in order. *)
Definition enters (es : list (Z * list page_info)) (A : catalogue) : catalogue := foldl (fun A e => enter e.1 e.2 A) A es.
Definition abouts (k : page_id) (es : list (Z * list page_info)) : list (Z * page_info) := concat ((fun e => about k e.1 e.2) <$> es).

Lemma enters_lookup es k : forall A, enters es A !! k = foldl collect_page (A !! k) (abouts k es).
Proof.
  induction es as [|e es IH]; intros A; [done|]. unfold abouts. rewrite fmap_cons. cbn [concat]. rewrite foldl_app, <- enter_lookup. apply IH.
Qed.

Lemma elem_of_abouts k es i pi : (i, pi) ∈ abouts k es <-> exists pis, (i, pis) ∈ es /\ pi ∈ pis /\ pi_page_id pi = k.
Proof.
  unfold abouts. rewrite list_elem_of_In, in_concat. split.
  - intros (l & Hl & Hx%list_elem_of_In). apply list_elem_of_In, list_elem_of_fmap in Hl as ([j pis] & -> & He).
    apply elem_of_about in Hx as (-> & ? & ?). by exists pis.
  - intros (pis & He & Hp & Hk). exists (about k i pis). split; [apply list_elem_of_In, list_elem_of_fmap; by exists (i, pis)|].
    apply list_elem_of_In, elem_of_about. done.
Qed.

Definition batch_of (x : info_msg) : Z * list page_info := (im_src x, im_infos x).

Lemma msg_size i dst pis : 0 < len pis <= DRC_PAGE_CACHE_INFO_BATCH_CNT ->
  im_size (info_msg_of i dst pis) = sizeof_msg_page_info + sizeof_page_info * len pis.
Proof.
  intros Hl. rewrite batch_cnt in Hl. cbn [info_msg_of im_size]. unfold u16, sizeof_msg_page_info, sizeof_page_info. apply Z.mod_small. lia.
Qed.

Lemma process_info_ok i x t A f F Sp am N : rcy_inv t A f F Sp am -> gr_num (tb_res t) = N -> N < 2 ^ 31 -> msg_ok i x -> is_inst i -> i < node_count ->
  Z.of_nat (size A) + Z.of_nat (size Sp) + len (im_infos x) <= N ->
  exists t' am', drc_process_send_page_info page_size node_count rst rc true x t = Ok (true, false, t') /\ gr_num (tb_res t') = N /\
    rcy_inv t' (enter i (im_infos x) A) f F Sp am'.
Proof.
  intros I Hn HN (dst & pis & -> & Hd & Hne & Hl) Hi Hc Hroom. pose proof (msg_size i dst pis Hl) as Hsz. rewrite batch_cnt in Hl.
  unfold drc_process_send_page_info, dtc_check_send_page_info_msg. rewrite Hsz. cbn [info_msg_of im_count im_src im_len im_infos] in *.
  rewrite batch_cnt. unfold sizeof_msg_page_info, sizeof_page_info in *.
  rewrite (proj2 (andb_true_iff _ _)) by lia. cbn [negb]. rewrite (proj2 (Z.leb_gt _ _)) by lia.
  destruct ((rst =? REMASTER_DONE) || _ || _ || _ || _ || _ || _) eqn:E; [exfalso; lia|]. rewrite Nat2Z.id, take_ge by done.
  destruct (rcy_page_info_l_ok page_size i pis t A f F Sp am I Hi ltac:(lia) ltac:(lia)) as (ret & t' & am' & -> & Hn' & I' & Hok).
  assert (ret = OG_SUCCESS) as -> by (apply Hok; [destruct pis; [cbn in Hl; lia|done]|lia]).
  cbn [mbind outcome_bind]. exists t', am'. split; [done|]. split; [congruence|exact I'].
Qed.

Lemma receive_ok f F Sp N : N < 2 ^ 31 -> forall ms t A am, rcy_inv t A f F Sp am -> gr_num (tb_res t) = N ->
  (forall x, x ∈ ms -> msg_ok (im_src x) x /\ is_inst (im_src x) /\ im_src x < node_count) ->
  Z.of_nat (size A) + Z.of_nat (size Sp) + len (concat (im_infos <$> ms)) <= N ->
  exists t' am', receive ms t = Ok (len ms, t') /\ gr_num (tb_res t') = N /\ rcy_inv t' (enters (batch_of <$> ms) A) f F Sp am'.
Proof.
  intros HN. induction ms as [|x ms IH]; intros t A am I Hn Hms Hroom; cbn [receive]; [by exists t, am|].
  destruct (Hms x) as (Hx & Hi & Hc); [by left|]. rewrite fmap_cons in Hroom. cbn [concat] in Hroom. rewrite length_app in Hroom.
  destruct (process_info_ok (im_src x) x t A f F Sp am N I Hn HN Hx Hi Hc ltac:(lia)) as (t1 & am1 & -> & N1 & I1). cbn [mbind outcome_bind].
  pose proof (enter_size (im_src x) (im_infos x) A) as Hsz.
  destruct (IH t1 _ am1 I1 N1) as (t2 & am2 & -> & N2 & I2); [intros y Hy; apply Hms; by right|lia|].
  cbn [mbind outcome_bind]. exists t2, am2. split; [f_equal; f_equal; cbn [length Z.b2z]; lia|]. done.
Qed.
End Master.

(** ** Redo *)
Section Redo.
Context (page_size : Z).
#[local] Notation rcy_inv := (rcy_inv page_size).

Lemma owner_for_rcy_ok t A f F Sp am k ab : rcy_inv t A f F Sp am -> A !! k = Some ab -> page_ok ab ->
  exists ab' t', (if claimed_owner ab =? OG_INVALID_ID8 then drc_clean_buf_res ab else Ok ab) = Ok ab' /\ page_ok ab' /\
    drc_get_page_owner_id_for_rcy k t =
      Ok (if bool_decide (pending ab' = DRC_RES_EXCLUSIVE_ACTION) then OG_INVALID_ID8 else claimed_owner ab', t') /\
    rcy_inv t' (<[k := ab']> A) f F Sp am.
Proof.
  intros [R W] Hk Hok. destruct (rep_open page_size _ _ _ _ _ _ _ _ R Hk) as (i & b & E & Hi & Hl & Hb & Hpk & RR & Hput).
  unfold drc_get_page_owner_id_for_rcy. rewrite Hl.
  cbn [mbind outcome_bind]. rewrite Hb. cbn [mbind outcome_bind].
  assert (claimed_owner b = claimed_owner ab) as -> by (destruct RR as (l & _ & -> & _); done).
  assert (forall ab' b', res_rel E (tb_items t) (tb_items t) b' f ab' -> buf_page_id ab' = k -> page_ok ab' -> exists t', tb_put t i b' = Ok t' /\
    rcy_inv t' (<[k := ab']> A) f F Sp am /\ pending b' = pending ab' /\ claimed_owner b' = claimed_owner ab') as Hset.
  { intros ab' b' RR' Hk' Hok'. destruct (Hput _ _ _ _ RR' Hk') as (t' & Et & _ & R'). rewrite tb_set_items_id in Et. exists t'. split; [done|].
    split; [split; [done|]|by destruct RR' as (l & _ & -> & _)].
    intros k' x [[<- <-]|[_ ?]]%lookup_insert_Some; [by destruct (proj1 (page_ok_wf _) Hok')|by eapply W]. }
  destruct (Z.eqb_spec (claimed_owner ab) OG_INVALID_ID8) as [Ho|Ho].
  - destruct (clean_buf_res_ok ab Hok Ho) as (ab' & Ec & Hok' & Hpg & _). pose proof (queue_blind_sim _ _ _ _ _ _ _ clean_buf_res_blind RR) as HS.
    cbn beta in HS. rewrite Ec in HS. destruct HS as (b' & -> & RR'). cbn [mbind outcome_bind].
    destruct (Hset ab' b' RR') as (t' & -> & I' & -> & ->); [rewrite Hpg; exact Hpk|done|]. cbn [mbind outcome_bind]. by exists ab', t'.
  - cbn [mbind outcome_bind]. destruct (Hset ab b RR) as (t' & -> & I' & -> & ->); [exact Hpk|done|]. cbn [mbind outcome_bind]. by exists ab, t'.
Qed.

(** What the answer says of a page made of reports. *)
Lemma redo_rebuilt rs b b' : reports_ok rs -> rebuilt rs b ->
  (if claimed_owner b =? OG_INVALID_ID8 then drc_clean_buf_res b else Ok b) = Ok b' ->
  (if bool_decide (pending b' = DRC_RES_EXCLUSIVE_ACTION) then OG_INVALID_ID8 else claimed_owner b') = OG_INVALID_ID8 <->
  forall i pi, (i, pi) ∈ rs -> pi_lock_mode pi = DRC_LOCK_NULL.
Proof.
  intros RO RB E. pose proof (rb_pending _ _ RB) as Hp. pose proof (rb_wf _ _ RB) as W.
  destruct (Z.eqb_spec (claimed_owner b) OG_INVALID_ID8) as [Ho|Ho].
  - assert (forall i pi, (i, pi) ∈ rs -> pi_lock_mode pi <> DRC_LOCK_EXCLUSIVE) as Hnx.
    { intros i pi Hi Hx. pose proof (rp_inst _ RO _ _ Hi) as Hii. apply (is_inst_ne i Hii). rewrite <- Ho. symmetry. apply (rb_owner _ _ RB i Hii). by exists pi. }
    unfold drc_clean_buf_res in E. rewrite Ho in E. cbn [knl_panic Z.eqb mbind outcome_bind] in E.
    change (OG_INVALID_ID8 =? OG_INVALID_ID8) with true in E. cbn [knl_panic mbind outcome_bind] in E.
    destruct (Z.eqb_spec (readonly_copies b) 0) as [Hc|Hc]; cbn [negb] in E.
    + assert (forall i pi, (i, pi) ∈ rs -> pi_lock_mode pi = DRC_LOCK_NULL) as Hnull.
      { intros i pi Hi. pose proof (rp_mode _ RO _ _ Hi) as Hm. rewrite !elem_of_cons, elem_of_nil in Hm. destruct Hm as [?|[Hm|[Hm|[]]]]; [done| |by destruct (Hnx _ _ Hi)].
        destruct (proj1 (bm_zero _ (pw_copies _ W)) Hc i). apply (rb_copies _ _ RB). by exists pi. }
      split; [done|]. intros _. destruct (Z.eqb_spec (edp_map b) 0) as [He|He]; cbn [negb] in E.
      * injection E as <-. rewrite Hp. rewrite bool_decide_false by done. done.
      * destruct (negb (latest_edp b =? _)), (negb (mode b =? _)); cbn [knl_panic mbind outcome_bind] in E; try done. injection E as <-. cbn. done.
    + destruct (select_one_ok _ (pw_copies _ W) Hc) as [Hs _]. destruct (knl_panic _); cbn [mbind outcome_bind] in E; [|done]. injection E as <-.
      cbn [pending set_readonly_copies set_pending set_claimed_owner claimed_owner]. rewrite bool_decide_false by done.
      split; [intros Hz; exfalso; by apply (is_inst_ne _ (bm_mem_inst _ _ Hs))|]. intros Hall. apply (rb_copies _ _ RB) in Hs as (pi & Hi & Hm). rewrite (Hall _ _ Hi) in Hm. done.
  - injection E as <-. rewrite Hp, bool_decide_false by done. split; [done|]. intros Hall. destruct (pw_owner _ W) as [?|Hoi]; [done|].
    destruct (proj1 (rb_owner _ _ RB _ Hoi) eq_refl) as (pi & Hi & Hm). rewrite (Hall _ _ Hi) in Hm. done.
Qed.

(** The instance that has the page for redo: the exclusive holder, or the
    lowest of those that share the page. *)
Definition keeps_page (rs : list (Z * page_info)) (o : Z) : Prop :=
  (exists pi, (o, pi) ∈ rs /\ pi_lock_mode pi = DRC_LOCK_EXCLUSIVE) \/
  ((exists pi, (o, pi) ∈ rs /\ pi_lock_mode pi = DRC_LOCK_SHARE) /\
   forall j pj, (j, pj) ∈ rs -> pi_lock_mode pj = DRC_LOCK_SHARE -> o <= j).

Lemma redo_keeps rs b b' : rebuilt rs b ->
  (if claimed_owner b =? OG_INVALID_ID8 then drc_clean_buf_res b else Ok b) = Ok b' ->
  pending b' <> DRC_RES_EXCLUSIVE_ACTION -> claimed_owner b' <> OG_INVALID_ID8 -> keeps_page rs (claimed_owner b').
Proof.
  intros RB E Hp Ho'. pose proof (rb_wf _ _ RB) as W. destruct (Z.eqb_spec (claimed_owner b) OG_INVALID_ID8) as [Ho|Ho].
  - right. unfold drc_clean_buf_res in E. rewrite Ho in E. change (OG_INVALID_ID8 =? OG_INVALID_ID8) with true in E.
    cbn [knl_panic mbind outcome_bind] in E. destruct (Z.eqb_spec (readonly_copies b) 0) as [Hc|Hc]; cbn [negb] in E.
    + destruct (negb (edp_map b =? 0)); [|injection E as <-; done].
      destruct (negb (latest_edp b =? _)), (negb (mode b =? _)); cbn [knl_panic mbind outcome_bind] in E; try done. by injection E as <-.
    + destruct (select_one_ok _ (pw_copies _ W) Hc) as [Hs Hl]. destruct (knl_panic _); cbn [mbind outcome_bind] in E; [|done].
      injection E as <-. cbn [claimed_owner set_readonly_copies set_pending set_claimed_owner]. split; [by apply (rb_copies _ _ RB)|].
      intros j pj Hj Hm. apply Hl, (rb_copies _ _ RB). by exists pj.
  - injection E as <-. left. destruct (pw_owner _ W) as [?|Hoi]; [done|]. by apply (rb_owner _ _ RB _ Hoi).
Qed.
End Redo.
