(* ===== verification/DrcRecoverProps.v ===== *)
(** The properties of the recovery of pages: the reports that a surviving
    instance sends, and the catalogue that the new master makes of them. *)

From S2P Require Import Prelude DrcBitmap DrcPool DrcResMap DrcList DrcGlobalRes DrcQueue DrcTable DrcReform DrcPart DrcPage.
From S2P Require Import DrcPageSim DrcPageInv DrcPageThm DrcPageRcy DrcPageProps DrcRemaster DrcRecover DrcRecoverThm.

#[local] Notation len l := (Z.of_nat (length l)).

(** C29: the reports of a surviving instance.  When sending and the threads do
    not fail and the own catalogue has room, [drc_handle_buf_res_recovery]
    ends: every other instance is sent exactly the pages that are cached here,
    were mastered by the crashed instance and are now mastered there, each
    once, in messages of at most 1250 that the handler accepts; the pages now
    mastered here are entered in the own catalogue; and the number of answers
    to wait for is the number of messages. *)
Theorem recover_reports : forall page_size self m abort send threads created malloc_ok failed sets c A f F Sp am,
  masters_ok m -> is_inst self -> 0 < threads -> (forall k, send k = OG_SUCCESS) -> (forall i, created i = OG_SUCCESS) ->
  (forall i, malloc_ok i = true) -> (forall i k, failed i k = false) -> rcy_inv page_size (co_tab c) A f F Sp am -> co_failed c = false ->
  gr_num (tb_res (co_tab c)) < 2 ^ 31 ->
  Z.of_nat (size A) + Z.of_nat (size Sp) + len (reports page_size m abort self (concat sets)) <= gr_num (tb_res (co_tab c)) ->
  exists c' new am', drc_handle_buf_res_recovery page_size self m send threads created malloc_ok abort failed sets c = Ok (OG_SUCCESS, c') /\
    co_sent c' = co_sent c ++ new /\ co_tasks c' = co_tasks c + len new /\ co_failed c' = false /\
    Forall (fun x => msg_ok self x /\ dtc_check_send_page_info_msg x = true) new /\
    (forall d, is_inst d -> d <> self -> sent_to d new = reports page_size m abort d (concat sets)) /\
    rcy_inv page_size (co_tab c') (enter self (reports page_size m abort self (concat sets)) A) f F Sp am'.
Proof.
  intros page_size self m abort send threads created malloc_ok failed sets c A f F Sp am HM Hs Ht Hsend Hc Hm Hf I Hfl HN Hroom.
  destruct (rcy_threads_ok page_size self m abort HM Hs send Hsend f F Sp _ HN created malloc_ok failed sets Hc Hm Hf
    (rcy_job threads (len sets) <$> seqZ 0 threads) 0 c A am I eq_refl Hfl) as (c' & new & E & [T1 T2 T3 [am' T4] _ T6] & G).
  { rewrite slices_cover by done. exact Hroom. }
  rewrite slices_cover in * by done. exists c', new, am'. split; [exact E|]. split_and!; try done.
  eapply Forall_impl; [exact T2|]. intros x Hx. split; [done|]. destruct Hx as (dst & pis & -> & _ & _ & Hl).
  unfold dtc_check_send_page_info_msg. rewrite (msg_size self dst pis Hl). cbn [im_count info_msg_of]. unfold sizeof_msg_page_info, sizeof_page_info. lia.
Qed.

(** ** The catalogue that is rebuilt *)

(** The crash of instance [abort]: the survivors are [self] and [others];
    survivor [i] has the partition maps [m i] (those of two survivors may
    differ), the buffer pool [sets i], and sends the messages [msgs i] to
    [self]: the pages of its pool that its own maps say were mastered by
    [abort] and are now by [self], in the batches of its scan. *)
Record survivors (page_size self : Z) (m : Z -> drc_part_mngr) (abort node_count : Z) (others : list Z) (sets : Z -> list (list pool_ctrl))
    (msgs : Z -> list info_msg) : Prop := {
  sv_masters : masters_ok (m self);
  sv_self : is_inst self;
  sv_nodes : 2 < node_count;
  sv_others : forall i, i ∈ others -> is_inst i /\ i <> self /\ i < node_count;
  sv_msgs : forall i, i ∈ others -> Forall (msg_ok i) (msgs i) /\ concat (im_infos <$> msgs i) = reports page_size (m i) abort self (concat (sets i));
}.

(** What the survivors report of page [k]. *)
Definition all_reports (page_size self : Z) (m : Z -> drc_part_mngr) (abort : Z) (others : list Z) (sets : Z -> list (list pool_ctrl)) (k : page_id) :
    list (Z * page_info) :=
  concat ((fun i => about k i (reports page_size (m i) abort self (concat (sets i)))) <$> self :: others).

Lemma elem_of_all_reports page_size self m abort others sets k i pi :
  (i, pi) ∈ all_reports page_size self m abort others sets k <->
  i ∈ self :: others /\ pi ∈ reports page_size (m i) abort self (concat (sets i)) /\ pi_page_id pi = k.
Proof.
  unfold all_reports. rewrite list_elem_of_In, in_concat. split.
  - intros (l & Hl & Hx%list_elem_of_In). apply list_elem_of_In, list_elem_of_fmap in Hl as (j & -> & Hj).
    by apply elem_of_about in Hx as (-> & ? & ?).
  - intros (Hi & Hp & Hk). exists (about k i (reports page_size (m i) abort self (concat (sets i)))).
    split; [apply list_elem_of_In, list_elem_of_fmap; by exists i|]. by apply list_elem_of_In, elem_of_about.
Qed.

Lemma msg_ok_src i x : msg_ok i x -> im_src x = i.
Proof. by intros (dst & pis & -> & _). Qed.

Section Rebuild.
Context (page_size self : Z) (m : Z -> drc_part_mngr) (abort node_count : Z) (others : list Z) (sets : Z -> list (list pool_ctrl)) (msgs : Z -> list info_msg).
Context (V : survivors page_size self m abort node_count others sets msgs).
Context (ms1 ms2 : list info_msg) (Hms : ms1 ++ ms2 ≡ₚ concat (msgs <$> others)).
#[local] Notation reps := (reports page_size (m self) abort self).

Lemma message_from x : x ∈ ms1 ++ ms2 <-> exists i, i ∈ others /\ x ∈ msgs i.
Proof.
  rewrite Hms, list_elem_of_In, in_concat. split.
  - intros (l & Hl & Hx). apply list_elem_of_In, list_elem_of_fmap in Hl as (i & -> & Hi). exists i. split; [done|by apply list_elem_of_In].
  - intros (i & Hi & Hx). exists (msgs i). split; apply list_elem_of_In; [apply list_elem_of_fmap; by exists i|done].
Qed.

Lemma message_ok x : x ∈ ms1 ++ ms2 -> msg_ok (im_src x) x /\ is_inst (im_src x) /\ im_src x < node_count.
Proof.
  intros (i & Hi & Hx)%message_from. destruct (sv_msgs _ _ _ _ _ _ _ _ V i Hi) as [Hf _]. rewrite Forall_forall in Hf. specialize (Hf x Hx).
  rewrite (msg_ok_src i x Hf). destruct (sv_others _ _ _ _ _ _ _ _ V i Hi) as (? & ? & ?). done.
Qed.

(** All batches: of the messages before and after the own scan, and its own. *)
Definition batches : list (Z * list page_info) := (batch_of <$> ms1) ++ (self, reps (concat (sets self))) :: (batch_of <$> ms2).

Lemma batches_reports k : same_reports (abouts k batches) (all_reports page_size self m abort others sets k).
Proof.
  intros [i pi]. rewrite elem_of_abouts, elem_of_all_reports. unfold batches. split.
  - intros (pis & He & Hp & Hk). rewrite elem_of_app, elem_of_cons in He.
    assert ((i, pis) ∈ batch_of <$> ms1 ++ ms2 \/ (i, pis) = (self, reps (concat (sets self)))) as [Hb|[= -> ->]] by (rewrite fmap_app, elem_of_app; tauto).
    + apply list_elem_of_fmap in Hb as (x & [= -> ->] & (j & Hj & Hx)%message_from). destruct (sv_msgs _ _ _ _ _ _ _ _ V j Hj) as [Hf Hc].
      rewrite Forall_forall in Hf. rewrite (msg_ok_src j x (Hf x Hx)). split; [by right|]. split; [|done]. rewrite <- Hc.
      apply list_elem_of_In, in_concat. exists (im_infos x). split; apply list_elem_of_In; [apply list_elem_of_fmap; by exists x|done].
    + split; [by left|done].
  - intros ([->|Hi]%elem_of_cons & Hp & Hk); [exists (reps (concat (sets self))); split; [apply elem_of_app; right; by left|done]|].
    destruct (sv_msgs _ _ _ _ _ _ _ _ V i Hi) as [Hf Hc]. rewrite <- Hc in Hp. apply list_elem_of_In, in_concat in Hp as (l & Hl & Hx%list_elem_of_In).
    apply list_elem_of_In, list_elem_of_fmap in Hl as (x & -> & Hxm). rewrite Forall_forall in Hf. exists (im_infos x). split; [|done].
    assert ((i, im_infos x) ∈ batch_of <$> ms1 ++ ms2) as Hb.
    { apply list_elem_of_fmap. exists x. split; [unfold batch_of; by rewrite (msg_ok_src i x (Hf x Hxm))|]. apply message_from. by exists i. }
    rewrite fmap_app, elem_of_app in Hb. rewrite elem_of_app, elem_of_cons. tauto.
Qed.

Lemma batches_page A0 k : (forall i k, i ∈ self :: others -> old_master page_size (m i) k = abort -> A0 !! k = None) -> reports_ok (all_reports page_size self m abort others sets k) ->
  (all_reports page_size self m abort others sets k = [] /\ enters batches A0 !! k = A0 !! k) \/
  exists b, enters batches A0 !! k = Some b /\ rebuilt (all_reports page_size self m abort others sets k) b /\ page_ok b.
Proof.
  intros HA RO. rewrite enters_lookup. pose proof (batches_reports k) as Hsame. destruct (abouts k batches) as [|r rs] eqn:E.
  - left. split; [|done]. destruct (all_reports _ _ _ _ _ _ k) as [|y l]; [done|]. exfalso. apply (not_elem_of_nil y), Hsame. by left.
  - right. assert (A0 !! k = None) as ->.
    { destruct r as [i pi]. assert ((i, pi) ∈ all_reports page_size self m abort others sets k) as Hin by (apply Hsame; by left).
      apply elem_of_all_reports in Hin as (Hi & Hp & Hk). apply elem_of_reports in Hp as (x & _ & Hl & _ & ->). apply (HA i k Hi). rewrite <- Hk. cbn.
      unfold lost in Hl. lia. }
    rewrite <- Hsame in RO. destruct (collect_rebuilt (r :: rs) RO) as (b & Hb & RB); [done|]. exists b. split; [done|]. rewrite <- Hsame.
    split; [done|]. by eapply rebuilt_ok.
Qed.

Lemma enters_size es : forall A, (size (enters es A) <= size A + length (concat (snd <$> es)))%nat.
Proof.
  induction es as [|e es IH]; intros A; [cbn; lia|]. rewrite fmap_cons. cbn [enters foldl concat]. rewrite length_app.
  specialize (IH (enter e.1 e.2 A)). pose proof (enter_size e.1 e.2 A). unfold enters in *. lia.
Qed.

Lemma batches_infos (ms : list info_msg) : snd <$> (batch_of <$> ms) = im_infos <$> ms.
Proof. by rewrite <- list_fmap_compose. Qed.
End Rebuild.

(** C18: the rebuilt catalogue.  Every survivor scans its buffer pool and
    sends to the new master the pages that, by its own partition maps, the
    crashed instance mastered and the new master is to master (a survivor
    whose maps are out of date may leave pages out); the new master handles
    some of the messages, scans its own pool and handles the rest, in any
    order.  Conditions: there are more than two nodes and every survivor is
    one of them; the handlers run between the freezing of the cluster and the
    end of recovery, before the remaster is done; no thread, allocation or
    send fails and there is room for what is reported; before, the new master
    knew no page that a survivor takes for one of the crashed instance; and
    what is reported of a page is consistent ([reports_ok]: real instances and
    modes, one report per instance, at most one exclusive holder and then no
    other holder, past images with an lsn).  Then everything is answered and
    the catalogue has, for every page that somebody reported to it, the
    resource that the reports determine - the owner, the copies, the latest
    past image - and nothing else changed. *)
Theorem recover_rebuilt : forall page_size self m abort node_count others sets msgs ms1 ms2 rst rc send threads created malloc_ok failed
    t0 A0 f F Sp am,
  survivors page_size self m abort node_count others sets msgs -> ms1 ++ ms2 ≡ₚ concat (msgs <$> others) ->
  rst <> REMASTER_DONE -> REFORM_FROZEN <= rc < REFORM_RECOVER_DONE ->
  0 < threads -> (forall k, send k = OG_SUCCESS) -> (forall i, created i = OG_SUCCESS) ->
  (forall i, malloc_ok i = true) -> (forall i k, failed i k = false) ->
  rcy_inv page_size t0 A0 f F Sp am -> (forall i k, i ∈ self :: others -> old_master page_size (m i) k = abort -> A0 !! k = None) ->
  (forall k, reports_ok (all_reports page_size self m abort others sets k)) ->
  gr_num (tb_res t0) < 2 ^ 31 ->
  Z.of_nat (size A0) + Z.of_nat (size Sp) + len (concat (im_infos <$> ms1)) + len (reports page_size (m self) abort self (concat (sets self))) +
    len (concat (im_infos <$> ms2)) <= gr_num (tb_res t0) ->
  exists t1 c t2 A2 am2,
    receive page_size node_count rst rc ms1 t0 = Ok (len ms1, t1) /\
    drc_handle_buf_res_recovery page_size self (m self) send threads created malloc_ok abort failed (sets self) (mk_coll ∅ t1 [] 0 0 false []) =
      Ok (OG_SUCCESS, c) /\
    receive page_size node_count rst rc ms2 (co_tab c) = Ok (len ms2, t2) /\
    rcy_inv page_size t2 A2 f F Sp am2 /\
    forall k, (all_reports page_size self m abort others sets k = [] /\ A2 !! k = A0 !! k) \/
      exists b, A2 !! k = Some b /\ rebuilt (all_reports page_size self m abort others sets k) b /\ page_ok b.
Proof.
  intros page_size self m abort node_count others sets msgs ms1 ms2 rst rc send threads created malloc_ok failed t0 A0 f F Sp am
    V Hms Hrst Hrc Ht Hsend Hc Hm Hf I0 HA RO HN Hroom.
  pose proof (message_ok _ _ _ _ _ _ _ _ V ms1 ms2 Hms) as Hok.
  destruct (receive_ok page_size node_count rst rc (sv_nodes _ _ _ _ _ _ _ _ V) Hrst Hrc f F Sp _ HN ms1 t0 A0 am I0 eq_refl) as (t1 & am1 & E1 & N1 & I1).
  { intros x Hx. apply Hok, elem_of_app. by left. }
  { lia. }
  pose proof (enters_size (batch_of <$> ms1) A0) as Z1. rewrite batches_infos in Z1.
  set (reps := reports page_size (m self) abort self (concat (sets self))) in *.
  destruct (rcy_threads_ok page_size self (m self) abort (sv_masters _ _ _ _ _ _ _ _ V) (sv_self _ _ _ _ _ _ _ _ V) send Hsend f F Sp _ HN created malloc_ok
    failed (sets self) Hc Hm Hf (rcy_job threads (len (sets self)) <$> seqZ 0 threads) 0 (mk_coll ∅ t1 [] 0 0 false []) _ am1 I1 N1 eq_refl)
    as (c & new & E2 & [_ _ _ [am2 I2] N2 _] & _).
  { rewrite slices_cover by done. fold reps. lia. }
  rewrite slices_cover in I2 by done. fold reps in I2. pose proof (enter_size self reps (enters (batch_of <$> ms1) A0)) as Z2.
  destruct (receive_ok page_size node_count rst rc (sv_nodes _ _ _ _ _ _ _ _ V) Hrst Hrc f F Sp _ HN ms2 (co_tab c) _ am2 I2 N2) as (t2 & am3 & E3 & _ & I3).
  { intros x Hx. apply Hok, elem_of_app. by right. }
  { lia. }
  exists t1, c, t2, (enters (batches page_size self m abort sets ms1 ms2) A0), am3. split_and!; [done|done|done| |].
  - unfold batches, enters. rewrite foldl_app. exact I3.
  - intros k. apply (batches_page page_size self m abort node_count others sets msgs V ms1 ms2 Hms A0 k HA), RO.
Qed.

(** C32: which pages are replayed.  Once the reports [rs] of the survivors
    about a page have been entered, [drc_page_need_recover] says that the page
    must be recovered from the log exactly when no survivor has it in shared
    or exclusive mode - nobody reported it, or only past images are left - and
    ends normally, except in a debug build for a page that a survivor keeps:
    there it crashes on its assertion exactly when the instance that keeps the
    page (the exclusive holder, or the lowest of those that share it) is not
    the one that answers. *)
Theorem recover_redo : forall page_size debug self t A f F Sp am k rs,
  rcy_inv page_size t A f F Sp am -> reports_ok rs ->
  (rs = [] /\ A !! k = None) \/ (exists b, A !! k = Some b /\ rebuilt rs b) ->
  (exists t' A', (forall i pi, (i, pi) ∈ rs -> pi_lock_mode pi = DRC_LOCK_NULL) /\
     drc_page_need_recover debug self k t = Ok (true, t') /\
     rcy_inv page_size t' A' f F Sp am /\ (forall k', k' <> k -> A' !! k' = A !! k')) \/
  (exists o t' A', keeps_page rs o /\
     drc_page_need_recover debug self k t =
       (if debug && bool_decide (o <> self) then Crash BadAddr else Ok (false, t')) /\
     rcy_inv page_size t' A' f F Sp am /\ (forall k', k' <> k -> A' !! k' = A !! k')).
Proof.
  intros page_size debug self t A f F Sp am k rs I RO [[-> Hk]|(b & Hk & RB)]; unfold drc_page_need_recover.
  - left. destruct I as [R W]. unfold drc_get_page_owner_id_for_rcy. rewrite (tab_lookup_none _ _ _ _ _ _ _ _ _ R Hk : page_lookup t k = _).
    exists t, A. split_and!; try done. intros i pi Hi. by apply not_elem_of_nil in Hi.
  - destruct (owner_for_rcy_ok page_size t A f F Sp am k b I Hk (rebuilt_ok _ _ RO RB)) as (b' & t' & Ec & _ & -> & I').
    pose proof (redo_rebuilt rs b b' RO RB Ec) as Hr. pose proof (redo_keeps rs b b' RB Ec) as Hkp. cbn [mbind outcome_bind].
    assert (forall k', k' <> k -> <[k := b']> A !! k' = A !! k') as Hne by (intros; by apply lookup_insert_ne).
    set (id := if bool_decide _ then _ else _) in *. destruct (Z.eqb_spec id OG_INVALID_ID8) as [Hi|Hi]; cbn [negb]; [left|right].
    + exists t', (<[k := b']> A). split; [by apply Hr|done].
    + exists id, t', (<[k := b']> A). split; [|split; [|done]].
      * unfold id in *. case_bool_decide; [done|]. by apply Hkp.
      * unfold CM_ASSERT. destruct debug; cbn [andb]; [|done]. destruct (Z.eqb_spec id self); case_bool_decide; done.
Qed.

(** ** A crash of instance 1 of three

    It mastered every partition; instance 0 takes over.  Instance 0 has the
    page in shared mode and instance 2 has it in shared mode and as a past
    image. *)
Definition crash_mngr : drc_part_mngr :=
  mk_mngr 0 true 2 0 false 0 false (filled DRC_MAX_PART_NUM (mk_part 1 PART_INIT 0)) ∅ (filled DRC_MAX_PART_NUM (mk_part 0 PART_INIT 0)) ∅ ∅ 0 ∅ ∅.
Definition crash_sets (i : Z) : list (list pool_ctrl) :=
  if i =? 0 then [[mk_pctrl true demo_page DRC_LOCK_SHARE false 0 false; mk_pctrl false demo_page DRC_LOCK_EXCLUSIVE false 0 false]]
  else [[mk_pctrl true demo_page DRC_LOCK_SHARE true 9 true]].
Definition crash_report (i : Z) : page_info := if i =? 0 then mk_pinfo demo_page DRC_LOCK_SHARE false 0 else mk_pinfo demo_page DRC_LOCK_SHARE true 9.
Definition crash_msg : info_msg := info_msg_of 2 0 [crash_report 2].

Lemma crash_masters : masters_ok crash_mngr.
Proof. split; intros q Hq; cbn [part_map target_part_map crash_mngr]; rewrite filled_lookup by done; eexists; by split. Qed.

Lemma crash_reports i : reports 8192 crash_mngr 1 0 (concat (crash_sets i)) = [crash_report i].
Proof. unfold crash_sets, crash_report. destruct (i =? 0); vm_compute; reflexivity. Qed.

Lemma crash_no_reports i : reports 8192 crash_mngr 1 2 (concat (crash_sets i)) = [].
Proof. unfold crash_sets. destruct (i =? 0); vm_compute; reflexivity. Qed.

Lemma crash_inst : is_inst 0.
Proof. done. Qed.

Lemma crash_other : 0 <> 2.
Proof. done. Qed.

Lemma crash_survivors : survivors 8192 0 (fun _ => crash_mngr) 1 3 [2] crash_sets (fun _ => [crash_msg]).
Proof.
  split; [apply crash_masters|done|done| |].
  - intros i ->%list_elem_of_singleton. done.
  - intros i ->%list_elem_of_singleton. rewrite crash_reports. split; [|done]. apply Forall_singleton. exists 0, [crash_report 2]. by split_and!.
Qed.

Lemma crash_reports_ok k : reports_ok (all_reports 8192 0 (fun _ => crash_mngr) 1 [2] crash_sets k).
Proof.
  assert (forall i pi, (i, pi) ∈ all_reports 8192 0 (fun _ => crash_mngr) 1 [2] crash_sets k -> pi = crash_report i /\ i ∈ [0; 2]) as Hin.
  { intros i pi (Hi & Hp & _)%elem_of_all_reports. rewrite crash_reports in Hp. by apply list_elem_of_singleton in Hp. }
  split.
  - intros i pi [_ [->| ->%list_elem_of_singleton]%elem_of_cons]%Hin; done.
  - intros i pi pi' [-> _]%Hin [-> _]%Hin. done.
  - intros i pi [-> _]%Hin. unfold crash_report. destruct (i =? 0); right; left.
  - intros i pi j pj [-> _]%Hin _. unfold crash_report. by destruct (i =? 0).
  - intros i pi [-> _]%Hin. unfold crash_report. by destruct (i =? 0).
Qed.

Lemma crash_rebuilt (o o0 : option apage) :
  (all_reports 8192 0 (fun _ => crash_mngr) 1 [2] crash_sets demo_page = [] /\ o = o0) \/
  (exists b, o = Some b /\ rebuilt (all_reports 8192 0 (fun _ => crash_mngr) 1 [2] crash_sets demo_page) b /\ page_ok b) ->
  exists b, o = Some b /\ bm_mem (readonly_copies b) 0 /\ bm_mem (readonly_copies b) 2 /\ bm_mem (edp_map b) 2.
Proof.
  assert (forall i, i ∈ [0; 2] -> (i, crash_report i) ∈ all_reports 8192 0 (fun _ => crash_mngr) 1 [2] crash_sets demo_page) as Hr.
  { intros i Hi. apply elem_of_all_reports. rewrite crash_reports. split; [done|]. split; [by left|]. unfold crash_report. by destruct (i =? 0). }
  assert (0 ∈ [0; 2] /\ 2 ∈ [0; 2]) as [H0 H2] by (split; [left|right; left]). pose proof (Hr 0 H0) as R0. pose proof (Hr 2 H2) as R2.
  intros [[Hn _]|(b & Hb & RB & _)]; [rewrite Hn in R0; destruct (not_elem_of_nil _ R0)|]. exists b. split; [exact Hb|].
  split; [apply (rb_copies _ _ RB); exists (crash_report 0); exact (conj R0 eq_refl)|].
  split; [apply (rb_copies _ _ RB)|apply (rb_edp _ _ RB)]; exists (crash_report 2); exact (conj R2 eq_refl).
Qed.

Lemma recover_reports_witness : exists c' new am',
  drc_handle_buf_res_recovery 8192 2 crash_mngr (fun _ => OG_SUCCESS) 16 (fun _ => OG_SUCCESS) (fun _ => true) 1 (fun _ _ => false) (crash_sets 2)
    (mk_coll ∅ demo_tab [] 0 0 false []) = Ok (OG_SUCCESS, c') /\
  co_sent c' = new /\ sent_to 0 new = [crash_report 2] /\
  rcy_inv 8192 (co_tab c') ∅ 4 ∅ ∅ am'.
Proof.
  destruct (recover_reports 8192 2 crash_mngr 1 (fun _ => OG_SUCCESS) 16 (fun _ => OG_SUCCESS) (fun _ => true) (fun _ _ => false) (crash_sets 2)
    (mk_coll ∅ demo_tab [] 0 0 false []) ∅ 4 ∅ ∅ ∅) as (c' & new & am' & E & Es & _ & _ & _ & Hs & I).
  - apply crash_masters.
  - done.
  - done.
  - reflexivity.
  - reflexivity.
  - reflexivity.
  - reflexivity.
  - apply page_inv_rcy, demo_tab_inv.
  - reflexivity.
  - vm_compute. reflexivity.
  - vm_compute. discriminate.
  - exists c', new, am'. split; [exact E|]. split; [exact Es|].
    split; [exact (eq_trans (Hs 0 crash_inst crash_other) (crash_reports 2))|].
    rewrite crash_no_reports in I. exact I.
Defined.

Lemma recover_rebuilt_witness : exists t1 c t2 A2 am2 b,
  receive 8192 3 0 REFORM_FROZEN [crash_msg] demo_tab = Ok (1, t1) /\
  drc_handle_buf_res_recovery 8192 0 crash_mngr (fun _ => OG_SUCCESS) 16 (fun _ => OG_SUCCESS) (fun _ => true) 1 (fun _ _ => false) (crash_sets 0)
    (mk_coll ∅ t1 [] 0 0 false []) = Ok (OG_SUCCESS, c) /\
  receive 8192 3 0 REFORM_FROZEN [] (co_tab c) = Ok (0, t2) /\
  rcy_inv 8192 t2 A2 4 ∅ ∅ am2 /\ A2 !! demo_page = Some b /\ bm_mem (readonly_copies b) 0 /\ bm_mem (readonly_copies b) 2 /\ bm_mem (edp_map b) 2.
Proof.
  destruct (recover_rebuilt 8192 0 (fun _ => crash_mngr) 1 3 [2] crash_sets (fun _ => [crash_msg]) [crash_msg] [] 0 REFORM_FROZEN (fun _ => OG_SUCCESS) 16
    (fun _ => OG_SUCCESS) (fun _ => true) (fun _ _ => false) demo_tab ∅ 4 ∅ ∅ ∅)
    as (t1 & c & t2 & A2 & am2 & E1 & E2 & E3 & I & H).
  - apply crash_survivors.
  - reflexivity.
  - discriminate.
  - done.
  - done.
  - reflexivity.
  - reflexivity.
  - reflexivity.
  - reflexivity.
  - apply page_inv_rcy, demo_tab_inv.
  - intros i k _ _. apply lookup_empty.
  - apply crash_reports_ok.
  - vm_compute. reflexivity.
  - vm_compute. discriminate.
  - destruct (crash_rebuilt _ _ (H demo_page)) as (b & Hb & Hm). exists t1, c, t2, A2, am2, b.
    split; [exact E1|]. split; [exact E2|]. split; [exact E3|]. split; [exact I|]. split; [exact Hb|exact Hm].
Defined.

Lemma crash_entered : exists t am, rcy_inv 8192 t {[demo_page := rcy_buf_res [] (mk_pinfo demo_page DRC_LOCK_NULL true 9) 2]} 4 ∅ ∅ am.
Proof.
  destruct (rcy_page_info_l_ok 8192 2 [mk_pinfo demo_page DRC_LOCK_NULL true 9] demo_tab ∅ 4 ∅ ∅ ∅ (page_inv_rcy _ _ _ _ _ _ _ demo_tab_inv))
    as (ret & t & am & _ & _ & I & Hok).
  - split; [discriminate|reflexivity].
  - vm_compute. reflexivity.
  - vm_compute. reflexivity.
  - assert (ret = OG_SUCCESS) as -> by (apply Hok; [discriminate|vm_compute; discriminate]). exists t, am. exact I.
Qed.

Lemma recover_redo_witness : exists t t' A' am, drc_page_need_recover true 0 demo_page t = Ok (true, t') /\ rcy_inv 8192 t' A' 4 ∅ ∅ am.
Proof.
  destruct crash_entered as (t & am & I).
  assert (reports_ok [(2, mk_pinfo demo_page DRC_LOCK_NULL true 9)]) as RO.
  { split.
    - intros i pi [= -> ->]%list_elem_of_singleton. split; [discriminate|reflexivity].
    - intros i pi pi' [= -> ->]%list_elem_of_singleton [= ->]%list_elem_of_singleton. reflexivity.
    - intros i pi [= -> ->]%list_elem_of_singleton. left.
    - intros i pi j pj [= -> ->]%list_elem_of_singleton [= -> ->]%list_elem_of_singleton _ _. reflexivity.
    - intros i pi [= -> ->]%list_elem_of_singleton _. reflexivity. }
  destruct (recover_redo 8192 true 0 t _ 4 ∅ ∅ am demo_page _ I RO) as [(t' & A' & _ & E & I' & _)|(o & t' & A' & Hk & _)].
  - right. eexists. split; [apply lookup_singleton_eq|]. exact (rebuilt_first _ _ RO).
  - exists t, t', A', am. split; [exact E|exact I'].
  - exfalso. destruct Hk as [(pi & [= -> ->]%list_elem_of_singleton & Hm)|[(pi & [= -> ->]%list_elem_of_singleton & Hm) _]]; discriminate Hm.
Defined.

(** A page that instance 2 has in shared mode, the only report: instance 0,
    its new master, crashes in a debug build when it is asked. *)
Theorem redo_asserts_owner : exists t am A,
  rcy_inv 8192 t A 4 ∅ ∅ am /\ A !! demo_page = Some (rcy_buf_res [] (mk_pinfo demo_page DRC_LOCK_SHARE false 0) 2) /\
  drc_page_need_recover true 0 demo_page t = Crash BadAddr /\ fst <$> (match drc_page_need_recover false 0 demo_page t with Ok x => Some x | Crash _ => None end) = Some false.
Proof.
  destruct (rcy_page_info_l_ok 8192 2 [mk_pinfo demo_page DRC_LOCK_SHARE false 0] demo_tab ∅ 4 ∅ ∅ ∅ (page_inv_rcy _ _ _ _ _ _ _ demo_tab_inv))
    as (ret & t & am & E & _ & I & Hok).
  - split; [discriminate|reflexivity].
  - vm_compute. reflexivity.
  - vm_compute. reflexivity.
  - assert (ret = OG_SUCCESS) as -> by (apply Hok; [discriminate|vm_compute; discriminate]). cbn [bool_decide decide_rel] in I.
    set (rep := mk_pinfo demo_page DRC_LOCK_SHARE false 0) in *.
    set (r2 := drc_rcy_page_info_l 8192 2 [rep] demo_tab) in E.
    assert (t = match r2 with Ok (_, t) => t | Crash _ => demo_tab end) as -> by (by rewrite E).
    eexists _, am, _. split; [exact I|]. split; [reflexivity|]. split; vm_compute; reflexivity.
Qed.
