(* ===== verification/DrcRecoverLock.v ===== *)
(** The recovery of lock resources whose master has crashed: every surviving
    instance walks its table of local locks and reports those that it holds
    to their new masters, in batches (src/pkg/src/cluster/dtc_drc.c,
    [drc_lock_res_recovery], [drc_recovery_lockinfo],
    [drc_process_recovery_lock_res]). *)

From S2P Require Import Prelude DrcBitmap DrcPool DrcResMap DrcGlobalRes DrcQueue DrcTable DrcReform DrcMapTab DrcPart DrcLock DrcLocal DrcRecover.

#[local] Notation len l := (Z.of_nat (length l)).

(** [sizeof] of [drc_recovery_lock_res_t] and [drc_recovery_lock_res_msg_t]. *)
Definition sizeof_rcy_lock : Z := 28.
Definition sizeof_rcy_lock_msg : Z := 56.
Definition DRC_BATCH_BUF_SIZE : Z := 30000.

(** The message with a batch ([drc_recovery_lock_res_msg_t] and the locks). *)
Record lock_msg := mk_lmsg { lm_src : Z; lm_dst : Z; lm_size : Z; lm_count : Z; lm_len : Z; lm_locks : list rcy_lock }.

(** ** The survivors

    [g_drc_lock_batch_buf] (a batch is [count] entries of its buffer), the
    locks this instance masters, the messages that were sent, how often
    sending was tried, [recovery_task_num], and whether the remaster has
    failed. *)
Record lock_collector := mk_lcoll {
  lo_batch : gmap Z (list rcy_lock);
  lo_max : Z;
  lo_tab : ltab;
  lo_sent : list lock_msg;
  lo_tries : nat;
  lo_tasks : Z;
  lo_failed : bool;
}.
Definition lo_set_batch x c := mk_lcoll x (lo_max c) (lo_tab c) (lo_sent c) (lo_tries c) (lo_tasks c) (lo_failed c).
Definition lo_set_tab x c := mk_lcoll (lo_batch c) (lo_max c) x (lo_sent c) (lo_tries c) (lo_tasks c) (lo_failed c).
Definition lo_fail c := mk_lcoll (lo_batch c) (lo_max c) (lo_tab c) (lo_sent c) (lo_tries c) (lo_tasks c) true.

(** [drc_reset_lock_batch_buf]. *)
Definition drc_reset_lock_batch_buf (c : lock_collector) : lock_collector :=
  mk_lcoll (filled OG_MAX_INSTANCES []) (DRC_BATCH_BUF_SIZE / sizeof_rcy_lock) (lo_tab c) (lo_sent c) (lo_tries c) (lo_tasks c) (lo_failed c).

Section CollectLocks.
Context (signed : bool) (pad : list Z) (self sid : Z) (m : drc_part_mngr) (vc : view) (send : nat -> status) (stamp : drid -> Z * Z).

Definition lock_msg_of (dst : Z) (rls : list rcy_lock) : lock_msg :=
  mk_lmsg self dst (u16 (sizeof_rcy_lock_msg + sizeof_rcy_lock * len rls)) (len rls) (len rls * sizeof_rcy_lock) rls.

(** [drc_send_lock_info]; try number [k] to send comes to [send k]. *)
Definition drc_send_lock_info (dst : Z) (c : lock_collector) : outcome (status * lock_collector) :=
  b ← rd (lo_batch c) dst;
  if bool_decide (send (lo_tries c) = OG_ERROR) then
    Ok (OG_ERROR, mk_lcoll (lo_batch c) (lo_max c) (lo_tab c) (lo_sent c) (S (lo_tries c)) (lo_tasks c) (lo_failed c))
  else
    Ok (OG_SUCCESS, mk_lcoll (lo_batch c) (lo_max c) (lo_tab c) (lo_sent c ++ [lock_msg_of dst b]) (S (lo_tries c)) (lo_tasks c + 1) (lo_failed c)).

(** [drc_send_last_lock_info]: the first failure ends it, and the counts
    stay. *)
Fixpoint send_last (insts : list Z) (c : lock_collector) : outcome (status * lock_collector) :=
  match insts with
  | [] => Ok (OG_SUCCESS, c)
  | x :: insts' =>
      b ← rd (lo_batch c) x;
      if (length b =? 0)%nat then send_last insts' c
      else
        '(ret, c) ← drc_send_lock_info x c;
        if bool_decide (ret = OG_ERROR) then Ok (OG_ERROR, c) else send_last insts' c
  end.
Definition drc_send_last_lock_info : lock_collector -> outcome (status * lock_collector) := send_last (seqZ 0 OG_MAX_INSTANCES).

(** [drc_collect_and_send_lock_info]; an entry past the end of the buffer of
    the new master is a bad address. *)
Definition reported_mode (b : local_lock) : Z :=
  let lock_mode := la_lock_mode (ll_latch b) in
  if ll_is_owner b && (lock_mode =? DRC_LOCK_NULL) then DRC_LOCK_EXCLUSIVE else lock_mode.
Definition drc_collect_and_send_lock_info (x : local_lock) (dst : Z) (c : lock_collector) : outcome (status * lock_collector) :=
  let lock_mode := reported_mode x in
  if lock_mode =? DRC_LOCK_NULL then Ok (OG_SUCCESS, c)
  else
    b ← rd (lo_batch c) dst;
    let b := b ++ [mk_rlock (ll_res_id x) lock_mode] in
    if DRC_BATCH_BUF_SIZE <? len b * sizeof_rcy_lock then Crash BadAddr
    else
      let c := lo_set_batch (<[dst := b]> (lo_batch c)) c in
      if lo_max c <=? len b then
        '(ret, c) ← drc_send_lock_info dst c;
        if bool_decide (ret = OG_ERROR) then Ok (OG_ERROR, c)
        else Ok (OG_SUCCESS, lo_set_batch (<[dst := []]> (lo_batch c)) c)
      else Ok (OG_SUCCESS, c).

(** The request that [drc_recovery_lockinfo] makes on behalf of the own
    instance; [stamp] are the serial number and the time. *)
Definition own_request (d : drid) (lock_mode : Z) (r : drc_req_info) : drc_req_info :=
  mk_req self lock_mode DRC_LOCK_MODE_MAX (req_owner_result r) sid (stamp d).1 (stamp d).2 (v_trigger_version vc) OG_INVALID_ID64
    (release_timeout_ticks r).

(** [drc_recovery_lockinfo] when the own instance is the new master: a lock is
    made, whatever is there, and the result of the look-up is used untested. *)
Definition recover_own (x : local_lock) (t : ltab) : outcome ltab :=
  let d := ll_res_id x in
  let lock_mode := la_lock_mode (ll_latch x) in
  if lock_mode =? DRC_LOCK_NULL then Ok t
  else
    o ← drc_create_lock_res signed pad d t;
    let t := default t o in
    o ← lock_lookup signed pad t d;
    match o with
    | None => Crash BadAddr
    | Some i =>
        b ← tb_get t i;
        t ← tb_put t i (lk_set_converting (own_request d lock_mode (lk_converting b)) b);
        '(_, t) ← drc_claim_lock_owner signed pad vc d (mk_lclaim self lock_mode sid) (v_trigger_version vc) true t;
        Ok t
    end.

(** [drc_recovery_lockinfo]. *)
Definition drc_recovery_lockinfo (x : local_lock) (new_master : Z) (c : lock_collector) : outcome lock_collector :=
  if self =? new_master then t ← recover_own x (lo_tab c); Ok (lo_set_tab t c)
  else '(_, c) ← drc_collect_and_send_lock_info x new_master c; Ok c.

(** [drc_get_lock_master_id] and [drc_get_lock_remaster_id]. *)
Definition drc_get_lock_master_id (d : drid) : outcome Z := part_master m (lock_partid signed pad d).
Definition drc_get_lock_remaster_id (d : drid) : outcome Z :=
  p ← rd (target_part_map m) (lock_partid signed pad d); Ok (pt_inst p).

(** One local lock in [drc_lock_res_recovery]. *)
Definition recover_lock (abort : Z) (x : local_lock) (c : lock_collector) : outcome lock_collector :=
  old ← drc_get_lock_master_id (ll_res_id x);
  if old =? abort then
    new ← drc_get_lock_remaster_id (ll_res_id x);
    drc_recovery_lockinfo x new c
  else Ok c.

(** The walk along a bucket: [n] rounds are left, at slot [idx]. *)
Fixpoint bucket_loop (n : nat) (abort : Z) (loc : loctab) (idx : Z) (c : lock_collector) : outcome lock_collector :=
  match n with
  | O => Ok c
  | S n' =>
      a ← load (res_pool loc) idx;
      c ← recover_lock abort (fi_body a) c;
      bucket_loop n' abort loc (fi_next a) c
  end.

(** The buckets of one thread; [failed k] is whether the remaster has failed
    when its bucket number [k] is reached.  The flag says that the end was
    reached. *)
Fixpoint buckets_loop (abort : Z) (failed : nat -> bool) (k : nat) (hs : list Z) (loc : loctab) (c : lock_collector) :
    outcome (bool * lock_collector) :=
  match hs with
  | [] => Ok (true, c)
  | h :: hs' =>
      if lo_failed c || failed k then Ok (false, c)
      else
        b ← get_bucket loc h;
        c ← bucket_loop (Z.to_nat (bk_count b)) abort loc (bk_first b) c;
        buckets_loop abort failed (S k) hs' loc c
  end.

(** [drc_lock_res_recovery] on the buckets [start], .., [start + count - 1]. *)
Definition drc_lock_res_recovery (abort : Z) (failed : nat -> bool) (start count : Z) (loc : loctab) (c : lock_collector) : outcome lock_collector :=
  '(ended, c) ← buckets_loop abort failed 0 (seqZ start count) loc (drc_reset_lock_batch_buf c);
  if negb ended then Ok c else '(_, c) ← drc_send_last_lock_info c; Ok c.

(** [drc_handle_lock_res_recovery]: the threads up to the first that cannot be
    created, one after the other. *)
Fixpoint rcy_lock_threads (i : nat) (jobs : list (Z * Z)) (created : nat -> status) (abort : Z) (failed : nat -> nat -> bool) (loc : loctab)
    (c : lock_collector) : outcome (status * lock_collector) :=
  match jobs with
  | [] => Ok (OG_SUCCESS, c)
  | (start, count) :: jobs' =>
      if bool_decide (created i = OG_ERROR) then Ok (OG_ERROR, lo_fail c)
      else
        c ← drc_lock_res_recovery abort (failed i) start count loc c;
        rcy_lock_threads (S i) jobs' created abort failed loc c
  end.
Definition drc_handle_lock_res_recovery (threads : Z) (created : nat -> status) (abort : Z) (failed : nat -> nat -> bool) (loc : loctab)
    (c : lock_collector) : outcome (status * lock_collector) :=
  rcy_lock_threads 0 (rcy_job threads (bucket_num loc) <$> seqZ 0 threads) created abort failed loc c.

(** ** The new master *)

(** [drc_check_recovery_lock_res_msg]. *)
Definition drc_check_recovery_lock_res_msg (x : lock_msg) : bool :=
  (sizeof_rcy_lock_msg <=? lm_size x) && (sizeof_rcy_lock_msg + lm_count x * sizeof_rcy_lock =? lm_size x).

(** The loop of [drc_process_recovery_lock_res]. *)
Fixpoint rcy_locks (rls : list rcy_lock) (inst : Z) (t : ltab) : outcome ltab :=
  match rls with
  | [] => Ok t
  | rl :: rls' => '(_, t) ← drc_rcy_lock_res_info signed pad vc rl inst t; rcy_locks rls' inst t
  end.

(** [drc_process_recovery_lock_res]: the answer is whether the sender is
    told; [max] is what the own [g_drc_lock_batch_buf] has as [max_count]. *)
Definition drc_process_recovery_lock_res (node_count max : Z) (x : lock_msg) (t : ltab) : outcome (bool * ltab) :=
  if negb (drc_check_recovery_lock_res_msg x) then Ok (false, t)
  else if (max <? lm_count x) || (node_count <=? 2) then Ok (false, t)
  else if negb (lm_len x =? lm_count x * sizeof_rcy_lock) || negb (lm_size x =? sizeof_rcy_lock_msg + sizeof_rcy_lock * lm_count x) then Ok (false, t)
  else t ← rcy_locks (take (Z.to_nat (lm_count x)) (lm_locks x)) (lm_src x) t; Ok (true, t).
End CollectLocks.
