(* ===== verification/DrcRecoverLockThm.v ===== *)
(** What the reports of locks make of the catalogue: the walk over the local
    locks reports each of them once, and the new master enters the reports as
    long as no two of them make the same lock anew. *)

From S2P Require Import Prelude DrcBitmap DrcPool DrcResMap DrcGlobalRes DrcQueue DrcTable DrcReform DrcMapTab DrcPart DrcLock DrcLockInv.
From S2P Require Import DrcLockThm DrcLocal DrcRecover DrcRecoverThm DrcRecoverLock.

#[local] Notation len l := (Z.of_nat (length l)).

(** ** The pool of locks keeps its size *)
Section LockNum.
Context (signed : bool) (pad : list Z).
Implicit Types (t : ltab) (d : drid).

Lemma lock_put_num t t' i b : tb_put t i b = Ok t' -> lcap t' = lcap t.
Proof. unfold tb_put. destruct (gr_put _ _ _) eqn:E; cbn; [|done]. intros [= <-]. exact (gr_put_num _ _ _ _ E). Qed.

Lemma create_lock_num t t' d : drc_create_lock_res signed pad d t = Ok (Some t') -> lcap t' = lcap t.
Proof.
  unfold drc_create_lock_res, tb_alloc. destruct (gr_alloc _) as [[i g]|] eqn:E; [|done]. cbn [mbind outcome_bind].
  destruct (i =? _); [done|]. destruct (gr_fill _ _ _) as [g1|] eqn:E1; [|done]. cbn [mbind outcome_bind].
  destruct (gr_map_add _ _ _) as [g2|] eqn:E2; [|done]. cbn [mbind outcome_bind].
  destruct (gr_list_add _ _ _) as [g3|] eqn:E3; [|done]. cbn [mbind outcome_bind]. intros [= <-].
  apply gr_alloc_num in E. apply gr_fill_num in E1. apply gr_map_add_num in E2. apply gr_list_add_num in E3. unfold lcap. cbn in *.
  unfold gr_num in *. congruence.
Qed.

Lemma claim_lock_num vc d c v b t ret t' : drc_claim_lock_owner signed pad vc d c v b t = Ok (ret, t') -> lcap t' = lcap t.
Proof.
  unfold drc_claim_lock_owner. destruct (_ && _); [by intros [= _ <-]|]. destruct (lock_lookup _ _ _ _) as [[i|]|]; cbn [mbind outcome_bind]; [|done|done].
  destruct (tb_get t i); [|done]. cbn [mbind outcome_bind]. destruct (claim_on_lock _ _ _) as [[s x]|]; [|done]. cbn [mbind outcome_bind].
  destruct (tb_put _ _ _) as [t1|] eqn:E; [|done]. cbn [mbind outcome_bind]. intros [= _ <-]. exact (lock_put_num _ _ _ _ E).
Qed.

Lemma rcy_lock_num vc rl inst t ret t' : drc_rcy_lock_res_info signed pad vc rl inst t = Ok (ret, t') -> lcap t' = lcap t.
Proof.
  unfold drc_rcy_lock_res_info. set (o := lock_lookup _ _ t _). destruct o as [o|]; [|done]. cbn [mbind outcome_bind].
  set (mk := match o with Some _ => _ | None => _ end). assert (forall x, mk = Ok (Some x) -> lcap x = lcap t) as Hmk.
  { intros x. unfold mk. destruct o as [i|]; [|apply create_lock_num]. destruct (tb_get t i); [|done]. cbn [mbind outcome_bind].
    destruct (mode_compatible _ _); [|done]. cbn [mbind outcome_bind]. destruct (_ || _); [done|]. by intros [= <-]. }
  clearbody mk. destruct mk as [[x|]|]; cbn [mbind outcome_bind]; [specialize (Hmk x eq_refl)|by intros [= _ <-]|done].
  destruct (lock_lookup _ _ x _) as [[i|]|]; cbn [mbind outcome_bind]; [|by intros [= _ <-]|done].
  destruct (tb_get x i); [|done]. cbn [mbind outcome_bind]. destruct (tb_put _ _ _) as [t1|] eqn:E1; [|done]. cbn [mbind outcome_bind].
  destruct (drc_claim_lock_owner _ _ _ _ _ _ _ _) as [[r t2]|] eqn:E2; [|done]. cbn [mbind outcome_bind]. intros [= _ <-].
  rewrite (claim_lock_num _ _ _ _ _ _ _ _ E2), (lock_put_num _ _ _ _ E1). done.
Qed.
End LockNum.

(** ** A catalogue made of reports *)

(** What the lock [ab] with identifier [d] must say after the reports [rs]. *)
Record lock_rebuilt (d : drid) (rs : list (Z * rcy_lock)) (ab : alock) : Prop := {
  lb_holders : forall i, bm_mem (lk_granted_map ab) i <-> exists m, (i, mk_rlock d m) ∈ rs;
  lb_mode : forall i m, (i, mk_rlock d m) ∈ rs -> lk_mode ab = m;
  lb_idle : inst_id (lk_converting ab) = OG_INVALID_ID8;
}.

(** Every instance reports a lock once, in a mode; two holders share it. *)
Record lreports_ok (rs : list (Z * rcy_lock)) : Prop := {
  lp_inst : forall i rl, (i, rl) ∈ rs -> is_inst i;
  lp_mode : forall i rl, (i, rl) ∈ rs -> real_mode (rl_lock_mode rl);
  lp_once : NoDup ((fun r => (r.1, rl_res_id r.2)) <$> rs);
  lp_shared : forall i j d m m', (i, mk_rlock d m) ∈ rs -> (j, mk_rlock d m') ∈ rs -> i <> j -> m = DRC_LOCK_SHARE;
}.

(** The catalogue [A] is [A0] with the locks of the reports [rs]. *)
Definition held (A0 : lock_catalogue) (rs : list (Z * rcy_lock)) (A : lock_catalogue) : Prop := forall d,
  (A !! d = A0 !! d /\ forall i m, (i, mk_rlock d m) ∉ rs) \/
  ((exists i m, (i, mk_rlock d m) ∈ rs) /\ exists ab, A !! d = Some ab /\ lock_rebuilt d rs ab).

Lemma held_nil A0 : held A0 [] A0.
Proof. intros d. left. split; [done|]. intros i m. apply not_elem_of_nil. Qed.

#[export] Instance lreports_ok_perm : Proper ((≡ₚ) ==> iff) lreports_ok.
Proof.
  assert (forall rs rs', rs ≡ₚ rs' -> lreports_ok rs -> lreports_ok rs') as Hone.
  { intros rs rs' P [H1 H2 H3 H4]. split; [| |by rewrite <- P|]; setoid_rewrite <- P; done. }
  intros rs rs' P. split; apply Hone; by rewrite P.
Qed.

#[export] Instance held_perm : Proper (eq ==> (≡ₚ) ==> eq ==> iff) held.
Proof.
  assert (forall A0 rs rs' A, rs ≡ₚ rs' -> held A0 rs A -> held A0 rs' A) as Hone.
  { intros A0 rs rs' A P H d. destruct (H d) as [[? Hn]|[Hy (ab & ? & [L1 L2 L3])]]; [left|right].
    - split; [done|]. intros i m. rewrite <- P. apply Hn.
    - split; [setoid_rewrite <- P; done|]. exists ab. split; [done|]. split; [| |done]; setoid_rewrite <- P; done. }
  intros A0 ? <- rs rs' P A ? <-. split; apply Hone; by rewrite P.
Qed.

Lemma lreports_ok_app rs rs' : lreports_ok (rs ++ rs') -> lreports_ok rs.
Proof.
  intros [H1 H2 H3 H4]. rewrite fmap_app, NoDup_app in H3. split; [| |by apply H3|].
  - intros i rl Hi. apply (H1 i rl), elem_of_app. by left.
  - intros i rl Hi. apply (H2 i rl), elem_of_app. by left.
  - intros i j d m m' Hi Hj. apply (H4 i j d m m'); apply elem_of_app; by left.
Qed.

(** The last report is about a lock that its sender has not reported. *)
Lemma lreports_ok_last rs i rl : lreports_ok (rs ++ [(i, rl)]) ->
  is_inst i /\ real_mode (rl_lock_mode rl) /\ (forall m, (i, mk_rlock (rl_res_id rl) m) ∉ rs) /\
  (forall j m, (j, mk_rlock (rl_res_id rl) m) ∈ rs -> m = DRC_LOCK_SHARE /\ rl_lock_mode rl = DRC_LOCK_SHARE).
Proof.
  intros [H1 H2 H3 H4]. assert ((i, rl) ∈ rs ++ [(i, rl)]) as Hin by (apply elem_of_app; right; by left).
  assert (forall m, (i, mk_rlock (rl_res_id rl) m) ∉ rs) as Hno.
  { intros m Hm. rewrite fmap_app, NoDup_app in H3. destruct H3 as (_ & H3 & _). apply (H3 (i, rl_res_id rl)); [|by left].
    apply list_elem_of_fmap. by exists (i, mk_rlock (rl_res_id rl) m). }
  split_and!; [by eapply H1|by eapply H2|done|]. intros j m Hm. assert (j <> i) as Hne by (intros ->; by eapply Hno).
  assert ((j, mk_rlock (rl_res_id rl) m) ∈ rs ++ [(i, rl)]) as Hm' by (apply elem_of_app; by left).
  destruct rl as [d m0]. cbn in *. split; [eapply (H4 j i d); done|eapply (H4 i j d); done].
Qed.

(** Entering one more holder. *)
Lemma held_enter A0 rs A i rl ab ab' : lreports_ok (rs ++ [(i, rl)]) -> held A0 rs A -> A0 !! rl_res_id rl = None ->
  ab = default (new_master_res [] (rl_res_id rl)) (A !! rl_res_id rl) -> holder_entered i (rl_lock_mode rl) ab ab' ->
  held A0 (rs ++ [(i, rl)]) (<[rl_res_id rl := ab']> A).
Proof.
  intros RO H H0 Hab (Em & Eg & Ei) d. destruct (lreports_ok_last _ _ _ RO) as (_ & _ & _ & Hsh). destruct rl as [d0 m0]. cbn in *.
  destruct (decide (d = d0)) as [->|Hne].
  - right. split; [exists i, m0; apply elem_of_app; right; by left|]. exists ab'. split; [apply lookup_insert_eq|].
    assert (forall j, bm_mem (lk_granted_map ab) j <-> exists m, (j, mk_rlock d0 m) ∈ rs) as Hold.
    { destruct (H d0) as [[E Hn]|[_ (x & Hx & L)]].
      - rewrite E, H0 in Hab. subst ab. cbn. intros j. split; [|by intros (m & Hm%Hn)].
        intros Hj. by apply (proj1 (bm_zero 0 is_u64_0) eq_refl) in Hj.
      - rewrite Hx in Hab. cbn in Hab. subst x. apply (lb_holders _ _ _ L). }
    split; [| |done].
    + intros j. rewrite Eg, Hold. split.
      * intros [->|[m Hm]]; [exists m0; apply elem_of_app; right; by left|exists m; apply elem_of_app; by left].
      * intros (m & [Hm|Hm]%elem_of_app); [right; by exists m|left]. apply list_elem_of_singleton in Hm. congruence.
    + intros j m [Hm|Hm]%elem_of_app; [destruct (Hsh _ _ Hm) as [-> ?]; congruence|]. apply list_elem_of_singleton in Hm. congruence.
  - rewrite lookup_insert_ne by done. assert (forall j m, (j, mk_rlock d m) ∈ rs ++ [(i, mk_rlock d0 m0)] <-> (j, mk_rlock d m) ∈ rs) as Hsame.
    { intros j m. rewrite elem_of_app, list_elem_of_singleton. split; [intros [?|?]; congruence|by left]. }
    destruct (H d) as [[E Hn]|[Hy (x & Hx & [L1 L2 L3])]]; [left|right].
    + split; [done|]. intros j m. rewrite Hsame. apply Hn.
    + split; [setoid_rewrite Hsame; done|]. exists x. split; [done|]. split; [| |done]; setoid_rewrite Hsame; done.
Qed.

(** ** One report *)
Section Report.
Context (signed : bool) (pad : list Z) (vc : view) (F Sp : gset Z) (N : Z).
#[local] Notation lock_inv := (lock_inv signed pad).

(** The table [t] has room for [N] locks and holds [A0] and the reports [rs]. *)
Record holds (A0 : lock_catalogue) (rs : list (Z * rcy_lock)) (t : ltab) : Prop := {
  hd_cap : lcap t = N;
  hd_inv : exists A f am, lock_inv t A f F Sp am /\ held A0 rs A /\ (size A <= size A0 + length rs)%nat;
}.

Lemma size_insert_le (A : lock_catalogue) d ab : (size (<[d := ab]> A) <= S (size A))%nat.
Proof. destruct (A !! d) eqn:E; [rewrite map_size_insert_Some by done|rewrite map_size_insert_None by done]; lia. Qed.

(** Nothing the other holders have is in conflict with the report. *)
Lemma held_no_conflict A0 rs A i rl : lreports_ok (rs ++ [(i, rl)]) -> held A0 rs A -> A0 !! rl_res_id rl = None ->
  ~ holder_conflict i (rl_lock_mode rl) (default (new_master_res [] (rl_res_id rl)) (A !! rl_res_id rl)) /\
  forall ab, A !! rl_res_id rl = Some ab -> inst_id (lk_converting ab) = OG_INVALID_ID8.
Proof.
  intros RO H H0. destruct (lreports_ok_last _ _ _ RO) as (_ & _ & Hno & Hsh).
  destruct (H (rl_res_id rl)) as [[E Hn]|[(j & m & Hj) (ab & E & L)]].
  - rewrite E, H0. split; [|done]. cbn. intros [Hb|[Hc _]]; [|done]. by apply (proj1 (bm_zero 0 is_u64_0) eq_refl) in Hb.
  - rewrite E. cbn. split; [|intros ? [= <-]; apply L]. destruct (Hsh _ _ Hj) as [Hm Hm0]. intros [Hb|[_ [Hx|Hx]]].
    + apply (lb_holders _ _ _ L) in Hb as (m' & Hb). by eapply Hno.
    + by rewrite Hm0 in Hx.
    + rewrite (lb_mode _ _ _ L _ _ Hj), Hm in Hx. done.
Qed.

Lemma rcy_lock_holds A0 rs t i rl : holds A0 rs t -> lreports_ok (rs ++ [(i, rl)]) -> A0 !! rl_res_id rl = None ->
  Z.of_nat (size A0) + Z.of_nat (size Sp) + len rs < N ->
  exists t', drc_rcy_lock_res_info signed pad vc rl i t = Ok (OG_SUCCESS, t') /\ holds A0 (rs ++ [(i, rl)]) t'.
Proof.
  intros [Hc (A & f & am & I & H & Hsz)] RO H0 Hroom. destruct (lreports_ok_last _ _ _ RO) as (Hi & Hm & _ & _).
  destruct (held_no_conflict _ _ _ _ _ RO H H0) as [Hno Hidle].
  destruct (rcy_lock_ok signed pad vc rl i t A f F Sp am I Hi Hm) as (ret & t' & A' & f' & am' & E & I' & Hk & Hr).
  { intros _. rewrite Hc. lia. }
  { intros ab Hab. apply (lo_idle _ (lv_ok _ _ _ _ _ _ _ _ I _ _ Hab)), Hidle, Hab. }
  cbv zeta in Hr. rewrite bool_decide_eq_false_2 in Hr by done. destruct Hr as [-> (ab' & Hab' & HE)]. exists t'. split; [done|].
  assert (A' = <[rl_res_id rl := ab']> A) as ->.
  { apply map_eq. intros d. destruct (decide (d = rl_res_id rl)) as [->|]; [by rewrite lookup_insert_eq|rewrite lookup_insert_ne by done; by apply Hk]. }
  split; [by rewrite (rcy_lock_num _ _ _ _ _ _ _ _ E)|]. eexists _, f', am'. split; [exact I'|]. split; [by eapply held_enter|].
  rewrite length_app. cbn [length]. pose proof (size_insert_le A (rl_res_id rl) ab'). lia.
Qed.

(** A batch. *)
Lemma rcy_locks_holds A0 i rls : forall rs t, holds A0 rs t -> lreports_ok (rs ++ (pair i <$> rls)) ->
  (forall rl, rl ∈ rls -> A0 !! rl_res_id rl = None) -> Z.of_nat (size A0) + Z.of_nat (size Sp) + len rs + len rls <= N ->
  exists t', rcy_locks signed pad vc rls i t = Ok t' /\ holds A0 (rs ++ (pair i <$> rls)) t'.
Proof.
  induction rls as [|rl rls IH]; intros rs t H RO H0 Hroom; cbn [rcy_locks]; [exists t; by rewrite app_nil_r|].
  rewrite fmap_cons in *. replace (rs ++ (i, rl) :: (pair i <$> rls)) with ((rs ++ [(i, rl)]) ++ (pair i <$> rls)) in * by (by rewrite <- app_assoc).
  cbn [length] in Hroom. destruct (rcy_lock_holds A0 rs t i rl H) as (t1 & -> & H1); [by eapply lreports_ok_app|apply H0; by left|lia|].
  cbn [mbind outcome_bind]. apply IH; [done|done|intros; apply H0; by right|]. rewrite length_app. cbn [length]. lia.
Qed.

(** The own instance, when the lock is not there. *)
Lemma recover_own_holds self sid stamp A0 rs t x : holds A0 rs t -> let rl := mk_rlock (ll_res_id x) (la_lock_mode (ll_latch x)) in
  lreports_ok (rs ++ [(self, rl)]) -> A0 !! ll_res_id x = None -> (forall i m, (i, mk_rlock (ll_res_id x) m) ∉ rs) ->
  Z.of_nat (size A0) + Z.of_nat (size Sp) + len rs < N ->
  exists t', recover_own signed pad self sid vc stamp x t = Ok t' /\ holds A0 (rs ++ [(self, rl)]) t'.
Proof.
  intros [Hc (A & f & am & I & H & Hsz)] rl RO H0 Hn Hroom. destruct (lreports_ok_last _ _ _ RO) as (Hi & Hm & _ & _).
  destruct (held_no_conflict _ _ _ _ _ RO H H0) as [Hno _]. change (rl_res_id rl) with (ll_res_id x) in *. change (rl_lock_mode rl) with (la_lock_mode (ll_latch x)) in *.
  assert (A !! ll_res_id x = None) as HA by (destruct (H (ll_res_id x)) as [[E _]|[(i & m & Hy) _]]; [congruence|by apply Hn in Hy]).
  rewrite HA in Hno. cbn [default from_option id] in Hno. unfold recover_own. rewrite (proj2 (Z.eqb_neq _ _)) by (destruct Hm as [-> | ->]; done).
  destruct (create_lock_ok signed pad _ _ _ _ _ _ _ I HA) as [[Hf _]|(j & t1 & E1 & I1)]; [unfold lcap in *; lia|]. rewrite E1. cbn [mbind outcome_bind].
  destruct (rcy_enter_ok signed pad vc (own_request self sid vc stamp (ll_res_id x) (la_lock_mode (ll_latch x))) sid _ self t1 _ _ _ _ _ _ _
    (fun _ => conj eq_refl eq_refl) I1 (lookup_insert_eq _ _ _) eq_refl Hi Hm Hno) as (k & b & t2 & t3 & f3 & ab' & E2 & E3 & E4 & E5 & I3 & HE).
  cbv zeta. cbn [from_option id]. rewrite E2. cbn [mbind outcome_bind]. rewrite E3. cbn [mbind outcome_bind]. rewrite E4. cbn [mbind outcome_bind]. rewrite E5.
  cbn [mbind outcome_bind]. exists t3. split; [done|]. rewrite insert_insert_eq in I3.
  split; [by rewrite (claim_lock_num _ _ _ _ _ _ _ _ _ _ E5), (lock_put_num _ _ _ _ E4), (create_lock_num _ _ _ _ _ E1)|].
  eexists _, f3, _. split; [exact I3|]. split; [eapply (held_enter A0 rs A self rl); try done; cbn; by rewrite HA|].
  rewrite length_app. cbn [length]. pose proof (size_insert_le A (ll_res_id x) ab'). lia.
Qed.
End Report.

(** ** The walk over the local locks *)
Section LockScan.
Context (signed : bool) (pad : list Z) (m : drc_part_mngr) (abort : Z).

Definition lock_master (d : drid) : Z := inst_at (part_map m) (lock_partid signed pad d).
Definition lock_remaster (d : drid) : Z := inst_at (target_part_map m) (lock_partid signed pad d).

(** What is reported of the local locks [l] to the new master [dst], and what
    the new master [self] enters of its own. *)
Definition to_report (dst : Z) (x : local_lock) : Prop :=
  lock_master (ll_res_id x) = abort /\ lock_remaster (ll_res_id x) = dst /\ reported_mode x <> DRC_LOCK_NULL.
Definition to_enter (self : Z) (x : local_lock) : Prop :=
  lock_master (ll_res_id x) = abort /\ lock_remaster (ll_res_id x) = self /\ la_lock_mode (ll_latch x) <> DRC_LOCK_NULL.
#[global] Instance to_report_dec dst x : Decision (to_report dst x) := ltac:(unfold to_report; apply _).
#[global] Instance to_enter_dec self x : Decision (to_enter self x) := ltac:(unfold to_enter; apply _).
Definition lock_reports (dst : Z) (l : list local_lock) : list rcy_lock :=
  (fun x => mk_rlock (ll_res_id x) (reported_mode x)) <$> filter (to_report dst) l.
Definition own_reports (self : Z) (l : list local_lock) : list rcy_lock :=
  (fun x => mk_rlock (ll_res_id x) (la_lock_mode (ll_latch x))) <$> filter (to_enter self) l.

Lemma lock_reports_app dst l l' : lock_reports dst (l ++ l') = lock_reports dst l ++ lock_reports dst l'.
Proof. unfold lock_reports. by rewrite filter_app, fmap_app. Qed.
Lemma own_reports_app self l l' : own_reports self (l ++ l') = own_reports self l ++ own_reports self l'.
Proof. unfold own_reports. by rewrite filter_app, fmap_app. Qed.
Lemma lock_reports_one dst x :
  lock_reports dst [x] = if decide (to_report dst x) then [mk_rlock (ll_res_id x) (reported_mode x)] else [].
Proof. unfold lock_reports. rewrite filter_cons. by case_decide. Qed.
Lemma own_reports_one self x :
  own_reports self [x] = if decide (to_enter self x) then [mk_rlock (ll_res_id x) (la_lock_mode (ll_latch x))] else [].
Proof. unfold own_reports. rewrite filter_cons. by case_decide. Qed.

(** What messages say to one instance. *)
Definition locks_to (d : Z) (msgs : list lock_msg) : list rcy_lock := concat (lm_locks <$> filter (fun x => lm_dst x = d) msgs).
Lemma locks_to_app d l l' : locks_to d (l ++ l') = locks_to d l ++ locks_to d l'.
Proof. unfold locks_to. by rewrite filter_app, fmap_app, concat_app. Qed.

Context (self : Z).
Definition lock_msg_ok (x : lock_msg) : Prop :=
  exists dst rls, x = lock_msg_of self dst rls /\ is_inst dst /\ dst <> self /\ 0 < len rls <= 1071.

Context (sid : Z) (vc : view) (send : nat -> status) (stamp : drid -> Z * Z).
Context (M : masters_ok m) (self_ok : is_inst self) (send_ok : forall k, send k = OG_SUCCESS).
Context (F Sp : gset Z) (N : Z) (A0 : lock_catalogue) (c0 : lock_collector).

(** Since [c0] the local locks [L] have been seen, the messages [new] sent
    and the own locks entered. *)
Record walked (c : lock_collector) (L : list local_lock) (new : list lock_msg) : Prop := {
  wk_sent : lo_sent c = lo_sent c0 ++ new;
  wk_msgs : Forall lock_msg_ok new;
  wk_tasks : lo_tasks c = lo_tasks c0 + len new;
  wk_tab : holds signed pad F Sp N A0 (pair self <$> own_reports self L) (lo_tab c);
  wk_max : lo_max c = 1071;
  wk_failed : lo_failed c = false;
}.
(** What is not sent is in a batch. *)
Record batched (c : lock_collector) (L : list local_lock) (new : list lock_msg) : Prop := {
  bt_walked : walked c L new;
  bt_batch : forall d, is_inst d -> d <> self -> exists b, lo_batch c !! d = Some b /\ len b < 1071 /\ locks_to d new ++ b = lock_reports d L;
  bt_self : lo_batch c !! self = Some [];
}.

Lemma walked_batch c L new x : walked c L new -> walked (lo_set_batch x c) L new.
Proof. by intros []. Qed.

Lemma lock_send_ok c L new dst b : walked c L new -> is_inst dst -> dst <> self -> lo_batch c !! dst = Some b -> 0 < len b <= 1071 ->
  exists c', drc_send_lock_info self send dst c = Ok (OG_SUCCESS, c') /\ walked c' L (new ++ [lock_msg_of self dst b]) /\ lo_batch c' = lo_batch c.
Proof.
  intros [W1 W2 W3 W4 W5 W6] Hd Hne Hb Hl. unfold drc_send_lock_info, rd. rewrite Hb. cbn [mbind outcome_bind]. rewrite send_ok, bool_decide_false by done.
  eexists. split; [done|]. split; [|done]. split; cbn; try done; [by rewrite W1, app_assoc| |rewrite W3, length_app; cbn; lia].
  apply Forall_app. split; [done|]. constructor; [|constructor]. by exists dst, b.
Qed.

Lemma locks_to_one d dst b : locks_to d [lock_msg_of self dst b] = if decide (dst = d) then b else [].
Proof. unfold locks_to. rewrite filter_cons. cbn [lm_dst lock_msg_of]. case_decide; cbn; by rewrite ?app_nil_r. Qed.

(** A lock for another instance. *)
Lemma collect_send_ok c L new x : batched c L new -> lock_master (ll_res_id x) = abort -> let dst := lock_remaster (ll_res_id x) in
  is_inst dst -> dst <> self ->
  exists ret c' new', drc_collect_and_send_lock_info self send x dst c = Ok (ret, c') /\ batched c' (L ++ [x]) new'.
Proof.
  intros [W B Bs] Ha dst Hd Hne. unfold drc_collect_and_send_lock_info.
  assert (forall d, d <> dst -> lock_reports d (L ++ [x]) = lock_reports d L) as Hother.
  { intros d Hnd. rewrite lock_reports_app, lock_reports_one, decide_False; [apply app_nil_r|]. intros (_ & <- & _). by destruct Hnd. }
  assert (own_reports self (L ++ [x]) = own_reports self L) as Hown.
  { rewrite own_reports_app, own_reports_one, decide_False; [apply app_nil_r|]. intros (_ & Hx & _). by destruct Hne. }
  assert (forall c' new', walked c' L new' -> walked c' (L ++ [x]) new') as Hw by (intros c' new' []; split; try done; by rewrite Hown).
  destruct (Z.eqb_spec (reported_mode x) DRC_LOCK_NULL) as [Hz|Hz].
  { eexists _, c, new. split; [done|]. split; [by apply Hw| |done]. intros d Hid Hds. destruct (decide (d = dst)) as [->|]; [|rewrite Hother by done; by apply B].
    rewrite lock_reports_app, lock_reports_one, decide_False, app_nil_r by (by intros (_ & _ & ?)). by apply B. }
  destruct (B dst Hd Hne) as (b & Hb & Hl & Hg). unfold rd at 1. rewrite Hb. cbn [mbind outcome_bind]. set (b' := b ++ [_]).
  assert (len b' = len b + 1) as Hl' by (unfold b'; rewrite length_app; cbn; lia).
  assert (locks_to dst new ++ b' = lock_reports dst (L ++ [x])) as Hr.
  { unfold b'. rewrite app_assoc, Hg, lock_reports_app, lock_reports_one. by rewrite decide_True. }
  unfold DRC_BATCH_BUF_SIZE, sizeof_rcy_lock. rewrite (proj2 (Z.ltb_ge _ _)) by lia.
  set (c1 := lo_set_batch _ c). assert (walked c1 L new) as W1 by (by apply walked_batch).
  change (lo_max c1) with (lo_max c). rewrite (wk_max _ _ _ W). destruct (Z.leb_spec 1071 (len b')) as [Hf|Hf].
  - destruct (lock_send_ok c1 L new dst b' W1 Hd Hne) as (c2 & -> & W2 & Hb2); [apply lookup_insert_eq|lia|].
    cbn [mbind outcome_bind]. rewrite bool_decide_false by done. eexists _, _, _. split; [done|]. split; [by apply Hw, walked_batch| |].
    + intros d Hid Hds. cbn [lo_batch lo_set_batch]. rewrite Hb2. rewrite locks_to_app, locks_to_one. case_decide as Ed.
      * subst d. exists []. rewrite lookup_insert_eq. split_and!; [done|cbn; lia|by rewrite app_nil_r].
      * destruct (B d Hid Hds) as (y & ? & ? & ?). exists y. rewrite lookup_insert_ne by done. unfold c1. cbn [lo_batch lo_set_batch].
        rewrite lookup_insert_ne, app_nil_r, Hother by done. done.
    + cbn [lo_batch lo_set_batch]. rewrite Hb2. rewrite lookup_insert_ne by done. unfold c1. cbn [lo_batch lo_set_batch]. by rewrite lookup_insert_ne.
  - eexists _, c1, new. split; [done|]. split; [by apply Hw| |unfold c1; cbn [lo_batch lo_set_batch]; by rewrite lookup_insert_ne].
    intros d Hid Hds. unfold c1. cbn [lo_batch lo_set_batch]. destruct (decide (d = dst)) as [->|Ed].
    + exists b'. rewrite lookup_insert_eq. split_and!; [done|lia|done].
    + destruct (B d Hid Hds) as (y & ? & ? & ?). exists y. rewrite lookup_insert_ne, Hother by done. done.
Qed.

Context (clean : forall d, lock_master d = abort -> A0 !! d = None).

(** The own locks [L] can be entered. *)
Definition own_ok (L : list local_lock) : Prop :=
  lreports_ok (pair self <$> own_reports self L) /\ Z.of_nat (size A0) + Z.of_nat (size Sp) + len (own_reports self L) <= N.

Lemma own_ok_app L L' : own_ok (L ++ L') -> own_ok L.
Proof.
  unfold own_ok. rewrite own_reports_app, fmap_app, length_app. intros [RO ?]. split; [by eapply lreports_ok_app|lia].
Qed.

(** A lock for the own instance. *)
Lemma recover_own_ok c L new x : batched c L new -> own_ok (L ++ [x]) -> lock_master (ll_res_id x) = abort -> lock_remaster (ll_res_id x) = self ->
  exists t', recover_own signed pad self sid vc stamp x (lo_tab c) = Ok t' /\ batched (lo_set_tab t' c) (L ++ [x]) new.
Proof.
  intros [[W1 W2 W3 W4 W5 W6] B Bs] [RO Hroom] Ha Hs. rewrite own_reports_app, own_reports_one in RO, Hroom.
  assert (forall d, d <> self -> lock_reports d (L ++ [x]) = lock_reports d L) as Hother.
  { intros d Hnd. rewrite lock_reports_app, lock_reports_one, decide_False; [apply app_nil_r|]. intros (_ & <- & _). by destruct Hnd. }
  assert (forall d, is_inst d -> d <> self -> exists b, lo_batch c !! d = Some b /\ len b < 1071 /\ locks_to d new ++ b = lock_reports d (L ++ [x])) as B'.
  { intros d Hd Hne. rewrite Hother by done. by apply B. }
  case_decide as Hx.
  - rewrite fmap_app, length_app in *. cbn [fmap list_fmap length] in *. set (rl := mk_rlock _ _) in RO.
    destruct (recover_own_holds signed pad vc F Sp N self sid stamp A0 _ _ x W4 RO (clean _ Ha)) as (t' & E & H').
    + intros i mo Hin. destruct (lreports_ok_last _ _ _ RO) as (_ & _ & Hno & _). apply (Hno mo). apply list_elem_of_fmap in Hin as (y & [= -> <-] & Hy).
      apply list_elem_of_fmap. by eexists.
    + rewrite length_fmap. lia.
    + exists t'. split; [done|]. split; [|done|done]. split; cbn; try done. rewrite own_reports_app, own_reports_one, decide_True by done.
      by rewrite fmap_app.
  - assert (la_lock_mode (ll_latch x) = DRC_LOCK_NULL) as Hz by (destruct (decide (la_lock_mode (ll_latch x) = DRC_LOCK_NULL)); [done|by destruct Hx]).
    unfold recover_own. rewrite Hz. cbn [Z.eqb DRC_LOCK_NULL]. exists (lo_tab c). split; [done|]. split; [|done|done]. split; cbn; try done.
    by rewrite own_reports_app, own_reports_one, decide_False, app_nil_r.
Qed.

Lemma lock_masters d : drc_get_lock_master_id signed pad m d = Ok (lock_master d) /\
  drc_get_lock_remaster_id signed pad m d = Ok (lock_remaster d) /\ is_inst (lock_remaster d).
Proof.
  destruct (mo_old _ M _ (lock_partid_range signed pad d)) as (p & Hp & Hi). destruct (mo_new _ M _ (lock_partid_range signed pad d)) as (q & Hq & Hj).
  unfold drc_get_lock_master_id, part_master, drc_get_lock_remaster_id, rd, lock_master, lock_remaster, inst_at. by rewrite Hp, Hq.
Qed.

Lemma recover_lock_ok c L new x : batched c L new -> own_ok (L ++ [x]) ->
  exists c' new', recover_lock signed pad self sid m vc send stamp abort x c = Ok c' /\ batched c' (L ++ [x]) new'.
Proof.
  intros Bt Ho. unfold recover_lock. destruct (lock_masters (ll_res_id x)) as (-> & -> & Hi). cbn [mbind outcome_bind].
  destruct (Z.eqb_spec (lock_master (ll_res_id x)) abort) as [Ha|Ha].
  - unfold drc_recovery_lockinfo. destruct (Z.eqb_spec self (lock_remaster (ll_res_id x))) as [Hs|Hs].
    + destruct (recover_own_ok c L new x Bt Ho Ha (eq_sym Hs)) as (t' & -> & B'). cbn [mbind outcome_bind]. by eexists _, new.
    + destruct (collect_send_ok c L new x Bt Ha Hi (not_eq_sym Hs)) as (ret & c' & new' & -> & B'). cbn [mbind outcome_bind]. by exists c', new'.
  - exists c, new. split; [done|]. destruct Bt as [[W1 W2 W3 W4 W5 W6] B Bs]. split; [|intros d Hd Hne|done].
    + split; try done. rewrite own_reports_app, own_reports_one, decide_False, app_nil_r by (by intros (? & _)). done.
    + rewrite lock_reports_app, lock_reports_one, decide_False, app_nil_r by (by intros (? & _)). by apply B.
Qed.

(** The resources along a bucket, in the order of its links. *)
Fixpoint walk (n : nat) (p : drc_res_pool (flat_item local_lock)) (idx : Z) : list local_lock :=
  match n with
  | O => []
  | S n' => match addr p !! idx with Some a => fi_body a :: walk n' p (fi_next a) | None => [] end
  end.
Definition bucket_locks (loc : loctab) (h : Z) : list local_lock :=
  match buckets loc !! h with Some b => walk (Z.to_nat (bk_count b)) (res_pool loc) (bk_first b) | None => [] end.

Lemma bucket_loop_ok loc l : forall idx c L new, chain (addr (res_pool loc)) idx l OG_INVALID_ID32 -> batched c L new ->
  own_ok (L ++ walk (length l) (res_pool loc) idx) ->
  exists c' new', bucket_loop signed pad self sid m vc send stamp (length l) abort loc idx c = Ok c' /\
    batched c' (L ++ walk (length l) (res_pool loc) idx) new'.
Proof.
  induction l as [|i l IH]; intros idx c L new Hc Bt Ho; cbn [length bucket_loop walk] in *; [exists c, new; by rewrite app_nil_r|].
  destruct Hc as (-> & a & Ha & Hc). unfold load. rewrite Ha in *. cbn [mbind outcome_bind].
  replace (L ++ fi_body a :: walk (length l) (res_pool loc) (fi_next a)) with ((L ++ [fi_body a]) ++ walk (length l) (res_pool loc) (fi_next a)) in *
    by (by rewrite <- app_assoc).
  destruct (recover_lock_ok c L new (fi_body a) Bt) as (c1 & new1 & -> & B1); [by eapply own_ok_app|]. cbn [mbind outcome_bind]. by eapply IH.
Qed.

Context (loc : loctab) (Lm : gmap drid local_lock) (lam : gmap drid Z) (LSp : gset Z) (R : flat_rep (lock_hash signed pad) loc Lm lam LSp).

Lemma bucket_open h : 0 <= h < bucket_num loc -> exists b l, buckets loc !! h = Some b /\ Z.to_nat (bk_count b) = length l /\
  (l = [] \/ chain (addr (res_pool loc)) (bk_first b) l OG_INVALID_ID32) /\ NoDup l /\
  forall i, i ∈ l <-> exists k, lam !! k = Some i /\ fm_hash (lock_hash signed pad) loc k = h.
Proof.
  intros Hh. destruct (mw_bucket _ _ _ (fr_map _ _ _ _ _ R) h Hh) as (b & l & Hb & (Hn & Hc) & Hnd & Hin). exists b, l. split_and!; try done. lia.
Qed.

Lemma buckets_loop_ok failed : (forall k, failed k = false) -> forall hs k c L new, (forall h, h ∈ hs -> 0 <= h < bucket_num loc) -> batched c L new ->
  own_ok (L ++ concat (bucket_locks loc <$> hs)) ->
  exists c' new', buckets_loop signed pad self sid m vc send stamp abort failed k hs loc c = Ok (true, c') /\
    batched c' (L ++ concat (bucket_locks loc <$> hs)) new'.
Proof.
  intros Hf. induction hs as [|h hs IH]; intros k c L new Hr Bt Ho; cbn [buckets_loop]; [exists c, new; by rewrite app_nil_r|].
  rewrite (wk_failed _ _ _ (bt_walked _ _ _ Bt)), Hf. cbn [orb]. rewrite fmap_cons in *. cbn [concat] in *. rewrite app_assoc in *.
  destruct (bucket_open h) as (b & l & Hb & Hn & Hc & _); [apply Hr; by left|].
  assert (own_ok (L ++ bucket_locks loc h)) as Ho1 by (by eapply own_ok_app).
  assert (bucket_locks loc h = walk (length l) (res_pool loc) (bk_first b)) as Ebl by (unfold bucket_locks; by rewrite Hb, Hn).
  rewrite Ebl in *. unfold get_bucket. rewrite Hb. cbn [mbind outcome_bind]. rewrite Hn.
  assert (exists c1 new1, bucket_loop signed pad self sid m vc send stamp (length l) abort loc (bk_first b) c = Ok c1 /\
    batched c1 (L ++ walk (length l) (res_pool loc) (bk_first b)) new1) as (c1 & new1 & -> & B1).
  { destruct Hc as [->|Hc]; [exists c, new; cbn; by rewrite app_nil_r|by eapply bucket_loop_ok]. }
  cbn [mbind outcome_bind]. apply (IH (S k) c1 _ new1); [intros; apply Hr; by right|done|done].
Qed.

(** Everything has been sent. *)
Definition settled (c : lock_collector) (L : list local_lock) (new : list lock_msg) : Prop :=
  walked c L new /\ forall d, is_inst d -> d <> self -> locks_to d new = lock_reports d L.

Lemma send_last_ok L : forall insts c new, NoDup insts -> (forall d, d ∈ insts -> is_inst d) -> walked c L new -> lo_batch c !! self = Some [] ->
  (forall d, is_inst d -> d <> self -> exists b, lo_batch c !! d = Some b /\ len b < 1071 /\
    locks_to d new ++ (if decide (d ∈ insts) then b else []) = lock_reports d L) ->
  exists c' new', send_last self send insts c = Ok (OG_SUCCESS, c') /\ settled c' L new'.
Proof.
  induction insts as [|x insts IH]; intros c new Hnd Hin W Bs B; cbn [send_last].
  { exists c, new. split; [done|]. split; [done|]. intros d Hd Hne. destruct (B d Hd Hne) as (b & _ & _ & <-).
    rewrite decide_False by apply not_elem_of_nil. by rewrite app_nil_r. }
  apply NoDup_cons in Hnd as [Hx Hnd]. assert (forall d, d ∈ insts -> is_inst d) as Hin' by (intros; apply Hin; by right).
  assert (is_inst x) as Hix by (apply Hin; by left).
  assert (forall d (b : list rcy_lock), d <> x -> (if decide (d ∈ x :: insts) then b else []) = (if decide (d ∈ insts) then b else [])) as Hdec.
  { intros d b Hne. apply decide_ext. rewrite elem_of_cons. tauto. }
  destruct (decide (x = self)) as [->|Hxs].
  { unfold rd. rewrite Bs. cbn [mbind outcome_bind length Nat.eqb]. apply (IH c new); try done. intros d Hd Hne.
    destruct (B d Hd Hne) as (b & Hb). exists b. by rewrite <- Hdec. }
  destruct (B x Hix Hxs) as (b & Hb & Hl & Hg). unfold rd. rewrite Hb. cbn [mbind outcome_bind]. rewrite decide_True in Hg by left.
  destruct (Nat.eqb_spec (length b) 0) as [Hz|Hz].
  - apply (IH c new); try done. intros d Hd Hne. destruct (decide (d = x)) as [->|Hdx].
    + exists b. rewrite decide_False, app_nil_r by done. split_and!; try done. destruct b; [by rewrite app_nil_r in Hg|done].
    + destruct (B d Hd Hne) as (y & Hy). exists y. by rewrite <- Hdec.
  - destruct (lock_send_ok c L new x b W Hix Hxs Hb ltac:(lia)) as (c1 & -> & W1 & Hb1). cbn [mbind outcome_bind]. rewrite bool_decide_false by done.
    apply (IH c1 _ Hnd Hin' W1); [by rewrite Hb1|]. intros d Hd Hne. rewrite Hb1, locks_to_app, locks_to_one. destruct (decide (d = x)) as [->|Hdx].
    + exists b. rewrite decide_True, (decide_False (P := x ∈ insts)), app_nil_r by done. done.
    + destruct (B d Hd Hne) as (y & Hy). exists y. rewrite (decide_False (P := x = d)), app_nil_r, <- Hdec by congruence. done.
Qed.

Lemma send_last_lock_ok c L new : batched c L new -> exists c' new', drc_send_last_lock_info self send c = Ok (OG_SUCCESS, c') /\ settled c' L new'.
Proof.
  intros [W B Bs]. apply (send_last_ok L _ c new (NoDup_seqZ 0 OG_MAX_INSTANCES)); [|exact W|exact Bs|].
  - intros d Hd%elem_of_seqZ. exact Hd.
  - intros d Hd Hne. destruct (B d Hd Hne) as (b & Hb). exists b. rewrite decide_True; [exact Hb|]. apply elem_of_seqZ. exact Hd.
Qed.

(** A new thread begins with empty batches. *)
Lemma reset_batched c L new : settled c L new \/ (c = c0 /\ L = [] /\ new = [] /\ holds signed pad F Sp N A0 [] (lo_tab c0) /\ lo_failed c0 = false) ->
  batched (drc_reset_lock_batch_buf c) L new.
Proof.
  intros H. assert (walked (drc_reset_lock_batch_buf c) L new /\ forall d, is_inst d -> d <> self -> locks_to d new = lock_reports d L) as [W G].
  { destruct H as [[[] G]|(-> & -> & -> & H & Hf)]; [by split|]. split; [|done]. split; cbn; try done; [by rewrite app_nil_r|lia]. }
  split; [exact W| |].
  - intros d Hd Hne. exists []. rewrite app_nil_r. split; [exact (filled_lookup OG_MAX_INSTANCES [] d Hd)|]. split; [cbn; lia|by apply G].
  - exact (filled_lookup OG_MAX_INSTANCES [] self self_ok).
Qed.

(** [drc_lock_res_recovery]. *)
Lemma lock_res_recovery_eq failed start count c c1 ret c2 :
  buckets_loop signed pad self sid m vc send stamp abort failed 0 (seqZ start count) loc (drc_reset_lock_batch_buf c) = Ok (true, c1) ->
  drc_send_last_lock_info self send c1 = Ok (ret, c2) ->
  drc_lock_res_recovery signed pad self sid m vc send stamp abort failed start count loc c = Ok c2.
Proof.
  unfold drc_lock_res_recovery. generalize (drc_send_last_lock_info self send). intros g -> E. cbn [mbind outcome_bind negb]. by rewrite E.
Qed.

Lemma lock_res_recovery_ok failed start count c L new : (forall k, failed k = false) -> 0 <= start -> start + count <= bucket_num loc ->
  batched (drc_reset_lock_batch_buf c) L new -> own_ok (L ++ concat (bucket_locks loc <$> seqZ start count)) ->
  exists c' new', drc_lock_res_recovery signed pad self sid m vc send stamp abort failed start count loc c = Ok c' /\
    settled c' (L ++ concat (bucket_locks loc <$> seqZ start count)) new'.
Proof.
  intros Hf H0 Hn B Ho.
  destruct (buckets_loop_ok failed Hf (seqZ start count) 0 (drc_reset_lock_batch_buf c) L new) as (c1 & new1 & E1 & B1); [|exact B|exact Ho|].
  - intros h Hh%elem_of_seqZ. lia.
  - destruct (send_last_lock_ok c1 _ new1 B1) as (c2 & new2 & E2 & S2). exists c2, new2. split; [|exact S2]. by eapply lock_res_recovery_eq.
Qed.

(** The threads, one after the other. *)
Definition job_buckets (j : Z * Z) : list Z := seqZ j.1 j.2.
Definition job_ok (j : Z * Z) : Prop := 0 <= j.1 /\ 0 <= j.2 /\ j.1 + j.2 <= bucket_num loc.

Lemma rcy_lock_thread_ok created failed : (forall i, created i = OG_SUCCESS) -> (forall i k, failed i k = false) ->
  forall jobs i c L new j, Forall job_ok (j :: jobs) -> batched (drc_reset_lock_batch_buf c) L new ->
  own_ok (L ++ concat (bucket_locks loc <$> concat (job_buckets <$> j :: jobs))) ->
  exists c' new', rcy_lock_threads signed pad self sid m vc send stamp i (j :: jobs) created abort failed loc c = Ok (OG_SUCCESS, c') /\
    settled c' (L ++ concat (bucket_locks loc <$> concat (job_buckets <$> j :: jobs))) new'.
Proof.
  intros Hc Hf. induction jobs as [|j' jobs IH]; intros i c L new [a n] Hj B Ho; apply Forall_cons in Hj as [(H1 & H2 & H3) Hjs];
    cbn [fst snd] in *; rewrite fmap_cons in *; cbn [concat] in *; rewrite fmap_app, concat_app, app_assoc in *; cbn [rcy_lock_threads];
    (rewrite Hc, bool_decide_false by done).
  - destruct (lock_res_recovery_ok (failed i) a n c L new (Hf i) H1 H3 B) as (c1 & new1 & -> & S1); [by eapply own_ok_app|].
    cbn [mbind outcome_bind]. exists c1, new1. split; [done|]. cbn. by rewrite app_nil_r.
  - destruct (lock_res_recovery_ok (failed i) a n c L new (Hf i) H1 H3 B) as (c1 & new1 & -> & S1); [by eapply own_ok_app|].
    cbn [mbind outcome_bind]. apply (IH (S i) c1 _ new1 j'); [done| |done]. apply reset_batched. by left.
Qed.
End LockScan.

Lemma slice_seqZ bn a n : 0 <= a -> 0 <= n -> a + n <= bn -> slice (seqZ 0 bn) (a, n) = seqZ a n.
Proof.
  intros Ha Hn Hb. unfold slice. cbn [fst snd]. replace (seqZ 0 bn) with (seqZ 0 a ++ seqZ a n ++ seqZ (a + n) (bn - a - n)).
  2:{ replace bn with (a + (n + (bn - a - n))) at 2 by lia. rewrite !seqZ_app by lia. by rewrite Z.add_0_l. }
  rewrite drop_app_length' by (rewrite length_seqZ; lia). apply take_app_length'. rewrite length_seqZ. lia.
Qed.

Lemma rcy_job_range threads bn i : 0 < threads -> 0 <= bn -> 0 <= i < threads -> let j := rcy_job threads bn i in 0 <= j.1 /\ 0 <= j.2 /\ j.1 + j.2 <= bn.
Proof.
  intros Ht Hb Hi. unfold rcy_job. cbn [fst snd]. pose proof (Z.div_pos bn threads ltac:(lia) Ht) as Hp.
  pose proof (Z.mod_pos_bound bn threads Ht) as Hm. pose proof (Z.div_mod bn threads ltac:(lia)) as Hd. set (per := bn / threads) in *.
  assert (i * per <= (threads - 1) * per) by nia. destruct (Z.eqb_spec i (threads - 1)) as [->|]; nia.
Qed.

Lemma jobs_cover threads bn : 0 < threads -> 0 <= bn -> concat (job_buckets <$> (rcy_job threads bn <$> seqZ 0 threads)) = seqZ 0 bn.
Proof.
  intros Ht Hb. etransitivity; [|exact (slices_cover (seqZ 0 bn) threads Ht)]. rewrite length_seqZ, Z2Nat.id by done. f_equal. rewrite <- !list_fmap_compose.
  apply list_fmap_ext. intros _ i Hi%list_elem_of_lookup_2%elem_of_seqZ. unfold compose. destruct (rcy_job_range threads bn i Ht Hb ltac:(lia)) as (H1 & H2 & H3).
  destruct (rcy_job threads bn i) as [a n]. symmetry. by apply slice_seqZ.
Qed.

(** ** The order of the walk *)
Section Order.
Context (signed : bool) (pad : list Z) (loc : loctab) (Lm : gmap drid local_lock) (lam : gmap drid Z) (LSp : gset Z).
Context (R : flat_rep (lock_hash signed pad) loc Lm lam LSp).
#[local] Notation hash := (fm_hash (lock_hash signed pad) loc).

Definition local_order : list local_lock := concat (bucket_locks loc <$> seqZ 0 (bucket_num loc)).

Lemma slot_key k i : lam !! k = Some i -> exists a, addr (res_pool loc) !! i = Some a /\ Lm !! k = Some (fi_body a) /\ ll_res_id (fi_body a) = k.
Proof.
  intros Hi. destruct (fr_body _ _ _ _ _ R _ _ Hi) as (a & Ha & _ & Hb). exists a. split_and!; try done.
  destruct (mw_key _ _ _ (fr_map _ _ _ _ _ R) _ _ Hi) as (a' & Ha' & Hk). by replace a with a' by congruence.
Qed.

Lemma walk_slots l : forall idx e, chain (addr (res_pool loc)) idx l e -> NoDup l -> (forall i, i ∈ l -> exists k, lam !! k = Some i) ->
  let w := walk (length l) (res_pool loc) idx in
  NoDup (ll_res_id <$> w) /\ forall b, b ∈ w <-> exists k i, lam !! k = Some i /\ i ∈ l /\ Lm !! k = Some b.
Proof.
  induction l as [|i l IH]; intros idx e Hc Hnd Hin; cbn [length walk].
  { split; [constructor|]. intros b. split; [by intros ?%not_elem_of_nil|]. by intros (k & i & _ & ?%not_elem_of_nil & _). }
  destruct Hc as (-> & a & Ha & Hc). rewrite Ha. apply NoDup_cons in Hnd as [Hi Hnd]. destruct (Hin i) as [k Hk]; [by left|].
  destruct (slot_key k i Hk) as (a' & Ha' & Hb & Hid). replace a' with a in * by congruence.
  destruct (IH (fi_next a) e Hc Hnd) as [N1 E1]; [intros; apply Hin; by right|]. split.
  - rewrite fmap_cons. constructor; [|done]. intros (b & Hkb & (k' & i' & Hk' & Hi' & Hb')%E1)%list_elem_of_fmap.
    destruct (slot_key k' i' Hk') as (b' & _ & Hb2 & Hid'). assert (fi_body b' = b) as <- by congruence. replace k' with k in * by congruence. congruence.
  - intros b. rewrite elem_of_cons. split.
    + intros [->|(k' & i' & ? & ? & ?)%E1]; [exists k, i; split_and!; [done|by left|done]|exists k', i'; split_and!; [done|by right|done]].
    + intros (k' & i' & Hk' & [->|Hi']%elem_of_cons & Hb'); [left|right; apply E1; by exists k', i'].
      replace k' with k in * by (by eapply flat_inj). congruence.
Qed.

Lemma bucket_locks_ok h : 0 <= h < bucket_num loc -> NoDup (ll_res_id <$> bucket_locks loc h) /\
  forall b, b ∈ bucket_locks loc h <-> Lm !! ll_res_id b = Some b /\ hash (ll_res_id b) = h.
Proof.
  intros Hh. destruct (bucket_open signed pad loc Lm lam LSp R h Hh) as (b & l & Hb & Hn & Hc & Hnd & Hin).
  assert (NoDup (ll_res_id <$> bucket_locks loc h) /\ forall b, b ∈ bucket_locks loc h <-> exists k i, lam !! k = Some i /\ i ∈ l /\ Lm !! k = Some b)
    as [N E].
  { unfold bucket_locks. rewrite Hb, Hn. destruct Hc as [->|Hc].
    - cbn. split; [constructor|]. intros x. split; [by intros ?%not_elem_of_nil|]. by intros (k & i & _ & ?%not_elem_of_nil & _).
    - eapply walk_slots; [done|done|]. intros i (k & ? & _)%Hin. by exists k. }
  split; [done|]. intros x. rewrite E. split.
  - intros (k & i & Hk & (k' & Hk' & Hhash)%Hin & Hx). destruct (slot_key k i Hk) as (a & _ & Ha & Hid).
    assert (fi_body a = x) as <- by congruence. rewrite Hid. split; [done|]. by replace k with k' by (by eapply flat_inj).
  - intros [Hx Hhash]. destruct (fr_dom _ _ _ _ _ R (ll_res_id x)) as [i Hi]; [by eexists|]. exists (ll_res_id x), i. split_and!; try done.
    apply Hin. by exists (ll_res_id x).
Qed.

Lemma buckets_ids hs : NoDup hs -> (forall h, h ∈ hs -> 0 <= h < bucket_num loc) -> NoDup (ll_res_id <$> concat (bucket_locks loc <$> hs)).
Proof.
  induction hs as [|h hs IH]; intros Hnd Hr; [constructor|]. apply NoDup_cons in Hnd as [Hh Hnd]. rewrite fmap_cons. cbn [concat]. rewrite fmap_app.
  apply NoDup_app. split; [apply bucket_locks_ok, Hr; by left|]. split; [|apply IH; [done|intros; apply Hr; by right]].
  intros d (b & -> & Hb)%list_elem_of_fmap (b' & Hd & Hb')%list_elem_of_fmap. apply list_elem_of_In, in_concat in Hb' as (l & Hl & Hb').
  apply list_elem_of_In, list_elem_of_fmap in Hl as (h' & -> & Hh'). apply list_elem_of_In in Hb'.
  apply bucket_locks_ok in Hb as [_ E1]; [|apply Hr; by left]. apply bucket_locks_ok in Hb' as [_ E2]; [|apply Hr; by right].
  assert (h = h') as -> by congruence. done.
Qed.

(** Every local lock once. *)
Lemma local_order_ids : NoDup (ll_res_id <$> local_order).
Proof. apply buckets_ids; [apply NoDup_seqZ|]. intros h Hh%elem_of_seqZ. lia. Qed.

Lemma elem_of_local_order b : b ∈ local_order <-> Lm !! ll_res_id b = Some b.
Proof.
  unfold local_order. rewrite list_elem_of_In, in_concat. split.
  - intros (l & Hl & Hb%list_elem_of_In). apply list_elem_of_In, list_elem_of_fmap in Hl as (h & -> & Hh%elem_of_seqZ).
    apply bucket_locks_ok in Hb as [? _]; [done|lia].
  - intros Hb. exists (bucket_locks loc (hash (ll_res_id b))). pose proof (mw_hash _ _ _ (fr_map _ _ _ _ _ R) (ll_res_id b)) as Hr.
    split; apply list_elem_of_In; [apply list_elem_of_fmap; exists (hash (ll_res_id b)); split; [done|apply elem_of_seqZ; lia]|]. by apply bucket_locks_ok.
Qed.

Lemma local_order_perm : local_order ≡ₚ (map_to_list Lm).*2.
Proof.
  assert (forall k b, Lm !! k = Some b -> ll_res_id b = k) as Hkey.
  { intros k b Hb. destruct (fr_dom _ _ _ _ _ R k) as [i Hi]; [by eexists|]. destruct (slot_key k i Hi) as (a & _ & Ha & <-). congruence. }
  apply NoDup_Permutation; [eapply NoDup_fmap_1, local_order_ids| |].
  - apply (NoDup_fmap_1 ll_res_id). replace (ll_res_id <$> (map_to_list Lm).*2) with ((map_to_list Lm).*1); [apply NoDup_fst_map_to_list|].
    rewrite <- list_fmap_compose. apply list_fmap_ext. intros _ [k b] Hx%list_elem_of_lookup_2%elem_of_map_to_list. cbn. symmetry. by apply Hkey.
  - intros b. rewrite elem_of_local_order, list_elem_of_fmap. split.
    + intros Hb. exists (ll_res_id b, b). split; [done|]. by apply elem_of_map_to_list.
    + intros ([k x] & -> & Hx%elem_of_map_to_list). cbn. by rewrite (Hkey k x Hx).
Qed.
End Order.

(** ** The new master *)
Section LockMaster.
Context (signed : bool) (pad : list Z) (vc : view) (node_count : Z) (nodes : 2 < node_count) (F Sp : gset Z) (N : Z) (A0 : lock_catalogue).
#[local] Notation holds := (holds signed pad F Sp N A0).

(** The messages that are handled, and how many of them are answered. *)
Fixpoint receive_locks (max : Z) (ms : list lock_msg) (t : ltab) : outcome (Z * ltab) :=
  match ms with
  | [] => Ok (0, t)
  | x :: ms' =>
      '(acked, t) ← drc_process_recovery_lock_res signed pad vc node_count max x t;
      '(n, t) ← receive_locks max ms' t;
      Ok (n + Z.b2z acked, t)
  end.

Definition msg_reports (x : lock_msg) : list (Z * rcy_lock) := pair (lm_src x) <$> lm_locks x.

Lemma lock_msg_accepted i x : lock_msg_ok i x -> drc_check_recovery_lock_res_msg x = true /\ lm_src x = i /\ lm_count x = len (lm_locks x) /\
  0 < lm_count x <= 1071 /\ lm_len x = lm_count x * sizeof_rcy_lock /\ lm_size x = sizeof_rcy_lock_msg + sizeof_rcy_lock * lm_count x.
Proof.
  intros (dst & rls & -> & _ & _ & Hl). unfold drc_check_recovery_lock_res_msg. cbn [lock_msg_of lm_src lm_count lm_locks lm_len lm_size].
  unfold u16, sizeof_rcy_lock_msg, sizeof_rcy_lock. rewrite Z.mod_small by lia. split_and!; [apply andb_true_iff; lia|done|done|lia|lia|done|lia].
Qed.

Lemma process_locks_ok i x rs t : holds rs t -> lock_msg_ok i x -> lreports_ok (rs ++ msg_reports x) ->
  (forall rl, rl ∈ lm_locks x -> A0 !! rl_res_id rl = None) -> Z.of_nat (size A0) + Z.of_nat (size Sp) + len (rs ++ msg_reports x) <= N ->
  exists t', drc_process_recovery_lock_res signed pad vc node_count 1071 x t = Ok (true, t') /\ holds (rs ++ msg_reports x) t'.
Proof.
  intros H Hx RO H0 Hroom. destruct (lock_msg_accepted i x Hx) as (Ec & Es & En & Hn & El & Ez). unfold drc_process_recovery_lock_res. rewrite Ec. cbn [negb].
  destruct ((1071 <? lm_count x) || (node_count <=? 2)) eqn:E1; [exfalso; lia|]. rewrite El, Ez, !Z.eqb_refl. cbn [negb orb].
  rewrite En, Nat2Z.id, take_ge by done. unfold msg_reports in *. rewrite length_app, length_fmap in Hroom.
  destruct (rcy_locks_holds signed pad vc F Sp N A0 (lm_src x) (lm_locks x) rs t H RO H0 ltac:(lia)) as (t' & -> & H'). cbn [mbind outcome_bind]. by exists t'.
Qed.

Lemma receive_locks_ok : forall ms rs t, holds rs t -> (forall x, x ∈ ms -> lock_msg_ok (lm_src x) x) ->
  lreports_ok (rs ++ concat (msg_reports <$> ms)) -> (forall r, r ∈ concat (msg_reports <$> ms) -> A0 !! rl_res_id r.2 = None) ->
  Z.of_nat (size A0) + Z.of_nat (size Sp) + len (rs ++ concat (msg_reports <$> ms)) <= N ->
  exists t', receive_locks 1071 ms t = Ok (len ms, t') /\ holds (rs ++ concat (msg_reports <$> ms)) t'.
Proof.
  induction ms as [|x ms IH]; intros rs t H Hms RO H0 Hroom; cbn [receive_locks]; [exists t; by rewrite app_nil_r|].
  rewrite fmap_cons in *. cbn [concat] in *. rewrite app_assoc in *.
  destruct (process_locks_ok (lm_src x) x rs t H) as (t1 & -> & H1).
  - apply Hms. by left.
  - by eapply lreports_ok_app.
  - intros rl Hrl. apply (H0 (lm_src x, rl)), elem_of_app. left. apply list_elem_of_fmap. by exists rl.
  - rewrite length_app in Hroom. lia.
  - cbn [mbind outcome_bind]. destruct (IH _ t1 H1) as (t2 & -> & H2); [intros; apply Hms; by right|done| |done|].
    + intros r Hr. apply H0, elem_of_app. by right.
    + cbn [mbind outcome_bind]. exists t2. split; [|done]. f_equal. f_equal. cbn [length Z.b2z]. lia.
Qed.
End LockMaster.
