(* ===== verification/DrcRecoverLockProps.v ===== *)
(** The properties of the recovery of locks: the reports of a surviving
    instance, the catalogue that the new master makes of them when its own
    locks come first, and what goes wrong when they do not. *)

From S2P Require Import Prelude DrcBitmap DrcPool DrcResMap DrcGlobalRes DrcQueue DrcTable DrcReform DrcMapTab DrcPart DrcLock DrcLockInv DrcLockThm DrcLockProps.
From S2P Require Import DrcLocal DrcLocalProps DrcRecover DrcRecoverThm DrcRecoverProps DrcRecoverLock DrcRecoverLockThm.

#[local] Notation len l := (Z.of_nat (length l)).

(** The local locks [Lm] are in one of the three modes. *)
Definition modes_ok (Lm : gmap drid local_lock) : Prop := forall d b, Lm !! d = Some b ->
  la_lock_mode (ll_latch b) ∈ [DRC_LOCK_NULL; DRC_LOCK_SHARE; DRC_LOCK_EXCLUSIVE].

Lemma own_mode b : la_lock_mode (ll_latch b) <> DRC_LOCK_NULL -> reported_mode b = la_lock_mode (ll_latch b).
Proof. intros Hn. unfold reported_mode. rewrite (proj2 (Z.eqb_neq _ _) Hn). by rewrite andb_false_r. Qed.

Lemma reported_real b : la_lock_mode (ll_latch b) ∈ [DRC_LOCK_NULL; DRC_LOCK_SHARE; DRC_LOCK_EXCLUSIVE] -> reported_mode b <> DRC_LOCK_NULL ->
  real_mode (reported_mode b).
Proof.
  unfold reported_mode. intros Hm Hn. destruct (_ && _); [by right|]. rewrite !elem_of_cons, elem_of_nil in Hm. destruct Hm as [?|[?|[?|[]]]]; [done|by left|by right].
Qed.

Lemma elem_of_lock_reports signed pad m abort dst l rl : rl ∈ lock_reports signed pad m abort dst l <->
  exists x, x ∈ l /\ to_report signed pad m abort dst x /\ rl = mk_rlock (ll_res_id x) (reported_mode x).
Proof.
  unfold lock_reports. rewrite list_elem_of_fmap. split.
  - intros (x & -> & [? ?]%list_elem_of_filter). by exists x.
  - intros (x & Hx & Hr & ->). exists x. split; [done|]. by apply list_elem_of_filter.
Qed.

Lemma elem_of_own_reports signed pad m abort self l rl : rl ∈ own_reports signed pad m abort self l <->
  exists x, x ∈ l /\ to_enter signed pad m abort self x /\ rl = mk_rlock (ll_res_id x) (la_lock_mode (ll_latch x)).
Proof.
  unfold own_reports. rewrite list_elem_of_fmap. split.
  - intros (x & -> & [? ?]%list_elem_of_filter). by exists x.
  - intros (x & Hx & Hr & ->). exists x. split; [done|]. by apply list_elem_of_filter.
Qed.

(** Reports do not name a lock twice when the local locks do not. *)
Lemma filter_ids_once (P : local_lock -> Prop) `{forall x, Decision (P x)} (g : local_lock -> rcy_lock) l :
  (forall x, rl_res_id (g x) = ll_res_id x) -> NoDup (ll_res_id <$> l) -> NoDup (rl_res_id <$> (g <$> filter P l)).
Proof.
  intros Hg. rewrite <- list_fmap_compose. rewrite (list_fmap_ext _ ll_res_id (filter P l)) by (intros; apply Hg).
  intros Hnd. eapply sublist_NoDup; [exact Hnd|]. apply fmap_sublist, sublist_filter.
Qed.

Lemma own_reports_ok signed pad m abort self loc Lm lam LSp : flat_rep (lock_hash signed pad) loc Lm lam LSp -> modes_ok Lm -> is_inst self ->
  lreports_ok (pair self <$> own_reports signed pad m abort self (local_order loc)).
Proof.
  intros R Hm Hs. split.
  - intros i rl (? & [= -> ->] & _)%list_elem_of_fmap. done.
  - intros i rl (y & [= -> ->] & (x & Hx & (_ & _ & Hn) & ->)%elem_of_own_reports)%list_elem_of_fmap. cbn. apply (elem_of_local_order _ _ _ _ _ _ R) in Hx.
    rewrite <- (own_mode x Hn). apply reported_real; [by eapply Hm|by rewrite own_mode].
  - rewrite <- list_fmap_compose. apply (NoDup_fmap_1 snd). rewrite <- list_fmap_compose.
    exact (filter_ids_once (to_enter signed pad m abort self) (fun x => mk_rlock (ll_res_id x) (la_lock_mode (ll_latch x))) (local_order loc)
      (fun _ => eq_refl) (local_order_ids _ _ _ _ _ _ R)).
  - intros i j d mo mo' (? & [= -> <-] & _)%list_elem_of_fmap (? & [= -> <-] & _)%list_elem_of_fmap. done.
Qed.

(** What the walk over all buckets comes to. *)
Lemma handle_locks_ok signed pad self sid m vc send stamp threads created abort failed loc Lm lam LSp c A f F Sp am :
  masters_ok m -> is_inst self -> 0 < threads -> (forall k, send k = OG_SUCCESS) -> (forall i, created i = OG_SUCCESS) ->
  (forall i k, failed i k = false) -> flat_rep (lock_hash signed pad) loc Lm lam LSp -> modes_ok Lm ->
  lock_inv signed pad (lo_tab c) A f F Sp am -> (forall d, lock_master signed pad m d = abort -> A !! d = None) -> lo_failed c = false ->
  Z.of_nat (size A) + Z.of_nat (size Sp) + len (own_reports signed pad m abort self (local_order loc)) <= lcap (lo_tab c) ->
  exists c' new, drc_handle_lock_res_recovery signed pad self sid m vc send stamp threads created abort failed loc c = Ok (OG_SUCCESS, c') /\
    settled signed pad m abort self F Sp (lcap (lo_tab c)) A c c' (local_order loc) new.
Proof.
  intros M Hs Ht Hsend Hc Hf R Hm I Hcl Hfl Hroom. assert (0 <= bucket_num loc) as Hbn.
  { pose proof (mw_hash _ _ _ (fr_map _ _ _ _ _ R) demo_lock). lia. }
  unfold drc_handle_lock_res_recovery. pose proof (jobs_cover threads (bucket_num loc) Ht Hbn) as Hj.
  assert (Forall (job_ok loc) (rcy_job threads (bucket_num loc) <$> seqZ 0 threads)) as Hjobs.
  { apply Forall_fmap, Forall_forall. intros i Hi%elem_of_seqZ. apply rcy_job_range; lia. }
  destruct (rcy_job threads (bucket_num loc) <$> seqZ 0 threads) as [|j jobs] eqn:Ej.
  { apply (f_equal length) in Ej. rewrite length_fmap, length_seqZ in Ej. cbn in Ej. lia. }
  destruct (rcy_lock_thread_ok signed pad m abort self sid vc send stamp M Hs Hsend F Sp (lcap (lo_tab c)) A c Hcl loc Lm lam LSp R created failed Hc Hf
    jobs 0 c [] [] j Hjobs) as (c' & new & E & St).
  - apply reset_batched; [done|]. right. split_and!; try done. split; [done|]. exists A, f, am. split; [done|]. split; [apply held_nil|cbn; lia].
  - rewrite Hj. split; [by eapply own_reports_ok|exact Hroom].
  - rewrite Hj in St. by exists c', new.
Qed.


(** ** The catalogue that is rebuilt *)

(** The crash of instance [abort]: the survivors are [self] and [others];
    survivor [i] has the partition maps [m i] (those of two survivors may
    differ), the local locks [Lms i] in its table [locs i], and sends the
    messages [msgs i] to [self]: the locks that its own maps say were mastered
    by [abort] and are now by [self].  Two survivors that hold a lock share
    it. *)
Record lock_survivors (signed : bool) (pad : list Z) (self : Z) (m : Z -> drc_part_mngr) (abort node_count : Z) (others : list Z) (locs : Z -> loctab)
    (Lms : Z -> gmap drid local_lock) (msgs : Z -> list lock_msg) : Prop := {
  ls_masters : masters_ok (m self);
  ls_nodes : 2 < node_count;
  ls_insts : NoDup (self :: others) /\ forall i, i ∈ self :: others -> is_inst i;
  ls_tables : forall i, i ∈ self :: others -> modes_ok (Lms i) /\ exists lam LSp, flat_rep (lock_hash signed pad) (locs i) (Lms i) lam LSp;
  ls_shared : forall i j d x y, i ∈ self :: others -> j ∈ self :: others -> i <> j -> Lms i !! d = Some x -> Lms j !! d = Some y ->
    reported_mode x <> DRC_LOCK_NULL -> reported_mode y <> DRC_LOCK_NULL -> reported_mode x = DRC_LOCK_SHARE;
  ls_msgs : forall i, i ∈ others -> Forall (lock_msg_ok i) (msgs i) /\
    concat (lm_locks <$> msgs i) = lock_reports signed pad (m i) abort self (local_order (locs i));
}.

(** What the survivors say. *)
Definition others_locks (signed : bool) (pad : list Z) (self : Z) (m : Z -> drc_part_mngr) (abort : Z) (locs : Z -> loctab) (insts : list Z) : list (Z * rcy_lock) :=
  concat ((fun i => pair i <$> lock_reports signed pad (m i) abort self (local_order (locs i))) <$> insts).
Definition all_locks (signed : bool) (pad : list Z) (self : Z) (m : Z -> drc_part_mngr) (abort : Z) (locs : Z -> loctab) (others : list Z) : list (Z * rcy_lock) :=
  (pair self <$> own_reports signed pad (m self) abort self (local_order (locs self))) ++ others_locks signed pad self m abort locs others.

Section RebuildLocks.
Context (signed : bool) (pad : list Z) (self : Z) (m : Z -> drc_part_mngr) (abort node_count : Z) (others : list Z) (locs : Z -> loctab).
Context (Lms : Z -> gmap drid local_lock) (msgs : Z -> list lock_msg).
Context (V : lock_survivors signed pad self m abort node_count others locs Lms msgs).
#[local] Notation others_locks := (others_locks signed pad self m abort locs).
#[local] Notation all_locks := (all_locks signed pad self m abort locs others).

Lemma elem_of_others_locks insts i rl : (i, rl) ∈ others_locks insts <-> i ∈ insts /\ rl ∈ lock_reports signed pad (m i) abort self (local_order (locs i)).
Proof.
  unfold DrcRecoverLockProps.others_locks. rewrite list_elem_of_In, in_concat. split.
  - intros (l & Hl & Hx%list_elem_of_In). apply list_elem_of_In, list_elem_of_fmap in Hl as (j & -> & Hj).
    by apply list_elem_of_fmap in Hx as (y & [= -> ->] & Hy).
  - intros (Hi & Hr). exists (pair i <$> lock_reports signed pad (m i) abort self (local_order (locs i))).
    split; apply list_elem_of_In, list_elem_of_fmap; [by exists i|by exists rl].
Qed.

(** Where a report comes from. *)
Lemma all_locks_from i rl : (i, rl) ∈ all_locks -> i ∈ self :: others /\ lock_master signed pad (m i) (rl_res_id rl) = abort /\
  exists x, Lms i !! rl_res_id rl = Some x /\ rl_lock_mode rl = reported_mode x /\ reported_mode x <> DRC_LOCK_NULL.
Proof.
  intros [Hx|[Hi Hx]%elem_of_others_locks]%elem_of_app.
  - apply list_elem_of_fmap in Hx as (y & [= -> ->] & (x & Hx & (Ha & _ & Hn) & ->)%elem_of_own_reports). split; [by left|]. split; [done|]. exists x.
    destruct (ls_tables _ _ _ _ _ _ _ _ _ _ V self) as (_ & lam & LSp & R); [by left|]. apply (elem_of_local_order _ _ _ _ _ _ R) in Hx. cbn.
    by rewrite own_mode.
  - apply elem_of_lock_reports in Hx as (x & Hx & (Ha & _ & Hn) & ->). split; [by right|]. split; [done|]. exists x.
    destruct (ls_tables _ _ _ _ _ _ _ _ _ _ V i) as (_ & lam & LSp & R); [by right|]. by apply (elem_of_local_order _ _ _ _ _ _ R) in Hx.
Qed.

Lemma others_locks_once insts : NoDup insts -> (forall i, i ∈ insts -> i ∈ self :: others) -> NoDup ((fun r => (r.1, rl_res_id r.2)) <$> others_locks insts).
Proof.
  induction insts as [|i insts IH]; intros Hnd Hin; [constructor|]. apply NoDup_cons in Hnd as [Hi Hnd]. unfold DrcRecoverLockProps.others_locks.
  rewrite fmap_cons. cbn [concat]. rewrite fmap_app. apply NoDup_app. split; [|split].
  - destruct (ls_tables _ _ _ _ _ _ _ _ _ _ V i) as (_ & lam & LSp & R); [apply Hin; by left|]. apply (NoDup_fmap_1 snd). rewrite <- !list_fmap_compose.
    exact (filter_ids_once (to_report signed pad (m i) abort self) (fun x => mk_rlock (ll_res_id x) (reported_mode x)) (local_order (locs i))
      (fun _ => eq_refl) (local_order_ids _ _ _ _ _ _ R)).
  - intros z (r & -> & (? & -> & _)%list_elem_of_fmap)%list_elem_of_fmap ([j rl] & [= <- _] & [Hj _]%elem_of_others_locks)%list_elem_of_fmap. done.
  - apply IH; [done|]. intros j Hj. apply Hin. by right.
Qed.

Lemma all_locks_ok : lreports_ok all_locks.
Proof.
  destruct (ls_insts _ _ _ _ _ _ _ _ _ _ V) as [Hnd Hi]. split.
  - intros i rl (Hin & _)%all_locks_from. by apply Hi.
  - intros i rl (Hin & _ & x & Hx & -> & Hn)%all_locks_from. destruct (ls_tables _ _ _ _ _ _ _ _ _ _ V i Hin) as [Hm _].
    apply reported_real; [by eapply Hm|done].
  - unfold DrcRecoverLockProps.all_locks. rewrite fmap_app. apply NoDup_cons in Hnd as [Hs Hnd]. apply NoDup_app. split; [|split].
    + destruct (ls_tables _ _ _ _ _ _ _ _ _ _ V self) as (Hm & lam & LSp & R); [by left|]. eapply lp_once, own_reports_ok; [done|done|]. apply Hi. by left.
    + intros z (r & -> & (? & -> & _)%list_elem_of_fmap)%list_elem_of_fmap ([j rl] & [= <- _] & [Hj _]%elem_of_others_locks)%list_elem_of_fmap. done.
    + apply others_locks_once; [done|]. intros j Hj. by right.
  - intros i j d mo mo' (Hin & _ & x & Hx & E1 & N1)%all_locks_from (Hjn & _ & y & Hy & E2 & N2)%all_locks_from Hne. cbn in *. subst.
    by eapply (ls_shared _ _ _ _ _ _ _ _ _ _ V i j d x y).
Qed.

Lemma lock_messages_ok ms x : ms ≡ₚ concat (msgs <$> others) -> x ∈ ms -> lock_msg_ok (lm_src x) x.
Proof.
  intros P Hx. rewrite P in Hx. apply list_elem_of_In, in_concat in Hx as (l & Hl & Hx%list_elem_of_In).
  apply list_elem_of_In, list_elem_of_fmap in Hl as (i & -> & Hi). destruct (ls_msgs _ _ _ _ _ _ _ _ _ _ V i Hi) as [Hf _].
  rewrite Forall_forall in Hf. specialize (Hf x Hx). by destruct (lock_msg_accepted i x Hf) as (_ & -> & _).
Qed.

Lemma lock_messages_reports ms : ms ≡ₚ concat (msgs <$> others) -> concat (msg_reports <$> ms) ≡ₚ others_locks others.
Proof.
  intros P. rewrite <- flat_map_concat_map. rewrite (Permutation_flat_map msg_reports P). unfold DrcRecoverLockProps.others_locks.
  assert (forall i, i ∈ others -> flat_map msg_reports (msgs i) = pair i <$> lock_reports signed pad (m i) abort self (local_order (locs i))) as Hone.
  { intros i Hi. destruct (ls_msgs _ _ _ _ _ _ _ _ _ _ V i Hi) as [Hf <-]. clear P. induction Hf as [|x l Hx Hf IH]; [done|].
    cbn [flat_map]. rewrite IH, fmap_cons. cbn [concat]. rewrite fmap_app. f_equal. unfold msg_reports. by destruct (lock_msg_accepted i x Hx) as (_ & -> & _). }
  clear P. revert Hone. generalize others as l. induction l as [|i l IH]; intros Hone; [done|]. rewrite !fmap_cons. cbn [concat]. rewrite flat_map_app, Hone by left. f_equiv.
  apply IH. intros j Hj. apply Hone. by right.
Qed.
End RebuildLocks.

(** C30: the locks rebuilt.  Every survivor sends to the new master the locks
    it holds that, by its own partition maps, the crashed instance mastered
    and the new master is to master (a survivor whose maps are out of date may
    leave locks out).  Conditions: there are more than two nodes, the
    survivors are different instances, and two of them that hold a lock share
    it; the new master knew no lock that a survivor takes for one of the
    crashed instance, and enters its own locks before it handles the messages
    of the others, in any order (see [lock_recover_shadowed] for the other
    order); no thread or send fails and there is room.  Then every message is
    answered, and the catalogue has, for every lock that somebody reported to
    it, exactly the holders that did, in their mode, with nobody waiting;
    nothing else changed. *)
Theorem lock_recover_rebuilt : forall signed pad self m abort node_count others locs Lms msgs ms sid vc send stamp threads created failed c A0 f F Sp am,
  lock_survivors signed pad self m abort node_count others locs Lms msgs -> ms ≡ₚ concat (msgs <$> others) ->
  0 < threads -> (forall k, send k = OG_SUCCESS) -> (forall i, created i = OG_SUCCESS) -> (forall i k, failed i k = false) ->
  lock_inv signed pad (lo_tab c) A0 f F Sp am -> (forall i d, i ∈ self :: others -> lock_master signed pad (m i) d = abort -> A0 !! d = None) -> lo_failed c = false ->
  Z.of_nat (size A0) + Z.of_nat (size Sp) + len (all_locks signed pad self m abort locs others) <= lcap (lo_tab c) ->
  exists c' t2 A2 f2 am2,
    drc_handle_lock_res_recovery signed pad self sid (m self) vc send stamp threads created abort failed (locs self) c = Ok (OG_SUCCESS, c') /\
    receive_locks signed pad vc node_count (lo_max c') ms (lo_tab c') = Ok (len ms, t2) /\
    lock_inv signed pad t2 A2 f2 F Sp am2 /\ held A0 (all_locks signed pad self m abort locs others) A2.
Proof.
  intros signed pad self m abort node_count others locs Lms msgs ms sid vc send stamp threads created failed c A0 f F Sp am V P Ht Hsend Hc Hf I Hcl Hfl Hroom.
  pose proof (all_locks_ok _ _ _ _ _ _ _ _ _ _ V) as RO. pose proof (lock_messages_reports _ _ _ _ _ _ _ _ _ _ V ms P) as PR.
  destruct (ls_insts _ _ _ _ _ _ _ _ _ _ V) as [_ Hi]. destruct (ls_tables _ _ _ _ _ _ _ _ _ _ V self) as (Hm & lam & LSp & R); [by left|].
  destruct (handle_locks_ok signed pad self sid (m self) vc send stamp threads created abort failed (locs self) (Lms self) lam LSp c A0 f F Sp am
    (ls_masters _ _ _ _ _ _ _ _ _ _ V) (Hi self ltac:(by left)) Ht Hsend Hc Hf R Hm I (fun d => Hcl self d ltac:(by left)) Hfl) as (c' & new & E & [_ _ _ W4 W5 _] & _).
  { unfold all_locks in Hroom. rewrite length_app, length_fmap in Hroom. lia. }
  assert ((pair self <$> own_reports signed pad (m self) abort self (local_order (locs self))) ++ concat (msg_reports <$> ms) ≡ₚ
    all_locks signed pad self m abort locs others) as PA by (unfold all_locks; by rewrite PR).
  destruct (receive_locks_ok signed pad vc node_count (ls_nodes _ _ _ _ _ _ _ _ _ _ V) F Sp (lcap (lo_tab c)) A0 ms _ (lo_tab c') W4)
    as (t2 & E2 & [_ (A2 & f2 & am2 & I2 & H2 & _)]).
  - intros x Hx. by eapply lock_messages_ok.
  - by rewrite PA.
  - intros [i rl] Hr. rewrite PR in Hr. destruct (all_locks_from _ _ _ _ _ _ _ _ _ _ V i rl) as (Hin & Ha & _); [apply elem_of_app; by right|].
    by apply (Hcl i).
  - rewrite PA. exact Hroom.
  - exists c', t2, A2, f2, am2. split; [exact E|]. split; [by rewrite W5|]. split; [exact I2|]. by rewrite <- PA.
Qed.

(** ** When the own locks do not come first *)

Definition shared_lock : local_lock := mk_local demo_lock true true 1 false false (mk_latch 1 LATCH_STATUS_S 10 DRC_LOCK_SHARE).

(** The report of instance 2 about a lock that both hold is handled before
    instance 0 enters its own: [drc_recovery_lockinfo] makes the lock anew and
    hides the one that names instance 2.  The lock that is found has instance
    0 as its only holder, and a request for exclusive use is told to ask
    instance 0 alone. *)
Theorem lock_recover_shadowed :
  ('(acked, t) ← drc_process_recovery_lock_res true demo_pad demo_lview 3 1071 (lock_msg_of 2 0 [mk_rlock demo_lock DRC_LOCK_SHARE]) demo_ltab;
   t ← recover_own true demo_pad 0 10 demo_lview (fun _ => (1, 100)) shared_lock t;
   o ← lock_lookup true demo_pad t demo_lock;
   b ← tb_get t (default OG_INVALID_ID32 o);
   '(reply, _) ← demo_lrequest 0 1 t;
   Ok (acked, drc_bitmap64_exist (lk_granted_map b) 0, drc_bitmap64_exist (lk_granted_map b) 2, reply)) =
  Ok (true, true, false, Some (mk_reply OG_SUCCESS false (drc_bitmap64_set 0 0))).
Proof. vm_compute. reflexivity. Qed.

(** The batches are shared by the threads of an instance, and each of them
    empties the batches when it begins: what another has collected and not
    sent is not reported. *)
Theorem lock_batches_wiped :
  ('(_, c) ← drc_collect_and_send_lock_info 2 (fun _ => OG_SUCCESS) shared_lock 0 (drc_reset_lock_batch_buf (mk_lcoll ∅ 0 demo_ltab [] 0 0 false));
   let collected := lo_batch c !! 0 in
   '(ret, c) ← drc_send_last_lock_info 2 (fun _ => OG_SUCCESS) (drc_reset_lock_batch_buf c);
   Ok (collected, ret, lo_sent c)) = Ok (Some [mk_rlock demo_lock DRC_LOCK_SHARE], OG_SUCCESS, []).
Proof. vm_compute. reflexivity. Qed.

(** ** A crash of instance 1 of three

    It mastered every partition; instance 0 takes over.  Instances 0 and 2
    hold a lock in shared mode. *)
Definition shared_local : loctab :=
  match (o ← loc_lookup true demo_pad demo_local demo_lock; fm_put demo_local (default OG_INVALID_ID32 o) shared_lock) with
  | Ok t => t
  | Crash _ => demo_local
  end.
Definition shared_report : rcy_lock := mk_rlock demo_lock DRC_LOCK_SHARE.

Lemma shared_local_rep : exists am, flat_rep (lock_hash true demo_pad) shared_local {[demo_lock := shared_lock]} am ∅.
Proof.
  destruct demo_local_rep as (am & R & i & Hi). exists am. unfold shared_local, loc_lookup.
  rewrite (flat_lookup _ _ _ _ _ _ R : drc_res_map_lookup demo_local (loc_bucket true demo_pad demo_local demo_lock) demo_lock = _), Hi.
  cbn [mbind outcome_bind default from_option id]. destruct (flat_put _ _ _ _ _ demo_lock i shared_lock R Hi eq_refl) as (t & -> & R' & _).
  rewrite insert_singleton_eq in R'. exact R'.
Qed.

Lemma shared_modes : modes_ok {[demo_lock := shared_lock]}.
Proof. intros d b [_ <-]%lookup_singleton_Some. right. left. Qed.

Lemma shared_reports : lock_reports true demo_pad crash_mngr 1 0 (local_order shared_local) = [shared_report].
Proof. vm_compute. reflexivity. Qed.
Lemma shared_all : all_locks true demo_pad 0 (fun _ => crash_mngr) 1 (fun _ => shared_local) [2] = [(0, shared_report); (2, shared_report)].
Proof. vm_compute. reflexivity. Qed.

Lemma shared_survivors : lock_survivors true demo_pad 0 (fun _ => crash_mngr) 1 3 [2] (fun _ => shared_local) (fun _ => {[demo_lock := shared_lock]})
  (fun _ => [lock_msg_of 2 0 [shared_report]]).
Proof.
  split; [apply crash_masters|lia| | | |].
  - split; [repeat constructor; set_solver|]. intros i [->| ->%list_elem_of_singleton]%elem_of_cons; split; vm_compute; congruence.
  - intros i _. split; [apply shared_modes|]. destruct shared_local_rep as [am R]. by exists am, ∅.
  - intros i j d x y _ _ _ [_ <-]%lookup_singleton_Some _ _ _. reflexivity.
  - intros i ->%list_elem_of_singleton. rewrite shared_reports. split; [|reflexivity]. apply Forall_singleton. exists 0, [shared_report]. cbn [length]. split_and!; try lia; [done|split; vm_compute; congruence].
Qed.


Lemma lock_recover_rebuilt_witness : exists c' t2 A2 f2 am2,
  drc_handle_lock_res_recovery true demo_pad 0 10 crash_mngr demo_lview (fun _ => OG_SUCCESS) (fun _ => (1, 100)) 16 (fun _ => OG_SUCCESS) 1 (fun _ _ => false)
    shared_local (mk_lcoll ∅ 0 demo_ltab [] 0 0 false) = Ok (OG_SUCCESS, c') /\
  receive_locks true demo_pad demo_lview 3 (lo_max c') [lock_msg_of 2 0 [shared_report]] (lo_tab c') = Ok (1, t2) /\
  lock_inv true demo_pad t2 A2 f2 ∅ ∅ am2 /\ held ∅ [(0, shared_report); (2, shared_report)] A2.
Proof.
  destruct (lock_recover_rebuilt true demo_pad 0 (fun _ => crash_mngr) 1 3 [2] (fun _ => shared_local) (fun _ => {[demo_lock := shared_lock]})
    (fun _ => [lock_msg_of 2 0 [shared_report]]) [lock_msg_of 2 0 [shared_report]] 10 demo_lview (fun _ => OG_SUCCESS) (fun _ => (1, 100)) 16
    (fun _ => OG_SUCCESS) (fun _ _ => false) (mk_lcoll ∅ 0 demo_ltab [] 0 0 false) ∅ 4 ∅ ∅ ∅) as (c' & t2 & A2 & f2 & am2 & E1 & E2 & I2 & H2).
  - apply shared_survivors.
  - reflexivity.
  - reflexivity.
  - reflexivity.
  - reflexivity.
  - reflexivity.
  - apply demo_ltab_inv.
  - intros i d _ _. apply lookup_empty.
  - reflexivity.
  - rewrite shared_all. vm_compute. discriminate.
  - exists c', t2, A2, f2, am2. rewrite shared_all in H2. split; [exact E1|]. split; [exact E2|]. split; [exact I2|exact H2].
Defined.
