(* ===== verification/DrcTxn.v ===== *)
(** Transaction resources ([drc_txn_res_t], src/pkg/src/cluster/dtc_drc.h):
    which instances wait for the end of a transaction of this one, and which
    remote transactions sessions of this one wait for
    (src/pkg/src/cluster/dtc_drc.c), with the handler of the message by which
    an instance asks to wait (src/pkg/src/cluster/dtc_dls.c).

    The condition variable of a resource is known by the slot it is in:
    waiting and waking name the slot. *)

From S2P Require Import Prelude DrcBitmap DrcPool DrcResMap DrcGlobalRes DrcQueue DrcReform DrcMapTab DrcLock.

(** [drc_txn_res_t], the links apart; the id is the value of the [xid_t]. *)
Record txn_res := mk_txn { tx_id : Z; tx_ins_map : Z; tx_is_cond_inited : bool }.

#[export] Instance txn_resource : Resource txn_res Z := {| res_key := tx_id; res_zero := mk_txn 0 0 false |}.

Notation txntab := (flat_tab txn_res).

Section Txn.
Context (signed : bool).
Implicit Types (t : txntab) (x : Z).

(** [drc_get_res_map_bucket] and [drc_res_map_lookup] for an [xid_t]. *)
Definition txn_hash (range x : Z) : Z := drc_resource_id_hash signed (le_bytes 8 x) range.
Definition txn_bucket t x : Z := fm_hash txn_hash t x.
Definition txn_lookup t x : outcome (option Z) := drc_res_map_lookup t (txn_bucket t x) x.

(** [drc_create_txn_res], in either map: [None] when the pool is exhausted. *)
Definition drc_create_txn_res x t : outcome (option (Z * txntab)) :=
  fm_create t (txn_bucket t x) (fun i a => mk_fitem (fi_next a) i (mk_txn x 0 true)).

(** [drc_release_txn_res] and [drc_release_local_txn_res]. *)
Definition drc_release_txn_res (i : Z) t : outcome txntab := fm_release t i (fun _ => pi_zero).
Definition drc_release_local_txn_res (i : Z) t : outcome txntab :=
  fm_release t i (fun a => mk_fitem (fi_next a) (fi_idx a) (mk_txn (tx_id (fi_body a)) 0 (tx_is_cond_inited (fi_body a)))).

(** The resource of a transaction, made when there is none. *)
Definition get_txn x t : outcome (Z * txntab) :=
  o ← txn_lookup t x;
  match o with
  | Some i => Ok (i, t)
  | None =>
      o ← drc_create_txn_res x t;
      match o with Some (i, t) => Ok (i, t) | None => Crash Panic end
  end.

(** ** Waiters for the transactions of this instance *)

(** [drc_enqueue_txn]. *)
Definition drc_enqueue_txn x (ins_id : Z) t : outcome txntab :=
  '(i, t) ← get_txn x t;
  b ← fm_get t i;
  fm_put t i (mk_txn (tx_id b) (drc_bitmap64_set (tx_ins_map b) ins_id) (tx_is_cond_inited b)).

(** The instances [drc_release_txn] wakes: the loop over the bit map. *)
Fixpoint wake_loop (n : nat) (i self map : Z) : list Z :=
  match n with
  | O => []
  | S n' =>
      (if drc_bitmap64_exist map i then if self =? i then [] else [i] else []) ++ wake_loop n' (i + 1) self map
  end.

(** [drc_release_txn]: the instances a message is sent to. *)
Definition drc_release_txn (self x : Z) t : outcome (list Z * txntab) :=
  o ← txn_lookup t x;
  match o with
  | None => Ok ([], t)
  | Some i =>
      b ← fm_get t i;
      let woken := wake_loop (Z.to_nat OG_MAX_INSTANCES) 0 self (tx_ins_map b) in
      t ← drc_res_map_remove t (txn_bucket t x) x;
      t ← drc_release_txn_res i t;
      Ok (woken, t)
  end.

(** ** Waiting for a remote transaction *)

(** [drc_local_txn_wait]: the slot waited on. *)
Definition drc_local_txn_wait x t : outcome (Z * txntab) := get_txn x t.

(** [drc_local_txn_recyle]. *)
Definition drc_local_txn_recyle x t : outcome txntab :=
  o ← txn_lookup t x;
  match o with
  | None => Ok t
  | Some i =>
      t ← drc_res_map_remove t (txn_bucket t x) x;
      drc_release_local_txn_res i t
  end.

(** [drc_local_txn_awake]: the slot whose waiters are woken. *)
Definition drc_local_txn_awake x t : outcome (option Z) := txn_lookup t x.

(** ** The request to wait *)

(** [DLS_REMOTE_TXN_END] and [DLS_REMOTE_TXN_WAIT]. *)
Inductive txn_answer := TXN_END | TXN_WAIT.

(** [dls_process_txn_wait] in its three critical parts: the first look at the
    transaction ([ended1]), the registration, and the second look ([ended2])
    with the release it may make; [valid] are the tests of the message. *)
Definition dls_process_txn_wait (valid : bool) (self src x : Z) (ended1 ended2 : bool) (env : txntab -> txntab) t :
    outcome (option txn_answer * list Z * txntab) :=
  if negb (valid && (src <? OG_MAX_INSTANCES)) then Ok (None, [], t)
  else if ended1 then Ok (Some TXN_END, [], t)
  else
    t ← drc_enqueue_txn x src t;
    let t := env t in
    if ended2 then
      '(woken, t) ← drc_release_txn self x t;
      Ok (Some TXN_END, woken, t)
    else Ok (Some TXN_WAIT, [], t).

(** The same handler one critical part at a time: [ended] is what a look at
    the transaction sees. *)
Inductive wait_phase := W_LOOK | W_REGISTER | W_CHECK | W_RELEASE | W_DONE (a : txn_answer).

Definition wait_step (self src x : Z) (ended : bool) (p : wait_phase) t : outcome (wait_phase * list Z * txntab) :=
  match p with
  | W_LOOK => Ok (if ended then W_DONE TXN_END else W_REGISTER, [], t)
  | W_REGISTER => t ← drc_enqueue_txn x src t; Ok (W_CHECK, [], t)
  | W_CHECK => Ok (if ended then W_RELEASE else W_DONE TXN_WAIT, [], t)
  | W_RELEASE => '(woken, t) ← drc_release_txn self x t; Ok (W_DONE TXN_END, woken, t)
  | W_DONE a => Ok (p, [], t)
  end.
End Txn.

(** ** Requests to wait and the end of the transaction

    Any number of handlers, each in its phase, and the session that ends the
    transaction and then releases its waiters ([dls_release_txn]). *)

(** A handler: the instance that asks, its phase, and how many wake-ups had
    been sent when it registered the instance. *)
Record waiter := mk_waiter { wt_src : Z; wt_mark : nat; wt_phase : wait_phase }.

Inductive end_phase := E_RUNNING | E_ENDED | E_RELEASED.

Record wait_state := mk_wstate {
  ws_end : end_phase;
  ws_tab : txntab;
  ws_woken : list Z;            (* the wake-ups sent, in order *)
  ws_waiters : gmap nat waiter;
}.

Definition is_ended (e : end_phase) : bool := match e with E_RUNNING => false | _ => true end.

Section Steps.
Context (signed : bool) (self x : Z).

(** One critical part of one thread; [other] is what is done to the table for
    other transactions. *)
Inductive wait_trans : wait_state -> wait_state -> Prop :=
| trans_arrive s h src :
    is_inst src -> src <> self -> ws_waiters s !! h = None ->
    wait_trans s (mk_wstate (ws_end s) (ws_tab s) (ws_woken s) (<[h := mk_waiter src 0 W_LOOK]> (ws_waiters s)))
| trans_handler s h w p woken t :
    ws_waiters s !! h = Some w ->
    wait_step signed self (wt_src w) x (is_ended (ws_end s)) (wt_phase w) (ws_tab s) = Ok (p, woken, t) ->
    wait_trans s
      (mk_wstate (ws_end s) t (ws_woken s ++ woken)
         (<[h := mk_waiter (wt_src w) (match wt_phase w with W_REGISTER => length (ws_woken s) | _ => wt_mark w end) p]> (ws_waiters s)))
| trans_end s :
    ws_end s = E_RUNNING -> wait_trans s (mk_wstate E_ENDED (ws_tab s) (ws_woken s) (ws_waiters s))
| trans_release s woken t :
    ws_end s = E_ENDED -> drc_release_txn signed self x (ws_tab s) = Ok (woken, t) ->
    wait_trans s (mk_wstate E_RELEASED t (ws_woken s ++ woken) (ws_waiters s))
| trans_other s t A am Sp A' am' Sp' :
    flat_rep (txn_hash signed) (ws_tab s) A am Sp -> flat_rep (txn_hash signed) t A' am' Sp' -> A' !! x = A !! x ->
    wait_trans s (mk_wstate (ws_end s) t (ws_woken s) (ws_waiters s)).
End Steps.
