(* ===== verification/DrcTxnThm.v ===== *)
(** Transaction resources implement a map from transactions to the sets of
    instances that wait for them, and no waiter is forgotten, however the
    requests to wait and the end of the transaction are interleaved. *)

From S2P Require Import Prelude DrcBitmap DrcPool DrcResMap DrcGlobalRes DrcQueue DrcReform DrcMapTab DrcLock DrcTxn.

Section TxnThm.
Context (signed : bool).
Implicit Types (t : txntab) (A : gmap Z txn_res) (am : gmap Z Z) (Sp : gset Z) (x : Z).

Notation trep := (flat_rep (txn_hash signed)).

Definition txn_full t A Sp : Prop := Z.of_nat (size A) + Z.of_nat (size Sp) = item_num (res_pool t).

Lemma get_txn_ok t A am Sp x :
  trep t A am Sp ->
  (A !! x = None /\ txn_full t A Sp /\ get_txn signed x t = Crash Panic) \/
  (exists i t' am', get_txn signed x t = Ok (i, t') /\ am' !! x = Some i /\
     trep t' (<[x := default (mk_txn x 0 true) (A !! x)]> A) am' Sp).
Proof.
  intros R. unfold get_txn, txn_lookup, txn_bucket. destruct (A !! x) as [b|] eqn:Hd.
  - right. destruct (flat_open _ _ _ _ _ _ _ R Hd) as (i & Hi & -> & _). exists i, t, am. split; [done|]. split; [done|]. cbn. by rewrite insert_id.
  - destruct (flat_lookup_none _ _ _ _ _ _ R Hd) as [_ ->]. cbn [mbind outcome_bind]. unfold drc_create_txn_res, txn_bucket.
    destruct (flat_create _ _ _ _ _ x (fun i a => mk_fitem (fi_next a) i (mk_txn x 0 true)) R Hd) as
      [[Hfull ->]|(_ & i & a & t' & -> & _ & _ & R')]; [done| |].
    + left. cbn [mbind outcome_bind]. unfold txn_full. by apply (flat_full_iff _ _ _ _ _ R) in Hfull.
    + right. cbn [mbind outcome_bind]. exists i, t', (<[x := i]> am). rewrite lookup_insert_eq. split_and!; done.
Qed.

(** The set of instances registered for [x]. *)
Definition waits A x (k : Z) : Prop := exists b, A !! x = Some b /\ bm_mem (tx_ins_map b) k.

Lemma enqueue_ok t A am Sp x src :
  trep t A am Sp -> is_inst src ->
  (A !! x = None /\ txn_full t A Sp /\ drc_enqueue_txn signed x src t = Crash Panic) \/
  (exists t' am' b, drc_enqueue_txn signed x src t = Ok t' /\ trep t' (<[x := b]> A) am' Sp /\
     tx_ins_map b = drc_bitmap64_set (default 0 (tx_ins_map <$> A !! x)) src).
Proof.
  intros R Hs. unfold drc_enqueue_txn. destruct (get_txn_ok t A am Sp x R) as [(? & ? & ->)|(i & t1 & am1 & -> & Hi & R1)]; [by left|].
  right. cbn [mbind outcome_bind]. destruct (flat_open _ _ _ _ _ _ _ R1 (lookup_insert_eq _ _ _)) as (j & Hj & _ & Hg & _ & Hk).
  assert (j = i) as -> by congruence. rewrite Hg. cbn [mbind outcome_bind]. set (b := mk_txn _ _ _).
  destruct (flat_put _ _ _ _ _ x i b R1 Hi) as (t2 & -> & R2 & _); [exact Hk|]. rewrite insert_insert_eq in R2.
  exists t2, am1, b. split_and!; try done. unfold b. cbn. by destruct (A !! x).
Qed.

Lemma elem_of_wake_loop self map n : forall i k,
  0 <= i -> i + Z.of_nat n <= OG_MAX_INSTANCES ->
  k ∈ wake_loop n i self map <-> i <= k < i + Z.of_nat n /\ k <> self /\ bm_mem map k.
Proof.
  induction n as [|n IH]; intros i k Hi Hn; cbn [wake_loop].
  - split; [set_solver|lia].
  - rewrite elem_of_app, IH by lia. pose proof (bm_exist_spec map i) as He. unfold OG_MAX_INSTANCES in *.
    specialize (He ltac:(lia)). destruct (drc_bitmap64_exist map i).
    + destruct (Z.eqb_spec self i) as [->|Hne].
      * split; [intros [?|?]; [set_solver|naive_solver lia]|]. intros (? & ? & ?). right. split_and!; try done; lia.
      * rewrite list_elem_of_singleton. split.
        -- intros [->|?]; [split_and!; [lia..|by symmetry|by apply He]|naive_solver lia].
        -- intros (? & ? & ?). destruct (decide (k = i)); [by left|right]. split_and!; try done; lia.
    + split; [intros [?|?]; [set_solver|naive_solver lia]|]. intros (? & ? & Hm). right.
      assert (k <> i) by (intros ->; apply He in Hm; done). split_and!; try done; lia.
Qed.

(** A release wakes exactly the registered instances other than this one. *)
Lemma release_txn_ok t A am Sp self x :
  trep t A am Sp ->
  exists woken t' am', drc_release_txn signed self x t = Ok (woken, t') /\ trep t' (delete x A) am' Sp /\
    forall k, is_inst k -> k ∈ woken <-> k <> self /\ waits A x k.
Proof.
  intros R. unfold drc_release_txn, txn_lookup, txn_bucket, waits. destruct (A !! x) as [b|] eqn:Hd.
  - destruct (flat_open _ _ _ _ _ _ _ R Hd) as (i & Hi & -> & Hg & _). cbn [mbind outcome_bind]. rewrite Hg. cbn [mbind outcome_bind].
    destruct (flat_unlink _ _ _ _ _ _ _ _ R Hd Hi) as (t1 & -> & _ & R1 & n & Ha). cbn [mbind outcome_bind]. unfold drc_release_txn_res.
    destruct (flat_release _ _ _ _ _ i _ (fun _ => pi_zero) R1 ltac:(set_solver) Ha eq_refl) as (t2 & -> & _ & R2).
    cbn [mbind outcome_bind]. eexists _, t2, _. split; [done|]. split.
    + replace (({[i]} ∪ Sp) ∖ {[i]}) with Sp in R2; [exact R2|]. pose proof (fr_spare _ _ _ _ _ R _ _ Hi). set_solver.
    + intros k Hk. rewrite elem_of_wake_loop by (unfold OG_MAX_INSTANCES; lia). destruct Hk. unfold OG_MAX_INSTANCES in *. split.
      * intros (_ & ? & ?). eauto.
      * intros (? & b' & [= <-] & ?). split_and!; try done; lia.
  - destruct (flat_lookup_none _ _ _ _ _ _ R Hd) as [_ ->]. cbn [mbind outcome_bind]. exists [], t, am. split; [done|].
    split; [by rewrite delete_id|]. intros k _. split; [set_solver|]. intros (_ & ? & ? & _). congruence.
Qed.

(** A handler that runs by itself is the handler. *)
Fixpoint wait_run (n : nat) (self src x : Z) (ended : nat -> bool) (p : wait_phase) t : outcome (wait_phase * list Z * txntab) :=
  match n with
  | O => Ok (p, [], t)
  | S n' =>
      '(p, w, t) ← wait_step signed self src x (ended n') p t;
      '(p, w', t) ← wait_run n' self src x ended p t;
      Ok (p, w ++ w', t)
  end.

Lemma wait_run_handler self src x ended t a w t' :
  is_inst src ->
  dls_process_txn_wait signed true self src x (ended 3%nat) (ended 1%nat) (fun t => t) t = Ok (Some a, w, t') <->
  wait_run 4 self src x ended W_LOOK t = Ok (W_DONE a, w, t').
Proof.
  intros [Hs1 Hs2]. unfold dls_process_txn_wait. replace (src <? OG_MAX_INSTANCES) with true by lia. cbn [negb andb wait_run wait_step].
  cbn [mbind outcome_bind]. destruct (ended 3%nat); cbn [wait_step mbind outcome_bind wait_run app]; [naive_solver|].
  destruct (drc_enqueue_txn signed x src t) as [t1|]; cbn [mbind outcome_bind wait_step wait_run app]; [|naive_solver].
  destruct (ended 1%nat); cbn [wait_step mbind outcome_bind wait_run app]; [|naive_solver].
  destruct (drc_release_txn signed self x t1) as [[w1 t2]|]; cbn [mbind outcome_bind app]; [|naive_solver].
  rewrite app_nil_r. naive_solver.
Qed.

(** What holds of every handler at every moment. *)
Definition waiter_ok (self x : Z) (s : wait_state) A (w : waiter) : Prop :=
  is_inst (wt_src w) /\ wt_src w <> self /\ (wt_mark w <= length (ws_woken s))%nat /\
  match wt_phase w with
  | W_CHECK => waits A x (wt_src w) \/ wt_src w ∈ drop (wt_mark w) (ws_woken s)
  | W_DONE TXN_WAIT => wt_src w ∈ drop (wt_mark w) (ws_woken s) \/ (waits A x (wt_src w) /\ ws_end s <> E_RELEASED)
  | _ => True
  end.

Definition wait_inv (self x : Z) (s : wait_state) : Prop :=
  exists A am Sp, trep (ws_tab s) A am Sp /\ forall h w, ws_waiters s !! h = Some w -> waiter_ok self x s A w.

(** A release turns registered instances into woken ones. *)
Lemma waiter_release self x s A w woken e' A' t' ws' :
  (forall k, is_inst k -> k ∈ woken <-> k <> self /\ waits A x k) -> waiter_ok self x s A w ->
  waiter_ok self x (mk_wstate e' t' (ws_woken s ++ woken) ws') A' w.
Proof.
  intros Hw (H1 & H2 & H3 & H4). split_and!; try done; cbn; [rewrite length_app; lia|].
  rewrite drop_app_le by done. specialize (Hw _ H1).
  destruct (wt_phase w) as [| | | |[]]; try done; [right|left]; rewrite elem_of_app; naive_solver.
Qed.

Lemma waiter_mono self x s s' A A' w :
  (forall k, waits A x k -> waits A' x k) -> ws_woken s' = ws_woken s -> (ws_end s <> E_RELEASED -> ws_end s' <> E_RELEASED) ->
  waiter_ok self x s A w -> waiter_ok self x s' A' w.
Proof.
  intros Hw Hl He (H1 & H2 & H3 & H4). unfold waiter_ok. rewrite Hl. split_and!; try done.
  destruct (wt_phase w) as [| | | |[]]; try done; naive_solver.
Qed.

Lemma wait_trans_inv self x s s' : wait_trans signed self x s s' -> wait_inv self x s -> wait_inv self x s'.
Proof.
  intros T (A & am & Sp & R & HW). destruct T as [s h src Hs Hne Hh|s h w p woken t Hh E|s He|s woken t He E|s t A0 am0 Sp0 A' am' Sp' R0 R' Hx].
  - exists A, am, Sp. split; [done|]. intros h' w'. cbn. intros [[<- <-]|[_ Hw]]%lookup_insert_Some.
    + split_and!; try done; cbn; lia.
    + eapply waiter_mono; [| | |by eapply HW]; try done; by intros k.
  - pose proof (HW h w Hh) as (H1 & H2 & H3 & H4).
    destruct (wt_phase w) eqn:Hp; cbn [wait_step] in E.
    + injection E as <- <- <-. rewrite app_nil_r. exists A, am, Sp. split; [done|]. intros h' w'. cbn.
      intros [[<- <-]|[_ Hw]]%lookup_insert_Some; [|eapply waiter_mono; [| | |by eapply HW]; try done; by intros k].
      split_and!; try done. cbn. by destruct (is_ended (ws_end s)).
    + destruct (enqueue_ok (ws_tab s) A am Sp x (wt_src w) R H1) as [(_ & _ & Ec)|(t1 & am1 & b & Ec & R1 & Hb)]; rewrite Ec in E; [done|].
      injection E as <- <- <-. rewrite app_nil_r. exists (<[x := b]> A), am1, Sp. split; [exact R1|].
      assert (forall k, waits A x k \/ k = wt_src w -> waits (<[x := b]> A) x k) as Hmono.
      { intros k Hk. exists b. rewrite lookup_insert_eq. split; [done|]. rewrite Hb. destruct H1. apply bm_set_mem; [unfold OG_MAX_INSTANCES in *; lia|].
        destruct Hk as [(b0 & Hb0 & Hm)|]; [right|by left]. by rewrite Hb0. }
      intros h' w'. cbn. intros [[<- <-]|[_ Hw]]%lookup_insert_Some; [|eapply waiter_mono; [| | |by eapply HW]; try done; intros k; by auto].
      split_and!; try done; cbn. left. apply Hmono. by right.
    + injection E as <- <- <-. rewrite app_nil_r. exists A, am, Sp. split; [done|]. intros h' w'. cbn.
      intros [[<- <-]|[_ Hw]]%lookup_insert_Some; [|eapply waiter_mono; [| | |by eapply HW]; try done; by intros k].
      split_and!; try done. cbn. destruct (ws_end s) eqn:He; cbn; try done. destruct H4; [right|by left]. done.
    + destruct (release_txn_ok (ws_tab s) A am Sp self x R) as (w1 & t1 & am1 & Ec & R1 & Hk). rewrite Ec in E. injection E as <- <- <-.
      exists (delete x A), am1, Sp. split; [exact R1|]. intros h' w'. cbn. intros [[<- <-]|[_ Hw]]%lookup_insert_Some.
      * split_and!; try done; cbn. rewrite length_app. lia.
      * eapply waiter_release; [exact Hk|by eapply HW].
    + injection E as <- <- <-. rewrite app_nil_r. exists A, am, Sp. split; [done|]. intros h' w'. cbn.
      intros [[<- <-]|[_ Hw]]%lookup_insert_Some; [|eapply waiter_mono; [| | |by eapply HW]; try done; by intros k].
      split_and!; try done.
  - exists A, am, Sp. split; [done|]. intros h w Hw. eapply waiter_mono; [| | |by eapply HW]; try done; by intros k.
  - destruct (release_txn_ok (ws_tab s) A am Sp self x R) as (w1 & t1 & am1 & Ec & R1 & Hk). rewrite Ec in E. injection E as <- <-.
    exists (delete x A), am1, Sp. split; [exact R1|]. intros h w Hw. eapply waiter_release; [exact Hk|by eapply HW].
  - exists A', am', Sp'. split; [done|]. intros h w Hw. eapply waiter_mono; [| | |by eapply HW]; try done.
    intros k (b & Hb & Hm). exists b. split; [|done]. by rewrite Hx, (flat_rep_fun _ _ _ _ _ _ _ _ _ R0 R).
Qed.

Definition wait_start t : wait_state := mk_wstate E_RUNNING t [] ∅.

Lemma wait_reach_inv self x t A am Sp s :
  trep t A am Sp -> rtc (wait_trans signed self x) (wait_start t) s -> wait_inv self x s.
Proof.
  intros R Hr. assert (wait_inv self x (wait_start t)) as H0 by (exists A, am, Sp; split; [done|]; intros h w; cbn; by rewrite lookup_empty).
  revert H0. induction Hr as [|s1 s2 s3 T Hr IH]; [done|]. intros H. apply IH. by eapply wait_trans_inv.
Qed.
End TxnThm.
