(* ===== verification/DrcTxnProps.v ===== *)
(** The properties of the transaction resources. *)

From S2P Require Import Prelude DrcBitmap DrcPool DrcResMap DrcGlobalRes DrcQueue DrcReform DrcMapTab DrcLock DrcTxn DrcTxnThm.

(** C40: no wake-up is lost.  However the handlers of the requests to wait for
    a transaction, the session that ends it and the handling of other
    transactions are interleaved, once the transaction has been ended and its
    waiters released, every instance that was told to wait has been sent a
    wake-up after it was registered. *)
Theorem txn_no_lost_wakeup : forall signed self x t A am Sp s h w,
  flat_rep (txn_hash signed) t A am Sp -> rtc (wait_trans signed self x) (wait_start t) s ->
  ws_end s = E_RELEASED -> ws_waiters s !! h = Some w -> wt_phase w = W_DONE TXN_WAIT ->
  wt_src w ∈ drop (wt_mark w) (ws_woken s).
Proof.
  intros signed self x t A am Sp s h w R Hr He Hw Hp.
  destruct (wait_reach_inv signed self x t A am Sp s R Hr) as (A' & am' & Sp' & _ & HW).
  destruct (HW h w Hw) as (_ & _ & _ & H). rewrite Hp in H. by destruct H as [?|[_ ?]].
Qed.

(** A table of four transactions. *)
Definition no_txns : txntab := mk_map false (mk_pool false 0 0 0 0 ∅) 0 ∅.
Definition demo_txns : txntab := match drc_res_map_init true true 4 40 no_txns with Ok (_, m) => m | Crash _ => no_txns end.

Lemma demo_txns_rep : flat_rep (txn_hash true) demo_txns ∅ ∅ ∅.
Proof.
  destruct (flat_init (txn_hash true) no_txns 40 4) as (m & E & R & _); try done.
  - intros k n Hn. by apply Z.mod_pos_bound.
  - unfold demo_txns. by rewrite E.
Qed.

(** Instance 2 asks instance 1 to wait for transaction 77, which then ends. *)
Definition demo_registered : txntab := match drc_enqueue_txn true 77 2 demo_txns with Ok t => t | Crash _ => no_txns end.
Definition demo_released : txntab := match drc_release_txn true 1 77 demo_registered with Ok (_, t) => t | Crash _ => no_txns end.

Lemma demo_run : rtc (wait_trans true 1 77) (wait_start demo_txns)
  (mk_wstate E_RELEASED demo_released [2] {[0%nat := mk_waiter 2 0 (W_DONE TXN_WAIT)]}).
Proof.
  eapply rtc_l. { apply (trans_arrive _ _ _ _ 0%nat 2); [by vm_compute|done|done]. }
  eapply rtc_l. { eapply (trans_handler _ _ _ _ 0%nat); [reflexivity|reflexivity]. }
  eapply rtc_l. { eapply (trans_handler _ _ _ _ 0%nat _ W_CHECK [] demo_registered); [reflexivity|vm_compute; reflexivity]. }
  eapply rtc_l. { eapply (trans_handler _ _ _ _ 0%nat); [reflexivity|reflexivity]. }
  eapply rtc_l. { by apply trans_end. }
  eapply rtc_l. { apply (trans_release _ _ _ _ [2] demo_released); [reflexivity|vm_compute; reflexivity]. }
  cbn. rewrite !insert_insert_eq. by apply rtc_refl.
Qed.

Lemma txn_no_lost_wakeup_witness : 2 ∈ drop 0 [2].
Proof.
  exact (txn_no_lost_wakeup true 1 77 demo_txns ∅ ∅ ∅ _ 0%nat (mk_waiter 2 0 (W_DONE TXN_WAIT)) demo_txns_rep demo_run
    eq_refl (lookup_singleton_eq 0%nat _) eq_refl).
Defined.
