(* ===== verification/Conc.v ===== *)
(** Threads: programs of atomic actions on a shared state, the interleavings
    of a pool of them, and the logic their safety is proved in.

    A C function that other threads run beside is modelled as a program: its
    atomic actions in order, each a function of the shared state; an action
    may have to wait, and may crash.  What the program does not decide itself
    (whether a message could be sent, a time stamp) is chosen by its
    surroundings.  A loop is cut after a number of rounds: the theorems hold
    for every number, so for every finite piece of every run.

    A crash takes the system down.  The logic is that of ownership: a thread owns entries of a finite map of
    ghost values, which no other thread changes, and what it has learned of
    addresses stays true.  The invariant ties the state to the entries of all
    threads together. *)

From S2P Require Import Prelude.

Inductive prog (St A : Type) : Type :=
| Ret (a : A)
| Act {B : Type} (f : St -> outcome (option (B * St))) (k : B -> prog St A)
| Any (k : Z -> prog St A)
| Stuck.
Arguments Ret {St A} a.
Arguments Act {St A B} f k.
Arguments Any {St A} k.
Arguments Stuck {St A}.

Fixpoint prog_bind {St A B} (k : A -> prog St B) (p : prog St A) : prog St B :=
  match p with
  | Ret a => k a
  | Act f k' => Act f (fun b => prog_bind k (k' b))
  | Any k' => Any (fun x => prog_bind k (k' x))
  | Stuck => Stuck
  end.
#[export] Instance prog_mret St : MRet (prog St) := fun A a => Ret a.
#[export] Instance prog_mbind St : MBind (prog St) := fun A B => prog_bind.

(** One atomic action, one choice, and a check that kills the process. *)
Definition act {St B} (f : St -> outcome (option (B * St))) : prog St B := Act f Ret.
Definition choose {St} : prog St Z := Any Ret.
Definition assert {St} (c : bool) : prog St unit := Act (fun s => _ ← knl_panic c; Ok (Some (tt, s))) Ret.

(** ** Interleavings *)
Section Pool.
Context {St : Type}.
Implicit Types (p : prog St unit) (ts : list (prog St unit)) (s : St).

(** One step of a thread; a crash takes the system down. *)
Inductive thread_step : St -> prog St unit -> St -> prog St unit -> Prop :=
| step_act s B (f : St -> outcome (option (B * St))) k b s' : f s = Ok (Some (b, s')) -> thread_step s (Act f k) s' (k b)
| step_any s k x : thread_step s (Any k) s (k x).
Inductive pool_step : St * list (prog St unit) -> St * list (prog St unit) -> Prop :=
| step_pool s ts n p s' p' : ts !! n = Some p -> thread_step s p s' p' -> pool_step (s, ts) (s', <[n := p']> ts).

(** A schedule: which thread goes on, and what is chosen if it asks; a thread
    that cannot go on stays where it is. *)
Definition step_of (x : Z) s p : option (St * prog St unit) :=
  match p with
  | Act f k => match f s with Ok (Some (b, s')) => Some (s', k b) | _ => None end
  | Any k => Some (s, k x)
  | Ret _ | Stuck => None
  end.
Fixpoint sched (l : list (nat * Z)) (c : St * list (prog St unit)) : St * list (prog St unit) :=
  match l with
  | [] => c
  | (n, x) :: l =>
      sched l (match c.2 !! n with
               | Some p => match step_of x c.1 p with Some (s', p') => (s', <[n := p']> c.2) | None => c end
               | None => c
               end)
  end.

Lemma step_of_ok x s p s' p' : step_of x s p = Some (s', p') -> thread_step s p s' p'.
Proof.
  destruct p as [a|B f k|k|]; cbn; try done.
  - destruct (f s) as [[[b s1]|]|] eqn:E; try done. intros [= <- <-]. by apply step_act.
  - intros [= <- <-]. apply step_any.
Qed.
Lemma sched_steps l c : rtc pool_step c (sched l c).
Proof.
  revert c. induction l as [|[n x] l IH]; intros [s ts]; cbn; [done|]. destruct (ts !! n) as [p|] eqn:Hn; [|done].
  destruct (step_of x s p) as [[s' p']|] eqn:E; [|done]. eapply rtc_l; [|apply IH]. eapply step_pool; [done|]. by eapply step_of_ok.
Qed.

(** A thread is about to crash. *)
Definition crashing s p (w : crash) : Prop :=
  match p with Act f _ => f s = Crash w | _ => False end.
Definition crash_of s p : option crash :=
  match p with Act f _ => match f s with Crash w => Some w | Ok _ => None end | _ => None end.
Lemma crash_of_ok s p w : crash_of s p = Some w -> crashing s p w.
Proof. destruct p as [a|B f k|k|]; cbn; try done. destruct (f s); [done|]. by intros [= ->]. Qed.
End Pool.

(** ** Ownership *)
Section Own.
Context {St K V N : Type} `{Countable K} `{Countable N}.
Context (Inv : St -> gmap N Z -> gmap K V -> Prop) (Exh : forall B, (St -> outcome (option (B * St))) -> St -> crash -> Prop).
Notation own := (gmap K V).
Notation known := (gmap N Z).
Implicit Types (m o : own) (kn : known).

(** What a thread that owns [m] and knows [kn] may do: every action keeps the
    invariant, whatever the others own, and leaves their entries alone; an
    action crashes only in a state where that is allowed of it ([Exh]). *)
Fixpoint wp {A} (p : prog St A) (Q : A -> known -> own -> Prop) kn m : Prop :=
  match p with
  | Ret a => Q a kn m
  | Stuck => True
  | Any k => forall x, wp (k x) Q kn m
  | Act f k => forall s kn1 o, kn ⊆ kn1 -> m ##ₘ o -> Inv s kn1 (m ∪ o) ->
      match f s with
      | Crash w => Exh _ f s w
      | Ok None => True
      | Ok (Some (b, s')) => exists kn2 m', kn1 ⊆ kn2 /\ m' ##ₘ o /\ Inv s' kn2 (m' ∪ o) /\ wp (k b) Q kn2 m'
      end
  end.

Lemma wp_mono {A} (p : prog St A) (Q Q' : A -> known -> own -> Prop) kn m :
  (forall a kn' m', kn ⊆ kn' -> Q a kn' m' -> Q' a kn' m') -> wp p Q kn m -> wp p Q' kn m.
Proof.
  revert kn m. induction p as [a|B f k IH|k IH|]; intros kn m HQ; cbn; [by auto| | |done].
  - intros W s kn1 o Hk Hd I. specialize (W s kn1 o Hk Hd I). destruct (f s) as [[[b s']|]|]; [|done..].
    destruct W as (kn2 & m' & ? & ? & ? & W). exists kn2, m'. split_and!; [done..|].
    apply IH; [|done]. intros a kn' m'' ?. apply HQ. etrans; [exact Hk|]. etrans; eassumption.
  - intros W x. apply IH; [by auto|done].
Qed.

Lemma wp_bind {A B} (p : prog St A) (k : A -> prog St B) (Q : B -> known -> own -> Prop) kn m :
  wp p (fun a => wp (k a) Q) kn m -> wp (p ≫= k) Q kn m.
Proof.
  revert kn m. induction p as [a|C f k' IH|k' IH|]; intros kn m; cbn; [done| | |done].
  - intros W s kn1 o Hk Hd I. specialize (W s kn1 o Hk Hd I). destruct (f s) as [[[b s']|]|]; [|done..].
    destruct W as (kn2 & m' & ? & ? & ? & W). exists kn2, m'. split_and!; [done..|]. by apply IH.
  - intros W x. by apply IH.
Qed.

(** The entries a program does not need are framed. *)
Lemma wp_frame {A} (p : prog St A) (Q : A -> known -> own -> Prop) kn m o :
  m ##ₘ o -> wp p Q kn m -> wp p (fun a kn' m' => exists m1, m' = m1 ∪ o /\ m1 ##ₘ o /\ Q a kn' m1) kn (m ∪ o).
Proof.
  revert kn m. induction p as [a|B f k IH|k IH|]; intros kn m Hmo; cbn; [by eauto| | |done].
  - intros W s kn1 o1 Hk [Hd1 Hd2]%map_disjoint_union_l I. rewrite <- map_union_assoc in I.
    assert (m ##ₘ o ∪ o1) as Hd by (apply map_disjoint_union_r_2; done).
    specialize (W s kn1 _ Hk Hd I). destruct (f s) as [[[b s']|]|]; [|done..].
    destruct W as (kn2 & m' & ? & [Ha Hb]%map_disjoint_union_r & I' & W). exists kn2, (m' ∪ o).
    rewrite <- map_union_assoc. split_and!; [done|by apply map_disjoint_union_l_2|done|by apply IH].
  - intros W x. by apply IH.
Qed.

(** ** The threads together *)

(** Every thread is safe with its part of the entries. *)
Fixpoint pool_ok kn (ts : list (prog St unit)) (O : own) : Prop :=
  match ts with
  | [] => O = ∅
  | p :: ts => exists m o, O = m ∪ o /\ m ##ₘ o /\ (exists kn0, kn0 ⊆ kn /\ wp p (fun _ _ _ => True) kn0 m) /\ pool_ok kn ts o
  end.

Lemma pool_ok_known kn kn' ts O : kn ⊆ kn' -> pool_ok kn ts O -> pool_ok kn' ts O.
Proof.
  intros Hk. revert O. induction ts as [|p ts IH]; intros O; cbn; [done|].
  intros (m & o & ? & ? & (kn0 & ? & ?) & ?). exists m, o. split_and!; [done..| |by apply IH]. exists kn0. split; [|done]. by etrans.
Qed.

Lemma pool_thread s kn n p p' s' ts O F :
  pool_ok kn ts O -> O ##ₘ F -> Inv s kn (O ∪ F) -> ts !! n = Some p -> thread_step s p s' p' ->
  exists kn' O', kn ⊆ kn' /\ O' ##ₘ F /\ Inv s' kn' (O' ∪ F) /\ pool_ok kn' (<[n := p']> ts) O'.
Proof.
  revert n O F. induction ts as [|p0 ts IH]; intros n O F; cbn; [done|].
  intros (m & o & -> & Hmo & (kn0 & Hk0 & W) & P) [Hm Ho]%map_disjoint_union_l I Hn Hs. destruct n as [|n]; cbn in Hn.
  - injection Hn as ->. rewrite <- map_union_assoc in I. destruct Hs as [s B f k b s' E|s k x].
    + assert (m ##ₘ o ∪ F) as Hd by (apply map_disjoint_union_r_2; done).
      cbn in W. specialize (W s kn (o ∪ F) Hk0 Hd I). rewrite E in W.
      destruct W as (kn2 & m' & Hk & [Ha Hb]%map_disjoint_union_r & I' & W). exists kn2, (m' ∪ o). rewrite <- map_union_assoc.
      split_and!; [done|by apply map_disjoint_union_l_2|done|]. exists m', o. split_and!; [done..| |by eapply pool_ok_known]. by exists kn2.
    + exists kn, (m ∪ o). rewrite <- map_union_assoc. split_and!; [done|by apply map_disjoint_union_l_2|done|].
      exists m, o. split_and!; [done..| |done]. exists kn0. split; [done|]. apply W.
  - assert (o ##ₘ m ∪ F) as Hd by (apply map_disjoint_union_r_2; [by symmetry|done]).
    assert (Inv s kn (o ∪ (m ∪ F))) as I'.
    { rewrite map_union_assoc, (map_union_comm o m) by done. exact I. }
    destruct (IH n o (m ∪ F) P Hd I' Hn Hs) as (kn' & o' & Hk & [Ha Hb]%map_disjoint_union_r & I'' & P').
    exists kn', (m ∪ o'). split_and!; [done|by apply map_disjoint_union_l_2| |].
    + rewrite map_union_assoc, (map_union_comm o' m) in I'' by done. exact I''.
    + exists m, o'. split_and!; [done|by symmetry| |done]. exists kn0. split; [by etrans|done].
Qed.

(** Every state the threads reach satisfies the invariant. *)
Lemma pool_safe s ts s' ts' kn O :
  pool_ok kn ts O -> Inv s kn O -> rtc pool_step (s, ts) (s', ts') ->
  exists kn' O', Inv s' kn' O' /\ pool_ok kn' ts' O'.
Proof.
  intros P I Hr. remember (s, ts) as x eqn:Ex. remember (s', ts') as y eqn:Ey.
  revert s ts kn O Ex P I. induction Hr as [x|x y z Hs Hr IH]; intros s ts kn O -> P I.
  - injection Ey as -> ->. eauto.
  - inversion Hs as [s0 ts0 n p s1 p' Hn Hp]; subst.
    destruct (pool_thread s kn n p p' s1 ts O ∅) as (kn1 & O1 & _ & _ & I1 & P1); [done|apply map_disjoint_empty_r|by rewrite map_union_empty|done..|].
    rewrite map_union_empty in I1. eapply IH; done.
Qed.

(** The crash of the next action of a thread is one that is allowed of it. *)
Definition allowed s (p : prog St unit) (w : crash) : Prop :=
  match p with Act f _ => Exh _ f s w | _ => False end.

Lemma thread_no_crash s kn kn0 p m o w :
  wp p (fun _ _ _ => True) kn0 m -> kn0 ⊆ kn -> m ##ₘ o -> Inv s kn (m ∪ o) -> crashing s p w -> allowed s p w.
Proof.
  destruct p as [a|B f k|k|]; cbn; try tauto. intros W Hk Hd I E. specialize (W s kn o Hk Hd I). by rewrite E in W.
Qed.

Lemma pool_no_crash s kn ts O F p w :
  pool_ok kn ts O -> O ##ₘ F -> Inv s kn (O ∪ F) -> p ∈ ts -> crashing s p w -> allowed s p w.
Proof.
  revert O F. induction ts as [|q ts IH]; intros O F; cbn; [by intros _ _ _ ?%elem_of_nil|].
  intros (m & o & -> & Hmo & (kn0 & Hk0 & W) & P) [Hm Ho]%map_disjoint_union_l I. intros [->|Hp]%elem_of_cons.
  - rewrite <- map_union_assoc in I. eapply thread_no_crash; [done..| |exact I]. by apply map_disjoint_union_r_2.
  - eapply (IH o (m ∪ F)); [done|apply map_disjoint_union_r_2; [by symmetry|done]| |done].
    by rewrite map_union_assoc, (map_union_comm o m).
Qed.
End Own.
