(* ===== verification/Dls.v ===== *)
(** The distributed lock service (src/pkg/src/cluster/dtc_dls.c): the latches
    and spin locks sessions take across the cluster.

    Each function is a program of atomic actions on the cluster: the tables
    of local locks of all instances and those of the locks each is the master
    of.  An action is a function of [DrcLocal] or [DrcLock] on one table, a
    read of a local lock or a write to its members.  A session that sends a
    request waits for the answer without a time limit ([DLS_WAIT_TIMEOUT]), so
    the handler of the message is run in the place of the call, on the tables
    of the instance it is sent to; whether the message can be sent is chosen
    by the surroundings, and an answer that never comes is a thread that never
    goes on.  Loops are cut after [n] rounds.

    The reform state ([vw]) and the masters of the locks ([lock_master]) are
    those of one version: they do not change.  Of the functions the branch for
    a clustered database is modelled ([attr.clustered], mounted, not a replay
    node); statistics and logs are left out. *)

From S2P Require Import Prelude DrcBitmap DrcPool DrcResMap DrcGlobalRes DrcQueue DrcTable DrcReform DrcMapTab DrcLock DrcLocal.
From S2P Require Import Conc.

Definition DR_TYPE_INVALID : Z := 0.
Definition DR_TYPE_BTREE_LATCH : Z := 16.
Definition DR_TYPE_BRTEE_PART_LATCH : Z := 17.
Definition DR_TYPE_SHUTDOWN : Z := 25.
Definition OG_SPIN_COUNT : Z := 1000.
Definition OG_DLS_SPIN_COUNT : Z := 3.

(** The tables of the instances. *)
Record cluster := mk_cluster { cl_loc : gmap Z loctab; cl_mas : gmap Z ltab }.

(** The commands of [msg_lock_req_t] and the message; what answers it: the
    acknowledgement, or the error message a handler may send instead. *)
Inductive lock_cmd :=
| MES_CMD_REQUEST_LOCK | MES_CMD_TRY_REQUEST_LOCK | MES_CMD_REQUEST_LATCH_S | MES_CMD_REQUEST_LATCH_X
| MES_CMD_RELEASE_LOCK | MES_CMD_TRY_RELEASE_LOCK | MES_CMD_CLEAN_GRANTED_MAP | MES_CMD_OTHER.
Record msg_lock_req := mk_lreq {
  mq_cmd : lock_cmd; mq_size_ok : bool; mq_src_inst : Z; mq_src_sid : Z; mq_rsn : Z; mq_time : Z;
  mq_lock_id : drid; mq_version : Z; mq_mode : Z; mq_ticks : Z;
}.
Inductive lock_ack := LockAck (st : status) (version : Z) | ErrorMsg.

(** Setting members of a local latch. *)
Definition la_set_count x l := mk_latch (u16 x) (la_stat l) (la_sid l) (la_lock_mode l).
Definition la_set_sid x l := mk_latch (la_shared_count l) (la_stat l) (u16 x) (la_lock_mode l).
Definition la_set_mode x l := mk_latch (la_shared_count l) (la_stat l) (la_sid l) x.

Definition ll_set_count x b := mk_local (ll_res_id b) (ll_is_owner b) (ll_is_locked b) x (ll_lock b) (ll_lockc b) (ll_latch b).

Definition ok (st : status) : bool := bool_decide (st = OG_SUCCESS).

(** A function on the table of local locks, or of locks, of instance [i], as a
    function on the cluster. *)
Notation loc_act i f := (fun s : cluster =>
  t ← rd (cl_loc s) i; o ← f t;
  Ok (match o with Some (b, t) => Some (b, mk_cluster (<[i := t]> (cl_loc s)) (cl_mas s)) | None => None end)) (only parsing).
Notation mas_act i f := (fun s : cluster =>
  t ← rd (cl_mas s) i; '(b, t) ← f t; Ok (Some (b, mk_cluster (cl_loc s) (<[i := t]> (cl_mas s))))) (only parsing).

Section Dls.
Context (signed : bool) (pad : list Z) (vw : view) (lock_master : drid -> Z) (inst_count : Z).
Notation prog := (prog cluster).

(** ** Actions *)
Definition on_loc {B} (i : Z) (f : loctab -> outcome (option (B * loctab))) : prog B := act (loc_act i f).
Definition on_mas {B} (i : Z) (f : ltab -> outcome (B * ltab)) : prog B := act (mas_act i f).

Definition get_resx (i : Z) (d : drid) : prog Z := on_loc i (fun t => r ← drc_get_local_resx signed pad d t; Ok (Some r)).
Definition find_resx (i : Z) (d : drid) : prog (option Z) :=
  on_loc i (fun t => o ← drc_get_local_resx_without_create signed pad d t; Ok (Some (o, t))).
Definition lock_resx (i a : Z) : prog unit := on_loc i (fun t => o ← drc_lock_local_resx a t; Ok (option_map (pair tt) o)).
Definition try_lock_resx (i a : Z) : prog bool := on_loc i (fun t => r ← drc_try_lock_local_resx a t; Ok (Some r)).
Definition unlock_resx (i a : Z) : prog unit := on_loc i (fun t => t ← drc_unlock_local_resx a t; Ok (Some (tt, t))).
Definition read_resx (i a : Z) : prog local_lock := on_loc i (fun t => b ← fm_get t a; Ok (Some (b, t))).
Definition set_statx (i a : Z) (locked owner : bool) : prog unit :=
  on_loc i (fun t => t ← drc_set_local_lock_statx a locked owner t; Ok (Some (tt, t))).
Definition set_latchx (i a : Z) (f : drc_local_latch -> drc_local_latch) : prog unit :=
  on_loc i (fun t => b ← fm_get t a; t ← fm_put t a (ll_set_latch (f (ll_latch b)) b); Ok (Some (tt, t))).

(** ** Messages *)

(** What [dls_request_msg] makes of what [mes_recv] leaves it. *)
Definition dls_answer (d : drid) (recv : option lock_ack) : status :=
  match recv with
  | None => OG_ERROR
  | Some ErrorMsg => OG_SUCCESS
  | Some (LockAck st version) => if DRC_STOP_DLS_REQ_FOR_REFORMING version vw d then OG_ERROR else st
  end.

(** [dls_request_msg]; [handler] is the handler at the receiver, [None] when
    it drops the message. *)
Definition dls_request_msg (handler : msg_lock_req -> prog (option lock_ack)) (msg : msg_lock_req) : prog status :=
  sent ← choose;
  if sent =? 0 then Ret OG_ERROR
  else
    r ← handler msg;
    match r with None => Stuck | Some _ => Ret (dls_answer (mq_lock_id msg) r) end.

(** The message about request [r], and the request of a message. *)
Definition msg_of_req (cmd : lock_cmd) (self : Z) (d : drid) (version : Z) (r : drc_req_info) : msg_lock_req :=
  mk_lreq cmd true self (inst_sid r) (rsn r) (req_time r) d version (req_mode r) (release_timeout_ticks r).
Definition req_of_msg (msg : msg_lock_req) : drc_req_info :=
  mk_req (mq_src_inst msg) (mq_mode msg) DRC_LOCK_MODE_MAX 0 (mq_src_sid msg) (mq_rsn msg) (mq_time msg) (mq_version msg)
         OG_INVALID_ID64 (mq_ticks msg).

(** ** Giving up a lock *)

(** [dls_process_unlock_table] at instance [i]; whether the table can be
    opened and locked is the table lock manager's business. *)
Definition dls_process_unlock_table (i : Z) (d : drid) (mode : Z) : prog status :=
  opened ← choose;
  if opened =? 0 then
    o ← find_resx i d;
    match o with None => Ret OG_SUCCESS | Some _ => Ret OG_ERROR end
  else
    locked ← choose;
    if locked =? 0 then Ret OG_ERROR
    else
      o ← find_resx i d;
      match o with
      | None => Ret OG_SUCCESS
      | Some a =>
          _ ← lock_resx i a;
          b ← read_resx i a;
          _ ← assert (negb (la_lock_mode (ll_latch b) =? DRC_LOCK_NULL));
          _ ← (if mode =? DRC_LOCK_EXCLUSIVE then set_latchx i a (la_set_mode DRC_LOCK_NULL)
               else
                 _ ← assert (mode =? DRC_LOCK_SHARE);
                 _ ← assert (la_lock_mode (ll_latch b) =? DRC_LOCK_EXCLUSIVE);
                 set_latchx i a (la_set_mode DRC_LOCK_SHARE));
          _ ← unlock_resx i a;
          Ret OG_SUCCESS
      end.

(** [dls_broadcast_btree_split]; whether the index is splitting is the
    index's business. *)
Definition dls_broadcast_btree_split (d : drid) (mode : Z) : prog status :=
  if (mode =? DRC_LOCK_SHARE) || negb (dr_is_shadow d =? 0) then Ret OG_SUCCESS
  else if negb (dr_type d =? DR_TYPE_BTREE_LATCH) && negb (dr_type d =? DR_TYPE_BRTEE_PART_LATCH) then Ret OG_SUCCESS
  else splitting ← choose; Ret (if splitting =? 0 then OG_SUCCESS else OG_ERROR).

(** The loop of [dls_process_release_ownership]. *)
Fixpoint release_loop (n : nat) (i : Z) (d : drid) (mode version ticks times : Z) : prog status :=
  match n with
  | O => Stuck
  | S n =>
      o ← find_resx i d;
      match o with
      | None => Ret OG_SUCCESS
      | Some a =>
          _ ← lock_resx i a;
          b ← read_resx i a;
          if ll_is_locked b && (dr_type d =? DR_TYPE_SHUTDOWN) then _ ← unlock_resx i a; Ret OG_ERROR
          else if negb (ticks =? OG_INVALID_ID32) && (ticks <=? times) then _ ← unlock_resx i a; Ret OG_ERROR
          else if ll_is_locked b then _ ← unlock_resx i a; release_loop n i d mode version ticks (u32 (times + 1))
          else if DRC_STOP_DLS_REQ_FOR_REFORMING version vw d then _ ← unlock_resx i a; Ret OG_ERROR
          else
            b ← read_resx i a;
            if (negb (ll_is_locked b) && (la_stat (ll_latch b) =? LATCH_STATUS_IDLE)) ||
               ((la_stat (ll_latch b) =? LATCH_STATUS_IX) && (la_shared_count (ll_latch b) =? 0)) then
              if la_lock_mode (ll_latch b) =? DRC_LOCK_NULL then _ ← unlock_resx i a; Ret OG_ERROR
              else
                st ← dls_broadcast_btree_split d mode;
                if negb (ok st) then _ ← unlock_resx i a; Ret OG_ERROR
                else
                  _ ← (if mode =? DRC_LOCK_EXCLUSIVE then
                         _ ← set_latchx i a (la_set_mode DRC_LOCK_NULL); set_statx i a false false
                       else
                         _ ← assert (mode =? DRC_LOCK_SHARE);
                         _ ← set_latchx i a (la_set_mode DRC_LOCK_SHARE); set_statx i a false true);
                  _ ← unlock_resx i a;
                  Ret OG_SUCCESS
            else _ ← unlock_resx i a; release_loop n i d mode version ticks times
      end
  end.

(** [dls_process_release_ownership] at instance [i]. *)
Definition dls_process_release_ownership (n : nat) (i : Z) (d : drid) (mode version ticks : Z) : prog status :=
  if DRC_STOP_DLS_REQ_FOR_REFORMING version vw d then Ret OG_ERROR
  else if negb (mode =? DRC_LOCK_EXCLUSIVE) && negb (mode =? DRC_LOCK_SHARE) then Ret OG_ERROR
  else if dr_type d =? DR_TYPE_TABLE then dls_process_unlock_table i d mode
  else release_loop n i d mode version ticks 0.

(** The three readings of [dls_process_try_release_ownership]: [false] when
    it times out, also when the third finds the lock free. *)
Fixpoint try_wait (n : nat) (i a : Z) : prog bool :=
  match n with
  | O => Ret false
  | S n => b ← read_resx i a; if negb (ll_is_locked b) && (0 <? Z.of_nat n) then Ret true else try_wait n i a
  end.

(** [dls_process_try_release_ownership]. *)
Definition dls_process_try_release_ownership (i : Z) (d : drid) (mode version : Z) : prog status :=
  if DRC_STOP_DLS_REQ_FOR_REFORMING version vw d then Ret OG_ERROR
  else if negb (mode =? DRC_LOCK_EXCLUSIVE) && negb (mode =? DRC_LOCK_SHARE) then Ret OG_ERROR
  else if dr_type d =? DR_TYPE_TABLE then dls_process_unlock_table i d mode
  else
    a ← get_resx i d;
    free ← try_wait 3 i a;
    if negb free then Ret OG_ERROR
    else
      _ ← lock_resx i a;
      b ← read_resx i a;
      if la_lock_mode (ll_latch b) =? DRC_LOCK_NULL then _ ← unlock_resx i a; Ret OG_ERROR
      else
        _ ← (if mode =? DRC_LOCK_EXCLUSIVE then
               _ ← set_latchx i a (la_set_mode DRC_LOCK_NULL); set_statx i a false false
             else
               _ ← assert (mode =? DRC_LOCK_SHARE);
               _ ← assert (la_lock_mode (ll_latch b) =? DRC_LOCK_EXCLUSIVE);
               _ ← set_latchx i a (la_set_mode DRC_LOCK_SHARE); set_statx i a false true);
        _ ← unlock_resx i a;
        Ret OG_SUCCESS.

(** ** The master's functions as programs *)
Definition reply0 : lock_reply := mk_reply OG_ERROR false 0.

(** The rounds a queued request waits. *)
Fixpoint wait_rounds (n : nat) (m : Z) (d : drid) (r : drc_req_info) (version i : Z) : prog lock_reply :=
  match n with
  | O => Stuck
  | S n =>
      a ← on_mas m (fun t => lock_wait_loop 1 (fun _ => vw) (fun _ t => t) 0 version d r reply0 i t);
      match a with Some a => Ret a | None => wait_rounds n m d r version i end
  end.

(** [drc_request_lock_owner]: up to the wait, then the wait on the resource
    found. *)
Definition request_begin (d : drid) (r : drc_req_info) (version : Z) (t : ltab) : outcome (option lock_reply * Z * ltab) :=
  '(a, t) ← drc_request_lock_owner signed pad 0 vw (fun _ => vw) (fun _ t => t) d r version reply0 t;
  o ← lock_lookup signed pad t d;
  Ok ((a, default OG_INVALID_ID32 o), t).
Definition request_owner (n : nat) (m : Z) (d : drid) (r : drc_req_info) (version : Z) : prog lock_reply :=
  '(a, i) ← on_mas m (request_begin d r version);
  match a with Some a => Ret a | None => wait_rounds n m d r version i end.

Definition try_request_owner (m : Z) (d : drid) (r : drc_req_info) (version : Z) : prog lock_reply :=
  on_mas m (drc_try_request_lock_owner signed pad vw vw d r version reply0).
Definition cancel_request (m inst : Z) (d : drid) : prog status := on_mas m (drc_cancel_lock_owner_request signed pad inst d).
Definition clear_granted (m inst : Z) (d : drid) : prog unit :=
  on_mas m (fun t => t ← dls_clear_granted_map_for_inst signed pad d inst t; Ok (tt, t)).
Definition claim_owner (m : Z) (d : drid) (c : lock_claim) (version : Z) : prog status :=
  on_mas m (drc_claim_lock_owner signed pad vw d c version false).

(** [dls_clean_granted_map]. *)
Definition dls_clean_granted_map (m : Z) (d : drid) (inst : Z) : prog status := _ ← clear_granted m inst d; Ret OG_SUCCESS.

(** [dls_process_clean_granted_map]. *)
Definition dls_process_clean_granted_map (m : Z) (msg : msg_lock_req) : prog status :=
  if DRC_STOP_DLS_REQ_FOR_REFORMING (mq_version msg) vw (mq_lock_id msg) then Ret OG_ERROR
  else if OG_MAX_INSTANCES <=? mq_src_inst msg then Ret OG_ERROR
  else dls_clean_granted_map m (mq_lock_id msg) (mq_src_inst msg).

(** [dls_process_claim_ownership]. *)
Definition dls_process_claim_ownership (m : Z) (msg : msg_lock_req) : prog status :=
  claim_owner m (mq_lock_id msg) (mk_lclaim (mq_src_inst msg) (mq_mode msg) (mq_src_sid msg)) (mq_version msg).

(** [dls_process_lock_msg] at instance [self]; the three handlers of requests
    to a master are arguments, as they send messages themselves. *)
Section LockMsg.
Context (ask_lock ask_latch try_ask : nat -> Z -> msg_lock_req -> prog status).
Definition process_lock_msg (n : nat) (self : Z) (msg : msg_lock_req) : prog (option lock_ack) :=
  if negb (mq_size_ok msg) then Ret None
  else
    '(st, claim) ← match mq_cmd msg with
      | MES_CMD_REQUEST_LOCK => st ← ask_lock n self msg; Ret (st, true)
      | MES_CMD_REQUEST_LATCH_S | MES_CMD_REQUEST_LATCH_X => st ← ask_latch n self msg; Ret (st, true)
      | MES_CMD_TRY_REQUEST_LOCK => st ← try_ask n self msg; Ret (st, true)
      | MES_CMD_RELEASE_LOCK =>
          st ← dls_process_release_ownership n self (mq_lock_id msg) (mq_mode msg) (mq_version msg) (mq_ticks msg);
          Ret (st, false)
      | MES_CMD_TRY_RELEASE_LOCK =>
          st ← dls_process_try_release_ownership self (mq_lock_id msg) (mq_mode msg) (mq_version msg); Ret (st, false)
      | MES_CMD_CLEAN_GRANTED_MAP => st ← dls_process_clean_granted_map self msg; Ret (st, false)
      | MES_CMD_OTHER => Ret (OG_ERROR, false)
      end;
    st ← (if (claim : bool) && ok st then dls_process_claim_ownership self msg else Ret st);
    Ret (Some (LockAck st (mq_version msg))).
End LockMsg.

(** A message to a holder: the requests to a master do not occur in it. *)
Definition holder_msg : nat -> Z -> msg_lock_req -> prog (option lock_ack) :=
  process_lock_msg (fun _ _ _ => Stuck) (fun _ _ _ => Stuck) (fun _ _ _ => Stuck).

(** A holder is told to give up the lock: by a call when it is the master
    itself, by a message otherwise. *)
Definition ask_release (n : nat) (self k : Z) (d : drid) (r : drc_req_info) (version : Z) : prog status :=
  if self =? k then dls_process_release_ownership n self d (req_mode r) version (release_timeout_ticks r)
  else dls_request_msg (holder_msg n k) (msg_of_req MES_CMD_RELEASE_LOCK self d version r).
Definition ask_try_release (n : nat) (self k : Z) (d : drid) (r : drc_req_info) (version : Z) : prog status :=
  if self =? k then dls_process_try_release_ownership self d (req_mode r) version
  else dls_request_msg (holder_msg n k) (msg_of_req MES_CMD_TRY_RELEASE_LOCK self d version r).

(** The instances the code's loops run over. *)
Definition insts : list Z := seqZ 0 inst_count.

(** The loop over the holders in [map] that [dls_process_ask_master_for_latch]
    and [dls_request_lock] have: [release] asks one, [fail] ends the request
    when it does not give up the lock. *)
Fixpoint ask_holders (release : Z -> prog status) (fail : status -> prog status) (self skip : Z) (d : drid) (mode map : Z)
    (l : list Z) : prog status :=
  match l with
  | [] => Ret OG_SUCCESS
  | k :: l =>
      if negb (drc_bitmap64_exist map k) || (skip =? k) then ask_holders release fail self skip d mode map l
      else
        st ← release k;
        if negb (ok st) then fail st
        else
          _ ← (if mode =? DRC_LOCK_EXCLUSIVE then clear_granted self k d else Ret tt);
          ask_holders release fail self skip d mode map l
  end.

Definition latch_holders (n : nat) (self : Z) (d : drid) (r : drc_req_info) (version map : Z) : prog status :=
  ask_holders (fun k => ask_release n self k d r version)
    (fun st => if DRC_STOP_DLS_REQ_FOR_REFORMING version vw d then Ret OG_ERROR
               else _ ← cancel_request self (inst_id r) d; Ret st)
    self (inst_id r) d (req_mode r) map insts.

Definition mode_of_cmd (cmd : lock_cmd) : Z :=
  match cmd with MES_CMD_REQUEST_LATCH_S => DRC_LOCK_SHARE | _ => DRC_LOCK_EXCLUSIVE end.

(** [dls_process_ask_master_for_latch]. *)
Definition dls_process_ask_master_for_latch (n : nat) (self : Z) (msg : msg_lock_req) : prog status :=
  let d := mq_lock_id msg in
  let version := mq_version msg in
  if negb (mq_mode msg =? mode_of_cmd (mq_cmd msg)) || (OG_MAX_INSTANCES <=? mq_src_inst msg) then Ret OG_ERROR
  else
    let r := req_of_msg msg in
    a ← request_owner n self d r version;
    if negb (ok (lr_status a)) then Ret (lr_status a)
    else if lr_granted a then Ret OG_SUCCESS
    else latch_holders n self d r version (lr_old_map a).

(** The first holder in the map, [OG_INVALID_ID8] when there is none. *)
Definition first_holder (map : Z) : Z := default OG_INVALID_ID8 (head (filter (fun k => drc_bitmap64_exist map k = true) insts)).

(** What the two handlers of spin lock requests do with the holder. *)
Definition release_first (release : Z -> prog status) (self : Z) (d : drid) (r : drc_req_info) (version map : Z) : prog status :=
  if drc_bitmap64_exist map (inst_id r) then Ret OG_SUCCESS
  else
    st ← release (first_holder map);
    if negb (ok st) then
      if DRC_STOP_DLS_REQ_FOR_REFORMING version vw d then Ret st
      else _ ← cancel_request self (inst_id r) d; Ret st
    else Ret st.

(** [dls_process_ask_master_for_lock]. *)
Definition dls_process_ask_master_for_lock (n : nat) (self : Z) (msg : msg_lock_req) : prog status :=
  let d := mq_lock_id msg in
  let version := mq_version msg in
  if negb (mq_mode msg =? DRC_LOCK_EXCLUSIVE) || (OG_MAX_INSTANCES <=? mq_src_inst msg) then Ret OG_ERROR
  else
    let r := req_of_msg msg in
    a ← request_owner n self d r version;
    if negb (ok (lr_status a)) then Ret (lr_status a)
    else if lr_granted a then Ret OG_SUCCESS
    else release_first (fun k => ask_release n self k d r version) self d r version (lr_old_map a).

(** [dls_process_try_ask_master_for_lock]. *)
Definition dls_process_try_ask_master_for_lock (n : nat) (self : Z) (msg : msg_lock_req) : prog status :=
  let d := mq_lock_id msg in
  let version := mq_version msg in
  if negb (mq_mode msg =? DRC_LOCK_EXCLUSIVE) || (OG_MAX_INSTANCES <=? mq_src_inst msg) then Ret OG_ERROR
  else
    let r := req_of_msg msg in
    a ← try_request_owner self d r version;
    if negb (ok (lr_status a)) then Ret (lr_status a)
    else if lr_granted a then Ret OG_SUCCESS
    else release_first (fun k => ask_try_release n self k d r version) self d r version (lr_old_map a).

Definition dls_process_lock_msg : nat -> Z -> msg_lock_req -> prog (option lock_ack) :=
  process_lock_msg dls_process_ask_master_for_lock dls_process_ask_master_for_latch dls_process_try_ask_master_for_lock.

(** ** Asking for a lock *)

(** The holders are asked by [dls_request_lock], this instance being the
    master. *)
Definition own_holders (n : nat) (self : Z) (d : drid) (r : drc_req_info) (version map : Z) : prog status :=
  ask_holders (fun k => dls_request_msg (holder_msg n k) (msg_of_req MES_CMD_RELEASE_LOCK self d version r))
    (fun st => _ ← cancel_request self self d; Ret st)
    self self d (req_mode r) map insts.

(** The claim that ends a request at its own master. *)
Definition own_claim (self : Z) (d : drid) (r : drc_req_info) (version : Z) : prog status :=
  st ← claim_owner self d (mk_lclaim (inst_id r) (req_mode r) (inst_sid r)) version;
  if negb (ok st) then _ ← cancel_request self self d; Ret st else Ret st.

(** [dls_request_lock]. *)
Definition dls_request_lock (n : nat) (self : Z) (d : drid) (r : drc_req_info) (cmd : lock_cmd) : prog status :=
  let version := req_version r in
  if lock_master d =? self then
    a ← request_owner n self d r version;
    if negb (ok (lr_status a)) then Ret (lr_status a)
    else
      st ← (if lr_granted a then Ret OG_SUCCESS else own_holders n self d r version (lr_old_map a));
      if negb (ok st) then Ret st else own_claim self d r version
  else dls_request_msg (dls_process_lock_msg n (lock_master d)) (msg_of_req cmd self d version r).

(** The request the functions below fill in. *)
Definition new_request (self sid mode rsn time ticks : Z) : drc_req_info :=
  mk_req self mode DRC_LOCK_MODE_MAX 0 sid rsn time (v_trigger_version vw) OG_INVALID_ID64 ticks.

(** The loop [dls_request_latch_s], [dls_request_latch_x] and
    [dls_request_spin_lock] share. *)
Fixpoint request_loop (n : nat) (self sid : Z) (d : drid) (mode : Z) (cmd : lock_cmd) (timeout : bool)
    (timeout_ticks release_ticks spin_times wait_ticks : Z) : prog bool :=
  match n with
  | O => Stuck
  | S n =>
      rsn ← choose; time ← choose;
      st ← dls_request_lock n self d (new_request self sid mode rsn time release_ticks) cmd;
      if ok st then Ret true
      else if timeout && (timeout_ticks <=? wait_ticks) then Ret false
      else if spin_times + 1 =? OG_DLS_SPIN_COUNT
      then request_loop n self sid d mode cmd timeout timeout_ticks release_ticks 0 (u32 (wait_ticks + 1))
      else request_loop n self sid d mode cmd timeout timeout_ticks release_ticks (spin_times + 1) wait_ticks
  end.

(** [dls_request_latch_s], [dls_request_latch_x], [dls_request_spin_lock]. *)
Definition dls_request_latch_s (n : nat) (self sid : Z) (d : drid) (timeout : bool) (timeout_ticks release_ticks : Z) : prog bool :=
  request_loop n self sid d DRC_LOCK_SHARE MES_CMD_REQUEST_LATCH_S timeout timeout_ticks release_ticks 0 0.
Definition dls_request_latch_x (n : nat) (self sid : Z) (d : drid) (timeout : bool) (timeout_ticks release_ticks : Z) : prog bool :=
  request_loop n self sid d DRC_LOCK_EXCLUSIVE MES_CMD_REQUEST_LATCH_X timeout timeout_ticks release_ticks 0 0.
Definition dls_request_spin_lock (n : nat) (self sid : Z) (d : drid) : prog unit :=
  _ ← request_loop n self sid d DRC_LOCK_EXCLUSIVE MES_CMD_REQUEST_LOCK false 0 OG_INVALID_ID32 0 0; Ret tt.

(** The loop of [dls_try_request_lock]. *)
Fixpoint try_holders (n : nat) (self : Z) (d : drid) (r : drc_req_info) (version map : Z) (l : list Z) : prog status :=
  match l with
  | [] => Ret OG_SUCCESS
  | k :: l =>
      if negb (drc_bitmap64_exist map k) then try_holders n self d r version map l
      else
        st ← dls_request_msg (holder_msg n k) (msg_of_req MES_CMD_TRY_RELEASE_LOCK self d version r);
        if negb (ok st) then _ ← cancel_request self self d; Ret st
        else try_holders n self d r version map l
  end.

(** [dls_try_request_lock]. *)
Definition dls_try_request_lock (n : nat) (self sid : Z) (d : drid) : prog status :=
  rsn ← choose; time ← choose;
  let version := v_trigger_version vw in
  let r := new_request self sid DRC_LOCK_EXCLUSIVE rsn time OG_INVALID_ID32 in
  if lock_master d =? self then
    a ← try_request_owner self d r version;
    if negb (ok (lr_status a)) then Ret (lr_status a)
    else
      st ← (if lr_granted a then Ret OG_SUCCESS
            else if drc_bitmap64_exist (lr_old_map a) self then _ ← cancel_request self self d; Ret OG_ERROR
            else try_holders n self d r version (lr_old_map a) insts);
      if negb (ok st) then Ret st else own_claim self d r version
  else dls_request_msg (dls_process_lock_msg n (lock_master d)) (msg_of_req MES_CMD_TRY_REQUEST_LOCK self d version r).

(** ** Spin locks *)

(** [dls_spin_lock]: the local resource stays locked. *)
Definition dls_spin_lock (n : nat) (self sid : Z) (d : drid) : prog unit :=
  _ ← assert (negb (dr_type d =? DR_TYPE_INVALID));
  a ← get_resx self d;
  _ ← lock_resx self a;
  b ← read_resx self a;
  _ ← (if negb (ll_is_owner b) then dls_request_spin_lock n self sid d else Ret tt);
  _ ← set_latchx self a (la_set_mode DRC_LOCK_EXCLUSIVE);
  set_statx self a true true.

(** [dls_do_spin_try_lock], [dls_spin_try_lock]. *)
Definition dls_do_spin_try_lock (n : nat) (self sid : Z) (d : drid) : prog bool :=
  _ ← assert (negb (dr_type d =? DR_TYPE_INVALID));
  a ← get_resx self d;
  b ← read_resx self a;
  if ll_is_locked b then Ret false
  else
    got ← try_lock_resx self a;
    if negb got then Ret false
    else
      b ← read_resx self a;
      _ ← assert (negb (ll_is_locked b));
      st ← (if negb (ll_is_owner b) then dls_try_request_lock n self sid d else Ret OG_SUCCESS);
      if negb (ok st) then
        _ ← set_latchx self a (la_set_mode DRC_LOCK_NULL);
        _ ← set_statx self a false false;
        _ ← unlock_resx self a;
        Ret false
      else
        _ ← set_latchx self a (la_set_mode DRC_LOCK_EXCLUSIVE);
        _ ← set_statx self a true true;
        Ret true.

(** [dls_spin_timed_lock]. *)
Fixpoint spin_timed_loop (n : nat) (self sid : Z) (d : drid) (timeout_ticks spin_times wait_ticks : Z) : prog bool :=
  match n with
  | O => Stuck
  | S n =>
      got ← dls_do_spin_try_lock n self sid d;
      if (got : bool) then Ret true
      else if timeout_ticks <=? wait_ticks then Ret false
      else if spin_times + 1 =? OG_SPIN_COUNT then spin_timed_loop n self sid d timeout_ticks 0 (u32 (wait_ticks + 1))
      else spin_timed_loop n self sid d timeout_ticks (spin_times + 1) wait_ticks
  end.
Definition dls_spin_timed_lock (n : nat) (self sid : Z) (d : drid) (timeout_ticks : Z) : prog bool :=
  _ ← assert (negb (dr_type d =? DR_TYPE_INVALID));
  spin_timed_loop n self sid d timeout_ticks 0 0.

(** [dls_spin_unlock]. *)
Definition dls_spin_unlock (self : Z) (d : drid) : prog unit :=
  _ ← assert (negb (dr_type d =? DR_TYPE_INVALID));
  a ← get_resx self d;
  _ ← set_statx self a false true;
  unlock_resx self a.

(** The count of a spin lock's users, under a spin lock of its own. *)
Definition lock_count (i a : Z) : prog unit := on_loc i (fun t => o ← drc_lock_local_res_count a t; Ok (option_map (pair tt) o)).
Definition unlock_count (i a : Z) : prog unit := on_loc i (fun t => t ← drc_unlock_local_res_count a t; Ok (Some (tt, t))).
Definition set_count (i a : Z) (f : Z -> Z) : prog unit :=
  on_loc i (fun t => b ← fm_get t a; t ← fm_put t a (ll_set_count (f (ll_count b)) b); Ok (Some (tt, t))).
Definition count_up (c : Z) : Z := u16 (c + 1).
Definition count_down (c : Z) : Z := if 0 <? c then c - 1 else c.

(** [dls_spin_lock_by_self]. *)
Definition dls_spin_lock_by_self (self : Z) (d : drid) : prog bool :=
  a ← get_resx self d;
  _ ← lock_count self a;
  b ← read_resx self a;
  _ ← (if ll_is_locked b && ll_is_owner b then set_count self a count_up else Ret tt);
  _ ← unlock_count self a;
  Ret (ll_is_locked b && ll_is_owner b).

(** [dls_spin_add], [dls_spin_dec], [dls_spin_dec_unlock]. *)
Definition dls_spin_add (self : Z) (d : drid) : prog unit :=
  _ ← assert (negb (dr_type d =? DR_TYPE_INVALID));
  a ← get_resx self d;
  _ ← lock_count self a;
  _ ← set_count self a count_up;
  unlock_count self a.
Definition dls_spin_dec (self : Z) (d : drid) : prog unit :=
  _ ← assert (negb (dr_type d =? DR_TYPE_INVALID));
  a ← get_resx self d;
  _ ← lock_count self a;
  _ ← set_count self a count_down;
  unlock_count self a.
Definition dls_spin_dec_unlock (self : Z) (d : drid) : prog unit :=
  _ ← assert (negb (dr_type d =? DR_TYPE_INVALID));
  a ← get_resx self d;
  _ ← lock_count self a;
  _ ← set_count self a count_down;
  b ← read_resx self a;
  _ ← (if ll_count b =? 0 then dls_spin_unlock self d else Ret tt);
  unlock_count self a.

(** [dls_request_clean_granted_map]: what the master answers is not looked
    at. *)
Definition dls_request_clean_granted_map (n : nat) (self : Z) (d : drid) : prog unit :=
  if lock_master d =? self then _ ← dls_clean_granted_map self d self; Ret tt
  else
    _ ← dls_request_msg (dls_process_lock_msg n (lock_master d))
          (mk_lreq MES_CMD_CLEAN_GRANTED_MAP true self 0 0 0 d (v_trigger_version vw) DRC_LOCK_MODE_MAX OG_INVALID_ID32);
    Ret tt.

(** ** Latches *)

(** The latch is taken: the members the functions set before they unlock the
    resource. *)
Definition take_shared (self a sid : Z) (with_sid : bool) : prog unit :=
  _ ← set_latchx self a (la_set_stat LATCH_STATUS_S);
  _ ← set_latchx self a (la_set_count 1);
  _ ← (if with_sid then set_latchx self a (la_set_sid sid) else Ret tt);
  _ ← set_statx self a true true;
  unlock_resx self a.
Definition share_more (self a : Z) : prog unit :=
  _ ← set_latchx self a (fun l => la_set_count (la_shared_count l + 1) l);
  _ ← set_statx self a true true;
  unlock_resx self a.
Definition take_exclusive (self a sid : Z) : prog unit :=
  _ ← set_latchx self a (la_set_sid sid);
  _ ← set_latchx self a (la_set_stat LATCH_STATUS_X);
  _ ← set_statx self a true true;
  unlock_resx self a.

(** The loop that waits for the latch to be idle or shared. *)
Fixpoint wait_latch (n : nat) (self a : Z) : prog unit :=
  match n with
  | O => Stuck
  | S n =>
      b ← read_resx self a;
      if (la_stat (ll_latch b) =? LATCH_STATUS_IDLE) || (la_stat (ll_latch b) =? LATCH_STATUS_S) then Ret tt
      else wait_latch n self a
  end.

(** The same with a time limit: [None] when it is over, else [count] and
    [ticks]. *)
Fixpoint timed_wait (n : nat) (self a wait_ticks count ticks : Z) : prog (option (Z * Z)) :=
  match n with
  | O => Stuck
  | S n =>
      b ← read_resx self a;
      if (la_stat (ll_latch b) =? LATCH_STATUS_IDLE) || (la_stat (ll_latch b) =? LATCH_STATUS_S) then Ret (Some (count, ticks))
      else if wait_ticks <=? ticks then Ret None
      else if OG_SPIN_COUNT <=? count + 1 then timed_wait n self a wait_ticks 0 (u32 (ticks + 1))
      else timed_wait n self a wait_ticks (count + 1) ticks
  end.

(** The wait of [dls_latch_ix2x] and [dls_latch_timed_ix2x] for the shared
    latches to go; [limit] is the time limit. *)
Fixpoint wait_shared (n : nat) (self a : Z) (limit : option Z) (count ticks : Z) : prog (option (Z * Z)) :=
  match n with
  | O => Stuck
  | S n =>
      b ← read_resx self a;
      if negb (0 <? la_shared_count (ll_latch b)) then Ret (Some (count, ticks))
      else if match limit with Some w => w <=? ticks | None => false end then Ret None
      else if OG_SPIN_COUNT <=? count + 1 then wait_shared n self a limit 0 (u32 (ticks + 1))
      else wait_shared n self a limit (count + 1) ticks
  end.

(** [dls_latch_ix2x] ([limit = None]) and [dls_latch_timed_ix2x]: [a] is the
    resource the latch was read from. *)
Fixpoint ix2x (n : nat) (self sid : Z) (d : drid) (a : Z) (limit : option Z) (release_ticks count ticks : Z) : prog bool :=
  match n with
  | O => Stuck
  | S n =>
      w ← wait_shared n self a limit count ticks;
      match w with
      | None => Ret false
      | Some (count, ticks) =>
          a' ← get_resx self d;
          _ ← lock_resx self a';
          b ← read_resx self a;
          locked ← (if la_shared_count (ll_latch b) =? 0 then dls_request_latch_x n self sid d true 1 release_ticks else Ret false);
          if (locked : bool) then
            _ ← set_latchx self a (la_set_sid sid);
            _ ← set_latchx self a (la_set_stat LATCH_STATUS_X);
            _ ← set_latchx self a (la_set_mode DRC_LOCK_EXCLUSIVE);
            _ ← set_statx self a' true true;
            _ ← unlock_resx self a';
            Ret true
          else
            _ ← unlock_resx self a';
            ix2x n self sid d a limit release_ticks count ticks
      end
  end.

(** A mode asked for when the one held is not enough: [false] when it could
    not be had. *)
Definition need_mode (self a : Z) (b : local_lock) (enough : Z -> bool) (mode : Z) (request : prog bool) : prog bool :=
  if enough (la_lock_mode (ll_latch b)) then Ret true
  else
    locked ← request;
    if (locked : bool) then _ ← set_latchx self a (la_set_mode mode); Ret true else Ret false.
Definition is_x (m : Z) : bool := m =? DRC_LOCK_EXCLUSIVE.
Definition not_null (m : Z) : bool := negb (m =? DRC_LOCK_NULL).

(** [dls_latch_x]. *)
Fixpoint latch_x_loop (n : nat) (self : Z) (d : drid) (sid : Z) : prog unit :=
  match n with
  | O => Stuck
  | S n =>
      a ← get_resx self d;
      _ ← lock_resx self a;
      b ← read_resx self a;
      if la_stat (ll_latch b) =? LATCH_STATUS_IDLE then
        got ← need_mode self a b is_x DRC_LOCK_EXCLUSIVE (dls_request_latch_x n self sid d true 1 OG_INVALID_ID32);
        if (got : bool) then take_exclusive self a sid
        else _ ← unlock_resx self a; latch_x_loop n self d sid
      else if la_stat (ll_latch b) =? LATCH_STATUS_S then
        _ ← set_latchx self a (la_set_stat LATCH_STATUS_IX);
        _ ← unlock_resx self a;
        _ ← ix2x n self sid d a None OG_INVALID_ID32 0 0;
        Ret tt
      else
        _ ← unlock_resx self a;
        _ ← wait_latch n self a;
        latch_x_loop n self d sid
  end.
Definition dls_latch_x (n : nat) (self : Z) (d : drid) (sid : Z) : prog unit :=
  _ ← assert (negb (dr_type d =? DR_TYPE_INVALID)); latch_x_loop n self d sid.

(** [dls_latch_s]. *)
Fixpoint latch_s_loop (n : nat) (self : Z) (d : drid) (sid : Z) (is_force : bool) : prog unit :=
  match n with
  | O => Stuck
  | S n =>
      a ← get_resx self d;
      _ ← lock_resx self a;
      b ← read_resx self a;
      if la_stat (ll_latch b) =? LATCH_STATUS_IDLE then
        got ← need_mode self a b not_null DRC_LOCK_SHARE (dls_request_latch_s n self sid d true 1 OG_INVALID_ID32);
        if (got : bool) then take_shared self a sid true
        else _ ← unlock_resx self a; latch_s_loop n self d sid is_force
      else if (la_stat (ll_latch b) =? LATCH_STATUS_S) || ((la_stat (ll_latch b) =? LATCH_STATUS_IX) && is_force)
      then share_more self a
      else
        _ ← unlock_resx self a;
        _ ← wait_latch n self a;
        latch_s_loop n self d sid is_force
  end.
Definition dls_latch_s (n : nat) (self : Z) (d : drid) (sid : Z) (is_force : bool) : prog unit :=
  _ ← assert (negb (dr_type d =? DR_TYPE_INVALID)); latch_s_loop n self d sid is_force.

(** [dls_latch_sx]. *)
Fixpoint latch_sx_loop (n : nat) (self : Z) (d : drid) (sid : Z) : prog unit :=
  match n with
  | O => Stuck
  | S n =>
      a ← get_resx self d;
      _ ← lock_resx self a;
      b ← read_resx self a;
      if la_stat (ll_latch b) =? LATCH_STATUS_IDLE then
        got ← need_mode self a b is_x DRC_LOCK_EXCLUSIVE (dls_request_latch_x n self sid d true 1 OG_INVALID_ID32);
        if (got : bool) then take_shared self a sid true
        else _ ← unlock_resx self a; latch_sx_loop n self d sid
      else if la_stat (ll_latch b) =? LATCH_STATUS_S then
        got ← need_mode self a b is_x DRC_LOCK_EXCLUSIVE (dls_request_latch_x n self sid d true 1 OG_INVALID_ID32);
        if (got : bool) then share_more self a
        else _ ← unlock_resx self a; latch_sx_loop n self d sid
      else
        _ ← unlock_resx self a;
        _ ← wait_latch n self a;
        latch_sx_loop n self d sid
  end.
Definition dls_latch_sx (n : nat) (self : Z) (d : drid) (sid : Z) : prog unit :=
  _ ← assert (negb (dr_type d =? DR_TYPE_INVALID)); latch_sx_loop n self d sid.

(** The time left of [wait_ticks]. *)
Definition ticks_left (wait_ticks ticks : Z) : Z := if 0 <? u32 (wait_ticks - ticks) then u32 (wait_ticks - ticks) else 0.

(** A timed request that failed. *)
Definition request_failed (self a : Z) : prog bool := _ ← set_statx self a false false; _ ← unlock_resx self a; Ret false.

(** [dls_latch_timed_s]. *)
Fixpoint latch_timed_s_loop (n : nat) (self sid : Z) (d : drid) (is_force : bool) (release_ticks wait_ticks count ticks : Z) : prog bool :=
  match n with
  | O => Stuck
  | S n =>
      a ← get_resx self d;
      _ ← lock_resx self a;
      b ← read_resx self a;
      if la_stat (ll_latch b) =? LATCH_STATUS_IDLE then
        got ← need_mode self a b not_null DRC_LOCK_SHARE
                (dls_request_latch_s n self sid d true (ticks_left wait_ticks ticks) release_ticks);
        if (got : bool) then _ ← take_shared self a sid false; Ret true else request_failed self a
      else if (la_stat (ll_latch b) =? LATCH_STATUS_S) || ((la_stat (ll_latch b) =? LATCH_STATUS_IX) && is_force)
      then _ ← share_more self a; Ret true
      else
        _ ← unlock_resx self a;
        w ← timed_wait n self a wait_ticks count ticks;
        match w with
        | None => Ret false
        | Some (count, ticks) => latch_timed_s_loop n self sid d is_force release_ticks wait_ticks count ticks
        end
  end.
Definition dls_latch_timed_s (n : nat) (self sid : Z) (d : drid) (wait_ticks : Z) (is_force : bool) (release_ticks : Z) : prog bool :=
  _ ← assert (negb (dr_type d =? DR_TYPE_INVALID)); latch_timed_s_loop n self sid d is_force release_ticks wait_ticks 0 0.

(** The latch after a change to exclusive that took too long. *)
Definition back_to_shared (self a : Z) : prog bool :=
  _ ← lock_resx self a;
  _ ← set_latchx self a (fun l => la_set_stat (if 0 <? la_shared_count l then LATCH_STATUS_S else LATCH_STATUS_IDLE) l);
  _ ← unlock_resx self a;
  Ret false.

(** [dls_latch_timed_x]. *)
Fixpoint latch_timed_x_loop (n : nat) (self sid : Z) (d : drid) (release_ticks wait_ticks count ticks : Z) : prog bool :=
  match n with
  | O => Stuck
  | S n =>
      a ← get_resx self d;
      _ ← lock_resx self a;
      b ← read_resx self a;
      if la_stat (ll_latch b) =? LATCH_STATUS_IDLE then
        got ← need_mode self a b is_x DRC_LOCK_EXCLUSIVE
                (dls_request_latch_x n self sid d true (ticks_left wait_ticks ticks) release_ticks);
        if (got : bool) then _ ← take_exclusive self a sid; Ret true else request_failed self a
      else if la_stat (ll_latch b) =? LATCH_STATUS_S then
        _ ← set_latchx self a (la_set_stat LATCH_STATUS_IX);
        _ ← unlock_resx self a;
        locked ← ix2x n self sid d a (Some wait_ticks) release_ticks 0 0;
        if (locked : bool) then Ret true else back_to_shared self a
      else
        _ ← unlock_resx self a;
        w ← timed_wait n self a wait_ticks count ticks;
        match w with
        | None => Ret false
        | Some (count, ticks) => latch_timed_x_loop n self sid d release_ticks wait_ticks count ticks
        end
  end.
Definition dls_latch_timed_x (n : nat) (self sid : Z) (d : drid) (wait_ticks release_ticks : Z) : prog bool :=
  _ ← assert (negb (dr_type d =? DR_TYPE_INVALID)); latch_timed_x_loop n self sid d release_ticks wait_ticks 0 0.

(** [dls_unlatch]. *)
Definition share_less (l : drc_local_latch) : drc_local_latch :=
  if 0 <? la_shared_count l then la_set_count (la_shared_count l - 1) l else l.
Definition idle_if_free (l : drc_local_latch) : drc_local_latch :=
  if ((la_stat l =? LATCH_STATUS_S) || (la_stat l =? LATCH_STATUS_X)) && (la_shared_count l =? 0)
  then la_set_stat LATCH_STATUS_IDLE l else l.
Definition dls_unlatch (self : Z) (d : drid) : prog unit :=
  _ ← assert (negb (dr_type d =? DR_TYPE_INVALID));
  a ← get_resx self d;
  _ ← lock_resx self a;
  _ ← set_latchx self a share_less;
  _ ← set_latchx self a idle_if_free;
  _ ← set_statx self a false true;
  unlock_resx self a.
End Dls.
