(* ===== verification/DlsInv.v ===== *)
(** One lock across the cluster: what its master records of it, the mode each
    instance has it in, and where the request of each instance is, as long as
    no step of the lock service breaks it. *)

From S2P Require Import Prelude DrcBitmap DrcPool DrcGlobalRes DrcQueue DrcTable DrcReform DrcLock DrcLockInv DrcLockThm.

(** Where the request of an instance for the lock is: it has none, the master
    has queued it, or it is the one under conversion; then [todo] are the
    instances not yet asked to give up the lock, and [gone] is one that has
    given it up and is still recorded as a holder. *)
Inductive phase :=
| PIdle
| PWait (r : drc_req_info)
| PConv (r : drc_req_info) (todo : list Z) (gone : option Z).

(** The request of a phase. *)
Definition asks (p : phase) (r : drc_req_info) : Prop := p = PWait r \/ exists td g, p = PConv r td g.

(** Another instance may keep the lock in mode [m] when [r] is granted. *)
Definition fits (r : drc_req_info) (m : Z) : Prop := m = DRC_LOCK_NULL \/ (req_mode r = DRC_LOCK_SHARE /\ m = DRC_LOCK_SHARE).

Definition upd {A} (f : Z -> A) (i : Z) (x : A) : Z -> A := fun j => if decide (j = i) then x else f j.
Lemma upd_eq {A} (f : Z -> A) i x : upd f i x i = x.
Proof. unfold upd. by rewrite decide_True. Qed.
Lemma upd_ne {A} (f : Z -> A) i j x : j <> i -> upd f i x j = f j.
Proof. intros. unfold upd. by rewrite decide_False. Qed.
Lemma upd_id {A} (f : Z -> A) i x j : f i = x -> upd f i x j = f j.
Proof. intros <-. unfold upd. by destruct (decide (j = i)) as [->|]. Qed.

(** Case analysis on every point update. *)
Ltac upd_cases := unfold upd in *; repeat (match goal with
  | H : context [decide (?a = ?b)] |- _ => let E := fresh "E" in destruct (decide (a = b)) as [E|E]; [try first [subst a|subst b]|]
  | |- context [decide (?a = ?b)] => let E := fresh "E" in destruct (decide (a = b)) as [E|E]; [try first [subst a|subst b]|]
  end; try done).

Section Proto.
Context (inst_count : Z) (Hcount : inst_count <= 64).
Implicit Types (ab : alock) (pm : Z -> Z) (ph : Z -> phase) (r : drc_req_info) (i k : Z).

Definition ins i : Prop := 0 <= i < inst_count.

(** [sp]: the lock is used as a spin lock. *)
Record proto (sp : bool) ab pm ph : Prop := {
  pr_ok : lock_ok ab;
  pr_mode : forall i, pm i = DRC_LOCK_NULL \/ real_mode (pm i);
  (** Who has the lock is recorded, and alone when the mode is exclusive. *)
  pr_hold : forall i, pm i <> DRC_LOCK_NULL -> bm_mem (lk_granted_map ab) i;
  pr_excl : forall i, pm i = DRC_LOCK_EXCLUSIVE -> lk_mode ab = DRC_LOCK_EXCLUSIVE;
  pr_bits : forall i, bm_mem (lk_granted_map ab) i -> ins i;
  pr_some : lk_mode ab <> DRC_LOCK_NULL -> exists i, bm_mem (lk_granted_map ab) i;
  (** The requests the master has are those of the phases. *)
  pr_range : forall i r, asks (ph i) r -> ins i /\ inst_id r = i /\ lock_req r;
  pr_wait : forall i r, ph i = PWait r -> waiting r ab;
  pr_conv : forall i r td g, ph i = PConv r td g -> lk_converting ab = r /\ forall k, k <> i -> k ∉ td -> fits r (pm k);
  pr_who : inst_id (lk_converting ab) <> OG_INVALID_ID8 -> asks (ph (inst_id (lk_converting ab))) (lk_converting ab);
  pr_queue : forall r, r ∈ lk_convert_q ab -> ph (inst_id r) = PWait r;
  pr_nodup : NoDup (inst_id <$> lk_convert_q ab);
  pr_fresh : inst_id (lk_converting ab) ∉ inst_id <$> lk_convert_q ab;
  (** An instance that asks for the shared mode is not recorded. *)
  pr_share : forall i r, asks (ph i) r -> req_mode r = DRC_LOCK_SHARE -> ~ bm_mem (lk_granted_map ab) i;
  (** A latch has no holder that has given it up, except while its release is
      being recorded. *)
  pr_latch : sp = false -> forall k, bm_mem (lk_granted_map ab) k ->
    pm k <> DRC_LOCK_NULL \/ exists i r td, ph i = PConv r td (Some k);
  pr_gone : forall i r td k, ph i = PConv r td (Some k) -> req_mode r = DRC_LOCK_EXCLUSIVE /\ k <> i /\ ins k;
  pr_spin : sp = true -> lk_mode ab <> DRC_LOCK_SHARE /\ forall i r, asks (ph i) r -> req_mode r = DRC_LOCK_EXCLUSIVE;
}.

Lemma ins_ne i : ins i -> i <> OG_INVALID_ID8.
Proof. unfold ins, OG_INVALID_ID8. lia. Qed.

Lemma asks_wait r : asks (PWait r) r.
Proof. by left. Qed.
Lemma asks_conv r td g : asks (PConv r td g) r.
Proof. right. eauto. Qed.
Lemma asks_idle r : ~ asks PIdle r.
Proof. intros [?|(? & ? & ?)]; done. Qed.
Lemma asks_inj p r r' : asks p r -> asks p r' -> r = r'.
Proof. intros [->|(? & ? & ->)] [?|(? & ? & ?)]; congruence. Qed.

(** ** Requests *)
Lemma proto_idle sp ab pm ph i : proto sp ab pm ph -> inst_id (lk_converting ab) = OG_INVALID_ID8 -> ph i = PIdle.
Proof.
  intros P Hc. destruct (ph i) as [|r|r td g] eqn:E; [done| |].
  - destruct (pr_range _ _ _ _ P i r) as (Hi & Hr & _); [rewrite E; apply asks_wait|]. apply ins_ne in Hi.
    destruct (pr_wait _ _ _ _ P _ _ E) as [Hq| <-]; [|congruence]. rewrite (lo_idle _ (pr_ok _ _ _ _ P) Hc) in Hq. by apply elem_of_nil in Hq.
  - destruct (pr_range _ _ _ _ P i r) as (Hi & Hr & _); [rewrite E; apply asks_conv|]. apply ins_ne in Hi.
    destruct (pr_conv _ _ _ _ P _ _ _ _ E) as [<- _]. congruence.
Qed.

Lemma proto_ext sp ab pm ph pm' ph' :
  proto sp ab pm ph -> (forall i, pm' i = pm i) -> (forall i, ph' i = ph i) -> proto sp ab pm' ph'.
Proof.
  intros [] Hm Hp. split; try done; intros; rewrite ?Hm, ?Hp in *; eauto.
  - destruct (pr_conv0 i r td g) as [? Hf]; [done|]. split; [done|]. intros. rewrite Hm. auto.
  - destruct (pr_latch0 H k H0) as [?|(i & r & td & E)]; [by left|right]. exists i, r, td. by rewrite Hp.
  - destruct pr_spin0 as [? Hs]; [done|]. split; [done|]. intros i r. rewrite Hp. eauto.
Qed.

(** A new request: [ab'] is the lock that has it. *)
Record asked sp ab ph r ab' : Prop := {
  as_ok : lock_ok ab';
  as_mode : lk_mode ab' = lk_mode ab;
  as_map : lk_granted_map ab' = lk_granted_map ab;
  as_idle : ph (inst_id r) = PIdle;
  as_ins : ins (inst_id r);
  as_req : lock_req r;
  as_share : req_mode r = DRC_LOCK_SHARE -> ~ bm_mem (lk_granted_map ab) (inst_id r);
  as_spin : sp = true -> req_mode r = DRC_LOCK_EXCLUSIVE;
}.

Lemma asked_phases sp ab pm ph r ab' i r' :
  proto sp ab pm ph -> asked sp ab ph r ab' -> asks (upd ph (inst_id r) (PWait r) i) r' ->
  ins i /\ inst_id r' = i /\ lock_req r' /\ (req_mode r' = DRC_LOCK_SHARE -> ~ bm_mem (lk_granted_map ab') i) /\
  (sp = true -> req_mode r' = DRC_LOCK_EXCLUSIVE).
Proof.
  intros P [] Ha. rewrite as_map0. unfold upd in Ha. destruct (decide (i = inst_id r)) as [->|].
  - rewrite (asks_inj _ _ _ Ha (asks_wait r)). split_and!; done.
  - destruct (pr_range _ _ _ _ P _ _ Ha) as (? & ? & ?). split_and!; try done.
    + by apply (pr_share _ _ _ _ P i).
    + intros Hs. by apply (proj2 (pr_spin _ _ _ _ P Hs) i).
Qed.

(** It is queued. *)
Lemma proto_queue sp ab pm ph r ab' :
  proto sp ab pm ph -> asked sp ab ph r ab' -> inst_id (lk_converting ab) <> OG_INVALID_ID8 ->
  lk_converting ab' = lk_converting ab -> lk_convert_q ab' = lk_convert_q ab ++ [r] ->
  proto sp ab' pm (upd ph (inst_id r) (PWait r)).
Proof.
  intros P As Hc Ec Eq. pose proof (fun i r' => asked_phases sp ab pm ph r ab' i r' P As) as Ha. destruct As as [L Em Eg Hid Hin Hr _ Hsp].
  assert (forall r', r' ∈ lk_convert_q ab -> inst_id r' <> inst_id r) as Hne.
  { intros r' Hr' E. apply (pr_queue _ _ _ _ P) in Hr'. rewrite E, Hid in Hr'. done. }
  assert (inst_id (lk_converting ab) <> inst_id r) as Hcn.
  { intros E. pose proof (pr_who _ _ _ _ P Hc) as Hw. rewrite E, Hid in Hw. by apply asks_idle in Hw. }
  split; rewrite ?Em, ?Eg, ?Ec, ?Eq; try apply P; try done.
  - intros i r' H'. destruct (Ha i r' H') as (? & ? & ? & _). done.
  - intros i r' E. unfold waiting. rewrite Ec, Eq, elem_of_app, list_elem_of_singleton. upd_cases.
    + injection E as ->. tauto.
    + destruct (pr_wait _ _ _ _ P _ _ E); tauto.
  - intros i r' td g E. upd_cases. by apply (pr_conv _ _ _ _ P _ _ _ _ E).
  - intros _. rewrite upd_ne by done. by apply (pr_who _ _ _ _ P).
  - intros r' [Hq| ->%list_elem_of_singleton]%elem_of_app; [|by rewrite upd_eq]. rewrite upd_ne by auto. by apply (pr_queue _ _ _ _ P).
  - rewrite fmap_app, NoDup_app. split_and!; [apply P| |apply NoDup_singleton].
    intros x (r' & -> & Hr')%list_elem_of_fmap. cbn. rewrite list_elem_of_singleton. auto.
  - rewrite fmap_app, elem_of_app. cbn. rewrite list_elem_of_singleton. intros [?|?]; [|done]. by apply (pr_fresh _ _ _ _ P).
  - intros i r' H' Hs. destruct (Ha i r' H') as (_ & _ & _ & Hsh & _). rewrite Eg in Hsh. by apply Hsh.
  - intros Hs k Hk. destruct (pr_latch _ _ _ _ P Hs k Hk) as [?|(i & r' & td & E)]; [by left|right]. exists i, r', td. upd_cases. by rewrite Hid in E.
  - intros i r' td k E. upd_cases. by apply (pr_gone _ _ _ _ P _ _ _ _ E).
  - intros Hs. split; [by apply (proj1 (pr_spin _ _ _ _ P Hs))|]. intros i r' H'. by apply (Ha i r' H').
Qed.

(** It is converted at once. *)
Lemma proto_begin sp ab pm ph r ab' :
  proto sp ab pm ph -> asked sp ab ph r ab' -> inst_id (lk_converting ab) = OG_INVALID_ID8 ->
  lk_converting ab' = r -> lk_convert_q ab' = [] -> proto sp ab' pm (upd ph (inst_id r) (PWait r)).
Proof.
  intros P As Hc Ec Eq. pose proof (fun i r' => asked_phases sp ab pm ph r ab' i r' P As) as Ha. destruct As as [L Em Eg Hid Hin Hr _ Hsp].
  pose proof (fun i => proto_idle sp ab pm ph i P Hc) as Hall.
  split; rewrite ?Em, ?Eg, ?Ec, ?Eq; try apply P; try done.
  - intros i r' H'. destruct (Ha i r' H') as (? & ? & ? & _). done.
  - intros i r' E. upd_cases; [|by rewrite Hall in E]. injection E as <-. by right.
  - intros i r' td g E. upd_cases. by rewrite Hall in E.
  - intros _. rewrite upd_eq. apply asks_wait.
  - intros r' Hq. by apply elem_of_nil in Hq.
  - apply NoDup_nil_2.
  - apply not_elem_of_nil.
  - intros i r' H' Hs. destruct (Ha i r' H') as (_ & _ & _ & Hsh & _). rewrite Eg in Hsh. by apply Hsh.
  - intros Hs k Hk. left. destruct (pr_latch _ _ _ _ P Hs k Hk) as [?|(i & r' & td & E)]; [done|]. by rewrite Hall in E.
  - intros i r' td k E. upd_cases. by rewrite Hall in E.
  - intros Hs. split; [by apply (proj1 (pr_spin _ _ _ _ P Hs))|]. intros i r' H'. by apply (Ha i r' H').
Qed.

(** The first request makes the lock. *)
Lemma proto_first sp d r :
  lock_req r -> ins (inst_id r) -> (sp = true -> req_mode r = DRC_LOCK_EXCLUSIVE) ->
  proto sp (first_lock d r) (fun _ => DRC_LOCK_NULL) (upd (fun _ => PIdle) (inst_id r) (PConv r [] None)).
Proof.
  intros Hr Hi Hsp. assert (forall i, ~ bm_mem 0 i) as Hz by (apply (proj1 (bm_zero 0 is_u64_0)); done).
  assert (forall i r', asks (upd (fun _ => PIdle) (inst_id r) (PConv r [] None) i) r' -> i = inst_id r /\ r' = r) as Ha.
  { intros i r' H'. upd_cases; [|by apply asks_idle in H']. by rewrite (asks_inj _ _ _ H' (asks_conv r [] None)). }
  split; cbn; try done; try (by intros; left).
  - apply lock_ok_converting; [apply lock_ok_new|done|done].
  - intros i Hb. by apply Hz in Hb.
  - intros i r' [-> ->]%Ha. done.
  - intros i r' E. upd_cases.
  - intros i r' td g E. upd_cases. injection E as <- <- <-. split; [done|]. intros. by left.
  - intros _. rewrite upd_eq. apply asks_conv.
  - intros r' Hq. by apply elem_of_nil in Hq.
  - apply not_elem_of_nil.
  - intros _ k Hb. by apply Hz in Hb.
  - intros i r' td k E. upd_cases.
  - intros Hs. split; [done|]. intros i r' [-> ->]%Ha. auto.
Qed.

(** A change of one phase that keeps its request. *)
Lemma proto_phase sp ab pm ph i r td g :
  proto sp ab pm ph -> asks (ph i) r -> lk_converting ab = r ->
  (forall k, k <> i -> k ∉ td -> fits r (pm k)) ->
  (forall k, g = Some k -> req_mode r = DRC_LOCK_EXCLUSIVE /\ k <> i /\ ins k) ->
  (sp = false -> forall r' td' k, ph i = PConv r' td' (Some k) -> bm_mem (lk_granted_map ab) k ->
    pm k <> DRC_LOCK_NULL \/ g = Some k) ->
  proto sp ab pm (upd ph i (PConv r td g)).
Proof.
  intros P Ha Ec Hfit Hg Hkeep.
  assert (forall j r', asks (upd ph i (PConv r td g) j) r' -> asks (ph j) r') as Hsub.
  { intros j r' H'. upd_cases. by rewrite (asks_inj _ _ _ H' (asks_conv r td g)). }
  split; try apply P.
  - intros j r' H'%Hsub. by apply (pr_range _ _ _ _ P).
  - intros j r' E. upd_cases. by apply (pr_wait _ _ _ _ P j).
  - intros j r' td' g' E. upd_cases; [|by apply (pr_conv _ _ _ _ P _ _ _ _ E)]. injection E as <- <- <-. done.
  - intros Hc. pose proof (pr_who _ _ _ _ P Hc) as Hw. upd_cases. rewrite (asks_inj _ _ _ Hw Ha) at 1. apply asks_conv.
  - intros r' Hq. pose proof (pr_queue _ _ _ _ P _ Hq) as E. destruct (decide (inst_id r' = i)) as [Hi|Hi]; [|by rewrite upd_ne].
    exfalso. rewrite Hi in E. rewrite E in Ha. assert (r' = r) as -> by exact (asks_inj _ _ _ (asks_wait r') Ha).
    apply (pr_fresh _ _ _ _ P). rewrite Ec. apply list_elem_of_fmap. eauto.
  - intros j r' H'%Hsub. by apply (pr_share _ _ _ _ P).
  - intros Hs k Hk. destruct (pr_latch _ _ _ _ P Hs k Hk) as [?|(j & r' & td' & E)]; [by left|].
    destruct (decide (j = i)) as [->|]; [|right; exists j, r', td'; by rewrite upd_ne].
    destruct (Hkeep Hs _ _ _ E Hk) as [?| ->]; [by left|right]. exists i, r, td. by rewrite upd_eq.
  - intros j r' td' k E. upd_cases; [|by apply (pr_gone _ _ _ _ P _ _ _ _ E)]. injection E as <- <- ->. by apply Hg.
  - intros Hs. split; [by apply (proj1 (pr_spin _ _ _ _ P Hs))|]. intros j r' H'%Hsub. by apply (proj2 (pr_spin _ _ _ _ P Hs) j).
Qed.

(** The holders to be asked for [i]. *)
Definition others (map i : Z) : list Z := filter (fun k => drc_bitmap64_exist map k = true /\ k <> i) (seqZ 0 inst_count).

Lemma elem_of_others map i k : k ∈ others map i <-> bm_mem map k /\ k <> i /\ ins k.
Proof.
  unfold others. rewrite list_elem_of_filter, elem_of_seqZ. unfold ins. split.
  - intros [[Hb Hn] Hk]. split_and!; [|done|lia..]. apply bm_exist_spec; [lia|done].
  - intros (Hb & Hn & Hk). split_and!; [|done|lia..]. apply bm_exist_spec; [lia|done].
Qed.

(** The request under conversion learns who has the lock. *)
Lemma proto_answer sp ab pm ph i r a m :
  proto sp ab pm ph -> ph i = PWait r -> lk_converting ab = r -> answer_ok r m ab a ->
  proto sp ab pm (upd ph i (PConv r (if lr_granted a then [] else others (lr_old_map a) i) None)).
Proof.
  intros P E Ec (_ & Hg & Hm & Hx). apply proto_phase; [done|rewrite E; apply asks_wait|done| |done|].
  - intros k Hk. destruct (lr_granted a).
    + intros _. destruct (pr_mode _ _ _ _ P k) as [Hn|[Hs|Hx']]; [by left| |].
      * right. split; [|done]. destruct (proj1 Hg eq_refl) as [Hz|[? _]]; [|done].
        assert (pm k <> DRC_LOCK_NULL) as Hb by (rewrite Hs; done). apply (pr_hold _ _ _ _ P) in Hb.
        rewrite (lo_null _ (pr_ok _ _ _ _ P) Hz) in Hb. by apply (proj1 (bm_zero 0 is_u64_0) eq_refl) in Hb.
      * apply (pr_excl _ _ _ _ P) in Hx'. destruct (proj1 Hg eq_refl) as [Hz|[_ Hz]]; rewrite Hz in Hx'; done.
    + rewrite Hm, elem_of_others. intros Hn. left. destruct (decide (pm k = DRC_LOCK_NULL)) as [|Hb%(pr_hold _ _ _ _ P)]; [done|].
      destruct Hn. split_and!; try done. by apply (pr_bits _ _ _ _ P).
  - intros _ r' td' k E'. congruence.
Qed.

(** ** Holders *)

(** A holder keeps less than it had. *)
Lemma proto_lower sp ab pm ph k m :
  proto sp ab pm ph -> m = DRC_LOCK_NULL \/ (m = DRC_LOCK_SHARE /\ pm k <> DRC_LOCK_NULL) ->
  (sp = false -> m = DRC_LOCK_NULL -> pm k = DRC_LOCK_NULL \/ exists i r td, ph i = PConv r td (Some k)) ->
  proto sp ab (upd pm k m) ph.
Proof.
  intros P Hm Hl.
  assert (m = DRC_LOCK_NULL \/ real_mode m) as Hreal by (unfold real_mode; tauto).
  split; try apply P.
  - intros i. upd_cases. apply P.
  - intros i Hi. upd_cases; apply (pr_hold _ _ _ _ P); [|done]. by destruct Hm as [?|[_ ?]].
  - intros i Hi. upd_cases; [|by apply (pr_excl _ _ _ _ P i)]. by destruct Hm as [?|[? _]]; subst m.
  - intros i r td g E. destruct (pr_conv _ _ _ _ P _ _ _ _ E) as [? Hf]. split; [done|]. intros j Hj Htd. upd_cases; [|by apply Hf].
    specialize (Hf k Hj Htd). unfold fits in *. destruct Hm as [?|[? ?]], Hf as [?|[? ?]]; auto; done.
  - intros Hs j Hj. upd_cases; [|by apply (pr_latch _ _ _ _ P)]. destruct (decide (m = DRC_LOCK_NULL)) as [Hn|]; [right|by left].
    destruct (Hl Hs Hn) as [Hz|?]; [|done]. by destruct (pr_latch _ _ _ _ P Hs _ Hj).
Qed.

(** The release of [k] for the request of [i]: it is noted who releases, the
    holder lowers its mode, and it is asked no more. *)
Lemma proto_gone sp ab pm ph i r td k :
  proto sp ab pm ph -> ph i = PConv r td None -> req_mode r = DRC_LOCK_EXCLUSIVE -> k <> i -> ins k ->
  proto sp ab pm (upd ph i (PConv r td (Some k))).
Proof.
  intros P E Hx Hk Hin. destruct (pr_conv _ _ _ _ P _ _ _ _ E) as [Ec Hf].
  apply proto_phase; try done; [rewrite E; apply asks_conv|by intros j [= <-]|]. intros _ r' td' k'. by rewrite E.
Qed.

Lemma proto_done sp ab pm ph i r td g k :
  proto sp ab pm ph -> ph i = PConv r td g -> fits r (pm k) ->
  proto sp ab pm (upd ph i (PConv r (filter (fun j => j <> k) td) g)).
Proof.
  intros P E Hk. destruct (pr_conv _ _ _ _ P _ _ _ _ E) as [Ec Hf].
  apply proto_phase; try done; [rewrite E; apply asks_conv|..].
  - intros j Hj Htd. destruct (decide (j = k)) as [->|Hjk]; [done|]. apply Hf; [done|]. rewrite list_elem_of_filter in Htd. tauto.
  - intros j Hj. apply (pr_gone _ _ _ _ P i r td). by rewrite E, Hj.
  - intros _ r' td' k'. rewrite E. intros [= <- <- ->] _. by right.
Qed.

(** A spin lock is given up. *)
Lemma proto_lower_spin ab pm ph k : proto true ab pm ph -> proto true ab (upd pm k DRC_LOCK_NULL) ph.
Proof. intros P. apply proto_lower; [done|by left|done]. Qed.

(** The release is recorded. *)
Lemma proto_clear sp ab pm ph i r td k :
  proto sp ab pm ph -> ph i = PConv r td (Some k) -> k ∉ td ->
  proto sp (drop_holder k ab) pm (upd ph i (PConv r td None)).
Proof.
  intros P E Htd. destruct (pr_conv _ _ _ _ P _ _ _ _ E) as [Ec Hf]. destruct (pr_gone _ _ _ _ P _ _ _ _ E) as (Hx & Hki & Hin).
  assert (asks (ph i) r) as Ha by (rewrite E; apply asks_conv).
  assert (pm k = DRC_LOCK_NULL) as Hn. { destruct (Hf k Hki Htd) as [?|[Hs _]]; [done|]. by rewrite Hs in Hx. }
  assert (is_inst k) as Hik by (unfold ins, is_inst, OG_MAX_INSTANCES in *; lia).
  destruct (drop_holder_ok k ab (pr_ok _ _ _ _ P) Hik) as (L & _ & Ecv & Eq & Hb & Hz).
  assert (lk_mode (drop_holder k ab) = lk_mode ab \/ (lk_mode (drop_holder k ab) = DRC_LOCK_NULL /\ lk_granted_map (drop_holder k ab) = 0)) as Hmode.
  { unfold drop_holder in *. cbn in *. destruct (_ =? 0) eqn:E0; cbn in *; [right; split; [done|by apply Z.eqb_eq]|by left]. }
  assert (proto sp (drop_holder k ab) pm ph) as P1.
  { split; rewrite ?Ecv, ?Eq; try apply P; try done.
    - intros j Hj. apply Hb. split; [congruence|]. by apply (pr_hold _ _ _ _ P).
    - intros j Hj. pose proof (pr_excl _ _ _ _ P j Hj) as Hm. destruct Hmode as [->|[_ H0]]; [done|].
      assert (bm_mem (lk_granted_map (drop_holder k ab)) j) as Hbj.
      { apply Hb. split; [intros ->; by rewrite Hn in Hj|]. apply (pr_hold _ _ _ _ P). rewrite Hj. done. }
      rewrite H0 in Hbj. by apply (proj1 (bm_zero 0 is_u64_0) eq_refl) in Hbj.
    - intros j [_ Hj]%Hb. by apply (pr_bits _ _ _ _ P).
    - intros Hne. apply bm_nonzero; [apply L|]. auto.
    - intros j r' E'. unfold waiting. rewrite Ecv, Eq. by apply (pr_wait _ _ _ _ P j).
    - intros j r' H' Hs [_ Hj]%Hb. by apply (pr_share _ _ _ _ P j r').
    - intros Hs j [_ Hj]%Hb. by apply (pr_latch _ _ _ _ P).
    - intros Hs. destruct (pr_spin _ _ _ _ P Hs) as [? ?]. split; [|done]. destruct Hmode as [->|[-> _]]; done. }
  apply proto_phase; try done.
  - by rewrite Ecv.
  - intros _ r' td' k' E'. rewrite E in E'. injection E' as <- <- <-. intros [? _]%Hb. done.
Qed.

(** ** The end of a request *)
Lemma proto_claim_ok sp ab pm ph i r td g sid :
  proto sp ab pm ph -> ph i = PConv r td g -> claim_ok (mk_lclaim i (req_mode r) sid) ab.
Proof.
  intros P E.
  assert (asks (ph i) r) as Ha by (rewrite E; apply asks_conv). destruct (pr_range _ _ _ _ P _ _ Ha) as (Hi & Hr & _ & Hm).
  unfold claim_ok. cbn. destruct (pr_conv _ _ _ _ P _ _ _ _ E) as [-> _]. split_and!; try done.
  - rewrite Hr. by apply ins_ne.
  - destruct Hm as [Hm|]; [|by left]. right. left. by apply (pr_share _ _ _ _ P i r).
Qed.

(** The lock after the request under conversion has gone. *)
Record next_up ab ab' : Prop := {
  nu_ok : lock_ok ab';
  nu_conv : inst_id (lk_converting ab') <> OG_INVALID_ID8 -> lk_converting ab' ∈ lk_convert_q ab;
  nu_queue : forall r, r ∈ lk_convert_q ab -> waiting r ab';
  nu_rest : forall r, r ∈ lk_convert_q ab' -> r ∈ lk_convert_q ab;
  nu_nodup : NoDup (inst_id <$> lk_convert_q ab) -> NoDup (inst_id <$> lk_convert_q ab') /\
    inst_id (lk_converting ab') ∉ inst_id <$> lk_convert_q ab';
}.

Lemma next_up_intro ab ab' :
  lock_ok ab' ->
  match lk_convert_q ab with
  | [] => inst_id (lk_converting ab') = OG_INVALID_ID8 /\ lk_convert_q ab' = []
  | r :: rs => lk_converting ab' = r /\ lk_convert_q ab' = rs
  end -> next_up ab ab'.
Proof.
  intros L H. destruct (lk_convert_q ab) as [|r rs] eqn:Eq; destruct H as [Hc Hq]; split; rewrite ?Hq, ?Eq, ?Hc; try done.
  - by intros r ?%elem_of_nil.
  - intros _. split; [apply NoDup_nil_2|apply not_elem_of_nil].
  - intros _. by left.
  - intros r' [->|Hr]%elem_of_cons; [by right|left; by rewrite Hq].
  - intros r' Hr. by right.
  - cbn. by intros [? ?]%NoDup_cons.
Qed.

Lemma proto_end sp ab pm ph i r td g ab' pm' :
  proto sp ab pm ph -> ph i = PConv r td g -> next_up ab ab' ->
  (forall j, pm' j = DRC_LOCK_NULL \/ real_mode (pm' j)) ->
  (forall j, pm' j <> DRC_LOCK_NULL -> bm_mem (lk_granted_map ab') j) ->
  (forall j, pm' j = DRC_LOCK_EXCLUSIVE -> lk_mode ab' = DRC_LOCK_EXCLUSIVE) ->
  (forall j, bm_mem (lk_granted_map ab') j -> j = i \/ bm_mem (lk_granted_map ab) j) ->
  (lk_mode ab' <> DRC_LOCK_NULL -> exists j, bm_mem (lk_granted_map ab') j) ->
  (sp = false -> forall k, bm_mem (lk_granted_map ab') k -> pm' k <> DRC_LOCK_NULL) ->
  (sp = true -> lk_mode ab' <> DRC_LOCK_SHARE) ->
  proto sp ab' pm' (upd ph i PIdle).
Proof.
  intros P E [L Nc Nq Nr Nn] H1 H2 H3 H4 H5 H6 H7. destruct (pr_conv _ _ _ _ P _ _ _ _ E) as [Ec _].
  assert (asks (ph i) r) as Ha by (rewrite E; apply asks_conv). destruct (pr_range _ _ _ _ P _ _ Ha) as (Hi & Hr & _).
  assert (forall j r', asks (upd ph i PIdle j) r' -> j <> i /\ asks (ph j) r') as Hsub.
  { intros j r' H'. upd_cases. by apply asks_idle in H'. }
  assert (forall r', r' ∈ lk_convert_q ab -> inst_id r' <> i) as Hqi.
  { intros r' Hq Hn. apply (pr_queue _ _ _ _ P) in Hq. rewrite Hn, E in Hq. done. }
  assert (forall j r' td' g', ph j = PConv r' td' g' -> j = i) as Honly.
  { intros j r' td' g' E'. destruct (pr_conv _ _ _ _ P _ _ _ _ E') as [Ec' _].
    assert (asks (ph j) r') as Hj by (rewrite E'; apply asks_conv). destruct (pr_range _ _ _ _ P _ _ Hj) as (_ & <- & _). congruence. }
  destruct (Nn (pr_nodup _ _ _ _ P)) as [Hnd Hfr]. split; try done.
  - intros j [->|Hj]%H4; [done|]. by apply (pr_bits _ _ _ _ P).
  - intros j r' [_ H']%Hsub. by apply (pr_range _ _ _ _ P).
  - intros j r' E'. upd_cases. apply Nq. destruct (pr_wait _ _ _ _ P _ _ E') as [?|Hw]; [done|]. exfalso.
    destruct (pr_range _ _ _ _ P j r') as (_ & Hj & _); [rewrite E'; apply asks_wait|]. congruence.
  - intros j r' td' g' E'. upd_cases. by apply Honly in E'.
  - intros Hc. specialize (Nc Hc). rewrite upd_ne by auto. rewrite (pr_queue _ _ _ _ P _ Nc). apply asks_wait.
  - intros r' Hq%Nr. rewrite upd_ne by auto. by apply (pr_queue _ _ _ _ P).
  - intros j r' [Hj H']%Hsub Hs [?|Hb]%H4; [done|]. by apply (pr_share _ _ _ _ P j r').
  - intros Hs k Hk. left. auto.
  - intros j r' td' k E'. upd_cases. by apply Honly in E'.
  - intros Hs. split; [auto|]. intros j r' [_ H']%Hsub. by apply (proj2 (pr_spin _ _ _ _ P Hs) j).
Qed.

(** The claim: the instance has the lock in the mode it asked for. *)
Lemma proto_claim sp ab pm ph i r g sid ab' :
  proto sp ab pm ph -> ph i = PConv r [] g -> g = None \/ req_mode r = DRC_LOCK_EXCLUSIVE ->
  lock_ok ab' -> claimed (mk_lclaim i (req_mode r) sid) ab ab' -> proto sp ab' (upd pm i (req_mode r)) (upd ph i PIdle).
Proof.
  intros P E Hg L (_ & Hm & Hb & Hn). cbn in Hm, Hb. destruct (pr_conv _ _ _ _ P _ _ _ _ E) as [Ec Hf].
  assert (asks (ph i) r) as Ha by (rewrite E; apply asks_conv). destruct (pr_range _ _ _ _ P _ _ Ha) as (Hi & Hr & _ & Hreal).
  assert (forall j, j <> i -> fits r (pm j)) as Hfit by (intros j Hj; apply Hf; [done|apply not_elem_of_nil]). clear Hf.
  assert (real_mode (req_mode r) -> req_mode r <> DRC_LOCK_NULL) as Hnn by (intros [->| ->]; done).
  eapply proto_end; [done|done|by apply next_up_intro|..].
  - intros j. upd_cases; [by right|]. apply P.
  - intros j Hj. apply Hb. upd_cases; [by left|]. right. split; [|by apply (pr_hold _ _ _ _ P)].
    intros Hx. destruct (Hfit j) as [?|[Hs _]]; [done|done|]. by rewrite Hs in Hx.
  - intros j Hj. upd_cases; [congruence|]. destruct (Hfit j) as [Hz|[_ Hz]]; [done|..]; by rewrite Hz in Hj.
  - intros j [?|[_ ?]]%Hb; auto.
  - intros _. exists i. apply Hb. by left.
  - intros Hs k [->|[Hx Hk]]%Hb; [rewrite upd_eq; auto|]. upd_cases; [auto|].
    destruct (pr_latch _ _ _ _ P Hs k Hk) as [?|(j & r' & td & E')]; [done|]. exfalso.
    destruct (pr_gone _ _ _ _ P _ _ _ _ E') as (Hx' & _). destruct (pr_conv _ _ _ _ P _ _ _ _ E') as [Ec' _]. congruence.
  - intros Hs. rewrite Hm, (proj2 (pr_spin _ _ _ _ P Hs) i r Ha). done.
Qed.

(** The cancellation of a request. *)
Lemma proto_cancel sp ab pm ph i r td g ab' :
  proto sp ab pm ph -> ph i = PConv r td g -> g = None \/ sp = true -> lock_ok ab' ->
  lk_mode ab' = lk_mode ab -> lk_granted_map ab' = lk_granted_map ab ->
  match lk_convert_q ab with
  | [] => inst_id (lk_converting ab') = OG_INVALID_ID8 /\ lk_convert_q ab' = []
  | r :: rs => lk_converting ab' = r /\ lk_convert_q ab' = rs
  end -> proto sp ab' pm (upd ph i PIdle).
Proof.
  intros P E Hg L Em Eg Hn. destruct (pr_conv _ _ _ _ P _ _ _ _ E) as [Ec _].
  eapply proto_end; [done|done|by apply next_up_intro|..]; rewrite ?Em, ?Eg; try apply P.
  - auto.
  - intros Hs k Hk. destruct (pr_latch _ _ _ _ P Hs k Hk) as [?|(j & r' & td' & E')]; [done|]. exfalso.
    destruct (pr_conv _ _ _ _ P _ _ _ _ E') as [Ec' _].
    assert (asks (ph i) r) as Ha by (rewrite E; apply asks_conv). assert (asks (ph j) r') as Hj by (rewrite E'; apply asks_conv).
    destruct (pr_range _ _ _ _ P _ _ Ha) as (_ & Hi & _), (pr_range _ _ _ _ P _ _ Hj) as (_ & Hj' & _).
    assert (j = i) as -> by congruence. destruct Hg; congruence.
Qed.
End Proto.
