(* ===== verification/DlsThm.v ===== *)
(** The invariant of the lock service over the tables of all instances, and
    what its atomic actions do to what a thread owns. *)

From S2P Require Import Prelude DrcBitmap DrcPool DrcResMap DrcGlobalRes DrcQueue DrcTable DrcReform DrcMapTab.
From S2P Require Import DrcLock DrcLockInv DrcLockThm DrcLocal DrcLocalThm Conc Dls DlsInv.

(** A thread that has locked local resource [d] of instance [i] owns entry
    [(d, i)]: what is in the resource, the mode the instance has the lock in,
    and where its request is. *)
Record slot := mk_slot { sl_body : local_lock; sl_mode : Z; sl_phase : phase }.
Notation slots_of := (gmap (drid * Z) slot).
(** Addresses: of the local resource [d] of [i] ([Some i]) and of lock [d] at
    its master ([None]). *)
Notation addrs := (gmap (drid * option Z) Z).

Definition set_loc (i : Z) (t : loctab) (s : cluster) : cluster := mk_cluster (<[i := t]> (cl_loc s)) (cl_mas s).
Definition set_mas (i : Z) (t : ltab) (s : cluster) : cluster := mk_cluster (cl_loc s) (<[i := t]> (cl_mas s)).

(** What the members of a local resource say when the lock is had in mode
    [m], at any time and when the resource is not locked. *)
Record body_ok (sp : bool) (b : local_lock) (m : Z) : Prop := {
  bo_x : la_stat (ll_latch b) = LATCH_STATUS_X -> m = DRC_LOCK_EXCLUSIVE;
  bo_s : la_stat (ll_latch b) = LATCH_STATUS_S -> m <> DRC_LOCK_NULL;
  bo_ix : la_stat (ll_latch b) = LATCH_STATUS_IX -> la_shared_count (ll_latch b) <> 0 -> m <> DRC_LOCK_NULL;
  bo_spin : sp = true -> ll_is_locked b = true -> m = DRC_LOCK_EXCLUSIVE;
}.
Record free_ok (sp : bool) (b : local_lock) : Prop := {
  fo_lock : ll_lock b = false;
  fo_body : body_ok sp b (la_lock_mode (ll_latch b));
  fo_count : 0 <= la_shared_count (ll_latch b);
  fo_stat : la_stat (ll_latch b) ∈ [LATCH_STATUS_IDLE; LATCH_STATUS_S; LATCH_STATUS_IX; LATCH_STATUS_X];
  fo_none : la_stat (ll_latch b) = LATCH_STATUS_IDLE \/ la_stat (ll_latch b) = LATCH_STATUS_X -> la_shared_count (ll_latch b) = 0;
  fo_spin : sp = true -> la_stat (ll_latch b) = LATCH_STATUS_IDLE /\ ll_is_locked b = false /\
    la_lock_mode (ll_latch b) = (if ll_is_owner b then DRC_LOCK_EXCLUSIVE else DRC_LOCK_NULL);
}.

Lemma free_ok_new sp d : free_ok sp (new_local_lock d).
Proof. split; cbn; try done. by left. Qed.

Lemma body_ok_lock sp b m x : body_ok sp (ll_set_lock x b) m <-> body_ok sp b m.
Proof. split; intros []; split; done. Qed.

Section Cluster.
Context (signed : bool) (pad : list Z) (vw : view) (lock_master : drid -> Z) (inst_count : Z) (spin : drid -> bool).
Context (Hcount : inst_count <= 64) (Hmaster : forall d, ins inst_count (lock_master d)).
Implicit Types (s : cluster) (kn : addrs) (m o O : slots_of) (d : drid) (i k : Z).
Notation lrep := (flat_rep (lock_hash signed pad)).
Notation ins := (ins inst_count).

(** The mode instance [i] has lock [d] in, and where its request is. *)
Definition mode_at O (LA : Z -> gmap drid local_lock) d i : Z :=
  match O !! (d, i) with
  | Some sl => sl_mode sl
  | None => match LA i !! d with Some b => la_lock_mode (ll_latch b) | None => DRC_LOCK_NULL end
  end.
Definition phase_at O d i : phase := match O !! (d, i) with Some sl => sl_phase sl | None => PIdle end.

Definition lock_proto d (e : option alock) (pm : Z -> Z) (ph : Z -> phase) : Prop :=
  match e with
  | Some ab => proto inst_count (spin d) ab pm ph
  | None => (forall i, pm i = DRC_LOCK_NULL) /\ forall i, ph i = PIdle
  end.

Record cinv s kn O (LA : Z -> gmap drid local_lock) (lam : Z -> gmap drid Z)
    (MA : Z -> lock_catalogue) (mam : Z -> gmap drid Z) : Prop := {
  ci_loc : forall i, ins i -> exists t Sp, cl_loc s !! i = Some t /\ lrep t (LA i) (lam i) Sp;
  ci_mas : forall i, ins i -> exists t f F Sp, cl_mas s !! i = Some t /\ lock_inv signed pad t (MA i) f F Sp (mam i);
  ci_known : forall d i a, kn !! (d, Some i) = Some a -> lam i !! d = Some a;
  ci_known_mas : forall d a, kn !! (d, None) = Some a -> mam (lock_master d) !! d = Some a;
  ci_own : forall d i sl, O !! (d, i) = Some sl ->
    ins i /\ LA i !! d = Some (sl_body sl) /\ ll_lock (sl_body sl) = true /\ body_ok (spin d) (sl_body sl) (sl_mode sl);
  ci_free : forall d i b, O !! (d, i) = None -> ins i -> LA i !! d = Some b -> free_ok (spin d) b;
  ci_proto : forall d, lock_proto d (MA (lock_master d) !! d) (mode_at O LA d) (phase_at O d);
}.
Definition cluster_inv s kn O : Prop := exists LA lam MA mam, cinv s kn O LA lam MA mam.

Lemma lock_proto_ext d e pm ph pm' ph' :
  lock_proto d e pm ph -> (forall i, pm' i = pm i) -> (forall i, ph' i = ph i) -> lock_proto d e pm' ph'.
Proof.
  destruct e as [ab|]; cbn; [apply proto_ext|]. intros [H1 H2] Hm Hp. split; intros i; [by rewrite Hm|by rewrite Hp].
Qed.

Lemma mode_at_insert O LA d i sl d' j :
  mode_at (<[(d, i) := sl]> O) LA d' j = if decide (d' = d) then upd (mode_at O LA d) i (sl_mode sl) j else mode_at O LA d' j.
Proof.
  unfold mode_at, upd. destruct (decide (d' = d)) as [->|Hd]; [destruct (decide (j = i)) as [->|Hj]|].
  - by rewrite lookup_insert_eq.
  - by rewrite lookup_insert_ne by congruence.
  - by rewrite lookup_insert_ne by congruence.
Qed.
Lemma phase_at_insert O d i sl d' j :
  phase_at (<[(d, i) := sl]> O) d' j = if decide (d' = d) then upd (phase_at O d) i (sl_phase sl) j else phase_at O d' j.
Proof.
  unfold phase_at, upd. destruct (decide (d' = d)) as [->|Hd]; [destruct (decide (j = i)) as [->|Hj]|].
  - by rewrite lookup_insert_eq.
  - by rewrite lookup_insert_ne by congruence.
  - by rewrite lookup_insert_ne by congruence.
Qed.

(** A change of lock [d] only. *)
Lemma proto_insert O LA (MA : Z -> lock_catalogue) d i sl :
  (forall d, lock_proto d (MA (lock_master d) !! d) (mode_at O LA d) (phase_at O d)) ->
  lock_proto d (MA (lock_master d) !! d) (upd (mode_at O LA d) i (sl_mode sl)) (upd (phase_at O d) i (sl_phase sl)) ->
  forall d', lock_proto d' (MA (lock_master d') !! d') (mode_at (<[(d, i) := sl]> O) LA d') (phase_at (<[(d, i) := sl]> O) d').
Proof.
  intros H Hd d'. destruct (decide (d' = d)) as [->|Hne].
  - eapply lock_proto_ext; [exact Hd|intros j..]; [rewrite mode_at_insert|rewrite phase_at_insert]; by rewrite decide_True.
  - eapply lock_proto_ext; [apply H|intros j..]; [rewrite mode_at_insert|rewrite phase_at_insert]; by rewrite decide_False.
Qed.

(** One resource of the local tables. *)
Lemma entry_ne {A} (LA : Z -> gmap drid A) d i b d' j : (d', j) <> (d, i) -> upd LA i (<[d := b]> (LA i)) j !! d' = LA j !! d'.
Proof. intros Hn. unfold upd. destruct (decide (j = i)) as [->|]; [|done]. rewrite lookup_insert_ne; [done|congruence]. Qed.
Lemma entry_eq {A} (LA : Z -> gmap drid A) d i b : upd LA i (<[d := b]> (LA i)) i !! d = Some b.
Proof. by rewrite upd_eq, lookup_insert_eq. Qed.
Lemma entry_tables s LA lam d i b t Sp :
  (forall j, ins j -> exists t Sp, cl_loc s !! j = Some t /\ lrep t (LA j) (lam j) Sp) -> lrep t (<[d := b]> (LA i)) (lam i) Sp ->
  forall j, ins j -> exists t' Sp', cl_loc (set_loc i t s) !! j = Some t' /\ lrep t' (upd LA i (<[d := b]> (LA i)) j) (lam j) Sp'.
Proof.
  intros H R j Hj. cbn. destruct (decide (j = i)) as [->|Hji]; [rewrite upd_eq, lookup_insert_eq; eauto|].
  rewrite upd_ne, lookup_insert_ne by done. by apply H.
Qed.

(** ** What the invariant says of the instances *)
Section Modes.
Context (s : cluster) (kn : addrs) (O : slots_of) (LA : Z -> gmap drid local_lock) (lam : Z -> gmap drid Z).
Context (MA : Z -> lock_catalogue) (mam : Z -> gmap drid Z) (I : cinv s kn O LA lam MA mam).

(** An instance that has a lock exclusively is the only one that has it. *)
Lemma modes_exclusive d i j : mode_at O LA d i = DRC_LOCK_EXCLUSIVE -> mode_at O LA d j <> DRC_LOCK_NULL -> i = j.
Proof.
  intros Hi Hj. pose proof (ci_proto _ _ _ _ _ _ _ I d) as P. destruct (MA (lock_master d) !! d) as [ab|]; cbn in P.
  - eapply (lo_excl _ (pr_ok _ _ _ _ _ P)); [by eapply pr_excl|eapply pr_hold; [exact P|]..]; [by rewrite Hi|done].
  - destruct P as [P _]. by rewrite P in Hj.
Qed.

(** What the local resources say is true of the modes. *)
Lemma body_at d i b : ins i -> LA i !! d = Some b -> body_ok (spin d) b (mode_at O LA d i).
Proof.
  intros Hi Hb. unfold mode_at. destruct (O !! (d, i)) as [sl|] eqn:Ho.
  - destruct (ci_own _ _ _ _ _ _ _ I _ _ _ Ho) as (_ & E & _ & Hok). by simplify_eq.
  - rewrite Hb. apply (ci_free _ _ _ _ _ _ _ I _ _ _ Ho Hi Hb).
Qed.
End Modes.

(** ** Changes of what is owned *)
Section Steps.
Context (s : cluster) (kn : addrs) (O : slots_of) (LA : Z -> gmap drid local_lock) (lam : Z -> gmap drid Z).
Context (MA : Z -> lock_catalogue) (mam : Z -> gmap drid Z).

(** The ghost part of an entry. *)
Lemma inv_ghost d i sl md ph :
  cinv s kn O LA lam MA mam -> O !! (d, i) = Some sl -> body_ok (spin d) (sl_body sl) md ->
  lock_proto d (MA (lock_master d) !! d) (upd (mode_at O LA d) i md) (upd (phase_at O d) i ph) ->
  cinv s kn (<[(d, i) := mk_slot (sl_body sl) md ph]> O) LA lam MA mam.
Proof.
  intros I Ho Hb HP. destruct (ci_own _ _ _ _ _ _ _ I _ _ _ Ho) as (Hi & Hl & Hlk & _).
  split; try apply I.
  - intros d' j sl'. rewrite lookup_insert_Some. intros [[[= -> ->] <-]|[_ ?]]; [done|]. by apply (ci_own _ _ _ _ _ _ _ I).
  - intros d' j b. rewrite lookup_insert_None. intros [? _]. by apply (ci_free _ _ _ _ _ _ _ I).
  - apply proto_insert; [apply I|done].
Qed.

(** The resource of an entry. *)
Lemma inv_write d i sl b t Sp :
  cinv s kn O LA lam MA mam -> O !! (d, i) = Some sl -> ll_lock b = true -> body_ok (spin d) b (sl_mode sl) ->
  lrep t (<[d := b]> (LA i)) (lam i) Sp ->
  cinv (set_loc i t s) kn (<[(d, i) := mk_slot b (sl_mode sl) (sl_phase sl)]> O) (upd LA i (<[d := b]> (LA i))) lam MA mam.
Proof.
  intros I Ho Hlk Hb R. destruct (ci_own _ _ _ _ _ _ _ I _ _ _ Ho) as (Hi & Hl & _).
  split; try apply I.
  - by eapply entry_tables; [apply I|].
  - intros d' j sl'. rewrite lookup_insert_Some. intros [[[= -> ->] <-]|[Hn Ho']]; cbn.
    + by rewrite entry_eq.
    + rewrite entry_ne by done. by apply (ci_own _ _ _ _ _ _ _ I).
  - intros d' j b'. rewrite lookup_insert_None. intros [? Hn] Hj. rewrite entry_ne by done. by apply (ci_free _ _ _ _ _ _ _ I).
  - assert (forall d' j, mode_at O (upd LA i (<[d := b]> (LA i))) d' j = mode_at O LA d' j) as Hm.
    { intros d' j. unfold mode_at. destruct (O !! (d', j)) eqn:E; [done|]. rewrite entry_ne; [done|congruence]. }
    intros d'. apply proto_insert.
    + intros d''. eapply lock_proto_ext; [apply I|apply Hm|done].
    + eapply lock_proto_ext; [apply (ci_proto _ _ _ _ _ _ _ I)|intros j..]; rewrite upd_id; try done; rewrite ?Hm; [unfold mode_at|unfold phase_at]; by rewrite Ho.
Qed.

(** The lock at its master. *)
Lemma inv_master d i sl md ph ab t f F Sp am :
  cinv s kn O LA lam MA mam -> O !! (d, i) = Some sl -> body_ok (spin d) (sl_body sl) md ->
  lock_inv signed pad t (<[d := ab]> (MA (lock_master d))) f F Sp am -> mam (lock_master d) ⊆ am ->
  proto inst_count (spin d) ab (upd (mode_at O LA d) i md) (upd (phase_at O d) i ph) ->
  cinv (set_mas (lock_master d) t s) kn (<[(d, i) := mk_slot (sl_body sl) md ph]> O) LA lam
    (upd MA (lock_master d) (<[d := ab]> (MA (lock_master d)))) (upd mam (lock_master d) am).
Proof.
  intros I Ho Hb R Ham HP. destruct (ci_own _ _ _ _ _ _ _ I _ _ _ Ho) as (Hi & Hl & Hlk & _).
  assert (forall d', upd MA (lock_master d) (<[d := ab]> (MA (lock_master d))) (lock_master d') !! d' =
    if decide (d' = d) then Some ab else MA (lock_master d') !! d') as HMA.
  { intros d'. unfold upd. destruct (decide (d' = d)) as [->|Hne]; [by rewrite decide_True, lookup_insert_eq|].
    destruct (decide _) as [->|]; [|done]. by rewrite lookup_insert_ne by congruence. }
  split; try apply I.
  - intros j Hj. cbn. destruct (decide (j = lock_master d)) as [->|Hji]; [rewrite !upd_eq, lookup_insert_eq; by eauto 10|].
    rewrite !upd_ne, lookup_insert_ne by done. by apply (ci_mas _ _ _ _ _ _ _ I).
  - intros d' a Ha%(ci_known_mas _ _ _ _ _ _ _ I). unfold upd. destruct (decide _) as [E|]; [|done].
    eapply lookup_weaken; [|exact Ham]. by rewrite E in Ha.
  - intros d' j sl'. rewrite lookup_insert_Some. intros [[[= -> ->] <-]|[_ ?]]; [done|]. by apply (ci_own _ _ _ _ _ _ _ I).
  - intros d' j b. rewrite lookup_insert_None. intros [? _]. by apply (ci_free _ _ _ _ _ _ _ I).
  - intros d'. rewrite HMA. destruct (decide (d' = d)) as [->|Hne].
    + eapply lock_proto_ext; [exact HP|intros j..]; [rewrite mode_at_insert|rewrite phase_at_insert]; by rewrite decide_True.
    + eapply lock_proto_ext; [apply I|intros j..]; [rewrite mode_at_insert|rewrite phase_at_insert]; by rewrite decide_False.
Qed.

(** A free resource is locked, and an owned one unlocked. *)
Lemma inv_lock d i b t Sp :
  cinv s kn O LA lam MA mam -> O !! (d, i) = None -> ins i -> LA i !! d = Some b ->
  lrep t (<[d := ll_set_lock true b]> (LA i)) (lam i) Sp ->
  cinv (set_loc i t s) kn (<[(d, i) := mk_slot (ll_set_lock true b) (la_lock_mode (ll_latch b)) PIdle]> O)
    (upd LA i (<[d := ll_set_lock true b]> (LA i))) lam MA mam.
Proof.
  intros I Ho Hi Hb R. pose proof (ci_free _ _ _ _ _ _ _ I _ _ _ Ho Hi Hb) as Hf.
  split; try apply I.
  - by eapply entry_tables; [apply I|].
  - intros d' j sl'. rewrite lookup_insert_Some. intros [[[= -> ->] <-]|[Hn Ho']]; cbn.
    + rewrite entry_eq. split_and!; try done. apply body_ok_lock, Hf.
    + rewrite entry_ne by done. by apply (ci_own _ _ _ _ _ _ _ I).
  - intros d' j b'. rewrite lookup_insert_None. intros [? Hn] Hj. rewrite entry_ne by done. by apply (ci_free _ _ _ _ _ _ _ I).
  - intros d'. eapply lock_proto_ext; [apply (ci_proto _ _ _ _ _ _ _ I)|intros j..].
    + unfold mode_at. destruct (decide ((d', j) = (d, i))) as [[= -> ->]|Hn]; [by rewrite lookup_insert_eq, Ho, Hb|].
      rewrite lookup_insert_ne by done. by rewrite entry_ne.
    + unfold phase_at. destruct (decide ((d', j) = (d, i))) as [[= -> ->]|Hn]; [by rewrite lookup_insert_eq, Ho|].
      by rewrite lookup_insert_ne by done.
Qed.

Lemma inv_unlock d i sl t Sp :
  cinv s kn O LA lam MA mam -> O !! (d, i) = Some sl -> sl_phase sl = PIdle ->
  la_lock_mode (ll_latch (sl_body sl)) = sl_mode sl -> free_ok (spin d) (ll_set_lock false (sl_body sl)) ->
  lrep t (<[d := ll_set_lock false (sl_body sl)]> (LA i)) (lam i) Sp ->
  cinv (set_loc i t s) kn (delete (d, i) O) (upd LA i (<[d := ll_set_lock false (sl_body sl)]> (LA i))) lam MA mam.
Proof.
  intros I Ho Hp Hm Hf R. destruct (ci_own _ _ _ _ _ _ _ I _ _ _ Ho) as (Hi & Hl & _).
  split; try apply I.
  - by eapply entry_tables; [apply I|].
  - intros d' j sl'. rewrite lookup_delete_Some. intros [Hn Ho']. rewrite entry_ne by done. by apply (ci_own _ _ _ _ _ _ _ I).
  - intros d' j b'. rewrite lookup_delete_None. intros Hor Hj. destruct (decide ((d', j) = (d, i))) as [[= -> ->]|Hn].
    + rewrite entry_eq. by intros [= <-].
    + destruct Hor as [?|?]; [congruence|]. rewrite entry_ne by done. by apply (ci_free _ _ _ _ _ _ _ I).
  - intros d'. eapply lock_proto_ext; [apply (ci_proto _ _ _ _ _ _ _ I)|intros j..].
    + unfold mode_at. destruct (decide ((d', j) = (d, i))) as [[= -> ->]|Hn].
      * by rewrite lookup_delete_eq, Ho, entry_eq.
      * rewrite lookup_delete_ne by done. by rewrite entry_ne.
    + unfold phase_at. destruct (decide ((d', j) = (d, i))) as [[= -> ->]|Hn]; [by rewrite lookup_delete_eq, Ho|].
      by rewrite lookup_delete_ne by done.
Qed.
End Steps.
End Cluster.
