(* ===== verification/DlsWp.v ===== *)
(** The atomic actions of the lock service: what each needs of the entries a
    thread owns, and what it leaves it with. *)

From S2P Require Import Prelude DrcBitmap DrcPool DrcResMap DrcGlobalRes DrcQueue DrcTable DrcReform DrcMapTab.
From S2P Require Import DrcLock DrcLockInv DrcLockThm DrcLocal DrcLocalThm Conc Dls DlsInv DlsThm.

(** The only crashes there may be, by the action that has them.  A thread
    that gets the local resource of [d] at instance [i] panics when there is
    none and the pool of that instance has no free item; a thread whose
    request for [d] is made at the master [i] panics when the master has no
    resource for [d] and no free item for one.  No other action crashes. *)
Inductive exhausted (signed : bool) (pad : list Z) : forall B : Type, (cluster -> outcome (option (B * cluster))) -> cluster -> crash -> Prop :=
| no_local_item i d s t :
    cl_loc s !! i = Some t -> drc_get_local_resx_without_create signed pad d t = Ok None ->
    drc_res_pool_alloc_item (res_pool t) = Ok (OG_INVALID_ID32, res_pool t) ->
    exhausted signed pad _ (loc_act i (fun t => r ← drc_get_local_resx signed pad d t; Ok (Some r))) s Panic
| no_lock_item vw i d r version s t :
    cl_mas s !! i = Some t -> lock_lookup signed pad t d = Ok None -> tb_alloc t = Ok (OG_INVALID_ID32, t) ->
    exhausted signed pad _ (mas_act i (request_begin signed pad vw d r version)) s Panic.

Section Rules.
Context (signed : bool) (pad : list Z) (vw : view) (lock_master : drid -> Z) (inst_count : Z) (spin : drid -> bool).
Context (Hcount : inst_count <= 64) (Hmaster : forall d, ins inst_count (lock_master d)).
Implicit Types (s : cluster) (kn : addrs) (m o O : slots_of) (d : drid) (i k : Z).
Notation lrep := (flat_rep (lock_hash signed pad)).
Notation ins := (ins inst_count).
Notation cinv := (cinv signed pad lock_master inst_count spin).
Notation Inv := (cluster_inv signed pad lock_master inst_count spin).
Notation WP := (wp Inv (exhausted signed pad)).

(** An entry a thread owns is changed. *)
Lemma own_update s kn m o key sl sl' :
  m ##ₘ o -> m !! key = Some sl -> Inv s kn (<[key := sl']> (m ∪ o)) -> <[key := sl']> m ##ₘ o /\ Inv s kn (<[key := sl']> m ∪ o).
Proof.
  intros Hd Hm I. split; [|by rewrite insert_union_l in I]. apply map_disjoint_insert_l_2; [|done].
  by eapply map_disjoint_Some_l.
Qed.

Lemma own_lookup m o (key : drid * Z) (sl : slot) : m !! key = Some sl -> (m ∪ o) !! key = Some sl.
Proof. apply lookup_union_Some_l. Qed.

(** One table of an instance. *)
Lemma rd_loc s kn O LA lam MA mam i : cinv s kn O LA lam MA mam -> ins i ->
  exists t Sp, rd (cl_loc s) i = Ok t /\ cl_loc s !! i = Some t /\ lrep t (LA i) (lam i) Sp.
Proof. intros I Hi. destruct (ci_loc _ _ _ _ _ _ _ _ _ _ _ _ I _ Hi) as (t & Sp & E & R). exists t, Sp. unfold rd. by rewrite E. Qed.
Lemma rd_mas s kn O LA lam MA mam i : cinv s kn O LA lam MA mam -> ins i ->
  exists t f F Sp, rd (cl_mas s) i = Ok t /\ cl_mas s !! i = Some t /\ lock_inv signed pad t (MA i) f F Sp (mam i).
Proof. intros I Hi. destruct (ci_mas _ _ _ _ _ _ _ _ _ _ _ _ I _ Hi) as (t & f & F & Sp & E & R). exists t, f, F, Sp. unfold rd. by rewrite E. Qed.

Lemma set_loc_same s i t : cl_loc s !! i = Some t -> mk_cluster (<[i := t]> (cl_loc s)) (cl_mas s) = s.
Proof. intros E. rewrite insert_id by done. by destruct s. Qed.

(** ** Checks and choices *)
Lemma wp_assert (c : bool) Q kn m : c = true -> (forall kn', kn ⊆ kn' -> Q tt kn' m) -> WP (assert c) Q kn m.
Proof. intros -> HQ s kn1 o Hk Hd I. cbn. exists kn1, m. split_and!; [done..|]. by apply HQ. Qed.

Lemma wp_choose (Q : Z -> addrs -> slots_of -> Prop) kn m : (forall x, Q x kn m) -> WP choose Q kn m.
Proof. intros HQ x. cbn. apply HQ. Qed.

(** ** Local resources *)

(** New knowledge of an address. *)
Lemma known_add s kn O LA lam MA mam d i a :
  cinv s kn O LA lam MA mam -> lam i !! d = Some a ->
  cinv s (<[(d, Some i) := a]> kn) O LA lam MA mam /\ kn ⊆ <[(d, Some i) := a]> kn.
Proof.
  intros I Ha. split.
  - split; try apply I.
    + intros d' j a'. rewrite lookup_insert_Some. intros [[[= -> ->] <-]|[_ ?]]; [done|]. by eapply ci_known.
    + intros d' a'. rewrite lookup_insert_ne by done. by eapply ci_known_mas.
  - destruct (kn !! (d, Some i)) as [a'|] eqn:E; [|by apply insert_subseteq].
    pose proof (ci_known _ _ _ _ _ _ _ _ _ _ _ _ I _ _ _ E) as E'. by rewrite insert_id by congruence.
Qed.

(** A resource that is made. *)
Lemma inv_create s kn O LA lam MA mam d i t Sp am :
  cinv s kn O LA lam MA mam -> LA i !! d = None -> lam i ⊆ am ->
  lrep t (<[d := new_local_lock d]> (LA i)) am Sp ->
  cinv (set_loc i t s) kn O (upd LA i (<[d := new_local_lock d]> (LA i))) (upd lam i am) MA mam.
Proof.
  intros I Hn Ham R. split; try apply I.
  - intros j Hj. cbn. destruct (decide (j = i)) as [->|Hji]; [rewrite !upd_eq, lookup_insert_eq; eauto|].
    rewrite !upd_ne, lookup_insert_ne by done. by eapply ci_loc.
  - intros d' j a Ha. pose proof (ci_known _ _ _ _ _ _ _ _ _ _ _ _ I _ _ _ Ha). unfold upd. destruct (decide (j = i)) as [->|]; [|done].
    by eapply lookup_weaken.
  - intros d' j sl Ho. destruct (ci_own _ _ _ _ _ _ _ _ _ _ _ _ I _ _ _ Ho) as (? & Hl & ?). rewrite entry_ne; [done|].
    intros [= -> ->]. congruence.
  - intros d' j b Ho Hj. destruct (decide ((d', j) = (d, i))) as [[= -> ->]|Hne].
    + rewrite entry_eq. intros [= <-]. apply free_ok_new.
    + rewrite entry_ne by done. by eapply ci_free.
  - intros d'. eapply lock_proto_ext; [by eapply ci_proto|intros j|done]. unfold mode_at. destruct (O !! (d', j)); [done|].
    destruct (decide ((d', j) = (d, i))) as [[= -> ->]|Hne]; [by rewrite entry_eq, Hn|by rewrite entry_ne].
Qed.

Lemma wp_get i d Q kn m :
  ins i -> (forall kn' a, kn ⊆ kn' -> kn' !! (d, Some i) = Some a -> Q a kn' m) -> WP (get_resx signed pad i d) Q kn m.
Proof.
  intros Hi HQ s kn1 o Hk Hd (LA & lam & MA & mam & I). destruct (rd_loc _ _ _ _ _ _ _ _ I Hi) as (t & Sp & Er & Et & R).
  cbn. rewrite Er. cbn [mbind outcome_bind]. destruct (LA i !! d) as [b|] eqn:Hb.
  - unfold drc_get_local_resx, loc_lookup, loc_bucket. destruct (flat_open _ _ _ _ _ _ _ R Hb) as (a & Ha & -> & _).
    cbn [mbind outcome_bind]. rewrite (set_loc_same _ _ _ Et). destruct (known_add _ _ _ _ _ _ _ d i a I Ha) as [I' Hsub].
    exists (<[(d, Some i) := a]> kn1), m. split_and!; [done|done|by exists LA, lam, MA, mam|].
    apply HQ; [by etrans|by rewrite lookup_insert_eq].
  - destruct (get_local_ok signed pad t _ _ _ d R) as [(_ & Hfull & ->)|(a & t' & am' & E & Ha & R')].
    + cbn. apply (no_local_item _ _ i d s t); [done|by apply (flat_lookup_none _ _ _ _ _ _ R Hb)|].
      apply (alloc_item_full _ _ (fr_pool _ _ _ _ _ R)). by apply (flat_full_iff _ _ _ _ _ R).
    + rewrite Hb in R'. cbn in R'. rewrite E. cbn [mbind outcome_bind].
      assert (lam i ⊆ am') as Hsub.
      { unfold drc_get_local_resx, loc_lookup, loc_bucket in E. destruct (flat_lookup_none _ _ _ _ _ _ R Hb) as [Hna El]. rewrite El in E.
        cbn [mbind outcome_bind] in E. unfold drc_create_local_lock_res, loc_bucket in E.
        destruct (flat_create _ _ _ _ _ d (fun i _ => mk_fitem OG_INVALID_ID32 i (new_local_lock d)) R Hb) as
          [[_ Ec]|(_ & i2 & a2 & t2 & Ec & _ & _ & R2)]; [done|by rewrite Ec in E|]. rewrite Ec in E. cbn in E. injection E as <- <-.
        apply map_subseteq_spec. intros d' x Hx.
        destruct (rep_entry signed pad _ _ _ _ _ _ R Hx) as (bx & Hbx & _).
        destruct (decide (d' = d)) as [->|Hne]; [congruence|].
        assert (is_Some (am' !! d')) as [y Hy]. { apply (fr_dom _ _ _ _ _ R'). rewrite lookup_insert_ne by done. eauto. }
        assert (<[d := i2]> (lam i) !! d' = Some x) as Hx2 by (by rewrite lookup_insert_ne).
        rewrite Hy. f_equal.
        pose proof (flat_lookup _ _ _ _ _ d' R2) as L2. pose proof (flat_lookup _ _ _ _ _ d' R') as L3. rewrite L2, Hx2, Hy in L3. by injection L3 as <-. }
      pose proof (inv_create _ _ _ _ _ _ _ d i t' Sp am' I Hb Hsub R') as I1.
      destruct (known_add _ _ _ _ _ _ _ d i a I1) as [I2 Hs2]; [by rewrite upd_eq|].
      exists (<[(d, Some i) := a]> kn1), m. split_and!; [done|done|by eexists _, _, _, _|].
      apply HQ; [by etrans|by rewrite lookup_insert_eq].
Qed.

(** A resource is looked for; what is not there is not held. *)
Lemma wp_find i d Q kn m :
  ins i -> (forall kn' a, kn ⊆ kn' -> kn' !! (d, Some i) = Some a -> Q (Some a) kn' m) ->
  (forall s kn1 o LA lam MA mam, m ##ₘ o -> cinv s kn1 (m ∪ o) LA lam MA mam -> kn ⊆ kn1 -> (m ∪ o) !! (d, i) = None -> LA i !! d = None ->
     exists m', m' ##ₘ o /\ Inv s kn1 (m' ∪ o) /\ Q None kn1 m') ->
  WP (find_resx signed pad i d) Q kn m.
Proof.
  intros Hi HS HN s kn1 o Hk Hd (LA & lam & MA & mam & I). destruct (rd_loc _ _ _ _ _ _ _ _ I Hi) as (t & Sp & Er & Et & R).
  cbn. rewrite Er. cbn [mbind outcome_bind]. unfold drc_get_local_resx_without_create, loc_lookup, loc_bucket.
  destruct (LA i !! d) as [b|] eqn:Hb.
  - destruct (flat_open _ _ _ _ _ _ _ R Hb) as (a & Ha & -> & _). cbn [mbind outcome_bind]. rewrite (set_loc_same _ _ _ Et).
    destruct (known_add _ _ _ _ _ _ _ d i a I Ha) as [I' Hsub].
    exists (<[(d, Some i) := a]> kn1), m. split_and!; [done|done|by exists LA, lam, MA, mam|].
    apply HS; [by etrans|by rewrite lookup_insert_eq].
  - destruct (flat_lookup_none _ _ _ _ _ _ R Hb) as [_ ->]. cbn [mbind outcome_bind]. rewrite (set_loc_same _ _ _ Et).
    destruct (HN s kn1 o LA lam MA mam Hd I Hk) as (m' & ? & ? & ?); [|done|by exists kn1, m'].
    destruct ((m ∪ o) !! (d, i)) as [sl|] eqn:Ho; [|done]. destruct (ci_own _ _ _ _ _ _ _ _ _ _ _ _ I _ _ _ Ho) as (_ & ? & _). congruence.
Qed.

(** The resource at a known address. *)
Lemma known_body s kn kn1 O LA lam MA mam d i a t Sp :
  cinv s kn1 O LA lam MA mam -> kn ⊆ kn1 -> kn !! (d, Some i) = Some a -> lrep t (LA i) (lam i) Sp ->
  lam i !! d = Some a /\ exists b, LA i !! d = Some b /\ fm_get t a = Ok b.
Proof.
  intros I Hk Ha R. assert (lam i !! d = Some a) as Hl by (eapply (ci_known _ _ _ _ _ _ _ _ _ _ _ _ I), lookup_weaken; done).
  split; [done|]. destruct (rep_entry signed pad _ _ _ _ _ _ R Hl) as (b & Hb & Hg & _). eauto.
Qed.

(** Taking and giving back the spin lock of a resource. *)
Definition locked_slot (b : local_lock) : slot := mk_slot (ll_set_lock true b) (la_lock_mode (ll_latch b)) PIdle.

Lemma lock_inv_free s kn kn1 m o LA lam MA mam d i a t Sp :
  cinv s kn1 (m ∪ o) LA lam MA mam -> kn ⊆ kn1 -> kn !! (d, Some i) = Some a -> m ##ₘ o -> ins i -> lrep t (LA i) (lam i) Sp ->
  exists b, fm_get t a = Ok b /\
    (ll_lock b = false -> exists t', fm_put t a (ll_set_lock true b) = Ok t' /\ m !! (d, i) = None /\ free_ok (spin d) b /\
       <[(d, i) := locked_slot b]> m ##ₘ o /\ Inv (set_loc i t' s) kn1 (<[(d, i) := locked_slot b]> m ∪ o)).
Proof.
  intros I Hk Ha Hd Hi R. destruct (known_body _ _ _ _ _ _ _ _ _ _ _ _ _ I Hk Ha R) as (Hl & b & Hb & Hg).
  exists b. split; [done|]. intros Hlk. destruct ((m ∪ o) !! (d, i)) as [sl|] eqn:Ho.
  { destruct (ci_own _ _ _ _ _ _ _ _ _ _ _ _ I _ _ _ Ho) as (_ & Hb' & Hl' & _). congruence. }
  destruct (local_update signed pad t _ _ _ d a b (ll_set_lock true) R Hl Hb eq_refl) as (t' & E & R'). rewrite Hg in E. cbn [mbind outcome_bind] in E.
  pose proof Ho as [Hm Ho']%lookup_union_None.
  exists t'. split_and!; [done|done|by eapply (ci_free _ _ _ _ _ _ _ _ _ _ _ _ I)|by apply map_disjoint_insert_l_2|].
  rewrite <- insert_union_l. eexists _, _, _, _. by apply (inv_lock _ _ _ _ _ _ _ _ _ _ _ _ d i b t' Sp I Ho Hi Hb R').
Qed.

Lemma wp_lock i a d Q kn m :
  ins i -> kn !! (d, Some i) = Some a ->
  (forall kn' b, kn ⊆ kn' -> m !! (d, i) = None -> free_ok (spin d) b -> Q tt kn' (<[(d, i) := locked_slot b]> m)) ->
  WP (lock_resx i a) Q kn m.
Proof.
  intros Hi Ha HQ s kn1 o Hk Hd (LA & lam & MA & mam & I). destruct (rd_loc _ _ _ _ _ _ _ _ I Hi) as (t & Sp & Er & Et & R).
  cbn. rewrite Er. cbn [mbind outcome_bind]. unfold drc_lock_local_resx.
  destruct (lock_inv_free _ _ _ _ _ _ _ _ _ _ _ _ _ _ I Hk Ha Hd Hi R) as (b & -> & HL). cbn [mbind outcome_bind].
  destruct (ll_lock b) eqn:Hlk; cbn [mbind outcome_bind option_map]; [done|]. destruct (HL eq_refl) as (t' & -> & Hm & Hf & Hd' & I').
  cbn [mbind outcome_bind option_map]. eexists kn1, _. split_and!; [done|exact Hd'|exact I'|]. by apply HQ.
Qed.

Lemma wp_try_lock i a d Q kn m :
  ins i -> kn !! (d, Some i) = Some a -> (forall kn', kn ⊆ kn' -> Q false kn' m) ->
  (forall kn' b, kn ⊆ kn' -> m !! (d, i) = None -> free_ok (spin d) b -> Q true kn' (<[(d, i) := locked_slot b]> m)) ->
  WP (try_lock_resx i a) Q kn m.
Proof.
  intros Hi Ha HF HQ s kn1 o Hk Hd (LA & lam & MA & mam & I). destruct (rd_loc _ _ _ _ _ _ _ _ I Hi) as (t & Sp & Er & Et & R).
  cbn. rewrite Er. cbn [mbind outcome_bind]. unfold drc_try_lock_local_resx.
  destruct (lock_inv_free _ _ _ _ _ _ _ _ _ _ _ _ _ _ I Hk Ha Hd Hi R) as (b & -> & HL). cbn [mbind outcome_bind].
  destruct (ll_lock b) eqn:Hlk; cbn [mbind outcome_bind].
  - rewrite (set_loc_same _ _ _ Et). exists kn1, m. split_and!; [done|done|by exists LA, lam, MA, mam|]. by apply HF.
  - destruct (HL eq_refl) as (t' & -> & Hm & Hf & Hd' & I').
    cbn [mbind outcome_bind]. eexists kn1, _. split_and!; [done|exact Hd'|exact I'|]. by apply HQ.
Qed.

Lemma wp_unlock i a d sl Q kn m :
  ins i -> kn !! (d, Some i) = Some a -> m !! (d, i) = Some sl -> sl_phase sl = PIdle ->
  la_lock_mode (ll_latch (sl_body sl)) = sl_mode sl -> free_ok (spin d) (ll_set_lock false (sl_body sl)) ->
  (forall kn', kn ⊆ kn' -> Q tt kn' (delete (d, i) m)) -> WP (unlock_resx i a) Q kn m.
Proof.
  intros Hi Ha Hm Hp Hmd Hf HQ s kn1 o Hk Hd (LA & lam & MA & mam & I). destruct (rd_loc _ _ _ _ _ _ _ _ I Hi) as (t & Sp & Er & Et & R).
  cbn. rewrite Er. cbn [mbind outcome_bind]. unfold drc_unlock_local_resx.
  destruct (known_body _ _ _ _ _ _ _ _ _ _ _ _ _ I Hk Ha R) as (Hl & b & Hb & Hg).
  pose proof (own_lookup _ o _ _ Hm) as Ho. destruct (ci_own _ _ _ _ _ _ _ _ _ _ _ _ I _ _ _ Ho) as (_ & Hb' & _).
  assert (b = sl_body sl) as -> by congruence.
  destruct (local_update signed pad t _ _ _ d a _ (ll_set_lock false) R Hl Hb eq_refl) as (t' & -> & R'). cbn [mbind outcome_bind].
  exists kn1, (delete (d, i) m). assert (o !! (d, i) = None) as Hon by (by eapply map_disjoint_Some_l).
  split_and!; [done|by apply map_disjoint_delete_l| |by apply HQ].
  eexists _, _, _, _. replace (delete (d, i) m ∪ o) with (delete (d, i) (m ∪ o)) by (by rewrite delete_union, (delete_id o)).
  by apply (inv_unlock _ _ _ _ _ _ _ _ _ _ _ _ d i sl t' Sp I Ho).
Qed.

(** Reading and writing. *)
Lemma wp_read i a d sl Q kn m :
  ins i -> kn !! (d, Some i) = Some a -> m !! (d, i) = Some sl -> (forall kn', kn ⊆ kn' -> Q (sl_body sl) kn' m) ->
  WP (read_resx i a) Q kn m.
Proof.
  intros Hi Ha Hm HQ s kn1 o Hk Hd (LA & lam & MA & mam & I). destruct (rd_loc _ _ _ _ _ _ _ _ I Hi) as (t & Sp & Er & Et & R).
  cbn. rewrite Er. cbn [mbind outcome_bind]. destruct (known_body _ _ _ _ _ _ _ _ _ _ _ _ _ I Hk Ha R) as (Hl & b & Hb & ->).
  cbn [mbind outcome_bind]. rewrite (set_loc_same _ _ _ Et). pose proof (own_lookup _ o _ _ Hm) as Ho.
  destruct (ci_own _ _ _ _ _ _ _ _ _ _ _ _ I _ _ _ Ho) as (_ & Hb' & _). assert (b = sl_body sl) as -> by congruence.
  exists kn1, m. split_and!; [done|done|by exists LA, lam, MA, mam|]. by apply HQ.
Qed.

Lemma wp_peek i a d Q kn m :
  ins i -> kn !! (d, Some i) = Some a -> (forall kn' b, kn ⊆ kn' -> Q b kn' m) -> WP (read_resx i a) Q kn m.
Proof.
  intros Hi Ha HQ s kn1 o Hk Hd (LA & lam & MA & mam & I). destruct (rd_loc _ _ _ _ _ _ _ _ I Hi) as (t & Sp & Er & Et & R).
  cbn. rewrite Er. cbn [mbind outcome_bind]. destruct (known_body _ _ _ _ _ _ _ _ _ _ _ _ _ I Hk Ha R) as (Hl & b & Hb & ->).
  cbn [mbind outcome_bind]. rewrite (set_loc_same _ _ _ Et). exists kn1, m. split_and!; [done|done|by exists LA, lam, MA, mam|]. by apply HQ.
Qed.

Lemma put_owned s kn kn1 m o LA lam MA mam d i a t Sp sl (f : local_lock -> local_lock) :
  cinv s kn1 (m ∪ o) LA lam MA mam -> kn ⊆ kn1 -> kn !! (d, Some i) = Some a -> m ##ₘ o -> lrep t (LA i) (lam i) Sp ->
  m !! (d, i) = Some sl -> (forall b, ll_res_id (f b) = ll_res_id b /\ ll_lock (f b) = ll_lock b) ->
  body_ok (spin d) (f (sl_body sl)) (sl_mode sl) ->
  fm_get t a = Ok (sl_body sl) /\ exists t' Sp', fm_put t a (f (sl_body sl)) = Ok t' /\
    cinv (set_loc i t' s) kn1 (<[(d, i) := mk_slot (f (sl_body sl)) (sl_mode sl) (sl_phase sl)]> (m ∪ o))
      (upd LA i (<[d := f (sl_body sl)]> (LA i))) lam MA mam /\ lrep t' (<[d := f (sl_body sl)]> (LA i)) (lam i) Sp'.
Proof.
  intros I Hk Ha Hd R Hm Hf Hb. destruct (known_body _ _ _ _ _ _ _ _ _ _ _ _ _ I Hk Ha R) as (Hl & b & HL & Hg).
  pose proof (own_lookup _ o _ _ Hm) as Ho. destruct (ci_own _ _ _ _ _ _ _ _ _ _ _ _ I _ _ _ Ho) as (_ & Hb' & Hlk & _).
  assert (b = sl_body sl) as -> by congruence. split; [done|].
  destruct (local_update signed pad t _ _ _ d a _ f R Hl HL (proj1 (Hf _))) as (t' & E & R'). rewrite Hg in E. cbn [mbind outcome_bind] in E.
  exists t', Sp. split_and!; [done| |done]. apply (inv_write _ _ _ _ _ _ _ _ _ _ _ _ d i sl _ t' Sp); try done. by rewrite (proj2 (Hf _)).
Qed.

Lemma wp_set_latch i a d sl f Q kn m :
  ins i -> kn !! (d, Some i) = Some a -> m !! (d, i) = Some sl ->
  body_ok (spin d) (ll_set_latch (f (ll_latch (sl_body sl))) (sl_body sl)) (sl_mode sl) ->
  (forall kn', kn ⊆ kn' ->
     Q tt kn' (<[(d, i) := mk_slot (ll_set_latch (f (ll_latch (sl_body sl))) (sl_body sl)) (sl_mode sl) (sl_phase sl)]> m)) ->
  WP (set_latchx i a f) Q kn m.
Proof.
  intros Hi Ha Hm Hb HQ s kn1 o Hk Hd (LA & lam & MA & mam & I). destruct (rd_loc _ _ _ _ _ _ _ _ I Hi) as (t & Sp & Er & Et & R).
  cbn. rewrite Er. cbn [mbind outcome_bind].
  destruct (put_owned _ _ _ _ _ _ _ _ _ _ _ _ _ _ sl (fun b => ll_set_latch (f (ll_latch b)) b) I Hk Ha Hd R Hm) as (-> & t' & Sp' & Ep & I' & _); [done|done|].
  cbn [mbind outcome_bind]. rewrite Ep. cbn [mbind outcome_bind].
  destruct (own_update _ _ _ _ _ _ _ Hd Hm (ex_intro _ _ (ex_intro _ _ (ex_intro _ _ (ex_intro _ _ I'))))) as [Hd' I''].
  eexists kn1, _. split_and!; [done|exact Hd'|exact I''|]. by apply HQ.
Qed.

Lemma wp_set_stat i a d sl x y Q kn m :
  ins i -> kn !! (d, Some i) = Some a -> m !! (d, i) = Some sl ->
  (spin d = true -> x = true -> sl_mode sl = DRC_LOCK_EXCLUSIVE) ->
  (forall kn', kn ⊆ kn' -> Q tt kn' (<[(d, i) := mk_slot (ll_set_stat x y (sl_body sl)) (sl_mode sl) (sl_phase sl)]> m)) ->
  WP (set_statx i a x y) Q kn m.
Proof.
  intros Hi Ha Hm Hb HQ s kn1 o Hk Hd (LA & lam & MA & mam & I). destruct (rd_loc _ _ _ _ _ _ _ _ I Hi) as (t & Sp & Er & Et & R).
  cbn. rewrite Er. cbn [mbind outcome_bind]. unfold drc_set_local_lock_statx.
  destruct (put_owned _ _ _ _ _ _ _ _ _ _ _ _ _ _ sl (ll_set_stat x y) I Hk Ha Hd R Hm) as (-> & t' & Sp' & Ep & I' & _); [done| |].
  { pose proof (own_lookup _ o _ _ Hm) as Ho. destruct (ci_own _ _ _ _ _ _ _ _ _ _ _ _ I _ _ _ Ho) as (_ & _ & _ & []). split; done. }
  cbn [mbind outcome_bind]. rewrite Ep. cbn [mbind outcome_bind].
  destruct (own_update _ _ _ _ _ _ _ Hd Hm (ex_intro _ _ (ex_intro _ _ (ex_intro _ _ (ex_intro _ _ I'))))) as [Hd' I''].
  eexists kn1, _. split_and!; [done|exact Hd'|exact I''|]. by apply HQ.
Qed.
End Rules.
