(* ===== verification/DlsMaster.v ===== *)
(** The actions of the lock service that change who has a lock: the release
    by a holder, and the master's functions. *)

From S2P Require Import Prelude DrcBitmap DrcPool DrcResMap DrcGlobalRes DrcQueue DrcTable DrcReform DrcMapTab.
From S2P Require Import DrcLock DrcLockInv DrcLockThm DrcLocal DrcLocalThm Conc Dls DlsInv DlsThm DlsWp.

Definition with_phase (p : phase) (sl : slot) : slot := mk_slot (sl_body sl) (sl_mode sl) p.

Section Master.
Context (signed : bool) (pad : list Z) (vw : view) (lock_master : drid -> Z) (inst_count : Z) (spin : drid -> bool).
Context (Hcount : inst_count <= 64) (Hmaster : forall d, ins inst_count (lock_master d)).
Context (Hcalm : forall d, DRC_STOP_DLS_REQ_FOR_REFORMING (v_trigger_version vw) vw d = false).
Implicit Types (s : cluster) (kn : addrs) (m o O : slots_of) (d : drid) (i k : Z) (r : drc_req_info).
Notation ins := (ins inst_count).
Notation cinv := (cinv signed pad lock_master inst_count spin).
Notation Inv := (cluster_inv signed pad lock_master inst_count spin).
Notation WP := (wp Inv (exhausted signed pad)).
Notation version := (v_trigger_version vw).
Notation others := (others inst_count).

(** The request of an entry is known to the master. *)
Lemma owned_proto s kn O LA lam MA mam d i sl r td g :
  cinv s kn O LA lam MA mam -> O !! (d, i) = Some sl -> sl_phase sl = PConv r td g ->
  exists ab, MA (lock_master d) !! d = Some ab /\ proto inst_count (spin d) ab (mode_at O LA d) (phase_at O d) /\ phase_at O d i = PConv r td g.
Proof.
  intros I Ho Hp. assert (phase_at O d i = PConv r td g) as E by (unfold phase_at; by rewrite Ho).
  pose proof (ci_proto _ _ _ _ _ _ _ _ _ _ _ _ I d) as HP. destruct (MA (lock_master d) !! d) as [ab|]; [by exists ab|].
  destruct HP as [_ HP]. rewrite HP in E. done.
Qed.

Lemma mode_at_own O LA d i sl : O !! (d, i) = Some sl -> mode_at O LA d i = sl_mode sl.
Proof. intros H. unfold mode_at. by rewrite H. Qed.
Lemma phase_at_own O d i sl : O !! (d, i) = Some sl -> phase_at O d i = sl_phase sl.
Proof. intros H. unfold phase_at. by rewrite H. Qed.

(** A change of phase only. *)
Lemma inv_phase s kn O LA lam MA mam d i sl p :
  cinv s kn O LA lam MA mam -> O !! (d, i) = Some sl ->
  lock_proto inst_count spin d (MA (lock_master d) !! d) (mode_at O LA d) (upd (phase_at O d) i p) ->
  cinv s kn (<[(d, i) := with_phase p sl]> O) LA lam MA mam.
Proof.
  intros I Ho HP. destruct (ci_own _ _ _ _ _ _ _ _ _ _ _ _ I _ _ _ Ho) as (_ & _ & _ & Hb). apply inv_ghost; [done..|].
  eapply lock_proto_ext; [exact HP|intros j|done]. apply upd_id, mode_at_own, Ho.
Qed.

(** ** The release by a holder *)

(** [k] gives up the lock, or all but the shared mode, for the request of
    [i]. *)
Definition gone_for r k : option Z := if req_mode r =? DRC_LOCK_EXCLUSIVE then Some k else None.
Definition asked_less (k : Z) (sl : slot) : slot :=
  match sl_phase sl with
  | PConv r td _ => with_phase (PConv r (filter (fun j => j <> k) td) (gone_for r k)) sl
  | _ => sl
  end.

(** The step in two entries: [(d, k)] already has its new content. *)
Lemma inv_release s kn O LA lam MA mam d i k sl slk r td md :
  cinv s kn O LA lam MA mam -> O !! (d, i) = Some sl -> O !! (d, k) = Some slk -> k <> i -> ins k ->
  sl_phase sl = PConv r td None -> sl_phase slk = PIdle -> sl_mode slk <> DRC_LOCK_NULL ->
  md = (if req_mode r =? DRC_LOCK_EXCLUSIVE then DRC_LOCK_NULL else DRC_LOCK_SHARE) ->
  body_ok (spin d) (sl_body slk) md ->
  cinv s kn (<[(d, i) := asked_less k sl]> (<[(d, k) := mk_slot (sl_body slk) md PIdle]> O)) LA lam MA mam.
Proof.
  intros I Hi Hk Hne Hin Hp Hpk Hmk Hmd Hb. destruct (owned_proto _ _ _ _ _ _ _ _ _ _ _ _ _ I Hi Hp) as (ab & HM & P & Ep).
  assert (asks (phase_at O d i) r) as Hask by (rewrite Ep; apply asks_conv).
  destruct (pr_range _ _ _ _ _ P _ _ Hask) as (_ & _ & _ & Hreal).
  set (sl1 := with_phase (PConv r td (gone_for r k)) sl).
  assert (cinv s kn (<[(d, i) := sl1]> O) LA lam MA mam) as I1.
  { apply inv_phase; [done..|]. rewrite HM. cbn. unfold gone_for. destruct (Z.eqb_spec (req_mode r) DRC_LOCK_EXCLUSIVE).
    - by apply proto_gone.
    - eapply proto_ext; [exact P|done|]. intros j. by apply upd_id. }
  assert ((<[(d, i) := sl1]> O) !! (d, k) = Some slk) as Hk1 by (by rewrite lookup_insert_ne by congruence).
  assert ((<[(d, i) := sl1]> O) !! (d, i) = Some sl1) as Hi1 by (by rewrite lookup_insert_eq).
  destruct (owned_proto _ _ _ _ _ _ _ _ _ _ _ _ _ I1 Hi1 eq_refl) as (ab1 & HM1 & P1 & Ep1).
  assert (cinv s kn (<[(d, k) := mk_slot (sl_body slk) md PIdle]> (<[(d, i) := sl1]> O)) LA lam MA mam) as I2.
  { apply inv_ghost; [done..|]. rewrite HM1. cbn. eapply proto_ext; [|done|].
    - apply proto_lower; [exact P1| |].
      + rewrite (mode_at_own _ _ _ _ _ Hk1). subst md. destruct (_ =? _); [by left|by right].
      + intros _ Hn. right. exists i, r, td. rewrite Ep1. unfold gone_for. subst md. by destruct (_ =? _).
    - intros j. apply upd_id. by rewrite (phase_at_own _ _ _ _ Hk1). }
  rewrite insert_insert_ne in I2 by congruence.
  set (O2 := <[(d, i) := sl1]> (<[(d, k) := mk_slot (sl_body slk) md PIdle]> O)) in *.
  assert (O2 !! (d, i) = Some sl1) as Hi2 by (unfold O2; by rewrite lookup_insert_eq).
  destruct (owned_proto _ _ _ _ _ _ _ _ _ _ _ _ _ I2 Hi2 eq_refl) as (ab2 & HM2 & P2 & Ep2).
  assert (cinv s kn (<[(d, i) := with_phase (PConv r (filter (fun j => j <> k) td) (gone_for r k)) sl1]> O2) LA lam MA mam) as I3.
  { apply inv_phase; [done..|]. rewrite HM2. cbn. apply proto_done; [done|done|].
    assert (mode_at O2 LA d k = md) as ->.
    { apply (mode_at_own _ _ _ _ (mk_slot (sl_body slk) md PIdle)). unfold O2. by rewrite lookup_insert_ne, lookup_insert_eq by congruence. }
    subst md. unfold fits. destruct (Z.eqb_spec (req_mode r) DRC_LOCK_EXCLUSIVE); [by left|right]. by destruct Hreal. }
  unfold O2 in I3. rewrite insert_insert_eq in I3. unfold asked_less. by rewrite Hp.
Qed.

Lemma wp_release_write k a d i sl slk r td md Q kn m :
  ins k -> kn !! (d, Some k) = Some a -> m !! (d, i) = Some sl -> m !! (d, k) = Some slk -> k <> i ->
  sl_phase sl = PConv r td None -> sl_phase slk = PIdle -> sl_mode slk <> DRC_LOCK_NULL ->
  md = (if req_mode r =? DRC_LOCK_EXCLUSIVE then DRC_LOCK_NULL else DRC_LOCK_SHARE) ->
  (forall md', body_ok (spin d) (ll_set_latch (la_set_mode md (ll_latch (sl_body slk))) (sl_body slk)) md') ->
  (forall kn', kn ⊆ kn' -> Q tt kn' (<[(d, i) := asked_less k sl]>
     (<[(d, k) := mk_slot (ll_set_latch (la_set_mode md (ll_latch (sl_body slk))) (sl_body slk)) md PIdle]> m))) ->
  WP (set_latchx k a (la_set_mode md)) Q kn m.
Proof.
  intros Hk Ha Hmi Hmk Hne Hp Hpk Hnn Hmd Hb HQ s kn1 o Hkn Hd (LA & lam & MA & mam & I).
  destruct (rd_loc _ _ _ _ _ _ _ _ _ _ _ _ _ I Hk) as (t & Sp & Er & Et & R).
  cbn. rewrite Er. cbn [mbind outcome_bind].
  destruct (put_owned _ _ _ _ _ _ _ _ _ _ _ _ _ _ _ _ _ _ _ slk (fun b => ll_set_latch (la_set_mode md (ll_latch b)) b) I Hkn Ha Hd R Hmk) as (-> & t' & Sp' & Ep & I' & _); [done|done|].
  cbn [mbind outcome_bind]. rewrite Ep. cbn [mbind outcome_bind].
  set (slk' := mk_slot (ll_set_latch (la_set_mode md (ll_latch (sl_body slk))) (sl_body slk)) (sl_mode slk) (sl_phase slk)) in *.
  pose proof (inv_release _ _ (<[(d, k) := slk']> (m ∪ o)) _ _ _ _ d i k sl slk' r td md I') as I2.
  eexists kn1, _. split_and!; [done| | |by apply HQ].
  - apply map_disjoint_insert_l_2; [by eapply map_disjoint_Some_l|]. apply map_disjoint_insert_l_2; [by eapply map_disjoint_Some_l|done].
  - rewrite <- !insert_union_l. rewrite insert_insert_eq in I2. eexists _, _, _, _. apply I2; try done.
    + rewrite lookup_insert_ne by congruence. by apply own_lookup.
    + by rewrite lookup_insert_eq.
Qed.

(** A holder without a resource has nothing to give up. *)
Lemma inv_release_none s kn O LA lam MA mam d i k sl r td :
  cinv s kn O LA lam MA mam -> O !! (d, i) = Some sl -> O !! (d, k) = None -> LA k !! d = None -> k <> i -> ins k ->
  sl_phase sl = PConv r td None -> cinv s kn (<[(d, i) := asked_less k sl]> O) LA lam MA mam.
Proof.
  intros I Hi Hk HL Hne Hin Hp. destruct (owned_proto _ _ _ _ _ _ _ _ _ _ _ _ _ I Hi Hp) as (ab & HM & P & Ep).
  assert (mode_at O LA d k = DRC_LOCK_NULL) as Hmd by (unfold mode_at; by rewrite Hk, HL).
  assert (proto inst_count (spin d) ab (mode_at O LA d) (upd (phase_at O d) i (PConv r td (gone_for r k)))) as P1.
  { unfold gone_for. destruct (Z.eqb_spec (req_mode r) DRC_LOCK_EXCLUSIVE); [by apply proto_gone|].
    eapply proto_ext; [exact P|done|]. intros j. by apply upd_id. }
  unfold asked_less. rewrite Hp. apply inv_phase; [done..|]. rewrite HM. cbn.
  eapply proto_ext; [apply (proto_done _ _ _ _ _ i r td (gone_for r k) k P1); [by rewrite upd_eq|by left]|done|].
  intros j. unfold upd. by destruct (decide (j = i)).
Qed.

(** ** The master *)

(** The table of the master of [d] is replaced. *)
Lemma wp_master {B} (f : ltab -> outcome (B * ltab)) (Q : B -> addrs -> slots_of -> Prop) d i sl kn m :
  m !! (d, i) = Some sl ->
  (forall s kn1 o LA lam MA mam t fr F Sp, kn ⊆ kn1 -> m ##ₘ o -> cinv s kn1 (m ∪ o) LA lam MA mam ->
     cl_mas s !! lock_master d = Some t -> lock_inv signed pad t (MA (lock_master d)) fr F Sp (mam (lock_master d)) ->
     match f t with
     | Crash w => exhausted signed pad _ (mas_act (lock_master d) f) s w
     | Ok (x, t') => exists kn2 sl', kn1 ⊆ kn2 /\ Inv (set_mas (lock_master d) t' s) kn2 (<[(d, i) := sl']> (m ∪ o)) /\
         Q x kn2 (<[(d, i) := sl']> m)
     end) ->
  WP (on_mas (lock_master d) f) Q kn m.
Proof.
  intros Hm H s kn1 o Hk Hd (LA & lam & MA & mam & I). destruct (rd_mas _ _ _ _ _ _ _ _ _ _ _ _ _ I (Hmaster d)) as (t & fr & F & Sp & Er & Et & L).
  specialize (H s kn1 o LA lam MA mam t fr F Sp Hk Hd I Et L). cbn. rewrite Er. cbn [mbind outcome_bind].
  destruct (f t) as [[x t']|]; cbn [mbind outcome_bind]; [|done]. destruct H as (kn2 & sl' & Hk2 & I' & HQ).
  destruct (own_update _ _ _ _ _ _ _ _ _ _ _ _ Hd Hm I') as [Hd' I'']. eexists kn2, _. split_and!; [done|exact Hd'|exact I''|done].
Qed.

Lemma set_mas_same s i t : cl_mas s !! i = Some t -> set_mas i t s = s.
Proof. intros E. unfold set_mas. rewrite insert_id by done. by destruct s. Qed.

Lemma alock_eq (ab ab' : alock) :
  lk_res_id ab' = lk_res_id ab -> lk_mode ab' = lk_mode ab -> lk_granted_map ab' = lk_granted_map ab ->
  lk_converting ab' = lk_converting ab -> lk_convert_q ab' = lk_convert_q ab -> ab' = ab.
Proof. destruct ab, ab'; cbn; congruence. Qed.

(** What a request needs of its instance. *)
Record may_ask d i sl r : Prop := {
  ma_ins : ins i;
  ma_inst : inst_id r = i;
  ma_req : lock_req r;
  ma_phase : sl_phase sl = PIdle;
  ma_share : req_mode r = DRC_LOCK_SHARE -> spin d = false /\ sl_mode sl = DRC_LOCK_NULL;
}.

(** A spin lock has one holder. *)
Definition one_holder d (a : lock_reply) : Prop :=
  spin d = true -> lr_granted a = false -> exists k, ins k /\ forall j, bm_mem (lr_old_map a) j <-> j = k.

Definition conv_slot i r (a : lock_reply) (sl : slot) : slot :=
  with_phase (PConv r (if lr_granted a then [] else others (lr_old_map a) i) None) sl.

Lemma answer_one d ab pm ph r x a :
  proto inst_count (spin d) ab pm ph -> lk_converting ab = r -> inst_id r <> OG_INVALID_ID8 -> answer_ok r x ab a -> one_holder d a.
Proof.
  intros P Hr Hv (_ & Hg & Hm & _) Hs Hn. rewrite Hn in Hm, Hg.
  assert (lk_mode ab = DRC_LOCK_EXCLUSIVE) as Hx.
  { destruct (lo_mode _ (pr_ok _ _ _ _ _ P)) as [Hz|[Hz|Hz]]; [|by apply (pr_spin _ _ _ _ _ P Hs) in Hz|done].
    assert (false = true) by (apply Hg; by left). done. }
  destruct (pr_some _ _ _ _ _ P) as (k & Hk); [by rewrite Hx|]. exists k. split; [by apply (pr_bits _ _ _ _ _ P)|].
  intros j. rewrite Hm. split; [|by intros ->]. intros Hj. by apply (lo_excl _ (pr_ok _ _ _ _ _ P) Hx).
Qed.

(** The answer to the request under conversion. *)
Lemma inv_answer s kn O LA lam MA mam d i sl ab r x a :
  cinv s kn O LA lam MA mam -> O !! (d, i) = Some sl -> sl_phase sl = PWait r -> MA (lock_master d) !! d = Some ab ->
  lk_converting ab = r -> answer_ok r x ab a ->
  cinv s kn (<[(d, i) := conv_slot i r a sl]> O) LA lam MA mam /\ one_holder d a.
Proof.
  intros I Ho Hp HM Hc Ha. pose proof (ci_proto _ _ _ _ _ _ _ _ _ _ _ _ I d) as P. rewrite HM in P. cbn in P.
  assert (phase_at O d i = PWait r) as E by (rewrite (phase_at_own _ _ _ _ Ho); done). split.
  - apply inv_phase; [done..|]. rewrite HM. cbn. by eapply proto_answer.
  - eapply answer_one; [exact P|done| |done]. assert (asks (phase_at O d i) r) as Hk by (rewrite E; apply asks_wait).
    destruct (pr_range _ _ _ _ _ P _ _ Hk) as (Hi & -> & _). by apply ins_ne in Hi.
Qed.

(** The lock at its master, after a change by the request of [i]. *)
Lemma inv_phase_mas s kn O LA lam MA mam d i sl p ab t f F Sp am :
  cinv s kn O LA lam MA mam -> O !! (d, i) = Some sl ->
  lock_inv signed pad t (<[d := ab]> (MA (lock_master d))) f F Sp am -> mam (lock_master d) ⊆ am ->
  proto inst_count (spin d) ab (mode_at O LA d) (upd (phase_at O d) i p) ->
  cinv (set_mas (lock_master d) t s) kn (<[(d, i) := with_phase p sl]> O) LA lam
    (upd MA (lock_master d) (<[d := ab]> (MA (lock_master d)))) (upd mam (lock_master d) am).
Proof.
  intros I Ho L Ham HP. destruct (ci_own _ _ _ _ _ _ _ _ _ _ _ _ I _ _ _ Ho) as (_ & _ & _ & Hb).
  eapply inv_master; [done..|]. eapply proto_ext; [exact HP|intros j|done]. apply upd_id, mode_at_own, Ho.
Qed.

Lemma with_phase_id sl p : sl_phase sl = p -> with_phase p sl = sl.
Proof. intros <-. by destruct sl. Qed.

(** Nothing changes but the table's representation. *)
Lemma inv_mas_same s kn O LA lam MA mam d i sl ab t f F Sp :
  cinv s kn O LA lam MA mam -> O !! (d, i) = Some sl -> MA (lock_master d) !! d = Some ab ->
  lock_inv signed pad t (<[d := ab]> (MA (lock_master d))) f F Sp (mam (lock_master d)) ->
  Inv (set_mas (lock_master d) t s) kn (<[(d, i) := sl]> O).
Proof.
  intros I Ho HM L. pose proof (ci_proto _ _ _ _ _ _ _ _ _ _ _ _ I d) as P. rewrite HM in P. cbn in P.
  rewrite <- (with_phase_id sl _ eq_refl). eexists _, _, _, _. eapply inv_phase_mas; [done..|].
  eapply proto_ext; [exact P|done|]. intros j. apply upd_id. by apply phase_at_own.
Qed.

Lemma lock_full t A f F Sp am :
  lock_inv signed pad t A f F Sp am -> Z.of_nat (size A) + Z.of_nat (size Sp) = lcap t -> tb_alloc t = Ok (OG_INVALID_ID32, t).
Proof.
  intros [R _] Hfull. destruct (tab_alloc _ _ _ _ _ _ _ _ R) as [[_ E]|[Hn _]]; [done|]. destruct Hn. by apply (tab_full_iff _ _ _ _ _ _ _ _ R).
Qed.

(** The lock that has the request, and who asks. *)
Lemma may_ask_asked d i sl r ab ab' ph :
  may_ask d i sl r -> ph i = PIdle -> lock_ok ab' -> lk_mode ab' = lk_mode ab -> lk_granted_map ab' = lk_granted_map ab ->
  (req_mode r = DRC_LOCK_SHARE -> ~ bm_mem (lk_granted_map ab) i) -> asked inst_count (spin d) ab ph r ab'.
Proof.
  intros [] Hp L Em Eg Hs. subst i. split; try done. intros Hsp. destruct ma_req0 as [_ [Hm|]]; [|done].
  destruct (ma_share0 Hm). congruence.
Qed.

(** The first request for a lock. *)
Lemma inv_first s kn O LA lam MA mam d i sl r t f F Sp x :
  cinv s kn O LA lam MA mam -> O !! (d, i) = Some sl -> may_ask d i sl r -> MA (lock_master d) !! d = None ->
  lock_inv signed pad t (<[d := first_lock d r]> (MA (lock_master d))) f F Sp (<[d := x]> (mam (lock_master d))) ->
  Inv (set_mas (lock_master d) t s) kn (<[(d, i) := conv_slot i r (mk_reply OG_SUCCESS true 0) sl]> O).
Proof.
  intros I Ho MA' HM L. pose proof (ci_proto _ _ _ _ _ _ _ _ _ _ _ _ I d) as P. rewrite HM in P. destruct P as [Pm Pp].
  destruct (ci_mas _ _ _ _ _ _ _ _ _ _ _ _ I _ (Hmaster d)) as (t0 & f0 & F0 & Sp0 & _ & L0).
  eexists _, _, _, _. unfold conv_slot. eapply inv_phase_mas; [done|done|exact L| |].
  - apply insert_subseteq. destruct (mam (lock_master d) !! d) as [y|] eqn:E; [|done].
    destruct (proj2 (tr_dom _ _ _ _ _ _ _ _ (lv_rep _ _ _ _ _ _ _ _ L0) d)) as [ab Hab]; [by eexists|congruence].
  - destruct MA' as [Hi Hr Hrq _ Hs]. subst i. eapply proto_ext; [apply (proto_first inst_count (spin d) d r Hrq Hi)|done|].
    + intros Hsp. destruct Hrq as [_ [Hm|]]; [|done]. destruct (Hs Hm). congruence.
    + intros j. unfold upd. destruct (decide (j = inst_id r)); [done|]. by rewrite Pp.
Qed.

(** New knowledge of the address of a lock. *)
Lemma known_add_mas s kn O LA lam MA mam d a :
  cinv s kn O LA lam MA mam -> mam (lock_master d) !! d = Some a ->
  Inv s (<[(d, None) := a]> kn) O /\ kn ⊆ <[(d, None) := a]> kn.
Proof.
  intros I Ha. split.
  - exists LA, lam, MA, mam. split; try apply I.
    + intros d' j a'. rewrite lookup_insert_ne by done. by eapply ci_known.
    + intros d' a'. rewrite lookup_insert_Some. intros [[[= ->] <-]|[_ ?]]; [done|]. by eapply ci_known_mas.
  - destruct (kn !! (d, None)) as [a'|] eqn:E; [|by apply insert_subseteq].
    pose proof (ci_known_mas _ _ _ _ _ _ _ _ _ _ _ _ I _ _ E) as E'. by rewrite insert_id by congruence.
Qed.

Lemma request_idle f (b : alock) r out0 a f' b' :
  request_on_lock f b r out0 = Ok (a, f', b') -> lock_ok b -> inst_id (lk_converting b) = OG_INVALID_ID8 -> lk_convert_q b' = [].
Proof.
  intros E L Hc. pose proof (lo_idle _ L Hc) as Hq. unfold request_on_lock in E.
  destruct (_ <? _); [by injection E as _ _ <-|]. rewrite Hc, Z.eqb_refl in E.
  destruct (lock_answer _ _ _); cbn [mbind outcome_bind] in E; [|done].
  destruct (knl_panic _); cbn [mbind outcome_bind] in E; [|done]. by injection E as _ _ <-.
Qed.

(** Up to the answer or the wait. *)
Lemma request_step s kn1 m o LA lam MA mam t f F Sp d i sl r :
  m ##ₘ o -> cinv s kn1 (m ∪ o) LA lam MA mam -> cl_mas s !! lock_master d = Some t ->
  lock_inv signed pad t (MA (lock_master d)) f F Sp (mam (lock_master d)) ->
  m !! (d, i) = Some sl -> may_ask d i sl r ->
  match drc_request_lock_owner signed pad 0 vw (fun _ => vw) (fun _ t => t) d r version reply0 t with
  | Crash w => w = Panic /\ lock_lookup signed pad t d = Ok None /\ tb_alloc t = Ok (OG_INVALID_ID32, t)
  | Ok (a, t') => exists x : Z, lock_lookup signed pad t' d = Ok (Some x) /\
      match a with
      | None => exists kn2, kn1 ⊆ kn2 /\ kn2 !! (d, None) = Some x /\ 
          Inv (set_mas (lock_master d) t' s) kn2 (<[(d, i) := with_phase (PWait r) sl]> (m ∪ o))
      | Some a => if ok (lr_status a)
          then one_holder d a /\ Inv (set_mas (lock_master d) t' s) kn1 (<[(d, i) := conv_slot i r a sl]> (m ∪ o))
          else Inv (set_mas (lock_master d) t' s) kn1 (<[(d, i) := sl]> (m ∪ o))
      end
  end.
Proof.
  intros Hd I Et L Hm Hmay. pose proof (own_lookup _ o _ _ Hm) as Ho. destruct (MA (lock_master d) !! d) as [ab|] eqn:HM.
  - destruct (request_known_lock_ok signed pad 0 vw (fun _ => vw) (fun _ t => t) d r version reply0 t _ f F Sp _ ab L (ma_req _ _ _ _ Hmay) HM (Hcalm d))
      as (x & a & f1 & ab1 & t1 & Hx & Ea0 & L1 & ->).
    destruct (request_on_lock_ok f ab r reply0 (lv_ok _ _ _ _ _ _ _ _ L _ _ HM) (ma_req _ _ _ _ Hmay)) as (a' & f' & ab' & Ea & Lk & Hid & Em & Eg & Hidle & Hbusy).
    rewrite Ea in Ea0. injection Ea0 as <- <- <-.
    destruct (lock_step _ _ _ _ _ _ _ _ d ab' L1 (lookup_insert_eq _ _ _)) as (x' & _ & _ & Hx' & El & _). assert (x' = x) as -> by congruence.
    pose proof (ci_proto _ _ _ _ _ _ _ _ _ _ _ _ I d) as P. rewrite HM in P. cbn in P.
    assert (phase_at (m ∪ o) d i = PIdle) as Hp0 by (rewrite (phase_at_own _ _ _ _ Ho); apply Hmay).
    destruct (decide (inst_id (lk_converting ab) = OG_INVALID_ID8)) as [Hc|Hc].
    + destruct (Hidle Hc) as (Hcv & a & -> & Ha). cbn. exists x. split; [done|].
      assert (lr_status a = OG_SUCCESS) as -> by apply Ha. change (ok OG_SUCCESS) with true. cbv iota.
      assert (req_mode r = DRC_LOCK_SHARE -> ~ bm_mem (lk_granted_map ab) i) as Hsh.
      { intros Hs Hb. destruct (ma_share _ _ _ _ Hmay Hs) as [Hsp Hn].
        destruct (pr_latch _ _ _ _ _ P Hsp _ Hb) as [Hne|(j & r' & td & Ej)]; [by rewrite (mode_at_own _ _ _ _ _ Ho) in Hne|].
        by rewrite (proto_idle _ Hcount _ _ _ _ j P Hc) in Ej. }
      pose proof (may_ask_asked d i sl r ab ab' _ Hmay Hp0 Lk Em Eg Hsh) as As.
      pose proof (proto_begin _ Hcount _ _ _ _ _ _ P As Hc Hcv (request_idle _ _ _ _ _ _ _ Ea (pr_ok _ _ _ _ _ P) Hc)) as P1.
      rewrite (ma_inst _ _ _ _ Hmay) in P1. pose proof (inv_phase_mas _ _ _ _ _ _ _ d i sl _ _ _ _ _ _ _ I Ho L1 (reflexivity _) P1) as I1.
      destruct (inv_answer _ _ _ _ _ _ _ d i _ ab' r 0 a I1 (lookup_insert_eq _ _ _) eq_refl) as [I2 H1]; [by rewrite upd_eq, lookup_insert_eq|done| |].
      { destruct Ha as (? & ? & ? & ?). split_and!; rewrite ?Em, ?Eg; done. }
      split; [done|]. rewrite insert_insert_eq in I2. eexists _, _, _, _. exact I2.
    + destruct (Hbusy Hc) as [Hcv Hres]. destruct (decide _) as [Hdec|Hdec].
      * destruct Hres as ((a & -> & Ha) & Hq). cbn. exists x. split; [done|]. rewrite Ha. change (ok OG_ERROR) with false. cbv iota.
        rewrite (alock_eq ab ab') in L1 by done. by eapply inv_mas_same.
      * destruct Hres as (-> & Hq & _). cbn. exists x. split; [done|].
        assert (asked inst_count (spin d) ab (phase_at (m ∪ o) d) r ab') as As.
        { eapply may_ask_asked; [done..|]. intros _ Hb. apply Hdec. left. by rewrite (ma_inst _ _ _ _ Hmay). }
        pose proof (proto_queue _ _ _ _ _ _ _ P As Hc Hcv Hq) as P1. rewrite (ma_inst _ _ _ _ Hmay) in P1.
        pose proof (inv_phase_mas _ _ _ _ _ _ _ d i sl _ _ _ _ _ _ _ I Ho L1 (reflexivity _) P1) as I1.
        destruct (known_add_mas _ _ _ _ _ _ _ d x I1) as [I2 Hsub]; [by rewrite upd_eq|].
        eexists. split_and!; [exact Hsub|by rewrite lookup_insert_eq|done].
  - unfold drc_request_lock_owner. rewrite Hcalm, (lock_lookup_none _ _ _ _ _ _ _ _ _ L HM). cbn [mbind outcome_bind].
    destruct (request_new_lock_ok signed pad _ _ _ _ _ _ d r L HM (ma_req _ _ _ _ Hmay)) as [[Hfull ->]|(x & t' & -> & L')]; cbn [mbind outcome_bind].
    + split_and!; [done|done|by eapply lock_full].
    + destruct (lock_step _ _ _ _ _ _ _ _ d _ L' (lookup_insert_eq _ _ _)) as (x' & _ & _ & _ & El & _). exists x'. split; [done|]. cbn.
      split; [done|]. by eapply inv_first.
Qed.

(** A round of the wait. *)
Lemma wait_round t A f F Sp am d i ab r :
  lock_inv signed pad t A f F Sp am -> am !! d = Some i -> A !! d = Some ab -> waiting r ab -> lock_req r ->
  exists a, answer_ok r 0 ab a /\ lock_wait_loop 1 (fun _ => vw) (fun _ t => t) 0 version d r reply0 i t =
    Ok (if inst_id r =? inst_id (lk_converting ab) then Some a else None, t).
Proof.
  intros L Hi Hd Hw Hr. destruct (lock_step _ _ _ _ _ _ _ _ _ _ L Hd) as (i' & b & E & Hi' & _ & Hb & _ & _ & Hab & _).
  assert (i' = i) as -> by congruence. pose proof (lv_ok _ _ _ _ _ _ _ _ L _ _ Hd) as Lk.
  destruct (lock_answer_ok r 0 ab Lk (proj2 Hr)) as (a & Ea & Ha). exists a. split; [done|]. cbn [lock_wait_loop]. rewrite Hcalm, Hb.
  cbn [mbind outcome_bind].
  assert (lk_converting b = lk_converting ab /\ lk_mode b = lk_mode ab /\ lk_granted_map b = lk_granted_map ab)
    as (Ec & Em & Eg) by (rewrite Hab; done).
  rewrite Ec, (proj2 (Z.eqb_neq _ _) (waiting_busy _ _ Lk Hr Hw)). cbn [negb knl_panic mbind outcome_bind].
  assert (lock_answer (req_mode r) 0 b = Ok a) as -> by (rewrite <- Ea; unfold lock_answer; by rewrite Em, Eg).
  by destruct (_ =? _).
Qed.

Lemma wp_wait_rounds n d i sl r x Q : lock_req r -> sl_phase sl = PIdle ->
  forall kn m, m !! (d, i) = Some (with_phase (PWait r) sl) -> kn !! (d, None) = Some x ->
  (forall kn' a, kn ⊆ kn' -> lr_status a = OG_SUCCESS -> one_holder d a -> Q a kn' (<[(d, i) := conv_slot i r a sl]> m)) ->
  WP (wait_rounds vw n (lock_master d) d r version x) Q kn m.
Proof.
  intros Hr Hsl. induction n as [|n IH]; intros kn m Hm Hx HQ; [done|]. cbn [wait_rounds]. apply wp_bind.
  eapply wp_master; [exact Hm|]. intros s kn1 o LA lam MA mam t f F Sp Hk Hd I Et L.
  pose proof (own_lookup _ o _ _ Hm) as Ho. pose proof (ci_proto _ _ _ _ _ _ _ _ _ _ _ _ I d) as P.
  assert (phase_at (m ∪ o) d i = PWait r) as Ep by (by rewrite (phase_at_own _ _ _ _ Ho)).
  destruct (MA (lock_master d) !! d) as [ab|] eqn:HM; [|destruct P as [_ P]; rewrite P in Ep; done]. cbn in P.
  assert (mam (lock_master d) !! d = Some x) as Hx1 by (eapply (ci_known_mas _ _ _ _ _ _ _ _ _ _ _ _ I), lookup_weaken; done).
  destruct (wait_round t _ _ _ _ _ d x ab r L Hx1 HM (pr_wait _ _ _ _ _ P _ _ Ep) Hr) as (a & Ha & ->).
  rewrite (set_mas_same _ _ _ Et). exists kn1. destruct (Z.eqb_spec (inst_id r) (inst_id (lk_converting ab))) as [He|He].
  - assert (asks (phase_at (m ∪ o) d i) r) as Hask by (rewrite Ep; apply asks_wait).
    destruct (pr_range _ _ _ _ _ P _ _ Hask) as (Hi & Hri & _).
    assert (lk_converting ab = r) as Hc.
    { assert (inst_id (lk_converting ab) <> OG_INVALID_ID8) as Hv by (rewrite <- He, Hri; by eapply ins_ne).
      pose proof (pr_who _ _ _ _ _ P Hv) as Hw. rewrite <- He, Hri in Hw. exact (asks_inj _ _ _ Hw Hask). }
    destruct (inv_answer _ _ _ _ _ _ _ d i _ ab r 0 a I Ho eq_refl HM Hc Ha) as [I2 H1].
    eexists. split_and!; [done|by eexists _, _, _, _|]. cbn. apply HQ; [done|apply Ha|done].
  - exists (with_phase (PWait r) sl). rewrite (insert_id (m ∪ o)) by done. rewrite insert_id by done.
    split_and!; [done|by eexists _, _, _, _|]. apply IH; [done|by eapply lookup_weaken|].
    intros kn' a' Hk'. apply HQ. by etrans; [|etrans].
Qed.

Lemma wp_request_owner n d i sl r Q kn m :
  m !! (d, i) = Some sl -> may_ask d i sl r ->
  (forall kn' a, kn ⊆ kn' -> lr_status a = OG_ERROR -> Q a kn' m) ->
  (forall kn' a, kn ⊆ kn' -> lr_status a = OG_SUCCESS -> one_holder d a -> Q a kn' (<[(d, i) := conv_slot i r a sl]> m)) ->
  WP (request_owner signed pad vw n (lock_master d) d r version) Q kn m.
Proof.
  intros Hm Hmay HE HS. unfold request_owner. apply wp_bind. eapply wp_master; [exact Hm|].
  intros s kn1 o LA lam MA mam t f F Sp Hk Hd I Et L. pose proof (request_step s kn1 m o LA lam MA mam t f F Sp d i sl r Hd I Et L Hm Hmay) as H.
  unfold request_begin at 1. destruct (drc_request_lock_owner _ _ _ _ _ _ _ _ _ _ _) as [[a t']|]; cbn [mbind outcome_bind].
  2: { destruct H as (-> & Hn & Hf). by eapply no_lock_item. }
  destruct H as (x & -> & H). cbn [mbind outcome_bind default]. destruct a as [a|].
  - destruct (lr_status a) eqn:Est; cbn in H.
    + destruct H as [H1 I']. exists kn1, (conv_slot i r a sl). split_and!; [done|done|]. cbn. by apply HS.
    + exists kn1, sl. split_and!; [done|done|]. cbn. rewrite insert_id by done. by apply HE.
  - destruct H as (kn2 & Hk2 & Hx & I'). exists kn2, (with_phase (PWait r) sl). split_and!; [done|done|].
    apply (wp_wait_rounds n d i sl r); [apply Hmay|apply Hmay|by rewrite lookup_insert_eq|done|].
    intros kn' a Hk' Hs H1. rewrite insert_insert_eq. apply HS; [|done|done]. by etrans; [|etrans].
Qed.

(** [drc_try_request_lock_owner]. *)
Lemma try_known t A f F Sp am d ab r :
  lock_inv signed pad t A f F Sp am -> A !! d = Some ab -> lock_req r ->
  exists a ab' t', drc_try_request_lock_owner signed pad vw vw d r version reply0 t = Ok (a, t') /\
    lock_inv signed pad t' (<[d := ab']> A) f F Sp am /\
    if decide (inst_id (lk_converting ab) = OG_INVALID_ID8)
    then ab' = lk_set_converting r ab /\ lock_ok ab' /\ answer_ok r (lk_granted_map ab) ab a
    else ab' = ab /\ lr_status a = OG_ERROR.
Proof.
  intros L Hd Hr. unfold drc_try_request_lock_owner. rewrite Hcalm.
  assert (v_remaster_status vw <? REMASTER_DONE = false) as ->.
  { pose proof (Hcalm d) as Hc. unfold DRC_STOP_DLS_REQ_FOR_REFORMING in Hc. apply orb_false_iff in Hc as [Hc%negb_false_iff _].
    apply dls_readable_mastered in Hc. rewrite Hc. done. }
  destruct (lock_step _ _ _ _ _ _ _ _ _ _ L Hd) as (i & b & E & Hi & -> & Hb & Hk & RR & _ & Hput).
  cbn [mbind outcome_bind]. rewrite Hb. cbn [mbind outcome_bind].
  destruct (try_on_lock_ok ab r reply0 (lv_ok _ _ _ _ _ _ _ _ L _ _ Hd) Hr) as (a & ab1 & Ea & L1 & Hk1 & Hres).
  pose proof (try_on_lock_sim _ _ _ _ _ _ r reply0 RR) as HS. rewrite Ea in HS. destruct HS as (b1 & -> & RR1).
  destruct (Hput _ _ _ _ RR1) as (t1 & Et & I1); [congruence|done|]. rewrite tb_set_items_id in Et.
  cbn [mbind outcome_bind]. rewrite Et. cbn [mbind outcome_bind]. exists a, ab1, t1. split_and!; [done..|].
  destruct (decide _); [|done]. destruct Hres as [-> ?]. done.
Qed.

Lemma wp_try_request d i sl r Q kn m :
  m !! (d, i) = Some sl -> may_ask d i sl r -> req_mode r = DRC_LOCK_EXCLUSIVE ->
  (forall kn' a, kn ⊆ kn' -> lr_status a = OG_ERROR -> Q a kn' m) ->
  (forall kn' a, kn ⊆ kn' -> lr_status a = OG_SUCCESS -> one_holder d a -> Q a kn' (<[(d, i) := conv_slot i r a sl]> m)) ->
  WP (try_request_owner signed pad vw (lock_master d) d r version) Q kn m.
Proof.
  intros Hm Hmay Hx HE HS. unfold try_request_owner. eapply wp_master; [exact Hm|].
  intros s kn1 o LA lam MA mam t f F Sp Hk Hd I Et L. pose proof (own_lookup _ o _ _ Hm) as Ho.
  destruct (MA (lock_master d) !! d) as [ab|] eqn:HM.
  - destruct (try_known t _ _ _ _ _ d ab r L HM (ma_req _ _ _ _ Hmay)) as (a & ab' & t' & -> & L' & Hres). exists kn1.
    pose proof (ci_proto _ _ _ _ _ _ _ _ _ _ _ _ I d) as P. rewrite HM in P. cbn in P.
    destruct (decide _) as [Hc|Hc].
    + destruct Hres as (-> & Lk & Ha).
      assert (phase_at (m ∪ o) d i = PIdle) as Hp0 by (rewrite (phase_at_own _ _ _ _ Ho); apply Hmay).
      assert (asked inst_count (spin d) ab (phase_at (m ∪ o) d) r (lk_set_converting r ab)) as As.
      { eapply may_ask_asked; [done..|]. rewrite Hx. done. }
      pose proof (proto_begin _ Hcount _ _ _ _ _ _ P As Hc eq_refl (lo_idle _ (pr_ok _ _ _ _ _ P) Hc)) as P1.
      rewrite (ma_inst _ _ _ _ Hmay) in P1. pose proof (inv_phase_mas _ _ _ _ _ _ _ d i sl _ _ _ _ _ _ _ I Ho L' (reflexivity _) P1) as I1.
      destruct (inv_answer _ _ _ _ _ _ _ d i _ (lk_set_converting r ab) r (lk_granted_map ab) a I1 (lookup_insert_eq _ _ _) eq_refl) as [I2 H1];
        [by rewrite upd_eq, lookup_insert_eq|done|exact Ha|].
      rewrite insert_insert_eq in I2. eexists. split_and!; [done|by eexists _, _, _, _|]. apply HS; [done|apply Ha|done].
    + destruct Hres as [-> Hst]. exists sl. split_and!; [done|by eapply inv_mas_same|]. rewrite insert_id by done. by apply HE.
  - unfold drc_try_request_lock_owner. rewrite Hcalm. destruct (_ <? _).
    { exists kn1, sl. rewrite (set_mas_same _ _ _ Et), !insert_id by done. split_and!; [done|by eexists _, _, _, _|]. by apply HE. }
    rewrite (lock_lookup_none _ _ _ _ _ _ _ _ _ L HM). cbn [mbind outcome_bind].
    destruct (request_new_lock_ok signed pad _ _ _ _ _ _ d r L HM (ma_req _ _ _ _ Hmay)) as [[Hfull ->]|(x & t' & -> & L')]; cbn [mbind outcome_bind].
    + exists kn1, sl. rewrite (set_mas_same _ _ _ Et), !insert_id by done. split_and!; [done|by eexists _, _, _, _|]. by apply HE.
    + exists kn1. eexists. split_and!; [done|by eapply inv_first|]. by apply HS.
Qed.

(** ** The end of a request *)
Lemma wp_cancel d i sl r td g inst Q kn m :
  m !! (d, i) = Some sl -> sl_phase sl = PConv r td g -> inst = i -> g = None \/ spin d = true ->
  (forall kn' st, kn ⊆ kn' -> Q st kn' (<[(d, i) := with_phase PIdle sl]> m)) ->
  WP (cancel_request signed pad (lock_master d) inst d) Q kn m.
Proof.
  intros Hm Hp -> Hg HQ. eapply wp_master; [exact Hm|]. intros s kn1 o LA lam MA mam t f F Sp Hk Hd I Et L.
  pose proof (own_lookup _ o _ _ Hm) as Ho. destruct (owned_proto _ _ _ _ _ _ _ _ _ _ _ _ _ I Ho Hp) as (ab & HM & P & Ep).
  destruct (cancel_lock_ok signed pad i d t _ _ _ _ _ L) as (ret & t' & A' & f' & -> & L' & Hres). rewrite HM in Hres. destruct Hres as [-> Hres].
  assert (asks (phase_at (m ∪ o) d i) r) as Hask by (rewrite Ep; apply asks_conv). destruct (pr_range _ _ _ _ _ P _ _ Hask) as (_ & Hri & _).
  destruct (pr_conv _ _ _ _ _ P _ _ _ _ Ep) as [Hc _]. rewrite Hc, decide_True in Hres by done.
  destruct Hres as (ab' & Ea & ->). destruct (convert_lock_ok f ab (pr_ok _ _ _ _ _ P)) as (f2 & ab2 & Ea2 & Lk & _ & Em & Eg & Hn).
  rewrite Ea in Ea2. injection Ea2 as <- <-. eexists kn1, _. split_and!; [done| |by apply HQ]. eexists _, _, _, _.
  eapply inv_phase_mas; [done|done|exact L'|done|]. eapply proto_cancel; try done. destruct (lk_convert_q ab); tauto.
Qed.

Lemma wp_clear d i sl r td k Q kn m :
  m !! (d, i) = Some sl -> sl_phase sl = PConv r td (Some k) -> k ∉ td ->
  (forall kn', kn ⊆ kn' -> Q tt kn' (<[(d, i) := with_phase (PConv r td None) sl]> m)) ->
  WP (clear_granted signed pad (lock_master d) k d) Q kn m.
Proof.
  intros Hm Hp Htd HQ. eapply wp_master; [exact Hm|]. intros s kn1 o LA lam MA mam t f F Sp Hk Hd I Et L.
  pose proof (own_lookup _ o _ _ Hm) as Ho. destruct (owned_proto _ _ _ _ _ _ _ _ _ _ _ _ _ I Ho Hp) as (ab & HM & P & Ep).
  destruct (pr_gone _ _ _ _ _ P _ _ _ _ Ep) as (_ & _ & Hin).
  destruct (clear_granted_ok signed pad d k t _ _ _ _ _ L) as (t' & -> & L').
  { unfold DlsInv.ins, is_inst, OG_MAX_INSTANCES in *. lia. }
  cbn [mbind outcome_bind]. eexists kn1, _. split_and!; [done| |by apply HQ]. eexists _, _, _, _.
  replace (alter (drop_holder k) d (MA (lock_master d))) with (<[d := drop_holder k ab]> (MA (lock_master d))) in L'.
  2:{ apply map_eq. intros d'. destruct (decide (d' = d)) as [->|]; [by rewrite lookup_alter_eq, HM, lookup_insert_eq|].
      by rewrite lookup_alter_ne, lookup_insert_ne. }
  eapply inv_phase_mas; [done|done|exact L'|done|]. by eapply proto_clear.
Qed.

Lemma wp_claim d i sl r g sid Q kn m :
  m !! (d, i) = Some sl -> sl_phase sl = PConv r [] g -> g = None \/ req_mode r = DRC_LOCK_EXCLUSIVE ->
  body_ok (spin d) (sl_body sl) (req_mode r) ->
  (forall kn', kn ⊆ kn' -> Q OG_SUCCESS kn' (<[(d, i) := mk_slot (sl_body sl) (req_mode r) PIdle]> m)) ->
  WP (claim_owner signed pad vw (lock_master d) d (mk_lclaim i (req_mode r) sid) version) Q kn m.
Proof.
  intros Hm Hp Hg Hb HQ. eapply wp_master; [exact Hm|]. intros s kn1 o LA lam MA mam t f F Sp Hk Hd I Et L.
  pose proof (own_lookup _ o _ _ Hm) as Ho. destruct (owned_proto _ _ _ _ _ _ _ _ _ _ _ _ _ I Ho Hp) as (ab & HM & P & Ep).
  destruct (claim_lock_ok signed pad vw d (mk_lclaim i (req_mode r) sid) version false t _ _ _ _ _ ab L HM) as (t' & f' & ab' & -> & L' & _ & Hcl).
  { by eapply proto_claim_ok. }
  { left. apply Hcalm. }
  eexists kn1, _. split_and!; [done| |by apply HQ]. eexists _, _, _, _. eapply inv_master; [done|done|done|exact L'|done|].
  eapply proto_claim; try done. exact (lv_ok _ _ _ _ _ _ _ _ L' _ _ (lookup_insert_eq _ _ _)).
Qed.
End Master.
