(* ===== verification/DlsFun.v ===== *)
(** The functions of the lock service that ask for a lock: what they do to
    what the thread of the requester owns. *)

From S2P Require Import Prelude DrcBitmap DrcPool DrcResMap DrcGlobalRes DrcQueue DrcTable DrcReform DrcMapTab.
From S2P Require Import DrcLock DrcLockInv DrcLockThm DrcLocal DrcLocalThm Conc Dls DlsInv DlsThm DlsWp DlsMaster.

(** Equalities of finite maps with the same entries. *)
Ltac map_solve :=
  apply map_eq; let key := fresh "key" in intros key; rewrite ?lookup_delete, ?lookup_insert;
  repeat case_decide; subst; congruence || done.

Lemma relock b : ll_lock b = false -> ll_set_lock false (ll_set_lock true b) = b.
Proof. destruct b; cbn. by intros ->. Qed.

Section Fun.
Context (signed : bool) (pad : list Z) (vw : view) (lock_master : drid -> Z) (inst_count : Z) (spin : drid -> bool).
Context (Hcount : inst_count <= 64) (Hmaster : forall d, ins inst_count (lock_master d)).
Context (Hcalm : forall d, DRC_STOP_DLS_REQ_FOR_REFORMING (v_trigger_version vw) vw d = false).
Implicit Types (s : cluster) (kn : addrs) (m o O : slots_of) (d : drid) (i k : Z) (r : drc_req_info).
Notation ins := (ins inst_count).
Notation cinv := (cinv signed pad lock_master inst_count spin).
Notation Inv := (cluster_inv signed pad lock_master inst_count spin).
Notation WP := (wp Inv (exhausted signed pad)).
Notation version := (v_trigger_version vw).
Notation others := (others inst_count).

(** ** Locking and unlocking without a change *)
Lemma wp_unlock_same i a d b Q kn m :
  ins i -> kn !! (d, Some i) = Some a -> m !! (d, i) = None -> free_ok (spin d) b ->
  (forall kn', kn ⊆ kn' -> Q tt kn' m) -> WP (unlock_resx i a) Q kn (<[(d, i) := locked_slot b]> m).
Proof.
  intros Hi Ha Hm Hf HQ. eapply wp_unlock; [done|done|by rewrite lookup_insert_eq|done|done| |].
  - cbn. by rewrite relock by apply Hf.
  - intros kn' Hk. rewrite delete_insert_id by done. by apply HQ.
Qed.

(** The release of a lock nobody uses. *)
Definition quiet b : Prop := ll_is_locked b = false /\
  (la_stat (ll_latch b) = LATCH_STATUS_IDLE \/ (la_stat (ll_latch b) = LATCH_STATUS_IX /\ la_shared_count (ll_latch b) = 0)).

Lemma quiet_body sp b md md' : quiet b -> body_ok sp (ll_set_latch (la_set_mode md (ll_latch b)) b) md'.
Proof. intros [Hl [Hs|[Hs Hc]]]; split; cbn; rewrite ?Hs, ?Hc, ?Hl; done. Qed.

Lemma quiet_free sp b md (y : bool) : quiet b -> free_ok sp b -> (sp = true -> md = if y then DRC_LOCK_EXCLUSIVE else DRC_LOCK_NULL) ->
  free_ok sp (ll_set_lock false (ll_set_stat false y (ll_set_latch (la_set_mode md (ll_latch b)) (ll_set_lock true b)))).
Proof.
  intros Hq [] Hy. pose proof (quiet_body sp b md md Hq) as []. split; cbn; try done.
  intros Hs. destruct (fo_spin Hs) as (? & ? & _). split_and!; auto.
Qed.

Section Release.
Context (d : drid) (i k : Z) (sl : slot) (r : drc_req_info) (td : list Z).
Context (Hne : k <> i) (Hk : ins k) (Hph : sl_phase sl = PConv r td None) (Hreal : real_mode (req_mode r)).
Context (Hsp : req_mode r = DRC_LOCK_SHARE -> spin d = false) (Htab : dr_type d <> DR_TYPE_TABLE).

(** The holder lowers its mode, clears its flags and unlocks the resource. *)
Lemma wp_give_up a b Q kn m :
  kn !! (d, Some k) = Some a -> m !! (d, i) = Some sl -> m !! (d, k) = None -> free_ok (spin d) b -> quiet b ->
  la_lock_mode (ll_latch b) <> DRC_LOCK_NULL ->
  (forall kn', kn ⊆ kn' -> Q OG_SUCCESS kn' (<[(d, i) := asked_less k sl]> m)) ->
  WP (_ ← (if req_mode r =? DRC_LOCK_EXCLUSIVE then _ ← set_latchx k a (la_set_mode DRC_LOCK_NULL); set_statx k a false false
           else _ ← assert (req_mode r =? DRC_LOCK_SHARE); _ ← set_latchx k a (la_set_mode DRC_LOCK_SHARE); set_statx k a false true);
      _ ← unlock_resx k a; Ret OG_SUCCESS) Q kn (<[(d, k) := locked_slot b]> m).
Proof.
  intros Ha Hm Hmk Hf Hq Hn HQ. apply wp_bind.
  set (md := if req_mode r =? DRC_LOCK_EXCLUSIVE then DRC_LOCK_NULL else DRC_LOCK_SHARE).
  set (y := negb (req_mode r =? DRC_LOCK_EXCLUSIVE)).
  assert (forall kn0, kn ⊆ kn0 -> WP (_ ← set_latchx k a (la_set_mode md); set_statx k a false y)
    (fun _ => wp Inv (exhausted signed pad) (_ ← unlock_resx k a; Ret OG_SUCCESS) Q) kn0 (<[(d, k) := locked_slot b]> m)) as W.
  { intros kn0 Hk0. apply (lookup_weaken _ kn0) in Ha; [|done]. apply wp_bind. eapply (wp_release_write signed pad lock_master inst_count spin k a d i sl (locked_slot b) r td);
      [done|done|by rewrite lookup_insert_ne by congruence|by rewrite lookup_insert_eq|done|done|done|done|done| |].
    { intros md'. destruct (quiet_body (spin d) b md md' Hq). split; done. }
    intros kn1 Hk1. eapply wp_set_stat; [done|by eapply lookup_weaken|by rewrite lookup_insert_ne, lookup_insert_eq by congruence|done|].
    intros kn2 Hk2. apply wp_bind. eapply wp_unlock; [done|eapply lookup_weaken; [exact Ha|by etrans]|by rewrite lookup_insert_eq|done|done| |].
    - apply (quiet_free (spin d) b md y); [done|done|]. unfold y, md. intros Hs. destruct (Z.eqb_spec (req_mode r) DRC_LOCK_EXCLUSIVE); [done|].
      destruct Hreal as [Hs'|]; [|done]. rewrite (Hsp Hs') in Hs. done.
    - intros kn3 Hk3. cbn. replace (delete (d, k) _) with (<[(d, i) := asked_less k sl]> m); [apply HQ; by etrans; [|etrans; [|etrans]]|]. map_solve. }
  unfold md, y in W. destruct (Z.eqb_spec (req_mode r) DRC_LOCK_EXCLUSIVE) as [Hx|Hx]; [by apply W|].
  destruct Hreal as [Hs|]; [|done]. rewrite Hs. apply wp_bind, wp_assert; [done|]. intros kn1 Hk1.
  by apply W.
Qed.

(** What a release leaves: nothing when it fails, and [k] has been asked when
    it succeeds. *)
Definition released (Q : status -> addrs -> slots_of -> Prop) kn m : Prop :=
  (forall kn', kn ⊆ kn' -> Q OG_ERROR kn' m) /\ (forall kn', kn ⊆ kn' -> Q OG_SUCCESS kn' (<[(d, i) := asked_less k sl]> m)).

Lemma released_known Q kn kn' m : kn ⊆ kn' -> released Q kn m -> released Q kn' m.
Proof. intros Hs [H1 H2]. split; intros kn1 ?; [apply H1|apply H2]; by etrans. Qed.

Lemma wp_unlock_error a b Q kn m :
  kn !! (d, Some k) = Some a -> m !! (d, k) = None -> free_ok (spin d) b -> released Q kn m ->
  WP (_ ← unlock_resx k a; Ret OG_ERROR) Q kn (<[(d, k) := locked_slot b]> m).
Proof. intros Ha Hm Hf [HE _]. apply wp_bind, wp_unlock_same; [done..|]. intros kn' Hkn. cbn. by apply HE. Qed.

Lemma wp_split d' mode Q kn m : (forall st, Q st kn m) -> WP (dls_broadcast_btree_split d' mode) Q kn m.
Proof. intros HQ. unfold dls_broadcast_btree_split. destruct (_ || _); [apply HQ|]. destruct (_ && _); [apply HQ|]. intros x. cbn. apply HQ. Qed.

Lemma wp_release_loop n ticks Q : forall times kn m,
  m !! (d, i) = Some sl -> released Q kn m -> WP (release_loop signed pad vw n k d (req_mode r) version ticks times) Q kn m.
Proof.
  induction n as [|n IH]; intros times kn m Hm HQ; [done|]. cbn [release_loop]. apply wp_bind. apply wp_find; [done| |].
  - intros kn1 a Hk1 Ha. apply wp_bind. eapply wp_lock; [done|done|]. intros kn2 b Hk2 Hmk Hf.
    assert (kn2 !! (d, Some k) = Some a) as Ha2 by (by eapply lookup_weaken).
    apply wp_bind. eapply wp_read; [done|done|by rewrite lookup_insert_eq|]. intros kn3 Hk3.
    assert (kn3 !! (d, Some k) = Some a) as Ha3 by (by eapply lookup_weaken).
    assert (released Q kn3 m) as HQ3 by (eapply released_known; [|exact HQ]; by etrans; [|etrans]).
    assert (forall times', WP (_ ← unlock_resx k a; release_loop signed pad vw n k d (req_mode r) version ticks times') Q kn3
      (<[(d, k) := locked_slot b]> m)) as Hagain.
    { intros times'. apply wp_bind, wp_unlock_same; [done..|]. intros kn' Hkn. apply IH; [done|]. by eapply released_known. }
    cbn [sl_body locked_slot]. change (ll_is_locked (ll_set_lock true b)) with (ll_is_locked b).
    destruct (ll_is_locked b && (dr_type d =? DR_TYPE_SHUTDOWN)); [by apply wp_unlock_error|].
    destruct (negb (ticks =? OG_INVALID_ID32) && (ticks <=? times)); [by apply wp_unlock_error|].
    destruct (ll_is_locked b) eqn:Hl; [done|]. rewrite Hcalm. apply wp_bind.
    eapply wp_read; [done|done|by rewrite lookup_insert_eq|]. intros kn4 Hk4. cbn [sl_body locked_slot].
    change (ll_is_locked (ll_set_lock true b)) with (ll_is_locked b). change (ll_latch (ll_set_lock true b)) with (ll_latch b). rewrite Hl.
    assert (kn4 !! (d, Some k) = Some a) as Ha4 by (by eapply lookup_weaken). assert (released Q kn4 m) as HQ4 by (by eapply released_known).
    destruct (_ || _) eqn:Hq.
    + destruct (Z.eqb_spec (la_lock_mode (ll_latch b)) DRC_LOCK_NULL) as [Hn|Hn]; [by apply wp_unlock_error|].
      apply wp_bind, wp_split. intros st. destruct (ok st); cbn [negb]; [|by apply wp_unlock_error].
      apply wp_give_up; try done; [|by apply HQ4]. split; [done|]. lia.
    + apply wp_bind, wp_unlock_same; [done..|]. intros kn' Hkn. apply IH; [done|]. by eapply released_known.
  - intros s kn1 o LA lam MA mam Hd I Hk1 Ho HL. pose proof (own_lookup _ o _ _ Hm) as Hmi.
    exists (<[(d, i) := asked_less k sl]> m).
    assert (Inv s kn1 (<[(d, i) := asked_less k sl]> (m ∪ o))) as I'.
    { eexists _, _, _, _. eapply inv_release_none; done. }
    destruct (own_update signed pad lock_master inst_count spin _ _ _ _ _ _ _ Hd Hm I') as [? ?]. split_and!; [done|done|]. cbn. by apply HQ.
Qed.

Lemma wp_release n ticks Q kn m :
  m !! (d, i) = Some sl -> released Q kn m ->
  WP (dls_process_release_ownership signed pad vw n k d (req_mode r) version ticks) Q kn m.
Proof.
  intros Hm HQ. unfold dls_process_release_ownership. rewrite Hcalm.
  destruct (negb _ && negb _) eqn:E; [by apply HQ|]. rewrite (proj2 (Z.eqb_neq _ _) Htab). by apply wp_release_loop.
Qed.

(** The same for a spin lock that is tried. *)
Lemma wp_try_wait a n Q : forall kn m, kn !! (d, Some k) = Some a -> (forall kn' x, kn ⊆ kn' -> Q x kn' m) -> WP (try_wait n k a) Q kn m.
Proof.
  induction n as [|n IH]; intros kn m Ha HQ; cbn [try_wait]; [by apply HQ|]. apply wp_bind. eapply wp_peek; [done|done|].
  intros kn1 b Hk1. destruct (_ && _); [by apply HQ|]. apply IH; [by eapply lookup_weaken|]. intros. apply HQ. by etrans.
Qed.

Lemma wp_try_release Q kn m :
  spin d = true -> req_mode r = DRC_LOCK_EXCLUSIVE -> m !! (d, i) = Some sl -> released Q kn m ->
  WP (dls_process_try_release_ownership signed pad vw k d (req_mode r) version) Q kn m.
Proof.
  intros Hs Hx Hm HQ. unfold dls_process_try_release_ownership. rewrite Hcalm.
  destruct (negb _ && negb _) eqn:E; [by apply HQ|]. rewrite (proj2 (Z.eqb_neq _ _) Htab). apply wp_bind, wp_get; [done|].
  intros kn1 a Hk1 Ha. apply wp_bind. apply (wp_try_wait a); [done|]. intros kn2 x Hk2.
  assert (released Q kn2 m) as HQ2 by (eapply released_known; [|exact HQ]; by etrans).
  destruct x; cbn [negb]; [|by apply HQ2]. apply wp_bind. eapply wp_lock; [done|by eapply lookup_weaken|].
  intros kn3 b Hk3 Hmk Hf. assert (kn3 !! (d, Some k) = Some a) as Ha3 by (eapply lookup_weaken; [exact Ha|by etrans]).
  apply wp_bind. eapply wp_read; [done|done|by rewrite lookup_insert_eq|]. intros kn4 Hk4. cbn [sl_body locked_slot].
  change (ll_latch (ll_set_lock true b)) with (ll_latch b).
  assert (kn4 !! (d, Some k) = Some a) as Ha4 by (by eapply lookup_weaken).
  assert (released Q kn4 m) as HQ4 by (eapply released_known; [|exact HQ2]; by etrans).
  destruct (Z.eqb_spec (la_lock_mode (ll_latch b)) DRC_LOCK_NULL) as [Hn|Hn]; [by apply wp_unlock_error|].
  destruct (fo_spin _ _ Hf Hs) as (Hst & Hl & _).
  pose proof (wp_give_up a b Q kn4 m Ha4 Hm Hmk Hf (conj Hl (or_introl Hst)) Hn (proj2 HQ4)) as W. rewrite Hx in *. exact W.
Qed.
End Release.

(** ** Messages *)

(** The answer of a handler reaches its caller. *)
Lemma wp_msg (h : msg_lock_req -> prog cluster (option lock_ack)) msg Q kn m :
  Q OG_ERROR kn m ->
  WP (h msg) (fun x kn' m' => exists st, x = Some (LockAck st version) /\ Q st kn' m') kn m ->
  WP (dls_request_msg vw h msg) Q kn m.
Proof.
  intros HE W. unfold dls_request_msg. apply wp_bind, wp_choose. intros x. destruct (x =? 0); [done|]. apply wp_bind. eapply wp_mono; [|exact W].
  intros x' kn' m' _ (st & -> & HQ). cbn. by rewrite Hcalm.
Qed.

(** ** The instances the loops run over *)
Lemma in_insts k : k ∈ insts inst_count <-> ins k.
Proof. unfold insts, DlsInv.ins. rewrite elem_of_seqZ. lia. Qed.

(** The holder of a spin lock. *)
Lemma first_is map k : ins k -> (forall j, bm_mem map j <-> j = k) -> first_holder inst_count map = k.
Proof.
  intros Hk Hb. unfold first_holder.
  assert (forall j, j ∈ filter (fun k => drc_bitmap64_exist map k = true) (insts inst_count) <-> j = k) as Hf.
  { intros j. rewrite list_elem_of_filter, in_insts. split.
    - intros [Hx Hj]. apply Hb, bm_exist_spec; [unfold DlsInv.ins in Hj; lia|done].
    - intros ->. split; [|done]. apply bm_exist_spec; [unfold DlsInv.ins in Hk; lia|]. by apply Hb. }
  destruct (filter _ _) as [|j l]; cbn.
  - exfalso. apply (not_elem_of_nil k). by apply Hf.
  - apply Hf. by left.
Qed.

Lemma others_one map i k : (forall j, bm_mem map j <-> j = k) -> forall j, j ∈ others map i -> j = k.
Proof. intros Hb j (Hj & _)%(elem_of_others _ Hcount). by apply Hb. Qed.

Lemma filter_one (l : list Z) k : (forall j, j ∈ l -> j = k) -> filter (fun j => j <> k) l = [].
Proof.
  intros H. destruct (filter _ l) as [|j l'] eqn:E; [done|]. exfalso.
  assert (j ∈ filter (fun j => j <> k) l) as [Hne Hj]%list_elem_of_filter by (rewrite E; by left). by apply Hne, H.
Qed.

Section Ask.
Context (d : drid) (i : Z) (sl : slot) (r : drc_req_info).
Context (Hreal : real_mode (req_mode r)) (Hsp : req_mode r = DRC_LOCK_SHARE -> spin d = false) (Htab : dr_type d <> DR_TYPE_TABLE).
Notation released := (released d i).

Lemma wp_msg_release n self k td sl' Q kn m :
  k <> i -> ins k -> sl_phase sl' = PConv r td None -> m !! (d, i) = Some sl' -> released k sl' Q kn m ->
  WP (dls_request_msg vw (holder_msg signed pad vw n k) (msg_of_req MES_CMD_RELEASE_LOCK self d version r)) Q kn m.
Proof.
  intros Hne Hk Hp Hm [HE HS]. apply wp_msg; [by apply HE|]. unfold holder_msg, process_lock_msg. cbn [mq_size_ok msg_of_req negb mq_cmd].
  do 2 apply wp_bind. eapply (wp_release d i k sl' r td); [done..|]. split; intros kn' Hkn; cbn; eauto.
Qed.

Lemma wp_ask_release n self k td sl' Q kn m :
  k <> i -> ins k -> sl_phase sl' = PConv r td None -> m !! (d, i) = Some sl' -> released k sl' Q kn m ->
  WP (ask_release signed pad vw n self k d r version) Q kn m.
Proof.
  intros Hne Hk Hp Hm HQ. unfold ask_release. destruct (Z.eqb_spec self k) as [->|]; [|by eapply wp_msg_release].
  by eapply (wp_release d i k sl' r td).
Qed.

Lemma wp_msg_try_release n self k td sl' Q kn m :
  spin d = true -> req_mode r = DRC_LOCK_EXCLUSIVE ->
  k <> i -> ins k -> sl_phase sl' = PConv r td None -> m !! (d, i) = Some sl' -> released k sl' Q kn m ->
  WP (dls_request_msg vw (holder_msg signed pad vw n k) (msg_of_req MES_CMD_TRY_RELEASE_LOCK self d version r)) Q kn m.
Proof.
  intros Hs Hx Hne Hk Hp Hm [HE HS]. apply wp_msg; [by apply HE|]. unfold holder_msg, process_lock_msg. cbn [mq_size_ok msg_of_req negb mq_cmd].
  do 2 apply wp_bind. eapply (wp_try_release d i k sl' r td); [done..|]. split; intros kn' Hkn; cbn; eauto.
Qed.

Lemma wp_ask_try_release n self k td sl' Q kn m :
  spin d = true -> req_mode r = DRC_LOCK_EXCLUSIVE ->
  k <> i -> ins k -> sl_phase sl' = PConv r td None -> m !! (d, i) = Some sl' -> released k sl' Q kn m ->
  WP (ask_try_release signed pad vw n self k d r version) Q kn m.
Proof.
  intros Hs Hx Hne Hk Hp Hm HQ. unfold ask_try_release. destruct (Z.eqb_spec self k) as [->|]; [|by eapply wp_msg_try_release].
  by eapply (wp_try_release d i k sl' r td).
Qed.

(** ** All holders are asked *)
Lemma less_conv k sl' td : sl_phase sl' = PConv r td None -> asked_less k sl' = with_phase (PConv r (filter (fun j => j <> k) td) (gone_for r k)) sl'.
Proof. intros E. unfold asked_less. by rewrite E. Qed.

(** The request fails, or nobody is left to ask. *)
Definition asked_all (Q : status -> addrs -> slots_of -> Prop) (g : option Z -> Prop) kn m : Prop :=
  (forall kn', kn ⊆ kn' -> Q OG_ERROR kn' (<[(d, i) := with_phase PIdle sl]> m)) /\
  (forall kn' x, kn ⊆ kn' -> g x -> Q OG_SUCCESS kn' (<[(d, i) := with_phase (PConv r [] x) sl]> m)).

Lemma asked_all_known Q g kn kn' m : kn ⊆ kn' -> asked_all Q g kn m -> asked_all Q g kn' m.
Proof. intros Hs [H1 H2]. split; [intros kn1 ?; apply H1|intros kn1 x ? Hx; apply (H2 _ _ ltac:(by etrans) Hx)]; by etrans. Qed.
Lemma asked_all_insert Q g kn m x : asked_all Q g kn m -> asked_all Q g kn (<[(d, i) := x]> m).
Proof. intros [H1 H2]. split; intros; rewrite insert_insert_eq; auto. Qed.

Lemma wp_ask_holders release fail map Q :
  (forall k td sl' Q' kn m, k <> i -> ins k -> sl_phase sl' = PConv r td None -> m !! (d, i) = Some sl' ->
     released k sl' Q' kn m -> WP (release k) Q' kn m) ->
  (forall td kn m, m !! (d, i) = Some (with_phase (PConv r td None) sl) -> asked_all Q (fun x => x = None) kn m -> WP (fail OG_ERROR) Q kn m) ->
  forall l td kn m, (forall k, k ∈ td -> k ∈ l) -> (forall k, k ∈ l -> ins k) ->
  (forall k, k ∈ td -> drc_bitmap64_exist map k = true /\ k <> i) ->
  m !! (d, i) = Some (with_phase (PConv r td None) sl) -> asked_all Q (fun x => x = None) kn m ->
  WP (ask_holders signed pad release fail (lock_master d) i d (req_mode r) map l) Q kn m.
Proof.
  intros Hrel Hfail. induction l as [|k l IH]; intros td kn m Hsub Hins Htd Hm HQ; cbn [ask_holders].
  - assert (td = []) as ->. { destruct td as [|k td]; [done|]. exfalso. by apply (not_elem_of_nil k), Hsub, elem_of_cons; left. }
    cbn. rewrite <- (insert_id m _ _ Hm). by apply HQ.
  - destruct (negb (drc_bitmap64_exist map k) || (i =? k)) eqn:Hskip.
    { apply (IH td); [|intros j Hj; apply Hins; by right|done..].
      intros j Hj. destruct (Htd j Hj) as [Hb Hji]. destruct (elem_of_cons l j k) as [Hc _].
      destruct (Hc (Hsub j Hj)) as [->|?]; [|done]. rewrite Hb in Hskip. cbn in Hskip. apply Z.eqb_eq in Hskip. congruence. }
    apply orb_false_iff in Hskip as [_ Hki%Z.eqb_neq]. assert (ins k) as Hk by (apply Hins; by left).
    apply wp_bind. apply (Hrel k td (with_phase (PConv r td None) sl)); [congruence|done..|]. split; intros kn1 Hk1.
    + cbn. apply (Hfail td); [done|]. by eapply asked_all_known.
    + change (ok OG_SUCCESS) with true. cbn [negb].
      rewrite (less_conv k _ td) by done. set (td' := filter (fun j => j <> k) td).
      assert (forall kn2, kn1 ⊆ kn2 -> WP (ask_holders signed pad release fail (lock_master d) i d (req_mode r) map l) Q kn2
        (<[(d, i) := with_phase (PConv r td' None) sl]> m)) as Hnext.
      { intros kn2 Hk2. apply (IH td').
        - intros j [Hjk Hj]%list_elem_of_filter. destruct (proj1 (elem_of_cons l j k) (Hsub j Hj)); done.
        - intros j Hj. apply Hins. by right.
        - intros j [_ Hj]%list_elem_of_filter. by apply Htd.
        - by rewrite lookup_insert_eq.
        - apply asked_all_insert. eapply asked_all_known; [|exact HQ]. by etrans. }
      apply wp_bind. unfold gone_for. destruct (Z.eqb_spec (req_mode r) DRC_LOCK_EXCLUSIVE) as [Hx|Hx]; [|by apply Hnext].
      eapply (wp_clear signed pad lock_master inst_count spin Hcount Hmaster d i _ r td' k); [by rewrite lookup_insert_eq|done| |].
      * intros [? _]%list_elem_of_filter. done.
      * intros kn2 Hk2. rewrite insert_insert_eq. by apply Hnext.
Qed.

(** ** The handlers of requests at the master *)
Context (Hmay : may_ask inst_count spin d i sl r).

Lemma ask_idle : with_phase PIdle sl = sl.
Proof. apply with_phase_id, Hmay. Qed.

Lemma asked_error Q g kn kn' m : m !! (d, i) = Some sl -> kn ⊆ kn' -> asked_all Q g kn m -> Q OG_ERROR kn' m.
Proof. intros Hm Hk [HE _]. specialize (HE kn' Hk). by rewrite ask_idle, insert_id in HE. Qed.

Lemma wp_cancel_error (td : list Z) (Q : status -> addrs -> slots_of -> Prop) (g : option Z -> Prop) kn m :
  m !! (d, i) = Some (with_phase (PConv r td None) sl) -> asked_all Q g kn m ->
  WP (_ ← cancel_request signed pad (lock_master d) i d; Ret OG_ERROR) Q kn m.
Proof.
  intros Hm [HE _]. apply wp_bind. eapply (wp_cancel signed pad lock_master inst_count spin Hmaster d i _ r td None); [exact Hm|done|done|by left|].
  intros kn' st Hk. cbn. by apply HE.
Qed.

Lemma others_asked map : (forall k, k ∈ others map i -> k ∈ insts inst_count) /\
  (forall k, k ∈ others map i -> drc_bitmap64_exist map k = true /\ k <> i).
Proof.
  split; intros k (Hb & Hn & Hk)%(elem_of_others _ Hcount); [by apply in_insts|]. split; [|done].
  apply bm_exist_spec; [unfold DlsInv.ins in Hk; lia|done].
Qed.

Lemma wp_latch_holders n map Q kn m :
  m !! (d, i) = Some (with_phase (PConv r (others map i) None) sl) -> asked_all Q (fun x => x = None) kn m ->
  WP (latch_holders signed pad vw inst_count n (lock_master d) d r version map) Q kn m.
Proof.
  intros Hm HQ. unfold latch_holders. rewrite (ma_inst _ _ _ _ _ _ Hmay). destruct (others_asked map) as [H1 H2].
  eapply wp_ask_holders; [|..|exact H1| |exact H2|exact Hm|done].
  - intros k td sl' Q' kn' m' Hne Hk Hp Hm' HR. by eapply wp_ask_release.
  - intros td kn' m' Hm' HA. rewrite Hcalm. by eapply wp_cancel_error.
  - intros k. apply in_insts.
Qed.

Lemma wp_own_holders n map Q kn m :
  lock_master d = i -> m !! (d, i) = Some (with_phase (PConv r (others map i) None) sl) -> asked_all Q (fun x => x = None) kn m ->
  WP (own_holders signed pad vw inst_count n i d r version map) Q kn m.
Proof.
  intros Hself Hm HQ. unfold own_holders. destruct (others_asked map) as [H1 H2].
  enough (WP (ask_holders signed pad (fun k => dls_request_msg vw (holder_msg signed pad vw n k) (msg_of_req MES_CMD_RELEASE_LOCK i d version r))
    (fun st => _ ← cancel_request signed pad (lock_master d) i d; Ret st) (lock_master d) i d (req_mode r) map (insts inst_count)) Q kn m) as W
    by (by rewrite Hself in W).
  eapply wp_ask_holders; [|..|exact H1| |exact H2|exact Hm|done].
  - intros k td sl' Q' kn' m' Hne Hk Hp Hm' HR. by eapply wp_msg_release.
  - intros td kn' m' Hm' HA. by eapply wp_cancel_error.
  - intros k. apply in_insts.
Qed.

(** [dls_process_ask_master_for_latch]. *)
Lemma conv_granted a : lr_granted a = true -> conv_slot inst_count i r a sl = with_phase (PConv r [] None) sl.
Proof. intros E. unfold conv_slot. by rewrite E. Qed.
Lemma conv_refused a : lr_granted a = false -> conv_slot inst_count i r a sl = with_phase (PConv r (others (lr_old_map a) i) None) sl.
Proof. intros E. unfold conv_slot. by rewrite E. Qed.

Lemma msg_inst cmd : req_of_msg (msg_of_req cmd i d version r) = r ->
  (OG_MAX_INSTANCES <=? mq_src_inst (msg_of_req cmd i d version r)) = false.
Proof. intros _. cbn. pose proof (ma_ins _ _ _ _ _ _ Hmay) as Hi. unfold DlsInv.ins, OG_MAX_INSTANCES in *. lia. Qed.

Lemma wp_ask_latch n cmd Q kn m :
  req_of_msg (msg_of_req cmd i d version r) = r -> req_mode r = mode_of_cmd cmd -> m !! (d, i) = Some sl ->
  asked_all Q (fun x => x = None) kn m ->
  WP (dls_process_ask_master_for_latch signed pad vw inst_count n (lock_master d) (msg_of_req cmd i d version r)) Q kn m.
Proof.
  intros Hrq Hmode Hm HQ. unfold dls_process_ask_master_for_latch. rewrite Hrq, (msg_inst _ Hrq). cbn [mq_mode mq_cmd msg_of_req mq_lock_id mq_version].
  rewrite Hmode, Z.eqb_refl. cbn [negb orb]. apply wp_bind.
  eapply (wp_request_owner signed pad vw lock_master inst_count spin Hcount Hmaster Hcalm n d i sl r); [done|done|..]; intros kn1 a Hk1 Hst.
  - rewrite Hst. cbn. exact (asked_error _ _ _ _ _ Hm Hk1 HQ).
  - intros _. rewrite Hst. change (ok OG_SUCCESS) with true. cbn [negb]. destruct (lr_granted a) eqn:Hg.
    + rewrite conv_granted by done. cbn. by apply HQ.
    + rewrite conv_refused by done. apply wp_latch_holders; [by rewrite lookup_insert_eq|].
      apply asked_all_insert. by eapply asked_all_known.
Qed.

Lemma wp_release_first rel a Q kn m :
  spin d = true -> req_mode r = DRC_LOCK_EXCLUSIVE -> one_holder inst_count spin d a -> lr_granted a = false ->
  (forall k td sl' Q' kn m, k <> i -> ins k -> sl_phase sl' = PConv r td None -> m !! (d, i) = Some sl' ->
     released k sl' Q' kn m -> WP (rel k) Q' kn m) ->
  m !! (d, i) = Some (conv_slot inst_count i r a sl) -> asked_all Q (fun _ => True) kn m ->
  WP (release_first signed pad vw inst_count rel (lock_master d) d r version (lr_old_map a)) Q kn m.
Proof.
  intros Hs Hx H1 Hg Hrel Hm HQ. destruct (H1 Hs Hg) as (k & Hk & Hb). rewrite conv_refused in Hm by done. unfold release_first.
  rewrite (ma_inst _ _ _ _ _ _ Hmay). destruct (drc_bitmap64_exist (lr_old_map a) i) eqn:Hbi.
  - assert (others (lr_old_map a) i = []) as E.
    { apply bm_exist_spec, Hb in Hbi as Hik; [|pose proof (ma_ins _ _ _ _ _ _ Hmay) as Hi; unfold DlsInv.ins in Hi; lia].
      destruct (others (lr_old_map a) i) as [|j l] eqn:E; [done|]. assert (j ∈ others (lr_old_map a) i) as Hj by (rewrite E; by left).
      apply (elem_of_others _ Hcount) in Hj as (Hj & Hne & _). apply Hb in Hj. congruence. }
    rewrite E in Hm. cbn. rewrite <- (insert_id m _ _ Hm). by apply HQ.
  - rewrite (first_is _ k) by done. apply wp_bind.
    assert (k <> i) as Hki.
    { intros E. assert (bm_mem (lr_old_map a) i) as Hbm by (by apply Hb). apply bm_exist_spec in Hbm; [congruence|]. rewrite E in Hk. unfold DlsInv.ins in Hk. lia. }
    apply (Hrel k (others (lr_old_map a) i) (with_phase (PConv r (others (lr_old_map a) i) None) sl)); [done..|]. split; intros kn1 Hk1.
    + change (ok OG_ERROR) with false. cbn [negb]. rewrite Hcalm. eapply wp_cancel_error; [exact Hm|]. by eapply asked_all_known.
    + rewrite (less_conv k _ (others (lr_old_map a) i)) by done. rewrite filter_one by (by apply others_one). cbn. unfold gone_for. rewrite Hx. by apply HQ.
Qed.

(** [dls_process_ask_master_for_lock], [dls_process_try_ask_master_for_lock]. *)
Lemma wp_ask_lock n cmd Q kn m :
  req_of_msg (msg_of_req cmd i d version r) = r -> spin d = true -> req_mode r = DRC_LOCK_EXCLUSIVE -> m !! (d, i) = Some sl ->
  asked_all Q (fun _ => True) kn m ->
  WP (dls_process_ask_master_for_lock signed pad vw inst_count n (lock_master d) (msg_of_req cmd i d version r)) Q kn m.
Proof.
  intros Hrq Hs Hx Hm HQ. unfold dls_process_ask_master_for_lock. rewrite Hrq, (msg_inst _ Hrq). cbn [mq_mode mq_cmd msg_of_req mq_lock_id mq_version].
  rewrite Hx, Z.eqb_refl. cbn [negb orb]. apply wp_bind.
  eapply (wp_request_owner signed pad vw lock_master inst_count spin Hcount Hmaster Hcalm n d i sl r); [done|done|..]; intros kn1 a Hk1 Hst.
  - rewrite Hst. cbn. exact (asked_error _ _ _ _ _ Hm Hk1 HQ).
  - intros H1. rewrite Hst. change (ok OG_SUCCESS) with true. cbn [negb]. destruct (lr_granted a) eqn:Hg.
    + rewrite conv_granted by done. cbn. by apply HQ.
    + apply wp_release_first; try done; [|by rewrite lookup_insert_eq|apply asked_all_insert; by eapply asked_all_known].
      intros. by eapply wp_ask_release.
Qed.

Lemma wp_try_ask n cmd Q kn m :
  req_of_msg (msg_of_req cmd i d version r) = r -> spin d = true -> req_mode r = DRC_LOCK_EXCLUSIVE -> m !! (d, i) = Some sl ->
  asked_all Q (fun _ => True) kn m ->
  WP (dls_process_try_ask_master_for_lock signed pad vw inst_count n (lock_master d) (msg_of_req cmd i d version r)) Q kn m.
Proof.
  intros Hrq Hs Hx Hm HQ. unfold dls_process_try_ask_master_for_lock. rewrite Hrq, (msg_inst _ Hrq). cbn [mq_mode mq_cmd msg_of_req mq_lock_id mq_version].
  rewrite Hx, Z.eqb_refl. cbn [negb orb]. apply wp_bind.
  eapply (wp_try_request signed pad vw lock_master inst_count spin Hcount Hmaster Hcalm d i sl r); [done|done|done|..]; intros kn1 a Hk1 Hst.
  - rewrite Hst. cbn. exact (asked_error _ _ _ _ _ Hm Hk1 HQ).
  - intros H1. rewrite Hst. change (ok OG_SUCCESS) with true. cbn [negb]. destruct (lr_granted a) eqn:Hg.
    + rewrite conv_granted by done. cbn. by apply HQ.
    + apply wp_release_first; try done; [|by rewrite lookup_insert_eq|apply asked_all_insert; by eapply asked_all_known].
      intros. by eapply wp_ask_try_release.
Qed.
End Ask.

(** ** Requests *)

(** What asking for lock [d] in [mode] needs of the instance. *)
Record can_ask d i (sl : slot) (mode : Z) : Prop := {
  ca_ins : ins i;
  ca_phase : sl_phase sl = PIdle;
  ca_real : real_mode mode;
  ca_share : mode = DRC_LOCK_SHARE -> spin d = false /\ sl_mode sl = DRC_LOCK_NULL;
  ca_body : body_ok (spin d) (sl_body sl) mode;
  ca_type : dr_type d <> DR_TYPE_TABLE;
}.

(** The lock is had in [mode], or nothing changes. *)
Definition granted_slot (mode : Z) (sl : slot) : slot := mk_slot (sl_body sl) mode PIdle.
Definition requested {B} (yes no : B) d i (sl : slot) (mode : Z) (Q : B -> addrs -> slots_of -> Prop) kn m : Prop :=
  (forall kn', kn ⊆ kn' -> Q no kn' m) /\ (forall kn', kn ⊆ kn' -> Q yes kn' (<[(d, i) := granted_slot mode sl]> m)).

Lemma requested_known {B} (yes no : B) d i (sl : slot) (mode : Z) Q kn kn' m :
  kn ⊆ kn' -> requested yes no d i sl mode Q kn m -> requested yes no d i sl mode Q kn' m.
Proof. intros Hs [H1 H2]. split; intros kn1 ?; [apply H1|apply H2]; by etrans. Qed.

Definition right_cmd d (mode : Z) (cmd : lock_cmd) : Prop :=
  if spin d then cmd = MES_CMD_REQUEST_LOCK \/ cmd = MES_CMD_TRY_REQUEST_LOCK
  else mode = mode_of_cmd cmd /\ (cmd = MES_CMD_REQUEST_LATCH_S \/ cmd = MES_CMD_REQUEST_LATCH_X).

Section Req.
Context (d : drid) (i : Z) (sl : slot) (mode sid rsn0 time0 ticks : Z) (Hca : can_ask d i sl mode).
Notation r := (new_request vw i sid mode rsn0 time0 ticks).

Lemma can_may : may_ask inst_count spin d i sl r.
Proof.
  destruct Hca as [H1 H2 H3 H4 H5 H6]. split; try done. split; [|done].
  cbn. unfold DlsInv.ins, is_inst, OG_MAX_INSTANCES in *. lia.
Qed.
Lemma can_spin : mode = DRC_LOCK_SHARE -> spin d = false.
Proof. intros Hs. by apply (ca_share _ _ _ _ Hca). Qed.
Lemma can_excl : spin d = true -> mode = DRC_LOCK_EXCLUSIVE.
Proof. intros Hs. destruct (ca_real _ _ _ _ Hca) as [Hm|]; [|done]. rewrite (can_spin Hm) in Hs. done. Qed.

(** The claim that ends the request. *)
Lemma wp_claim_end x sid' Q kn m :
  x = None \/ mode = DRC_LOCK_EXCLUSIVE -> m !! (d, i) = Some (with_phase (PConv r [] x) sl) ->
  (forall kn', kn ⊆ kn' -> Q OG_SUCCESS kn' (<[(d, i) := granted_slot mode sl]> m)) ->
  WP (claim_owner signed pad vw (lock_master d) d (mk_lclaim i mode sid') version) Q kn m.
Proof.
  intros Hx Hm HQ. eapply (wp_claim signed pad vw lock_master inst_count spin Hcount Hmaster Hcalm d i _ r x sid'); [exact Hm|done|done| |done].
  apply Hca.
Qed.

Lemma wp_remote n cmd Q kn m :
  m !! (d, i) = Some sl -> right_cmd d mode cmd -> requested OG_SUCCESS OG_ERROR d i sl mode Q kn m ->
  WP (dls_request_msg vw (dls_process_lock_msg signed pad vw inst_count n (lock_master d)) (msg_of_req cmd i d version r)) Q kn m.
Proof.
  intros Hm Hcmd [HE HS]. apply wp_msg; [by apply HE|].
  assert (forall (P : option Z -> Prop), (forall x, P x -> x = None \/ mode = DRC_LOCK_EXCLUSIVE) ->
    asked_all d i sl r (fun st => wp Inv (exhausted signed pad)
      (st ← (if true && ok st then dls_process_claim_ownership signed pad vw (lock_master d) (msg_of_req cmd i d version r) else Ret st);
       Ret (Some (LockAck st version)))
      (fun x kn' m' => exists st, x = Some (LockAck st version) /\ Q st kn' m')) P kn m) as HA.
  { intros P HP. split.
    - intros kn' Hk. cbn. exists OG_ERROR. split; [done|]. rewrite (ask_idle _ _ _ _ can_may), insert_id by done. by apply HE.
    - intros kn' x Hk Hx. change (true && ok OG_SUCCESS) with true. cbv iota. apply wp_bind.
      apply (wp_claim_end x); [by apply HP|by rewrite lookup_insert_eq|]. intros kn2 Hk2. cbn. exists OG_SUCCESS. split; [done|].
      rewrite insert_insert_eq. apply HS. by etrans. }
  pose proof can_may as Hmay. pose proof (ca_real _ _ _ _ Hca) as Hreal. pose proof (ca_type _ _ _ _ Hca) as Hty. pose proof can_spin as Hsp.
  unfold right_cmd in Hcmd. unfold dls_process_lock_msg, process_lock_msg. cbn [mq_size_ok msg_of_req negb mq_cmd].
  assert (spin d = true \/ spin d = false) as [Hs|Hs] by (destruct (spin d); auto); rewrite Hs in Hcmd.
  - assert (forall x : option Z, True -> x = None \/ mode = DRC_LOCK_EXCLUSIVE) as HP by (intros; right; by apply can_excl).
    destruct Hcmd as [->| ->]; do 2 apply wp_bind.
    + eapply wp_ask_lock; try done; [by apply can_excl|]. exact (HA (fun _ => True) HP).
    + eapply wp_try_ask; try done; [by apply can_excl|]. exact (HA (fun _ => True) HP).
  - destruct Hcmd as [Hmode [->| ->]]; do 2 apply wp_bind; (eapply wp_ask_latch; try done; exact (HA (fun x => x = None) (fun x Hx => or_introl Hx))).
Qed.
End Req.

(** The claim at the own master. *)
Lemma wp_own_claim d sl mode sid rsn0 time0 ticks x Q kn m :
  can_ask d (lock_master d) sl mode -> x = None \/ mode = DRC_LOCK_EXCLUSIVE ->
  m !! (d, lock_master d) = Some (with_phase (PConv (new_request vw (lock_master d) sid mode rsn0 time0 ticks) [] x) sl) ->
  (forall kn', kn ⊆ kn' -> Q OG_SUCCESS kn' (<[(d, lock_master d) := granted_slot mode sl]> m)) ->
  WP (own_claim signed pad vw (lock_master d) d (new_request vw (lock_master d) sid mode rsn0 time0 ticks) version) Q kn m.
Proof. intros Hca Hx Hm HQ. unfold own_claim. apply wp_bind. eapply (wp_claim_end d _ sl mode sid); [done|exact Hx|exact Hm|done]. Qed.

(** [dls_request_lock]. *)
Lemma wp_dls_request_lock n d i sl mode sid rsn0 time0 ticks cmd Q kn m :
  can_ask d i sl mode -> m !! (d, i) = Some sl -> right_cmd d mode cmd -> requested OG_SUCCESS OG_ERROR d i sl mode Q kn m ->
  WP (dls_request_lock signed pad vw lock_master inst_count n i d (new_request vw i sid mode rsn0 time0 ticks) cmd) Q kn m.
Proof.
  intros Hca Hm Hcmd HQ. unfold dls_request_lock. cbn [req_version new_request].
  destruct (Z.eqb_spec (lock_master d) i) as [Hself|_]; [|by eapply wp_remote]. subst i. destruct HQ as [HE HS].
  pose proof (can_may _ _ _ _ sid rsn0 time0 ticks Hca) as Hmay. set (r := new_request vw (lock_master d) sid mode rsn0 time0 ticks) in *.
  apply wp_bind. eapply (wp_request_owner signed pad vw lock_master inst_count spin Hcount Hmaster Hcalm n d _ sl r); [done|done|..]; intros kn1 a Hk1 Hst.
  - rewrite Hst. cbn. by apply HE.
  - intros _. rewrite Hst. change (ok OG_SUCCESS) with true. cbn [negb]. apply wp_bind.
    assert (asked_all d (lock_master d) sl r (fun st => wp Inv (exhausted signed pad)
      (if negb (ok st) then Ret st else own_claim signed pad vw (lock_master d) d r version) Q) (fun x => x = None) kn1 m) as HA.
    { split; intros kn2.
      - intros Hk2. cbn. rewrite (ask_idle _ _ _ _ Hmay), insert_id by done. apply HE. by etrans.
      - intros x Hk2 ->. change (negb (ok OG_SUCCESS)) with false. cbv iota. eapply (wp_own_claim d sl mode sid); [done|by left|by rewrite lookup_insert_eq|].
        intros kn3 Hk3. rewrite insert_insert_eq. apply HS. by etrans; [|etrans]. }
    destruct (lr_granted a) eqn:Hg.
    + rewrite conv_granted by done. cbn. by apply HA.
    + rewrite conv_refused by done. pose proof (can_spin _ _ _ _ Hca). destruct Hca.
      eapply (wp_own_holders d _ sl r); try done; [by rewrite lookup_insert_eq|by apply asked_all_insert].
Qed.

Lemma wp_request_loop d i sl mode cmd : can_ask d i sl mode -> right_cmd d mode cmd ->
  forall n sid timeout tt rt sp wt Q kn m, m !! (d, i) = Some sl ->
  (timeout = true -> forall kn', kn ⊆ kn' -> Q false kn' m) -> (forall kn', kn ⊆ kn' -> Q true kn' (<[(d, i) := granted_slot mode sl]> m)) ->
  WP (request_loop signed pad vw lock_master inst_count n i sid d mode cmd timeout tt rt sp wt) Q kn m.
Proof.
  intros Hca Hcmd. induction n as [|n IH]; intros sid timeout tt rt sp wt Q kn m Hm HN HY; [done|]. cbn [request_loop].
  apply wp_bind, wp_choose. intros rsn0. apply wp_bind, wp_choose. intros time0. apply wp_bind. eapply (wp_dls_request_lock n d i sl); [done..|]. split; intros kn1 Hk1.
  - change (ok OG_ERROR) with false. cbv iota. destruct (timeout && _) eqn:Et; [apply andb_prop in Et as [Et _]; by apply HN|].
    destruct (_ =? _); apply IH; try done; intros; (apply HN || apply HY); try done; by etrans.
  - by apply HY.
Qed.

(** [dls_try_request_lock]. *)
Lemma wp_try_holders n d i sl r map k : spin d = true -> can_ask d i sl (req_mode r) -> may_ask inst_count spin d i sl r ->
  lock_master d = i -> ins k -> k <> i -> (forall j, bm_mem map j <-> j = k) ->
  forall l Q kn m td, NoDup l -> (forall j, j ∈ l -> ins j) -> (forall j, j ∈ td -> j = k) ->
  asked_all d i sl r Q (fun _ => True) kn m ->
  (k ∈ l -> m !! (d, i) = Some (with_phase (PConv r td None) sl)) ->
  (k ∉ l -> exists x, m !! (d, i) = Some (with_phase (PConv r [] x) sl)) ->
  WP (try_holders signed pad vw n i d r version map l) Q kn m.
Proof.
  intros Hs Hca Hmay Hself Hk Hki Hb. pose proof (can_excl _ _ _ _ Hca Hs) as Hx. pose proof (can_spin _ _ _ _ Hca) as Hsp. destruct Hca as [_ _ Hreal _ _ Hty].
  induction l as [|j l IH]; intros Q kn m td Hnd Hin Htd HQ Hm1 Hm2; cbn [try_holders].
  - destruct Hm2 as (x & Hm); [apply not_elem_of_nil|]. cbn. rewrite <- (insert_id m _ _ Hm). by apply HQ.
  - apply NoDup_cons in Hnd as [Hjl Hnd]. assert (0 <= j < 64) as Hj64 by (pose proof (Hin j ltac:(by left)) as Hj; unfold DlsInv.ins in Hj; lia).
    assert (forall j, j ∈ l -> ins j) as Hin' by (intros j' ?; apply Hin; by right).
    destruct (drc_bitmap64_exist map j) eqn:Ex; cbn [negb].
    + apply bm_exist_spec, Hb in Ex as ->; [|done]. specialize (Hm1 ltac:(by left)). apply wp_bind.
      apply (wp_msg_try_release d i r Hreal Hsp Hty n i k td (with_phase (PConv r td None) sl)); [done..|]. split; intros kn1 Hk1.
      * change (ok OG_ERROR) with false. cbn [negb]. enough (WP (_ ← cancel_request signed pad (lock_master d) i d; Ret OG_ERROR) Q kn1 m) as W by (by rewrite Hself in W).
        eapply (wp_cancel_error d i sl r td); [exact Hm1|]. by eapply asked_all_known.
      * change (ok OG_SUCCESS) with true. cbn [negb]. apply (IH _ _ _ td); try done.
        -- apply asked_all_insert. by eapply asked_all_known.
        -- rewrite lookup_insert_eq, (less_conv r k _ td), filter_one by done. eauto.
    + assert (j <> k) as Hjk. { intros ->. rewrite (proj2 (bm_exist_spec map k Hj64)) in Ex; [done|]. by apply Hb. }
      apply (IH _ _ _ td); try done.
      * intros Hkl. apply Hm1. by right.
      * intros Hkl. apply Hm2. intros [?|?]%elem_of_cons; congruence.
Qed.

Lemma wp_try_request_lock n d i sl sid Q kn m :
  spin d = true -> can_ask d i sl DRC_LOCK_EXCLUSIVE -> m !! (d, i) = Some sl ->
  requested OG_SUCCESS OG_ERROR d i sl DRC_LOCK_EXCLUSIVE Q kn m ->
  WP (dls_try_request_lock signed pad vw lock_master inst_count n i sid d) Q kn m.
Proof.
  intros Hs Hca Hm HQ. unfold dls_try_request_lock. apply wp_bind, wp_choose. intros rsn0. apply wp_bind, wp_choose. intros time0.
  assert (right_cmd d DRC_LOCK_EXCLUSIVE MES_CMD_TRY_REQUEST_LOCK) as Hcmd by (unfold right_cmd; rewrite Hs; by right).
  destruct (Z.eqb_spec (lock_master d) i) as [Hself|_]; [|by eapply wp_remote]. subst i. destruct HQ as [HE HS].
  pose proof (can_may _ _ _ _ sid rsn0 time0 OG_INVALID_ID32 Hca) as Hmay.
  set (r := new_request vw (lock_master d) sid DRC_LOCK_EXCLUSIVE rsn0 time0 OG_INVALID_ID32) in *.
  apply wp_bind. eapply (wp_try_request signed pad vw lock_master inst_count spin Hcount Hmaster Hcalm d _ sl r); [done|done|done|..]; intros kn1 a Hk1 Hst.
  - rewrite Hst. cbn. by apply HE.
  - intros H1. rewrite Hst. change (ok OG_SUCCESS) with true. cbn [negb]. apply wp_bind.
    assert (asked_all d (lock_master d) sl r (fun st => wp Inv (exhausted signed pad)
      (if negb (ok st) then Ret st else own_claim signed pad vw (lock_master d) d r version) Q) (fun _ => True) kn1 m) as HA.
    { split; intros kn2.
      - intros Hk2. cbn. rewrite (ask_idle _ _ _ _ Hmay), insert_id by done. apply HE. by etrans.
      - intros x Hk2 _. change (negb (ok OG_SUCCESS)) with false. cbv iota.
        eapply (wp_own_claim d sl DRC_LOCK_EXCLUSIVE sid); [done|by right|by rewrite lookup_insert_eq|].
        intros kn3 Hk3. rewrite insert_insert_eq. apply HS. by etrans; [|etrans]. }
    destruct (lr_granted a) eqn:Hg; [rewrite conv_granted by done; cbn; by apply HA|]. rewrite conv_refused by done.
    destruct (H1 Hs Hg) as (k & Hk & Hb). assert (0 <= lock_master d < 64) as H64 by (pose proof (Hmaster d) as Hi; unfold DlsInv.ins in Hi; lia).
    destruct (drc_bitmap64_exist (lr_old_map a) (lock_master d)) eqn:Ex.
    + eapply (wp_cancel_error d _ sl r); [by rewrite lookup_insert_eq|]. by apply asked_all_insert.
    + assert (k <> lock_master d) as Hki. { intros ->. rewrite (proj2 (bm_exist_spec _ _ H64)) in Ex; [done|]. by apply Hb. }
      assert (k ∈ insts inst_count) as Hkl by by apply in_insts.
      eapply (wp_try_holders n d _ sl r (lr_old_map a) k); [done..| | | | | |].
      * apply NoDup_seqZ.
      * intros j. apply in_insts.
      * by apply others_one.
      * by apply asked_all_insert.
      * intros _. by rewrite lookup_insert_eq.
      * intros Hn. done.
Qed.
End Fun.
