(* ===== verification/DlsOps.v ===== *)
(** The latches and spin locks of the lock service: each function gives back
    what it takes, whatever other threads do meanwhile. *)

From S2P Require Import Prelude DrcBitmap DrcPool DrcResMap DrcGlobalRes DrcQueue DrcTable DrcReform DrcMapTab.
From S2P Require Import DrcLock DrcLockInv DrcLockThm DrcLocal DrcLocalThm Conc Dls DlsInv DlsThm DlsWp DlsMaster DlsFun.

Lemma u16_nonneg x : 0 <= u16 x.
Proof. unfold u16. by apply Z.mod_pos_bound. Qed.

(** Knowledge only grows, and known addresses stay. *)
Ltac sub :=
  first [done | match goal with H : ?x ⊆ ?z |- ?x ⊆ _ => transitivity z; [exact H|sub] end].
Ltac addr :=
  first [done | match goal with H : _ !! _ = Some ?a |- _ !! _ = Some ?a => eapply lookup_weaken; [exact H|sub] end].

(** A locked resource whose instance has the lock in the mode it notes. *)
Record idle_slot (sl : slot) : Prop := {
  is_phase : sl_phase sl = PIdle;
  is_mode : la_lock_mode (ll_latch (sl_body sl)) = sl_mode sl;
}.

Section Ops.
Context (signed : bool) (pad : list Z) (vw : view) (lock_master : drid -> Z) (inst_count : Z) (spin : drid -> bool).
Context (Hcount : inst_count <= 64) (Hmaster : forall d, ins inst_count (lock_master d)).
Context (Hcalm : forall d, DRC_STOP_DLS_REQ_FOR_REFORMING (v_trigger_version vw) vw d = false).
Implicit Types (s : cluster) (kn : addrs) (m o O : slots_of) (d : drid) (i k : Z) (r : drc_req_info) (sl : slot) (b : local_lock).
Notation ins := (ins inst_count).
Notation Inv := (cluster_inv signed pad lock_master inst_count spin).
Notation WP := (wp Inv (exhausted signed pad)).

(** ** Latches *)
Section Latch.
Context (i : Z) (d : drid) (Hi : ins i) (Hlatch : spin d = false) (Hty : dr_type d <> DR_TYPE_TABLE).

(** A latch may be in any state that fits the mode. *)
Lemma latch_body b md :
  (la_stat (ll_latch b) = LATCH_STATUS_X -> md = DRC_LOCK_EXCLUSIVE) -> (la_stat (ll_latch b) = LATCH_STATUS_S -> md <> DRC_LOCK_NULL) ->
  (la_stat (ll_latch b) = LATCH_STATUS_IX -> la_shared_count (ll_latch b) <> 0 -> md <> DRC_LOCK_NULL) -> body_ok (spin d) b md.
Proof. intros. split; try done. by rewrite Hlatch. Qed.

Lemma latch_body_x b : body_ok (spin d) b DRC_LOCK_EXCLUSIVE.
Proof. by apply latch_body. Qed.

Lemma latch_free b md :
  body_ok (spin d) b md -> la_lock_mode (ll_latch b) = md -> 0 <= la_shared_count (ll_latch b) ->
  la_stat (ll_latch b) ∈ [LATCH_STATUS_IDLE; LATCH_STATUS_S; LATCH_STATUS_IX; LATCH_STATUS_X] ->
  (la_stat (ll_latch b) = LATCH_STATUS_IDLE \/ la_stat (ll_latch b) = LATCH_STATUS_X -> la_shared_count (ll_latch b) = 0) ->
  free_ok (spin d) (ll_set_lock false b).
Proof. intros Hb <- Hc Hs Hn. split; try done; [by apply body_ok_lock|by rewrite Hlatch]. Qed.

Lemma can_latch sl mode : sl_phase sl = PIdle -> real_mode mode -> (mode = DRC_LOCK_SHARE -> sl_mode sl = DRC_LOCK_NULL) ->
  body_ok (spin d) (sl_body sl) mode -> can_ask inst_count spin d i sl mode.
Proof. intros. split; auto. Qed.

(** Taking a latch whose mode is had. *)
Lemma wp_take_exclusive a sl sid Q kn m :
  kn !! (d, Some i) = Some a -> m !! (d, i) = Some sl -> idle_slot sl -> sl_mode sl = DRC_LOCK_EXCLUSIVE ->
  la_shared_count (ll_latch (sl_body sl)) = 0 -> (forall kn', kn ⊆ kn' -> Q tt kn' (delete (d, i) m)) ->
  WP (take_exclusive i a sid) Q kn m.
Proof.
  intros Ha Hm [Hp Hmd] Hx Hc HQ. unfold take_exclusive. apply wp_bind.
  eapply wp_set_latch; [done|done|exact Hm|rewrite Hx; apply latch_body_x|]. intros kn1 Hk1. apply wp_bind.
  eapply wp_set_latch; [done|by eapply lookup_weaken|by rewrite lookup_insert_eq|cbn; rewrite Hx; apply latch_body_x|]. intros kn2 Hk2. apply wp_bind.
  assert (kn ⊆ kn2) as H2 by (by etrans).
  eapply wp_set_stat; [done|by eapply lookup_weaken|by rewrite lookup_insert_eq|by rewrite Hlatch|]. intros kn3 Hk3.
  assert (kn ⊆ kn3) as H3 by (by etrans).
  eapply wp_unlock; [done|by eapply lookup_weaken|by rewrite lookup_insert_eq|done|done| |].
  - eapply latch_free; [apply latch_body_x|cbn; congruence|cbn; lia|cbn; set_solver|done].
  - intros kn4 Hk4. replace (delete (d, i) _) with (delete (d, i) m) by map_solve. apply HQ. by etrans.
Qed.

Lemma wp_take_shared a sl sid ws Q kn m :
  kn !! (d, Some i) = Some a -> m !! (d, i) = Some sl -> idle_slot sl -> sl_mode sl <> DRC_LOCK_NULL ->
  la_shared_count (ll_latch (sl_body sl)) = 0 -> (forall kn', kn ⊆ kn' -> Q tt kn' (delete (d, i) m)) ->
  WP (take_shared i a sid ws) Q kn m.
Proof.
  intros Ha Hm [Hp Hmd] Hx Hc HQ. unfold take_shared. apply wp_bind.
  eapply wp_set_latch; [done|done|exact Hm|by apply latch_body|]. intros kn1 Hk1. apply wp_bind.
  eapply wp_set_latch; [done|by eapply lookup_weaken|by rewrite lookup_insert_eq|by apply latch_body|]. intros kn2 Hk2.
  assert (kn ⊆ kn2) as H2 by (by etrans). cbn [sl_body sl_mode sl_phase]. rewrite insert_insert_eq.
  assert (forall kn3 sl3, kn ⊆ kn3 -> idle_slot sl3 -> sl_mode sl3 <> DRC_LOCK_NULL -> la_stat (ll_latch (sl_body sl3)) = LATCH_STATUS_S ->
    la_shared_count (ll_latch (sl_body sl3)) = 1 -> WP (_ ← set_statx i a true true; unlock_resx i a) Q kn3 (<[(d, i) := sl3]> m)) as Hend.
  { intros kn3 sl3 H3 [Hp3 Hm3] Hn3 Hs3 Hc3. apply wp_bind.
    eapply wp_set_stat; [done|by eapply lookup_weaken|by rewrite lookup_insert_eq|by rewrite Hlatch|]. intros kn4 Hk4.
    assert (kn ⊆ kn4) as H4 by (by etrans).
    eapply wp_unlock; [done|by eapply lookup_weaken|by rewrite lookup_insert_eq|done|done| |].
    - eapply (latch_free _ (sl_mode sl3)); cbn; rewrite ?Hs3, ?Hc3; [apply latch_body; cbn; rewrite ?Hs3; done|done|lia|set_solver|].
      intros [?|?]; done.
    - intros kn5 Hk5. replace (delete (d, i) _) with (delete (d, i) m) by map_solve. apply HQ. by etrans. }
  apply wp_bind. destruct ws; [|by apply Hend].
  eapply wp_set_latch; [done|by eapply lookup_weaken|by rewrite lookup_insert_eq|by apply latch_body|]. intros kn3 Hk3.
  rewrite insert_insert_eq. apply Hend; try done. by etrans.
Qed.

Lemma wp_share_more a sl Q kn m :
  kn !! (d, Some i) = Some a -> m !! (d, i) = Some sl -> idle_slot sl -> sl_mode sl <> DRC_LOCK_NULL ->
  la_stat (ll_latch (sl_body sl)) = LATCH_STATUS_S -> (forall kn', kn ⊆ kn' -> Q tt kn' (delete (d, i) m)) ->
  WP (share_more i a) Q kn m.
Proof.
  intros Ha Hm [Hp Hmd] Hx Hs HQ. unfold share_more. apply wp_bind.
  eapply wp_set_latch; [done|done|exact Hm|apply latch_body; cbn; rewrite ?Hs; done|]. intros kn1 Hk1. apply wp_bind.
  eapply wp_set_stat; [done|by eapply lookup_weaken|by rewrite lookup_insert_eq|by rewrite Hlatch|]. intros kn2 Hk2.
  assert (kn ⊆ kn2) as H2 by (by etrans).
  eapply wp_unlock; [done|by eapply lookup_weaken|by rewrite lookup_insert_eq|done|done| |].
  - eapply (latch_free _ (sl_mode sl)); cbn; rewrite ?Hs; [apply latch_body; cbn; rewrite ?Hs; done|done|apply u16_nonneg|set_solver|].
    intros [?|?]; done.
  - intros kn3 Hk3. replace (delete (d, i) _) with (delete (d, i) m) by map_solve. apply HQ. by etrans.
Qed.

(** The waits only read. *)
Lemma wp_wait_latch a n Q : forall kn m, kn !! (d, Some i) = Some a -> (forall kn', kn ⊆ kn' -> Q tt kn' m) -> WP (wait_latch n i a) Q kn m.
Proof.
  induction n as [|n IH]; intros kn m Ha HQ; [done|]. cbn [wait_latch]. apply wp_bind. eapply wp_peek; [done|done|]. intros kn1 b Hk1.
  destruct (_ || _); [by apply HQ|]. apply IH; [by eapply lookup_weaken|]. intros. apply HQ. by etrans.
Qed.
Lemma wp_timed_wait a w n Q : forall c t kn m, kn !! (d, Some i) = Some a -> (forall kn' x, kn ⊆ kn' -> Q x kn' m) -> WP (timed_wait n i a w c t) Q kn m.
Proof.
  induction n as [|n IH]; intros c t kn m Ha HQ; [done|]. cbn [timed_wait]. apply wp_bind. eapply wp_peek; [done|done|]. intros kn1 b Hk1.
  assert (forall kn' x, kn1 ⊆ kn' -> Q x kn' m) as HQ1 by (intros; apply HQ; by etrans).
  assert (kn1 !! (d, Some i) = Some a) by (by eapply lookup_weaken).
  destruct (_ || _); [by apply HQ|]. destruct (_ <=? _); [by apply HQ|]. destruct (_ <=? _); by apply IH.
Qed.
Lemma wp_wait_shared a w n Q : forall c t kn m, kn !! (d, Some i) = Some a -> (forall kn' x, kn ⊆ kn' -> Q x kn' m) -> WP (wait_shared n i a w c t) Q kn m.
Proof.
  induction n as [|n IH]; intros c t kn m Ha HQ; [done|]. cbn [wait_shared]. apply wp_bind. eapply wp_peek; [done|done|]. intros kn1 b Hk1.
  assert (forall kn' x, kn1 ⊆ kn' -> Q x kn' m) as HQ1 by (intros; apply HQ; by etrans).
  assert (kn1 !! (d, Some i) = Some a) by (by eapply lookup_weaken).
  destruct (negb _); [by apply HQ|]. destruct (match w with Some w => _ | None => _ end); [by apply HQ|]. destruct (_ <=? _); by apply IH.
Qed.

Lemma locked_idle b : idle_slot (locked_slot b).
Proof. by split. Qed.

(** Requests for a latch whose resource is locked. *)
Lemma wp_latch_x n sid a b tt rt Q kn m :
  kn !! (d, Some i) = Some a -> requested true false d i (locked_slot b) DRC_LOCK_EXCLUSIVE Q kn (<[(d, i) := locked_slot b]> m) ->
  WP (dls_request_latch_x signed pad vw lock_master inst_count n i sid d true tt rt) Q kn (<[(d, i) := locked_slot b]> m).
Proof.
  intros Ha [HN HY]. unfold dls_request_latch_x. apply (wp_request_loop signed pad vw lock_master inst_count spin Hcount Hmaster Hcalm d i (locked_slot b)).
  - apply can_latch; [done|by right|done|apply latch_body_x].
  - unfold right_cmd. rewrite Hlatch. split; [done|by right].
  - by rewrite lookup_insert_eq.
  - by intros _.
  - done.
Qed.

Lemma wp_latch_s n sid a b tt rt Q kn m :
  kn !! (d, Some i) = Some a -> la_lock_mode (ll_latch b) = DRC_LOCK_NULL -> la_stat (ll_latch b) = LATCH_STATUS_IDLE ->
  requested true false d i (locked_slot b) DRC_LOCK_SHARE Q kn (<[(d, i) := locked_slot b]> m) ->
  WP (dls_request_latch_s signed pad vw lock_master inst_count n i sid d true tt rt) Q kn (<[(d, i) := locked_slot b]> m).
Proof.
  intros Ha Hn Hs [HN HY]. unfold dls_request_latch_s. apply (wp_request_loop signed pad vw lock_master inst_count spin Hcount Hmaster Hcalm d i (locked_slot b)).
  - apply can_latch; [done|by left|done|]. apply latch_body; cbn; rewrite Hs; done.
  - unfold right_cmd. rewrite Hlatch. split; [done|by left].
  - by rewrite lookup_insert_eq.
  - by intros _.
  - done.
Qed.

(** The slot after the mode is had. *)
Definition moded b (md : Z) : slot := mk_slot (ll_set_latch (la_set_mode md (ll_latch b)) (ll_set_lock true b)) md PIdle.
Lemma moded_same b : moded b (la_lock_mode (ll_latch b)) = locked_slot b.
Proof. by destruct b as [? ? ? ? ? ? []]. Qed.
Lemma moded_idle b md : idle_slot (moded b md).
Proof. by split. Qed.

Lemma wp_need_mode (a : Z) b (enough : Z -> bool) (mode : Z) (req : prog cluster bool) (Q : bool -> addrs -> slots_of -> Prop) kn m :
  kn !! (d, Some i) = Some a -> body_ok (spin d) b mode ->
  (enough (la_lock_mode (ll_latch b)) = false ->
   forall Q', requested true false d i (locked_slot b) mode Q' kn (<[(d, i) := locked_slot b]> m) -> WP req Q' kn (<[(d, i) := locked_slot b]> m)) ->
  (forall kn', kn ⊆ kn' -> Q false kn' (<[(d, i) := locked_slot b]> m)) ->
  (forall kn' md, kn ⊆ kn' -> md = mode \/ enough md = true -> Q true kn' (<[(d, i) := moded b md]> m)) ->
  WP (need_mode i a b enough mode req) Q kn (<[(d, i) := locked_slot b]> m).
Proof.
  intros Ha Hb Hreq HN HY. unfold need_mode. destruct (enough (la_lock_mode (ll_latch b))) eqn:He.
  - rewrite <- moded_same. cbn. apply HY; [done|by right].
  - apply wp_bind, (Hreq eq_refl). split; intros kn1 Hk1; [by apply HN|]. rewrite insert_insert_eq. apply wp_bind.
    eapply wp_set_latch; [done|by eapply lookup_weaken|by rewrite lookup_insert_eq|..].
    + cbn. destruct Hb. apply latch_body; done.
    + intros kn2 Hk2. rewrite insert_insert_eq. cbn. apply (HY kn2 mode); [by etrans|by left].
Qed.

(** From shared to exclusive. *)
Lemma wp_ix2x sid a limit rt n Q : forall c t kn m, kn !! (d, Some i) = Some a -> (forall kn' x, kn ⊆ kn' -> Q x kn' m) ->
  WP (ix2x signed pad vw lock_master inst_count n i sid d a limit rt c t) Q kn m.
Proof.
  induction n as [|n IH]; intros c t kn m Ha HQ; [done|]. cbn [ix2x]. apply wp_bind, wp_wait_shared; [done|]. intros kn1 [[c1 t1]|] Hk1; [|by apply HQ].
  apply wp_bind, wp_get; [done|]. intros kn2 a' Hk2 Ha'. assert (kn ⊆ kn2) as H2 by (by etrans).
  assert (a' = a) as ->. { eapply lookup_weaken in Ha; [|exact H2]. congruence. }
  apply wp_bind. eapply wp_lock; [done|done|]. intros kn3 b Hk3 Hm Hf. apply wp_bind.
  assert (kn3 !! (d, Some i) = Some a) as Ha3 by (by eapply lookup_weaken).
  eapply wp_read; [done|done|by rewrite lookup_insert_eq|]. intros kn4 Hk4. cbn [sl_body locked_slot].
  change (ll_latch (ll_set_lock true b)) with (ll_latch b). assert (kn4 !! (d, Some i) = Some a) as Ha4 by (by eapply lookup_weaken).
  assert (kn ⊆ kn4) as H4 by (by etrans; [|etrans]).
  assert (forall kn5, kn4 ⊆ kn5 -> WP (_ ← unlock_resx i a; ix2x signed pad vw lock_master inst_count n i sid d a limit rt c1 t1) Q kn5 (<[(d, i) := locked_slot b]> m)) as Hagain.
  { intros kn5 Hk5. apply wp_bind, wp_unlock_same; [done|by eapply lookup_weaken|done|done|]. intros kn6 Hk6.
    apply IH; [eapply lookup_weaken; [exact Ha4|by etrans]|]. intros. apply HQ. by etrans; [|etrans; [|etrans]]. }
  apply wp_bind. destruct (Z.eqb_spec (la_shared_count (ll_latch b)) 0) as [Hc|Hc]; [|by apply Hagain].
  eapply wp_latch_x; [done|]. split; intros kn5 Hk5; [by apply Hagain|]. rewrite insert_insert_eq.
  assert (kn5 !! (d, Some i) = Some a) as Ha5 by (by eapply lookup_weaken). apply wp_bind.
  eapply wp_set_latch; [done|done|by rewrite lookup_insert_eq|cbn; apply latch_body_x|]. intros kn6 Hk6. apply wp_bind.
  eapply wp_set_latch; [done|by eapply lookup_weaken|by rewrite lookup_insert_eq|cbn; apply latch_body_x|]. intros kn7 Hk7. apply wp_bind.
  assert (kn5 ⊆ kn7) as H7 by (by etrans).
  eapply wp_set_latch; [done|by eapply lookup_weaken|by rewrite lookup_insert_eq|cbn; apply latch_body_x|]. intros kn8 Hk8. apply wp_bind.
  assert (kn5 ⊆ kn8) as H8 by (by etrans).
  eapply wp_set_stat; [done|by eapply lookup_weaken|by rewrite lookup_insert_eq|by rewrite Hlatch|]. intros kn9 Hk9. apply wp_bind.
  assert (kn5 ⊆ kn9) as H9 by (by etrans).
  eapply wp_unlock; [done|by eapply lookup_weaken|by rewrite lookup_insert_eq|done|done| |].
  - eapply latch_free; [apply latch_body_x|done|cbn; lia|cbn; set_solver|done].
  - intros kn10 Hk10. cbn. replace (delete (d, i) _) with m by map_solve. apply HQ. by etrans; [|etrans; [|etrans]].
Qed.

(** The part the loops share: the resource is found, locked and read. *)
Lemma wp_open {B} (k : Z -> local_lock -> prog cluster B) (Q : B -> addrs -> slots_of -> Prop) kn m :
  (forall kn' a b, kn ⊆ kn' -> kn' !! (d, Some i) = Some a -> m !! (d, i) = None -> free_ok (spin d) b ->
     WP (k a (ll_set_lock true b)) Q kn' (<[(d, i) := locked_slot b]> m)) ->
  WP (a ← get_resx signed pad i d; _ ← lock_resx i a; b ← read_resx i a; k a b) Q kn m.
Proof.
  intros H. apply wp_bind, wp_get; [done|]. intros kn1 a Hk1 Ha. apply wp_bind. eapply wp_lock; [done|done|]. intros kn2 b Hk2 Hm Hf.
  apply wp_bind. eapply wp_read; [done|by eapply lookup_weaken|by rewrite lookup_insert_eq|]. intros kn3 Hk3. cbn [sl_body locked_slot].
  apply H; [by etrans; [|etrans]|eapply lookup_weaken; [exact Ha|by etrans]|done|done].
Qed.

Lemma wp_unlock_then {B} a b (p : prog cluster B) Q kn m :
  kn !! (d, Some i) = Some a -> m !! (d, i) = None -> free_ok (spin d) b -> (forall kn', kn ⊆ kn' -> WP p Q kn' m) ->
  WP (_ ← unlock_resx i a; p) Q kn (<[(d, i) := locked_slot b]> m).
Proof. intros. by apply wp_bind, wp_unlock_same. Qed.

(** A shared latch is to become exclusive. *)
Lemma wp_to_ix {B} a b (p : prog cluster B) Q kn m :
  kn !! (d, Some i) = Some a -> m !! (d, i) = None -> free_ok (spin d) b -> la_stat (ll_latch b) = LATCH_STATUS_S ->
  (forall kn', kn ⊆ kn' -> WP p Q kn' m) ->
  WP (_ ← set_latchx i a (la_set_stat LATCH_STATUS_IX); _ ← unlock_resx i a; p) Q kn (<[(d, i) := locked_slot b]> m).
Proof.
  intros Ha Hm Hf Hs HQ. pose proof (bo_s _ _ _ (fo_body _ _ Hf) Hs) as Hn.
  assert (body_ok (spin d) (ll_set_latch (la_set_stat LATCH_STATUS_IX (ll_latch b)) (ll_set_lock true b)) (la_lock_mode (ll_latch b))) as Hb
    by (by apply latch_body).
  apply wp_bind. eapply wp_set_latch; [done|done|by rewrite lookup_insert_eq|exact Hb|]. intros kn1 Hk1. rewrite insert_insert_eq.
  apply wp_bind. eapply wp_unlock; [done|by eapply lookup_weaken|by rewrite lookup_insert_eq|done|done| |].
  - eapply latch_free; [exact Hb|done|apply Hf|cbn; set_solver|]. cbn. intros [?|?]; done.
  - intros kn2 Hk2. rewrite delete_insert_id by done. apply HQ. by etrans.
Qed.

(** Where a latch stands when its resource is locked. *)
Lemma idle_count b : free_ok (spin d) b -> la_stat (ll_latch b) = LATCH_STATUS_IDLE -> la_shared_count (ll_latch b) = 0.
Proof. intros Hf Hs. apply (fo_none _ _ Hf). by left. Qed.

Lemma is_x_eq md : is_x md = true -> md = DRC_LOCK_EXCLUSIVE.
Proof. apply Z.eqb_eq. Qed.
Lemma not_null_ne md : not_null md = true -> md <> DRC_LOCK_NULL.
Proof. unfold not_null. by intros ?%negb_true_iff%Z.eqb_neq. Qed.
Lemma null_eq md : not_null md = false -> md = DRC_LOCK_NULL.
Proof. unfold not_null. by intros ?%negb_false_iff%Z.eqb_eq. Qed.

(** The mode for a shared use of a latch, had or asked for. *)
Lemma wp_mode_x {B} n sid a b tt rt (p : bool -> prog cluster B) Q kn m :
  kn !! (d, Some i) = Some a -> (forall kn', kn ⊆ kn' -> WP (p false) Q kn' (<[(d, i) := locked_slot b]> m)) ->
  (forall kn', kn ⊆ kn' -> WP (p true) Q kn' (<[(d, i) := moded b DRC_LOCK_EXCLUSIVE]> m)) ->
  WP (got ← need_mode i a (ll_set_lock true b) is_x DRC_LOCK_EXCLUSIVE (dls_request_latch_x signed pad vw lock_master inst_count n i sid d true tt rt);
      p got) Q kn (<[(d, i) := locked_slot b]> m).
Proof.
  intros Ha HN HY. apply wp_bind. apply (wp_need_mode a b is_x); [done|apply latch_body_x|..]; try done.
  - intros _ Q' HQ'. by eapply wp_latch_x.
  - intros kn' md Hk [->|Hx%is_x_eq]; [by apply HY|]. rewrite Hx. by apply HY.
Qed.
Lemma wp_mode_s {B} n sid a b tt rt (p : bool -> prog cluster B) Q kn m :
  kn !! (d, Some i) = Some a -> la_stat (ll_latch b) = LATCH_STATUS_IDLE ->
  (forall kn', kn ⊆ kn' -> WP (p false) Q kn' (<[(d, i) := locked_slot b]> m)) ->
  (forall kn' md, kn ⊆ kn' -> md <> DRC_LOCK_NULL -> WP (p true) Q kn' (<[(d, i) := moded b md]> m)) ->
  WP (got ← need_mode i a (ll_set_lock true b) not_null DRC_LOCK_SHARE (dls_request_latch_s signed pad vw lock_master inst_count n i sid d true tt rt);
      p got) Q kn (<[(d, i) := locked_slot b]> m).
Proof.
  intros Ha Hs HN HY. apply wp_bind. apply (wp_need_mode a b not_null); [done| |..]; try done.
  - apply latch_body; rewrite Hs; done.
  - intros Hn Q' HQ'. eapply wp_latch_s; [done| |done|done]. by apply null_eq.
  - intros kn' md Hk [->|?%not_null_ne]; by apply HY.
Qed.

(** *** The functions *)

(** After a mode is had the latch is taken. *)
Lemma wp_took_x a b sid Q kn m :
  kn !! (d, Some i) = Some a -> m !! (d, i) = None -> free_ok (spin d) b -> la_stat (ll_latch b) = LATCH_STATUS_IDLE ->
  (forall kn', kn ⊆ kn' -> Q tt kn' m) -> WP (take_exclusive i a sid) Q kn (<[(d, i) := moded b DRC_LOCK_EXCLUSIVE]> m).
Proof.
  intros Ha Hm Hf Hs HQ. eapply wp_take_exclusive; [done|by rewrite lookup_insert_eq|apply moded_idle|done|exact (idle_count b Hf Hs)|].
  intros. rewrite delete_insert_id by done. by apply HQ.
Qed.
Lemma wp_took_s a b sid ws md Q kn m :
  kn !! (d, Some i) = Some a -> m !! (d, i) = None -> free_ok (spin d) b -> la_stat (ll_latch b) = LATCH_STATUS_IDLE -> md <> DRC_LOCK_NULL ->
  (forall kn', kn ⊆ kn' -> Q tt kn' m) -> WP (take_shared i a sid ws) Q kn (<[(d, i) := moded b md]> m).
Proof.
  intros Ha Hm Hf Hs Hn HQ. eapply wp_take_shared; [done|by rewrite lookup_insert_eq|apply moded_idle|done|exact (idle_count b Hf Hs)|].
  intros. rewrite delete_insert_id by done. by apply HQ.
Qed.
Lemma wp_shared_more a b md Q kn m :
  kn !! (d, Some i) = Some a -> m !! (d, i) = None -> la_stat (ll_latch b) = LATCH_STATUS_S -> md <> DRC_LOCK_NULL ->
  (forall kn', kn ⊆ kn' -> Q tt kn' m) -> WP (share_more i a) Q kn (<[(d, i) := moded b md]> m).
Proof.
  intros Ha Hm Hs Hn HQ. eapply wp_share_more; [done|by rewrite lookup_insert_eq|apply moded_idle|done|done|].
  intros. rewrite delete_insert_id by done. by apply HQ.
Qed.

(** A shared latch is shared once more. *)
Lemma wp_share_again a b Q kn m :
  kn !! (d, Some i) = Some a -> m !! (d, i) = None -> free_ok (spin d) b -> la_stat (ll_latch b) = LATCH_STATUS_S ->
  (forall kn', kn ⊆ kn' -> Q tt kn' m) -> WP (share_more i a) Q kn (<[(d, i) := locked_slot b]> m).
Proof.
  intros Ha Hm Hf Hs HQ. rewrite <- moded_same. apply wp_shared_more; try done. by apply (bo_s _ _ _ (fo_body _ _ Hf)).
Qed.

(** The latch is not free: wait, then try again. *)
Lemma wp_wait_again {B} n a b (p : prog cluster B) Q kn m :
  kn !! (d, Some i) = Some a -> m !! (d, i) = None -> free_ok (spin d) b -> (forall kn', kn ⊆ kn' -> WP p Q kn' m) ->
  WP (_ ← unlock_resx i a; _ ← wait_latch n i a; p) Q kn (<[(d, i) := locked_slot b]> m).
Proof.
  intros Ha Hm Hf HQ. apply wp_unlock_then; [done..|]. intros kn1 Hk1. apply wp_bind, wp_wait_latch; [addr|]. intros kn2 Hk2. apply HQ. sub.
Qed.

Lemma wp_latch_x_loop sid n Q : forall kn m, (forall kn', kn ⊆ kn' -> Q tt kn' m) ->
  WP (latch_x_loop signed pad vw lock_master inst_count n i d sid) Q kn m.
Proof.
  induction n as [|n IH]; intros kn m HQ; [done|]. cbn [latch_x_loop]. apply wp_open. intros kn1 a b Hk1 Ha Hm Hf.
  change (ll_latch (ll_set_lock true b)) with (ll_latch b).
  assert (forall kn2, kn1 ⊆ kn2 -> WP (latch_x_loop signed pad vw lock_master inst_count n i d sid) Q kn2 m) as Hagain
    by (intros; apply IH; intros; apply HQ; sub).
  destruct (Z.eqb_spec (la_stat (ll_latch b)) LATCH_STATUS_IDLE) as [Hs|_]; [|destruct (Z.eqb_spec (la_stat (ll_latch b)) LATCH_STATUS_S) as [Hs|_]].
  - apply wp_mode_x; [done|intros kn2 Hk2..].
    + apply wp_unlock_then; [addr|done..|]. intros. apply Hagain. sub.
    + apply wp_took_x; [addr|done..|]. intros. apply HQ. sub.
  - apply wp_to_ix; [done..|]. intros kn2 Hk2. apply wp_bind, wp_ix2x; [addr|]. intros kn3 x Hk3. apply HQ. sub.
  - by apply wp_wait_again.
Qed.

Lemma wp_latch_s_loop sid n Q : forall kn m, (forall kn', kn ⊆ kn' -> Q tt kn' m) ->
  WP (latch_s_loop signed pad vw lock_master inst_count n i d sid false) Q kn m.
Proof.
  induction n as [|n IH]; intros kn m HQ; [done|]. cbn [latch_s_loop]. apply wp_open. intros kn1 a b Hk1 Ha Hm Hf.
  change (ll_latch (ll_set_lock true b)) with (ll_latch b). rewrite andb_false_r, orb_false_r.
  assert (forall kn2, kn1 ⊆ kn2 -> WP (latch_s_loop signed pad vw lock_master inst_count n i d sid false) Q kn2 m) as Hagain
    by (intros; apply IH; intros; apply HQ; sub).
  destruct (Z.eqb_spec (la_stat (ll_latch b)) LATCH_STATUS_IDLE) as [Hs|_]; [|destruct (Z.eqb_spec (la_stat (ll_latch b)) LATCH_STATUS_S) as [Hs|_]].
  - apply wp_mode_s; [done|done|intros kn2 Hk2|intros kn2 md Hk2 Hn].
    + apply wp_unlock_then; [addr|done..|]. intros. apply Hagain. sub.
    + apply wp_took_s; [addr|done..|]. intros. apply HQ. sub.
  - apply wp_share_again; try done. intros. apply HQ. sub.
  - by apply wp_wait_again.
Qed.

Lemma wp_latch_sx_loop sid n Q : forall kn m, (forall kn', kn ⊆ kn' -> Q tt kn' m) ->
  WP (latch_sx_loop signed pad vw lock_master inst_count n i d sid) Q kn m.
Proof.
  induction n as [|n IH]; intros kn m HQ; [done|]. cbn [latch_sx_loop]. apply wp_open. intros kn1 a b Hk1 Ha Hm Hf.
  change (ll_latch (ll_set_lock true b)) with (ll_latch b).
  assert (forall kn2, kn1 ⊆ kn2 -> WP (latch_sx_loop signed pad vw lock_master inst_count n i d sid) Q kn2 m) as Hagain
    by (intros; apply IH; intros; apply HQ; sub).
  destruct (Z.eqb_spec (la_stat (ll_latch b)) LATCH_STATUS_IDLE) as [Hs|_]; [|destruct (Z.eqb_spec (la_stat (ll_latch b)) LATCH_STATUS_S) as [Hs|_]].
  1,2: apply wp_mode_x; [done|intros kn2 Hk2..].
  - apply wp_unlock_then; [addr|done..|]. intros. apply Hagain. sub.
  - apply wp_took_s; [addr|done..|]. intros. apply HQ. sub.
  - apply wp_unlock_then; [addr|done..|]. intros. apply Hagain. sub.
  - apply wp_shared_more; [addr|done..|]. intros. apply HQ. sub.
  - by apply wp_wait_again.
Qed.

(** A change of a latch that is made while its resource is locked. *)
Lemma wp_rewrite a sl (f : drc_local_latch -> drc_local_latch) (g : drc_local_latch) Q kn m :
  kn !! (d, Some i) = Some a -> m !! (d, i) = Some sl -> f (ll_latch (sl_body sl)) = g ->
  body_ok (spin d) (ll_set_latch g (sl_body sl)) (sl_mode sl) ->
  (forall kn', kn ⊆ kn' -> Q tt kn' (<[(d, i) := mk_slot (ll_set_latch g (sl_body sl)) (sl_mode sl) (sl_phase sl)]> m)) ->
  WP (set_latchx i a f) Q kn m.
Proof. intros Ha Hm <- Hb HQ. by eapply wp_set_latch. Qed.

Lemma wp_gave_up a b Q kn m :
  kn !! (d, Some i) = Some a -> m !! (d, i) = None -> free_ok (spin d) b -> (forall kn', kn ⊆ kn' -> Q false kn' m) ->
  WP (request_failed i a) Q kn (<[(d, i) := locked_slot b]> m).
Proof.
  intros Ha Hm Hf HQ. unfold request_failed. apply wp_bind. eapply wp_set_stat; [done|done|by rewrite lookup_insert_eq|by rewrite Hlatch|]. intros kn1 Hk1.
  rewrite insert_insert_eq. apply wp_bind. eapply wp_unlock; [done|addr|by rewrite lookup_insert_eq|done|done| |].
  - destruct Hf as [_ [] ? ? ? _]. eapply latch_free; try done.
  - intros kn2 Hk2. rewrite delete_insert_id by done. apply HQ. sub.
Qed.

Lemma wp_back a Q kn m :
  kn !! (d, Some i) = Some a -> (forall kn', kn ⊆ kn' -> Q false kn' m) -> WP (back_to_shared i a) Q kn m.
Proof.
  intros Ha HQ. unfold back_to_shared. apply wp_bind. eapply wp_lock; [done|done|]. intros kn1 b Hk1 Hm Hf.
  set (st := if 0 <? la_shared_count (ll_latch b) then LATCH_STATUS_S else LATCH_STATUS_IDLE).
  assert (st = LATCH_STATUS_S /\ la_lock_mode (ll_latch b) <> DRC_LOCK_NULL \/ st = LATCH_STATUS_IDLE /\ la_shared_count (ll_latch b) = 0) as Hst.
  { subst st. destruct Hf as [_ [Hx Hs Hix _] Hc Hin Hn _]. destruct (Z.ltb_spec 0 (la_shared_count (ll_latch b))); [left|right; split; [done|lia]].
    split; [done|]. set_unfold. assert (~ (la_stat (ll_latch b) = LATCH_STATUS_IDLE \/ la_stat (ll_latch b) = LATCH_STATUS_X)) as Hno by (intros E%Hn; lia).
    destruct Hin as [E|[E|[E|E]]]; [tauto|by apply Hs|apply Hix; [done|lia]|tauto]. }
  assert (body_ok (spin d) (ll_set_latch (la_set_stat st (ll_latch b)) (ll_set_lock true b)) (la_lock_mode (ll_latch b))) as Hb.
  { apply latch_body; cbn; destruct Hst as [[-> ?]|[-> ?]]; done. }
  apply wp_bind. eapply (wp_rewrite _ _ _ (la_set_stat st (ll_latch b))); [addr|by rewrite lookup_insert_eq|reflexivity|exact Hb|]. intros kn2 Hk2. rewrite insert_insert_eq.
  apply wp_bind. eapply wp_unlock; [done|addr|by rewrite lookup_insert_eq|done|done| |].
  - eapply latch_free; [exact Hb|done|apply Hf|cbn|cbn]; clearbody st; destruct Hst as [[-> ?]|[-> ?]]; try done.
    + right. left.
    + left.
    + intros [?|?]; done.
  - intros kn3 Hk3. rewrite delete_insert_id by done. apply HQ. sub.
Qed.

Lemma wp_timed_s_loop sid rt wt n Q : forall c t kn m, (forall kn' x, kn ⊆ kn' -> Q x kn' m) ->
  WP (latch_timed_s_loop signed pad vw lock_master inst_count n i sid d false rt wt c t) Q kn m.
Proof.
  induction n as [|n IH]; intros c t kn m HQ; [done|]. cbn [latch_timed_s_loop]. apply wp_open. intros kn1 a b Hk1 Ha Hm Hf.
  change (ll_latch (ll_set_lock true b)) with (ll_latch b). rewrite andb_false_r, orb_false_r.
  destruct (Z.eqb_spec (la_stat (ll_latch b)) LATCH_STATUS_IDLE) as [Hs|_]; [|destruct (Z.eqb_spec (la_stat (ll_latch b)) LATCH_STATUS_S) as [Hs|_]].
  - apply wp_mode_s; [done|done|intros kn2 Hk2|intros kn2 md Hk2 Hn].
    + apply wp_gave_up; [addr|done..|]. intros. apply HQ. sub.
    + apply wp_bind, wp_took_s; [addr|done..|]. intros. apply HQ. sub.
  - apply wp_bind, wp_share_again; try done. intros. apply HQ. sub.
  - apply wp_unlock_then; [done..|]. intros kn2 Hk2. apply wp_bind, wp_timed_wait; [addr|]. intros kn3 [[c' t']|] Hk3; [apply IH; intros|]; apply HQ; sub.
Qed.

Lemma wp_timed_x_loop sid rt wt n Q : forall c t kn m, (forall kn' x, kn ⊆ kn' -> Q x kn' m) ->
  WP (latch_timed_x_loop signed pad vw lock_master inst_count n i sid d rt wt c t) Q kn m.
Proof.
  induction n as [|n IH]; intros c t kn m HQ; [done|]. cbn [latch_timed_x_loop]. apply wp_open. intros kn1 a b Hk1 Ha Hm Hf.
  change (ll_latch (ll_set_lock true b)) with (ll_latch b).
  destruct (Z.eqb_spec (la_stat (ll_latch b)) LATCH_STATUS_IDLE) as [Hs|_]; [|destruct (Z.eqb_spec (la_stat (ll_latch b)) LATCH_STATUS_S) as [Hs|_]].
  - apply wp_mode_x; [done|intros kn2 Hk2..].
    + apply wp_gave_up; [addr|done..|]. intros. apply HQ. sub.
    + apply wp_bind, wp_took_x; [addr|done..|]. intros. apply HQ. sub.
  - apply wp_to_ix; [done..|]. intros kn2 Hk2. apply wp_bind, wp_ix2x; [addr|]. intros kn3 [|] Hk3; [apply HQ; sub|].
    apply wp_back; [addr|]. intros. apply HQ. sub.
  - apply wp_unlock_then; [done..|]. intros kn2 Hk2. apply wp_bind, wp_timed_wait; [addr|]. intros kn3 [[c' t']|] Hk3; [apply IH; intros|]; apply HQ; sub.
Qed.

(** [dls_unlatch]: the two steps together. *)
Definition unlatched (l : drc_local_latch) : drc_local_latch := idle_if_free (share_less l).
Lemma share_less_ok b md : free_ok (spin d) b -> la_lock_mode (ll_latch b) = md ->
  body_ok (spin d) (ll_set_latch (share_less (ll_latch b)) (ll_set_lock true b)) md.
Proof.
  intros [_ [Hx Hs Hix _] Hc Hin Hn _] <-. unfold share_less. destruct (Z.ltb_spec 0 (la_shared_count (ll_latch b))); apply latch_body; cbn; try done.
  intros E _. apply Hix; [done|lia].
Qed.
Lemma unlatched_ok b : free_ok (spin d) b -> free_ok (spin d) (ll_set_stat false true (ll_set_latch (unlatched (ll_latch b)) b)).
Proof.
  intros Hf. pose proof (share_less_ok b _ Hf eq_refl) as [Hx Hs Hix _]. destruct Hf as [Hl _ Hc Hin Hn _]. unfold unlatched, idle_if_free.
  assert (0 <= la_shared_count (share_less (ll_latch b))) as Hc'
    by (unfold share_less; destruct (Z.ltb_spec 0 (la_shared_count (ll_latch b))); [apply u16_nonneg|done]).
  assert (la_stat (share_less (ll_latch b)) = la_stat (ll_latch b) /\ la_lock_mode (share_less (ll_latch b)) = la_lock_mode (ll_latch b)) as [Es Em]
    by (unfold share_less; by destruct (_ <? _)).
  assert (la_stat (ll_latch b) = LATCH_STATUS_IDLE \/ la_stat (ll_latch b) = LATCH_STATUS_X -> la_shared_count (share_less (ll_latch b)) = 0) as Hn'.
  { intros E. unfold share_less. rewrite (Hn E). cbn. by apply Hn. }
  destruct (_ && _) eqn:E.
  - apply andb_prop in E as [_ E%Z.eqb_eq]. split; [done|by apply latch_body|done|cbn; left|done|by rewrite Hlatch].
  - cbn in Hx, Hs, Hix. split; [done|apply latch_body; cbn; rewrite ?Em; done|done|cbn; by rewrite Es|cbn; by rewrite Es|by rewrite Hlatch].
Qed.

Lemma wp_dls_unlatch Q kn m :
  dr_type d <> DR_TYPE_INVALID -> (forall kn', kn ⊆ kn' -> Q tt kn' m) -> WP (dls_unlatch signed pad i d) Q kn m.
Proof.
  intros Hd HQ. unfold dls_unlatch. apply wp_bind, wp_assert; [by apply negb_true_iff, Z.eqb_neq|]. intros kn1 Hk1.
  apply wp_bind, wp_get; [done|]. intros kn2 a Hk2 Ha. apply wp_bind. eapply wp_lock; [done|done|]. intros kn3 b Hk3 Hm Hf. apply wp_bind.
  eapply wp_rewrite; [addr|by rewrite lookup_insert_eq|reflexivity|exact (share_less_ok b _ Hf eq_refl)|]. intros kn4 Hk4. rewrite insert_insert_eq. apply wp_bind.
  pose proof (unlatched_ok b Hf) as Hu. assert (la_lock_mode (unlatched (ll_latch b)) = la_lock_mode (ll_latch b)) as Hmd
    by (unfold unlatched, idle_if_free, share_less; by destruct (_ <? _), (_ && _)).
  eapply (wp_rewrite _ _ _ (unlatched (ll_latch b))); [addr|by rewrite lookup_insert_eq|reflexivity| |].
  { destruct Hu as [_ [] _ _ _ _]. cbn in *. apply latch_body; cbn; rewrite <- Hmd; done. }
  intros kn5 Hk5. rewrite insert_insert_eq. apply wp_bind. eapply wp_set_stat; [done|addr|by rewrite lookup_insert_eq|by rewrite Hlatch|].
  intros kn6 Hk6. rewrite insert_insert_eq. eapply wp_unlock; [done|addr|by rewrite lookup_insert_eq|done|done| |].
  - destruct Hu as [Hl [] ? ? ? _]. split; try done. by rewrite Hlatch.
  - intros kn7 Hk7. rewrite delete_insert_id by done. apply HQ. sub.
Qed.
End Latch.

(** ** Spin locks *)
Section Spin.
Context (i : Z) (d : drid) (Hi : ins i) (Hspin : spin d = true) (Hty : dr_type d <> DR_TYPE_TABLE) (Hinv : dr_type d <> DR_TYPE_INVALID).

(** What the thread that has the spin lock owns. *)
Record spin_slot (sl : slot) : Prop := {
  ss_idle : idle_slot sl;
  ss_mode : sl_mode sl = DRC_LOCK_EXCLUSIVE;
  ss_stat : la_stat (ll_latch (sl_body sl)) = LATCH_STATUS_IDLE;
  ss_count : la_shared_count (ll_latch (sl_body sl)) = 0;
  ss_locked : ll_is_locked (sl_body sl) = true;
}.

(** A spin lock's latch is never taken. *)
Lemma spin_body b md : la_stat (ll_latch b) = LATCH_STATUS_IDLE -> ll_is_locked b = false \/ md = DRC_LOCK_EXCLUSIVE -> body_ok (spin d) b md.
Proof. intros Hs Hl. split; rewrite ?Hs; try done. intros _ E. destruct Hl; [congruence|done]. Qed.

Lemma spin_free b md : la_stat (ll_latch b) = LATCH_STATUS_IDLE -> la_shared_count (ll_latch b) = 0 -> ll_is_locked b = false ->
  la_lock_mode (ll_latch b) = (if ll_is_owner b then DRC_LOCK_EXCLUSIVE else DRC_LOCK_NULL) -> md = la_lock_mode (ll_latch b) ->
  free_ok (spin d) (ll_set_lock false b).
Proof.
  intros Hs Hc Hl Hm ->. split; try done.
  - apply body_ok_lock, spin_body; [done|by left].
  - cbn. lia.
  - cbn. rewrite Hs. left.
Qed.

Lemma spin_locked b : free_ok (spin d) b ->
  la_stat (ll_latch b) = LATCH_STATUS_IDLE /\ la_shared_count (ll_latch b) = 0 /\ ll_is_locked b = false /\
  la_lock_mode (ll_latch b) = (if ll_is_owner b then DRC_LOCK_EXCLUSIVE else DRC_LOCK_NULL).
Proof. intros [_ _ _ _ Hn Hs]. destruct (Hs Hspin) as (E & ? & ?). split_and!; try done. apply Hn. by left. Qed.

Lemma spin_can b : free_ok (spin d) b -> can_ask inst_count spin d i (locked_slot b) DRC_LOCK_EXCLUSIVE.
Proof. intros Hf. destruct (spin_locked b Hf) as (Hs & _). split; try done. by right. Qed.

(** The lock is noted: what the two functions do when they have it. *)
Lemma wp_spin_noted a sl Q kn m :
  kn !! (d, Some i) = Some a -> m !! (d, i) = Some sl -> sl_mode sl = DRC_LOCK_EXCLUSIVE -> sl_phase sl = PIdle ->
  la_stat (ll_latch (sl_body sl)) = LATCH_STATUS_IDLE -> la_shared_count (ll_latch (sl_body sl)) = 0 ->
  (forall kn' sl', kn ⊆ kn' -> spin_slot sl' -> Q tt kn' (<[(d, i) := sl']> m)) ->
  WP (_ ← set_latchx i a (la_set_mode DRC_LOCK_EXCLUSIVE); set_statx i a true true) Q kn m.
Proof.
  intros Ha Hm Hx Hp Hs Hc HQ. apply wp_bind. eapply wp_set_latch; [done|done|exact Hm|apply spin_body; [done|by right]|]. intros kn1 Hk1.
  eapply wp_set_stat; [done|addr|by rewrite lookup_insert_eq|done|]. intros kn2 Hk2. rewrite insert_insert_eq. apply HQ; [sub|]. by repeat split.
Qed.

Lemma wp_spin_lock n sid Q kn m :
  (forall kn' sl, kn ⊆ kn' -> m !! (d, i) = None -> spin_slot sl -> Q tt kn' (<[(d, i) := sl]> m)) ->
  WP (dls_spin_lock signed pad vw lock_master inst_count n i sid d) Q kn m.
Proof.
  intros HQ. unfold dls_spin_lock. apply wp_bind, wp_assert; [by apply negb_true_iff, Z.eqb_neq|]. intros kn0 Hk0.
  apply wp_bind, wp_get; [done|]. intros kn1 a Hk1 Ha. apply wp_bind. eapply wp_lock; [done|done|]. intros kn2 b Hk2 Hm Hf.
  apply wp_bind. eapply wp_read; [done|addr|by rewrite lookup_insert_eq|]. intros kn3 Hk3. cbn [sl_body locked_slot].
  change (ll_is_owner (ll_set_lock true b)) with (ll_is_owner b). destruct (spin_locked b Hf) as (Hs & Hc & _ & Hmd).
  assert (forall kn' sl', kn3 ⊆ kn' -> spin_slot sl' -> Q tt kn' (<[(d, i) := sl']> m)) as HQ' by (intros; apply HQ; [sub|done..]).
  apply wp_bind. destruct (ll_is_owner b); cbn [negb].
  - eapply wp_spin_noted; [addr|by rewrite lookup_insert_eq|done..|]. intros. rewrite insert_insert_eq. by apply HQ'.
  - apply wp_bind. eapply wp_request_loop; [done|done|done|by apply spin_can|unfold right_cmd; rewrite Hspin; by left|by rewrite lookup_insert_eq|done|].
    intros kn4 Hk4. rewrite insert_insert_eq. eapply wp_spin_noted; [addr|by rewrite lookup_insert_eq|done..|]. intros. rewrite insert_insert_eq.
    apply HQ'; [sub|done].
Qed.

(** The try lock: [false] leaves nothing behind. *)
Definition spun (Q : bool -> addrs -> slots_of -> Prop) kn m : Prop :=
  (forall kn', kn ⊆ kn' -> Q false kn' m) /\ (forall kn' sl, kn ⊆ kn' -> m !! (d, i) = None -> spin_slot sl -> Q true kn' (<[(d, i) := sl]> m)).

Lemma wp_spin_refused a b Q kn m :
  kn !! (d, Some i) = Some a -> m !! (d, i) = None -> free_ok (spin d) b -> ll_is_owner b = false -> (forall kn', kn ⊆ kn' -> Q false kn' m) ->
  WP (_ ← set_latchx i a (la_set_mode DRC_LOCK_NULL); _ ← set_statx i a false false; _ ← unlock_resx i a; Ret false) Q kn (<[(d, i) := locked_slot b]> m).
Proof.
  intros Ha Hm Hf Ho HQ. destruct (spin_locked b Hf) as (Hs & Hc & Hl & Hmd). rewrite Ho in Hmd. apply wp_bind.
  eapply wp_set_latch; [done|done|by rewrite lookup_insert_eq|apply spin_body; [done|by left]|]. intros kn1 Hk1. apply wp_bind.
  eapply wp_set_stat; [done|addr|by rewrite lookup_insert_eq|done|]. intros kn2 Hk2. rewrite !insert_insert_eq. apply wp_bind.
  eapply wp_unlock; [done|addr|by rewrite lookup_insert_eq|done|done|eapply spin_free; done|].
  intros kn3 Hk3. rewrite delete_insert_id by done. apply HQ. sub.
Qed.

Lemma wp_spin_try n sid Q kn m : spun Q kn m -> WP (dls_do_spin_try_lock signed pad vw lock_master inst_count n i sid d) Q kn m.
Proof.
  intros [HN HY]. unfold dls_do_spin_try_lock. apply wp_bind, wp_assert; [by apply negb_true_iff, Z.eqb_neq|]. intros kn0 Hk0.
  apply wp_bind, wp_get; [done|]. intros kn1 a Hk1 Ha. apply wp_bind. eapply wp_peek; [done|done|]. intros kn2 b0 Hk2.
  destruct (ll_is_locked b0); [apply HN; sub|]. apply wp_bind. eapply wp_try_lock; [done|addr|..]; [intros kn3 Hk3; apply HN; sub|].
  intros kn3 b Hk3 Hm Hf. cbn [negb]. apply wp_bind. eapply wp_read; [done|addr|by rewrite lookup_insert_eq|]. intros kn4 Hk4. cbn [sl_body locked_slot].
  change (ll_is_owner (ll_set_lock true b)) with (ll_is_owner b). change (ll_is_locked (ll_set_lock true b)) with (ll_is_locked b).
  destruct (spin_locked b Hf) as (Hs & Hc & Hl & Hmd). apply wp_bind, wp_assert; [by rewrite Hl|]. intros kn5 Hk5. apply wp_bind.
  assert (forall kn6 sl, kn5 ⊆ kn6 -> sl_mode sl = DRC_LOCK_EXCLUSIVE -> sl_phase sl = PIdle -> sl_body sl = ll_set_lock true b ->
    WP (_ ← set_latchx i a (la_set_mode DRC_LOCK_EXCLUSIVE); _ ← set_statx i a true true; Ret true) Q kn6 (<[(d, i) := sl]> m)) as Hgot.
  { intros kn6 sl Hk6 Hx Hp Hb. 
    change (WP ((_ ← set_latchx i a (la_set_mode DRC_LOCK_EXCLUSIVE); set_statx i a true true) ≫= fun _ => Ret true) Q kn6 (<[(d, i) := sl]> m)). apply wp_bind.
    eapply wp_spin_noted; [addr|by rewrite lookup_insert_eq|done|done|by rewrite Hb|by rewrite Hb|]. intros. rewrite insert_insert_eq. apply HY; [sub|done..]. }
  destruct (ll_is_owner b) eqn:Ho; cbn [negb].
  - change (negb (ok OG_SUCCESS)) with false. by apply Hgot.
  - eapply wp_try_request_lock; [done..|by apply spin_can|by rewrite lookup_insert_eq|]. split; intros kn6 Hk6.
    + change (negb (ok OG_ERROR)) with true. cbv iota. apply wp_spin_refused; [addr|done..|]. intros. apply HN. sub.
    + change (negb (ok OG_SUCCESS)) with false. cbv iota. rewrite insert_insert_eq. by apply Hgot.
Qed.

Lemma wp_spin_timed sid tt n Q : forall sp wt kn m, spun Q kn m -> WP (spin_timed_loop signed pad vw lock_master inst_count n i sid d tt sp wt) Q kn m.
Proof.
  induction n as [|n IH]; intros sp wt kn m HQ; [done|]. cbn [spin_timed_loop]. apply wp_bind, wp_spin_try. destruct HQ as [HN HY]. split.
  - intros kn1 Hk1. assert (spun Q kn1 m) by (split; intros; [apply HN|apply HY]; try done; sub).
    destruct (_ <=? _); [by apply HN|]. destruct (_ =? _); by apply IH.
  - intros. by apply HY.
Qed.

Lemma wp_spin_unlock sl Q kn m : m !! (d, i) = Some sl -> spin_slot sl -> (forall kn', kn ⊆ kn' -> Q tt kn' (delete (d, i) m)) ->
  WP (dls_spin_unlock signed pad i d) Q kn m.
Proof.
  intros Hm [[Hp Hmd] Hx Hs Hc _] HQ. unfold dls_spin_unlock. apply wp_bind, wp_assert; [by apply negb_true_iff, Z.eqb_neq|]. intros kn0 Hk0.
  apply wp_bind, wp_get; [done|]. intros kn1 a Hk1 Ha. apply wp_bind. eapply wp_set_stat; [done|done|exact Hm|done|]. intros kn2 Hk2.
  eapply wp_unlock; [done|addr|by rewrite lookup_insert_eq|done|done|eapply spin_free; try done; cbn; congruence|].
  intros kn3 Hk3. replace (delete (d, i) _) with (delete (d, i) m) by map_solve. apply HQ. sub.
Qed.
End Spin.
End Ops.
