(* ===== verification/DlsClient.v ===== *)
(** Sessions: what the threads of the instances do with the lock service, and
    that each of them keeps the invariant whatever the others do. *)

From S2P Require Import Prelude DrcBitmap DrcPool DrcResMap DrcGlobalRes DrcQueue DrcTable DrcReform DrcMapTab.
From S2P Require Import DrcLock DrcLockInv DrcLockThm DrcLocal DrcLocalThm Conc Dls DlsInv DlsThm DlsWp DlsMaster DlsFun DlsOps.

(** The calls of the lock service.  A session calls it in any order, with the
    answers of earlier calls in hand; what a spin lock protects is a session
    of its own, at whose end the lock is given back.  [Inside d] looks from
    within at who else has spin lock [d]. *)
Inductive latch_call :=
| LatchX | LatchS | LatchSX | LatchTimedX (wait_ticks release_ticks : Z) | LatchTimedS (wait_ticks release_ticks : Z) | Unlatch.
Inductive spin_call := SpinLock | SpinTryLock | SpinTimedLock (timeout_ticks : Z).
Inductive session :=
| Done
| Latch (c : latch_call) (sid : Z) (d : drid) (k : bool -> session)
| Spin (c : spin_call) (sid : Z) (d : drid) (body : session) (k : bool -> session)
| Inside (d : drid) (k : session).

Section Client.
Context (signed : bool) (pad : list Z) (vw : view) (lock_master : drid -> Z) (inst_count : Z).

(** The local lock resource of [d] at instance [i]. *)
Definition local_of (s : cluster) (i : Z) (d : drid) : option local_lock :=
  match cl_loc s !! i with
  | None => None
  | Some t => match drc_get_local_resx_without_create signed pad d t with
              | Ok (Some a) => match fm_get t a with Ok b => Some b | Crash _ => None end
              | _ => None
              end
  end.

(** What the master of [d] records of it. *)
Definition master_of (s : cluster) (d : drid) : option (Z * Z) :=
  match cl_mas s !! lock_master d with
  | None => None
  | Some t => match lock_lookup signed pad t d with
              | Ok (Some a) => match tb_get t a with Ok b => Some (lk_mode b, lk_granted_map b) | Crash _ => None end
              | _ => None
              end
  end.

(** Instance [i] has spin lock [d], and no other. *)
Definition is_spinning (s : cluster) (d : drid) (i : Z) : bool := match local_of s i d with Some b => ll_is_locked b | None => false end.
Definition spin_alone (s : cluster) (d : drid) (i : Z) : bool :=
  forallb (fun j => Bool.eqb (is_spinning s d j) (i =? j)) (insts inst_count).

(** What a session runs; [n] bounds the rounds of the loops.  A look that finds
    the lock elsewhere is a crash of its own. *)
Definition latch_prog (n : nat) (self : Z) (c : latch_call) (sid : Z) (d : drid) : prog cluster bool :=
  match c with
  | LatchX => _ ← dls_latch_x signed pad vw lock_master inst_count n self d sid; Ret true
  | LatchS => _ ← dls_latch_s signed pad vw lock_master inst_count n self d sid false; Ret true
  | LatchSX => _ ← dls_latch_sx signed pad vw lock_master inst_count n self d sid; Ret true
  | LatchTimedX w r => dls_latch_timed_x signed pad vw lock_master inst_count n self sid d w r
  | LatchTimedS w r => dls_latch_timed_s signed pad vw lock_master inst_count n self sid d w false r
  | Unlatch => _ ← dls_unlatch signed pad self d; Ret true
  end.
Definition spin_prog (n : nat) (self : Z) (c : spin_call) (sid : Z) (d : drid) : prog cluster bool :=
  match c with
  | SpinLock => _ ← dls_spin_lock signed pad vw lock_master inst_count n self sid d; Ret true
  | SpinTryLock => dls_do_spin_try_lock signed pad vw lock_master inst_count n self sid d
  | SpinTimedLock t => dls_spin_timed_lock signed pad vw lock_master inst_count n self sid d t
  end.
Definition look (self : Z) (d : drid) : prog cluster unit :=
  act (fun s => if spin_alone s d self then Ok (Some (tt, s)) else Crash BadAddr).
Fixpoint run (n : nat) (self : Z) (c : session) : prog cluster unit :=
  match c with
  | Done => Ret tt
  | Latch c sid d k => got ← latch_prog n self c sid d; run n self (k got)
  | Spin c sid d body k =>
      got ← spin_prog n self c sid d;
      if (got : bool) then _ ← run n self body; _ ← dls_spin_unlock signed pad self d; run n self (k true)
      else run n self (k false)
  | Inside d k => _ ← look self d; run n self k
  end.

(** A lock is used as a spin lock or as a latch; tables have a protocol of
    their own.  A session looks at the spin locks it has ([hs]). *)
Context (spin : drid -> bool).
Definition lock_type (d : drid) : Prop := dr_type d <> DR_TYPE_TABLE /\ dr_type d <> DR_TYPE_INVALID.
Fixpoint session_ok (hs : list drid) (c : session) : Prop :=
  match c with
  | Done => True
  | Latch _ _ d k => spin d = false /\ lock_type d /\ forall x, session_ok hs (k x)
  | Spin _ _ d body k => spin d = true /\ lock_type d /\ session_ok (d :: hs) body /\ forall x, session_ok hs (k x)
  | Inside d k => d ∈ hs /\ session_ok hs k
  end.

(** ** Sessions keep the invariant *)
Section Safe.
Context (Hcount : inst_count <= 64) (Hmaster : forall d, ins inst_count (lock_master d)).
Context (Hcalm : forall d, DRC_STOP_DLS_REQ_FOR_REFORMING (v_trigger_version vw) vw d = false).
Implicit Types (s : cluster) (kn : addrs) (m o O : slots_of) (d : drid) (i k : Z) (sl : slot).
Notation ins := (ins inst_count).
Notation cinv := (cinv signed pad lock_master inst_count spin).
Notation Inv := (cluster_inv signed pad lock_master inst_count spin).
Notation WP := (wp Inv (exhausted signed pad)).

Lemma local_of_rep s kn O LA lam MA mam i d : cinv s kn O LA lam MA mam -> ins i -> local_of s i d = LA i !! d.
Proof.
  intros I Hi. destruct (ci_loc _ _ _ _ _ _ _ _ _ _ _ _ I _ Hi) as (t & Sp & E & R). unfold local_of, drc_get_local_resx_without_create, loc_lookup, loc_bucket.
  rewrite E. destruct (LA i !! d) as [b|] eqn:Hb.
  - destruct (flat_open _ _ _ _ _ _ _ R Hb) as (a & Ha & -> & _). destruct (rep_entry signed pad _ _ _ _ _ _ R Ha) as (b' & Hb' & -> & _). congruence.
  - by destruct (flat_lookup_none _ _ _ _ _ _ R Hb) as [_ ->].
Qed.

Lemma master_of_rep s kn O LA lam MA mam d : cinv s kn O LA lam MA mam ->
  master_of s d = (fun ab => (lk_mode ab, lk_granted_map ab)) <$> MA (lock_master d) !! d.
Proof.
  intros I. destruct (ci_mas _ _ _ _ _ _ _ _ _ _ _ _ I _ (Hmaster d)) as (t & f & F & Sp & E & L). unfold master_of. rewrite E.
  destruct (MA (lock_master d) !! d) as [ab|] eqn:HM.
  - destruct (lock_step _ _ _ _ _ _ _ _ _ _ L HM) as (a & b & _ & _ & -> & -> & _ & _ & Hab & _). cbn. rewrite Hab. done.
  - by rewrite (lock_lookup_none _ _ _ _ _ _ _ _ _ L HM).
Qed.

Lemma spin_alone_ok s kn O LA lam MA mam d i sl :
  cinv s kn O LA lam MA mam -> spin d = true -> O !! (d, i) = Some sl -> spin_slot sl -> spin_alone s d i = true.
Proof.
  intros I Hs Ho Hsl. destruct (ci_own _ _ _ _ _ _ _ _ _ _ _ _ I _ _ _ Ho) as (Hi & Hb & _). apply forallb_forall. intros j Hj%list_elem_of_In.
  apply in_insts in Hj. apply eqb_true_iff. unfold is_spinning. rewrite (local_of_rep _ _ _ _ _ _ _ _ d I Hj). destruct (Z.eqb_spec i j) as [->|Hne].
  - rewrite Hb. by destruct Hsl.
  - destruct (LA j !! d) as [b|] eqn:Hbj; [|done]. apply not_true_is_false. intros Hl. apply Hne.
    eapply modes_exclusive; [exact I|unfold mode_at; rewrite Ho; by destruct Hsl|].
    rewrite (bo_spin _ _ _ (body_at _ _ _ _ _ _ _ _ _ _ _ _ I d j b Hj Hbj) Hs Hl). done.
Qed.

Lemma wp_look i d sl Q kn m :
  spin d = true -> m !! (d, i) = Some sl -> spin_slot sl -> (forall kn', kn ⊆ kn' -> Q tt kn' m) -> WP (look i d) Q kn m.
Proof.
  intros Hs Hm Hsl HQ s kn1 o Hk Hd (LA & lam & MA & mam & I). cbn.
  rewrite (spin_alone_ok _ _ _ _ _ _ _ d i sl I Hs (own_lookup _ _ _ _ Hm) Hsl). exists kn1, m. split_and!; [done|done|by eexists _, _, _, _|by apply HQ].
Qed.

Lemma wp_latch_prog n i c sid d Q kn m :
  ins i -> spin d = false -> lock_type d -> (forall kn' x, kn ⊆ kn' -> Q x kn' m) -> WP (latch_prog n i c sid d) Q kn m.
Proof.
  intros Hi Hs [Ht Hv] HQ. assert (negb (dr_type d =? DR_TYPE_INVALID) = true) as Ha by (by apply negb_true_iff, Z.eqb_neq).
  destruct c; cbn [latch_prog]; unfold dls_latch_x, dls_latch_s, dls_latch_sx, dls_latch_timed_x, dls_latch_timed_s.
  1,2,3: apply wp_bind, wp_bind, wp_assert; [done|]; intros kn1 Hk1.
  - apply wp_latch_x_loop; try done. intros. apply HQ. sub.
  - apply wp_latch_s_loop; try done. intros. apply HQ. sub.
  - apply wp_latch_sx_loop; try done. intros. apply HQ. sub.
  - apply wp_bind, wp_assert; [done|]. intros kn1 Hk1. apply wp_timed_x_loop; try done. intros. apply HQ. sub.
  - apply wp_bind, wp_assert; [done|]. intros kn1 Hk1. apply wp_timed_s_loop; try done. intros. apply HQ. sub.
  - apply wp_bind, wp_dls_unlatch; try done. intros. apply HQ. sub.
Qed.

Lemma wp_spin_prog n i c sid d Q kn m :
  ins i -> spin d = true -> lock_type d -> spun i d Q kn m -> WP (spin_prog n i c sid d) Q kn m.
Proof.
  intros Hi Hs [Ht Hv] HQ. destruct c; cbn [spin_prog].
  - apply wp_bind, wp_spin_lock; try done. intros. by apply HQ.
  - by apply wp_spin_try.
  - apply wp_bind, wp_assert; [by apply negb_true_iff, Z.eqb_neq|]. intros kn1 Hk1. apply wp_spin_timed; try done.
    destruct HQ as [HN HY]. split; intros; [apply HN|apply HY]; try done; sub.
Qed.

Lemma wp_session n i c : ins i -> forall hs Q kn m,
  session_ok hs c -> (forall d, d ∈ hs -> spin d = true /\ exists sl, m !! (d, i) = Some sl /\ spin_slot sl) ->
  (forall kn', kn ⊆ kn' -> Q tt kn' m) -> WP (run n i c) Q kn m.
Proof.
  intros Hi. induction c as [|c sid d k IH|c sid d body IHb k IH|d k IH]; intros hs Q kn m Hok Hhs HQ; cbn [run session_ok] in *.
  - by apply HQ.
  - destruct Hok as (Hs & Ht & Hk). apply wp_bind, wp_latch_prog; try done. intros kn1 x Hk1. eapply IH; [apply Hk|done|]. intros. apply HQ. sub.
  - destruct Hok as (Hs & Ht & Hb & Hk). apply wp_bind, wp_spin_prog; try done. split.
    + intros kn1 Hk1. eapply IH; [apply Hk|done|]. intros. apply HQ. sub.
    + intros kn1 sl Hk1 Hm Hsl. apply wp_bind. eapply IHb; [exact Hb| |].
      * intros d' [->|Hd']%elem_of_cons; [split; [done|]; exists sl; by rewrite lookup_insert_eq|].
        destruct (Hhs d' Hd') as (? & sl' & Hm' & ?). split; [done|]. exists sl'. split; [|done]. rewrite lookup_insert_ne; [done|congruence].
      * intros kn2 Hk2. destruct Ht. apply wp_bind. eapply wp_spin_unlock; try done; [by rewrite lookup_insert_eq|]. intros kn3 Hk3.
        rewrite delete_insert_id by done. eapply IH; [apply Hk|done|]. intros. apply HQ. sub.
  - destruct Hok as [Hd Hk]. destruct (Hhs d Hd) as (Hs & sl & Hm & Hsl). apply wp_bind. eapply wp_look; try done. intros kn1 Hk1.
    eapply IH; [exact Hk|done|]. intros. apply HQ. sub.
Qed.

(** ** The cluster *)

(** The instances start with empty tables. *)
Definition started s : Prop := forall i, ins i ->
  (exists t Sp, cl_loc s !! i = Some t /\ flat_rep (lock_hash signed pad) t ∅ ∅ Sp) /\
  (exists t f F Sp, cl_mas s !! i = Some t /\ lock_inv signed pad t ∅ f F Sp ∅).

Lemma started_inv s : started s -> Inv s ∅ ∅.
Proof.
  intros H. exists (fun _ => ∅), (fun _ => ∅), (fun _ => ∅), (fun _ => ∅). split; try done.
  - intros i Hi. by apply H.
  - intros i Hi. by apply H.
Qed.

(** The threads: session [c] at instance [i]. *)
Definition sessions_ok (l : list (Z * session)) : Prop := Forall (fun x => ins x.1 /\ session_ok [] x.2) l.
Definition threads (n : nat) (l : list (Z * session)) : list (prog cluster unit) := (fun x => run n x.1 x.2) <$> l.

Lemma threads_ok n l : sessions_ok l -> pool_ok Inv (exhausted signed pad) ∅ (threads n l) ∅.
Proof.
  induction 1 as [|[i c] l [Hi Hc] Hl IH]; cbn; [done|]. exists ∅, ∅. rewrite map_union_empty. split_and!; [done|apply map_disjoint_empty_l| |done].
  exists ∅. split; [done|]. by eapply wp_session; [|exact Hc|intros d ?%elem_of_nil|].
Qed.

(** A steady cluster, and a state its sessions reach. *)
Record steady : Prop := {
  st_count : inst_count <= 64;
  st_master : forall d, ins (lock_master d);
  st_calm : forall d, DRC_STOP_DLS_REQ_FOR_REFORMING (v_trigger_version vw) vw d = false;
}.
Definition reached n l s0 s ts : Prop := started s0 /\ sessions_ok l /\ rtc pool_step (s0, threads n l) (s, ts).

(** What every reachable state has. *)
Lemma reach_inv n l s0 s ts :
  reached n l s0 s ts -> exists kn O, Inv s kn O /\ pool_ok Inv (exhausted signed pad) kn ts O.
Proof. intros (Hs & Hl & Hr). eapply pool_safe; [by apply threads_ok|by apply started_inv|done]. Qed.
End Safe.
End Client.
