(* ===== verification/DlsProps.v ===== *)
(** The lock service is correct: the theorems about sessions of all instances
    that run at the same time, and small clusters they are applied to. *)

From S2P Require Import Prelude DrcBitmap DrcPool DrcResMap DrcGlobalRes DrcQueue DrcTable DrcReform DrcMapTab.
From S2P Require Import DrcLock DrcLockInv DrcLockThm DrcLockProps DrcLocal DrcLocalThm DrcLocalProps.
From S2P Require Import Conc Dls DlsInv DlsThm DlsWp DlsMaster DlsFun DlsOps DlsClient.

Section Theorems.
Context (signed : bool) (pad : list Z) (vw : view) (lock_master : drid -> Z) (inst_count : Z) (spin : drid -> bool).
Notation ins := (ins inst_count).
Notation steady := (steady vw lock_master inst_count).
Notation reached := (reached signed pad vw lock_master inst_count spin).
Notation local_of := (local_of signed pad).
Notation master_of := (master_of signed pad lock_master).

(** The catalogues of a reachable state. *)
Lemma reached_cinv n l s0 s ts : steady -> reached n l s0 s ts -> exists kn O LA lam MA mam,
  cinv signed pad lock_master inst_count spin s kn O LA lam MA mam /\ (forall d, ins (lock_master d)) /\
  (forall i d, ins i -> local_of s i d = LA i !! d).
Proof.
  intros [H1 H2 H3] Hr. destruct (reach_inv _ _ _ _ _ _ H1 H2 H3 _ _ _ _ _ Hr) as (kn & O & (LA & lam & MA & mam & I) & _).
  exists kn, O, LA, lam, MA, mam. split_and!; try done. intros. by eapply local_of_rep.
Qed.

(** C1: latches exclude each other across the cluster.  Sessions of any number
    run at up to 64 instances, each calling the latch and spin lock functions in
    any order; messages may fail to be sent, holders may refuse, requests queue
    and time out, every interleaving of the atomic actions is allowed.  In every
    state they reach, an instance whose latch is in the state exclusive is
    alone: at no other instance is the latch exclusive, shared, or on its way
    from shared to exclusive with readers left. *)
Theorem latch_exclusion n l s0 s ts d i j b c :
  steady -> reached n l s0 s ts -> ins i -> ins j -> i <> j ->
  local_of s i d = Some b -> local_of s j d = Some c -> la_stat (ll_latch b) = LATCH_STATUS_X ->
  la_stat (ll_latch c) <> LATCH_STATUS_X /\ la_stat (ll_latch c) <> LATCH_STATUS_S /\
  (la_stat (ll_latch c) = LATCH_STATUS_IX -> la_shared_count (ll_latch c) = 0).
Proof.
  intros Hst Hr Hi Hj Hij Hb Hc Hx. destruct (reached_cinv _ _ _ _ _ Hst Hr) as (kn & O & LA & lam & MA & mam & I & _ & HL).
  rewrite HL in Hb, Hc by done. pose proof (body_at _ _ _ _ _ _ _ _ _ _ _ _ I _ _ _ Hi Hb) as Bi.
  pose proof (body_at _ _ _ _ _ _ _ _ _ _ _ _ I _ _ _ Hj Hc) as [Bx Bs Bix _].
  assert (mode_at O LA d j = DRC_LOCK_NULL) as Hn.
  { destruct (decide (mode_at O LA d j = DRC_LOCK_NULL)) as [|Hne]; [done|]. destruct Hij. eapply modes_exclusive; [exact I|by apply Bi|done]. }
  rewrite Hn in *. split_and!; [by intros ?%Bx|by intros ?%Bs|].
  intros E. destruct (decide (la_shared_count (ll_latch c) = 0)) as [|Hne]; [done|]. by destruct (Bix E Hne).
Qed.

(** C2: the lock service does not crash.  In every state the sessions of a
    steady cluster reach, a thread whose next action crashes is in one of two
    places, and panics there: in [drc_get_local_resx] for a lock that has no
    local resource at the instance, whose own pool of local resources has no
    free item; or in [drc_request_lock_owner] for a lock the master has no
    resource of, the master's own pool of lock resources having no free item.
    No other action crashes, whatever the pools: no other check of the code
    fails, no address is bad, and no look from within a critical section finds
    its spin lock taken at another instance. *)
Theorem lock_service_safe n l s0 s ts p w :
  steady -> reached n l s0 s ts -> p ∈ ts -> crashing s p w -> allowed (exhausted signed pad) s p w.
Proof.
  intros [H1 H2 H3] Hr Hp Hc. destruct (reach_inv _ _ _ _ _ _ H1 H2 H3 _ _ _ _ _ Hr) as (kn & O & I & P).
  eapply (pool_no_crash _ _ s kn ts O ∅); [exact P|apply map_disjoint_empty_r|by rewrite map_union_empty|done..].
Qed.

(** C3: spin locks exclude each other across the cluster: in every state the
    sessions reach, a spin lock is marked as locked at one instance at most. *)
Theorem spin_exclusion n l s0 s ts d i j :
  steady -> reached n l s0 s ts -> spin d = true -> ins i -> ins j ->
  is_spinning signed pad s d i = true -> is_spinning signed pad s d j = true -> i = j.
Proof.
  intros Hst Hr Hs Hi Hj. destruct (reached_cinv _ _ _ _ _ Hst Hr) as (kn & O & LA & lam & MA & mam & I & _ & HL).
  unfold is_spinning. rewrite !HL by done. destruct (LA i !! d) as [b|] eqn:Hb; [|done]. destruct (LA j !! d) as [c|] eqn:Hc; [|done].
  intros Li Lj. eapply modes_exclusive; [exact I|by apply (bo_spin _ _ _ (body_at _ _ _ _ _ _ _ _ _ _ _ _ I _ _ _ Hi Hb))|].
  by rewrite (bo_spin _ _ _ (body_at _ _ _ _ _ _ _ _ _ _ _ _ I _ _ _ Hj Hc)).
Qed.

(** C4: what an instance believes to have, its master has recorded.  In every
    state the sessions reach, when the local resource of a lock is not locked
    by a thread and notes a mode, the master of the lock has the instance among
    the holders, in the same mode when that is the exclusive one; and two
    instances that both note a mode note the shared one. *)
Theorem mode_recorded n l s0 s ts d i b :
  steady -> reached n l s0 s ts -> ins i -> local_of s i d = Some b -> ll_lock b = false -> la_lock_mode (ll_latch b) <> DRC_LOCK_NULL ->
  exists mode map, master_of s d = Some (mode, map) /\ drc_bitmap64_exist map i = true /\
    (la_lock_mode (ll_latch b) = DRC_LOCK_EXCLUSIVE -> mode = DRC_LOCK_EXCLUSIVE) /\
    (forall j c, ins j -> j <> i -> local_of s j d = Some c -> ll_lock c = false -> la_lock_mode (ll_latch c) <> DRC_LOCK_NULL ->
       la_lock_mode (ll_latch b) = DRC_LOCK_SHARE /\ la_lock_mode (ll_latch c) = DRC_LOCK_SHARE).
Proof.
  intros Hst Hr Hi Hb Hl Hm. destruct (reached_cinv _ _ _ _ _ Hst Hr) as (kn & O & LA & lam & MA & mam & I & HM & HL).
  assert (forall j c, ins j -> LA j !! d = Some c -> ll_lock c = false -> mode_at O LA d j = la_lock_mode (ll_latch c)) as Hmode.
  { intros j c Hj Hc Hlc. unfold mode_at. destruct (O !! (d, j)) as [sl|] eqn:Ho; [|by rewrite Hc].
    destruct (ci_own _ _ _ _ _ _ _ _ _ _ _ _ I _ _ _ Ho) as (_ & E & El & _). congruence. }
  rewrite HL in Hb by done. pose proof (Hmode _ _ Hi Hb Hl) as Ei. rewrite (master_of_rep _ _ _ _ _ HM _ _ _ _ _ _ _ d I).
  pose proof (ci_proto _ _ _ _ _ _ _ _ _ _ _ _ I d) as P. destruct (MA (lock_master d) !! d) as [ab|]; cbn in P.
  2: { destruct P as [P _]. by rewrite P in Ei. }
  eexists _, _. split; [done|]. split_and!.
  - apply bm_exist_spec; [destruct Hst; unfold DlsInv.ins in *; lia|]. apply (pr_hold _ _ _ _ _ P). by rewrite Ei.
  - intros Hx. apply (pr_excl _ _ _ _ _ P i). by rewrite Ei.
  - intros j c Hj Hne Hc Hlc Hmc. rewrite HL in Hc by done. pose proof (Hmode _ _ Hj Hc Hlc) as Ej. rewrite <- Ei, <- Ej in *.
    split; [destruct (pr_mode _ _ _ _ _ P i) as [?|[?|Hx]]|destruct (pr_mode _ _ _ _ _ P j) as [?|[?|Hx]]]; try done; destruct Hne.
    + by rewrite (modes_exclusive _ _ _ _ _ _ _ _ _ _ _ _ I d i j Hx Hmc).
    + by rewrite (modes_exclusive _ _ _ _ _ _ _ _ _ _ _ _ I d j i Hx Hm).
Qed.
End Theorems.

(** ** A cluster of two instances

    Instance 1 is the master of all locks; each instance has room for four. *)
Definition demo_cluster : cluster := mk_cluster {[0 := demo_local0; 1 := demo_local0]} {[0 := demo_ltab; 1 := demo_ltab]}.
Definition demo_master (d : drid) : Z := 1.
Definition demo_threads := threads true demo_pad demo_lview demo_master 2 20.
Definition steps (n : nat) (k : nat) : list (nat * Z) := repeat (n, 1) k.
Definition demo_run (l : list (Z * session)) (sch : list (nat * Z)) := sched sch (demo_cluster, demo_threads l).
Notation demo_of := (local_of true demo_pad).

(** The state, readers and mode of the latch at an instance. *)
Definition demo_stat (s : cluster) (i : Z) : option (Z * Z * Z) :=
  (fun b => (la_stat (ll_latch b), la_shared_count (ll_latch b), la_lock_mode (ll_latch b))) <$> demo_of s i demo_lock.
Definition dlatch (c : latch_call) (k : session) : session := Latch c 7 demo_lock (fun _ => k).
Definition dspin (c : spin_call) (body k : session) : session := Spin c 7 demo_lock body (fun _ => k).

Lemma demo_steady : steady demo_lview demo_master 2.
Proof. by split. Qed.
Lemma demo_ins i : ins 2 i -> i = 0 \/ i = 1.
Proof. unfold ins. lia. Qed.
Lemma demo_started : started true demo_pad 2 demo_cluster.
Proof.
  destruct (flat_init (lock_hash true demo_pad) no_table 56 4) as (m & E & R & _); try done; [intros; by apply lock_hash_range|].
  assert (demo_local0 = m) as E0 by (unfold demo_local0; by rewrite E).
  intros i [->| ->]%demo_ins; (split; [exists m, ∅; split; [rewrite <- E0; reflexivity|exact R]|exists demo_ltab, 4, ∅, ∅; split; [reflexivity|exact demo_ltab_inv]]).
Qed.
Lemma demo_reached spin l sch : sessions_ok 2 spin l ->
  reached true demo_pad demo_lview demo_master 2 spin 20 l demo_cluster (demo_run l sch).1 (demo_run l sch).2.
Proof. intros Hl. split_and!; [exact demo_started|done|]. rewrite <- surjective_pairing. apply sched_steps. Qed.
Lemma demo_lock_type : lock_type demo_lock.
Proof. by split. Qed.

(** Instance 1 takes the latch shared and gives it back, then instance 0 takes
    it exclusively: the holder is told to give it up. *)
Definition two_latches : list (Z * session) := [(1, dlatch LatchS (dlatch Unlatch Done)); (0, dlatch LatchX Done)].
Definition two_state : cluster := (demo_run two_latches (steps 0 40 ++ steps 1 60)).1.
Lemma two_latches_ok : sessions_ok 2 (fun _ => false) two_latches.
Proof. repeat constructor; try done. Qed.
Lemma two_stats : demo_stat two_state 0 = Some (LATCH_STATUS_X, 0, DRC_LOCK_EXCLUSIVE) /\ demo_stat two_state 1 = Some (LATCH_STATUS_IDLE, 0, DRC_LOCK_NULL).
Proof. by vm_compute. Qed.

Lemma demo_stat_inv s i x : demo_stat s i = Some x -> exists b, demo_of s i demo_lock = Some b /\
  x = (la_stat (ll_latch b), la_shared_count (ll_latch b), la_lock_mode (ll_latch b)).
Proof. unfold demo_stat. destruct (demo_of s i demo_lock) as [b|]; [|done]. intros [= <-]. eauto. Qed.

Lemma latch_exclusion_witness : exists b c, demo_of two_state 0 demo_lock = Some b /\ demo_of two_state 1 demo_lock = Some c /\
  la_stat (ll_latch b) = LATCH_STATUS_X /\ la_stat (ll_latch c) <> LATCH_STATUS_S.
Proof.
  destruct two_stats as [H0 H1]. destruct (demo_stat_inv _ _ _ H0) as (b & Hb & Eb). destruct (demo_stat_inv _ _ _ H1) as (c & Hc & Ec).
  exists b, c. injection Eb as Ex _ _. split_and!; [exact Hb|exact Hc|exact (eq_sym Ex)|].
  apply (latch_exclusion true demo_pad demo_lview demo_master 2 (fun _ => false) 20 two_latches demo_cluster two_state
    (demo_run two_latches (steps 0 40 ++ steps 1 60)).2 demo_lock 0 1 b c demo_steady (demo_reached _ _ _ two_latches_ok));
    [by split|by split|discriminate|exact Hb|exact Hc|exact (eq_sym Ex)].
Defined.

Lemma mode_recorded_witness : exists b mode map, demo_of two_state 0 demo_lock = Some b /\
  master_of true demo_pad demo_master two_state demo_lock = Some (mode, map) /\ drc_bitmap64_exist map 0 = true.
Proof.
  destruct two_stats as [H0 _]. destruct (demo_stat_inv _ _ _ H0) as (b & Hb & Eb). injection Eb as _ _ Em.
  assert (ll_lock <$> demo_of two_state 0 demo_lock = Some false) as Hl by (by vm_compute). rewrite Hb in Hl. injection Hl as Hl.
  destruct (mode_recorded true demo_pad demo_lview demo_master 2 (fun _ => false) 20 two_latches demo_cluster two_state
    (demo_run two_latches (steps 0 40 ++ steps 1 60)).2 demo_lock 0 b demo_steady (demo_reached _ _ _ two_latches_ok)) as (mode & map & Hm & Hx & _);
    [by split|exact Hb|exact Hl|by rewrite <- Em|].
  exists b, mode, map. split_and!; [exact Hb|exact Hm|exact Hx].
Defined.

(** Instance 0 has the spin lock and looks around, instance 1 tries. *)
Definition two_spins : list (Z * session) := [(0, dspin SpinLock (Inside demo_lock Done) Done); (1, dspin SpinTryLock Done Done)].
Definition spin_state : cluster := (demo_run two_spins (steps 0 12 ++ steps 1 50)).1.
Lemma two_spins_ok : sessions_ok 2 (fun _ => true) two_spins.
Proof. repeat constructor; done. Qed.

Lemma spin_exclusion_witness : is_spinning true demo_pad spin_state demo_lock 0 = true /\ is_spinning true demo_pad spin_state demo_lock 1 = false.
Proof.
  assert (is_spinning true demo_pad spin_state demo_lock 0 = true) as H0 by (vm_compute; reflexivity). split; [exact H0|].
  destruct (is_spinning true demo_pad spin_state demo_lock 1) eqn:H1; [|reflexivity].
  pose proof (spin_exclusion true demo_pad demo_lview demo_master 2 (fun _ => true) 20 two_spins demo_cluster spin_state
    (demo_run two_spins (steps 0 12 ++ steps 1 50)).2 demo_lock 0 1 demo_steady (demo_reached _ _ _ two_spins_ok) eq_refl
    ltac:(by split) ltac:(by split) H0 H1) as E. discriminate E.
Defined.

(** A session that takes five latches at an instance with room for four. *)
Definition demo_latch (k : Z) : drid := mk_drid 7 1 k OG_INVALID_ID32 OG_INVALID_ID32 OG_INVALID_ID32 0.
Definition greedy : list (Z * session) := [(0, foldr (fun k c => Latch LatchX 7 (demo_latch k) (fun _ => c)) Done (seqZ 1 5))].
Definition greedy_run := demo_run greedy (steps 0 100).
Lemma greedy_ok : sessions_ok 2 (fun _ => false) greedy.
Proof. repeat constructor; done. Qed.

Lemma lock_service_safe_witness : exists p, p ∈ greedy_run.2 /\ crashing greedy_run.1 p Panic /\ allowed (exhausted true demo_pad) greedy_run.1 p Panic.
Proof.
  assert (greedy_run.2 !! 0%nat ≫= crash_of greedy_run.1 = Some Panic) as H by (vm_compute; reflexivity).
  destruct (greedy_run.2 !! 0%nat) as [p|] eqn:Ep; [|discriminate H]. pose proof (crash_of_ok _ _ _ H) as Hc. exists p.
  pose proof (list_elem_of_lookup_2 _ _ _ Ep) as Hp. split_and!; [exact Hp|exact Hc|].
  exact (lock_service_safe true demo_pad demo_lview demo_master 2 (fun _ => false) 20 greedy demo_cluster greedy_run.1 greedy_run.2
    p Panic demo_steady (demo_reached _ _ _ greedy_ok) Hp Hc).
Defined.

(** ** What the proviso of the sessions is for

    The sessions above take shared latches without [is_force]. *)
Definition forced : list (prog cluster unit) :=
  demo_threads [(1, dlatch LatchS (dlatch Unlatch Done)); (1, dlatch LatchX Done); (0, dlatch LatchX Done)] ++
  [dls_latch_s true demo_pad demo_lview demo_master 2 20 1 demo_lock 9 true].

(** [dls_latch_s] with [is_force] breaks the exclusion.  A session of
    instance 1 has the latch shared, a second one wants it exclusively and waits
    for the first; the first gives it back, instance 0 asks for the latch and
    instance 1, without readers, gives up its mode; then a session of instance
    1 that forces its way in has a shared latch, though the mode its instance
    has is null and instance 0 has the latch exclusively. *)
Theorem forced_share_breaks_exclusion :
  let s := (sched (steps 0 14 ++ steps 1 7 ++ steps 0 10 ++ steps 2 60 ++ steps 3 20) (demo_cluster, forced)).1 in
  demo_stat s 0 = Some (LATCH_STATUS_X, 0, DRC_LOCK_EXCLUSIVE) /\ demo_stat s 1 = Some (LATCH_STATUS_IX, 1, DRC_LOCK_NULL).
Proof. vm_compute. by split. Qed.
