(* ===== verification/RcReform.v ===== *)
(** The coordinator of a reform: how two status lists of the cluster manager
    become the lists of a reform
    (src/pkg/src/rc/rc_reform.c, rc_reform.h), how the cluster manager builds
    a status list and when it lets an instance start
    (src/pkg/src/cms/cms/cms_stat.c, src/pkg/src/cms/interface/cms_client.h).

    A status list is an array of 64 entries of which the first [sl_count] are
    used; an access outside of the array is a bad address.  The states are
    kept as numbers, as they index the table of the state machine. *)

From S2P Require Import Prelude DrcBitmap DrcReform.

(** ** Status lists *)

(** [cms_stat_t]. *)
Definition CMS_RES_UNKNOWN : Z := 0.
Definition CMS_RES_ONLINE : Z := 1.
Definition CMS_RES_OFFLINE : Z := 2.

(** [reform_work_state_t]. *)
Definition RC_JOINING : Z := 0.
Definition RC_JOINED : Z := 1.
Definition RC_LEAVING : Z := 2.
Definition RC_LEFT : Z := 3.

(** [reform_cms_state_t]. *)
Definition RC_CMS_ONLINE : Z := 0.
Definition RC_CMS_OFFLINE : Z := 1.

(** [cms_res_status_t]: the members the coordinator reads. *)
Record cms_res_status := mk_rstat { rs_inst : Z; rs_stat : Z; rs_work : Z }.

(** [cms_res_status_list_t]. *)
Record cms_res_status_list := mk_slist {
  sl_version : Z;
  sl_list : gmap Z cms_res_status;
  sl_count : Z;
  sl_master : Z;
}.

(** A list after [memset(.., 0, ..)]. *)
Definition zero_slist (version master : Z) : cms_res_status_list :=
  mk_slist version (filled OG_MAX_INSTANCES (mk_rstat 0 0 0)) 0 master.

(** What the cluster manager finds for a node id: no such node, a node whose
    status cannot be read, or the status of the resource on it. *)
Inductive cms_node := NoNode | NodeError | Node (inst stat work : Z).

(** [cms_get_cluster_res_list] over the nodes [0 ..] of the configuration. *)
Fixpoint cms_get_cluster_res_list (nodes : list cms_node) (l : cms_res_status_list) : outcome (option cms_res_status_list) :=
  match nodes with
  | [] => Ok (Some l)
  | NoNode :: nodes' => cms_get_cluster_res_list nodes' l
  | NodeError :: _ => Ok None
  | Node inst stat work :: nodes' =>
      let id := if stat =? CMS_RES_OFFLINE then 255 else u8 inst in
      m ← wr (sl_list l) (sl_count l) (fun _ => mk_rstat id stat work);
      cms_get_cluster_res_list nodes' (mk_slist (sl_version l) m (u8 (sl_count l + 1)) (sl_master l))
  end.

(** [is_cur_res_offline]. *)
Definition is_cur_res_offline (e : cms_res_status) : bool := (rs_stat e =? CMS_RES_OFFLINE) && (rs_work e =? RC_JOINING).

(** The loop of [cms_res_stat_steady] over the entries [i ..]. *)
Fixpoint steady_loop (n : nat) (i : Z) (m : gmap Z cms_res_status) : outcome bool :=
  match n with
  | O => Ok true
  | S n' =>
      e ← rd m i;
      if (rs_stat e =? CMS_RES_ONLINE) && negb (rs_work e =? RC_JOINED) then Ok false
      else if (rs_stat e =? CMS_RES_OFFLINE) && negb (rs_work e =? RC_JOINING) then Ok false
      else steady_loop n' (i + 1) m
  end.

(** [cms_res_stat_steady]; [node] is the node of this manager. *)
Definition cms_res_stat_steady (node : Z) (l : cms_res_status_list) : outcome bool :=
  e ← rd (sl_list l) node;
  if negb (is_cur_res_offline e) then Ok false else steady_loop (Z.to_nat (sl_count l)) 0 (sl_list l).

(** [cms_check_cluster_reform_stat] of the lists in RC_CMS_REMOTE_CURRENT and
    RC_CMS_REMOTE_TARGET: is the reform done?  [None]: one of them could not
    be read. *)
Definition cms_check_cluster_reform_stat (node : Z) (cur tgt : option cms_res_status_list) : outcome (option bool) :=
  match cur, tgt with
  | Some c, Some t =>
      if sl_version c <? sl_version t then Ok (Some false)
      else b ← cms_res_stat_steady node c; Ok (Some b)
  | _, _ => Ok None
  end.

(** [get_res_stat_by_inst_id]. *)
Fixpoint find_stat (n : nat) (i : Z) (m : gmap Z cms_res_status) (id : Z) : outcome (option cms_res_status) :=
  match n with
  | O => Ok None
  | S n' => e ← rd m i; if rs_inst e =? id then Ok (Some e) else find_stat n' (i + 1) m id
  end.
Definition get_res_stat_by_inst_id (l : cms_res_status_list) (id : Z) : outcome (option cms_res_status) :=
  find_stat (Z.to_nat (sl_count l)) 0 (sl_list l) id.

(** ** The lists of a reform *)

(** [reform_list_type_t] and the array [reform_list] of [reform_info_t]. *)
Inductive reform_list_type :=
| REFORM_LIST_BEFORE | REFORM_LIST_AFTER | REFORM_LIST_JOIN | REFORM_LIST_LEAVE | REFORM_LIST_ABORT | REFORM_LIST_FAIL.

#[export] Instance reform_list_type_eq_dec : EqDecision reform_list_type.
Proof. solve_decision. Defined.

Record reform_list := mk_rlist {
  rl_before : list Z; rl_after : list Z; rl_joins : list Z; rl_leaves : list Z; rl_aborts : list Z; rl_fails : list Z;
}.

Definition list_of (r : reform_list) (t : reform_list_type) : list Z :=
  match t with
  | REFORM_LIST_BEFORE => rl_before r | REFORM_LIST_AFTER => rl_after r | REFORM_LIST_JOIN => rl_joins r
  | REFORM_LIST_LEAVE => rl_leaves r | REFORM_LIST_ABORT => rl_aborts r | REFORM_LIST_FAIL => rl_fails r
  end.
Definition set_list (t : reform_list_type) (l : list Z) (r : reform_list) : reform_list :=
  let pick u := if decide (u = t) then l else list_of r u in
  mk_rlist (pick REFORM_LIST_BEFORE) (pick REFORM_LIST_AFTER) (pick REFORM_LIST_JOIN) (pick REFORM_LIST_LEAVE)
    (pick REFORM_LIST_ABORT) (pick REFORM_LIST_FAIL).

(** [rc_init_inst_list] of all of them. *)
Definition no_lists : reform_list := mk_rlist [] [] [] [] [] [].

(** [check_id_in_list]. *)
Fixpoint check_id_in_list (id : Z) (l : list Z) : bool :=
  match l with [] => false | x :: l' => if id =? x then true else check_id_in_list id l' end.

(** [add_id_to_list]: the array of a list has room for 64 instances. *)
Definition add_id_to_list (id : Z) (l : list Z) : outcome (list Z) :=
  if Z.of_nat (length l) <? OG_MAX_INSTANCES then Ok (l ++ [id]) else Crash BadAddr.

(** [reform_role_t] and [rc_get_role]. *)
Inductive reform_role := REFORM_ROLE_STAY | REFORM_ROLE_JOIN | REFORM_ROLE_LEAVE | REFORM_ROLE_ABORT | REFORM_ROLE_FAIL.

#[export] Instance reform_role_eq_dec : EqDecision reform_role.
Proof. solve_decision. Defined.

Definition rc_get_role (r : reform_list) (id : Z) : reform_role :=
  if check_id_in_list id (rl_aborts r) then REFORM_ROLE_ABORT
  else if check_id_in_list id (rl_fails r) then REFORM_ROLE_FAIL
  else if check_id_in_list id (rl_leaves r) then REFORM_ROLE_LEAVE
  else if check_id_in_list id (rl_joins r) then REFORM_ROLE_JOIN
  else REFORM_ROLE_STAY.

(** [reform_mode_t] and [rc_get_change_mode]. *)
Inductive reform_mode := REFORM_MODE_NONE | REFORM_MODE_PLANED | REFORM_MODE_OUT_OF_PLAN.

#[export] Instance reform_mode_eq_dec : EqDecision reform_mode.
Proof. solve_decision. Defined.

Definition rc_get_change_mode (r : reform_list) : reform_mode :=
  if negb (bool_decide (rl_aborts r = [])) || negb (bool_decide (rl_fails r = [])) then REFORM_MODE_OUT_OF_PLAN
  else REFORM_MODE_PLANED.

(** ** The state machine *)

(** [reform_action_info_t]. *)
Record reform_action_info := mk_action {
  enque_list : list reform_list_type; enque_count : Z; member_change : bool; happen_assert : bool;
}.

Definition act_none : reform_action_info := mk_action [] 0 false false.
Definition act_assert : reform_action_info := mk_action [] 0 false true.
Definition act_join : reform_action_info := mk_action [REFORM_LIST_AFTER; REFORM_LIST_JOIN] 2 true false.
Definition act_stay : reform_action_info := mk_action [REFORM_LIST_BEFORE; REFORM_LIST_AFTER] 2 false false.
Definition act_abort : reform_action_info := mk_action [REFORM_LIST_BEFORE; REFORM_LIST_ABORT] 2 true false.
Definition act_leave : reform_action_info := mk_action [REFORM_LIST_BEFORE; REFORM_LIST_LEAVE] 2 true false.
Definition act_after : reform_action_info := mk_action [REFORM_LIST_AFTER] 1 false false.
Definition act_before : reform_action_info := mk_action [REFORM_LIST_BEFORE] 1 false false.

(** [g_reform_sm], indexed by the states of the resource and then by the work
    states, each before and after. *)
Definition g_reform_sm : list (list (list (list reform_action_info))) :=
  [ [ (* from: ONLINE to: ONLINE *)
      [ [act_join; act_stay; act_assert; act_assert];
        [act_abort; act_stay; act_leave; act_assert];
        [act_abort; act_after; act_leave; act_before];
        [mk_action [REFORM_LIST_JOIN; REFORM_LIST_AFTER] 2 true false; act_after; act_assert; act_before] ];
      (* from: ONLINE to: OFFLINE *)
      [ [act_abort; act_assert; act_assert; act_assert];
        [act_abort; act_assert; act_assert; act_assert];
        [act_abort; act_assert; act_assert; act_assert];
        [act_none; act_assert; act_assert; act_assert] ] ];
    [ (* from: OFFLINE to: ONLINE *)
      [ [act_join; act_after; act_assert; act_assert];
        [act_assert; act_assert; act_assert; act_assert];
        [act_assert; act_assert; act_assert; act_assert];
        [act_assert; act_assert; act_assert; act_assert] ];
      (* from: OFFLINE to: OFFLINE *)
      [ [act_none; act_assert; act_assert; act_assert];
        [act_assert; act_assert; act_assert; act_assert];
        [act_assert; act_assert; act_assert; act_assert];
        [act_assert; act_assert; act_assert; act_assert] ] ] ].

Definition sm_action (pre_cms next_cms pre_wk next_wk : Z) : outcome reform_action_info :=
  a ← arg g_reform_sm pre_cms; b ← arg a next_cms; c ← arg b pre_wk; arg c next_wk.

(** [rc_bitmap64_set], [rc_bitmap64_clear] and [rc_bitmap64_exist]. *)
Definition rc_bitmap64_set (bitmap num : Z) : Z := Z.lor bitmap (u64 (Z.shiftl 1 num)).
Definition rc_bitmap64_clear (bitmap num : Z) : Z := Z.land bitmap (u64 (Z.lnot (Z.shiftl 1 num))).
Definition rc_bitmap64_exist (bitmap num : Z) : bool := negb (Z.land bitmap (u64 (Z.shiftl 1 num)) =? 0).

(** [rc_repair_leaving_state]: the work state before; [abort_map] is what
    reading RC_CMS_ABORT_REF_MAP gives. *)
Definition rc_repair_leaving_state (abort_map : option Z) (id pre_cms pre_wk next_cms next_wk : Z) : Z :=
  if negb (pre_cms =? RC_CMS_ONLINE) || negb (pre_wk =? RC_LEAVING) then pre_wk
  else if negb (next_cms =? RC_CMS_OFFLINE) || negb (next_wk =? RC_JOINING) then pre_wk
  else match abort_map with
       | Some b => if rc_bitmap64_exist b id then pre_wk else RC_LEFT
       | None => pre_wk
       end.

(** The two states of an instance a list gives: an instance that is not on it
    is offline. *)
Definition cms_state_of (e : option cms_res_status) : Z :=
  match e with Some s => if rs_stat s =? CMS_RES_ONLINE then RC_CMS_ONLINE else RC_CMS_OFFLINE | None => RC_CMS_OFFLINE end.
Definition work_state_of (e : option cms_res_status) : Z := match e with Some s => rs_work s | None => RC_JOINING end.

(** The loop over the lists of an action. *)
Fixpoint enque (id : Z) (ts : list reform_list_type) (r : reform_list) : outcome reform_list :=
  match ts with
  | [] => Ok r
  | t :: ts' => l ← add_id_to_list id (list_of r t); enque id ts' (set_list t l r)
  end.

(** The body of the loop of [rc_get_reform_info] for instance [id]. *)
Definition classify (abort_map : option Z) (cur tgt : cms_res_status_list) (id : Z) : outcome (option reform_action_info) :=
  pre ← get_res_stat_by_inst_id cur id;
  next ← get_res_stat_by_inst_id tgt id;
  match pre, next with
  | None, None => Ok None
  | _, _ =>
      let pc := cms_state_of pre in
      let nc := cms_state_of next in
      let nw := work_state_of next in
      let pw := rc_repair_leaving_state abort_map id pc (work_state_of pre) nc nw in
      a ← sm_action pc nc pw nw; Ok (Some a)
  end.
Fixpoint info_loop (ids : list Z) (abort_map : option Z) (cur tgt : cms_res_status_list) (changed : bool) (r : reform_list) :
    outcome (bool * reform_list) :=
  match ids with
  | [] => Ok (changed, r)
  | id :: ids' =>
      o ← classify abort_map cur tgt id;
      match o with
      | None => info_loop ids' abort_map cur tgt changed r
      | Some a =>
          r ← enque id (take (Z.to_nat (enque_count a)) (enque_list a)) r;
          info_loop ids' abort_map cur tgt (if member_change a then true else changed) r
      end
  end.

(** [rc_get_reform_info]: whether the members change, and the lists. *)
Definition rc_get_reform_info (abort_map : option Z) (cur tgt : cms_res_status_list) : outcome (bool * reform_list) :=
  let inst_count := if sl_count cur <? sl_count tgt then sl_count tgt else sl_count cur in
  info_loop (seqZ 0 inst_count) abort_map cur tgt false no_lists.
