(* ===== verification/RcTrigger.v ===== *)
(** The threads of the coordinator of reforms: how the reformer detects a
    change and triggers a reform, how the others follow the trigger, how a
    reform ends, and the status messages and cluster views that the rest of
    the program reads (src/pkg/src/rc/rc_reform.c, and the callbacks of
    src/pkg/src/cluster/dtc_reform.c).

    The process ends itself in several places ([CM_ABORT_REASONABLE]): a
    function that can do so returns [Exit].  Reads of the cluster manager's
    data are arguments, [None] for a read that failed; a write that is
    repeated until it succeeds changes the data. *)

From S2P Require Import Prelude DrcBitmap DrcReform DrcRemaster RcReform.

(** The remaining values of [reform_status_t]. *)
Definition REFORM_PREPARE : Z := 0.
Definition REFORM_OPEN : Z := 5.
Definition REFORM_DONE : Z := 6.

(** What a function of the coordinator comes to. *)
Inductive run (A : Type) : Type :=
| Go (a : A)
| Exit.
Arguments Go {A} a.
Arguments Exit {A}.

(** [cluster_view_t]. *)
Record cluster_view := mk_cview { cv_joining : bool; cv_stable : bool; cv_bitmap : Z; cv_version : Z; cv_reform_bitmap : Z }.

(** [reform_info_t] but for the lists. *)
Record rc_info := mk_info {
  rc_version : Z; rc_next_version : Z; rc_trigger_version : Z; rc_role : reform_role; rc_alive_bitmap : Z;
  rc_master_id : Z; rc_master_changed : bool; rc_fetch_cms_time : Z; rc_full_restart : bool;
  rc_cluster_steady : bool; rc_have_error : bool; rc_failed_status : Z;
}.

(** [reform_ctx_t], with the cluster view; [rx_cur] and [rx_tgt] are the lists
    of [clu_stat] at [current_idx] and at the other index. *)
Record rc_ctx := mk_ctx {
  rx_self : Z; rx_blocked : bool; rx_view_sync : bool; rx_cur : cms_res_status_list; rx_tgt : cms_res_status_list;
  rx_lists : reform_list; rx_info : rc_info; rx_mode : reform_mode; rx_status : Z; rx_view : cluster_view;
}.

(** The data that the coordinators share through the cluster manager. *)
Record cms_data := mk_cdata { cd_current : cms_res_status_list; cd_target : cms_res_status_list; cd_abort_map : Z; cd_trigger : Z }.

Definition set_trigger v i := mk_info (rc_version i) (rc_next_version i) v (rc_role i) (rc_alive_bitmap i) (rc_master_id i) (rc_master_changed i) (rc_fetch_cms_time i) (rc_full_restart i) (rc_cluster_steady i) (rc_have_error i) (rc_failed_status i).
Definition set_alive v i := mk_info (rc_version i) (rc_next_version i) (rc_trigger_version i) (rc_role i) v (rc_master_id i) (rc_master_changed i) (rc_fetch_cms_time i) (rc_full_restart i) (rc_cluster_steady i) (rc_have_error i) (rc_failed_status i).
Definition set_error v i := mk_info (rc_version i) (rc_next_version i) (rc_trigger_version i) (rc_role i) (rc_alive_bitmap i) (rc_master_id i) (rc_master_changed i) (rc_fetch_cms_time i) (rc_full_restart i) (rc_cluster_steady i) v (rc_failed_status i).
Definition set_version v i := mk_info v (rc_next_version i) (rc_trigger_version i) (rc_role i) (rc_alive_bitmap i) (rc_master_id i) (rc_master_changed i) (rc_fetch_cms_time i) (rc_full_restart i) (rc_cluster_steady i) (rc_have_error i) (rc_failed_status i).
Definition set_master_changed v i := mk_info (rc_version i) (rc_next_version i) (rc_trigger_version i) (rc_role i) (rc_alive_bitmap i) (rc_master_id i) v (rc_fetch_cms_time i) (rc_full_restart i) (rc_cluster_steady i) (rc_have_error i) (rc_failed_status i).

Definition rx_with (f : rc_info -> rc_info) c := mk_ctx (rx_self c) (rx_blocked c) (rx_view_sync c) (rx_cur c) (rx_tgt c) (rx_lists c) (f (rx_info c)) (rx_mode c) (rx_status c) (rx_view c).
Definition rx_set_cur l c := mk_ctx (rx_self c) (rx_blocked c) (rx_view_sync c) l (rx_tgt c) (rx_lists c) (rx_info c) (rx_mode c) (rx_status c) (rx_view c).
Definition rx_set_tgt l c := mk_ctx (rx_self c) (rx_blocked c) (rx_view_sync c) (rx_cur c) l (rx_lists c) (rx_info c) (rx_mode c) (rx_status c) (rx_view c).
Definition rx_set_status s c := mk_ctx (rx_self c) (rx_blocked c) (rx_view_sync c) (rx_cur c) (rx_tgt c) (rx_lists c) (rx_info c) (rx_mode c) s (rx_view c).
Definition rx_set_mode m c := mk_ctx (rx_self c) (rx_blocked c) (rx_view_sync c) (rx_cur c) (rx_tgt c) (rx_lists c) (rx_info c) m (rx_status c) (rx_view c).
Definition rx_set_view v c := mk_ctx (rx_self c) (rx_blocked c) (rx_view_sync c) (rx_cur c) (rx_tgt c) (rx_lists c) (rx_info c) (rx_mode c) (rx_status c) v.
Definition rx_set_sync b c := mk_ctx (rx_self c) (rx_blocked c) b (rx_cur c) (rx_tgt c) (rx_lists c) (rx_info c) (rx_mode c) (rx_status c) (rx_view c).
Definition cd_set_current l d := mk_cdata l (cd_target d) (cd_abort_map d) (cd_trigger d).
Definition cd_set_target l d := mk_cdata (cd_current d) l (cd_abort_map d) (cd_trigger d).
Definition cd_set_abort b d := mk_cdata (cd_current d) (cd_target d) b (cd_trigger d).
Definition cd_set_trigger v d := mk_cdata (cd_current d) (cd_target d) (cd_abort_map d) v.

(** [RC_REFORM_IN_PROGRESS], [RC_REFORM_NOT_IN_PROGRESS]. *)
Definition RC_REFORM_IN_PROGRESS (c : rc_ctx) : bool := (rx_status c <? REFORM_DONE) && (REFORM_PREPARE <? rx_status c).
Definition RC_REFORM_NOT_IN_PROGRESS (c : rc_ctx) : bool := (rx_status c =? REFORM_DONE) || (rx_status c =? REFORM_PREPARE).

(** [rc_is_master], once the master is known. *)
Definition rc_is_master (c : rc_ctx) : bool := rc_master_id (rx_info c) =? rx_self c.

(** ** Bitmaps of a list *)

(** The loop of [rc_update_cluster_view]: the members and, for a reform, all
    that are online.  [rc_refresh_alive_bitmap] computes the first. *)
Fixpoint view_loop (n : nat) (i : Z) (m : gmap Z cms_res_status) (bits reform_bits : Z) : outcome (Z * Z) :=
  match n with
  | O => Ok (bits, reform_bits)
  | S n' =>
      e ← rd m i;
      if rs_stat e =? CMS_RES_ONLINE then
        view_loop n' (i + 1) m (if rs_work e =? RC_JOINED then rc_bitmap64_set bits (rs_inst e) else bits)
          (rc_bitmap64_set reform_bits (rs_inst e))
      else view_loop n' (i + 1) m bits reform_bits
  end.
Definition rc_update_cluster_view (l : cms_res_status_list) (v : cluster_view) : outcome cluster_view :=
  '(bits, reform_bits) ← view_loop (Z.to_nat (sl_count l)) 0 (sl_list l) 0 0;
  Ok (mk_cview (cv_joining v) (cv_stable v) bits (cv_version v) reform_bits).

Fixpoint alive_loop (n : nat) (i : Z) (m : gmap Z cms_res_status) (bits : Z) : outcome Z :=
  match n with
  | O => Ok bits
  | S n' =>
      e ← rd m i;
      alive_loop n' (i + 1) m
        (if (rs_stat e =? CMS_RES_ONLINE) && (rs_work e =? RC_JOINED) then rc_bitmap64_set bits (rs_inst e) else bits)
  end.
Definition rc_refresh_alive_bitmap (l : cms_res_status_list) (i : rc_info) : outcome (bool * rc_info) :=
  bits ← alive_loop (Z.to_nat (sl_count l)) 0 (sl_list l) 0;
  Ok (negb (rc_alive_bitmap i =? bits), set_alive bits i).

(** [rc_refresh_cms_abort_ref_map]; [readable] and [written] say what became
    of its read and of its write. *)
Definition rc_refresh_cms_abort_ref_map (readable written : bool) (alive : Z) (d : cms_data) : cms_data :=
  if readable && negb (Z.lxor alive (cd_abort_map d) =? 0) && written then cd_set_abort (Z.lor (cd_abort_map d) alive) d else d.

(** [rc_set_cms_abort_ref_map], once it has succeeded. *)
Definition rc_set_cms_abort_ref_map (inst state : Z) (d : cms_data) : cms_data :=
  if negb (state =? RC_JOINED) && negb (state =? RC_LEFT) then d
  else
    let b := if state =? RC_JOINED then rc_bitmap64_set (cd_abort_map d) inst else cd_abort_map d in
    let b := if state =? RC_LEFT then rc_bitmap64_clear b inst else b in
    cd_set_abort b d.

(** ** Detecting a change *)

(** [rc_current_stat_step_forward]. *)
Definition rc_current_stat_step_forward (c : rc_ctx) (d : cms_data) : rc_ctx * cms_data :=
  let c := rx_set_tgt (rx_cur c) (rx_set_cur (rx_tgt c) c) in
  (c, if rc_is_master c then cd_set_current (rx_cur c) d else d).

(** [rc_wait_reformer_trigger]; [seen] is RC_REFORM_TRIGGER_VERSION. *)
Definition rc_wait_reformer_trigger (seen : option Z) (c : rc_ctx) : run (bool * rc_ctx) :=
  match seen with
  | Some v =>
      if rc_trigger_version (rx_info c) <? v then
        if RC_REFORM_IN_PROGRESS c && bool_decide (rc_role (rx_info c) = REFORM_ROLE_JOIN) then Exit
        else if bool_decide (rc_role (rx_info c) = REFORM_ROLE_LEAVE) then Exit
        else Go (true, rx_with (set_trigger v) c)
      else Go (false, c)
  | None => Go (false, c)
  end.

(** [rc_reformer_trigger]. *)
Definition rc_reformer_trigger (c : rc_ctx) (d : cms_data) : run (rc_ctx * cms_data) :=
  if negb (rc_is_master c) then Go (c, d)
  else if bool_decide (rc_get_change_mode (rx_lists c) = REFORM_MODE_OUT_OF_PLAN) &&
          (bool_decide (rc_role (rx_info c) = REFORM_ROLE_JOIN) || bool_decide (rc_role (rx_info c) = REFORM_ROLE_LEAVE)) then Exit
  else
    let v := u64 (rc_trigger_version (rx_info c) + 1) in
    Go (rx_with (set_trigger v) c, cd_set_trigger v d).

(** [rc_master_stat_changed]: [stored] says whether CURRENT could be read,
    [now] is the status list of the cluster manager; first what follows once
    both are there. *)
Definition master_fetched (readable written : bool) (c : rc_ctx) (d : cms_data) : outcome (bool * rc_ctx * cms_data) :=
  '(changed, i) ← rc_refresh_alive_bitmap (rx_tgt c) (rx_info c);
  let c := rx_with (fun _ => i) c in
  let d := if changed : bool then rc_refresh_cms_abort_ref_map readable written (rc_alive_bitmap i) d else d in
  if rc_have_error i || (RC_REFORM_NOT_IN_PROGRESS c && negb (rc_cluster_steady i) && (rc_fetch_cms_time i =? 0))
  then Ok (true, rx_with (set_error false) c, cd_set_target (rx_tgt c) d)
  else if RC_REFORM_IN_PROGRESS c && (sl_version (rx_tgt c) <=? rc_version i) then Ok (false, c, d)
  else if sl_version (rx_tgt c) <=? sl_version (rx_cur c) then Ok (false, c, d)
  else Ok (true, c, cd_set_target (rx_tgt c) d).
Definition rc_master_stat_changed (stored : bool) (now : option cms_res_status_list) (readable written : bool) (c : rc_ctx) (d : cms_data) :
    outcome (bool * rc_ctx * cms_data) :=
  if RC_REFORM_IN_PROGRESS c then Ok (false, c, d)
  else if negb stored then Ok (false, c, d)
  else
    let c := rx_set_cur (cd_current d) c in
    match now with
    | None => Ok (false, c, d)
    | Some l => master_fetched readable written (rx_set_tgt l c) d
    end.

(** [rc_follower_stat_changed]. *)
Definition rc_follower_stat_changed (seen : option Z) (cur tgt : option cms_res_status_list) (c : rc_ctx) : run (bool * rc_ctx) :=
  match rc_wait_reformer_trigger seen c with
  | Exit => Exit
  | Go (false, c) => Go (false, c)
  | Go (true, c) =>
      match cur with
      | None => Go (false, rx_with (set_trigger 0) c)
      | Some l =>
          let c := rx_set_cur l c in
          match tgt with
          | None => Go (false, rx_with (set_trigger 0) c)
          | Some l => let c := rx_set_tgt l c in Go (negb (sl_version (rx_tgt c) <? sl_version (rx_cur c)), c)
          end
      end
  end.

(** [rc_get_reform_info] in the context, with its last assignments. *)
Definition ctx_get_reform_info (abort_map : option Z) (c : rc_ctx) : outcome (bool * rc_ctx) :=
  '(changed, r) ← rc_get_reform_info abort_map (rx_cur c) (rx_tgt c);
  let i := rx_info c in
  let i := mk_info (sl_version (rx_cur c)) (sl_version (rx_tgt c)) (rc_trigger_version i) (rc_get_role r (rx_self c)) (rc_alive_bitmap i)
             (rc_master_id i) (rc_master_changed i) (rc_fetch_cms_time i) (rc_full_restart i) (negb changed) (rc_have_error i) (rc_failed_status i) in
  Ok (changed, mk_ctx (rx_self c) (rx_blocked c) (rx_view_sync c) (rx_cur c) (rx_tgt c) r i (rx_mode c) (rx_status c) (rx_view c)).

(** [rc_detect_reform_triggered] once [rc_cluster_stat_changed] has returned
    [changed]: [Some true] when the thread that reforms is woken up. *)
Definition rc_detect_reform_triggered (changed : bool) (abort_map : option Z) (c : rc_ctx) (d : cms_data) :
    outcome (run (bool * bool * rc_ctx * cms_data)) :=
  if negb changed then Ok (Go (true, false, c, d))
  else if RC_REFORM_IN_PROGRESS c then Ok (Go (false, false, c, d))
  else
    '(member_change, c) ← ctx_get_reform_info abort_map c;
    if negb member_change then let '(c, d) := rc_current_stat_step_forward c d in Ok (Go (false, false, c, d))
    else
      match rc_reformer_trigger c d with
      | Exit => Ok Exit
      | Go (c, d) =>
          let v := rx_view c in
          v ← rc_update_cluster_view (rx_tgt c) (mk_cview (cv_joining v) false (cv_bitmap v) (sl_version (rx_tgt c)) (cv_reform_bitmap v));
          let joining := if negb (bool_decide (rl_before (rx_lists c) = [])) && negb (bool_decide (rl_joins (rx_lists c) = []))
                         then true else cv_joining v in
          Ok (Go (true, true, rx_set_view (mk_cview joining (cv_stable v) (cv_bitmap v) (cv_version v) (cv_reform_bitmap v)) c, d))
      end.

(** [rc_refresh_cluster_info] on a list of the cluster manager: is its master
    known, is this instance online, and is no instance a member?  The flags
    are computed by one loop. *)
Fixpoint self_loop (n : nat) (i : Z) (self : Z) (m : gmap Z cms_res_status) (full kill : bool) : outcome (bool * bool) :=
  match n with
  | O => Ok (full, kill)
  | S n' =>
      e ← rd m i;
      self_loop n' (i + 1) self m
        (if (rs_stat e =? CMS_RES_ONLINE) && (rs_work e =? RC_JOINED) then false else full)
        (if (self =? rs_inst e) && (rs_stat e =? CMS_RES_ONLINE) then false else kill)
  end.

(** What one reading comes to: [None] is another turn of the loop. *)
Definition rc_refresh_cluster_info (read : option cms_res_status_list) (c : rc_ctx) : outcome (run (option rc_ctx)) :=
  match read with
  | None => Ok (Go None)
  | Some l =>
      if sl_master l =? OG_INVALID_ID8 then
        e ← get_res_stat_by_inst_id l (rx_self c);
        Ok (match e with Some s => if rs_stat s =? CMS_RES_ONLINE then Go None else Exit | None => Exit end)
      else if RC_REFORM_IN_PROGRESS c && negb (rc_master_id (rx_info c) =? sl_master l) then Ok Exit
      else
        '(full, kill) ← self_loop (Z.to_nat (sl_count l)) 0 (rx_self c) (sl_list l) true true;
        Ok (if kill : bool then Exit
            else Go (Some (rx_with (fun i =>
                   mk_info (rc_version i) (rc_next_version i) (rc_trigger_version i) (rc_role i) (rc_alive_bitmap i) (sl_master l)
                     (if rc_master_id i =? sl_master l then rc_master_changed i else true) (rc_fetch_cms_time i) full
                     (rc_cluster_steady i) (rc_have_error i) (rc_failed_status i)) c)))
  end.

(** ** Running a reform *)

Definition set_failed c := rx_with (fun i =>
  mk_info (rc_version i) (rc_next_version i) (rc_trigger_version i) (rc_role i) (rc_alive_bitmap i) (rc_master_id i) (rc_master_changed i)
    (rc_fetch_cms_time i) (rc_full_restart i) (rc_cluster_steady i) (rc_have_error i) (rx_status c)) c.

(** [rc_set_redo_replay_done]; [notified] is what the notification returns. *)
Definition rc_set_redo_replay_done (primary full_recovery ready : bool) (notified : status) (c : rc_ctx) : outcome (status * rc_ctx) :=
  if negb primary && full_recovery && ready then Ok (OG_SUCCESS, c)
  else panic_unless rx_status c <? REFORM_RECOVER_DONE ;; Ok (notified, rx_set_status REFORM_RECOVER_DONE c).

(** What the steps of a reform come to: the channels, the remaster, the
    recovery of crashed instances and the status in which the recovery leaves
    the coordinator, whether the instance is shut down while it waits, the
    broadcast of a planned reform, and the steps that follow. *)
Record steps := mk_steps {
  st_build : status; st_remaster : status; st_recovery : status; st_recovery_status : Z; st_cancelled : bool; st_notified : status;
  st_clean : status; st_arch : status; st_load : status; st_rollback : status; st_ckpt : status; st_arch_end : status; st_standby : status;
}.

(** [rc_master_partial_recovery]; [st_recovery] is that of the primary or of a
    standby cluster. *)
Definition rc_master_partial_recovery (mode : reform_mode) (s : steps) (c : rc_ctx) : outcome (status * rc_ctx) :=
  if bool_decide (mode = REFORM_MODE_OUT_OF_PLAN) then
    if bool_decide (st_recovery s = OG_ERROR) then Ok (OG_ERROR, set_failed c)
    else Ok (OG_SUCCESS, rx_set_status (st_recovery_status s) c)
  else
    '(ret, c) ← rc_set_redo_replay_done true false true (st_notified s) c;
    Ok (if bool_decide (ret = OG_ERROR) then (OG_ERROR, set_failed c) else (OG_SUCCESS, c)).

(** [rc_master_rollback_node] and [rc_master_wait_ckpt_finish]. *)
Definition rc_master_rollback_node (primary : bool) (s : steps) (c : rc_ctx) : status * rc_ctx :=
  let out := bool_decide (rc_get_change_mode (rx_lists c) = REFORM_MODE_OUT_OF_PLAN) in
  if negb primary && out && negb (rc_master_changed (rx_info c)) then (OG_SUCCESS, c)
  else if negb primary && out && rc_master_changed (rx_info c) && bool_decide (st_load s = OG_ERROR) then (OG_ERROR, c)
  else if bool_decide (st_rollback s = OG_ERROR) then (OG_ERROR, set_failed c)
  else (OG_SUCCESS, c).
Definition rc_master_wait_ckpt_finish (mode : reform_mode) (s : steps) (c : rc_ctx) : status * rc_ctx :=
  if bool_decide (mode = REFORM_MODE_OUT_OF_PLAN) && bool_decide (st_ckpt s = OG_ERROR) then (OG_ERROR, set_failed c)
  else (OG_SUCCESS, c).

(** The first half of [rc_master_reform]: the remaster and the recovery, or in
    a full restart the wait for the recovery in the main thread. *)
Definition master_recover (mode : reform_mode) (s : steps) (c : rc_ctx) : outcome (status * rc_ctx) :=
  if rc_full_restart (rx_info c) then
    let c := rx_set_status REFORM_MOUNTING c in
    Ok (if st_cancelled s then (OG_ERROR, c) else (OG_SUCCESS, rx_set_status (st_recovery_status s) c))
  else
    let c := rx_set_status REFORM_RECOVERING c in
    if bool_decide (st_remaster s = OG_ERROR) then Ok (OG_ERROR, set_failed c) else rc_master_partial_recovery mode s c.

(** [rc_master_reform], [need_arch] saying whether the log has to be
    archived. *)
Definition rc_master_reform (primary need_arch : bool) (mode : reform_mode) (s : steps) (c : rc_ctx) : outcome (status * rc_ctx) :=
  '(ret, c) ← master_recover mode s c;
  if bool_decide (ret = OG_ERROR) then Ok (OG_ERROR, c)
  else if bool_decide (st_clean s = OG_ERROR) then Ok (OG_ERROR, c)
  else if need_arch && bool_decide (st_arch s = OG_ERROR) then Ok (OG_ERROR, c)
  else
    let '(ret, c) := rc_master_rollback_node primary s c in
    if bool_decide (ret = OG_ERROR) then Ok (OG_ERROR, c)
    else
      let '(ret, c) := rc_master_wait_ckpt_finish mode s c in
      if bool_decide (ret = OG_ERROR) then Ok (OG_ERROR, c)
      else if need_arch && bool_decide (st_arch_end s = OG_ERROR) then Ok (OG_ERROR, c)
      else Ok (OG_SUCCESS, c).

(** [rc_follower_reform]; it waits until the reformer's message has set the
    status. *)
Definition rc_follower_reform (need_arch : bool) (s : steps) (c : rc_ctx) : status * rc_ctx :=
  if bool_decide (st_remaster s = OG_ERROR) then (OG_ERROR, set_failed c)
  else if st_cancelled s then (OG_ERROR, c)
  else
    let c := rx_set_status (st_recovery_status s) c in
    if bool_decide (st_clean s = OG_ERROR) then (OG_ERROR, c)
    else if need_arch && bool_decide (st_arch s = OG_ERROR) then (OG_ERROR, c)
    else if need_arch && bool_decide (st_arch_end s = OG_ERROR) then (OG_ERROR, c)
    else (OG_SUCCESS, c).

(** [rc_start_new_reform] and [rc_start_reform]. *)
Definition rc_start_new_reform (primary need_arch : bool) (mode : reform_mode) (s : steps) (c : rc_ctx) : outcome (status * rc_ctx) :=
  let c := rx_set_status REFORM_FROZEN c in
  if bool_decide (st_build s = OG_ERROR) then Ok (OG_ERROR, set_failed c)
  else
    '(ret, c) ← (if rc_is_master c then rc_master_reform primary need_arch mode s c else Ok (rc_follower_reform need_arch s c));
    Ok (if bool_decide (ret = OG_ERROR) || bool_decide (st_standby s = OG_ERROR) then (OG_ERROR, c) else (OG_SUCCESS, c)).
Definition rc_start_reform (primary need_arch : bool) (mode : reform_mode) (s : steps) (c : rc_ctx) : outcome (status * rc_ctx) :=
  '(ret, c) ← rc_start_new_reform primary need_arch mode s c;
  Ok (if bool_decide (ret = OG_ERROR) then (OG_ERROR, c)
      else (OG_SUCCESS, rx_with (fun i => set_version (rc_next_version i) i) (rx_set_mode mode c))).

(** The loop of [wait_alive_bitmap_stable] over an entry [i] and the
    following of one reading: does an instance still join? *)
Fixpoint joining_loop (n : nat) (i : Z) (m : gmap Z cms_res_status) : outcome bool :=
  match n with
  | O => Ok false
  | S n' => e ← rd m i; if (rs_stat e =? CMS_RES_ONLINE) && (rs_work e =? RC_JOINING) then Ok true else joining_loop n' (i + 1) m
  end.

(** [wait_alive_bitmap_stable] over the readings of the cluster manager:
    [None] when the loop has not ended with them. *)
Fixpoint wait_alive_bitmap_stable (reads : list cms_res_status_list) (v : cluster_view) : outcome (option cluster_view) :=
  match reads with
  | [] => Ok None
  | l :: reads' =>
      j ← joining_loop (Z.to_nat (sl_count l)) 0 (sl_list l);
      if j : bool then wait_alive_bitmap_stable reads' v
      else v ← rc_update_cluster_view l (mk_cview false true (cv_bitmap v) (cv_version v) (cv_reform_bitmap v)); Ok (Some v)
  end.

(** [rc_check_finished], once the reform is complete and not blocked: the
    work state that the instance reports, and the end of the reform. *)
Definition rc_check_finished (reads : list cms_res_status_list) (c : rc_ctx) (d : cms_data) : outcome (option (option Z * rc_ctx * cms_data)) :=
  let role := rc_role (rx_info c) in
  let '(told, c, d) :=
    if bool_decide (role = REFORM_ROLE_JOIN) then
      (Some RC_JOINED, rx_set_sync (negb (rc_is_master c)) c, rc_set_cms_abort_ref_map (rx_self c) RC_JOINED d)
    else if bool_decide (role = REFORM_ROLE_LEAVE) then (Some RC_LEFT, c, rc_set_cms_abort_ref_map (rx_self c) RC_LEFT d)
    else (None, c, d) in
  o ← wait_alive_bitmap_stable reads (rx_view c);
  Ok (match o with
      | None => None
      | Some v =>
          let c := if negb (rc_is_master c) && bool_decide (role = REFORM_ROLE_JOIN) then rx_set_sync false c else c in
          let '(c, d) := rc_current_stat_step_forward (rx_set_view v c) d in
          Some (told, rx_with (set_master_changed false) (rx_set_mode REFORM_MODE_NONE (rx_set_status REFORM_DONE c)), d)
      end).

(** The failure branch of [rc_reform_proc], unless the reform is cancelled. *)
Definition reform_failed (mode : reform_mode) (c : rc_ctx) (d : cms_data) : run (rc_ctx * cms_data) :=
  let '(c, d) := if bool_decide (mode = REFORM_MODE_PLANED) && rc_is_master c then rc_current_stat_step_forward c d else (c, d) in
  if bool_decide (rc_role (rx_info c) = REFORM_ROLE_JOIN) || bool_decide (rc_role (rx_info c) = REFORM_ROLE_LEAVE) then Exit
  else Go (rx_with (set_error true) c, d).

(** One turn of [rc_reform_proc]: the mode is read from the lists before the
    reform is begun; first what follows with a mode. *)
Definition reform_turn (mode : reform_mode) (primary need_arch : bool) (s : steps) (reads : list cms_res_status_list) (c : rc_ctx) (d : cms_data) :
    outcome (run (option (rc_ctx * cms_data))) :=
  '(ret, c) ← rc_start_reform primary need_arch mode s c;
  if bool_decide (ret = OG_SUCCESS) then
    o ← rc_check_finished reads c d;
    Ok (Go (match o with Some (_, c, d) => Some (rx_with (set_error false) c, d) | None => None end))
  else Ok (match reform_failed mode c d with Exit => Exit | Go cd => Go (Some cd) end).
Definition rc_reform_proc (primary need_arch : bool) (s : steps) (reads : list cms_res_status_list) (c : rc_ctx) (d : cms_data) :
    outcome (run (option (rc_ctx * cms_data))) :=
  reform_turn (rc_get_change_mode (rx_lists c)) primary need_arch s reads c d.

(** [rc_stop_cur_reform]: [need_stop] and [stopped] are those of the
    remaster. *)
Definition rc_stop_cur_reform (need_stop : bool) (stopped : status) (c : rc_ctx) : run rc_ctx :=
  let c := rx_set_status REFORM_PREPARE c in
  if need_stop && bool_decide (stopped = OG_ERROR) then Exit
  else if bool_decide (rc_get_change_mode (rx_lists c) = REFORM_MODE_OUT_OF_PLAN) &&
          (REFORM_RECOVERING <? rc_failed_status (rx_info c)) && (rc_failed_status (rx_info c) <? REFORM_DONE) then Exit
  else Go c.

(** ** What others read *)

(** [rc_accept_status_change]: the status of the answer, if one is sent. *)
Definition rc_accept_status_change (size_ok : bool) (change version : Z) (c : rc_ctx) : option status * rc_ctx :=
  if negb size_ok then (None, c)
  else if version <? rc_trigger_version (rx_info c) then (Some OG_ERROR, c)
  else if change <=? rx_status c then (Some OG_SUCCESS, c)
  else if change =? REFORM_RECOVER_DONE then (Some OG_SUCCESS, rx_set_status REFORM_RECOVER_DONE c)
  else if change =? REFORM_DONE then (Some OG_ERROR, rx_set_sync false c)
  else (Some OG_ERROR, c).

(** [rc_instance_accessible]. *)
Definition rc_instance_accessible (id : Z) (c : rc_ctx) : bool :=
  (REFORM_OPEN <=? rx_status c) || bool_decide (rc_get_role (rx_lists c) id = REFORM_ROLE_STAY).

(** [rc_is_cluster_changed]: the version and the map of an earlier view. *)
Definition rc_is_cluster_changed (prev : cluster_view) (v : cluster_view) : bool :=
  (cv_version prev <? cv_version v) || negb (cv_bitmap prev =? cv_bitmap v).

(** [rc_get_check_inst_alive]. *)
Definition rc_get_check_inst_alive (id : Z) (c : rc_ctx) : outcome bool :=
  let l := if u32 (sl_version (rx_tgt c)) <=? u32 (sl_version (rx_cur c)) then rx_cur c else rx_tgt c in
  e ← rd (sl_list l) id; Ok (rs_stat e =? CMS_RES_ONLINE).

(** [get_alive_bitmap_by_reform_info]. *)
Definition get_alive_bitmap_by_reform_info (r : reform_list) : Z :=
  foldl rc_bitmap64_set (foldl rc_bitmap64_set 0 (rl_after r)) (rl_leaves r).

(** [rc_get_tx_deposit_inst_list]: the instances whose transactions another
    one takes over, and those that get theirs back; [count] is the number of
    nodes of the database. *)
Fixpoint add_all (ids : list Z) (skip : Z -> bool) (l : list Z) : outcome (list Z) :=
  match ids with
  | [] => Ok l
  | x :: ids' => if skip x then add_all ids' skip l else l ← add_id_to_list x l; add_all ids' skip l
  end.
Definition rc_get_tx_deposit_inst_list (master_changed : bool) (count : Z) (r : reform_list) : outcome (list Z * list Z) :=
  if master_changed then
    l ← add_all (seqZ 0 count) (fun x => check_id_in_list x (rl_after r)) []; Ok (l, [])
  else
    l ← add_all (rl_aborts r) (fun _ => false) [];
    l ← add_all (rl_leaves r) (fun _ => false) l;
    l ← add_all (rl_fails r) (fun _ => false) l;
    free ← add_all (rl_joins r) (fun x => check_id_in_list x (rl_aborts r)) [];
    Ok (l, free).
