(* ===== verification/RcLists.v ===== *)
(** The lists of a reform are what the table says, instance by instance: the
    lists are computed without a bad access, and every list holds, in
    ascending order, the instances whose transition has it in its row
    ([rc_get_reform_info], src/pkg/src/rc/rc_reform.c). *)

From S2P Require Import Prelude DrcBitmap DrcReform DrcPart DrcPartInv RcReform.

(** ** Status lists *)

(** A status list as the cluster manager fills it: 64 entries, all of whose
    work states are those of the enumeration. *)
Record wf_slist (l : cms_res_status_list) : Prop := {
  ws_count : 0 <= sl_count l <= OG_MAX_INSTANCES;
  ws_entry : forall i, 0 <= i < OG_MAX_INSTANCES -> exists e, sl_list l !! i = Some e /\ 0 <= rs_work e < 4;
}.

(** The entry of an instance. *)
Definition entry (l : cms_res_status_list) (id : Z) : option cms_res_status :=
  match get_res_stat_by_inst_id l id with Ok e => e | Crash _ => None end.

Lemma find_stat_ok n i m id : 0 <= i -> i + Z.of_nat n <= OG_MAX_INSTANCES ->
  (forall j, 0 <= j < OG_MAX_INSTANCES -> exists e, m !! j = Some e /\ 0 <= rs_work e < 4) ->
  exists o, find_stat n i m id = Ok o /\ forall e, o = Some e -> rs_inst e = id /\ 0 <= rs_work e < 4.
Proof.
  intros Hi Hn Hm. revert i Hi Hn. induction n as [|n IH]; intros i Hi Hn; cbn [find_stat]; [by exists None|].
  destruct (Hm i ltac:(lia)) as (e & He & Hw). unfold rd. rewrite He. cbn [mbind outcome_bind].
  destruct (Z.eqb_spec (rs_inst e) id) as [Hid|Hid]; [|apply IH; lia].
  exists (Some e). split; [done|]. intros e' [= <-]. done.
Qed.

Lemma entry_ok l id : wf_slist l ->
  get_res_stat_by_inst_id l id = Ok (entry l id) /\ forall e, entry l id = Some e -> rs_inst e = id /\ 0 <= rs_work e < 4.
Proof.
  intros [Hc He]. unfold entry. destruct (find_stat_ok (Z.to_nat (sl_count l)) 0 (sl_list l) id) as (o & E & P); [lia|lia|exact He|].
  unfold get_res_stat_by_inst_id. rewrite E. split; [done|exact P].
Qed.

Lemma work_state_range l id : wf_slist l -> 0 <= work_state_of (entry l id) < 4.
Proof. intros W. destruct (entry_ok l id W) as [_ P]. destruct (entry l id) as [e|]; cbn; [by apply P|unfold RC_JOINING; lia]. Qed.

Lemma cms_state_range o : 0 <= cms_state_of o < 2.
Proof. destruct o as [e|]; cbn; [case_match|]; unfold RC_CMS_ONLINE, RC_CMS_OFFLINE; lia. Qed.

(** ** The table *)

(** What holds of every row of the table. *)
Definition row_ok (a : reform_action_info) : bool :=
  let has t := bool_decide (t ∈ enque_list a) in
  bool_decide (NoDup (enque_list a)) && (enque_count a =? Z.of_nat (length (enque_list a))) &&
  negb (has REFORM_LIST_FAIL) &&
  implb (has REFORM_LIST_JOIN) (has REFORM_LIST_AFTER && negb (has REFORM_LIST_BEFORE)) &&
  implb (has REFORM_LIST_LEAVE) (has REFORM_LIST_BEFORE && negb (has REFORM_LIST_AFTER) && negb (has REFORM_LIST_ABORT)) &&
  implb (has REFORM_LIST_ABORT) (has REFORM_LIST_BEFORE && negb (has REFORM_LIST_AFTER)) &&
  eqb (member_change a) (has REFORM_LIST_JOIN || has REFORM_LIST_LEAVE || has REFORM_LIST_ABORT) &&
  implb (happen_assert a) (bool_decide (enque_list a = [])).

Definition table_ok : bool := forallb (forallb (forallb (fun row => bool_decide (length row = 4%nat) && forallb row_ok row))) g_reform_sm.

Lemma arg_in {A} (l : list A) i : 0 <= i < Z.of_nat (length l) -> exists a, arg l i = Ok a /\ a ∈ l.
Proof.
  intros Hi. unfold arg. destruct (l !! Z.to_nat i) as [a|] eqn:E.
  - exists a. replace (i <? 0) with false by lia. split; [done|]. by apply list_elem_of_lookup_2 in E.
  - apply lookup_ge_None in E. lia.
Qed.

Lemma forallb_elem {A} (f : A -> bool) (l : list A) x : forallb f l = true -> x ∈ l -> f x = true.
Proof. intros H Hx. rewrite forallb_forall in H. apply H. by apply list_elem_of_In. Qed.

Lemma sm_action_ok pc nc pw nw : 0 <= pc < 2 -> 0 <= nc < 2 -> 0 <= pw < 4 -> 0 <= nw < 4 ->
  exists a, sm_action pc nc pw nw = Ok a /\ row_ok a = true.
Proof.
  intros Hpc Hnc Hpw Hnw. assert (table_ok = true) as T by (vm_compute; reflexivity).
  assert (forallb (fun x => bool_decide (length x = 2%nat) && forallb (fun y => bool_decide (length y = 4%nat)) x) g_reform_sm = true) as D
    by (vm_compute; reflexivity).
  unfold sm_action, table_ok in *.
  destruct (arg_in g_reform_sm pc) as (a & -> & Ha); [cbn; lia|]. cbn [mbind outcome_bind].
  pose proof (forallb_elem _ _ _ T Ha) as Ta. pose proof (forallb_elem _ _ _ D Ha) as [La%bool_decide_eq_true Da]%andb_true_iff.
  destruct (arg_in a nc) as (b & -> & Hb); [rewrite La; lia|]. cbn [mbind outcome_bind].
  pose proof (forallb_elem _ _ _ Ta Hb) as Tb. pose proof (forallb_elem _ _ _ Da Hb) as Lb%bool_decide_eq_true.
  destruct (arg_in b pw) as (r & -> & Hr); [rewrite Lb; lia|]. cbn [mbind outcome_bind].
  pose proof (forallb_elem _ _ _ Tb Hr) as [Lr%bool_decide_eq_true Tr]%andb_true_iff.
  destruct (arg_in r nw) as (x & -> & Hx); [rewrite Lr; lia|]. exists x. split; [done|]. by apply (forallb_elem _ _ _ Tr).
Qed.

(** ** Adding an instance to lists *)

Lemma list_of_set r t l u : list_of (set_list t l r) u = if decide (u = t) then l else list_of r u.
Proof. by destruct u. Qed.

Lemma enque_ok id ts r : NoDup ts -> (forall t, t ∈ ts -> len (list_of r t) < OG_MAX_INSTANCES) ->
  exists r', enque id ts r = Ok r' /\ forall t, list_of r' t = list_of r t ++ (if decide (t ∈ ts) then [id] else []).
Proof.
  intros Hnd. revert r. induction Hnd as [|u ts Hu Hnd IH]; intros r Hr; cbn [enque].
  - exists r. split; [done|]. intros t. rewrite decide_False by apply not_elem_of_nil. by rewrite app_nil_r.
  - unfold add_id_to_list. rewrite (proj2 (Z.ltb_lt _ _)) by (apply Hr; set_solver). cbn [mbind outcome_bind].
    destruct (IH (set_list u (list_of r u ++ [id]) r)) as (r' & E & P).
    { intros t Ht. rewrite list_of_set, decide_False by (by intros ->). apply Hr. set_solver. }
    exists r'. split; [done|]. intros t. rewrite P, list_of_set. destruct (decide (t = u)) as [->|Hne].
    + rewrite (decide_False (P := u ∈ ts)) by done. rewrite (decide_True (P := u ∈ u :: ts)) by set_solver. by rewrite app_nil_r.
    + f_equal. destruct (decide (t ∈ ts)); [rewrite decide_True by set_solver|rewrite decide_False by set_solver]; done.
Qed.

(** ** One instance *)
Section Classify.
Context (abort_map : option Z) (cur tgt : cms_res_status_list).
Hypothesis (Wc : wf_slist cur) (Wt : wf_slist tgt).

(** The row of an instance, without lists when no status list has it. *)
Definition action_of (id : Z) : reform_action_info :=
  match classify abort_map cur tgt id with Ok (Some a) => a | _ => act_none end.

(** Does instance [id] get on list [t]? *)
Definition on_list (t : reform_list_type) (id : Z) : Prop := t ∈ enque_list (action_of id).

#[export] Instance on_list_dec t id : Decision (on_list t id).
Proof. unfold on_list. apply _. Defined.

Lemma repair_range id pc pw nc nw : 0 <= pw < 4 -> 0 <= rc_repair_leaving_state abort_map id pc pw nc nw < 4.
Proof. intros H. unfold rc_repair_leaving_state, RC_LEFT. repeat case_match; lia. Qed.

Lemma classify_ok id : exists o, classify abort_map cur tgt id = Ok o /\
  row_ok (action_of id) = true /\ match o with Some a => action_of id = a | None => action_of id = act_none end.
Proof.
  unfold action_of, classify. destruct (entry_ok cur id Wc) as [-> _], (entry_ok tgt id Wt) as [-> _]. cbn [mbind outcome_bind].
  pose proof (work_state_range cur id Wc) as Hpw. pose proof (work_state_range tgt id Wt) as Hnw.
  pose proof (cms_state_range (entry cur id)) as Hpc. pose proof (cms_state_range (entry tgt id)) as Hnc.
  pose proof (repair_range id (cms_state_of (entry cur id)) _ (cms_state_of (entry tgt id)) (work_state_of (entry tgt id)) Hpw) as Hr.
  destruct (sm_action_ok _ _ _ _ Hpc Hnc Hr Hnw) as (a & E & R).
  destruct (entry cur id), (entry tgt id); try (eexists; split; [rewrite E; reflexivity|]; cbn [mbind outcome_bind]; rewrite E; done).
  exists None. split; [done|]. split; [vm_compute; reflexivity|done].
Qed.

(** The rows of the instances of a list, read off the table. *)
Lemma row_facts id :
  let has t := on_list t id in
  ~ has REFORM_LIST_FAIL /\ (has REFORM_LIST_JOIN -> has REFORM_LIST_AFTER /\ ~ has REFORM_LIST_BEFORE) /\
  (has REFORM_LIST_LEAVE -> has REFORM_LIST_BEFORE /\ ~ has REFORM_LIST_AFTER /\ ~ has REFORM_LIST_ABORT) /\
  (has REFORM_LIST_ABORT -> has REFORM_LIST_BEFORE /\ ~ has REFORM_LIST_AFTER) /\
  (member_change (action_of id) = true <-> has REFORM_LIST_JOIN \/ has REFORM_LIST_LEAVE \/ has REFORM_LIST_ABORT).
Proof.
  destruct (classify_ok id) as (_ & _ & R & _). unfold on_list, row_ok in *. repeat rewrite andb_true_iff in R.
  destruct R as (((((((_ & _) & R1) & R2) & R3) & R4) & R5) & _). apply eqb_prop in R5. rewrite R5, !orb_true_iff, !bool_decide_eq_true.
  repeat case_bool_decide; cbn in *; try discriminate; split_and!; try tauto.
Qed.

(** The loop adds every instance to the lists of its row. *)
Lemma info_loop_ok xs changed r :
  (forall t, len (list_of r t) + len xs <= OG_MAX_INSTANCES) ->
  exists r', info_loop xs abort_map cur tgt changed r = Ok (changed || existsb (fun x => member_change (action_of x)) xs, r') /\
    forall t, list_of r' t = list_of r t ++ filter (on_list t) xs.
Proof.
  revert changed r. induction xs as [|x xs IH]; intros changed r Hr; cbn [info_loop existsb].
  - exists r. rewrite orb_false_r. split; [done|]. intros t. by rewrite filter_nil, app_nil_r.
  - destruct (classify_ok x) as (o & E & R & A). rewrite (bind_ok _ _ _ E).
    assert (forall a t, action_of x = a ->
      filter (on_list t) (x :: xs) = (if decide (t ∈ enque_list a) then [x] else []) ++ filter (on_list t) xs) as Hf.
    { intros a t <-. rewrite filter_cons. destruct (decide (on_list t x)) as [H|H].
      - by rewrite (decide_True (P := t ∈ enque_list (action_of x))).
      - by rewrite (decide_False (P := t ∈ enque_list (action_of x))). }
    unfold len in *. cbn [length] in Hr. destruct o as [a|].
    + assert (NoDup (enque_list a) /\ take (Z.to_nat (enque_count a)) (enque_list a) = enque_list a) as [Hnd ->].
      { rewrite A in R. unfold row_ok in R. repeat rewrite andb_true_iff in R. destruct R as (((((((R0 & R1) & _) & _) & _) & _) & _) & _).
        apply bool_decide_eq_true in R0. apply Z.eqb_eq in R1. split; [done|]. rewrite R1, Nat2Z.id. apply take_ge. lia. }
      destruct (enque_ok x (enque_list a) r Hnd) as (r1 & -> & P1); [intros t _; specialize (Hr t); unfold len; lia|]. cbn [mbind outcome_bind].
      destruct (IH (if member_change a then true else changed) r1) as (r' & -> & P).
      { intros t. rewrite P1, length_app. specialize (Hr t). case_decide; cbn [length]; lia. }
      exists r'. rewrite A. split; [f_equal; f_equal; by destruct (member_change a), changed|]. intros t. by rewrite P, P1, (Hf a), (assoc_L (++)).
    + destruct (IH changed r) as (r' & -> & P); [intros t; specialize (Hr t); lia|]. exists r'. rewrite A. split; [by cbn|].
      intros t. rewrite P, (Hf act_none) by done. by rewrite decide_False by apply not_elem_of_nil.
Qed.

Definition inst_count : Z := if sl_count cur <? sl_count tgt then sl_count tgt else sl_count cur.

Lemma inst_count_range : 0 <= inst_count <= OG_MAX_INSTANCES.
Proof. pose proof (ws_count _ Wc). pose proof (ws_count _ Wt). unfold inst_count. case_match; lia. Qed.

Lemma reform_info_ok : exists ch r, rc_get_reform_info abort_map cur tgt = Ok (ch, r) /\
  (ch = true <-> exists x, 0 <= x < inst_count /\ member_change (action_of x) = true) /\
  forall t, list_of r t = filter (on_list t) (seqZ 0 inst_count).
Proof.
  unfold rc_get_reform_info. fold inst_count. destruct (info_loop_ok (seqZ 0 inst_count) false no_lists) as (r & E & P).
  { intros t. unfold len. rewrite length_seqZ. pose proof inst_count_range. destruct t; cbn; lia. }
  do 2 eexists. split; [exact E|]. split; [|intros t; rewrite P; by destruct t]. cbn [orb]. rewrite existsb_exists. split.
  - intros (x & Hx & Hm). apply list_elem_of_In, elem_of_seqZ in Hx. exists x. split; [lia|done].
  - intros (x & Hx & Hm). exists x. split; [apply list_elem_of_In, elem_of_seqZ; lia|done].
Qed.
End Classify.

(** ** The lists in words

    What the state machine is for, said of one instance by its states before
    and after: each a pair of online or offline and of the work state. *)
Definition listed (l : cms_res_status_list) (x : Z) : option cms_res_status :=
  head (filter (fun e => rs_inst e = x) (omap (fun i => sl_list l !! i) (seqZ 0 (sl_count l)))).
Definition seen (l : cms_res_status_list) (x : Z) : Z * Z :=
  match listed l x with
  | Some e => (if rs_stat e =? CMS_RES_ONLINE then RC_CMS_ONLINE else RC_CMS_OFFLINE, rs_work e)
  | None => (RC_CMS_OFFLINE, RC_JOINING)
  end.

(** One that was leaving and is offline has left, when its bit is gone from
    the map of those whose crash has to be handled. *)
Definition seen_before (abort_map : option Z) (cur tgt : cms_res_status_list) (x : Z) : Z * Z :=
  if bool_decide (seen cur x = (RC_CMS_ONLINE, RC_LEAVING)) && bool_decide (seen tgt x = (RC_CMS_OFFLINE, RC_JOINING)) &&
     match abort_map with Some b => negb (Z.testbit b x) | None => false end
  then (RC_CMS_ONLINE, RC_LEFT) else seen cur x.

Definition wants (t : reform_list_type) (before after : Z * Z) : bool :=
  let on w p := bool_decide (p = (RC_CMS_ONLINE, w)) in
  let off p := bool_decide (p = (RC_CMS_OFFLINE, RC_JOINING)) in
  let joins := on RC_JOINING after && (off before || on RC_JOINING before || on RC_LEFT before) in
  let leaves := on RC_LEAVING after && (on RC_JOINED before || on RC_LEAVING before) in
  let crashed := (on RC_JOINING after && (on RC_JOINED before || on RC_LEAVING before)) ||
                 (off after && (on RC_JOINING before || on RC_JOINED before || on RC_LEAVING before)) in
  let stays := on RC_JOINED after && (on RC_JOINING before || on RC_JOINED before) in
  match t with
  | REFORM_LIST_JOIN => joins
  | REFORM_LIST_LEAVE => leaves
  | REFORM_LIST_ABORT => crashed
  | REFORM_LIST_BEFORE => stays || leaves || crashed || (on RC_LEFT after && (on RC_LEAVING before || on RC_LEFT before))
  | REFORM_LIST_AFTER => stays || joins || (on RC_JOINED after && (off before || on RC_LEAVING before || on RC_LEFT before))
  | REFORM_LIST_FAIL => false
  end.

Definition list_types : list reform_list_type :=
  [REFORM_LIST_BEFORE; REFORM_LIST_AFTER; REFORM_LIST_JOIN; REFORM_LIST_LEAVE; REFORM_LIST_ABORT; REFORM_LIST_FAIL].

Lemma wants_row t pc nc pw nw a : 0 <= pc < 2 -> 0 <= nc < 2 -> 0 <= pw < 4 -> 0 <= nw < 4 ->
  sm_action pc nc pw nw = Ok a -> bool_decide (t ∈ enque_list a) = wants t (pc, pw) (nc, nw).
Proof.
  intros Hpc Hnc Hpw Hnw E.
  assert (forallb (fun t => forallb (fun pc => forallb (fun nc => forallb (fun pw => forallb (fun nw =>
    match sm_action pc nc pw nw with Ok a => eqb (bool_decide (t ∈ enque_list a)) (wants t (pc, pw) (nc, nw)) | Crash _ => false end)
    (seqZ 0 4)) (seqZ 0 4)) (seqZ 0 2)) (seqZ 0 2)) list_types = true) as T by (vm_compute; reflexivity).
  apply (forallb_elem _ _ t) in T; [|destruct t; set_solver].
  apply (forallb_elem _ _ pc) in T; [|apply elem_of_seqZ; lia]. apply (forallb_elem _ _ nc) in T; [|apply elem_of_seqZ; lia].
  apply (forallb_elem _ _ pw) in T; [|apply elem_of_seqZ; lia]. apply (forallb_elem _ _ nw) in T; [|apply elem_of_seqZ; lia].
  cbn beta in T. rewrite E in T. by apply eqb_prop in T.
Qed.

Lemma listed_entry l x : wf_slist l -> entry l x = listed l x.
Proof.
  intros [Hc He]. unfold entry, get_res_stat_by_inst_id, listed.
  assert (forall k i, 0 <= i -> i + Z.of_nat k <= OG_MAX_INSTANCES ->
    find_stat k i (sl_list l) x = Ok (head (filter (fun e => rs_inst e = x) (omap (fun i => sl_list l !! i) (seqZ i (Z.of_nat k)))))) as H.
  { induction k as [|k IH]; intros i Hi Hk; [done|]. cbn [find_stat]. destruct (He i ltac:(lia)) as (e & Ee & _). unfold rd. rewrite Ee. cbn [mbind outcome_bind].
    rewrite seqZ_cons by lia. replace (Z.pred (Z.of_nat (S k))) with (Z.of_nat k) by lia. cbn [omap list_omap]. rewrite Ee, filter_cons.
    destruct (Z.eqb_spec (rs_inst e) x); [by rewrite decide_True|]. rewrite decide_False by done. rewrite IH by lia. by replace (Z.succ i) with (i + 1) by lia. }
  rewrite H by lia. by rewrite Z2Nat.id by lia.
Qed.

Section Wants.
Context (abort_map : option Z) (cur tgt : cms_res_status_list).
Hypothesis (Wc : wf_slist cur) (Wt : wf_slist tgt).

Lemma seen_entry l x : wf_slist l -> seen l x = (cms_state_of (entry l x), work_state_of (entry l x)).
Proof. intros W. unfold seen. rewrite (listed_entry l x W). by destruct (listed l x). Qed.

Lemma before_repaired x : 0 <= x < OG_MAX_INSTANCES ->
  seen_before abort_map cur tgt x = (cms_state_of (entry cur x),
    rc_repair_leaving_state abort_map x (cms_state_of (entry cur x)) (work_state_of (entry cur x)) (cms_state_of (entry tgt x)) (work_state_of (entry tgt x))).
Proof.
  intros Hx. unfold seen_before, rc_repair_leaving_state. rewrite (seen_entry cur x Wc), (seen_entry tgt x Wt).
  destruct (Z.eqb_spec (cms_state_of (entry cur x)) RC_CMS_ONLINE) as [->|]; cbn [negb orb]; [|rewrite bool_decide_false by congruence; done].
  destruct (Z.eqb_spec (work_state_of (entry cur x)) RC_LEAVING) as [->|]; cbn [negb orb]; [|rewrite bool_decide_false by congruence; done].
  destruct (Z.eqb_spec (cms_state_of (entry tgt x)) RC_CMS_OFFLINE) as [->|]; cbn [negb orb]; [|rewrite (bool_decide_false (_ = (RC_CMS_OFFLINE, _))), andb_false_r by congruence; done].
  destruct (Z.eqb_spec (work_state_of (entry tgt x)) RC_JOINING) as [->|]; cbn [negb orb]; [|rewrite (bool_decide_false (_ = (RC_CMS_OFFLINE, _))), andb_false_r by congruence; done].
  rewrite !bool_decide_true by done. cbn [andb]. destruct abort_map as [b|]; [|done].
  change (rc_bitmap64_exist b x) with (drc_bitmap64_exist b x). rewrite bm_exist_testbit by (unfold OG_MAX_INSTANCES in Hx; lia). by destruct (Z.testbit b x).
Qed.

Lemma on_list_wants t x : 0 <= x < OG_MAX_INSTANCES -> on_list abort_map cur tgt t x <-> wants t (seen_before abort_map cur tgt x) (seen tgt x) = true.
Proof.
  intros Hx. rewrite (before_repaired x Hx), (seen_entry tgt x Wt). unfold on_list, action_of, classify.
  destruct (entry_ok cur x Wc) as [-> _], (entry_ok tgt x Wt) as [-> _]. cbn [mbind outcome_bind].
  pose proof (work_state_range cur x Wc) as Hpw. pose proof (work_state_range tgt x Wt) as Hnw.
  pose proof (cms_state_range (entry cur x)) as Hpc. pose proof (cms_state_range (entry tgt x)) as Hnc.
  pose proof (repair_range abort_map x (cms_state_of (entry cur x)) _ (cms_state_of (entry tgt x)) (work_state_of (entry tgt x)) Hpw) as Hr.
  destruct (sm_action_ok _ _ _ _ Hpc Hnc Hr Hnw) as (a & E & _). rewrite <- (wants_row t _ _ _ _ a Hpc Hnc Hr Hnw E), bool_decide_eq_true.
  destruct (entry cur x) eqn:E1, (entry tgt x) eqn:E2; cbn [mbind outcome_bind]; try (rewrite E; done).
  cbn in E. vm_compute in E. injection E as <-. done.
Qed.
End Wants.
