(* ===== verification/RcMembers.v ===== *)
(** The lists of a reform and the assignment of partitions: when the current
    status list tells which instances master partitions, the rebalancing that
    [drc_execute_remaster] computes from the lists of [rc_get_reform_info]
    leaves an even assignment to exactly the instances of the list AFTER
    (src/pkg/src/rc/rc_reform.c, src/pkg/src/cluster/dtc_drc.c). *)

From S2P Require Import Prelude DrcBitmap DrcGlobalRes DrcReform DrcPart DrcPartInv DrcPartThm DrcPartIn DrcPartReform RcReform RcLists.

(** ** The transitions of an instance *)

(** The transitions of an instance between two status lists, as they follow
    from its being a member ([used]: it masters partitions) or not.  A member
    has joined; it stays, leaves, crashes, or crashed and starts again.  One
    that has just joined is still listed as joining, or as offline when the
    current list is from before its reform; one whose departure failed as
    leaving, and it may have joined again.  One that is not a member is
    offline or has left, and starts or does not; one whose joining failed tries
    again, and one that has just left is still listed as leaving.  It is not
    listed as joined: the table would put it on AFTER and not on JOIN. *)
Definition fits (used : bool) (pc nc pw nw : Z) : bool :=
  let on w := (nc =? RC_CMS_ONLINE) && (nw =? w) in
  let off := (nc =? RC_CMS_OFFLINE) && (nw =? RC_JOINING) in
  if used then
    ((pc =? RC_CMS_ONLINE) &&
     (((pw =? RC_JOINED) && (on RC_JOINED || on RC_LEAVING || on RC_JOINING || off)) ||
      ((pw =? RC_JOINING) && (on RC_JOINED || off)) ||
      ((pw =? RC_LEAVING) && (on RC_LEAVING || on RC_JOINED || on RC_JOINING || off)))) ||
    ((pc =? RC_CMS_OFFLINE) && (pw =? RC_JOINING) && on RC_JOINED)
  else
    ((pc =? RC_CMS_OFFLINE) && (pw =? RC_JOINING) && (off || on RC_JOINING)) ||
    ((pc =? RC_CMS_ONLINE) && (pw =? RC_LEFT) && (on RC_LEFT || on RC_JOINING || off)) ||
    ((pc =? RC_CMS_ONLINE) && (pw =? RC_LEAVING) && on RC_LEFT) ||
    ((pc =? RC_CMS_ONLINE) && (pw =? RC_JOINING) && on RC_JOINING).

(** What such a transition puts an instance on. *)
Definition row_fits (used : bool) (a : reform_action_info) : bool :=
  let has t := bool_decide (t ∈ enque_list a) in
  implb (has REFORM_LIST_JOIN) (negb used) && implb (has REFORM_LIST_LEAVE || has REFORM_LIST_ABORT) used &&
  eqb (has REFORM_LIST_AFTER) ((used || has REFORM_LIST_JOIN) && negb (has REFORM_LIST_LEAVE || has REFORM_LIST_ABORT)) &&
  negb (happen_assert a).

Definition row_at (pc nc pw nw : Z) : reform_action_info := match sm_action pc nc pw nw with Ok a => a | Crash _ => act_assert end.

Lemma fits_row used pc nc pw nw : 0 <= pc < 2 -> 0 <= nc < 2 -> 0 <= pw < 4 -> 0 <= nw < 4 ->
  fits used pc nc pw nw = true -> row_fits used (row_at pc nc pw nw) = true.
Proof.
  intros Hpc Hnc Hpw Hnw F.
  assert (forallb (fun u => forallb (fun a => forallb (fun b => forallb (fun c => forallb (fun d =>
    implb (fits u a b c d) (row_fits u (row_at a b c d))) (seqZ 0 4)) (seqZ 0 4)) (seqZ 0 2)) (seqZ 0 2)) [true; false] = true) as T
    by (vm_compute; reflexivity).
  apply (forallb_elem _ _ used) in T; [|destruct used; set_solver].
  apply (forallb_elem _ _ pc) in T; [|apply elem_of_seqZ; lia]. apply (forallb_elem _ _ nc) in T; [|apply elem_of_seqZ; lia].
  apply (forallb_elem _ _ pw) in T; [|apply elem_of_seqZ; lia]. apply (forallb_elem _ _ nw) in T; [|apply elem_of_seqZ; lia].
  cbn beta in T. rewrite F in T. exact T.
Qed.

Section Members.
Context (abort_map : option Z) (cur tgt : cms_res_status_list).
Hypothesis (Wc : wf_slist cur) (Wt : wf_slist tgt).

(** The transition of instance [x] fits, with the repair of a departure. *)
Definition inst_fits (used : bool) (x : Z) : bool :=
  let pc := cms_state_of (entry cur x) in
  let nc := cms_state_of (entry tgt x) in
  let nw := work_state_of (entry tgt x) in
  fits used pc nc (rc_repair_leaving_state abort_map x pc (work_state_of (entry cur x)) nc nw) nw.

Lemma inst_fits_row used x : inst_fits used x = true -> row_fits used (action_of abort_map cur tgt x) = true.
Proof.
  intros F. unfold action_of, classify. destruct (entry_ok cur x Wc) as [-> _], (entry_ok tgt x Wt) as [-> _]. cbn [mbind outcome_bind].
  pose proof (work_state_range cur x Wc) as Hpw. pose proof (work_state_range tgt x Wt) as Hnw.
  pose proof (cms_state_range (entry cur x)) as Hpc. pose proof (cms_state_range (entry tgt x)) as Hnc.
  pose proof (repair_range abort_map x (cms_state_of (entry cur x)) _ (cms_state_of (entry tgt x)) (work_state_of (entry tgt x)) Hpw) as Hr.
  pose proof (fits_row _ _ _ _ _ Hpc Hnc Hr Hnw F) as R. unfold row_at in R.
  destruct (sm_action_ok _ _ _ _ Hpc Hnc Hr Hnw) as (a & E & _). rewrite E in R.
  destruct (entry cur x) eqn:Ec, (entry tgt x) eqn:Et; cbn [mbind outcome_bind]; try (rewrite E; exact R).
  unfold inst_fits in F. rewrite Ec, Et in F. destruct used; [|vm_compute; reflexivity]. vm_compute in F. discriminate F.
Qed.

(** ** The lists and the instances in use *)
Context (used : Z -> bool) (r : reform_list) (ch : bool).
Hypothesis (Er : rc_get_reform_info abort_map cur tgt = Ok (ch, r)).
Hypothesis (Hfit : forall x, 0 <= x < inst_count cur tgt -> inst_fits (used x) x = true).
Hypothesis (Hout : forall x, is_inst x -> inst_count cur tgt <= x -> used x = false).

Lemma lists_are t : list_of r t = filter (on_list abort_map cur tgt t) (seqZ 0 (inst_count cur tgt)).
Proof. destruct (reform_info_ok abort_map cur tgt Wc Wt) as (ch' & r' & E & _ & P). assert (r' = r) as -> by congruence. apply P. Qed.

Lemma on_lists t x : x ∈ list_of r t <-> on_list abort_map cur tgt t x /\ 0 <= x < inst_count cur tgt.
Proof. rewrite lists_are, list_elem_of_filter, elem_of_seqZ. split; intros [? ?]; (split; [done|lia]). Qed.

Lemma lists_nodup_inst t : NoDup (list_of r t) /\ Forall is_inst (list_of r t).
Proof.
  rewrite lists_are. split; [apply NoDup_filter, NoDup_seqZ|]. apply Forall_forall. intros x [_ Hx%elem_of_seqZ]%list_elem_of_filter.
  pose proof (inst_count_range cur tgt Wc Wt). unfold is_inst. lia.
Qed.

Lemma row_member x : 0 <= x < inst_count cur tgt ->
  (x ∈ rl_joins r -> used x = false) /\ (x ∈ rl_leaves r \/ x ∈ rl_aborts r -> used x = true) /\
  (x ∈ rl_after r <-> (used x = true \/ x ∈ rl_joins r) /\ ~ (x ∈ rl_leaves r \/ x ∈ rl_aborts r)).
Proof.
  intros Hx. pose proof (inst_fits_row _ _ (Hfit x Hx)) as R. unfold row_fits in R. repeat rewrite andb_true_iff in R.
  destruct R as (((R1 & R2) & R3) & _). apply eqb_prop in R3.
  change (rl_joins r) with (list_of r REFORM_LIST_JOIN). change (rl_leaves r) with (list_of r REFORM_LIST_LEAVE).
  change (rl_aborts r) with (list_of r REFORM_LIST_ABORT). change (rl_after r) with (list_of r REFORM_LIST_AFTER).
  rewrite !on_lists. unfold on_list. destruct (used x);
  repeat case_bool_decide; cbn in *; try discriminate; split_and!; intuition congruence.
Qed.

(** The list AFTER holds the members that neither leave nor crashed, and
    those that join. *)
Lemma after_members x : is_inst x ->
  bool_decide (x ∈ rl_after r) = without (joined used (rl_joins r)) (rl_leaves r ++ rl_aborts r) x.
Proof.
  intros Hx. unfold without, joined. apply eq_true_iff_eq. rewrite andb_true_iff, orb_true_iff, negb_true_iff, !bool_decide_eq_true, bool_decide_eq_false, elem_of_app.
  destruct (decide (x < inst_count cur tgt)) as [Hlt|Hge].
  - destruct (row_member x) as (_ & _ & H); [destruct Hx; lia|]. exact H.
  - rewrite (Hout x Hx) by lia. assert (forall t, x ∉ list_of r t) as Hno by (intros t; rewrite on_lists; lia).
    pose proof (Hno REFORM_LIST_AFTER). pose proof (Hno REFORM_LIST_JOIN). cbn in *. intuition congruence.
Qed.

Lemma members_facts :
  NoDup (rl_joins r ++ rl_leaves r ++ rl_aborts r) /\ Forall is_inst (rl_joins r ++ rl_leaves r ++ rl_aborts r) /\
  (forall x, x ∈ rl_joins r -> used x = false) /\ (forall x, x ∈ rl_leaves r ++ rl_aborts r -> used x = true) /\ rl_fails r = [].
Proof.
  pose proof (lists_nodup_inst REFORM_LIST_JOIN) as [N1 I1]. pose proof (lists_nodup_inst REFORM_LIST_LEAVE) as [N2 I2].
  pose proof (lists_nodup_inst REFORM_LIST_ABORT) as [N3 I3]. cbn [list_of] in *.
  assert (forall t x, x ∈ list_of r t -> 0 <= x < inst_count cur tgt) as Hr by (intros t x Hx; by apply on_lists in Hx as [_ ?]).
  assert (forall x, x ∈ rl_joins r -> used x = false) as Hj.
  { intros x Hx. destruct (row_member x (Hr REFORM_LIST_JOIN x Hx)) as [H _]. by apply H. }
  assert (forall x, x ∈ rl_leaves r ++ rl_aborts r -> used x = true) as Hl.
  { intros x Hx. apply elem_of_app in Hx as [Hx|Hx];
      [destruct (row_member x (Hr REFORM_LIST_LEAVE x Hx)) as (_ & H & _)|destruct (row_member x (Hr REFORM_LIST_ABORT x Hx)) as (_ & H & _)]; apply H; auto. }
  split_and!; try done.
  - apply NoDup_app. split; [done|]. split; [intros x Hx Hx'; specialize (Hj x Hx); specialize (Hl x Hx'); congruence|].
    apply NoDup_app. split_and!; try done. intros x Hx Hx'. destruct (row_facts abort_map cur tgt Wc Wt x) as (_ & _ & F & _).
    apply (on_lists REFORM_LIST_LEAVE x) in Hx as [Hx _]. apply (on_lists REFORM_LIST_ABORT x) in Hx' as [Hx' _]. by apply F in Hx as (_ & _ & Hx).
  - by rewrite !Forall_app.
  - apply elem_of_nil_inv. intros x Hx. apply (on_lists REFORM_LIST_FAIL x) in Hx as [Hx _].
    destruct (row_facts abort_map cur tgt Wc Wt x) as [F _]. by apply F.
Qed.
End Members.

(** ** The rebalancing of these lists *)

(** The lists that the remaster reads. *)
Definition drc_lists (r : reform_list) : reform_lists := mk_rlists (rl_joins r) (rl_leaves r) (rl_aborts r) (rl_fails r).

(** An even assignment to exactly the instances of a list. *)
Definition even_over (members : list Z) (pm : gmap Z drc_part) (tbl : gmap Z drc_inst_part) : Prop :=
  exists ls, balanced pm tbl ls (len members) /\ forall x, is_inst x -> used_of tbl x = bool_decide (x ∈ members).

Lemma even_over_num members pm tbl ls n : balanced pm tbl ls n -> NoDup members -> Forall is_inst members ->
  (forall x, is_inst x -> used_of tbl x = bool_decide (x ∈ members)) -> n = len members.
Proof.
  intros B Hnd Hin U. rewrite <- (ba_num _ _ _ _ B). rewrite (rank_ext _ (joined (fun _ => false) members)).
  - rewrite rank_joined by done. assert (rank (fun _ => false) OG_MAX_INSTANCES = 0) as -> by (vm_compute; reflexivity). lia.
  - intros y Hy. by rewrite U.
Qed.

Section Rebalance.
Context (abort_map : option Z) (cur tgt : cms_res_status_list) (m : drc_part_mngr) (ls : Z -> list Z) (n : Z) (r : reform_list) (ch : bool) (x0 : Z).

(** The reformer is ready: its assignment is even, the current list tells its
    members, and one of them (itself) stays. *)
Record reformer_ready : Prop := {
  rr_cur : wf_slist cur;
  rr_tgt : wf_slist tgt;
  rr_bal : balanced (part_map m) (inst_part_tbl m) ls n;
  rr_num : pm_inst_num m = n;
  rr_dom : forall j, 0 <= j < DRC_MAX_PART_NUM -> is_Some (remaster_task_set m !! j);
  rr_lists : rc_get_reform_info abort_map cur tgt = Ok (ch, r);
  rr_fit : forall x, 0 <= x < inst_count cur tgt -> inst_fits abort_map cur tgt (used_of (inst_part_tbl m) x) x = true;
  rr_out : forall x, is_inst x -> inst_count cur tgt <= x -> used_of (inst_part_tbl m) x = false;
  rr_stay : is_inst x0 /\ used_of (inst_part_tbl m) x0 = true /\ x0 ∈ rl_after r;
}.
Hypothesis (R : reformer_ready).

#[local] Notation used := (used_of (inst_part_tbl m)).

Lemma after_is x : is_inst x -> bool_decide (x ∈ rl_after r) = without (joined used (rl_joins r)) (rl_leaves r ++ rl_aborts r) x.
Proof. intros Hx. destruct R as [Wc Wt _ _ _ E F O _]. exact (after_members abort_map cur tgt Wc Wt _ r ch E F O x Hx). Qed.

(** Some member is left. *)
Lemma gone_lt gone : (forall x, x ∈ gone -> x ∈ rl_leaves r ++ rl_aborts r) -> NoDup gone -> Forall is_inst gone -> len gone < n.
Proof.
  intros Hg Hnd Hin. destruct R as [Wc Wt B _ _ E F O (Hi & Hu & Ha)]. rewrite <- (ba_num _ _ _ _ B).
  destruct (members_facts abort_map cur tgt Wc Wt used r ch E F) as (_ & _ & _ & Hl & _).
  assert (rank (without used gone) OG_MAX_INSTANCES = rank used OG_MAX_INSTANCES - len gone) as Hr by (apply rank_without; [done|done|]; intros x Hx; apply Hl, Hg, Hx).
  pose proof (rank_lt (without used gone) x0 OG_MAX_INSTANCES) as Hlt. pose proof (rank_nonneg (without used gone) x0).
  destruct Hi as [Hi0 Hi1]. specialize (Hlt ltac:(lia)). unfold without at 1 in Hlt. rewrite Hu in Hlt.
  rewrite bool_decide_false in Hlt; [specialize (Hlt eq_refl); lia|].
  intros Hx%Hg. pose proof (after_is x0 ltac:(split; lia)) as A. unfold without in A.
  rewrite (bool_decide_true _ Ha), (bool_decide_true _ Hx), andb_false_r in A. discriminate A.
Qed.

Lemma reform_even_over m' ls' k : balanced (target_part_map m') (target_inst_part_tbl m') ls' k ->
  (forall x, is_inst x -> used_of (target_inst_part_tbl m') x = without (joined used (rl_joins r)) (rl_leaves r ++ rl_aborts r) x) ->
  even_over (rl_after r) (target_part_map m') (target_inst_part_tbl m').
Proof.
  intros B U. assert (forall x, is_inst x -> used_of (target_inst_part_tbl m') x = bool_decide (x ∈ rl_after r)) as U' by (intros x Hx; by rewrite U, after_is).
  destruct R as [Wc Wt _ _ _ E _ _ _]. destruct (lists_nodup_inst abort_map cur tgt Wc Wt r ch E REFORM_LIST_AFTER) as [Hnd Hin].
  cbn [list_of] in *. exists ls'. split; [|exact U']. by rewrite <- (even_over_num _ _ _ _ _ B Hnd Hin U').
Qed.

(** A planned reform. *)
Lemma planned_rebalance : rl_aborts r = [] ->
  can_reform m ls n (rl_joins r) (rl_leaves r) /\ none_removed m (rl_aborts r) (rl_fails r) /\
  exists m', execute_rebalance false (drc_lists r) m = Ok (OG_SUCCESS, m') /\
    even_over (rl_after r) (target_part_map m') (target_inst_part_tbl m') /\ pm_inst_num m' = len (rl_after r).
Proof.
  intros Hab. destruct R as [Wc Wt B Hn D E F O _].
  destruct (members_facts abort_map cur tgt Wc Wt used r ch E F) as (Nd & In & Hj & Hl & Hf). rewrite Hab, app_nil_r in *.
  assert (can_reform m ls n (rl_joins r) (rl_leaves r)) as C.
  { split; try done. apply NoDup_app in Nd as (_ & _ & Nd). apply Forall_app in In as [_ In].
    pose proof (gone_lt (rl_leaves r) ltac:(set_solver) Nd In). unfold len in *. lia. }
  assert (none_removed m (rl_aborts r) (rl_fails r)) as Nr by (right; done). rewrite Hab in Nr.
  split; [done|]. split; [done|]. destruct (reform_ok m ls n _ _ C _ _ Nr) as (m' & ls' & Em & B' & U & _ & _ & Hn' & _).
  exists m'. assert (even_over (rl_after r) (target_part_map m') (target_inst_part_tbl m')) as Ev.
  { eapply reform_even_over; [exact B'|]. intros x Hx. rewrite U by done. by rewrite Hab, app_nil_r. }
  split; [unfold drc_lists; by rewrite Hab|]. split; [done|]. rewrite Hn'. destruct Ev as (ls2 & B2 & U2).
  destruct (lists_nodup_inst abort_map cur tgt Wc Wt r ch E REFORM_LIST_AFTER) as [Hnd Hin]. by eapply even_over_num.
Qed.

(** A reform because of crashes. *)
Lemma crash_rebalance : rl_joins r = [] -> rl_leaves r = [] -> rl_aborts r <> [] -> pm_mgrt_fail_list m = true ->
  exists m', execute_rebalance false (drc_lists r) m = Ok (OG_SUCCESS, m') /\
    even_over (rl_after r) (target_part_map m') (target_inst_part_tbl m') /\ task_num m' = 0.
Proof.
  intros Hjn Hln Hne Hm. destruct R as [Wc Wt B Hn D E F O _].
  destruct (members_facts abort_map cur tgt Wc Wt used r ch E F) as (Nd & In & Hj & Hl & Hf). rewrite Hjn, Hln in *. cbn [app] in *.
  assert (can_reform m ls n [] (rl_aborts r)) as C.
  { split; try done. pose proof (gone_lt (rl_aborts r) ltac:(rewrite Hln; set_solver) Nd In). unfold len in *. cbn [length]. lia. }
  destruct (abort_ok m ls n [] (rl_aborts r) C eq_refl Hne Hm) as (m' & ls' & Em & B' & U & Ht & _).
  exists m'. unfold drc_lists. rewrite Hjn, Hln, Hf. split; [done|]. split; [|done].
  eapply reform_even_over; [exact B'|]. intros x Hx. rewrite U, Hjn, Hln by done. cbn [app]. unfold without, joined.
  by rewrite (bool_decide_false (x ∈ [])), orb_false_r by apply not_elem_of_nil.
Qed.
End Rebalance.
