(* ===== verification/RcCluster.v ===== *)
(** The cluster as a state machine: instances start, report, crash; the
    cluster manager admits one at a time (src/pkg/src/cms/cms/cms_stat.c), the
    reformer detects changes, reforms and remasters
    (src/pkg/src/rc/rc_reform.c, src/pkg/src/cluster/dtc_drc.c).

    The two threads of the reformer interleave: the one that looks at the
    cluster may do so at any time, and only the status that the other one has
    set tells it not to trigger a reform ([RC_REFORM_IN_PROGRESS]).

    The reformer is one instance that stays; node [i] of the configuration
    runs instance [i]; no reform fails, and none has instances that crash
    together with others that join ([not_mixed]); DRC_IN_REFORMER_MODE is off.
    An instance that shuts down does so as one that crashes: [free_dtc_rc]
    never asks for a departure. *)

From S2P Require Import Prelude DrcBitmap DrcGlobalRes DrcReform DrcPart DrcPartInv DrcPartThm DrcPartIn DrcPartReform.
From S2P Require Import DrcRemaster DrcRemasterFsm DrcRemasterInv RcReform RcTrigger RcLists RcMembers.

(** ** What the cluster manager knows of an instance *)
Inductive inst_state := Offline | Joining | Joined.

#[export] Instance inst_state_eq_dec : EqDecision inst_state.
Proof. solve_decision. Defined.

Definition stat_of (s : inst_state) : Z := match s with Offline => CMS_RES_OFFLINE | _ => CMS_RES_ONLINE end.
Definition work_of (s : inst_state) : Z := match s with Joined => RC_JOINED | _ => RC_JOINING end.
Definition id_of (s : inst_state) (x : Z) : Z := match s with Offline => 255 | _ => x end.

(** The status list of the cluster manager. *)
Definition nodes_of (ss : list inst_state) : list cms_node := imap (fun i s => Node (Z.of_nat i) (stat_of s) (work_of s)) ss.
Definition snapshot (version self : Z) (ss : list inst_state) : outcome (option cms_res_status_list) :=
  cms_get_cluster_res_list (nodes_of ss) (zero_slist version self).

(** A status list shows a state for each of [n] instances. *)
Record shows (n : Z) (l : cms_res_status_list) (f : Z -> inst_state) : Prop := {
  sh_count : sl_count l = n;
  sh_range : 0 <= n <= OG_MAX_INSTANCES;
  sh_at : forall x, 0 <= x < n -> sl_list l !! x = Some (mk_rstat (id_of (f x) x) (stat_of (f x)) (work_of (f x)));
  sh_rest : forall x, n <= x < OG_MAX_INSTANCES -> sl_list l !! x = Some (mk_rstat 0 0 0);
}.

Lemma shows_wf n l f : shows n l f -> wf_slist l.
Proof.
  intros [Hc Hr Ha Hz]. split; [lia|]. intros i Hi. destruct (decide (i < n)) as [Hlt|Hge].
  - eexists. split; [apply Ha; lia|]. cbn. destruct (f i); vm_compute; split; congruence.
  - eexists. split; [apply Hz; lia|]. cbn. lia.
Qed.

Lemma find_shows n l f k i id : shows n l f -> 0 <= i -> i + Z.of_nat k = n -> 0 <= id < OG_MAX_INSTANCES ->
  find_stat k i (sl_list l) id =
    Ok (if decide (i <= id < n /\ f id <> Offline) then Some (mk_rstat id CMS_RES_ONLINE (work_of (f id))) else None).
Proof.
  intros S Hi Hk Hid. revert i Hi Hk. induction k as [|k IH]; intros i Hi Hk; cbn [find_stat].
  - rewrite decide_False by lia. done.
  - unfold rd. rewrite (sh_at _ _ _ S i) by lia. cbn [mbind outcome_bind rs_inst].
    destruct (Z.eqb_spec (id_of (f i) i) id) as [He|Hne].
    + unfold id_of in He. destruct (f i) eqn:Ef; [unfold OG_MAX_INSTANCES in Hid; lia| |]; subst id; rewrite decide_True by (rewrite Ef; split; [lia|done]); by rewrite Ef.
    + rewrite IH by lia. f_equal. destruct (decide (i = id)) as [->|Hii].
      * destruct (f id) eqn:Ef; cbn [id_of] in Hne; try lia. rewrite !decide_False by (rewrite ?Ef; naive_solver). done.
      * destruct (decide (i + 1 <= id < n /\ f id <> Offline)) as [[? ?]|H1], (decide (i <= id < n /\ f id <> Offline)) as [[? ?]|H2]; try done; exfalso.
        -- apply H2. split; [lia|done].
        -- apply H1. split; [lia|done].
Qed.

Lemma entry_shows n l f x : shows n l f -> 0 <= x < n -> entry l x = match f x with Offline => None | s => Some (mk_rstat x CMS_RES_ONLINE (work_of s)) end.
Proof.
  intros S Hx. pose proof (sh_range _ _ _ S). unfold entry, get_res_stat_by_inst_id.
  rewrite (sh_count _ _ _ S), (find_shows n l f) by (done || lia).
  destruct (f x) eqn:Ef; [rewrite decide_False by naive_solver|rewrite decide_True by (split; [lia|done])..]; done.
Qed.

(** What the cluster manager builds shows the states. *)
Lemma res_list_shows n ss l f k : shows k l f -> k + len ss = n -> n <= OG_MAX_INSTANCES ->
  exists l', cms_get_cluster_res_list (imap (fun i s => Node (k + Z.of_nat i) (stat_of s) (work_of s)) ss) l = Ok (Some l') /\
    sl_version l' = sl_version l /\ sl_master l' = sl_master l /\
    shows n l' (fun x => if decide (x < k) then f x else default Offline (ss !! Z.to_nat (x - k))).
Proof.
  intros S Hk Hn. revert k l f S Hk. induction ss as [|s ss IH]; intros k l f S Hk; unfold len in *; cbn [length imap cms_get_cluster_res_list] in *.
  - exists l. split_and!; try done. replace n with k by lia. destruct S as [Hc Hr Ha Hz]. split; try done. intros x Hx. rewrite decide_True by lia. by apply Ha.
  - pose proof S as [Hc Hr Ha Hz]. unfold wr, rd. rewrite Hc, Hz by lia. cbn [mbind outcome_bind]. rewrite Nat.add_0_r || idtac.
    set (e := mk_rstat _ _ _). set (l1 := mk_slist _ _ _ _).
    assert (e = mk_rstat (id_of s k) (stat_of s) (work_of s)) as Ee.
    { unfold e. f_equal. rewrite Z.add_0_r. unfold u8. rewrite Z.mod_small by (unfold OG_MAX_INSTANCES in *; lia). by destruct s. }
    assert (shows (k + 1) l1 (fun x => if decide (x = k) then s else f x)) as S1.
    { split; cbn.
      - unfold u8. rewrite Z.mod_small; [lia|]. unfold OG_MAX_INSTANCES in *. lia.
      - lia.
      - intros x Hx. destruct (decide (x = k)) as [->|Hne]; [by rewrite lookup_insert_eq, Ee|]. rewrite lookup_insert_ne by done. apply Ha. lia.
      - intros x Hx. rewrite lookup_insert_ne by lia. apply Hz. lia. }
    destruct (IH (k + 1) l1 _ S1) as (l' & E & Ev & Em & S'); [lia|]. exists l'. split_and!; [|by rewrite Ev|by rewrite Em|].
    + rewrite <- E. f_equal. apply imap_ext. intros i x _. cbn. f_equal. lia.
    + destruct S' as [Hc' Hr' Ha' Hz']. split; try done. intros x Hx. rewrite (Ha' x Hx). f_equal.
      assert ((if decide (x < k + 1) then if decide (x = k) then s else f x else default Offline (ss !! Z.to_nat (x - (k + 1)))) =
              (if decide (x < k) then f x else default Offline ((s :: ss) !! Z.to_nat (x - k)))) as ->; [|done].
      destruct (decide (x < k)), (decide (x < k + 1)), (decide (x = k)); try lia; try done.
      * subst x. by replace (Z.to_nat (k - k)) with 0%nat by lia.
      * by replace (Z.to_nat (x - k)) with (Datatypes.S (Z.to_nat (x - (k + 1)))) by lia.
Qed.

Definition state_at (ss : list inst_state) (x : Z) : inst_state := default Offline (ss !! Z.to_nat x).

Lemma snapshot_shows version self ss : len ss <= OG_MAX_INSTANCES ->
  exists l, snapshot version self ss = Ok (Some l) /\ sl_version l = version /\ shows (len ss) l (state_at ss).
Proof.
  intros Hn. assert (shows 0 (zero_slist version self) (fun _ => Offline)) as S0.
  { split; cbn; [done|unfold OG_MAX_INSTANCES; lia|lia|]. intros x Hx. by apply filled_lookup. }
  destruct (res_list_shows (len ss) ss _ _ 0 S0) as (l & E & Ev & _ & S); [lia|done|]. exists l. split_and!; [|done|].
  - unfold snapshot, nodes_of. rewrite <- E. reflexivity.
  - destruct S as [Hc Hr Ha Hz]. split; try done. intros x Hx. rewrite (Ha x Hx), decide_False by lia. by rewrite Z.sub_0_r.
Qed.

(** ** The loops over a list *)

Lemma wf_rd l i : wf_slist l -> 0 <= i < OG_MAX_INSTANCES -> exists e, rd (sl_list l) i = Ok e.
Proof. intros W Hi. destruct (ws_entry _ W i Hi) as (e & He & _). exists e. unfold rd. by rewrite He. Qed.

Lemma alive_loop_ok l k i b : wf_slist l -> 0 <= i -> i + Z.of_nat k <= OG_MAX_INSTANCES -> exists b', alive_loop k i (sl_list l) b = Ok b'.
Proof.
  intros W. revert i b. induction k as [|k IH]; intros i b Hi Hk; cbn [alive_loop]; [by exists b|].
  destruct (wf_rd l i W) as (e & ->); [lia|]. cbn [mbind outcome_bind]. apply IH; lia.
Qed.

Lemma view_loop_ok l k i b c : wf_slist l -> 0 <= i -> i + Z.of_nat k <= OG_MAX_INSTANCES -> exists b' c', view_loop k i (sl_list l) b c = Ok (b', c').
Proof.
  intros W. revert i b c. induction k as [|k IH]; intros i b c Hi Hk; cbn [view_loop]; [by exists b, c|].
  destruct (wf_rd l i W) as (e & ->); [lia|]. cbn [mbind outcome_bind]. case_match; apply IH; lia.
Qed.

Lemma cluster_view_ok l v : wf_slist l -> exists v', rc_update_cluster_view l v = Ok v'.
Proof.
  intros W. pose proof (ws_count _ W). unfold rc_update_cluster_view.
  destruct (view_loop_ok l (Z.to_nat (sl_count l)) 0 0 0 W) as (b & c & ->); [lia|lia|]. by eexists.
Qed.

Lemma joining_shows n l f k i : shows n l f -> 0 <= i -> i + Z.of_nat k = n ->
  exists b, joining_loop k i (sl_list l) = Ok b /\ (b = false <-> forall x, i <= x < n -> f x <> Joining).
Proof.
  intros S. revert i. induction k as [|k IH]; intros i Hi Hk; cbn [joining_loop].
  - exists false. split; [done|]. split; [intros _ x Hx; lia|done].
  - unfold rd. rewrite (sh_at _ _ _ S i) by lia. cbn [mbind outcome_bind rs_stat rs_work].
    destruct (f i) eqn:Ef; cbn [stat_of work_of CMS_RES_ONLINE CMS_RES_OFFLINE RC_JOINING RC_JOINED Z.eqb Pos.eqb andb].
    2: { exists true. split; [done|]. split; [done|]. intros H. by destruct (H i ltac:(lia)). }
    all: destruct (IH (i + 1)) as (b & -> & Hb); [lia|lia|]; exists b; split; [done|]; rewrite Hb; split; intros H x Hx; [|apply H; lia].
    all: destruct (decide (x = i)) as [->|]; [by rewrite Ef|apply H; lia].
Qed.

Lemma steady_shows n l f x : shows n l f -> 0 <= x < n -> cms_res_stat_steady x l = Ok true -> f x = Offline.
Proof.
  intros S Hx. unfold cms_res_stat_steady, rd. rewrite (sh_at _ _ _ S x Hx). cbn [mbind outcome_bind].
  unfold is_cur_res_offline. cbn [rs_stat]. by destruct (f x).
Qed.

(** ** The world *)

(** Where the thread that reforms is: it waits for [reform_mutex]; it has
    taken it and read the mode; it has set the status to [REFORM_FROZEN]; the
    remaster of the reform is done. *)
Inductive phase := Idle | Taken | Frozen | Mastered.

#[export] Instance phase_eq_dec : EqDecision phase.
Proof. solve_decision. Defined.

Record world := mk_world {
  w_insts : list inst_state;         (* the cluster manager's states *)
  w_version : Z;                     (* the version of these *)
  w_start : option (Z * bool);       (* who holds the start lock, and has it registered? *)
  w_ctx : rc_ctx;                    (* of the reformer *)
  w_data : cms_data;
  w_part : drc_part_mngr;            (* of the reformer *)
  w_phase : phase;
  w_awake : bool;                    (* is reform_mutex unlocked? *)
}.

(** A reform remasters: [dtc_remaster_init] and [drc_start_remaster], the
    rebalancing, and the end of the thread. *)
Definition part_node (m : drc_part_mngr) : node := mk_node m (mk_rmngr ∅ ∅ ∅ 0 0 0) true 0 0 false ∅.
Definition remaster_start (version self : Z) (r : reform_list) (m : drc_part_mngr) : drc_part_mngr :=
  nd_part (drc_start_remaster (len (rl_before r)) (mk_rinfo (drc_lists r) (rl_after r) self) OG_SUCCESS (dtc_remaster_init version (part_node m))).
Definition remaster_end (r : reform_list) (m : drc_part_mngr) : drc_part_mngr :=
  nd_part (nd_set_inst_num (len (rl_after r)) (nd_to REMASTER_DONE (publish_parts (part_node m)).2)).

(** The lists that the rebalancing can do: of instances that join, or of
    instances that crashed. *)
Definition not_mixed (r : reform_list) : Prop := rl_aborts r = [] \/ (rl_joins r = [] /\ rl_leaves r = []).

Section Steps.
Context (self : Z).

Inductive cluster_step : world -> world -> Prop :=
(* cms_res_start: the lock is taken and the reform is done *)
| step_admit ss v c d m p a x :
    ss !! Z.to_nat x = Some Offline -> 0 <= x ->
    cms_check_cluster_reform_stat x (Some (cd_current d)) (Some (cd_target d)) = Ok (Some true) ->
    cluster_step (mk_world ss v None c d m p a) (mk_world ss v (Some (x, false)) c d m p a)
(* the instance registers *)
| step_register ss v c d m p a x :
    ss !! Z.to_nat x = Some Offline ->
    cluster_step (mk_world ss v (Some (x, false)) c d m p a)
      (mk_world (<[Z.to_nat x := Joining]> ss) (v + 1) (Some (x, true)) c d m p a)
(* wait_for_node_joined ends *)
| step_unlock ss v c d m p a x b s :
    ss !! Z.to_nat x = Some s -> s <> Joining ->
    cluster_step (mk_world ss v (Some (x, b)) c d m p a) (mk_world ss v None c d m p a)
(* an instance crashes *)
| step_crash ss v st c d m p a x s :
    ss !! Z.to_nat x = Some s -> s <> Offline -> 0 <= x -> x <> self ->
    cluster_step (mk_world ss v st c d m p a) (mk_world (<[Z.to_nat x := Offline]> ss) (v + 1) st c d m p a)
(* a turn of rc_reform_trigger_proc of the reformer, wherever the other thread is *)
| step_observe ss v st c d m p a now readable written abort_map changed c1 d1 ret woken c2 d2 :
    snapshot v self ss = Ok (Some now) ->
    rc_master_stat_changed true (Some now) readable written c d = Ok (changed, c1, d1) ->
    rc_detect_reform_triggered changed abort_map c1 d1 = Ok (Go (ret, woken, c2, d2)) ->
    cluster_step (mk_world ss v st c d m p a) (mk_world ss v st c2 d2 m p (a || woken))
(* rc_reform_proc gets the mutex *)
| step_take ss v st c d m :
    cluster_step (mk_world ss v st c d m Idle true) (mk_world ss v st c d m Taken false)
(* rc_start_new_reform begins *)
| step_freeze ss v st c d m a :
    cluster_step (mk_world ss v st c d m Taken a) (mk_world ss v st (rx_set_status REFORM_FROZEN c) d m Frozen a)
(* the remaster of the reform *)
| step_remaster ss v st c d m m' a :
    rc_full_restart (rx_info c) = false -> not_mixed (rx_lists c) ->
    execute_rebalance false (drc_lists (rx_lists c)) (remaster_start (rc_trigger_version (rx_info c)) self (rx_lists c) m) = Ok (OG_SUCCESS, m') ->
    cluster_step (mk_world ss v st c d m Frozen a) (mk_world ss v st c d (remaster_end (rx_lists c) m') Mastered a)
(* rc_check_finished of an instance that joins *)
| step_joined ss v v' st c d m a x :
    ss !! Z.to_nat x = Some Joining -> x ∈ rl_joins (rx_lists c) -> v <= v' ->
    cluster_step (mk_world ss v st c d m Mastered a) (mk_world (<[Z.to_nat x := Joined]> ss) v' st c d m Mastered a)
(* the turn of rc_reform_proc, with the mode it has read, does not fail and ends *)
| step_finish ss v st c d m a now mode primary need_arch s c' d' :
    snapshot v self ss = Ok (Some now) ->
    reform_turn mode primary need_arch s [now] c d = Ok (Go (Some (c', d'))) -> rc_have_error (rx_info c') = false ->
    cluster_step (mk_world ss v st c d m Mastered a) (mk_world ss v st c' d' m Idle a).

(** The thread that reforms is not woken up a second time between taking the
    mutex and freezing the cluster. *)
Definition calm_step (w w' : world) : Prop := cluster_step w w' /\ (w_phase w = Taken -> w_awake w' = false).
End Steps.
