(* ===== verification/RcClusterInv.v ===== *)
(** The invariant of the cluster: the current status list tells which
    instances master partitions, in every state that starting, crashing and
    reforming can reach. *)

From S2P Require Import Prelude DrcBitmap DrcGlobalRes DrcReform DrcPart DrcPartInv DrcPartThm DrcPartIn DrcPartInit DrcPartReform DrcPartProps.
From S2P Require Import DrcRemaster DrcRemasterFsm DrcRemasterInv RcReform RcTrigger RcLists RcMembers RcCluster.

(** ** What the functions of the coordinator keep *)
Definition core_of (c : rc_ctx) := (rx_self c, rx_cur c, rx_tgt c, rx_lists c, rc_master_id (rx_info c)).

Lemma refresh_keeps readable written alive d :
  cd_current (rc_refresh_cms_abort_ref_map readable written alive d) = cd_current d /\
  cd_target (rc_refresh_cms_abort_ref_map readable written alive d) = cd_target d.
Proof. unfold rc_refresh_cms_abort_ref_map. by case_match. Qed.

Lemma master_changed_spec now readable written c d ch c1 d1 :
  rc_master_stat_changed true (Some now) readable written c d = Ok (ch, c1, d1) -> rc_have_error (rx_info c) = false ->
  (ch = false /\ c1 = c /\ d1 = d /\ RC_REFORM_IN_PROGRESS c = true \/
   ch = false /\ RC_REFORM_IN_PROGRESS c = false /\ sl_version now <= sl_version (cd_current d) /\
     rx_tgt c1 = now /\ rx_lists c1 = rx_lists c /\ cd_current d1 = cd_current d /\ cd_target d1 = cd_target d \/
   ch = true /\ rx_cur c1 = cd_current d /\ rx_tgt c1 = now /\ cd_current d1 = cd_current d /\ cd_target d1 = now) /\
  rx_self c1 = rx_self c /\ rc_master_id (rx_info c1) = rc_master_id (rx_info c) /\ rc_have_error (rx_info c1) = false /\
  RC_REFORM_IN_PROGRESS c1 = RC_REFORM_IN_PROGRESS c.
Proof.
  unfold rc_master_stat_changed. destruct (RC_REFORM_IN_PROGRESS c) eqn:Ep; [intros [= <- <- <-] H; split_and!; auto|].
  cbn [negb]. unfold master_fetched, rc_refresh_alive_bitmap. intros E He.
  destruct (alive_loop _ _ _ _) as [b|]; cbn [mbind outcome_bind] in E; [|done].
  pose proof (refresh_keeps readable written (rc_alive_bitmap (set_alive b (rx_info (rx_set_tgt now (rx_set_cur (cd_current d) c))))) d) as [K1 K2].
  assert (forall f, RC_REFORM_IN_PROGRESS (rx_with f (rx_set_tgt now (rx_set_cur (cd_current d) c))) = false) as Hp by (intros f; exact Ep).
  rewrite Hp in E. cbn [andb] in E. destruct (Z.leb_spec (sl_version (rx_tgt (rx_with (fun _ => set_alive b (rx_info (rx_set_tgt now (rx_set_cur (cd_current d) c))))
    (rx_set_tgt now (rx_set_cur (cd_current d) c))))) (sl_version (rx_cur (rx_with (fun _ => set_alive b (rx_info (rx_set_tgt now (rx_set_cur (cd_current d) c))))
    (rx_set_tgt now (rx_set_cur (cd_current d) c)))))) as [Hle|Hgt]; cbn in Hle || cbn in Hgt;
  repeat case_match; injection E as <- <- <-; split_and!; try done; try (right; left; split_and!; done); right; right; split_and!; try done.
Qed.

Lemma detect_spec ch abort_map c1 d1 ret woken c2 d2 :
  rc_detect_reform_triggered ch abort_map c1 d1 = Ok (Go (ret, woken, c2, d2)) ->
  (woken = false /\ c2 = c1 /\ d2 = d1 /\ (ch = true -> RC_REFORM_IN_PROGRESS c1 = true) \/
   ch = true /\ exists mc r, rc_get_reform_info abort_map (rx_cur c1) (rx_tgt c1) = Ok (mc, r) /\ woken = mc /\
     cd_target d2 = cd_target d1 /\ rx_lists c2 = r /\
     (mc = false -> rx_tgt c2 = rx_cur c1 /\ cd_current d2 = if rc_is_master c1 then rx_tgt c1 else cd_current d1) /\
     (mc = true -> cd_current d2 = cd_current d1 /\ rx_cur c2 = rx_cur c1 /\ rx_tgt c2 = rx_tgt c1)) /\
  rx_self c2 = rx_self c1 /\ rc_master_id (rx_info c2) = rc_master_id (rx_info c1) /\ rc_have_error (rx_info c2) = rc_have_error (rx_info c1).
Proof.
  unfold rc_detect_reform_triggered. destruct ch; cbn [negb]; [|intros [= <- <- <- <-]; split_and!; try done; left; split_and!; done].
  destruct (RC_REFORM_IN_PROGRESS c1); [intros [= <- <- <- <-]; split_and!; try done; left; split_and!; done|]. unfold ctx_get_reform_info. intros E.
  destruct (rc_get_reform_info abort_map (rx_cur c1) (rx_tgt c1)) as [[mc r]|] eqn:Ei; cbn [mbind outcome_bind] in E; [|done].
  destruct mc; cbn [negb] in E.
  - set (c := mk_ctx _ _ _ _ _ _ _ _ _ _) in E. destruct (rc_reformer_trigger c d1) as [[c3 d3]|] eqn:Et; [|done].
    assert (cd_current d3 = cd_current d1 /\ cd_target d3 = cd_target d1 /\ core_of c3 = core_of c /\ rc_have_error (rx_info c3) = rc_have_error (rx_info c)) as (T1 & T2 & T3 & T4).
    { unfold rc_reformer_trigger in Et. repeat case_match; simplify_eq; done. }
    destruct (rc_update_cluster_view _ _) as [v|]; cbn [mbind outcome_bind] in E; [|done]. injection E as <- <- <- <-.
    unfold core_of, c in T3. cbn in T3. injection T3 as U1 U2 U3 U4 U5. cbn in T4. cbn. split_and!; try congruence. right. split; [done|].
    exists true, r. split_and!; try congruence; try done.
  - unfold rc_current_stat_step_forward in E. injection E as <- <- <- <-. cbn. split_and!; try done. right. split; [done|]. exists false, r. split_and!; try done.
    + by case_match.
    + intros _. split; [done|]. unfold rc_is_master. cbn. by case_match.
Qed.

Lemma partial_keeps mode s c ret c' : rc_master_partial_recovery mode s c = Ok (ret, c') -> core_of c' = core_of c.
Proof.
  unfold rc_master_partial_recovery, rc_set_redo_replay_done, knl_panic. destruct (bool_decide (mode = _)); [case_bool_decide; intros [= <- <-]; done|].
  cbn [negb andb]. destruct (rx_status c <? REFORM_RECOVER_DONE); cbn [mbind outcome_bind]; [|done]. case_bool_decide; intros [= <- <-]; done.
Qed.

Lemma rollback_keeps primary s c ret c' : rc_master_rollback_node primary s c = (ret, c') -> core_of c' = core_of c.
Proof. unfold rc_master_rollback_node. repeat case_match; intros [= <- <-]; done. Qed.

Lemma ckpt_keeps mode s c ret c' : rc_master_wait_ckpt_finish mode s c = (ret, c') -> core_of c' = core_of c.
Proof. unfold rc_master_wait_ckpt_finish. case_match; intros [= <- <-]; done. Qed.

Lemma recover_keeps mode s c ret c' : master_recover mode s c = Ok (ret, c') -> core_of c' = core_of c.
Proof.
  unfold master_recover. destruct (rc_full_restart (rx_info c)); [destruct (st_cancelled s); intros [= <- <-]; done|].
  case_bool_decide; [intros [= <- <-]; done|]. intros E. apply partial_keeps in E. exact E.
Qed.

Lemma master_reform_keeps primary need_arch mode s c ret c' : rc_master_reform primary need_arch mode s c = Ok (ret, c') -> core_of c' = core_of c.
Proof.
  unfold rc_master_reform. intros E.
  destruct (master_recover mode s c) as [[ret1 c1]|] eqn:E1; cbn [mbind outcome_bind] in E; [|done].
  apply recover_keeps in E1. transitivity (core_of c1); [|exact E1].
  destruct (bool_decide (ret1 = OG_ERROR)); [by simplify_eq|]. destruct (bool_decide (st_clean s = OG_ERROR)); [by simplify_eq|].
  destruct (need_arch && bool_decide (st_arch s = OG_ERROR)); [by simplify_eq|].
  destruct (rc_master_rollback_node primary s c1) as [ret2 c2] eqn:E2. apply rollback_keeps in E2. transitivity (core_of c2); [|exact E2].
  destruct (bool_decide (ret2 = OG_ERROR)); [by simplify_eq|].
  destruct (rc_master_wait_ckpt_finish mode s c2) as [ret3 c3] eqn:E3. apply ckpt_keeps in E3. transitivity (core_of c3); [|exact E3].
  destruct (bool_decide (ret3 = OG_ERROR)); [by simplify_eq|]. destruct (need_arch && bool_decide (st_arch_end s = OG_ERROR)); by simplify_eq.
Qed.

Lemma follower_keeps need_arch s c : core_of (rc_follower_reform need_arch s c).2 = core_of c.
Proof. unfold rc_follower_reform. repeat case_match; done. Qed.

Lemma new_reform_keeps primary need_arch mode s c ret c' : rc_start_new_reform primary need_arch mode s c = Ok (ret, c') -> core_of c' = core_of c.
Proof.
  unfold rc_start_new_reform. case_bool_decide; [intros [= <- <-]; done|]. intros E.
  destruct (if rc_is_master _ then _ else _) as [[ret1 c1]|] eqn:E1; cbn [mbind outcome_bind] in E; [|done].
  assert (core_of c1 = core_of c) as E2.
  { destruct (rc_is_master _); [apply master_reform_keeps in E1; exact E1|]. injection E1 as E1. pose proof (follower_keeps need_arch s (rx_set_status REFORM_FROZEN c)) as K. rewrite E1 in K. exact K. }
  destruct (_ || _); injection E as <- <-; exact E2.
Qed.

Lemma start_reform_keeps primary need_arch mode s c ret c' : rc_start_reform primary need_arch mode s c = Ok (ret, c') -> core_of c' = core_of c.
Proof.
  unfold rc_start_reform. intros E. destruct (rc_start_new_reform _ _ _ _ _) as [[ret1 c1]|] eqn:E1; cbn [mbind outcome_bind] in E; [|done].
  apply new_reform_keeps in E1. case_bool_decide; injection E as <- <-; exact E1.
Qed.

Lemma reform_turn_spec n mode primary need_arch s now f c d c' d' : shows n now f ->
  reform_turn mode primary need_arch s [now] c d = Ok (Go (Some (c', d'))) -> rc_have_error (rx_info c') = false ->
  (forall x, 0 <= x < n -> f x <> Joining) /\ cd_target d' = cd_target d /\ cd_current d' = (if rc_is_master c then rx_tgt c else cd_current d) /\
  rx_self c' = rx_self c /\ rc_master_id (rx_info c') = rc_master_id (rx_info c).
Proof.
  intros S. unfold reform_turn. destruct (rc_start_reform _ _ _ _ _) as [[ret c1]|] eqn:Es; cbn [mbind outcome_bind]; [|done].
  pose proof (start_reform_keeps _ _ _ _ _ _ _ Es) as K. unfold core_of in K. injection K as K1 K2 K3 K4 K5.
  case_bool_decide as Hret.
  2: { unfold reform_failed. repeat case_match; intros; simplify_eq; done. }
  unfold rc_check_finished. set (t := if bool_decide (rc_role (rx_info c1) = REFORM_ROLE_JOIN) then _ else _).
  assert (core_of t.1.2 = core_of c1 /\ cd_current t.2 = cd_current d /\ cd_target t.2 = cd_target d) as (T1 & T2 & T3).
  { unfold t, rc_set_cms_abort_ref_map. repeat case_match; done. }
  destruct t as [[told c2] d2]. cbn [fst snd] in *. unfold core_of in T1. injection T1 as T1 T4 T5 T6 T7. cbn [wait_alive_bitmap_stable].
  rewrite (sh_count _ _ _ S). pose proof (sh_range _ _ _ S). destruct (joining_shows n now f (Z.to_nat n) 0 S) as (b & -> & Hb); [lia|lia|].
  cbn [mbind outcome_bind]. destruct b; cbn [mbind outcome_bind]; [done|].
  destruct (rc_update_cluster_view _ _) as [v|]; cbn [mbind outcome_bind]; [|done]. intros [= <- <-] _. split; [by apply Hb|].
  unfold rc_is_master. cbn. repeat case_match; cbn in *; rewrite ?T1, ?T3, ?T5, ?T7, ?K1, ?K3, ?K5 in *; split_and!; try done; try lia; congruence.
Qed.

(** ** Lists that show states *)

(** The transitions between two lists. *)
Definition moves_ok (s t : inst_state) : Prop :=
  match s, t with
  | Offline, (Offline | Joining) => True
  | (Joining | Joined), (Joined | Offline) => True
  | _, _ => False
  end.

Section Lists.
Context (n : Z) (abort_map : option Z) (cur tgt : cms_res_status_list) (fc ft : Z -> inst_state).
Hypothesis (Sc : shows n cur fc) (St : shows n tgt ft) (Mv : forall x, 0 <= x < n -> moves_ok (fc x) (ft x)).

Lemma count_shows : inst_count cur tgt = n.
Proof. unfold inst_count. rewrite (sh_count _ _ _ Sc), (sh_count _ _ _ St). by rewrite Z.ltb_irrefl. Qed.

Lemma action_shows x : 0 <= x < n ->
  action_of abort_map cur tgt x =
    match fc x, ft x with Offline, Offline => act_none | Offline, _ => act_join | _, Joined => act_stay | _, _ => act_abort end.
Proof.
  intros Hx. unfold action_of, classify. destruct (entry_ok cur x (shows_wf _ _ _ Sc)) as [-> _], (entry_ok tgt x (shows_wf _ _ _ St)) as [-> _].
  cbn [mbind outcome_bind]. rewrite (entry_shows _ _ _ x Sc Hx), (entry_shows _ _ _ x St Hx).
  specialize (Mv x Hx). destruct (fc x), (ft x); try done; vm_compute; reflexivity.
Qed.

Lemma fits_shows x : 0 <= x < n -> inst_fits abort_map cur tgt (negb (bool_decide (fc x = Offline))) x = true.
Proof.
  intros Hx. unfold inst_fits. rewrite (entry_shows _ _ _ x Sc Hx), (entry_shows _ _ _ x St Hx).
  specialize (Mv x Hx). destruct (fc x), (ft x); try done; vm_compute; reflexivity.
Qed.

Context (ch : bool) (r : reform_list).
Hypothesis (Er : rc_get_reform_info abort_map cur tgt = Ok (ch, r)).

Lemma on_shows t x : x ∈ list_of r t <-> on_list abort_map cur tgt t x /\ 0 <= x < n.
Proof. rewrite <- count_shows. by apply (on_lists abort_map cur tgt (shows_wf _ _ _ Sc) (shows_wf _ _ _ St) r ch). Qed.

Lemma after_shows x : 0 <= x < n -> x ∈ rl_after r <-> ft x <> Offline.
Proof.
  intros Hx. rewrite (on_shows REFORM_LIST_AFTER x). unfold on_list. rewrite (action_shows x Hx). specialize (Mv x Hx).
  destruct (fc x), (ft x); try done; cbn; split; intros H; try done; try (split; [|done]); set_solver.
Qed.

Lemma joins_shows x : x ∈ rl_joins r -> 0 <= x < n /\ ft x = Joining.
Proof.
  intros Hj. apply (on_shows REFORM_LIST_JOIN x) in Hj as [Hj Hx]. split; [done|]. unfold on_list in Hj. rewrite (action_shows x Hx) in Hj. specialize (Mv x Hx).
  destruct (fc x), (ft x); try done; cbn in Hj; set_solver.
Qed.

Lemma leaves_shows : rl_leaves r = [].
Proof.
  apply elem_of_nil_inv. intros x Hj. apply (on_shows REFORM_LIST_LEAVE x) in Hj as [Hj Hx]. unfold on_list in Hj. rewrite (action_shows x Hx) in Hj. specialize (Mv x Hx).
  destruct (fc x), (ft x); try done; cbn in Hj; set_solver.
Qed.

(** Nothing to reform: nobody came or went. *)
Lemma change_shows : ch = false <-> forall x, 0 <= x < n -> (fc x = Offline <-> ft x = Offline).
Proof.
  destruct (reform_info_ok abort_map cur tgt (shows_wf _ _ _ Sc) (shows_wf _ _ _ St)) as (ch' & r' & E & Hc & _).
  assert (ch' = ch) as -> by congruence. rewrite count_shows in Hc. split.
  - intros -> x Hx. assert (member_change (action_of abort_map cur tgt x) = false) as Hm.
    { destruct (member_change _) eqn:Em; [|done]. discriminate (proj2 Hc (ex_intro _ x (conj Hx Em))). }
    rewrite (action_shows x Hx) in Hm. specialize (Mv x Hx). destruct (fc x), (ft x); try done; cbn in Hm; discriminate.
  - intros H. destruct ch; [|done]. destruct (proj1 Hc eq_refl) as (x & Hx & Hm). rewrite (action_shows x Hx) in Hm. specialize (H x Hx).
    specialize (Mv x Hx). destruct (fc x), (ft x); try done; naive_solver.
Qed.
End Lists.

(** ** The invariant *)
Section Inv.
Context (n self : Z).

(** How the states that the cluster manager has can differ from those that a
    list shows; [mastered] tells whether those that join may report it. *)
Definition follows (mastered : bool) (st : option (Z * bool)) (f : Z -> inst_state) (ss : list inst_state) : Prop :=
  forall x, 0 <= x < n ->
    match f x with
    | Offline => state_at ss x = Offline \/ (state_at ss x = Joining /\ st = Some (x, true))
    | Joining => mastered = false -> state_at ss x <> Joined
    | Joined => state_at ss x <> Joining
    end.

(** The assignment of the reformer is even over the instances that are not
    offline in [f]. *)
Record part_ok (m : drc_part_mngr) (f : Z -> inst_state) : Prop := {
  po_bal : exists ls, balanced (part_map m) (inst_part_tbl m) ls (pm_inst_num m);
  po_status : pm_remaster_status m <> REMASTER_FAIL;
  po_used : forall x, is_inst x -> used_of (inst_part_tbl m) x = bool_decide (x < n /\ f x <> Offline);
  po_flag : pm_mgrt_fail_list m = true \/ forall x, 0 <= x < n -> x <> self -> f x = Offline;
}.

Definition same_on (f : Z -> inst_state) (ss : list inst_state) : Prop := forall x, 0 <= x < n -> (state_at ss x = Offline <-> f x = Offline).
Definition same_as (f g : Z -> inst_state) : Prop := forall x, 0 <= x < n -> (f x = Offline <-> g x = Offline).

(** Between two reforms: the current list tells the members. *)
Record idle (w : world) (fc : Z -> inst_state) : Prop := {
  id_part : part_ok (w_part w) fc;
  id_follows : follows true (w_start w) fc (w_insts w);
  id_joined : forall x, 0 <= x < n -> fc x = Joining -> state_at (w_insts w) x <> Joining;
  id_same : sl_version (cd_current (w_data w)) = w_version w -> same_on fc (w_insts w);
}.

(** The lists of the reform are those of two status lists. *)
Record lists_from (abort_map : option Z) (A B : cms_res_status_list) (fa fb : Z -> inst_state) (ch : bool) (r : reform_list) : Prop := {
  lf_cur : shows n A fa;
  lf_tgt : shows n B fb;
  lf_moves : forall x, 0 <= x < n -> moves_ok (fa x) (fb x);
  lf_self : fa self = Joined /\ fb self = Joined;
  lf_info : rc_get_reform_info abort_map A B = Ok (ch, r);
}.

(** In a reform: before its remaster the current list tells the members,
    after it the target does. *)
Record busy (mastered : bool) (w : world) (fc ft : Z -> inst_state) (abort_map : option Z) : Prop := {
  bu_lists : lists_from abort_map (cd_current (w_data w)) (cd_target (w_data w)) fc ft true (rx_lists (w_ctx w));
  bu_tgt : rx_tgt (w_ctx w) = cd_target (w_data w);
  bu_newer : sl_version (cd_current (w_data w)) < sl_version (cd_target (w_data w)) <= w_version w;
  bu_same : sl_version (cd_target (w_data w)) = w_version w -> same_on ft (w_insts w);
  bu_start : forall x, w_start w = Some (x, false) -> ft x = Offline;
  bu_now : mastered = false -> forall x, 0 <= x < n -> moves_ok (fc x) (state_at (w_insts w) x);
  bu_follows : follows mastered (w_start w) ft (w_insts w);
  bu_part : part_ok (w_part w) (if mastered then ft else fc);
}.

(** In a reform for nothing: a later look has found the members as they were
    and has made its list the current one, but the thread that reforms had
    been woken up.  When it ends, the list in the place of the target, [g],
    becomes the current one. *)
Record spare (w : world) (fc g : Z -> inst_state) : Prop := {
  sp_idle : idle w fc;
  sp_lists : exists abort_map A B fa fb, lists_from abort_map A B fa fb false (rx_lists (w_ctx w)) /\ same_as fb fc;
  sp_tgt : shows n (rx_tgt (w_ctx w)) g /\ g self = Joined /\ same_as g fc;
  sp_joined : forall x, 0 <= x < n -> g x = Joined -> state_at (w_insts w) x <> Joining;
  sp_older : sl_version (rx_tgt (w_ctx w)) <= sl_version (cd_current (w_data w));
}.

Definition pending (mastered : bool) (w : world) (fc : Z -> inst_state) : Prop :=
  (exists ft abort_map, busy mastered w fc ft abort_map) \/ exists g, spare w fc g.

Definition phase_inv (w : world) (fc : Z -> inst_state) : Prop :=
  match w_phase w, w_awake w with
  | Idle, false => idle w fc
  | Idle, true | Taken, false => pending false w fc
  | Frozen, false => pending false w fc /\ RC_REFORM_IN_PROGRESS (w_ctx w) = true
  | Mastered, false => pending true w fc /\ RC_REFORM_IN_PROGRESS (w_ctx w) = true
  | _, true => False
  end.

Record cluster_inv (w : world) : Prop := {
  ci_len : len (w_insts w) = n;
  ci_n : n <= OG_MAX_INSTANCES;
  ci_self : 0 <= self < n;
  ci_run : state_at (w_insts w) self = Joined;
  ci_ids : rx_self (w_ctx w) = self /\ rc_master_id (rx_info (w_ctx w)) = self /\ rc_have_error (rx_info (w_ctx w)) = false;
  ci_start : forall x b, w_start w = Some (x, b) -> 0 <= x < n;
  ci_phase : exists fc, shows n (cd_current (w_data w)) fc /\ fc self = Joined /\ sl_version (cd_current (w_data w)) <= w_version w /\
    (forall x, w_start w = Some (x, false) -> fc x = Offline /\ state_at (w_insts w) x = Offline) /\ phase_inv w fc;
}.

(** ** The steps *)

Lemma state_at_insert ss x y s : 0 <= x < len ss -> 0 <= y -> state_at (<[Z.to_nat x := s]> ss) y = if decide (x = y) then s else state_at ss y.
Proof.
  intros Hx Hy. unfold state_at, len in *. case_decide as Hxy.
  - subst y. by rewrite list_lookup_insert_eq by lia.
  - by rewrite list_lookup_insert_ne by lia.
Qed.

Lemma state_at_some ss x s : ss !! Z.to_nat x = Some s -> 0 <= x -> 0 <= x < len ss /\ state_at ss x = s.
Proof. intros E Hx. split; [apply lookup_lt_Some in E; unfold len; lia|]. unfold state_at. by rewrite E. Qed.

(** A step that leaves the threads of the reformer where they are. *)
Lemma phase_map w w' fc : w_phase w' = w_phase w -> w_awake w' = w_awake w -> w_ctx w' = w_ctx w ->
  (idle w fc -> idle w' fc) -> (forall b ft am, busy b w fc ft am -> busy b w' fc ft am) ->
  (forall g, spare w fc g -> idle w' fc -> spare w' fc g) -> phase_inv w fc -> phase_inv w' fc.
Proof.
  intros Ep Ea Ec Hi Hb Hs. unfold phase_inv. rewrite Ep, Ea, Ec.
  assert (forall b, pending b w fc -> pending b w' fc) as Hp.
  { intros b [(ft & am & H)|(g & H)]; [left; exists ft, am; by apply Hb|right; exists g]. apply Hs; [done|]. by apply Hi, (sp_idle _ _ _ H). }
  destruct (w_phase w), (w_awake w); try done; try (by apply Hp); intros [? ?]; (split; [by apply Hp|done]).
Qed.

(** The start lock is taken. *)
Lemma inv_admit ss v c d m p a x : cluster_inv (mk_world ss v None c d m p a) ->
  ss !! Z.to_nat x = Some Offline -> 0 <= x ->
  cms_check_cluster_reform_stat x (Some (cd_current d)) (Some (cd_target d)) = Ok (Some true) ->
  cluster_inv (mk_world ss v (Some (x, false)) c d m p a).
Proof.
  intros [Hl Hn Hs Hr Hi _ (fc & Sc & Fs & Hv & _ & Hp)] Ex Hx0 Ec. cbn in *. destruct (state_at_some _ _ _ Ex Hx0) as [Hx Hxs]. rewrite Hl in Hx.
  unfold cms_check_cluster_reform_stat in Ec. destruct (Z.ltb_spec (sl_version (cd_current d)) (sl_version (cd_target d))) as [|Hge]; [done|].
  destruct (cms_res_stat_steady x (cd_current d)) as [[|]|] eqn:Est; cbn in Ec; simplify_eq. pose proof (steady_shows _ _ _ x Sc Hx Est) as Hfx.
  split; cbn; try done; [by intros y b [= <- <-]|]. exists fc. split_and!; try done; [by intros y [= <-]|].
  eapply phase_map; [..|exact Hp]; try done.
  - intros [P1 P2 P3 P4]. split; cbn in *; try done. intros y Hy. specialize (P2 y Hy). destruct (fc y); [|done..]. destruct P2 as [?|[_ ?]]; [by left|done].
  - intros b ft am [_ _ Hlt _ _ _ _ _]. cbn in Hlt. lia.
  - intros g [S1 S2 S3 S4 S5] Hid. by split.
Qed.

Lemma follows_register b f ss x : 0 <= x < len ss -> len ss = n -> f x = Offline ->
  follows b (Some (x, false)) f ss -> follows b (Some (x, true)) f (<[Z.to_nat x := Joining]> ss).
Proof.
  intros Hx Hl Hfx F y Hy. rewrite state_at_insert by lia. specialize (F y Hy). destruct (decide (x = y)) as [->|Hne]; [rewrite Hfx; by right|].
  destruct (f y); [|done..]. destruct F as [?|[_ ?]]; [by left|congruence].
Qed.

Lemma inv_register ss v c d m p a x : cluster_inv (mk_world ss v (Some (x, false)) c d m p a) -> ss !! Z.to_nat x = Some Offline ->
  cluster_inv (mk_world (<[Z.to_nat x := Joining]> ss) (v + 1) (Some (x, true)) c d m p a).
Proof.
  intros [Hl Hn Hs Hr Hi Hst (fc & Sc & Fs & Hv & Hf & Hp)] Ex. cbn in *. pose proof (Hst x false eq_refl) as Hx. destruct (Hf x eq_refl) as [Hfx Hxs].
  assert (x <> self) as Hne by (intros ->; congruence).
  assert (forall y, 0 <= y -> state_at (<[Z.to_nat x := Joining]> ss) y = if decide (x = y) then Joining else state_at ss y) as Hat by (intros; apply state_at_insert; lia).
  split; cbn; try done.
  - unfold len. by rewrite length_insert.
  - rewrite Hat by lia. by rewrite decide_False.
  - by intros y b [= <- <-].
  - exists fc. split_and!; try done; [lia|]. eapply phase_map; [..|exact Hp]; try done.
    + intros [P1 P2 P3 P4]. split; cbn in *; [done|by apply follows_register; [lia|..]| |lia].
      intros y Hy Hfy. rewrite Hat by lia. rewrite decide_False by (intros ->; congruence). by apply P3.
    + intros b ft am [B1 B2 B3 B4 B5 B6 B7 B8]. cbn in *. split; cbn; try done; [lia|lia| |apply follows_register; [lia|done|by apply B5|done]].
      intros Hm y Hy. rewrite Hat by lia. case_decide as E; [subst y; by rewrite Hfx|by apply B6].
    + intros g [S1 S2 (S3 & S4 & S5) S6 S7] Hid. cbn in *. split; try done. cbn. intros y Hy Hgy. rewrite Hat by lia.
      case_decide as E; [|by apply S6]. subst y. apply S5 in Hfx; [congruence|done].
Qed.

Lemma follows_unlock b f ss x k s : state_at ss x = s -> s <> Joining -> follows b (Some (x, k)) f ss -> follows b None f ss.
Proof.
  intros Hxs Hs F y Hy. specialize (F y Hy). destruct (f y); [|done..]. destruct F as [?|[Hj [= <- _]]]; [by left|congruence].
Qed.

Lemma cluster_inv_unlock ss v c d m p a x b s : cluster_inv (mk_world ss v (Some (x, b)) c d m p a) -> ss !! Z.to_nat x = Some s -> s <> Joining ->
  cluster_inv (mk_world ss v None c d m p a).
Proof.
  intros [Hl Hn Hs Hr Hi Hst (fc & Sc & Fs & Hv & Hf & Hp)] Ex Hns. cbn in *. pose proof (Hst x b eq_refl) as Hx.
  destruct (state_at_some _ _ _ Ex ltac:(lia)) as [_ Hxs].
  split; cbn; try done. exists fc. split_and!; try done. eapply phase_map; [..|exact Hp]; try done.
  - intros [P1 P2 P3 P4]. split; cbn in *; try done. by eapply follows_unlock.
  - intros b' ft am [B1 B2 B3 B4 B5 B6 B7 B8]. cbn in *. split; cbn; try done. by eapply follows_unlock.
  - intros g [S1 S2 S3 S4 S5] Hid. by split.
Qed.

Lemma follows_crash b st f ss x : 0 <= x < len ss -> follows b st f ss -> follows b st f (<[Z.to_nat x := Offline]> ss).
Proof.
  intros Hx F y Hy. rewrite state_at_insert by lia. specialize (F y Hy). destruct (decide (x = y)) as [->|Hne]; [|done]. destruct (f y); [by left|done..].
Qed.

Lemma inv_crash ss v st c d m p a x s : cluster_inv (mk_world ss v st c d m p a) -> ss !! Z.to_nat x = Some s -> 0 <= x -> x <> self ->
  cluster_inv (mk_world (<[Z.to_nat x := Offline]> ss) (v + 1) st c d m p a).
Proof.
  intros [Hl Hn Hs Hr Hi Hst (fc & Sc & Fs & Hv & Hf & Hp)] Ex Hx0 Hne. cbn in *. destruct (state_at_some _ _ _ Ex Hx0) as [Hx Hxs].
  assert (forall y, 0 <= y -> state_at (<[Z.to_nat x := Offline]> ss) y = if decide (x = y) then Offline else state_at ss y) as Hat by (intros; by apply state_at_insert).
  split; cbn; try done.
  - unfold len. by rewrite length_insert.
  - rewrite Hat by lia. by rewrite decide_False.
  - exists fc. split_and!; try done; [lia| |].
    { intros y Hy. destruct (Hf y Hy) as [? ?]. pose proof (Hst y false Hy). split; [done|]. rewrite Hat by lia. by case_decide. }
    eapply phase_map; [..|exact Hp]; try done.
    + intros [P1 P2 P3 P4]. split; cbn in *; [done|by apply follows_crash| |lia].
      intros y Hy Hfy. rewrite Hat by lia. case_decide; [done|by apply P3].
    + intros b ft am [B1 B2 B3 B4 B5 B6 B7 B8]. cbn in *. split; cbn; try done; [lia|lia| |by apply follows_crash].
      intros Hm y Hy. rewrite Hat by lia. case_decide; [by destruct (fc y)|by apply B6].
    + intros g [S1 S2 S3 S6 S7] Hid. cbn in *. split; try done. cbn. intros y Hy Hgy. rewrite Hat by lia. case_decide; [done|by apply S6].
Qed.

Lemma part_ok_same m f g : same_as f g -> part_ok m f -> part_ok m g.
Proof.
  intros H [P1 P2 P3 P4]. split; try done.
  - intros x Hx. rewrite P3 by done. apply bool_decide_ext. split; intros [? ?]; (split; [done|]); destruct Hx; specialize (H x); naive_solver lia.
  - destruct P4 as [?|P4]; [by left|right]. intros x Hx Hne. apply H; [done|]. by apply P4.
Qed.

(** The reformer looks at the cluster. *)
Lemma idle_moves w fc : idle w fc -> forall x, 0 <= x < n -> moves_ok (fc x) (state_at (w_insts w) x).
Proof.
  intros [_ F J _] x Hx. specialize (F x Hx). specialize (J x Hx). destruct (fc x), (state_at (w_insts w) x); try done; cbn; try (by destruct (J eq_refl)).
  by destruct F as [|[]].
Qed.

(** What a look before the remaster may rely on, and what it leaves: the lists
    of a reform, or a new current list. *)
Definition lookable (w : world) (fc : Z -> inst_state) : Prop :=
  (forall x, 0 <= x < n -> moves_ok (fc x) (state_at (w_insts w) x)) /\ part_ok (w_part w) fc /\
  (sl_version (cd_current (w_data w)) = w_version w -> same_on fc (w_insts w)).

Lemma pending_lookable w fc : pending false w fc -> lookable w fc.
Proof.
  intros [(ft & am & [B1 B2 B3 B4 B5 B6 B7 B8])|(g & [I _ _ _ _])].
  - split_and!; [by apply B6|done|lia].
  - pose proof (idle_moves _ _ I). destruct I. by split_and!.
Qed.

Lemma look_found ss v st c d m p a fc now abort_map r c2 d2 p' a' : len ss = n -> n <= OG_MAX_INSTANCES -> 0 <= self < n -> state_at ss self = Joined ->
  shows n (cd_current d) fc -> fc self = Joined -> sl_version (cd_current d) <= v ->
  (forall x, st = Some (x, false) -> fc x = Offline /\ state_at ss x = Offline) ->
  lookable (mk_world ss v st c d m p a) fc -> snapshot v self ss = Ok (Some now) ->
  rc_get_reform_info abort_map (cd_current d) now = Ok (true, r) ->
  cd_current d2 = cd_current d -> cd_target d2 = now -> rx_tgt c2 = now -> rx_lists c2 = r ->
  busy false (mk_world ss v st c2 d2 m p' a') fc (state_at ss) abort_map.
Proof.
  intros Hl Hn Hs Hr Sc Fs Hv Hf (Mv & Pk & Same) En Er D1 D2 D3 D4. cbn in *.
  destruct (snapshot_shows v self ss ltac:(lia)) as (l & El & Hlv & Sn). assert (l = now) as -> by congruence. rewrite Hl in Sn.
  pose proof (change_shows n abort_map _ _ _ _ Sc Sn Mv _ _ Er) as Hch.
  split; cbn; rewrite ?D1, ?D2, ?D3, ?D4, ?Hlv; try done.
  - split; [|lia]. destruct (decide (sl_version (cd_current d) = v)) as [Heq|]; [|lia].
    specialize (Same Heq). assert (true = false); [|done]. apply Hch. intros x Hx. symmetry. by apply Same.
  - intros x Hx. by apply Hf.
  - intros x Hx. destruct (state_at ss x) eqn:E; [by left|done..].
Qed.

Lemma look_none ss v st c d m p a fc now abort_map r c2 d2 p' a' : len ss = n -> n <= OG_MAX_INSTANCES -> state_at ss self = Joined ->
  shows n (cd_current d) fc -> fc self = Joined -> sl_version (cd_current d) <= v ->
  lookable (mk_world ss v st c d m p a) fc -> snapshot v self ss = Ok (Some now) ->
  rc_get_reform_info abort_map (cd_current d) now = Ok (false, r) ->
  cd_current d2 = now -> rx_tgt c2 = cd_current d -> rx_lists c2 = r ->
  idle (mk_world ss v st c2 d2 m p' a') (state_at ss) /\ spare (mk_world ss v st c2 d2 m p' a') (state_at ss) fc.
Proof.
  intros Hl Hn Hr Sc Fs Hv (Mv & Pk & Same) En Er D1 D2 D3. cbn in *.
  destruct (snapshot_shows v self ss ltac:(lia)) as (l & El & Hlv & Sn). assert (l = now) as -> by congruence. rewrite Hl in Sn.
  pose proof (proj1 (change_shows n abort_map _ _ _ _ Sc Sn Mv _ _ Er) eq_refl) as Hsame.
  assert (idle (mk_world ss v st c2 d2 m p' a') (state_at ss)) as I.
  { split; cbn.
    - by eapply part_ok_same.
    - intros x Hx. destruct (state_at ss x) eqn:E; [by left|done..].
    - intros x Hx Hj. specialize (Mv x Hx). specialize (Hsame x Hx). rewrite Hj in Mv, Hsame. destruct (fc x); try done. by destruct Hsame as [Hsame _]; specialize (Hsame eq_refl).
    - intros _ x Hx. done. }
  split; [done|]. split; cbn; rewrite ?D1, ?D2, ?D3; try done.
  - exists abort_map, (cd_current d), now, fc, (state_at ss). split; [by split|]. by intros x Hx.
  - intros x Hx Hfx. specialize (Mv x Hx). rewrite Hfx in Mv. by destruct (state_at ss x).
  - lia.
Qed.

Lemma inv_observe ss v st c d m p a now readable written abort_map changed c1 d1 ret woken c2 d2 :
  cluster_inv (mk_world ss v st c d m p a) -> snapshot v self ss = Ok (Some now) ->
  rc_master_stat_changed true (Some now) readable written c d = Ok (changed, c1, d1) ->
  rc_detect_reform_triggered changed abort_map c1 d1 = Ok (Go (ret, woken, c2, d2)) ->
  (p = Taken -> a || woken = false) -> cluster_inv (mk_world ss v st c2 d2 m p (a || woken)).
Proof.
  intros [Hl Hn Hs Hr (I1 & I2 & I3) Hst (fc & Sc & Fs & Hv & Hf & Hp)] En Ec Ed Hcalm. cbn in *.
  destruct (snapshot_shows v self ss ltac:(lia)) as (l & El & Hlv & Sn). assert (l = now) as -> by congruence. rewrite Hl in Sn.
  destruct (master_changed_spec _ _ _ _ _ _ _ _ Ec I3) as (C & A1 & A2 & A3 & A4). destruct (detect_spec _ _ _ _ _ _ _ _ Ed) as (D & B1 & B2 & B3).
  assert (rx_self c2 = self /\ rc_master_id (rx_info c2) = self /\ rc_have_error (rx_info c2) = false) as Hids by (split_and!; congruence).
  destruct C as [(-> & -> & -> & Hin)|[(-> & Hout & Hle & C1 & C2 & C3 & C4)|(-> & C1 & C2 & C3 & C4)]].
  - (* a reform is in progress *)
    destruct D as [(-> & -> & -> & _)|[? _]]; [|done]. rewrite orb_false_r. split; cbn; try done. by exists fc.
  - (* nothing new *)
    destruct D as [(-> & -> & -> & _)|[? _]]; [|done]. rewrite orb_false_r. split; cbn; try done. exists fc. rewrite C3. split_and!; try done.
    assert (sl_version (cd_current d) = v) as Hv' by lia.
    assert (idle (mk_world ss v st c d m p a) fc -> idle (mk_world ss v st c1 d1 m p a) fc) as Hi.
    { intros [P1 P2 P3 P4]. split; cbn in *; try done. by rewrite C3. }
    assert (pending false (mk_world ss v st c d m p a) fc -> pending false (mk_world ss v st c1 d1 m p a) fc) as Hpd.
    { intros [(ft & am & [_ _ Hlt _ _ _ _ _])|(g & [S1 S2 S3 S6 S7])]; [cbn in Hlt; lia|]. right. exists (state_at ss).
      split; cbn; rewrite ?C1, ?C2, ?C3; [by apply Hi|exact S2| |intros x Hx ->; done|lia].
      split_and!; try done. intros x Hx. by apply (id_same _ _ S1). }
    unfold phase_inv in *. cbn in *. destruct p, a; try done; try (by apply Hpd); try (by apply Hi); destruct Hp as [_ Hp]; rewrite Hout in Hp; done.
  - (* the status lists differ *)
    destruct D as [(-> & -> & -> & Hin)|(_ & mc & r & Er & -> & D1 & D2 & D3 & D4)].
    { (* a reform is in progress after all: the status is the same *)
      specialize (Hin eq_refl). rewrite A4 in Hin. unfold rc_master_stat_changed in Ec. by rewrite Hin in Ec. }
    rewrite C1, C2 in Er, D3, D4.
    assert (lookable (mk_world ss v st c d m p a) fc \/ RC_REFORM_IN_PROGRESS c = true) as [Lk|Hbusy].
    { unfold phase_inv in Hp. cbn in Hp. destruct p, a; try done; try (left; by apply pending_lookable); try (right; by destruct Hp).
      left. pose proof (idle_moves _ _ Hp). destruct Hp. by split_and!. }
    2: { unfold rc_master_stat_changed in Ec. by rewrite Hbusy in Ec. }
    assert (RC_REFORM_IN_PROGRESS c = false) as Hnb.
    { unfold rc_master_stat_changed in Ec. by destruct (RC_REFORM_IN_PROGRESS c). }
    split; cbn; try done. destruct mc.
    + destruct D4 as (D4 & D5 & D6); [done|]. rewrite D4, C3. exists fc. split_and!; try done.
      assert (busy false (mk_world ss v st c2 d2 m p true) fc (state_at ss) abort_map) as B by (eapply (look_found ss v st c d m p a); try done; congruence).
      unfold phase_inv in *. cbn in *. rewrite orb_true_r in *. destruct p; [left; by eexists _, _|by specialize (Hcalm eq_refl)|..];
      (destruct a; [done|]; destruct Hp as [_ Hp]; congruence).
    + destruct D3 as (D3 & D5); [done|]. unfold rc_is_master in D5. rewrite A1, A2, I1, I2, Z.eqb_refl in D5. exists (state_at ss). rewrite D5.
      split_and!; try done; [lia|intros x Hx; by destruct (Hf x Hx)|].
      destruct (look_none ss v st c d m p a fc now abort_map r c2 d2 p a) as [I Sp]; try done.
      unfold phase_inv in *. cbn in *. rewrite orb_false_r. destruct p, a; try done; try (right; by exists fc); destruct Hp as [_ Hp]; congruence.
Qed.

(** The thread that reforms takes the mutex and freezes the cluster. *)
Lemma inv_take ss v st c d m : cluster_inv (mk_world ss v st c d m Idle true) -> cluster_inv (mk_world ss v st c d m Taken false).
Proof.
  intros [Hl Hn Hs Hr Hi Hst (fc & Sc & Fs & Hv & Hf & Hp)]. split; try done. exists fc. split_and!; try done.
  unfold phase_inv in *. cbn in *. destruct Hp as [(ft & am & B)|(g & Sp)].
  - left. exists ft, am. by destruct B.
  - right. exists g. destruct Sp as [[] ? ? ? ?]. done.
Qed.

Lemma inv_freeze ss v st c d m a : cluster_inv (mk_world ss v st c d m Taken a) -> cluster_inv (mk_world ss v st (rx_set_status REFORM_FROZEN c) d m Frozen a).
Proof.
  intros [Hl Hn Hs Hr Hi Hst (fc & Sc & Fs & Hv & Hf & Hp)]. split; try done. exists fc. split_and!; try done.
  unfold phase_inv in *. cbn in *. destruct a; [done|]. split; [|done]. destruct Hp as [(ft & am & B)|(g & Sp)].
  - left. exists ft, am. by destruct B.
  - right. exists g. destruct Sp as [[] ? ? ? ?]. done.
Qed.

(** The remaster of a reform. *)
Lemma remaster_start_fields version r m : pm_remaster_status m <> REMASTER_FAIL ->
  let m1 := remaster_start version self r m in
  part_map m1 = part_map m /\ inst_part_tbl m1 = inst_part_tbl m /\ pm_inst_num m1 = pm_inst_num m /\
  pm_mgrt_fail_list m1 = pm_mgrt_fail_list m /\ pm_remaster_status m1 <> REMASTER_FAIL /\
  forall j, 0 <= j < DRC_MAX_PART_NUM -> is_Some (remaster_task_set m1 !! j).
Proof.
  intros Hs. assert (forall j, 0 <= j < DRC_MAX_PART_NUM -> is_Some (filled DRC_MAX_PART_NUM (mk_task 0 0 0 PART_INIT) !! j)) as Hd.
  { intros j Hj. rewrite filled_lookup by done. by eexists. }
  unfold remaster_start, drc_start_remaster. destruct (_ =? 0); [done|]. destruct (_ && _); [done|]. rewrite bool_decide_false by done.
  unfold nd_to, nd_set_remaster_inst, nd_map_part, drc_update_remaster_local_status. cbn.
  destruct (Z.eqb_spec (pm_remaster_status m) REMASTER_FAIL) as [|_]; [done|]. cbn. done.
Qed.

Lemma remaster_end_fields r m : pm_remaster_status m <> REMASTER_FAIL ->
  part_map (remaster_end r m) = target_part_map m /\ inst_part_tbl (remaster_end r m) = target_inst_part_tbl m /\
  pm_inst_num (remaster_end r m) = u8 (len (rl_after r)) /\ pm_mgrt_fail_list (remaster_end r m) = true /\
  pm_remaster_status (remaster_end r m) = REMASTER_DONE.
Proof.
  intros Hs. unfold remaster_end, nd_to, nd_set_inst_num, nd_map_part, drc_update_remaster_local_status. cbn.
  destruct (Z.eqb_spec (pm_remaster_status m) REMASTER_FAIL) as [|_]; [done|]. cbn. done.
Qed.

(** The reformer can do what the lists say. *)
Lemma ready_of abort_map A B fa fb ch r version m : n <= OG_MAX_INSTANCES -> 0 <= self < n ->
  lists_from abort_map A B fa fb ch r -> part_ok m fa ->
  exists ls, reformer_ready abort_map A B (remaster_start version self r m) ls (pm_inst_num m) r ch self.
Proof.
  intros Hn Hs [Sa Sb Mv [Fa Fb] E] [(ls & P1) P2 P3 P4]. exists ls.
  destruct (remaster_start_fields version r m P2) as (R1 & R2 & R3 & R4 & R5 & R6).
  assert (forall x, 0 <= x < n -> used_of (inst_part_tbl m) x = negb (bool_decide (fa x = Offline))) as Hu.
  { intros x Hx. rewrite P3 by (split; lia). rewrite <- bool_decide_not. apply bool_decide_ext. split; [by intros [_ ?]|]. intros ?. split; [lia|done]. }
  split; rewrite ?R1, ?R2, ?R3; try done.
  - by eapply shows_wf.
  - by eapply shows_wf.
  - rewrite (count_shows n _ _ _ _ Sa Sb). intros x Hx. rewrite Hu by done. by eapply fits_shows.
  - rewrite (count_shows n _ _ _ _ Sa Sb). intros x Hx Hge. rewrite P3 by done. apply bool_decide_eq_false. lia.
  - split; [split; lia|]. split; [rewrite Hu by done; by rewrite Fa|]. apply (after_shows n abort_map _ _ _ _ Sa Sb Mv _ _ E self); [done|]. by rewrite Fb.
Qed.

Lemma crashed_flag abort_map A B fa fb ch r m : lists_from abort_map A B fa fb ch r -> part_ok m fa -> rl_aborts r <> [] -> pm_mgrt_fail_list m = true.
Proof.
  intros [Sa Sb Mv [Fa Fb] E] [_ _ _ [P4|P4]] Hne; [done|]. exfalso. apply Hne, elem_of_nil_inv. intros x Hx.
  apply (on_shows n abort_map _ _ _ _ Sa Sb _ _ E REFORM_LIST_ABORT x) in Hx as [Hx Hr].
  unfold on_list in Hx. rewrite (action_shows n abort_map _ _ _ _ Sa Sb Mv x Hr) in Hx.
  destruct (decide (x = self)) as [->|Hxs].
  - rewrite Fa, Fb in Hx. cbn in Hx. set_solver.
  - rewrite (P4 x Hr Hxs) in Hx. destruct (fb x); cbn in Hx; set_solver.
Qed.

Lemma rebalance_of abort_map A B fa fb ch r version m : n <= OG_MAX_INSTANCES -> 0 <= self < n ->
  lists_from abort_map A B fa fb ch r -> part_ok m fa -> not_mixed r ->
  exists m', execute_rebalance false (drc_lists r) (remaster_start version self r m) = Ok (OG_SUCCESS, m') /\
    even_over (rl_after r) (target_part_map m') (target_inst_part_tbl m') /\ part_ok (remaster_end r m') fb.
Proof.
  intros Hn Hs L P Hm. destruct (ready_of _ _ _ _ _ _ _ version m Hn Hs L P) as (ls & R).
  destruct (remaster_start_fields version r m (po_status _ _ P)) as (_ & _ & _ & R4 & R5 & _).
  assert (exists m', execute_rebalance false (drc_lists r) (remaster_start version self r m) = Ok (OG_SUCCESS, m') /\
    even_over (rl_after r) (target_part_map m') (target_inst_part_tbl m')) as (m' & E & Ev).
  { destruct (decide (rl_aborts r = [])) as [Ha|Ha].
    - destruct (planned_rebalance _ _ _ _ _ _ _ _ _ R Ha) as (_ & _ & m' & E & Ev & _). by exists m'.
    - destruct Hm as [?|[Hj Hl]]; [done|]. destruct (crash_rebalance _ _ _ _ _ _ _ _ _ R Hj Hl Ha) as (m' & E & Ev & _); [|by exists m'].
      rewrite R4. by eapply crashed_flag. }
  exists m'. split; [done|]. split; [done|]. pose proof (execute_rebalance_keeps _ _ _ _ _ E) as [(_ & _ & Kst & _) _].
  destruct (remaster_end_fields r m') as (F1 & F2 & F3 & F4 & F5); [by rewrite Kst|]. destruct Ev as (ls' & Bal & U). destruct L as [Sa Sb Mv _ Er].
  split; rewrite ?F1, ?F2, ?F3, ?F4, ?F5; [|done| |by left].
  - exists ls'. pose proof (balanced_num _ _ _ _ Bal). unfold u8. rewrite Z.mod_small by (unfold OG_MAX_INSTANCES in *; lia). done.
  - intros x Hx. rewrite U by done. apply bool_decide_ext. destruct (decide (x < n)) as [Hlt|Hge].
    + destruct Hx. rewrite (after_shows n abort_map _ _ _ _ Sa Sb Mv _ _ Er x) by lia. split; [done|by intros [_ ?]].
    + pose proof (on_shows n abort_map _ _ _ _ Sa Sb _ _ Er REFORM_LIST_AFTER x) as Ho. cbn [list_of] in Ho. rewrite Ho. split; [intros [_ ?]; lia|intros [? _]; lia].
Qed.

(** The lists that the reform has, before its remaster. *)
Lemma pending_lists w fc : shows n (cd_current (w_data w)) fc -> fc self = Joined -> pending false w fc ->
  exists abort_map A B fa fb ch, lists_from abort_map A B fa fb ch (rx_lists (w_ctx w)) /\ part_ok (w_part w) fa.
Proof.
  intros Sc Fs [(ft & am & [B1 _ _ _ _ _ _ B8])|(g & [[P _ _ _] (am & A & B & fa & fb & L & Same) _ _ _])].
  - by exists am, (cd_current (w_data w)), (cd_target (w_data w)), fc, ft, true.
  - exists am, A, B, fa, fb, false. split; [done|]. eapply part_ok_same; [|exact P]. destruct L as [Sa Sb Mv _ E].
    pose proof (proj1 (change_shows n am _ _ _ _ Sa Sb Mv _ _ E) eq_refl) as H. intros x Hx. rewrite (H x Hx), (Same x Hx). done.
Qed.

Lemma inv_remaster ss v st c d m m' a : cluster_inv (mk_world ss v st c d m Frozen a) -> not_mixed (rx_lists c) ->
  execute_rebalance false (drc_lists (rx_lists c)) (remaster_start (rc_trigger_version (rx_info c)) self (rx_lists c) m) = Ok (OG_SUCCESS, m') ->
  cluster_inv (mk_world ss v st c d (remaster_end (rx_lists c) m') Mastered a).
Proof.
  intros [Hl Hn Hs Hr Hi Hst (fc & Sc & Fs & Hv & Hf & Hp)] Hm E. unfold phase_inv in Hp. cbn in *. destruct a; [done|]. destruct Hp as [Hp Hip].
  split; try done. exists fc. split_and!; try done. unfold phase_inv. cbn. split; [|done].
  destruct Hp as [(ft & am & [B1 B2 B3 B4 B5 B6 B7 B8])|(g & [I (am & A & B & fa & fb & L & Same) S3 S6 S7])]; cbn in *.
  - destruct (rebalance_of am _ _ _ _ _ _ (rc_trigger_version (rx_info c)) m Hn Hs B1 B8 Hm) as (m1 & E1 & _ & Pk). assert (m1 = m') as -> by congruence.
    left. exists ft, am. split; try done. intros x Hx. specialize (B7 x Hx). cbn. by destruct (ft x).
  - assert (same_as fc fa) as Sa.
    { destruct L as [Sa Sb Mv _ Ei]. pose proof (proj1 (change_shows n am _ _ _ _ Sa Sb Mv _ _ Ei) eq_refl) as H. intros x Hx. rewrite (H x Hx), (Same x Hx). done. }
    destruct (rebalance_of am _ _ _ _ _ _ (rc_trigger_version (rx_info c)) m Hn Hs L (part_ok_same _ _ _ Sa (id_part _ _ I)) Hm) as (m1 & E1 & _ & Pk). assert (m1 = m') as -> by congruence.
    right. exists g. split; try done; [|by exists am, A, B, fa, fb]. destruct I as [P1 P2 P3 P4]. split; try done. by eapply part_ok_same.
Qed.

(** An instance that joins reports that it has joined. *)
Lemma inv_joined ss v v' st c d m a x : cluster_inv (mk_world ss v st c d m Mastered a) -> ss !! Z.to_nat x = Some Joining ->
  x ∈ rl_joins (rx_lists c) -> v <= v' -> cluster_inv (mk_world (<[Z.to_nat x := Joined]> ss) v' st c d m Mastered a).
Proof.
  intros [Hl Hn Hs Hr Hi Hst (fc & Sc & Fs & Hv & Hf & Hp)] Ex Hj Hvv. unfold phase_inv in Hp. cbn in *. destruct a; [done|].
  destruct Hp as [[(ft & am & [[B0 B1 B2 Bs Bi] B3 B4 B5 B6 _ B7 B8])|(g & [I (am & A & B & fa & fb & [Sa Sb Mv _ Ei] & Same) S3 S6 S7])] Hip]; cbn in *.
  2: { exfalso. destruct (reform_info_ok am A B (shows_wf _ _ _ Sa) (shows_wf _ _ _ Sb)) as (ch & r & E & Hc & _).
       destruct (joins_shows n am _ _ _ _ Sa Sb Mv _ _ Ei x Hj) as [Hx Hfx].
       pose proof (proj1 (change_shows n am _ _ _ _ Sa Sb Mv _ _ Ei) eq_refl x Hx) as H. specialize (Mv x Hx). rewrite Hfx in *. destruct (fa x); naive_solver. }
  destruct (joins_shows n am _ _ _ _ B0 B1 B2 _ _ Bi x Hj) as [Hx Hfx].
  destruct (state_at_some _ _ _ Ex ltac:(lia)) as [_ Hxs].
  assert (forall y, 0 <= y -> state_at (<[Z.to_nat x := Joined]> ss) y = if decide (x = y) then Joined else state_at ss y) as Hat by (intros; apply state_at_insert; lia).
  split; cbn; try done.
  - unfold len. by rewrite length_insert.
  - rewrite Hat by lia. by case_decide.
  - exists fc. split_and!; try done; [lia| |].
    { intros y Hy. destruct (Hf y Hy) as [? ?]. pose proof (Hst y false Hy). split; [done|]. rewrite Hat by lia. case_decide; [congruence|done]. }
    left. exists ft, am. split; [by split|..]; cbn; try done; [lia| |].
    + intros Heq y Hy. rewrite Hat by lia. assert (sl_version (cd_target d) = v) as Hv1 by lia. pose proof (B5 Hv1 y Hy) as Hsame.
      case_decide; [subst y; by rewrite Hfx|done].
    + intros y Hy. specialize (B7 y Hy). rewrite Hat by lia. destruct (decide (x = y)) as [->|Hne]; [by rewrite Hfx|done].
Qed.

(** The reform ends. *)
Lemma inv_finish ss v st c d m a now mode primary need_arch s c' d' : cluster_inv (mk_world ss v st c d m Mastered a) ->
  snapshot v self ss = Ok (Some now) -> reform_turn mode primary need_arch s [now] c d = Ok (Go (Some (c', d'))) -> rc_have_error (rx_info c') = false ->
  cluster_inv (mk_world ss v st c' d' m Idle a).
Proof.
  intros [Hl Hn Hs Hr (I1 & I2 & I3) Hst (fc & Sc & Fs & Hv & Hf & Hp)] En Ep He. unfold phase_inv in Hp. cbn in *. destruct a; [done|].
  destruct (snapshot_shows v self ss ltac:(lia)) as (l & El & Hlv & Sn). assert (l = now) as -> by congruence. rewrite Hl in Sn.
  destruct (reform_turn_spec _ _ _ _ _ _ _ _ _ _ _ Sn Ep He) as (Hno & D1 & D2 & D3 & D4).
  unfold rc_is_master in D2. rewrite I1, I2, Z.eqb_refl in D2. split; cbn; try done; [split_and!; congruence|]. rewrite D2.
  destruct Hp as [[(ft & am & [[B0 B1 B2 Bs Bi] B3 B4 B5 B6 _ B7 B8])|(g & [[P1 P2 P3 P4] _ (S3 & S4 & S5) S6 S7])] _]; cbn in *.
  - rewrite B3. exists ft. split; [done|]. split; [by destruct Bs|]. split; [lia|]. split; [intros x Hx; split; [by apply B6|by apply Hf]|]. split; cbn; try done.
    + intros x Hx Hfx. by apply Hno.
    + rewrite D2, B3. exact B5.
  - exists g. split; [done|]. split; [done|]. split; [lia|]. split.
    { intros x Hx. destruct (Hf x Hx) as [Hfx ?]. split; [|done]. apply S5; [by eapply Hst|done]. }
    split; cbn.
    + eapply part_ok_same; [|exact P1]. intros x Hx. rewrite (S5 x Hx). done.
    + intros x Hx. specialize (P2 x Hx). destruct (g x) eqn:Eg; [|done|by apply S6]. apply S5 in Eg; [|done]. by rewrite Eg in P2.
    + intros x Hx _. by apply Hno.
    + rewrite D2. intros Heq x Hx. rewrite (S5 x Hx). apply P4; [lia|done].
Qed.

Lemma cluster_inv_step w w' : cluster_inv w -> calm_step self w w' -> cluster_inv w'.
Proof.
  intros I [S Hc]. destruct S.
  - by apply inv_admit.
  - by apply inv_register.
  - by eapply cluster_inv_unlock.
  - by eapply inv_crash.
  - by eapply inv_observe.
  - by eapply inv_take.
  - by eapply inv_freeze.
  - by eapply inv_remaster.
  - by eapply inv_joined.
  - by eapply inv_finish.
Qed.

(** ** Where a cluster starts *)

(** One instance runs and has mastered all partitions ([drc_start_one_master]);
    the current list shows it, and the others as offline. *)
Record start_world (w : world) : Prop := {
  sw_self : 0 <= self < n /\ n <= OG_MAX_INSTANCES;
  sw_insts : w_insts w = <[Z.to_nat self := Joined]> (replicate (Z.to_nat n) Offline);
  sw_start : w_start w = None;
  sw_ctx : rx_self (w_ctx w) = self /\ rc_master_id (rx_info (w_ctx w)) = self /\ rc_have_error (rx_info (w_ctx w)) = false;
  sw_data : snapshot (w_version w) self (w_insts w) = Ok (Some (cd_current (w_data w)));
  sw_part : drc_part_init [self] 1 zero_mngr = Ok (w_part w);
  sw_phase : w_phase w = Idle /\ w_awake w = false;
}.

Lemma ascending_one x : ascending [x].
Proof.
  intros a b u v Ha Hb Hab. apply lookup_lt_Some in Ha, Hb. cbn in *. lia.
Qed.

Lemma inv_start w : start_world w -> cluster_inv w.
Proof.
  intros [Hs Hi Hst Hc Hd Hp [Hph Haw]].
  assert (len (w_insts w) = n) as Hl by (rewrite Hi; unfold len; rewrite length_insert, length_replicate; lia).
  assert (forall x, 0 <= x < n -> state_at (w_insts w) x = if decide (self = x) then Joined else Offline) as Hat.
  { intros x Hx. rewrite Hi, state_at_insert by (unfold len; rewrite ?length_replicate; lia). case_decide; [done|].
    unfold state_at. by rewrite lookup_replicate_2 by lia. }
  destruct (snapshot_shows (w_version w) self (w_insts w) ltac:(lia)) as (l & El & Hlv & Sn).
  assert (l = cd_current (w_data w)) as -> by congruence. rewrite Hl in Sn.
  assert (Forall is_inst [self]) as FI by (repeat constructor; unfold is_inst; lia).
  destruct (part_init_ok [self] zero_mngr fresh_zero ltac:(discriminate) (ascending_one self) FI) as (m' & E & B & U & _ & _ & Hn' & Hs').
  change (len [self]) with 1 in E, B, Hn'. assert (m' = w_part w) as -> by congruence.
  destruct (part_init_rest _ _ _ _ E ltac:(lia) eq_refl) as [_ Hf]. clear E Hp Hd El.
  destruct Hs as [Hs Hn64]. split; [exact Hl|exact Hn64|exact Hs| |exact Hc| |].
  - rewrite Hat by lia. by rewrite decide_True.
  - intros x b. rewrite Hst. discriminate.
  - exists (state_at (w_insts w)). split; [done|]. unfold phase_inv. rewrite Hst, Hph, Haw, Hlv. split; [rewrite Hat by lia; by rewrite decide_True|]. split; [lia|]. split; [done|].
    split; cbn; rewrite ?Hst.
    + split; try done.
      * rewrite Hn'. by eexists.
      * by rewrite Hs'.
      * intros x Hx. rewrite U by done. apply bool_decide_ext. rewrite list_elem_of_singleton. destruct Hx. split.
        -- intros ->. split; [lia|]. rewrite Hat by lia. by rewrite decide_True.
        -- intros [Hlt Hne]. rewrite Hat in Hne by lia. by case_decide.
      * right. intros x Hx Hne. rewrite Hat by lia. by rewrite decide_False.
    + intros x Hx. rewrite Hat by done. case_decide; [done|by left].
    + intros x Hx. rewrite Hat by done. by case_decide.
    + done.
Qed.

Lemma cluster_inv_reach w0 w : start_world w0 -> rtc (calm_step self) w0 w -> cluster_inv w.
Proof. intros H R. apply inv_start in H. induction R; [done|]. apply IHR. by eapply cluster_inv_step. Qed.

(** ** What the invariant says of the members *)
Definition online (f : Z -> inst_state) : list Z := filter (fun x => f x <> Offline) (seqZ 0 n).

Lemma elem_of_online f x : x ∈ online f <-> 0 <= x < n /\ f x <> Offline.
Proof. unfold online. rewrite list_elem_of_filter, elem_of_seqZ. split; intros [? ?]; (split; [lia|done]) || (split; [done|lia]). Qed.

Lemma part_even m f : n <= OG_MAX_INSTANCES -> part_ok m f -> even_over (online f) (part_map m) (inst_part_tbl m).
Proof.
  intros Hn [(ls & B) _ U _].
  assert (forall x, is_inst x -> used_of (inst_part_tbl m) x = bool_decide (x ∈ online f)) as U'.
  { intros x Hx. rewrite U by done. apply bool_decide_ext. rewrite elem_of_online. destruct Hx. split; [intros [? ?]|intros [? ?]]; (split; [lia|done]). }
  exists ls. split; [|exact U']. rewrite <- (even_over_num (online f) _ _ _ _ B); [done| | |exact U'].
  - apply NoDup_filter, NoDup_seqZ.
  - apply Forall_forall. intros x [Hx _]%elem_of_online. split; lia.
Qed.

(** An instance that has reported that it joined is online in the list that
    tells the members. *)
Lemma follows_joined mastered st f ss x : follows mastered st f ss -> 0 <= x < n -> state_at ss x = Joined -> f x <> Offline.
Proof. intros F Hx Hj Ho. specialize (F x Hx). rewrite Ho in F. destruct F as [|[]]; congruence. Qed.

Lemma inv_members w : cluster_inv w ->
  exists members, even_over members (part_map (w_part w)) (inst_part_tbl (w_part w)) /\
    self ∈ members /\ (forall x, 0 <= x -> w_insts w !! Z.to_nat x = Some Joined -> x ∈ members) /\
    (w_phase w <> Mastered -> forall x, 0 <= x < n -> x ∈ members <-> entry (cd_current (w_data w)) x <> None) /\
    (w_phase w = Mastered -> forall x, 0 <= x < n -> x ∈ members <-> x ∈ rl_after (rx_lists (w_ctx w))).
Proof.
  intros [Hl Hn Hs Hr _ _ (fc & Sc & Fs & _ & _ & Hp)].
  assert (forall x, 0 <= x -> w_insts w !! Z.to_nat x = Some Joined -> 0 <= x < n /\ state_at (w_insts w) x = Joined) as Hj.
  { intros x Hx Ex. destruct (state_at_some _ _ _ Ex Hx). rewrite <- Hl. done. }
  assert (forall x, 0 <= x < n -> x ∈ online fc <-> entry (cd_current (w_data w)) x <> None) as Hcur.
  { intros x Hx. rewrite elem_of_online, (entry_shows n _ fc x Sc Hx). destruct (fc x); naive_solver. }
  assert (idle w fc \/ pending false w fc -> w_phase w <> Mastered -> exists members, even_over members (part_map (w_part w)) (inst_part_tbl (w_part w)) /\
    self ∈ members /\ (forall x, 0 <= x -> w_insts w !! Z.to_nat x = Some Joined -> x ∈ members) /\
    (w_phase w <> Mastered -> forall x, 0 <= x < n -> x ∈ members <-> entry (cd_current (w_data w)) x <> None) /\
    (w_phase w = Mastered -> forall x, 0 <= x < n -> x ∈ members <-> x ∈ rl_after (rx_lists (w_ctx w)))) as Hnot.
  { intros Hi Hph. assert (lookable w fc) as (Mv & Pk & _).
    { destruct Hi as [Hi|Hi]; [|by apply pending_lookable]. pose proof (idle_moves _ _ Hi). destruct Hi. by split_and!. }
    exists (online fc). split; [by apply part_even|]. split; [apply elem_of_online; rewrite Fs; done|]. split_and!; try done.
    intros x Hx [Hxn Hxj]%Hj; [|done]. apply elem_of_online. split; [done|]. specialize (Mv x Hxn). rewrite Hxj in Mv. by destruct (fc x). }
  unfold phase_inv in Hp. destruct (w_phase w) eqn:Ephase, (w_awake w); try done; try (apply Hnot; [tauto|done]).
  destruct Hp as [[(ft & am & [[B0 B1 B2 Bs Bi] B3 B4 B5 B6 _ B7 B8])|(g & [[P1 P2 P3 P4] (am & A & B & fa & fb & [Sa Sb Mv _ Ei] & Same) _ _ _])] _].
  - exists (online ft). split; [by apply part_even|]. split; [apply elem_of_online; split; [done|]; by destruct Bs as [_ ->]|]. split_and!; try done.
    + intros x Hx [Hxn Hxj]%Hj; [|done]. apply elem_of_online. split; [done|]. by eapply follows_joined.
    + intros _ x Hx. rewrite elem_of_online, (after_shows n am _ _ _ _ B0 B1 B2 _ _ Bi x Hx). naive_solver.
  - exists (online fc). split; [by apply part_even|]. split; [apply elem_of_online; rewrite Fs; done|]. split_and!; try done.
    + intros x Hx [Hxn Hxj]%Hj; [|done]. apply elem_of_online. split; [done|]. by eapply follows_joined.
    + intros _ x Hx. rewrite elem_of_online, (after_shows n am _ _ _ _ Sa Sb Mv _ _ Ei x Hx), (Same x Hx). naive_solver.
Qed.

(** The reformer's look at the cluster returns. *)
Lemma check_id_spec x l : check_id_in_list x l = true -> x ∈ l.
Proof. induction l as [|y l IH]; cbn; [done|]. destruct (Z.eqb_spec x y) as [->|]; set_solver. Qed.

Lemma stay_role r x : x ∉ rl_joins r -> x ∉ rl_leaves r -> rc_get_role r x <> REFORM_ROLE_JOIN /\ rc_get_role r x <> REFORM_ROLE_LEAVE.
Proof.
  intros Hj Hl. unfold rc_get_role. destruct (check_id_in_list x (rl_aborts r)), (check_id_in_list x (rl_fails r)); try done.
  destruct (check_id_in_list x (rl_leaves r)) eqn:E1; [by apply check_id_spec in E1|].
  destruct (check_id_in_list x (rl_joins r)) eqn:E2; [by apply check_id_spec in E2|done].
Qed.

Lemma detect_ok cur tgt fc ft ch abort_map c d : shows n cur fc -> shows n tgt ft -> (forall x, 0 <= x < n -> moves_ok (fc x) (ft x)) ->
  ft self = Joined -> (ch = true -> rx_cur c = cur /\ rx_tgt c = tgt) -> rx_self c = self -> exists res, rc_detect_reform_triggered ch abort_map c d = Ok (Go res).
Proof.
  intros Sc St Mv Fs Hc Hself. unfold rc_detect_reform_triggered. destruct ch; cbn [negb]; [|by eexists]. destruct (Hc eq_refl) as [C1 C2].
  destruct (RC_REFORM_IN_PROGRESS c); [by eexists|]. unfold ctx_get_reform_info. rewrite C1, C2.
  destruct (reform_info_ok abort_map cur tgt (shows_wf _ _ _ Sc) (shows_wf _ _ _ St)) as (mc & r & E & _). rewrite E. cbn [mbind outcome_bind].
  destruct mc; cbn [negb]; [|by eexists]. set (c' := mk_ctx _ _ _ _ _ _ _ _ _ _).
  assert (self ∉ rl_joins r) as Hj by (intros [_ ?]%(joins_shows n abort_map _ _ _ _ Sc St Mv _ _ E); congruence).
  assert (self ∉ rl_leaves r) as Hl by (rewrite (leaves_shows n abort_map _ _ _ _ Sc St Mv _ _ E); apply not_elem_of_nil).
  destruct (stay_role r self Hj Hl) as [R1 R2].
  assert (exists c2 d2, rc_reformer_trigger c' d = Go (c2, d2) /\ rx_tgt c2 = tgt) as (c2 & d2 & -> & Ht).
  { unfold rc_reformer_trigger. destruct (negb (rc_is_master c')); [by do 2 eexists|].
    rewrite (bool_decide_false (_ = REFORM_ROLE_JOIN)), (bool_decide_false (_ = REFORM_ROLE_LEAVE)) by (cbn; by rewrite Hself).
    rewrite andb_false_r. by do 2 eexists. }
  destruct (cluster_view_ok (rx_tgt c2) (mk_cview (cv_joining (rx_view c2)) false (cv_bitmap (rx_view c2)) (sl_version (rx_tgt c2)) (cv_reform_bitmap (rx_view c2)))) as (v & ->).
  { rewrite Ht. by eapply shows_wf. }
  by eexists.
Qed.

Lemma inv_look w now readable written abort_map : cluster_inv w -> snapshot (w_version w) self (w_insts w) = Ok (Some now) ->
  exists changed c1 d1 res, rc_master_stat_changed true (Some now) readable written (w_ctx w) (w_data w) = Ok (changed, c1, d1) /\
    rc_detect_reform_triggered changed abort_map c1 d1 = Ok (Go res).
Proof.
  intros [Hl Hn Hs Hr (I1 & I2 & I3) _ (fc & Sc & Fs & _ & _ & Hp)] En.
  destruct (snapshot_shows (w_version w) self (w_insts w) ltac:(lia)) as (l & El & _ & Sn). assert (l = now) as -> by congruence. rewrite Hl in Sn.
  assert (exists r, rc_master_stat_changed true (Some now) readable written (w_ctx w) (w_data w) = Ok r) as ([[ch c1] d1] & Ec).
  { unfold rc_master_stat_changed, master_fetched, rc_refresh_alive_bitmap. destruct (RC_REFORM_IN_PROGRESS (w_ctx w)); [by eexists|]. cbn [negb].
    destruct (alive_loop_ok now (Z.to_nat n) 0 0 (shows_wf _ _ _ Sn)) as (b & Eb); [lia|lia|].
    cbn [rx_tgt rx_set_tgt]. rewrite (sh_count _ _ _ Sn), Eb. cbn [mbind outcome_bind]. repeat case_match; by eexists. }
  destruct (master_changed_spec _ _ _ _ _ _ _ _ Ec I3) as (C & A1 & _). destruct ch.
  2: { exists false, c1, d1. eexists. split; [done|reflexivity]. }
  destruct C as [(? & _)|[(? & _)|(_ & C1 & C2 & _)]]; [done..|].
  assert (lookable w fc) as (Mv & _ & _).
  { assert (RC_REFORM_IN_PROGRESS (w_ctx w) = false) as Hnb by (unfold rc_master_stat_changed in Ec; by destruct (RC_REFORM_IN_PROGRESS (w_ctx w))).
    unfold phase_inv in Hp. destruct (w_phase w), (w_awake w); try done; try (by apply pending_lookable); try (destruct Hp; congruence).
    pose proof (idle_moves _ _ Hp). destruct Hp. by split_and!. }
  destruct (detect_ok _ _ _ _ true abort_map c1 d1 Sc Sn Mv Hr) as (res & Er); [done|congruence|by exists true, c1, d1, res].
Qed.
End Inv.
