(* ===== verification/RcProps.v ===== *)
(** The properties of the coordinator of reforms: the lists of a reform, the
    members of the cluster and the assignment of partitions in every state
    that it can reach, and what happens with a deleted node, with an instance
    that starts during a reform, after a remaster that failed, and when
    instances join and crash together. *)

From S2P Require Import Prelude DrcBitmap DrcGlobalRes DrcReform DrcPart DrcPartInv DrcPartThm DrcPartIn DrcPartInit DrcPartReform DrcPartProps.
From S2P Require Import DrcRemaster DrcRemasterFsm DrcRemasterInv RcReform RcTrigger RcLists RcMembers RcCluster RcClusterInv.

(** ** Running the cluster *)

(** Steps as commands. *)
Inductive command := Admit (x : Z) | Register (x : Z) | Unlock (x : Z) | Kill (x : Z) | Observe | Take | Freeze | Remaster | Report (x : Z) | Finish.

Definition fine_steps : steps :=
  mk_steps OG_SUCCESS OG_SUCCESS OG_SUCCESS REFORM_RECOVER_DONE false OG_SUCCESS OG_SUCCESS OG_SUCCESS OG_SUCCESS OG_SUCCESS OG_SUCCESS OG_SUCCESS OG_SUCCESS.

Definition is_yes (r : outcome (option bool)) : bool := match r with Ok (Some true) => true | _ => false end.

Definition exec (self : Z) (cmd : command) (w : world) : option world :=
  let '(mk_world ss v st c d m p a) := w in
  match cmd with
  | Admit x =>
      if (0 <=? x) && bool_decide (st = None) && bool_decide (ss !! Z.to_nat x = Some Offline) &&
         is_yes (cms_check_cluster_reform_stat x (Some (cd_current d)) (Some (cd_target d)))
      then Some (mk_world ss v (Some (x, false)) c d m p a) else None
  | Register x =>
      if bool_decide (st = Some (x, false)) && bool_decide (ss !! Z.to_nat x = Some Offline)
      then Some (mk_world (<[Z.to_nat x := Joining]> ss) (v + 1) (Some (x, true)) c d m p a) else None
  | Unlock x =>
      match st, ss !! Z.to_nat x with
      | Some (y, b), Some s => if (x =? y) && negb (bool_decide (s = Joining)) then Some (mk_world ss v None c d m p a) else None
      | _, _ => None
      end
  | Kill x =>
      match ss !! Z.to_nat x with
      | Some s => if negb (bool_decide (s = Offline)) && (0 <=? x) && negb (x =? self)
                  then Some (mk_world (<[Z.to_nat x := Offline]> ss) (v + 1) st c d m p a) else None
      | None => None
      end
  | Observe =>
      match snapshot v self ss with
      | Ok (Some now) =>
          match rc_master_stat_changed true (Some now) true true c d with
          | Ok (changed, c1, d1) =>
              match rc_detect_reform_triggered changed (Some (cd_abort_map d1)) c1 d1 with
              | Ok (Go (_, woken, c2, d2)) => Some (mk_world ss v st c2 d2 m p (a || woken))
              | _ => None
              end
          | _ => None
          end
      | _ => None
      end
  | Take => match p, a with Idle, true => Some (mk_world ss v st c d m Taken false) | _, _ => None end
  | Freeze => match p with Taken => Some (mk_world ss v st (rx_set_status REFORM_FROZEN c) d m Frozen a) | _ => None end
  | Remaster =>
      match p with
      | Frozen =>
          if negb (rc_full_restart (rx_info c)) &&
             (bool_decide (rl_aborts (rx_lists c) = []) || (bool_decide (rl_joins (rx_lists c) = []) && bool_decide (rl_leaves (rx_lists c) = []))) then
            match execute_rebalance false (drc_lists (rx_lists c)) (remaster_start (rc_trigger_version (rx_info c)) self (rx_lists c) m) with
            | Ok (OG_SUCCESS, m') => Some (mk_world ss v st c d (remaster_end (rx_lists c) m') Mastered a)
            | _ => None
            end
          else None
      | _ => None
      end
  | Report x =>
      match p with
      | Mastered =>
          if bool_decide (ss !! Z.to_nat x = Some Joining) && bool_decide (x ∈ rl_joins (rx_lists c))
          then Some (mk_world (<[Z.to_nat x := Joined]> ss) v st c d m Mastered a) else None
      | _ => None
      end
  | Finish =>
      match p, snapshot v self ss with
      | Mastered, Ok (Some now) =>
          match reform_turn (rc_get_change_mode (rx_lists c)) true false fine_steps [now] c d with
          | Ok (Go (Some (c', d'))) => if negb (rc_have_error (rx_info c')) then Some (mk_world ss v st c' d' m Idle a) else None
          | _ => None
          end
      | _, _ => None
      end
  end.

Fixpoint exec_all (self : Z) (cmds : list command) (w : world) : option world :=
  match cmds with [] => Some w | a :: cmds' => match exec self a w with Some w' => exec_all self cmds' w' | None => None end end.

(** A run in which the thread that reforms is not woken up while it starts. *)
Fixpoint exec_calm (self : Z) (cmds : list command) (w : world) : option world :=
  match cmds with
  | [] => Some w
  | a :: cmds' =>
      match exec self a w with
      | Some w' => if bool_decide (w_phase w = Taken) && w_awake w' then None else exec_calm self cmds' w'
      | None => None
      end
  end.

(** A command is a step. *)
Lemma exec_step self a w w' : exec self a w = Some w' -> cluster_step self w w'.
Proof.
  destruct w as [ss v st c d m p aw]. destruct a as [x|x|x|x| | | | |x|]; cbn [exec]; intros E.
  - destruct (cms_check_cluster_reform_stat _ _ _) as [[[|]|]|] eqn:Ec; cbn [is_yes] in E; rewrite ?andb_false_r, ?andb_true_r in E; try done.
    destruct (Z.leb_spec 0 x); cbn [andb] in E; [|done]. do 2 case_bool_decide; cbn [andb] in E; simplify_eq. by apply step_admit.
  - do 2 case_bool_decide; cbn [andb] in E; simplify_eq. by apply step_register.
  - destruct st as [[y b]|]; [|done]. destruct (ss !! Z.to_nat x) as [s|] eqn:Ex; [|done].
    destruct (Z.eqb_spec x y) as [<-|]; cbn [andb] in E; [|done]. case_bool_decide; cbn in E; simplify_eq. by eapply step_unlock.
  - destruct (ss !! Z.to_nat x) as [s|] eqn:Ex; [|done]. case_bool_decide; cbn [negb andb] in E; [done|].
    destruct (Z.leb_spec 0 x); cbn [andb] in E; [|done]. destruct (Z.eqb_spec x self); cbn in E; simplify_eq. by eapply step_crash.
  - destruct (snapshot v self ss) as [[now|]|] eqn:En; try done.
    destruct (rc_master_stat_changed _ _ _ _ _ _) as [[[ch c1] d1]|] eqn:Ec; [|done].
    destruct (rc_detect_reform_triggered _ _ _ _) as [[[[[ret woken] c2] d2]|]|] eqn:Ed; simplify_eq. by eapply step_observe.
  - destruct p, aw; simplify_eq. apply step_take.
  - destruct p; simplify_eq. apply step_freeze.
  - destruct p; try done. destruct (rc_full_restart (rx_info c)) eqn:Hfr; cbn [negb andb] in E; [done|]. destruct (_ || _) eqn:Hm; [|done]. destruct (execute_rebalance _ _ _) as [[[] m']|] eqn:Er; simplify_eq. apply step_remaster; [done| |done].
    apply orb_true_iff in Hm as [?%bool_decide_eq_true|[?%bool_decide_eq_true ?%bool_decide_eq_true]%andb_true_iff]; [by left|by right].
  - destruct p; try done. do 2 case_bool_decide; cbn [andb] in E; simplify_eq. by apply step_joined.
  - destruct p; try done. destruct (snapshot v self ss) as [[now|]|] eqn:En; try done.
    destruct (reform_turn _ _ _ _ _ _ _) as [[[[c' d']|]|]|] eqn:Ep; try done. destruct (rc_have_error (rx_info c')) eqn:He; cbn [negb] in E; simplify_eq.
    by eapply step_finish.
Qed.

Lemma exec_all_rtc self cmds w w' : exec_all self cmds w = Some w' -> rtc (cluster_step self) w w'.
Proof.
  revert w. induction cmds as [|a cmds IH]; intros w E; cbn [exec_all] in E; [by simplify_eq|].
  destruct (exec self a w) as [w1|] eqn:Ea; [|done]. eapply rtc_l; [by apply exec_step in Ea|by apply IH].
Qed.

Lemma exec_calm_rtc self cmds w w' : exec_calm self cmds w = Some w' -> rtc (calm_step self) w w'.
Proof.
  revert w. induction cmds as [|a cmds IH]; intros w E; cbn [exec_calm] in E; [by simplify_eq|].
  destruct (exec self a w) as [w1|] eqn:Ea; [|done]. destruct (bool_decide (w_phase w = Taken) && w_awake w1) eqn:Ec; [done|].
  eapply rtc_l; [|by apply IH]. split; [by apply exec_step in Ea|]. intros Ht. rewrite (bool_decide_true _ Ht) in Ec. exact Ec.
Qed.

(** ** A cluster of three *)
Definition demo_ctx : rc_ctx :=
  mk_ctx 0 false false (zero_slist 0 0) (zero_slist 0 0) no_lists
    (mk_info 0 0 0 REFORM_ROLE_STAY 0 0 false 0 false true false 0) REFORM_MODE_NONE REFORM_DONE (mk_cview false true 0 0 0).
Definition demo_states : list inst_state := [Joined; Offline; Offline].
Definition demo_slist : cms_res_status_list := match snapshot 1 0 demo_states with Ok (Some l) => l | _ => zero_slist 0 0 end.
Definition demo_one : drc_part_mngr := match drc_part_init [0] 1 zero_mngr with Ok m => m | Crash _ => zero_mngr end.
Definition demo_world : world := mk_world demo_states 1 None demo_ctx (mk_cdata demo_slist demo_slist 1 0) demo_one Idle false.

Lemma demo_start : start_world 3 0 demo_world.
Proof.
  assert (drc_part_init [0] 1 zero_mngr = Ok demo_one) as E.
  { destruct (part_init_ok [0] zero_mngr fresh_zero ltac:(discriminate) (ascending_one 0)) as (m & E & _).
    - repeat constructor; unfold OG_MAX_INSTANCES; lia.
    - change (len [0]) with 1 in E. unfold demo_one. by rewrite E. }
  split; [split; [lia|unfold OG_MAX_INSTANCES; lia]|reflexivity|reflexivity|split; [reflexivity|split; reflexivity]|vm_compute; reflexivity|exact E|split; reflexivity].
Qed.

(** Instance 1 joins; the reformer looks twice before its reform begins, and
    once during it. *)
Definition join_1 : list command := [Admit 1; Register 1; Observe; Observe; Take; Freeze; Observe; Remaster; Report 1; Unlock 1; Finish; Observe].
(** Then it crashes, and instance 2 starts during the reform. *)
Definition late_2 : list command := join_1 ++ [Admit 2; Kill 1; Observe; Take; Freeze; Register 2; Remaster].

Lemma ran cmds (P : world -> bool) : match exec_calm 0 cmds demo_world with Some w => P w | None => false end = true ->
  exists w, rtc (calm_step 0) demo_world w /\ P w = true.
Proof. destruct (exec_calm 0 cmds demo_world) as [w|] eqn:E; [|discriminate]. intros H. exists w. split; [by eapply exec_calm_rtc|done]. Qed.

(** ** The lists *)

Lemma wants_filter am cur tgt t : wf_slist cur -> wf_slist tgt ->
  filter (on_list am cur tgt t) (seqZ 0 (inst_count cur tgt)) =
  filter (fun x => wants t (seen_before am cur tgt x) (seen tgt x) = true) (seqZ 0 (Z.max (sl_count cur) (sl_count tgt))).
Proof.
  intros Wc Wt. pose proof (inst_count_range cur tgt Wc Wt) as Hr.
  assert (inst_count cur tgt = Z.max (sl_count cur) (sl_count tgt)) as <- by (unfold inst_count; case_match; lia).
  assert (forall x, x ∈ seqZ 0 (inst_count cur tgt) -> on_list am cur tgt t x <-> wants t (seen_before am cur tgt x) (seen tgt x) = true) as H.
  { intros x Hx%elem_of_seqZ. apply on_list_wants; [done..|lia]. }
  induction (seqZ 0 (inst_count cur tgt)) as [|x l IH]; [done|]. rewrite !filter_cons, IH by (intros; apply H; by apply list_elem_of_further).
  specialize (H x (list_elem_of_here _ _)). by repeat case_decide; try tauto.
Qed.

(** C7: the lists of a reform.  On any two status lists with at most 64
    entries [rc_get_reform_info] returns, without an access outside of a list,
    and every list holds, in ascending order, exactly those instances among
    the numbers below the number of entries of the longer list whose states
    before and after call for it ([wants]): a starting instance that is no
    member joins, a member that leaves leaves, a member that is offline or
    starts again crashed, unless it was leaving and its bit is gone from the
    map of crashes to be handled, in which case it has left.  Instances with
    greater numbers are on no list.  No list has an instance twice; one that
    joins is on AFTER and not on BEFORE, one that leaves or crashed is on BEFORE
    and not on AFTER, no instance has two of these roles, nobody is on FAIL;
    and a reform is called for exactly when a list JOIN, LEAVE or ABORT is not
    empty. *)
Theorem reform_lists : forall abort_map cur tgt, wf_slist cur -> wf_slist tgt ->
  exists ch r, rc_get_reform_info abort_map cur tgt = Ok (ch, r) /\
    (forall t, list_of r t = filter (fun x => wants t (seen_before abort_map cur tgt x) (seen tgt x) = true) (seqZ 0 (Z.max (sl_count cur) (sl_count tgt))) /\
       NoDup (list_of r t) /\ Forall is_inst (list_of r t)) /\
    (forall x, x ∈ rl_joins r -> x ∈ rl_after r /\ x ∉ rl_before r /\ x ∉ rl_leaves r /\ x ∉ rl_aborts r) /\
    (forall x, x ∈ rl_leaves r -> x ∈ rl_before r /\ x ∉ rl_after r /\ x ∉ rl_aborts r) /\
    (forall x, x ∈ rl_aborts r -> x ∈ rl_before r /\ x ∉ rl_after r) /\ rl_fails r = [] /\
    (ch = true <-> rl_joins r ++ rl_leaves r ++ rl_aborts r <> []).
Proof.
  intros am cur tgt Wc Wt. destruct (reform_info_ok am cur tgt Wc Wt) as (ch & r & E & Hc & P). exists ch, r. split; [done|].
  split; [intros t; split; [rewrite P; by apply wants_filter|by apply (lists_nodup_inst am cur tgt Wc Wt r ch)]|].
  pose proof (on_lists am cur tgt Wc Wt r ch E) as On. pose proof (row_facts am cur tgt Wc Wt) as Row. cbn zeta in Row.
  assert (forall t x, x ∈ list_of r t -> on_list am cur tgt t x /\ 0 <= x < inst_count cur tgt) as On1 by (intros t x; apply On).
  assert (forall t x, x ∈ list_of r t -> forall u, on_list am cur tgt u x -> x ∈ list_of r u) as On2.
  { intros t x [_ Hx]%On u Hu. apply On. split; done. }
  change (rl_joins r) with (list_of r REFORM_LIST_JOIN). change (rl_after r) with (list_of r REFORM_LIST_AFTER).
  change (rl_before r) with (list_of r REFORM_LIST_BEFORE). change (rl_leaves r) with (list_of r REFORM_LIST_LEAVE).
  change (rl_aborts r) with (list_of r REFORM_LIST_ABORT). change (rl_fails r) with (list_of r REFORM_LIST_FAIL). split_and!.
  - intros x Hx. pose proof (Row x) as (_ & Rj & Rl & Ra & _). destruct (On1 _ _ Hx) as [Hj _]. destruct (Rj Hj) as [R1 R2].
    split; [by eapply On2|]. split_and!; intros [Hy _]%On; [done|apply R2, Rl, Hy|apply R2, Ra, Hy].
  - intros x Hx. pose proof (Row x) as (_ & _ & Rl & _). destruct (On1 _ _ Hx) as [Hj _]. destruct (Rl Hj) as (R1 & R2 & R3).
    split; [by eapply On2|]. split; intros [Hy _]%On; done.
  - intros x Hx. pose proof (Row x) as (_ & _ & _ & Ra & _). destruct (On1 _ _ Hx) as [Hj _]. destruct (Ra Hj) as [R1 R2].
    split; [by eapply On2|]. intros [Hy _]%On; done.
  - apply elem_of_nil_inv. intros x [Hx _]%On. destruct (Row x) as [Rf _]. by apply Rf.
  - rewrite Hc. split.
    + intros (x & Hx & Hm). apply (Row x) in Hm. intros [Hn1 [Hn2 Hn3]%app_nil]%app_nil.
      assert (forall t, list_of r t = [] -> ~ on_list am cur tgt t x) as Hno by (intros t Ht Ho; apply (not_elem_of_nil x); rewrite <- Ht; apply On; done).
      destruct Hm as [Hm|[Hm|Hm]]; [exact (Hno _ Hn1 Hm)|exact (Hno _ Hn2 Hm)|exact (Hno _ Hn3 Hm)].
    + intros Hne. destruct (list_of r REFORM_LIST_JOIN ++ list_of r REFORM_LIST_LEAVE ++ list_of r REFORM_LIST_ABORT) as [|x l] eqn:El; [done|].
      assert (x ∈ list_of r REFORM_LIST_JOIN ++ list_of r REFORM_LIST_LEAVE ++ list_of r REFORM_LIST_ABORT) as Hx by (rewrite El; apply list_elem_of_here).
      exists x. rewrite !elem_of_app in Hx. destruct (Row x) as (_ & _ & _ & _ & Rm). rewrite Rm. rewrite !On in Hx.
      destruct Hx as [[? ?]|[[? ?]|[? ?]]]; tauto.
Qed.

Lemma reform_lists_witness : exists r,
  rc_get_reform_info (Some 1) demo_slist demo_slist = Ok (false, r) /\ rl_after r = [0].
Proof.
  destruct (snapshot_shows 1 0 demo_states ltac:(vm_compute; discriminate)) as (l & E & _ & S). pose proof (shows_wf _ _ _ S) as W.
  assert (demo_slist = l) as -> by (unfold demo_slist; by rewrite E).
  destruct (reform_lists (Some 1) l l W W) as (ch & r & Er & _). exists r. vm_compute in E. injection E as <-. vm_compute in Er. injection Er as <- <-.
  split; reflexivity.
Defined.

(** ** Members and partitions *)

(** C5: the members of the cluster are those that master partitions.  Start
    with one instance, the reformer, which stays; let other instances start
    when the cluster manager admits them, report and crash at any time; let one
    thread of the reformer look at the cluster at any time, also when it has
    already woken up the other one or when that one reforms; let the other
    thread take the mutex, freeze, remaster and end its reforms.  No reform
    fails or has crashed instances together with others that join or leave,
    DRC_IN_REFORMER_MODE is off, node i runs instance i, and no look wakes the
    thread that reforms between its taking the mutex and its setting the status
    ([calm_step]; [reform_runs_twice] shows what happens then).  In every state
    that is reached the partitions are dealt evenly to a set of instances that
    has the reformer and every instance that has reported that it joined; until
    the remaster of a reform is done this set is the one that the current
    status list shows as online, and from then to the end of the reform the
    list AFTER. *)
Theorem cluster_members : forall n self w0 w, start_world n self w0 -> rtc (calm_step self) w0 w ->
  exists members, even_over members (part_map (w_part w)) (inst_part_tbl (w_part w)) /\
    self ∈ members /\ (forall x, 0 <= x -> w_insts w !! Z.to_nat x = Some Joined -> x ∈ members) /\
    (w_phase w <> Mastered -> forall x, 0 <= x < n -> x ∈ members <-> entry (cd_current (w_data w)) x <> None) /\
    (w_phase w = Mastered -> forall x, 0 <= x < n -> x ∈ members <-> x ∈ rl_after (rx_lists (w_ctx w))).
Proof.
  intros n self w0 w H R. pose proof (cluster_inv_reach n self w0 w H R) as I. exact (inv_members n self w I).
Qed.

(** Instance 1 has joined: the state after the commands above. *)
Definition settled_1 (w : world) : bool :=
  bool_decide (w_phase w = Idle) && bool_decide (w_insts w = [Joined; Joined; Offline]) && used_of (inst_part_tbl (w_part w)) 1.

Lemma cluster_members_witness : exists w members, rtc (calm_step 0) demo_world w /\ settled_1 w = true /\
  even_over members (part_map (w_part w)) (inst_part_tbl (w_part w)) /\ 0 ∈ members.
Proof.
  destruct (ran join_1 settled_1 ltac:(vm_compute; reflexivity)) as (w & R & Hw).
  destruct (cluster_members 3 0 demo_world w demo_start R) as (ms & E & H0 & _). exists w, ms. split; [exact R|]. split; [exact Hw|]. split; [exact E|exact H0].
Defined.

(** C6: a reform can always be computed.  In every state that the cluster of
    the previous theorem reaches (the reformer stays, no reform fails or mixes
    crashes with joins and departures, no look wakes the thread that reforms
    while it starts): the reformer's look at the status list of the cluster
    manager returns, without a bad access and without ending the process,
    whatever the other thread is doing; and when the cluster is frozen and the
    lists are not mixed, the remaster's rebalancing with DRC_IN_REFORMER_MODE
    off succeeds, and its target is even over the list AFTER. *)
Theorem cluster_reforms : forall n self w0 w, start_world n self w0 -> rtc (calm_step self) w0 w ->
  (forall now readable written abort_map, snapshot (w_version w) self (w_insts w) = Ok (Some now) ->
     exists changed c1 d1 res, rc_master_stat_changed true (Some now) readable written (w_ctx w) (w_data w) = Ok (changed, c1, d1) /\
       rc_detect_reform_triggered changed abort_map c1 d1 = Ok (Go res)) /\
  (w_phase w = Frozen -> not_mixed (rx_lists (w_ctx w)) ->
     exists m', execute_rebalance false (drc_lists (rx_lists (w_ctx w)))
         (remaster_start (rc_trigger_version (rx_info (w_ctx w))) self (rx_lists (w_ctx w)) (w_part w)) = Ok (OG_SUCCESS, m') /\
       even_over (rl_after (rx_lists (w_ctx w))) (target_part_map m') (target_inst_part_tbl m')).
Proof.
  intros n self w0 w H R. pose proof (cluster_inv_reach n self w0 w H R) as I. split.
  - intros now readable written abort_map En. exact (inv_look n self w now readable written abort_map I En).
  - intros Hp Hm. destruct I as [_ Hn Hs _ _ _ (fc & Sc & Fs & _ & _ & B)]. unfold phase_inv in B. rewrite Hp in B.
    destruct (w_awake w); [done|]. destruct B as [B _]. destruct (pending_lists n self w fc Sc Fs B) as (am & A & T & fa & fb & ch & L & P).
    destruct (rebalance_of n self am A T fa fb ch _ (rc_trigger_version (rx_info (w_ctx w))) _ Hn Hs L P Hm) as (m' & E & Ev & _). by exists m'.
Qed.

(** Instance 1 has registered and the cluster is frozen. *)
Definition frozen_1 (w : world) : bool :=
  bool_decide (w_phase w = Frozen) && bool_decide (rl_aborts (rx_lists (w_ctx w)) = []) && bool_decide (rl_joins (rx_lists (w_ctx w)) = [1]).

Lemma cluster_reforms_witness : exists w m', rtc (calm_step 0) demo_world w /\
  execute_rebalance false (drc_lists (rx_lists (w_ctx w)))
    (remaster_start (rc_trigger_version (rx_info (w_ctx w))) 0 (rx_lists (w_ctx w)) (w_part w)) = Ok (OG_SUCCESS, m').
Proof.
  destruct (ran [Admit 1; Register 1; Observe; Take; Freeze] frozen_1 ltac:(vm_compute; reflexivity)) as (w & R & Hw).
  unfold frozen_1 in Hw. apply andb_true_iff in Hw as [[Hp Ha]%andb_true_iff _]. apply bool_decide_eq_true in Hp, Ha.
  destruct (cluster_reforms 3 0 demo_world w demo_start R) as [_ H]. destruct (H Hp (or_introl Ha)) as (m' & E & _). exists w, m'. split; [exact R|exact E].
Defined.

(** The thread that reforms is woken up a second time while it starts: when
    instance 1 has joined and the reform is over, another reform begins with
    the same lists, by which instance 1, which masters partitions, joins. *)
Definition twice : list command :=
  [Admit 1; Register 1; Observe; Take; Observe; Freeze; Remaster; Report 1; Unlock 1; Finish; Take; Freeze].
Definition joins_again (w : world) : bool :=
  bool_decide (w_phase w = Frozen) && bool_decide (w_insts w = [Joined; Joined; Offline]) && used_of (inst_part_tbl (w_part w)) 1 &&
  bool_decide (rl_joins (rx_lists (w_ctx w)) = [1]).
Theorem reform_runs_twice : exists w, rtc (cluster_step 0) demo_world w /\ joins_again w = true.
Proof.
  assert (match exec_all 0 twice demo_world with Some w => joins_again w | None => false end = true) as H by (vm_compute; reflexivity).
  destruct (exec_all 0 twice demo_world) as [w|] eqn:E; [|discriminate H]. exists w. split; [exact (exec_all_rtc _ _ _ _ E)|exact H].
Qed.

(** C8: planned reforms, departures included.  Let the reformer's assignment
    be even over some instances, the members, all with numbers below the number
    of entries of the longer status list; let each instance's states in the two
    lists be such as its being a member or not allows ([fits]: a member is
    listed as joined, as joining when it has just joined, as leaving when its
    departure failed, or as offline and now joined; one that is not a member is
    not listed as joined); let nobody have crashed, some member stay, and
    DRC_IN_REFORMER_MODE be off.  Then the rebalancing of the lists that
    [rc_get_reform_info] computes succeeds, and its target is even over exactly
    the list AFTER: the members that do not leave and those that join. *)
Theorem reform_planned : forall abort_map cur tgt m ls n r ch x0,
  reformer_ready abort_map cur tgt m ls n r ch x0 -> rl_aborts r = [] ->
  can_reform m ls n (rl_joins r) (rl_leaves r) /\
  (exists m', execute_rebalance false (drc_lists r) m = Ok (OG_SUCCESS, m') /\
     even_over (rl_after r) (target_part_map m') (target_inst_part_tbl m') /\ pm_inst_num m' = len (rl_after r)) /\
  (forall x, is_inst x -> x ∈ rl_after r <->
     (used_of (inst_part_tbl m) x = true \/ x ∈ rl_joins r) /\ x ∉ rl_leaves r).
Proof.
  intros am cur tgt m ls n r ch x0 R Ha. destruct (planned_rebalance am cur tgt m ls n r ch x0 R Ha) as (C & _ & H). split; [done|]. split; [done|].
  intros x Hx. pose proof (after_is am cur tgt m ls n r ch x0 R x Hx) as A. rewrite Ha, app_nil_r in A. unfold without, joined in A.
  rewrite <- (bool_decide_eq_true (x ∈ rl_after r)), A, andb_true_iff, orb_true_iff, negb_true_iff, bool_decide_eq_true, bool_decide_eq_false. done.
Qed.

(** Three members of which one leaves, and a fourth instance that joins. *)
Definition leave_cur : cms_res_status_list :=
  match cms_get_cluster_res_list [Node 0 1 1; Node 1 1 1; Node 2 1 1; Node 3 2 0] (zero_slist 7 0) with Ok (Some l) => l | _ => zero_slist 0 0 end.
Definition leave_tgt : cms_res_status_list :=
  match cms_get_cluster_res_list [Node 0 1 1; Node 1 1 2; Node 2 1 1; Node 3 1 0] (zero_slist 8 0) with Ok (Some l) => l | _ => zero_slist 0 0 end.
Definition leave_lists : reform_list := mk_rlist [0; 1; 2] [0; 2; 3] [3] [1] [] [].

Definition wf_check (l : cms_res_status_list) : bool :=
  (0 <=? sl_count l) && (sl_count l <=? OG_MAX_INSTANCES) &&
  forallb (fun i => match sl_list l !! i with Some e => (0 <=? rs_work e) && (rs_work e <? 4) | None => false end) (seqZ 0 OG_MAX_INSTANCES).

Lemma wf_check_ok l : wf_check l = true -> wf_slist l.
Proof.
  unfold wf_check. rewrite !andb_true_iff. intros [[H1 H2] H3]. split; [lia|]. intros i Hi. apply (forallb_elem _ _ i) in H3; [|apply elem_of_seqZ; lia].
  cbn beta in H3. destruct (sl_list l !! i) as [e|]; [|discriminate]. exists e. split; [done|]. lia.
Qed.

Lemma leave_ready : reformer_ready None leave_cur leave_tgt demo_mngr (init_list [0; 1; 2] 3 DRC_MAX_PART_NUM) 3 leave_lists true 0.
Proof.
  destruct demo_balanced as (Hn & B & U), demo_rest as [D _].
  assert (inst_count leave_cur leave_tgt = 4) as Hc by (vm_compute; reflexivity).
  split; [apply wf_check_ok; vm_compute; reflexivity|apply wf_check_ok; vm_compute; reflexivity|exact B|exact Hn|exact D|vm_compute; reflexivity| | |].
  - intros x Hx. rewrite Hc in Hx. rewrite U by (unfold is_inst, OG_MAX_INSTANCES; lia).
    assert (x = 0 \/ x = 1 \/ x = 2 \/ x = 3) as [->|[->|[->| ->]]] by lia; vm_compute; reflexivity.
  - intros x Hx Hge. rewrite Hc in Hge. rewrite U by exact Hx. apply bool_decide_eq_false. rewrite !elem_of_cons, elem_of_nil. lia.
  - split; [unfold is_inst, OG_MAX_INSTANCES; lia|]. rewrite U by (unfold is_inst, OG_MAX_INSTANCES; lia). split; [reflexivity|apply list_elem_of_here].
Qed.

Lemma reform_planned_witness : exists m', execute_rebalance false (drc_lists leave_lists) demo_mngr = Ok (OG_SUCCESS, m') /\
  even_over [0; 2; 3] (target_part_map m') (target_inst_part_tbl m').
Proof.
  destruct (reform_planned None leave_cur leave_tgt demo_mngr (init_list [0; 1; 2] 3 DRC_MAX_PART_NUM) 3 leave_lists true 0 leave_ready eq_refl) as (_ & (m' & E & Ev & _) & _).
  exists m'. split; [exact E|exact Ev].
Defined.

(** ** Where the code falls short *)

(** An instance that starts during a reform blocks its end.  Instance 2 is
    admitted while the cluster is steady; a member crashes, the reformer looks
    at the cluster and reforms, and only then instance 2 registers.  The
    remaster is done, but [wait_alive_bitmap_stable] waits until nobody is
    joining, and instance 2 joins only in a later reform: until it crashes
    the reform does not end. *)
Definition blocked (w : world) : bool :=
  bool_decide (w_phase w = Mastered) && bool_decide (w_start w = Some (2, true)) && bool_decide (state_at (w_insts w) 2 = Joining) &&
  negb (bool_decide (2 ∈ rl_joins (rx_lists (w_ctx w)))).

Definition blocked_crash (w : world) : bool := blocked w && bool_decide (rl_joins (rx_lists (w_ctx w)) = []).

Lemma blocked_step w w' : cluster_inv 3 0 w -> blocked w = true -> calm_step 0 w w' -> state_at (w_insts w') 2 = Joining -> blocked w' = true.
Proof.
  unfold blocked. rewrite !andb_true_iff, !negb_true_iff, !bool_decide_eq_true, !bool_decide_eq_false. intros I (((Hp & Hs) & Hj) & Hn) S Hj'.
  destruct S as [S _]. destruct S as [ss v c d m p a x E1 E2 E3|ss v c d m p a x E1|ss v c d m p a x b s E1 E2|ss v st c d m p a x s E1 E2 E3 E4
    |ss v st c d m p a now rb wb am ch c1 d1 ret wk c2 d2 E1 E2 E3|ss v st c d m|ss v st c d m a
    |ss v st c d m m' a E0 E1 E2|ss v v' st c d m a x E1 E2 E3|ss v st c d m a now mode pr na s c' d' E1 E2 E3]; cbn in *; try done; try (split_and!; done).
  - injection Hs as -> ->. destruct (state_at_some _ _ _ E1 ltac:(lia)) as [_ Hx]. congruence.
  - assert (RC_REFORM_IN_PROGRESS c = true) as Hip.
    { destruct I as [_ _ _ _ _ _ (fc & _ & _ & _ & _ & B)]. unfold phase_inv in B. cbn in B. rewrite Hp in B. destruct a; [done|]. by destruct B. }
    unfold rc_master_stat_changed in E2. rewrite Hip in E2. injection E2 as <- <- <-. cbn in E3. injection E3 as <- <- <- <-. split_and!; done.
  - destruct I as [Hl _ _ _ _ _ _]. cbn in Hl. destruct (snapshot_shows v 0 ss ltac:(unfold OG_MAX_INSTANCES; lia)) as (l & El & _ & Sn).
    assert (l = now) as -> by congruence. destruct (reform_turn_spec _ _ _ _ _ _ _ _ _ _ _ Sn E2 E3) as (Hno & _). by destruct (Hno 2); [lia|].
Qed.

Theorem late_joiner_blocks : exists w, rtc (calm_step 0) demo_world w /\ w_phase w = Mastered /\ rl_joins (rx_lists (w_ctx w)) = [] /\
  forall w', rtc (fun a b => calm_step 0 a b /\ state_at (w_insts b) 2 = Joining) w w' -> w_phase w' = Mastered.
Proof.
  destruct (ran late_2 blocked_crash ltac:(vm_compute; reflexivity)) as (w & R & Hw). unfold blocked_crash in Hw.
  apply andb_true_iff in Hw as [Hb Hj%bool_decide_eq_true]. pose proof (cluster_inv_reach 3 0 _ _ demo_start R) as I.
  assert (forall u, blocked u = true -> w_phase u = Mastered) as Hph.
  { unfold blocked. intros u. rewrite !andb_true_iff, bool_decide_eq_true. tauto. }
  exists w. split; [done|]. split; [by apply Hph|]. split; [done|]. intros w' R'. apply Hph. clear R Hj.
  induction R' as [u|u u1 u2 [Hs Hx] _ IH]; [done|]. apply IH; [by eapply blocked_step|by eapply cluster_inv_step].
Qed.

(** A deleted node hides an instance.  Node 0 has been deleted from the
    configuration, so that the status lists have the two entries of the
    instances 1 and 2; [rc_get_reform_info] looks at the instances 0 and 1
    only, and the crash of instance 2 is no change. *)
Theorem deleted_node_hides : exists cur tgt r,
  cms_get_cluster_res_list [NoNode; Node 1 CMS_RES_ONLINE RC_JOINED; Node 2 CMS_RES_ONLINE RC_JOINED] (zero_slist 1 1) = Ok (Some cur) /\
  cms_get_cluster_res_list [NoNode; Node 1 CMS_RES_ONLINE RC_JOINED; Node 2 CMS_RES_OFFLINE RC_JOINING] (zero_slist 2 1) = Ok (Some tgt) /\
  rc_get_reform_info (Some 6) cur tgt = Ok (false, r) /\ rl_aborts r = [].
Proof. do 3 eexists. split; [vm_compute; reflexivity|]. split; [vm_compute; reflexivity|]. split; [vm_compute; reflexivity|reflexivity]. Qed.

(** [rc_get_check_inst_alive] takes an instance for its position: on the
    same list instance 2, which is online, is not alive. *)
Theorem alive_by_position : exists cur,
  cms_get_cluster_res_list [NoNode; Node 1 CMS_RES_ONLINE RC_JOINED; Node 2 CMS_RES_ONLINE RC_JOINED] (zero_slist 1 1) = Ok (Some cur) /\
  entry cur 2 = Some (mk_rstat 2 CMS_RES_ONLINE RC_JOINED) /\
  rc_get_check_inst_alive 2 (rx_set_cur cur demo_ctx) = Ok false.
Proof. eexists. split; [vm_compute; reflexivity|]. split; vm_compute; reflexivity. Qed.

(** After a remaster that failed crashed instances keep their partitions.
    [drc_remaster_need_stop] tells the manager to pass over the instances
    that crashed, although the target of the failed remaster was not
    published: the next remaster leaves the assignment as it is. *)
Theorem failed_remaster_keeps : forall m failed_status gone, pm_remaster_status m <> REMASTER_DONE ->
  let m1 := nd_part (drc_remaster_need_stop failed_status (part_node m)).2 in
  (drc_remaster_need_stop failed_status (part_node m)).1 = true /\
  exists m', execute_rebalance false (mk_rlists [] [] gone []) m1 = Ok (OG_SUCCESS, m') /\
    target_part_map m' = part_map m /\ target_inst_part_tbl m' = inst_part_tbl m.
Proof.
  intros m failed gone Hs. unfold drc_remaster_need_stop. change (nd_status (part_node m)) with (pm_remaster_status m).
  destruct (Z.eqb_spec (pm_remaster_status m) REMASTER_DONE) as [|_]; [done|]. cbn [negb fst snd]. split; [done|].
  eexists. split; [reflexivity|]. split; reflexivity.
Qed.

(** Joining and crashing in one reform: of three members one crashed, a
    fourth instance joins, and a task tells the crashed one to send
    partitions. *)
Definition export_of (r : outcome (status * drc_part_mngr)) (j : Z) : option (Z * Z) :=
  match r with
  | Ok (OG_SUCCESS, m) => if (0 <=? j) && (j <? task_num m) then (fun t => (tk_export t, tk_import t)) <$> remaster_task_set m !! j else None
  | _ => None
  end.
Definition find_export (r : outcome (status * drc_part_mngr)) (x : Z) : option Z :=
  List.find (fun j => match export_of r j with Some (e, _) => e =? x | None => false end) (seqZ 0 DRC_MAX_PART_NUM).

Lemma find_export_some r x j : find_export r x = Some j -> exists to, export_of r j = Some (x, to).
Proof.
  unfold find_export. intros [_ E]%List.find_some. destruct (export_of r j) as [[e t]|]; [|discriminate]. apply Z.eqb_eq in E as ->. by exists t.
Qed.

Theorem join_and_crash : exists j to,
  export_of (execute_rebalance false (mk_rlists [3] [] [1] []) (report_failure demo_mngr)) j = Some (1, to).
Proof. eexists. eapply find_export_some. vm_compute. reflexivity. Qed.

(** Some failures of a reform do not say in which status it failed: when the
    resources of the remaster cannot be cleaned, the status of an earlier
    failure stays. *)
Theorem failed_status_kept : forall primary need_arch s c,
  rc_is_master c = true -> rc_full_restart (rx_info c) = false -> st_build s = OG_SUCCESS -> st_remaster s = OG_SUCCESS -> st_notified s = OG_SUCCESS -> st_clean s = OG_ERROR ->
  exists c', rc_start_reform primary need_arch REFORM_MODE_PLANED s c = Ok (OG_ERROR, c') /\
    rc_failed_status (rx_info c') = rc_failed_status (rx_info c) /\ rx_status c' = REFORM_RECOVER_DONE.
Proof.
  intros primary need_arch s c Hm Hr H1 H2 H3 H4. unfold rc_start_reform, rc_start_new_reform. rewrite H1, (bool_decide_false (OG_SUCCESS = OG_ERROR)) by done.
  change (rc_is_master (rx_set_status REFORM_FROZEN c)) with (rc_is_master c). rewrite Hm. unfold rc_master_reform, master_recover.
  change (rc_full_restart (rx_info (rx_set_status REFORM_FROZEN c))) with (rc_full_restart (rx_info c)). rewrite Hr, H2, H4.
  unfold rc_master_partial_recovery, rc_set_redo_replay_done. rewrite H3. eexists. split; [reflexivity|]. split; reflexivity.
Qed.

(** A status message of an old reform changes nothing, and no message takes
    the status back. *)
Theorem status_message : forall size_ok change version c,
  (version < rc_trigger_version (rx_info c) -> (rc_accept_status_change size_ok change version c).2 = c) /\
  rx_status c <= rx_status (rc_accept_status_change size_ok change version c).2 /\
  (rx_status (rc_accept_status_change size_ok change version c).2 <> rx_status c ->
   change = REFORM_RECOVER_DONE /\ rx_status (rc_accept_status_change size_ok change version c).2 = REFORM_RECOVER_DONE).
Proof.
  intros size_ok change version c. unfold rc_accept_status_change. destruct size_ok; cbn [negb]; [|cbn; split_and!; (done || lia)].
  destruct (Z.ltb_spec version (rc_trigger_version (rx_info c))); [cbn; split_and!; (done || lia)|].
  destruct (Z.leb_spec change (rx_status c)); [cbn; split_and!; (done || lia)|].
  destruct (Z.eqb_spec change REFORM_RECOVER_DONE); [cbn; split_and!; (done || lia)|].
  destruct (Z.eqb_spec change REFORM_DONE); cbn; split_and!; (done || lia).
Qed.

(** ** Whose transactions are taken over *)

Lemma add_all_ok xs skip l : len l + len xs <= OG_MAX_INSTANCES -> add_all xs skip l = Ok (l ++ filter (fun x => skip x = false) xs).
Proof.
  revert l. induction xs as [|x xs IH]; intros l Hl; cbn [add_all]; [by rewrite filter_nil, app_nil_r|].
  unfold len in *. cbn [length] in Hl. rewrite filter_cons. destruct (skip x) eqn:Es.
  - rewrite decide_False by done. apply IH. lia.
  - rewrite decide_True by done. unfold add_id_to_list. rewrite (proj2 (Z.ltb_lt _ _)) by lia. cbn [mbind outcome_bind].
    rewrite IH by (rewrite length_app; cbn [length]; lia). by rewrite <- (assoc_L (++)).
Qed.

Lemma inst_list_room (l : list Z) : NoDup l -> Forall is_inst l -> len l <= OG_MAX_INSTANCES.
Proof.
  intros Hnd Hin. assert (length l <= length ids)%nat as H.
  { apply submseteq_length, NoDup_submseteq; [done|]. intros x Hx. apply elem_of_ids. rewrite Forall_forall in Hin. by apply Hin. }
  unfold ids in H. rewrite length_seqZ in H. unfold len, OG_MAX_INSTANCES in *. lia.
Qed.

Lemma check_id_false x l : check_id_in_list x l = false <-> x ∉ l.
Proof. induction l as [|y l IH]; cbn; [set_solver|]. destruct (Z.eqb_spec x y) as [->|]; set_solver. Qed.

(** The lists of [rc_get_tx_deposit_inst_list] for the lists of a reform: with
    a new reformer all instances of the database that are not on AFTER,
    otherwise those that crashed or leave; and those that join get theirs
    back.  No list overflows. *)
Theorem deposit_lists : forall abort_map cur tgt ch r count, wf_slist cur -> wf_slist tgt ->
  rc_get_reform_info abort_map cur tgt = Ok (ch, r) -> 0 <= count <= OG_MAX_INSTANCES ->
  rc_get_tx_deposit_inst_list false count r = Ok (rl_aborts r ++ rl_leaves r, rl_joins r) /\
  rc_get_tx_deposit_inst_list true count r = Ok (filter (fun x => x ∉ rl_after r) (seqZ 0 count), []).
Proof.
  intros am cur tgt ch r count Wc Wt E Hc. pose proof (on_lists am cur tgt Wc Wt r ch E) as On. pose proof (row_facts am cur tgt Wc Wt) as Row. cbn zeta in Row.
  pose proof (lists_nodup_inst am cur tgt Wc Wt r ch E) as Nd.
  destruct (Nd REFORM_LIST_ABORT) as [Na Ia], (Nd REFORM_LIST_LEAVE) as [Nl Il], (Nd REFORM_LIST_JOIN) as [Nj Ij]. cbn [list_of] in *.
  assert (rl_fails r = []) as Hf.
  { apply elem_of_nil_inv. intros x Hx. apply (On REFORM_LIST_FAIL) in Hx as [Hx _]. destruct (Row x) as [Rf _]. by apply Rf. }
  assert (len (rl_aborts r ++ rl_leaves r) <= OG_MAX_INSTANCES) as Hal.
  { apply inst_list_room; [|by apply Forall_app]. apply NoDup_app. split_and!; try done. intros x Hx Hx'.
    apply (On REFORM_LIST_ABORT) in Hx as [Hx _]. apply (On REFORM_LIST_LEAVE) in Hx' as [Hx' _]. destruct (Row x) as (_ & _ & Rl & _). by apply Rl in Hx' as (_ & _ & ?). }
  assert (forall l : list Z, filter (fun x => (fun _ : Z => false) x = false) l = l) as Hall by (induction l as [|y l IH]; [done|]; by rewrite filter_cons_True, IH).
  unfold len in Hal. rewrite length_app in Hal. pose proof (inst_list_room _ Nj Ij) as Hj. unfold rc_get_tx_deposit_inst_list. split.
  - rewrite (add_all_ok (rl_aborts r) _ []) by (unfold len; cbn [length]; lia). cbn [mbind outcome_bind app]. rewrite Hall.
    rewrite (add_all_ok (rl_leaves r)) by (unfold len in *; lia). cbn [mbind outcome_bind]. rewrite Hall, Hf. cbn [add_all mbind outcome_bind].
    rewrite add_all_ok by (unfold len in *; cbn [length] in *; lia). cbn [mbind outcome_bind app]. do 2 f_equal.
    assert (forall x, x ∈ rl_joins r -> check_id_in_list x (rl_aborts r) = false) as Hdis.
    { intros x Hx. apply check_id_false. intros Hx'. apply (On REFORM_LIST_JOIN) in Hx as [Hx _]. apply (On REFORM_LIST_ABORT) in Hx' as [Hx' _].
      destruct (Row x) as (_ & Rj & _ & Ra & _). by apply Ra in Hx' as [_ ?]; apply Rj in Hx as [? _]. }
    clear -Hdis. induction (rl_joins r) as [|y l IH]; [done|]. rewrite filter_cons_True by (apply Hdis, list_elem_of_here). f_equal. apply IH. intros x Hx. apply Hdis. by apply list_elem_of_further.
  - rewrite add_all_ok by (unfold len; rewrite length_seqZ; cbn [length]; lia). cbn [mbind outcome_bind app]. do 2 f_equal.
    apply list_filter_iff. intros x. apply check_id_false.
Qed.
